(* ===== verification/_CoqProject ===== *)
-Q . S2P
Prelude.v
Effects.v
JsMap.v
JsString.v
Json.v
JsNumber.v
JsonData.v
Regex.v
Sql.v
Roles.v
Engine.v
Registry.v
ToolGate.v
Approval.v
Learner.v
Executor.v
Agents.v
Gatekeeper.v
FlowGraph.v
FlowRepo.v
WorkflowDb.v
JobQueue.v
WorkflowOps.v
EffectBoundary.v
RunHandler.v
SafeExpr.v
SafeExprParse.v
SafeExprPrint.v
SafeExprEval.v
SidecarScheduler.v
SidecarRpc.v
PanelSessions.v
TaskManager.v
RateLimiter.v
Webhook.v
RealtimeGate.v
DaemonBuffers.v
JsDate.v
Cron.v
CronJobs.v
EventBuffer.v
SampleTaint.v
MachineBinding.v
Triggers.v
Commitments.v
CommitmentExecutor.v
Goals.v
GoalTree.v
WorkItems.v
WorkContract.v
Llm.v
LlmManager.v
ToolSelection.v
ToolRelevance.v
ConvTasks.v
ConvRecovery.v
ConvTurn.v
SubAgent.v
Delegate.v
DelegateDispatch.v
LlmOutput.v
PieceEffects.v
