(* ===== verification/Prelude.v ===== *)
(** * Verification of the JARVIS daemon: root file

    The repository is a personal assistant: a TypeScript daemon (src/src) that
    runs language-model turns, gates the tools those turns call, asks the user
    to approve what the rules do not allow, and runs workflows from a SQLite
    queue. This development models the parts of the daemon whose job is to say
    no: who may run what, what an approval lets happen and how often, what a
    canceled or interrupted workflow may still do, what a flow may contain, what
    reaches it from outside, and what is bounded.

    ** Parts and files

    - [Prelude] (this file): notations, tactics, hint databases and the list
      lemmas the others share. [Effects]: a state and error monad. [JsMap],
      [JsString], [Json], [JsNumber]: the standard JavaScript maps, strings, JSON
      functions and binary64 numbers the source uses, with [parse_stringify].
      [Sql]: tables as lists of rows with the statement shapes of the repositories.
    - [Roles] (roles/authority.ts): action categories, levels, the voice
      resolution gate.
    - [Engine] (authority/engine.ts, quick-override.ts, background-profile.ts,
      taint-gating.ts, emergency.ts): [checkAuthority] and its layers, the fold
      over the categories of one call, profiles, the kill switch. Its state is
      the configuration record.
    - [Registry] (actions/tools/registry.ts): registered tools and validated
      execution, split at the call of the tool's body.
    - [ToolGate] (authority/tool-action-map.ts, ui-intent.ts, roles/untrusted.ts):
      the categories a call must clear, the approval card's context, and the
      framing of outside content.
    - [Approval] (authority/approval.ts): the approval_requests table and the
      live bindings of UI approvals, one definition per statement;
      [approval_step] runs any of them, restarts included.
    - [Learner] (authority/learning.ts, audit.ts): approval patterns and the audit
      trail.
    - [Executor] (authority/deferred-executor.ts, daemon/approval-decision.ts,
      authority/approval-delivery.ts): running an approved request, split where it
      awaits the tool; [exec_events] interleaves executions with everything else.
    - [Agents] (agents/agent.ts, agents/hierarchy.ts): agents, bounds, hierarchy.
    - [Gatekeeper] (agents/orchestrator.ts): [execute_tool] and [after_wait] are
      the two halves of executeToolInner, [execute_realtime] is
      executeRealtimeToolCallInner; spawning and temporary grants.
    - [WorkflowDb] (workflows/db/repos/flow-run.ts, run-cancellation.ts,
      waitpoint.ts, delegation.ts), [JobQueue] (workflows/db/repos/job-queue.ts,
      queue/retry-policy.ts, queue/worker.ts, timer-scheduler.ts,
      runtime/effect-approval-scheduler.ts, the resume route of api/routes.ts)
      and [WorkflowOps], which runs arbitrary sequences of their operations.
    - [FlowGraph] (workflows/db/flow-graph.ts): the walk over the steps of a flow.
    - [FlowRepo] (workflows/db/repos/flow.ts, flow-version.ts, flow-code-steps.ts,
      flow-publication.ts, flow-version-ownership.ts): flows, their versions, the
      gate on CODE steps and publication; [flow_steps] runs any of them.
    - [EffectBoundary] (workflows/runtime/effect-boundary.ts, effect-context.ts,
      db/repos/workflow-effect.ts, actions/action-outcome.ts): [invoke] as three
      steps around its two awaits, over the approvals, the engine and the tables
      above; [effect_events] interleaves them with everything else.
    - [RunHandler] (workflows/runner/handler.ts, workflows/sandbox-api/worker-handlers.ts):
      the handler of RUN_FLOW jobs, two steps around the executor it awaits, and
      what the engine reports; [run_events] interleaves them with everything else.
    - [SampleTaint], [MachineBinding] (workflows/runtime/machine-binding.ts,
      workflows/db/repos/run-machine-binding.ts): the machine a run acts on, and the
      check that a preview does not act on unqualified samples.
    - [SafeExpr] (workflows/runtime/safe-expression.ts): tokenizer, parser,
      reference walk and evaluator; [SafeExprParse], [SafeExprPrint], [SafeExprEval]
      hold their theories.
    - [RateLimiter], [Webhook] (workflows/runner/triggers/rate-limiter.ts, webhook.ts,
      workflows/api/routes.ts): the public ingress, split at its awaits.
    - [EventBuffer] (workflows/runtime/event-buffer.ts): published events and polls.
    - [Triggers] (workflows/runner/triggers/manager.ts): the trigger manager; each
      operation runs to its next await and [tr_step] interleaves them, with the
      resources (cron entries, webhooks, bus listeners, retries) it acquires.
    - [JsDate], [Cron], [CronJobs] (lib/cron-scheduler.ts): local-time fields, the
      search for the next firing, the cron jobs and their timers.
    - [SidecarScheduler], [SidecarRpc] (sidecar/scheduler.ts, rpc.ts): the event
      queues of the sidecars and the requests sent to them.
    - [PanelSessions] (sidecar/panel-sessions.ts): sessions of the sidecar panels.
    - [TaskManager] (agents/task-manager.ts): background agent tasks.
    - [RealtimeGate] (daemon/realtime-gate.ts): the plan gate of voice sessions.
    - [DaemonBuffers] (daemon/active-turns.ts, answer-store.ts, event-coalescer.ts,
      debug-rpc-gate.ts, event-classifier.ts): the daemon's bounded buffers.
    - [Commitments], [CommitmentExecutor] (vault/commitments.ts,
      daemon/commitment-executor.ts): the commitments table and the executor that
      announces a due commitment, waits, and runs it; [exec_run] interleaves its
      timers, turns and cancellations.
    - [Goals], [GoalTree] (vault/goals.ts, goals/service.ts, accountability.ts,
      awareness-bridge.ts): goals, their scores and history, and the walks over
      the tree their parents form.
    - [WorkItems], [WorkContract] (goals/work-items.ts, workflow-bridge.ts): Today
      work items with their acceptance contract, over goals, commitments and flow
      runs; [WorkContract] holds their theorems.
    - [Regex]: regular expressions and a matcher ([re_test_spec]). [Llm] (llm/tiers.ts,
      provider.ts): tiers, messages, errors and their classification. [LlmManager]
      (llm/manager.ts, agents/orchestrator.ts: streamTierWithFallback): routing, retries and
      failover; a provider answers as a function of everything that was sent before.
    - [ToolSelection], [ToolRelevance] (actions/tools/tool-relevance/*.ts,
      agents/orchestrator.ts): which tools a turn offers the model, the ledgers of what
      was admitted, and discovery.
    - [ConvTasks] (agents/conv/task-envelope.ts, task-registry.ts, task-dispatcher.ts,
      conv-orchestrator.ts: handleToolCall): delegated tasks; [conv_run] interleaves tool
      calls, returns of runs, aborts and restarts.
    - [ConvRecovery] (agents/conv/conv-tool-recovery.ts): calls a model prints as text.
      [ConvTurn] (agents/conv/conv-orchestrator.ts: streamTurn, processTurn; progress.ts):
      the loop of a conversation turn.
    - [SubAgent] (agents/sub-agent-runner.ts): the loop of a delegated agent with its
      gate, pauses and checkpoints. [Delegate] (workflows/adapters/m7-agent-delegator.ts):
      the delegation of a workflow step, its record and its declared outcome.
      [DelegateDispatch] (workflows/runtime/service-backends.ts: agentDelegate): its
      governed calls as effects.
    - [JsonData]: JSON texts with binary64 numbers. [LlmOutput]
      (workflows/runtime/llm-output-contract.ts): the schemas a model step declares and the
      judgement of its replies. [PieceEffects] (workflows/runtime/piece-effects.ts,
      piece-effect-guard.ts, sandbox-api/routes/jarvis-pieces.ts, service-backends.ts:
      pieceAuthorize): the table of the governed pieces, the projection of a step's input,
      the engine's question and the daemon's answer.

    A tool call flows Gatekeeper -> ToolGate (categories) -> Engine (decision) ->
    Registry (run) or Approval (card); a decision on the card flows Executor ->
    Approval (claim) -> Registry (run) -> Approval (receipt), Learner (pattern).
    A workflow run flows createFlowRun -> enqueue -> claimNextJob -> handle, and
    parks on a waitpoint that one of three callers turns into a new job. A step
    with an effect flows EffectBoundary -> Engine (decision) -> Approval (card)
    and WorkflowDb (waitpoint), and comes back through the resumed job.

    A request from outside flows Webhook -> RateLimiter -> createFlowRun, a timer or
    an event flows Triggers -> CronJobs or EventBuffer -> createFlowRun, and a
    step of the run that drives a machine flows MachineBinding -> SampleTaint.
    A commitment flows Commitments -> CommitmentExecutor -> Approval (when its turn
    asks) -> Commitments; an accepted work item flows WorkItems -> Commitments and
    FlowRepo -> createFlowRun -> enqueue, and its checks come back through the run.

    A turn of the orchestrator flows ToolRelevance (tools offered) -> LlmManager (tiers,
    providers) -> Gatekeeper (its calls). A turn of the conversation flows ConvTurn ->
    LlmManager -> ConvRecovery (text that is a call) -> ConvTasks (its calls), whose runs
    are turns of the orchestrator. A delegation flows EffectBoundary (may it start) ->
    Delegate (its record) -> Gatekeeper (spawning) -> SubAgent -> ToolGate and Engine
    (each call) -> Registry (run) or DelegateDispatch -> EffectBoundary -> Approval. A reply of
    a model step flows JsonData -> LlmOutput, which gives the step its value or the failure the
    [EffectBoundary] records. A governed piece flows PieceEffects (question, route) ->
    EffectBoundary -> Approval before its own code runs in the engine.

    ** What the theorems show

    - Gate: no tool body is reached by a text turn or the deferred executor without
      the checks that call for it, apart from the intent the card tool itself runs
      ([direct_runs_are_cleared],
      [dispatched_calls_are_authorised], [ui_actions_never_run_unreviewed],
      [registry_dispatch_is_validated]); supporting facts: [voice_runs_are_cleared],
      [gate_decision_sound], [resolve_gate_covers], [level_denial_exact],
      [profiles_only_tighten], [combine_decisions_spec], [quick_override_effective],
      [spawned_agents_are_bounded], [untrusted_results_are_framed].
    - Approvals: at most one execution per request over every interleaving and
      restart, and every claim ends in a receipt ([dispatched_at_most_once];
      also [claimed_execution_leaves_receipt], [execution_claimed_at_most_once],
      [approval_has_one_executor], [abandoned_gate_leaves_no_orphan],
      [reconcile_settles_every_row], [approval_rows_evolve],
      [decision_runs_deferred_only], [resolution_never_repeats],
      [unresolved_rows_spec], [ui_approval_is_bound], [gate_context_round_trip]).
    - Records: the learner implements a streak machine per pair
      ([learner_refines]), the hierarchy is a forest and its removal terminates
      ([hierarchy_invariant]); [audit_stats_exact].
    - Workflow queue: a job is attempted once, a run begins once whatever jobs
      name it, cancellation is final while the flow exists, a waitpoint resumes once
      ([workflow_job_claimed_once], [run_begins_once], [canceled_run_stays_stopped],
      [waitpoint_resumes_once], [fail_job_spec]; also [engine_cannot_revive_a_run],
      [recovery_leaves_nothing_running], [claim_takes_the_best],
      [handled_job_is_settled], [run_config_is_frozen]).
    - Workflow effects: an effect is dispatched at most once and only when everything
      clears it ([effect_dispatched_at_most_once], [effect_dispatch_is_cleared]; also
      [effect_outcome_is_final]); a run acts on one machine
      ([run_acts_on_one_machine]) and the sample check of a preview is exactly
      reachability ([preview_taint_exact]).
    - Flows: CODE is published only where it was granted ([published_code_was_granted];
      also [locked_version_is_final], [walk_finds_every_step]).
    - Triggers and cron: the runs and jobs a trigger writes are for versions that were
      live, enabled and granted when it was registered, subscriptions own what they acquired
      ([trigger_runs_are_cleared], [subscriptions_own_resources]); the next firing
      is the first matching minute ([next_run_is_first_match]; also
      [cron_fires_once_per_minute]).
    - Expressions: the parser inverts the printer, evaluation ends and returns
      bounded plain data ([parse_print], [evaluation_terminates],
      [evaluation_returns_bounded_data]; also [references_exact],
      [evaluation_reads_its_references]).
    - Ingress and queues: a secured webhook fires only for a signed body, the sidecar
      scheduler loses nothing and is fair, a request to a sidecar is settled once, at
      most five tasks run ([webhook_fires_only_signed], [scheduler_loses_nothing],
      [scheduler_is_fair], [rpc_refines_lifecycle], [task_runs_are_bounded]; also
      [webhook_runs_are_budgeted], [poll_misses_nothing], [panel_access_is_bounded],
      [insertion_is_push_and_sort], [restart_keeps_panels],
      [limiter_bounds_window], [exclusion_never_flaps], [drain_waits_for_turns],
      [store_keeps_last], [flush_reports_batch]).
    - Commitments, goals and work items: a commitment runs only after it was
      announced ([execution_was_announced]); accepted work starts one run and a decided
      item is frozen ([accepted_work_runs_once], [decided_work_is_frozen]; also
      [parked_commitment_waits], [goal_tree_terminates], [checked_result_spec],
      [scores_have_history]).
    - Models: a call reaches only providers mapped to its tier, within its budget of
      attempts and waits, and an answer has one author ([tier_calls_are_routed],
      [stream_has_one_author]); a filtered turn keeps the framing of outside content and
      goes only to models the classifier cleared ([filtered_turns_keep_framing],
      [filtered_calls_reach_cleared_models]).
    - Conversation: the runs of a task continue exactly the conversation of its last
      pause, also after a restart from a table that missed no write
      ([tasks_continue_their_conversation], [restart_keeps_questions]); a turn ends, and the model is told of every call that
      ran exactly once ([turns_end], [calls_are_answered]); a printed call comes back as
      the call and nothing is recovered twice ([printed_calls_round_trip],
      [recovered_calls_are_new]).
    - Delegation: a sub-agent's calls are judged with everything that calls which did not fail
      have brought in ([subagent_calls_are_judged]); a delegation survives crashes without
      repeating a saved turn, and an approval only delays it ([delegations_survive_crashes],
      [decisions_continue_delegations]); declared success means that the conversation finished
      and the required tools did their work ([succeeded_delegations_did_their_work]); a governed call is answered from its record
      for ever ([decided_calls_keep_their_answer]; also [governed_calls_run_approved],
      [clean_up_spawned]).
    - Model output: a step gets a value exactly when the reply is JSON that satisfies what the
      step declared, and a declaration that is accepted is honoured keyword by keyword
      ([replies_meet_their_contract], [accepted_schemas_are_honoured]; also
      [labels_are_contained], [violations_are_bounded]).
    - Governed pieces: a verified piece acts only on a reply of the daemon, which the daemon gives
      only when the action is authorised, and the connection of a step stays in the engine ([governed_actions_are_authorised], [connections_stay_inside]; also
      [unmapped_actions_are_worst_case], [small_inputs_are_judged_whole], and what the
      projection hides: [changes_past_the_bound_are_not_seen]).

    ** Conventions

    Generated ids, the clock, the hour and random values are arguments. A call
    into code the source only calls (a tool body, a job handler, a UI guard) is a
    parameter, and an operation that awaits one is split there, so that any
    operation may run in between. An operation that throws returns [inl]; SQL
    statements run one after the other, as the single connection runs them.
    Numbers are integers ([Z]) where the code stores times, levels and counters,
    and binary64 ([JsNumber.number]) where a value comes from outside (expressions, model
    output, Content-Length). Strings are sequences of code units below 256, so an escape above
    \u00FF has no value, and the JSON of [Json] has no fractions: a webhook body or a printed
    call with one of these, which the runtime would parse, is not parsed in the model.

    Fuel: [Json.parse] uses the length of its input plus one, enough for every
    printed value ([parse_stringify]); [removeAgent] and the tree builder take a
    depth, and [hierarchy_invariant] proves that the number of operations so far
    is enough; [walk] takes the size of the flow ([walk_total]); [drain] consumes
    one clock reading per job; the loops of the expression parser take the length
    of the remaining tokens and its nesting the source's own limit of 64
    ([evaluation_terminates]); [parse_json] takes two steps a character ([read_value_fuel]);
    the sample walk takes the number of loop roots it can
    still push ([preview_taint_exact]); the cron search takes the source's guard of
    599,999 steps as a binary number; the walks over goals take the number of goals
    ([goal_tree_terminates]); the matcher of regular expressions takes the length of the
    text ([re_test_spec]); a provider is tried three times, a call has at most six
    candidates; the conversation loop takes its own limit of eight ([turns_end]), a sub-agent's loop its cap of iterations.
    Every other recursion is structural.

    ** Not modelled

    Prompts and the requests of the LLM providers; HTTP, WebSocket and channel I/O; tool bodies; the
    page-label heuristics of the UI gate; the workflow engine (vendored), its
    process and the piece catalogue; the ranking and extraction of the vault, the
    natural-language builder and the daily rhythm of goals, awareness and audio;
    the sockets of the sidecars; the dashboard. *)
From Stdlib Require Export ZArith Lia Bool List Sorted.
From stdpp Require Export base tactics option list strings gmap sets.

#[global] Open Scope string_scope.
#[global] Open Scope list_scope.
#[global] Open Scope Z_scope.

(** ** Notations of the development *)

Declare Scope jarvis_scope.
Delimit Scope jarvis_scope with jarvis.

(** JavaScript's nullish coalescing [a ?? b]. *)
Notation "a '??' b" := (default b a) (at level 58, right associativity) : jarvis_scope.

#[global] Open Scope jarvis_scope.

(** ** Hint databases *)

Create HintDb jarvis.
Create HintDb table.

(** ** Generic definitions *)

(** [Array.prototype.includes] on a type with decidable equality. *)
Definition includes {A} `{EqDecision A} (x : A) (l : list A) : bool :=
  existsb (fun y => bool_decide (x = y)) l.

(** [new Set(l)] followed by a spread: the first occurrence of each element, in order. *)
Fixpoint dedup {A} `{EqDecision A} (l : list A) : list A :=
  match l with
  | [] => []
  | x :: l' => x :: List.filter (fun y => negb (bool_decide (x = y))) (dedup l')
  end.

(** Keep the newest [n] elements of a list that grows at its end. *)
Definition keep_last {A} (n : nat) (l : list A) : list A := drop (length l - n) l.

(** The largest element of [l] for a measure, keeping the earliest on ties:
    [l.reduce((a, b) => f(b) > f(a) ? b : a)] with [a] as the first element. *)
Fixpoint reduce_max {A} (f : A -> Z) (a : A) (l : list A) : A :=
  match l with
  | [] => a
  | b :: l' => reduce_max f (if f b >? f a then b else a) l'
  end.

(** Insertion into a list sorted by [le], after the elements equal to [x]
    (the stable order of [Array.prototype.sort] and of a sorted scan). *)
Fixpoint insert_by {A} (le : A -> A -> bool) (x : A) (l : list A) : list A :=
  match l with
  | [] => [x]
  | y :: l' => if le y x then y :: insert_by le x l' else x :: l
  end.

Definition sort_by {A} (le : A -> A -> bool) (l : list A) : list A :=
  foldl (fun acc x => insert_by le x acc) [] l.

(** ** Tactics *)

(** Case analysis on every conditional and match of the goal. *)
Ltac case_all :=
  repeat match goal with
  | |- context [if ?b then _ else _] => destruct b eqn:?; simpl in *; try done
  | |- context [match ?x with _ => _ end] => destruct x eqn:?; simpl in *; try done
  end.

(** Case analysis on the conditionals of a hypothesis. *)
Ltac case_hyp H :=
  repeat match type of H with
  | context [if ?b then _ else _] => destruct b eqn:?; simpl in H; try done
  | context [match ?x with _ => _ end] => destruct x eqn:?; simpl in H; try done
  end.

(** Booleans to propositions, everywhere. *)
Ltac to_prop :=
  repeat match goal with
  | H : _ && _ = true |- _ => apply andb_true_iff in H; destruct H
  | H : _ || _ = false |- _ => apply orb_false_iff in H; destruct H
  | H : negb _ = true |- _ => apply negb_true_iff in H
  | H : negb _ = false |- _ => apply negb_false_iff in H
  | H : bool_decide _ = true |- _ => apply bool_decide_eq_true in H
  | H : bool_decide _ = false |- _ => apply bool_decide_eq_false in H
  | H : (_ <? _) = true |- _ => apply Z.ltb_lt in H
  | H : (_ <? _) = false |- _ => apply Z.ltb_ge in H
  | H : (_ <=? _) = true |- _ => apply Z.leb_le in H
  | H : (_ <=? _) = false |- _ => apply Z.leb_gt in H
  | H : (_ >? _) = true |- _ => apply Z.gtb_lt in H
  | H : (_ >? _) = false |- _ => rewrite Z.gtb_ltb in H
  | H : (_ =? _) = true |- _ => apply Z.eqb_eq in H
  | H : (_ =? _) = false |- _ => apply Z.eqb_neq in H
  end.

(** ** Lemmas on the generic definitions *)

Lemma filter_nil_iff {A} (p : A -> bool) l : List.filter p l = [] <-> forall x, In x l -> p x = false.
Proof.
  split.
  - intros Hf x Hx. destruct (p x) eqn:E; [|done].
    assert (In x (List.filter p l)) as H by (by apply List.filter_In). by rewrite Hf in H.
  - intros H. destruct (List.filter p l) as [|x l'] eqn:E; [done|].
    assert (In x (List.filter p l)) as [Hx Hp]%List.filter_In by (rewrite E; by left).
    rewrite H in Hp; done.
Qed.

Lemma find_app {A} (p : A -> bool) l1 l2 :
  List.find p (l1 ++ l2) = match List.find p l1 with Some x => Some x | None => List.find p l2 end.
Proof. induction l1 as [|x l1 IH]; simpl; [done|]. by destruct (p x). Qed.

Lemma filter_NoDup_map {A B} (f : A -> B) (p : A -> bool) l :
  List.NoDup (map f l) -> List.NoDup (map f (List.filter p l)).
Proof.
  induction l as [|x l IH]; simpl; [done|]. intros [Hx Hl]%NoDup_cons_iff.
  destruct (p x); simpl; [|by apply IH]. constructor; [|by apply IH].
  intros (y & E & [Hy _]%List.filter_In)%in_map_iff. apply Hx. rewrite <- E. by apply in_map.
Qed.

Lemma filter_all {A} (p : A -> bool) l : (forall x, In x l -> p x = true) -> List.filter p l = l.
Proof.
  induction l as [|x l IH]; intros H; simpl; [done|]. rewrite H by (by left). f_equal. apply IH. intros y Hy. apply H. by right.
Qed.

Lemma filter_comm {A} (p q : A -> bool) l : List.filter p (List.filter q l) = List.filter q (List.filter p l).
Proof. induction l as [|x l IH]; simpl; [done|]. destruct (p x) eqn:Ep, (q x) eqn:Eq; simpl; rewrite ?Ep, ?Eq, ?IH; done. Qed.

Lemma NoDup_map_inj {A B} (f : A -> B) l x y : List.NoDup (map f l) -> In x l -> In y l -> f x = f y -> x = y.
Proof.
  induction l as [|z l IH]; simpl; [done|]. intros [Hz Hl]%NoDup_cons_iff [->|Hx] [->|Hy] E; [done| | |by apply IH].
  - destruct Hz. rewrite E. by apply in_map.
  - destruct Hz. rewrite <-E. by apply in_map.
Qed.

Section includes.
Context {A} `{EqDecision A}.

Lemma includes_In (x : A) l : includes x l = true <-> In x l.
Proof.
  unfold includes. rewrite existsb_exists. split.
  - intros (y & Hy & ->%bool_decide_eq_true). done.
  - intros Hx. exists x. by rewrite bool_decide_eq_true.
Qed.

Lemma includes_false (x : A) l : includes x l = false <-> ~ In x l.
Proof. rewrite <- includes_In. destruct (includes x l); naive_solver. Qed.

Lemma includes_app (x : A) l1 l2 : includes x (l1 ++ l2) = includes x l1 || includes x l2.
Proof. apply existsb_app. Qed.

Lemma dedup_In (x : A) l : In x (dedup l) <-> In x l.
Proof.
  induction l as [|y l IH]; simpl; [done|].
  rewrite List.filter_In, IH. rewrite negb_true_iff, bool_decide_eq_false.
  destruct (decide (y = x)); naive_solver.
Qed.

Lemma dedup_NoDup l : List.NoDup (dedup (A:=A) l).
Proof.
  induction l as [|y l IH]; simpl; constructor.
  - rewrite List.filter_In. rewrite negb_true_iff, bool_decide_eq_false. naive_solver.
  - by apply List.NoDup_filter.
Qed.

Lemma includes_dedup (x : A) l : includes x (dedup l) = includes x l.
Proof.
  destruct (includes x l) eqn:E.
  - rewrite includes_In, dedup_In. by apply includes_In.
  - rewrite includes_false, dedup_In. by apply includes_false.
Qed.
End includes.

Section keep_last.
Context {A : Type}.
Implicit Types l : list A.

Lemma keep_last_length n l : length (keep_last n l) = Nat.min n (length l).
Proof. unfold keep_last. rewrite length_drop. lia. Qed.

Lemma keep_last_suffix n l : exists pre, l = pre ++ keep_last n l /\ (length pre = length l - n)%nat.
Proof.
  exists (take (length l - n) l). unfold keep_last. rewrite take_drop, length_take. split; [done|]. apply Nat.min_l. lia.
Qed.

Lemma keep_last_small n l : (length l <= n)%nat -> keep_last n l = l.
Proof. intros. unfold keep_last. by replace (length l - n)%nat with 0%nat by lia. Qed.

(** Trimming after each push is the same as trimming once at the end. *)
Lemma keep_last_snoc n l x : keep_last n (keep_last n l ++ [x]) = keep_last n (l ++ [x]).
Proof.
  destruct (decide (n = 0)%nat) as [->|Hn].
  { unfold keep_last. by rewrite !drop_ge by lia. }
  destruct (decide (length l <= n)%nat) as [Hle|Hgt].
  - by rewrite (keep_last_small n l).
  - unfold keep_last. rewrite !length_app, length_drop; simpl.
    rewrite !drop_app_le by (rewrite ?length_drop; lia).
    rewrite drop_drop. do 2 f_equal. lia.
Qed.
End keep_last.

Section reduce_max.
Context {A : Type} (f : A -> Z).

Lemma reduce_max_In a l : In (reduce_max f a l) (a :: l).
Proof.
  revert a. induction l as [|b l IH]; intros a; simpl; [by left|].
  destruct (f b >? f a); [destruct (IH b)|destruct (IH a)]; naive_solver.
Qed.

Lemma reduce_max_ge a x l : In x (a :: l) -> f x <= f (reduce_max f a l).
Proof.
  revert a x. induction l as [|b l IH]; intros a x; simpl.
  - intros [->|[]]. lia.
  - intros Hx. destruct (f b >? f a) eqn:E; rewrite Z.gtb_ltb in E; to_prop.
    + destruct Hx as [<-|Hx]; [|by apply IH]. pose proof (IH b b ltac:(by left)). lia.
    + destruct Hx as [<-|[<-|Hx]].
      * apply IH. by left.
      * pose proof (IH a a ltac:(by left)). lia.
      * apply IH. by right.
Qed.
End reduce_max.

Section sort_by.
Context {A : Type} (le : A -> A -> bool).

Lemma insert_by_perm x l : insert_by le x l ≡ₚ x :: l.
Proof.
  induction l as [|y l IH]; simpl; [done|]. destruct (le y x); [|done].
  rewrite IH. constructor.
Qed.

Lemma sort_by_perm l : sort_by le l ≡ₚ l.
Proof.
  unfold sort_by. enough (forall acc, foldl (fun a x => insert_by le x a) acc l ≡ₚ acc ++ l) as H.
  { apply (H []). }
  induction l as [|x l IH]; intros acc; simpl; [by rewrite app_nil_r|].
  rewrite IH, insert_by_perm. apply Permutation_middle.
Qed.

Lemma sort_by_In x l : In x (sort_by le l) <-> In x l.
Proof. split; apply Permutation_in; [|symmetry]; apply sort_by_perm. Qed.

Lemma sort_by_length l : length (sort_by le l) = length l.
Proof. apply Permutation_length, sort_by_perm. Qed.

Context (le_total : forall x y, le x y = true \/ le y x = true)
        (le_trans : forall x y z, le x y = true -> le y z = true -> le x z = true).

Lemma insert_by_sorted x l :
  StronglySorted (fun a b => le a b = true) l ->
  StronglySorted (fun a b => le a b = true) (insert_by le x l).
Proof.
  induction 1 as [|y l Hs IH Hall]; simpl; [by repeat constructor|].
  destruct (le y x) eqn:E.
  - constructor; [done|]. rewrite insert_by_perm. by constructor.
  - assert (le x y = true) as Hxy by (destruct (le_total x y); congruence).
    constructor; [by constructor|]. constructor; [done|].
    eapply List.Forall_impl; [|exact Hall]. simpl. eauto.
Qed.

Lemma sort_by_sorted l : StronglySorted (fun a b => le a b = true) (sort_by le l).
Proof.
  unfold sort_by.
  enough (forall acc, StronglySorted (fun a b => le a b = true) acc ->
    StronglySorted (fun a b => le a b = true) (foldl (fun a x => insert_by le x a) acc l)) as H.
  { apply H. constructor. }
  induction l as [|x l IH]; intros acc Hacc; simpl; [done|].
  apply IH. by apply insert_by_sorted.
Qed.

(** [ORDER BY ... LIMIT 1]: the head of the sorted list is a least element. *)
Lemma sort_by_head x l : head (sort_by le l) = Some x -> In x l /\ forall y, In y l -> le x y = true.
Proof.
  pose proof (sort_by_sorted l) as Hs. intros H. destruct (sort_by le l) as [|a t] eqn:E; [done|].
  simpl in H. simplify_eq. split; [apply sort_by_In; rewrite E; by left|].
  intros y Hy. apply sort_by_In in Hy. rewrite E in Hy.
  apply StronglySorted_inv in Hs as [_ Hall]. rewrite List.Forall_forall in Hall.
  destruct Hy as [->|Hy]; [|by apply Hall]. by destruct (le_total y y).
Qed.

Lemma sort_by_head_None l : head (sort_by le l) = None <-> l = [].
Proof.
  pose proof (sort_by_length l) as Hl. destruct (sort_by le l), l; simpl in *; done.
Qed.
End sort_by.

Lemma insert_by_map {A B} (f : A -> B) leA leB x l : (forall a b, leB (f a) (f b) = leA a b) ->
  insert_by leB (f x) (map f l) = map f (insert_by leA x l).
Proof. intros H. induction l as [|y l IH]; [done|]. cbn. rewrite H. destruct (leA y x); cbn; [by rewrite IH|done]. Qed.

Lemma sort_by_map {A B} (f : A -> B) leA leB l : (forall a b, leB (f a) (f b) = leA a b) -> sort_by leB (map f l) = map f (sort_by leA l).
Proof.
  intros H. unfold sort_by. change (@nil B) with (map f []). generalize (@nil A) as acc.
  induction l as [|x l IH]; intros acc; [done|]. cbn. by rewrite (insert_by_map f leA), IH.
Qed.

Lemma insert_by_end {A} (le : A -> A -> bool) x l : (forall y, In y l -> le y x = true) -> insert_by le x l = l ++ [x].
Proof. induction l as [|y l IH]; intros H; [done|]. cbn. rewrite (H y) by (by left). f_equal. apply IH. intros z Hz. apply H. by right. Qed.

Lemma sort_by_id {A} (le : A -> A -> bool) l : StronglySorted (fun a b => le a b = true) l -> sort_by le l = l.
Proof.
  intros Hs. unfold sort_by. enough (forall acc, (forall x y, In x acc -> In y l -> le x y = true) ->
    foldl (fun acc x => insert_by le x acc) acc l = acc ++ l) as H by (apply H; by intros ? ? []).
  induction Hs as [|x l Hs IH Hx]; intros acc Hacc; [by rewrite app_nil_r|]. cbn. rewrite insert_by_end by (intros y Hy; apply Hacc; [done|by left]).
  rewrite IH; [by rewrite <- app_assoc|]. rewrite List.Forall_forall in Hx. intros y z [Hy|[<-|[]]]%in_app_or Hz; [apply Hacc; [done|by right]|by apply Hx].
Qed.

#[export] Hint Resolve dedup_NoDup keep_last_small : jarvis.
