(* ===== verification/Effects.v ===== *)
(** * A state monad with failure

    The parser of workflow expressions advances over a token list and its
    evaluator spends a shared budget; both throw. [st E S A] is such a
    computation: it fails with an [E], or returns an [A] and the next state. The
    laws the clients use are [bind_inr] (what a successful sequence did),
    [bind_ext] (a sequence depends on its parts only through their results) and
    [ensures], a postcondition closed under sequencing. *)
From S2P Require Export Prelude.

Definition st (E S A : Type) : Type := S -> E + (A * S).

#[global] Instance st_ret E S : MRet (st E S) := fun A a s => inr (a, s).
#[global] Instance st_bind E S : MBind (st E S) := fun A B f m s =>
  match m s with
  | inl e => inl e
  | inr (a, s') => f a s'
  end.

(** [throw] *)
Definition throw {E S A} (e : E) : st E S A := fun _ => inl e.

(** [f(x1), f(x2), ..] from left to right, collecting the results: [Array.prototype.map]. *)
Fixpoint each {E S A B} (f : A -> st E S B) (l : list A) : st E S (list B) :=
  match l with
  | [] => mret []
  | x :: l' => y ← f x; ys ← each f l'; mret (y :: ys)
  end.

Section laws.
Context {E S : Type}.
Implicit Types (s : S) (e : E).

Lemma ret_inr {A} (a b : A) s s' : (mret a : st E S A) s = inr (b, s') <-> b = a /\ s' = s.
Proof. unfold mret, st_ret. split; [by intros [= -> ->]|by intros [-> ->]]. Qed.

Lemma bind_inr {A B} (m : st E S A) (f : A -> st E S B) s b s2 :
  (x ← m; f x) s = inr (b, s2) <-> exists a s1, m s = inr (a, s1) /\ f a s1 = inr (b, s2).
Proof.
  unfold mbind, st_bind. destruct (m s) as [e|[a s1]]; split.
  - done.
  - intros (a & s1 & H & _). discriminate.
  - intros H. by exists a, s1.
  - intros (a' & s1' & [= -> ->] & H). done.
Qed.

Lemma bind_inl {A B} (m : st E S A) (f : A -> st E S B) s e :
  (x ← m; f x) s = inl e <-> m s = inl e \/ exists a s1, m s = inr (a, s1) /\ f a s1 = inl e.
Proof.
  unfold mbind, st_bind. destruct (m s) as [e'|[a s1]]; split.
  - intros [= ->]. by left.
  - intros [[= ->]|(a & s1 & H & _)]; done.
  - intros H. right. by exists a, s1.
  - intros [H|(a' & s1' & [= -> ->] & H)]; done.
Qed.

Lemma bind_step {A B} (m : st E S A) (f : A -> st E S B) s a s1 :
  m s = inr (a, s1) -> (x ← m; f x) s = f a s1.
Proof. unfold mbind, st_bind. by intros ->. Qed.

(** Two computations are interchangeable when they agree from every state. *)
Lemma bind_ext {A B} (m m' : st E S A) (f f' : A -> st E S B) s :
  m s = m' s -> (forall a s1, f a s1 = f' a s1) -> (x ← m; f x) s = (x ← m'; f' x) s.
Proof. intros H Hf. unfold mbind, st_bind. rewrite H. by destruct (m' s) as [|[]]. Qed.

Lemma each_ext {A B} (f f' : A -> st E S B) l s :
  List.Forall (fun x => forall s, f x s = f' x s) l -> each f l s = each f' l s.
Proof.
  intros Hl. revert s. induction Hl as [|x l Hx _ IH]; intros s; simpl; [done|].
  apply bind_ext; [done|]. intros y s1. by apply bind_ext.
Qed.

(** [ensures m P]: whenever [m] returns, its result and the two states are related by [P]. *)
Definition ensures {A} (m : st E S A) (P : S -> A -> S -> Prop) : Prop :=
  forall s a s', m s = inr (a, s') -> P s a s'.

Lemma ensures_ret {A} (a : A) (P : S -> A -> S -> Prop) : (forall s, P s a s) -> ensures (mret a) P.
Proof. intros H s b s' [-> ->]%ret_inr. apply H. Qed.

Lemma ensures_throw {A} e (P : S -> A -> S -> Prop) : ensures (throw e) P.
Proof. by intros s b s' ?. Qed.

Lemma ensures_bind {A B} (m : st E S A) (f : A -> st E S B) (P : S -> A -> S -> Prop) (Q : S -> B -> S -> Prop) :
  ensures m P ->
  (forall s0 a s1, P s0 a s1 -> forall b s2, f a s1 = inr (b, s2) -> Q s0 b s2) ->
  ensures (x ← m; f x) Q.
Proof. intros Hm Hf s b s' (a & s1 & H1 & H2)%bind_inr. eauto. Qed.

Lemma ensures_weaken {A} (m : st E S A) (P Q : S -> A -> S -> Prop) :
  ensures m P -> (forall s a s', P s a s' -> Q s a s') -> ensures m Q.
Proof. unfold ensures. eauto. Qed.

(** The results of a successful [each], one successful call per element. *)
Lemma each_cons_inr {A B} (f : A -> st E S B) x l s ys s2 :
  each f (x :: l) s = inr (ys, s2) <->
  exists y ys' s1, f x s = inr (y, s1) /\ each f l s1 = inr (ys', s2) /\ ys = y :: ys'.
Proof.
  simpl. rewrite bind_inr. split.
  - intros (y & s1 & H1 & (ys' & s2' & H2 & [-> ->]%ret_inr)%bind_inr). by exists y, ys', s1.
  - intros (y & ys' & s1 & H1 & H2 & ->). exists y, s1. split; [done|].
    apply bind_inr. by exists ys', s2.
Qed.
End laws.

(** ** Relations that every step of a computation respects *)

Section respects.
Context {E S : Type} (R : S -> S -> Prop) `{!PreOrder R}.

Definition respects {A} (m : st E S A) : Prop := ensures m (fun s _ s' => R s s').

Lemma respects_ret {A} (a : A) : respects (mret a).
Proof. apply ensures_ret. reflexivity. Qed.

Lemma respects_throw {A} e : respects (A:=A) (throw e).
Proof. apply ensures_throw. Qed.

Lemma respects_bind {A B} (m : st E S A) (f : A -> st E S B) :
  respects m -> (forall a, respects (f a)) -> respects (x ← m; f x).
Proof. intros Hm Hf s b s' (a & s1 & H1%Hm & H2%Hf)%bind_inr. by transitivity s1. Qed.

Lemma respects_each {A B} (f : A -> st E S B) l : (forall x, In x l -> respects (f x)) -> respects (each f l).
Proof.
  intros Hf. induction l as [|x l IH]; [apply respects_ret|].
  apply respects_bind; [apply Hf; by left|]. intros y.
  apply respects_bind; [apply IH; intros; apply Hf; by right|]. intros ys. apply respects_ret.
Qed.
End respects.

(** ** Errors that a computation cannot raise *)

Section never.
Context {E S : Type} (bad : E).

Definition never {A} (m : st E S A) : Prop := forall s, m s <> inl bad.

Lemma never_ret {A} (a : A) : never (mret a).
Proof. by intros s. Qed.

Lemma never_bind {A B} (m : st E S A) (f : A -> st E S B) :
  never m -> (forall a, never (f a)) -> never (x ← m; f x).
Proof. intros Hm Hf s [H|(a & s1 & _ & H)]%bind_inl; [by apply Hm in H|by apply Hf in H]. Qed.

Lemma never_each {A B} (f : A -> st E S B) l : (forall x, In x l -> never (f x)) -> never (each f l).
Proof.
  intros Hf. induction l as [|x l IH]; [apply never_ret|].
  apply never_bind; [apply Hf; by left|]. intros y.
  apply never_bind; [apply IH; intros; apply Hf; by right|]. intros ys. apply never_ret.
Qed.
End never.

Create HintDb effects.

#[export] Hint Resolve ensures_throw : jarvis.

(** Turn a successful run in a hypothesis into the runs of its parts. *)
Ltac run_inv H :=
  repeat match type of H with
  | (mbind _ _) _ = inr _ => apply bind_inr in H as (? & ? & ? & H)
  | (mret _) _ = inr _ => apply ret_inr in H as [-> ->]
  | throw _ _ = inr _ => discriminate H
  | inl _ = inr _ => discriminate H
  | (if ?b then _ else _) _ = inr _ => destruct b eqn:?
  end.
