(* ===== verification/JsMap.v ===== *)
(** * JavaScript maps in insertion order

    A [Map] iterates its entries in the order their keys were first inserted, and
    several components rely on that order (eviction of the oldest entry, fair
    scans). A map is the list of its entries; [wf] says that keys are distinct,
    which every operation preserves. *)
From S2P Require Export Prelude.

Section jsmap.
Context {K V : Type} `{EqDecision K}.
Implicit Types (k : K) (v : V) (m : list (K * V)).

Definition key_eq k (e : K * V) : bool := bool_decide (fst e = k).

(** [m.get(k)], [m.has(k)] *)
Definition map_get k m : option V := snd <$> List.find (key_eq k) m.
Definition map_has k m : bool := existsb (key_eq k) m.

(** [m.set(k, v)]: in place when present, else at the end. *)
Definition map_set k v m : list (K * V) :=
  if map_has k m then map (fun e => if key_eq k e then (k, v) else e) m else m ++ [(k, v)].

(** [m.delete(k)] *)
Definition map_delete k m : list (K * V) := List.filter (fun e => negb (key_eq k e)) m.

Definition map_keys m : list K := map fst m.
Definition map_values m : list V := map snd m.

(** Entries are distinct objects: update every value in place. *)
Definition map_alter (f : V -> V) k m : list (K * V) :=
  map (fun e => if key_eq k e then (fst e, f (snd e)) else e) m.

Definition wf m : Prop := List.NoDup (map_keys m).

Lemma key_eq_true k e : key_eq k e = true <-> fst e = k.
Proof. apply bool_decide_eq_true. Qed.

Lemma key_eq_false k e : key_eq k e = false <-> fst e <> k.
Proof. apply bool_decide_eq_false. Qed.

Lemma map_has_In k m : map_has k m = true <-> In k (map_keys m).
Proof.
  unfold map_has, map_keys. rewrite existsb_exists, in_map_iff. split.
  - intros (e & He & Hk%key_eq_true). by exists e.
  - intros (e & Hk & He). exists e. by rewrite key_eq_true.
Qed.

Lemma map_has_false k m : map_has k m = false <-> ~ In k (map_keys m).
Proof. rewrite <- map_has_In. destruct (map_has k m); naive_solver. Qed.

Lemma map_get_In k v m : map_get k m = Some v -> In (k, v) m.
Proof.
  unfold map_get. destruct (List.find (key_eq k) m) as [[k' v']|] eqn:E; [|done]. intros [= ->].
  apply find_some in E as [Hin Hk%key_eq_true]. simpl in Hk. by subst.
Qed.

Lemma map_get_None k m : map_get k m = None <-> ~ In k (map_keys m).
Proof.
  rewrite <- map_has_false. unfold map_get, map_has.
  induction m as [|e m IH]; simpl; [done|]. destruct (key_eq k e); simpl; [done|exact IH].
Qed.

Lemma map_get_Some k v m : wf m -> map_get k m = Some v <-> In (k, v) m.
Proof.
  intros Hw. split; [apply map_get_In|]. unfold map_get.
  induction m as [|[k' v'] m IH]; simpl; [done|]. apply NoDup_cons_iff in Hw as [Hk Hw].
  unfold key_eq at 1. simpl. intros [[= -> ->]|Hin].
  - by rewrite bool_decide_true.
  - rewrite bool_decide_false; [by apply IH|]. intros ->. apply Hk. by apply (in_map fst) in Hin.
Qed.

Lemma map_has_get k m : map_has k m = true <-> is_Some (map_get k m).
Proof.
  rewrite <- not_eq_None_Some, map_get_None, <- map_has_false. destruct (map_has k m); naive_solver.
Qed.

Lemma map_keys_set k v m : map_keys (map_set k v m) = if map_has k m then map_keys m else map_keys m ++ [k].
Proof.
  unfold map_set, map_keys. destruct (map_has k m); [|by rewrite map_app].
  rewrite map_map. apply map_ext. intros e. destruct (key_eq k e) eqn:E; [|done]. by apply key_eq_true in E as <-.
Qed.

Lemma wf_nil : wf [].
Proof. constructor. Qed.

Lemma wf_set k v m : wf m -> wf (map_set k v m).
Proof.
  unfold wf. rewrite map_keys_set. destruct (map_has k m) eqn:E; [done|]. intros H.
  apply map_has_false in E. apply NoDup_ListNoDup, NoDup_app. split; [by apply NoDup_ListNoDup|].
  split; [|apply NoDup_singleton]. intros x Hx%list_elem_of_In ->%list_elem_of_singleton. done.
Qed.

Lemma wf_delete k m : wf m -> wf (map_delete k m).
Proof. apply filter_NoDup_map. Qed.

Lemma map_keys_alter f k m : map_keys (map_alter f k m) = map_keys m.
Proof. unfold map_keys, map_alter. rewrite map_map. apply map_ext. intros e. by destruct (key_eq k e). Qed.

Lemma wf_alter f k m : wf m -> wf (map_alter f k m).
Proof. unfold wf. by rewrite map_keys_alter. Qed.

Lemma find_map_key (f : K * V -> K * V) k m : (forall e, fst (f e) = fst e) ->
  List.find (key_eq k) (map f m) = f <$> List.find (key_eq k) m.
Proof.
  intros Hf. induction m as [|e m IH]; simpl; [done|]. unfold key_eq at 1 3. rewrite Hf.
  case_bool_decide; [done|exact IH].
Qed.

Lemma map_get_set k v m k' : map_get k' (map_set k v m) = if bool_decide (k' = k) then Some v else map_get k' m.
Proof.
  unfold map_set. destruct (map_has k m) eqn:E.
  - unfold map_get. rewrite find_map_key.
    2: { intros e. destruct (key_eq k e) eqn:Ek; [|done]. by apply key_eq_true in Ek as <-. }
    destruct (List.find (key_eq k') m) as [[k1 v1]|] eqn:Ef; simpl.
    + apply find_some in Ef as [_ Hk%key_eq_true]. simpl in Hk. subst k1. unfold key_eq. simpl.
      by case_bool_decide.
    + case_bool_decide; [|done]. subst k'. apply map_has_get in E as [w Hw]. unfold map_get in Hw. by rewrite Ef in Hw.
  - unfold map_get. rewrite find_app. simpl. unfold key_eq at 2. simpl.
    destruct (List.find (key_eq k') m) as [e|] eqn:Ef; simpl.
    + apply find_some in Ef as [Hin Hk%key_eq_true]. rewrite bool_decide_false; [done|].
      intros ->. apply map_has_false in E. apply E. subst. by apply in_map.
    + repeat case_bool_decide; try done; by subst.
Qed.

Lemma map_get_delete k m k' : map_get k' (map_delete k m) = if bool_decide (k' = k) then None else map_get k' m.
Proof.
  unfold map_get, map_delete. induction m as [|e m IH]; [by case_bool_decide|]. cbn [List.filter List.find].
  destruct (key_eq k e) eqn:Ek; cbn [negb List.find].
  - rewrite IH. apply key_eq_true in Ek. case_bool_decide as Hk; [done|].
    destruct (key_eq k' e) eqn:Ek'; [|done]. apply key_eq_true in Ek'. congruence.
  - apply key_eq_false in Ek. destruct (key_eq k' e) eqn:Ek'; [|exact IH].
    apply key_eq_true in Ek'. by rewrite bool_decide_false by congruence.
Qed.

Lemma map_get_alter f k m k' : map_get k' (map_alter f k m) = if bool_decide (k' = k) then f <$> map_get k' m else map_get k' m.
Proof.
  unfold map_alter, map_get. rewrite find_map_key by (intros e; by destruct (key_eq k e)).
  destruct (List.find (key_eq k') m) as [[k1 v1]|] eqn:Ef; simpl; [|by case_bool_decide].
  apply find_some in Ef as [_ Hk%key_eq_true]. simpl in Hk. subst. unfold key_eq. simpl. by case_bool_decide.
Qed.

Lemma map_keys_delete k m x : In x (map_keys (map_delete k m)) <-> In x (map_keys m) /\ x <> k.
Proof.
  rewrite <- !map_has_In, !map_has_get, map_get_delete. case_bool_decide; split.
  - by intros [? ?].
  - by intros [_ ?].
  - done.
  - by intros [? _].
Qed.

Lemma map_keys_delete_filter k m : map_keys (map_delete k m) = List.filter (fun x => negb (bool_decide (x = k))) (map_keys m).
Proof.
  unfold map_keys, map_delete. induction m as [|e m IH]; simpl; [done|]. unfold key_eq at 1.
  destruct (bool_decide (fst e = k)); simpl; [exact IH|by f_equal].
Qed.

Lemma map_delete_absent k m : ~ In k (map_keys m) -> map_delete k m = m.
Proof.
  unfold map_delete, map_keys. induction m as [|e m IH]; simpl; [done|]. intros H.
  destruct (key_eq k e) eqn:E; [apply key_eq_true in E; tauto|]. simpl. f_equal. apply IH. tauto.
Qed.

(** A map as one entry and the others, whatever its position. *)
Lemma map_get_perm k v m : wf m -> map_get k m = Some v -> m ≡ₚ (k, v) :: map_delete k m.
Proof.
  unfold map_get. induction m as [|e m IH]; simpl; [done|]. intros [Hn Hw]%NoDup_cons_iff.
  destruct (key_eq k e) eqn:E; simpl.
  - apply key_eq_true in E. destruct e as [k' v']. simpl in *. subst. intros [= ->]. by rewrite map_delete_absent.
  - intros H. rewrite (IH Hw H) at 1. apply perm_swap.
Qed.

Lemma map_delete_set k v m : map_delete k (map_set k v m) = map_delete k m.
Proof.
  unfold map_set, map_delete. destruct (map_has k m).
  - induction m as [|e m IH]; simpl; [done|]. destruct (key_eq k e) eqn:E; simpl; [|by rewrite E; simpl; f_equal].
    unfold key_eq at 1. simpl. by rewrite bool_decide_true.
  - rewrite List.filter_app. simpl. unfold key_eq at 2. simpl. rewrite bool_decide_true by done. simpl. apply app_nil_r.
Qed.

Lemma map_set_perm k v m : wf m -> map_set k v m ≡ₚ (k, v) :: map_delete k m.
Proof.
  intros Hw. rewrite <- (map_delete_set k v m). apply map_get_perm; [by apply wf_set|].
  rewrite map_get_set. by rewrite bool_decide_true.
Qed.

Lemma map_has_set k v m k' : map_has k' (map_set k v m) = bool_decide (k' = k) || map_has k' m.
Proof.
  apply eq_true_iff_eq. rewrite orb_true_iff, bool_decide_eq_true, !map_has_get, map_get_set. case_bool_decide; [|naive_solver].
  split; [by left|by eexists].
Qed.

Lemma map_get_filter (f : K * V -> bool) m k v : wf m ->
  map_get k (List.filter f m) = Some v -> map_get k m = Some v /\ f (k, v) = true.
Proof.
  intros Hwf H. apply map_get_In in H as [Hin Hf]%List.filter_In. split; [|done]. by apply map_get_Some.
Qed.
End jsmap.

#[export] Hint Resolve wf_nil wf_set wf_delete wf_alter : jsmap.
