(* ===== verification/JsString.v ===== *)
(** * The JavaScript string operations the source uses

    A string is a sequence of code units; [Stdlib.Strings.String] holds the units
    0 to 255, and the units of the source's own literals are all ASCII.
    Nothing here models code of the repository: these are the standard methods
    ([startsWith], [indexOf], [slice], [join], [replace] with a literal pattern,
    [trim], [toLowerCase], [toUpperCase]) and number formatting. *)
From Stdlib Require Import DecimalString DecimalZ DecimalPos Decimal Ascii.
From S2P Require Export Prelude.


(** [simpl] may unfold concatenation once its first argument is a constructor. *)
#[global] Arguments String.append !s1 s2 : simpl nomatch.

(** [s.startsWith(p)] *)
Fixpoint starts_with (p s : string) : bool :=
  match p, s with
  | EmptyString, _ => true
  | String c p', String d s' => Ascii.eqb c d && starts_with p' s'
  | String _ _, EmptyString => false
  end.

(** [s.slice(n)] and [s.slice(0, n)] for a non-negative [n] *)
Fixpoint sdrop (n : nat) (s : string) : string :=
  match n, s with
  | O, _ => s
  | S n', String _ s' => sdrop n' s'
  | S _, EmptyString => EmptyString
  end.

Fixpoint stake (n : nat) (s : string) : string :=
  match n, s with
  | O, _ => EmptyString
  | S n', String c s' => String c (stake n' s')
  | S _, EmptyString => EmptyString
  end.

(** [s.includes(p)] *)
Fixpoint str_includes (p s : string) : bool :=
  starts_with p s ||
  match s with
  | EmptyString => false
  | String _ s' => str_includes p s'
  end.

(** [s.indexOf(p)]; [None] is [-1]. *)
Fixpoint index_of (p s : string) : option nat :=
  if starts_with p s then Some O
  else match s with
       | EmptyString => None
       | String _ s' => option_map S (index_of p s')
       end.

(** [l.join(sep)] *)
Fixpoint join (sep : string) (l : list string) : string :=
  match l with
  | [] => EmptyString
  | [s] => s
  | s :: l' => s +:+ sep +:+ join sep l'
  end.

Definition newline : string := String "010" EmptyString.
Definition dquote : ascii := "034".

Definition is_ws (c : ascii) : bool :=
  let n := nat_of_ascii c in
  ((9 <=? n)%nat && (n <=? 13)%nat) || (n =? 32)%nat || (n =? 160)%nat.

Fixpoint trim_start (s : string) : string :=
  match s with
  | String c s' => if is_ws c then trim_start s' else s
  | EmptyString => EmptyString
  end.

Definition srev (s : string) : string := String.string_of_list_ascii (rev (String.list_ascii_of_string s)).
Definition trim_end (s : string) : string := srev (trim_start (srev s)).

(** [s.trim()] *)
Definition trim (s : string) : string := trim_end (trim_start s).

Definition lower_ascii (c : ascii) : ascii :=
  let n := nat_of_ascii c in
  if (65 <=? n)%nat && (n <=? 90)%nat then ascii_of_nat (n + 32) else c.
Definition upper_ascii (c : ascii) : ascii :=
  let n := nat_of_ascii c in
  if (97 <=? n)%nat && (n <=? 122)%nat then ascii_of_nat (n - 32) else c.

Definition smap (f : ascii -> ascii) (s : string) : string :=
  String.string_of_list_ascii (map f (String.list_ascii_of_string s)).
Definition to_lower : string -> string := smap lower_ascii.
Definition to_upper : string -> string := smap upper_ascii.

(** [String(n)] for an integer [n]. *)
Definition show_z (n : Z) : string := NilZero.string_of_int (Z.to_int n).

(** A JavaScript string used as a condition: the empty string is falsy. *)
Definition truthy (s : string) : bool := match s with EmptyString => false | _ => true end.

(** [s.split(c)] *)
Fixpoint split_on (c : ascii) (s : string) : list string :=
  match s with
  | EmptyString => [EmptyString]
  | String a s' =>
      if Ascii.eqb a c then EmptyString :: split_on c s'
      else match split_on c s' with w :: ws => String a w :: ws | [] => [String a EmptyString] end
  end.

(** [o ? .. : ..] on an optional string: absent and empty are falsy. *)
Definition truthy_opt (o : option string) : bool :=
  match o with Some s => truthy s | None => false end.

(** ** Lemmas *)

Lemma append_nil_r s : s +:+ EmptyString = s.
Proof. induction s; simpl; congruence. Qed.

Lemma append_assoc a b c : (a +:+ b) +:+ c = a +:+ (b +:+ c).
Proof. induction a; simpl; congruence. Qed.

Lemma string_app_length a b : String.length (a +:+ b) = (String.length a + String.length b)%nat.
Proof. induction a; simpl; congruence. Qed.

Lemma starts_with_spec p s : starts_with p s = true <-> exists r, s = p +:+ r.
Proof.
  revert s. induction p as [|c p IH]; intros [|d s]; simpl.
  - split; [|done]. intros _. by exists EmptyString.
  - split; [|done]. intros _. by exists (String d s).
  - split; [done|]. intros (r & Hr). discriminate.
  - rewrite andb_true_iff, Ascii.eqb_eq, IH. split.
    + intros [-> (r & ->)]. by exists r.
    + intros (r & Hr). simplify_eq/=. split; [done|by exists r].
Qed.

Lemma starts_with_app p s : starts_with p (p +:+ s) = true.
Proof. rewrite starts_with_spec. by exists s. Qed.

Lemma str_includes_spec p s : str_includes p s = true <-> exists a b, s = a +:+ p +:+ b.
Proof.
  induction s as [|c s IH]; simpl.
  - rewrite orb_false_r, starts_with_spec. split.
    + intros (r & Hr). exists EmptyString, r. done.
    + intros (a & b & Hab). destruct a; [by exists b|discriminate].
  - rewrite orb_true_iff, starts_with_spec, IH. split.
    + intros [(r & Hr)|(a & b & ->)].
      * exists EmptyString, r. done.
      * exists (String c a), b. done.
    + intros (a & b & Hab). destruct a as [|d a].
      * left. by exists b.
      * right. simplify_eq/=. by exists a, b.
Qed.

Lemma str_includes_app p a b : str_includes p (a +:+ p +:+ b) = true.
Proof. rewrite str_includes_spec. by exists a, b. Qed.

Lemma index_of_Some p s n : index_of p s = Some n -> exists b, s = stake n s +:+ p +:+ b.
Proof.
  revert n. induction s as [|c s IH]; intros n; simpl.
  - destruct (starts_with p EmptyString) eqn:E; [|done]. intros [= <-].
    apply starts_with_spec in E as (r & Hr). exists r. done.
  - destruct (starts_with p (String c s)) eqn:E.
    + intros [= <-]. apply starts_with_spec in E as (r & Hr). exists r. done.
    + destruct (index_of p s) as [m|] eqn:Em; [|done]. intros [= <-].
      destruct (IH m eq_refl) as (b & Hb). exists b. simpl. by f_equal.
Qed.

Lemma index_of_None p s : index_of p s = None <-> str_includes p s = false.
Proof.
  induction s as [|c s IH]; simpl.
  - destruct (starts_with p EmptyString); done.
  - destruct (starts_with p (String c s)); simpl; [done|]. rewrite <- IH.
    destruct (index_of p s); simpl; split; congruence.
Qed.

Lemma index_of_sdrop p s n : index_of p s = Some n -> starts_with p (sdrop n s) = true.
Proof.
  revert n. induction s as [|c s IH]; intros n; simpl.
  - destruct (starts_with p EmptyString) eqn:E; [|done]. intros [= <-]. done.
  - destruct (starts_with p (String c s)) eqn:E; [intros [= <-]; done|].
    destruct (index_of p s) as [m|]; [|done]. intros [= <-]. simpl. by apply IH.
Qed.

Lemma stake_sdrop n s : stake n s +:+ sdrop n s = s.
Proof. revert s. induction n; intros [|c s]; simpl; try done. by rewrite IHn. Qed.

Lemma sdrop_app p s : sdrop (String.length p) (p +:+ s) = s.
Proof. induction p; simpl; [by destruct s|done]. Qed.

Lemma stake_length n s : (String.length (stake n s) <= n)%nat.
Proof. revert s. induction n; intros [|c s]; simpl; try lia. specialize (IHn s). lia. Qed.

Lemma join_cons sep s l : l <> [] -> join sep (s :: l) = s +:+ sep +:+ join sep l.
Proof. by destruct l. Qed.

Lemma show_z_inj m n : show_z m = show_z n -> m = n.
Proof.
  unfold show_z. intros H.
  assert (forall z, Z.to_int z <> Decimal.Pos Decimal.Nil /\ Z.to_int z <> Decimal.Neg Decimal.Nil) as Hn.
  { intros z. split; intros E; pose proof (DecimalZ.of_to z) as O; rewrite E in O; simpl in O;
      subst z; vm_compute in E; discriminate. }
  assert (Some (Z.to_int m) = Some (Z.to_int n)) as E.
  { rewrite <- !NilZero.isi by apply Hn. by rewrite H. }
  apply DecimalZ.to_int_inj. congruence.
Qed.

(** ** Splitting *)

(** [s] does not contain [c]. *)
Definition lacks (c : ascii) (s : string) : bool := negb (existsb (Ascii.eqb c) (String.list_ascii_of_string s)).

Lemma lacks_cons c a s : lacks c (String a s) = negb (Ascii.eqb a c) && lacks c s.
Proof. unfold lacks. simpl. by rewrite negb_orb, Ascii.eqb_sym. Qed.

Lemma split_on_lacks c s : lacks c s = true -> split_on c s = [s].
Proof.
  induction s as [|a s IH]; [done|]. rewrite lacks_cons. intros [Ha Hs]%andb_prop. simpl.
  apply negb_true_iff in Ha. by rewrite Ha, IH.
Qed.

Lemma split_on_app c s rest : lacks c s = true -> split_on c (s +:+ String c rest) = s :: split_on c rest.
Proof.
  induction s as [|a s IH]; [intros _; simpl; by rewrite Ascii.eqb_refl|].
  rewrite lacks_cons. intros [Ha Hs]%andb_prop. simpl. apply negb_true_iff in Ha. by rewrite Ha, IH.
Qed.

Lemma split_join c l : l <> [] -> (forall s, In s l -> lacks c s = true) -> split_on c (join (String c EmptyString) l) = l.
Proof.
  induction l as [|s l IH]; [done|]. intros _ Hl. destruct l as [|t l].
  - simpl. apply split_on_lacks, Hl. by left.
  - rewrite join_cons by done. change (s +:+ String c EmptyString +:+ ?r) with (s +:+ String c r).
    rewrite split_on_app by (apply Hl; by left). f_equal. apply IH; [done|]. intros x Hx. apply Hl. by right.
Qed.
