(* ===== verification/Json.v ===== *)
(** * JSON values, [JSON.stringify] and [JSON.parse]

    The daemon passes tool arguments, approval contexts and job payloads as JSON
    text. This file models the two standard functions on the fragment whose
    numbers are integers (what the modelled code stores) and whose characters are
    code units below 256, with the grammar of ECMA-404 otherwise: insignificant
    whitespace, string escapes, nesting. A text outside of the fragment (a
    fraction or an exponent, an escape above \u00FF) does not parse here.
    [parse] runs with fuel [S (length s)], which is enough for every printed
    value ([parse_stringify]). *)
From Stdlib Require Import DecimalString DecimalZ Decimal Ascii.
From S2P Require Export JsString.


Inductive json :=
  | JNull
  | JBool (b : bool)
  | JNum (n : Z)
  | JStr (s : string)
  | JArr (items : list json)
  | JObj (fields : list (string * json)).

(** Own property read: the last entry for the key, as [JSON.parse] keeps it. *)
Definition assoc_get {A} (k : string) (fields : list (string * A)) : option A :=
  snd <$> List.find (fun kv => bool_decide (fst kv = k)) (rev fields).

Definition jget (k : string) (v : json) : option json :=
  match v with JObj fields => assoc_get k fields | _ => None end.

(** [v === 'text'] on a value read from an object. *)
Definition jstr_is (o : option json) (text : string) : bool :=
  match o with Some (JStr t) => bool_decide (t = text) | _ => false end.

(** JavaScript truthiness. *)
Definition truthy_json (v : json) : bool :=
  match v with
  | JNull => false | JBool b => b | JNum n => negb (n =? 0) | JStr s => truthy s | JArr _ | JObj _ => true
  end.

(** [v && typeof v === 'object'] *)
Definition is_object (v : json) : bool := match v with JArr _ | JObj _ => true | _ => false end.

(** ** Printing *)

Definition hex_digit (n : nat) : ascii :=
  if (n <? 10)%nat then ascii_of_nat (48 + n) else ascii_of_nat (87 + n).

Definition escape_char (c : ascii) : string :=
  let n := nat_of_ascii c in
  if (n =? 34)%nat then String "\" (String dquote EmptyString)
  else if (n =? 92)%nat then "\\"
  else if (n =? 8)%nat then "\b"
  else if (n =? 9)%nat then "\t"
  else if (n =? 10)%nat then "\n"
  else if (n =? 12)%nat then "\f"
  else if (n =? 13)%nat then "\r"
  else if (n <? 32)%nat then "\u00" +:+ String (hex_digit (n / 16)) (String (hex_digit (n mod 16)) EmptyString)
  else String c EmptyString.

Fixpoint escape (s : string) : string :=
  match s with
  | EmptyString => EmptyString
  | String c s' => escape_char c +:+ escape s'
  end.

Definition quote (s : string) : string :=
  String dquote (escape s +:+ String dquote EmptyString).

Fixpoint stringify (v : json) : string :=
  match v with
  | JNull => "null"
  | JBool b => if b then "true" else "false"
  | JNum n => show_z n
  | JStr s => quote s
  | JArr l => "[" +:+ join "," (map stringify l) +:+ "]"
  | JObj fs => "{" +:+ join "," (map (fun kv => quote (fst kv) +:+ ":" +:+ stringify (snd kv)) fs) +:+ "}"
  end.

(** ** Parsing *)

Fixpoint skip_ws (s : string) : string :=
  match s with
  | String c s' =>
      let n := nat_of_ascii c in
      if (n =? 32)%nat || (n =? 9)%nat || (n =? 10)%nat || (n =? 13)%nat then skip_ws s' else s
  | EmptyString => EmptyString
  end.

(** The rest of [s] after the literal [p]. *)
Fixpoint expect (p s : string) : option string :=
  match p, s with
  | EmptyString, _ => Some s
  | String c p', String d s' => if Ascii.eqb c d then expect p' s' else None
  | String _ _, EmptyString => None
  end.

Definition hex_value (c : ascii) : option nat :=
  let n := nat_of_ascii c in
  if (48 <=? n)%nat && (n <=? 57)%nat then Some (n - 48)%nat
  else if (97 <=? n)%nat && (n <=? 102)%nat then Some (n - 87)%nat
  else if (65 <=? n)%nat && (n <=? 70)%nat then Some (n - 55)%nat
  else None.

Definition simple_escape (c : ascii) : option ascii :=
  let n := nat_of_ascii c in
  if (n =? 34)%nat || (n =? 92)%nat || (n =? 47)%nat then Some c
  else if (n =? 98)%nat then Some "008"%char
  else if (n =? 116)%nat then Some "009"%char
  else if (n =? 110)%nat then Some "010"%char
  else if (n =? 102)%nat then Some "012"%char
  else if (n =? 114)%nat then Some "013"%char
  else None.

(** String body up to and including the closing quote. *)
Fixpoint parse_chars (s : string) : option (string * string) :=
  match s with
  | EmptyString => None
  | String c s' =>
      let n := nat_of_ascii c in
      if (n =? 34)%nat then Some (EmptyString, s')
      else if (n =? 92)%nat then
        match s' with
        | EmptyString => None
        | String e s'' =>
            if (nat_of_ascii e =? 117)%nat then
              match s'' with
              | String a (String b (String x (String y s3))) =>
                  match hex_value a, hex_value b, hex_value x, hex_value y with
                  | Some va, Some vb, Some vx, Some vy =>
                      (* only the code units 0 to 255 are representable *)
                      if (va =? 0)%nat && (vb =? 0)%nat
                      then p ← parse_chars s3;
                           Some (String (ascii_of_nat (vx * 16 + vy)) (fst p), snd p)
                      else None
                  | _, _, _, _ => None
                  end
              | _ => None
              end
            else
              ch ← simple_escape e;
              p ← parse_chars s'';
              Some (String ch (fst p), snd p)
        end
      else if (n <? 32)%nat then None
      else p ← parse_chars s'; Some (String c (fst p), snd p)
  end.

Definition is_digit (c : ascii) : bool :=
  let n := nat_of_ascii c in (48 <=? n)%nat && (n <=? 57)%nat.

Fixpoint span_digits (s : string) : string * string :=
  match s with
  | String c s' =>
      if is_digit c then let p := span_digits s' in (String c (fst p), snd p) else (EmptyString, s)
  | EmptyString => (EmptyString, EmptyString)
  end.

(** No digits, or more than one with a leading zero, is a syntax error. *)
Definition good_digits (d : string) : bool :=
  match d with
  | EmptyString => false
  | String c EmptyString => true
  | String c _ => negb (Ascii.eqb c "0")
  end.

Definition parse_num (s : string) : option (json * string) :=
  let '(sign, s1) := match s with
                     | String "-" s' => ("-", s')
                     | _ => (EmptyString, s)
                     end in
  let '(d, rest) := span_digits s1 in
  if good_digits d
  then z ← NilZero.int_of_string (sign +:+ d); Some (JNum (Z.of_int z), rest)
  else None.

Fixpoint parse_value (fuel : nat) (s : string) {struct fuel} : option (json * string) :=
  match fuel with
  | O => None
  | S fuel' =>
      match skip_ws s with
      | EmptyString => None
      | String c s' as s0 =>
          let n := nat_of_ascii c in
          if (n =? 123)%nat then
            match skip_ws s' with
            | String "}" rest => Some (JObj [], rest)
            | _ => p ← parse_members fuel' s'; Some (JObj (fst p), snd p)
            end
          else if (n =? 91)%nat then
            match skip_ws s' with
            | String "]" rest => Some (JArr [], rest)
            | _ => p ← parse_items fuel' s'; Some (JArr (fst p), snd p)
            end
          else if (n =? 34)%nat then
            p ← parse_chars s'; Some (JStr (fst p), snd p)
          else if (n =? 110)%nat then rest ← expect "null" s0; Some (JNull, rest)
          else if (n =? 116)%nat then rest ← expect "true" s0; Some (JBool true, rest)
          else if (n =? 102)%nat then rest ← expect "false" s0; Some (JBool false, rest)
          else parse_num s0
      end
  end
with parse_items (fuel : nat) (s : string) {struct fuel} : option (list json * string) :=
  match fuel with
  | O => None
  | S fuel' =>
      p ← parse_value fuel' s;
      match skip_ws (snd p) with
      | String "]" rest => Some ([fst p], rest)
      | String "," rest => q ← parse_items fuel' rest; Some (fst p :: fst q, snd q)
      | _ => None
      end
  end
with parse_members (fuel : nat) (s : string) {struct fuel} : option (list (string * json) * string) :=
  match fuel with
  | O => None
  | S fuel' =>
      match skip_ws s with
      | String c s' =>
          if (nat_of_ascii c =? 34)%nat then
            k ← parse_chars s';
            s1 ← expect ":" (skip_ws (snd k));
            p ← parse_value fuel' s1;
            match skip_ws (snd p) with
            | String "}" rest => Some ([(fst k, fst p)], rest)
            | String "," rest => q ← parse_members fuel' rest; Some ((fst k, fst p) :: fst q, snd q)
            | _ => None
            end
          else None
      | EmptyString => None
      end
  end.

(** [JSON.parse]; [None] is the [SyntaxError] it throws, or a text outside of the fragment. *)
Definition parse (s : string) : option json :=
  p ← parse_value (S (String.length s)) s;
  match skip_ws (snd p) with
  | EmptyString => Some (fst p)
  | _ => None
  end.


(** ** Induction on JSON values *)

Section json_ind.
Context (P : json -> Prop)
  (Hnull : P JNull) (Hbool : forall b, P (JBool b)) (Hnum : forall n, P (JNum n))
  (Hstr : forall s, P (JStr s))
  (Harr : forall l, List.Forall P l -> P (JArr l))
  (Hobj : forall fs, List.Forall (fun kv => P (snd kv)) fs -> P (JObj fs)).

Fixpoint json_nested_ind (v : json) : P v :=
  match v with
  | JNull => Hnull
  | JBool b => Hbool b
  | JNum n => Hnum n
  | JStr s => Hstr s
  | JArr l =>
      Harr l ((fix go l : List.Forall P l :=
        match l with
        | [] => List.Forall_nil P
        | x :: l' => @List.Forall_cons _ P x l' (json_nested_ind x) (go l')
        end) l)
  | JObj fs =>
      Hobj fs ((fix go fs : List.Forall (fun kv => P (snd kv)) fs :=
        match fs with
        | [] => List.Forall_nil _
        | kv :: fs' => @List.Forall_cons _ (fun kv => P (snd kv)) kv fs' (json_nested_ind (snd kv)) (go fs')
        end) fs)
  end.
End json_ind.

(** ** Lexical lemmas *)

Ltac all_chars c := destruct c as [[] [] [] [] [] [] [] []].

Lemma expect_app p r : expect p (p +:+ r) = Some r.
Proof. induction p as [|c p IH]; simpl; [by destruct r|]. by rewrite Ascii.eqb_refl. Qed.

(** First characters of printed values. *)
Definition json_head (c : ascii) : bool :=
  let n := nat_of_ascii c in
  is_digit c || existsb (Nat.eqb n) [45; 110; 116; 102; 34; 91; 123]%nat.

Lemma skip_ws_head c s : json_head c = true -> skip_ws (String c s) = String c s.
Proof. intros H. all_chars c; try discriminate H; reflexivity. Qed.

Lemma parse_chars_escape c t :
  parse_chars (escape_char c +:+ t) = (p ← parse_chars t; Some (String c (fst p), snd p)).
Proof. all_chars c; reflexivity. Qed.

Lemma parse_chars_quote s rest :
  parse_chars (escape s +:+ String dquote EmptyString +:+ rest) = Some (s, rest).
Proof.
  induction s as [|c s IH]; [done|]. simpl escape.
  rewrite append_assoc, parse_chars_escape, IH. done.
Qed.

(** Characters after a number that end it. *)
Definition ends_number (s : string) : bool :=
  match s with String c _ => negb (is_digit c) | EmptyString => true end.

Fixpoint all_digits (s : string) : bool :=
  match s with String c s' => is_digit c && all_digits s' | EmptyString => true end.

Lemma span_digits_app d rest :
  all_digits d = true -> ends_number rest = true -> span_digits (d +:+ rest) = (d, rest).
Proof.
  intros Hd Hr. induction d as [|c d IH]; simpl in *.
  - destruct rest as [|c rest]; [done|]. simpl in *. by destruct (is_digit c).
  - to_prop. rewrite H, IH by done. done.
Qed.

Lemma all_digits_uint d : all_digits (NilEmpty.string_of_uint d) = true.
Proof. induction d; simpl; try done; exact IHd. Qed.

(** Shape of a printed integer: an optional sign, then good digits. *)
Lemma show_z_shape z : exists sign d,
  show_z z = sign +:+ d /\ (sign = EmptyString \/ sign = "-") /\
  all_digits d = true /\ good_digits d = true /\
  NilZero.int_of_string (sign +:+ d) = Some (Z.to_int z).
Proof.
  assert (Z.to_int z = Decimal.norm (Z.to_int z)) as Hn.
  { rewrite <- DecimalZ.to_of, DecimalZ.of_to. done. }
  assert (NilZero.int_of_string (show_z z) = Some (Z.to_int z)) as Hi.
  { apply NilZero.isi; intros E; rewrite E in Hn; vm_compute in Hn; discriminate. }
  unfold show_z in *. destruct (Z.to_int z) as [d|d]; simpl in Hn.
  - exists EmptyString, (NilZero.string_of_uint d). split; [done|]. split; [by left|].
    injection Hn as Hn. unfold Decimal.unorm in Hn. pose proof (DecimalFacts.nzhead_nonzero d) as Hnz.
    destruct (Decimal.nzhead d) eqn:E; rewrite Hn; split_and!;
      try (apply all_digits_uint); try done; try (rewrite <- Hn; exact Hi);
      simpl; try (destruct (NilEmpty.string_of_uint _); done); exfalso; by eapply Hnz.
  - pose proof (DecimalFacts.nzhead_nonzero d) as Hnz.
    destruct (Decimal.nzhead d) eqn:E; try discriminate Hn; injection Hn as Hn;
      exists "-", (NilZero.string_of_uint d); (split; [done|]); (split; [by right|]); rewrite Hn;
      (split; [apply all_digits_uint|]); (split; [|rewrite <- Hn; exact Hi]);
      simpl; try (destruct (NilEmpty.string_of_uint _); done); exfalso; by eapply Hnz.
Qed.

Lemma good_digits_head d : good_digits d = true -> all_digits d = true ->
  exists c d', d = String c d' /\ is_digit c = true.
Proof. destruct d as [|c d]; [done|]. simpl. intros _ H. to_prop. eauto. Qed.

Lemma digit_head c : is_digit c = true -> json_head c = true.
Proof. unfold json_head. by intros ->. Qed.

(** Every printed value starts with a character the parser dispatches on. *)
Lemma stringify_head v : exists c s, stringify v = String c s /\ json_head c = true.
Proof.
  destruct v as [|[]|n|s|l|fs]; simpl; try by eexists _, _.
  destruct (show_z_shape n) as (sign & d & -> & Hs & Hd & Hg & _).
  destruct (good_digits_head d Hg Hd) as (c & d' & -> & Hc).
  destruct Hs as [->| ->]; eexists _, _; (split; [done|]); [by apply digit_head|done].
Qed.

(** The dispatch on the first character reaches [parse_num] on a number. *)
Lemma parse_num_show n rest : ends_number rest = true ->
  parse_num (show_z n +:+ rest) = Some (JNum n, rest).
Proof.
  intros Hr. destruct (show_z_shape n) as (sign & d & -> & Hs & Hd & Hg & Hi).
  destruct (good_digits_head d Hg Hd) as (c & d' & Ed & Hc).
  unfold parse_num. destruct Hs as [->| ->]; simpl in *.
  - replace (match d +:+ rest with String "-" s' => ("-", s') | _ => (EmptyString, d +:+ rest) end)
      with (EmptyString, d +:+ rest) by (rewrite Ed; all_chars c; try discriminate Hc; reflexivity).
    rewrite span_digits_app by done. rewrite Hg. simpl. rewrite Hi. simpl. by rewrite DecimalZ.of_to.
  - rewrite span_digits_app by done. rewrite Hg. simpl. rewrite Hi. simpl. by rewrite DecimalZ.of_to.
Qed.

Lemma parse_value_number f n rest : ends_number rest = true ->
  parse_value (S f) (show_z n +:+ rest) = Some (JNum n, rest).
Proof.
  intros Hr. rewrite <- (parse_num_show n rest Hr).
  destruct (show_z_shape n) as (sign & d & -> & Hs & Hd & Hg & _).
  destruct (good_digits_head d Hg Hd) as (c & d' & -> & Hc).
  simpl. destruct Hs as [->| ->]; simpl; [all_chars c; try discriminate Hc; reflexivity|reflexivity].
Qed.

Lemma parse_value_arr f s : parse_value (S f) (String "[" s) =
  match skip_ws s with
  | String "]" rest => Some (JArr [], rest)
  | _ => p ← parse_items f s; Some (JArr (fst p), snd p)
  end.
Proof. done. Qed.

Lemma parse_value_obj f s : parse_value (S f) (String "{" s) =
  match skip_ws s with
  | String "}" rest => Some (JObj [], rest)
  | _ => p ← parse_members f s; Some (JObj (fst p), snd p)
  end.
Proof. done. Qed.

(** ** Round trip *)

Definition round_trips (v : json) : Prop := forall f rest,
  (String.length (stringify v) < f)%nat -> ends_number rest = true ->
  parse_value f (stringify v +:+ rest) = Some (v, rest).

Lemma items_round_trip l : l <> [] -> List.Forall round_trips l ->
  forall f rest, (String.length (join "," (map stringify l)) + 1 < f)%nat ->
  parse_items f (join "," (map stringify l) +:+ String "]" rest) = Some (l, rest).
Proof.
  intros Hne Hl. induction Hl as [|v l Hv Hl IH]; [done|]. intros f rest Hf.
  destruct f as [|f]; [lia|]. destruct (stringify_head v) as (c & s & Ev & _).
  assert (1 <= String.length (stringify v))%nat by (rewrite Ev; simpl; lia).
  destruct l as [|w l].
  - simpl in *. rewrite Hv by (done || lia). done.
  - remember (w :: l) as l' eqn:El. assert (l' <> []) as Hl' by (by subst).
    assert (map stringify l' <> []) as Hm by (by subst).
    cbn [map] in *. rewrite join_cons in * by done. rewrite !string_app_length in Hf. simpl in Hf.
    rewrite !append_assoc. cbn [parse_items]. rewrite Hv by (done || lia).
    simpl. rewrite IH by (done || lia). done.
Qed.

Definition member (kv : string * json) : string := quote (fst kv) +:+ ":" +:+ stringify (snd kv).

Lemma member_head kv : exists s, member kv = String dquote s.
Proof. by eexists. Qed.

Lemma members_round_trip l : l <> [] -> List.Forall (fun kv => round_trips (snd kv)) l ->
  forall f rest, (String.length (join "," (map member l)) + 1 < f)%nat ->
  parse_members f (join "," (map member l) +:+ String "}" rest) = Some (l, rest).
Proof.
  intros Hne Hl. induction Hl as [|[k v] l Hv Hl IH]; [done|]. intros f rest Hf.
  destruct f as [|f]; [lia|]. simpl in Hv.
  assert (forall r, parse_members (S f) (member (k, v) +:+ r) =
    (p ← parse_value f (stringify v +:+ r);
     match skip_ws (snd p) with
     | String "}" rest => Some ([(k, fst p)], rest)
     | String "," rest => q ← parse_members f rest; Some ((k, fst p) :: fst q, snd q)
     | _ => None
     end)) as Hstep.
  { intros r. unfold member, quote. simpl. rewrite !append_assoc. rewrite parse_chars_quote. done. }
  destruct l as [|w l].
  - cbn [map join] in *. rewrite Hstep. rewrite Hv; [done| |done].
    unfold member in Hf. rewrite !string_app_length in Hf. simpl in Hf. lia.
  - remember (w :: l) as l' eqn:El. assert (l' <> []) as Hl' by (by subst).
    assert (map member l' <> []) as Hm by (by subst).
    cbn [map] in *. rewrite join_cons in * by done. rewrite !string_app_length in Hf.
    rewrite !append_assoc, Hstep.
    unfold member in Hf at 1. rewrite !string_app_length in Hf. simpl in Hf.
    rewrite Hv; [|lia|done]. simpl. rewrite IH by (done || lia). done.
Qed.

Lemma join_head_not (l : list string) (r : string) :
  l <> [] -> List.Forall (fun s => exists c s', s = String c s' /\ json_head c = true) l ->
  exists c s', join "," l +:+ r = String c s' /\ json_head c = true.
Proof.
  intros Hne Hf. destruct Hf as [|s l' (c & s' & -> & Hc) Hf]; [done|].
  destruct l'; simpl; eauto.
Qed.

Lemma round_trip_all v : round_trips v.
Proof.
  induction v as [| | | |l IH|fs IH] using json_nested_ind; intros f rest Hf Hrest;
    (destruct f as [|f]; [lia|]).
  - done.
  - by destruct b.
  - by apply parse_value_number.
  - simpl. unfold quote. simpl. rewrite append_assoc, parse_chars_quote. done.
  - destruct (decide (l = [])) as [->|Hne]; [done|].
    assert (exists c s', join "," (map stringify l) +:+ String "]" rest = String c s' /\ json_head c = true)
      as (c & s' & Es & Hc).
    { apply join_head_not; [by destruct l|]. apply List.Forall_map. apply List.Forall_forall.
      intros v _. apply stringify_head. }
    simpl in Hf. rewrite string_app_length in Hf. simpl in Hf.
    pose proof (items_round_trip l Hne IH f rest ltac:(lia)) as Hi.
    cbn [stringify]. rewrite !append_assoc. simpl (String.append "[" _). rewrite parse_value_arr.
    simpl (String.append "]" _). rewrite Es, skip_ws_head by done. rewrite <- Es, Hi.
    all_chars c; try discriminate Hc; reflexivity.
  - destruct (decide (fs = [])) as [->|Hne]; [done|].
    assert (exists c s', join "," (map member fs) +:+ String "}" rest = String c s' /\ json_head c = true)
      as (c & s' & Es & Hc).
    { apply join_head_not; [by destruct fs|]. apply List.Forall_map. apply List.Forall_forall.
      intros kv _. destruct (member_head kv) as (s & ->). by eexists _, _. }
    assert (stringify (JObj fs) = String "{" (join "," (map member fs) +:+ "}")) as Eobj by reflexivity.
    rewrite Eobj in *. cbn [String.length] in Hf. rewrite string_app_length in Hf. cbn [String.length] in Hf.
    pose proof (members_round_trip fs Hne IH f rest ltac:(lia)) as Hi.
    simpl (String.append (String _ _) _). rewrite !append_assoc. rewrite parse_value_obj.
    simpl (String.append "}" _). rewrite Es, skip_ws_head by done. rewrite <- Es, Hi.
    all_chars c; try discriminate Hc; reflexivity.
Qed.

(** [JSON.parse(JSON.stringify(v))] is [v]. *)
Lemma parse_stringify v : parse (stringify v) = Some v.
Proof.
  pose proof (round_trip_all v (S (String.length (stringify v))) EmptyString ltac:(lia) eq_refl) as H.
  rewrite append_nil_r in H. unfold parse. by rewrite H.
Qed.

#[export] Hint Rewrite parse_stringify : jarvis.
