(* ===== verification/JsNumber.v ===== *)
(** * JavaScript numbers

    IEEE 754 binary64 values with the operators and conversions the expression
    evaluator uses: arithmetic with rounding to nearest even, [%], comparison,
    [Number(text)] and [String(number)]. Values are the standard library's
    executable specification of floats, at precision 53. Nothing here models
    code of the repository. *)
From Stdlib Require Import SpecFloat DecimalString Ascii.
From S2P Require Export Json.

Definition prec : Z := 53.
Definition emax : Z := 1024.

Notation number := spec_float.

Definition num_nan : number := S754_nan.

(** The double nearest to [m * 2^e]. *)
Definition round_to (m e : Z) : number := binary_normalize prec emax m e false.
Definition num_of_Z (n : Z) : number := round_to n 0.

Definition num_add : number -> number -> number := SFadd prec emax.
Definition num_sub : number -> number -> number := SFsub prec emax.
Definition num_mul : number -> number -> number := SFmul prec emax.
Definition num_div : number -> number -> number := SFdiv prec emax.
Definition num_neg : number -> number := SFopp.

(** [x % y]: the exact remainder with the sign of the dividend. *)
Definition num_rem (x y : number) : number :=
  match x, y with
  | S754_nan, _ | _, S754_nan | S754_infinity _, _ | _, S754_zero _ => S754_nan
  | S754_zero s, _ => S754_zero s
  | S754_finite s m e, S754_infinity _ => S754_finite s m e
  | S754_finite s m e, S754_finite _ m' e' =>
      let low := Z.min e e' in
      let r := Z.rem (Z.pos m * 2 ^ (e - low)) (Z.pos m' * 2 ^ (e' - low)) in
      if r =? 0 then S754_zero s
      else binary_normalize prec emax (if s then - r else r) low s
  end.

Definition num_eqb : number -> number -> bool := SFeqb.
Definition num_ltb : number -> number -> bool := SFltb.
Definition num_leb : number -> number -> bool := SFleb.

(** [Number.isFinite] *)
Definition is_finite_num (x : number) : bool :=
  match x with S754_zero _ | S754_finite _ _ _ => true | S754_infinity _ | S754_nan => false end.

(** Falsy numbers are the zeros and [NaN]. *)
Definition truthy_num (x : number) : bool :=
  match x with S754_zero _ | S754_nan => false | _ => true end.

(** ** [Number(text)] *)

(** The double nearest to [m * 10^q], for [m >= 0]. *)
Definition of_decimal (m q : Z) : number :=
  match m with
  | Z.pos p =>
      if 0 <=? q then num_of_Z (m * 10 ^ q)
      else match SFdiv_core_binary prec emax (Z.pos p) 0 (10 ^ (- q)) 0 with
           | (m', e', l) => binary_round_aux prec emax false m' e' l
           end
  | _ => S754_zero false
  end.

Definition digits_value (d : string) : Z :=
  match NilEmpty.uint_of_string d with Some u => Z.of_uint u | None => 0 end.

(** The sign and the digits of an exponent; without digits there is none. *)
Definition scan_exponent (s : string) : Z * string :=
  match s with
  | String c s' =>
      if Ascii.eqb c "e" || Ascii.eqb c "E" then
        let '(negative, s1) := match s' with
                               | String "-" r => (true, r)
                               | String "+" r => (false, r)
                               | _ => (false, s')
                               end in
        match span_digits s1 with
        | (EmptyString, _) => (0, s)
        | (d, rest) => ((if negative : bool then - digits_value d else digits_value d), rest)
        end
      else (0, s)
  | EmptyString => (0, s)
  end.

(** Longest unsigned decimal literal at the start of [s]: its value and the rest.
    The grammar [\d+(\.\d* )?|\.\d+] with an optional exponent. *)
Definition scan_decimal (s : string) : option (number * string) :=
  let '(whole, s1) := span_digits s in
  let '(frac, s2) := match s1 with String "." r => span_digits r | _ => (EmptyString, s1) end in
  match whole, frac with
  | EmptyString, EmptyString => None
  | _, _ =>
      let '(e, rest) := scan_exponent s2 in
      Some (of_decimal (digits_value (whole +:+ frac)) (e - Z.of_nat (String.length frac)), rest)
  end.

Definition radix_value (radix : Z) (s : string) : option Z :=
  match s with
  | EmptyString => None
  | _ => foldl (fun acc c => v ← acc; d ← hex_value c;
                 if Z.of_nat d <? radix then Some (v * radix + Z.of_nat d) else None)
               (Some 0) (String.list_ascii_of_string s)
  end.

Definition radix_prefix (s : string) : option (Z * string) :=
  match s with
  | String "0" (String c r) =>
      if Ascii.eqb c "x" || Ascii.eqb c "X" then Some (16, r)
      else if Ascii.eqb c "o" || Ascii.eqb c "O" then Some (8, r)
      else if Ascii.eqb c "b" || Ascii.eqb c "B" then Some (2, r)
      else None
  | _ => None
  end.

Definition unsigned_number (s : string) : number :=
  if bool_decide (s = "Infinity") then S754_infinity false
  else match scan_decimal s with Some (v, EmptyString) => v | _ => S754_nan end.

(** [Number(text)]: trimmed, the empty text is zero, anything else malformed is [NaN]. *)
Definition number_of_string (text : string) : number :=
  let s := trim text in
  match s with
  | EmptyString => S754_zero false
  | String c r =>
      match radix_prefix s with
      | Some (radix, r') => match radix_value radix r' with Some v => num_of_Z v | None => S754_nan end
      | None =>
          if Ascii.eqb c "-" then num_neg (unsigned_number r)
          else if Ascii.eqb c "+" then unsigned_number r
          else unsigned_number s
      end
  end.

(** ** [String(number)] *)

(** The magnitude [m * 2^e] as a fraction. *)
Definition fraction (m : positive) (e : Z) : Z * Z :=
  if 0 <=? e then (Z.pos m * 2 ^ e, 1) else (Z.pos m, 2 ^ (- e)).

Definition digit_count (n : Z) : Z := Z.of_nat (String.length (show_z n)).

(** The [n] with [10^(n-1) <= num/den < 10^n]. *)
Definition decimal_point (num den : Z) : Z :=
  let d := digit_count num - digit_count den in
  if (if 0 <=? d then num <? den * 10 ^ d else num * 10 ^ (- d) <? den) then d else d + 1.

Definition same_num (x y : number) : bool := num_eqb x y.

(** The shortest digits that read back as the number [x] of magnitude [num/den]:
    [k] digits [s] with the decimal point after the [n]-th, as in Number::toString.
    Seventeen digits always read back. *)
Fixpoint shortest (x : number) (num den n : Z) (k : Z) (fuel : nat) : Z * Z * Z :=
  let scale := k - n in
  let '(a, b) := if 0 <=? scale then (num * 10 ^ scale, den) else (num, den * 10 ^ (- scale)) in
  let low := a / b in
  let good s := same_num (of_decimal s (n - k)) x in
  let up := if low + 1 =? 10 ^ k then (10 ^ (k - 1), k, n + 1) else (low + 1, k, n) in
  match fuel with
  | O => (low, k, n)
  | S fuel' =>
      match good low, good (low + 1) with
      | true, true => if 2 * (a - low * b) <=? b then (low, k, n) else up
      | true, false => (low, k, n)
      | false, true => up
      | false, false => shortest x num den n (k + 1) fuel'
      end
  end.

Fixpoint zeros (n : nat) : string := match n with O => EmptyString | S n' => String "0" (zeros n') end.

(** Layout of the digits: plain, with a point, with leading zeros, or scientific. *)
Definition layout (s k n : Z) : string :=
  let d := show_z s in
  if (k <=? n) && (n <=? 21) then d +:+ zeros (Z.to_nat (n - k))
  else if (0 <? n) && (n <=? 21) then stake (Z.to_nat n) d +:+ "." +:+ sdrop (Z.to_nat n) d
  else if (-6 <? n) && (n <=? 0) then "0." +:+ zeros (Z.to_nat (- n)) +:+ d
  else
    let e := n - 1 in
    let mant := if k =? 1 then d else stake 1 d +:+ "." +:+ sdrop 1 d in
    mant +:+ (if 0 <=? e then "e+" else "e-") +:+ show_z (Z.abs e).

Definition magnitude_string (m : positive) (e : Z) : string :=
  let '(num, den) := fraction m e in
  if (num mod den =? 0) && (num / den <? 2 ^ 53) then show_z (num / den)
  else let '(s, k, n) := shortest (S754_finite false m e) num den (decimal_point num den) 1 17 in
       layout s k n.

(** [String(x)]; both zeros print as "0". *)
Definition string_of_number (x : number) : string :=
  match x with
  | S754_nan => "NaN"
  | S754_zero _ => "0"
  | S754_infinity s => if s then "-Infinity" else "Infinity"
  | S754_finite s m e => (if s then "-" else EmptyString) +:+ magnitude_string m e
  end.

(** ** What a number leaves of the text *)

Lemma span_digits_length s : (String.length (snd (span_digits s)) + String.length (fst (span_digits s)) = String.length s)%nat.
Proof. induction s as [|c s IH]; simpl; [done|]. destruct (is_digit c); simpl; lia. Qed.

Lemma scan_exponent_length s : (String.length (snd (scan_exponent s)) <= String.length s)%nat.
Proof.
  destruct s as [|c s]; simpl; [done|]. destruct (_ || _); [|done].
  match goal with |- context [let '(_, _) := ?x in _] => set (p := x) end.
  assert (String.length (snd p) <= String.length s)%nat as Hp.
  { subst p. destruct s as [|[[] [] [] [] [] [] [] []] s]; simpl; lia. }
  destruct p as [neg s1]. simpl in Hp. pose proof (span_digits_length s1) as Hd.
  destruct (span_digits s1) as [[|d ds] rest]; simpl in *; lia.
Qed.

Lemma scan_decimal_shorter s x r : scan_decimal s = Some (x, r) -> (String.length r < String.length s)%nat.
Proof.
  unfold scan_decimal. pose proof (span_digits_length s) as Hs. destruct (span_digits s) as [whole s1]. simpl in Hs.
  match goal with |- context [let '(_, _) := ?p in _] => set (q := p) end.
  assert (String.length (snd q) + String.length (fst q) <= String.length s1)%nat as Hq.
  { subst q. destruct s1 as [|[[] [] [] [] [] [] [] []] s1]; simpl; try lia.
    pose proof (span_digits_length s1). lia. }
  destruct q as [frac s2]. simpl in Hq. pose proof (scan_exponent_length s2) as He.
  destruct (scan_exponent s2) as [e rest]. simpl in He.
  destruct whole, frac; simpl in *; intros H; simplify_eq; lia.
Qed.

(** ** Reference values *)

Example number_reads : map number_of_string ["0.1"; "1e3"; " 0x1F "; ""; "-.5"; "1."; "5e-324"; "1.7976931348623157e308"; "2e308"; "1e"; "Infinity"; "12px"]
  = [S754_finite false 7205759403792794 (-56); num_of_Z 1000; num_of_Z 31; S754_zero false; S754_finite true 4503599627370496 (-53);
     num_of_Z 1; S754_finite false 1 (-1074); S754_finite false 9007199254740991 971; S754_infinity false; S754_nan; S754_infinity false; S754_nan].
Proof. vm_compute. reflexivity. Qed.

Example number_prints : map string_of_number [num_add (number_of_string "0.1") (number_of_string "0.2"); number_of_string "1e21"; number_of_string "123456789012345680000";
  number_of_string "5e-324"; number_of_string "1.7976931348623157e308"; number_of_string "-0.000001"; number_of_string "1e-7"; number_of_string "9.5"; num_of_Z (-42);
  num_div (num_of_Z 1) (num_of_Z 3); number_of_string "1e23"; number_of_string "-0"]
  = ["0.30000000000000004"; "1e+21"; "123456789012345680000"; "5e-324"; "1.7976931348623157e+308"; "-0.000001"; "1e-7"; "9.5"; "-42"; "0.3333333333333333"; "1e+23"; "0"].
Proof. vm_compute. reflexivity. Qed.

Example remainders : map string_of_number [num_rem (number_of_string "5.5") (num_of_Z 2); num_rem (num_of_Z (-7)) (num_of_Z 3); num_rem (num_of_Z 1) (num_of_Z 0)]
  = ["1.5"; "-1"; "NaN"].
Proof. vm_compute. reflexivity. Qed.
