(* ===== verification/JsonData.v ===== *)
(** * JSON values with all their numbers

    [JSON.parse] on texts whose numbers are not only integers: binary64 values, and objects whose
    repeated keys keep their first place and their last value, as JavaScript objects do. The
    integers of [Json] suffice where the daemon parses its own texts; here the text comes from
    outside. Nothing here models code of the repository. *)
From Stdlib Require Import Ascii SpecFloat.
From S2P Require Export JsNumber JsMap.

Inductive jval :=
  | VNull
  | VBool (b : bool)
  | VNumber (x : number)
  | VString (s : string)
  | VList (items : list jval)
  | VRecord (fields : list (string * jval)).

(** Induction through the values inside a list or a record. *)
Lemma jval_ind' (P : jval -> Prop) : P VNull -> (forall b, P (VBool b)) -> (forall x, P (VNumber x)) -> (forall s, P (VString s)) ->
  (forall l, List.Forall P l -> P (VList l)) -> (forall fs, List.Forall (fun f => P f.2) fs -> P (VRecord fs)) -> forall v, P v.
Proof.
  intros Hnull Hbool Hnum Hstr Hlist Hrec. fix go 1. intros [|b|x|t|l|fs]; [exact Hnull|apply Hbool|apply Hnum|apply Hstr|apply Hlist|apply Hrec].
  - induction l; constructor; [apply go|done].
  - induction fs as [|[k x] fs IH]; constructor; [apply go|done].
Qed.

(** ** Parsing *)

(** [-? (0 | [1-9][0-9]* ) (. [0-9]+)? ([eE] [+-]? [0-9]+)?] *)
Definition number_end (s : string) : bool :=
  match s with
  | String c _ => negb (Ascii.eqb c "e" || Ascii.eqb c "E" || Ascii.eqb c ".")
  | EmptyString => true
  end.

Definition parse_number (s : string) : option (jval * string) :=
  let '(negative, s1) := match s with String "-" s' => (true, s') | _ => (false, s) end in
  let '(whole, s2) := span_digits s1 in
  if negb (good_digits whole) then None
  else if match s2 with String "." r => negb (truthy (span_digits r).1) | _ => false end then None
  else match scan_decimal s1 with
       | Some (x, rest) => if number_end rest then Some (VNumber (if negative : bool then num_neg x else x), rest) else None
       | None => None
       end.

(** A member of an object: a repeated key keeps its first place. *)
Definition add_members (l : list (string * jval)) : list (string * jval) :=
  foldl (fun fields m => map_set m.1 m.2 fields) [] l.

(** The rest after [close], if it is what comes next. *)
Definition closes (close : ascii) (s : string) : option string :=
  match skip_ws s with String c rest => if Ascii.eqb c close then Some rest else None | EmptyString => None end.

(** After an element: the end of the sequence, or a comma and more. *)
Definition next {A} (close : ascii) (s : string) (stop more : string -> option A) : option A :=
  match skip_ws s with
  | String c rest => if Ascii.eqb c close then stop rest else if Ascii.eqb c "," then more rest else None
  | EmptyString => None
  end.

Fixpoint read_value (fuel : nat) (s : string) {struct fuel} : option (jval * string) :=
  match fuel with
  | O => None
  | S fuel' =>
      match skip_ws s with
      | EmptyString => None
      | String c s' as s0 =>
          if Ascii.eqb c "{" then
            match closes "}" s' with
            | Some rest => Some (VRecord [], rest)
            | None => p ← read_members fuel' s'; Some (VRecord (add_members p.1), p.2)
            end
          else if Ascii.eqb c "[" then
            match closes "]" s' with
            | Some rest => Some (VList [], rest)
            | None => p ← read_items fuel' s'; Some (VList p.1, p.2)
            end
          else if Ascii.eqb c dquote then p ← parse_chars s'; Some (VString p.1, p.2)
          else if Ascii.eqb c "n" then rest ← expect "null" s0; Some (VNull, rest)
          else if Ascii.eqb c "t" then rest ← expect "true" s0; Some (VBool true, rest)
          else if Ascii.eqb c "f" then rest ← expect "false" s0; Some (VBool false, rest)
          else parse_number s0
      end
  end
with read_items (fuel : nat) (s : string) {struct fuel} : option (list jval * string) :=
  match fuel with
  | O => None
  | S fuel' =>
      p ← read_value fuel' s;
      next "]" p.2 (fun rest => Some ([p.1], rest)) (fun rest => q ← read_items fuel' rest; Some (p.1 :: q.1, q.2))
  end
with read_members (fuel : nat) (s : string) {struct fuel} : option (list (string * jval) * string) :=
  match fuel with
  | O => None
  | S fuel' =>
      match closes dquote s with
      | Some s' =>
          k ← parse_chars s';
          match closes ":" k.2 with
          | Some s1 =>
              p ← read_value fuel' s1;
              next "}" p.2 (fun rest => Some ([(k.1, p.1)], rest))
                (fun rest => q ← read_members fuel' rest; Some ((k.1, p.1) :: q.1, q.2))
          | None => None
          end
      | None => None
      end
  end.

(** [JSON.parse]; [None] is a syntax error, or an escape above \u00FF: a character of a text is a code
    unit below 256 here, so such a string is no value of the model. Two steps a character are enough ([read_value_fuel]). *)
Definition parse_json (s : string) : option jval :=
  match read_value (2 * String.length s + 2) s with
  | Some (v, rest) => match skip_ws rest with EmptyString => Some v | _ => None end
  | None => None
  end.

(** ** The fuel is enough *)

Local Notation slen := String.length.

Lemma skip_ws_length s : (slen (skip_ws s) <= slen s)%nat.
Proof. induction s as [|c s IH]; [done|]. cbn. destruct (_ || _); cbn; lia. Qed.

Lemma expect_length p s rest : expect p s = Some rest -> (slen rest + slen p = slen s)%nat.
Proof.
  revert s. induction p as [|c p IH]; intros [|d s]; cbn; try done; [by intros [= <-]|intros [= <-]; cbn; lia|].
  destruct (Ascii.eqb c d); [|done]. intros H%IH. lia.
Qed.

Lemma parse_chars_length s p : parse_chars s = Some p -> (slen p.2 < slen s)%nat.
Proof.
  assert (forall n s p, (slen s <= n)%nat -> parse_chars s = Some p -> (slen p.2 < slen s)%nat) as H; [|by apply (H (slen s))].
  clear. induction n as [|n IH]; intros [|c s] p Hn; cbn [parse_chars slen] in *; try done; try lia.
  destruct (_ =? 34)%nat; [intros [= <-]; cbn; lia|]. destruct (_ =? 92)%nat.
  - destruct s as [|e s]; [done|]. cbn [slen] in Hn. destruct (_ =? 117)%nat.
    + destruct s as [|a [|b [|x [|y s]]]]; try done. cbn [slen] in *. destruct (hex_value a), (hex_value b), (hex_value x), (hex_value y); try done.
      destruct (_ && _); [|done]. destruct (parse_chars s) as [q|] eqn:E; [|done]. intros [= <-]. apply IH in E; cbn in *; lia.
    + destruct (simple_escape e); [|done]. cbn. destruct (parse_chars s) as [q|] eqn:E; [|done]. intros [= <-]. apply IH in E; cbn in *; lia.
  - destruct (_ <? 32)%nat; [done|]. destruct (parse_chars s) as [q|] eqn:E; [|done]. intros [= <-]. apply IH in E; cbn in *; lia.
Qed.

Lemma parse_number_length s p : parse_number s = Some p -> (slen p.2 < slen s)%nat.
Proof.
  unfold parse_number. set (sgn := match s with String "-" s' => (true, s') | _ => (false, s) end).
  assert (slen sgn.2 <= slen s)%nat as Hs by (unfold sgn; destruct s as [|[[] [] [] [] [] [] [] []] s]; cbn; lia).
  destruct sgn as [n s1]. cbn [snd] in Hs. destruct (span_digits s1) as [whole s2]. destruct (negb _); [done|].
  destruct (match s2 with String "." r => _ | _ => false end); [done|]. destruct (scan_decimal s1) as [[x rest]|] eqn:E; [|done].
  apply scan_decimal_shorter in E. destruct (number_end rest); [|done]. intros [= <-]. cbn in *. lia.
Qed.

(** Both readings agree and consume something. *)
Definition same_reading {A} (s : string) (a b : option (A * string)) : Prop :=
  a = b /\ forall r, a = Some r -> (slen r.2 < slen s)%nat.

Lemma same_bind {A B} s t (a b : option (A * string)) (k k' : A * string -> option (B * string)) : same_reading t a b -> (slen t <= slen s)%nat ->
  (forall r, (slen r.2 < slen t)%nat -> same_reading s (k r) (k' r)) -> same_reading s (a ≫= k) (b ≫= k').
Proof. intros [<- Ha] Hl Hk. destruct a as [r|]; cbn; [apply Hk; by apply Ha|by split]. Qed.

Lemma same_refl {A} s (a : option (A * string)) : (forall r, a = Some r -> (slen r.2 < slen s)%nat) -> same_reading s a a.
Proof. by split. Qed.

Lemma same_some {A} s (x : A) rest : (slen rest < slen s)%nat -> same_reading s (Some (x, rest)) (Some (x, rest)).
Proof. intros H. apply same_refl. by intros r [= <-]. Qed.

Lemma same_literal {A} s t p (v : A) : (slen t <= slen s)%nat -> p <> EmptyString ->
  same_reading s (rest ← expect p t; Some (v, rest)) (rest ← expect p t; Some (v, rest)).
Proof.
  intros Ht Hp. apply same_refl. destruct (expect p t) as [rest|] eqn:E; [|done]. apply expect_length in E. intros r [= <-]. cbn.
  destruct p; [done|]. cbn in E. lia.
Qed.

Lemma closes_length close s rest : closes close s = Some rest -> (slen rest < slen s)%nat.
Proof.
  unfold closes. pose proof (skip_ws_length s) as Hl. destruct (skip_ws s) as [|c r]; [done|]. cbn in Hl.
  destruct (Ascii.eqb c close); [|done]. intros [= <-]. lia.
Qed.

Lemma same_next {A} s t close (x y x' y' : string -> option (A * string)) :
  (forall rest, (slen rest < slen t)%nat -> same_reading s (x rest) (x' rest)) ->
  (forall rest, (slen rest < slen t)%nat -> same_reading s (y rest) (y' rest)) ->
  same_reading s (next close t x y) (next close t x' y').
Proof.
  intros Hx Hy. unfold next. pose proof (skip_ws_length t) as Hl. destruct (skip_ws t) as [|c rest]; [by split|]. cbn in Hl.
  destruct (Ascii.eqb c close); [apply Hx; lia|]. destruct (Ascii.eqb c ","); [apply Hy; lia|by split].
Qed.

Lemma readings_agree n :
  (forall s f g, slen s <= n -> 2 * n + 1 <= f -> 2 * n + 1 <= g -> same_reading s (read_value f s) (read_value g s))%nat /\
  (forall s f g, slen s <= n -> 2 * n + 2 <= f -> 2 * n + 2 <= g -> same_reading s (read_items f s) (read_items g s))%nat /\
  (forall s f g, slen s <= n -> 2 * n + 2 <= f -> 2 * n + 2 <= g -> same_reading s (read_members f s) (read_members g s))%nat.
Proof.
  induction n as [n IH] using lt_wf_ind.
  assert (forall s f g, slen s <= n -> 2 * n + 1 <= f -> 2 * n + 1 <= g -> same_reading s (read_value f s) (read_value g s))%nat as Hv.
  { intros s [|f] [|g] Hn Hf Hg; try lia. cbn [read_value]. pose proof (skip_ws_length s) as Hl.
    destruct (skip_ws s) as [|c s'] eqn:Es; [by split|]. cbn [slen] in Hl.
    assert (forall m, m < n -> 2 * m + 2 <= f /\ 2 * m + 2 <= g)%nat as Hm by lia.
    destruct (IH (slen s') ltac:(lia)) as (_ & IHi & IHm). destruct (Hm (slen s') ltac:(lia)) as [Hf' Hg'].
    destruct (Ascii.eqb c "{").
    { destruct (closes "}" s') as [rest|] eqn:Ec; [apply same_some; apply closes_length in Ec; lia|].
      apply (same_bind s s'); [by apply IHm|lia|]. intros r Hr. apply same_some. lia. }
    destruct (Ascii.eqb c "[").
    { destruct (closes "]" s') as [rest|] eqn:Ec; [apply same_some; apply closes_length in Ec; lia|].
      apply (same_bind s s'); [by apply IHi|lia|]. intros r Hr. apply same_some. lia. }
    destruct (Ascii.eqb c dquote).
    { apply (same_bind s s'); [apply same_refl, parse_chars_length|lia|]. intros r Hr. apply same_some. lia. }
    do 3 (match goal with |- same_reading _ (if ?b then _ else _) _ => destruct b end; [by apply same_literal; [cbn; lia|]|]).
    apply same_refl. intros r Hr%parse_number_length. cbn in *. lia. }
  split; [done|]. assert (forall m, m <= n -> forall s f g, slen s <= m -> 2 * m + 1 <= f -> 2 * m + 1 <= g ->
    same_reading s (read_value f s) (read_value g s))%nat as Hv'.
  { intros m Hm. destruct (decide (m = n)) as [->|Hne]; [exact Hv|]. apply IH. lia. }
  split.
  - intros s [|f] [|g] Hn Hf Hg; try lia. cbn [read_items]. apply (same_bind s s); [apply Hv; lia|lia|]. intros r Hr.
    apply same_next; intros rest Hrest; [apply same_some; lia|]. destruct (IH (slen rest) ltac:(lia)) as (_ & IHi & _).
    apply (same_bind s rest); [apply IHi; lia|lia|]. intros q Hq. apply same_some. lia.
  - intros s [|f] [|g] Hn Hf Hg; try lia. cbn [read_members]. destruct (closes dquote s) as [s'|] eqn:Ec; [|by split].
    apply closes_length in Ec. apply (same_bind s s'); [apply same_refl, parse_chars_length|lia|]. intros k Hk.
    destruct (closes ":" k.2) as [s1|] eqn:E1; [|by split]. apply closes_length in E1.
    apply (same_bind s s1); [apply (Hv' (slen s1)); lia|lia|]. intros r Hr.
    apply same_next; intros rest Hrest; [apply same_some; lia|]. destruct (IH (slen rest) ltac:(lia)) as (_ & _ & IHm).
    apply (same_bind s rest); [apply IHm; lia|lia|]. intros q Hq. apply same_some. lia.
Qed.

(** A text that is read with any more fuel is read the same: [None] is never a lack of fuel. *)
Lemma read_value_fuel s fuel : (2 * slen s + 2 <= fuel)%nat -> read_value fuel s = read_value (2 * slen s + 2) s.
Proof. intros H. apply (readings_agree (slen s)); lia. Qed.

Example parse_json_reads : parse_json (" {" +:+ quote "a" +:+ " : [1, -2.5e1, null ], " +:+ quote "a" +:+ ":2 } ") =
  Some (VRecord [("a", VNumber (num_of_Z 2))]) /\
  parse_json "[-2.5e1 ,true]" = Some (VList [VNumber (num_of_Z (-25)); VBool true]) /\
  parse_json "[01]" = None /\ parse_json "[1.]" = None /\ parse_json "```[1]```" = None.
Proof. vm_compute. done. Qed.
