(* ===== verification/Regex.v ===== *)
(** * The regular expressions of the sources

    [RegExp.prototype.test] on the fragment the modelled code uses: classes,
    sequences, alternatives, repetition, [\b], [^] and [$], without the [m], [u]
    and [s] flags. [rel] says which part of a text an expression matches, [runs]
    decides it with a continuation, and [re_test] tries every start
    ([re_test_spec]). The matcher branches with [if], so that evaluation tries a
    continuation only where it is needed. The [i] flag is a property of the classes: [ci] folds ASCII
    letters, which is all it does to code units below 256. *)
From S2P Require Export JsString.
From Stdlib Require Import Ascii.

Inductive regex :=
  | REps
  | RChar (p : ascii -> bool)
  | RSeq (r1 r2 : regex)
  | RAlt (r1 r2 : regex)
  | RStar (r : regex)
  | RWordB
  | RBegin
  | REnd.

(** [\w] *)
Definition is_word (c : ascii) : bool :=
  let n := nat_of_ascii c in
  ((48 <=? n)%nat && (n <=? 57)%nat) || ((65 <=? n)%nat && (n <=? 90)%nat) || (n =? 95)%nat
  || ((97 <=? n)%nat && (n <=? 122)%nat).

Definition head_char (s : string) : option ascii := match s with EmptyString => None | String c _ => Some c end.
Definition is_word_at (c : option ascii) : bool := match c with Some c => is_word c | None => false end.

(** [\b] between the previous and the next code unit. *)
Definition boundary (p : option ascii) (s : string) : bool :=
  negb (Bool.eqb (is_word_at p) (is_word_at (head_char s))).

(** ** What an expression matches

    [rel r p s p' s']: before [s], after the code unit [p], [r] matches the text
    that leads to [s'], after [p']. *)
Inductive rel : regex -> option ascii -> string -> option ascii -> string -> Prop :=
  | rel_eps p s : rel REps p s p s
  | rel_char f p c s : f c = true -> rel (RChar f) p (String c s) (Some c) s
  | rel_seq r1 r2 p s p1 s1 p2 s2 : rel r1 p s p1 s1 -> rel r2 p1 s1 p2 s2 -> rel (RSeq r1 r2) p s p2 s2
  | rel_left r1 r2 p s p' s' : rel r1 p s p' s' -> rel (RAlt r1 r2) p s p' s'
  | rel_right r1 r2 p s p' s' : rel r2 p s p' s' -> rel (RAlt r1 r2) p s p' s'
  | rel_stop r p s : rel (RStar r) p s p s
  | rel_more r p s p1 s1 p2 s2 : rel r p s p1 s1 -> (String.length s1 < String.length s)%nat ->
      rel (RStar r) p1 s1 p2 s2 -> rel (RStar r) p s p2 s2
  | rel_word p s : boundary p s = true -> rel RWordB p s p s
  | rel_begin s : rel RBegin None s None s
  | rel_end p : rel REnd p EmptyString p EmptyString.

(** ** The matcher *)

Definition cont : Type := option ascii -> string -> bool.

(** The iterations of a star: an iteration that matches nothing is not tried, as in ECMAScript. *)
Fixpoint star_loop (body : option ascii -> string -> cont -> bool) (n : nat) (p : option ascii) (s : string)
    (k : cont) : bool :=
  match n with
  | O => k p s
  | S n' =>
      if body p s (fun p' s' => if (String.length s' <? String.length s)%nat then star_loop body n' p' s' k else false)
      then true else k p s
  end.

Fixpoint runs (r : regex) (p : option ascii) (s : string) (k : cont) : bool :=
  match r with
  | REps => k p s
  | RChar f => match s with String c s' => if f c then k (Some c) s' else false | EmptyString => false end
  | RSeq r1 r2 => runs r1 p s (fun p' s' => runs r2 p' s' k)
  | RAlt r1 r2 => if runs r1 p s k then true else runs r2 p s k
  | RStar r1 => star_loop (runs r1) (String.length s) p s k
  | RWordB => if boundary p s then k p s else false
  | RBegin => match p with None => k p s | Some _ => false end
  | REnd => match s with EmptyString => k p s | String _ _ => false end
  end.

(** The expression matches from some position of [s]. *)
Fixpoint search_from (r : regex) (p : option ascii) (s : string) : bool :=
  if runs r p s (fun _ _ => true) then true
  else match s with String c s' => search_from r (Some c) s' | EmptyString => false end.

(** [r.test(s)] *)
Definition re_test (r : regex) (s : string) : bool := search_from r None s.

(** ** Notation for the expressions *)

Definition rch (c : ascii) : regex := RChar (Ascii.eqb c).
(** A literal, and one matched without case. *)
Fixpoint rlit (s : string) : regex :=
  match s with EmptyString => REps | String c s' => RSeq (rch c) (rlit s') end.
Definition ci (c : ascii) : regex := RChar (fun d => Ascii.eqb (lower_ascii c) (lower_ascii d)).
Fixpoint rlit_i (s : string) : regex :=
  match s with EmptyString => REps | String c s' => RSeq (ci c) (rlit_i s') end.
Definition ropt (r : regex) : regex := RAlt r REps.
Definition rplus (r : regex) : regex := RSeq r (RStar r).
Fixpoint rany (l : list regex) : regex :=
  match l with [] => RChar (fun _ => false) | [r] => r | r :: l' => RAlt r (rany l') end.
Fixpoint rseq (l : list regex) : regex := match l with [] => REps | [r] => r | r :: l' => RSeq r (rseq l') end.
(** [r{0,n}] *)
Fixpoint rupto (n : nat) (r : regex) : regex := match n with O => REps | S n' => ropt (RSeq r (rupto n' r)) end.
Definition chars (s : string) : regex := RChar (fun c => negb (lacks c s)).
Definition rdigit : regex := RChar (fun c => (48 <=? nat_of_ascii c)%nat && (nat_of_ascii c <=? 57)%nat).
Definition rspace : regex := RChar is_ws.
Definition rnonspace : regex := RChar (fun c => negb (is_ws c)).
(** [.]: not a line terminator (those below 256). *)
Definition rdot : regex := RChar (fun c => let n := nat_of_ascii c in negb ((n =? 10)%nat || (n =? 13)%nat)).

(** ** The matcher decides the relation *)

Lemma if_orb (a b : bool) : (if a then true else b) = a || b. Proof. by destruct a. Qed.
Lemma if_and_true (a b : bool) : (if a then b else false) = true <-> a = true /\ b = true.
Proof. destruct a; naive_solver. Qed.

Lemma rel_shorter r p s p' s' : rel r p s p' s' -> (String.length s' <= String.length s)%nat.
Proof. induction 1; simpl; lia. Qed.

Lemma star_loop_spec r (IH : forall p s k, runs r p s k = true <-> exists p' s', rel r p s p' s' /\ k p' s' = true)
  n p s k : (String.length s <= n)%nat ->
  star_loop (runs r) n p s k = true <-> exists p' s', rel (RStar r) p s p' s' /\ k p' s' = true.
Proof.
  revert p s. induction n as [|n IHn]; intros p s Hn; simpl.
  - destruct s; [|simpl in Hn; lia]. split; [intros Hk; exists p, EmptyString; split; [constructor|done]|].
    intros (p' & s' & Hr & Hk). inversion Hr; subst; [done|]. simpl in *. lia.
  - rewrite if_orb, orb_true_iff, IH. split.
    + intros [(p1 & s1 & H1 & [Hlt H2]%if_and_true)|Hk].
      * apply Nat.ltb_lt in Hlt. apply IHn in H2 as (p' & s' & H2 & Hk); [|lia].
        exists p', s'. split; [by eapply rel_more|done].
      * exists p, s. split; [constructor|done].
    + intros (p' & s' & Hr & Hk). inversion Hr as [| | | | |?|? ? ? p1 s1 ? ? H1 Hlt H2| | |]; subst; [by right|left].
      exists p1, s1. split; [done|]. apply if_and_true. split; [by apply Nat.ltb_lt|].
      apply IHn; [lia|]. by exists p', s'.
Qed.

Lemma runs_spec r p s k : runs r p s k = true <-> exists p' s', rel r p s p' s' /\ k p' s' = true.
Proof.
  revert p s k. induction r as [|f|r1 IH1 r2 IH2|r1 IH1 r2 IH2|r IH| | |]; intros p s k; simpl.
  - split; [intros Hk; exists p, s; split; [constructor|done]|]. intros (p' & s' & Hr & Hk). by inversion Hr; subst.
  - destruct s as [|c s]; [split; [done|intros (? & ? & Hr & ?); inversion Hr]|]. rewrite if_and_true. split.
    + intros [Hf Hk]. exists (Some c), s. split; [by constructor|done].
    + intros (p' & s' & Hr & Hk). by inversion Hr; subst.
  - rewrite IH1. split.
    + intros (p1 & s1 & H1 & (p' & s' & H2 & Hk)%IH2). exists p', s'. split; [by econstructor|done].
    + intros (p' & s' & Hr & Hk). inversion Hr; subst. eexists _, _. split; [done|]. apply IH2. eauto.
  - rewrite if_orb, orb_true_iff, IH1, IH2. split.
    + intros [(p' & s' & H1 & Hk)|(p' & s' & H1 & Hk)]; exists p', s'; (split; [|done]); [by constructor 4|by constructor 5].
    + intros (p' & s' & Hr & Hk). inversion Hr; subst; [left|right]; eauto.
  - by apply star_loop_spec.
  - rewrite if_and_true. split; [intros [Hb Hk]; exists p, s; split; [by constructor|done]|].
    intros (p' & s' & Hr & Hk). by inversion Hr; subst.
  - destruct p; [split; [done|intros (? & ? & Hr & ?); inversion Hr]|].
    split; [intros Hk; exists None, s; split; [constructor|done]|]. intros (p' & s' & Hr & Hk). by inversion Hr; subst.
  - destruct s; [|split; [done|intros (? & ? & Hr & ?); inversion Hr]].
    split; [intros Hk; exists p, EmptyString; split; [constructor|done]|]. intros (p' & s' & Hr & Hk). by inversion Hr; subst.
Qed.

(** The code unit before a suffix. *)
Fixpoint last_char (p : option ascii) (s : string) : option ascii :=
  match s with EmptyString => p | String c s' => last_char (Some c) s' end.

Lemma search_from_spec r p s : search_from r p s = true <->
  exists pre rest p' s', s = pre +:+ rest /\ rel r (last_char p pre) rest p' s'.
Proof.
  revert p. induction s as [|c s IH]; intros p; simpl; rewrite if_orb, orb_true_iff, runs_spec.
  - split.
    + intros [(p' & s' & Hr & _)|]; [|done]. by exists EmptyString, EmptyString, p', s'.
    + intros (pre & rest & p' & s' & E & Hr). destruct pre; [|done]. simpl in E; subst rest. left. eauto.
  - rewrite IH. split.
    + intros [(p' & s' & Hr & _)|(pre & rest & p' & s' & -> & Hr)].
      * by exists EmptyString, (String c s), p', s'.
      * by exists (String c pre), rest, p', s'.
    + intros (pre & rest & p' & s' & E & Hr). destruct pre as [|c' pre]; simpl in E; subst; [left; eauto|].
      simplify_eq. right. exists pre, rest, p', s'. by split.
Qed.

(** [test] finds a match exactly when some part of the text is matched. *)
Lemma re_test_spec r s : re_test r s = true <->
  exists pre rest p' s', s = pre +:+ rest /\ rel r (last_char None pre) rest p' s'.
Proof. apply search_from_spec. Qed.

Example word_found : re_test (rseq [RWordB; rlit "url"; RWordB]) "the url, please" = true. Proof. reflexivity. Qed.
Example word_inside : re_test (rseq [RWordB; rlit "url"; RWordB]) "curls" = false. Proof. reflexivity. Qed.
