(* ===== verification/Sql.v ===== *)
(** * Tables in the style of the SQLite calls of the source

    A table is the list of its rows in rowid (insertion) order; the primary key
    is a text column. The operations are the statement shapes the repositories
    of the source issue: [INSERT] (which fails on a key collision), conditional
    [UPDATE ... WHERE] with the number of changed rows, [SELECT ... WHERE] and
    [ORDER BY ... LIMIT]. The clients instantiate [Row] and use the lemmas. *)
From S2P Require Export JsString.

Definition percent : Ascii.ascii := Ascii.ascii_of_nat 37.
Definition underscore : Ascii.ascii := Ascii.ascii_of_nat 95.

(** SQLite's [LIKE] on ASCII text: [%], [_] and case-insensitive letters. *)
Fixpoint like (p s : string) : bool :=
  match p with
  | EmptyString => match s with EmptyString => true | _ => false end
  | String c p' =>
      if Ascii.eqb c percent then
        (fix any (s : string) : bool :=
           like p' s || match s with EmptyString => false | String _ s' => any s' end) s
      else match s with
           | EmptyString => false
           | String d s' =>
               (Ascii.eqb c underscore || Ascii.eqb (lower_ascii c) (lower_ascii d)) && like p' s'
           end
  end.

(** [LIMIT l OFFSET o]: a negative limit is none, a negative offset is 0. *)
Definition sql_limit {A} (l o : Z) (rows : list A) : list A :=
  let rest := drop (Z.to_nat o) rows in if l <? 0 then rest else take (Z.to_nat l) rest.

Lemma sql_limit_In {A} (x : A) l o rows : In x (sql_limit l o rows) -> In x rows.
Proof.
  unfold sql_limit. intros H. rewrite <- (firstn_skipn (Z.to_nat o) rows). apply in_app_iff. right.
  destruct (l <? 0); [done|]. rewrite <- (firstn_skipn (Z.to_nat l) (drop _ rows)). apply in_app_iff. by left.
Qed.

Class Row (R : Type) := row_key : R -> string.

Section table.
Context {R : Type} `{!Row R}.
Implicit Types (t : list R) (r : R) (k : string).

(** [SELECT * FROM t WHERE id = k] *)
Definition get_row k t : option R := List.find (fun r => bool_decide (row_key r = k)) t.

(** [INSERT INTO t]; [None] is the constraint error on the primary key. *)
Definition insert_row r t : option (list R) :=
  match get_row (row_key r) t with Some _ => None | None => Some (t ++ [r]) end.

(** [SELECT * FROM t WHERE p] *)
Definition select_where (p : R -> bool) t : list R := List.filter p t.

(** [UPDATE t SET f WHERE p]: the new rows and [changes]. *)
Definition update_where (p : R -> bool) (f : R -> R) t : list R * nat :=
  (map (fun r => if p r then f r else r) t, length (List.filter p t)).

(** [WHERE id = k AND p] *)
Definition key_is k (p : R -> bool) : R -> bool := fun r => bool_decide (row_key r = k) && p r.

(** [DELETE FROM t WHERE p] *)
Definition delete_where (p : R -> bool) t : list R := List.filter (fun r => negb (p r)) t.

(** Primary keys are unique. *)
Definition keyed t : Prop := List.NoDup (map row_key t).

(** [f] does not touch the key. *)
Class KeepsKey (f : R -> R) := keeps_key : forall r, row_key (f r) = row_key r.

Lemma get_row_Some k t r : get_row k t = Some r -> In r t /\ row_key r = k.
Proof. intros [? ?%bool_decide_eq_true]%List.find_some. done. Qed.

Lemma get_row_None k t : get_row k t = None <-> ~ In k (map row_key t).
Proof.
  split.
  - intros Hn (r & Hr & Hin)%in_map_iff. pose proof (List.find_none _ _ Hn r Hin) as H. simpl in H.
    by apply bool_decide_eq_false in H.
  - intros Hn. destruct (get_row k t) as [r|] eqn:E; [|done].
    apply get_row_Some in E as [Hin <-]. by apply (in_map row_key) in Hin.
Qed.

Lemma get_row_In t r : keyed t -> In r t -> get_row (row_key r) t = Some r.
Proof.
  unfold keyed, get_row. induction t as [|x t IH]; simpl; [done|].
  intros [Hx Ht]%NoDup_cons_iff [->|Hin].
  - by rewrite bool_decide_eq_true_2 by done.
  - rewrite bool_decide_eq_false_2; [by apply IH|].
    intros E. apply Hx. rewrite E. by apply in_map.
Qed.

Lemma keyed_unique t r1 r2 :
  keyed t -> In r1 t -> In r2 t -> row_key r1 = row_key r2 -> r1 = r2.
Proof.
  intros Hk H1 H2 E. apply (get_row_In _ _ Hk) in H1, H2. rewrite E in H1. congruence.
Qed.

(** ** Insert *)

Lemma insert_row_fresh r t t' : insert_row r t = Some t' -> get_row (row_key r) t = None.
Proof. unfold insert_row. by destruct (get_row (row_key r) t). Qed.

Lemma insert_row_keyed r t t' : insert_row r t = Some t' -> keyed t -> keyed t'.
Proof.
  unfold insert_row. destruct (get_row (row_key r) t) eqn:E; [done|]. intros [= <-] Ht.
  unfold keyed. rewrite map_app. simpl. apply get_row_None in E.
  apply (NoDup_Add (a:=row_key r) (l:=map row_key t)); [|done].
  rewrite <- (app_nil_r (map row_key t)) at 1. apply Add_app.
Qed.

Lemma get_row_insert r t t' k : insert_row r t = Some t' ->
  get_row k t' = if bool_decide (row_key r = k) then Some r else get_row k t.
Proof.
  unfold insert_row. destruct (get_row (row_key r) t) eqn:E; [done|]. intros [= <-].
  unfold get_row in *. rewrite find_app. simpl. destruct (bool_decide (row_key r = k)) eqn:Ek.
  - apply bool_decide_eq_true in Ek as <-. by rewrite E.
  - by destruct (List.find (fun r0 => bool_decide (row_key r0 = k)) t).
Qed.

(** ** Update *)

Section update.
Context (p : R -> bool) (f : R -> R) `{!KeepsKey f}.

Lemma update_keys t : map row_key (update_where p f t).1 = map row_key t.
Proof.
  simpl. rewrite map_map. apply map_ext. intros r. destruct (p r); [apply keeps_key|done].
Qed.

Lemma update_keyed t : keyed t -> keyed (update_where p f t).1.
Proof. unfold keyed. by rewrite update_keys. Qed.

Lemma get_row_update k t :
  get_row k (update_where p f t).1 = (fun r => if p r then f r else r) <$> get_row k t.
Proof.
  unfold get_row. simpl. induction t as [|r t IH]; simpl; [done|].
  replace (row_key (if p r then f r else r)) with (row_key r)
    by (destruct (p r); [symmetry; apply keeps_key|done]).
  by destruct (bool_decide (row_key r = k)).
Qed.

(** An update that matches no row is the identity. *)
Lemma update_none t : (update_where p f t).2 = 0%nat -> (update_where p f t).1 = t.
Proof.
  simpl. induction t as [|r t IH]; simpl; [done|]. destruct (p r); [done|]. intros. f_equal. auto.
Qed.

Lemma update_Forall (P : R -> Prop) t :
  (forall r, P r -> p r = true -> P (f r)) -> List.Forall P t -> List.Forall P (update_where p f t).1.
Proof.
  intros Hf Ht. simpl. induction Ht as [|r t Hr Ht IH]; simpl; constructor; [|done].
  destruct (p r) eqn:E; auto.
Qed.

Lemma update_In r t : In r (update_where p f t).1 ->
  exists r0, In r0 t /\ r = if p r0 then f r0 else r0.
Proof. simpl. intros (r0 & <- & Hin)%in_map_iff. eauto. Qed.

Lemma update_pos t : (0 < (update_where p f t).2)%nat <-> exists r, In r t /\ p r = true.
Proof.
  simpl. split.
  - intros H. destruct (List.filter p t) as [|r l] eqn:E; [simpl in H; lia|].
    exists r. apply List.filter_In. rewrite E. by left.
  - intros (r & Hr). apply List.filter_In in Hr. destruct (List.filter p t); simpl in *; [done|lia].
Qed.
End update.

(** Counting the rows of a keyed update on one key. *)
Lemma update_key_changes k p f t : keyed t ->
  (update_where (key_is k p) f t).2 =
    match get_row k t with Some r => if p r then 1%nat else 0%nat | None => 0%nat end.
Proof.
  unfold keyed. simpl. induction t as [|r t IH]; simpl; [done|]. intros [Hr Ht]%NoDup_cons_iff.
  unfold key_is at 1. case_bool_decide as E; simpl; [|by apply IH].
  assert (length (List.filter (key_is k p) t) = 0%nat) as Z0.
  { rewrite IH by done. destruct (get_row k t) as [r'|] eqn:Eg; [|done].
    apply get_row_Some in Eg as [Hin Hk]. exfalso. apply Hr. rewrite E, <- Hk. by apply in_map. }
  destruct (p r); simpl; lia.
Qed.

Lemma key_is_other k p r : row_key r <> k -> key_is k p r = false.
Proof. intros. unfold key_is. by rewrite bool_decide_eq_false_2. Qed.

Lemma key_is_same p r : key_is (row_key r) p r = p r.
Proof. unfold key_is. by rewrite bool_decide_eq_true_2. Qed.

Lemma get_row_update_key k p f `{!KeepsKey f} t :
  get_row k (update_where (key_is k p) f t).1 = (fun r => if p r then f r else r) <$> get_row k t.
Proof.
  rewrite (get_row_update _ _). destruct (get_row k t) as [r|] eqn:E; [|done]. simpl.
  apply get_row_Some in E as [_ <-]. by rewrite key_is_same.
Qed.

Lemma get_row_update_other k k' p f `{!KeepsKey f} t : k <> k' ->
  get_row k' (update_where (key_is k p) f t).1 = get_row k' t.
Proof.
  intros Hne. rewrite (get_row_update _ _). destruct (get_row k' t) as [r|] eqn:E; [|done]. simpl.
  apply get_row_Some in E as [_ <-]. by rewrite key_is_other.
Qed.
End table.

(** ** Delete *)

Lemma find_filter {A} (p q : A -> bool) (l : list A) : List.find p (List.filter q l) = List.find (fun x => p x && q x) l.
Proof.
  induction l as [|x l IH]; [done|]. simpl. destruct (q x); simpl; rewrite ?andb_true_r, ?andb_false_r, IH; done.
Qed.

Lemma get_row_delete {R} `{!Row R} k (p : R -> bool) (t : list R) r : get_row k t = Some r -> keyed t -> p r = false ->
  get_row k (delete_where p t) = Some r.
Proof.
  intros Hg Hk Hp. unfold get_row, delete_where. rewrite find_filter. unfold get_row in Hg.
  assert (forall x, In x t -> (bool_decide (row_key x = k) && negb (p x)) = bool_decide (row_key x = k)) as Heq.
  { intros x Hx. case_bool_decide as E; [|done]. apply (get_row_In t x Hk) in Hx. rewrite E in Hx. unfold get_row in Hx.
    assert (x = r) by congruence. subst x. by rewrite Hp. }
  clear Hk. induction t as [|x t IH]; [done|]. simpl in *. rewrite (Heq x (or_introl eq_refl)).
  destruct (bool_decide (row_key x = k)); [done|]. apply IH; [done|]. intros y Hy. apply Heq. by right.
Qed.

Lemma keyed_delete {R} `{!Row R} (p : R -> bool) (t : list R) : keyed t -> keyed (delete_where p t).
Proof.
  unfold keyed, delete_where. induction t as [|x t IH]; simpl; [done|]. intros [Hx Ht]%NoDup_cons_iff.
  destruct (p x); simpl; [by apply IH|]. constructor; [|by apply IH].
  intros (y & E & [Hy _]%filter_In)%in_map_iff. apply Hx. rewrite <- E. by apply in_map.
Qed.

#[export] Hint Resolve insert_row_keyed update_keyed : table.
#[export] Hint Rewrite @get_row_update_key using (typeclasses eauto) : table.
