(* ===== verification/Roles.v ===== *)
(** * Action categories and authority levels (src/src/roles/authority.ts)

    The thirteen action categories, their impact class, the level each one
    requires, the role predicates built on the levels, and the gate that decides
    whether a spoken answer may resolve an approval. Levels are integers; the
    speech confidence is a JavaScript number, with [NaN] kept apart because the
    source compares it with [<]. *)
From Stdlib Require Export QArith Qround.
From S2P Require Export JsString.

#[global] Open Scope list_scope.
#[global] Open Scope Z_scope.

Inductive ActionCategory :=
  | read_data | write_data | delete_data
  | send_message | send_email
  | execute_command | install_software
  | make_payment | modify_settings
  | spawn_agent | terminate_agent
  | access_browser | control_app.

#[export] Instance ActionCategory_eq_dec : EqDecision ActionCategory.
Proof. solve_decision. Defined.

(** The string literal of a category. *)
Definition category_name (c : ActionCategory) : string :=
  match c with
  | read_data => "read_data" | write_data => "write_data" | delete_data => "delete_data"
  | send_message => "send_message" | send_email => "send_email"
  | execute_command => "execute_command" | install_software => "install_software"
  | make_payment => "make_payment" | modify_settings => "modify_settings"
  | spawn_agent => "spawn_agent" | terminate_agent => "terminate_agent"
  | access_browser => "access_browser" | control_app => "control_app"
  end.

Definition all_categories : list ActionCategory :=
  [read_data; write_data; delete_data; send_message; send_email; execute_command;
   install_software; make_payment; modify_settings; spawn_agent; terminate_agent;
   access_browser; control_app].

Definition category_of_name (s : string) : option ActionCategory :=
  List.find (fun c => bool_decide (category_name c = s)) all_categories.

Inductive Impact := impact_read | impact_write | impact_external | impact_destructive.

#[export] Instance Impact_eq_dec : EqDecision Impact.
Proof. solve_decision. Defined.

Definition IMPACT_MAP (c : ActionCategory) : Impact :=
  match c with
  | read_data => impact_read
  | write_data | send_message | spawn_agent | control_app => impact_write
  | access_browser | send_email => impact_external
  | execute_command | install_software | make_payment | modify_settings
  | delete_data | terminate_agent => impact_destructive
  end.

Definition impactFromCategory (c : ActionCategory) : Impact := IMPACT_MAP c.

(** ** Voice resolution of approvals *)

(** A JavaScript number: a finite value, an infinity or [NaN]. *)
Inductive jsnum := NaN | NInf | Fin (q : Q) | PInf.

(** [a < b]: false as soon as one side is [NaN]. *)
Definition num_lt (a b : jsnum) : bool :=
  match a, b with
  | Fin x, Fin y => negb (Qle_bool y x)
  | NInf, Fin _ | NInf, PInf | Fin _, PInf => true
  | _, _ => false
  end.

Definition VOICE_APPROVAL_CONFIDENCE_FLOOR : jsnum := Fin (85 # 100).

Inductive ClarifyReason := destructive_impact | low_confidence.
Inductive VoiceApprovalGateOutcome :=
  | voice_resolve
  | voice_clarify (reason : ClarifyReason) (message : string).

Definition gateVoiceApprovalResolution (category : ActionCategory) (confidence : jsnum)
  : VoiceApprovalGateOutcome :=
  let impact := IMPACT_MAP category in
  if bool_decide (impact = impact_destructive)
  then voice_clarify destructive_impact
         "This action requires dashboard confirmation. Please click the approval card."
  else if num_lt confidence VOICE_APPROVAL_CONFIDENCE_FLOOR
  then voice_clarify low_confidence
         "Couldn't confirm clearly. Please repeat, or click the approval card."
  else voice_resolve.

(** ** Levels *)

Definition AUTHORITY_REQUIREMENTS (c : ActionCategory) : Z :=
  match c with
  | read_data => 1
  | write_data | send_message => 3
  | execute_command | access_browser | control_app => 5
  | spawn_agent => 1
  | send_email | install_software => 7
  | make_payment | modify_settings | delete_data | terminate_agent => 9
  end.

(** [Object.keys(AUTHORITY_REQUIREMENTS)]: the order of the literal. *)
Definition requirement_keys : list ActionCategory :=
  [read_data; write_data; send_message; execute_command; access_browser; control_app;
   spawn_agent; send_email; install_software; make_payment; modify_settings; delete_data;
   terminate_agent].

(** src/src/roles/types.ts, the advisory prompt fields left out. *)
Record SubRoleTemplate := mkSubRole { sub_role_id : string; sub_role_name : string }.

Record RoleDefinition := mkRole {
  role_id : string;
  role_name : string;
  role_tools : list string;
  authority_level : Z;
  sub_roles : option (list SubRoleTemplate) }.

Definition canPerform (role : RoleDefinition) (action : ActionCategory) : bool :=
  authority_level role >=? AUTHORITY_REQUIREMENTS action.

Definition getRequiredLevel (action : ActionCategory) : Z := AUTHORITY_REQUIREMENTS action.

Definition listAllowedActions (role : RoleDefinition) : list ActionCategory :=
  List.filter (fun a => canPerform role a) requirement_keys.

Definition listDeniedActions (role : RoleDefinition) : list ActionCategory :=
  List.filter (fun a => negb (canPerform role a)) requirement_keys.

Definition describeAuthorityLevel (level : Z) : string :=
  if (level <? 1) || (level >? 10) then "Invalid authority level"
  else if level <=? 2 then "Read-only access. Can read data but cannot modify anything."
  else if level <=? 4 then "Read and write access. Can read/write data and send messages."
  else if level <=? 6 then "Command execution. Can execute commands, control apps, and access browser."
  else if level <=? 8 then "Agent management. Can spawn agents, send emails, and install software."
  else "Full access. Can make payments, modify settings, delete data, and terminate agents.".

Record RolePermissionsSummary := mkSummary {
  sum_level : Z;
  sum_description : string;
  sum_allowed : list ActionCategory;
  sum_denied : list ActionCategory }.

Definition getRolePermissionsSummary (role : RoleDefinition) : RolePermissionsSummary :=
  {| sum_level := authority_level role;
     sum_description := describeAuthorityLevel (authority_level role);
     sum_allowed := listAllowedActions role;
     sum_denied := listDeniedActions role |}.

(** ** Lemmas *)

Lemma requirement_keys_all c : In c requirement_keys.
Proof. destruct c; simpl; tauto. Qed.

Lemma all_categories_all c : In c all_categories.
Proof. destruct c; simpl; tauto. Qed.

Lemma category_name_inj c d : category_name c = category_name d -> c = d.
Proof. by destruct c, d. Qed.

Lemma category_of_name_name c : category_of_name (category_name c) = Some c.
Proof. by destruct c. Qed.

Lemma requirement_bounds c : 1 <= AUTHORITY_REQUIREMENTS c <= 9.
Proof. destruct c; simpl; lia. Qed.

Lemma requirement_keys_NoDup : List.NoDup requirement_keys.
Proof. repeat constructor; simpl; naive_solver. Qed.

#[export] Hint Resolve requirement_keys_all all_categories_all requirement_bounds : jarvis.

(** ** The permission summary *)

(** The permission summary of a role splits the thirteen categories into the
    allowed and the denied ones, without overlap or omission, and raising the
    role's level never removes an allowed action. *)
Lemma role_summary_partition role role' :
  authority_level role <= authority_level role' ->
  (sum_allowed (getRolePermissionsSummary role) ++ sum_denied (getRolePermissionsSummary role))
    ≡ₚ requirement_keys /\
  (forall c, In c (sum_allowed (getRolePermissionsSummary role)) <->
             AUTHORITY_REQUIREMENTS c <= authority_level role) /\
  incl (sum_allowed (getRolePermissionsSummary role)) (sum_allowed (getRolePermissionsSummary role')).
Proof.
  intros Hle. simpl. unfold listAllowedActions, listDeniedActions. split; [|split].
  - generalize requirement_keys as l. induction l as [|c l IH]; simpl; [done|].
    destruct (canPerform role c); simpl; [by rewrite IH|].
    rewrite <- Permutation_middle. by rewrite IH.
  - intros c. rewrite List.filter_In. unfold canPerform. rewrite Z.geb_le.
    pose proof (requirement_keys_all c). tauto.
  - intros c. rewrite !List.filter_In. unfold canPerform. rewrite !Z.geb_le. intros [? ?]. split; [done|lia].
Qed.
