(* ===== verification/Engine.v ===== *)
(** * The authority engine (src/src/authority/engine.ts and its configuration)

    [checkAuthority] and the layers it consults, the override and context-rule
    store, [combineDecisions], the per-orchestrator profiles
    (background-profile.ts, taint-gating.ts), the quick override
    (quick-override.ts) and the emergency switch (emergency.ts). The engine's
    state is its configuration record; each method is a function on it. The
    wall-clock hour that [evaluateContextRules] reads is an argument. *)
From S2P Require Export Roles Json.

(** ** Data *)

Record PerActionOverride := mkOverride {
  ov_action : ActionCategory;
  ov_role_id : option string;
  ov_allowed : bool;
  ov_requires_approval : option bool }.

Inductive RuleCondition := time_range | tool_name | always.
Inductive RuleEffect := effect_allow | effect_deny | effect_require_approval.

(** The parameters at the types the engine casts them to. *)
Record RuleParams := mkParams {
  start_hour : option Z; end_hour : option Z; tool_pattern : option string }.

Record ContextRule := mkRule {
  rule_id : string;
  rule_action : ActionCategory;
  rule_condition : RuleCondition;
  rule_params : RuleParams;
  rule_effect : RuleEffect;
  rule_description : string }.

Inductive EmergencyState := normal | paused | killed.

#[export] Instance EmergencyState_eq_dec : EqDecision EmergencyState.
Proof. solve_decision. Defined.

Record LearningConfig := mkLearning { learning_enabled : bool; suggest_threshold : Z }.

Record AuthorityConfig := mkConfig {
  default_level : Z;
  governed_categories : list ActionCategory;
  overrides : list PerActionOverride;
  context_rules : list ContextRule;
  learning : LearningConfig;
  emergency_state : EmergencyState }.

Record AuthorityDecision := mkDecision {
  allowed : bool;
  requiresApproval : bool;
  reason : string;
  actionCategory : ActionCategory;
  contextRule : option string;
  profileLabel : option string;
  deniedByLevel : bool }.

Record AuthorityProfile := mkProfile {
  label : option string;
  level_cap : option Z;
  profile_governed : option (list ActionCategory) }.

Record AuthorityCheckParams := mkCheck {
  agentId : string;
  agentAuthorityLevel : Z;
  agentRoleId : string;
  toolName : string;
  toolCategory : string;
  checkCategory : ActionCategory;
  temporaryGrants : gmap string (list ActionCategory);
  profile : option AuthorityProfile }.

#[export] Instance PerActionOverride_eq_dec : EqDecision PerActionOverride.
Proof. solve_decision. Defined.

(** A decision with the optional fields left out. *)
Definition plain (al ra : bool) (why : string) (c : ActionCategory) : AuthorityDecision :=
  mkDecision al ra why c None None false.

(** ** Lookup of overrides and context rules *)

Definition findOverride (cfg : AuthorityConfig) (action : ActionCategory) (roleId : string)
  : option PerActionOverride :=
  let roleSpecific := List.find (fun o =>
    bool_decide (ov_action o = action) && bool_decide (ov_role_id o = Some roleId)) (overrides cfg) in
  match roleSpecific with
  | Some o => Some o
  | None => List.find (fun o =>
      bool_decide (ov_action o = action) && negb (truthy_opt (ov_role_id o))) (overrides cfg)
  end.

(** Whether a rule's condition holds; the [switch] of [evaluateContextRules]. *)
Definition rule_applies (hour : Z) (tool : string) (rule : ContextRule) : bool :=
  match rule_condition rule with
  | time_range =>
      let startHour := start_hour (rule_params rule) ?? 0 in
      let endHour := end_hour (rule_params rule) ?? 24 in
      (hour >=? startHour) && (hour <? endHour)
  | tool_name =>
      match tool_pattern (rule_params rule) with
      | Some pat => truthy pat && (bool_decide (tool = pat) || starts_with pat tool)
      | None => false
      end
  | always => true
  end.

Fixpoint evaluateContextRules (rules : list ContextRule) (hour : Z) (action : ActionCategory)
    (tool : string) : option ContextRule :=
  match rules with
  | [] => None
  | rule :: rules' =>
      if negb (bool_decide (rule_action rule = action)) then evaluateContextRules rules' hour action tool
      else if rule_applies hour tool rule then Some rule
      else evaluateContextRules rules' hour action tool
  end.

(** ** The base decision *)

Definition or_global (roleId : string) : string := if truthy roleId then roleId else "global".

Definition decide_override (o : PerActionOverride) (roleId : string) (c : ActionCategory)
  : AuthorityDecision :=
  if negb (ov_allowed o)
  then plain false false ("Explicitly denied by override for " +:+ or_global roleId) c
  else if ov_requires_approval o ?? false
  then plain true true ("Override requires approval for " +:+ category_name c) c
  else plain true false ("Explicitly allowed by override for " +:+ or_global roleId) c.

Definition decide_rule (r : ContextRule) (c : ActionCategory) : AuthorityDecision :=
  match rule_effect r with
  | effect_deny => mkDecision false false (rule_description r) c (Some (rule_id r)) None false
  | effect_require_approval => mkDecision true true (rule_description r) c (Some (rule_id r)) None false
  | effect_allow => mkDecision true false (rule_description r) c (Some (rule_id r)) None false
  end.

Definition decide_level (cfg : AuthorityConfig) (level : Z) (c : ActionCategory) : AuthorityDecision :=
  let effectiveLevel := Z.max level (default_level cfg) in
  let requiredLevel := AUTHORITY_REQUIREMENTS c in
  if effectiveLevel <? requiredLevel
  then mkDecision false false
         ("Authority level " +:+ show_z effectiveLevel +:+ " is below required " +:+
          show_z requiredLevel +:+ " for " +:+ category_name c) c None None true
  else if includes c (governed_categories cfg)
  then plain true true (category_name c +:+ " is a governed action requiring user approval") c
  else plain true false
         ("Authority level " +:+ show_z effectiveLevel +:+ " meets requirement " +:+ show_z requiredLevel) c.

Definition baseDecision (cfg : AuthorityConfig) (hour : Z) (p : AuthorityCheckParams) : AuthorityDecision :=
  let c := checkCategory p in
  if match temporaryGrants p !! agentId p with
     | Some grants => includes c grants
     | None => false
     end
  then plain true false "Temporarily granted by parent agent" c
  else
  match findOverride cfg c (agentRoleId p) with
  | Some o => decide_override o (agentRoleId p) c
  | None =>
      match evaluateContextRules (context_rules cfg) hour c (toolName p) with
      | Some r => decide_rule r c
      | None => decide_level cfg (agentAuthorityLevel p) c
      end
  end.

(** ** Profiles *)

Definition applyProfile (base : AuthorityDecision) (prof : AuthorityProfile) : AuthorityDecision :=
  if negb (allowed base) then base else
  let lbl := label prof ?? "agent profile" in
  let c := actionCategory base in
  let governed :=
    if negb (requiresApproval base) && match profile_governed prof with Some g => includes c g | None => false end
    then mkDecision true true (lbl +:+ ": " +:+ category_name c +:+ " requires user approval") c
           (contextRule base) (Some lbl) false
    else base in
  match level_cap prof with
  | Some cap =>
      let requiredLevel := AUTHORITY_REQUIREMENTS c in
      if cap <? requiredLevel
      then mkDecision false false
             (lbl +:+ ": level cap " +:+ show_z cap +:+ " is below required " +:+ show_z requiredLevel +:+
              " for " +:+ category_name c) c None (Some lbl) false
      else governed
  | None => governed
  end.

Definition applyProfileOpt (base : AuthorityDecision) (prof : option AuthorityProfile) : AuthorityDecision :=
  match prof with Some pr => applyProfile base pr | None => base end.

Definition checkAuthority (cfg : AuthorityConfig) (hour : Z) (p : AuthorityCheckParams) : AuthorityDecision :=
  applyProfileOpt (baseDecision cfg hour p) (profile p).

(** ** Folding the decisions of one call *)

Definition rank (d : AuthorityDecision) : Z := AUTHORITY_REQUIREMENTS (actionCategory d).

(** [combineDecisions]; [None] is the error it throws on an empty list. *)
Definition combineDecisions (decisions : list AuthorityDecision) : option AuthorityDecision :=
  match decisions with
  | [] => None
  | d0 :: ds =>
      match List.filter (fun d => negb (allowed d)) decisions with
      | dn :: dns =>
          match List.find (fun d => negb (deniedByLevel d)) (dn :: dns) with
          | Some hard => Some hard
          | None => Some (reduce_max rank dn dns)
          end
      | [] =>
          match List.filter requiresApproval decisions with
          | a :: aps => Some (reduce_max rank a aps)
          | [] => Some (reduce_max rank d0 ds)
          end
      end
  end.

(** ** Human-readable rules *)

Definition override_line (o : PerActionOverride) : string :=
  let scope := match ov_role_id o with
               | Some r => if truthy r then "[" +:+ r +:+ "]" else "[global]"
               | None => "[global]"
               end in
  let status := if ov_allowed o
                then (if ov_requires_approval o ?? false then "allowed with approval" else "always allowed")
                else "denied" in
  "  - " +:+ category_name (ov_action o) +:+ ": " +:+ status +:+ " " +:+ scope.

Definition describeRulesForAgent (cfg : AuthorityConfig) (level : Z) (roleId : string)
    (prof : option AuthorityProfile) : string :=
  let effective0 := Z.max level (default_level cfg) in
  let effectiveLevel := match prof ≫= level_cap with Some cap => Z.min effective0 cap | None => effective0 end in
  let governed := dedup (governed_categories cfg ++ ((prof ≫= profile_governed) ?? [])) in
  let roleOverrides := List.filter (fun o =>
    negb (truthy_opt (ov_role_id o)) || bool_decide (ov_role_id o = Some roleId)) (overrides cfg) in
  join newline
    (["Your authority level: " +:+ show_z effectiveLevel +:+ "/10"; ""] ++
     (if bool_decide (governed = []) then []
      else ["Actions requiring user approval before execution:"] ++
           map (fun c => "  - " +:+ category_name c) governed ++ [""]) ++
     (if bool_decide (roleOverrides = []) then []
      else ["Special permission overrides:"] ++ map override_line roleOverrides ++ [""]) ++
     (match context_rules cfg with
      | [] => []
      | rules => ["Context-based rules:"] ++ map (fun r => "  - " +:+ rule_description r) rules
      end)).

(** ** Configuration updates *)

Definition set_overrides (cfg : AuthorityConfig) (os : list PerActionOverride) : AuthorityConfig :=
  mkConfig (default_level cfg) (governed_categories cfg) os (context_rules cfg) (learning cfg) (emergency_state cfg).

Definition set_rules (cfg : AuthorityConfig) (rs : list ContextRule) : AuthorityConfig :=
  mkConfig (default_level cfg) (governed_categories cfg) (overrides cfg) rs (learning cfg) (emergency_state cfg).

Definition same_slot (action : ActionCategory) (roleId : option string) (o : PerActionOverride) : bool :=
  bool_decide (ov_action o = action) && bool_decide (ov_role_id o = roleId).

Definition removeOverride (cfg : AuthorityConfig) (action : ActionCategory) (roleId : option string)
  : AuthorityConfig :=
  set_overrides cfg (List.filter (fun o => negb (same_slot action roleId o)) (overrides cfg)).

Definition addOverride (cfg : AuthorityConfig) (o : PerActionOverride) : AuthorityConfig :=
  let cfg' := removeOverride cfg (ov_action o) (ov_role_id o) in
  set_overrides cfg' (overrides cfg' ++ [o]).

Definition addContextRule (cfg : AuthorityConfig) (r : ContextRule) : AuthorityConfig :=
  set_rules cfg (context_rules cfg ++ [r]).

Definition removeContextRule (cfg : AuthorityConfig) (id : string) : AuthorityConfig :=
  set_rules cfg (List.filter (fun r => negb (bool_decide (rule_id r = id))) (context_rules cfg)).

Definition setGovernedCategories (cfg : AuthorityConfig) (cs : list ActionCategory) : AuthorityConfig :=
  mkConfig (default_level cfg) cs (overrides cfg) (context_rules cfg) (learning cfg) (emergency_state cfg).

(** ** quick-override.ts *)

Record QuickOverrideRequest := mkQuick { q_action : ActionCategory; q_allow : bool; q_role_id : option string }.

Definition quick_row (body : QuickOverrideRequest) : PerActionOverride :=
  mkOverride (q_action body)
    (match q_role_id body with Some r => if truthy r then Some r else None | None => None end)
    (q_allow body) (Some false).

(** Overwrite the first element satisfying [p]; [None] when there is none. *)
Fixpoint replace_first {A} (p : A -> bool) (x : A) (l : list A) : option (list A) :=
  match l with
  | [] => None
  | y :: l' => if p y then Some (x :: l') else option_map (cons y) (replace_first p x l')
  end.

Definition applyQuickOverride (cfg : AuthorityConfig) (body : QuickOverrideRequest) : AuthorityConfig :=
  let next := quick_row body in
  match replace_first (same_slot (q_action body) (q_role_id body)) next (overrides cfg) with
  | Some os => set_overrides cfg os
  | None => set_overrides cfg (overrides cfg ++ [next])
  end.

(** ** background-profile.ts and taint-gating.ts *)

Definition BACKGROUND_PROFILE_LABEL : string := "background agent".
Definition TAINT_PROFILE_LABEL : string := "outside content read this turn".

Definition DEFAULT_BACKGROUND_GOVERNED : list ActionCategory :=
  [execute_command; write_data; control_app; delete_data; install_software; modify_settings;
   send_email; send_message; make_payment].

Definition DEFAULT_TAINT_GOVERNED : list ActionCategory :=
  [execute_command; write_data; control_app; delete_data; install_software; modify_settings;
   send_email; send_message; make_payment; spawn_agent].

(** [typeof cat === 'string' && KNOWN_CATEGORIES.has(cat)] *)
Definition known_category (v : json) : option ActionCategory :=
  match v with JStr s => category_of_name s | _ => None end.

(** The list parsing both builders share: absent, null or not a list gives the
    defaults, and so does a non-empty list without a known entry. *)
Definition parse_governed (defaults : list ActionCategory) (raw : option json) : list ActionCategory :=
  match raw with
  | None | Some JNull => defaults
  | Some (JArr l) =>
      let governed := omap known_category l in
      if negb (bool_decide (l = [])) && bool_decide (governed = []) then defaults else governed
  | Some _ => defaults
  end.

Record BackgroundAuthorityConfig := mkBackground { bg_governed : option json; bg_level_cap : option jsnum }.

(** [Math.max(1, Math.min(10, Math.floor(cap)))] for a finite number. *)
Definition clamp_cap (cap : option jsnum) : option Z :=
  match cap with
  | Some (Fin q) => Some (Z.max 1 (Z.min 10 (Qfloor q)))
  | _ => None
  end.

Definition buildBackgroundProfile (section : option BackgroundAuthorityConfig) : AuthorityProfile :=
  mkProfile (Some BACKGROUND_PROFILE_LABEL)
    (clamp_cap (section ≫= bg_level_cap))
    (Some (parse_governed DEFAULT_BACKGROUND_GOVERNED (section ≫= bg_governed))).

Record TaintGatingConfig := mkTaintConfig { tg_enabled : option json; tg_governed : option json }.
Record TaintGating := mkTaintGating { gating_enabled : bool; gating_governed : list ActionCategory }.

Definition buildTaintGating (section : option TaintGatingConfig) : TaintGating :=
  mkTaintGating
    (match section ≫= tg_enabled with Some (JBool false) => false | _ => true end)
    (parse_governed DEFAULT_TAINT_GOVERNED (section ≫= tg_governed)).

Definition taintProfile (gating : option TaintGating) (sources : list string) : option AuthorityProfile :=
  match gating with
  | None => None
  | Some g =>
      if negb (gating_enabled g) || bool_decide (sources = []) || bool_decide (gating_governed g = [])
      then None
      else Some (mkProfile (Some (TAINT_PROFILE_LABEL +:+ " (" +:+ join ", " sources +:+ ")")) None
                  (Some (gating_governed g)))
  end.

Definition min_cap (a b : option Z) : option Z :=
  match a, b with
  | Some x, Some y => Some (Z.min x y)
  | Some x, None => Some x
  | None, Some y => Some y
  | None, None => None
  end.

Definition mergeProfiles (a b : option AuthorityProfile) : option AuthorityProfile :=
  match a, b with
  | None, _ => b
  | _, None => a
  | Some pa, Some pb =>
      Some (mkProfile
        (Some (join "; " (List.filter truthy (omap id [label pa; label pb]))))
        (min_cap (level_cap pa) (level_cap pb))
        (Some (dedup ((profile_governed pa ?? []) ++ (profile_governed pb ?? [])))))
  end.

(** ** emergency.ts *)

(** The controller's state; the second component is the state passed to
    [onStateChange], when the call notifies. *)
Definition pause (s : EmergencyState) : EmergencyState * option EmergencyState :=
  match s with killed => (killed, None) | _ => (paused, Some paused) end.
Definition resume (s : EmergencyState) : EmergencyState * option EmergencyState :=
  match s with paused => (normal, Some normal) | _ => (s, None) end.
Definition kill (s : EmergencyState) : EmergencyState * option EmergencyState := (killed, Some killed).
Definition reset (s : EmergencyState) : EmergencyState * option EmergencyState :=
  match s with killed => (normal, Some normal) | _ => (s, None) end.
Definition canExecute (s : EmergencyState) : bool := bool_decide (s = normal).

Definition state_name (s : EmergencyState) : string :=
  match s with normal => "normal" | paused => "paused" | killed => "killed" end.

(** The operations of the dashboard on the switch. *)
Inductive emergency_op := op_pause | op_resume | op_kill | op_reset.

Definition emergency_step (s : EmergencyState) (o : emergency_op) : EmergencyState * option EmergencyState :=
  match o with
  | op_pause => pause s | op_resume => resume s | op_kill => kill s | op_reset => reset s
  end.

Definition emergency_run (s : EmergencyState) (os : list emergency_op) : EmergencyState :=
  foldl (fun s o => (emergency_step s o).1) s os.

(** ** Specification vocabulary *)

(** What the callers branch on. *)
Definition status (d : AuthorityDecision) : bool * bool := (allowed d, requiresApproval d).

Definition has_grant (p : AuthorityCheckParams) : bool :=
  match temporaryGrants p !! agentId p with Some g => includes (checkCategory p) g | None => false end.

(** No override is stored with an empty role, which the lookup would read as global. *)
Definition no_empty_roles (cfg : AuthorityConfig) : Prop :=
  List.Forall (fun o => ov_role_id o <> Some "") (overrides cfg).

(** ** Lemmas *)

Lemma applyProfile_status base pr :
  status (applyProfile base pr) =
    (if negb (allowed base) then status base
     else if match level_cap pr with
             | Some cap => cap <? AUTHORITY_REQUIREMENTS (actionCategory base) | None => false end
     then (false, false)
     else (true, requiresApproval base ||
             match profile_governed pr with Some g => includes (actionCategory base) g | None => false end)).
Proof.
  unfold applyProfile, status. destruct (allowed base) eqn:Ea; simpl; [|by rewrite Ea].
  destruct (level_cap pr) as [cap|]; [destruct (cap <? _); [done|]|];
    destruct (requiresApproval base) eqn:Er; simpl; rewrite ?Ea, ?Er; try done;
    destruct (profile_governed pr) as [g|]; simpl; rewrite ?Ea, ?Er; try done;
    destruct (includes _ g); simpl; rewrite ?Ea, ?Er; done.
Qed.

Lemma applyProfile_category base pr : actionCategory (applyProfile base pr) = actionCategory base.
Proof. unfold applyProfile. case_all. Qed.

Lemma applyProfile_denied base pr : allowed base = false -> applyProfile base pr = base.
Proof. unfold applyProfile. by intros ->. Qed.

Lemma min_cap_below a b r :
  match min_cap a b with Some c => c <? r | None => false end =
  match a with Some c => c <? r | None => false end || match b with Some c => c <? r | None => false end.
Proof.
  destruct a as [x|], b as [y|]; simpl; rewrite ?orb_false_r; try done.
  destruct (x <? r) eqn:?, (y <? r) eqn:?, (Z.min x y <? r) eqn:?; to_prop; simpl; try done; lia.
Qed.

Lemma mergeProfiles_status base a b :
  status (applyProfileOpt base (mergeProfiles a b)) =
  status (applyProfileOpt (applyProfileOpt base a) b).
Proof.
  destruct a as [a|], b as [b|]; try done. cbn [mergeProfiles applyProfileOpt].
  pose proof (applyProfile_status base a) as Ha.
  pose proof (f_equal fst Ha) as Ha1. pose proof (f_equal snd Ha) as Ha2. cbn [status fst snd] in Ha1, Ha2.
  rewrite (applyProfile_status (applyProfile base a)), applyProfile_category, Ha1, Ha2, Ha.
  rewrite applyProfile_status. cbn [level_cap profile_governed]. rewrite min_cap_below.
  rewrite includes_dedup, includes_app. unfold status.
  clear Ha Ha1 Ha2. destruct (allowed base) eqn:Ea; simpl; [|by rewrite ?Ea].
  destruct (match level_cap a with Some c => c <? _ | None => false end); simpl; [done|].
  destruct (match level_cap b with Some c => c <? _ | None => false end); simpl; [done|].
  f_equal. destruct (profile_governed a), (profile_governed b); simpl; rewrite ?orb_assoc, ?orb_false_r; done.
Qed.

Lemma decide_override_level o r c : deniedByLevel (decide_override o r c) = false.
Proof. unfold decide_override, plain. case_all. Qed.

Lemma decide_rule_level r c : deniedByLevel (decide_rule r c) = false.
Proof. unfold decide_rule. case_all. Qed.

Lemma decide_level_denied cfg l c :
  deniedByLevel (decide_level cfg l c) = true <-> Z.max l (default_level cfg) < AUTHORITY_REQUIREMENTS c.
Proof. unfold decide_level, plain. case_all; to_prop; split; try done; lia. Qed.

Lemma baseDecision_category cfg hour p : actionCategory (baseDecision cfg hour p) = checkCategory p.
Proof. unfold baseDecision, decide_override, decide_rule, decide_level, plain. case_all. Qed.

Lemma checkAuthority_category cfg hour p : actionCategory (checkAuthority cfg hour p) = checkCategory p.
Proof.
  unfold checkAuthority. destruct (profile p); simpl; rewrite ?applyProfile_category;
    apply baseDecision_category.
Qed.

Lemma deniedByLevel_denied cfg hour p :
  deniedByLevel (baseDecision cfg hour p) = true -> allowed (baseDecision cfg hour p) = false.
Proof.
  unfold baseDecision. destruct (match temporaryGrants p !! agentId p with Some _ => _ | None => _ end); [done|].
  destruct (findOverride _ _ _); [by rewrite decide_override_level|].
  destruct (evaluateContextRules _ _ _ _); [by rewrite decide_rule_level|].
  unfold decide_level, plain. case_all.
Qed.

Lemma applyProfile_level base pr :
  deniedByLevel (applyProfile base pr) = true -> deniedByLevel base = true.
Proof. unfold applyProfile. case_all. Qed.

(** A denied decision carries the flag into and out of the profile. *)
Lemma checkAuthority_level cfg hour p :
  deniedByLevel (checkAuthority cfg hour p) = deniedByLevel (baseDecision cfg hour p).
Proof.
  unfold checkAuthority. destruct (profile p) as [pr|]; [|done]. simpl.
  destruct (deniedByLevel (baseDecision cfg hour p)) eqn:E.
  - by rewrite applyProfile_denied by (by apply deniedByLevel_denied).
  - destruct (deniedByLevel (applyProfile _ _)) eqn:E'; [|done].
    apply applyProfile_level in E'. congruence.
Qed.

Lemma replace_first_Some {A} (p : A -> bool) x l l' :
  replace_first p x l = Some l' -> p x = true ->
  List.find p l' = Some x /\ replace_first p x l' = Some l'.
Proof.
  revert l'. induction l as [|y l IH]; intros l'; simpl; [done|].
  destruct (p y) eqn:E; [intros [= <-] Hx; simpl; by rewrite Hx|].
  destruct (replace_first p x l) as [m|] eqn:Em; simpl; [|done]. intros [= <-] Hx.
  destruct (IH m eq_refl Hx) as [? H2]. simpl. rewrite E, H2. done.
Qed.

Lemma replace_first_None {A} (p : A -> bool) x l : replace_first p x l = None -> List.find p l = None.
Proof.
  induction l as [|y l IH]; simpl; [done|]. destruct (p y); [done|].
  destruct (replace_first p x l); simpl; [done|auto].
Qed.

Lemma replace_first_snoc {A} (p : A -> bool) x l :
  replace_first p x l = None -> p x = true -> replace_first p x (l ++ [x]) = Some (l ++ [x]).
Proof.
  intros Hn Hx. induction l as [|y l IH]; simpl in *; [by rewrite Hx|]. destruct (p y); [done|].
  destruct (replace_first p x l); simpl in *; [done|]. by rewrite IH.
Qed.

(** A replacement is invisible to a search its row and the old row both fail. *)
Lemma replace_first_other {A} (p q : A -> bool) x l l' :
  replace_first p x l = Some l' -> q x = false -> (forall y, p y = true -> q y = false) ->
  List.find q l' = List.find q l.
Proof.
  intros Hr Hx Hq. revert l' Hr. induction l as [|y l IH]; intros l'; simpl; [done|].
  destruct (p y) eqn:E; [intros [= <-]; simpl; by rewrite Hx, (Hq y)|].
  destruct (replace_first p x l) as [m|]; simpl; [|done]. intros [= <-]. simpl. by rewrite (IH m).
Qed.

Lemma find_ext_in {A} (p q : A -> bool) l :
  (forall x, In x l -> p x = q x) -> List.find p l = List.find q l.
Proof.
  induction l as [|x l IH]; intros H; simpl; [done|].
  rewrite (H x) by (by left). destruct (q x); [done|]. apply IH. intros y Hy. apply H. by right.
Qed.

Section combine.
Implicit Types (d x : AuthorityDecision) (ds : list AuthorityDecision).

(** Where the folded decision comes from. *)
Lemma combine_source ds d : combineDecisions ds = Some d ->
  In d ds /\
  (allowed d = false /\ (deniedByLevel d = true ->
      forall x, In x ds -> allowed x = false -> deniedByLevel x = true /\ rank x <= rank d)
   \/ (forall x, In x ds -> allowed x = true) /\ requiresApproval d = true /\
      (forall x, In x ds -> requiresApproval x = true -> rank x <= rank d)
   \/ (forall x, In x ds -> allowed x = true /\ requiresApproval x = false)).
Proof.
  unfold combineDecisions. destruct ds as [|d0 ds]; [done|]. set (l := d0 :: ds).
  destruct (List.filter (fun d => negb (allowed d)) l) as [|dn dns] eqn:Ed.
  - assert (forall x, In x l -> allowed x = true) as Hall.
    { intros x Hx. by apply negb_false_iff, (proj1 (filter_nil_iff _ l) Ed). }
    destruct (List.filter requiresApproval l) as [|a aps] eqn:Ea; intros [= <-].
    + split; [apply reduce_max_In|]. right. right. intros x Hx. split; [auto|].
      by apply (proj1 (filter_nil_iff _ l) Ea).
    + pose proof (reduce_max_In rank a aps) as Hin. rewrite <- Ea in Hin.
      apply List.filter_In in Hin as [Hin Hreq].
      split; [done|]. right. left. split_and!; [done|done|].
      intros x Hx Hr. apply reduce_max_ge. rewrite <- Ea. by apply List.filter_In.
  - destruct (List.find (fun d => negb (deniedByLevel d)) (dn :: dns)) as [h|] eqn:Eh; intros [= <-].
    + apply List.find_some in Eh as [Hin Hlev]. rewrite <- Ed in Hin.
      apply List.filter_In in Hin as [Hin Hal]. split; [done|]. left.
      to_prop. split; [done|]. congruence.
    + pose proof (reduce_max_In rank dn dns) as Hin. rewrite <- Ed in Hin.
      apply List.filter_In in Hin as [Hin Hal]. split; [done|]. left. to_prop. split; [done|].
      intros _ x Hx Hxal.
      assert (In x (dn :: dns)) as Hxd by (rewrite <- Ed; apply List.filter_In; by rewrite Hxal).
      split; [|by apply reduce_max_ge].
      pose proof (List.find_none _ _ Eh x Hxd) as Hn. by apply negb_false_iff in Hn.
Qed.

Lemma combine_allowed ds d : combineDecisions ds = Some d ->
  allowed d = true <-> forall x, In x ds -> allowed x = true.
Proof.
  intros H. pose proof (combine_source ds d H) as [Hin Hc]. split; [|auto].
  intros Hd x Hx. destruct Hc as [[? _]|[[? _]|Hc]]; [congruence|auto|by apply Hc].
Qed.

Lemma combine_approval ds d : combineDecisions ds = Some d -> allowed d = true ->
  requiresApproval d = true <-> exists x, In x ds /\ requiresApproval x = true.
Proof.
  intros H Hal. pose proof (combine_source ds d H) as [Hin Hc]. split; [eauto|].
  intros (x & Hx & Hr). destruct Hc as [[? _]|[(_ & ? & _)|Hc]]; [congruence|done|].
  destruct (Hc x Hx). congruence.
Qed.

Lemma combine_total ds : ds <> [] -> exists d, combineDecisions ds = Some d.
Proof. unfold combineDecisions. destruct ds; [done|]. intros _. case_all; eauto. Qed.
End combine.

(** The operations of the override store seen by the lookup. *)

Lemma no_empty_roles_quick cfg body :
  no_empty_roles cfg -> no_empty_roles (applyQuickOverride cfg body).
Proof.
  unfold no_empty_roles, applyQuickOverride. intros H.
  assert (ov_role_id (quick_row body) <> Some "") as Hq.
  { unfold quick_row. simpl. by destruct (q_role_id body) as [[]|]. }
  destruct (replace_first _ _ _) as [os|] eqn:E; simpl.
  - revert os E. induction H as [|o l Ho Hl IH]; intros os; simpl; [done|].
    destruct (same_slot _ _ o); [intros [= <-]; by constructor|].
    destruct (replace_first _ _ l) as [m|]; simpl; [|done]. intros [= <-]. constructor; auto.
  - apply List.Forall_app. split; [done|]. by constructor.
Qed.

Lemma quick_row_slot body : q_role_id body <> Some "" ->
  same_slot (q_action body) (q_role_id body) (quick_row body) = true.
Proof.
  intros Hr. unfold same_slot, quick_row. simpl. rewrite bool_decide_eq_true_2 by done. simpl.
  apply bool_decide_eq_true_2. destruct (q_role_id body) as [[]|]; simpl; congruence.
Qed.

(** After a quick override, the slot it names holds its row and no other slot changed. *)
Lemma quick_override_find cfg body : q_role_id body <> Some "" ->
  List.find (same_slot (q_action body) (q_role_id body)) (overrides (applyQuickOverride cfg body))
    = Some (quick_row body) /\
  (forall q, q (quick_row body) = false ->
     (forall y, same_slot (q_action body) (q_role_id body) y = true -> q y = false) ->
     List.find q (overrides (applyQuickOverride cfg body)) = List.find q (overrides cfg)).
Proof.
  intros Hr. pose proof (quick_row_slot body Hr) as Hrow. unfold applyQuickOverride.
  destruct (replace_first _ _ _) as [os|] eqn:E; simpl.
  - split; [by apply (replace_first_Some _ _ _ _ E)|]. intros q Hq Hy. by eapply replace_first_other.
  - split.
    + assert (forall l, replace_first (same_slot (q_action body) (q_role_id body)) (quick_row body) l = None ->
        List.find (same_slot (q_action body) (q_role_id body)) (l ++ [quick_row body]) = Some (quick_row body)) as H.
      { induction l as [|o l IH]; simpl; [by rewrite Hrow|]. destruct (same_slot _ _ o); [done|].
        destruct (replace_first _ _ l); simpl; [done|]. auto. }
      by apply H.
    + intros q Hq _. induction (overrides cfg) as [|o l IH]; simpl in *; [by rewrite Hq|].
      destruct (q o); [done|]. destruct (same_slot _ _ o); [done|].
      destruct (replace_first _ _ l); simpl in *; [done|]. auto.
Qed.

(** The global search of [findOverride], on a store without empty roles, is the slot of no role. *)
Lemma global_search cfg a : no_empty_roles cfg ->
  List.find (fun o => bool_decide (ov_action o = a) && negb (truthy_opt (ov_role_id o))) (overrides cfg) =
  List.find (same_slot a None) (overrides cfg).
Proof.
  unfold no_empty_roles. rewrite List.Forall_forall. intros H. apply find_ext_in. intros o Ho.
  specialize (H o Ho). unfold same_slot. f_equal.
  destruct (ov_role_id o) as [[|c s]|]; simpl; try done;
    first [by rewrite bool_decide_eq_false_2|by rewrite bool_decide_eq_true_2].
Qed.

Lemma findOverride_slots cfg a r : no_empty_roles cfg ->
  findOverride cfg a r =
    match List.find (same_slot a (Some r)) (overrides cfg) with
    | Some o => Some o
    | None => List.find (same_slot a None) (overrides cfg)
    end.
Proof. intros H. unfold findOverride. rewrite global_search by done. done. Qed.

Lemma baseDecision_override cfg hour p o :
  has_grant p = false -> findOverride cfg (checkCategory p) (agentRoleId p) = Some o ->
  baseDecision cfg hour p = decide_override o (agentRoleId p) (checkCategory p).
Proof. unfold baseDecision, has_grant. intros -> ->. done. Qed.

Lemma parse_governed_nil defaults raw : defaults <> [] ->
  parse_governed defaults raw = [] <-> raw = Some (JArr []).
Proof.
  intros Hd. split; [|by intros ->]. destruct raw as [[]|]; simpl; try done.
  destruct (bool_decide (items = [])) eqn:E; simpl.
  - apply bool_decide_eq_true in E as ->. done.
  - destruct (bool_decide (omap known_category items = [])) eqn:E'; [done|].
    apply bool_decide_eq_false in E'. done.
Qed.

Lemma clamp_cap_bounds cap c : clamp_cap cap = Some c -> 1 <= c <= 10.
Proof. unfold clamp_cap. destruct cap as [[]|]; try done. intros [= <-]. lia. Qed.

Lemma killed_stays os : ~ In op_reset os -> emergency_run killed os = killed.
Proof.
  induction os as [|o os IH]; intros Hn; [done|]. simpl in Hn. unfold emergency_run. simpl.
  destruct o; simpl; try (apply IH; tauto). tauto.
Qed.

(** ** Properties *)

(** A per-orchestrator profile only ever tightens a decision. Whatever the
    configuration, the grants and the rules say, the decision taken with a
    profile is allowed only if the one without it is, and asks for approval
    whenever the one without it does; and merging two profiles is the same as
    applying one after the other, so chained call sites cannot loosen a gate. *)
Theorem profiles_only_tighten cfg hour p a b :
  let without := baseDecision cfg hour p in
  let d := applyProfileOpt without a in
  (allowed d = true -> allowed without = true) /\
  (allowed d = true -> requiresApproval without = true -> requiresApproval d = true) /\
  actionCategory d = actionCategory without /\
  status (applyProfileOpt without (mergeProfiles a b)) = status (applyProfileOpt d b).
Proof.
  cbn zeta. split_and!; [| | |apply mergeProfiles_status]; destruct a as [a|]; simpl;
    try done; try (by rewrite applyProfile_category);
    pose proof (applyProfile_status (baseDecision cfg hour p) a) as H;
    pose proof (f_equal fst H) as H1; pose proof (f_equal snd H) as H2; simpl in H1, H2.
  - intros Hd. rewrite Hd in H1. destruct (allowed (baseDecision cfg hour p)) eqn:E; [done|].
    simpl in H1. congruence.
  - intros Hd Hr. rewrite Hd in H1. rewrite H2. destruct (allowed (baseDecision cfg hour p)) eqn:E.
    + simpl in *. destruct (match level_cap a with Some c => c <? _ | None => false end); [done|].
      simpl. by rewrite Hr.
    + simpl in H1. congruence.
Qed.

(** The layering of the authority check. A decision carries the mark
    "denied by level" (the one denial a sub-agent hand-off may lift) exactly
    when no parent grant covers the category, no override and no context rule
    matches it, and the larger of the agent's level and the default level is
    below the requirement; and a grant wins over everything but the profile. *)
Theorem level_denial_exact cfg hour p :
  (deniedByLevel (checkAuthority cfg hour p) = true <->
     has_grant p = false /\
     findOverride cfg (checkCategory p) (agentRoleId p) = None /\
     evaluateContextRules (context_rules cfg) hour (checkCategory p) (toolName p) = None /\
     Z.max (agentAuthorityLevel p) (default_level cfg) < AUTHORITY_REQUIREMENTS (checkCategory p)) /\
  (deniedByLevel (checkAuthority cfg hour p) = true -> allowed (checkAuthority cfg hour p) = false) /\
  (has_grant p = true -> profile p = None -> status (checkAuthority cfg hour p) = (true, false)).
Proof.
  rewrite checkAuthority_level. split_and!.
  - unfold baseDecision, has_grant.
    destruct (match temporaryGrants p !! agentId p with Some g => _ | None => false end); [naive_solver|].
    destruct (findOverride _ _ _); [rewrite decide_override_level; naive_solver|].
    destruct (evaluateContextRules _ _ _ _); [rewrite decide_rule_level; naive_solver|].
    rewrite decide_level_denied. naive_solver.
  - intros H. pose proof (deniedByLevel_denied _ _ _ H) as Hd. unfold checkAuthority.
    destruct (profile p); simpl; [by rewrite applyProfile_denied|done].
  - unfold checkAuthority, baseDecision, has_grant. intros -> ->. done.
Qed.

(** The dashboard's quick override takes effect. After it, every agent of
    the named role (every agent without a row of its own, when the override is
    global) gets, before any profile, the decision the user clicked for that category at every
    level, hour and rule set, applying it again changes nothing, and what any
    role resolves to in another category is untouched. *)
Theorem quick_override_effective cfg body hour p :
  no_empty_roles cfg -> q_role_id body <> Some "" ->
  let cfg' := applyQuickOverride cfg body in
  (checkCategory p = q_action body -> has_grant p = false ->
     (q_role_id body = Some (agentRoleId p) \/
      q_role_id body = None /\
      List.find (same_slot (q_action body) (Some (agentRoleId p))) (overrides cfg) = None) ->
     status (baseDecision cfg' hour p) = (q_allow body, false)) /\
  applyQuickOverride cfg' body = cfg' /\
  (forall c r, c <> q_action body -> findOverride cfg' c r = findOverride cfg c r) /\
  no_empty_roles cfg'.
Proof.
  intros Hne Hr. cbn zeta. pose proof (no_empty_roles_quick cfg body Hne) as Hne'.
  destruct (quick_override_find cfg body Hr) as [Hslot Hother]. split_and!; [| | |done].
  - intros Hc Hg Hrole. rewrite (baseDecision_override _ _ _ (quick_row body)).
    + unfold decide_override, quick_row, plain, status. simpl. by destruct (q_allow body).
    + done.
    + rewrite findOverride_slots, Hc by done. destruct Hrole as [E|[E Hn]].
      * rewrite <- E. by rewrite Hslot.
      * rewrite Hother, Hn; [by rewrite <- E| |].
        { unfold same_slot, quick_row. simpl. rewrite E. by rewrite andb_false_r. }
        { intros y. unfold same_slot. rewrite E. intros [_ ->%bool_decide_eq_true]%andb_true_iff.
          by rewrite andb_false_r. }
  - unfold applyQuickOverride at 2. pose proof (quick_row_slot body Hr) as Hrow.
    destruct (replace_first _ _ (overrides cfg)) as [os|] eqn:E; unfold applyQuickOverride; simpl.
    + destruct (replace_first_Some _ _ _ _ E Hrow) as [_ ->]. unfold applyQuickOverride. by rewrite E.
    + rewrite replace_first_snoc by done. unfold applyQuickOverride. by rewrite E.
  - intros c r Hc. rewrite !findOverride_slots by done.
    rewrite !Hother; [done| | | |]; unfold same_slot, quick_row; simpl;
      try (by rewrite bool_decide_eq_false_2); intros y; rewrite andb_true_iff;
      intros [->%bool_decide_eq_true _]; by rewrite bool_decide_eq_false_2.
Qed.

Definition sample_config : AuthorityConfig :=
  mkConfig 3 [send_email] [mkOverride send_email (Some "sales") false None] [] (mkLearning true 3) normal.

Definition sample_check : AuthorityCheckParams :=
  mkCheck "a1" 2 "sales" "gmail_send" "email" send_email ∅ None.

Lemma quick_override_effective_witness :
  status (baseDecision sample_config 12 sample_check) = (false, false) /\
  status (baseDecision (applyQuickOverride sample_config (mkQuick send_email true (Some "sales"))) 12 sample_check)
    = (true, false).
Proof.
  split; [by vm_compute|].
  apply (quick_override_effective sample_config (mkQuick send_email true (Some "sales")) 12 sample_check).
  - unfold no_empty_roles. simpl. constructor; [done|constructor].
  - done.
  - done.
  - by vm_compute.
  - left. done.
Defined.

(** Folding the decisions of one multi-category call. The throw is reserved
    for the empty list; the result is one of the inputs; it allows exactly when
    every input allows, and then asks for approval exactly when some input
    does; and a denial is reported as liftable (by level) only when every
    denial among the inputs is, with the highest requirement of them. *)
Theorem combine_decisions_spec ds :
  (combineDecisions ds = None <-> ds = []) /\
  forall d, combineDecisions ds = Some d ->
    In d ds /\
    (allowed d = true <-> forall x, In x ds -> allowed x = true) /\
    (allowed d = true -> requiresApproval d = true <-> exists x, In x ds /\ requiresApproval x = true) /\
    (allowed d = false -> deniedByLevel d = true ->
       forall x, In x ds -> allowed x = false -> deniedByLevel x = true /\ rank x <= rank d) /\
    (allowed d = true -> requiresApproval d = true ->
       forall x, In x ds -> requiresApproval x = true -> rank x <= rank d).
Proof.
  split.
  - split; [|by intros ->]. destruct ds as [|d0 ds]; [done|].
    destruct (combine_total (d0 :: ds) ltac:(done)) as [d ->]. done.
  - intros d H. pose proof (combine_source ds d H) as [Hin Hc].
    split_and!; [done|by apply combine_allowed|by apply combine_approval| |].
    + intros Hd Hl. destruct Hc as [[_ ?]|[[Ha _]|Hc]]; [auto| |].
      * rewrite (Ha d Hin) in Hd. done.
      * destruct (Hc d Hin). congruence.
    + intros Hd Hr. destruct Hc as [[? _]|[(_ & _ & ?)|Hc]]; [congruence|done|].
      destruct (Hc d Hin). congruence.
Qed.

Lemma combine_decisions_spec_witness :
  let d1 := plain true true "r" send_email in
  let d2 := mkDecision false false "l" make_payment None None true in
  combineDecisions [d1; d2] = Some d2 /\ In d2 [d1; d2].
Proof.
  cbn zeta. split; [done|].
  destruct (combine_decisions_spec
    [plain true true "r" send_email; mkDecision false false "l" make_payment None None true]) as [_ H].
  apply (H (mkDecision false false "l" make_payment None None true)). done.
Defined.

(** The configuration builders fail closed. Taint gating is off for a
    configured section exactly when it says [enabled: false]; an unreadable,
    misspelt or missing category list falls back to the default gate, and only
    an explicit empty list gives up the categories; a background level cap is
    always a level from 1 to 10. *)
Theorem profile_builders_fail_closed section bg :
  (gating_governed (buildTaintGating section) = [] <-> section ≫= tg_governed = Some (JArr [])) /\
  (gating_enabled (buildTaintGating section) = false <-> section ≫= tg_enabled = Some (JBool false)) /\
  (profile_governed (buildBackgroundProfile bg) = Some [] <-> bg ≫= bg_governed = Some (JArr [])) /\
  (forall c, level_cap (buildBackgroundProfile bg) = Some c -> 1 <= c <= 10).
Proof.
  split_and!.
  - unfold buildTaintGating. simpl. by apply parse_governed_nil.
  - unfold buildTaintGating. simpl. destruct (section ≫= tg_enabled) as [[| [] | | | |]|]; naive_solver.
  - unfold buildBackgroundProfile. simpl.
    rewrite <- (parse_governed_nil DEFAULT_BACKGROUND_GOVERNED) by done. split; intros; congruence.
  - intros c. apply clamp_cap_bounds.
Qed.

(** The emergency switch. Once killed, no sequence of pauses, resumes and
    further kills runs anything again: only an explicit reset leaves the killed
    state, the switch notifies its listener exactly when a call is accepted,
    and execution is possible in the normal state alone. *)
Theorem kill_is_permanent_until_reset ops1 ops2 :
  ~ In op_reset ops2 ->
  canExecute (emergency_run normal (ops1 ++ op_kill :: ops2)) = false /\
  emergency_run normal (ops1 ++ op_kill :: ops2) = killed /\
  emergency_run normal (ops1 ++ op_kill :: ops2 ++ [op_reset]) = normal.
Proof.
  intros Hn.
  assert (emergency_run normal (ops1 ++ op_kill :: ops2) = killed) as E.
  { unfold emergency_run. rewrite foldl_app. simpl. by apply killed_stays. }
  split_and!; [by rewrite E|done|].
  rewrite (app_comm_cons ops2), app_assoc. unfold emergency_run in *. by rewrite foldl_app, E.
Qed.

Lemma kill_is_permanent_until_reset_witness :
  emergency_run normal [op_pause; op_kill; op_resume; op_pause] = killed.
Proof. apply (kill_is_permanent_until_reset [op_pause] [op_resume; op_pause]). simpl. naive_solver. Defined.
