(* ===== verification/Registry.v ===== *)
(** * The tool registry (src/src/actions/tools/registry.ts)

    The registry is the insertion-ordered [Map] from names to definitions. A
    tool's [execute] body is code the registry only calls, so an execution is
    split at that call: [execute_begin] is everything up to it, and
    [execute_finish] maps what the body did to what [execute] returns or
    throws. [tool_id] stands for the identity of the definition object, which
    the approval manager compares with [!==]. The checks of
    [validateToolDefinition] that only reject values of the wrong JavaScript
    type are excluded by the types here. Property lookups are own properties. *)
From S2P Require Export Roles Json.

Definition params := list (string * json).

Record ToolParameter := mkParam {
  param_type : string;
  param_description : string;
  param_required : bool;
  param_enum : option (list string) }.

Inductive Confirm := confirm_always | confirm_above_level.

#[export] Instance Confirm_eq_dec : EqDecision Confirm.
Proof. solve_decision. Defined.

(** Categories of a declared gate are unchecked strings until the resolver
    filters them. *)
Record ToolGate := mkGate {
  gate_category : string;
  gate_categories : option (list string);
  gate_intent : string;
  gate_confirm : option Confirm }.

(** What a call of a tool's own [authorityGate] does. *)
Inductive GateOutcome := gate_throws | gate_returns (g : option ToolGate).

(** What a call of [captureApprovalGuard] does; a guard is named by a key that
    the caller's environment evaluates later. *)
Inductive GuardOutcome := guard_throws | guard_returns (key : nat).

Record ToolDefinition := mkTool {
  tool_id : nat;
  tool_def_name : string;
  tool_description : string;
  tool_category : string;
  tool_parameters : list (string * ToolParameter);
  authorityGate : option (params -> GateOutcome);
  captureApprovalGuard : option (params -> GuardOutcome) }.

Definition ToolRegistry := list ToolDefinition.

(** ** Results *)

Inductive ToolOutcome :=
  | Returned (v : json)
  | ThrewOutcome (msg : string) (* an ActionOutcomeError *)
  | ThrewError (msg : string).

Inductive ToolError := OutcomeError (msg : string) | PlainError (msg : string).

Definition error_message (e : ToolError) : string :=
  match e with OutcomeError m => m | PlainError m => m end.

Definition isToolResult (v : json) : bool :=
  match jget "content" v with Some (JArr _) => true | _ => false end.

(** ** Lookup *)

Definition get (reg : ToolRegistry) (name : string) : option ToolDefinition :=
  List.find (fun t => bool_decide (tool_def_name t = name)) reg.

Definition has (reg : ToolRegistry) (name : string) : bool :=
  match get reg name with Some _ => true | None => false end.

Definition list_tools (reg : ToolRegistry) (category : option string) : list ToolDefinition :=
  match category with
  | Some c => if truthy c then List.filter (fun t => bool_decide (tool_category t = c)) reg else reg
  | None => reg
  end.

Definition getCategories (reg : ToolRegistry) : list string :=
  sort_by String.leb (dedup (map tool_category reg)).

Definition count (reg : ToolRegistry) : Z := Z.of_nat (length reg).

(** ** Registration *)

(** The first complaint of [validateToolDefinition] about one parameter. *)
Definition validateParameterDefinition (tool : string) (p : string * ToolParameter) : option string :=
  let '(name, def) := p in
  let where_ := "Parameter '" +:+ name +:+ "' in tool '" +:+ tool +:+ "' " in
  if negb (truthy (param_type def)) then Some (where_ +:+ "must have a type")
  else if negb (truthy (param_description def)) then Some (where_ +:+ "must have a description")
  else match param_enum def with
       | None => None
       | Some [] => Some (where_ +:+ "has an empty enum")
       | Some _ =>
           if bool_decide (to_lower (param_type def) = "string") then None
           else Some (where_ +:+ "declares an enum but is type '" +:+ param_type def +:+
                      "'; enums are only enforced for strings")
       end.

(** The first error of a [for] loop that throws. *)
Fixpoint first_error {A E} (f : A -> option E) (l : list A) : option E :=
  match l with
  | [] => None
  | x :: l' => match f x with Some e => Some e | None => first_error f l' end
  end.

Definition validateToolDefinition (t : ToolDefinition) : option string :=
  if negb (truthy (tool_def_name t)) then Some "Tool must have a valid name"
  else if negb (truthy (tool_description t))
  then Some ("Tool '" +:+ tool_def_name t +:+ "' must have a description")
  else if negb (truthy (tool_category t))
  then Some ("Tool '" +:+ tool_def_name t +:+ "' must have a category")
  else first_error (validateParameterDefinition (tool_def_name t)) (tool_parameters t).

Definition register (reg : ToolRegistry) (t : ToolDefinition) : string + ToolRegistry :=
  if has reg (tool_def_name t) then inl ("Tool '" +:+ tool_def_name t +:+ "' is already registered")
  else match validateToolDefinition t with
       | Some e => inl e
       | None => inr (reg ++ [t])
       end.

Definition unregister (reg : ToolRegistry) (name : string) : ToolRegistry * bool :=
  (List.filter (fun t => negb (bool_decide (tool_def_name t = name))) reg, has reg name).

Definition clear (reg : ToolRegistry) : ToolRegistry := [].

(** Any operation; a registration that throws changes nothing. *)
Inductive RegistryOp := op_register (t : ToolDefinition) | op_unregister (name : string) | op_clear.

Definition registry_step (reg : ToolRegistry) (op : RegistryOp) : ToolRegistry :=
  match op with
  | op_register t => match register reg t with inl _ => reg | inr reg' => reg' end
  | op_unregister name => (unregister reg name).1
  | op_clear => clear reg
  end.

(** The registry after the operations on a new one. *)
Definition registry_run (ops : list RegistryOp) : ToolRegistry := foldl registry_step [] ops.

(** ** Execution *)

(** JavaScript's [typeof] on JSON values. *)
Definition typeof (v : json) : string :=
  match v with
  | JBool _ => "boolean" | JNum _ => "number" | JStr _ => "string"
  | JNull | JArr _ | JObj _ => "object"
  end.

Definition is_array (v : json) : bool := match v with JArr _ => true | _ => false end.

Definition enum_error (where_ : string) (enum : option (list string)) (v : json) : option string :=
  match enum, v with
  | Some ((_ :: _) as allowed), JStr s =>
      if existsb (fun a => bool_decide (to_lower a = to_lower s)) allowed then None
      else Some (where_ +:+ "must be one of: " +:+ join ", " allowed +:+ " (got " +:+
                 String dquote (s +:+ String dquote ")"))
  | _, _ => None
  end.

(** One iteration of the loop of [validateParameters]. *)
Definition validateParameter (tool : string) (ps : params) (p : string * ToolParameter) : option string :=
  let '(name, def) := p in
  match assoc_get name ps with
  | None | Some JNull =>
      if param_required def
      then Some ("Required parameter '" +:+ name +:+ "' missing for tool '" +:+ tool +:+ "'") else None
  | Some v =>
      let where_ := "Parameter '" +:+ name +:+ "' for tool '" +:+ tool +:+ "' " in
      let expected := to_lower (param_type def) in
      if bool_decide (expected = "array") && negb (is_array v)
      then Some (where_ +:+ "must be an array, got " +:+ typeof v)
      else if bool_decide (expected = "object") && (negb (bool_decide (typeof v = "object")) || is_array v)
      then Some (where_ +:+ "must be an object, got " +:+ typeof v)
      else if negb (bool_decide (expected = "array")) && negb (bool_decide (expected = "object")) &&
              negb (bool_decide (typeof v = expected))
      then Some (where_ +:+ "must be " +:+ expected +:+ ", got " +:+ typeof v)
      else enum_error where_ (param_enum def) v
  end.

Definition validateParameters (t : ToolDefinition) (ps : params) : option string :=
  first_error (validateParameter (tool_def_name t) ps) (tool_parameters t).

(** [fence] is the error the caller's cancellation checkpoint throws, if any. *)
Definition execute_begin (reg : ToolRegistry) (name : string) (ps : params) (fence : option string)
  : ToolError + ToolDefinition :=
  match get reg name with
  | None => inl (PlainError ("Tool '" +:+ name +:+ "' not found in registry"))
  | Some t =>
      match validateParameters t ps with
      | Some e => inl (PlainError e)
      | None => match fence with Some e => inl (PlainError e) | None => inr t end
      end
  end.

Definition execute_finish (name : string) (o : ToolOutcome) : ToolError + json :=
  match o with
  | Returned v => inr v
  | ThrewOutcome m => inl (OutcomeError m)
  | ThrewError m => inl (PlainError ("Tool '" +:+ name +:+ "' execution failed: " +:+ m))
  end.

(** ** Invariant and specification *)

(** What registration guarantees of a parameter. *)
Definition param_wf (p : string * ToolParameter) : Prop :=
  param_type p.2 <> EmptyString /\ param_description p.2 <> EmptyString /\
  forall e, param_enum p.2 = Some e -> e <> [] /\ to_lower (param_type p.2) = "string".

Definition tool_wf (t : ToolDefinition) : Prop :=
  tool_def_name t <> EmptyString /\ tool_description t <> EmptyString /\
  tool_category t <> EmptyString /\ List.Forall param_wf (tool_parameters t).

Definition registry_wf (reg : ToolRegistry) : Prop :=
  List.NoDup (map tool_def_name reg) /\ List.Forall tool_wf reg.

(** A value at the declared type. *)
Definition has_type (ty : string) (v : json) : Prop :=
  if bool_decide (ty = "array") then exists l, v = JArr l
  else if bool_decide (ty = "object") then exists l, v = JObj l
  else typeof v = ty.

(** What a dispatched call's arguments satisfy for one declared parameter: absent (or null) only where
    it is optional, else of the declared type, and a string of an enumerated parameter equal to one of
    its values up to the case of letters. *)
Definition argument_ok (ps : params) (p : string * ToolParameter) : Prop :=
  match assoc_get p.1 ps with
  | None | Some JNull => param_required p.2 = false
  | Some v => has_type (to_lower (param_type p.2)) v /\
      forall e s, param_enum p.2 = Some e -> v = JStr s -> e <> [] ->
        exists a, In a e /\ to_lower a = to_lower s
  end.

(** ** Lemmas *)

Lemma get_Some reg name t : get reg name = Some t -> In t reg /\ tool_def_name t = name.
Proof. intros [? ?%bool_decide_eq_true]%List.find_some. done. Qed.

Lemma get_None reg name : get reg name = None <-> ~ In name (map tool_def_name reg).
Proof.
  split.
  - intros Hn (t & Ht & Hin)%in_map_iff. pose proof (List.find_none _ _ Hn t Hin) as H. simpl in H.
    by apply bool_decide_eq_false in H.
  - intros Hn. destruct (get reg name) as [t|] eqn:E; [|done].
    apply get_Some in E as [Hin <-]. by apply (in_map tool_def_name) in Hin.
Qed.

Lemma first_error_None {A E} (f : A -> option E) l :
  first_error f l = None <-> forall x, In x l -> f x = None.
Proof.
  induction l as [|x l IH]; simpl; [naive_solver|]. destruct (f x) eqn:Ef.
  - split; [done|]. intros H. rewrite <- Ef. apply H. by left.
  - rewrite IH. naive_solver.
Qed.

Lemma truthy_false s : truthy s = false <-> s = EmptyString.
Proof. by destruct s. Qed.

Lemma validateParameterDefinition_wf tool p : validateParameterDefinition tool p = None -> param_wf p.
Proof.
  destruct p as [n d]. unfold validateParameterDefinition, param_wf. simpl.
  destruct (truthy (param_type d)) eqn:E1; simpl; [|done].
  destruct (truthy (param_description d)) eqn:E2; simpl; [|done]. intros H.
  split; [by intros E; rewrite E in E1|]. split; [by intros E; rewrite E in E2|].
  intros e He. rewrite He in H. destruct e as [|x e]; [done|].
  destruct (bool_decide (to_lower (param_type d) = "string")) eqn:E3; [|done]. by to_prop.
Qed.

Lemma validateToolDefinition_wf t : validateToolDefinition t = None -> tool_wf t.
Proof.
  unfold validateToolDefinition, tool_wf.
  destruct (truthy (tool_def_name t)) eqn:E1; simpl; [|done].
  destruct (truthy (tool_description t)) eqn:E2; simpl; [|done].
  destruct (truthy (tool_category t)) eqn:E3; simpl; [|done]. intros H.
  split_and!; try (intros E; rewrite E in *; done).
  apply List.Forall_forall. intros p Hp.
  eapply validateParameterDefinition_wf. by apply (proj1 (first_error_None _ _) H).
Qed.

Lemma register_wf reg t reg' : registry_wf reg -> register reg t = inr reg' -> registry_wf reg'.
Proof.
  intros [Hn Hw]. unfold register, has. destruct (get reg (tool_def_name t)) eqn:Eg; [done|].
  destruct (validateToolDefinition t) eqn:Ev; [done|]. intros [= <-]. split.
  - rewrite map_app. apply get_None in Eg. simpl.
    apply (NoDup_Add (a:=tool_def_name t) (l:=map tool_def_name reg)); [|done].
    rewrite <- (app_nil_r (map tool_def_name reg)) at 1. apply Add_app.
  - apply List.Forall_app. split; [done|]. constructor; [by apply validateToolDefinition_wf|done].
Qed.

Lemma unregister_wf reg name : registry_wf reg -> registry_wf (unregister reg name).1.
Proof.
  intros [Hn Hw]. split; simpl; [by apply filter_NoDup_map|].
  rewrite List.Forall_forall in *. intros t [Ht _]%List.filter_In. auto.
Qed.

Lemma enum_error_None where_ enum v : enum_error where_ enum v = None <->
  forall e s, enum = Some e -> v = JStr s -> e <> [] -> exists a, In a e /\ to_lower a = to_lower s.
Proof.
  unfold enum_error. destruct enum as [[|a e]|]; [naive_solver| |naive_solver]. destruct v as [| | |s| |]; try naive_solver.
  destruct (existsb _ _) eqn:E.
  - apply existsb_exists in E as (b & Hb & Hs). to_prop. naive_solver.
  - split; [done|]. intros H. destruct (H _ _ eq_refl eq_refl ltac:(done)) as (b & Hb & Hs).
    apply not_true_iff_false in E. destruct E. apply existsb_exists. exists b. by rewrite bool_decide_eq_true_2.
Qed.

(** The type checks of the loop, in order. *)
Lemma type_checks ty v : v <> JNull ->
  (bool_decide (ty = "array") && negb (is_array v) = false /\
   bool_decide (ty = "object") && (negb (bool_decide (typeof v = "object")) || is_array v) = false /\
   negb (bool_decide (ty = "array")) && negb (bool_decide (ty = "object")) && negb (bool_decide (typeof v = ty)) = false) <->
  has_type ty v.
Proof.
  intros Hv. unfold has_type. destruct (bool_decide (ty = "array")) eqn:E1, (bool_decide (ty = "object")) eqn:E2; cbn [andb negb].
  - to_prop. congruence.
  - destruct v; cbn; split; try naive_solver; by intros [? H].
  - destruct v; cbn; split; try naive_solver; by intros [? H].
  - rewrite negb_false_iff, bool_decide_eq_true. naive_solver.
Qed.

(** The check of one parameter accepts exactly what [argument_ok] says. *)
Lemma validateParameter_ok tool ps p : validateParameter tool ps p = None <-> argument_ok ps p.
Proof.
  destruct p as [n d]. unfold validateParameter, argument_ok. cbn [fst snd].
  destruct (assoc_get n ps) as [v|]; [|by destruct (param_required d)].
  assert (v = JNull \/ v <> JNull) as [->|Hv] by (destruct v; auto); [by destruct (param_required d)|].
  pose proof (type_checks (to_lower (param_type d)) v Hv) as Ht. pose proof (enum_error_None ("Parameter '" +:+ n +:+ "' for tool '" +:+ tool +:+ "' ") (param_enum d) v) as He.
  destruct v; try done.
  all: cbv zeta; rewrite <- He, <- Ht; clear Ht He; repeat case_match; naive_solver.
Qed.

Lemma execute_begin_spec reg name ps fence t : execute_begin reg name ps fence = inr t <->
  get reg name = Some t /\ fence = None /\ List.Forall (argument_ok ps) (tool_parameters t).
Proof.
  assert (forall t0, validateParameters t0 ps = None <-> List.Forall (argument_ok ps) (tool_parameters t0)) as Hv.
  { intros t0. unfold validateParameters. rewrite first_error_None, List.Forall_forall.
    split; intros H p Hp; eapply validateParameter_ok; by apply H. }
  unfold execute_begin. destruct (get reg name) as [t0|]; [|naive_solver]. specialize (Hv t0).
  destruct (validateParameters t0 ps) as [e|] eqn:E.
  - split; [done|]. intros ([= ->] & _ & H). by apply Hv in H.
  - destruct fence; [naive_solver|]. split; [|naive_solver]. intros [= ->]. naive_solver.
Qed.

Lemma get_In reg t : registry_wf reg -> In t reg -> get reg (tool_def_name t) = Some t.
Proof.
  intros [Hn _] Hin. destruct (get reg (tool_def_name t)) as [t'|] eqn:E.
  - apply get_Some in E as [Hin' E]. f_equal. induction reg as [|x reg IH]; [done|].
    apply NoDup_cons_iff in Hn as [Hx Hn]. destruct Hin as [->|Hin], Hin' as [->|Hin']; [done| | |by apply IH].
    + by apply (in_map tool_def_name) in Hin'; rewrite E in Hin'.
    + apply (in_map tool_def_name) in Hin. by rewrite <- E in Hin.
  - apply get_None in E. destruct E. by apply in_map.
Qed.

Lemma registry_run_wf ops : registry_wf (registry_run ops).
Proof.
  unfold registry_run. assert (registry_wf []) as H by (split; constructor). revert H. generalize (@nil ToolDefinition).
  induction ops as [|op ops IH]; intros reg H; [done|]. cbn [foldl]. apply IH. destruct op as [t|name|]; cbn [registry_step].
  - destruct (register reg t) eqn:E; [done|by eapply register_wf].
  - by apply unregister_wf.
  - split; constructor.
Qed.

(** ** Properties *)

(** C40: the registry never holds two tools of one name or a tool whose declaration it cannot enforce,
    whatever is registered, removed and cleared; a registered tool is found under its name, and a
    removed one is not. A call reaches a tool's body exactly when the tool is registered under
    that name, the caller's fence lets the call pass, and the arguments satisfy the declaration:
    each required parameter is there, a parameter that is there (and not null) is of its declared
    type, and a string of an enumerated one is one of its values up to the case of letters. *)
Theorem registry_dispatch_is_validated ops : let reg := registry_run ops in
  registry_wf reg /\
  (forall t reg', register reg t = inr reg' -> get reg' (tool_def_name t) = Some t) /\
  (forall name, get (unregister reg name).1 name = None) /\
  (forall name ps fence t, execute_begin reg name ps fence = inr t <->
     In t reg /\ tool_def_name t = name /\ fence = None /\ List.Forall (argument_ok ps) (tool_parameters t)).
Proof.
  intros reg. assert (registry_wf reg) as Hwf by apply registry_run_wf. split_and!; [done|..].
  - intros t reg' H. unfold register, has in H. destruct (get reg (tool_def_name t)) eqn:Eg; [done|].
    destruct (validateToolDefinition t); [done|]. injection H as <-. unfold get in *.
    rewrite find_app, Eg. simpl. by rewrite bool_decide_eq_true_2.
  - intros name. apply get_None. simpl. intros (t & E & [_ H]%List.filter_In)%in_map_iff. to_prop. done.
  - intros name ps fence t. rewrite (execute_begin_spec reg name ps fence t). split.
    + intros (H & -> & Hv). apply get_Some in H as [? ?]. by split_and!.
    + intros (Hin & <- & -> & Hv). split_and!; [|done|done]. by apply get_In.
Qed.

Definition read_file_tool : ToolDefinition :=
  mkTool 1 "read_file" "Read a file" "file-ops"
    [("path", mkParam "string" "Path" true None); ("mode", mkParam "string" "Mode" false (Some ["Text"; "binary"]))] None None.

Definition demo_registry_ops : list RegistryOp :=
  [op_register read_file_tool; op_register read_file_tool; op_unregister "other"].

Lemma registry_dispatch_is_validated_witness :
  registry_wf (registry_run demo_registry_ops) /\
  execute_begin (registry_run demo_registry_ops) "read_file" [("path", JStr "/tmp/a"); ("mode", JStr "TEXT")] None = inr read_file_tool /\
  List.Forall (argument_ok [("path", JStr "/tmp/a"); ("mode", JStr "TEXT")]) (tool_parameters read_file_tool) /\
  execute_begin (registry_run demo_registry_ops) "read_file" [] None =
    inl (PlainError "Required parameter 'path' missing for tool 'read_file'").
Proof.
  destruct (registry_dispatch_is_validated demo_registry_ops) as (H1 & _ & _ & H4).
  assert (execute_begin (registry_run demo_registry_ops) "read_file" [("path", JStr "/tmp/a"); ("mode", JStr "TEXT")] None = inr read_file_tool)
    as Hx by (vm_compute; reflexivity).
  split; [exact H1|]. split; [exact Hx|]. split; [|vm_compute; reflexivity].
  by apply (H4 "read_file" _ None read_file_tool) in Hx as (_ & _ & _ & Hx).
Defined.
