(* ===== verification/Approval.v ===== *)
(** * The approval manager (src/src/authority/approval.ts)

    The [approval_requests] table as a list of rows and the manager's live
    bindings of UI approvals. Every statement is the [update_where] or
    [insert_row] with the condition the SQL has; [now] and the generated id are
    arguments. A registry is named by a key, since the manager holds a
    reference to it and reads it again later; [registries] and [guards] are
    what that environment answers at the time of the call. *)
From S2P Require Export Sql ToolGate.

(** ** Data *)

Inductive ApprovalStatus := pending | approved | denied | expired | executed.
Inductive ApprovalUrgency := urgent | normal_urgency.
Inductive ApprovalExecutionMode := inline | deferred | workflow.
Inductive ApprovalReceiptOutcome := receipt_committed | receipt_failed | receipt_blocked.
Inductive ApprovalExecutionOutcome := committed | failed | blocked | not_started | unknown | closed.

#[export] Instance ApprovalStatus_eq_dec : EqDecision ApprovalStatus.
Proof. solve_decision. Defined.
#[export] Instance ApprovalExecutionMode_eq_dec : EqDecision ApprovalExecutionMode.
Proof. solve_decision. Defined.
#[export] Instance ApprovalExecutionOutcome_eq_dec : EqDecision ApprovalExecutionOutcome.
Proof. solve_decision. Defined.

Definition outcome_of_receipt (o : ApprovalReceiptOutcome) : ApprovalExecutionOutcome :=
  match o with receipt_committed => committed | receipt_failed => failed | receipt_blocked => blocked end.

Record ApprovalRequest := mkRequest {
  req_id : string;
  agent_id : string;
  agent_name : string;
  req_tool_name : string;
  tool_arguments : string;
  action_category : ActionCategory;
  urgency : ApprovalUrgency;
  req_reason : string;
  context : string;
  req_status : ApprovalStatus;
  execution_mode : ApprovalExecutionMode;
  decided_at : option Z;
  decided_by : option string;
  executed_at : option Z;
  execution_result : option string;
  created_at : Z;
  execution_claimed_at : option Z;
  execution_claimed_by : option string;
  execution_boot_id : option string;
  execution_outcome : option ApprovalExecutionOutcome;
  resolved_at : option Z;
  resolved_by : option string;
  resolution_note : option string }.

#[export] Instance request_row : Row ApprovalRequest := req_id.

(** The column groups the statements write. *)
Definition with_decision (s : ApprovalStatus) (at_ : option Z) (by_ : option string) (r : ApprovalRequest) :=
  mkRequest (req_id r) (agent_id r) (agent_name r) (req_tool_name r) (tool_arguments r) (action_category r)
    (urgency r) (req_reason r) (context r) s (execution_mode r) at_ by_ (executed_at r) (execution_result r)
    (created_at r) (execution_claimed_at r) (execution_claimed_by r) (execution_boot_id r)
    (execution_outcome r) (resolved_at r) (resolved_by r) (resolution_note r).

Definition with_mode (m : ApprovalExecutionMode) (r : ApprovalRequest) :=
  mkRequest (req_id r) (agent_id r) (agent_name r) (req_tool_name r) (tool_arguments r) (action_category r)
    (urgency r) (req_reason r) (context r) (req_status r) m (decided_at r) (decided_by r) (executed_at r)
    (execution_result r) (created_at r) (execution_claimed_at r) (execution_claimed_by r) (execution_boot_id r)
    (execution_outcome r) (resolved_at r) (resolved_by r) (resolution_note r).

Definition with_claim (at_ : Z) (by_ boot : string) (r : ApprovalRequest) :=
  mkRequest (req_id r) (agent_id r) (agent_name r) (req_tool_name r) (tool_arguments r) (action_category r)
    (urgency r) (req_reason r) (context r) (req_status r) (execution_mode r) (decided_at r) (decided_by r)
    (executed_at r) (execution_result r) (created_at r) (Some at_) (Some by_) (Some boot)
    None (resolved_at r) (resolved_by r) (resolution_note r).

Definition with_receipt (at_ : Z) (res : string) (o : ApprovalReceiptOutcome) (r : ApprovalRequest) :=
  mkRequest (req_id r) (agent_id r) (agent_name r) (req_tool_name r) (tool_arguments r) (action_category r)
    (urgency r) (req_reason r) (context r) executed (execution_mode r) (decided_at r) (decided_by r)
    (Some at_) (Some res) (created_at r) (execution_claimed_at r) (execution_claimed_by r) (execution_boot_id r)
    (Some (outcome_of_receipt o)) (resolved_at r) (resolved_by r) (resolution_note r).

Definition with_outcome (o : ApprovalExecutionOutcome) (r : ApprovalRequest) :=
  mkRequest (req_id r) (agent_id r) (agent_name r) (req_tool_name r) (tool_arguments r) (action_category r)
    (urgency r) (req_reason r) (context r) (req_status r) (execution_mode r) (decided_at r) (decided_by r)
    (executed_at r) (execution_result r) (created_at r) (execution_claimed_at r) (execution_claimed_by r)
    (execution_boot_id r) (Some o) (resolved_at r) (resolved_by r) (resolution_note r).

Definition with_resolution (at_ : Z) (by_ : string) (note : option string) (r : ApprovalRequest) :=
  mkRequest (req_id r) (agent_id r) (agent_name r) (req_tool_name r) (tool_arguments r) (action_category r)
    (urgency r) (req_reason r) (context r) (req_status r) (execution_mode r) (decided_at r) (decided_by r)
    (executed_at r) (execution_result r) (created_at r) (execution_claimed_at r) (execution_claimed_by r)
    (execution_boot_id r) (Some closed) (Some at_) (Some by_) note.

Inductive ApprovalExecutionState :=
  | st_pending | st_denied | st_expired | st_awaiting_execution | st_in_flight
  | st_outcome (o : ApprovalExecutionOutcome).

(** The truthiness of a nullable number column. *)
Definition truthy_num (o : option Z) : bool := match o with Some n => negb (n =? 0) | None => false end.

Definition executionState (r : ApprovalRequest) : ApprovalExecutionState :=
  match req_status r with
  | executed => st_outcome (execution_outcome r ?? committed)
  | pending => st_pending
  | denied => st_denied
  | expired => st_expired
  | approved =>
      match execution_outcome r with
      | Some o => st_outcome o
      | None => if truthy_num (execution_claimed_at r) then st_in_flight else st_awaiting_execution
      end
  end.

Definition is_null {A} (o : option A) : bool := match o with None => true | Some _ => false end.
Definition has_status (s : ApprovalStatus) (r : ApprovalRequest) : bool := bool_decide (req_status r = s).
Definition has_outcome (o : ApprovalExecutionOutcome) (r : ApprovalRequest) : bool :=
  bool_decide (execution_outcome r = Some o).
Definition has_mode (m : ApprovalExecutionMode) (r : ApprovalRequest) : bool := bool_decide (execution_mode r = m).

Definition UNRESOLVED (r : ApprovalRequest) : bool :=
  has_status approved r && (has_outcome not_started r || has_outcome unknown r).

(** ** The card context *)

Definition approvalNeedsClick (ctx : string) : bool :=
  if negb (starts_with "{" ctx) then false
  else match parse ctx with
       | Some v => jstr_is (jget "confirm" v) "always"
       | None => false
       end.

Definition approvalIntentFromContext (ctx : string) : option string :=
  if negb (starts_with "{" ctx) then None
  else match parse ctx with
       | Some v => match jget "intent" v with
                   | Some (JStr i) => if truthy (trim i) then Some (trim i) else None
                   | _ => None
                   end
       | None => None
       end.

(** ** The manager *)

(** What re-checks the subject of a UI approval: always, never, or the guard
    the tool captured. *)
Inductive Guard := guard_true | guard_false | guard_key (k : nat).

Record UiBinding := mkBinding {
  binding_registry : nat; binding_tool : nat; binding_arguments : string; binding_current : Guard }.

Record Manager := mkManager {
  rows : list ApprovalRequest;
  uiExecutions : gmap string UiBinding;
  bootId : string }.

Definition with_rows (m : Manager) (t : list ApprovalRequest) : Manager := mkManager t (uiExecutions m) (bootId m).
Definition drop_ui (m : Manager) (id : string) : Manager :=
  mkManager (rows m) (delete id (uiExecutions m)) (bootId m).

Record CreateParams := mkCreate {
  cp_agentId : string; cp_agentName : string; cp_toolName : string; cp_toolArguments : params;
  cp_actionCategory : ActionCategory; cp_urgency : ApprovalUrgency; cp_reason : string; cp_context : string;
  cp_executionMode : option ApprovalExecutionMode; cp_toolRegistry : option nat }.

Definition new_request (id : string) (now : Z) (p : CreateParams) : ApprovalRequest :=
  mkRequest id (cp_agentId p) (cp_agentName p) (cp_toolName p) (stringify (JObj (cp_toolArguments p)))
    (cp_actionCategory p) (cp_urgency p) (cp_reason p) (cp_context p) pending
    (cp_executionMode p ?? deferred) None None None None now None None None None None None None.

(** The guard captured for a UI call; [None] when the call needs none. *)
Definition capture_guard (tool : ToolDefinition) (p : CreateParams) : option Guard :=
  match rawUiGate (cp_toolName p) (cp_toolArguments p) with
  | None => None
  | Some _ =>
      match captureApprovalGuard tool with
      | None => Some guard_true
      | Some f =>
          match parse (stringify (JObj (cp_toolArguments p))) with
          | Some (JObj args) =>
              match f args with guard_returns k => Some (guard_key k) | guard_throws => Some guard_false end
          | _ => Some guard_false
          end
      end
  end.

Section environment.
Context (registries : nat -> ToolRegistry) (guards : nat -> option bool).

(** [None] is the constraint error of the insert. *)
Definition createRequest (m : Manager) (id : string) (now : Z) (p : CreateParams)
  : option (Manager * ApprovalRequest) :=
  let tool := cp_toolRegistry p ≫= fun reg => get (registries reg) (cp_toolName p) in
  let current := tool ≫= fun t => capture_guard t p in
  let r := new_request id now p in
  match insert_row r (rows m) with
  | None => None
  | Some t =>
      let ui := match tool, current, cp_toolRegistry p with
                | Some tl, Some cur, Some reg =>
                    <[id := mkBinding reg (tool_id tl) (tool_arguments r) cur]> (uiExecutions m)
                | _, _, _ => uiExecutions m
                end in
      Some (mkManager t ui (bootId m), r)
  end.

(** A guard's answer now; [None] when it throws. *)
Definition ask_guard (g : Guard) : option bool :=
  match g with guard_true => Some true | guard_false => Some false | guard_key k => guards k end.

Definition getUiExecutionRegistry (m : Manager) (r : ApprovalRequest) : option nat :=
  match uiExecutions m !! req_id r with
  | None => None
  | Some b =>
      if negb (bool_decide (binding_arguments b = tool_arguments r)) ||
         negb (bool_decide (tool_id <$> get (registries (binding_registry b)) (req_tool_name r) = Some (binding_tool b)))
      then None
      else match ask_guard (binding_current b) with
           | Some true => Some (binding_registry b)
           | _ => None
           end
  end.
End environment.

Definition getRequest (m : Manager) (id : string) : option ApprovalRequest := get_row id (rows m).

Definition findByShortId (m : Manager) (shortId : string) : option ApprovalRequest :=
  List.find (fun r => like (shortId +:+ "%") (req_id r) && has_status pending r) (rows m).

Definition approve (m : Manager) (id decidedBy : string) (now : Z) : Manager * option ApprovalRequest :=
  let '(t, changes) := update_where (key_is id (has_status pending))
                         (with_decision approved (Some now) (Some decidedBy)) (rows m) in
  let m' := with_rows m t in
  if (changes =? 0)%nat then (m', None) else (m', getRequest m' id).

Definition deny (m : Manager) (id decidedBy : string) (now : Z) : Manager * option ApprovalRequest :=
  let '(t, changes) := update_where (key_is id (has_status pending))
                         (with_decision denied (Some now) (Some decidedBy)) (rows m) in
  let m' := with_rows m t in
  if (changes =? 0)%nat then (m', None) else (drop_ui m' id, getRequest m' id).

Definition demoteToDeferred (m : Manager) (id : string) : Manager * bool :=
  let '(t, changes) := update_where (key_is id (fun r => has_status pending r && has_mode inline r))
                         (with_mode deferred) (rows m) in
  (with_rows m t, (0 <? changes)%nat).

Definition demoteAllPendingInline (m : Manager) : Manager * nat :=
  let '(t, changes) := update_where (fun r => has_status pending r && has_mode inline r)
                         (with_mode deferred) (rows m) in
  (with_rows m t, changes).

Definition claimable (r : ApprovalRequest) : bool :=
  has_status approved r && is_null (execution_claimed_at r) &&
  (is_null (execution_outcome r) || has_outcome not_started r).

Definition claimExecution (m : Manager) (id claimedBy : string) (now : Z) : Manager * bool :=
  let '(t, changes) := update_where (key_is id claimable) (with_claim now claimedBy (bootId m)) (rows m) in
  (with_rows m t, (0 <? changes)%nat).

Definition markExecuted (m : Manager) (id result : string) (o : ApprovalReceiptOutcome) (now : Z)
  : Manager * bool :=
  let '(t, changes) := update_where (key_is id (has_status approved)) (with_receipt now result o) (rows m) in
  let m' := with_rows m t in
  ((if (0 <? changes)%nat then drop_ui m' id else m'), (0 <? changes)%nat).

Definition interrupted_row (boot : string) (r : ApprovalRequest) : bool :=
  has_status approved r && negb (is_null (execution_claimed_at r)) && is_null (execution_outcome r) &&
  negb (has_mode workflow r) &&
  match execution_boot_id r with None => true | Some b => negb (bool_decide (b = boot)) end.

Definition unstarted_row (r : ApprovalRequest) : bool :=
  has_status approved r && is_null (execution_claimed_at r) && is_null (execution_outcome r) &&
  negb (has_mode workflow r).

Record ReconcileCounts := mkCounts { demotedInline : nat; notStarted : nat; interrupted : nat }.

Definition reconcileAfterRestart (m : Manager) : Manager * ReconcileCounts :=
  let m0 := mkManager (rows m) ∅ (bootId m) in
  let '(m1, demoted) := demoteAllPendingInline m0 in
  let '(t2, intr) := update_where (interrupted_row (bootId m)) (with_outcome unknown) (rows m1) in
  let '(t3, unst) := update_where unstarted_row (with_outcome not_started) t2 in
  (with_rows m1 t3, mkCounts demoted unst intr).

(** [ORDER BY a DESC, b DESC] with NULLs last. *)
Definition null_ge (a b : option Z) : bool :=
  match a, b with _, None => true | None, Some _ => false | Some x, Some y => x >=? y end.

Definition decided_desc (a b : ApprovalRequest) : bool :=
  if bool_decide (decided_at a = decided_at b) then created_at a >=? created_at b
  else null_ge (decided_at a) (decided_at b).

Definition created_desc (a b : ApprovalRequest) : bool := created_at a >=? created_at b.

Definition getUnresolved (m : Manager) : list ApprovalRequest :=
  sort_by decided_desc (select_where UNRESOLVED (rows m)).

Definition closeUnresolved (m : Manager) (id resolvedBy : string) (note : option string) (now : Z)
  : Manager * bool :=
  let '(t, changes) := update_where (key_is id UNRESOLVED) (with_resolution now resolvedBy note) (rows m) in
  let m' := with_rows m t in
  ((if (0 <? changes)%nat then drop_ui m' id else m'), (0 <? changes)%nat).

Definition getPending (m : Manager) : list ApprovalRequest :=
  sort_by created_desc (select_where (has_status pending) (rows m)).

Record HistoryOpts := mkOpts {
  opt_limit : option Z; opt_action : option ActionCategory; opt_agentId : option string;
  opt_status : option ApprovalStatus }.

Definition history_match (o : HistoryOpts) (r : ApprovalRequest) : bool :=
  match opt_action o with Some a => bool_decide (action_category r = a) | None => true end &&
  match opt_agentId o with
  | Some a => if truthy a then bool_decide (agent_id r = a) else true
  | None => true
  end &&
  match opt_status o with Some s => has_status s r | None => true end.

Definition getHistory (m : Manager) (o : HistoryOpts) : list ApprovalRequest :=
  sql_limit (opt_limit o ?? 50) 0 (sort_by created_desc (select_where (history_match o) (rows m))).

Definition row_expired (t : list ApprovalRequest) (id : string) : bool :=
  match get_row id t with Some r => has_status expired r | None => false end.

Definition expireOld (m : Manager) (maxAgeMs now : Z) : Manager * nat :=
  let cutoff := now - maxAgeMs in
  let '(t, changes) := update_where (fun r => has_status pending r && (created_at r <? cutoff))
                         (fun r => with_decision expired (decided_at r) (decided_by r) r) (rows m) in
  let ui := base.filter (fun kv => row_expired t kv.1 = false) (uiExecutions m) in
  (mkManager t ui (bootId m), changes).

(** One iteration of the poll of [waitForResolution]: the row read, the time
    since the start and the abort flag. *)
Inductive WaitStep := wait_throw (msg : string) | wait_return (r : ApprovalRequest) | wait_sleep.

Definition wait_step (id : string) (timeoutMs : Z) (current : option ApprovalRequest) (aborted : bool)
    (elapsed : Z) : WaitStep :=
  match current with
  | None => wait_throw ("Approval request " +:+ id +:+ " not found")
  | Some r =>
      if negb (has_status pending r) then wait_return r
      else if aborted then wait_return r
      else if elapsed >=? timeoutMs then wait_return r
      else wait_sleep
  end.

(** The loop over what successive polls observe; [None] when it still sleeps
    after the last of them. *)
Fixpoint waitForResolution (id : string) (timeoutMs : Z) (polls : list (option ApprovalRequest * bool * Z))
  : option WaitStep :=
  match polls with
  | [] => None
  | (current, aborted, elapsed) :: polls' =>
      match wait_step id timeoutMs current aborted elapsed with
      | wait_sleep => waitForResolution id timeoutMs polls'
      | s => Some s
      end
  end.

(** ** Operation traces *)

(** Every operation that writes the table, with the arguments the clock and
    the caller supply. [op_restart] is a new process over the same database:
    the live bindings are gone and [reconcileAfterRestart] has run. *)
Inductive ApprovalOp :=
  | op_create (id : string) (now : Z) (p : CreateParams)
  | op_approve (id by_ : string) (now : Z)
  | op_deny (id by_ : string) (now : Z)
  | op_demote (id : string)
  | op_demote_all
  | op_claim (id by_ : string) (now : Z)
  | op_mark (id result : string) (o : ApprovalReceiptOutcome) (now : Z)
  | op_close (id by_ : string) (note : option string) (now : Z)
  | op_expire (maxAge now : Z)
  | op_restart (boot : string).

Section trace.
Context (registries : nat -> ToolRegistry).

(** The state after an operation and whether it reported success. *)
Definition approval_step (m : Manager) (o : ApprovalOp) : Manager * bool :=
  match o with
  | op_create id now p =>
      match createRequest registries m id now p with Some (m', _) => (m', true) | None => (m, false) end
  | op_approve id by_ now => let '(m', r) := approve m id by_ now in (m', negb (is_null r))
  | op_deny id by_ now => let '(m', r) := deny m id by_ now in (m', negb (is_null r))
  | op_demote id => demoteToDeferred m id
  | op_demote_all => ((demoteAllPendingInline m).1, true)
  | op_claim id by_ now => claimExecution m id by_ now
  | op_mark id res oc now => markExecuted m id res oc now
  | op_close id by_ note now => closeUnresolved m id by_ note now
  | op_expire age now => ((expireOld m age now).1, true)
  | op_restart boot => ((reconcileAfterRestart (mkManager (rows m) ∅ boot)).1, true)
  end.

Fixpoint approval_run (m : Manager) (os : list ApprovalOp) : Manager * list bool :=
  match os with
  | [] => (m, [])
  | o :: os' =>
      let '(m1, b) := approval_step m o in
      let '(m2, bs) := approval_run m1 os' in (m2, b :: bs)
  end.
End trace.

Definition is_claim_of (id : string) (o : ApprovalOp) : bool :=
  match o with op_claim id' _ _ => bool_decide (id' = id) | _ => false end.
Definition is_receipt_of (id : string) (o : ApprovalOp) : bool :=
  match o with op_mark id' _ _ _ => bool_decide (id' = id) | _ => false end.

(** How many operations selected by [sel] succeeded. *)
Definition successes (sel : ApprovalOp -> bool) (os : list ApprovalOp) (bs : list bool) : nat :=
  length (List.filter (fun ob => sel ob.1 && ob.2) (combine os bs)).

(** ** How a row may change *)

(** One statement's effect on one row; the constructors are the statements. *)
Inductive row_step : ApprovalRequest -> ApprovalRequest -> Prop :=
  | rs_decide r s at_ by_ : req_status r = pending -> s <> pending -> s <> executed ->
      (s = approved \/ s = denied -> is_null at_ = false) ->
      (s = expired -> at_ = decided_at r) ->
      row_step r (with_decision s at_ by_ r)
  | rs_demote r : req_status r = pending -> execution_mode r = inline -> row_step r (with_mode deferred r)
  | rs_claim r at_ by_ boot : claimable r = true -> row_step r (with_claim at_ by_ boot r)
  | rs_receipt r at_ res o : req_status r = approved -> row_step r (with_receipt at_ res o r)
  | rs_unknown r boot : interrupted_row boot r = true -> row_step r (with_outcome unknown r)
  | rs_unstarted r : unstarted_row r = true -> row_step r (with_outcome not_started r)
  | rs_close r at_ by_ note : UNRESOLVED r = true -> row_step r (with_resolution at_ by_ note r).

Definition evolves : ApprovalRequest -> ApprovalRequest -> Prop := rtc row_step.

(** The well-formed rows: what a status says about the other columns. *)
Definition row_wf (r : ApprovalRequest) : Prop :=
  match req_status r with
  | pending => decided_at r = None /\ execution_claimed_at r = None /\ executed_at r = None /\ execution_outcome r = None
  | denied => is_null (decided_at r) = false /\ execution_claimed_at r = None /\ executed_at r = None /\ execution_outcome r = None
  | expired => decided_at r = None /\ execution_claimed_at r = None /\ executed_at r = None /\ execution_outcome r = None
  | approved =>
      is_null (decided_at r) = false /\ executed_at r = None /\
      match execution_outcome r with
      | None => True
      | Some not_started => execution_claimed_at r = None /\ execution_mode r <> workflow
      | Some unknown => is_null (execution_claimed_at r) = false /\ execution_mode r <> workflow
      | Some closed => is_null (resolved_at r) = false /\ execution_mode r <> workflow
      | Some _ => False
      end
  | executed =>
      is_null (decided_at r) = false /\ is_null (executed_at r) = false /\ is_null (execution_result r) = false /\
      (execution_outcome r = Some committed \/ execution_outcome r = Some failed \/ execution_outcome r = Some blocked)
  end.

(** The columns that are written once, at creation. *)
Definition identity_columns (r : ApprovalRequest) :=
  (req_id r, agent_id r, req_tool_name r, tool_arguments r, action_category r, context r, created_at r).

(** The order in which a status may change. *)
Definition status_le (a b : ApprovalStatus) : bool :=
  match a, b with
  | pending, _ => true
  | approved, approved | approved, executed => true
  | _, _ => bool_decide (a = b)
  end.

Definition manager_wf (m : Manager) : Prop := keyed (rows m) /\ List.Forall row_wf (rows m).

(** ** Lemmas *)

#[export] Instance with_decision_key s a b : KeepsKey (with_decision s a b). Proof. done. Qed.
#[export] Instance with_mode_key s : KeepsKey (with_mode s). Proof. done. Qed.
#[export] Instance with_claim_key a b c : KeepsKey (with_claim a b c). Proof. done. Qed.
#[export] Instance with_receipt_key a b c : KeepsKey (with_receipt a b c). Proof. done. Qed.
#[export] Instance with_outcome_key o : KeepsKey (with_outcome o). Proof. done. Qed.
#[export] Instance with_resolution_key a b c : KeepsKey (with_resolution a b c). Proof. done. Qed.

#[export] Instance expire_key :
  KeepsKey (fun r => with_decision expired (decided_at r) (decided_by r) r). Proof. done. Qed.

Lemma is_null_true {A} (o : option A) : is_null o = true <-> o = None.
Proof. by destruct o. Qed.

Lemma claimable_spec r : claimable r = true <->
  req_status r = approved /\ execution_claimed_at r = None /\
  (execution_outcome r = None \/ execution_outcome r = Some not_started).
Proof.
  unfold claimable, has_status, has_outcome.
  rewrite !andb_true_iff, orb_true_iff, !bool_decide_eq_true, !is_null_true. tauto.
Qed.

Lemma interrupted_spec boot r : interrupted_row boot r = true <->
  req_status r = approved /\ is_null (execution_claimed_at r) = false /\ execution_outcome r = None /\
  execution_mode r <> workflow /\ execution_boot_id r <> Some boot.
Proof.
  unfold interrupted_row, has_status, has_mode.
  rewrite !andb_true_iff, !negb_true_iff, bool_decide_eq_true, bool_decide_eq_false, is_null_true.
  destruct (execution_boot_id r) as [b|]; [rewrite negb_true_iff, bool_decide_eq_false|]; naive_solver.
Qed.

Lemma unstarted_spec r : unstarted_row r = true <->
  req_status r = approved /\ execution_claimed_at r = None /\ execution_outcome r = None /\
  execution_mode r <> workflow.
Proof.
  unfold unstarted_row, has_status, has_mode.
  rewrite !andb_true_iff, negb_true_iff, bool_decide_eq_true, bool_decide_eq_false, !is_null_true. tauto.
Qed.

Lemma unresolved_spec r : UNRESOLVED r = true <->
  req_status r = approved /\
  (execution_outcome r = Some not_started \/ execution_outcome r = Some unknown).
Proof.
  unfold UNRESOLVED, has_status, has_outcome. rewrite andb_true_iff, orb_true_iff, !bool_decide_eq_true. tauto.
Qed.

Lemma row_step_wf r r' : row_step r r' -> row_wf r -> row_wf r'.
Proof.
  destruct 1 as [r s at_ by_ Hp Hn1 Hn2 Hd He|r Hp Hi|r at_ by_ boot Hc|r at_ res o Ha|r boot Hi|r Hu|r at_ by_ note Hu];
    unfold row_wf; simpl; intros Hwf.
  - rewrite Hp in Hwf. destruct Hwf as (E1 & E2 & E3 & E4). destruct s; simpl; try done.
    + rewrite E4. auto.
    + auto.
    + rewrite He by done. done.
  - rewrite Hp in *. done.
  - apply claimable_spec in Hc as (Hs & _). rewrite Hs in *. (destruct_and?; split_and?; subst; eauto; done).
  - rewrite Ha in Hwf. destruct o; (destruct_and?; split_and?; subst; eauto; done).
  - apply interrupted_spec in Hi as (Hs & Hc & Ho & Hm & _). rewrite Hs, Ho in *. (destruct_and?; split_and?; subst; eauto; done).
  - apply unstarted_spec in Hu as (Hs & Hc & Ho & Hm). rewrite Hs, Ho in *. (destruct_and?; split_and?; subst; eauto; done).
  - apply unresolved_spec in Hu as (Hs & Ho). rewrite Hs in *. destruct Ho as [Ho|Ho]; rewrite Ho in Hwf; (destruct_and?; split_and?; subst; eauto; done).
Qed.

Lemma row_step_identity r r' : row_step r r' -> identity_columns r' = identity_columns r.
Proof. by destruct 1. Qed.

Lemma row_step_status r r' : row_step r r' -> status_le (req_status r) (req_status r') = true.
Proof.
  destruct 1 as [r s at_ by_ Hp Hn1 Hn2 Hd He|r Hp Hi|r at_ by_ boot Hc|r at_ res o Ha|r boot Hi|r Hu|r at_ by_ note Hu];
    simpl; try (by destruct (req_status r)); by rewrite ?Hp, ?Ha.
Qed.

(** Once decided, the side that executes is fixed. *)
Lemma row_step_mode r r' : row_step r r' -> req_status r <> pending -> execution_mode r' = execution_mode r.
Proof. destruct 1; simpl; done. Qed.

Lemma row_step_claim r r' : row_step r r' ->
  is_null (execution_claimed_at r) = false ->
  execution_claimed_at r' = execution_claimed_at r /\ execution_claimed_by r' = execution_claimed_by r /\
  execution_boot_id r' = execution_boot_id r.
Proof.
  destruct 1 as [| |r at_ by_ boot Hc| | | |]; simpl; try done.
  apply claimable_spec in Hc as (_ & Hc & _). by rewrite Hc.
Qed.

Lemma status_le_trans a b c : status_le a b = true -> status_le b c = true -> status_le a c = true.
Proof. by destruct a, b, c. Qed.

(** The facts above along any number of statements. *)
Lemma evolves_facts r r' : evolves r r' ->
  identity_columns r' = identity_columns r /\
  status_le (req_status r) (req_status r') = true /\
  (row_wf r -> row_wf r') /\
  (req_status r <> pending -> execution_mode r' = execution_mode r) /\
  (is_null (execution_claimed_at r) = false ->
     execution_claimed_at r' = execution_claimed_at r /\ execution_claimed_by r' = execution_claimed_by r /\
     execution_boot_id r' = execution_boot_id r).
Proof.
  induction 1 as [r|r r1 r2 H1 H2 (I1 & I2 & I3 & I4 & I5)].
  - split_and!; try done. by destruct (req_status r).
  - pose proof (row_step_identity _ _ H1). pose proof (row_step_status _ _ H1) as Hs.
    pose proof (row_step_wf _ _ H1). pose proof (row_step_mode _ _ H1) as Hm.
    pose proof (row_step_claim _ _ H1) as Hc.
    split_and!; [congruence|by eapply status_le_trans|auto| |].
    + intros Hp. rewrite I4; [by apply Hm|]. intros E. rewrite E in Hs. by destruct (req_status r).
    + intros Hn. destruct (Hc Hn) as (E1 & E2 & E3). rewrite <- E1 in Hn. destruct (I5 Hn) as (? & ? & ?).
      split_and!; congruence.
Qed.

(** A table after statements that insert nothing. *)
Definition table_evolves (t t' : list ApprovalRequest) : Prop := Forall2 evolves t t'.

#[export] Instance table_evolves_preorder : PreOrder table_evolves.
Proof.
  unfold table_evolves, evolves. split; [intros t; induction t; by constructor|].
  intros t1 t2 t3 H. revert t3. induction H as [|x y t1 t2 Hxy H IH]; intros t3; inversion 1; subst; constructor.
  - by etrans.
  - by apply IH.
Qed.

Lemma update_evolves p f t : (forall r, p r = true -> row_step r (f r)) ->
  table_evolves t (update_where p f t).1.
Proof.
  intros H. unfold table_evolves. simpl. induction t as [|r t IH]; simpl; constructor; [|done].
  destruct (p r) eqn:E; [by apply rtc_once, H|apply rtc_refl].
Qed.

Lemma key_is_elim k (p : ApprovalRequest -> bool) r : key_is k p r = true -> req_id r = k /\ p r = true.
Proof. unfold key_is. rewrite andb_true_iff, bool_decide_eq_true. done. Qed.

Lemma evolves_key r r' : evolves r r' -> req_id r' = req_id r.
Proof. intros H. apply evolves_facts in H as [H _]. by injection H. Qed.

Lemma table_evolves_get t t' id r : table_evolves t t' -> get_row id t = Some r ->
  exists r', get_row id t' = Some r' /\ evolves r r'.
Proof.
  unfold get_row. induction 1 as [|x y t t' Hxy Ht IH]; simpl; [done|].
  change (row_key y) with (req_id y). change (row_key x) with (req_id x). rewrite (evolves_key _ _ Hxy).
  destruct (bool_decide (req_id x = id)); [intros [= ->]; eauto|done].
Qed.

Lemma table_evolves_none t t' id : table_evolves t t' -> get_row id t = None -> get_row id t' = None.
Proof.
  unfold get_row. induction 1 as [|x y t t' Hxy Ht IH]; simpl; [done|].
  change (row_key y) with (req_id y). change (row_key x) with (req_id x). rewrite (evolves_key _ _ Hxy).
  by destruct (bool_decide (req_id x = id)).
Qed.

Lemma table_evolves_wf t t' : table_evolves t t' ->
  keyed t /\ List.Forall row_wf t -> keyed t' /\ List.Forall row_wf t'.
Proof.
  intros H [Hk Hw]. split.
  - unfold keyed in *. replace (map row_key t') with (map row_key t); [done|].
    clear Hk Hw. induction H as [|x y t t' Hxy Ht IH]; simpl; [done|].
    change (row_key y) with (req_id y). change (row_key x) with (req_id x). by rewrite (evolves_key _ _ Hxy), IH.
  - clear Hk. induction H as [|x y t t' Hxy Ht IH]; [done|].
    inversion Hw; subst. constructor; [|by apply IH].
    apply evolves_facts in Hxy as (_ & _ & Hwf & _). auto.
Qed.

Lemma has_status_spec s r : has_status s r = true <-> req_status r = s.
Proof. unfold has_status. apply bool_decide_eq_true. Qed.

Lemma pending_inline_step r :
  has_status pending r && has_mode inline r = true -> row_step r (with_mode deferred r).
Proof.
  unfold has_mode. rewrite andb_true_iff, has_status_spec, bool_decide_eq_true. intros [? ?]. by constructor.
Qed.

Lemma reconcile_table m :
  table_evolves (rows m) (rows (reconcileAfterRestart m).1).
Proof.
  unfold reconcileAfterRestart, demoteAllPendingInline. simpl rows.
  etrans; [apply (update_evolves _ _ _ pending_inline_step)|].
  etrans; [apply (update_evolves (interrupted_row (bootId m)) (with_outcome unknown)); intros; by econstructor|].
  apply (update_evolves unstarted_row (with_outcome not_started)). intros. by constructor.
Qed.

(** The tables the conditional statements leave. *)
Lemma approve_rows m id by_ now : rows (approve m id by_ now).1 =
  (update_where (key_is id (has_status pending)) (with_decision approved (Some now) (Some by_)) (rows m)).1.
Proof. unfold approve. destruct (update_where _ _ _) as [t n]. by destruct (n =? 0)%nat. Qed.

Lemma deny_rows m id by_ now : rows (deny m id by_ now).1 =
  (update_where (key_is id (has_status pending)) (with_decision denied (Some now) (Some by_)) (rows m)).1.
Proof. unfold deny. destruct (update_where _ _ _) as [t n]. by destruct (n =? 0)%nat. Qed.

Lemma mark_rows m id res o now : rows (markExecuted m id res o now).1 =
  (update_where (key_is id (has_status approved)) (with_receipt now res o) (rows m)).1.
Proof. unfold markExecuted. destruct (update_where _ _ _) as [t n]. by destruct (0 <? n)%nat. Qed.

Lemma close_rows m id by_ note now : rows (closeUnresolved m id by_ note now).1 =
  (update_where (key_is id UNRESOLVED) (with_resolution now by_ note) (rows m)).1.
Proof. unfold closeUnresolved. destruct (update_where _ _ _) as [t n]. by destruct (0 <? n)%nat. Qed.

Section trace_lemmas.
Context (registries : nat -> ToolRegistry).
Notation step := (approval_step registries).
Notation run := (approval_run registries).

(** Every operation evolves the table or appends one fresh pending row. *)
Lemma step_table m o :
  table_evolves (rows m) (rows (step m o).1) \/
  exists id now p, o = op_create id now p /\ get_row id (rows m) = None /\
    rows (step m o).1 = rows m ++ [new_request id now p].
Proof.
  destruct o as [id now p|id by_ now|id by_ now|id| |id by_ now|id res oc now|id by_ note now|age now|boot].
  - simpl. unfold createRequest, insert_row. change (row_key (new_request id now p)) with id.
    destruct (get_row id (rows m)) eqn:E; simpl; [by left|]. right. by exists id, now, p.
  - left. cbn [approval_step]. rewrite (surjective_pairing (approve _ _ _ _)). cbn [fst]. rewrite approve_rows.
    apply update_evolves. intros r [_ H%has_status_spec]%key_is_elim. constructor; naive_solver.
  - left. cbn [approval_step]. rewrite (surjective_pairing (deny _ _ _ _)). cbn [fst]. rewrite deny_rows.
    apply update_evolves. intros r [_ H%has_status_spec]%key_is_elim. constructor; naive_solver.
  - left. simpl. apply (update_evolves (key_is id (fun r => has_status pending r && has_mode inline r))).
    intros r [_ H]%key_is_elim. by apply pending_inline_step.
  - left. simpl. apply (update_evolves _ _ _ pending_inline_step).
  - left. simpl. apply (update_evolves (key_is id claimable)). intros r [_ H]%key_is_elim. by constructor.
  - left. cbn [approval_step]. rewrite mark_rows.
    apply update_evolves. intros r [_ H%has_status_spec]%key_is_elim. by constructor.
  - left. cbn [approval_step]. rewrite close_rows.
    apply update_evolves. intros r [_ H]%key_is_elim. by constructor.
  - left. simpl. apply (update_evolves (fun r => has_status pending r && (created_at r <? now - age))).
    intros r [H%has_status_spec _]%andb_true_iff. constructor; naive_solver.
  - left. simpl. apply (reconcile_table (mkManager (rows m) ∅ boot)).
Qed.

Lemma new_request_wf id now p : row_wf (new_request id now p).
Proof. done. Qed.

Lemma get_row_snoc id (t : list ApprovalRequest) r : get_row id (t ++ [r]) =
  match get_row id t with Some x => Some x | None => if bool_decide (req_id r = id) then Some r else None end.
Proof. unfold get_row. by rewrite find_app. Qed.

Lemma step_wf m o : manager_wf m -> manager_wf (step m o).1.
Proof.
  intros Hm. unfold manager_wf. destruct (step_table m o) as [H|(id & now & p & -> & Hn & ->)].
  - by eapply table_evolves_wf.
  - destruct Hm as [Hk Hw]. split.
    + apply (insert_row_keyed (new_request id now p) (rows m)); [|done].
      unfold insert_row. change (row_key (new_request id now p)) with id. by rewrite Hn.
    + apply List.Forall_app. split; [done|]. by repeat constructor.
Qed.

Lemma step_get m o id r : get_row id (rows m) = Some r ->
  exists r', get_row id (rows (step m o).1) = Some r' /\ evolves r r'.
Proof.
  intros Hr. destruct (step_table m o) as [H|(id' & now & p & -> & Hn & ->)].
  - by eapply table_evolves_get.
  - exists r. rewrite get_row_snoc, Hr. split; [done|apply rtc_refl].
Qed.

Lemma run_cons m o os : run m (o :: os) =
  ((run (step m o).1 os).1, (step m o).2 :: (run (step m o).1 os).2).
Proof.
  cbn [approval_run]. destruct (step m o) as [m1 b]. simpl. by destruct (run m1 os).
Qed.

Lemma run_get m os id r : get_row id (rows m) = Some r ->
  exists r', get_row id (rows (run m os).1) = Some r' /\ evolves r r'.
Proof.
  revert m r. induction os as [|o os IH]; intros m r Hr; [exists r; split; [done|apply rtc_refl]|].
  destruct (step_get m o id r Hr) as (r1 & H1 & E1). destruct (IH _ _ H1) as (r2 & H2 & E2).
  rewrite run_cons. exists r2. split; [done|]. by etrans.
Qed.

Lemma run_wf m os : manager_wf m -> manager_wf (run m os).1.
Proof.
  revert m. induction os as [|o os IH]; intros m Hm; [done|]. rewrite run_cons. by apply IH, step_wf.
Qed.

(** A bit of a row that only grows and that a successful operation turns from
    off to on bounds the successes of that operation. *)
Lemma successes_bounded sel (bit : ApprovalRequest -> bool) id
  (bit_grows : forall r r', evolves r r' -> bit r = true -> bit r' = true)
  (sel_sets : forall m o, keyed (rows m) -> sel o = true -> (step m o).2 = true ->
     exists r r', get_row id (rows m) = Some r /\ bit r = false /\
                  get_row id (rows (step m o).1) = Some r' /\ bit r' = true) m os :
  manager_wf m ->
  (successes sel os (run m os).2 +
   (if match get_row id (rows m) with Some r => bit r | None => false end then 1 else 0) <= 1)%nat.
Proof.
  revert m. induction os as [|o os IH]; intros m Hm.
  { unfold successes. simpl. by destruct (match get_row id (rows m) with Some r => bit r | None => false end); lia. }
  rewrite run_cons. unfold successes. cbn [snd combine List.filter fst].
  specialize (IH _ (step_wf m o Hm)). unfold successes in IH.
  assert (match get_row id (rows m) with Some r => bit r | None => false end = true ->
          match get_row id (rows (step m o).1) with Some r => bit r | None => false end = true) as Hg.
  { destruct (get_row id (rows m)) as [r|] eqn:E; [|done]. destruct (step_get m o id r E) as (r' & -> & He).
    by apply bit_grows. }
  destruct (sel o) eqn:Es; cbn [andb]; [destruct (step m o).2 eqn:Eb|].
  - destruct (sel_sets m o (proj1 Hm) Es Eb) as (r & r' & E1 & B1 & E2 & B2).
    rewrite E1, B1. rewrite E2, B2 in IH. cbn [length]. lia.
  - destruct (match get_row id (rows m) with Some r => bit r | None => false end);
      [rewrite Hg in IH by done|]; destruct (match get_row id (rows (step m o).1) with Some r => bit r | None => false end); lia.
  - destruct (match get_row id (rows m) with Some r => bit r | None => false end);
      [rewrite Hg in IH by done|]; destruct (match get_row id (rows (step m o).1) with Some r => bit r | None => false end); lia.
Qed.
End trace_lemmas.

(** A claim that succeeds finds a claimable row and leaves it claimed. *)
Lemma claim_success m id by_ now : keyed (rows m) -> (claimExecution m id by_ now).2 = true ->
  exists r, get_row id (rows m) = Some r /\ claimable r = true /\
    get_row id (rows (claimExecution m id by_ now).1) = Some (with_claim now by_ (bootId m) r).
Proof.
  intros Hk. unfold claimExecution. rewrite (surjective_pairing (update_where _ _ _)). cbn [snd fst rows with_rows].
  rewrite (update_key_changes id claimable (with_claim now by_ (bootId m)) (rows m) Hk), get_row_update_key by apply _.
  destruct (get_row id (rows m)) as [r|]; [|done]. simpl. destruct (claimable r) eqn:E; [|done]. intros _.
  exists r. rewrite E. done.
Qed.

Lemma claim_failure m id by_ now : keyed (rows m) -> (claimExecution m id by_ now).2 = false ->
  (claimExecution m id by_ now).1 = m.
Proof.
  intros Hk. unfold claimExecution. rewrite (surjective_pairing (update_where _ _ _)). cbn [snd fst].
  intros H. rewrite update_none by (apply Nat.ltb_ge in H; lia). by destruct m.
Qed.

Lemma mark_success m id res o now : keyed (rows m) -> (markExecuted m id res o now).2 = true ->
  exists r, get_row id (rows m) = Some r /\ req_status r = approved /\
    get_row id (rows (markExecuted m id res o now).1) = Some (with_receipt now res o r).
Proof.
  intros Hk. rewrite mark_rows. unfold markExecuted.
  rewrite (surjective_pairing (update_where _ _ _)). cbn [fst snd].
  rewrite (update_key_changes id (has_status approved) (with_receipt now res o) (rows m) Hk), get_row_update_key by apply _.
  destruct (get_row id (rows m)) as [r|]; [|done]. simpl. destruct (has_status approved r) eqn:E; [|done]. intros _.
  exists r. rewrite ?E. split_and!; [done|by apply has_status_spec|done].
Qed.

(** [reconcileAfterRestart] on one row. *)
Definition reconcile_row (boot : string) (r : ApprovalRequest) : ApprovalRequest :=
  if has_status pending r && has_mode inline r then with_mode deferred r
  else if interrupted_row boot r then with_outcome unknown r
  else if unstarted_row r then with_outcome not_started r
  else r.

Lemma reconcile_rows m : rows (reconcileAfterRestart m).1 = map (reconcile_row (bootId m)) (rows m).
Proof.
  unfold reconcileAfterRestart, demoteAllPendingInline. simpl. rewrite !map_map. apply map_ext. intros r.
  unfold reconcile_row. destruct (has_status pending r && has_mode inline r) eqn:E1.
  - apply andb_true_iff in E1 as [E1%has_status_spec _].
    unfold interrupted_row, unstarted_row, has_status, with_mode. simpl. by rewrite E1.
  - destruct (interrupted_row (bootId m) r) eqn:E2; [|done].
    unfold unstarted_row, with_outcome. simpl. by rewrite andb_false_r.
Qed.

(** What a reconciled row can be. *)
Lemma reconcile_row_settled boot r : let r' := reconcile_row boot r in
  (req_status r' = approved -> execution_mode r' <> workflow ->
     is_null (execution_outcome r') = false \/
     is_null (execution_claimed_at r') = false /\ execution_boot_id r' = Some boot) /\
  has_status pending r' && has_mode inline r' = false /\ interrupted_row boot r' = false /\ unstarted_row r' = false.
Proof.
  cbn zeta. unfold reconcile_row. destruct (has_status pending r && has_mode inline r) eqn:E1.
  - apply andb_true_iff in E1 as [E1%has_status_spec _]. simpl.
    unfold interrupted_row, unstarted_row, has_status, has_mode, with_mode. simpl. rewrite E1. done.
  - destruct (interrupted_row boot r) eqn:E2; [|destruct (unstarted_row r) eqn:E3].
    + pose proof E2 as (Es & _)%interrupted_spec.
      unfold interrupted_row, unstarted_row, has_status, with_outcome. simpl. rewrite Es. simpl.
      rewrite !andb_false_r. auto.
    + pose proof E3 as (Es & _)%unstarted_spec.
      unfold interrupted_row, unstarted_row, has_status, with_outcome. simpl. rewrite Es. simpl.
      rewrite !andb_false_r. auto.
    + split_and!; try done. intros Hs Hm.
      destruct (execution_outcome r) eqn:Eo; [by left|]. right.
      destruct (execution_claimed_at r) eqn:Ec.
      * split; [done|]. destruct (decide (execution_boot_id r = Some boot)); [done|]. exfalso.
        apply not_true_iff_false in E2. apply E2, interrupted_spec. by rewrite Ec.
      * exfalso. apply not_true_iff_false in E3. by apply E3, unstarted_spec.
Qed.

Lemma reconcile_row_idem boot r : reconcile_row boot (reconcile_row boot r) = reconcile_row boot r.
Proof.
  destruct (reconcile_row_settled boot r) as (_ & H1 & H2 & H3).
  unfold reconcile_row at 1. by rewrite H1, H2, H3.
Qed.

Lemma stringify_obj_head fields : starts_with "{" (stringify (JObj fields)) = true.
Proof. done. Qed.

(** ** Properties *)

(** An approved request is executed at most once. Over any sequence of
    operations of the manager, from any well-formed table, restarts of the
    daemon included, at most one claim of a request succeeds and at most one
    receipt is written for it; a request already claimed before the sequence
    is never claimed again, not even after a crash. *)
Theorem execution_claimed_at_most_once registries m os id :
  manager_wf m ->
  let bs := (approval_run registries m os).2 in
  (successes (is_claim_of id) os bs <= 1)%nat /\
  (successes (is_receipt_of id) os bs <= 1)%nat /\
  (forall r, getRequest m id = Some r -> is_null (execution_claimed_at r) = false ->
     successes (is_claim_of id) os bs = 0%nat).
Proof.
  intros Hm. cbn zeta.
  assert (successes (is_claim_of id) os (approval_run registries m os).2 +
    (if match get_row id (rows m) with Some r => negb (is_null (execution_claimed_at r)) | None => false end
     then 1 else 0) <= 1)%nat as Hc.
  { apply (successes_bounded registries (is_claim_of id) (fun r => negb (is_null (execution_claimed_at r)))); [| |done].
    - intros r r' (_ & _ & _ & _ & H)%evolves_facts Hb%negb_true_iff. destruct (H Hb) as (-> & _). by rewrite Hb.
    - intros m0 o Hk Hsel Hok. destruct o; try done. simpl in Hsel. apply bool_decide_eq_true in Hsel as ->.
      destruct (claim_success _ _ _ _ Hk Hok) as (r & Hr & (_ & Hcl & _)%claimable_spec & Hr').
      eexists r, _. split_and!; [done|by rewrite Hcl|exact Hr'|done]. }
  split_and!; [lia| |].
  - pose proof (successes_bounded registries (is_receipt_of id) (has_status executed) id) as H.
    specialize (H ltac:(intros r r' (_ & Hs & _)%evolves_facts He%has_status_spec; apply has_status_spec;
      rewrite He in Hs; by destruct (req_status r'))).
    specialize (H ltac:(intros m0 o Hk Hsel Hok; destruct o; try done; simpl in Hsel;
      apply bool_decide_eq_true in Hsel as ->;
      destruct (mark_success _ _ _ _ _ Hk Hok) as (r & Hr & Hs & Hr');
      eexists r, _; split_and!; [done|by unfold has_status; rewrite Hs|exact Hr'|done]) m os Hm). lia.
  - intros r Hr Hn. unfold getRequest in Hr. rewrite Hr, Hn in Hc. simpl in Hc. lia.
Qed.

Definition sample_create : CreateParams :=
  mkCreate "a1" "Ada" "gmail_send" [("to", JStr "x@y.z")] send_email urgent "why" "ctx" None None.
Definition empty_manager : Manager := mkManager [] ∅ "boot1".
Definition sample_ops : list ApprovalOp :=
  [op_create "r1" 1 sample_create; op_approve "r1" "user" 2; op_claim "r1" "web" 3; op_claim "r1" "telegram" 4;
   op_restart "boot2"; op_claim "r1" "web" 6].

Lemma execution_claimed_at_most_once_witness :
  (approval_run (fun _ => []) empty_manager sample_ops).2 = [true; true; true; false; true; false] /\
  (successes (is_claim_of "r1") sample_ops (approval_run (fun _ => []) empty_manager sample_ops).2 <= 1)%nat.
Proof.
  split; [by vm_compute|].
  apply (execution_claimed_at_most_once (fun _ => []) empty_manager sample_ops "r1").
  split; constructor.
Defined.

(** The life of an approval row. Along any sequence of operations a row
    stays in the table, what was asked (agent, tool, arguments, category,
    context) never changes, the status only moves from pending to a decision
    and from approved to executed, a decided request keeps its execution mode
    and a claimed one its claim, and every row keeps the columns its status
    promises (a receipt on executed rows only, an outcome of a reconciliation
    only on approved rows the workflow engine does not own). *)
Theorem approval_rows_evolve registries m os :
  manager_wf m ->
  let m' := (approval_run registries m os).1 in
  manager_wf m' /\
  forall id r, getRequest m id = Some r ->
    exists r', getRequest m' id = Some r' /\
      identity_columns r' = identity_columns r /\
      status_le (req_status r) (req_status r') = true /\
      (req_status r <> pending -> execution_mode r' = execution_mode r) /\
      (is_null (execution_claimed_at r) = false ->
         execution_claimed_at r' = execution_claimed_at r /\ execution_boot_id r' = execution_boot_id r).
Proof.
  intros Hm. cbn zeta. split; [by apply run_wf|]. intros id r Hr.
  destruct (run_get registries m os id r Hr) as (r' & Hr' & He). exists r'. split; [done|].
  apply evolves_facts in He as (H1 & H2 & _ & H4 & H5). split_and!; try done. intros Hn. by destruct (H5 Hn) as (? & _ & ?).
Qed.

Lemma approval_rows_evolve_witness :
  manager_wf (approval_run (fun _ => []) empty_manager sample_ops).1 /\
  req_status <$> getRequest (approval_run (fun _ => []) empty_manager sample_ops).1 "r1" = Some approved.
Proof.
  split; [|by vm_compute]. apply (approval_rows_evolve (fun _ => []) empty_manager sample_ops). split; constructor.
Defined.

(** Recovery after a restart. The reconciliation leaves no live UI binding,
    no pending inline request without its gate and no approved request of
    unknown standing: outside the workflow engine's rows, every approved row
    either carries an outcome or is in flight in this very process. A row
    becomes [not_started] only when it was never claimed and [unknown] only
    when another process claimed it, nothing else about any row changes, and
    reconciling again changes nothing and counts nothing. *)
Theorem reconcile_settles_every_row m :
  let m' := (reconcileAfterRestart m).1 in
  uiExecutions m' = ∅ /\
  rows m' = map (reconcile_row (bootId m)) (rows m) /\
  (forall r', In r' (rows m') ->
     (req_status r' = pending -> execution_mode r' <> inline) /\
     (req_status r' = approved -> execution_mode r' <> workflow ->
        is_null (execution_outcome r') = false \/
        is_null (execution_claimed_at r') = false /\ execution_boot_id r' = Some (bootId m))) /\
  (forall r, execution_outcome (reconcile_row (bootId m) r) <> execution_outcome r ->
     req_status r = approved /\ execution_outcome r = None /\ execution_mode r <> workflow /\
     (execution_outcome (reconcile_row (bootId m) r) = Some not_started /\ execution_claimed_at r = None \/
      execution_outcome (reconcile_row (bootId m) r) = Some unknown /\
        is_null (execution_claimed_at r) = false /\ execution_boot_id r <> Some (bootId m))) /\
  reconcileAfterRestart m' = (m', mkCounts 0 0 0).
Proof.
  cbn zeta. split_and!; [done|apply reconcile_rows| | |].
  - intros r'. rewrite reconcile_rows. intros (r & <- & _)%in_map_iff.
    destruct (reconcile_row_settled (bootId m) r) as (H1 & H2 & _). split; [|done].
    intros Hp Hi. unfold has_status, has_mode in H2. rewrite Hp, Hi in H2. done.
  - intros r. unfold reconcile_row. destruct (has_status pending r && has_mode inline r); [done|].
    destruct (interrupted_row (bootId m) r) eqn:E2.
    + apply interrupted_spec in E2 as (? & ? & ? & ? & ?). naive_solver.
    + destruct (unstarted_row r) eqn:E3; [|done]. apply unstarted_spec in E3 as (? & ? & ? & ?). naive_solver.
  - pose proof (reconcile_rows m) as Hr. set (m' := (reconcileAfterRestart m).1) in *.
    assert (bootId m' = bootId m) as Hb by done. assert (uiExecutions m' = ∅) as Hu by done.
    assert (forall q, (forall r, q (reconcile_row (bootId m) r) = false) -> List.filter q (rows m') = []) as Hf.
    { intros q Hq. apply filter_nil_iff. intros x. rewrite Hr. intros (r & <- & _)%in_map_iff. apply Hq. }
    pose proof (fun r => proj2 (reconcile_row_settled (bootId m) r)) as Hs.
    unfold reconcileAfterRestart, demoteAllPendingInline.
    rewrite (surjective_pairing (update_where _ _ (rows _))). cbn [rows with_rows].
    rewrite update_none by (simpl; rewrite Hf; [done|apply Hs]).
    cbn [rows bootId]. rewrite Hb, (surjective_pairing (update_where (interrupted_row _) _ _)).
    rewrite update_none by (simpl; rewrite Hf; [done|apply Hs]).
    rewrite (surjective_pairing (update_where unstarted_row _ _)).
    rewrite update_none by (simpl; rewrite Hf; [done|apply Hs]).
    unfold update_where. cbn [snd]. rewrite !Hf by apply Hs. cbn [length]. f_equal.
Qed.

Lemma approve_returns m id by_ now r : keyed (rows m) -> (approve m id by_ now).2 = Some r ->
  exists r0, getRequest m id = Some r0 /\ req_status r0 = pending /\
    r = with_decision approved (Some now) (Some by_) r0 /\
    getRequest (approve m id by_ now).1 id = Some r.
Proof.
  intros Hk H. unfold getRequest. rewrite approve_rows. unfold approve in H.
  rewrite (surjective_pairing (update_where _ _ _)) in H. cbn [fst snd] in H.
  rewrite (update_key_changes id (has_status pending) (with_decision approved (Some now) (Some by_)) (rows m) Hk) in H.
  rewrite get_row_update_key by apply _.
  unfold getRequest in H. cbn [rows with_rows] in H.
  destruct (get_row id (rows m)) as [r0|] eqn:E; [|done].
  destruct (has_status pending r0) eqn:Es; [|done]. simpl Nat.eqb in H. cbn iota in H. cbn [snd] in H.
  rewrite get_row_update_key, E in H by apply _. simpl in H. rewrite Es in H. injection H as <-.
  exists r0. apply has_status_spec in Es as Es'. split_and!; try done. cbn [fmap option_fmap option_map]. by rewrite Es.
Qed.

Lemma demote_frozen m id r : keyed (rows m) -> getRequest m id = Some r -> req_status r <> pending ->
  (demoteToDeferred m id).2 = false.
Proof.
  intros Hk Hr Hs. unfold demoteToDeferred. rewrite (surjective_pairing (update_where _ _ _)). cbn [snd].
  rewrite (update_key_changes _ _ _ _ Hk). unfold getRequest in Hr. rewrite Hr.
  unfold has_status. by rewrite bool_decide_eq_false_2.
Qed.

Lemma decide_frozen m id r by_ now : keyed (rows m) -> getRequest m id = Some r -> req_status r <> pending ->
  (approve m id by_ now).2 = None /\ (deny m id by_ now).2 = None.
Proof.
  intros Hk Hr Hs. unfold approve, deny.
  rewrite (surjective_pairing (update_where _ (with_decision approved _ _) _)).
  rewrite (surjective_pairing (update_where _ (with_decision denied _ _) _)). cbn iota.
  rewrite (update_key_changes _ _ (with_decision approved _ _) _ Hk),
    (update_key_changes _ _ (with_decision denied _ _) _ Hk).
  unfold getRequest in Hr. rewrite Hr. unfold has_status. by rewrite bool_decide_eq_false_2.
Qed.

(** Approving races with the hand-over of a timed-out gate, and exactly one
    side executes. Once [approve] has returned a row, its execution mode is
    final whatever runs afterwards: [inline] means the blocked gate executes
    and no demotion can succeed any more, [deferred] means the endpoint does,
    and a second approval or denial of the row returns nothing. *)
Theorem approval_has_one_executor registries m id by_ now r os by2 now2 :
  manager_wf m -> (approve m id by_ now).2 = Some r ->
  let m' := (approval_run registries (approve m id by_ now).1 os).1 in
  req_status r = approved /\
  (exists r0, getRequest m id = Some r0 /\ req_status r0 = pending /\ execution_mode r = execution_mode r0) /\
  (exists r', getRequest m' id = Some r' /\ execution_mode r' = execution_mode r) /\
  (demoteToDeferred m' id).2 = false /\
  (approve m' id by2 now2).2 = None /\ (deny m' id by2 now2).2 = None.
Proof.
  intros Hm Ha. cbn zeta. destruct (approve_returns _ _ _ _ _ (proj1 Hm) Ha) as (r0 & H0 & Hp & Hr & H1).
  assert (manager_wf (approve m id by_ now).1) as Hm1.
  { pose proof (step_wf registries m (op_approve id by_ now) Hm) as H. cbn [approval_step] in H.
    by rewrite (surjective_pairing (approve m id by_ now)) in H. }
  destruct (run_get registries _ os id r H1) as (r' & Hr' & He).
  pose proof (run_wf registries _ os Hm1) as [Hk _].
  apply evolves_facts in He as (_ & Hs & _ & Hmode & _).
  assert (req_status r = approved) as Hra by (by rewrite Hr).
  assert (req_status r' <> pending) as Hnp by (intros E; rewrite Hra, E in Hs; done).
  split_and!.
  - done.
  - exists r0. by rewrite Hr.
  - exists r'. split; [done|]. apply Hmode. by rewrite Hra.
  - by eapply demote_frozen.
  - by apply (decide_frozen _ id r').
  - by apply (decide_frozen _ id r').
Qed.

Definition pending_manager : Manager :=
  mkManager [new_request "r1" 1 sample_create] ∅ "boot1".

Lemma approval_has_one_executor_witness :
  exists r, (approve pending_manager "r1" "user" 5).2 = Some r /\ req_status r = approved /\
    (demoteToDeferred (approve pending_manager "r1" "user" 5).1 "r1").2 = false.
Proof.
  exists (with_decision approved (Some 5) (Some "user") (new_request "r1" 1 sample_create)).
  split; [reflexivity|].
  destruct (approval_has_one_executor (fun _ => []) pending_manager "r1" "user" 5
    (with_decision approved (Some 5) (Some "user") (new_request "r1" 1 sample_create)) [] "x" 6)
    as (H1 & _ & _ & H2 & _); [split; repeat constructor; simpl; tauto|reflexivity|].
  split; [exact H1|exact H2].
Defined.

(** The rows shown as unresolved are exactly the approved ones whose
    execution state is [not_started] or [unknown]; none of them is listed as
    pending; an [unknown] row can never be claimed, a [not_started] one can be
    run by an explicit claim; and closing one removes it from the list and
    from what can be claimed, without changing the decision. *)
Theorem unresolved_rows_spec m id by_ note now :
  manager_wf m ->
  (forall r, In r (getUnresolved m) <->
     In r (rows m) /\ (executionState r = st_outcome not_started \/ executionState r = st_outcome unknown)) /\
  (forall r, In r (getUnresolved m) -> ~ In r (getPending m)) /\
  (forall r, getRequest m id = Some r -> executionState r = st_outcome unknown ->
     (claimExecution m id by_ now).2 = false) /\
  (forall r, getRequest m id = Some r -> executionState r = st_outcome not_started ->
     (claimExecution m id by_ now).2 = true) /\
  ((closeUnresolved m id by_ note now).2 = true ->
     let m' := (closeUnresolved m id by_ note now).1 in
     (claimExecution m' id by_ now).2 = false /\
     (forall r, In r (getUnresolved m') -> req_id r <> id) /\
     exists r, getRequest m' id = Some r /\ req_status r = approved).
Proof.
  intros [Hk Hw].
  assert (forall r, In r (rows m) -> UNRESOLVED r = true <->
    executionState r = st_outcome not_started \/ executionState r = st_outcome unknown) as Hu.
  { intros r Hr. rewrite List.Forall_forall in Hw. specialize (Hw r Hr).
    rewrite unresolved_spec. unfold executionState, row_wf in *. destruct (req_status r); try naive_solver.
    - destruct (execution_outcome r) as [[]|]; try naive_solver.
      destruct (truthy_num (execution_claimed_at r)); naive_solver.
    - split; [naive_solver|]. destruct Hw as (_ & _ & _ & [-> | [-> | ->]]); simpl; naive_solver. }
  assert (forall r, getRequest m id = Some r ->
    (claimExecution m id by_ now).2 = claimable r) as Hcl.
  { intros r Hr. unfold claimExecution. rewrite (surjective_pairing (update_where _ _ _)). cbn [snd].
    rewrite (update_key_changes id claimable (with_claim now by_ (bootId m)) (rows m) Hk).
    unfold getRequest in Hr. rewrite Hr. by destruct (claimable r). }
  split_and!.
  - intros r. unfold getUnresolved, select_where. rewrite sort_by_In, List.filter_In.
    split; [intros [? ?]; by rewrite <- Hu|intros [? ?]; by rewrite Hu].
  - intros r. unfold getUnresolved, getPending, select_where. rewrite !sort_by_In, !List.filter_In.
    rewrite unresolved_spec, has_status_spec. naive_solver congruence.
  - intros r Hr He. rewrite (Hcl r Hr). apply not_true_iff_false. rewrite claimable_spec.
    unfold executionState in He. destruct (req_status r); try done; [|naive_solver].
    destruct (execution_outcome r) as [o|]; [naive_solver|]. by destruct (truthy_num _).
  - intros r Hr He. rewrite (Hcl r Hr). apply claimable_spec.
    apply get_row_Some in Hr as [Hin _]. pose proof (proj2 (Hu r Hin) (or_introl He)) as [Hs Ho]%unresolved_spec.
    rewrite List.Forall_forall in Hw. specialize (Hw r Hin). unfold row_wf in Hw. rewrite Hs in Hw.
    unfold executionState in He. rewrite Hs in He.
    destruct Ho as [Ho|Ho]; rewrite Ho in *; simpl in *; [naive_solver|done].
  - unfold closeUnresolved. rewrite (surjective_pairing (update_where _ _ _)). cbn [snd fst].
    intros Hch. cbn zeta. rewrite Hch.
    rewrite (update_key_changes id UNRESOLVED (with_resolution now by_ note) (rows m) Hk) in Hch.
    destruct (get_row id (rows m)) as [r|] eqn:E; [|done]. destruct (UNRESOLVED r) eqn:Eu; [|done].
    assert (get_row id (update_where (key_is id UNRESOLVED) (with_resolution now by_ note) (rows m)).1 =
      Some (with_resolution now by_ note r)) as Hg by (rewrite get_row_update_key, E by apply _; simpl; by rewrite Eu).
    pose proof Eu as [Hs _]%unresolved_spec.
    assert (keyed (update_where (key_is id UNRESOLVED) (with_resolution now by_ note) (rows m)).1) as Hk'
      by (by apply update_keyed; [apply _|]).
    split_and!.
    + unfold claimExecution. cbn [rows drop_ui with_rows bootId]. rewrite (surjective_pairing (update_where _ (with_claim _ _ _) _)).
      cbn [snd]. rewrite (update_key_changes id claimable _ _ Hk'), Hg.
      unfold claimable, has_outcome. simpl. by rewrite andb_false_r.
    + intros r'. unfold getUnresolved, select_where. rewrite sort_by_In, List.filter_In.
      cbn [rows drop_ui with_rows]. intros [Hin Hur] Hid.
      pose proof (get_row_In _ _ Hk' Hin) as Hg'. change (row_key r') with (req_id r') in Hg'.
      rewrite Hid, Hg in Hg'. injection Hg' as <-. unfold UNRESOLVED, has_outcome in Hur. simpl in Hur.
      by rewrite andb_false_r in Hur.
    + eexists. split; [exact Hg|done].
Qed.

(** The state of [sample_ops] when the daemon died between approval and claim. *)
Definition crashed_ops : list ApprovalOp :=
  [op_create "r1" 1 sample_create; op_approve "r1" "user" 2; op_restart "boot2"].

Lemma unresolved_rows_spec_witness :
  let m := (approval_run (fun _ => []) empty_manager crashed_ops).1 in
  map req_id (getUnresolved m) = ["r1"] /\
  (forall r, In r (getUnresolved m) -> ~ In r (getPending m)) /\
  (claimExecution m "r1" "user" 9).2 = true.
Proof.
  cbn zeta. split_and!; [by vm_compute| |by vm_compute].
  apply (unresolved_rows_spec (approval_run (fun _ => []) empty_manager crashed_ops).1 "r1" "user" None 9).
  apply run_wf. split; constructor.
Defined.

(** The card context survives its trip through the database. What
    [gateContext] writes for a resolved gate is read back exactly: the request
    needs a click if and only if the gate carries an intent and demands
    confirmation always, and the sentence on the card is the gate's intent
    without surrounding blanks; a call without an intent never reads as one
    that needs a click, whatever its tool name and arguments contain. *)
Theorem gate_context_round_trip g name ps :
  (approvalNeedsClick (gateContext g name ps) = true <->
     truthy_opt (intent g) = true /\ confirm g = Some confirm_always) /\
  approvalIntentFromContext (gateContext g name ps) =
    match intent g with
    | Some i => if truthy (trim i) then Some (trim i) else None
    | None => None
    end.
Proof.
  unfold gateContext. destruct (intent g) as [i|]; [|split; [split; [done|intros [? _]; done]|done]].
  destruct (truthy i) eqn:Et.
  - unfold approvalNeedsClick, approvalIntentFromContext. rewrite stringify_obj_head. cbn [negb].
    rewrite parse_stringify. case_bool_decide as Ec; cbn -[trim]; rewrite ?Et; naive_solver.
  - destruct i; [|done]. cbn. split; [split; [done|intros [? _]; done]|done].
Qed.

(** Waiting for a resolution is bounded and honest. As soon as one poll
    finds the timeout elapsed, the request decided, the wait aborted or the row
    gone, the wait ends; a request it returns is the one just read, still
    pending only if the wait was aborted or the timeout had elapsed; and while
    it sleeps the request was pending at every poll. *)
Theorem wait_for_resolution_spec id timeoutMs polls :
  (waitForResolution id timeoutMs polls = None <->
     forall p, In p polls -> exists r, p.1.1 = Some r /\ req_status r = pending /\
                               p.1.2 = false /\ p.2 < timeoutMs) /\
  (forall r, waitForResolution id timeoutMs polls = Some (wait_return r) ->
     exists aborted elapsed, In (Some r, aborted, elapsed) polls /\
       (req_status r = pending -> aborted = true \/ timeoutMs <= elapsed)) /\
  (forall e, waitForResolution id timeoutMs polls = Some (wait_throw e) ->
     exists aborted elapsed, In (None, aborted, elapsed) polls) /\
  waitForResolution id timeoutMs polls <> Some wait_sleep.
Proof.
  induction polls as [|[[cur ab] el] polls (I1 & I2 & I3 & I4)]; cbn [waitForResolution].
  { split_and!; try done. }
  destruct cur as [r0|]; cbn [wait_step].
  - unfold wait_step. destruct (has_status pending r0) eqn:Es; cbn [negb];
      [destruct ab; [|destruct (el >=? timeoutMs) eqn:Ee]|].
    + split_and!; try done.
      * split; [done|]. intros H. destruct (H (Some r0, true, el) ltac:(by left)) as (? & _ & _ & ? & _). done.
      * intros r [= <-]. exists true, el. split; [by left|auto].
    + rewrite Z.geb_le in Ee. split_and!; try done.
      * split; [done|]. intros H. destruct (H (Some r0, false, el) ltac:(by left)) as (? & _ & _ & _ & ?).
        simpl in *. lia.
      * intros r [= <-]. exists false, el. split; [by left|auto].
    + apply has_status_spec in Es. rewrite Z.geb_leb, Z.leb_gt in Ee. split_and!; try done.
      * rewrite I1. split.
        { intros H p [<-|Hp]; [|by apply H]. exists r0. done. }
        { intros H p Hp. apply H. by right. }
      * intros r Hr. destruct (I2 r Hr) as (a & e & Hin & Hc). exists a, e. split; [by right|done].
      * intros e He. destruct (I3 e He) as (a & x & Hin). exists a, x. by right.
    + assert (req_status r0 <> pending) as Hn by (intros E; rewrite <- has_status_spec in E; congruence).
      split_and!; try done.
      * split; [done|]. intros H. destruct (H (Some r0, ab, el) ltac:(by left)) as (r & [= <-] & Hp & _). done.
      * intros r [= <-]. exists ab, el. split; [by left|done].
  - split_and!; try done.
    + split; [done|]. intros H. destruct (H (None, ab, el) ltac:(by left)) as (r & ? & _). done.
    + intros e _. exists ab, el. by left.
Qed.

Lemma getUi_sound registries guards m r k :
  getUiExecutionRegistry registries guards m r = Some k <->
  exists b, uiExecutions m !! req_id r = Some b /\ binding_registry b = k /\
    binding_arguments b = tool_arguments r /\
    tool_id <$> get (registries k) (req_tool_name r) = Some (binding_tool b) /\
    ask_guard guards (binding_current b) = Some true.
Proof.
  unfold getUiExecutionRegistry. destruct (uiExecutions m !! req_id r) as [b|]; [|naive_solver].
  destruct (bool_decide (binding_arguments b = tool_arguments r)) eqn:E1; simpl;
    [|apply bool_decide_eq_false in E1; naive_solver].
  destruct (bool_decide (tool_id <$> get (registries (binding_registry b)) (req_tool_name r) =
    Some (binding_tool b))) eqn:E2; simpl; [|apply bool_decide_eq_false in E2; naive_solver].
  apply bool_decide_eq_true in E1, E2. destruct (ask_guard guards (binding_current b)) as [[]|] eqn:E3; naive_solver.
Qed.

(** A UI approval is bound to what the person reviewed. Right after a
    request for a reviewed UI tool is created, it resolves to the registry it
    came from exactly while that registry still holds the same tool object
    and the guard the tool captured from the exact arguments (which survive
    their JSON round trip) says the subject is current; a capture that threw
    never resolves; and after a restart no request resolves. *)
Theorem ui_approval_is_bound registries regs_now guards m id now p reg tool m' r gate :
  cp_toolRegistry p = Some reg -> get (registries reg) (cp_toolName p) = Some tool ->
  rawUiGate (cp_toolName p) (cp_toolArguments p) = Some gate ->
  createRequest registries m id now p = Some (m', r) ->
  (forall k, getUiExecutionRegistry regs_now guards m' r = Some k <->
     k = reg /\ tool_id <$> get (regs_now reg) (cp_toolName p) = Some (tool_id tool) /\
     match captureApprovalGuard tool with
     | None => True
     | Some f => exists g, f (cp_toolArguments p) = guard_returns g /\ guards g = Some true
     end) /\
  (forall boot r', getUiExecutionRegistry regs_now guards
     (approval_step registries m' (op_restart boot)).1 r' = None).
Proof.
  intros Hreg Htool Hui Hc. unfold createRequest in Hc. rewrite Hreg in Hc. cbn [mbind option_bind] in Hc.
  rewrite Htool in Hc. cbn [mbind option_bind] in Hc. unfold capture_guard in Hc. rewrite Hui, parse_stringify in Hc.
  destruct (insert_row (new_request id now p) (rows m)) as [t|]; [|done].
  split; [|done]. intros k. rewrite getUi_sound.
  destruct (captureApprovalGuard tool) as [f|]; [destruct (f (cp_toolArguments p)) as [|g] eqn:Ef|];
    injection Hc as <- <-; cbn [uiExecutions req_id new_request tool_arguments req_tool_name];
    rewrite lookup_insert_eq; split.
  - intros (b & [= <-] & <- & _ & _ & H). done.
  - intros (_ & _ & g & H & _). done.
  - intros (b & [= <-] & <- & _ & H1 & H2). split_and!; [done|done|]. by exists g.
  - intros (-> & H1 & g' & [= <-] & Hg). eexists. done.
  - intros (b & [= <-] & <- & _ & H1 & _). done.
  - intros (-> & H1 & _). eexists. done.
Qed.

Definition click_tool : ToolDefinition :=
  mkTool 3 "desktop_click" "Click" "desktop" [] None
    (Some (fun ps => match assoc_get "element_id" ps with Some (JNum _) => guard_returns 4 | _ => guard_throws end)).

Definition click_create : CreateParams :=
  mkCreate "a1" "Ada" "desktop_click" [("element_id", JNum 12)] control_app urgent "why" "ctx" None (Some 0%nat).

Lemma ui_approval_is_bound_witness :
  exists m' r, createRequest (fun _ => [click_tool]) empty_manager "r1" 1 click_create = Some (m', r) /\
    getUiExecutionRegistry (fun _ => [click_tool]) (fun _ => Some true) m' r = Some 0%nat.
Proof.
  eexists _, _. split; [reflexivity|].
  apply (ui_approval_is_bound (fun _ => [click_tool]) (fun _ => [click_tool]) (fun _ => Some true)
    empty_manager "r1" 1 click_create 0%nat click_tool _ _
    (default (mkGate EmptyString None EmptyString None)
       (rawUiGate "desktop_click" [("element_id", JNum 12)]))); [done|done|reflexivity|reflexivity|].
  split_and!; [done|done|]. exists 4%nat. done.
Defined.
