(* ===== verification/Learner.v ===== *)
(** * The approval learner and the audit trail (authority/learning.ts,
    authority/audit.ts)

    [approval_patterns] and [audit_trail] as lists of rows. The learner's
    counters are shown to implement an abstract machine per (category, tool)
    pair; the audit trail's statistics are shown to be exact counts. Generated
    ids are random UUIDs, so an insert does not collide. *)
From S2P Require Export Sql Engine.

(** ** learning.ts *)

Definition DEFAULT_SUGGEST_THRESHOLD : Z := 5.

Record Pattern := mkPattern {
  pat_id : string;
  pat_category : ActionCategory;
  pat_tool : string;
  consecutive_approvals : Z;
  last_approval_at : Z;
  suggestion_sent : bool }.

Definition is_pattern (c : ActionCategory) (t : string) (p : Pattern) : bool :=
  bool_decide (pat_category p = c) && bool_decide (pat_tool p = t).

Definition bump (now : Z) (p : Pattern) : Pattern :=
  mkPattern (pat_id p) (pat_category p) (pat_tool p) (consecutive_approvals p + 1) now (suggestion_sent p).

Definition zero_pattern (p : Pattern) : Pattern :=
  mkPattern (pat_id p) (pat_category p) (pat_tool p) 0 (last_approval_at p) false.

Definition sent_pattern (p : Pattern) : Pattern :=
  mkPattern (pat_id p) (pat_category p) (pat_tool p) (consecutive_approvals p) (last_approval_at p) true.

Definition recordDecision (ps : list Pattern) (id : string) (now : Z) (c : ActionCategory) (tool : string)
    (ok : bool) : list Pattern :=
  if ok then
    let '(ps', changes) := update_where (is_pattern c tool) (bump now) ps in
    if (changes =? 0)%nat then ps' ++ [mkPattern id c tool 1 now false] else ps'
  else (update_where (is_pattern c tool) zero_pattern ps).1.

Definition markSuggestionSent (ps : list Pattern) (c : ActionCategory) (tool : string) : list Pattern :=
  (update_where (is_pattern c tool) sent_pattern ps).1.

Definition resetPattern (ps : list Pattern) (c : ActionCategory) (tool : string) : list Pattern :=
  (update_where (is_pattern c tool) zero_pattern ps).1.

Record Suggestion := mkSuggestion {
  sug_category : ActionCategory; sug_tool : string; sug_count : Z; sug_rule : PerActionOverride }.

Definition suggestion_of (p : Pattern) : Suggestion :=
  mkSuggestion (pat_category p) (pat_tool p) (consecutive_approvals p)
    (mkOverride (pat_category p) None true (Some false)).

Definition ready (threshold : Z) (p : Pattern) : bool :=
  (consecutive_approvals p >=? threshold) && negb (suggestion_sent p).

Definition count_desc (a b : Pattern) : bool := consecutive_approvals a >=? consecutive_approvals b.

Definition getSuggestions (threshold : Z) (ps : list Pattern) : list Suggestion :=
  map suggestion_of (sort_by count_desc (select_where (ready threshold) ps)).

(** ** Operations and the abstract machine of one pair *)

Inductive LearnOp :=
  | learn_record (id : string) (now : Z) (c : ActionCategory) (tool : string) (ok : bool)
  | learn_sent (c : ActionCategory) (tool : string)
  | learn_reset (c : ActionCategory) (tool : string).

Definition learn_step (ps : list Pattern) (o : LearnOp) : list Pattern :=
  match o with
  | learn_record id now c t ok => recordDecision ps id now c t ok
  | learn_sent c t => markSuggestionSent ps c t
  | learn_reset c t => resetPattern ps c t
  end.

Definition learn_run (os : list LearnOp) : list Pattern := foldl learn_step [] os.

(** [None] until the pair was first approved, then the consecutive approvals
    and whether they were already suggested. *)
Definition pair_step (c : ActionCategory) (t : string) (s : option (Z * bool)) (o : LearnOp)
  : option (Z * bool) :=
  match o with
  | learn_record _ _ c' t' ok =>
      if bool_decide (c' = c) && bool_decide (t' = t) then
        match s, ok with
        | Some (n, b), true => Some (n + 1, b)
        | None, true => Some (1, false)
        | Some _, false => Some (0, false)
        | None, false => None
        end
      else s
  | learn_sent c' t' =>
      if bool_decide (c' = c) && bool_decide (t' = t) then (fun x => (x.1, true)) <$> s else s
  | learn_reset c' t' =>
      if bool_decide (c' = c) && bool_decide (t' = t) then (fun _ => (0, false)) <$> s else s
  end.

Definition pair_run (c : ActionCategory) (t : string) (os : list LearnOp) : option (Z * bool) :=
  foldl (pair_step c t) None os.

(** Approvals of the pair since its last denial or reset. *)
Definition streak_step (c : ActionCategory) (t : string) (n : Z) (o : LearnOp) : Z :=
  match o with
  | learn_record _ _ c' t' ok =>
      if bool_decide (c' = c) && bool_decide (t' = t) then (if ok then n + 1 else 0) else n
  | learn_reset c' t' => if bool_decide (c' = c) && bool_decide (t' = t) then 0 else n
  | learn_sent _ _ => n
  end.

Definition streak (c : ActionCategory) (t : string) (os : list LearnOp) : Z :=
  foldl (streak_step c t) 0 os.

(** The pair's row read back. *)
Definition pair_of (p : Pattern) : Z * bool := (consecutive_approvals p, suggestion_sent p).
Definition lookup_pair (ps : list Pattern) (c : ActionCategory) (t : string) : option (Z * bool) :=
  pair_of <$> List.find (is_pattern c t) ps.

Definition pattern_key (p : Pattern) : ActionCategory * string := (pat_category p, pat_tool p).
Definition patterns_wf (ps : list Pattern) : Prop := List.NoDup (map pattern_key ps).

(** ** audit.ts *)

Inductive AuthorityDecisionType := audit_allowed | audit_denied | audit_approval_required.
Inductive ResolutionChannel := click | voice | system.

#[export] Instance AuthorityDecisionType_eq_dec : EqDecision AuthorityDecisionType.
Proof. solve_decision. Defined.

Record AuditEntry := mkAudit {
  aud_id : string;
  aud_agent_id : string;
  aud_agent_name : string;
  aud_tool_name : string;
  aud_category : ActionCategory;
  authority_decision : AuthorityDecisionType;
  approval_id : option string;
  aud_executed : bool;
  execution_time_ms : option Z;
  aud_created_at : Z;
  channel : option ResolutionChannel }.

(** [log]; the record is the argument and the generated id and the time are set here. *)
Definition log (trail : list AuditEntry) (id : string) (now : Z) (e : AuditEntry) : list AuditEntry :=
  trail ++ [mkAudit id (aud_agent_id e) (aud_agent_name e) (aud_tool_name e) (aud_category e)
              (authority_decision e) (approval_id e) (aud_executed e) (execution_time_ms e) now (channel e)].

Record AuditFilters := mkFilters {
  f_agentId : option string; f_action : option ActionCategory; f_tool : option string;
  f_decision : option AuthorityDecisionType; f_since : option Z; f_limit : option Z }.

(** A text filter applies when it is neither absent nor empty. *)
Definition text_filter (f : option string) (v : string) : bool :=
  match f with Some a => if truthy a then bool_decide (v = a) else true | None => true end.

(** [since] applies when it is neither absent nor zero. *)
Definition since_filter (since : option Z) (at_ : Z) : bool :=
  match since with Some s => if s =? 0 then true else at_ >=? s | None => true end.

Definition audit_match (f : AuditFilters) (e : AuditEntry) : bool :=
  text_filter (f_agentId f) (aud_agent_id e) &&
  match f_action f with Some a => bool_decide (aud_category e = a) | None => true end &&
  text_filter (f_tool f) (aud_tool_name e) &&
  match f_decision f with Some d => bool_decide (authority_decision e = d) | None => true end &&
  since_filter (f_since f) (aud_created_at e).

Definition newest_first (a b : AuditEntry) : bool := aud_created_at a >=? aud_created_at b.

(** SQLite's [LIMIT]; a negative one is no limit. *)
Definition limit_rows {A} (n : Z) (l : list A) : list A := if n <? 0 then l else take (Z.to_nat n) l.

Definition query (trail : list AuditEntry) (f : AuditFilters) : list AuditEntry :=
  limit_rows (f_limit f ?? 100) (sort_by newest_first (select_where (audit_match f) trail)).

Record AuditStats := mkStats {
  total : Z; n_allowed : Z; n_denied : Z; n_approvalRequired : Z; byCategory : list (ActionCategory * Z) }.

(** [SELECT key, COUNT( * ) ... GROUP BY key] over the keys that occur. *)
Definition group_count {K} `{EqDecision K} (key : AuditEntry -> K) (rows : list AuditEntry) : list (K * Z) :=
  map (fun k => (k, Z.of_nat (length (List.filter (fun e => bool_decide (key e = k)) rows))))
      (dedup (map key rows)).

Definition count_decision (d : AuthorityDecisionType) (totals : list (AuthorityDecisionType * Z)) (n : Z) : Z :=
  foldl (fun acc row => if bool_decide (row.1 = d) then row.2 else acc) n totals.

Definition getStats (trail : list AuditEntry) (since : option Z) : AuditStats :=
  let rows := select_where (fun e => since_filter since (aud_created_at e)) trail in
  let totals := group_count authority_decision rows in
  mkStats (foldl (fun acc row => acc + row.2) 0 totals)
    (count_decision audit_allowed totals 0) (count_decision audit_denied totals 0)
    (count_decision audit_approval_required totals 0)
    (group_count aud_category rows).

(** ** Lemmas on the learner *)

Lemma is_pattern_key c t p : is_pattern c t p = true <-> pattern_key p = (c, t).
Proof. unfold is_pattern, pattern_key. rewrite andb_true_iff, !bool_decide_eq_true. split; [intros [-> ->]; done|by intros [= -> ->]]. Qed.

Definition keeps_pattern (f : Pattern -> Pattern) : Prop := forall p, pattern_key (f p) = pattern_key p.

Definition same_pair (c c' : ActionCategory) (t t' : string) : bool := bool_decide (c' = c) && bool_decide (t' = t).

Lemma same_pair_spec c c' t t' : same_pair c c' t t' = true <-> (c', t') = (c, t).
Proof. unfold same_pair. rewrite andb_true_iff, !bool_decide_eq_true. split; [intros [-> ->]; done|by intros [= -> ->]]. Qed.

Lemma find_update c t c' t' f ps : keeps_pattern f ->
  List.find (is_pattern c t) (update_where (is_pattern c' t') f ps).1 =
  (fun p => if same_pair c c' t t' then f p else p) <$> List.find (is_pattern c t) ps.
Proof.
  intros Hf. simpl. induction ps as [|p ps IH]; simpl; [done|].
  assert (is_pattern c t (if is_pattern c' t' p then f p else p) = is_pattern c t p) as ->.
  { destruct (is_pattern c' t' p); [|done]. apply eq_true_iff_eq. by rewrite !is_pattern_key, Hf. }
  destruct (is_pattern c t p) eqn:E; [|done]. simpl. f_equal.
  apply is_pattern_key in E. destruct (is_pattern c' t' p) eqn:E'.
  - apply is_pattern_key in E'. rewrite E in E'. injection E' as -> ->.
    by rewrite (proj2 (same_pair_spec c' c' t' t') eq_refl).
  - destruct (same_pair c c' t t') eqn:Es; [|done]. apply same_pair_spec in Es as [= -> ->].
    apply is_pattern_key in E. congruence.
Qed.

Lemma update_pattern_keys c t f ps : keeps_pattern f ->
  map pattern_key (update_where (is_pattern c t) f ps).1 = map pattern_key ps.
Proof. intros Hf. simpl. rewrite map_map. apply map_ext. intros p. by destruct (is_pattern c t p). Qed.

Lemma changes_zero c t f ps : (update_where (is_pattern c t) f ps).2 = 0%nat <->
  List.find (is_pattern c t) ps = None.
Proof.
  simpl. split.
  - intros H. destruct (List.find (is_pattern c t) ps) as [p|] eqn:E; [|done].
    apply List.find_some, List.filter_In in E. destruct (List.filter (is_pattern c t) ps); simpl in *; done.
  - intros H. pose proof (proj2 (filter_nil_iff (is_pattern c t) ps) (List.find_none _ _ H)) as E. by rewrite E.
Qed.

Lemma lookup_update c t c' t' f g ps : keeps_pattern f -> (forall p, pair_of (f p) = g (pair_of p)) ->
  lookup_pair (update_where (is_pattern c' t') f ps).1 c t =
  (fun x => if same_pair c c' t t' then g x else x) <$> lookup_pair ps c t.
Proof.
  intros Hf Hg. unfold lookup_pair. rewrite find_update by done.
  destruct (List.find (is_pattern c t) ps) as [p|]; simpl; [|done]. by destruct (same_pair c c' t t'); rewrite ?Hg.
Qed.

(** One operation on the table is one step of every pair's machine. *)
Lemma learn_step_refines ps o c t :
  lookup_pair (learn_step ps o) c t = pair_step c t (lookup_pair ps c t) o.
Proof.
  destruct o as [id now c' t' ok|c' t'|c' t']; cbn [learn_step pair_step].
  - unfold recordDecision. fold (same_pair c c' t t'). destruct ok.
    + rewrite (surjective_pairing (update_where _ _ _)).
      destruct (_ =? 0)%nat eqn:E.
      * apply Nat.eqb_eq in E. rewrite update_none by done. apply changes_zero in E.
        unfold lookup_pair. rewrite find_app. cbn [List.find].
        unfold is_pattern at 2. cbn [pat_category pat_tool]. fold (same_pair c c' t t').
        destruct (same_pair c c' t t') eqn:Es; [apply same_pair_spec in Es as [= -> ->]; by rewrite E|].
        by destruct (List.find (is_pattern c t) ps).
      * rewrite (lookup_update _ _ _ _ _ (fun x => (x.1 + 1, x.2))) by done.
        destruct (same_pair c c' t t') eqn:Es; [apply same_pair_spec in Es as [= -> ->]|by destruct (lookup_pair ps c t)].
        destruct (lookup_pair ps c t) as [[n b]|] eqn:El; [done|]. unfold lookup_pair in El.
        apply Nat.eqb_neq in E. exfalso. apply E, changes_zero. by destruct (List.find (is_pattern c t) ps).
    + rewrite (lookup_update _ _ _ _ _ (fun _ => (0, false))) by done.
      destruct (lookup_pair ps c t) as [[n b]|], (same_pair c c' t t'); done.
  - unfold markSuggestionSent. rewrite (lookup_update _ _ _ _ _ (fun x => (x.1, true))) by done. fold (same_pair c c' t t').
    destruct (lookup_pair ps c t) as [[n b]|], (same_pair c c' t t'); done.
  - unfold resetPattern. rewrite (lookup_update _ _ _ _ _ (fun _ => (0, false))) by done. fold (same_pair c c' t t').
    destruct (lookup_pair ps c t) as [[n b]|], (same_pair c c' t t'); done.
Qed.

Lemma learn_step_wf ps o : patterns_wf ps -> patterns_wf (learn_step ps o).
Proof.
  unfold patterns_wf. intros H. destruct o as [id now c t ok|c t|c t];
    cbn [learn_step]; unfold markSuggestionSent, resetPattern; [|by rewrite update_pattern_keys..].
  unfold recordDecision. destruct ok; [|by rewrite update_pattern_keys].
  rewrite (surjective_pairing (update_where _ _ _)). destruct (_ =? 0)%nat eqn:E; [|by rewrite update_pattern_keys].
  apply Nat.eqb_eq in E. rewrite update_none by done. apply changes_zero in E.
  rewrite map_app. simpl. apply (NoDup_Add (a:=(c, t)) (l:=map pattern_key ps)).
  { rewrite <- (app_nil_r (map pattern_key ps)) at 1. apply Add_app. }
  split; [done|]. intros (p & Hp & Hin)%in_map_iff.
  pose proof (List.find_none _ _ E p Hin) as Hn. apply is_pattern_key in Hp. congruence.
Qed.

Lemma learn_run_snoc os o : learn_run (os ++ [o]) = learn_step (learn_run os) o.
Proof. unfold learn_run. by rewrite foldl_app. Qed.

Lemma learn_run_wf os : patterns_wf (learn_run os).
Proof.
  induction os as [|o os IH] using rev_ind; [constructor|]. rewrite learn_run_snoc. by apply learn_step_wf.
Qed.

Lemma learn_run_refines os c t : lookup_pair (learn_run os) c t = pair_run c t os.
Proof.
  induction os as [|o os IH] using rev_ind; [done|].
  rewrite learn_run_snoc, learn_step_refines, IH. unfold pair_run. by rewrite foldl_app.
Qed.

Lemma pair_run_streak c t os : (fst <$> pair_run c t os) ?? 0 = streak c t os.
Proof.
  induction os as [|o os IH] using rev_ind; [done|].
  unfold pair_run, streak in *. rewrite !foldl_app. simpl. rewrite <- IH.
  destruct o as [id now c' t' []|c' t'|c' t']; simpl; destruct (bool_decide (c' = c) && bool_decide (t' = t));
    destruct (foldl (pair_step c t) None os) as [[n b]|]; done.
Qed.

Lemma find_own ps p : patterns_wf ps -> In p ps -> List.find (is_pattern (pat_category p) (pat_tool p)) ps = Some p.
Proof.
  unfold patterns_wf. induction ps as [|q ps IH]; simpl; [done|]. intros [Hq Hps]%NoDup_cons_iff [->|Hin].
  - by rewrite (proj2 (is_pattern_key _ _ p) eq_refl).
  - destruct (is_pattern (pat_category p) (pat_tool p) q) eqn:E; [|auto].
    apply is_pattern_key in E. exfalso. apply Hq. rewrite E. by apply (in_map pattern_key) in Hin.
Qed.

(** ** Lemmas on counting *)

Definition sum_counts (l : list Z) : Z := foldr Z.add 0 l.

Lemma foldl_sum {K} (l : list (K * Z)) n : foldl (fun acc row => acc + row.2) n l = n + sum_counts (map snd l).
Proof. revert n. induction l as [|[k z] l IH]; intros n; simpl; [lia|]. rewrite IH. lia. Qed.

Section group_count.
Context {K : Type} `{EqDecision K} (key : AuditEntry -> K).

Definition count_key (k : K) (rows : list AuditEntry) : Z :=
  Z.of_nat (length (List.filter (fun e => bool_decide (key e = k)) rows)).

Lemma sum_indicator (ks : list K) k : List.NoDup ks -> In k ks ->
  sum_counts (map (fun k' => if bool_decide (k = k') then 1 else 0) ks) = 1.
Proof.
  induction ks as [|k' ks IH]; simpl; [done|]. intros [Hk Hks]%NoDup_cons_iff Hin.
  destruct (decide (k = k')) as [<-|Hne].
  - rewrite bool_decide_eq_true_2 by done.
    enough (sum_counts (map (fun k' => if bool_decide (k = k') then 1 else 0) ks) = 0) by lia.
    clear IH Hin Hks. induction ks as [|k2 ks IH]; simpl; [done|].
    rewrite bool_decide_eq_false_2 by (intros ->; apply Hk; by left). rewrite IH; [done|].
    intros ?. apply Hk. by right.
  - rewrite bool_decide_eq_false_2 by done. destruct Hin as [->|Hin]; [done|]. by rewrite IH.
Qed.

Lemma sum_map_add (f g : K -> Z) ks :
  sum_counts (map (fun k => f k + g k) ks) = sum_counts (map f ks) + sum_counts (map g ks).
Proof. induction ks as [|k ks IH]; simpl; [done|]. rewrite IH. lia. Qed.

(** The groups partition the rows. *)
Lemma group_count_total ks rows : List.NoDup ks -> (forall e, In e rows -> In (key e) ks) ->
  sum_counts (map (fun k => count_key k rows) ks) = Z.of_nat (length rows).
Proof.
  intros Hks. induction rows as [|e rows IH]; intros Hin.
  - unfold count_key. simpl. clear. induction ks; simpl; done.
  - transitivity (sum_counts (map (fun k => (if bool_decide (key e = k) then 1 else 0) + count_key k rows) ks)).
    { f_equal. apply map_ext. intros k. unfold count_key. simpl. destruct (bool_decide (key e = k)); simpl; lia. }
    rewrite sum_map_add, sum_indicator by (auto; apply Hin; by left).
    rewrite IH by (intros x Hx; apply Hin; by right). simpl length. lia.
Qed.

Lemma group_count_sum rows : sum_counts (map snd (group_count key rows)) = Z.of_nat (length rows).
Proof.
  unfold group_count. rewrite map_map. simpl. apply (group_count_total (dedup (map key rows)) rows).
  - apply dedup_NoDup.
  - intros e He. apply dedup_In. by apply in_map.
Qed.

Lemma group_count_In rows k n : In (k, n) (group_count key rows) <-> 0 < n /\ n = count_key k rows.
Proof.
  unfold group_count. rewrite in_map_iff. split.
  - intros (k' & [= -> <-] & Hk). split; [|done]. apply dedup_In, in_map_iff in Hk as (e & <- & He).
    assert (In e (List.filter (fun e' => bool_decide (key e' = key e)) rows)) as H
      by (apply List.filter_In; by rewrite bool_decide_eq_true_2).
    destruct (List.filter _ rows); simpl in *; [done|lia].
  - intros [Hn ->]. exists k. split; [done|]. apply dedup_In, in_map_iff. unfold count_key in Hn.
    destruct (List.filter (fun e => bool_decide (key e = k)) rows) as [|e l] eqn:E; [simpl in Hn; lia|].
    assert (In e (List.filter (fun e => bool_decide (key e = k)) rows)) as H by (rewrite E; by left).
    apply List.filter_In in H as [? ?%bool_decide_eq_true]. eauto.
Qed.
End group_count.

Lemma count_decision_spec d rows :
  count_decision d (group_count authority_decision rows) 0 = count_key authority_decision d rows.
Proof.
  unfold count_decision.
  assert (forall l n, List.NoDup (map fst l) ->
    foldl (fun acc (row : AuthorityDecisionType * Z) => if bool_decide (row.1 = d) then row.2 else acc) n l =
    match List.find (fun row => bool_decide (row.1 = d)) l with Some row => row.2 | None => n end) as H.
  { induction l as [|[k z] l IH]; intros n; simpl; [done|]. intros [Hk Hl]%NoDup_cons_iff.
    rewrite IH by done. destruct (bool_decide (k = d)) eqn:E; [|done].
    destruct (List.find _ l) as [[k' z']|] eqn:Ef; [|done].
    apply List.find_some in Ef as [Hin E']. simpl in E'. to_prop. subst.
    exfalso. apply Hk. apply in_map_iff. by exists (d, z'). }
  rewrite H by (unfold group_count; rewrite map_map; simpl; rewrite map_id; apply dedup_NoDup). clear H.
  destruct (List.find _ _) as [[k n]|] eqn:Ef.
  - apply List.find_some in Ef as [Hin E]. simpl in E. to_prop. subst.
    apply group_count_In in Hin as [_ ->]. done.
  - assert (~ 0 < count_key authority_decision d rows) as Hn.
    { intros Hp. pose proof (proj2 (group_count_In authority_decision rows d _) (conj Hp eq_refl)) as Hin.
      pose proof (List.find_none _ _ Ef _ Hin) as E. simpl in E. by rewrite bool_decide_eq_true_2 in E. }
    assert (0 <= count_key authority_decision d rows) by (unfold count_key; lia). lia.
Qed.

Lemma In_lookup ps c t n b : patterns_wf ps ->
  lookup_pair ps c t = Some (n, b) <->
  exists p, In p ps /\ pattern_key p = (c, t) /\ pair_of p = (n, b).
Proof.
  intros Hw. unfold lookup_pair. split.
  - destruct (List.find (is_pattern c t) ps) as [p|] eqn:E; [|done]. intros [= <- <-].
    apply List.find_some in E as [Hin Hp%is_pattern_key]. exists p. done.
  - intros (p & Hin & Hk & Hp). pose proof (find_own ps p Hw Hin) as Hf. injection Hk as <- <-.
    by rewrite Hf; simpl; rewrite Hp.
Qed.

Lemma limit_rows_length {A} n (l : list A) : 0 <= n -> Z.of_nat (length (limit_rows n l)) <= n.
Proof.
  intros Hn. unfold limit_rows. destruct (n <? 0) eqn:E; to_prop; [lia|]. rewrite length_take. lia.
Qed.

Lemma limit_rows_split {A} n (l : list A) : exists rest, l = limit_rows n l ++ rest.
Proof.
  unfold limit_rows. destruct (n <? 0); [exists []; by rewrite app_nil_r|].
  exists (drop (Z.to_nat n) l). by rewrite take_drop.
Qed.

Lemma sorted_app_le {A} (R : A -> A -> Prop) l1 l2 x y :
  StronglySorted R (l1 ++ l2) -> In x l1 -> In y l2 -> R x y.
Proof.
  induction l1 as [|a l1 IH]; simpl; [done|]. inversion 1 as [|? ? Hs Hall]; subst.
  intros [->|Hx] Hy; [|by apply IH]. rewrite List.Forall_forall in Hall. apply Hall, in_app_iff. by right.
Qed.

(** ** Properties *)

(** The learner implements its abstract machine. After any sequence of
    recorded decisions, sent marks and resets, over all tools interleaved, the
    row of a (category, tool) pair is exactly the state of that pair's own
    machine: its counter is the number of approvals since the last denial or
    reset of the pair. The suggestions offered are then exactly the pairs
    whose streak reached the threshold and were not suggested since, each once,
    and each suggested rule is a global unconditional allow of the category. *)
Theorem learner_refines threshold os :
  0 < threshold ->
  (forall c t, lookup_pair (learn_run os) c t = pair_run c t os /\
               (fst <$> pair_run c t os) ?? 0 = streak c t os) /\
  (forall s, In s (getSuggestions threshold (learn_run os)) <->
     threshold <= streak (sug_category s) (sug_tool s) os /\
     pair_run (sug_category s) (sug_tool s) os = Some (streak (sug_category s) (sug_tool s) os, false) /\
     sug_count s = streak (sug_category s) (sug_tool s) os /\
     sug_rule s = mkOverride (sug_category s) None true (Some false)) /\
  List.NoDup (map (fun s => (sug_category s, sug_tool s)) (getSuggestions threshold (learn_run os))).
Proof.
  intros Hth. pose proof (learn_run_wf os) as Hw. split_and!.
  - intros c t. split; [apply learn_run_refines|apply pair_run_streak].
  - intros s. unfold getSuggestions, select_where. rewrite in_map_iff. split.
    + intros (p & <- & Hp). rewrite sort_by_In, List.filter_In in Hp. destruct Hp as [Hin Hr].
      unfold ready in Hr. apply andb_true_iff in Hr as [Hn%Z.geb_le Hs%negb_true_iff].
      assert (lookup_pair (learn_run os) (pat_category p) (pat_tool p) = Some (pair_of p)) as Hl.
      { unfold lookup_pair. by rewrite find_own. }
      rewrite learn_run_refines in Hl. pose proof (pair_run_streak (pat_category p) (pat_tool p) os) as Hk.
      rewrite Hl in Hk. simpl in *. unfold pair_of in *. simpl in *. rewrite <- Hk. rewrite Hl, Hs. done.
    + intros (Hn & Hp & Hc & Hr). rewrite <- learn_run_refines in Hp.
      apply (In_lookup _ _ _ _ _ Hw) in Hp as (p & Hin & [= Hk1 Hk2] & [= Hp1 Hp2]).
      exists p. split.
      * unfold suggestion_of. rewrite Hk1, Hk2, Hp1, <- Hc, <- Hr. by destruct s.
      * rewrite sort_by_In, List.filter_In. split; [done|]. unfold ready. rewrite Hp2, Hp1.
        rewrite andb_true_iff, Z.geb_le. done.
  - unfold getSuggestions, select_where. rewrite map_map. simpl.
    eapply Permutation_NoDup; [|apply (filter_NoDup_map pattern_key (ready threshold) _ Hw)].
    apply Permutation_map. symmetry. apply sort_by_perm.
Qed.

Lemma learner_refines_witness :
  let os := [learn_record "p1" 1 write_data "write_file" true; learn_record "p2" 2 send_email "mail" true;
             learn_record "p3" 3 write_data "write_file" true; learn_record "p4" 4 send_email "mail" false] in
  (forall c t, lookup_pair (learn_run os) c t = pair_run c t os) /\
  map sug_tool (getSuggestions 2 (learn_run os)) = ["write_file"].
Proof.
  cbn zeta. split; [|by vm_compute]. intros c t.
  refine (proj1 (proj1 (learner_refines 2 [learn_record "p1" 1 write_data "write_file" true;
    learn_record "p2" 2 send_email "mail" true; learn_record "p3" 3 write_data "write_file" true;
    learn_record "p4" 4 send_email "mail" false] _) c t)). lia.
Defined.

(** The audit trail's statistics are exact. The total is the number of
    rows in the window and splits into the three decisions; each category
    listed carries its own count, the listed counts add up to the total and a
    category is listed exactly when it occurs. A query returns matching rows
    only, newest first, at most the limit, and every matching row it leaves out
    is no newer than the ones it returns. *)
Theorem audit_stats_exact trail since f :
  let rows := select_where (fun e => since_filter since (aud_created_at e)) trail in
  let st := getStats trail since in
  total st = Z.of_nat (length rows) /\
  total st = n_allowed st + n_denied st + n_approvalRequired st /\
  sum_counts (map snd (byCategory st)) = total st /\
  (forall c n, In (c, n) (byCategory st) <-> 0 < n /\ n = count_key aud_category c rows) /\
  (forall e, In e (query trail f) -> In e trail /\ audit_match f e = true) /\
  (0 <= f_limit f ?? 100 -> Z.of_nat (length (query trail f)) <= f_limit f ?? 100) /\
  exists rest, Permutation (select_where (audit_match f) trail) (query trail f ++ rest) /\
    forall e e', In e (query trail f) -> In e' rest -> aud_created_at e' <= aud_created_at e.
Proof.
  cbn zeta. set (rows := select_where _ trail). unfold getStats. fold rows. cbn [total n_allowed n_denied n_approvalRequired byCategory].
  rewrite !count_decision_spec, foldl_sum, !group_count_sum, Z.add_0_l.
  destruct (limit_rows_split (f_limit f ?? 100) (sort_by newest_first (select_where (audit_match f) trail))) as [rest Hrest].
  split_and!.
  - done.
  - pose proof (group_count_total authority_decision
      [audit_allowed; audit_denied; audit_approval_required] rows) as H. simpl in H. rewrite <- H; [lia| |].
    + repeat constructor; simpl; naive_solver.
    + intros e _. destruct (authority_decision e); simpl; tauto.
  - done.
  - intros c n. apply group_count_In.
  - intros e He. assert (In e (select_where (audit_match f) trail)) as H.
    { rewrite <- (sort_by_In newest_first), Hrest. apply in_app_iff. by left. }
    unfold select_where in H. by apply List.filter_In in H.
  - intros Hn. by apply limit_rows_length.
  - exists rest. split; [unfold query; rewrite <- Hrest; symmetry; apply sort_by_perm|].
    intros e e' He He'. pose proof (sort_by_sorted newest_first) as Hs.
    assert (newest_first e e' = true) as H.
    { eapply (sorted_app_le (fun a b => newest_first a b = true)); [|exact He|exact He'].
      unfold query. rewrite <- Hrest. apply Hs; unfold newest_first; intros; rewrite ?Z.geb_le in *; lia. }
    unfold newest_first in H. by apply Z.geb_le in H.
Qed.
