(* ===== verification/Executor.v ===== *)
(** * Execution of approved requests (authority/deferred-executor.ts,
    daemon/approval-decision.ts, authority/approval-delivery.ts)

    [executeApprovedWithReceipt] awaits the tool, so it is two steps:
    [execute_approved_begin] runs up to the call of the tool's body and
    [execute_approved_finish] runs when the body has settled; any other
    operation of the daemon can happen in between. [parse_error] is the text of
    the error [JSON.parse] throws. Database calls succeed; a row's arguments
    are the JSON object [createRequest] wrote (any other JSON value is read as
    an object without properties); the result callback does not throw. *)
From S2P Require Export Approval Learner.

(** [s.slice(0, n)] of the texts kept in receipts, and the phrase written by
    the level substitution of the orchestrator. *)
Definition ABOVE_LEVEL_SUBSTITUTION : string := "is above this agent's authority level".

(** The managers the executor is wired to. *)
Record World := mkWorld {
  mgr : Manager;
  trail : list AuditEntry;
  patterns : list Pattern;
  has_learner : bool;
  emergency : option EmergencyState;
  toolRegistry : option nat;
  notified : list (string * string) }.

Definition with_mgr (w : World) (m : Manager) : World :=
  mkWorld m (trail w) (patterns w) (has_learner w) (emergency w) (toolRegistry w) (notified w).
Definition with_trail (w : World) (t : list AuditEntry) : World :=
  mkWorld (mgr w) t (patterns w) (has_learner w) (emergency w) (toolRegistry w) (notified w).
Definition with_patterns (w : World) (p : list Pattern) : World :=
  mkWorld (mgr w) (trail w) p (has_learner w) (emergency w) (toolRegistry w) (notified w).
Definition notify (w : World) (id result : string) : World :=
  mkWorld (mgr w) (trail w) (patterns w) (has_learner w) (emergency w) (toolRegistry w)
    (notified w ++ [(id, result)]).

(** How a call stands when the synchronous part is over: an answer
    ([claimed] and the text), or a dispatched tool body. *)
Inductive Begun :=
  | finished (claimed : bool) (result : string)
  | dispatched (r : ApprovalRequest) (reg : nat) (tool : ToolDefinition) (args : params).

Definition recordLearned (w : World) (id : string) (now : Z) (c : ActionCategory) (tool : string) (ok : bool)
  : World :=
  if has_learner w then with_patterns w (recordDecision (patterns w) id now c tool ok) else w.

(** Close a claimed request with a receipt and tell the listener. *)
Definition close_out (w : World) (id result : string) (o : ApprovalReceiptOutcome) (now : Z) : World :=
  notify (with_mgr w (markExecuted (mgr w) id result o now).1) id result.

Definition system_blocked (s : EmergencyState) (tool : string) : string :=
  "[SYSTEM " +:+ to_upper (state_name s) +:+ "] Approved action " +:+ tool +:+
  " was NOT executed: all tool execution is suspended because the user has " +:+ state_name s +:+ " the system.".

(** The text for [executionState] in the message of a lost claim. *)
Definition outcome_name (o : ApprovalExecutionOutcome) : string :=
  match o with
  | committed => "committed" | failed => "failed" | blocked => "blocked"
  | not_started => "not_started" | unknown => "unknown" | closed => "closed"
  end.

Definition execution_state_name (s : ApprovalExecutionState) : string :=
  match s with
  | st_pending => "pending" | st_denied => "denied" | st_expired => "expired"
  | st_awaiting_execution => "awaiting_execution" | st_in_flight => "in_flight"
  | st_outcome o => outcome_name o
  end.

Definition args_of (v : json) : params := match v with JObj fields => fields | _ => [] end.

Section executor.
Context (registries : nat -> ToolRegistry) (guards : nat -> option bool)
        (parse_error : string -> string) (fence : option string).

Definition execution_error (w : World) (r : ApprovalRequest) (msg : string) (now : Z) : World * Begun :=
  let err := "Error executing " +:+ req_tool_name r +:+ ": " +:+ msg in
  (close_out w (req_id r) err receipt_failed now, finished true err).

(** The body of the [try], up to the awaited call. *)
Definition dispatch_approved (w : World) (r : ApprovalRequest) (reg0 : nat) (now : Z) : World * Begun :=
  match parse (tool_arguments r) with
  | None => execution_error w r (parse_error (tool_arguments r)) now
  | Some v =>
      let args := args_of v in
      let registry := match rawUiGate (req_tool_name r) args with
                      | Some _ => getUiExecutionRegistry registries guards (mgr w) r
                      | None => Some reg0
                      end in
      let gate := resolveToolGate (registry ≫= fun k => get (registries k) (req_tool_name r))
                    (req_tool_name r) args in
      if bool_decide (confirm gate = Some confirm_always) && negb (approvalNeedsClick (context r))
      then
        let text := "Approved action " +:+ req_tool_name r +:+
          " was NOT executed: this approval predates the required UI review. Request a fresh dashboard review." in
        (close_out w (req_id r) text receipt_blocked now, finished true text)
      else
        match registry with
        | None =>
            let text := "Approved action " +:+ req_tool_name r +:+
              " was NOT executed: its original UI session or reviewed subject is no longer available. Take a fresh snapshot and request a fresh review." in
            (close_out w (req_id r) text receipt_blocked now, finished true text)
        | Some k =>
            match execute_begin (registries k) (req_tool_name r) args fence with
            | inl e => execution_error w r (error_message e) now
            | inr t => (w, dispatched r k t args)
            end
        end
  end.

Definition execute_approved_begin (w : World) (id claimedBy : string) (now : Z) : World * Begun :=
  match getRequest (mgr w) id with
  | None => (w, finished false ("Error: Request " +:+ id +:+ " not found or not in approved state"))
  | Some r =>
      if negb (has_status approved r)
      then (w, finished false ("Error: Request " +:+ id +:+ " not found or not in approved state"))
      else if has_mode workflow r
      then (w, finished false "Workflow-owned approval: execution must resume through its recorded effect boundary")
      else match toolRegistry w with
      | None => (w, finished false "Error: No tool registry configured")
      | Some reg0 =>
          let '(m1, claimed) := claimExecution (mgr w) id claimedBy now in
          let w1 := with_mgr w m1 in
          if negb claimed
          then (w1, finished false
            ("Error: Request " +:+ id +:+ " was already taken for execution (" +:+
             match getRequest m1 id with Some c => execution_state_name (executionState c) | None => "missing" end +:+
             "); check its receipt before deciding on another run"))
          else
            match emergency w with
            | Some s =>
                if negb (canExecute s)
                then
                  let text := system_blocked s (req_tool_name r) in
                  (close_out w1 id text receipt_blocked now, finished true text)
                else dispatch_approved w1 r reg0 now
            | None => dispatch_approved w1 r reg0 now
            end
      end
  end.

(** Approvals that may teach the learner. *)
Definition learnable (reason : string) : bool :=
  negb (str_includes TAINT_PROFILE_LABEL reason) && negb (str_includes ABOVE_LEVEL_SUBSTITUTION reason).

(** What runs when the tool's body has settled: the text for the caller. *)
Definition execute_approved_finish (w : World) (r : ApprovalRequest) (o : ToolOutcome)
    (audit_id pattern_id : string) (now elapsed : Z) : World * string :=
  match execute_finish (req_tool_name r) o with
  | inr raw =>
      let result := match raw with JStr s => s | _ => stringify raw end in
      let w1 := with_mgr w (markExecuted (mgr w) (req_id r) (stake 2000 result) receipt_committed now).1 in
      let w2 := with_trail w1 (log (trail w1) audit_id now
        (mkAudit EmptyString (agent_id r) (agent_name r) (req_tool_name r) (action_category r)
           audit_approval_required (Some (req_id r)) true (Some elapsed) 0 None)) in
      let w3 := if learnable (req_reason r)
                then recordLearned w2 pattern_id now (action_category r) (req_tool_name r) true else w2 in
      (notify w3 (req_id r) result, result)
  | inl e =>
      let err := "Error executing " +:+ req_tool_name r +:+ ": " +:+ error_message e in
      (close_out w (req_id r) err receipt_failed now, err)
  end.

(** The whole call when nothing else runs while the tool does; [run] is what
    the tool's body does. *)
Definition executeApprovedWithReceipt (run : ToolDefinition -> params -> ToolOutcome) (w : World)
    (id claimedBy audit_id pattern_id : string) (now : Z) : World * (bool * string) :=
  match execute_approved_begin w id claimedBy now with
  | (w1, finished c text) => (w1, (c, text))
  | (w1, dispatched r _ t args) =>
      let '(w2, text) := execute_approved_finish w1 r (run t args) audit_id pattern_id now 0 in
      (w2, (true, text))
  end.

Definition recordDenial (w : World) (r : ApprovalRequest) (pattern_id : string) (now : Z) : World :=
  recordLearned w pattern_id now (action_category r) (req_tool_name r) false.

(** ** approval-decision.ts *)

Inductive ApprovalDecisionOutcome :=
  | already_decided
  | decision_approved (ran : bool) (result : string) (r : ApprovalRequest)
  | decision_denied (r : ApprovalRequest).

Definition applyApprovalDecision (run : ToolDefinition -> params -> ToolOutcome) (w : World)
    (is_approve : bool) (id decidedBy audit_id pattern_id : string) (now : Z)
  : World * ApprovalDecisionOutcome :=
  if is_approve then
    match approve (mgr w) id decidedBy now with
    | (m1, None) => (with_mgr w m1, already_decided)
    | (m1, Some r) =>
        let w1 := with_mgr w m1 in
        let '(w2, (ran, result)) :=
          if negb (bool_decide (req_tool_name r = "request_approval")) && has_mode deferred r
          then let '(w', (_, text)) := executeApprovedWithReceipt run w1 id decidedBy audit_id pattern_id now in
               (w', (true, text))
          else (w1, (false, EmptyString)) in
        (w2, decision_approved ran result (getRequest (mgr w2) id ?? r))
    end
  else
    match deny (mgr w) id decidedBy now with
    | (m1, None) => (with_mgr w m1, already_decided)
    | (m1, Some r) => (recordDenial (with_mgr w m1) r pattern_id now, decision_denied r)
    end.

Inductive ExecutionResolutionOutcome :=
  | not_unresolved
  | not_executable (why : string)
  | resolution_executed (result : string) (r : ApprovalRequest)
  | resolution_closed (r : ApprovalRequest).

Definition applyExecutionResolution (run : ToolDefinition -> params -> ToolOutcome) (w : World)
    (is_execute : bool) (id resolvedBy : string) (note : option string) (audit_id pattern_id : string) (now : Z)
  : World * ExecutionResolutionOutcome :=
  match getRequest (mgr w) id with
  | None => (w, not_unresolved)
  | Some current =>
      if negb (UNRESOLVED current) then (w, not_unresolved)
      else if negb is_execute then
        match closeUnresolved (mgr w) id resolvedBy note now with
        | (m1, false) => (with_mgr w m1, not_unresolved)
        | (m1, true) => (with_mgr w m1, resolution_closed (getRequest m1 id ?? current))
        end
      else if has_outcome unknown current
      then (w, not_executable "The earlier attempt was interrupted and may have run. Check what happened, then close it.")
      else if bool_decide (req_tool_name current = "request_approval")
      then (w, not_executable "An intent grant has nothing to run on its own; the conversation that asked for it is gone. Close it.")
      else
        let '(w1, (claimed, result)) := executeApprovedWithReceipt run w id resolvedBy audit_id pattern_id now in
        let updated := getRequest (mgr w1) id ?? current in
        if negb claimed
        then (w1, not_executable ("Another surface took this approval first (" +:+
               (outcome_name <$> execution_outcome updated) ?? "in flight" +:+
               "); its receipt will say what happened."))
        else (w1, resolution_executed result updated)
  end.
End executor.

(** ** approval-delivery.ts *)

Definition formatApprovalMessage (r : ApprovalRequest) : string :=
  let shortId := stake 8 (req_id r) in
  join newline
    ["[APPROVAL NEEDED]";
     "Action: " +:+ req_tool_name r +:+ " (" +:+ category_name (action_category r) +:+ ")";
     "Agent: " +:+ agent_name r;
     "Reason: " +:+ req_reason r;
     EmptyString;
     "Reply with:";
     "  approve " +:+ shortId;
     "  deny " +:+ shortId].

(** ** Interleavings *)

(** The events of a running daemon: an execution of an approved request starts
    or settles, or any operation of the approval manager runs. Each start
    brings the environment of its moment: the registries, the guards, the
    fence and the emergency state. *)
Inductive ExecEvent :=
  | ev_begin (id claimedBy : string) (now : Z) (registries : nat -> ToolRegistry) (guards : nat -> option bool)
      (fence : option string) (s : option EmergencyState)
  | ev_finish (r : ApprovalRequest) (o : ToolOutcome) (audit_id pattern_id : string) (now elapsed : Z)
  | ev_op (o : ApprovalOp).

Definition with_emergency (w : World) (s : option EmergencyState) : World :=
  mkWorld (mgr w) (trail w) (patterns w) (has_learner w) s (toolRegistry w) (notified w).

Section events.
Context (parse_error : string -> string) (registries : nat -> ToolRegistry).

(** The state after an event and the id of the request it dispatched, if any. *)
Definition exec_event (w : World) (e : ExecEvent) : World * option string :=
  match e with
  | ev_begin id by_ now regs guards fence s =>
      match execute_approved_begin regs guards parse_error fence (with_emergency w s) id by_ now with
      | (w', dispatched r _ _ _) => (w', Some (req_id r))
      | (w', finished _ _) => (w', None)
      end
  | ev_finish r o a p now elapsed => ((execute_approved_finish w r o a p now elapsed).1, None)
  | ev_op o => (with_mgr w (approval_step registries (mgr w) o).1, None)
  end.

Fixpoint exec_events (w : World) (es : list ExecEvent) : World * list (option string) :=
  match es with
  | [] => (w, [])
  | e :: es' =>
      let '(w1, d) := exec_event w e in
      let '(w2, ds) := exec_events w1 es' in (w2, d :: ds)
  end.
End events.

Definition dispatches (id : string) (ds : list (option string)) : nat :=
  length (List.filter (fun d => bool_decide (d = Some id)) ds).

(** ** Lemmas *)

Lemma args_of_stringify ps : parse (stringify (JObj ps)) = Some (JObj ps) /\ args_of (JObj ps) = ps.
Proof. by rewrite parse_stringify. Qed.

Lemma claim_ui m id by_ now : uiExecutions (claimExecution m id by_ now).1 = uiExecutions m /\
  bootId (claimExecution m id by_ now).1 = bootId m.
Proof. unfold claimExecution. by rewrite (surjective_pairing (update_where _ _ _)). Qed.

Section executor_lemmas.
Context (registries : nat -> ToolRegistry) (guards : nat -> option bool)
        (parse_error : string -> string) (fence : option string).
Notation begin := (execute_approved_begin registries guards parse_error fence).
Notation dispatch := (dispatch_approved registries guards parse_error fence).

(** The outcomes of the synchronous part of an execution. *)
Lemma dispatch_cases w r reg0 now w' b : dispatch w r reg0 now = (w', b) ->
  (exists text o, b = finished true text /\ o <> receipt_committed /\ w' = close_out w (req_id r) text o now) \/
  (exists k t args v, b = dispatched r k t args /\ w' = w /\ parse (tool_arguments r) = Some v /\ args = args_of v /\
     execute_begin (registries k) (req_tool_name r) args fence = inr t /\
     match rawUiGate (req_tool_name r) args with
     | Some _ => getUiExecutionRegistry registries guards (mgr w) r = Some k
     | None => k = reg0
     end /\
     (confirm (resolveToolGate (get (registries k) (req_tool_name r)) (req_tool_name r) args) = Some confirm_always ->
        approvalNeedsClick (context r) = true)).
Proof.
  unfold dispatch_approved, execution_error. destruct (parse (tool_arguments r)) as [v|];
    [|intros [= <- <-]; left; by eexists _, receipt_failed].
  cbn zeta. set (args := args_of v). set (k0 := match rawUiGate _ _ with Some _ => _ | None => _ end).
  destruct (bool_decide _ && negb _) eqn:Ec; [intros [= <- <-]; left; by eexists _, receipt_blocked|].
  destruct k0 as [k|] eqn:Ek; [|intros [= <- <-]; left; by eexists _, receipt_blocked].
  destruct (execute_begin _ _ _ _) as [e|t] eqn:Ee; intros [= <- <-]; [left; by eexists _, receipt_failed|].
  right. exists k, t, args, v. split_and!; try done.
  - unfold k0 in Ek. by destruct (rawUiGate _ _); simplify_eq.
  - intros Hc. cbn [mbind option_bind] in Ec. rewrite Hc, bool_decide_eq_true_2 in Ec by done.
    by destruct (approvalNeedsClick _).
Qed.

(** The same for the whole synchronous part. *)
Lemma begin_cases w id by_ now w' b : keyed (rows (mgr w)) -> begin w id by_ now = (w', b) ->
  (exists text, b = finished false text /\ w' = w) \/
  exists r reg0, getRequest (mgr w) id = Some r /\ claimable r = true /\ execution_mode r <> workflow /\
    toolRegistry w = Some reg0 /\ (claimExecution (mgr w) id by_ now).2 = true /\
    ((exists s text, emergency w = Some s /\ canExecute s = false /\ b = finished true text /\
        w' = close_out (with_mgr w (claimExecution (mgr w) id by_ now).1) id text receipt_blocked now) \/
     ((emergency w = None \/ emergency w = Some normal) /\
      dispatch (with_mgr w (claimExecution (mgr w) id by_ now).1) r reg0 now = (w', b))).
Proof.
  intros Hk. unfold execute_approved_begin.
  destruct (getRequest (mgr w) id) as [r|] eqn:Er; [|intros [= <- <-]; left; eauto].
  destruct (has_status approved r) eqn:Es; cbn [negb]; [|intros [= <- <-]; left; eauto].
  destruct (has_mode workflow r) eqn:Em; [intros [= <- <-]; left; eauto|].
  destruct (toolRegistry w) as [reg0|] eqn:Et; [|intros [= <- <-]; left; eauto].
  pose proof (claim_failure (mgr w) id by_ now Hk) as Hfail. pose proof (claim_success (mgr w) id by_ now Hk) as Hsucc.
  destruct (claimExecution (mgr w) id by_ now) as [m1 c]. cbn [fst snd] in *.
  destruct c; cbn [negb].
  - destruct (Hsucc eq_refl) as (r' & Hr' & Hcl & _).
    unfold getRequest in Er. rewrite Er in Hr'. injection Hr' as <-.
    unfold has_mode in Em. apply bool_decide_eq_false in Em.
    destruct (emergency w) as [s|] eqn:Ee; [destruct (canExecute s) eqn:Ex; cbn [negb]|].
    + intros H. right. exists r, reg0. split_and!; try done. right. split; [|done].
      right. unfold canExecute in Ex. apply bool_decide_eq_true in Ex. by subst.
    + intros [= <- <-]. right. exists r, reg0. split_and!; try done. left. by eexists s, _.
    + intros H. right. exists r, reg0. split_and!; try done. right. split; [by left|done].
  - intros [= <- <-]. left. eexists. split; [done|].
    rewrite (Hfail eq_refl). by destruct w.
Qed.

(** Every change a start makes to the approvals is a claim and receipts. *)
Lemma begin_run w id by_ now w' b : keyed (rows (mgr w)) -> begin w id by_ now = (w', b) ->
  exists os, mgr w' = (approval_run registries (mgr w) os).1.
Proof.
  intros Hk H. apply (begin_cases _ _ _ _ _ _ Hk) in H as
    [(text & _ & ->)|(r & reg0 & Hr & _ & _ & _ & _ & [(s & text & _ & _ & _ & ->)|[_ H]])].
  - by exists [].
  - exists [op_claim id by_ now; op_mark id text receipt_blocked now]. rewrite !run_cons. done.
  - apply dispatch_cases in H as [(text & o & _ & _ & ->)|(k & t & args & v & _ & -> & _)].
    + exists [op_claim id by_ now; op_mark (req_id r) text o now]. rewrite !run_cons. done.
    + exists [op_claim id by_ now]. rewrite !run_cons. done.
Qed.
End executor_lemmas.

Lemma finish_mgr w r o a p now elapsed :
  exists res oc, mgr (execute_approved_finish w r o a p now elapsed).1 =
    (markExecuted (mgr w) (req_id r) res oc now).1 /\
    (oc = receipt_committed <-> exists v, o = Returned v).
Proof.
  unfold execute_approved_finish. destruct o as [v|m|m]; cbn [execute_finish].
  - eexists _, receipt_committed. split; [|split; eauto].
    unfold recordLearned, with_patterns, with_trail, notify. cbn [mgr fst].
    destruct (learnable _); [|done]. cbn [has_learner]. by destruct (has_learner _).
  - eexists _, receipt_failed. split; [done|split; [done|intros [v [=]]]].
  - eexists _, receipt_failed. split; [done|split; [done|intros [v [=]]]].
Qed.

(** Writing a receipt on a row that is still approved, or already closed. *)
Lemma mark_executes m id res o now r : keyed (rows m) -> getRequest m id = Some r ->
  req_status r = approved \/ req_status r = executed ->
  exists r', getRequest (markExecuted m id res o now).1 id = Some r' /\ req_status r' = executed /\
    (req_status r = approved -> execution_outcome r' = Some (outcome_of_receipt o) /\ execution_result r' = Some res) /\
    (req_status r = executed -> r' = r).
Proof.
  intros Hk Hr Hs. unfold getRequest in *. rewrite mark_rows, get_row_update_key, Hr by apply _. simpl.
  unfold has_status. destruct Hs as [Hs|Hs]; rewrite Hs; simpl; eexists; split_and!; done.
Qed.

Section event_lemmas.
Context (parse_error : string -> string) (registries : nat -> ToolRegistry).
Notation event := (exec_event parse_error registries).
Notation events := (exec_events parse_error registries).

Lemma event_run w e : manager_wf (mgr w) ->
  exists regs os, mgr (event w e).1 = (approval_run regs (mgr w) os).1.
Proof.
  intros [Hk _]. destruct e as [id by_ now regs guards fence s|r o a p now el|o]; cbn [exec_event].
  - destruct (execute_approved_begin _ _ _ _ _ _ _ _) as [w' b] eqn:E.
    apply begin_run in E as [os Hos]; [|done]. exists regs, os. destruct b; exact Hos.
  - destruct (finish_mgr w r o a p now el) as (res & oc & E & _).
    exists registries, [op_mark (req_id r) res oc now]. rewrite run_cons. exact E.
  - exists registries, [o]. rewrite run_cons. done.
Qed.

Lemma event_dispatch w e id : manager_wf (mgr w) -> (event w e).2 = Some id ->
  exists r r', getRequest (mgr w) id = Some r /\ execution_claimed_at r = None /\
    getRequest (mgr (event w e).1) id = Some r' /\ is_null (execution_claimed_at r') = false.
Proof.
  intros [Hk _]. destruct e as [id0 by_ now regs guards fence s|r o a p now el|o]; cbn [exec_event]; try done.
  destruct (execute_approved_begin _ _ _ _ _ _ _ _) as [w' b] eqn:E.
  destruct b as [c text|r k t args]; [done|]. intros [= <-].
  apply begin_cases in E as [(text & ? & _)|(r0 & reg0 & Hr & _ & _ & _ & Hc & [(s' & text & _ & _ & ? & _)|[_ E]])];
    try done.
  apply dispatch_cases in E as [(text & o & ? & _)|(k' & t' & args' & v & [= -> -> -> ->] & -> & _)]; [done|].
  apply get_row_Some in Hr as Hid. destruct Hid as [_ Hid]. change (req_id r0 = id0) in Hid. rewrite Hid.
  destruct (claim_success _ _ _ _ Hk Hc) as (r1 & Hr1 & (_ & Hcl & _)%claimable_spec & Hr2).
  eexists r1, _. split_and!; [exact Hr1|done|exact Hr2|done].
Qed.

Lemma events_cons w e es : events w (e :: es) = ((events (event w e).1 es).1, (event w e).2 :: (events (event w e).1 es).2).
Proof. cbn [exec_events]. destruct (event w e) as [w1 d]. simpl. by destruct (events w1 es). Qed.

Lemma event_wf w e : manager_wf (mgr w) -> manager_wf (mgr (event w e).1).
Proof. intros H. destruct (event_run w e H) as (regs & os & ->). by apply run_wf. Qed.

(** The potential argument: a dispatch turns an unclaimed row into a claimed one. *)
Lemma dispatches_bounded w es id : manager_wf (mgr w) ->
  (dispatches id (events w es).2 +
   (if match getRequest (mgr w) id with Some r => negb (is_null (execution_claimed_at r)) | None => false end
    then 1 else 0) <= 1)%nat.
Proof.
  revert w. induction es as [|e es IH]; intros w Hw.
  { simpl. by destruct (match getRequest (mgr w) id with Some r => _ | None => false end); lia. }
  rewrite events_cons. unfold dispatches. cbn [snd List.filter].
  specialize (IH _ (event_wf w e Hw)). unfold dispatches in IH.
  destruct (bool_decide ((event w e).2 = Some id)) eqn:Ed.
  - apply bool_decide_eq_true in Ed. destruct (event_dispatch w e id Hw Ed) as (r & r' & Hr & Hc & Hr' & Hc').
    rewrite Hr, Hc. rewrite Hr', Hc' in IH. simpl in *. lia.
  - destruct (getRequest (mgr w) id) as [r|] eqn:Er; [|lia].
    destruct (event_run w e Hw) as (regs & os & Eq).
    destruct (run_get regs (mgr w) os id r Er) as (r' & Hr' & (_ & _ & _ & _ & Hcl)%evolves_facts).
    rewrite <- Eq in Hr'. change (get_row id (rows (mgr (event w e).1))) with (getRequest (mgr (event w e).1) id) in Hr'.
    rewrite Hr' in IH. destruct (is_null (execution_claimed_at r)) eqn:En; simpl; [lia|].
    destruct (Hcl eq_refl) as (Ec & _). rewrite Ec, En in IH. simpl in IH. lia.
Qed.
End event_lemmas.

Lemma events_get parse_error registries w es id r : manager_wf (mgr w) -> getRequest (mgr w) id = Some r ->
  exists r', getRequest (mgr (exec_events parse_error registries w es).1) id = Some r' /\ evolves r r'.
Proof.
  revert w r. induction es as [|e es IH]; intros w r Hw Hr; [exists r; split; [done|apply rtc_refl]|].
  rewrite events_cons. destruct (event_run parse_error registries w e Hw) as (regs & os & Eq).
  destruct (run_get regs (mgr w) os id r Hr) as (r1 & H1 & E1). rewrite <- Eq in H1.
  destruct (IH _ r1 (event_wf parse_error registries w e Hw) H1) as (r2 & H2 & E2).
  exists r2. split; [exact H2|by etrans].
Qed.

Lemma events_wf parse_error registries w es : manager_wf (mgr w) ->
  manager_wf (mgr (exec_events parse_error registries w es).1).
Proof.
  revert w. induction es as [|e es IH]; intros w Hw; [done|]. rewrite events_cons. by apply IH, event_wf.
Qed.

Section receipts.
Context (registries : nat -> ToolRegistry) (guards : nat -> option bool)
        (parse_error : string -> string) (fence : option string).
Notation begin := (execute_approved_begin registries guards parse_error fence).

(** A start that closed the request out left its receipt. *)
Lemma begin_finished w id by_ now w' text : manager_wf (mgr w) -> begin w id by_ now = (w', finished true text) ->
  exists r r' o, getRequest (mgr w) id = Some r /\ claimable r = true /\ o <> receipt_committed /\
    getRequest (mgr w') id = Some r' /\ req_status r' = executed /\
    execution_outcome r' = Some (outcome_of_receipt o) /\ execution_result r' = Some text /\
    List.last (notified w') (EmptyString, EmptyString) = (id, text).
Proof.
  intros Hw H. destruct Hw as [Hk Hwf].
  apply begin_cases in H as [(? & ? & _)|(r & reg0 & Hr & Hcl & _ & _ & Hc & H)]; [done| |done].
  destruct (claim_success _ _ _ _ Hk Hc) as (r1 & Hr1 & _ & Hr2). unfold getRequest in Hr.
  rewrite Hr in Hr1. injection Hr1 as <-. apply claimable_spec in Hcl as Hs. destruct Hs as (Hs & _).
  assert (keyed (rows (claimExecution (mgr w) id by_ now).1)) as Hk1.
  { apply (step_wf registries (mgr w) (op_claim id by_ now)). done. }
  assert (forall text o, o <> receipt_committed -> exists r', getRequest (mgr (close_out
      (with_mgr w (claimExecution (mgr w) id by_ now).1) id text o now)) id = Some r' /\ req_status r' = executed /\
      execution_outcome r' = Some (outcome_of_receipt o) /\ execution_result r' = Some text) as Hclose.
  { intros tx o Ho. destruct (mark_executes (claimExecution (mgr w) id by_ now).1 id tx o now
      (with_claim now by_ (bootId (mgr w)) r) Hk1 Hr2 (or_introl Hs)) as (r' & Hr' & He & Hm & _).
    destruct (Hm Hs) as [? ?]. by exists r'. }
  destruct H as [(s & tx & _ & _ & [= ->] & ->)|[_ H]].
  - destruct (Hclose tx receipt_blocked) as (r' & ? & ? & ? & ?); [done|].
    exists r, r', receipt_blocked. split_and!; try done. simpl. by rewrite List.last_last.
  - apply dispatch_cases in H as [(tx & o & [= ->] & Ho & ->)|(? & ? & ? & ? & ? & _)]; [|done].
    assert (req_id r = id) as Hid by (by apply get_row_Some in Hr as [_ ?]). rewrite Hid.
    destruct (Hclose tx o Ho) as (r' & ? & ? & ? & ?).
    exists r, r', o. split_and!; try done. simpl. by rewrite List.last_last.
Qed.

(** A start that dispatched left the row claimed and changed nothing else. *)
Lemma begin_dispatched w id by_ now w' r k t args : keyed (rows (mgr w)) ->
  begin w id by_ now = (w', dispatched r k t args) ->
  getRequest (mgr w) id = Some r /\ req_id r = id /\ claimable r = true /\ execution_mode r <> workflow /\
  (emergency w = None \/ emergency w = Some normal) /\
  w' = with_mgr w (claimExecution (mgr w) id by_ now).1 /\
  getRequest (mgr w') id = Some (with_claim now by_ (bootId (mgr w)) r) /\
  exists v, parse (tool_arguments r) = Some v /\ args = args_of v /\
    execute_begin (registries k) (req_tool_name r) args fence = inr t /\
    match rawUiGate (req_tool_name r) args with
    | Some _ => getUiExecutionRegistry registries guards (mgr w) r = Some k
    | None => toolRegistry w = Some k
    end /\
    (confirm (resolveToolGate (get (registries k) (req_tool_name r)) (req_tool_name r) args) = Some confirm_always ->
       approvalNeedsClick (context r) = true).
Proof.
  intros Hk H. apply begin_cases in H as [(? & ? & _)|(r0 & reg0 & Hr & Hcl & Hm & Hreg & Hc & H)]; [done| |done].
  destruct H as [(? & ? & _ & _ & ? & _)|[He H]]; [done|].
  apply dispatch_cases in H as [(? & ? & ? & _)|(k' & t' & args' & v & [= -> -> -> ->] & -> & Hp & Ha & Hb & Hu & Hcf)]; [done|].
  destruct (claim_success _ _ _ _ Hk Hc) as (r1 & Hr1 & _ & Hr2).
  unfold getRequest in Hr. rewrite Hr in Hr1. injection Hr1 as <-.
  split_and!; try done; [by apply get_row_Some in Hr as [_ ?]|].
  exists v. split_and!; try done. destruct (rawUiGate _ _); [|by subst].
  unfold getUiExecutionRegistry in *. cbn [mgr with_mgr] in Hu. by rewrite (proj1 (claim_ui _ _ _ _)) in Hu.
Qed.

(** The claim of a start, decided by the row alone. *)
Lemma begin_claims w id by_ now r reg0 : keyed (rows (mgr w)) -> getRequest (mgr w) id = Some r ->
  claimable r = true -> execution_mode r <> workflow -> toolRegistry w = Some reg0 ->
  forall w' c text, begin w id by_ now = (w', finished c text) -> c = true.
Proof.
  intros Hk Hr Hcl Hm Hreg w' c text. unfold execute_approved_begin. rewrite Hr, Hreg.
  pose proof Hcl as (Hs & _)%claimable_spec.
  unfold has_status, has_mode. rewrite bool_decide_eq_true_2, bool_decide_eq_false_2 by done. cbn [negb].
  unfold claimExecution. rewrite (surjective_pairing (update_where _ _ _)).
  rewrite (update_key_changes id claimable (with_claim now by_ (bootId (mgr w))) (rows (mgr w)) Hk).
  unfold getRequest in Hr. rewrite Hr, Hcl. cbn [negb].
  destruct (match emergency w with Some s => negb (canExecute s) | None => false end) eqn:E.
  - destruct (emergency w); [|done]. rewrite E. by intros [= _ <- _].
  - assert (forall w1, dispatch_approved registries guards parse_error fence w1 r reg0 now = (w', finished c text) -> c = true) as Hd.
    { intros w1 H. by apply dispatch_cases in H as [(? & ? & [= -> _] & _)|(? & ? & ? & ? & ? & _)]. }
    destruct (emergency w); [rewrite E|]; apply Hd.
Qed.
End receipts.

(** The whole call, tool included. *)
Lemma full_execution registries guards parse_error fence run w id by_ a p now w' c text :
  manager_wf (mgr w) ->
  executeApprovedWithReceipt registries guards parse_error fence run w id by_ a p now = (w', (c, text)) ->
  (c = false -> w' = w) /\
  (c = true -> exists r r', getRequest (mgr w) id = Some r /\ claimable r = true /\
     getRequest (mgr w') id = Some r' /\ req_status r' = executed).
Proof.
  intros Hw H. unfold executeApprovedWithReceipt in H.
  destruct (execute_approved_begin registries guards parse_error fence w id by_ now) as [w1 b] eqn:E.
  destruct b as [c1 text1|r k t args].
  - injection H as <- <- <-. destruct c1.
    + split; [done|]. intros _. destruct (begin_finished _ _ _ _ _ _ _ _ _ _ Hw E) as (r & r' & o & ? & ? & _ & ? & ? & _).
      by exists r, r'.
    + split; [|done]. intros _. apply begin_cases in E as [(? & _ & ->)|(r & reg0 & _ & _ & _ & _ & _ & H)]; [done| |apply Hw].
      destruct H as [(? & ? & _ & _ & ? & _)|[_ H]]; [done|].
      apply dispatch_cases in H as [(? & ? & ? & _)|(? & ? & ? & ? & ? & _)]; done.
  - destruct (execute_approved_finish w1 r (run t args) a p now 0) as [w2 text2] eqn:Ef. injection H as <- <- <-.
    split; [done|]. intros _.
    destruct (begin_dispatched _ _ _ _ _ _ _ _ _ _ _ _ _ (proj1 Hw) E) as (Hr & Hid & Hcl & _ & _ & Hw1 & Hr1 & _).
    destruct (finish_mgr w1 r (run t args) a p now 0) as (res & oc & Em & _). rewrite Ef in Em. cbn [fst] in Em.
    assert (keyed (rows (mgr w1))) as Hk1.
    { rewrite Hw1. apply (step_wf registries (mgr w) (op_claim id by_ now) Hw). }
    pose proof Hcl as (Hs & _)%claimable_spec.
    destruct (mark_executes (mgr w1) id res oc now _ Hk1 Hr1 (or_introl Hs)) as (r' & Hr' & He & _).
    exists r, r'. rewrite Em, Hid. done.
Qed.

(** ** Properties *)

(** C34: what a dispatched tool call has cleared. The executor reaches a tool's
    body only for a request that is approved, was never claimed, is not owned
    by the workflow engine, while the system is not paused or killed; with the
    arguments parsed from the row, validated against the tool the registry
    holds under the row's name; a reviewed UI call only through the live
    binding captured for this very request; and a call whose gate demands
    confirmation only when the card it was approved on demanded the click. *)
Theorem dispatched_calls_are_authorised registries guards parse_error fence w id by_ now w' r k t args :
  manager_wf (mgr w) ->
  execute_approved_begin registries guards parse_error fence w id by_ now = (w', dispatched r k t args) ->
  getRequest (mgr w) id = Some r /\ req_status r = approved /\ execution_claimed_at r = None /\
  execution_mode r <> workflow /\
  (emergency w = None \/ emergency w = Some normal) /\
  (exists v, parse (tool_arguments r) = Some v /\ args = args_of v) /\
  fence = None /\ get (registries k) (req_tool_name r) = Some t /\ List.Forall (argument_ok args) (tool_parameters t) /\
  (rawUiGate (req_tool_name r) args <> None ->
     getUiExecutionRegistry registries guards (mgr w) r = Some k /\ approvalNeedsClick (context r) = true) /\
  (confirm (resolveToolGate (Some t) (req_tool_name r) args) = Some confirm_always ->
     approvalNeedsClick (context r) = true).
Proof.
  intros [Hk Hw] H.
  destruct (begin_dispatched _ _ _ _ _ _ _ _ _ _ _ _ _ Hk H) as
    (Hr & _ & Hcl & Hm & He & _ & _ & v & Hp & Ha & Hb & Hu & Hc).
  pose proof Hcl as (Hs & Hn & _)%claimable_spec.
  assert (fence = None /\ get (registries k) (req_tool_name r) = Some t /\
    List.Forall (argument_ok args) (tool_parameters t)) as (Hf & Hg & Hv).
  { unfold execute_begin in Hb. destruct (get (registries k) (req_tool_name r)) as [t0|]; [|done].
    destruct (validateParameters t0 args) eqn:Ev; [done|]. destruct fence; [done|]. injection Hb as ->.
    split_and!; try done. apply List.Forall_forall. intros p Hin. eapply validateParameter_ok.
    by apply (proj1 (first_error_None _ _) Ev). }
  rewrite Hg in Hc. split_and!; try done; [by exists v|].
  intros Hui. destruct (rawUiGate (req_tool_name r) args) as [g|] eqn:Eg; [|done]. split; [done|]. apply Hc.
  rewrite resolve_confirm, Eg. unfold rawUiGate in Eg.
  destruct (negb (includes _ _)); [done|]. destruct (_ && _); [done|]. injection Eg as <-. done.
Qed.

Definition demo_world (ops : list ApprovalOp) : World :=
  mkWorld (approval_run (fun _ => [read_file_tool]) empty_manager ops).1 [] [] true (Some normal) (Some 0%nat) [].
Definition demo_create : CreateParams :=
  mkCreate "a1" "Ada" "read_file" [("path", JStr "/tmp/a")] read_data normal_urgency "why" "ctx" None None.
Definition demo_ops : list ApprovalOp := [op_create "r1" 1 demo_create; op_approve "r1" "user" 2].
Definition demo_row : ApprovalRequest := with_decision approved (Some 2) (Some "user") (new_request "r1" 1 demo_create).

Lemma dispatched_calls_are_authorised_witness :
  (execute_approved_begin (fun _ => [read_file_tool]) (fun _ => None) (fun s => s) None (demo_world demo_ops) "r1" "web" 3).2
    = dispatched demo_row 0 read_file_tool [("path", JStr "/tmp/a")] /\
  List.Forall (argument_ok [("path", JStr "/tmp/a")]) (tool_parameters read_file_tool).
Proof.
  split; [by vm_compute|].
  eapply (dispatched_calls_are_authorised (fun _ => [read_file_tool]) (fun _ => None) (fun s => s) None
    (demo_world demo_ops) "r1" "web" 3 _ demo_row 0 read_file_tool [("path", JStr "/tmp/a")]).
  - apply run_wf. split; constructor.
  - vm_compute. reflexivity.
Defined.

(** C1: a request is dispatched at most once. Over any interleaving of
    executions started and settled from any surface, approvals, denials,
    demotions, claims, reconciliations and restarts, with registries, guards
    and the emergency state changing between the events, at most one event
    dispatches the tool of a given request; and none does when the request was
    already claimed before. *)
Theorem dispatched_at_most_once parse_error registries w es id :
  manager_wf (mgr w) ->
  (dispatches id (exec_events parse_error registries w es).2 <= 1)%nat /\
  (forall r, getRequest (mgr w) id = Some r -> is_null (execution_claimed_at r) = false ->
     dispatches id (exec_events parse_error registries w es).2 = 0%nat).
Proof.
  intros Hw. pose proof (dispatches_bounded parse_error registries w es id Hw) as H. split; [lia|].
  intros r Hr Hn. rewrite Hr, Hn in H. simpl in H. lia.
Qed.

Definition demo_begin (by_ : string) (now : Z) : ExecEvent :=
  ev_begin "r1" by_ now (fun _ => [read_file_tool]) (fun _ => None) None (Some normal).

Lemma dispatched_at_most_once_witness :
  (exec_events (fun s => s) (fun _ => []) (demo_world demo_ops)
     [demo_begin "web" 3; demo_begin "telegram" 3; ev_op (op_restart "boot2"); demo_begin "web" 5]).2
    = [Some "r1"; None; None; None] /\
  (dispatches "r1" (exec_events (fun s => s) (fun _ => []) (demo_world demo_ops)
     [demo_begin "web" 3; demo_begin "telegram" 3; ev_op (op_restart "boot2"); demo_begin "web" 5]).2 <= 1)%nat.
Proof.
  split; [by vm_compute|]. apply dispatched_at_most_once. apply run_wf. split; constructor.
Defined.

(** a claim always ends in a receipt, and a lost claim does nothing. When
    an execution answers without holding the claim, nothing at all changed.
    When it answers with the claim, the row is executed with a blocked or
    failed receipt holding the answer, and the listener was told. When it
    dispatched, then whatever happens until the tool settles, the settling
    leaves the row executed, and, if nothing else closed it meanwhile, with
    the outcome [committed] exactly when the tool returned. *)
Theorem claimed_execution_leaves_receipt registries guards parse_error fence w id by_ now w' b :
  manager_wf (mgr w) ->
  execute_approved_begin registries guards parse_error fence w id by_ now = (w', b) ->
  match b with
  | finished false _ => w' = w
  | finished true text =>
      exists r', getRequest (mgr w') id = Some r' /\ req_status r' = executed /\
        (execution_outcome r' = Some blocked \/ execution_outcome r' = Some failed) /\
        execution_result r' = Some text /\ List.last (notified w') (EmptyString, EmptyString) = (id, text)
  | dispatched r _ _ _ =>
      forall regs es o audit_id pattern_id now2 elapsed,
        let w2 := (exec_events parse_error regs w' es).1 in
        let w3 := (execute_approved_finish w2 r o audit_id pattern_id now2 elapsed).1 in
        exists r2 r3, getRequest (mgr w2) id = Some r2 /\ getRequest (mgr w3) id = Some r3 /\
          req_status r3 = executed /\
          (req_status r2 = approved -> execution_outcome r3 = Some committed <-> exists v, o = Returned v)
  end.
Proof.
  intros Hw H. destruct b as [[] text|r k t args].
  - destruct (begin_finished _ _ _ _ _ _ _ _ _ _ Hw H) as (r & r' & o & _ & _ & Ho & ? & ? & Hout & ? & ?).
    exists r'. split_and!; try done. destruct o; [done|right|left]; done.
  - apply begin_cases in H as [(? & _ & ->)|(r & reg0 & _ & _ & _ & _ & _ & H)]; [done| |apply Hw].
    destruct H as [(? & ? & _ & _ & ? & _)|[_ H]]; [done|].
    apply dispatch_cases in H as [(? & ? & ? & _)|(? & ? & ? & ? & ? & _)]; done.
  - intros regs es o a p now2 el. cbn zeta.
    destruct (begin_dispatched _ _ _ _ _ _ _ _ _ _ _ _ _ (proj1 Hw) H) as (Hr & Hid & Hcl & _ & _ & Hw1 & Hr1 & _).
    assert (manager_wf (mgr w')) as Hwf1.
    { rewrite Hw1. apply (step_wf registries (mgr w) (op_claim id by_ now) Hw). }
    destruct (events_get parse_error regs w' es id _ Hwf1 Hr1) as (r2 & Hr2 & He).
    pose proof (events_wf parse_error regs w' es Hwf1) as [Hk2 _].
    apply evolves_facts in He as (_ & Hle & _). pose proof Hcl as (Hs & _)%claimable_spec. simpl in Hle. rewrite Hs in Hle.
    assert (req_status r2 = approved \/ req_status r2 = executed) as Hs2 by (revert Hle; destruct (req_status r2); simpl; auto; done).
    destruct (finish_mgr (exec_events parse_error regs w' es).1 r o a p now2 el) as (res & oc & Em & Hoc).
    destruct (mark_executes _ id res oc now2 r2 Hk2 Hr2 Hs2) as (r3 & Hr3 & Hex & Hm & _).
    exists r2, r3. rewrite Em, Hid. split_and!; try done.
    intros Ha. destruct (Hm Ha) as [-> _]. rewrite <- Hoc. by destruct oc.
Qed.

Lemma claimed_execution_leaves_receipt_witness :
  let w' := (execute_approved_begin (fun _ => [read_file_tool]) (fun _ => None) (fun s => s) None
               (demo_world demo_ops) "r1" "web" 3).1 in
  exists r2 r3, getRequest (mgr w') "r1" = Some r2 /\
    getRequest (mgr (execute_approved_finish w' demo_row (ThrewError "ENOENT") "a1" "p1" 4 1).1) "r1" = Some r3 /\
    req_status r3 = executed.
Proof.
  cbn zeta.
  destruct (claimed_execution_leaves_receipt (fun _ => [read_file_tool]) (fun _ => None) (fun s => s) None
    (demo_world demo_ops) "r1" "web" 3
    (execute_approved_begin (fun _ => [read_file_tool]) (fun _ => None) (fun s => s) None
               (demo_world demo_ops) "r1" "web" 3).1
    (dispatched demo_row 0 read_file_tool [("path", JStr "/tmp/a")])) with (regs := fun _ : nat => @nil ToolDefinition)
    (es := @nil ExecEvent) (o := ThrewError "ENOENT") (audit_id := "a1") (pattern_id := "p1") (now2 := 4) (elapsed := 1)
    as (r2 & r3 & H1 & H2 & H3 & _).
  - apply run_wf. split; constructor.
  - vm_compute. reflexivity.
  - exists r2, r3. split_and!; [exact H1|exact H2|exact H3].
Defined.

(** A pattern of a literal prefix and [%] matches every text with the prefix;
    a wildcard inside the prefix matches itself. *)
Lemma like_percent s : like (String percent EmptyString) s = true.
Proof. induction s as [|c s IH]; [done|]. exact IH. Qed.

Lemma like_percent_skip p c s : like p s = true -> like (String percent p) (String c s) = true.
Proof. intros H. simpl. destruct s; simpl in *; rewrite H; by rewrite orb_true_r. Qed.

Lemma like_prefix p s : like (p +:+ String percent EmptyString) (p +:+ s) = true.
Proof.
  induction p as [|c p IH]; [apply like_percent|].
  change (like (String c (p +:+ String percent EmptyString)) (String c (p +:+ s)) = true).
  destruct (Ascii.eqb c percent) eqn:E.
  - apply Ascii.eqb_eq in E as ->. by apply like_percent_skip.
  - cbn [like]. rewrite E, Ascii.eqb_refl, orb_true_r. exact IH.
Qed.

(** ** The decision endpoints *)

Lemma short_id_finds m r n : In r (rows m) -> req_status r = pending ->
  exists r', findByShortId m (stake n (req_id r)) = Some r' /\ req_status r' = pending.
Proof.
  intros Hin Hp. unfold findByShortId.
  destruct (List.find _ (rows m)) as [r'|] eqn:E.
  - apply List.find_some in E as [_ [_ Hs%has_status_spec]%andb_true_iff]. by exists r'.
  - exfalso. pose proof (List.find_none _ _ E r Hin) as Hn. cbv beta in Hn.
    apply andb_false_iff in Hn as [Hn|Hn].
    + rewrite <- (stake_sdrop n (req_id r)) in Hn at 2.
      change (like (stake n (req_id r) +:+ String percent EmptyString) (stake n (req_id r) +:+ sdrop n (req_id r)) = false) in Hn.
      by rewrite like_prefix in Hn.
    + apply not_true_iff_false in Hn. by apply Hn, has_status_spec.
Qed.

Lemma approve_approved (registries : nat -> ToolRegistry) w id by_ now m1 r : manager_wf (mgr w) -> approve (mgr w) id by_ now = (m1, Some r) ->
  exists r0, getRequest (mgr w) id = Some r0 /\ req_status r0 = pending /\
    r = with_decision approved (Some now) (Some by_) r0 /\ getRequest m1 id = Some r /\ manager_wf m1 /\
    execution_claimed_at r0 = None.
Proof.
  intros Hw Ea. pose proof (approve_returns (mgr w) id by_ now r (proj1 Hw)) as H. rewrite Ea in H.
  destruct (H eq_refl) as (r0 & Hr0 & Hp & Hr & Hg). exists r0. split_and!; try done.
  - pose proof (step_wf registries (mgr w) (op_approve id by_ now) Hw) as Hs. cbn [approval_step] in Hs. by rewrite Ea in Hs.
  - apply get_row_Some in Hr0 as [Hin _]. destruct Hw as [_ Hwf]. rewrite List.Forall_forall in Hwf.
    specialize (Hwf _ Hin). unfold row_wf in Hwf. rewrite Hp in Hwf. tauto.
Qed.

(** A request approved a moment ago and left to the endpoint does run. *)
Lemma just_approved_runs registries guards parse_error fence run w m1 r id by_ a p now w2 c text reg0 :
  manager_wf m1 -> getRequest m1 id = Some r -> toolRegistry w = Some reg0 -> claimable r = true ->
  execution_mode r = deferred ->
  executeApprovedWithReceipt registries guards parse_error fence run (with_mgr w m1) id by_ a p now = (w2, (c, text)) ->
  exists r', getRequest (mgr w2) id = Some r' /\ req_status r' = executed.
Proof.
  intros Hw Hr Hreg Hcl Hm H.
  destruct (full_execution _ _ _ _ _ (with_mgr w m1) id by_ a p now w2 c text Hw H) as [_ Ht].
  destruct c; [destruct (Ht eq_refl) as (? & r' & _ & _ & ? & ?); by exists r'|exfalso].
  unfold executeApprovedWithReceipt in H.
  destruct (execute_approved_begin _ _ _ _ _ _ _ _) as [w1 [c1 t1|? ? ? ?]] eqn:E.
  - injection H as -> -> ->.
    enough (false = true) by done.
    eapply (begin_claims registries guards parse_error fence (with_mgr w m1) id by_ now r reg0);
      [apply Hw|done|done|by rewrite Hm|done|exact E].
  - by destruct (execute_approved_finish _ _ _ _ _ _ _).
Qed.

Lemma no_pending_change m id f : keyed (rows m) -> (update_where (key_is id (has_status pending)) f (rows m)).2 = 0%nat ->
  forall r, getRequest m id = Some r -> req_status r <> pending.
Proof.
  intros Hk H r Hr Hp. rewrite (update_key_changes id (has_status pending) f (rows m) Hk) in H.
  unfold getRequest in Hr. rewrite Hr in H. unfold has_status in H. by rewrite bool_decide_eq_true_2 in H.
Qed.

Lemma getRequest_after_update m id r f `{!KeepsKey f} : keyed (rows m) ->
  (update_where (key_is id (has_status pending)) f (rows m)).2 <> 0%nat ->
  getRequest (with_rows m (update_where (key_is id (has_status pending)) f (rows m)).1) id = r ->
  exists r0, getRequest m id = Some r0 /\ req_status r0 = pending /\ r = Some (f r0).
Proof.
  intros Hk H Hr. rewrite (update_key_changes id (has_status pending) f (rows m) Hk) in H.
  unfold getRequest in *. cbn [rows with_rows] in Hr. rewrite get_row_update_key in Hr by apply _.
  destruct (get_row id (rows m)) as [r0|]; [|done].
  destruct (has_status pending r0) eqn:Es; [|done]. exists r0. simpl in Hr. rewrite Es in Hr.
  split_and!; [done|by apply has_status_spec|done].
Qed.

Lemma approve_refused w id by_ now m1 : manager_wf (mgr w) -> approve (mgr w) id by_ now = (m1, None) ->
  (forall r, getRequest (mgr w) id = Some r -> req_status r <> pending) /\ with_mgr w m1 = w.
Proof.
  intros [Hk _]. unfold approve. rewrite (surjective_pairing (update_where _ _ _)).
  destruct (_ =? 0)%nat eqn:E.
  - apply Nat.eqb_eq in E. rewrite (update_none _ _ _ E). intros [= <-].
    split; [by eapply no_pending_change|]. by destruct w as [[] ? ? ? ? ? ?].
  - apply Nat.eqb_neq in E. intros H. apply (f_equal snd) in H. cbn [snd] in H.
    destruct (getRequest_after_update _ _ _ _ Hk E H) as (? & _ & _ & ?). done.
Qed.

Lemma deny_refused w id by_ now m1 : manager_wf (mgr w) -> deny (mgr w) id by_ now = (m1, None) ->
  (forall r, getRequest (mgr w) id = Some r -> req_status r <> pending) /\ with_mgr w m1 = w.
Proof.
  intros [Hk _]. unfold deny. rewrite (surjective_pairing (update_where _ _ _)).
  destruct (_ =? 0)%nat eqn:E.
  - apply Nat.eqb_eq in E. rewrite (update_none _ _ _ E). intros [= <-].
    split; [by eapply no_pending_change|]. by destruct w as [[] ? ? ? ? ? ?].
  - apply Nat.eqb_neq in E. intros H. apply (f_equal snd) in H. cbn [snd] in H.
    destruct (getRequest_after_update _ _ _ _ Hk E H) as (? & _ & _ & ?). done.
Qed.

Lemma deny_denied m id by_ now m1 r : keyed (rows m) -> deny m id by_ now = (m1, Some r) ->
  exists r0, getRequest m id = Some r0 /\ req_status r0 = pending /\
    r = with_decision denied (Some now) (Some by_) r0 /\ getRequest m1 id = Some r.
Proof.
  intros Hk. unfold deny. rewrite (surjective_pairing (update_where _ _ _)).
  destruct (_ =? 0)%nat eqn:E; [done|]. apply Nat.eqb_neq in E. intros H.
  pose proof (f_equal snd H) as H2. pose proof (f_equal fst H) as H1. cbn [fst snd] in H1, H2.
  destruct (getRequest_after_update _ _ _ _ Hk E H2) as (r0 & ? & ? & [= ->]).
  exists r0. split_and!; try done. rewrite <- H1. exact H2.
Qed.

(** The decision endpoints run exactly the requests nobody else runs. An
    approval executes its request if and only if the request is deferred and
    is not an intent grant; inline and workflow requests are only marked
    approved, unclaimed, for their own executor. A request that was no longer
    pending is reported as decided and nothing changes; a denial leaves no
    claim and, with a learner, resets the streak of its pair. The short id in
    the delivered message finds a pending request. *)
Theorem decision_runs_deferred_only registries guards parse_error fence run w is_approve id by_ a p now w' out reg0 :
  manager_wf (mgr w) -> toolRegistry w = Some reg0 ->
  applyApprovalDecision registries guards parse_error fence run w is_approve id by_ a p now = (w', out) ->
  match out with
  | already_decided =>
      (forall r, getRequest (mgr w) id = Some r -> req_status r <> pending) /\ w' = w
  | decision_approved ran result r' =>
      is_approve = true /\ getRequest (mgr w') id = Some r' /\
      exists r, getRequest (mgr w) id = Some r /\ req_status r = pending /\
        (ran = true <-> execution_mode r = deferred /\ req_tool_name r <> "request_approval") /\
        (ran = true -> req_status r' = executed) /\
        (ran = false -> req_status r' = approved /\ execution_claimed_at r' = None)
  | decision_denied r' =>
      is_approve = false /\ getRequest (mgr w') id = Some r' /\ req_status r' = denied /\
      execution_claimed_at r' = None /\
      (has_learner w = true -> forall x, lookup_pair (patterns w') (action_category r') (req_tool_name r') = Some x ->
         x = (0, false))
  end /\
  (forall r, In r (rows (mgr w)) -> req_status r = pending ->
     exists r', findByShortId (mgr w) (stake 8 (req_id r)) = Some r' /\ req_status r' = pending).
Proof.
  intros Hw Hreg H. split; [|intros r Hin Hp; by apply short_id_finds].
  destruct is_approve; cbn [applyApprovalDecision] in H.
  - destruct (approve (mgr w) id by_ now) as [m1 [r|]] eqn:Ea.
    + pose proof (approve_approved registries w id by_ now m1 r Hw Ea) as (r0 & Hr0 & Hp & Hr & Hg & Hw1 & Hn).
      cbv beta zeta in H.
      destruct (negb _ && has_mode deferred r) eqn:Eb.
      * destruct (executeApprovedWithReceipt _ _ _ _ _ _ _ _ _ _ _) as [w2 [c text]] eqn:Ee.
        injection H as <- <-. 
        assert (claimable r = true) as Hcl.
        { apply claimable_spec. rewrite Hr. simpl. split_and!; [done|done|left].
          apply get_row_Some in Hr0 as [Hin _]. destruct Hw as [_ Hwf]. rewrite List.Forall_forall in Hwf.
          specialize (Hwf _ Hin). unfold row_wf in Hwf. rewrite Hp in Hwf. tauto. }
        destruct (just_approved_runs registries guards parse_error fence run w m1 r id by_ a p now w2 c text reg0) as (r' & Hr' & He);
          try done. { unfold has_mode in Eb. by to_prop. }
        rewrite Hr'. split_and!; try done. exists r0. split_and!; try done.
        unfold has_mode in Eb. to_prop. split; [|done]. intros _. by rewrite Hr in *.
      * injection H as <- <-. cbn [mgr with_mgr]. rewrite Hg. split_and!; try done.
        exists r0. split_and!; try done.
        -- split; [done|]. intros [Hm Ht]. unfold has_mode in Eb. rewrite Hr in Eb. simpl in Eb.
           rewrite Hm in Eb. rewrite bool_decide_eq_false_2 in Eb; done.
        -- intros _. by rewrite Hr.
    + injection H as <- <-. exact (approve_refused _ _ _ _ _ Hw Ea).
  - destruct (deny (mgr w) id by_ now) as [m1 [r|]] eqn:Ea.
    + injection H as <- <-. destruct (deny_denied _ _ _ _ _ _ (proj1 Hw) Ea) as (r0 & Hr0 & Hp & Hr & Hg).
      apply get_row_Some in Hr0 as [Hin _]. destruct Hw as [_ Hwf]. rewrite List.Forall_forall in Hwf.
      specialize (Hwf _ Hin). unfold row_wf in Hwf. rewrite Hp in Hwf.
      split_and!; [done| |by rewrite Hr|rewrite Hr; simpl; tauto|].
      * unfold recordDenial, recordLearned. by destruct (has_learner _).
      * intros Hl x. unfold recordDenial, recordLearned. cbn [has_learner with_mgr]. rewrite Hl.
        cbn [patterns with_patterns with_mgr]. intros Hx.
        change (recordDecision (patterns w) p now (action_category r) (req_tool_name r) false) with
          (learn_step (patterns w) (learn_record p now (action_category r) (req_tool_name r) false)) in Hx.
        rewrite learn_step_refines in Hx. simpl in Hx. rewrite !bool_decide_eq_true_2 in Hx by done. simpl in Hx.
        destruct (lookup_pair (patterns w) (action_category r) (req_tool_name r)) as [[]|]; congruence.
    + injection H as <- <-. exact (deny_refused _ _ _ _ _ Hw Ea).
Qed.

Definition demo_pending : World := demo_world [op_create "r1" 1 demo_create].
Definition demo_run (t : ToolDefinition) (ps : params) : ToolOutcome := Returned (JStr "content").

Lemma decision_runs_deferred_only_witness :
  (applyApprovalDecision (fun _ => [read_file_tool]) (fun _ => None) (fun s => s) None demo_run demo_pending
     true "r1" "web" "a1" "p1" 3).2 =
    decision_approved true "content"
      (with_receipt 3 "content" receipt_committed (with_claim 3 "web" "boot1"
        (with_decision approved (Some 3) (Some "web") (new_request "r1" 1 demo_create)))) /\
  (forall r, In r (rows (mgr demo_pending)) -> req_status r = pending ->
     exists r', findByShortId (mgr demo_pending) (stake 8 (req_id r)) = Some r' /\ req_status r' = pending).
Proof.
  split; [by vm_compute|].
  eapply (decision_runs_deferred_only (fun _ => [read_file_tool]) (fun _ => None) (fun s => s) None demo_run
    demo_pending true "r1" "web" "a1" "p1" 3).
  - apply run_wf. split; constructor.
  - reflexivity.
  - apply surjective_pairing.
Defined.

(** Resolving what a restart left open never repeats an effect. Only a
    request that was approved and never started can be run, it then ends with
    its receipt; an interrupted one ([unknown]) and an intent grant are never
    run; closing keeps the decision and records the outcome [closed]; and every
    answer other than a run or a close leaves the daemon's state untouched. *)
Theorem resolution_never_repeats registries guards parse_error fence run w is_execute id by_ note a p now w' out :
  manager_wf (mgr w) ->
  applyExecutionResolution registries guards parse_error fence run w is_execute id by_ note a p now = (w', out) ->
  match out with
  | resolution_executed text r' =>
      is_execute = true /\ req_status r' = executed /\
      exists r, getRequest (mgr w) id = Some r /\ executionState r = st_outcome not_started /\
        execution_claimed_at r = None /\ req_tool_name r <> "request_approval"
  | resolution_closed r' =>
      is_execute = false /\ getRequest (mgr w') id = Some r' /\ req_status r' = approved /\
      execution_outcome r' = Some closed
  | not_unresolved | not_executable _ => w' = w
  end.
Proof.
  intros Hw. unfold applyExecutionResolution.
  destruct (getRequest (mgr w) id) as [r|] eqn:Er; [|by intros [= <- <-]].
  destruct (UNRESOLVED r) eqn:Eu; cbn [negb]; [|by intros [= <- <-]].
  pose proof Eu as (Hs & Ho)%unresolved_spec. destruct is_execute; cbn [negb].
  - destruct (has_outcome unknown r) eqn:E1; [by intros [= <- <-]|].
    case_bool_decide as E2; [by intros [= <- <-]|].
    destruct (executeApprovedWithReceipt _ _ _ _ _ _ _ _ _ _ _) as [w1 [c text]] eqn:Ee.
    destruct (full_execution _ _ _ _ _ _ _ _ _ _ _ _ _ _ Hw Ee) as [Hf Ht].
    destruct c; cbn [negb]; [|intros [= <- <-]; auto]. intros [= <- <-].
    destruct (Ht eq_refl) as (r1 & r' & Hr1 & Hcl & Hr' & He). rewrite Er in Hr1. injection Hr1 as <-.
    pose proof Hcl as (_ & Hn & _)%claimable_spec. rewrite Hr'. split_and!; [done|done|].
    exists r. split_and!; try done. unfold executionState. rewrite Hs.
    unfold has_outcome in E1. apply bool_decide_eq_false in E1. destruct Ho as [-> | ?]; done.
  - destruct (closeUnresolved (mgr w) id by_ note now) as [m1 c] eqn:Ec.
    assert (getRequest m1 id = Some (with_resolution now by_ note r)) as Hg.
    { unfold getRequest. pose proof (close_rows (mgr w) id by_ note now) as Hr. rewrite Ec in Hr. cbn [fst] in Hr.
      rewrite Hr, get_row_update_key by apply _. unfold getRequest in Er. rewrite Er. simpl. by rewrite Eu. }
    pose proof (update_key_changes id UNRESOLVED (with_resolution now by_ note) (rows (mgr w)) (proj1 Hw)) as Hch.
    unfold getRequest in Er. rewrite Er, Eu in Hch.
    assert (c = true) as ->.
    { unfold closeUnresolved in Ec. rewrite (surjective_pairing (update_where _ _ _)) in Ec.
      rewrite Hch in Ec. apply (f_equal snd) in Ec. by cbn in Ec. }
    intros [= <- <-]. cbn [mgr with_mgr]. rewrite Hg. split_and!; done.
Qed.

Lemma resolution_never_repeats_witness :
  let w := demo_world [op_create "r1" 1 demo_create; op_approve "r1" "user" 2; op_claim "r1" "web" 3; op_restart "boot2"] in
  applyExecutionResolution (fun _ => [read_file_tool]) (fun _ => None) (fun s => s) None demo_run w true "r1" "web" None "a1" "p1" 9
    = (w, not_executable "The earlier attempt was interrupted and may have run. Check what happened, then close it.") /\
  (applyExecutionResolution (fun _ => [read_file_tool]) (fun _ => None) (fun s => s) None demo_run w true "r1" "web" None "a1" "p1" 9).1 = w.
Proof.
  cbn zeta. split; [by vm_compute|].
  apply (resolution_never_repeats (fun _ => [read_file_tool]) (fun _ => None) (fun s => s) None demo_run
    (demo_world [op_create "r1" 1 demo_create; op_approve "r1" "user" 2; op_claim "r1" "web" 3; op_restart "boot2"])
    true "r1" "web" None "a1" "p1" 9 _
    (not_executable "The earlier attempt was interrupted and may have run. Check what happened, then close it.")).
  - apply run_wf. split; constructor.
  - vm_compute. reflexivity.
Defined.
