(* ===== verification/Agents.v ===== *)
(** * Agents and their hierarchy (agents/agent.ts, agents/hierarchy.ts)

    An agent record with its authority bounds, and the hierarchy: the
    insertion-ordered map of the agents and the map from a parent to the set
    of its children. An [AgentInstance] is shared by reference; here its record
    lives in the hierarchy, and the operations that drop agents return the
    terminated records. The message history of an agent is not modelled. *)
From S2P Require Export Roles.

(** ** agent.ts *)

Inductive AgentStatus := active | idle | terminated.

#[export] Instance AgentStatus_eq_dec : EqDecision AgentStatus.
Proof. solve_decision. Defined.

Record AuthorityBounds := mkBounds {
  max_authority_level : Z;
  allowed_tools : list string;
  denied_tools : list string;
  max_token_budget : Z;
  can_spawn_children : bool }.

(** [Partial<AuthorityBounds>] *)
Record PartialBounds := mkPartial {
  p_max_authority_level : option Z;
  p_allowed_tools : option (list string);
  p_denied_tools : option (list string);
  p_max_token_budget : option Z;
  p_can_spawn_children : option bool }.

Record Agent := mkAgent {
  agent_key : string;
  agent_role : RoleDefinition;
  parent_id : option string;
  agent_status : AgentStatus;
  session_id : string;
  current_task : option string;
  authority : AuthorityBounds;
  memory_scope : list string;
  agent_created_at : Z }.

Definition canSpawnChildren (role : RoleDefinition) : bool :=
  includes "delegation" (role_tools role) ||
  (match sub_roles role with Some l => Z.of_nat (length l) | None => 0 end >? 0).

Definition getDefaultAuthority (role : RoleDefinition) : AuthorityBounds :=
  mkBounds (authority_level role) (role_tools role) [] 100000 (canSpawnChildren role).

Definition mergeAuthority (d : AuthorityBounds) (custom : option PartialBounds) : AuthorityBounds :=
  match custom with
  | None => d
  | Some c =>
      mkBounds (p_max_authority_level c ?? max_authority_level d) (p_allowed_tools c ?? allowed_tools d)
        (p_denied_tools c ?? denied_tools d) (p_max_token_budget c ?? max_token_budget d)
        (p_can_spawn_children c ?? can_spawn_children d)
  end.

(** The constructor; the two random UUIDs and the clock are arguments. *)
Definition new_agent (id session : string) (now : Z) (role : RoleDefinition) (parent : option string)
    (custom : option PartialBounds) (scope : option (list string)) : Agent :=
  mkAgent id role parent active session None (mergeAuthority (getDefaultAuthority role) custom) (scope ?? []) now.

Definition with_status (a : Agent) (s : AgentStatus) (t : option string) : Agent :=
  mkAgent (agent_key a) (agent_role a) (parent_id a) s (session_id a) t (authority a) (memory_scope a) (agent_created_at a).

Definition setTask (a : Agent) (task : string) : Agent := with_status a (agent_status a) (Some task).
Definition clearTask (a : Agent) : Agent := with_status a (agent_status a) None.
Definition terminate (a : Agent) : Agent := with_status a terminated None.
Definition activate (a : Agent) : Agent :=
  if bool_decide (agent_status a = terminated) then a else with_status a active (current_task a).
Definition make_idle (a : Agent) : Agent :=
  if bool_decide (agent_status a = terminated) then a else with_status a idle None.

(** ** hierarchy.ts *)

Record AgentHierarchy := mkHierarchy {
  agents : list Agent;
  children : gmap string (list string) }.

Definition getAgent (h : AgentHierarchy) (id : string) : option Agent :=
  List.find (fun a => bool_decide (agent_key a = id)) (agents h).

(** [Map.set]: an existing key keeps its place. *)
Fixpoint set_agent (a : Agent) (l : list Agent) : list Agent :=
  match l with
  | [] => [a]
  | b :: l' => if bool_decide (agent_key b = agent_key a) then a :: l' else b :: set_agent a l'
  end.

(** [Set.add] *)
Definition set_add (x : string) (l : list string) : list string := if includes x l then l else l ++ [x].

(** A parent id that is neither null nor empty. *)
Definition parent_key (a : Agent) : option string :=
  match parent_id a with Some p => if truthy p then Some p else None | None => None end.

Definition addAgent (h : AgentHierarchy) (a : Agent) : AgentHierarchy :=
  mkHierarchy (set_agent a (agents h))
    (match parent_key a with
     | Some p => <[p := set_add (agent_key a) ((children h !! p) ?? [])]> (children h)
     | None => children h
     end).

Definition drop_agent (id : string) (l : list Agent) : list Agent :=
  List.filter (fun a => negb (bool_decide (agent_key a = id))) l.

Definition drop_child (p id : string) (m : gmap string (list string)) : gmap string (list string) :=
  match m !! p with
  | Some l => <[p := List.filter (fun x => negb (bool_decide (x = id))) l]> m
  | None => m
  end.

(** [removeAgent] with a bound on the depth of its recursion; [None] is a bound
    that was too small. *)
Fixpoint removeAgent (fuel : nat) (h : AgentHierarchy) (id : string) : option AgentHierarchy :=
  match fuel with
  | O => None
  | S fuel' =>
      match getAgent h id with
      | None => Some h
      | Some a =>
          match foldl (fun acc c => acc ≫= fun h' => removeAgent fuel' h' c) (Some h) ((children h !! id) ?? []) with
          | None => None
          | Some h1 =>
              let ch := delete id (children h1) in
              let ch := match parent_key a with Some p => drop_child p id ch | None => ch end in
              Some (mkHierarchy (drop_agent id (agents h1)) ch)
          end
      end
  end.

Definition getChildren (h : AgentHierarchy) (id : string) : list Agent :=
  omap (getAgent h) ((children h !! id) ?? []).

Definition getParent (h : AgentHierarchy) (id : string) : option Agent :=
  (getAgent h id ≫= parent_key) ≫= getAgent h.

Definition getPrimary (h : AgentHierarchy) : option Agent :=
  List.find (fun a => match parent_id a with None => true | Some _ => false end) (agents h).

Definition getAllAgents (h : AgentHierarchy) : list Agent := agents h.

Definition getActiveAgents (h : AgentHierarchy) : list Agent :=
  List.filter (fun a => bool_decide (agent_status a = active)) (agents h).

Inductive AgentTreeNode := tree_node (a : Agent) (children : list AgentTreeNode).

(** [getTree] with a bound on the depth; [None] is the bound or the error of a
    hierarchy without a primary. *)
Fixpoint buildTreeNode (fuel : nat) (h : AgentHierarchy) (a : Agent) : option AgentTreeNode :=
  match fuel with
  | O => None
  | S fuel' =>
      match mapM (buildTreeNode fuel' h) (getChildren h (agent_key a)) with
      | Some l => Some (tree_node a l)
      | None => None
      end
  end.

Definition getTree (fuel : nat) (h : AgentHierarchy) : option AgentTreeNode :=
  getPrimary h ≫= buildTreeNode fuel h.

(** ** Well-formedness *)

Definition keys (h : AgentHierarchy) : list string := map agent_key (agents h).

(** An edge from a parent to a child, and the descendants of an agent. *)
Definition edge (h : AgentHierarchy) (p c : string) : Prop :=
  exists a, In a (agents h) /\ agent_key a = c /\ parent_key a = Some p.
Definition descendant (h : AgentHierarchy) : string -> string -> Prop := rtc (edge h).

Record hierarchy_wf (h : AgentHierarchy) : Prop := mk_wf {
  wf_unique : List.NoDup (keys h);
  wf_parent : forall a p, In a (agents h) -> parent_key a = Some p -> In p (keys h);
  wf_children : forall p c, In c ((children h !! p) ?? []) <-> edge h p c }.

(** No cycles: a rank below [n] that grows along every edge. *)
Definition ranked (rank : string -> nat) (n : nat) (h : AgentHierarchy) : Prop :=
  forall a, In a (agents h) -> (rank (agent_key a) < n)%nat /\
    forall p, parent_key a = Some p -> (rank p < rank (agent_key a))%nat.

(** ** Lemmas *)

Lemma getAgent_Some h id a : getAgent h id = Some a -> In a (agents h) /\ agent_key a = id.
Proof. intros [? ?%bool_decide_eq_true]%List.find_some. done. Qed.

Lemma getAgent_None h id : getAgent h id = None -> ~ In id (keys h).
Proof.
  intros Hn (a & Ha & Hin)%in_map_iff. pose proof (List.find_none _ _ Hn a Hin) as H. simpl in H. to_prop. done.
Qed.

Lemma unique_key h a b : List.NoDup (keys h) -> In a (agents h) -> In b (agents h) -> agent_key a = agent_key b -> a = b.
Proof.
  unfold keys. induction (agents h) as [|x l IH]; simpl; [done|]. intros [Hx Hl]%NoDup_cons_iff Ha Hb E.
  destruct Ha as [->|Ha], Hb as [->|Hb]; try done; [| |auto]; exfalso; apply Hx.
  - rewrite E. by apply in_map.
  - rewrite <- E. by apply in_map.
Qed.

Lemma edge_child_in h p c : edge h p c -> In c (keys h).
Proof. intros (a & Ha & <- & _). by apply in_map. Qed.

(** The hierarchy without the subtree of [c]. *)
Definition cut (h h' : AgentHierarchy) (c : string) : Prop :=
  forall x, In x (agents h') <-> In x (agents h) /\ ~ descendant h c (agent_key x).

Lemma edge_cut h h' c p y : cut h h' c -> edge h p y -> ~ descendant h c y -> edge h' p y.
Proof. intros Hc (a & Ha & <- & Hp) Hn. exists a. split; [by apply Hc|done]. Qed.

Lemma cut_edge h h' c p y : cut h h' c -> edge h' p y -> edge h p y.
Proof. intros Hc (a & Ha & Hk & Hp). exists a. split; [by apply Hc in Ha as [? _]|done]. Qed.

(** Cutting one subtree leaves the others as they were. *)
Lemma descendant_cut h h' c d x : cut h h' c -> ~ descendant h c x ->
  descendant h' d x <-> descendant h d x.
Proof.
  intros Hc Hx. split.
  - unfold descendant. induction 1 as [|u v w Huv Hvw IH]; [constructor|].
    eapply rtc_l; [by eapply cut_edge|auto].
  - intros H. revert Hx. unfold descendant in *. revert x H.
    apply (rtc_ind_r (fun x => ~ rtc (edge h) c x -> rtc (edge h') d x) d); [constructor|].
    intros v w Hdv Hvw IH Hn.
    eapply rtc_r; [apply IH; intros Hv; apply Hn; by eapply rtc_r|]. by eapply edge_cut.
Qed.

Lemma descendant_ranked rank n h p x : ranked rank n h -> descendant h p x -> x = p \/ (rank p < rank x)%nat.
Proof.
  intros Hr. induction 1 as [|u v w (a & Ha & <- & Hp) Hvw IH]; [by left|].
  destruct (Hr a Ha) as [_ Hlt]. specialize (Hlt u Hp). right. destruct IH as [->|IH]; lia.
Qed.

Lemma descendant_split h p x : descendant h p x <-> x = p \/ exists c, edge h p c /\ descendant h c x.
Proof.
  split.
  - intros H. destruct H as [|u v w Huv Hvw]; [by left|]. right. eauto.
  - intros [->|(c & Hc & Hx)]; [constructor|by eapply rtc_l].
Qed.

Lemma ranked_sub rank n h h' : (forall x, In x (agents h') -> In x (agents h)) -> ranked rank n h -> ranked rank n h'.
Proof. intros Hs Hr a Ha. by apply Hr, Hs. Qed.

(** What one removal does, at a sufficient depth. *)
Definition removes (fuel : nat) (h : AgentHierarchy) (id : string) : Prop :=
  exists h', removeAgent fuel h id = Some h' /\ hierarchy_wf h' /\ cut h h' id /\ agents h' `sublist_of` agents h.

Lemma cut_absent h id : hierarchy_wf h -> ~ In id (keys h) -> cut h h id.
Proof.
  intros Hw Hn x. split; [|tauto]. intros Hx. split; [done|]. intros [E|(c & (a & Ha & _ & Hp) & _)]%descendant_split.
  - apply Hn. rewrite <- E. by apply in_map.
  - apply Hn. by eapply wf_parent.
Qed.

(** The loop over the children. *)
Lemma remove_loop rank n fuel cs :
  (forall h c, hierarchy_wf h -> ranked rank n h -> In c cs -> removes fuel h c) ->
  forall h, hierarchy_wf h -> ranked rank n h ->
  exists h', foldl (fun acc c => acc ≫= fun h' => removeAgent fuel h' c) (Some h) cs = Some h' /\
    hierarchy_wf h' /\ agents h' `sublist_of` agents h /\
    forall x, In x (agents h') <-> In x (agents h) /\ forall c, In c cs -> ~ descendant h c (agent_key x).
Proof.
  induction cs as [|c cs IH]; intros Hstep h Hw Hr; simpl.
  - exists h. split_and!; [done|done|done|naive_solver].
  - destruct (Hstep h c Hw Hr ltac:(by left)) as (h1 & E1 & Hw1 & Hc1 & Hs1). rewrite E1.
    assert (ranked rank n h1) as Hr1 by (eapply ranked_sub; [|exact Hr]; intros x Hx; by apply Hc1 in Hx as [? _]).
    destruct (IH ltac:(intros; apply Hstep; auto; by right) h1 Hw1 Hr1) as (h' & E' & Hw' & Hs' & Hin).
    exists h'. split_and!; [done|done|by etrans|]. intros x. rewrite Hin, (Hc1 x). split.
    + intros [[Hx Hn] Hall]. split; [done|]. intros d [<-|Hd]; [done|].
      intros Hdx. apply (Hall d Hd). by apply (descendant_cut h h1 c).
    + intros [Hx Hall]. assert (~ descendant h c (agent_key x)) as Hn by (apply Hall; by left).
      split; [done|]. intros d Hd Hdx. apply (Hall d ltac:(by right)). by apply (descendant_cut h h1 c) in Hdx.
Qed.

Lemma drop_agent_In id l a : In a (drop_agent id l) <-> In a l /\ agent_key a <> id.
Proof. unfold drop_agent. by rewrite List.filter_In, negb_true_iff, bool_decide_eq_false. Qed.

Lemma filter_sublist {A} (p : A -> bool) (l : list A) : List.filter p l `sublist_of` l.
Proof. induction l as [|x l IH]; simpl; [done|]. destruct (p x); by constructor. Qed.

Lemma drop_child_In p id m q c : In c ((drop_child p id m !! q) ?? []) <->
  In c ((m !! q) ?? []) /\ (q = p -> c <> id).
Proof.
  unfold drop_child. destruct (m !! p) as [l|] eqn:E; [|split; [|tauto]; intros H; split; [done|]; intros ->; by rewrite E in H].
  destruct (decide (q = p)) as [->|Hne].
  - rewrite lookup_insert_eq, E. simpl. rewrite List.filter_In, negb_true_iff, bool_decide_eq_false. tauto.
  - rewrite lookup_insert_ne by done. tauto.
Qed.

(** Removing an agent all of whose descendants are gone. *)
Lemma remove_leaf h id a : hierarchy_wf h -> In a (agents h) -> agent_key a = id -> (forall c, ~ edge h id c) ->
  let ch := delete id (children h) in
  let ch := match parent_key a with Some p => drop_child p id ch | None => ch end in
  hierarchy_wf (mkHierarchy (drop_agent id (agents h)) ch).
Proof.
  intros [Hu Hp Hc] Ha Hk Hleaf. cbn zeta.
  assert (forall q c, edge (mkHierarchy (drop_agent id (agents h)) (children h)) q c <-> edge h q c /\ c <> id) as He.
  { intros q c. unfold edge. simpl. split.
    - intros (b & [Hb Hne]%drop_agent_In & <- & Hq). split; [by exists b|done].
    - intros [(b & Hb & <- & Hq) Hne]. exists b. rewrite drop_agent_In. done. }
  assert (forall q, q = id -> (children h !! q) ?? [] = []) as Hnil.
  { intros q ->. destruct ((children h !! id) ?? []) as [|c l] eqn:E; [done|].
    exfalso. apply (Hleaf c), Hc. rewrite E. by left. }
  assert (forall q c, In c ((delete id (children h) !! q) ?? []) <-> In c ((children h !! q) ?? [])) as Hd.
  { intros q c. destruct (decide (q = id)) as [->|Hne].
    - rewrite lookup_delete_eq, Hnil by done. done.
    - by rewrite lookup_delete_ne. }
  constructor; simpl.
  - unfold keys. simpl. by apply filter_NoDup_map.
  - intros b p [Hb Hne]%drop_agent_In Hbp. unfold keys. simpl.
    pose proof (Hp b p Hb Hbp) as (q & Hqk & Hq)%in_map_iff. apply in_map_iff. exists q. split; [done|].
    apply drop_agent_In. split; [done|]. rewrite Hqk. intros ->. apply (Hleaf (agent_key b)). by exists b.
  - intros q c. change (edge _ q c) with (edge (mkHierarchy (drop_agent id (agents h)) (children h)) q c).
    rewrite He. destruct (parent_key a) as [p|] eqn:Epa.
    + rewrite drop_child_In, Hd, Hc. split; [|naive_solver].
      intros [H1 H2]. split; [done|]. intros ->. destruct H1 as (b & Hb & Hbk & Hbq).
      assert (b = a) as -> by (apply (unique_key h); congruence). apply H2; congruence.
    + rewrite Hd, Hc. split; [|naive_solver]. intros H1. split; [done|]. intros ->.
      destruct H1 as (b & Hb & Hbk & Hbq). assert (b = a) as -> by (apply (unique_key h); congruence). congruence.
Qed.

Lemma remove_spec rank n fuel : forall h id, hierarchy_wf h -> ranked rank n h ->
  (n - rank id < fuel)%nat -> removes fuel h id.
Proof.
  induction fuel as [|fuel IH]; intros h id Hw Hr Hf; [lia|]. unfold removes. cbn [removeAgent].
  destruct (getAgent h id) as [a|] eqn:Ea.
  2:{ exists h. split_and!; [done|done|apply cut_absent; [done|by apply getAgent_None]|done]. }
  apply getAgent_Some in Ea as [Ha Hk].
  destruct (remove_loop rank n fuel ((children h !! id) ?? [])
    ltac:(intros h0 c Hw0 Hr0 Hc; apply IH; [done|done|];
      apply wf_children in Hc as (b & Hb & <- & Hbp); [|done]; destruct (Hr b Hb) as [? Hlt]; specialize (Hlt id Hbp); lia)
    h Hw Hr) as (h1 & E1 & Hw1 & Hs1 & Hin).
  rewrite E1.
  assert (forall x, In x (agents h1) <-> In x (agents h) /\ (descendant h id (agent_key x) -> agent_key x = id)) as Hin1.
  { intros x. rewrite Hin. split; intros [Hx H]; (split; [done|]).
    - intros [E|(c & He & Hcx)]%descendant_split; [done|]. exfalso. apply (H c); [by apply wf_children|done].
    - intros c Hc Hcx. apply wf_children in Hc; [|done].
      assert (agent_key x = id) as E by (apply H, descendant_split; eauto).
      pose proof (descendant_ranked rank n h _ _ Hr Hcx) as Hrk. destruct Hc as (b & Hb & <- & Hbp).
      destruct (Hr b Hb) as [_ Hlt]. specialize (Hlt id Hbp). rewrite E in Hrk. destruct Hrk as [Hrk|Hrk]; [rewrite <- Hrk in Hlt|]; lia. }
  assert (In a (agents h1)) as Ha1 by (apply Hin1; done).
  eexists. split; [reflexivity|]. split; [|split].
  - apply remove_leaf; try done. intros c (b & [Hb Hd]%Hin1 & <- & Hbp).
    assert (agent_key b = id) as E by (apply Hd; eapply rtc_once; by exists b).
    destruct (Hr b Hb) as [_ Hlt]. specialize (Hlt id Hbp). rewrite E in Hlt. lia.
  - intros x. simpl. rewrite drop_agent_In, Hin1. split.
    + intros [[Hx Hd] Hne]. split; [done|]. intros H. by apply Hne, Hd.
    + intros [Hx Hn]. split; [split; [done|]|]; [intros H; by exfalso|]. intros E. apply Hn. rewrite E. constructor.
  - simpl. etrans; [apply filter_sublist|done].
Qed.

(** ** Life of a hierarchy *)

(** What the orchestrator does to it: a new agent under a fresh id (a random
    UUID), without a parent only when there is no primary, with a parent only
    when it is there; a removal; and changes that keep the id and the parent. *)
Inductive HierarchyOp :=
  | hier_add (a : Agent)
  | hier_remove (id : string)
  | hier_update (f : Agent -> Agent).

Definition op_ok (h : AgentHierarchy) (o : HierarchyOp) : Prop :=
  match o with
  | hier_add a => ~ In (agent_key a) (keys h) /\ agent_key a <> EmptyString /\
      match parent_id a with
      | None => getPrimary h = None
      | Some p => p <> EmptyString /\ In p (keys h)
      end
  | hier_remove _ => True
  | hier_update f => forall a, agent_key (f a) = agent_key a /\ parent_id (f a) = parent_id a
  end.

Definition hier_step (fuel : nat) (h : AgentHierarchy) (o : HierarchyOp) : option AgentHierarchy :=
  match o with
  | hier_add a => Some (addAgent h a)
  | hier_remove id => removeAgent fuel h id
  | hier_update f => Some (mkHierarchy (map f (agents h)) (children h))
  end.

(** A run of valid operations; a step out of fuel is a stuck run. *)
Inductive hier_runs (fuel : nat) : AgentHierarchy -> list HierarchyOp -> AgentHierarchy -> Prop :=
  | runs_nil h : hier_runs fuel h [] h
  | runs_cons h o h1 os h2 : op_ok h o -> hier_step fuel h o = Some h1 -> hier_runs fuel h1 os h2 ->
      hier_runs fuel h (o :: os) h2.

Definition empty_hierarchy : AgentHierarchy := mkHierarchy [] ∅.

(** At most one agent has no parent. *)
Definition one_root (h : AgentHierarchy) : Prop :=
  forall a b, In a (agents h) -> In b (agents h) -> parent_id a = None -> parent_id b = None -> agent_key a = agent_key b.

(** Every non-root parent id is a real one. *)
Definition real_parents (h : AgentHierarchy) : Prop :=
  forall a, In a (agents h) -> parent_id a <> Some EmptyString.

Definition hierarchy_good (n : nat) (h : AgentHierarchy) : Prop :=
  hierarchy_wf h /\ one_root h /\ real_parents h /\ exists rank, ranked rank n h.

Lemma set_agent_fresh a l : ~ In (agent_key a) (map agent_key l) -> set_agent a l = l ++ [a].
Proof.
  induction l as [|b l IH]; simpl; [done|]. intros Hn. rewrite bool_decide_eq_false_2 by naive_solver.
  rewrite IH by naive_solver. done.
Qed.

Lemma set_add_In x y l : In y (set_add x l) <-> y = x \/ In y l.
Proof.
  unfold set_add. destruct (includes x l) eqn:E.
  - apply includes_In in E. naive_solver.
  - rewrite in_app_iff. simpl. naive_solver.
Qed.

Lemma getPrimary_None h : getPrimary h = None -> forall a, In a (agents h) -> parent_id a <> None.
Proof. intros Hn a Ha E. pose proof (List.find_none _ _ Hn a Ha) as H. simpl in H. by rewrite E in H. Qed.

Lemma add_wf h a : hierarchy_wf h -> ~ In (agent_key a) (keys h) ->
  (forall p, parent_key a = Some p -> In p (keys h)) -> hierarchy_wf (addAgent h a).
Proof.
  intros [Hu Hp Hc] Hn Hpar.
  assert (agents (addAgent h a) = agents h ++ [a]) as Ha by (by apply set_agent_fresh).
  assert (forall x, In x (agents (addAgent h a)) <-> In x (agents h) \/ x = a) as Hin.
  { intros x. rewrite Ha, in_app_iff. simpl. naive_solver. }
  assert (forall x, In x (keys (addAgent h a)) <-> In x (keys h) \/ x = agent_key a) as Hkeys.
  { intros x. unfold keys. rewrite Ha, map_app, in_app_iff. simpl. naive_solver. }
  constructor.
  - unfold keys. rewrite Ha, map_app. apply (NoDup_Add (a:=agent_key a) (l:=keys h)); [|done].
    rewrite <- (app_nil_r (keys h)) at 1. apply Add_app.
  - intros b p Hb Hbp. apply Hkeys. left. apply Hin in Hb as [Hb| ->]; [by eapply Hp|by apply Hpar].
  - intros p c. assert (edge (addAgent h a) p c <-> edge h p c \/ c = agent_key a /\ parent_key a = Some p) as ->.
    { unfold edge. setoid_rewrite Hin. naive_solver. }
    rewrite <- Hc. unfold addAgent. simpl. destruct (parent_key a) as [q|] eqn:Eq; [|naive_solver].
    destruct (decide (p = q)) as [->|Hne]; [rewrite lookup_insert_eq; simpl; rewrite set_add_In; naive_solver|].
    rewrite lookup_insert_ne by done. naive_solver.
Qed.

Lemma parent_key_Some a p : parent_id a = Some p -> p <> EmptyString -> parent_key a = Some p.
Proof. unfold parent_key. intros ->. by destruct p. Qed.

Lemma good_add n h a : hierarchy_good n h -> op_ok h (hier_add a) -> hierarchy_good (S n) (addAgent h a).
Proof.
  intros (Hw & Hone & Hreal & rank & Hr) (Hn & He & Hpar).
  assert (forall x, In x (agents (addAgent h a)) <-> In x (agents h) \/ x = a) as Hin.
  { intros x. simpl. rewrite set_agent_fresh, in_app_iff by done. simpl. naive_solver. }
  assert (forall p, parent_key a = Some p -> In p (keys h)) as Hp.
  { unfold parent_key. destruct (parent_id a) as [q|]; [|done]. destruct Hpar as [Hq ?].
    destruct (truthy q); [|done]. by intros p [= <-]. }
  split_and!.
  - by apply add_wf.
  - intros x y Hx Hy Ex Ey. apply Hin in Hx as [Hx| ->], Hy as [Hy| ->]; try done; [by apply Hone| |];
      [rewrite Ey in Hpar|rewrite Ex in Hpar]; exfalso; by eapply getPrimary_None.
  - intros x Hx. apply Hin in Hx as [Hx| ->]; [by apply Hreal|]. destruct (parent_id a) as [q|]; naive_solver.
  - exists (fun x => if bool_decide (x = agent_key a)
                 then match parent_key a with Some p => S (rank p) | None => 0%nat end else rank x).
    assert (forall p, In p (keys h) -> (rank p < n)%nat) as Hlt.
    { intros p (b & <- & Hb)%in_map_iff. by apply Hr. }
    intros x Hx. apply Hin in Hx as [Hx| ->].
    + rewrite bool_decide_eq_false_2 by (intros E; apply Hn; rewrite <- E; by apply in_map).
      destruct (Hr x Hx) as [H1 H2]. split; [lia|]. intros p Hpx.
      rewrite bool_decide_eq_false_2; [by apply H2|]. intros ->. apply Hn. by eapply wf_parent.
    + rewrite bool_decide_eq_true_2 by done. split; [destruct (parent_key a) as [p|]; [|lia]; specialize (Hlt p (Hp p eq_refl)); lia|].
      intros p Epa. rewrite Epa. rewrite bool_decide_eq_false_2; [lia|]. intros ->. by apply Hn, Hp.
Qed.

Lemma good_remove n fuel h id : hierarchy_good n h -> (n < fuel)%nat ->
  exists h', removeAgent fuel h id = Some h' /\ hierarchy_good n h' /\ cut h h' id /\ agents h' `sublist_of` agents h.
Proof.
  intros (Hw & Hone & Hreal & rank & Hr) Hf.
  destruct (remove_spec rank n fuel h id Hw Hr ltac:(lia)) as (h' & E & Hw' & Hc & Hs).
  exists h'. split_and!; try done. split_and!; [done| | |].
  - intros x y [Hx _]%Hc [Hy _]%Hc. by apply Hone.
  - intros x [Hx _]%Hc. by apply Hreal.
  - exists rank. eapply ranked_sub; [|exact Hr]. intros x Hx. by apply Hc in Hx as [? _].
Qed.

Lemma good_update n h f : hierarchy_good n h -> op_ok h (hier_update f) ->
  hierarchy_good n (mkHierarchy (map f (agents h)) (children h)).
Proof.
  intros ([Hu Hp Hc] & Hone & Hreal & rank & Hr) Hf.
  assert (forall a, agent_key (f a) = agent_key a) as Hk by (intros; apply Hf).
  assert (forall a, parent_id (f a) = parent_id a) as Hpi by (intros; apply Hf).
  assert (forall a, parent_key (f a) = parent_key a) as Hpk by (intros; unfold parent_key; by rewrite Hpi).
  assert (map agent_key (map f (agents h)) = map agent_key (agents h)) as Hkeys by (rewrite map_map; by apply map_ext).
  split_and!.
  - constructor; unfold keys; simpl; rewrite ?Hkeys; [done| |].
    + intros a p (b & <- & Hb)%in_map_iff. rewrite Hpk. by apply Hp.
    + intros p c. rewrite Hc. unfold edge. simpl. split.
      * intros (a & Ha & <- & Hpa). exists (f a). rewrite Hk, Hpk. split; [by apply in_map|done].
      * intros (a & (b & <- & Hb)%in_map_iff & <- & Hpa). exists b. rewrite Hpk in Hpa. rewrite Hk. done.
  - intros x y (a & <- & Ha)%in_map_iff (b & <- & Hb)%in_map_iff. rewrite !Hpi, !Hk. by apply Hone.
  - intros x (a & <- & Ha)%in_map_iff. rewrite Hpi. by apply Hreal.
  - exists rank. intros x (a & <- & Ha)%in_map_iff. rewrite Hk, Hpk. by apply Hr.
Qed.

Lemma runs_good n fuel h os h' : hierarchy_good n h -> (n + length os < fuel)%nat -> hier_runs fuel h os h' ->
  hierarchy_good (n + length os) h'.
Proof.
  intros Hg Hf H. revert n Hg Hf. induction H as [h|h o h1 os h2 Hok Hs Hruns IH]; intros n Hg Hf.
  - by rewrite Nat.add_0_r.
  - simpl in Hf. replace (n + length (o :: os))%nat with (S n + length os)%nat by (simpl; lia). apply IH; [|lia].
    assert (forall m g, hierarchy_good m g -> hierarchy_good (S m) g) as Hmono.
    { intros m g (? & ? & ? & rank & Hr). split_and!; try done. exists rank. intros a Ha. destruct (Hr a Ha). split; [lia|done]. }
    destruct o as [a|id|f]; simpl in Hs.
    + injection Hs as <-. by apply good_add.
    + destruct (good_remove n fuel h id Hg ltac:(lia)) as (g & E & Hg' & _). rewrite E in Hs. injection Hs as <-. auto.
    + injection Hs as <-. apply Hmono. by apply good_update.
Qed.

Lemma empty_good n : hierarchy_good n empty_hierarchy.
Proof.
  split_and!; [|by intros ? ? []|by intros ? []|by exists (fun _ => 0%nat)].
  constructor; [constructor|done|]. intros p c. simpl. rewrite lookup_empty. split; [done|]. by intros (a & [] & _).
Qed.

(** ** Properties *)

(** The agent hierarchy is a forest with one root, and its recursive
    removal terminates. After any sequence of valid operations the ids are
    unique, every parent is present, the children map lists exactly the
    agents with that parent, and at most one agent has no parent. Removing an
    agent then always returns, within a recursion depth bounded by the number
    of operations so far, and leaves exactly the agents outside its subtree, in
    their order. *)
Theorem hierarchy_invariant fuel os h :
  hier_runs fuel empty_hierarchy os h -> (length os < fuel)%nat ->
  hierarchy_wf h /\ one_root h /\
  forall id, exists h', removeAgent fuel h id = Some h' /\ hierarchy_wf h' /\ one_root h' /\
    agents h' `sublist_of` agents h /\
    forall a, In a (agents h') <-> In a (agents h) /\ ~ descendant h id (agent_key a).
Proof.
  intros Hruns Hf. pose proof (runs_good 0 fuel _ _ _ (empty_good 0) Hf Hruns) as Hg. simpl in Hg.
  pose proof Hg as (Hw & Hone & _). split_and!; [done|done|]. intros id.
  destruct (good_remove _ fuel h id Hg Hf) as (h' & E & (Hw' & Hone' & _) & Hc & Hs). by exists h'.
Qed.

Definition demo_role : RoleDefinition := mkRole "assistant" "Assistant" ["delegation"; "browser"] 6 None.
Definition demo_agent (id : string) (parent : option string) : Agent := new_agent id "s" 1 demo_role parent None None.
Definition demo_hierarchy : AgentHierarchy :=
  addAgent (addAgent (addAgent empty_hierarchy (demo_agent "p" None)) (demo_agent "c" (Some "p"))) (demo_agent "g" (Some "c")).

Lemma hierarchy_invariant_witness :
  map agent_key ((agents <$> removeAgent 4 demo_hierarchy "c") ?? []) = ["p"] /\ hierarchy_wf demo_hierarchy.
Proof.
  split; [by vm_compute|].
  apply (hierarchy_invariant 4 [hier_add (demo_agent "p" None); hier_add (demo_agent "c" (Some "p"));
    hier_add (demo_agent "g" (Some "c"))] demo_hierarchy).
  - repeat econstructor; simpl; naive_solver.
  - simpl. lia.
Defined.
