(* ===== verification/Gatekeeper.v ===== *)
(** * The tool gate of the orchestrator (agents/orchestrator.ts)

    [executeToolInner] (text turns and sub-tasks) and
    [executeRealtimeToolCallInner] (voice sessions) decide whether a tool call
    the model asked for runs. Each is split where it awaits: [execute_tool]
    runs up to the tool's body, the wait for the user or an answer;
    [after_wait] continues when the wait is over. The turn's taint set is an
    argument, as are the hour, the clock and the generated ids. Sub-agents are
    created by [spawnSubAgent]. Events sent to the dashboard are output only. *)
From S2P Require Export Executor Agents.

Definition MAX_TOOL_RESULT_CHARS : nat := 6000.
Definition APPROVAL_WAIT_TIMEOUT_MS : Z := 2 * 60 * 1000.

Record Orchestrator := mkOrchestrator {
  world : World;
  orch_registry : option nat;
  authorityEngine : option AuthorityConfig;
  has_approvals : bool;
  has_executor : bool;
  has_audit : bool;
  orch_emergency : option EmergencyState;
  authorityProfile : option AuthorityProfile;
  taintGating : option TaintGating;
  realtimeTaint : list string;
  grants : gmap string (list ActionCategory);
  hierarchy : AgentHierarchy }.

Definition with_world (o : Orchestrator) (w : World) : Orchestrator :=
  mkOrchestrator w (orch_registry o) (authorityEngine o) (has_approvals o) (has_executor o) (has_audit o)
    (orch_emergency o) (authorityProfile o) (taintGating o) (realtimeTaint o) (grants o) (hierarchy o).
Definition with_realtime_taint (o : Orchestrator) (t : list string) : Orchestrator :=
  mkOrchestrator (world o) (orch_registry o) (authorityEngine o) (has_approvals o) (has_executor o) (has_audit o)
    (orch_emergency o) (authorityProfile o) (taintGating o) t (grants o) (hierarchy o).
Definition with_grants (o : Orchestrator) (g : gmap string (list ActionCategory)) : Orchestrator :=
  mkOrchestrator (world o) (orch_registry o) (authorityEngine o) (has_approvals o) (has_executor o) (has_audit o)
    (orch_emergency o) (authorityProfile o) (taintGating o) (realtimeTaint o) g (hierarchy o).
Definition with_hierarchy (o : Orchestrator) (h : AgentHierarchy) : Orchestrator :=
  mkOrchestrator (world o) (orch_registry o) (authorityEngine o) (has_approvals o) (has_executor o) (has_audit o)
    (orch_emergency o) (authorityProfile o) (taintGating o) (realtimeTaint o) (grants o) h.

(** ** Taint, profile and grants *)

Definition noteTaint (taint : list string) (name : string) (category : option string) : list string :=
  if isTaintSourceTool name category then set_add name taint else taint.

Definition getEffectiveProfile (o : Orchestrator) (taint : list string) : option AuthorityProfile :=
  mergeProfiles (authorityProfile o) (taintProfile (taintGating o) taint).

Definition auditAgentName (o : Orchestrator) (roleName : string) : string :=
  match authorityProfile o ≫= label with
  | Some l => if truthy l then roleName +:+ " (" +:+ l +:+ ")" else roleName
  | None => roleName
  end.

Definition grantTemporary (o : Orchestrator) (agent : string) (c : ActionCategory) : Orchestrator :=
  let existing := (grants o !! agent) ?? [] in
  if includes c existing then o else with_grants o (<[agent := existing ++ [c]]> (grants o)).

Definition revokeTemporary (o : Orchestrator) (agent : string) (c : ActionCategory) : Orchestrator :=
  match grants o !! agent with
  | Some l => with_grants o (<[agent := List.filter (fun a => negb (bool_decide (a = c))) l]> (grants o))
  | None => o
  end.

Definition clearTemporaryGrants (o : Orchestrator) (agent : string) : Orchestrator :=
  with_grants o (delete agent (grants o)).

Definition determineUrgency (c : ActionCategory) : ApprovalUrgency :=
  match c with make_payment => urgent | _ => normal_urgency end.

(** ** The decision of a call *)

Definition check (o : Orchestrator) (cfg : AuthorityConfig) (hour : Z) (taint : list string) (primary : Agent)
    (name : string) (tool : option ToolDefinition) (c : ActionCategory) : AuthorityDecision :=
  checkAuthority cfg hour
    (mkCheck (agent_key primary) (max_authority_level (authority primary)) (role_id (agent_role primary)) name
       ((tool_category <$> tool) ?? "unknown") c (grants o) (getEffectiveProfile o taint)).

(** The level shortfall of a gated call turned into an approval request. *)
Definition substitute_level (chk : ActionCategory -> AuthorityDecision) (g : ResolvedToolGate) (d : AuthorityDecision)
  : AuthorityDecision :=
  if negb (is_null (confirm g)) && negb (allowed d) && deniedByLevel d &&
     negb (bool_decide (actionCategory d = floorCategory g))
  then
    let floor := chk (floorCategory g) in
    if allowed floor
    then mkDecision true true
      (category_name (actionCategory d) +:+ " " +:+ ABOVE_LEVEL_SUBSTITUTION +:+
       match profileLabel floor with
       | Some l => if truthy l then " (" +:+ l +:+ ")" else EmptyString
       | None => EmptyString
       end +:+ " and requires user approval")
      (actionCategory d) (contextRule floor) (profileLabel floor) (deniedByLevel floor)
    else d
  else d.

Definition require_confirmation (name : string) (g : ResolvedToolGate) (d : AuthorityDecision) : AuthorityDecision :=
  if bool_decide (confirm g = Some confirm_always) && allowed d && negb (requiresApproval d)
  then mkDecision (allowed d) true (name +:+ " requires user approval") (actionCategory d) (contextRule d)
         (profileLabel d) (deniedByLevel d)
  else d.

(** [None] is the error [combineDecisions] throws on no categories. *)
Definition decide_call (chk : ActionCategory -> AuthorityDecision) (name : string) (g : ResolvedToolGate)
  : option AuthorityDecision :=
  d ← combineDecisions (map chk (categories g));
  Some (require_confirmation name g (substitute_level chk g d)).

Definition decision_type (d : AuthorityDecision) : AuthorityDecisionType :=
  if allowed d then (if requiresApproval d then audit_approval_required else audit_allowed) else audit_denied.

(** ** Results *)

Definition cap_result (text : string) : string :=
  let n := String.length text in
  if Z.of_nat n >? Z.of_nat MAX_TOOL_RESULT_CHARS
  then stake MAX_TOOL_RESULT_CHARS text +:+ newline +:+ "... (truncated, was " +:+ show_z (Z.of_nat n) +:+ " chars)"
  else text.

(** How a call stands after its synchronous part. *)
Inductive ToolStep :=
  | step_throws (msg : string)
  | answer (text : string)
  | run_intent (t : ToolDefinition) (args : params)
  | run_tool (t : ToolDefinition) (args : params)
  | wait_for (r : ApprovalRequest).

Definition awaiting (r : ApprovalRequest) (name : string) (d : AuthorityDecision) (tail : string) : string :=
  "[AWAITING_APPROVAL] Request #" +:+ stake 8 (req_id r) +:+ " submitted. Action: " +:+ name +:+ " (" +:+
  category_name (actionCategory d) +:+ "). Reason: " +:+ reason d +:+ ". " +:+ tail.

Definition denied_text (name : string) : string :=
  "[APPROVAL DENIED] The user denied permission to execute " +:+ name +:+
  ". Do not retry the action. Briefly tell the user it was not performed.".

Section gate.
Context (registries : nat -> ToolRegistry) (guards : nat -> option bool)
        (parse_error : string -> string) (fence : option string).

Definition log_call (o : Orchestrator) (audit_id : string) (now : Z) (primary : Agent) (agent_label name : string)
    (c : ActionCategory) (t : AuthorityDecisionType) (ran : bool) (ch : option ResolutionChannel) : Orchestrator :=
  if has_audit o
  then with_world o (with_trail (world o) (log (trail (world o)) audit_id now
         (mkAudit EmptyString (agent_key primary) agent_label name c t None ran None 0 ch)))
  else o.

(** The normal execution: a body to run, or the text of an error. *)
Definition run_through_registry (reg : nat) (name : string) (args : params) : ToolStep :=
  match execute_begin (registries reg) name args fence with
  | inr t => run_tool t args
  | inl e => answer ("Error executing " +:+ name +:+ ": " +:+ error_message e)
  end.

(** The branch of a decision that requires approval. *)
Definition ask_approval (o : Orchestrator) (reg : nat) (primary : Agent) (name : string) (args : params)
    (g : ResolvedToolGate) (d : AuthorityDecision) (id audit_id : string) (now : Z) : Orchestrator * ToolStep :=
  let c := actionCategory d in
  let label := auditAgentName o (role_name (agent_role primary)) in
  if has_approvals o
  then
    match createRequest registries (mgr (world o)) id now
            (mkCreate (agent_key primary) label name args c (determineUrgency c) (reason d)
               (gateContext g name args) (Some (if has_executor o then inline else deferred)) (Some reg)) with
    | None => (o, step_throws "UNIQUE constraint failed: approval_requests.id")
    | Some (m, r) =>
        let o' := with_world o (with_mgr (world o) m) in
        if negb (has_executor o)
        then (o', answer (awaiting r name d "The user will be notified and can approve or deny this action."))
        else (o', wait_for r)
    end
  else
    (log_call o audit_id now primary label name c audit_approval_required false None,
     answer ("[APPROVAL UNAVAILABLE] " +:+ name +:+ " (" +:+ category_name c +:+
             ") requires user approval but no approval channel is configured. " +:+
             "The action was not performed; tell the user what you wanted to do.")).

Definition gated_call (o : Orchestrator) (cfg : AuthorityConfig) (hour : Z) (taint : list string) (primary : Agent)
    (reg : nat) (name : string) (args : params) (id audit_id : string) (now : Z) : Orchestrator * ToolStep :=
  let tool := get (registries reg) name in
  let g := resolveToolGate tool name args in
  match decide_call (check o cfg hour taint primary name tool) name g with
  | None => (o, step_throws "Reduce of empty array with no initial value")
  | Some d =>
      let o1 := log_call o audit_id now primary (auditAgentName o (role_name (agent_role primary))) name
                  (actionCategory d) (decision_type d) (allowed d && negb (requiresApproval d)) None in
      if negb (allowed d)
      then (o1, answer ("[AUTHORITY DENIED] Cannot execute " +:+ name +:+ ": " +:+ reason d +:+
                        ". Your authority level is insufficient for " +:+ category_name (actionCategory d) +:+ " actions."))
      else if requiresApproval d then ask_approval o1 reg primary name args g d id audit_id now
      else (o1, run_through_registry reg name args)
  end.

Definition execute_tool (o : Orchestrator) (hour : Z) (taint : list string) (name : string) (args : params)
    (id audit_id : string) (now : Z) : Orchestrator * ToolStep :=
  match orch_registry o with
  | None => (o, answer "Error: No tool registry configured")
  | Some reg =>
      match (if match orch_emergency o with Some s => negb (canExecute s) | None => false end
             then orch_emergency o else None) with
      | Some s => (o, answer ("[SYSTEM " +:+ to_upper (state_name s) +:+
                    "] All tool execution is currently suspended. The user has " +:+ state_name s +:+ " the system."))
      | None =>
          if bool_decide (name = "request_approval")
          then match execute_begin (registries reg) name args fence with
               | inr t => (o, run_intent t args)
               | inl e => (o, answer ("Error executing request_approval: " +:+ error_message e))
               end
          else
            match authorityEngine o, getPrimary (hierarchy o) with
            | Some _, None =>
                (o, answer ("[AUTHORITY DENIED] Cannot execute " +:+ name +:+ ": no primary agent is active."))
            | eng, primary =>
                if negb (has (registries reg) name)
                then (o, answer ("Error: no tool named " +:+ String dquote (name +:+ String dquote
                       " is available. Call discover_tools to see what is.")))
                else match eng, primary with
                     | Some cfg, Some p => gated_call o cfg hour taint p reg name args id audit_id now
                     | _, _ => (o, run_through_registry reg name args)
                     end
            end
      end
  end.

(** ** When the wait is over *)

(** [inl] is the answer, [inr] the hand-over to the deferred executor as
    ['inline-gate']; the flag says whether the text is a tool's own. *)
Definition after_wait (o : Orchestrator) (request resolved : ApprovalRequest) (name : string) (d : AuthorityDecision)
  : Orchestrator * (bool * string + unit) :=
  let done_text r := (true, execution_result r ?? ("[EXECUTED] " +:+ name +:+ " completed.")) in
  let pending_text := (false, awaiting request name d
    ("The user has not responded yet. They can still approve or deny it later; " +:+
     "if approved later, it will be executed and the user will be notified.")) in
  match req_status resolved with
  | approved => (o, inr tt)
  | executed => (o, inl (done_text resolved))
  | denied => (o, inl (false, denied_text name))
  | expired => (o, inl (false, "[APPROVAL EXPIRED] The approval request for " +:+ name +:+
      " expired before the user decided. Ask the user whether they still want this done."))
  | pending =>
      let '(m, demoted) := demoteToDeferred (mgr (world o)) (req_id request) in
      let o' := with_world o (with_mgr (world o) m) in
      if negb demoted
      then match getRequest m (req_id request) with
           | Some re =>
               match req_status re with
               | approved => (o', inr tt)
               | executed => (o', inl (done_text re))
               | denied => (o', inl (false, denied_text name))
               | _ => (o', inl pending_text)
               end
           | None => (o', inl pending_text)
           end
      else (o', inl pending_text)
  end.

(** The result of a run tool as the model sees it, and the turn's taint. *)
Definition block_text (b : json) : ContentBlock :=
  match jget "type" b, jget "text" b with
  | Some (JStr "text"), Some (JStr t) => text_block t
  | _, _ => other_block b
  end.

Inductive Delivered := delivered_text (t : string) | delivered_blocks (b : list ContentBlock).

(** [guard_image] is [guardImageSize] of llm/provider.ts. *)
Definition tool_finished (guard_image : ContentBlock -> ContentBlock) (taint : list string) (name : string)
    (category : option string) (out : ToolOutcome) : list string * Delivered :=
  match execute_finish name out with
  | inr raw =>
      (noteTaint taint name category,
       match jget "content" raw with
       | Some (JArr blocks) =>
           delivered_blocks (markUntrustedToolBlocks name category (map (fun b => guard_image (block_text b)) blocks))
       | _ => delivered_text (markUntrustedToolResult name category
                (cap_result (match raw with JStr s => s | _ => stringify raw end)))
       end)
  | inl (OutcomeError m) =>
      (noteTaint taint name category,
       delivered_text (markUntrustedToolFailure name category m MAX_TOOL_RESULT_CHARS))
  | inl (PlainError m) => (taint, delivered_text ("Error executing " +:+ name +:+ ": " +:+ m))
  end.

(** ** The voice path *)

Definition taint_block (d : AuthorityDecision) : bool :=
  requiresApproval d && match profileLabel d with Some l => str_includes TAINT_PROFILE_LABEL l | None => false end.

Definition execute_realtime (o : Orchestrator) (hour : Z) (blockedCategories : option (list string))
    (name : string) (args : params) (audit_id : string) (now : Z) : Orchestrator * ToolStep :=
  match orch_registry o with
  | None => (o, answer "Error: No tool registry configured")
  | Some reg =>
      match (if match orch_emergency o with Some s => negb (canExecute s) | None => false end
             then orch_emergency o else None) with
      | Some s => (o, answer ("[SYSTEM " +:+ to_upper (state_name s) +:+ "] Tool execution is currently suspended."))
      | None =>
          if negb (has (registries reg) name)
          then (o, answer ("Error: no tool named " +:+ String dquote (name +:+ String dquote " is available.")))
          else
            let primary := getPrimary (hierarchy o) in
            let tool := get (registries reg) name in
            let g := resolveToolGate tool name args in
            let log_audit t ran := match primary with
              | Some p => log_call o audit_id now p (role_name (agent_role p)) name (gateCategory g) t ran (Some voice)
              | None => o
              end in
            match List.find (fun c => includes (category_name c) (blockedCategories ?? [])) (categories g) with
            | Some b => (log_audit audit_denied false, answer ("[BLOCKED] " +:+ name +:+ " (" +:+ category_name b +:+
                ") is in the realtime blocked-categories list and was not executed."))
            | None =>
                if bool_decide (confirm g = Some confirm_always)
                then (log_audit audit_denied false, answer ("[BLOCKED] " +:+ name +:+ " needs the user's confirmation in the dashboard and cannot be started from a voice session. Tell the user what you wanted to do and ask them to confirm it there."))
                else
                  match authorityEngine o, primary with
                  | Some cfg, Some p =>
                      match combineDecisions (map (check o cfg hour (realtimeTaint o) p name tool) (categories g)) with
                      | None => (o, step_throws "Reduce of empty array with no initial value")
                      | Some d =>
                          if negb (allowed d)
                          then (log_audit audit_denied false,
                                answer ("[AUTHORITY DENIED] Cannot execute " +:+ name +:+ ": " +:+ reason d +:+ "."))
                          else if taint_block d
                          then (log_audit audit_denied false,
                                answer ("[BLOCKED] " +:+ name +:+ " (" +:+ category_name (gateCategory g) +:+
                                  ") was not run: this session read outside content (" +:+ join ", " (realtimeTaint o) +:+
                                  ") and voice cannot approve it. Tell the user what you wanted to do and ask them to say it again as a fresh request."))
                          else (log_audit (if requiresApproval d then audit_approval_required else audit_allowed) true,
                                run_through_registry reg name args)
                      end
                  | _, _ => (o, run_through_registry reg name args)
                  end
            end
      end
  end.

(** The voice result, flattened to text, and the session's taint. *)
Definition flat_block (b : json) : string :=
  match jget "type" b, jget "text" b with
  | Some (JStr "text"), Some (JStr t) => t
  | Some (JStr t), _ => "[" +:+ t +:+ "]"
  | _, _ => "[undefined]"
  end.

Definition realtime_finished (o : Orchestrator) (name : string) (category : option string) (out : ToolOutcome)
  : Orchestrator * string :=
  match execute_finish name out with
  | inr raw =>
      (with_realtime_taint o (noteTaint (realtimeTaint o) name category),
       markUntrustedToolResult name category
         (match jget "content" raw with
          | Some (JArr blocks) => join newline (map flat_block blocks)
          | _ => cap_result (match raw with JStr s => s | _ => stringify raw end)
          end))
  | inl (OutcomeError m) =>
      (with_realtime_taint o (noteTaint (realtimeTaint o) name category),
       markUntrustedToolFailure name category m MAX_TOOL_RESULT_CHARS)
  | inl (PlainError m) => (o, "Error executing " +:+ name +:+ ": " +:+ m)
  end.
End gate.

(** ** Agents *)

Definition createPrimary (o : Orchestrator) (id session : string) (now : Z) (role : RoleDefinition)
  : string + (Orchestrator * Agent) :=
  match getPrimary (hierarchy o) with
  | Some _ => inl "Primary agent already exists. Terminate it first."
  | None =>
      let a := new_agent id session now role None None None in
      inr (with_hierarchy o (addAgent (hierarchy o) a), a)
  end.

Definition child_authority (role : RoleDefinition) (parent : AuthorityBounds) : AuthorityBounds :=
  mkBounds (Z.min (authority_level role) (max_authority_level parent - 1))
    (List.filter (fun t => includes t (allowed_tools parent)) (role_tools role))
    (denied_tools parent)
    (max_token_budget parent / 2)
    (canSpawnChildren role).

Definition bounds_partial (b : AuthorityBounds) : PartialBounds :=
  mkPartial (Some (max_authority_level b)) (Some (allowed_tools b)) (Some (denied_tools b))
    (Some (max_token_budget b)) (Some (can_spawn_children b)).

(** [spawnSubAgent] up to the message it adds to the new agent's history. *)
Definition spawnSubAgent (o : Orchestrator) (hour : Z) (taint : list string) (parentId id session : string) (now : Z)
    (role : RoleDefinition) (scope : option (list string)) : string + (Orchestrator * Agent) :=
  match getAgent (hierarchy o) parentId with
  | None => inl ("Parent agent not found: " +:+ parentId)
  | Some parent =>
      let refusal :=
        match authorityEngine o with
        | Some cfg =>
            let d := checkAuthority cfg hour
              (mkCheck (agent_key parent) (max_authority_level (authority parent)) (role_id (agent_role parent))
                 "spawn_sub_agent" "delegation" spawn_agent (grants o) (getEffectiveProfile o taint)) in
            if allowed d then None else Some ("Authority denied spawning a sub-agent: " +:+ reason d)
        | None =>
            if can_spawn_children (authority parent) then None
            else Some ("Agent role " +:+ String dquote (role_id (agent_role parent) +:+ String dquote
              (" cannot spawn sub-agents: the role declares neither the " +:+ String dquote ("delegation" +:+ String dquote
               (" tool nor any sub_roles. Add " +:+ String dquote ("delegation" +:+ String dquote
                " to the role's tools list to enable delegation."))))))
        end in
      match refusal with
      | Some e => inl e
      | None =>
          let a := new_agent id session now role (Some parentId)
                     (Some (bounds_partial (child_authority role (authority parent)))) (Some (scope ?? [])) in
          inr (with_hierarchy o (addAgent (hierarchy o) a), a)
      end
  end.

(** ** Lemmas *)

Lemma check_category o cfg hour taint p name tool c : actionCategory (check o cfg hour taint p name tool c) = c.
Proof. unfold check. by rewrite checkAuthority_category. Qed.

Lemma check_level_denied o cfg hour taint p name tool c :
  deniedByLevel (check o cfg hour taint p name tool c) = true -> allowed (check o cfg hour taint p name tool c) = false.
Proof.
  unfold check. rewrite checkAuthority_level. intros H. pose proof (deniedByLevel_denied _ _ _ H) as Hd.
  unfold checkAuthority. destruct (profile _); simpl; [by rewrite applyProfile_denied|done].
Qed.

(** The checks of a call report the category they were asked about. *)
Definition faithful (chk : ActionCategory -> AuthorityDecision) : Prop := forall c, actionCategory (chk c) = c.

Lemma require_confirmation_allowed name g d : allowed (require_confirmation name g d) = allowed d.
Proof. unfold require_confirmation. by destruct (_ && _). Qed.

Lemma require_confirmation_category name g d :
  actionCategory (require_confirmation name g d) = actionCategory d.
Proof. unfold require_confirmation. by destruct (_ && _). Qed.

Lemma substitute_category chk g d : actionCategory (substitute_level chk g d) = actionCategory d.
Proof. unfold substitute_level. destruct (_ && _); [|done]. by destruct (allowed (chk _)). Qed.

(** The substitution either keeps the decision or asks for approval. *)
Lemma substitute_cases chk g d : substitute_level chk g d = d \/
  (confirm g <> None /\ allowed d = false /\ deniedByLevel d = true /\ allowed (chk (floorCategory g)) = true /\
   status (substitute_level chk g d) = (true, true)).
Proof.
  unfold substitute_level. destruct (_ && _) eqn:E; [|by left].
  destruct (allowed (chk (floorCategory g))) eqn:Ef; [|by left]. right.
  to_prop. destruct (confirm g); done.
Qed.

Lemma decide_call_cases chk name g d : faithful chk -> decide_call chk name g = Some d ->
  In (actionCategory d) (categories g) /\
  (status d = (true, false) ->
     (forall c, In c (categories g) -> status (chk c) = (true, false)) /\ confirm g <> Some confirm_always) /\
  (status d = (true, true) -> forall c, In c (categories g) ->
     allowed (chk c) = true \/
     (deniedByLevel (chk c) = true /\ confirm g <> None /\ allowed (chk (floorCategory g)) = true)) /\
  (allowed d = false -> exists c, In c (categories g) /\ allowed (chk c) = false /\
     (confirm g <> None -> allowed (chk (floorCategory g)) = true -> floorCategory g <> c ->
      actionCategory d = c -> deniedByLevel d = false)).
Proof.
  intros Hf H. unfold decide_call in H. destruct (combineDecisions (map chk (categories g))) as [d0|] eqn:Ec; [|done].
  cbn [mbind option_bind] in H. injection H as <-.
  pose proof (combine_source _ _ Ec) as [Hin Hsrc]. pose proof (combine_allowed _ _ Ec) as Hal.
  pose proof (combine_approval _ _ Ec) as Hap.
  assert (In (actionCategory d0) (categories g)) as Hcat.
  { apply in_map_iff in Hin as (c & <- & Hc). by rewrite Hf. }
  assert (forall c, In c (categories g) -> In (chk c) (map chk (categories g))) as Hm by (intros; by apply in_map).
  rewrite require_confirmation_category, substitute_category. split_and!; [done| | |].
  - destruct (substitute_cases chk g d0) as [->|(_ & _ & _ & _ & Hs)].
    + unfold status. rewrite require_confirmation_allowed. intros [= Ha Hr].
      unfold require_confirmation in Hr. rewrite Ha in Hr. split.
      * intros c Hc. rewrite (proj1 Hal Ha (chk c) (Hm c Hc)). f_equal.
        destruct (requiresApproval (chk c)) eqn:E; [|done].
        assert (requiresApproval d0 = true) as E0 by (apply (proj2 (Hap Ha)); eauto).
        rewrite E0 in Hr. cbn [negb] in Hr. rewrite andb_false_r in Hr. congruence.
      * intros E. rewrite E, bool_decide_eq_true_2 in Hr by done. simpl in Hr.
        destruct (requiresApproval d0) eqn:E0; simpl in Hr; congruence.
    + unfold status in Hs. injection Hs as Ha Hr. unfold require_confirmation.
      rewrite Ha, Hr. simpl. rewrite andb_false_r. unfold status. rewrite Ha, Hr. done.
  - intros [= Ha Hr] c Hc. rewrite require_confirmation_allowed in Ha.
    destruct (substitute_cases chk g d0) as [E|(Hcf & Hd & Hl & Hfl & _)].
    + rewrite E in Ha. left. by apply (proj1 Hal Ha), Hm.
    + destruct (allowed (chk c)) eqn:E; [by left|]. right.
      destruct Hsrc as [[_ Hsrc]|[[Hall _]|Hall]].
      * destruct (Hsrc Hl (chk c) (Hm c Hc) E). done.
      * rewrite (Hall (chk c) (Hm c Hc)) in E. done.
      * destruct (Hall (chk c) (Hm c Hc)). congruence.
  - rewrite require_confirmation_allowed. intros Ha.
    destruct (substitute_cases chk g d0) as [E|(_ & _ & _ & _ & Hs)]; [|unfold status in Hs; congruence].
    rewrite E in Ha. exists (actionCategory d0). split; [done|].
    apply in_map_iff in Hin as (c & Hc & Hcin). rewrite <- Hc, Hf. split; [congruence|].
    intros Hcf Hfl Hne _. rewrite Hc. unfold require_confirmation. rewrite E.
    destruct (deniedByLevel d0) eqn:El; [|by destruct (_ && _)]. exfalso.
    unfold substitute_level in E. rewrite Ha, El in E. simpl in E.
    destruct (confirm g); [|done]. simpl in E.
    assert (actionCategory d0 = c) as Ed by (by rewrite <- Hc, Hf).
    rewrite bool_decide_eq_false_2 in E by congruence. simpl in E. rewrite Hfl in E.
    rewrite <- E in Ha. done.
Qed.

Lemma decide_call_total chk name tool tname ps :
  exists d, decide_call chk name (resolveToolGate tool tname ps) = Some d.
Proof.
  unfold decide_call. destruct (combine_total (map chk (categories (resolveToolGate tool tname ps)))) as [d ->]; [|eauto].
  destruct (resolve_categories tool tname ps) as (_ & _ & ->).
  intros E. apply map_eq_nil in E.
  assert (In (getActionForTool tname ((tool_category <$> tool) ?? "unknown")) []) as []; rewrite <- E.
  apply sort_by_In, dedup_In. by left.
Qed.

Lemma check_faithful o cfg hour taint p name tool : faithful (check o cfg hour taint p name tool).
Proof. intros c. apply check_category. Qed.

Section gate_lemmas.
Context (registries : nat -> ToolRegistry) (fence : option string).

Lemma run_through_run reg name args t args' : run_through_registry registries fence reg name args = run_tool t args' ->
  args' = args /\ get (registries reg) name = Some t /\ List.Forall (argument_ok args) (tool_parameters t) /\ fence = None.
Proof.
  unfold run_through_registry, execute_begin. destruct (get (registries reg) name) as [t0|]; [|done].
  destruct (validateParameters t0 args) eqn:Ev; [done|]. destruct fence; [done|]. intros [= <- <-].
  split_and!; try done. apply List.Forall_forall. intros p Hin. eapply validateParameter_ok.
  by apply (proj1 (first_error_None _ _) Ev).
Qed.

Lemma run_through_other reg name args s : run_through_registry registries fence reg name args = s ->
  match s with wait_for _ | run_intent _ _ => False | _ => True end.
Proof. intros <-. unfold run_through_registry. by destruct (execute_begin _ _ _ _). Qed.

Lemma create_row regs m id now p m' r : createRequest regs m id now p = Some (m', r) ->
  r = new_request id now p /\ getRequest m' id = Some r.
Proof.
  unfold createRequest. destruct (insert_row _ _) as [t|] eqn:Ei; [|done].
  intros H. apply (f_equal (fmap (fun x => (rows x.1, x.2)))) in H. cbn [fmap option_fmap option_map fst snd rows] in H.
  injection H as Ht Hr. subst r t. split; [done|]. unfold getRequest.
  rewrite (get_row_insert _ _ _ _ Ei). by rewrite bool_decide_eq_true_2.
Qed.

Lemma ask_approval_step o reg p name args g d id aid now o' s :
  ask_approval registries o reg p name args g d id aid now = (o', s) ->
  match s with
  | run_tool _ _ | run_intent _ _ => False
  | wait_for r => r = new_request id now (mkCreate (agent_key p) (auditAgentName o (role_name (agent_role p))) name args
      (actionCategory d) (determineUrgency (actionCategory d)) (reason d) (gateContext g name args) (Some inline) (Some reg)) /\
      has_executor o = true /\ getRequest (mgr (world o')) id = Some r /\
      createRequest registries (mgr (world o)) id now (mkCreate (agent_key p) (auditAgentName o (role_name (agent_role p))) name args
      (actionCategory d) (determineUrgency (actionCategory d)) (reason d) (gateContext g name args) (Some inline) (Some reg)) =
        Some (mgr (world o'), r)
  | _ => True
  end.
Proof.
  unfold ask_approval. destruct (has_approvals o); [|by intros [= _ <-]].
  destruct (createRequest _ _ _ _ _) as [[m r]|] eqn:Ec; [|by intros [= _ <-]].
  destruct (has_executor o) eqn:Ex; cbn [negb]; intros [= <- <-]; [|done].
  cbn [mgr world with_world with_mgr]. pose proof (create_row _ _ _ _ _ _ _ Ec) as [Hr Hg].
  split_and!; [exact Hr|done|exact Hg|done].
Qed.

Lemma log_call_world o aid now p l name c t ran ch :
  mgr (world (log_call o aid now p l name c t ran ch)) = mgr (world o) /\
  has_executor (log_call o aid now p l name c t ran ch) = has_executor o /\
  authorityProfile (log_call o aid now p l name c t ran ch) = authorityProfile o /\
  (has_audit o = true -> exists e, trail (world (log_call o aid now p l name c t ran ch)) = trail (world o) ++ [e] /\
     aud_tool_name e = name /\ aud_category e = c /\ authority_decision e = t /\ aud_executed e = ran /\ channel e = ch).
Proof.
  unfold log_call. destruct (has_audit o); split_and!; try done. intros _. eexists. split; [done|]. done.
Qed.

(** The shape of the text path once the preliminary answers are ruled out. *)
Lemma execute_tool_cases o hour taint name args id aid now o' s :
  execute_tool registries fence o hour taint name args id aid now = (o', s) ->
  match s with run_tool _ _ | wait_for _ => True | _ => False end ->
  exists reg, orch_registry o = Some reg /\ (orch_emergency o = None \/ orch_emergency o = Some normal) /\
    name <> "request_approval" /\
    match authorityEngine o with
    | None => s = run_through_registry registries fence reg name args
    | Some cfg => exists p, getPrimary (hierarchy o) = Some p /\
        gated_call registries fence o cfg hour taint p reg name args id aid now = (o', s)
    end.
Proof.
  unfold execute_tool. destruct (orch_registry o) as [reg|]; [|by intros [= _ <-]].
  destruct (if match orch_emergency o with Some s => negb (canExecute s) | None => false end then orch_emergency o else None) as [em|] eqn:Ee; [by intros [= _ <-]|].
  case_bool_decide as En; [destruct (execute_begin _ _ _ _); by intros [= _ <-]|].
  assert (orch_emergency o = None \/ orch_emergency o = Some normal) as He.
  { destruct (orch_emergency o) as [em|]; [|by left]. destruct (canExecute em) eqn:Ec; [|done]. right.
    unfold canExecute in Ec. apply bool_decide_eq_true in Ec. by subst. }
  destruct (authorityEngine o) as [cfg|], (getPrimary (hierarchy o)) as [p|]; try (by intros [= _ <-]);
    (destruct (negb (has (registries reg) name)); [by intros [= _ <-]|]); intros H Hs;
    exists reg; split_and!; try done; [by exists p| |]; by injection H.
Qed.

(** The call of [request_approval]. *)
Lemma execute_tool_intent o hour taint name args id aid now o' s :
  execute_tool registries fence o hour taint name args id aid now = (o', s) -> forall t args', s = run_intent t args' ->
  exists reg, (orch_emergency o = None \/ orch_emergency o = Some normal) /\ orch_registry o = Some reg /\
    name = "request_approval" /\ o' = o /\ args' = args /\
    List.Forall (argument_ok args) (tool_parameters t) /\ get (registries reg) name = Some t.
Proof.
  intros H t args' ->. unfold execute_tool in H. destruct (orch_registry o) as [reg|]; [|done].
  destruct (if match orch_emergency o with Some s => negb (canExecute s) | None => false end then orch_emergency o else None) eqn:Ee; [done|].
  assert (orch_emergency o = None \/ orch_emergency o = Some normal) as He.
  { destruct (orch_emergency o) as [em|]; [|by left]. destruct (canExecute em) eqn:Ec; [|done]. right.
    unfold canExecute in Ec. apply bool_decide_eq_true in Ec. by subst. }
  exists reg. case_bool_decide as En.
  - destruct (execute_begin (registries reg) name args fence) as [e|t0] eqn:Eb; [done|]. injection H as <- <- <-.
    assert (run_through_registry registries fence reg name args = run_tool t0 args) as Hr by (unfold run_through_registry; by rewrite Eb).
    apply run_through_run in Hr as (_ & Hg & Hv & _). by split_and!.
  - exfalso. destruct (authorityEngine o) as [cfg|], (getPrimary (hierarchy o)) as [p|]; try done;
      (destruct (negb (has (registries reg) name)); [done|]);
      try (injection H as _ H; by apply run_through_other in H).
    unfold gated_call in H. destruct (decide_call _ _ _) as [d|]; [|done].
    destruct (allowed d); cbn [negb] in H; [|by injection H].
    destruct (requiresApproval d); [by apply ask_approval_step in H|]. apply (f_equal snd) in H. by apply run_through_other in H.
Qed.

(** A judged call that runs was allowed on every category, and recorded. *)
Lemma gated_call_runs o cfg hour taint p reg name args id aid now o' t args' :
  gated_call registries fence o cfg hour taint p reg name args id aid now = (o', run_tool t args') ->
  run_through_registry registries fence reg name args = run_tool t args' /\
  let g := resolveToolGate (get (registries reg) name) name args in
  (forall c, In c (categories g) -> status (check o cfg hour taint p name (get (registries reg) name) c) = (true, false)) /\
  confirm g <> Some confirm_always /\
  (has_audit o = true -> exists e, trail (world o') = trail (world o) ++ [e] /\
     aud_tool_name e = name /\ In (aud_category e) (categories g) /\
     authority_decision e = audit_allowed /\ aud_executed e = true).
Proof.
  intros Hgc. unfold gated_call in Hgc. destruct (decide_call _ _ _) as [d|] eqn:Ed; [|done].
  pose proof (decide_call_cases _ _ _ _ (check_faithful _ _ _ _ _ _ _) Ed) as (Hcat & Hok & _).
  destruct (allowed d) eqn:Ea; cbn [negb] in Hgc; [|by injection Hgc].
  destruct (requiresApproval d) eqn:Er; [by apply ask_approval_step in Hgc|].
  pose proof (f_equal snd Hgc) as Hx. pose proof (f_equal fst Hgc) as Ho. cbn [fst snd] in Hx, Ho. split; [done|].
  unfold status in Hok at 1. rewrite Ea, Er in Hok. destruct (Hok eq_refl) as [Hall Hconf]. cbn zeta. split_and!; [done|done|].
  intros Hau. rewrite <- Ho. destruct (log_call_world o aid now p (auditAgentName o (role_name (agent_role p))) name
    (actionCategory d) (decision_type d) (true && negb false) None) as (_ & _ & _ & Hl).
  destruct (Hl Hau) as (e & Htr & ? & Hce & Hde & ? & _). exists e. split_and!; try done.
  - by rewrite Hce.
  - rewrite Hde. unfold decision_type. by rewrite Ea, Er.
Qed.
End gate_lemmas.

(** The card of a reviewed UI call has its sentence, unless the tool's own gate declares an empty one. *)
Definition card_has_sentence (tool : option ToolDefinition) (name : string) (args : params) : bool :=
  match effective_gate tool name args with Some g => truthy (gate_intent g) | None => true end.

(** A reviewed UI call demands the click. *)
Lemma reviewed_confirm tool name args :
  includes name REVIEWED_UI_TOOLS = true ->
  (name = "ui_act" -> jstr_is (assoc_get "action" args) "get_value" = false) ->
  confirm (resolveToolGate tool name args) = Some confirm_always /\
  truthy_opt (intent (resolveToolGate tool name args)) = card_has_sentence tool name args.
Proof.
  intros Hu Hv.
  assert (exists i, rawUiGate name args = Some (mkGate (category_name control_app) None i (Some confirm_always)) /\ truthy i = true)
    as (i & Hg & Hi).
  { unfold rawUiGate. rewrite Hu. cbn [negb].
    destruct (bool_decide (name = "ui_act")) eqn:E; simpl; [to_prop; rewrite (Hv E)|]; eexists; done. }
  split; [rewrite resolve_confirm, Hg; by rewrite bool_decide_eq_true_2|].
  rewrite resolve_intent, Hg. unfold card_has_sentence. by destruct (effective_gate tool name args).
Qed.

(** ** Properties *)

(** C7: no tool runs past the gate but [request_approval], which is the gate. When a text turn
    hands a call to a tool's body, by either of the two ways it has, the system is not paused or
    killed, the tool is the one the registry holds and the arguments passed its validation. The way
    around the authority check is [request_approval]'s own, and that call leaves no audit row here.
    On the other one, with an authority engine wired there is a primary agent for which every
    category the call reaches is allowed without approval, the tool does not demand confirmation,
    and the audit trail, if there is one, has just recorded the call as allowed and executed;
    without an engine the call runs unjudged. *)
Theorem direct_runs_are_cleared registries fence o hour taint name args id aid now o' t args' step :
  execute_tool registries fence o hour taint name args id aid now = (o', step) ->
  step = run_tool t args' \/ step = run_intent t args' ->
  (orch_emergency o = None \/ orch_emergency o = Some normal) /\
  args' = args /\ List.Forall (argument_ok args) (tool_parameters t) /\
  (exists reg, orch_registry o = Some reg /\ get (registries reg) name = Some t) /\
  (step = run_intent t args' <-> name = "request_approval") /\
  (step = run_intent t args' -> o' = o) /\
  (step = run_tool t args' ->
   match authorityEngine o with
   | None => True
   | Some cfg => exists p, getPrimary (hierarchy o) = Some p /\
       let g := resolveToolGate (Some t) name args in
       (forall c, In c (categories g) -> status (check o cfg hour taint p name (Some t) c) = (true, false)) /\
       confirm g <> Some confirm_always /\
       (has_audit o = true -> exists e, trail (world o') = trail (world o) ++ [e] /\
          aud_tool_name e = name /\ In (aud_category e) (categories g) /\
          authority_decision e = audit_allowed /\ aud_executed e = true)
   end).
Proof.
  intros H [->|Hi].
  2: { destruct (execute_tool_intent _ _ _ _ _ _ _ _ _ _ _ _ H _ _ Hi) as (reg & He & Hreg & Hn & Ho & Ha & Hv & Hg).
    subst step. split_and!; try done. by exists reg. }
  destruct (execute_tool_cases _ _ _ _ _ _ _ _ _ _ _ _ H I) as (reg & Hreg & He & Hn & Hs).
  assert (forall x, x = run_through_registry registries fence reg name args -> x = run_tool t args' ->
    args' = args /\ List.Forall (argument_ok args) (tool_parameters t) /\ get (registries reg) name = Some t) as Hrun.
  { intros x -> Hx. by apply run_through_run in Hx as (? & ? & ? & _). }
  destruct (authorityEngine o) as [cfg|].
  - destruct Hs as (p & Hp & Hgc). destruct (gated_call_runs _ _ _ _ _ _ _ _ _ _ _ _ _ _ _ _ Hgc) as (Hx & H2).
    destruct (Hrun _ eq_refl Hx) as (-> & Hv & Ht). rewrite Ht in H2.
    split_and!; [done|done|done|by exists reg|done|done|]. intros _. by exists p.
  - destruct (Hrun _ eq_refl (eq_sym Hs)) as (-> & Hv & Ht). split_and!; try done. by exists reg.
Qed.

(** A small configuration for the examples: level 5, email governed. *)
Definition demo_config : AuthorityConfig := mkConfig 5 [send_email] [] [] (mkLearning true 5) normal.

Definition demo_orchestrator (tools : list string) : Orchestrator :=
  mkOrchestrator (mkWorld empty_manager [] [] true (Some normal) (Some 0%nat) []) (Some 0%nat) (Some demo_config)
    true true true (Some normal) None (Some (buildTaintGating None)) tools ∅
    (addAgent empty_hierarchy (demo_agent "p" None)).

Definition click_plain : ToolDefinition := mkTool 3 "desktop_click" "Click" "desktop" [] None None.
Definition mail_tool : ToolDefinition :=
  mkTool 5 "gmail_send" "Send" "email" [] (Some (fun _ => gate_returns (Some (mkGate "send_email" None "send an email" None)))) None.

Lemma direct_runs_are_cleared_witness :
  (execute_tool (fun _ => [read_file_tool]) None (demo_orchestrator []) 12 [] "read_file" [("path", JStr "/a")] "r" "a" 1).2
    = run_tool read_file_tool [("path", JStr "/a")] /\
  status (check (demo_orchestrator []) demo_config 12 [] (demo_agent "p" None) "read_file" (Some read_file_tool) read_data)
    = (true, false).
Proof.
  split; [by vm_compute|].
  destruct (direct_runs_are_cleared (fun _ => [read_file_tool]) None (demo_orchestrator []) 12 [] "read_file"
    [("path", JStr "/a")] "r" "a" 1
    (execute_tool (fun _ => [read_file_tool]) None (demo_orchestrator []) 12 [] "read_file" [("path", JStr "/a")] "r" "a" 1).1
    read_file_tool [("path", JStr "/a")] (run_tool read_file_tool [("path", JStr "/a")])) as (_ & _ & _ & _ & _ & _ & H).
  - vm_compute. reflexivity.
  - by left.
  - destruct (H eq_refl) as (p & Hp & Hall & _). injection Hp as <-. apply Hall. vm_compute. tauto.
Defined.

(** The decision of a gated call is sound. It is allowed without asking
    only if every category is and nobody demands confirmation; it is allowed
    with an approval only if every category is either allowed, or fell short
    of its level alone while the tool's gate asks for the substitution and the
    agent clears the tool's floor on its own; it is refused only over a
    category that is refused; and there is always a decision, made on one of
    the categories of the call. *)
Theorem gate_decision_sound o cfg hour taint p tool name args :
  let g := resolveToolGate tool name args in
  let chk := check o cfg hour taint p name tool in
  exists d, decide_call chk name g = Some d /\
    In (actionCategory d) (categories g) /\
    (status d = (true, false) ->
       (forall c, In c (categories g) -> status (chk c) = (true, false)) /\ confirm g <> Some confirm_always) /\
    (status d = (true, true) -> forall c, In c (categories g) ->
       allowed (chk c) = true \/
       (confirm g <> None /\ allowed (chk (floorCategory g)) = true /\
        has_grant (mkCheck (agent_key p) (max_authority_level (authority p)) (role_id (agent_role p)) name
          ((tool_category <$> tool) ?? "unknown") c (grants o) (getEffectiveProfile o taint)) = false /\
        findOverride cfg c (role_id (agent_role p)) = None /\
        evaluateContextRules (context_rules cfg) hour c name = None)) /\
    (allowed d = false -> exists c, In c (categories g) /\ allowed (chk c) = false).
Proof.
  cbn zeta. destruct (decide_call_total (check o cfg hour taint p name tool) name tool name args) as [d Hd].
  exists d. split; [done|].
  destruct (decide_call_cases _ _ _ _ (check_faithful o cfg hour taint p name tool) Hd) as (H1 & H2 & H3 & H4).
  split_and!; [done|done| |].
  - intros Hs c Hc. destruct (H3 Hs c Hc) as [|(Hl & Hcf & Hfl)]; [by left|right].
    split_and!; [done|done|..]; unfold check in Hl; rewrite checkAuthority_level in Hl; unfold baseDecision in Hl;
      unfold has_grant; cbn [checkCategory agentRoleId toolName temporaryGrants agentId agentAuthorityLevel] in *;
      destruct (match grants o !! agent_key p with Some gr => includes c gr | None => false end); try done;
      destruct (findOverride cfg c (role_id (agent_role p))); try (by rewrite decide_override_level in Hl); try done.
    destruct (evaluateContextRules (context_rules cfg) hour c name); [by rewrite decide_rule_level in Hl|done].
  - intros Ha. destruct (H4 Ha) as (c & Hc & Hcd & _). by exists c.
Qed.

(** C8: a reviewed UI action never runs unreviewed. For every tool that clicks,
    types, navigates or uploads, whatever its own gate, the configuration, the
    grants and the learned rules say, a text turn of a wired orchestrator never
    hands it to the tool's body, and a voice session never does at all; and
    when a turn waits for the user, the request it wrote is pending, inline,
    for exactly this tool and these arguments. That request demands the click
    exactly when its card has a sentence: always, except when the tool's own
    gate gives an empty one, which no click is demanded for. *)
Theorem ui_actions_never_run_unreviewed registries fence o hour taint blocked name args id aid now :
  includes name REVIEWED_UI_TOOLS = true ->
  (name = "ui_act" -> jstr_is (assoc_get "action" args) "get_value" = false) ->
  (authorityEngine o <> None -> forall o' t args',
     execute_tool registries fence o hour taint name args id aid now <> (o', run_tool t args') /\
     execute_tool registries fence o hour taint name args id aid now <> (o', run_intent t args')) /\
  (forall o' t args', execute_realtime registries fence o hour blocked name args aid now <> (o', run_tool t args')) /\
  (forall o' r, execute_tool registries fence o hour taint name args id aid now = (o', wait_for r) ->
     getRequest (mgr (world o')) id = Some r /\ req_status r = pending /\ execution_mode r = inline /\
     req_tool_name r = name /\ parse (tool_arguments r) = Some (JObj args) /\
     exists reg, orch_registry o = Some reg /\
       approvalNeedsClick (context r) = card_has_sentence (get (registries reg) name) name args).
Proof.
  intros Hu Hv. split_and!.
  - intros Heng o' t args'. split; intros H.
    + destruct (execute_tool_cases _ _ _ _ _ _ _ _ _ _ _ _ H I) as (reg & Hreg & _ & _ & Hs).
      destruct (authorityEngine o) as [cfg|]; [|done]. destruct Hs as (p & Hp & Hgc).
      destruct (reviewed_confirm (get (registries reg) name) name args Hu Hv) as [Hc _].
      by destruct (gated_call_runs _ _ _ _ _ _ _ _ _ _ _ _ _ _ _ _ Hgc) as (_ & _ & Hn & _).
    + destruct (execute_tool_intent _ _ _ _ _ _ _ _ _ _ _ _ H _ _ eq_refl) as (_ & _ & _ & -> & _). by vm_compute in Hu.
  - intros o' t args' H. unfold execute_realtime in H.
    destruct (orch_registry o) as [reg|]; [|done].
    destruct (if match orch_emergency o with Some s => negb (canExecute s) | None => false end then orch_emergency o else None);
      [done|]. destruct (negb (has (registries reg) name)); [done|]. cbv beta zeta in H.
    destruct (List.find _ _); [done|].
    destruct (reviewed_confirm (get (registries reg) name) name args Hu Hv) as [Hc _].
    rewrite Hc, bool_decide_eq_true_2 in H by done. done.
  - intros o' r H. destruct (execute_tool_cases _ _ _ _ _ _ _ _ _ _ _ _ H I) as (reg & Hreg & _ & _ & Hs).
    destruct (authorityEngine o) as [cfg|]; [|symmetry in Hs; by apply run_through_other in Hs].
    destruct Hs as (p & Hp & Hgc). unfold gated_call in Hgc.
    destruct (decide_call _ _ _) as [d|] eqn:Ed; [|done].
    destruct (allowed d); cbn [negb] in Hgc; [|by injection Hgc].
    destruct (requiresApproval d); [|apply (f_equal snd) in Hgc; by apply run_through_other in Hgc].
    apply ask_approval_step in Hgc as (-> & _ & Hg & _).
    split_and!; try done; [by apply args_of_stringify|]. exists reg. split; [done|].
    destruct (reviewed_confirm (get (registries reg) name) name args Hu Hv) as [Hc <-]. cbn [context new_request cp_context].
    unfold gateContext, approvalNeedsClick. destruct (intent (resolveToolGate _ _ _)) as [i|]; [|done]. cbn [truthy_opt].
    destruct (truthy i); [|done]. rewrite Hc, bool_decide_eq_true_2 by done. rewrite stringify_obj_head, parse_stringify. done.
Qed.

Lemma ui_actions_never_run_unreviewed_witness :
  exists o' r, execute_tool (fun _ => [click_plain]) None (demo_orchestrator []) 12 [] "desktop_click"
      [("element_id", JNum 3)] "r1" "a1" 1 = (o', wait_for r) /\ approvalNeedsClick (context r) = true.
Proof.
  eexists _, _. split; [reflexivity|].
  edestruct (ui_actions_never_run_unreviewed (fun _ => [click_plain]) None (demo_orchestrator []) 12 [] None "desktop_click"
    [("element_id", JNum 3)] "r1" "a1" 1) as (_ & _ & H); [done|done|].
  destruct (H _ _ eq_refl) as (_ & _ & _ & _ & _ & reg & [= <-] & ->). reflexivity.
Defined.

(** A gate that stops waiting loses no approval and invents none. Whatever
    happened to the row since the gate last read it, when the gate executes,
    the request has been approved; when it returns the tool's own text, the
    request is executed; and when it gives up, the row it leaves behind is not
    an approved inline one, which nobody else would execute: a request still
    pending inline was handed to the deferred path. *)
Theorem abandoned_gate_leaves_no_orphan o request resolved cur name d o' out :
  manager_wf (mgr (world o)) -> getRequest (mgr (world o)) (req_id request) = Some cur -> evolves resolved cur ->
  after_wait o request resolved name d = (o', out) ->
  exists r', getRequest (mgr (world o')) (req_id request) = Some r' /\
  match out with
  | inr _ => req_status r' = approved \/ req_status r' = executed
  | inl (true, text) => req_status r' = executed /\
      (req_status resolved = pending -> text = execution_result r' ?? ("[EXECUTED] " +:+ name +:+ " completed."))
  | inl (false, _) => ~ (req_status r' = approved /\ execution_mode r' = inline) /\
      (req_status cur = pending -> execution_mode cur = inline -> execution_mode r' = deferred)
  end.
Proof.
  intros [Hk _] Hcur He H. apply evolves_facts in He as (_ & Hle & _). unfold after_wait in H.
  destruct (req_status resolved) eqn:Es.
  2-5: (injection H as <- <-; exists cur; split; [done|]; revert Hle; destruct (req_status cur); simpl;
        intros; split_and?; naive_solver).
  destruct (demoteToDeferred (mgr (world o)) (req_id request)) as [m demoted] eqn:Ed.
  assert (getRequest m (req_id request) = Some (if has_status pending cur && has_mode inline cur then with_mode deferred cur else cur)
    /\ demoted = (has_status pending cur && has_mode inline cur)) as [Hm Hdem].
  { unfold demoteToDeferred in Ed. rewrite (surjective_pairing (update_where _ _ _)) in Ed.
    pose proof (f_equal fst Ed) as E1. pose proof (f_equal snd Ed) as E2. cbn [fst snd] in E1, E2. subst m. split.
    - unfold getRequest in *. cbn [rows with_rows]. rewrite get_row_update_key, Hcur by apply _. done.
    - rewrite <- E2. rewrite (update_key_changes _ _ (with_mode deferred) _ Hk). unfold getRequest in Hcur. rewrite Hcur.
      by destruct (has_status pending cur && has_mode inline cur). }
  destruct (has_status pending cur && has_mode inline cur) eqn:Ec; subst demoted; cbn [negb] in H.
  - injection H as <- <-. exists (with_mode deferred cur). split; [done|].
    apply andb_true_iff in Ec as [Ec%has_status_spec _]. simpl. rewrite Ec. naive_solver.
  - rewrite Hm in H. exists cur.
    assert (req_status cur = pending -> execution_mode cur <> inline) as Hpi.
    { intros Hp Hi. unfold has_status, has_mode in Ec. by rewrite Hp, Hi in Ec. }
    destruct (req_status cur) eqn:Ecs; injection H as <- <-; cbn [mgr world with_world with_mgr]; rewrite ?Hm, ?Ecs;
      (split; [done|]); naive_solver.
Qed.

Definition waiting_orchestrator : Orchestrator :=
  with_world (demo_orchestrator []) (with_mgr (world (demo_orchestrator []))
    (mkManager [with_mode inline (new_request "r1" 1 demo_create)] ∅ "boot1")).
Definition demo_decision : AuthorityDecision := plain true true "why" read_data.

Lemma abandoned_gate_leaves_no_orphan_witness :
  let row := with_mode inline (new_request "r1" 1 demo_create) in
  let o' := (after_wait waiting_orchestrator row row "read_file" demo_decision).1 in
  exists r', getRequest (mgr (world o')) "r1" = Some r' /\ execution_mode r' = deferred.
Proof.
  cbn zeta.
  destruct (abandoned_gate_leaves_no_orphan waiting_orchestrator (with_mode inline (new_request "r1" 1 demo_create))
    (with_mode inline (new_request "r1" 1 demo_create)) (with_mode inline (new_request "r1" 1 demo_create))
    "read_file" demo_decision
    (after_wait waiting_orchestrator (with_mode inline (new_request "r1" 1 demo_create))
      (with_mode inline (new_request "r1" 1 demo_create)) "read_file" demo_decision).1
    (inl (false, awaiting (with_mode inline (new_request "r1" 1 demo_create)) "read_file" demo_decision
    ("The user has not responded yet. They can still approve or deny it later; " +:+
     "if approved later, it will be executed and the user will be notified.")))) as (r' & Hr & _ & Hm).
  - split; repeat constructor; simpl; tauto.
  - reflexivity.
  - apply rtc_refl.
  - vm_compute. reflexivity.
  - exists r'. split; [exact Hr|by apply Hm].
Defined.

(** What a voice session may run. A voice call reaches a tool's body only
    while the system is not paused or killed, for a tool the registry holds and
    arguments it validated, with none of its categories on the blocked list and
    no confirmation demanded; with an engine and a primary agent, only if every
    category is allowed, and, when a category asks for approval, the approval
    does not carry the taint label; and the audit trail then tells an
    auto-approved call from one that needed none. *)
Theorem voice_runs_are_cleared registries fence o hour blocked name args aid now o' t args' :
  execute_realtime registries fence o hour blocked name args aid now = (o', run_tool t args') ->
  let g := resolveToolGate (Some t) name args in
  (orch_emergency o = None \/ orch_emergency o = Some normal) /\
  args' = args /\ List.Forall (argument_ok args) (tool_parameters t) /\
  (exists reg, orch_registry o = Some reg /\ get (registries reg) name = Some t) /\
  (forall c l, In c (categories g) -> blocked = Some l -> ~ In (category_name c) l) /\
  confirm g <> Some confirm_always /\
  (forall cfg p, authorityEngine o = Some cfg -> getPrimary (hierarchy o) = Some p ->
     let chk := check o cfg hour (realtimeTaint o) p name (Some t) in
     (forall c, In c (categories g) -> allowed (chk c) = true) /\
     exists d, combineDecisions (map chk (categories g)) = Some d /\ taint_block d = false /\
       (has_audit o = true -> exists e, trail (world o') = trail (world o) ++ [e] /\
          channel e = Some voice /\ aud_executed e = true /\ aud_category e = gateCategory g /\
          (authority_decision e = audit_approval_required <->
             exists c, In c (categories g) /\ requiresApproval (chk c) = true))).
Proof.
  intros H. cbn zeta. unfold execute_realtime in H.
  destruct (orch_registry o) as [reg|] eqn:Hreg; [|done].
  destruct (if match orch_emergency o with Some s => negb (canExecute s) | None => false end then orch_emergency o else None)
    eqn:Ee; [done|].
  assert (orch_emergency o = None \/ orch_emergency o = Some normal) as He.
  { destruct (orch_emergency o) as [em|]; [|by left]. destruct (canExecute em) eqn:Ec; [|done]. right.
    unfold canExecute in Ec. apply bool_decide_eq_true in Ec. by subst. }
  destruct (negb (has (registries reg) name)); [done|]. cbv beta zeta in H.
  destruct (List.find _ _) eqn:Ef; [done|]. case_bool_decide as Ecf; [done|].
  assert (forall x, run_through_registry registries fence reg name args = x -> x = run_tool t args' ->
    args' = args /\ get (registries reg) name = Some t /\ List.Forall (argument_ok args) (tool_parameters t)) as Hrun.
  { intros x <- Hx. by apply run_through_run in Hx as (? & ? & ? & _). }
  assert (get (registries reg) name = Some t ->
    (forall c l, In c (categories (resolveToolGate (Some t) name args)) -> blocked = Some l -> ~ In (category_name c) l)) as Hbl.
  { intros Ht c l Hc -> Hin. rewrite Ht in Ef. pose proof (List.find_none _ _ Ef c Hc) as Hn. cbv beta in Hn. simpl in Hn.
    apply includes_false in Hn. done. }
  destruct (authorityEngine o) as [cfg|]; [destruct (getPrimary (hierarchy o)) as [p|]|].
  - destruct (combineDecisions _) as [d|] eqn:Ed; [|done].
    destruct (allowed d) eqn:Ea; cbn [negb] in H; [|done]. destruct (taint_block d) eqn:Etb; [done|].
    pose proof (f_equal snd H) as Hx. pose proof (f_equal fst H) as Ho. cbn [fst snd] in Hx, Ho.
    destruct (Hrun _ eq_refl Hx) as (-> & Ht & Hv). rewrite Ht in *.
    split_and!; try done; [by exists reg|by apply Hbl|]. intros cfg0 p0 [= <-] [= <-].
    pose proof (combine_allowed _ _ Ed) as Hal. pose proof (combine_approval _ _ Ed Ea) as Hap. split.
    + intros c Hc. apply (proj1 Hal Ea). by apply in_map.
    + exists d. split_and!; [done|done|]. intros Hau. rewrite <- Ho.
      destruct (log_call_world o aid now p (role_name (agent_role p)) name (gateCategory (resolveToolGate (Some t) name args))
        (if requiresApproval d then audit_approval_required else audit_allowed) true (Some voice)) as (_ & _ & _ & Hl).
      destruct (Hl Hau) as (e & Htr & _ & Hce & Hde & Hex & Hch). exists e. split_and!; try done.
      rewrite Hde. transitivity (requiresApproval d = true); [by destruct (requiresApproval d)|]. rewrite Hap. split.
      * intros (x & (c & <- & Hc)%in_map_iff & Hr). by exists c.
      * intros (c & Hc & Hr). eexists. split; [by apply in_map|done].
  - apply (f_equal snd) in H. destruct (Hrun _ eq_refl H) as (-> & Ht & Hv). rewrite Ht in Ecf. split_and!; try done; [by exists reg|by apply Hbl].
  - apply (f_equal snd) in H. destruct (Hrun _ eq_refl H) as (-> & Ht & Hv). rewrite Ht in Ecf. split_and!; try done; [by exists reg|by apply Hbl].
Qed.

Lemma voice_runs_are_cleared_witness :
  (execute_realtime (fun _ => [read_file_tool]) None (demo_orchestrator []) 12 (Some ["make_payment"]) "read_file"
     [("path", JStr "/a")] "a" 1).2 = run_tool read_file_tool [("path", JStr "/a")] /\
  confirm (resolveToolGate (Some read_file_tool) "read_file" [("path", JStr "/a")]) <> Some confirm_always.
Proof.
  split; [by vm_compute|].
  apply (voice_runs_are_cleared (fun _ => [read_file_tool]) None (demo_orchestrator []) 12 (Some ["make_payment"]) "read_file"
     [("path", JStr "/a")] "a" 1
     (execute_realtime (fun _ => [read_file_tool]) None (demo_orchestrator []) 12 (Some ["make_payment"]) "read_file"
       [("path", JStr "/a")] "a" 1).1 read_file_tool [("path", JStr "/a")]).
  vm_compute. reflexivity.
Defined.

(** The label test misses the categories the shared configuration governs: the
    profile leaves a decision that already asks for approval as it is, so an
    email after reading outside content is auto-approved by voice, while a
    file write in the same session is refused. *)
Definition mail_role : RoleDefinition := mkRole "assistant" "Assistant" ["delegation"] 9 None.
Definition tainted_orchestrator : Orchestrator :=
  with_hierarchy (demo_orchestrator ["browser_snapshot"])
    (addAgent empty_hierarchy (new_agent "p" "s" 1 mail_role None None None)).
Definition notes_tool : ToolDefinition := mkTool 6 "write_file" "Write" "file-ops" [] None None.

Lemma tainted_voice_sends_governed_email :
  (execute_realtime (fun _ => [mail_tool; notes_tool]) None tainted_orchestrator 12 None "gmail_send" [] "a" 1).2
    = run_tool mail_tool [] /\
  match (execute_realtime (fun _ => [mail_tool; notes_tool]) None tainted_orchestrator 12 None "write_file" [] "a" 1).2 with
  | answer text => starts_with "[BLOCKED]" text = true
  | _ => False
  end.
Proof. split; vm_compute; reflexivity. Qed.

(** Without a primary agent a wired text gate refuses every call, while the
    voice path runs it unchecked and unaudited. *)
Lemma voice_without_primary_is_ungated :
  let o := with_hierarchy (demo_orchestrator []) empty_hierarchy in
  (execute_realtime (fun _ => [notes_tool]) None o 12 None "write_file" [] "a" 1) = (o, run_tool notes_tool []) /\
  match (execute_tool (fun _ => [notes_tool]) None o 12 [] "write_file" [] "r" "a" 1).2 with
  | answer text => starts_with "[AUTHORITY DENIED]" text = true
  | _ => False
  end.
Proof. split; vm_compute; reflexivity. Qed.

(** A sub-agent never has more authority than its parent. A spawn succeeds
    only under a parent in the hierarchy and, with an engine wired, only if the
    engine allows the parent to spawn (the approval, where one is required, was
    asked at the tool layer), otherwise only if the parent's bounds say so. The
    child starts active under that parent with a level strictly below the
    parent's and at most its role's, tools among both its role's and the
    parent's, the parent's denied tools and at most half of its budget; and the
    hierarchy stays well-formed. *)
Theorem spawned_agents_are_bounded o hour taint parentId id session now role scope o' a n :
  hierarchy_good n (hierarchy o) -> ~ In id (keys (hierarchy o)) -> id <> EmptyString -> parentId <> EmptyString ->
  spawnSubAgent o hour taint parentId id session now role scope = inr (o', a) ->
  exists parent, getAgent (hierarchy o) parentId = Some parent /\
    (match authorityEngine o with
     | Some cfg => allowed (checkAuthority cfg hour
         (mkCheck (agent_key parent) (max_authority_level (authority parent)) (role_id (agent_role parent))
            "spawn_sub_agent" "delegation" spawn_agent (grants o) (getEffectiveProfile o taint))) = true
     | None => can_spawn_children (authority parent) = true
     end) /\
    agent_status a = active /\ parent_id a = Some parentId /\
    max_authority_level (authority a) < max_authority_level (authority parent) /\
    max_authority_level (authority a) <= authority_level role /\
    (forall t, In t (allowed_tools (authority a)) <-> In t (role_tools role) /\ In t (allowed_tools (authority parent))) /\
    denied_tools (authority a) = denied_tools (authority parent) /\
    2 * max_token_budget (authority a) <= max_token_budget (authority parent) /\
    hierarchy_good (S n) (hierarchy o') /\ getAgent (hierarchy o') id = Some a.
Proof.
  intros Hg Hfresh Hid Hpid H. unfold spawnSubAgent in H.
  destruct (getAgent (hierarchy o) parentId) as [parent|] eqn:Ep; [|done].
  assert (forall r, r = None -> match r with Some e => inl e | None => inr
     (with_hierarchy o (addAgent (hierarchy o) (new_agent id session now role (Some parentId)
        (Some (bounds_partial (child_authority role (authority parent)))) (Some (scope ?? [])))),
      new_agent id session now role (Some parentId)
        (Some (bounds_partial (child_authority role (authority parent)))) (Some (scope ?? []))) end = inr (o', a) :> string + (Orchestrator * Agent) ->
     agent_status a = active /\ parent_id a = Some parentId /\
     max_authority_level (authority a) < max_authority_level (authority parent) /\
     max_authority_level (authority a) <= authority_level role /\
     (forall t, In t (allowed_tools (authority a)) <-> In t (role_tools role) /\ In t (allowed_tools (authority parent))) /\
     denied_tools (authority a) = denied_tools (authority parent) /\
     2 * max_token_budget (authority a) <= max_token_budget (authority parent) /\
     hierarchy_good (S n) (hierarchy o') /\ getAgent (hierarchy o') id = Some a) as Hchild.
  { intros r -> [= <- <-]. cbn [authority new_agent mergeAuthority bounds_partial agent_status parent_id hierarchy with_hierarchy].
    cbn. split_and!; try done; try lia.
    - intros t. rewrite List.filter_In, includes_In. done.
    - pose proof (Z.mul_div_le (max_token_budget (authority parent)) 2). lia.
    - apply good_add; [done|]. split_and!; [done|done|]. cbn. split; [done|].
      apply getAgent_Some in Ep as [Hin <-]. by apply in_map.
    - unfold getAgent, addAgent. cbn [agents]. rewrite set_agent_fresh by done. rewrite find_app.
      destruct (List.find _ (agents (hierarchy o))) as [b|] eqn:Eb.
      + apply List.find_some in Eb as [Hb Hk]. apply bool_decide_eq_true in Hk. exfalso. apply Hfresh.
        rewrite <- Hk. by apply in_map.
      + cbn. by rewrite bool_decide_eq_true_2. }
  exists parent. split; [done|].
  destruct (authorityEngine o) as [cfg|].
  - cbv zeta in H. destruct (allowed (checkAuthority cfg hour _)) eqn:Ea; [|done].
    split; [done|]. by apply (Hchild None).
  - destruct (can_spawn_children (authority parent)); [|done]. split; [done|]. by apply (Hchild None).
Qed.

Lemma spawned_agents_are_bounded_witness :
  exists o' a, spawnSubAgent tainted_orchestrator 12 [] "p" "c" "s" 2 demo_role None = inr (o', a) /\
    max_authority_level (authority a) = 6 /\ exists parent, getAgent (hierarchy tainted_orchestrator) "p" = Some parent /\
    max_authority_level (authority a) < max_authority_level (authority parent).
Proof.
  eexists _, _. split; [reflexivity|]. split; [reflexivity|].
  edestruct (spawned_agents_are_bounded tainted_orchestrator 12 [] "p" "c" "s" 2 demo_role None
    (with_hierarchy tainted_orchestrator (addAgent (hierarchy tainted_orchestrator)
      (new_agent "c" "s" 2 demo_role (Some "p")
        (Some (bounds_partial (child_authority demo_role (mkBounds 9 ["delegation"] [] 100000 true)))) (Some []))))
    (new_agent "c" "s" 2 demo_role (Some "p")
        (Some (bounds_partial (child_authority demo_role (mkBounds 9 ["delegation"] [] 100000 true)))) (Some [])) 1)
    as (parent & Hp & _ & _ & _ & Hl & _).
  - apply good_add; [apply empty_good|]. simpl. split_and!; [tauto|done|done].
  - simpl. naive_solver.
  - done.
  - done.
  - reflexivity.
  - exists parent. split; [exact Hp|exact Hl].
Defined.

(** Temporary grants. A grant makes the category allowed without approval
    for exactly that agent, granting twice stores it once, a revocation takes
    back exactly that category, clearing takes back all of the agent's, and no
    operation touches another agent's grants. *)
Theorem temporary_grants_spec o agent c :
  let has o a c := match grants o !! a with Some l => includes c l | None => false end in
  has (grantTemporary o agent c) agent c = true /\
  grantTemporary (grantTemporary o agent c) agent c = grantTemporary o agent c /\
  has (revokeTemporary o agent c) agent c = false /\
  (forall d, has (clearTemporaryGrants o agent) agent d = false) /\
  (forall d, d <> c -> has (grantTemporary o agent c) agent d = has o agent d /\
                       has (revokeTemporary o agent c) agent d = has o agent d) /\
  (forall a d, a <> agent -> has (grantTemporary o agent c) a d = has o a d /\
     has (revokeTemporary o agent c) a d = has o a d /\ has (clearTemporaryGrants o agent) a d = has o a d).
Proof.
  cbn zeta. unfold grantTemporary, revokeTemporary, clearTemporaryGrants.
  assert (forall (l : list ActionCategory) d, includes d (l ++ [c]) = includes d l || bool_decide (d = c)) as Happ.
  { intros l d. rewrite includes_app. simpl. by rewrite orb_false_r. }
  assert (forall (l : list ActionCategory) d, includes d (List.filter (fun a => negb (bool_decide (a = c))) l)
     = includes d l && negb (bool_decide (d = c))) as Hfil.
  { intros l d. apply eq_true_iff_eq. rewrite andb_true_iff, !includes_In, List.filter_In. done. }
  split_and!.
  - destruct (includes c ((grants o !! agent) ?? [])) eqn:E; cbn [grants with_grants].
    + by destruct (grants o !! agent).
    + rewrite lookup_insert_eq, Happ, bool_decide_eq_true_2 by done. by rewrite orb_true_r.
  - destruct (includes c ((grants o !! agent) ?? [])) eqn:E; cbn [grants with_grants]; [by rewrite E|].
    rewrite lookup_insert_eq. simpl. rewrite Happ, bool_decide_eq_true_2 by done. by rewrite orb_true_r.
  - destruct (grants o !! agent) as [l|] eqn:E; cbn [grants with_grants]; [|by rewrite E].
    rewrite lookup_insert_eq, Hfil, bool_decide_eq_true_2 by done. by rewrite andb_false_r.
  - intros d. cbn [grants with_grants]. by rewrite lookup_delete_eq.
  - intros d Hd. split.
    + destruct (includes c ((grants o !! agent) ?? [])) eqn:E; cbn [grants with_grants]; [done|].
      rewrite lookup_insert_eq, Happ, bool_decide_eq_false_2, orb_false_r by done. by destruct (grants o !! agent).
    + destruct (grants o !! agent) as [l|] eqn:E; cbn [grants with_grants]; [|by rewrite E].
      rewrite lookup_insert_eq, Hfil, bool_decide_eq_false_2 by done. by rewrite andb_true_r.
  - intros a d Ha. split_and!.
    + destruct (includes c ((grants o !! agent) ?? [])); cbn [grants with_grants]; [done|]. by rewrite lookup_insert_ne.
    + destruct (grants o !! agent); cbn [grants with_grants]; [|done]. by rewrite lookup_insert_ne.
    + cbn [grants with_grants]. by rewrite lookup_delete_ne.
Qed.
