(* ===== verification/FlowGraph.v ===== *)
(** * The steps of a flow (src/src/workflows/db/flow-graph.ts)

    [walkFlowNodes] visits the tree of steps a flow version stores as JSON, with
    an explicit stack. A step leads to others by three edges: the body of a
    loop, the branches of a router and the next step of the chain. A value read
    from a JSON column is a tree, so the set of nodes already seen never hits and
    is left out. The loop runs on fuel; [walk_total] shows that the size of the
    tree is enough, and the theorem that the walk finds exactly the steps
    reachable over the three edges. *)
From S2P Require Export Json.

Definition CODE_STEP_TYPE : string := "CODE".

(** [if (v) pending.push(v)]; the top of the stack is the head of the list. *)
Definition push_if (o : option json) (pending : list json) : list json :=
  match o with Some v => if truthy_json v then v :: pending else pending | None => pending end.

Definition push_children (o : option json) (pending : list json) : list json :=
  match o with
  | Some (JArr children) => foldr (fun child st => push_if (Some child) st) pending children
  | _ => pending
  end.

(** The body of the loop after a node was taken: the chain goes below the
    branches, and the branches below the loop body. *)
Definition push_node (node : json) (pending : list json) : list json :=
  push_if (jget "firstLoopAction" node)
    (push_children (jget "children" node) (push_if (jget "nextAction" node) pending)).

(** The loop: [None] when the fuel ran out before the stack was empty. *)
Fixpoint walk (fuel : nat) (pending out : list json) : option (list json) :=
  match pending with
  | [] => Some out
  | node :: rest =>
      match fuel with
      | O => None
      | S fuel' =>
          if is_object node then walk fuel' (push_node node rest) (out ++ [node])
          else walk fuel' rest out
      end
  end.

Fixpoint json_size (v : json) : nat :=
  match v with
  | JArr l => S (list_sum (map json_size l))
  | JObj fs => S (list_sum (map (fun kv => json_size (snd kv)) fs))
  | _ => 1%nat
  end.

Definition walkFlowNodes (root : option json) : list json :=
  match root with
  | Some v => if is_object v then walk (json_size v) [v] [] ?? [] else []
  | None => []
  end.

(** [node.k === 'text'] and the name as the scan reports it. *)
Definition step_name (node : json) : string :=
  match jget "name" node with Some (JStr n) => if truthy n then n else "<unnamed>" | _ => "<unnamed>" end.

Definition is_code_step (node : json) : bool := jstr_is (jget "type" node) CODE_STEP_TYPE.

Definition findCodeStepNames (root : option json) : list string :=
  map step_name (List.filter is_code_step (walkFlowNodes root)).

Definition hasCodeStep (root : option json) : bool := (0 <? length (findCodeStepNames root))%nat.

(** ** Reachability *)

(** One edge of the flow graph. *)
Inductive edge (node : json) : json -> Prop :=
  | edge_loop v : jget "firstLoopAction" node = Some v -> truthy_json v = true -> edge node v
  | edge_branch l v : jget "children" node = Some (JArr l) -> In v l -> truthy_json v = true -> edge node v
  | edge_next v : jget "nextAction" node = Some v -> truthy_json v = true -> edge node v.

(** The steps of a flow: the objects reachable from its trigger. *)
Inductive reachable (root : json) : json -> Prop :=
  | reach_root : is_object root = true -> reachable root root
  | reach_edge v w : reachable root v -> edge v w -> is_object w = true -> reachable root w.

(** ** Lemmas *)

Definition stack_size (l : list json) : nat := list_sum (map json_size l).

Lemma json_size_pos v : (0 < json_size v)%nat.
Proof. destruct v; simpl; lia. Qed.

Lemma push_if_size o st : (stack_size (push_if o st) <= match o with Some v => json_size v | None => 0 end + stack_size st)%nat.
Proof. unfold push_if. destruct o as [v|]; [|done]. destruct (truthy_json v); unfold stack_size; simpl; lia. Qed.

Lemma push_all_size l st :
  (stack_size (foldr (fun child st => push_if (Some child) st) st l) <= stack_size l + stack_size st)%nat.
Proof.
  induction l as [|c l IH]; [done|]. cbn [foldr].
  pose proof (push_if_size (Some c) (foldr (fun child st => push_if (Some child) st) st l)) as H.
  change (match Some c with Some v => json_size v | None => 0%nat end) with (json_size c) in H.
  change (stack_size (c :: l)) with (json_size c + stack_size l)%nat. lia.
Qed.

Lemma push_children_size o st :
  (stack_size (push_children o st) <= match o with Some v => json_size v | None => 0 end + stack_size st)%nat.
Proof.
  unfold push_children. destruct o as [[| | | |l|]|]; cbn [json_size]; try lia.
  pose proof (push_all_size l st). unfold stack_size at 2 in H. lia.
Qed.

Definition field_size (k : string) (fs : list (string * json)) : nat :=
  match List.find (fun kv => bool_decide (fst kv = k)) fs with Some kv => json_size (snd kv) | None => 0%nat end.

Lemma three_fields_size k1 k2 k3 fs : k1 <> k2 -> k1 <> k3 -> k2 <> k3 ->
  (field_size k1 fs + field_size k2 fs + field_size k3 fs <= list_sum (map (fun kv => json_size (snd kv)) fs))%nat.
Proof.
  intros H12 H13 H23. unfold field_size. induction fs as [|[k v] fs IH]; simpl; [lia|].
  repeat case_bool_decide; simplify_eq; simpl; lia.
Qed.

Lemma list_sum_rev (l : list nat) : list_sum (rev l) = list_sum l.
Proof. induction l as [|x l IH]; simpl; [done|]. rewrite list_sum_app, IH. simpl. lia. Qed.

Lemma jget_sizes node : is_object node = true ->
  (match jget "firstLoopAction" node with Some v => json_size v | None => 0 end +
   match jget "children" node with Some v => json_size v | None => 0 end +
   match jget "nextAction" node with Some v => json_size v | None => 0 end < json_size node)%nat.
Proof.
  destruct node as [| | | |l|fs]; try done; intros _; [simpl; lia|]. simpl. unfold assoc_get.
  pose proof (three_fields_size "firstLoopAction" "children" "nextAction" (rev fs) ltac:(done) ltac:(done) ltac:(done)) as H.
  rewrite map_rev, list_sum_rev in H. unfold field_size in H.
  destruct (List.find (fun kv => bool_decide (fst kv = "firstLoopAction")) (rev fs)),
    (List.find (fun kv => bool_decide (fst kv = "children")) (rev fs)),
    (List.find (fun kv => bool_decide (fst kv = "nextAction")) (rev fs)); simpl in *; lia.
Qed.

Lemma push_node_size node st : is_object node = true -> (stack_size (push_node node st) < json_size node + stack_size st)%nat.
Proof.
  intros H. unfold push_node. pose proof (jget_sizes node H).
  pose proof (push_if_size (jget "firstLoopAction" node) (push_children (jget "children" node) (push_if (jget "nextAction" node) st))).
  pose proof (push_children_size (jget "children" node) (push_if (jget "nextAction" node) st)).
  pose proof (push_if_size (jget "nextAction" node) st). lia.
Qed.

(** Fuel for the nodes on the stack is enough. *)
Lemma walk_total fuel st out : (stack_size st <= fuel)%nat -> exists r, walk fuel st out = Some r.
Proof.
  revert st out. induction fuel as [|fuel IH]; intros [|node st] out Hs; simpl; eauto.
  - pose proof (json_size_pos node). unfold stack_size in Hs. simpl in Hs. lia.
  - pose proof (json_size_pos node). unfold stack_size in Hs. simpl in Hs. fold (stack_size st) in Hs.
    destruct (is_object node) eqn:E; apply IH; [|lia].
    pose proof (push_node_size node st E). lia.
Qed.

(** What the pushes add to the stack: exactly the targets of the edges. *)
Lemma In_push_if o st v : In v (push_if o st) <-> (o = Some v /\ truthy_json v = true) \/ In v st.
Proof.
  unfold push_if. destruct o as [w|]; [|naive_solver]. destruct (truthy_json w) eqn:E; simpl; [|split; [auto|]].
  - split; intros [H|H]; auto; [left; by subst|]. left. destruct H as [H _]. by simplify_eq.
  - intros [[H1 H2]|H]; [|done]. simplify_eq. congruence.
Qed.

Lemma In_push_all l st v :
  In v (foldr (fun child st => push_if (Some child) st) st l) <-> (In v l /\ truthy_json v = true) \/ In v st.
Proof.
  induction l as [|c l IH]; cbn [foldr]; [simpl; tauto|]. rewrite In_push_if, IH. simpl. split.
  - intros [[H ?]|[[? ?]|?]]; [injection H as ->|..]; tauto.
  - intros [[[->|?] ?]|?]; auto.
Qed.

Lemma In_push_node node st v : In v (push_node node st) <-> edge node v \/ In v st.
Proof.
  unfold push_node. rewrite In_push_if. unfold push_children. split.
  - intros [[? ?]|H]; [left; by apply edge_loop|].
    assert (In v (push_if (jget "nextAction" node) st) -> edge node v \/ In v st) as Hn.
    { intros [[? ?]|?]%In_push_if; [left; by apply edge_next|by right]. }
    destruct (jget "children" node) as [[| | | |l|]|] eqn:E; auto.
    apply In_push_all in H as [[? ?]|H]; [left; by eapply edge_branch|auto].
  - intros [[w Hw Ht|l w Hl Hin Ht|w Hw Ht]|H]; [by left|right..].
    + rewrite Hl. apply In_push_all. by left.
    + assert (In w (push_if (jget "nextAction" node) st)) as Hn by (apply In_push_if; by left).
      destruct (jget "children" node) as [[| | | |l|]|]; auto. apply In_push_all. by right.
    + assert (In v (push_if (jget "nextAction" node) st)) as Hn by (apply In_push_if; by right).
      destruct (jget "children" node) as [[| | | |l|]|]; auto. apply In_push_all. by right.
Qed.

(** The steps still to come: reachable from an object on the stack. *)
Definition from_stack (st : list json) (w : json) : Prop := exists v, In v st /\ reachable v w.

Lemma reachable_step v w x : edge v w -> reachable w x -> is_object v = true -> reachable v x.
Proof.
  intros He Hr Hv. induction Hr as [Ho|y z Hy IH Hyz Hz].
  - by eapply reach_edge; [apply reach_root|..].
  - by eapply reach_edge.
Qed.

Lemma reachable_object v w : reachable v w -> is_object v = true.
Proof. by induction 1. Qed.

Lemma reachable_inv v w : reachable v w -> w = v \/ exists u, edge v u /\ reachable u w.
Proof.
  induction 1 as [|y z Hy IH Hyz Hz]; [by left|]. right. destruct IH as [->|(u & He & Hu)].
  - exists z. split; [done|by apply reach_root].
  - exists u. split; [done|by eapply reach_edge].
Qed.

Lemma walk_spec fuel st out r : walk fuel st out = Some r ->
  forall w, In w r <-> In w out \/ from_stack st w.
Proof.
  revert st out. induction fuel as [|fuel IH]; intros [|node st] out; simpl; try done.
  1, 2: intros [= <-] w; split; [by left|]; intros [?|(v & [] & _)]; done.
  intros H w. destruct (is_object node) eqn:E; rewrite (IH _ _ H).
  - rewrite in_app_iff. unfold from_stack. split.
    + intros [[?|[<-|[]]]|(v & [He|Hin]%In_push_node & Hr)]; [by left|right..].
      * exists node. split; [by left|by apply reach_root].
      * exists node. split; [by left|by eapply reachable_step].
      * exists v. split; [by right|done].
    + intros [?|(v & [<-|Hin] & Hr)]; [by do 2 left| |].
      * apply reachable_inv in Hr as [->|(u & He & Hu)]; [left; right; by left|].
        right. exists u. split; [|done]. apply In_push_node. by left.
      * right. exists v. split; [|done]. apply In_push_node. by right.
  - unfold from_stack. split.
    + intros [?|(v & Hin & Hr)]; [by left|right]. exists v. split; [by right|done].
    + intros [?|(v & [<-|Hin] & Hr)]; [by left| |right; by exists v].
      apply reachable_object in Hr. congruence.
Qed.

(** The walk over a flow terminates and misses no step. Whatever JSON value a
    version stores, the loop empties its stack within as many turns as the value
    has nodes, and the nodes it returns are exactly the objects reachable from
    the trigger over the loop, branch and chain edges; so the scan for CODE steps
    reports one exactly when one is reachable, wherever it hides. *)
Theorem walk_finds_every_step root :
  (is_object root = true -> exists r, walk (json_size root) [root] [] = Some r /\ walkFlowNodes (Some root) = r) /\
  (forall w, In w (walkFlowNodes (Some root)) <-> reachable root w) /\
  (hasCodeStep (Some root) = true <-> exists w, reachable root w /\ is_code_step w = true).
Proof.
  assert (forall w, In w (walkFlowNodes (Some root)) <-> reachable root w) as Hw.
  { intros w. unfold walkFlowNodes. destruct (is_object root) eqn:E.
    - destruct (walk_total (json_size root) [root] []) as (r & Hr); [unfold stack_size; simpl; lia|].
      rewrite Hr. simpl. rewrite (walk_spec _ _ _ _ Hr). unfold from_stack. simpl. split.
      + by intros [[]|(v & [<-|[]] & H)].
      + intros H. right. eauto.
    - split; [done|]. intros H%reachable_object. congruence. }
  split_and!; [|done|].
  - intros E. destruct (walk_total (json_size root) [root] []) as (r & Hr); [unfold stack_size; simpl; lia|].
    exists r. split; [done|]. unfold walkFlowNodes. by rewrite E, Hr.
  - unfold hasCodeStep, findCodeStepNames. rewrite Nat.ltb_lt, length_map. split.
    + destruct (List.filter _ _) as [|w l] eqn:E; [simpl; lia|]. intros _.
      assert (In w (List.filter is_code_step (walkFlowNodes (Some root)))) as H by (rewrite E; by left).
      apply List.filter_In in H as [H ?]. exists w. by rewrite <- Hw.
    + intros (w & H & Hc). apply Hw in H.
      assert (In w (List.filter is_code_step (walkFlowNodes (Some root)))) as Hf by (by apply List.filter_In).
      destruct (List.filter _ _); [done|]. simpl. lia.
Qed.
