(* ===== verification/FlowRepo.v ===== *)
(** * Flows, their versions and the CODE gate (workflows/db/repos/flow.ts, flow-version.ts, flow-code-steps.ts,
    flow-publication.ts, flow-version-ownership.ts)

    A flow has versions, one of which may be published. A step of type CODE runs
    with the daemon's privileges, so a flow needs a grant before a version with one
    goes live: the gate sits in publishing, in enabling and in the two writers of a
    version's steps. Operations are computations that fail with the thrown error and
    then leave the tables alone (each throws before it writes, or in a transaction).
    Generated ids and the clock are arguments; JSON columns are kept decoded, an
    object as its list of own properties in insertion order. *)
From S2P Require Export Sql FlowGraph Effects JsMap.

(** ** Rows *)

Inductive FlowStatus := ENABLED | DISABLED.
Inductive FlowVersionState := DRAFT | LOCKED.
Inductive CodeStepsGrant := grant_user | grant_upgrade.

#[export] Instance FlowStatus_eq_dec : EqDecision FlowStatus.
Proof. solve_decision. Defined.
#[export] Instance FlowVersionState_eq_dec : EqDecision FlowVersionState.
Proof. solve_decision. Defined.

(** The columns written by the repository. *)
Record FlowRow := mkFlow {
  fl_id : string; external_id : string; fl_project_id : string; owner_id : option string; fl_status : FlowStatus;
  published_version_id : option string; fl_metadata : option json;
  code_steps_enabled : bool; code_steps_grant : option CodeStepsGrant; code_steps_granted_at : option Z;
  fl_created : Z; fl_updated : Z }.

Record FlowVersionRow := mkVersionRow {
  fv_id : string; fv_flow_id : string; fv_display_name : string; fv_trigger : json; fv_state : FlowVersionState;
  fv_valid : bool; fv_schema_version : option string; fv_updated_by : option string;
  agent_ids : list string; connection_ids : list string; fv_notes : json; backup_files : option json;
  engine_listeners : option json; engine_schedule : option json;
  sample_data : option (list (string * json)); sample_input : option (list (string * json));
  fv_created : Z; fv_updated : Z }.

#[export] Instance flow_row_key : Row FlowRow := fl_id.
#[export] Instance flow_version_row_key : Row FlowVersionRow := fv_id.

Record FlowDb := mkFlowDb { flows : list FlowRow; versions : list FlowVersionRow }.
Definition empty_flows : FlowDb := mkFlowDb [] [].

Inductive FlowError :=
  | CodeStepsRefused (message flowId versionId : string) (stepNames : list string)
  | RequestError (message : string) (status : Z)
  | PlainError (message : string).

Notation flow_op A := (st FlowError FlowDb A).

Definition getFlow (id : string) : flow_op (option FlowRow) := fun d => inr (get_row id (flows d), d).
Definition getFlowVersionRow (id : string) : flow_op (option FlowVersionRow) := fun d => inr (get_row id (versions d), d).

(** [UPDATE flow SET f WHERE id = ?]: whether a row changed. *)
Definition update_flow (id : string) (f : FlowRow -> FlowRow) : flow_op bool := fun d =>
  let (t, n) := update_where (key_is id (fun _ => true)) f (flows d) in (inr (negb (n =? 0)%nat, mkFlowDb t (versions d))).
Definition update_version (id : string) (f : FlowVersionRow -> FlowVersionRow) : flow_op bool := fun d =>
  let (t, n) := update_where (key_is id (fun _ => true)) f (versions d) in (inr (negb (n =? 0)%nat, mkFlowDb (flows d) t)).

(** [ORDER BY updated DESC LIMIT 1], the earliest row on ties. *)
Definition newest (l : list FlowVersionRow) : option FlowVersionRow :=
  match l with [] => None | v :: rest => Some (reduce_max fv_updated v rest) end.
Definition is_draft_of (flowId : string) (v : FlowVersionRow) : bool :=
  bool_decide (fv_flow_id v = flowId) && bool_decide (fv_state v = DRAFT).
Definition getLatestDraft (flowId : string) : flow_op (option FlowVersionRow) := fun d =>
  inr (newest (select_where (is_draft_of flowId) (versions d)), d).

(** ** The CODE gate (flow-code-steps.ts) *)

Inductive CodeStepIntent := intent_publish | intent_enable | intent_run | intent_save.
Definition intent_text (i : CodeStepIntent) : string * string :=
  match i with
  | intent_publish => ("This flow contains", "to publish")
  | intent_enable => ("This flow contains", "before it can be turned on")
  | intent_run => ("This flow contains", "to run it")
  | intent_save => ("This edit adds", "before saving one into the draft it is running")
  end.

Definition MAX_NAMED_STEPS : nat := 6.
Definition quoted (name : string) : string := String dquote (name +:+ String dquote EmptyString).

Definition refusalMessage (flowId : string) (i : CodeStepIntent) (stepNames : list string) : string :=
  let '(lead, unblocks) := intent_text i in
  let shown := JsString.join ", " (map quoted (take MAX_NAMED_STEPS stepNames)) in
  let rest := (length stepNames - Nat.min (length stepNames) MAX_NAMED_STEPS)%nat in
  let named := if (0 <? rest)%nat then shown +:+ " and " +:+ show_z (Z.of_nat rest) +:+ " more" else shown in
  lead +:+ " " +:+ (if (1 <? length stepNames)%nat then show_z (Z.of_nat (length stepNames)) +:+ " CODE steps" else "a CODE step")
  +:+ " (" +:+ named +:+ "). Enable code steps for this flow " +:+ unblocks +:+
  ". A CODE step runs arbitrary JavaScript in the workflow engine's child process with this machine's " +:+
  "full privileges -- it is a separate process, not an isolate -- so it stays off until it is turned on " +:+
  "for this flow: POST /api/workflows/" +:+ flowId +:+ "/code-steps {" +:+ quoted "enabled" +:+ ": true}".

Definition refuse_code {A} (flowId versionId : string) (i : CodeStepIntent) (names : list string) : flow_op A :=
  throw (CodeStepsRefused (refusalMessage flowId i names) flowId versionId names).

(** [if (names.length === 0) return; throw ...] *)
Definition gate_names (flowId versionId : string) (i : CodeStepIntent) (names : list string) : flow_op () :=
  match names with [] => mret () | _ => refuse_code flowId versionId i names end.

Definition assertCodeStepsAllowed (flowId versionId : string) (i : CodeStepIntent) : flow_op () :=
  flow ← getFlow flowId;
  match flow with
  | None => mret ()
  | Some f =>
      if code_steps_enabled f then mret ()
      else version ← getFlowVersionRow versionId;
           match version with
           | None => mret ()
           | Some v => if truthy_json (fv_trigger v) then gate_names flowId versionId i (findCodeStepNames (Some (fv_trigger v))) else mret ()
           end
  end.

(** The version the flow would run: [COALESCE(published_version_id, latest draft)]. *)
Definition live_version (f : FlowRow) (d : FlowDb) : option string :=
  match published_version_id f with
  | Some v => Some v
  | None => fv_id <$> newest (select_where (is_draft_of (fl_id f)) (versions d))
  end.

Definition assertFlowCodeStepsAllowed (flowId : string) (i : CodeStepIntent) : flow_op () := fun d =>
  match get_row flowId (flows d) with
  | None => inr (tt, d)
  | Some f => match live_version f d with
              | None | Some EmptyString => inr (tt, d)
              | Some v => assertCodeStepsAllowed flowId v i d
              end
  end.

Definition assertCodeStepsAllowedForLiveDraft (flowId : string) (trigger : json) : flow_op () :=
  flow ← getFlow flowId;
  match flow with
  | None => mret ()
  | Some f =>
      if code_steps_enabled f then mret ()
      else if negb (bool_decide (fl_status f = ENABLED)) || negb (bool_decide (published_version_id f = None)) then mret ()
      else gate_names flowId EmptyString intent_save (findCodeStepNames (Some trigger))
  end.

Definition ungrantedCodeSteps (f : FlowRow) (trigger : json) : option (list string) :=
  if code_steps_enabled f then None
  else match findCodeStepNames (Some trigger) with [] => None | names => Some names end.

(** ** Ownership (flow-version-ownership.ts) *)

Definition assertFlowVersionOwnership (flowId versionId : string) : flow_op () := fun d =>
  match get_row versionId (versions d), get_row flowId (flows d) with
  | Some v, Some _ => if bool_decide (fv_flow_id v = flowId) then inr (tt, d) else inl (RequestError "version not found in flow" 404)
  | _, _ => inl (RequestError "version not found in flow" 404)
  end.

Definition withOwnedFlowVersion {A} (flowId versionId : string) (operation : flow_op A) : flow_op A :=
  _ ← assertFlowVersionOwnership flowId versionId; operation.

(** ** Flows (flow.ts) *)

Record CreateFlowInput := mkCreateFlow {
  cf_projectId : option string; cf_ownerId : option string; cf_externalId : option string;
  cf_status : option FlowStatus; cf_metadata : option json }.

Definition same_external (f g : FlowRow) : bool :=
  bool_decide (fl_project_id f = fl_project_id g) && bool_decide (external_id f = external_id g).

Definition createFlow (defaultProject id : string) (ts : Z) (i : CreateFlowInput) : flow_op FlowRow :=
  let row := mkFlow id (cf_externalId i ?? id) (cf_projectId i ?? defaultProject) (cf_ownerId i) (cf_status i ?? DISABLED)
    None (cf_metadata i) false None None ts ts in
  _ ← (fun d => if existsb (same_external row) (flows d)
                then inl (PlainError "UNIQUE constraint failed: flow.project_id, flow.external_id")
                else match insert_row row (flows d) with
                     | Some t => inr (tt, mkFlowDb t (versions d))
                     | None => inl (PlainError "UNIQUE constraint failed: flow.id")
                     end) : flow_op ();
  _ ← (match fl_status row with ENABLED => assertFlowCodeStepsAllowed id intent_enable | DISABLED => mret () end);
  mret row.

Definition set_flow (s : FlowStatus) (p : option string) (m : option json) (code : bool) (g : option CodeStepsGrant) (at_ : option Z)
    (ts : Z) (f : FlowRow) : FlowRow :=
  mkFlow (fl_id f) (external_id f) (fl_project_id f) (owner_id f) s p m code g at_ (fl_created f) ts.

Definition with_status (s : FlowStatus) (ts : Z) (f : FlowRow) : FlowRow :=
  set_flow s (published_version_id f) (fl_metadata f) (code_steps_enabled f) (code_steps_grant f) (code_steps_granted_at f) ts f.
Definition with_grant (enabled : bool) (g : CodeStepsGrant) (ts : Z) (f : FlowRow) : FlowRow :=
  set_flow (fl_status f) (published_version_id f) (fl_metadata f) enabled (if enabled then Some g else None)
    (if enabled then Some ts else None) ts f.
Definition with_published (v : option string) (ts : Z) (f : FlowRow) : FlowRow :=
  set_flow (fl_status f) v (fl_metadata f) (code_steps_enabled f) (code_steps_grant f) (code_steps_granted_at f) ts f.
Definition with_metadata (m : option json) (ts : Z) (f : FlowRow) : FlowRow :=
  set_flow (fl_status f) (published_version_id f) m (code_steps_enabled f) (code_steps_grant f) (code_steps_granted_at f) ts f.
Definition touched (ts : Z) (f : FlowRow) : FlowRow := with_published (published_version_id f) ts f.

(** [if (res.changes === 0) throw] *)
Definition must_change (what id : string) (changed : bool) : flow_op () :=
  if changed then mret () else throw (PlainError (what +:+ ": flow not found (id=" +:+ id +:+ ")")).

Definition updateFlowStatus (id : string) (s : FlowStatus) (ts : Z) : flow_op () :=
  _ ← (match s with ENABLED => assertFlowCodeStepsAllowed id intent_enable | DISABLED => mret () end);
  changed ← update_flow id (with_status s ts); must_change "updateFlowStatus" id changed.

Definition setFlowCodeStepsEnabled (id : string) (enabled : bool) (g : CodeStepsGrant) (ts : Z) : flow_op () :=
  changed ← update_flow id (with_grant enabled g ts); must_change "setFlowCodeStepsEnabled" id changed.

Definition touchFlow (id : string) (ts : Z) : flow_op () := _ ← update_flow id (touched ts); mret ().

Definition attach (id : string) (v : option string) (ts : Z) : flow_op () :=
  changed ← update_flow id (with_published v ts); must_change "setPublishedVersion" id changed.
Definition setPublishedVersion (id : string) (v : option string) (ts : Z) : flow_op () :=
  match v with None => attach id None ts | Some vid => withOwnedFlowVersion id vid (attach id v ts) end.

Definition updateFlowMetadata (id : string) (m : option json) (ts : Z) : flow_op () :=
  changed ← update_flow id (with_metadata m ts); must_change "updateFlowMetadata" id changed.

(** Foreign keys are on: the versions of the flow go with it. *)
Definition deleteFlow (id : string) : flow_op () := fun d =>
  inr (tt, mkFlowDb (delete_where (fun f => bool_decide (fl_id f = id)) (flows d))
             (delete_where (fun v => bool_decide (fv_flow_id v = id)) (versions d))).

(** ** Versions (flow-version.ts) *)

Definition LATEST_SCHEMA_VERSION : string := "20".

Definition must_exist {A} (what id : string) (row : option A) : flow_op A :=
  match row with Some r => mret r | None => throw (PlainError (what +:+ ": not found (id=" +:+ id +:+ ")")) end.

(** The row again after an update, as the setters re-read it. *)
Definition reread (what id : string) : flow_op FlowVersionRow :=
  row ← getFlowVersionRow id;
  match row with Some r => mret r | None => throw (PlainError (what +:+ ": row missing after update (id=" +:+ id +:+ ")")) end.

Definition createDraftVersion (id : string) (ts ts_flow : Z) (flowId displayName : string) (trigger : option json)
    (schemaVersion updatedBy : option string) : flow_op FlowVersionRow :=
  let trigger := match trigger with Some JNull | None => JObj [] | Some t => t end in
  _ ← assertCodeStepsAllowedForLiveDraft flowId trigger;
  let row := mkVersionRow id flowId displayName trigger DRAFT false (Some (schemaVersion ?? LATEST_SCHEMA_VERSION)) updatedBy
    [] [] (JArr []) None None None None None ts ts in
  _ ← (fun d => match get_row flowId (flows d), insert_row row (versions d) with
                | Some _, Some t => inr (tt, mkFlowDb (flows d) t)
                | None, _ => inl (PlainError "FOREIGN KEY constraint failed")
                | _, None => inl (PlainError "UNIQUE constraint failed: flow_version.id")
                end) : flow_op ();
  _ ← touchFlow flowId ts_flow;
  mret row.

(** An absent field is [None]. *)
Record UpdateDraftVersionInput := mkUpdateDraft {
  up_displayName : option string; up_trigger : option json; up_valid : option bool;
  up_agentIds : option (list string); up_connectionIds : option (list string); up_notes : option json;
  up_backupFiles : option (option json); up_updatedBy : option (option string) }.

Definition patched_version (p : UpdateDraftVersionInput) (ts : Z) (v : FlowVersionRow) : FlowVersionRow :=
  mkVersionRow (fv_id v) (fv_flow_id v) (up_displayName p ?? fv_display_name v)
    (match up_trigger p with Some t => if truthy_json t then t else fv_trigger v | None => fv_trigger v end)
    (fv_state v) (up_valid p ?? fv_valid v) (fv_schema_version v) (up_updatedBy p ?? fv_updated_by v)
    (up_agentIds p ?? agent_ids v) (up_connectionIds p ?? connection_ids v) (up_notes p ?? fv_notes v)
    (up_backupFiles p ?? backup_files v) (engine_listeners v) (engine_schedule v) (sample_data v) (sample_input v)
    (fv_created v) ts.

Definition updateDraftVersion (id : string) (p : UpdateDraftVersionInput) (ts ts_flow : Z) : flow_op FlowVersionRow :=
  row ← getFlowVersionRow id;
  existing ← must_exist "updateDraftVersion" id row;
  match fv_state existing with
  | LOCKED => throw (PlainError ("updateDraftVersion: cannot modify LOCKED version (id=" +:+ id +:+ ")"))
  | DRAFT =>
      _ ← (match up_trigger p with Some t => assertCodeStepsAllowedForLiveDraft (fv_flow_id existing) t | None => mret () end);
      _ ← update_version id (patched_version p ts);
      _ ← touchFlow (fv_flow_id existing) ts_flow;
      mret (patched_version p ts existing)
  end.

Definition with_engine (l s : option json) (ts : Z) (v : FlowVersionRow) : FlowVersionRow :=
  mkVersionRow (fv_id v) (fv_flow_id v) (fv_display_name v) (fv_trigger v) (fv_state v) (fv_valid v) (fv_schema_version v)
    (fv_updated_by v) (agent_ids v) (connection_ids v) (fv_notes v) (backup_files v) l s (sample_data v) (sample_input v)
    (fv_created v) ts.

(** [undefined] ([None]) keeps a column, [null] ([Some None]) clears it. *)
Definition setEngineTriggerState (id : string) (listeners schedule : option (option json)) (ts : Z) : flow_op FlowVersionRow :=
  row ← getFlowVersionRow id;
  existing ← must_exist "setEngineTriggerState" id row;
  _ ← update_version id (with_engine (listeners ?? engine_listeners existing) (schedule ?? engine_schedule existing) ts);
  reread "setEngineTriggerState" id.

Definition with_samples (data input : option (list (string * json))) (ts : Z) (v : FlowVersionRow) : FlowVersionRow :=
  mkVersionRow (fv_id v) (fv_flow_id v) (fv_display_name v) (fv_trigger v) (fv_state v) (fv_valid v) (fv_schema_version v)
    (fv_updated_by v) (agent_ids v) (connection_ids v) (fv_notes v) (backup_files v) (engine_listeners v) (engine_schedule v)
    data input (fv_created v) ts.

(** [Object.keys(current).length === 0 ? null : JSON.stringify(current)] *)
Definition keep_nonempty (l : list (string * json)) : option (list (string * json)) := match l with [] => None | _ => Some l end.

(** Set ([Some]) or delete ([None]) one entry. *)
Definition edit_entry (k : string) (o : option json) (current : list (string * json)) : list (string * json) :=
  match o with Some v => map_set k v current | None => map_delete k current end.

(** The existing row, which a setter of samples refuses to edit when locked. *)
Definition editable (what id : string) : flow_op FlowVersionRow :=
  row ← getFlowVersionRow id;
  existing ← must_exist what id row;
  match fv_state existing with
  | LOCKED => throw (PlainError (what +:+ ": version " +:+ id +:+ " is LOCKED"))
  | DRAFT => mret existing
  end.

Definition setSampleDataEntry (id stepName : string) (output : option json) (ts : Z) : flow_op FlowVersionRow :=
  existing ← editable "setSampleDataEntry" id;
  let data := keep_nonempty (edit_entry stepName output ((sample_data existing) ?? [])) in
  _ ← update_version id (with_samples data (sample_input existing) ts);
  reread "setSampleDataEntry" id.

Definition setSampleInputEntry (id stepName : string) (input : option json) (ts : Z) : flow_op FlowVersionRow :=
  existing ← editable "setSampleInputEntry" id;
  let data := keep_nonempty (edit_entry stepName input ((sample_input existing) ?? [])) in
  _ ← update_version id (with_samples (sample_data existing) data ts);
  reread "setSampleInputEntry" id.

Definition replaceSampleData (id : string) (data : option (list (string * json))) (ts : Z) : flow_op FlowVersionRow :=
  existing ← editable "replaceSampleData" id;
  _ ← update_version id (with_samples (data ≫= keep_nonempty) (sample_input existing) ts);
  reread "replaceSampleData" id.

Definition with_locked (ts : Z) (v : FlowVersionRow) : FlowVersionRow :=
  mkVersionRow (fv_id v) (fv_flow_id v) (fv_display_name v) (fv_trigger v) LOCKED (fv_valid v) (fv_schema_version v)
    (fv_updated_by v) (agent_ids v) (connection_ids v) (fv_notes v) (backup_files v) (engine_listeners v) (engine_schedule v)
    (sample_data v) (sample_input v) (fv_created v) ts.

Definition lockVersion (id : string) (ts : Z) : flow_op FlowVersionRow :=
  row ← getFlowVersionRow id;
  existing ← must_exist "lockVersion" id row;
  match fv_state existing with
  | LOCKED => mret existing
  | DRAFT => _ ← update_version id (with_locked ts); reread "lockVersion" id
  end.

(** *** Capture of a run's outputs *)

Definition SAMPLE_DATA_AUTO_CAPTURE_MAX_BYTES : nat := 256 * 1024.

(** [k in current]: an object also has the members of [Object.prototype]. *)
Definition object_prototype : list string :=
  ["constructor"; "__defineGetter__"; "__defineSetter__"; "hasOwnProperty"; "__lookupGetter__"; "__lookupSetter__";
   "isPrototypeOf"; "propertyIsEnumerable"; "toString"; "valueOf"; "__proto__"; "toLocaleString"].
Definition in_object (k : string) (fields : list (string * json)) : bool := map_has k fields || includes k object_prototype.

(** A wrapped step output, or the value itself. *)
Definition inner_output (raw : json) : json :=
  match raw with JObj fields => match assoc_get "output" fields with Some v => v | None => raw end | _ => raw end.

Definition skip_reason (stepName : string) (raw : json) (current : list (string * json)) : option string :=
  if in_object stepName current then Some "already populated"
  else match inner_output raw with
       | JObj _ =>
           let n := String.length (stringify (inner_output raw)) in
           if (SAMPLE_DATA_AUTO_CAPTURE_MAX_BYTES <? n)%nat
           then Some ("serialized " +:+ show_z (Z.of_nat n) +:+ "B exceeds " +:+ show_z (Z.of_nat SAMPLE_DATA_AUTO_CAPTURE_MAX_BYTES) +:+ "B cap")
           else None
       | _ => Some "output not a plain object"
       end.

(** The loop: the map, the names written and those skipped with the reason. *)
Fixpoint merge_outputs (runSteps current : list (string * json)) (written : list string) (skipped : list (string * string))
    : list (string * json) * list string * list (string * string) :=
  match runSteps with
  | [] => (current, written, skipped)
  | (stepName, raw) :: rest =>
      match skip_reason stepName raw current with
      | Some reason => merge_outputs rest current written (skipped ++ [(stepName, reason)])
      | None => merge_outputs rest (map_set stepName (inner_output raw) current) (written ++ [stepName]) skipped
      end
  end.

Definition mergeRunOutputsIntoSampleData (id : string) (runSteps : list (string * json)) (ts : Z)
    : flow_op (list string * list (string * string)) :=
  row ← getFlowVersionRow id;
  match row with
  | None => mret ([], [])
  | Some existing =>
      match fv_state existing with
      | LOCKED => mret ([], [])
      | DRAFT =>
          let '(current, written, skipped) := merge_outputs runSteps ((sample_data existing) ?? []) [] [] in
          _ ← (match written with
               | [] => mret ()
               | _ => _ ← update_version id (with_samples (keep_nonempty current) (sample_input existing) ts); mret ()
               end);
          mret (written, skipped)
      end
  end.

(** ** Publishing (flow-publication.ts) *)

(** The version to publish: an owned one by id, or the latest draft. *)
Definition publish_target (flowId : string) (versionId : option string) : flow_op (option FlowVersionRow) :=
  match versionId with
  | Some v =>
      if negb (truthy (trim v)) then throw (RequestError "versionId must be a non-empty string" 400)
      else _ ← assertFlowVersionOwnership flowId v; getFlowVersionRow v
  | None => getLatestDraft flowId
  end.

Definition publishFlowVersion (flowId : string) (versionId : option string) (ts : Z) : flow_op FlowVersionRow :=
  flow ← getFlow flowId;
  match flow with
  | None => throw (RequestError "flow not found" 404)
  | Some _ =>
      target ← publish_target flowId versionId;
      match target with
      | None => throw (RequestError "no draft version to publish" 400)
      | Some v =>
          _ ← assertCodeStepsAllowed flowId (fv_id v) intent_publish;
          locked ← (match fv_state v with LOCKED => mret v | DRAFT => lockVersion (fv_id v) ts end);
          _ ← setPublishedVersion flowId (Some (fv_id locked)) ts;
          _ ← updateFlowStatus flowId ENABLED ts;
          mret locked
      end
  end.

(** ** Any operation *)

Inductive FlowOp :=
  | OpCreateFlow (id : string) (ts : Z) (i : CreateFlowInput)
  | OpStatus (id : string) (s : FlowStatus) (ts : Z)
  | OpCodeSteps (id : string) (enabled : bool) (g : CodeStepsGrant) (ts : Z)
  | OpMetadata (id : string) (m : option json) (ts : Z)
  | OpDeleteFlow (id : string)
  | OpPublish (id : string) (versionId : option string) (ts : Z)
  | OpCreateDraft (id flowId displayName : string) (trigger : option json) (ts : Z)
  | OpUpdateDraft (id : string) (p : UpdateDraftVersionInput) (ts : Z)
  | OpEngineState (id : string) (listeners schedule : option (option json)) (ts : Z)
  | OpSampleData (id stepName : string) (output : option json) (ts : Z)
  | OpSampleInput (id stepName : string) (input : option json) (ts : Z)
  | OpReplaceSamples (id : string) (data : option (list (string * json))) (ts : Z)
  | OpMergeOutputs (id : string) (runSteps : list (string * json)) (ts : Z)
  | OpLock (flowId id : string) (ts : Z).

Definition done_ {A} (m : flow_op A) : flow_op () := _ ← m; mret ().

(** [project] is the default project of the installation. *)
Definition run_flow_op (project : string) (op : FlowOp) : flow_op () :=
  match op with
  | OpCreateFlow id ts i => done_ (createFlow project id ts i)
  | OpStatus id s ts => updateFlowStatus id s ts
  | OpCodeSteps id enabled g ts => setFlowCodeStepsEnabled id enabled g ts
  | OpMetadata id m ts => updateFlowMetadata id m ts
  | OpDeleteFlow id => deleteFlow id
  | OpPublish id v ts => done_ (publishFlowVersion id v ts)
  | OpCreateDraft id flowId name trigger ts => done_ (createDraftVersion id ts ts flowId name trigger None None)
  | OpUpdateDraft id p ts => done_ (updateDraftVersion id p ts ts)
  | OpEngineState id l s ts => done_ (setEngineTriggerState id l s ts)
  | OpSampleData id k o ts => done_ (setSampleDataEntry id k o ts)
  | OpSampleInput id k o ts => done_ (setSampleInputEntry id k o ts)
  | OpReplaceSamples id data ts => done_ (replaceSampleData id data ts)
  | OpMergeOutputs id runSteps ts => done_ (mergeRunOutputsIntoSampleData id runSteps ts)
  | OpLock flowId id ts => done_ (withOwnedFlowVersion flowId id (lockVersion id ts))
  end.

(** A failed operation changes nothing. *)
Definition flow_step (project : string) (d : FlowDb) (op : FlowOp) : FlowDb :=
  match run_flow_op project op d with inr (_, d') => d' | inl _ => d end.
Definition flow_steps (project : string) : FlowDb -> list FlowOp -> FlowDb := foldl (flow_step project).

(** ** Lemmas *)

Lemma no_code_falsy v : truthy_json v = false -> findCodeStepNames (Some v) = [].
Proof. by destruct v. Qed.

(** What a version holds, apart from the bookkeeping of its trigger and the time. *)
Definition content (v : FlowVersionRow) :=
  (fv_id v, fv_flow_id v, fv_display_name v, fv_trigger v, fv_state v,
   (fv_valid v, fv_schema_version v, fv_updated_by v, agent_ids v, connection_ids v, fv_notes v, backup_files v, sample_data v, sample_input v)).

Section invariant.
(** [granted]: the flows somebody turned CODE steps on for. [kept]: flows that are not deleted. *)
Variables (granted kept : string -> Prop).

Definition code_free (v : FlowVersionRow) : Prop := findCodeStepNames (Some (fv_trigger v)) = [].

Definition publishable (vs : list FlowVersionRow) (f : FlowRow) (vid : string) : Prop :=
  exists v, get_row vid vs = Some v /\ fv_flow_id v = fl_id f /\ fv_state v = LOCKED /\ (code_free v \/ granted (fl_id f)).

Definition flow_ok (vs : list FlowVersionRow) (f : FlowRow) : Prop :=
  (code_steps_enabled f = true -> granted (fl_id f)) /\
  forall vid, published_version_id f = Some vid -> publishable vs f vid.

Definition flows_ok (d : FlowDb) : Prop :=
  keyed (flows d) /\ keyed (versions d) /\ List.Forall (flow_ok (versions d)) (flows d).

Definition frozen (d d' : FlowDb) : Prop :=
  forall k v, get_row k (versions d) = Some v -> fv_state v = LOCKED -> kept (fv_flow_id v) ->
    exists v', get_row k (versions d') = Some v' /\ content v' = content v.

(** What every operation does to the tables. *)
Definition evolves (d d' : FlowDb) : Prop := flows_ok d -> flows_ok d' /\ frozen d d'.

#[local] Instance evolves_preorder : PreOrder evolves.
Proof.
  split.
  - intros d Hd. split; [done|]. intros k v Hv _ _. by exists v.
  - intros d1 d2 d3 H12 H23 H1. destruct (H12 H1) as [H2 F12]. destruct (H23 H2) as [H3 F23]. split; [done|].
    intros k v Hv Hs Hk. destruct (F12 k v Hv Hs Hk) as (v' & Hv' & E). 
    destruct (F23 k v' Hv') as (v'' & Hv'' & E'); [unfold content in E; congruence..|]. exists v''. split; [done|]. congruence.
Qed.

(** A published version survives a change of the versions that keeps locked ones. *)
Lemma publishable_versions vs vs' f vid : publishable vs f vid ->
  (forall k v, get_row k vs = Some v -> fv_flow_id v = fl_id f -> fv_state v = LOCKED ->
     exists v', get_row k vs' = Some v' /\ content v' = content v) ->
  publishable vs' f vid.
Proof.
  intros (v & Hv & Hf & Hs & Hc) Hkeep. destruct (Hkeep vid v Hv Hf Hs) as (v' & Hv' & E). unfold content in E.
  injection E as E1 E2 E3 E4 E5 E6. exists v'. split_and!; [done|congruence|congruence|].
  destruct Hc as [Hc|]; [left|by right]. unfold code_free. by rewrite E4.
Qed.

Lemma update_version_ok id (f : FlowVersionRow -> FlowVersionRow) d b d' `{!KeepsKey f} : update_version id f d = inr (b, d') ->
  (forall v, get_row id (versions d) = Some v -> fv_flow_id (f v) = fv_flow_id v /\ (fv_state v = LOCKED -> content (f v) = content v)) ->
  evolves d d'.
Proof.
  unfold update_version. destruct (update_where _ f (versions d)) as [t n] eqn:E. intros [= <- <-] Hf (Hkf & Hkv & Hall).
  assert (t = (update_where (key_is id (fun _ => true)) f (versions d)).1) as -> by (by rewrite E). clear E.
  assert (forall k v, get_row k (versions d) = Some v -> fv_state v = LOCKED ->
            exists v', get_row k (update_where (key_is id (fun _ => true)) f (versions d)).1 = Some v' /\ content v' = content v) as Hkeep.
  { intros k v Hv Hs. destruct (decide (id = k)) as [<-|Hne].
    - rewrite get_row_update_key by done. rewrite Hv. simpl. exists (f v). split; [done|]. by apply Hf.
    - exists v. split; [|done]. by rewrite get_row_update_other. }
  split.
  - split; [done|]. split; [by apply update_keyed|]. simpl. eapply List.Forall_impl; [|exact Hall]. intros fl [Hg Hp].
    split; [done|]. intros vid Hvid. eapply publishable_versions; [by apply Hp|]. intros k v Hv _. by apply Hkeep.
  - intros k v Hv Hs _. by apply Hkeep.
Qed.

Lemma update_flow_ok id (f : FlowRow -> FlowRow) d b d' `{!KeepsKey f} : update_flow id f d = inr (b, d') ->
  (forall fl, get_row id (flows d) = Some fl -> flow_ok (versions d) fl -> flow_ok (versions d) (f fl)) ->
  evolves d d'.
Proof.
  unfold update_flow. destruct (update_where _ f (flows d)) as [t n] eqn:E. intros [= <- <-] Hf (Hkf & Hkv & Hall).
  assert (t = (update_where (key_is id (fun _ => true)) f (flows d)).1) as -> by (by rewrite E). clear E.
  split.
  - split; [by apply update_keyed|]. split; [done|]. simpl. rewrite List.Forall_forall in *. intros fl Hin.
    apply update_In in Hin as (fl0 & Hin & ->). unfold key_is. case_bool_decide as Hid; cbn [andb]; [|by apply Hall].
    apply Hf; [|by apply Hall]. rewrite <- Hid. by apply get_row_In.
  - intros k v Hv _ _. by exists v.
Qed.

(** A flow update that leaves the published version and the grant alone. *)
Lemma flow_ok_same vs f g : fl_id g = fl_id f -> published_version_id g = published_version_id f ->
  code_steps_enabled g = code_steps_enabled f -> flow_ok vs f -> flow_ok vs g.
Proof. intros E1 E2 E3. unfold flow_ok, publishable. by rewrite E1, E2, E3. Qed.
End invariant.

#[export] Instance with_status_key s ts : KeepsKey (with_status s ts). Proof. done. Qed.
#[export] Instance with_grant_key e g ts : KeepsKey (with_grant e g ts). Proof. done. Qed.
#[export] Instance with_published_key v ts : KeepsKey (with_published v ts). Proof. done. Qed.
#[export] Instance with_metadata_key m ts : KeepsKey (with_metadata m ts). Proof. done. Qed.
#[export] Instance touched_key ts : KeepsKey (touched ts). Proof. done. Qed.
#[export] Instance patched_version_key p ts : KeepsKey (patched_version p ts). Proof. done. Qed.
#[export] Instance with_engine_key l s ts : KeepsKey (with_engine l s ts). Proof. done. Qed.
#[export] Instance with_samples_key l s ts : KeepsKey (with_samples l s ts). Proof. done. Qed.
#[export] Instance with_locked_key ts : KeepsKey (with_locked ts). Proof. done. Qed.

Section operations.
Variables (granted kept : string -> Prop).
#[local] Existing Instance evolves_preorder.
Let ev := evolves granted kept.

(** *** Reading operations *)

Lemma gate_names_inr fid vid i names d u d' : gate_names fid vid i names d = inr (u, d') -> d' = d /\ names = [].
Proof. unfold gate_names. destruct names; [by intros [_ ->]%ret_inr|done]. Qed.

Lemma codeGate_spec fid vid i d u d' : assertCodeStepsAllowed fid vid i d = inr (u, d') ->
  d' = d /\ forall f v, get_row fid (flows d) = Some f -> get_row vid (versions d) = Some v -> code_free v \/ code_steps_enabled f = true.
Proof.
  unfold assertCodeStepsAllowed. intros (o & d1 & [= <- <-] & H)%bind_inr.
  destruct (get_row fid (flows d)) as [f|]; [|apply ret_inr in H as [_ ->]; by split].
  destruct (code_steps_enabled f) eqn:Ec; [apply ret_inr in H as [_ ->]; split; [done|]; intros; simplify_eq; by right|].
  apply bind_inr in H as (o & d1 & [= <- <-] & H).
  destruct (get_row vid (versions d)) as [v|]; [|apply ret_inr in H as [_ ->]; by split].
  destruct (truthy_json (fv_trigger v)) eqn:Et.
  - apply gate_names_inr in H as [-> Hn]. split; [done|]. intros ? ? _ [= <-]. by left.
  - apply ret_inr in H as [_ ->]. split; [done|]. intros ? ? _ [= <-]. left. by apply no_code_falsy.
Qed.

Lemma flow_gate_reads fid i d u d' : assertFlowCodeStepsAllowed fid i d = inr (u, d') -> d' = d.
Proof.
  unfold assertFlowCodeStepsAllowed. destruct (get_row fid (flows d)) as [f|]; [|by intros [= _ <-]].
  destruct (live_version f d) as [[|c v]|]; try (by intros [= _ <-]). by intros [-> _]%codeGate_spec.
Qed.

Lemma draft_gate_reads fid t d u d' : assertCodeStepsAllowedForLiveDraft fid t d = inr (u, d') -> d' = d.
Proof.
  unfold assertCodeStepsAllowedForLiveDraft. intros (o & d1 & [= <- <-] & H)%bind_inr.
  destruct (get_row fid (flows d)) as [f|]; [|by apply ret_inr in H as [_ ->]].
  destruct (code_steps_enabled f); [by apply ret_inr in H as [_ ->]|].
  destruct (_ || _); [by apply ret_inr in H as [_ ->]|]. by apply gate_names_inr in H as [-> _].
Qed.

Lemma status_gate_reads id s d u d' :
  (match s with ENABLED => assertFlowCodeStepsAllowed id intent_enable | DISABLED => mret () end) d = inr (u, d') -> d' = d.
Proof. destruct s; [apply flow_gate_reads|by intros [_ ->]%ret_inr]. Qed.

Lemma owned_spec fid vid d u d' : assertFlowVersionOwnership fid vid d = inr (u, d') ->
  d' = d /\ exists v, get_row vid (versions d) = Some v /\ fv_flow_id v = fid.
Proof.
  unfold assertFlowVersionOwnership. destruct (get_row vid (versions d)) as [v|] eqn:Ev, (get_row fid (flows d)); try done.
  case_bool_decide; [|done]. intros [= _ <-]. split; [done|]. by exists v.
Qed.

Lemma must_exist_inr {A} what id (row : option A) d r d' : must_exist what id row d = inr (r, d') -> row = Some r /\ d' = d.
Proof. unfold must_exist. destruct row; [by intros [-> ->]%ret_inr|done]. Qed.

Lemma must_change_inr what id b d u d' : must_change what id b d = inr (u, d') -> d' = d.
Proof. unfold must_change. destruct b; [by intros [_ ->]%ret_inr|done]. Qed.

Lemma reread_inr what id d r d' : reread what id d = inr (r, d') -> d' = d /\ get_row id (versions d) = Some r.
Proof.
  unfold reread. intros (o & d1 & [= <- <-] & H)%bind_inr. destruct (get_row id (versions d)); [|done].
  by apply ret_inr in H as [-> ->].
Qed.

Lemma editable_inr what id d r d' : editable what id d = inr (r, d') ->
  d' = d /\ get_row id (versions d) = Some r /\ fv_state r = DRAFT.
Proof.
  unfold editable. intros (o & d1 & [= <- <-] & (e & d2 & [-> ->]%must_exist_inr & H)%bind_inr)%bind_inr.
  destruct (fv_state e) eqn:Es; [|done]. by apply ret_inr in H as [-> ->].
Qed.

Lemma newest_In l v : newest l = Some v -> In v l.
Proof. unfold newest. destruct l as [|x l]; [done|]. intros [= <-]. apply reduce_max_In. Qed.

(** *** Writing operations *)

Lemma simple_flow_update what id (f : FlowRow -> FlowRow) d u d' `{!KeepsKey f} :
  (forall fl, flow_ok granted (versions d) fl -> flow_ok granted (versions d) (f fl)) ->
  (changed ← update_flow id f; must_change what id changed) d = inr (u, d') -> ev d d'.
Proof.
  intros Hf (b & d1 & H1 & ->%must_change_inr)%bind_inr. refine (update_flow_ok _ _ _ f _ _ _ H1 _). intros fl _. apply Hf.
Qed.

Lemma status_ok id s ts d u d' : updateFlowStatus id s ts d = inr (u, d') -> ev d d'.
Proof.
  unfold updateFlowStatus. intros (u1 & d1 & ->%status_gate_reads & H)%bind_inr.
  refine (simple_flow_update _ _ (with_status s ts) _ _ _ _ H). intros fl. by apply flow_ok_same.
Qed.

Lemma metadata_ok id m ts d u d' : updateFlowMetadata id m ts d = inr (u, d') -> ev d d'.
Proof. unfold updateFlowMetadata. intros H. refine (simple_flow_update _ _ (with_metadata m ts) _ _ _ _ H). intros fl. by apply flow_ok_same. Qed.

Lemma touch_ok id ts d u d' : touchFlow id ts d = inr (u, d') -> ev d d'.
Proof.
  unfold touchFlow. intros (b & d1 & H1 & [_ ->]%ret_inr)%bind_inr. refine (update_flow_ok _ _ _ (touched ts) _ _ _ H1 _).
  intros fl _. by apply flow_ok_same.
Qed.

Lemma grant_ok id enabled g ts d u d' : (enabled = true -> granted id) -> setFlowCodeStepsEnabled id enabled g ts d = inr (u, d') -> ev d d'.
Proof.
  intros Hg. unfold setFlowCodeStepsEnabled. intros (b & d1 & H1 & ->%must_change_inr)%bind_inr.
  refine (update_flow_ok _ _ _ (with_grant enabled g ts) _ _ _ H1 _). intros fl Hfl [Hok1 Hok2]. split; [|exact Hok2]. simpl.
  apply get_row_Some in Hfl as [_ Hk]. change (fl_id fl = id) in Hk. by rewrite Hk.
Qed.

Lemma insert_version_ok row t d : insert_row row (versions d) = Some t -> ev d (mkFlowDb (flows d) t).
Proof.
  intros Hi (Hkf & Hkv & Hall).
  assert (forall k v, get_row k (versions d) = Some v -> get_row k t = Some v) as Hkeep.
  { intros k v Hv. rewrite (get_row_insert _ _ _ k Hi). case_bool_decide as Hk; [|done]. subst k.
    unfold insert_row in Hi. by rewrite Hv in Hi. }
  split.
  - split; [done|]. split; [by eapply insert_row_keyed|]. simpl. eapply List.Forall_impl; [|exact Hall]. intros fl [Hg Hp].
    split; [done|]. intros vid Hvid. eapply publishable_versions; [by apply Hp|]. intros k v Hv _ _. exists v. by split; [apply Hkeep|].
  - intros k v Hv _ _. exists v. by split; [apply Hkeep|].
Qed.

Lemma create_flow_ok project id ts i d r d' : createFlow project id ts i d = inr (r, d') -> ev d d'.
Proof.
  unfold createFlow. intros (u & d1 & H1 & (u2 & d2 & ->%status_gate_reads & [_ ->]%ret_inr)%bind_inr)%bind_inr.
  destruct (existsb _ _); [done|]. destruct (insert_row _ (flows d)) as [t|] eqn:Ei; [|done]. injection H1 as <- <-.
  intros (Hkf & Hkv & Hall). split; [|by intros k v Hv _ _; exists v].
  split; [by eapply insert_row_keyed|]. split; [done|]. simpl. unfold insert_row in Ei.
  destruct (get_row _ (flows d)); [done|]. injection Ei as <-. apply List.Forall_app. split; [done|]. constructor; [|constructor]. by split.
Qed.

Lemma delete_flow_ok id d u d' : ~ kept id -> deleteFlow id d = inr (u, d') -> ev d d'.
Proof.
  intros Hid [= _ <-] (Hkf & Hkv & Hall).
  assert (forall k v, get_row k (versions d) = Some v -> fv_flow_id v <> id ->
            get_row k (delete_where (fun v => bool_decide (fv_flow_id v = id)) (versions d)) = Some v) as Hkeep.
  { intros k v Hv Hne. apply get_row_delete; [done..|]. by apply bool_decide_eq_false. }
  split.
  - split; [by apply keyed_delete|]. split; [by apply keyed_delete|]. simpl. rewrite List.Forall_forall in *.
    intros fl [Hin Hne%negb_true_iff%bool_decide_eq_false]%filter_In. destruct (Hall fl Hin) as [Hg Hp]. split; [done|].
    intros vid Hvid. eapply publishable_versions; [by apply Hp|]. intros k v Hv Hf _. exists v. split; [|done].
    apply Hkeep; [done|]. congruence.
  - intros k v Hv _ Hk. exists v. split; [|done]. apply Hkeep; [done|]. congruence.
Qed.

Lemma draft_edit_ok id (f : FlowVersionRow -> FlowVersionRow) d b d' e `{!KeepsKey f} : update_version id f d = inr (b, d') ->
  get_row id (versions d) = Some e -> fv_state e = DRAFT -> (forall v, fv_flow_id (f v) = fv_flow_id v) -> ev d d'.
Proof.
  intros H He Hs Hf. refine (update_version_ok _ _ _ f _ _ _ H _). intros v Hv. split; [apply Hf|]. intros Hl. congruence.
Qed.

Lemma create_draft_ok id ts tsf fid name trigger sv ub d r d' : createDraftVersion id ts tsf fid name trigger sv ub d = inr (r, d') -> ev d d'.
Proof.
  unfold createDraftVersion. intros (u & d1 & ->%draft_gate_reads & (u2 & d2 & H2 & (u3 & d3 & H3 & [_ ->]%ret_inr)%bind_inr)%bind_inr)%bind_inr.
  destruct (get_row fid (flows d)); [|discriminate H2]. destruct (insert_row _ _) as [t|] eqn:Ei; [|done].
  injection H2 as <- <-. etrans; [by eapply insert_version_ok|by eapply touch_ok].
Qed.

Lemma update_draft_ok id p ts tsf d r d' : updateDraftVersion id p ts tsf d = inr (r, d') -> ev d d'.
Proof.
  unfold updateDraftVersion. intros (o & d1 & [= <- <-] & (e & d2 & [He ->]%must_exist_inr & H)%bind_inr)%bind_inr.
  destruct (fv_state e) eqn:Es; [|done]. apply bind_inr in H as (u & d2 & H2 & (b & d3 & H3 & (u4 & d4 & H4 & [_ ->]%ret_inr)%bind_inr)%bind_inr).
  assert (d2 = d) as -> by (destruct (up_trigger p); [by apply draft_gate_reads in H2|by apply ret_inr in H2 as [_ ->]]).
  etrans; [|by eapply touch_ok]. by refine (draft_edit_ok _ (patched_version p ts) _ _ _ _ H3 He Es _).
Qed.

Lemma engine_state_ok id l s ts d r d' : setEngineTriggerState id l s ts d = inr (r, d') -> ev d d'.
Proof.
  unfold setEngineTriggerState.
  intros (o & d1 & [= <- <-] & (e & d2 & [He ->]%must_exist_inr & (b & d3 & H3 & [-> _]%reread_inr)%bind_inr)%bind_inr)%bind_inr.
  refine (update_version_ok _ _ _ _ _ _ _ H3 _). by intros v _.
Qed.

Lemma samples_ok what id data input ts d r d' e : editable what id d = inr (e, d) ->
  (_ ← update_version id (with_samples data input ts); reread what id) d = inr (r, d') -> ev d d'.
Proof.
  intros (_ & He & Hs)%editable_inr (b & d1 & H1 & [-> _]%reread_inr)%bind_inr.
  by refine (draft_edit_ok _ (with_samples data input ts) _ _ _ _ H1 He Hs _).
Qed.

Lemma sample_data_ok id k o ts d r d' : setSampleDataEntry id k o ts d = inr (r, d') -> ev d d'.
Proof.
  unfold setSampleDataEntry. intros (e & d1 & He & H)%bind_inr. pose proof He as [-> _]%editable_inr. by eapply samples_ok.
Qed.
Lemma sample_input_ok id k o ts d r d' : setSampleInputEntry id k o ts d = inr (r, d') -> ev d d'.
Proof.
  unfold setSampleInputEntry. intros (e & d1 & He & H)%bind_inr. pose proof He as [-> _]%editable_inr. by eapply samples_ok.
Qed.
Lemma replace_samples_ok id data ts d r d' : replaceSampleData id data ts d = inr (r, d') -> ev d d'.
Proof.
  unfold replaceSampleData. intros (e & d1 & He & H)%bind_inr. pose proof He as [-> _]%editable_inr. by eapply samples_ok.
Qed.

Lemma merge_ok id runSteps ts d r d' : mergeRunOutputsIntoSampleData id runSteps ts d = inr (r, d') -> ev d d'.
Proof.
  unfold mergeRunOutputsIntoSampleData. intros (o & d1 & [= <- <-] & H)%bind_inr.
  destruct (get_row id (versions d)) as [e|] eqn:He; [|apply ret_inr in H as [_ ->]; reflexivity].
  destruct (fv_state e) eqn:Es; [|apply ret_inr in H as [_ ->]; reflexivity].
  destruct (merge_outputs _ _ _ _) as [[current written] skipped]. apply bind_inr in H as (u & d1 & H1 & [_ ->]%ret_inr).
  destruct written; [apply ret_inr in H1 as [_ ->]; reflexivity|].
  apply bind_inr in H1 as (b & d2 & H2 & [_ ->]%ret_inr). by refine (draft_edit_ok _ (with_samples _ _ _) _ _ _ _ H2 He Es _).
Qed.

Lemma lock_spec id ts d r d' : lockVersion id ts d = inr (r, d') ->
  ev d d' /\ flows d' = flows d /\ exists v, get_row id (versions d) = Some v /\ get_row id (versions d') = Some r /\ fv_state r = LOCKED /\
    fv_id r = fv_id v /\ fv_flow_id r = fv_flow_id v /\ fv_trigger r = fv_trigger v.
Proof.
  unfold lockVersion. intros (o & d1 & [= <- <-] & (e & d2 & [He ->]%must_exist_inr & H)%bind_inr)%bind_inr.
  destruct (fv_state e) eqn:Es.
  - apply bind_inr in H as (b & d1 & H1 & [-> Hr]%reread_inr).
    split; [by refine (draft_edit_ok _ (with_locked ts) _ _ _ _ H1 He Es _)|]. unfold update_version in H1.
    destruct (update_where _ (with_locked ts) (versions d)) as [t n] eqn:Eu. injection H1 as <- <-. split; [done|].
    assert (t = (update_where (key_is id (fun _ => true)) (with_locked ts) (versions d)).1) as -> by (by rewrite Eu).
    exists e. split; [done|]. split; [done|]. cbn [versions] in Hr.
    rewrite (get_row_update_key id (fun _ => true) (with_locked ts) (versions d)), He in Hr. simpl in Hr. by injection Hr as <-.
  - apply ret_inr in H as [-> ->]. split; [reflexivity|]. split; [done|]. by exists e.
Qed.

(** *** Publishing *)

Lemma publish_target_spec fid vo d o d' : keyed (versions d) -> publish_target fid vo d = inr (o, d') ->
  d' = d /\ match o with Some v => get_row (fv_id v) (versions d) = Some v | None => True end.
Proof.
  intros Hk. unfold publish_target. destruct vo as [v|].
  - destruct (negb _); [done|]. intros (u & d1 & [-> (x & Hx & _)]%owned_spec & [= <- <-])%bind_inr. split; [done|]. rewrite Hx.
    by pose proof (get_row_Some _ _ _ Hx) as [_ <-].
  - intros [= <- <-]. split; [done|]. destruct (newest _) as [v|] eqn:E; [|done]. apply newest_In in E.
    apply filter_In in E as [Hin _]. by apply get_row_In.
Qed.

Lemma publish_ok fid vo ts d r d' : publishFlowVersion fid vo ts d = inr (r, d') -> ev d d'.
Proof.
  intros H Hd. revert H. unfold publishFlowVersion. intros (o & d1 & [= <- <-] & H)%bind_inr.
  destruct (get_row fid (flows d)) as [f|] eqn:Ef; [|done].
  apply bind_inr in H as (o & d1 & H1 & H). apply publish_target_spec in H1 as [-> Hv]; [|apply Hd].
  destruct o as [v|]; [|done].
  apply bind_inr in H as (u & d1 & [-> Hgate]%codeGate_spec & (locked & d2 & Hlock & (u2 & d3 & Hset & (u3 & d4 & Hst & [_ ->]%ret_inr)%bind_inr)%bind_inr)%bind_inr).
  assert (ev d d2 /\ flows d2 = flows d /\ get_row (fv_id locked) (versions d2) = Some locked /\ fv_state locked = LOCKED /\
          fv_id locked = fv_id v /\ fv_flow_id locked = fv_flow_id v /\ fv_trigger locked = fv_trigger v) as (Hev & Hfl & Hl & Hs & Ei & Eo & Et).
  { destruct (fv_state v) eqn:Es.
    - apply lock_spec in Hlock as (He & Hf & w & Hw & Hr & Hs & E1 & E2 & E3). rewrite Hv in Hw. injection Hw as <-.
      rewrite E1. by split_and!.
    - apply ret_inr in Hlock as [-> ->]. split; [reflexivity|]. by split_and!. }
  enough (ev d2 d3) as Hset'.
  { apply status_ok in Hst. assert (ev d d4) as Hall by (etrans; [exact Hev|etrans; [exact Hset'|exact Hst]]). by apply Hall. }
  apply bind_inr in Hset as (u4 & d5 & [-> (w & Hw & How)]%owned_spec & (b & d6 & Hu & ->%must_change_inr)%bind_inr).
  refine (update_flow_ok _ _ _ (with_published (Some (fv_id locked)) ts) _ _ _ Hu _).
  intros fl Hfid [Hok1 Hok2]. split; [exact Hok1|]. simpl. intros vid [= <-]. exists locked. rewrite Hl in Hw. injection Hw as <-.
  pose proof (get_row_Some _ _ _ Hfid) as [_ Hkey]. change (fl_id fl = fid) in Hkey. rewrite Hfl, Ef in Hfid. injection Hfid as <-.
  split; [done|]. split; [simpl; congruence|]. split; [done|]. simpl. destruct (Hgate f v Ef Hv) as [Hc|Hc]; [left|right; by apply Hok1].
  unfold code_free in *. by rewrite Et.
Qed.

(** *** Every operation *)

Lemma done_inr {A} (m : flow_op A) d u d' : done_ m d = inr (u, d') -> exists a, m d = inr (a, d').
Proof. unfold done_. intros (a & d1 & H & [_ ->]%ret_inr)%bind_inr. by exists a. Qed.

Definition op_allowed (op : FlowOp) : Prop :=
  match op with
  | OpCodeSteps id true _ _ => granted id
  | OpDeleteFlow id => ~ kept id
  | _ => True
  end.

Lemma flow_step_ok project d op : op_allowed op -> ev d (flow_step project d op).
Proof.
  intros Ha. unfold flow_step. destruct (run_flow_op project op d) as [e|[u d']] eqn:E; [reflexivity|].
  destruct op; simpl in E; try (apply done_inr in E as [r E]).
  - by eapply create_flow_ok.
  - by eapply status_ok.
  - eapply grant_ok; [|exact E]. intros ->. exact Ha.
  - by eapply metadata_ok.
  - by eapply delete_flow_ok.
  - by eapply publish_ok.
  - by eapply create_draft_ok.
  - by eapply update_draft_ok.
  - by eapply engine_state_ok.
  - by eapply sample_data_ok.
  - by eapply sample_input_ok.
  - by eapply replace_samples_ok.
  - by eapply merge_ok.
  - unfold withOwnedFlowVersion in E. apply bind_inr in E as (u1 & d1 & [-> _]%owned_spec & [E _]%lock_spec). exact E.
Qed.

Lemma flow_steps_ok project d ops : List.Forall op_allowed ops -> ev d (flow_steps project d ops).
Proof.
  intros H. revert d. induction H as [|op ops Hop _ IH]; intros d; [reflexivity|]. simpl.
  etrans; [by apply flow_step_ok|apply IH].
Qed.
End operations.

(** ** Theorems *)

Lemma empty_flows_ok granted : flows_ok granted empty_flows.
Proof. split; [constructor|]. by split; [constructor|]. Qed.

(** C3: after any operations on any flows and versions, failed ones included, what a flow
    has published exists, belongs to the flow and is locked; and if its graph has a CODE step
    anywhere (in a loop body, behind a router branch), then CODE steps were turned on for
    that flow, by id, in an operation of its own. *)
Theorem published_code_was_granted (project : string) (ops : list FlowOp) (f : FlowRow) (vid : string) :
  let d := flow_steps project empty_flows ops in
  In f (flows d) -> published_version_id f = Some vid ->
  exists v, get_row vid (versions d) = Some v /\ fv_flow_id v = fl_id f /\ fv_state v = LOCKED /\
    (hasCodeStep (Some (fv_trigger v)) = true -> exists g ts, In (OpCodeSteps (fl_id f) true g ts) ops).
Proof.
  intros d Hin Hp. set (granted := fun id => exists g ts, In (OpCodeSteps id true g ts) ops).
  destruct (flow_steps_ok granted (fun _ => False) project empty_flows ops) as [(_ & _ & Hall) _]; [|apply empty_flows_ok|].
  - apply List.Forall_forall. intros op Hop. destruct op as [| |id [] g ts| | | | | | | | | | |]; simpl; try done; [by exists g, ts|tauto].
  - rewrite List.Forall_forall in Hall. destruct (Hall f Hin) as [_ H]. destruct (H vid Hp) as (v & Hv & Ho & Hs & Hc).
    exists v. split_and!; [done..|]. intros Hcode. destruct Hc as [Hc|Hc]; [|exact Hc].
    unfold hasCodeStep, code_free in *. by rewrite Hc in Hcode.
Qed.

(** a locked version is final: until its flow is deleted, no operation on any flow or
    version, the capture of a run's outputs included, changes its steps, its name, its
    connections or its samples, or unlocks it. *)
Theorem locked_version_is_final (project : string) (before after : list FlowOp) (vid : string) (v : FlowVersionRow) :
  let d := flow_steps project empty_flows before in
  get_row vid (versions d) = Some v -> fv_state v = LOCKED -> ~ In (OpDeleteFlow (fv_flow_id v)) after ->
  exists v', get_row vid (versions (flow_steps project d after)) = Some v' /\ content v' = content v.
Proof.
  intros d Hv Hs Hnot. set (any := fun _ : string => True).
  destruct (flow_steps_ok any (fun _ => False) project empty_flows before) as [Hd _]; [|apply empty_flows_ok|].
  { apply List.Forall_forall. intros op _. destruct op as [| |id [] g ts| | | | | | | | | | |]; simpl; done || tauto. }
  destruct (flow_steps_ok any (fun id => id = fv_flow_id v) project d after) as [_ Hf]; [|exact Hd|by apply (Hf vid v)].
  apply List.Forall_forall. intros op Hop. destruct op as [| |id [] g ts| |id| | | | | | | | |]; simpl; try done.
  by intros ->.
Qed.

(** ** A flow with a CODE step in a loop *)

Definition code_trigger : json :=
  JObj [("name", JStr "trigger"); ("type", JStr "EMPTY"); ("nextAction",
    JObj [("name", JStr "loop"); ("type", JStr "LOOP_ON_ITEMS"); ("firstLoopAction",
      JObj [("name", JStr "script"); ("type", JStr "CODE")])])].
Definition demo_new_flow (id : string) (ts : Z) : FlowOp := OpCreateFlow id ts (mkCreateFlow None None None None None).
Definition demo_flow_ops : list FlowOp :=
  [demo_new_flow "f" 1; OpCreateDraft "v" "f" "Flow" (Some code_trigger) 2; OpPublish "f" None 3; OpStatus "f" ENABLED 4;
   OpCodeSteps "f" true grant_user 5; OpPublish "f" None 6; OpCodeSteps "f" false grant_user 7; OpSampleData "v" "script" (Some JNull) 8].
Definition demo_flow_db : FlowDb := flow_steps "project" empty_flows demo_flow_ops.

(** Refused at 3 and 4 with nothing written, accepted at 6. *)
Example code_refused_then_granted :
  map (fun n => map (fun f => (fl_status f, published_version_id f)) (flows (flow_steps "project" empty_flows (take n demo_flow_ops)))) [4; 6; 8]%nat =
  [[(DISABLED, None)]; [(ENABLED, Some "v")]; [(ENABLED, Some "v")]].
Proof. vm_compute. reflexivity. Qed.

Lemma published_code_was_granted_witness :
  exists v, get_row "v" (versions demo_flow_db) = Some v /\ fv_flow_id v = "f" /\ fv_state v = LOCKED /\
    (hasCodeStep (Some (fv_trigger v)) = true -> exists g ts, In (OpCodeSteps "f" true g ts) demo_flow_ops).
Proof.
  apply (published_code_was_granted "project" demo_flow_ops
    (mkFlow "f" "f" "project" None ENABLED (Some "v") None false None None 1 7) "v"); [vm_compute; by left|reflexivity].
Defined.

Lemma locked_version_is_final_witness :
  exists v', get_row "v" (versions (flow_steps "project" (flow_steps "project" empty_flows (take 6 demo_flow_ops))
      [OpUpdateDraft "v" (mkUpdateDraft (Some "Other") (Some (JObj [])) None None None None None None) 9; OpMergeOutputs "v" [("s", JObj [])] 10;
       OpDeleteFlow "g"])) = Some v' /\
    content v' = content (mkVersionRow "v" "f" "Flow" code_trigger LOCKED false (Some "20") None [] [] (JArr []) None None None None None 2 6).
Proof.
  apply (locked_version_is_final "project" (take 6 demo_flow_ops)); [vm_compute; reflexivity|reflexivity|].
  intros H. vm_compute in H. repeat (destruct H as [H|H]; [discriminate|]). exact H.
Defined.
