(* ===== verification/WorkflowDb.v ===== *)
(** * The workflow database (src/src/workflows/db/repos)

    The tables the workflow runtime shares: jobs, flow runs, waitpoints, run
    cancellations and delegation checkpoints, with the operations of
    [flow-run.ts], [run-cancellation.ts], [waitpoint.ts] and [delegation.ts].
    Generated ids and the clock are arguments (one reading of the clock per
    operation); an operation that throws returns [inl] with the message, and a
    transaction that throws leaves the tables unchanged. JSON columns whose
    text is only ever written and read whole ([steps], [failed_step]) are kept
    decoded; the payload of a job, which SQL reads as text, is kept as text.
    The deletion of whole flows is not modelled. *)
From S2P Require Export Sql Json.

(** The result of an operation that may throw. *)
Notation throws A := (string + A)%type.

(** ** Rows *)

Inductive JobStatus := JOB_QUEUED | JOB_RUNNING | JOB_SUCCEEDED | JOB_FAILED | JOB_CANCELED.

Inductive FlowRunStatus :=
  | RUN_QUEUED | RUN_RUNNING | RUN_SUCCEEDED | RUN_FAILED | RUN_PAUSED | RUN_TIMEOUT | RUN_INTERNAL_ERROR
  | RUN_QUOTA_EXCEEDED | RUN_STOPPED | RUN_MEMORY_LIMIT_EXCEEDED | RUN_SCHEDULE_FAILURE.

Inductive RunEnvironment := PRODUCTION | TESTING.
Inductive WaitpointType := WEBHOOK | TIMER | MANUAL.

#[export] Instance JobStatus_eq_dec : EqDecision JobStatus.
Proof. solve_decision. Defined.
#[export] Instance FlowRunStatus_eq_dec : EqDecision FlowRunStatus.
Proof. solve_decision. Defined.
#[export] Instance WaitpointType_eq_dec : EqDecision WaitpointType.
Proof. solve_decision. Defined.

Record JobRow := mkJob {
  job_id : string; job_type : string;
  job_flow_run_id : option string; job_flow_id : option string; job_flow_version_id : option string;
  job_payload : string; job_priority : Z; job_status : JobStatus;
  attempt : Z; max_attempts : Z; locked_until : option Z; scheduled_at : Z;
  last_error : option string; job_created : Z; job_updated : Z }.

Record FailedStep := mkFailedStep { fs_name : string; displayName : string; errorMessage : option string }.

Record RunExecutionConfig := mkRunConfig {
  stepNameToTest : option string; sampleData : option json; sampleInputOverride : option json }.

Record FlowRunRow := mkRun {
  run_id : string; run_flow_id : string; run_flow_version_id : string; run_project_id : string;
  parent_run_id : option string; fail_parent_on_failure : bool; triggered_by : option string;
  run_status : FlowRunStatus; environment : RunEnvironment;
  steps : option (gmap string json); failed_step : option FailedStep;
  step_name_to_test : option string; execution_config : option RunExecutionConfig;
  start_time : option Z; finish_time : option Z; archived_at : option Z; steps_count : option Z;
  logs_file_id : option string; tags : option (list string); run_created : Z; run_updated : Z }.

Record WaitpointRow := mkWaitpoint {
  wp_id : string; wp_flow_run_id : string; wp_project_id : string; wp_step_name : string;
  wp_type : WaitpointType; wp_version : string; resume_date_time : option string;
  response_to_send : option json; worker_handler_id : option string; http_request_id : option string;
  wp_created : Z; resumed_at : option Z }.

Record RunCancellation := mkCancellation {
  cancel_run_id : string; acknowledgedAt : Z; statusAtRequest : FlowRunStatus;
  inFlightMayHaveCompleted : bool }.

Record DelegationRow := mkDelegation {
  dlg_id : string; dlg_run_id : string; dlg_status : string; dlg_record : string; dlg_updated_at : Z }.

#[export] Instance job_row_key : Row JobRow := job_id.
#[export] Instance run_row_key : Row FlowRunRow := run_id.
#[export] Instance waitpoint_row_key : Row WaitpointRow := wp_id.
#[export] Instance cancellation_row_key : Row RunCancellation := cancel_run_id.
#[export] Instance delegation_row_key : Row DelegationRow := dlg_id.

Record Db := mkDb {
  jobs : list JobRow; runs : list FlowRunRow; waitpoints : list WaitpointRow;
  cancellations : list RunCancellation; delegations : list DelegationRow }.

Definition set_jobs (t : list JobRow) (d : Db) := mkDb t (runs d) (waitpoints d) (cancellations d) (delegations d).
Definition set_runs (t : list FlowRunRow) (d : Db) := mkDb (jobs d) t (waitpoints d) (cancellations d) (delegations d).
Definition set_waitpoints (t : list WaitpointRow) (d : Db) := mkDb (jobs d) (runs d) t (cancellations d) (delegations d).
Definition set_cancellations (t : list RunCancellation) (d : Db) := mkDb (jobs d) (runs d) (waitpoints d) t (delegations d).
Definition set_delegations (t : list DelegationRow) (d : Db) := mkDb (jobs d) (runs d) (waitpoints d) (cancellations d) t.

Definition empty_db : Db := mkDb [] [] [] [] [].

(** ** Column predicates and updates *)

Definition RUN_FLOW : string := "RUN_FLOW".

Definition is_run_flow (j : JobRow) : bool := bool_decide (job_type j = RUN_FLOW).
Definition job_in (l : list JobStatus) (j : JobRow) : bool := includes (job_status j) l.
Definition job_active : JobRow -> bool := job_in [JOB_QUEUED; JOB_RUNNING].
Definition status_open (s : FlowRunStatus) : bool := includes s [RUN_QUEUED; RUN_RUNNING; RUN_PAUSED].
Definition run_open (r : FlowRunRow) : bool := status_open (run_status r).

(** [CASE WHEN json_valid(payload) THEN json_extract(payload, '$.k') END], as
    far as it can equal a text: a member that is not a string never does. *)
Definition payload_text (k payload : string) : option string :=
  match parse payload with
  | Some v => match jget k v with Some (JStr s) => Some s | _ => None end
  | None => None
  end.

(** [flow_run_id = ? OR (flow_run_id IS NULL AND payload.runId = ?)] *)
Definition job_of_run (rid : string) (j : JobRow) : bool :=
  match job_flow_run_id j with
  | Some r => bool_decide (r = rid)
  | None => bool_decide (payload_text "runId" (job_payload j) = Some rid)
  end.

(** [UPDATE workflow_job SET status = s, last_error = e, locked_until = NULL, updated = ts] *)
Definition with_job (s : JobStatus) (e : option string) (ts : Z) (j : JobRow) : JobRow :=
  mkJob (job_id j) (job_type j) (job_flow_run_id j) (job_flow_id j) (job_flow_version_id j) (job_payload j)
    (job_priority j) s (attempt j) (max_attempts j) None (scheduled_at j) e (job_created j) ts.

(** [UPDATE flow_run SET status = s, finish_time = f, updated = ts], and
    [failed_step] when given. *)
Definition with_end (s : FlowRunStatus) (f : option FailedStep) (finish ts : Z) (r : FlowRunRow) : FlowRunRow :=
  mkRun (run_id r) (run_flow_id r) (run_flow_version_id r) (run_project_id r) (parent_run_id r)
    (fail_parent_on_failure r) (triggered_by r) s (environment r) (steps r)
    (match f with Some _ => f | None => failed_step r end) (step_name_to_test r)
    (execution_config r) (start_time r) (Some finish) (archived_at r) (steps_count r) (logs_file_id r)
    (tags r) (run_created r) ts.

#[export] Instance with_job_key s e ts : KeepsKey (with_job s e ts).
Proof. done. Qed.
#[export] Instance with_end_key s f fin ts : KeepsKey (with_end s f fin ts).
Proof. done. Qed.

(** ** Flow runs (flow-run.ts) *)

Record CreateFlowRunInput := mkCreateRun {
  cr_flowId : string; cr_flowVersionId : string; cr_projectId : option string; cr_parentRunId : option string;
  cr_failParentOnFailure : bool; cr_triggeredBy : option string; cr_environment : option RunEnvironment;
  cr_status : option FlowRunStatus; cr_startTime : option Z; cr_stepNameToTest : option string;
  cr_tags : option (list string) }.

Definition getFlowRun (id : string) (d : Db) : option FlowRunRow := get_row id (runs d).

(** [defaultProject] is [DEFAULT_IDS.project]. *)
Definition createFlowRun (defaultProject id : string) (ts : Z) (i : CreateFlowRunInput) (d : Db) : throws (Db * FlowRunRow) :=
  let r := mkRun id (cr_flowId i) (cr_flowVersionId i) (cr_projectId i ?? defaultProject) (cr_parentRunId i)
    (cr_failParentOnFailure i) (cr_triggeredBy i) (cr_status i ?? RUN_QUEUED) (cr_environment i ?? PRODUCTION)
    None None (cr_stepNameToTest i) None (cr_startTime i) None None None None (cr_tags i) ts ts in
  match insert_row r (runs d) with
  | Some t => inr (set_runs t d, r)
  | None => inl "UNIQUE constraint failed: flow_run.id"
  end.

(** An absent field is [None]; a field given as [null] is [Some None]. *)
Record UpdateRunInput := mkPatch {
  p_status : option FlowRunStatus; p_steps : option (option (gmap string json));
  p_failedStep : option (option FailedStep); p_finishTime : option (option Z); p_startTime : option Z;
  p_stepsCount : option Z; p_logsFileId : option (option string) }.

Definition getRunCancellation (id : string) (d : Db) : option RunCancellation := get_row id (cancellations d).

(** The patch after the cancellation fence. *)
Definition fence_patch (c : option RunCancellation) (existing : FlowRunRow) (p : UpdateRunInput) : UpdateRunInput :=
  match c with
  | None => p
  | Some c =>
      let merged := (default ∅ (default None (p_steps p))) ∪ default ∅ (steps existing) in
      mkPatch (Some RUN_STOPPED) (Some (Some merged)) (p_failedStep p) (Some (Some (acknowledgedAt c)))
        (p_startTime p)
        (Some (Z.max (Z.max (steps_count existing ?? 0) (p_stepsCount p ?? 0)) (Z.of_nat (size merged))))
        (p_logsFileId p)
  end.

Definition apply_patch (p : UpdateRunInput) (now : Z) (r : FlowRunRow) : FlowRunRow :=
  mkRun (run_id r) (run_flow_id r) (run_flow_version_id r) (run_project_id r) (parent_run_id r)
    (fail_parent_on_failure r) (triggered_by r) (p_status p ?? run_status r) (environment r)
    (p_steps p ?? steps r) (p_failedStep p ?? failed_step r) (step_name_to_test r) (execution_config r)
    (match p_startTime p with Some t => Some t | None => start_time r end)
    (p_finishTime p ?? finish_time r) (archived_at r)
    (match p_stepsCount p with Some n => Some n | None => steps_count r end)
    (p_logsFileId p ?? logs_file_id r) (tags r) (run_created r) now.

#[export] Instance apply_patch_key p now : KeepsKey (apply_patch p now).
Proof. done. Qed.

Definition updateRun (id : string) (patch : UpdateRunInput) (now : Z) (d : Db) : throws (Db * FlowRunRow) :=
  match getFlowRun id d with
  | None => inl ("updateRun: not found (id=" +:+ id +:+ ")")
  | Some existing =>
      let p := fence_patch (getRunCancellation id d) existing patch in
      inr (set_runs (update_where (key_is id (fun _ => true)) (apply_patch p now) (runs d)).1 d,
           apply_patch p now existing)
  end.

Record ListRunsOptions := mkListRuns {
  lr_flowId : option string; lr_status : option FlowRunStatus; lr_limit : option Z; lr_offset : option Z }.

Definition created_desc (a b : FlowRunRow) : bool := run_created b <=? run_created a.

Definition listRuns (o : ListRunsOptions) (d : Db) : list FlowRunRow :=
  let keep r :=
    match lr_flowId o with Some f => bool_decide (run_flow_id r = f) | None => true end &&
    match lr_status o with Some s => bool_decide (run_status r = s) | None => true end in
  sql_limit (lr_limit o ?? 50) (lr_offset o ?? 0) (sort_by created_desc (select_where keep (runs d))).

(** *** The frozen execution configuration *)

(** Spreading a value that is only kept when truthy. *)
Definition keep_truthy (o : option json) : option json :=
  match o with Some v => if truthy_json v then Some v else None | None => None end.
Definition keep_truthy_str (o : option string) : option string :=
  match o with Some s => if truthy s then Some s else None | None => None end.

(** [JSON.parse(job.payload) as RunExecutionConfig]; the test step is typed a string. *)
Definition config_of_payload (v : json) : RunExecutionConfig :=
  mkRunConfig (match jget "stepNameToTest" v with Some (JStr s) => Some s | _ => None end)
    (jget "sampleData" v) (jget "sampleInputOverride" v).

(** [COALESCE(json_extract(payload, '$.executionType'), 'BEGIN') = 'BEGIN']; a
    payload is the text [JSON.stringify] wrote, so [json_extract] does not fail. *)
Definition begins (j : JobRow) : bool :=
  match parse (job_payload j) with
  | Some v => match jget "executionType" v with
              | None | Some JNull => true
              | Some (JStr s) => bool_decide (s = "BEGIN")
              | Some _ => false
              end
  | None => false
  end.

Definition created_id_asc (a b : JobRow) : bool :=
  (job_created a <? job_created b) ||
  ((job_created a =? job_created b) && String.leb (job_id a) (job_id b)).

Definition with_config (test : option string) (c : RunExecutionConfig) (r : FlowRunRow) : FlowRunRow :=
  mkRun (run_id r) (run_flow_id r) (run_flow_version_id r) (run_project_id r) (parent_run_id r)
    (fail_parent_on_failure r) (triggered_by r) (run_status r) (environment r) (steps r) (failed_step r)
    test (Some c) (start_time r) (finish_time r) (archived_at r) (steps_count r)
    (logs_file_id r) (tags r) (run_created r) (run_updated r).

#[export] Instance with_config_key test c : KeepsKey (with_config test c).
Proof. done. Qed.

Definition run_config_source (runId : string) (initial : option RunExecutionConfig) (d : Db) : throws RunExecutionConfig :=
  match initial with
  | Some c => inr c
  | None =>
      match sort_by created_id_asc (select_where (fun j =>
              bool_decide (job_flow_run_id j = Some runId) && is_run_flow j && begins j) (jobs d)) with
      | [] => inl "Original run configuration unavailable; start a new run to preserve preview scope"
      | j :: _ => match parse (job_payload j) with
                  | Some JNull => inl "null is not an object"
                  | Some v => inr (config_of_payload v)
                  | None => inl "JSON Parse error"
                  end
      end
  end.

(** [a && b && a !== b] on two nullable texts. *)
Definition scope_mismatch (a b : option string) : bool :=
  truthy_opt a && truthy_opt b && negb (bool_decide (a = b)).

Definition ensureRunExecutionConfig (runId : string) (initial : option RunExecutionConfig) (d : Db)
    : throws (Db * RunExecutionConfig) :=
  match getFlowRun runId d with
  | None => inl ("Run " +:+ runId +:+ " not found")
  | Some row =>
      match execution_config row with
      | Some c => inr (d, c)
      | None =>
          match run_config_source runId initial d with
          | inl e => inl e
          | inr source =>
              let test := match step_name_to_test row with Some s => Some s | None => stepNameToTest source end in
              let c := mkRunConfig (keep_truthy_str test) (keep_truthy (sampleData source))
                         (keep_truthy (sampleInputOverride source)) in
              if scope_mismatch (step_name_to_test row) (stepNameToTest source)
              then inl "Run preview scope does not match the original job"
              else inr (set_runs (update_where (key_is runId (fun _ => true)) (with_config test c) (runs d)).1 d, c)
          end
      end
  end.

(** ** Cancellation (run-cancellation.ts, runtime/cancellation.ts) *)

(** [INSERT INTO workflow_run_cancellation] when the run has no record yet. *)
Definition new_cancellation (runId : string) (now : Z) (r : FlowRunRow) : RunCancellation :=
  mkCancellation runId now (run_status r)
    (bool_decide (run_status r = RUN_RUNNING) || negb (bool_decide (start_time r = None))).

Definition delegation_of (runId : string) (g : DelegationRow) : bool := bool_decide (dlg_run_id g = runId).

(** The checkpoint itself is kept as the text of the [record] column. *)
Definition getDelegation (id : string) (d : Db) : option DelegationRow := get_row id (delegations d).

(** [INSERT ... ON CONFLICT(id) DO UPDATE]: the owning run of an existing row stays. *)
Definition saveDelegation (g : DelegationRow) (d : Db) : Db :=
  match insert_row g (delegations d) with
  | Some t => set_delegations t d
  | None => set_delegations (update_where (key_is (dlg_id g) (fun _ => true))
      (fun old => mkDelegation (dlg_id old) (dlg_run_id old) (dlg_status g) (dlg_record g) (dlg_updated_at g))
      (delegations d)).1 d
  end.

Definition deleteDelegations (runId : string) (d : Db) : Db * nat :=
  (set_delegations (delete_where (delegation_of runId) (delegations d)) d,
   length (select_where (delegation_of runId) (delegations d))).

Record CancelResult := mkCancelResult {
  accepted : bool; jobCanceled : bool; cr_cancellation : option RunCancellation }.

(** The jobs a cancellation takes off the queue. *)
Definition cancels_job (runId : string) (j : JobRow) : bool :=
  is_run_flow j && job_active j && job_of_run runId j.

(** [UPDATE workflow_job SET status = 'CANCELED', locked_until = NULL, updated = ts] *)
Definition cancel_row (ts : Z) (j : JobRow) : JobRow := with_job JOB_CANCELED (last_error j) ts j.

#[export] Instance cancel_row_key ts : KeepsKey (cancel_row ts).
Proof. done. Qed.

(** The writes of the transaction once the cancellation [c] is on record. *)
Definition apply_cancellation (c : RunCancellation) (runId : string) (now : Z) (d : Db) : Db * bool :=
  let (js, n) := update_where (cancels_job runId) (cancel_row now) (jobs d) in
  let rs := (update_where (key_is runId (fun _ => true)) (with_end RUN_STOPPED None (acknowledgedAt c) now) (runs d)).1 in
  ((deleteDelegations runId (set_runs rs (set_jobs js d))).1, (0 <? n)%nat).

(** The signal to the executors of this process is sent exactly when the
    result is accepted, after the commit. *)
Definition cancelFlowRun (runId : string) (now : Z) (d : Db) : throws (Db * CancelResult) :=
  match getFlowRun runId d with
  | None => inl ("run not found: " +:+ runId)
  | Some run =>
      match getRunCancellation runId d with
      | Some c => let (d', n) := apply_cancellation c runId now d in inr (d', mkCancelResult true n (Some c))
      | None =>
          if negb (run_open run) then inr (d, mkCancelResult false false None)
          else let c := new_cancellation runId now run in
               match insert_row c (cancellations d) with
               | None => inl "UNIQUE constraint failed: workflow_run_cancellation.run_id"
               | Some t => let (d', n) := apply_cancellation c runId now (set_cancellations t d) in
                           inr (d', mkCancelResult true n (Some c))
               end
      end
  end.

(** [ORDER BY created DESC, rowid DESC LIMIT 1] *)
Definition latest_job (l : list JobRow) : option JobRow :=
  foldl (fun acc j => match acc with
                      | Some b => if job_created b <=? job_created j then Some j else Some b
                      | None => Some j
                      end) None l.

Definition needs_cancel_recovery (d : Db) (r : FlowRunRow) : bool :=
  run_open r &&
  (negb (bool_decide (getRunCancellation (run_id r) d = None)) ||
   match latest_job (select_where (fun j => is_run_flow j && job_of_run (run_id r) j) (jobs d)) with
   | Some j => bool_decide (job_status j = JOB_CANCELED)
   | None => false
   end).

Fixpoint cancel_each (ids : list string) (now : Z) (d : Db) : throws Db :=
  match ids with
  | [] => inr d
  | id :: ids' => match cancelFlowRun id now d with
                  | inl e => inl e
                  | inr p => cancel_each ids' now p.1
                  end
  end.

Definition recoverCanceledRuns (now : Z) (d : Db) : throws Db :=
  cancel_each (map run_id (select_where (needs_cancel_recovery d) (runs d))) now d.

(** [assertRunNotCanceled] throws unless this is true. *)
Definition run_not_canceled (runId : string) (d : Db) : bool :=
  bool_decide (getRunCancellation runId d = None) && negb (bool_decide (getFlowRun runId d = None)).

Definition canceled_message (runId : string) : string :=
  "Workflow " +:+ runId +:+
  " was canceled or deleted; no new actions may start. Previously dispatched effects may have completed.".

(** ** Waitpoints (waitpoint.ts) *)

Record CreateWaitpointInput := mkCreateWaitpoint {
  cw_flowRunId : string; cw_projectId : string; cw_stepName : string; cw_type : WaitpointType;
  cw_version : option string; cw_resumeDateTime : option string; cw_responseToSend : option json;
  cw_workerHandlerId : option string; cw_httpRequestId : option string }.

Definition createWaitpoint (id : string) (now : Z) (i : CreateWaitpointInput) (d : Db) : throws (Db * WaitpointRow) :=
  if negb (run_not_canceled (cw_flowRunId i) d) then inl (canceled_message (cw_flowRunId i))
  else
    let w := mkWaitpoint id (cw_flowRunId i) (cw_projectId i) (cw_stepName i) (cw_type i) (cw_version i ?? "V1")
      (cw_resumeDateTime i) (cw_responseToSend i) (cw_workerHandlerId i) (cw_httpRequestId i) now None in
    match insert_row w (waitpoints d) with
    | Some t => inr (set_waitpoints t d, w)
    | None => inl "UNIQUE constraint failed: waitpoint.id"
    end.

Definition getWaitpoint (id : string) (d : Db) : option WaitpointRow := get_row id (waitpoints d).

Definition unresumed (w : WaitpointRow) : bool := bool_decide (resumed_at w = None).

Definition wp_created_desc (a b : WaitpointRow) : bool := wp_created b <=? wp_created a.

Definition listWaitpointsByFlowRun (flowRunId : string) (resumed : option bool) (d : Db) : list WaitpointRow :=
  sort_by wp_created_desc (select_where (fun w => bool_decide (wp_flow_run_id w = flowRunId) &&
    match resumed with None => true | Some true => negb (unresumed w) | Some false => unresumed w end) (waitpoints d)).

(** The comparison of ISO texts is SQLite's bytewise one. *)
Definition due_timer (nowIso : string) (d : Db) (w : WaitpointRow) : bool :=
  bool_decide (wp_type w = TIMER) && unresumed w &&
  match resume_date_time w with Some t => String.leb t nowIso | None => false end &&
  negb (existsb (fun r => bool_decide (run_id r = wp_flow_run_id w) && includes (run_status r) [RUN_QUEUED; RUN_RUNNING]) (runs d)).

Definition resume_time_asc (a b : WaitpointRow) : bool :=
  match resume_date_time a, resume_date_time b with
  | Some x, Some y => String.leb x y
  | None, _ => true
  | Some _, None => false
  end.

Definition listDueTimerWaitpoints (nowIso : string) (limit : Z) (d : Db) : list WaitpointRow :=
  sql_limit limit 0 (sort_by resume_time_asc (select_where (due_timer nowIso d) (waitpoints d))).

Definition mark_resumed (now : Z) (w : WaitpointRow) : WaitpointRow :=
  mkWaitpoint (wp_id w) (wp_flow_run_id w) (wp_project_id w) (wp_step_name w) (wp_type w) (wp_version w)
    (resume_date_time w) (response_to_send w) (worker_handler_id w) (http_request_id w) (wp_created w) (Some now).

#[export] Instance mark_resumed_key now : KeepsKey (mark_resumed now).
Proof. done. Qed.

Definition markWaitpointResumed (id : string) (now : Z) (d : Db) : Db * bool :=
  let (t, n) := update_where (key_is id unresumed) (mark_resumed now) (waitpoints d) in
  (set_waitpoints t d, (0 <? n)%nat).
