(* ===== verification/JobQueue.v ===== *)
(** * The workflow job queue and its worker

    [retry-policy.ts], [job-queue.ts], the handling of a claimed job by
    [worker.ts], and the callers that turn a waitpoint into a RESUME job
    ([timer-scheduler.ts], [effect-approval-scheduler.ts] and the resume route
    of [api/routes.ts]). The theorems here are about single calls; those about
    sequences of operations are in [WorkflowOps]. *)
From S2P Require Export WorkflowDb.

(** ** Retry policy (queue/retry-policy.ts) *)

Definition WORKFLOW_RUN_MAX_ATTEMPTS : Z := 1.

Definition maxAttemptsForJob (jobType : string) (requested : option Z) : Z :=
  if bool_decide (jobType = RUN_FLOW) then WORKFLOW_RUN_MAX_ATTEMPTS else requested ?? 3.

Definition WORKFLOW_RETRY_GUIDANCE : string :=
  "Automatic retry is disabled. Check completed effects and reconcile uncertain outcomes before deciding to start a new run.".

Definition workflowFailureMessage (error : string) : string :=
  if str_includes WORKFLOW_RETRY_GUIDANCE error then error
  else error +:+ newline +:+ WORKFLOW_RETRY_GUIDANCE.

(** ** Reading a row *)

(** A job as the callers see it: the row with its payload parsed. *)
Record Job := mkJobView { job_row : JobRow; payload : json }.

Definition rowToJob (r : JobRow) : throws Job :=
  match parse (job_payload r) with
  | Some v => inr (mkJobView r v)
  | None => inl "JSON Parse error"
  end.

Definition getJob (id : string) (d : Db) : throws (option Job) :=
  match get_row id (jobs d) with
  | None => inr None
  | Some r => match rowToJob r with inl e => inl e | inr j => inr (Some j) end
  end.

Definition countQueued (d : Db) : nat := length (select_where (job_in [JOB_QUEUED]) (jobs d)).

(** ** Enqueue *)

Record EnqueueInput := mkEnqueue {
  ei_jobType : string; ei_payload : json; ei_flowRunId : option string; ei_flowId : option string;
  ei_flowVersionId : option string; ei_priority : option Z; ei_scheduledAt : option Z; ei_maxAttempts : option Z }.

(** [payload.runId], which the payload's type makes a string. *)
Definition payload_runId (v : json) : option string :=
  match jget "runId" v with Some (JStr s) => Some s | _ => None end.

Definition enqueue_run_id (i : EnqueueInput) : option string :=
  match ei_flowRunId i with Some r => Some r | None => payload_runId (ei_payload i) end.

Definition new_job (id : string) (ts : Z) (i : EnqueueInput) : JobRow :=
  mkJob id (ei_jobType i) (ei_flowRunId i) (ei_flowId i) (ei_flowVersionId i) (stringify (ei_payload i))
    (ei_priority i ?? 0) JOB_QUEUED 0 (maxAttemptsForJob (ei_jobType i) (ei_maxAttempts i)) None
    (ei_scheduledAt i ?? ts) None ts ts.

Definition enqueue_refused (i : EnqueueInput) (d : Db) : bool :=
  bool_decide (ei_jobType i = RUN_FLOW) &&
  match enqueue_run_id i with
  | Some r => truthy r && negb (bool_decide (getRunCancellation r d = None))
  | None => false
  end.

Definition enqueue (id : string) (ts : Z) (i : EnqueueInput) (d : Db) : throws (Db * Job) :=
  if enqueue_refused i d
  then inl ("Cannot enqueue canceled workflow run " +:+ (enqueue_run_id i ?? "undefined"))
  else match insert_row (new_job id ts i) (jobs d) with
       | None => inl "UNIQUE constraint failed: workflow_job.id"
       | Some t => match rowToJob (new_job id ts i) with
                   | inl e => inl e
                   | inr j => inr (set_jobs t d, j)
                   end
       end.

(** ** Retiring workflow jobs that would be replayed *)

Definition cap_attempts (ts : Z) (j : JobRow) : JobRow :=
  mkJob (job_id j) (job_type j) (job_flow_run_id j) (job_flow_id j) (job_flow_version_id j) (job_payload j)
    (job_priority j) (job_status j) (attempt j) 1 (locked_until j) (scheduled_at j) (last_error j)
    (job_created j) ts.

#[export] Instance cap_attempts_key ts : KeepsKey (cap_attempts ts).
Proof. done. Qed.

Definition replayed (atBoot : bool) (j : JobRow) : bool :=
  is_run_flow j && ((job_in [JOB_QUEUED] j && (0 <? attempt j)) || (atBoot && job_in [JOB_RUNNING] j)).

Definition interrupted_reason : string :=
  "Workflow execution was interrupted before its queue result was recorded. Effects may already have completed.".
Definition replay_reason : string :=
  "A previously attempted workflow job was queued for replay; automatic replay was stopped.".

(** [[a, b].filter(Boolean).join('\n')] for a nullable [b]. *)
Definition retire_message (j : JobRow) : string :=
  let reason := if bool_decide (job_status j = JOB_RUNNING) then interrupted_reason else replay_reason in
  workflowFailureMessage (join newline (List.filter truthy
    (reason :: match last_error j with Some e => [e] | None => [] end))).

(** The run a retired job belongs to. *)
Definition retired_run_id (j : JobRow) : option string :=
  match job_flow_run_id j with
  | Some r => if truthy r then Some r else payload_text "runId" (job_payload j)
  | None => payload_text "runId" (job_payload j)
  end.

Definition null_or_is (o : option string) (v : string) : bool :=
  match o with None => true | Some x => bool_decide (x = v) end.

(** A queued RESUME job, never attempted, that continues the run. *)
Definition continues (r : FlowRunRow) (j : JobRow) : bool :=
  is_run_flow j && job_in [JOB_QUEUED] j && (attempt j =? 0) &&
  null_or_is (job_flow_run_id j) (run_id r) && null_or_is (job_flow_id j) (run_flow_id r) &&
  null_or_is (job_flow_version_id j) (run_flow_version_id r) &&
  bool_decide (payload_text "runId" (job_payload j) = Some (run_id r)) &&
  bool_decide (payload_text "executionType" (job_payload j) = Some "RESUME").

Definition has_open_waitpoint (d : Db) (r : FlowRunRow) : bool :=
  existsb (fun w => bool_decide (wp_flow_run_id w = run_id r) && unresumed w) (waitpoints d).

Definition run_abandoned (d : Db) (r : FlowRunRow) : bool :=
  run_open r &&
  (negb (bool_decide (run_status r = RUN_PAUSED)) ||
   (negb (has_open_waitpoint d r) && negb (existsb (continues r) (jobs d)))).

(** One turn of the loop over the jobs to retire. *)
Definition retire_one (ts : Z) (d : Db) (j : JobRow) : Db :=
  let message := retire_message j in
  let d1 := set_jobs (update_where (key_is (job_id j) (fun _ => true)) (with_job JOB_FAILED (Some message) ts) (jobs d)).1 d in
  match retired_run_id j with
  | Some rid =>
      if truthy rid
      then set_runs (update_where (key_is rid (run_abandoned d1))
             (with_end RUN_FAILED (Some (mkFailedStep "<queue>" "Interrupted execution" (Some message))) ts ts) (runs d1)).1 d1
      else d1
  | None => d1
  end.

Definition retireWorkflowRetries (ts : Z) (atBoot : bool) (d : Db) : Db :=
  let d1 := set_jobs (update_where (fun j => is_run_flow j && job_active j && negb (max_attempts j =? 1))
                        (cap_attempts ts) (jobs d)).1 d in
  foldl (retire_one ts) d1 (select_where (replayed atBoot) (jobs d1)).

(** ** Claim *)

Definition DEFAULT_LEASE_MS : Z := 5 * 60000.

Definition claim_ready (now : Z) (j : JobRow) : bool :=
  (job_in [JOB_QUEUED] j && (scheduled_at j <=? now)) ||
  (job_in [JOB_RUNNING] j && match locked_until j with Some t => t <=? now | None => false end && negb (is_run_flow j)).

(** [ORDER BY priority DESC, scheduled_at ASC, created ASC] *)
Definition claim_order (a b : JobRow) : bool :=
  (job_priority b <? job_priority a) ||
  ((job_priority a =? job_priority b) &&
   ((scheduled_at a <? scheduled_at b) ||
    ((scheduled_at a =? scheduled_at b) && (job_created a <=? job_created b)))).

Definition claim_row (lease now : Z) (j : JobRow) : JobRow :=
  mkJob (job_id j) (job_type j) (job_flow_run_id j) (job_flow_id j) (job_flow_version_id j) (job_payload j)
    (job_priority j) JOB_RUNNING (attempt j + 1) (max_attempts j) (Some lease) (scheduled_at j) (last_error j)
    (job_created j) now.

#[export] Instance claim_row_key lease now : KeepsKey (claim_row lease now).
Proof. done. Qed.

Definition next_ready (now : Z) (d : Db) : option JobRow :=
  head (sort_by claim_order (select_where (claim_ready now) (jobs d))).

(** The transaction: a payload that does not parse throws and rolls it back. *)
Definition claimNextJob (leaseMs : option Z) (now : Z) (d : Db) : throws (Db * option Job) :=
  let d1 := retireWorkflowRetries now false d in
  match next_ready now d1 with
  | None => inr (d1, None)
  | Some r =>
      let lease := now + (leaseMs ?? DEFAULT_LEASE_MS) in
      match rowToJob (claim_row lease now r) with
      | inl e => inl e
      | inr j => inr (set_jobs (update_where (key_is (job_id r) (fun _ => true)) (claim_row lease now) (jobs d1)).1 d1, Some j)
      end
  end.

(** ** Completion and failure *)

Definition completeJob (id : string) (ts : Z) (d : Db) : throws Db :=
  let (t, n) := update_where (key_is id (job_in [JOB_RUNNING])) (with_job JOB_SUCCEEDED None ts) (jobs d) in
  if (n =? 0)%nat then inl ("completeJob: job not found or not RUNNING (id=" +:+ id +:+ ")")
  else inr (set_jobs t d).

Record FailJobOptions := mkFailOpts { backoffMs : option Z; maxBackoffMs : option Z }.

Definition DEFAULT_BACKOFF_MS : Z := 1000.
Definition DEFAULT_MAX_BACKOFF_MS : Z := 5 * 60000.

(** [Math.min(cap, backoff * Math.pow(4, Math.max(0, attempt - 1)))]; a power of
    two times an integer is exact in a double until it exceeds every cap. *)
Definition retry_delay (o : FailJobOptions) (attempts : Z) : Z :=
  Z.min (maxBackoffMs o ?? DEFAULT_MAX_BACKOFF_MS)
        ((backoffMs o ?? DEFAULT_BACKOFF_MS) * 4 ^ Z.max 0 (attempts - 1)).

(** [UPDATE ... SET status = 'QUEUED', last_error = e, locked_until = NULL, scheduled_at = at, updated = ts] *)
Definition requeue_row (e : option string) (at_ ts : Z) (j : JobRow) : JobRow :=
  mkJob (job_id j) (job_type j) (job_flow_run_id j) (job_flow_id j) (job_flow_version_id j) (job_payload j)
    (job_priority j) JOB_QUEUED (attempt j) (max_attempts j) None at_ e (job_created j) ts.

#[export] Instance requeue_row_key e at_ ts : KeepsKey (requeue_row e at_ ts).
Proof. done. Qed.

Definition status_name (s : JobStatus) : string :=
  match s with
  | JOB_QUEUED => "QUEUED" | JOB_RUNNING => "RUNNING" | JOB_SUCCEEDED => "SUCCEEDED"
  | JOB_FAILED => "FAILED" | JOB_CANCELED => "CANCELED"
  end.

Definition failJob (id error : string) (o : FailJobOptions) (ts : Z) (d : Db) : throws (Db * bool) :=
  match getJob id d with
  | inl e => inl e
  | inr None => inl ("failJob: not found (id=" +:+ id +:+ ")")
  | inr (Some job) =>
      let j := job_row job in
      if negb (job_in [JOB_RUNNING] j)
      then inl ("failJob: job is " +:+ status_name (job_status j) +:+ ", expected RUNNING (id=" +:+ id +:+ ")")
      else if maxAttemptsForJob (job_type j) (Some (max_attempts j)) <=? attempt j
      then let e := if is_run_flow j then workflowFailureMessage error else error in
           inr (set_jobs (update_where (key_is id (fun _ => true)) (with_job JOB_FAILED (Some e) ts) (jobs d)).1 d, false)
      else inr (set_jobs (update_where (key_is id (fun _ => true))
                  (requeue_row (Some error) (ts + retry_delay o (attempt j)) ts) (jobs d)).1 d, true)
  end.

(** [job?.flowRunId ?? job?.payload.runId] *)
Definition cancel_target (job : Job) : throws (option string) :=
  match job_flow_run_id (job_row job) with
  | Some r => inr (Some r)
  | None => match payload job with
            | JNull => inl "null is not an object"
            | v => inr (payload_runId v)
            end
  end.

Definition cancel_job_row (id : string) (ts : Z) (d : Db) : Db :=
  set_jobs (update_where (key_is id job_active) (cancel_row ts) (jobs d)).1 d.

Definition cancelJob (id : string) (ts : Z) (d : Db) : throws Db :=
  match getJob id d with
  | inl e => inl e
  | inr None => inr (cancel_job_row id ts d)
  | inr (Some job) =>
      match cancel_target job with
      | inl e => inl e
      | inr target =>
          match target with
          | Some runId =>
              if is_run_flow (job_row job) && truthy runId && job_active (job_row job) &&
                 negb (bool_decide (getFlowRun runId d = None))
              then match cancelFlowRun runId ts d with inl e => inl e | inr p => inr p.1 end
              else inr (cancel_job_row id ts d)
          | None => inr (cancel_job_row id ts d)
          end
      end
  end.

Definition active_created_desc (a b : JobRow) : bool := job_created b <=? job_created a.

Definition findActiveJobForRun (flowRunId : string) (d : Db) : throws (option Job) :=
  match head (sort_by active_created_desc (select_where (fun j =>
          bool_decide (job_flow_run_id j = Some flowRunId) && job_active j) (jobs d))) with
  | None => inr None
  | Some r => match rowToJob r with inl e => inl e | inr j => inr (Some j) end
  end.

Record QueueStats := mkStats { queued : nat; running : nat; succeeded : nat; st_failed : nat; st_canceled : nat }.

Definition queueStats (d : Db) : QueueStats :=
  let count s := length (select_where (job_in [s]) (jobs d)) in
  mkStats (count JOB_QUEUED) (count JOB_RUNNING) (count JOB_SUCCEEDED) (count JOB_FAILED) (count JOB_CANCELED).

(** ** Recovery at boot *)

Definition orphaned_error : string := "orphaned: max attempts exhausted".

Definition exhausted (j : JobRow) : bool := job_in [JOB_RUNNING] j && (max_attempts j <=? attempt j).
Definition retryable (j : JobRow) : bool := job_in [JOB_RUNNING] j && (attempt j <? max_attempts j).

(** [UPDATE ... SET status = 'QUEUED', locked_until = NULL, scheduled_at = ts, updated = ts] *)
Definition release_row (ts : Z) (j : JobRow) : JobRow := requeue_row (last_error j) ts ts j.

#[export] Instance release_row_key ts : KeepsKey (release_row ts).
Proof. done. Qed.

(** The runs an older recovery left open without any job to end them. *)
Definition stranded (d : Db) (r : FlowRunRow) : bool :=
  run_open r &&
  existsb (fun j => bool_decide (job_flow_run_id j = Some (run_id r)) && is_run_flow j && job_in [JOB_FAILED] j &&
    bool_decide (last_error j = Some orphaned_error) &&
    (negb (bool_decide (run_status r = RUN_PAUSED)) ||
     bool_decide (payload_text "executionType" (job_payload j) = Some "RESUME"))) (jobs d) &&
  (negb (bool_decide (run_status r = RUN_PAUSED)) || negb (has_open_waitpoint d r)) &&
  negb (existsb (fun j => bool_decide (job_flow_run_id j = Some (run_id r)) && job_active j) (jobs d)).

Definition recovery_step : FailedStep := mkFailedStep "<recovery>" "Recovery"
  (Some "Execution was interrupted and exhausted its attempts. Its outcome is unknown; inspect partial results before proposing another run.").

Definition recoverOrphanedJobs (ts : Z) (d : Db) : throws (Db * nat) :=
  match recoverCanceledRuns ts d with
  | inl e => inl e
  | inr d0 =>
      let d1 := retireWorkflowRetries ts true d0 in
      let d2 := set_jobs (update_where exhausted (with_job JOB_FAILED (Some orphaned_error) ts) (jobs d1)).1 d1 in
      let (t, n) := update_where retryable (release_row ts) (jobs d2) in
      let d3 := set_jobs t d2 in
      inr (set_runs (update_where (stranded d3) (with_end RUN_FAILED (Some recovery_step) ts ts) (runs d3)).1 d3, n)
  end.

(** ** The worker (queue/worker.ts) *)

(** A registered handler: what it leaves in the database and the message it
    throws, if any. *)
Definition JobHandler : Type := Job -> Db -> Db * option string.

Definition no_opts : FailJobOptions := mkFailOpts None None.

(** The [catch] branch: a failing [failJob] is logged, a failing [getJob] escapes. *)
Definition handle_failure (id msg : string) (ts : Z) (d : Db) : Db * option string :=
  match getJob id d with
  | inl e => (d, Some e)
  | inr j =>
      if match j with Some job => job_in [JOB_CANCELED] (job_row job) | None => false end then (d, None)
      else match failJob id msg no_opts ts d with inl _ => (d, None) | inr p => (p.1, None) end
  end.

(** [Worker.handle]: the database after it and the error it rejects with. *)
Definition handle (handlers : string -> option JobHandler) (job : Job) (ts : Z) (d : Db) : Db * option string :=
  let id := job_id (job_row job) in
  match handlers (job_type (job_row job)) with
  | None =>
      match failJob id ("no handler registered for jobType=" +:+ job_type (job_row job)) no_opts ts d with
      | inl _ => (d, None)
      | inr p => (p.1, None)
      end
  | Some h =>
      let (d1, thrown) := h job d in
      match thrown with
      | Some msg => handle_failure id msg ts d1
      | None =>
          match getJob id d1 with
          | inl e => handle_failure id ("SyntaxError: " +:+ e) ts d1
          | inr j =>
              if match j with Some job' => job_in [JOB_RUNNING] (job_row job') | None => false end
              then match completeJob id ts d1 with
                   | inl e => handle_failure id ("Error: " +:+ e) ts d1
                   | inr d2 => (d2, None)
                   end
              else (d1, None)
          end
      end
  end.

(** [Worker.drain], one clock reading and one handled job per element of
    [clock]; [None] in the second component means the queue was not yet seen
    empty when the readings ran out. *)
Fixpoint drain (handlers : string -> option JobHandler) (leaseMs : option Z) (clock : list Z) (processed : nat) (d : Db)
    : Db * option (throws nat) :=
  match clock with
  | [] => (d, None)
  | now :: clock' =>
      match claimNextJob leaseMs now d with
      | inl e => (d, Some (inl e))
      | inr (d1, None) => (d1, Some (inr processed))
      | inr (d1, Some job) =>
          match handle handlers job now d1 with
          | (d2, Some e) => (d2, Some (inl e))
          | (d2, None) => drain handlers leaseMs clock' (S processed) d2
          end
      end
  end.

(** ** Turning a waitpoint into a RESUME job *)

Definition resume_input (runId : string) (resumePayload : json) : EnqueueInput :=
  mkEnqueue RUN_FLOW (JObj [("runId", JStr runId); ("executionType", JStr "RESUME"); ("resumePayload", resumePayload)])
    (Some runId) None None None None (Some 1).

(** The transaction both schedulers use: mark, then enqueue; a throw undoes both. *)
Definition resume_in_transaction (jobId wpId runId : string) (resumePayload : json) (now : Z) (d : Db) : throws (Db * bool) :=
  let (d1, marked) := markWaitpointResumed wpId now d in
  if negb marked then inr (d1, false)
  else match enqueue jobId now (resume_input runId resumePayload) d1 with
       | inl e => inl e
       | inr p => inr (p.1, true)
       end.

(** The turn of [TimerWaitpointScheduler.tick] for one due waitpoint: an error
    is logged and leaves the database as it was. *)
Definition tick_waitpoint (newId : string -> string) (now : Z) (d : Db) (w : WaitpointRow) : Db * bool :=
  match getFlowRun (wp_flow_run_id w) d with
  | Some run =>
      if includes (run_status run) [RUN_RUNNING; RUN_QUEUED] then (d, false)
      else if negb (bool_decide (run_status run = RUN_PAUSED)) then ((markWaitpointResumed (wp_id w) now d).1, false)
      else match resume_in_transaction (newId (wp_id w)) (wp_id w) (wp_flow_run_id w) (JObj []) now d with
           | inl _ => (d, false)
           | inr p => p
           end
  | None => ((markWaitpointResumed (wp_id w) now d).1, false)
  end.

(** [resumeResolvedWorkflowEffects] for the rows its join of effects, approvals
    and waitpoints returned: effect, run and waitpoint ids. *)
Definition resume_effect (newId : string -> string) (now : Z) (d : Db) (row : string * string * string) : throws (Db * bool) :=
  let '(effectId, runId, wpId) := row in
  match getFlowRun runId d with
  | Some run =>
      if negb (bool_decide (run_status run = RUN_PAUSED)) then inr (d, false)
      else if existsb (fun j => bool_decide (job_flow_run_id j = Some runId) &&
                         job_in [JOB_QUEUED; JOB_RUNNING; JOB_CANCELED] j) (jobs d) then inr (d, false)
      else resume_in_transaction (newId wpId) wpId runId (JObj [("workflowEffectId", JStr effectId)]) now d
  | None => inr (d, false)
  end.

(** Stops at the first row that throws, keeping the transactions before it. *)
Fixpoint resumeResolvedWorkflowEffects (newId : string -> string) (now : Z) (rows : list (string * string * string))
    (d : Db) : Db * list string * option string :=
  match rows with
  | [] => (d, [], None)
  | row :: rest =>
      match resume_effect newId now d row with
      | inl e => (d, [], Some e)
      | inr (d1, resumed) =>
          let '(d2, ids, e) := resumeResolvedWorkflowEffects newId now rest d1 in
          (d2, (if resumed then [row.2] else []) ++ ids, e)
      end
  end.

Fixpoint tick_each (newId : string -> string) (now : Z) (due : list WaitpointRow) (d : Db) : Db * list string :=
  match due with
  | [] => (d, [])
  | w :: rest =>
      let (d1, resumed) := tick_waitpoint newId now d w in
      let (d2, ids) := tick_each newId now rest d1 in
      (d2, (if resumed then [wp_id w] else []) ++ ids)
  end.

(** [tick]: the waitpoints it resumed, whose number is its result when the
    effects did not throw ([nowIso] is [new Date(now).toISOString()]). *)
Definition tick (newId : string -> string) (effects : list (string * string * string)) (nowIso : string) (now : Z)
    (d : Db) : Db * list string :=
  let '(d1, ids, _) := resumeResolvedWorkflowEffects newId now effects d in
  let (d2, ids2) := tick_each newId now (listDueTimerWaitpoints nowIso 100 d1) d1 in
  (d2, ids ++ ids2).

(** The resume route of api/routes.ts once its budgets and the body are checked:
    mark and enqueue are two statements here. *)
Inductive RouteReply := reply_not_found | reply_not_paused | reply_already_resumed | reply_resumed.

Definition resume_route (jobId wpId : string) (resumePayload : json) (now : Z) (d : Db) : Db * throws RouteReply :=
  match getWaitpoint wpId d with
  | None => (d, inr reply_not_found)
  | Some w =>
      if negb (bool_decide (run_status <$> getFlowRun (wp_flow_run_id w) d = Some RUN_PAUSED)) then (d, inr reply_not_paused)
      else let (d1, marked) := markWaitpointResumed wpId now d in
           if negb marked then (d1, inr reply_already_resumed)
           else match enqueue jobId now (resume_input (wp_flow_run_id w) resumePayload) d1 with
                | inl e => (d1, inl e)
                | inr p => (p.1, inr reply_resumed)
                end
  end.

(** ** Theorems *)

Lemma getJob_inv id d job : getJob id d = inr (Some job) ->
  get_row id (jobs d) = Some (job_row job) /\ rowToJob (job_row job) = inr job.
Proof.
  unfold getJob. destruct (get_row id (jobs d)) as [r|]; [|done]. unfold rowToJob.
  destruct (parse (job_payload r)) as [v|] eqn:E; [|done]. intros [= <-]. simpl. by rewrite E.
Qed.

(** The row a keyed update leaves under its key. *)
Lemma updated_row id (f : JobRow -> JobRow) `{!KeepsKey f} (t : list JobRow) j : get_row id t = Some j ->
  get_row id (update_where (key_is id (fun _ => true)) f t).1 = Some (f j).
Proof. intros H. rewrite get_row_update_key by done. by rewrite H. Qed.

Lemma guided_message e : str_includes WORKFLOW_RETRY_GUIDANCE (workflowFailureMessage e) = true.
Proof.
  unfold workflowFailureMessage. destruct (str_includes _ e) eqn:E; [done|].
  apply str_includes_spec. exists (e +:+ newline), EmptyString. by rewrite append_nil_r, append_assoc.
Qed.

(** The delay of a retry stays between zero and the cap and grows by attempts. *)
Lemma retry_delay_bounds o a :
  0 <= backoffMs o ?? DEFAULT_BACKOFF_MS -> 0 <= maxBackoffMs o ?? DEFAULT_MAX_BACKOFF_MS ->
  0 <= retry_delay o a <= maxBackoffMs o ?? DEFAULT_MAX_BACKOFF_MS /\ retry_delay o a <= retry_delay o (a + 1).
Proof.
  unfold retry_delay. generalize (backoffMs o ?? DEFAULT_BACKOFF_MS), (maxBackoffMs o ?? DEFAULT_MAX_BACKOFF_MS).
  intros b c Hb Hc. assert (0 < 4 ^ Z.max 0 (a - 1)) by (apply Z.pow_pos_nonneg; lia).
  assert (4 ^ Z.max 0 (a - 1) <= 4 ^ Z.max 0 (a + 1 - 1)) by (apply Z.pow_le_mono_r; lia). nia.
Qed.

(** C39: failing a job. A job that is not running cannot fail. A running one goes
    back to the queue exactly while its attempts are below the ceiling of its
    type, due after the capped exponential delay, and is failed for good
    otherwise; a workflow job that was attempted is always failed, with the
    guidance on retries in its error; the attempt count never changes. *)
Theorem fail_job_spec id error o ts d job :
  getJob id d = inr (Some job) ->
  let j := job_row job in
  let ceiling := maxAttemptsForJob (job_type j) (Some (max_attempts j)) in
  match failJob id error o ts d with
  | inl _ => job_status j <> JOB_RUNNING
  | inr (d', retried) =>
      job_status j = JOB_RUNNING /\
      (retried = true <-> attempt j < ceiling) /\
      (is_run_flow j = true -> 1 <= attempt j -> retried = false) /\
      exists j', get_row id (jobs d') = Some j' /\ attempt j' = attempt j /\ locked_until j' = None /\
        if retried
        then job_status j' = JOB_QUEUED /\ scheduled_at j' = ts + retry_delay o (attempt j) /\ last_error j' = Some error /\
             (0 <= backoffMs o ?? DEFAULT_BACKOFF_MS -> 0 <= maxBackoffMs o ?? DEFAULT_MAX_BACKOFF_MS ->
              ts <= scheduled_at j' <= ts + (maxBackoffMs o ?? DEFAULT_MAX_BACKOFF_MS))
        else job_status j' = JOB_FAILED /\
             (is_run_flow j = true -> exists e, last_error j' = Some e /\ str_includes WORKFLOW_RETRY_GUIDANCE e = true)
  end.
Proof.
  intros Hg j ceiling. unfold failJob. rewrite Hg. apply getJob_inv in Hg as [Hr _]. fold j in Hr |- *. fold ceiling.
  destruct (job_in [JOB_RUNNING] j) eqn:E; cbn [negb]; [|intros E'; unfold job_in in E; by rewrite E' in E].
  assert (job_status j = JOB_RUNNING) as Hs by (unfold job_in in E; by destruct (job_status j)).
  assert (is_run_flow j = true -> ceiling = 1) as Hc.
  { unfold is_run_flow, ceiling, maxAttemptsForJob. by intros ->. }
  destruct (ceiling <=? attempt j) eqn:El; to_prop.
  - split_and!; [done|split; [done|lia]|done|]. eexists. split; [by apply updated_row; [apply _|]|].
    split_and!; try done. intros Hf. rewrite Hf. eexists. split; [done|]. apply guided_message.
  - split_and!; [done|split; [lia|done]|intros Hf; specialize (Hc Hf); lia|].
    eexists. split; [by apply updated_row; [apply _|]|]. split_and!; try done.
    intros Hb Hm. simpl. destruct (retry_delay_bounds o (attempt j) Hb Hm). lia.
Qed.

(** A failed [failJob] on a readable job means it was not running. *)
Lemma fail_settles id msg o ts d job d' :
  getJob id d = inr (Some job) -> d' = (match failJob id msg o ts d with inl _ => d | inr p => p.1 end) ->
  exists j', get_row id (jobs d') = Some j' /\ job_status j' <> JOB_RUNNING.
Proof.
  intros Hg ->. unfold failJob. rewrite Hg. apply getJob_inv in Hg as [Hr _].
  destruct (job_in [JOB_RUNNING] (job_row job)) eqn:E; cbn [negb].
  - destruct (_ <=? _); cbn [fst set_jobs jobs]; eexists; (split; [by apply updated_row; [apply _|]|done]).
  - exists (job_row job). split; [done|]. intros E'. unfold job_in in E. by rewrite E' in E.
Qed.

Lemma handle_failure_settles id msg ts d d' : handle_failure id msg ts d = (d', None) ->
  forall j, get_row id (jobs d') = Some j -> job_status j <> JOB_RUNNING.
Proof.
  unfold handle_failure. destruct (getJob id d) as [e|[job|]] eqn:Eg; [done| |].
  - destruct (job_in [JOB_CANCELED] (job_row job)) eqn:Ec.
    + intros [= <-] j Hj. apply getJob_inv in Eg as [Hr _]. assert (j = job_row job) as -> by congruence.
      unfold job_in in Ec. by destruct (job_status (job_row job)).
    + intros E j Hj. destruct (fail_settles id msg no_opts ts d job d' Eg) as (j' & Hr & ?); [|congruence].
      destruct (failJob id msg no_opts ts d); by injection E.
  - unfold failJob. rewrite Eg. intros [= <-] j Hj. unfold getJob in Eg. rewrite Hj in Eg.
    by destruct (rowToJob j).
Qed.

(** The worker settles what it claims. Whatever a handler does to the
    database and whether or not it throws, when [handle] returns without
    rejecting the job is no longer running: completed, failed, queued for a
    retry, canceled, or gone. *)
Theorem handled_job_is_settled handlers job ts d d' :
  getJob (job_id (job_row job)) d = inr (Some job) ->
  handle handlers job ts d = (d', None) ->
  forall j, get_row (job_id (job_row job)) (jobs d') = Some j -> job_status j <> JOB_RUNNING.
Proof.
  intros Hg. unfold handle. cbv zeta. set (id := job_id (job_row job)) in *.
  destruct (handlers (job_type (job_row job))) as [h|].
  - destruct (h job d) as [d1 [msg|]]; [apply handle_failure_settles|].
    destruct (getJob id d1) as [e|oj] eqn:Eg; [apply handle_failure_settles|].
    destruct (match oj with Some job' => _ | None => false end) eqn:Er.
    + unfold completeJob. rewrite (surjective_pairing (update_where _ _ _)).
      destruct (_ =? 0)%nat; [apply handle_failure_settles|]. intros [<- _]%pair_equal_spec j.
      cbn [set_jobs jobs]. destruct oj as [job'|]; [|done]. apply getJob_inv in Eg as [Hr _].
      rewrite get_row_update_key by apply _. rewrite Hr. cbn [fmap option_fmap option_map]. rewrite Er. by intros [= <-].
    + intros [= <-] j Hj. destruct oj as [job'|].
      * apply getJob_inv in Eg as [Hr _]. assert (j = job_row job') as -> by congruence. intros E.
        unfold job_in in Er. by rewrite E in Er.
      * unfold getJob in Eg. rewrite Hj in Eg. by destruct (rowToJob j).
  - intros E j Hj. destruct (fail_settles id ("no handler registered for jobType=" +:+ job_type (job_row job)) no_opts ts d job d' Hg) as (j' & Hr & ?); [|congruence].
    destruct (failJob _ _ _ _ _); by injection E.
Qed.

(** A job of another type, claimed for the second time. *)
Definition demo_mail : Job :=
  mkJobView (mkJob "mail" "SEND_MAIL" None None None "{}" 0 JOB_RUNNING 2 3 (Some 900) 0 None 0 0) (JObj []).
Definition demo_mails : Db := set_jobs [job_row demo_mail] empty_db.

Lemma fail_job_spec_witness :
  getJob "mail" demo_mails = inr (Some demo_mail) /\
  match failJob "mail" "timeout" no_opts 50 demo_mails with
  | inr (d', retried) => retried = true /\ exists j', get_row "mail" (jobs d') = Some j' /\ scheduled_at j' = 4050
  | inl _ => False
  end.
Proof.
  split; [vm_compute; reflexivity|].
  pose proof (fail_job_spec "mail" "timeout" no_opts 50 demo_mails demo_mail ltac:(vm_compute; reflexivity)) as H.
  destruct (failJob "mail" "timeout" no_opts 50 demo_mails) as [e|[d' b]] eqn:E; [vm_compute in E; discriminate E|].
  destruct H as (_ & Hb & _ & j' & Hr & _ & _ & H).
  assert (b = true) as -> by (apply Hb; vm_compute; reflexivity).
  split; [reflexivity|]. exists j'. split; [exact Hr|]. destruct H as (_ & Hs & _). exact Hs.
Defined.

Lemma handled_job_is_settled_witness :
  let handlers (t : string) : option JobHandler := Some (fun _ d => (d, Some "Error: boom")) in
  (handle handlers demo_mail 50 demo_mails).2 = None /\
  forall j, get_row "mail" (jobs (handle handlers demo_mail 50 demo_mails).1) = Some j -> job_status j <> JOB_RUNNING.
Proof.
  intros handlers. split; [vm_compute; reflexivity|].
  apply (handled_job_is_settled handlers demo_mail 50 demo_mails); vm_compute; reflexivity.
Defined.
