(* ===== verification/WorkflowOps.v ===== *)
(** * Sequences of workflow database operations

    Every write of the workflow tables outside the deletion of whole flows, as
    one step function on [Db] that reports the jobs claimed and the waitpoints resumed. The
    invariant [db_ok] and the order [db_ext] are preserved by each step; the
    theorems follow for arbitrary interleavings: a workflow job is attempted at
    most once, a canceled run stays stopped, a waitpoint resumes once, the
    configuration of a run is frozen, and recovery leaves nothing running. *)
From S2P Require Export JobQueue.

Create HintDb workflow.

(** ** Operations and events *)

(** The deletion of a flow is not among the operations: its foreign keys cascade to its runs, their
    cancellations, waitpoints and delegations, so nothing below is promised of a run after it. *)
Inductive WorkflowOp :=
  | w_create_run (project id : string) (ts : Z) (i : CreateFlowRunInput)
  | w_update_run (id : string) (p : UpdateRunInput) (now : Z)
  | w_ensure_config (id : string) (initial : option RunExecutionConfig)
  | w_cancel_run (id : string) (now : Z)
  | w_create_waitpoint (id : string) (now : Z) (i : CreateWaitpointInput)
  | w_save_delegation (g : DelegationRow)
  | w_enqueue (id : string) (ts : Z) (i : EnqueueInput)
  | w_claim (leaseMs : option Z) (now : Z)
  | w_complete (id : string) (ts : Z)
  | w_fail (id error : string) (o : FailJobOptions) (ts : Z)
  | w_cancel_job (id : string) (ts : Z)
  | w_recover (ts : Z)
  | w_tick (newId : string -> string) (effects : list (string * string * string)) (nowIso : string) (now : Z)
  | w_resume_route (jobId wpId : string) (resumePayload : json) (now : Z).

Inductive Event := ev_claimed (j : JobRow) | ev_resumed (wpId : string).

(** The state after an operation that may throw. *)
Definition or_same {A} (f : A -> Db) (d : Db) (x : throws A) : Db := match x with inl _ => d | inr a => f a end.

Definition workflow_step (d : Db) (o : WorkflowOp) : Db * list Event :=
  match o with
  | w_create_run project id ts i => (or_same fst d (createFlowRun project id ts i d), [])
  | w_update_run id p now => (or_same fst d (updateRun id p now d), [])
  | w_ensure_config id initial => (or_same fst d (ensureRunExecutionConfig id initial d), [])
  | w_cancel_run id now => (or_same fst d (cancelFlowRun id now d), [])
  | w_create_waitpoint id now i => (or_same fst d (createWaitpoint id now i d), [])
  | w_save_delegation g => (saveDelegation g d, [])
  | w_enqueue id ts i => (or_same fst d (enqueue id ts i d), [])
  | w_claim lease now =>
      match claimNextJob lease now d with
      | inl _ => (d, [])
      | inr (d', None) => (d', [])
      | inr (d', Some j) => (d', [ev_claimed (job_row j)])
      end
  | w_complete id ts => (or_same (fun x => x) d (completeJob id ts d), [])
  | w_fail id error o ts => (or_same fst d (failJob id error o ts d), [])
  | w_cancel_job id ts => (or_same (fun x => x) d (cancelJob id ts d), [])
  | w_recover ts => (or_same fst d (recoverOrphanedJobs ts d), [])
  | w_tick newId effects nowIso now =>
      let (d', ids) := tick newId effects nowIso now d in (d', map ev_resumed ids)
  | w_resume_route jobId wpId v now =>
      match resume_route jobId wpId v now d with
      | (d', inr reply_resumed) => (d', [ev_resumed wpId])
      | (d', _) => (d', [])
      end
  end.

Fixpoint workflow_run (d : Db) (os : list WorkflowOp) : Db * list Event :=
  match os with
  | [] => (d, [])
  | o :: os' =>
      let (d1, e1) := workflow_step d o in
      let (d2, e2) := workflow_run d1 os' in
      (d2, e1 ++ e2)
  end.

(** ** The invariant and the order *)

(** What may change in a job row: it never goes back to an active status and
    its attempts only grow. *)
Record job_le (a b : JobRow) : Prop := {
  jl_id : job_id b = job_id a;
  jl_type : job_type b = job_type a;
  jl_run : job_flow_run_id b = job_flow_run_id a;
  jl_payload : job_payload b = job_payload a;
  jl_attempt : attempt a <= attempt b;
  jl_active : job_active b = true -> job_active a = true }.

#[export] Instance job_le_preorder : PreOrder job_le.
Proof.
  split; [intros a; by constructor|]. intros a b c [] []. constructor; try congruence; [lia|auto].
Qed.

Definition stopped_by (c : RunCancellation) (r : FlowRunRow) : Prop :=
  run_status r = RUN_STOPPED /\ finish_time r = Some (acknowledgedAt c).

(** A run under cancellation [c]: stopped, and off the queue. *)
Definition run_fenced (id : string) (c : RunCancellation) (d : Db) : Prop :=
  truthy id = true /\ getRunCancellation id d = Some c /\
  (exists r, getFlowRun id d = Some r /\ stopped_by c r) /\
  List.Forall (fun j => cancels_job id j = false) (jobs d).

(** The keys are unique, attempts are not negative, and the run [fence] names,
    if any, is fenced. *)
Record db_ok (fence : option (string * RunCancellation)) (d : Db) : Prop := {
  ok_jobs : keyed (jobs d);
  ok_runs : keyed (runs d);
  ok_waitpoints : keyed (waitpoints d);
  ok_attempts : List.Forall (fun j => 0 <= attempt j) (jobs d);
  ok_fence : match fence with Some (id, c) => run_fenced id c d | None => True end }.

(** What no operation takes back. *)
Record db_ext (d d' : Db) : Prop := {
  ext_jobs : forall k j, get_row k (jobs d) = Some j -> exists j', get_row k (jobs d') = Some j' /\ job_le j j';
  ext_waitpoints : forall k w, get_row k (waitpoints d) = Some w -> exists w',
    get_row k (waitpoints d') = Some w' /\ (resumed_at w <> None -> resumed_at w' = resumed_at w);
  ext_configs : forall k r, getFlowRun k d = Some r -> exists r',
    getFlowRun k d' = Some r' /\ (execution_config r <> None -> execution_config r' = execution_config r) }.

#[export] Instance db_ext_preorder : PreOrder db_ext.
Proof.
  split.
  - intros d. constructor; intros k r H; exists r; done.
  - intros a b c [J1 W1 R1] [J2 W2 R2]. constructor; intros k r H.
    + destruct (J1 k r H) as (r1 & H1 & ?), (J2 k _ ltac:(eassumption)) as (r2 & H2 & ?). exists r2. split; [done|by etrans].
    + destruct (W1 k r H) as (r1 & H1 & E1), (W2 k _ ltac:(eassumption)) as (r2 & H2 & E2). exists r2. split; [done|].
      intros Hn. rewrite E2, E1; [done..|]. by rewrite E1.
    + destruct (R1 k r H) as (r1 & H1 & E1), (R2 k _ ltac:(eassumption)) as (r2 & H2 & E2). exists r2. split; [done|].
      intros Hn. rewrite E2, E1; [done..|]. by rewrite E1.
Qed.

(** A change of the database that keeps the invariant and respects the order. *)
Definition step_ok fence (d d' : Db) : Prop := db_ok fence d -> db_ok fence d' /\ db_ext d d'.

#[export] Instance step_ok_preorder fence : PreOrder (step_ok fence).
Proof.
  split; [intros d H; done|]. intros a b c Hab Hbc Ha.
  destruct (Hab Ha) as [Hb E1], (Hbc Hb) as [Hc E2]. split; [done|by etrans].
Qed.

(** ** Primitive steps *)

(** Reading off a result without unfolding it. *)
Lemma inr_pair {E A B} (a c : A) (b d : B) : inr (a, b) = inr (c, d) :> E + (A * B) -> c = a /\ d = b.
Proof. by intros [= -> ->]. Qed.

Lemma cancels_job_le id a b : job_le a b -> cancels_job id a = false -> cancels_job id b = false.
Proof.
  intros [_ Ht Hr Hp _ Ha]. unfold cancels_job, is_run_flow, job_of_run. rewrite Ht, Hr, Hp.
  destruct (job_active b) eqn:E; [by rewrite (Ha eq_refl)|]. intros _. by rewrite andb_false_r.
Qed.

(** An [UPDATE] of the jobs is a step when each row it matches grows. *)
Lemma update_jobs_ok fence p (f : JobRow -> JobRow) `{!KeepsKey f} d :
  (db_ok fence d -> forall j, In j (jobs d) -> p j = true -> job_le j (f j)) ->
  step_ok fence d (set_jobs (update_where p f (jobs d)).1 d).
Proof.
  intros Hf Hd. specialize (Hf Hd). destruct Hd as [Hj Hr Hw Ha Hc]. split; [constructor|constructor]; try done.
  - by apply update_keyed.
  - apply List.Forall_forall. intros j (j0 & Hin & ->)%update_In. rewrite List.Forall_forall in Ha.
    pose proof (Ha _ Hin). destruct (p j0) eqn:E; [|done]. pose proof (jl_attempt _ _ (Hf _ Hin E)). lia.
  - destruct fence as [[id c]|]; [|done]. destruct Hc as (? & ? & ? & Hc). split_and!; try done.
    apply List.Forall_forall. intros j (j0 & Hin & ->)%update_In. rewrite List.Forall_forall in Hc.
    pose proof (Hc _ Hin). destruct (p j0) eqn:E; [|done]. by eapply cancels_job_le; [apply Hf|].
  - intros k j Hg. cbn [set_jobs jobs]. rewrite (get_row_update p f), Hg. simpl. eexists. split; [done|].
    destruct (p j) eqn:E; [|done]. apply Hf; [|done]. by apply get_row_Some in Hg as [? _].
  - intros k w ?. by exists w.
  - intros k r ?. by exists r.
Qed.

(** An [UPDATE ... WHERE id = k] needs it for the row [SELECT] returned only. *)
Lemma update_job_ok fence k p (f : JobRow -> JobRow) `{!KeepsKey f} j d :
  get_row k (jobs d) = Some j -> (p j = true -> job_le j (f j)) ->
  step_ok fence d (set_jobs (update_where (key_is k p) f (jobs d)).1 d).
Proof.
  intros Hg Hf. apply update_jobs_ok; [done|]. intros Hd j' Hin (Hk & Hp)%andb_true_iff.
  apply bool_decide_eq_true in Hk. apply get_row_Some in Hg as [Hin0 Hk0].
  assert (j' = j) as -> by (eapply keyed_unique; [apply (ok_jobs _ _ Hd)|done|done|congruence]). by apply Hf.
Qed.

Lemma insert_job_ok fence j t d :
  insert_row j (jobs d) = Some t -> 0 <= attempt j ->
  (db_ok fence d -> match fence with Some (id, _) => cancels_job id j = false | None => True end) ->
  step_ok fence d (set_jobs t d).
Proof.
  intros Hi Ha Hc Hd. specialize (Hc Hd). destruct Hd as [Hj Hr Hw Hat Hf].
  assert (t = jobs d ++ [j]) as Et by (unfold insert_row in Hi; by destruct (get_row _ _); simplify_eq).
  split; [constructor|constructor]; try done.
  - by eapply insert_row_keyed.
  - simpl. subst t. apply List.Forall_app. auto.
  - destruct fence as [[id c]|]; [|done]. destruct Hf as (? & ? & ? & Hf). split_and!; try done.
    simpl. subst t. apply List.Forall_app. auto.
  - intros k j0 Hg. exists j0. split; [|done]. simpl. rewrite (get_row_insert _ _ _ k Hi).
    case_bool_decide as E; [|done]. unfold insert_row in Hi. change (row_key j) with (job_id j) in *. rewrite E, Hg in Hi. done.
  - intros k w ?. by exists w.
  - intros k r ?. by exists r.
Qed.

Lemma update_runs_ok fence k p (f : FlowRunRow -> FlowRunRow) `{!KeepsKey f} d :
  (forall r, getFlowRun k d = Some r -> p r = true ->
     (execution_config r <> None -> execution_config (f r) = execution_config r) /\
     match fence with
     | Some (id, c) => id = k -> getRunCancellation id d = Some c -> stopped_by c r -> stopped_by c (f r)
     | None => True
     end) ->
  step_ok fence d (set_runs (update_where (key_is k p) f (runs d)).1 d).
Proof.
  intros Hf Hd. destruct Hd as [Hj Hr Hw Ha Hc].
  assert (forall k' r, getFlowRun k' d = Some r -> exists r', getFlowRun k' (set_runs (update_where (key_is k p) f (runs d)).1 d) = Some r' /\
    (r' = r \/ (k' = k /\ p r = true /\ r' = f r))) as Hget.
  { intros k' r Hg. unfold getFlowRun in *. cbn [set_runs runs]. destruct (decide (k = k')) as [<-|Hne].
    - rewrite get_row_update_key, Hg by done. simpl. eexists. split; [done|]. destruct (p r) eqn:E; auto.
    - rewrite get_row_update_other by done. eauto. }
  split; [constructor|constructor]; try done.
  - by apply update_keyed.
  - destruct fence as [[id c]|]; [|done]. destruct Hc as (? & Hcc & (r & Hg & Hs) & Hfq). split_and!; try done.
    destruct (Hget _ _ Hg) as (r' & Hg' & [->|(-> & Hp & ->)]); eexists; split; try done. by eapply Hf.
  - intros k' j ?. by exists j.
  - intros k' w ?. by exists w.
  - intros k' r Hg. destruct (Hget _ _ Hg) as (r' & Hg' & [->|(-> & Hp & ->)]); eexists; split; try done. by eapply Hf.
Qed.

(** An [UPDATE] without a key that ends open runs. *)
Lemma update_all_runs_ok fence p f finish ts d : (forall r, p r = true -> run_open r = true) ->
  step_ok fence d (set_runs (update_where p (with_end RUN_FAILED f finish ts) (runs d)).1 d).
Proof.
  intros Hp [Hj Hr Hw Ha Hc]. split; [constructor|constructor; intros k x Hg]; try done.
  - by apply update_keyed.
  - destruct fence as [[id c]|]; [|done]. destruct Hc as (? & ? & (r & Hg & Hs) & ?). split_and!; try done.
    exists r. split; [|done]. unfold getFlowRun in *. cbn [set_runs runs].
    rewrite (get_row_update p (with_end RUN_FAILED f finish ts)), Hg. simpl.
    destruct (p r) eqn:E; [|done]. apply Hp in E. unfold run_open, status_open in E. destruct Hs as [Hs _]. by rewrite Hs in E.
  - by exists x.
  - by exists x.
  - unfold getFlowRun in *. cbn [set_runs runs]. rewrite (get_row_update p (with_end RUN_FAILED f finish ts)), Hg. simpl.
    eexists. split; [done|]. by destruct (p x).
Qed.

Lemma insert_run_ok fence r t d : insert_row r (runs d) = Some t -> step_ok fence d (set_runs t d).
Proof.
  intros Hi [Hj Hr Hw Ha Hc].
  assert (forall k x, getFlowRun k d = Some x -> getFlowRun k (set_runs t d) = Some x) as Hget.
  { intros k x Hg. unfold getFlowRun in *. simpl. rewrite (get_row_insert _ _ _ k Hi). case_bool_decide as E; [|done].
    unfold insert_row in Hi. by rewrite E, Hg in Hi. }
  split; [constructor|constructor]; try done.
  - by eapply insert_row_keyed.
  - destruct fence as [[id c]|]; [|done]. destruct Hc as (? & ? & (x & Hg & ?) & ?). split_and!; try done. eauto.
  - intros k x ?. by exists x.
  - intros k x ?. by exists x.
  - intros k x ?. exists x. auto.
Qed.

Lemma insert_waitpoint_ok fence w t d : insert_row w (waitpoints d) = Some t -> step_ok fence d (set_waitpoints t d).
Proof.
  intros Hi [Hj Hr Hw Ha Hc]. split; [constructor|constructor]; try done.
  - by eapply insert_row_keyed.
  - intros k x ?. by exists x.
  - intros k x Hg. exists x. split; [|done]. simpl. rewrite (get_row_insert _ _ _ k Hi). case_bool_decide as E; [|done].
    unfold insert_row in Hi. by rewrite E, Hg in Hi.
  - intros k x ?. by exists x.
Qed.

Lemma mark_ok fence id now d : step_ok fence d (markWaitpointResumed id now d).1.
Proof.
  intros [Hj Hr Hw Ha Hc]. unfold markWaitpointResumed. rewrite (surjective_pairing (update_where _ _ _)). cbn [fst].
  split; [constructor|constructor]; try done.
  - by apply update_keyed.
  - intros k x ?. by exists x.
  - intros k x Hg. cbn [set_waitpoints waitpoints]. rewrite (get_row_update (key_is id unresumed) (mark_resumed now)), Hg. simpl.
    eexists. split; [done|]. intros Hn. destruct (key_is id unresumed x) eqn:E; [|done].
    apply andb_true_iff in E as [_ E%bool_decide_eq_true]. done.
  - intros k x ?. by exists x.
Qed.

Lemma delegations_ok fence t d : step_ok fence d (set_delegations t d).
Proof. intros []. split; [by constructor|]. constructor; intros k x ?; by exists x. Qed.
#[export] Hint Resolve delegations_ok mark_ok : workflow.

(** ** The operations *)

Section operations.
Context (fence : option (string * RunCancellation)).
Notation ok := (step_ok fence).

Lemma failed_le e ts j : job_le j (with_job JOB_FAILED e ts j).
Proof. constructor; done. Qed.

Lemma inactive_le s e ts j : includes s [JOB_QUEUED; JOB_RUNNING] = false -> job_le j (with_job s e ts j).
Proof. intros H. constructor; try done. unfold job_active, job_in. simpl job_status. by rewrite H. Qed.

Lemma cap_le ts j : job_le j (cap_attempts ts j).
Proof. constructor; done. Qed.

Lemma requeue_le e at_ ts j : job_active j = true -> job_le j (requeue_row e at_ ts j).
Proof. intros. by constructor. Qed.

Lemma claim_le lease now j : job_active j = true -> job_le j (claim_row lease now j).
Proof. intros. constructor; try done. simpl. lia. Qed.

Lemma running_active j : job_in [JOB_RUNNING] j = true -> job_active j = true.
Proof. unfold job_active, job_in. by destruct (job_status j). Qed.

Lemma open_not_stopped c r : run_open r = true -> ~ stopped_by c r.
Proof. unfold run_open, status_open. intros H [Hs _]. by rewrite Hs in H. Qed.

(** Closing open runs. *)
Lemma close_run_ok k p f finish ts d : (forall r, p r = true -> run_open r = true) ->
  ok d (set_runs (update_where (key_is k p) (with_end RUN_FAILED f finish ts) (runs d)).1 d).
Proof.
  intros Hp. apply update_runs_ok; [done|]. intros r _ Hr. split; [done|].
  destruct fence as [[id c]|]; [|done]. intros _ _ Hs. exfalso. by eapply open_not_stopped; [apply Hp|].
Qed.

Lemma retire_one_ok ts d j : ok d (retire_one ts d j).
Proof.
  unfold retire_one. etrans; [eapply (update_jobs_ok _ _ (with_job JOB_FAILED _ ts)); intros; apply failed_le|].
  destruct (retired_run_id j) as [rid|]; [|reflexivity]. destruct (truthy rid); [|reflexivity].
  apply close_run_ok. intros r. unfold run_abandoned. by intros [? _]%andb_true_iff.
Qed.

Lemma retire_ok ts boot d : ok d (retireWorkflowRetries ts boot d).
Proof.
  unfold retireWorkflowRetries. cbv zeta. set (d1 := set_jobs _ d).
  transitivity d1; [apply (update_jobs_ok _ _ (cap_attempts ts)); intros; apply cap_le|].
  generalize (select_where (replayed boot) (jobs d1)). intros l. generalize d1. clear d1.
  induction l as [|j l IH]; intros d1; simpl; [reflexivity|]. etrans; [apply retire_one_ok|apply IH].
Qed.

Lemma next_ready_spec now d r : next_ready now d = Some r -> In r (jobs d) /\ claim_ready now r = true.
Proof.
  unfold next_ready. intros H. assert (In r (sort_by claim_order (select_where (claim_ready now) (jobs d)))) as Hin.
  { destruct (sort_by _ _); [done|]. simpl in H. simplify_eq. by left. }
  apply sort_by_In in Hin. by apply List.filter_In in Hin.
Qed.

Lemma ready_active now j : claim_ready now j = true -> job_active j = true.
Proof. unfold claim_ready, job_active, job_in. by destruct (job_status j). Qed.

Lemma claim_ok lease now d d' o : claimNextJob lease now d = inr (d', o) -> ok d d'.
Proof.
  unfold claimNextJob. intros H. etrans; [apply (retire_ok now false)|].
  destruct (next_ready _ _) as [r|] eqn:En; [|by simplify_eq].
  destruct (rowToJob _); simplify_eq. apply next_ready_spec in En as [Hin Hr].
  intros Hd. eapply (update_job_ok _ _ (fun _ => true) (claim_row _ now) r); [|intros _|done].
  - apply (get_row_In _ r); [apply (ok_jobs _ _ Hd)|done].
  - by eapply claim_le, ready_active.
Qed.

Lemma complete_ok id ts d d' : completeJob id ts d = inr d' -> ok d d'.
Proof.
  unfold completeJob. rewrite (surjective_pairing (update_where _ _ _)). cbn [fst snd].
  destruct (_ =? 0)%nat; [done|]. intros [= <-].
  apply (update_jobs_ok _ _ (with_job JOB_SUCCEEDED None ts)). intros. by apply inactive_le.
Qed.

Lemma getJob_row id d j : getJob id d = inr (Some j) -> get_row id (jobs d) = Some (job_row j).
Proof.
  unfold getJob, rowToJob. destruct (get_row id (jobs d)); [|done]. by destruct (parse _); intros; simplify_eq.
Qed.

Lemma fail_ok id error o ts d d' b : failJob id error o ts d = inr (d', b) -> ok d d'.
Proof.
  unfold failJob. destruct (getJob id d) as [|[job|]] eqn:Eg; try done. apply getJob_row in Eg.
  destruct (negb _) eqn:Er; [done|]. apply negb_false_iff, running_active in Er.
  destruct (_ <=? _); intros [= <- <-].
  - by apply (update_job_ok _ _ _ (with_job JOB_FAILED _ ts) _ _ Eg).
  - apply (update_job_ok _ _ _ (requeue_row _ _ ts) _ _ Eg). intros _. by apply requeue_le.
Qed.

Lemma enqueue_ok id ts i d d' j : enqueue id ts i d = inr (d', j) -> ok d d'.
Proof.
  unfold enqueue. destruct (enqueue_refused i d) eqn:Er; [done|].
  destruct (insert_row _ _) as [t|] eqn:Ei; [|done]. destruct (rowToJob _); intros [= <- _].
  eapply (insert_job_ok _ _ _ _ Ei); [simpl; lia|]. intros [_ _ _ _ Hf]. destruct fence as [[rid c]|]; [|done].
  destruct Hf as (Ht & Hc & _). unfold enqueue_refused, enqueue_run_id in Er.
  unfold cancels_job, is_run_flow, job_of_run, new_job, payload_text. simpl. rewrite parse_stringify.
  change (match jget "runId" (ei_payload i) with Some (JStr s) => Some s | _ => None end) with (payload_runId (ei_payload i)).
  destruct (bool_decide (ei_jobType i = RUN_FLOW)); [|done]. simpl in *.
  destruct (ei_flowRunId i) as [r|].
  - apply bool_decide_eq_false. intros ->. by rewrite Ht, Hc in Er.
  - apply bool_decide_eq_false. intros E. rewrite E in Er. by rewrite Ht, Hc in Er.
Qed.

Lemma insert_cancellation_ok c t d : insert_row c (cancellations d) = Some t -> ok d (set_cancellations t d).
Proof.
  intros Hi [Hj Hr Hw Ha Hc]. split; [constructor|constructor; intros k x ?; by exists x]; try done.
  destruct fence as [[id c']|]; [|done]. destruct Hc as (? & Hc & ? & ?). split_and!; try done.
  unfold getRunCancellation in *. cbn [set_cancellations cancellations]. rewrite (get_row_insert _ _ _ id Hi).
  case_bool_decide as E; [|done]. unfold insert_row in Hi. by rewrite E, Hc in Hi.
Qed.

Lemma apply_cancellation_ok c runId now d :
  getRunCancellation runId d = Some c -> ok d (apply_cancellation c runId now d).1.
Proof.
  intros Hc. unfold apply_cancellation. rewrite (surjective_pairing (update_where (cancels_job _) _ _)). cbv zeta. cbn [fst].
  etrans; [apply (update_jobs_ok _ (cancels_job runId) (cancel_row now)); intros; by apply inactive_le|].
  set (d1 := set_jobs _ d).
  etrans; [|apply delegations_ok].
  apply (update_runs_ok _ runId (fun _ => true) (with_end RUN_STOPPED None (acknowledgedAt c) now) d1).
  intros r _ _. split; [done|]. destruct fence as [[id c']|]; [|done]. intros -> Hc' _.
  change (getRunCancellation runId d = Some c') in Hc'. assert (c' = c) as -> by congruence. done.
Qed.

Lemma cancel_run_ok runId now d d' r : cancelFlowRun runId now d = inr (d', r) -> ok d d'.
Proof.
  unfold cancelFlowRun. destruct (getFlowRun runId d) as [run|] eqn:Er; [|done].
  destruct (getRunCancellation runId d) as [c|] eqn:Ec.
  - rewrite (surjective_pairing (apply_cancellation _ _ _ _)). intros [-> _]%inr_pair. by apply apply_cancellation_ok.
  - destruct (negb (run_open run)); [by intros [= <- _]|].
    set (c := new_cancellation runId now run).
    destruct (insert_row c (cancellations d)) as [t|] eqn:Ei; [|done].
    rewrite (surjective_pairing (apply_cancellation _ _ _ _)). intros [-> _]%inr_pair.
    etrans; [by eapply insert_cancellation_ok|]. apply apply_cancellation_ok.
    unfold getRunCancellation. cbn [set_cancellations cancellations]. rewrite (get_row_insert _ _ _ runId Ei).
    change (row_key c) with runId. by rewrite bool_decide_eq_true_2.
Qed.

Lemma cancel_each_ok ids now d d' : cancel_each ids now d = inr d' -> ok d d'.
Proof.
  revert d. induction ids as [|id ids IH]; simpl; intros d; [by intros [= ->]|].
  destruct (cancelFlowRun id now d) as [|[d1 r]] eqn:E; [done|]. intros H.
  etrans; [by eapply cancel_run_ok|by apply IH].
Qed.

Lemma cancel_job_row_ok id ts d : ok d (cancel_job_row id ts d).
Proof. apply (update_jobs_ok _ _ (cancel_row ts)). intros. by apply inactive_le. Qed.

Lemma cancel_job_ok id ts d d' : cancelJob id ts d = inr d' -> ok d d'.
Proof.
  unfold cancelJob. destruct (getJob id d) as [|[job|]]; [done| |by intros [= <-]; apply cancel_job_row_ok].
  destruct (cancel_target job) as [|[runId|]]; [done| |by intros [= <-]; apply cancel_job_row_ok].
  destruct (_ && _); [|by intros [= <-]; apply cancel_job_row_ok].
  destruct (cancelFlowRun runId ts d) as [|[d1 r]] eqn:E; [done|]. intros [= <-]. by eapply cancel_run_ok.
Qed.

Lemma recover_ok ts d d' n : recoverOrphanedJobs ts d = inr (d', n) -> ok d d'.
Proof.
  unfold recoverOrphanedJobs. destruct (recoverCanceledRuns ts d) as [|d0] eqn:E0; [done|]. cbv zeta.
  rewrite (surjective_pairing (update_where retryable _ _)). intros [-> _]%inr_pair.
  etrans; [by eapply cancel_each_ok|]. etrans; [apply (retire_ok ts true)|].
  etrans; [eapply (update_jobs_ok _ exhausted (with_job JOB_FAILED (Some orphaned_error) ts)); intros; apply failed_le|].
  etrans; [apply (update_jobs_ok _ retryable (release_row ts))|].
  { intros _ j _ [? _]%andb_true_iff. by apply requeue_le, running_active. }
  set (d3 := set_jobs _ _). intros Hd.
  apply (update_all_runs_ok _ (stranded d3)); [|done]. intros r [[[H _]%andb_true_iff _]%andb_true_iff _]%andb_true_iff. done.
Qed.

Lemma update_run_ok id p now d d' r : updateRun id p now d = inr (d', r) -> ok d d'.
Proof.
  unfold updateRun. destruct (getFlowRun id d) as [existing|] eqn:E; [|done]. cbv zeta. intros [-> _]%inr_pair.
  apply (update_runs_ok _ id (fun _ => true) (apply_patch (fence_patch (getRunCancellation id d) existing p) now)).
  intros r0 Hr _. split; [done|]. destruct fence as [[k c]|]; [|done]. intros -> Hc Hs. by rewrite Hc.
Qed.

Lemma ensure_config_ok id initial d d' c : ensureRunExecutionConfig id initial d = inr (d', c) -> ok d d'.
Proof.
  unfold ensureRunExecutionConfig. destruct (getFlowRun id d) as [row|] eqn:E; [|done].
  destruct (execution_config row) eqn:Ec; [by intros [-> _]%inr_pair|].
  destruct (run_config_source id initial d) as [|source]; [done|]. cbv zeta.
  destruct (scope_mismatch _ _); [done|]. intros [-> _]%inr_pair.
  apply update_runs_ok; [apply _|]. intros r Hr _. assert (r = row) as -> by congruence.
  split; [by rewrite Ec|]. by destruct fence as [[k x]|].
Qed.

Lemma create_waitpoint_ok id now i d d' w : createWaitpoint id now i d = inr (d', w) -> ok d d'.
Proof.
  unfold createWaitpoint. destruct (negb _); [done|]. cbv zeta.
  destruct (insert_row _ _) eqn:Ei; [|done]. intros [-> _]%inr_pair. by eapply insert_waitpoint_ok.
Qed.

Lemma create_run_ok project id ts i d d' r : createFlowRun project id ts i d = inr (d', r) -> ok d d'.
Proof.
  unfold createFlowRun. cbv zeta. destruct (insert_row _ _) eqn:Ei; [|done]. intros [-> _]%inr_pair.
  by eapply insert_run_ok.
Qed.

Lemma save_delegation_ok g d : ok d (saveDelegation g d).
Proof. unfold saveDelegation. destruct (insert_row _ _); apply delegations_ok. Qed.

Lemma resume_transaction_ok jobId wpId runId v now d d' b :
  resume_in_transaction jobId wpId runId v now d = inr (d', b) -> ok d d'.
Proof.
  unfold resume_in_transaction. pose proof (mark_ok fence wpId now d) as Hm.
  destruct (markWaitpointResumed wpId now d) as [d1 m]. destruct m; simpl; [|by intros [-> _]%inr_pair].
  destruct (enqueue _ _ _ d1) as [|[d2 j]] eqn:E; [done|]. intros [-> _]%inr_pair. etrans; [exact Hm|by eapply enqueue_ok].
Qed.
End operations.

(** ** What fires at most once *)

(** Each name of [ids] passes once from [before] to [after] between [d] and [d']. *)
Definition fires (before after : string -> Db -> Prop) (d : Db) (ids : list string) (d' : Db) : Prop :=
  List.NoDup ids /\ forall id, In id ids -> before id d /\ after id d'.

Section fires.
Context (before after : string -> Db -> Prop).
Context (before_back : forall id d d', db_ok None d -> db_ext d d' -> before id d' -> before id d).
Context (after_stays : forall id d d', db_ext d d' -> after id d -> after id d').
Context (exclusive : forall id d, before id d -> after id d -> False).

Lemma fires_nil d d' : fires before after d [] d'.
Proof. split; [constructor|done]. Qed.

Lemma fires_one id d d' : before id d -> after id d' -> fires before after d [id] d'.
Proof. split; [constructor; [by intros []|constructor]|]. intros ? [<-|[]]. done. Qed.

Lemma fires_app d l1 d1 l2 d2 : db_ok None d -> db_ext d d1 -> db_ext d1 d2 ->
  fires before after d l1 d1 -> fires before after d1 l2 d2 -> fires before after d (l1 ++ l2) d2.
Proof.
  intros Hd E1 E2 [N1 F1] [N2 F2]. split.
  - apply List.NoDup_app; try done. intros id H1 H2. destruct (F1 _ H1), (F2 _ H2). eauto.
  - intros id [H|H]%in_app_iff; [destruct (F1 _ H)|destruct (F2 _ H)]; eauto.
Qed.
End fires.

(** A waitpoint that is absent or open, and one that is consumed. *)
Definition wp_open (id : string) (d : Db) : Prop := forall w, getWaitpoint id d = Some w -> resumed_at w = None.
Definition wp_consumed (id : string) (d : Db) : Prop := exists w, getWaitpoint id d = Some w /\ resumed_at w <> None.

(** A job that is absent or was never attempted, and one that was. *)
Definition job_fresh (id : string) (d : Db) : Prop := forall j, get_row id (jobs d) = Some j -> attempt j = 0.
Definition job_attempted (id : string) (d : Db) : Prop := exists j, get_row id (jobs d) = Some j /\ 0 < attempt j.

Definition resumes := fires wp_open wp_consumed.

Lemma wp_open_back id d d' : db_ok None d -> db_ext d d' -> wp_open id d' -> wp_open id d.
Proof.
  intros _ [_ Hw _] Ho w Hg. destruct (Hw _ _ Hg) as (w' & Hg' & Hr). specialize (Ho _ Hg').
  destruct (resumed_at w) eqn:E; [|done]. rewrite Hr in Ho by done. done.
Qed.

Lemma wp_consumed_stays id d d' : db_ext d d' -> wp_consumed id d -> wp_consumed id d'.
Proof.
  intros [_ Hw _] (w & Hg & Hr). destruct (Hw _ _ Hg) as (w' & Hg' & E). exists w'. split; [done|]. by rewrite E.
Qed.

Lemma wp_exclusive id d : wp_open id d -> wp_consumed id d -> False.
Proof. intros Ho (w & Hg & Hr). by specialize (Ho _ Hg). Qed.

Lemma job_fresh_back id d d' : db_ok None d -> db_ext d d' -> job_fresh id d' -> job_fresh id d.
Proof.
  intros Hd [Hj _ _] Hf j Hg. destruct (Hj _ _ Hg) as (j' & Hg' & Hle). specialize (Hf _ Hg').
  pose proof (jl_attempt _ _ Hle). apply get_row_Some in Hg as [Hin _].
  pose proof (ok_attempts _ _ Hd) as Ha. rewrite List.Forall_forall in Ha. specialize (Ha _ Hin). simpl in Ha. lia.
Qed.

Lemma job_attempted_stays id d d' : db_ext d d' -> job_attempted id d -> job_attempted id d'.
Proof.
  intros [Hj _ _] (j & Hg & Ha). destruct (Hj _ _ Hg) as (j' & Hg' & Hle). exists j'. split; [done|].
  pose proof (jl_attempt _ _ Hle). lia.
Qed.

Lemma job_exclusive id d : job_fresh id d -> job_attempted id d -> False.
Proof. intros Hf (j & Hg & Ha). specialize (Hf _ Hg). lia. Qed.

(** Any fence gives the plain invariant. *)
Lemma ok_None fence d : db_ok fence d -> db_ok None d.
Proof. intros []. by constructor. Qed.
#[local] Hint Resolve ok_None : core.

(** A successful mark consumes an open waitpoint. *)
Lemma mark_spec fence id now d d' : db_ok fence d -> markWaitpointResumed id now d = (d', true) ->
  wp_open id d /\ wp_consumed id d'.
Proof.
  intros Hd. unfold markWaitpointResumed. rewrite (surjective_pairing (update_where _ _ _)). cbv zeta.
  intros [E Hn]%pair_equal_spec. rewrite (update_key_changes id unresumed) in Hn by apply (ok_waitpoints _ _ Hd).
  unfold wp_open, wp_consumed, getWaitpoint.
  destruct (get_row id (waitpoints d)) as [w|] eqn:Eg; [|done]. destruct (unresumed w) eqn:Eu; [|done].
  split.
  - intros w' [= <-]. by apply bool_decide_eq_true in Eu.
  - subst d'. cbn [set_waitpoints waitpoints].
    rewrite (get_row_update_key id unresumed (mark_resumed now)) by apply _. rewrite Eg. simpl. rewrite Eu. by eexists.
Qed.

Lemma resume_transaction_fires fence jobId wpId runId v now d d' : db_ok fence d ->
  resume_in_transaction jobId wpId runId v now d = inr (d', true) -> resumes d [wpId] d'.
Proof.
  intros Hd. unfold resume_in_transaction. pose proof (mark_ok fence wpId now d Hd) as [Hok _].
  destruct (markWaitpointResumed wpId now d) as [d1 m] eqn:Em. destruct m; simpl; [|done].
  destruct (enqueue _ _ _ d1) as [|[d2 j]] eqn:E; [done|]. intros [-> _]%inr_pair.
  destruct (mark_spec _ _ _ _ _ Hd Em) as [Ho Hc]. apply fires_one; [done|].
  eapply wp_consumed_stays; [|done]. by eapply (enqueue_ok fence).
Qed.

(** A step with the waitpoints it resumed. *)
Definition resume_ok fence (d : Db) (ids : list string) (d' : Db) : Prop :=
  db_ok fence d -> db_ok fence d' /\ db_ext d d' /\ resumes d ids d'.

Lemma resume_ok_nil fence d d' : step_ok fence d d' -> resume_ok fence d [] d'.
Proof. intros H Hd. destruct (H Hd). split_and!; [done..|apply fires_nil]. Qed.

Lemma resume_ok_app fence d l1 d1 l2 d2 :
  resume_ok fence d l1 d1 -> resume_ok fence d1 l2 d2 -> resume_ok fence d (l1 ++ l2) d2.
Proof.
  intros H1 H2 Hd. destruct (H1 Hd) as (Hd1 & E1 & F1), (H2 Hd1) as (Hd2 & E2 & F2).
  split_and!; [done|by etrans|].
  eapply (fires_app _ _ wp_open_back wp_consumed_stays wp_exclusive); try done. by eapply ok_None.
Qed.

Lemma transaction_resume_ok fence jobId wpId runId v now d d' b :
  resume_in_transaction jobId wpId runId v now d = inr (d', b) ->
  resume_ok fence d (if b then [wpId] else []) d'.
Proof.
  intros H. destruct b; [|by apply resume_ok_nil; eapply resume_transaction_ok].
  intros Hd. destruct (resume_transaction_ok fence _ _ _ _ _ _ _ _ H Hd). split_and!; [done..|].
  by eapply resume_transaction_fires.
Qed.

Lemma resume_effect_ok fence newId now d row d' b : resume_effect newId now d row = inr (d', b) ->
  resume_ok fence d (if b then [row.2] else []) d'.
Proof.
  destruct row as [[effectId runId] wpId]. unfold resume_effect. cbn [snd].
  destruct (getFlowRun runId d); [|intros [-> ->]%inr_pair; by apply resume_ok_nil].
  destruct (negb _); [intros [-> ->]%inr_pair; by apply resume_ok_nil|].
  destruct (existsb _ _); [intros [-> ->]%inr_pair; by apply resume_ok_nil|].
  apply transaction_resume_ok.
Qed.

Lemma resume_effects_ok fence newId now rows d d' ids e :
  resumeResolvedWorkflowEffects newId now rows d = (d', ids, e) -> resume_ok fence d ids d'.
Proof.
  revert d ids e. induction rows as [|row rows IH]; simpl; intros d ids e.
  { intros [= -> <- _]. by apply resume_ok_nil. }
  destruct (resume_effect newId now d row) as [e0|[d1 b]] eqn:E; [intros [= -> <- _]; by apply resume_ok_nil|].
  destruct (resumeResolvedWorkflowEffects newId now rows d1) as [[d2 ids2] e2] eqn:E2.
  intros [[-> <-]%pair_equal_spec _]%pair_equal_spec.
  eapply resume_ok_app; [by eapply resume_effect_ok|by eapply IH].
Qed.

Lemma tick_waitpoint_ok fence newId now d w d' b : tick_waitpoint newId now d w = (d', b) ->
  resume_ok fence d (if b then [wp_id w] else []) d'.
Proof.
  unfold tick_waitpoint. destruct (getFlowRun _ d) as [run|].
  - destruct (includes _ _); [intros [= -> <-]; by apply resume_ok_nil|].
    destruct (negb _); [intros [<- <-]%pair_equal_spec; apply resume_ok_nil, mark_ok|].
    destruct (resume_in_transaction _ _ _ _ _ _) as [|[d1 b1]] eqn:E; intros [= <- <-].
    + by apply resume_ok_nil.
    + by eapply transaction_resume_ok.
  - intros [<- <-]%pair_equal_spec. apply resume_ok_nil, mark_ok.
Qed.

Lemma tick_ok fence newId effects nowIso now d d' ids : tick newId effects nowIso now d = (d', ids) ->
  resume_ok fence d ids d'.
Proof.
  unfold tick. destruct (resumeResolvedWorkflowEffects _ _ _ _) as [[d1 l1] e1] eqn:E1.
  destruct (tick_each _ _ _ _) as [d2 l2] eqn:E2. intros [-> <-]%pair_equal_spec.
  eapply resume_ok_app; [by eapply resume_effects_ok|].
  revert E2. generalize (listDueTimerWaitpoints nowIso 100 d1). intros due. clear E1. revert d1 l2.
  induction due as [|w due IH]; simpl; intros d1 l2; [intros [-> <-]%pair_equal_spec; by apply resume_ok_nil|].
  destruct (tick_waitpoint newId now d1 w) as [d3 b] eqn:E3, (tick_each newId now due d3) as [d4 l4] eqn:E4.
  intros [-> <-]%pair_equal_spec. eapply resume_ok_app; [by eapply tick_waitpoint_ok|by eapply IH].
Qed.

Lemma route_ok fence jobId wpId v now d d' r : resume_route jobId wpId v now d = (d', r) ->
  resume_ok fence d (match r with inr reply_resumed => [wpId] | _ => [] end) d'.
Proof.
  unfold resume_route. destruct (getWaitpoint wpId d) as [w|]; [|intros [-> <-]%pair_equal_spec; by apply resume_ok_nil].
  destruct (negb _); [intros [-> <-]%pair_equal_spec; by apply resume_ok_nil|].
  pose proof (mark_ok fence wpId now d) as Hm.
  destruct (markWaitpointResumed wpId now d) as [d1 m] eqn:Em. destruct m; simpl.
  - destruct (enqueue _ _ _ d1) as [|[d2 j]] eqn:E; cbn [fst]; intros [-> <-]%pair_equal_spec; [by apply resume_ok_nil|].
    intros Hd. destruct (Hm Hd) as [Hok E1]. destruct (enqueue_ok fence _ _ _ _ _ _ E Hok) as [Hok2 E2].
    split_and!; [done|by etrans|]. destruct (mark_spec _ _ _ _ _ Hd Em) as [Ho Hc]. apply fires_one; [done|].
    by eapply wp_consumed_stays.
  - intros [-> <-]%pair_equal_spec. by apply resume_ok_nil.
Qed.

(** ** Claims of workflow jobs *)

Lemma retire_one_jobs ts d j : jobs (retire_one ts d j) =
  (update_where (key_is (job_id j) (fun _ => true)) (with_job JOB_FAILED (Some (retire_message j)) ts) (jobs d)).1.
Proof. unfold retire_one. destruct (retired_run_id j) as [rid|]; [|done]. by destruct (truthy rid). Qed.

(** After the retirement loop a row is failed or was not selected. *)
Lemma retire_loop_rows ts l d j : In j (jobs (foldl (retire_one ts) d l)) ->
  job_status j = JOB_FAILED \/ (In j (jobs d) /\ ~ In (job_id j) (map job_id l)).
Proof.
  revert d. induction l as [|x l IH]; simpl; intros d; [by right; split; [|intros []]|].
  intros [?|[Hin Hni]]%IH; [by left|]. rewrite retire_one_jobs in Hin.
  apply (update_In (key_is (job_id x) (fun _ => true))) in Hin as (j0 & Hin & E).
  destruct (key_is _ _ j0) eqn:Ek; [left; by subst j|]. right. subst j. split; [done|].
  intros [Heq|?]; [|done]. unfold key_is in Ek. rewrite bool_decide_eq_true_2 in Ek; [done|]. by symmetry.
Qed.

Lemma retire_clears ts boot d j : In j (jobs (retireWorkflowRetries ts boot d)) -> replayed boot j = false.
Proof.
  unfold retireWorkflowRetries. intros [E|[Hin Hni]]%retire_loop_rows.
  - unfold replayed, job_in. rewrite E. by rewrite andb_false_r, andb_false_r.
  - destruct (replayed boot j) eqn:E; [|done]. exfalso. apply Hni, in_map, List.filter_In. done.
Qed.

(** What a claim took, and what it left. *)
Lemma claim_spec fence lease now d d' j : db_ok fence d -> claimNextJob lease now d = inr (d', Some j) ->
  exists r, let d1 := retireWorkflowRetries now false d in
    next_ready now d1 = Some r /\ job_row j = claim_row (now + (lease ?? DEFAULT_LEASE_MS)) now r /\
    get_row (job_id r) (jobs d1) = Some r /\
    d' = set_jobs (update_where (key_is (job_id r) (fun _ => true)) (claim_row (now + (lease ?? DEFAULT_LEASE_MS)) now) (jobs d1)).1 d1 /\
    get_row (job_id r) (jobs d') = Some (job_row j).
Proof.
  intros Hd. destruct (retire_ok fence now false d Hd) as [Hd1 _]. unfold claimNextJob. cbv zeta.
  destruct (next_ready _ _) as [r|] eqn:En; [|done]. unfold rowToJob.
  destruct (parse _) as [v|]; [|done]. intros [-> [= ->]]%inr_pair. exists r. cbn [job_row].
  pose proof (next_ready_spec _ _ _ En) as [Hin _].
  assert (get_row (job_id r) (jobs (retireWorkflowRetries now false d)) = Some r) as Hg.
  { apply (get_row_In _ r); [apply (ok_jobs _ _ Hd1)|done]. }
  split_and!; try done. cbn [set_jobs jobs]. rewrite get_row_update_key by apply _. by rewrite Hg.
Qed.

Lemma claim_returns_view lease now d d' j : claimNextJob lease now d = inr (d', Some j) ->
  rowToJob (job_row j) = inr j.
Proof.
  unfold claimNextJob. cbv zeta. destruct (next_ready _ _) as [r|]; [|done]. unfold rowToJob.
  destruct (parse _) as [v|] eqn:E; [|done]. intros [_ [= ->]]%inr_pair. cbn [job_row]. by rewrite E.
Qed.

Lemma claim_fires fence lease now d d' j : db_ok fence d -> claimNextJob lease now d = inr (d', Some j) ->
  (is_run_flow (job_row j) = true -> attempt (job_row j) = 1 /\
     fires job_fresh job_attempted d [job_id (job_row j)] d') /\
  match fence with
  | Some (id, _) => is_run_flow (job_row j) && job_of_run id (job_row j) = false
  | None => True
  end.
Proof.
  intros Hd Hc. destruct (retire_ok fence now false d Hd) as [Hd1 E1].
  destruct (claim_spec _ _ _ _ _ _ Hd Hc) as (r & En & Ej & Hg & -> & Hg').
  apply next_ready_spec in En as [Hin Hr]. split.
  - intros Hf. rewrite Ej in *. change (is_run_flow r = true) in Hf.
    assert (attempt r = 0) as Ha.
    { pose proof (retire_clears _ _ _ _ Hin) as Hn. unfold replayed in Hn. unfold claim_ready in Hr.
      rewrite Hf in *. rewrite andb_false_r, orb_false_r in Hr. to_prop. rewrite H in Hn. simpl in Hn. to_prop.
      pose proof (ok_attempts _ _ Hd1) as Hat. rewrite List.Forall_forall in Hat. specialize (Hat _ Hin). simpl in Hat. lia. }
    split; [simpl; lia|]. apply fires_one.
    + eapply job_fresh_back; [by eapply ok_None|exact E1|]. intros j0 Hj0. simpl in Hj0. congruence.
    + exists (claim_row (now + (lease ?? DEFAULT_LEASE_MS)) now r). split; [exact Hg'|simpl; lia].
  - destruct fence as [[id c]|]; [|done]. destruct (ok_fence _ _ Hd1) as (_ & _ & _ & Hfall).
    rewrite List.Forall_forall in Hfall. specialize (Hfall _ Hin). apply ready_active in Hr.
    unfold cancels_job in Hfall. rewrite Hr in Hfall. rewrite andb_true_r in Hfall. by rewrite Ej.
Qed.

(** ** Traces *)

Definition resumed_ids (es : list Event) : list string :=
  omap (fun e => match e with ev_resumed id => Some id | _ => None end) es.

(** The workflow jobs claimed, in order. *)
Definition flow_claims (es : list Event) : list string :=
  omap (fun e => match e with ev_claimed j => if is_run_flow j then Some (job_id j) else None | _ => None end) es.

Definition claims_run (id : string) (e : Event) : bool :=
  match e with ev_claimed j => is_run_flow j && job_of_run id j | ev_resumed _ => false end.

Definition fence_respected (fence : option (string * RunCancellation)) (es : list Event) : Prop :=
  match fence with Some (id, _) => existsb (claims_run id) es = false | None => True end.

Record trace_ok fence (d : Db) (es : list Event) (d' : Db) : Prop := {
  tr_ok : db_ok fence d';
  tr_ext : db_ext d d';
  tr_resumes : resumes d (resumed_ids es) d';
  tr_claims : fires job_fresh job_attempted d (flow_claims es) d';
  tr_first : forall j, In (ev_claimed j) es -> is_run_flow j = true -> attempt j = 1;
  tr_fence : fence_respected fence es }.

Lemma trace_nil fence d d' : db_ok fence d -> step_ok fence d d' -> trace_ok fence d [] d'.
Proof.
  intros Hd H. destruct (H Hd). constructor; [done..|apply fires_nil|apply fires_nil|done|by destruct fence as [[? ?]|]].
Qed.

Lemma trace_app fence d e1 d1 e2 d2 : db_ok fence d ->
  trace_ok fence d e1 d1 -> trace_ok fence d1 e2 d2 -> trace_ok fence d (e1 ++ e2) d2.
Proof.
  intros Hd [O1 E1 R1 C1 A1 F1] [O2 E2 R2 C2 A2 F2]. apply ok_None in Hd. constructor; [done|by etrans| | | |].
  - unfold resumed_ids. rewrite omap_app. eapply (fires_app _ _ wp_open_back wp_consumed_stays wp_exclusive); done.
  - unfold flow_claims. rewrite omap_app. eapply (fires_app _ _ job_fresh_back job_attempted_stays job_exclusive); done.
  - intros j [?|?]%in_app_iff; auto.
  - destruct fence as [[id c]|]; [|done]. simpl in *. by rewrite existsb_app, F1, F2.
Qed.

Lemma trace_resumed fence d ids d' : db_ok fence d -> resume_ok fence d ids d' ->
  trace_ok fence d (map ev_resumed ids) d'.
Proof.
  intros Hd H. destruct (H Hd) as (? & ? & Hr).
  assert (resumed_ids (map ev_resumed ids) = ids) as E1 by (clear; induction ids; simpl; congruence).
  assert (flow_claims (map ev_resumed ids) = []) as E2 by (clear; by induction ids).
  constructor; [done..|by rewrite E1|rewrite E2; apply fires_nil| |].
  { intros j (? & ? & ?)%in_map_iff. done. }
  destruct fence as [[id c]|]; [|done]. simpl. clear. by induction ids.
Qed.

Lemma or_same_ok {A} fence (f : A -> Db) d x : (forall a, x = inr a -> step_ok fence d (f a)) ->
  step_ok fence d (or_same f d x).
Proof. intros H. destruct x as [e|a]; simpl; [reflexivity|by apply H]. Qed.

Lemma workflow_step_ok fence d o : db_ok fence d ->
  trace_ok fence d (workflow_step d o).2 (workflow_step d o).1.
Proof.
  intros Hd. destruct o as [project id ts i|id p now|id initial|id now|id now i|g|id ts i|lease now|id ts|id error o ts|id ts|ts|newId effects nowIso now|jobId wpId v now];
    simpl; try (apply trace_nil; [done|]; try (apply or_same_ok; intros a Ha; simpl)).
  - destruct a as [a b]. by eapply create_run_ok.
  - destruct a as [a b]. by eapply update_run_ok.
  - destruct a as [a b]. by eapply ensure_config_ok.
  - destruct a as [a b]. by eapply cancel_run_ok.
  - destruct a as [a b]. by eapply create_waitpoint_ok.
  - apply save_delegation_ok.
  - destruct a as [a b]. by eapply enqueue_ok.
  - destruct (claimNextJob lease now d) as [e|[d' [j|]]] eqn:E; [by apply trace_nil| |].
    + destruct (claim_ok fence _ _ _ _ _ E Hd) as [Hok Hext]. destruct (claim_fires _ _ _ _ _ _ Hd E) as [Hf Hc].
      constructor; [done..|apply fires_nil| | |].
      * unfold flow_claims. simpl. destruct (is_run_flow (job_row j)); [by apply Hf|apply fires_nil].
      * intros j0 [[= <-]|[]] Hj. by apply Hf.
      * destruct fence as [[id c]|]; [|done]. simpl in *. by rewrite Hc.
    + apply trace_nil; [done|]. by eapply claim_ok.
  - by eapply complete_ok.
  - destruct a as [a b]. by eapply fail_ok.
  - by eapply cancel_job_ok.
  - destruct a as [a b]. by eapply recover_ok.
  - destruct (tick _ _ _ _ _) as [d' ids] eqn:E. apply trace_resumed; [done|]. by eapply tick_ok.
  - destruct (resume_route _ _ _ _ _) as [d' [e|[]]] eqn:E; apply (route_ok fence) in E; simpl in *;
      apply (trace_resumed _ _ _ _ Hd E).
Qed.

Lemma workflow_run_ok fence os d : db_ok fence d ->
  trace_ok fence d (workflow_run d os).2 (workflow_run d os).1.
Proof.
  revert d. induction os as [|o os IH]; simpl; intros d Hd; [by apply trace_nil|].
  pose proof (workflow_step_ok fence d o Hd) as H1. destruct (workflow_step d o) as [d1 e1].
  specialize (IH d1 (tr_ok _ _ _ _ H1)). destruct (workflow_run d1 os) as [d2 e2]. by eapply trace_app.
Qed.

Lemma empty_db_ok : db_ok None empty_db.
Proof. constructor; simpl; done || constructor. Qed.

(** ** Establishing the fence *)

Lemma apply_cancellation_fences c runId now d : db_ok None d -> truthy runId = true ->
  getRunCancellation runId d = Some c -> getFlowRun runId d <> None ->
  db_ok (Some (runId, c)) (apply_cancellation c runId now d).1.
Proof.
  intros Hd Ht Hc Hr. destruct (apply_cancellation_ok None c runId now d Hc Hd) as [[Hj Hrr Hw Ha _] _].
  constructor; try done. clear Hj Hrr Hw Ha.
  unfold apply_cancellation. rewrite (surjective_pairing (update_where (cancels_job _) _ _)). split_and!; try done.
  - destruct (getFlowRun runId d) as [r|] eqn:E; [|done]. unfold getFlowRun in *.
    cbn [fst deleteDelegations set_delegations set_runs set_jobs runs].
    rewrite get_row_update_key by apply _. rewrite E. by eexists.
  - apply List.Forall_forall. intros j. cbn [fst deleteDelegations set_delegations set_runs set_jobs jobs].
    intros (j0 & _ & ->)%update_In. destruct (cancels_job runId j0) eqn:E; [|done].
    unfold cancels_job. by rewrite andb_false_r.
Qed.

Lemma cancel_run_fences d runId now d' r : db_ok None d -> truthy runId = true ->
  cancelFlowRun runId now d = inr (d', r) -> accepted r = true ->
  exists c, cr_cancellation r = Some c /\ db_ok (Some (runId, c)) d'.
Proof.
  intros Hd Ht. unfold cancelFlowRun. destruct (getFlowRun runId d) as [run|] eqn:Er; [|done].
  destruct (getRunCancellation runId d) as [c|] eqn:Ec.
  - rewrite (surjective_pairing (apply_cancellation _ _ _ _)). intros [-> ->]%inr_pair _. exists c. split; [done|].
    apply apply_cancellation_fences; [done..|]. by rewrite Er.
  - destruct (negb (run_open run)); [by intros [_ ->]%inr_pair|].
    set (c := new_cancellation runId now run).
    destruct (insert_row c (cancellations d)) as [t|] eqn:Ei; [|done].
    rewrite (surjective_pairing (apply_cancellation _ _ _ _)). intros [-> ->]%inr_pair _. exists c. split; [done|].
    destruct (insert_cancellation_ok None _ _ _ Ei Hd) as [Hd1 _].
    apply apply_cancellation_fences; [done..| |].
    + unfold getRunCancellation. cbn [set_cancellations cancellations]. rewrite (get_row_insert _ _ _ runId Ei).
      change (row_key c) with runId. by rewrite bool_decide_eq_true_2.
    + change (getFlowRun runId d <> None). by rewrite Er.
Qed.

Lemma ensure_config_stored id initial d d' c : ensureRunExecutionConfig id initial d = inr (d', c) ->
  exists row, getFlowRun id d' = Some row /\ execution_config row = Some c.
Proof.
  unfold ensureRunExecutionConfig. destruct (getFlowRun id d) as [row|] eqn:E; [|done].
  destruct (execution_config row) eqn:Ec; [intros [-> ->]%inr_pair; eauto|].
  destruct (run_config_source id initial d) as [|source]; [done|]. cbv zeta.
  destruct (scope_mismatch _ _); [done|]. intros [-> ->]%inr_pair. unfold getFlowRun in *. cbn [set_runs runs].
  rewrite get_row_update_key by apply _. rewrite E. by eexists.
Qed.

(** ** Recovery at boot *)

Section recovery.
Context (now : Z).

Lemma apply_cancellation_nonflow c runId d k j : get_row k (jobs d) = Some j -> is_run_flow j = false ->
  get_row k (jobs (apply_cancellation c runId now d).1) = Some j.
Proof.
  intros Hg Hn. unfold apply_cancellation. rewrite (surjective_pairing (update_where (cancels_job _) _ _)).
  cbn [fst deleteDelegations set_delegations set_runs set_jobs jobs].
  rewrite (get_row_update (cancels_job runId) (cancel_row now)), Hg. cbn [fmap option_fmap option_map].
  unfold cancels_job. by rewrite Hn.
Qed.

Lemma cancel_run_nonflow runId d d' r k j : cancelFlowRun runId now d = inr (d', r) ->
  get_row k (jobs d) = Some j -> is_run_flow j = false -> get_row k (jobs d') = Some j.
Proof.
  unfold cancelFlowRun. destruct (getFlowRun runId d); [|done].
  destruct (getRunCancellation runId d).
  - rewrite (surjective_pairing (apply_cancellation _ _ _ _)). intros [-> _]%inr_pair. apply apply_cancellation_nonflow.
  - destruct (negb _); [by intros [-> _]%inr_pair|]. destruct (insert_row _ _); [|done].
    rewrite (surjective_pairing (apply_cancellation _ _ _ _)). intros [-> _]%inr_pair Hg. by apply apply_cancellation_nonflow.
Qed.

(** Canceling existing runs one after the other never throws. *)
Lemma cancel_each_total ids d : db_ok None d -> (forall id, In id ids -> getFlowRun id d <> None) ->
  exists d', cancel_each ids now d = inr d' /\
    forall k j, get_row k (jobs d) = Some j -> is_run_flow j = false -> get_row k (jobs d') = Some j.
Proof.
  revert d. induction ids as [|id ids IH]; simpl; intros d Hd Hall; [by eexists|].
  destruct (cancelFlowRun id now d) as [e|[d1 r]] eqn:E.
  - exfalso. unfold cancelFlowRun in E. pose proof (Hall id ltac:(by left)).
    destruct (getFlowRun id d) as [run|]; [|done]. destruct (getRunCancellation id d) eqn:Ec.
    + by rewrite (surjective_pairing (apply_cancellation _ _ _ _)) in E.
    + destruct (negb _); [done|]. unfold insert_row in E.
      change (row_key (new_cancellation id now run)) with id in E. unfold getRunCancellation in Ec. rewrite Ec in E.
      by rewrite (surjective_pairing (apply_cancellation _ _ _ _)) in E.
  - destruct (cancel_run_ok None _ _ _ _ _ E Hd) as [Hd1 [_ _ Hext]].
    destruct (IH d1 Hd1) as (d' & E' & Hn).
    + intros id' Hin. pose proof (Hall id' ltac:(by right)) as Hne.
      destruct (getFlowRun id' d) as [x|] eqn:Ex; [|done]. destruct (Hext _ _ Ex) as (x' & -> & _). done.
    + exists d'. split; [done|]. intros k j Hg Hf. apply Hn; [|done]. by eapply cancel_run_nonflow.
Qed.

Lemma retire_loop_other ts l d k j : (forall x, In x l -> job_id x <> k) ->
  get_row k (jobs d) = Some j -> get_row k (jobs (foldl (retire_one ts) d l)) = Some j.
Proof.
  revert d. induction l as [|x l IH]; simpl; intros d Hne Hg; [done|]. apply IH; [auto|].
  rewrite retire_one_jobs, get_row_update_other; [done|apply _|]. apply Hne. by left.
Qed.

Lemma retire_nonflow ts boot d k j : db_ok None d -> get_row k (jobs d) = Some j -> is_run_flow j = false ->
  get_row k (jobs (retireWorkflowRetries ts boot d)) = Some j.
Proof.
  intros Hd Hg Hn. unfold retireWorkflowRetries. cbv zeta.
  set (d1 := set_jobs _ d). assert (get_row k (jobs d1) = Some j) as Hg1.
  { unfold d1. cbn [set_jobs jobs]. rewrite (get_row_update _ (cap_attempts ts)), Hg. cbn [fmap option_fmap option_map]. by rewrite Hn. }
  apply retire_loop_other; [|done]. intros x [Hx Hr]%List.filter_In Hk.
  assert (keyed (jobs d1)) as Hkd by (apply update_keyed; [apply _|apply (ok_jobs _ _ Hd)]).
  apply get_row_Some in Hg1 as [Hin Hkj]. assert (x = j) as -> by (apply (keyed_unique (jobs d1)); [done..|]; transitivity k; [exact Hk|by symmetry]).
  unfold replayed in Hr. by rewrite Hn in Hr.
Qed.

(** What recovery makes of a job that is not a workflow run. *)
Definition recovered_job (ts : Z) (j : JobRow) : JobRow :=
  if exhausted j then with_job JOB_FAILED (Some orphaned_error) ts j
  else if retryable j then release_row ts j else j.
(** The table after the last two statements on the jobs. *)
Definition settle_running (ts : Z) (t : list JobRow) : list JobRow :=
  (update_where retryable (release_row ts) (update_where exhausted (with_job JOB_FAILED (Some orphaned_error) ts) t).1).1.

Lemma recovery_rows_settled ts t j : In j (settle_running ts t) -> job_status j <> JOB_RUNNING.
Proof.
  intros (j1 & Hin & ->)%update_In. apply update_In in Hin as (j0 & _ & ->).
  destruct (exhausted j0) eqn:Ee; [done|]. destruct (retryable j0) eqn:Er; [done|]. intros E.
  assert (job_in [JOB_RUNNING] j0 = true) as Hr by (unfold job_in; by rewrite E).
  unfold exhausted, retryable in *. rewrite Hr in *. simpl in *. to_prop. lia.
Qed.

Lemma recovery_flow_rows ts t j :
  List.Forall (fun j => 0 <= attempt j) t -> (forall j0, In j0 t -> replayed true j0 = false) ->
  In j (settle_running ts t) -> is_run_flow j = true -> job_active j = true ->
  job_status j = JOB_QUEUED /\ attempt j = 0.
Proof.
  intros Ha Hr Hin Hf Hact. pose proof (recovery_rows_settled _ _ _ Hin) as Hs.
  apply update_In in Hin as (j1 & Hin & E1). apply update_In in Hin as (j0 & Hin & E0).
  rewrite List.Forall_forall in Ha. specialize (Ha _ Hin). specialize (Hr _ Hin). simpl in Ha.
  assert (is_run_flow j0 = true) as Hf0.
  { revert Hf. subst j j1. unfold is_run_flow. by destruct (exhausted j0), (retryable _). }
  unfold replayed in Hr. rewrite Hf0 in Hr. cbn [andb] in Hr. apply orb_false_iff in Hr as [Hq Hrun].
  assert (exhausted j0 = false) as Ee by (unfold exhausted; by rewrite Hrun). rewrite Ee in E0. subst j1.
  assert (retryable j0 = false) as Er by (unfold retryable; by rewrite Hrun). rewrite Er in E1. subst j.
  unfold job_active, job_in in Hact. unfold job_in in Hq. destruct (job_status j0); try done.
  simpl in Hq. to_prop. split; [done|lia].
Qed.
End recovery.

(** ** Theorems *)

(** C9: a workflow job is attempted at most once. Whatever operations run and
    however they interleave (claims by any worker, expired leases, failures,
    restarts with recovery, resumptions), no RUN_FLOW job is claimed twice, each
    claim is its first attempt, and a job that already had an attempt when the
    sequence began is not claimed at all. *)
Theorem workflow_job_claimed_once d os :
  db_ok None d ->
  let es := (workflow_run d os).2 in
  List.NoDup (flow_claims es) /\
  (forall id j, In id (flow_claims es) -> get_row id (jobs d) = Some j -> attempt j = 0) /\
  (forall j, In (ev_claimed j) es -> is_run_flow j = true -> attempt j = 1).
Proof.
  intros Hd. destruct (workflow_run_ok None os d Hd) as [_ _ _ [Hn Hf] Ha _]. split_and!; [done| |done].
  intros id j Hin Hg. destruct (Hf _ Hin) as [Hfresh _]. by apply Hfresh.
Qed.

(** C33: cancellation is permanent for as long as the flow of the run exists. Once
    [cancelFlowRun] accepts, no sequence of operations other than the deletion of
    the flow (which removes the run with its cancellation: the foreign keys
    cascade, and [WorkflowOp] has no deletion) changes the recorded cancellation;
    the run stays STOPPED with the acknowledged time as its end, none of its
    workflow jobs is queued or running, none is claimed, and the fence
    [assertRunNotCanceled] stays closed. *)
Theorem canceled_run_stays_stopped d runId now d' r os :
  db_ok None d -> truthy runId = true ->
  cancelFlowRun runId now d = inr (d', r) -> accepted r = true ->
  exists c, cr_cancellation r = Some c /\
    let d'' := (workflow_run d' os).1 in
    getRunCancellation runId d'' = Some c /\
    (exists row, getFlowRun runId d'' = Some row /\ run_status row = RUN_STOPPED /\
                 finish_time row = Some (acknowledgedAt c)) /\
    (forall j, In j (jobs d'') -> cancels_job runId j = false) /\
    existsb (claims_run runId) (workflow_run d' os).2 = false /\
    run_not_canceled runId d'' = false.
Proof.
  intros Hd Ht Hc Ha. destruct (cancel_run_fences _ _ _ _ _ Hd Ht Hc Ha) as (c & Er & Hd').
  exists c. split; [done|]. destruct (workflow_run_ok _ os _ Hd') as [Hok _ _ _ _ Hf].
  destruct (ok_fence _ _ Hok) as (_ & Hcc & Hrow & Hjobs). split_and!; try done.
  - by apply List.Forall_forall.
  - unfold run_not_canceled. by rewrite Hcc.
Qed.

(** A waitpoint resumes its run at most once, whichever of the timer, the
    approval scheduler and the resume route gets there first and in whatever
    order they run; a waitpoint already consumed when the sequence begins never
    resumes again, and every one that did is consumed afterwards. *)
Theorem waitpoint_resumes_once d os :
  db_ok None d ->
  let es := (workflow_run d os).2 in
  List.NoDup (resumed_ids es) /\
  forall id, In id (resumed_ids es) ->
    (forall w, getWaitpoint id d = Some w -> resumed_at w = None) /\
    exists w, getWaitpoint id (workflow_run d os).1 = Some w /\ resumed_at w <> None.
Proof. intros Hd. apply (tr_resumes _ _ _ _ (workflow_run_ok None os d Hd)). Qed.

(** The execution configuration of a run is frozen. Once
    [ensureRunExecutionConfig] has returned a configuration, it returns the same
    one after any operations, whatever initial configuration the caller offers,
    and writes nothing. *)
Theorem run_config_is_frozen d id initial d' c os initial' :
  db_ok None d -> ensureRunExecutionConfig id initial d = inr (d', c) ->
  let d'' := (workflow_run d' os).1 in
  ensureRunExecutionConfig id initial' d'' = inr (d'', c).
Proof.
  intros Hd He. destruct (ensure_config_ok None _ _ _ _ _ He Hd) as [Hd' _].
  apply ensure_config_stored in He as (row & Hg & Hc).
  destruct (tr_ext _ _ _ _ (workflow_run_ok None os d' Hd')) as [_ _ Hext].
  destruct (Hext _ _ Hg) as (row' & Hg' & E). simpl. unfold ensureRunExecutionConfig. rewrite Hg'.
  rewrite E, Hc; [done|]. by rewrite Hc.
Qed.

(** Recovery at boot. It never throws and leaves no job running: an
    interrupted or previously attempted workflow job is off the queue (a
    workflow job that is still active is queued and was never attempted), any
    other running job is failed when its attempts are used up and queued for
    now otherwise, and every other job of another type is untouched. *)
Theorem recovery_leaves_nothing_running ts d :
  db_ok None d ->
  exists d' n, recoverOrphanedJobs ts d = inr (d', n) /\
    (forall j, In j (jobs d') -> job_status j <> JOB_RUNNING) /\
    (forall j, In j (jobs d') -> is_run_flow j = true -> job_active j = true ->
       job_status j = JOB_QUEUED /\ attempt j = 0) /\
    (forall k j, get_row k (jobs d) = Some j -> is_run_flow j = false ->
       get_row k (jobs d') = Some (recovered_job ts j)).
Proof.
  intros Hd. unfold recoverOrphanedJobs, recoverCanceledRuns.
  destruct (cancel_each_total ts (map run_id (select_where (needs_cancel_recovery d) (runs d))) d Hd) as (d0 & E0 & Hn0).
  { intros id (r & <- & [Hin _]%List.filter_In)%in_map_iff. unfold getFlowRun.
    change (run_id r) with (row_key r). by rewrite (get_row_In _ r (ok_runs _ _ Hd) Hin). }
  rewrite E0. cbv zeta. rewrite (surjective_pairing (update_where retryable _ _)).
  destruct (cancel_each_ok None _ _ _ _ E0 Hd) as [Hd0 _]. destruct (retire_ok None ts true d0 Hd0) as [Hd1 _].
  set (d1 := retireWorkflowRetries ts true d0) in *. eexists _, _. split; [done|].
  cbn [set_runs set_jobs jobs]. split_and!.
  - intros j. apply (recovery_rows_settled ts (jobs d1)).
  - intros j Hin Hf Ha. eapply (recovery_flow_rows ts (jobs d1)); try done; [apply (ok_attempts _ _ Hd1)|].
    intros j0 Hj0. by eapply retire_clears.
  - intros k j Hg Hf. rewrite (get_row_update retryable (release_row ts)).
    rewrite (get_row_update exhausted (with_job JOB_FAILED (Some orphaned_error) ts)).
    pose proof (retire_nonflow ts true d0 k j Hd0 (Hn0 _ _ Hg Hf) Hf) as Hg1. fold d1 in Hg1. rewrite Hg1.
    simpl. unfold recovered_job.
    destruct (exhausted j) eqn:Ee; [done|]. by destruct (retryable j).
Qed.

Lemma claim_order_total a b : claim_order a b = true \/ claim_order b a = true.
Proof.
  unfold claim_order. destruct (Z.lt_total (job_priority a) (job_priority b)) as [?|[?|?]]; [right|..];
    [| |left]; try (rewrite (proj2 (Z.ltb_lt _ _)) by done; done).
  destruct (Z.lt_total (scheduled_at a) (scheduled_at b)) as [?|[?|?]];
    [left|destruct (Z.le_ge_cases (job_created a) (job_created b)); [left|right]|right];
    rewrite !orb_true_iff, !andb_true_iff, !orb_true_iff, !andb_true_iff, ?Z.ltb_lt, ?Z.eqb_eq, ?Z.leb_le; lia.
Qed.

Lemma claim_order_trans a b c : claim_order a b = true -> claim_order b c = true -> claim_order a c = true.
Proof.
  unfold claim_order. rewrite !orb_true_iff, !andb_true_iff, !orb_true_iff, !andb_true_iff, !Z.ltb_lt, !Z.eqb_eq, !Z.leb_le. lia.
Qed.

(** A claim takes the right job. Among the jobs ready after replays are
    retired, it takes one of highest priority, earliest schedule and earliest
    creation, marks it running with one more attempt and the lease asked for,
    returns exactly the stored row, touches no other row, and until the lease
    expires the job is not ready again; it returns nothing exactly when no job
    is ready. *)
Theorem claim_takes_the_best lease now d d' o :
  db_ok None d -> claimNextJob lease now d = inr (d', o) ->
  let d1 := retireWorkflowRetries now false d in
  let until := now + (lease ?? DEFAULT_LEASE_MS) in
  match o with
  | None => d' = d1 /\ (forall x, In x (jobs d1) -> claim_ready now x = false)
  | Some j =>
      exists r, In r (jobs d1) /\ claim_ready now r = true /\
        (forall x, In x (jobs d1) -> claim_ready now x = true -> claim_order r x = true) /\
        job_row j = claim_row until now r /\ rowToJob (job_row j) = inr j /\
        get_row (job_id r) (jobs d') = Some (job_row j) /\
        (forall k, k <> job_id r -> get_row k (jobs d') = get_row k (jobs d1)) /\
        (forall later, later < until -> claim_ready later (job_row j) = false)
  end.
Proof.
  intros Hd Hc d1 until. destruct o as [j|].
  - destruct (claim_spec _ _ _ _ _ _ Hd Hc) as (r & En & Ej & Hg & E & Hg').
    apply (sort_by_head _ claim_order_total claim_order_trans) in En as [Hin Hbest].
    apply List.filter_In in Hin as [Hin Hr]. exists r. split_and!; try done.
    + intros x Hx Hrx. apply Hbest, List.filter_In. done.
    + apply claim_returns_view in Hc. done.
    + intros k Hk. subst d'. cbn [set_jobs jobs]. apply get_row_update_other; [apply _|by symmetry].
    + intros later Hl. rewrite Ej. unfold claim_ready, job_in. simpl.
      by rewrite (proj2 (Z.leb_gt _ _)) by (unfold until in Hl; lia).
  - unfold claimNextJob in Hc. cbv zeta in Hc. fold d1 in Hc. destruct (next_ready now d1) as [r|] eqn:En.
    + destruct (rowToJob _); [done|]. by apply inr_pair in Hc as [_ ?].
    + apply inr_pair in Hc as [-> _]. split; [done|]. apply sort_by_head_None in En. by apply filter_nil_iff.
Qed.

(** ** Concrete sequences *)

Definition demo_run : CreateFlowRunInput :=
  mkCreateRun "flow" "v1" None None false None None (Some RUN_PAUSED) None None None.

Definition demo_job (jobType : string) : EnqueueInput :=
  mkEnqueue jobType (JObj [("runId", JStr "run")]) (Some "run") None None None None None.

Definition demo_wait : CreateWaitpointInput :=
  mkCreateWaitpoint "run" "p" "step" TIMER None (Some "2025-01-01T00:00:00.000Z") None None None.

(** A paused run with a due timer, its first job, and a job of another type. *)
Definition demo_setup : list WorkflowOp :=
  [w_create_run "default" "run" 0 demo_run; w_enqueue "job" 1 (demo_job RUN_FLOW);
   w_enqueue "mail" 2 (demo_job "SEND_MAIL"); w_create_waitpoint "wait" 3 demo_wait].

Definition demo_db : Db := (workflow_run empty_db demo_setup).1.

Lemma demo_db_ok : db_ok None demo_db.
Proof. exact (tr_ok _ _ _ _ (workflow_run_ok None demo_setup empty_db empty_db_ok)). Qed.

Definition demo_ids (s : string) : string := "resume-" +:+ s.

(** Claims, a failure, an expired lease, a restart, two ticks and the route. *)
Definition demo_ops : list WorkflowOp :=
  [w_claim None 10; w_fail "job" "boom" no_opts 11; w_claim (Some 5) 12; w_claim None 100; w_recover 200;
   w_tick demo_ids [] "2025-06-01T00:00:00.000Z" 300; w_resume_route "again" "wait" (JObj []) 301;
   w_tick demo_ids [] "2025-06-01T00:00:00.000Z" 302; w_claim None 303; w_claim None 304].

Lemma workflow_job_claimed_once_witness :
  flow_claims (workflow_run demo_db demo_ops).2 = ["job"; "resume-wait"] /\
  List.NoDup (flow_claims (workflow_run demo_db demo_ops).2).
Proof.
  split; [vm_compute; reflexivity|]. apply (workflow_job_claimed_once demo_db demo_ops demo_db_ok).
Defined.

Lemma waitpoint_resumes_once_witness :
  resumed_ids (workflow_run demo_db demo_ops).2 = ["wait"] /\
  List.NoDup (resumed_ids (workflow_run demo_db demo_ops).2).
Proof.
  split; [vm_compute; reflexivity|]. apply (waitpoint_resumes_once demo_db demo_ops demo_db_ok).
Defined.

(** The result of a cancellation that does not throw. *)
Definition cancel_result (x : throws (Db * CancelResult)) : Db * CancelResult :=
  match x with inr p => p | inl _ => (empty_db, mkCancelResult false false None) end.

Lemma canceled_run_stays_stopped_witness :
  let d' := (cancel_result (cancelFlowRun "run" 50 demo_db)).1 in
  run_status <$> getFlowRun "run" demo_db = Some RUN_PAUSED /\
  run_not_canceled "run" (workflow_run d' demo_ops).1 = false.
Proof.
  intros d'. split; [vm_compute; reflexivity|].
  destruct (canceled_run_stays_stopped demo_db "run" 50 d' (cancel_result (cancelFlowRun "run" 50 demo_db)).2 demo_ops demo_db_ok)
    as (c & _ & _ & _ & _ & _ & H); [reflexivity|vm_compute; reflexivity|vm_compute; reflexivity|exact H].
Defined.

Definition demo_config : RunExecutionConfig := mkRunConfig (Some "step_1") None None.
Definition config_result (x : throws (Db * RunExecutionConfig)) : Db * RunExecutionConfig :=
  match x with inr p => p | inl _ => (empty_db, demo_config) end.

Lemma run_config_is_frozen_witness :
  let p := config_result (ensureRunExecutionConfig "run" (Some demo_config) demo_db) in
  p.2 = demo_config /\
  let d := (workflow_run p.1 demo_ops).1 in
  ensureRunExecutionConfig "run" (Some (mkRunConfig (Some "other") None None)) d = inr (d, demo_config).
Proof.
  intros p. split; [vm_compute; reflexivity|].
  apply (run_config_is_frozen demo_db "run" (Some demo_config) p.1 demo_config demo_ops _ demo_db_ok).
  vm_compute. reflexivity.
Defined.

(** The demo with both jobs running when the process dies. *)
Definition demo_crash : list WorkflowOp := demo_setup ++ [w_claim None 10; w_claim None 11].

Lemma recovery_leaves_nothing_running_witness :
  job_status <$> jobs (workflow_run empty_db demo_crash).1 = [JOB_RUNNING; JOB_RUNNING] /\
  exists d' n, recoverOrphanedJobs 20 (workflow_run empty_db demo_crash).1 = inr (d', n) /\
    forall j, In j (jobs d') -> job_status j <> JOB_RUNNING.
Proof.
  split; [vm_compute; reflexivity|].
  destruct (recovery_leaves_nothing_running 20 (workflow_run empty_db demo_crash).1
    (tr_ok _ _ _ _ (workflow_run_ok None demo_crash empty_db empty_db_ok))) as (d' & n & E & H & _).
  exact (ex_intro _ d' (ex_intro _ n (conj E H))).
Defined.

Definition claim_result (x : throws (Db * option Job)) : Db * option Job :=
  match x with inr p => p | inl _ => (empty_db, None) end.

Lemma claim_takes_the_best_witness :
  let p := claim_result (claimNextJob None 10 demo_db) in
  (job_id <$> (job_row <$> p.2)) = Some "job" /\
  match p.2 with
  | Some j => forall later, later < 10 + DEFAULT_LEASE_MS -> claim_ready later (job_row j) = false
  | None => False
  end.
Proof.
  intros p. split; [vm_compute; reflexivity|].
  assert (claimNextJob None 10 demo_db = inr (p.1, p.2)) as E by (vm_compute; reflexivity).
  pose proof (claim_takes_the_best None 10 demo_db p.1 p.2 demo_db_ok E) as H.
  destruct p.2 as [j|] eqn:Ep.
  - destruct H as (r & _ & _ & _ & _ & _ & _ & _ & H). exact H.
  - vm_compute in Ep. discriminate Ep.
Defined.
