(* ===== verification/EffectBoundary.v ===== *)
(** * The effect boundary of workflows (workflows/runtime/effect-boundary.ts,
    effect-context.ts, db/repos/workflow-effect.ts)

    A workflow step that acts on the world goes through
    [WorkflowEffectBoundary.invoke]: the effect gets a durable identity, its
    arguments are frozen, the authority engine and an approval clear it, and a
    compare-and-set on its row is the fence before the dispatch. [invoke] awaits
    twice, so it is three steps: [invoke_begin], [invoke_delivered] after the
    notification of a new approval, and [invoke_finish] when the dispatched
    callback has settled; any other operation can run in between. [sha256] is the
    hash of [createHash]; the other services are the models of the files
    imported. Only the columns of a flow version that are read are kept. *)
From S2P Require Export WorkflowDb FlowGraph Approval Learner.

(** ** Outcomes (actions/action-outcome.ts) *)

Inductive FailureStatus := failure_blocked | failure_error | failure_unknown.
Record ActionFailure := mkFailure {
  failure_status : FailureStatus; failure_code : string; failure_message : string; not_started_effect : bool }.

Inductive ActionOutcome := outcome_succeeded | outcome_failure (f : ActionFailure).

(** What can be thrown: an [ActionOutcomeError] or another error. *)
Inductive EffectError := outcome_error (f : ActionFailure) | plain_error (msg : string).

Definition failure_name (s : FailureStatus) : string :=
  match s with failure_blocked => "blocked" | failure_error => "error" | failure_unknown => "unknown" end.

Definition error_text (e : EffectError) : string :=
  match e with
  | outcome_error f => if truthy (failure_message f) then failure_message f
                       else failure_name (failure_status f) +:+ ": " +:+ failure_code f
  | plain_error m => m
  end.

(** ** Data *)

Inductive EffectStatus :=
  | effect_pending | effect_dispatching | effect_succeeded | effect_failed | effect_blocked | effect_unknown.

#[export] Instance EffectStatus_eq_dec : EqDecision EffectStatus.
Proof. solve_decision. Defined.

Definition effect_status_name (s : EffectStatus) : string :=
  match s with
  | effect_pending => "pending" | effect_dispatching => "dispatching" | effect_succeeded => "succeeded"
  | effect_failed => "failed" | effect_blocked => "blocked" | effect_unknown => "unknown"
  end.

Record FlowVersion := mkVersion {
  version_id : string; version_flow_id : string; version_display_name : string; version_trigger : json }.

#[export] Instance version_row_key : Row FlowVersion := version_id.

(** The columns that identify and freeze an effect, and those that follow its life. *)
Record EffectIdentity := mkIdentity {
  ef_id : string; ef_runId : string; ef_projectId : string; ef_flowId : string; ef_versionId : string;
  versionDigest : string; ef_stepName : string; ef_executionPath : list (string * Z); ef_route : string;
  ef_toolName : string; ef_actionCategory : ActionCategory; requestDigest : string;
  ef_arguments : params; ef_target : params; provenance : params; ef_createdAt : Z }.

Record WorkflowEffect := mkEffect {
  identity : EffectIdentity;
  eff_decision : string; eff_reason : string; eff_status : EffectStatus;
  eff_approvalId : option string; eff_waitpointId : option string;
  eff_result : option json; eff_error : option string; finishedAt : option Z; eff_outcome : option ActionFailure }.

Definition eff_id (e : WorkflowEffect) : string := ef_id (identity e).
#[export] Instance effect_row_key : Row WorkflowEffect := eff_id.

Record WorkflowEffectContext := mkContext {
  ctx_runId : string; ctx_projectId : string; ctx_sandboxId : option string;
  ctx_stepName : option string; ctx_executionPath : option (list (string * Z)) }.

Record EffectPrincipal := mkPrincipal {
  pr_agentId : string; pr_agentRoleId : string; pr_agentAuthorityLevel : Z; pr_profile : option AuthorityProfile }.

(** [confirmation] is its intent, the mode being always ['always']. *)
Record EffectInvocation := mkInvocation {
  in_context : WorkflowEffectContext; in_piece : string; in_action : string; in_route : string;
  in_toolName : string; in_category : ActionCategory; in_toolCategory : string;
  in_categories : option (list ActionCategory); in_request : json; in_confirmation : option string;
  in_prepare : EffectError + (params * params); in_validateTarget : params -> params -> option EffectError;
  in_principal : option EffectPrincipal; in_approvalRequired : bool }.

(** The daemon's state around the boundary, and which services are wired. *)
Record EffectWorld := mkEffectWorld {
  ew_db : Db; ew_versions : list FlowVersion; ew_effects : list WorkflowEffect; ew_mgr : Manager;
  ew_trail : list AuditEntry; ew_emergency : EmergencyState; ew_config : AuthorityConfig;
  ew_wired : bool; ew_has_approvals : bool }.

Definition set_effects (t : list WorkflowEffect) (w : EffectWorld) : EffectWorld :=
  mkEffectWorld (ew_db w) (ew_versions w) t (ew_mgr w) (ew_trail w) (ew_emergency w) (ew_config w) (ew_wired w) (ew_has_approvals w).
Definition set_trail (t : list AuditEntry) (w : EffectWorld) : EffectWorld :=
  mkEffectWorld (ew_db w) (ew_versions w) (ew_effects w) (ew_mgr w) t (ew_emergency w) (ew_config w) (ew_wired w) (ew_has_approvals w).
Definition set_mgr (m : Manager) (w : EffectWorld) : EffectWorld :=
  mkEffectWorld (ew_db w) (ew_versions w) (ew_effects w) m (ew_trail w) (ew_emergency w) (ew_config w) (ew_wired w) (ew_has_approvals w).
Definition set_db (d : Db) (w : EffectWorld) : EffectWorld :=
  mkEffectWorld d (ew_versions w) (ew_effects w) (ew_mgr w) (ew_trail w) (ew_emergency w) (ew_config w) (ew_wired w) (ew_has_approvals w).

(** ** The effect table (db/repos/workflow-effect.ts) *)

Definition getWorkflowEffect (id : string) (w : EffectWorld) : option WorkflowEffect := get_row id (ew_effects w).

Definition overwrite_effect (e old : WorkflowEffect) : WorkflowEffect :=
  if bool_decide (eff_id old = eff_id e) then e else old.

#[export] Instance overwrite_effect_key e : KeepsKey (overwrite_effect e).
Proof. intros r. unfold overwrite_effect. by case_bool_decide. Qed.

(** [INSERT ... ON CONFLICT(id) DO UPDATE]; the run of an effect is part of its id. *)
Definition saveWorkflowEffect (e : WorkflowEffect) (w : EffectWorld) : EffectWorld :=
  match insert_row e (ew_effects w) with
  | Some t => set_effects t w
  | None => set_effects (update_where (key_is (eff_id e) (fun _ => true)) (overwrite_effect e) (ew_effects w)).1 w
  end.

Definition with_effect_status (s : EffectStatus) (e : WorkflowEffect) : WorkflowEffect :=
  mkEffect (identity e) (eff_decision e) (eff_reason e) s (eff_approvalId e) (eff_waitpointId e)
    (eff_result e) (eff_error e) (finishedAt e) (eff_outcome e).

Definition is_pending_effect (e : WorkflowEffect) : bool := bool_decide (eff_status e = effect_pending).

(** The dispatch fence: compare and set on the status. *)
Definition claimWorkflowEffect (e : WorkflowEffect) (w : EffectWorld) : EffectWorld * bool :=
  let (t, changes) := update_where (key_is (eff_id e) is_pending_effect)
                        (overwrite_effect (with_effect_status effect_dispatching e)) (ew_effects w) in
  (set_effects t w, (changes =? 1)%nat).

Definition listWorkflowEffects (runId : string) (w : EffectWorld) : list WorkflowEffect :=
  select_where (fun e => bool_decide (ef_runId (identity e) = runId)) (ew_effects w).

(** ** Identity (effect-context.ts) *)

(** [Object.keys(item).sort()] at every object, by code units. *)
Definition key_le {A} (a b : string * A) : bool := String.leb (fst a) (fst b).

Fixpoint canonical (v : json) : json :=
  match v with
  | JArr l => JArr (map canonical l)
  | JObj fs => JObj (sort_by key_le (map (fun kv => (fst kv, canonical (snd kv))) fs))
  | _ => v
  end.

Definition canonicalJson (v : json) : string := stringify (canonical v).

Definition path_json (p : list (string * Z)) : json := JArr (map (fun part => JArr [JStr (fst part); JNum (snd part)]) p).

Definition MAX_SAFE_INTEGER : Z := 2 ^ 53 - 1.

Definition status_text (s : FlowRunStatus) : string :=
  match s with
  | RUN_QUEUED => "QUEUED" | RUN_RUNNING => "RUNNING" | RUN_SUCCEEDED => "SUCCEEDED" | RUN_FAILED => "FAILED"
  | RUN_PAUSED => "PAUSED" | RUN_TIMEOUT => "TIMEOUT" | RUN_INTERNAL_ERROR => "INTERNAL_ERROR"
  | RUN_QUOTA_EXCEEDED => "QUOTA_EXCEEDED" | RUN_STOPPED => "STOPPED"
  | RUN_MEMORY_LIMIT_EXCEEDED => "MEMORY_LIMIT_EXCEEDED" | RUN_SCHEDULE_FAILURE => "SCHEDULE_FAILURE"
  end.

Record ResolvedContext := mkResolved {
  rc_run : FlowRunRow; rc_version : FlowVersion; rc_stepName : string; rc_executionPath : list (string * Z);
  rc_versionDigest : string }.

Definition node_setting (k : string) (node : json) : option json := jget "settings" node ≫= jget k.

Definition path_part_ok (nodes : list json) (part : string * Z) : bool :=
  (0 <=? snd part) && (snd part <=? MAX_SAFE_INTEGER) &&
  existsb (fun n => jstr_is (jget "name" n) (fst part) && jstr_is (jget "type" n) "LOOP_ON_ITEMS") nodes.

Section boundary.
Context (sha256 : string -> string).

Definition digest (v : json) : string := sha256 (canonicalJson v).

Definition resolveEffectContext (ctx : WorkflowEffectContext) (piece action : string) (w : EffectWorld)
    : throws ResolvedContext :=
  match getFlowRun (ctx_runId ctx) (ew_db w) with
  | None => inl "Workflow effect identity does not match the run"
  | Some run =>
      if negb (bool_decide (run_project_id run = ctx_projectId ctx)) then inl "Workflow effect identity does not match the run"
      else if negb (bool_decide (run_status run = RUN_RUNNING))
      then inl ("Workflow effect blocked: run is " +:+ status_text (run_status run))
      else match get_row (run_flow_version_id run) (ew_versions w) with
           | None => inl "Workflow version is unavailable"
           | Some version =>
               if negb (bool_decide (version_flow_id version = run_flow_id run)) then inl "Workflow version is unavailable"
               else
                 let nodes := walkFlowNodes (Some (version_trigger version)) in
                 match ctx_stepName ctx with
                 | None => inl "Workflow effect step does not match the pinned version"
                 | Some step =>
                     match List.filter (fun n => jstr_is (jget "name" n) step) nodes with
                     | [node] =>
                         if negb (truthy step) || negb (jstr_is (node_setting "pieceName" node) piece) ||
                            negb (jstr_is (node_setting "actionName" node) action)
                         then inl "Workflow effect step does not match the pinned version"
                         else match ctx_executionPath ctx with
                              | Some path =>
                                  if (32 <? length path)%nat || negb (forallb (path_part_ok nodes) path)
                                  then inl "Workflow effect requires a valid runtime execution path"
                                  else inr (mkResolved run version step path (digest (version_trigger version)))
                              | None => inl "Workflow effect requires a valid runtime execution path"
                              end
                     | _ => inl "Workflow effect step does not match the pinned version"
                     end
                 end
           end
  end.

Definition workflowEffectId (runId stepName : string) (path : list (string * Z)) (route : string) : string :=
  "wfe_" +:+ digest (JArr [JStr runId; JStr stepName; path_json path; JStr route]).

(** ** Policy *)

Definition default_principal (runId : string) : EffectPrincipal :=
  mkPrincipal ("workflow:" +:+ runId) "workflow-default" 0 None.

(** [input.categories?.length ? input.categories : [input.category]] *)
Definition effect_categories (i : EffectInvocation) : list ActionCategory :=
  match in_categories i with Some (c :: l) => c :: l | _ => [in_category i] end.

Definition effect_check (w : EffectWorld) (hour : Z) (i : EffectInvocation) (runId : string) (c : ActionCategory) : AuthorityDecision :=
  let who := in_principal i ?? default_principal runId in
  checkAuthority (ew_config w) hour
    (mkCheck (pr_agentId who) (pr_agentAuthorityLevel who) (pr_agentRoleId who) (in_toolName i) (in_toolCategory i) c ∅ (pr_profile who)).

Definition require_approval (d : AuthorityDecision) (why : string) : AuthorityDecision :=
  mkDecision (allowed d) true (reason d +:+ why) (actionCategory d) (contextRule d) (profileLabel d) (deniedByLevel d).

Definition policy (w : EffectWorld) (hour : Z) (i : EffectInvocation) (runId : string) : throws AuthorityDecision :=
  let state := ew_emergency w in
  let configured := emergency_state (ew_config w) in
  if negb (bool_decide (state = normal)) || negb (bool_decide (configured = normal))
  then inl ("Workflow effect blocked: system " +:+
            state_name (if bool_decide (state = normal) then configured else state))
  else match getFlowRun runId (ew_db w) with
       | None => inl "Workflow effect blocked: run is missing"
       | Some run =>
           if negb (bool_decide (run_status run = RUN_RUNNING))
           then inl ("Workflow effect blocked: run is " +:+ status_text (run_status run))
           else if negb (run_not_canceled runId (ew_db w)) then inl (canceled_message runId)
           else match combineDecisions (map (effect_check w hour i runId) (effect_categories i)) with
                | None => inl "Reduce of empty array with no initial value"
                | Some d =>
                    if negb (allowed d) then inl ("Authority denied " +:+ in_toolName i +:+ ": " +:+ reason d)
                    else match in_confirmation i with
                         | Some _ => inr (require_approval d ("; " +:+ in_toolName i +:+ " requires user review of uncertain UI effects"))
                         | None => if in_approvalRequired i && negb (requiresApproval d)
                                   then inr (require_approval d "; approval required by the calling gate")
                                   else inr d
                         end
                end
       end.

(** ** The audit row of an effect *)

Definition log_effect (r : ResolvedContext) (i : EffectInvocation) (e : WorkflowEffect) (executed : bool)
    (audit_id : string) (now : Z) (w : EffectWorld) : EffectWorld :=
  let judged := match in_principal i with
                | Some p => " / as " +:+ pr_agentRoleId p +:+ " (level " +:+ show_z (pr_agentAuthorityLevel p) +:+ ")"
                | None => EmptyString
                end in
  let decision := if bool_decide (eff_decision e = "denied") then audit_denied
                  else match eff_approvalId e with Some a => if truthy a then audit_approval_required else audit_allowed | None => audit_allowed end in
  set_trail (log (ew_trail w) audit_id now
    (mkAudit EmptyString ("workflow:" +:+ ef_runId (identity e))
       ("Workflow " +:+ version_display_name (rc_version r) +:+ " / " +:+ ef_stepName (identity e) +:+ " / " +:+ eff_id e +:+ judged)
       (ef_toolName (identity e)) (in_category i) decision (eff_approvalId e) executed None 0 None)) w.

(** [auditRefusal]: a capability refused before a record could exist. *)
Definition auditRefusal (ctx : WorkflowEffectContext) (tool : string) (category : ActionCategory) (audit_id : string) (now : Z)
    (w : EffectWorld) : EffectWorld :=
  let step := stake 120 (ctx_stepName ctx ?? "unknown step") in
  set_trail (log (ew_trail w) audit_id now
    (mkAudit EmptyString ("workflow:" +:+ ctx_runId ctx) ("Workflow " +:+ ctx_runId ctx +:+ " / " +:+ step) tool category
       audit_denied None false None 0 None)) w.

(** A record that ends without its effect: blocked, with the error and the time. *)
Definition block_effect (decision why : string) (rsn : string) (outcome : option ActionFailure) (now : Z) (e : WorkflowEffect) : WorkflowEffect :=
  mkEffect (identity e) decision rsn effect_blocked (eff_approvalId e) (eff_waitpointId e) (eff_result e)
    (Some why) (Some now) (match outcome with Some _ => outcome | None => eff_outcome e end).

(** ** invoke *)

Inductive EffectReply := reply_result (v : json) | reply_approval (effectId approvalId waitpointId : string).

(** Where a step of [invoke] stops: settled, at the notification of a new
    approval, or at the dispatched callback with its copy of the arguments. *)
Inductive InvokeStep :=
  | effect_throws (e : EffectError)
  | effect_replies (r : EffectReply)
  | effect_delivering (r : ResolvedContext) (e : WorkflowEffect)
  | effect_dispatched (r : ResolvedContext) (e : WorkflowEffect) (args : json).

(** The answer a record that is no longer pending gives. *)
Definition settled_answer (e : WorkflowEffect) (otherwise : string) : option InvokeStep :=
  match eff_status e with
  | effect_succeeded => Some (effect_replies (reply_result (eff_result e ?? JNull)))
  | _ =>
      match eff_outcome e with
      | Some f => Some (effect_throws (outcome_error f))
      | None =>
          match eff_status e with
          | effect_pending => None
          | effect_dispatching => Some (effect_throws (plain_error "Workflow effect outcome is uncertain or still in flight; automatic replay is blocked"))
          | _ => Some (effect_throws (plain_error (eff_error e ?? otherwise)))
          end
      end
  end.

(** The re-check right before the claim; [None] when it passes. *)
Definition checkpoint (w : EffectWorld) (hour : Z) (i : EffectInvocation) (e : WorkflowEffect) : option EffectError :=
  match in_validateTarget i (ef_arguments (identity e)) (ef_target (identity e)) with
  | Some err => Some err
  | None =>
      match resolveEffectContext (in_context i) (in_piece i) (in_action i) w with
      | inl m => Some (plain_error m)
      | inr latest =>
          if negb (bool_decide (rc_versionDigest latest = versionDigest (identity e)))
          then Some (plain_error "Workflow version changed before dispatch")
          else match policy w hour i (ef_runId (identity e)) with
               | inl m => Some (plain_error m)
               | inr current =>
                   match eff_approvalId e with
                   | Some a => if negb (bool_decide (req_status <$> getRequest (ew_mgr w) a = Some approved))
                               then Some (plain_error "Workflow approval is no longer approved; dispatch blocked")
                               else None
                   | None => if requiresApproval current
                             then Some (plain_error "Workflow Authority now requires approval; effect was not dispatched")
                             else None
                   end
               end
      end
  end.

(** From the re-check to the callback. *)
Definition dispatch_effect (w : EffectWorld) (hour : Z) (i : EffectInvocation) (r : ResolvedContext) (e : WorkflowEffect)
    (audit_id : string) (now : Z) : EffectWorld * InvokeStep :=
  match checkpoint w hour i e with
  | Some (outcome_error f) =>
      let e' := block_effect (eff_decision e) (error_text (outcome_error f)) (eff_reason e) (Some f) now e in
      (log_effect r i e' false audit_id now (saveWorkflowEffect e' w), effect_throws (outcome_error f))
  | Some err => (w, effect_throws err)
  | None =>
      let (w', claimed) := claimWorkflowEffect e w in
      if claimed then (w', effect_dispatched r e (canonical (JObj (ef_arguments (identity e)))))
      else (w', effect_throws (plain_error "Workflow effect was already claimed; replay blocked"))
  end.

Definition approval_status_name (s : ApprovalStatus) : string :=
  match s with pending => "pending" | approved => "approved" | denied => "denied" | expired => "expired" | executed => "executed" end.

(** The recorded approval, read back, then the dispatch. *)
Definition settle_approval (w : EffectWorld) (hour : Z) (i : EffectInvocation) (r : ResolvedContext) (e : WorkflowEffect)
    (approvalId : string) (audit_id : string) (now : Z) : EffectWorld * InvokeStep :=
  let mismatch := (w, effect_throws (plain_error "Workflow approval does not match the recorded effect")) in
  match getRequest (ew_mgr w) approvalId with
  | None => mismatch
  | Some approval =>
      if negb (bool_decide (execution_mode approval = workflow)) then mismatch
      else match parse (tool_arguments approval) with
           | None => (w, effect_throws (plain_error "JSON Parse error"))
           | Some v =>
               if negb (bool_decide (digest v = digest (JObj (ef_arguments (identity e))))) then mismatch
               else if negb (is_null (in_confirmation i)) && negb (approvalNeedsClick (context approval))
               then (w, effect_throws (plain_error "Workflow approval predates required UI review; start a new reviewed run"))
               else match req_status approval with
                    | pending => (w, effect_replies (reply_approval (eff_id e) (req_id approval) (eff_waitpointId e ?? "null")))
                    | approved => dispatch_effect w hour i r e audit_id now
                    | s =>
                        let why := "Workflow approval " +:+ approval_status_name s +:+ "; effect was not executed" in
                        let e' := block_effect "denied" why (eff_reason e) None now e in
                        (log_effect r i e' false audit_id now (saveWorkflowEffect e' w), effect_throws (plain_error why))
                    end
           end
  end.

Definition set_reason (why : string) (e : WorkflowEffect) : WorkflowEffect :=
  mkEffect (identity e) (eff_decision e) why (eff_status e) (eff_approvalId e) (eff_waitpointId e)
    (eff_result e) (eff_error e) (finishedAt e) (eff_outcome e).
Definition set_decision (d : string) (e : WorkflowEffect) : WorkflowEffect :=
  mkEffect (identity e) d (eff_reason e) (eff_status e) (eff_approvalId e) (eff_waitpointId e)
    (eff_result e) (eff_error e) (finishedAt e) (eff_outcome e).
Definition set_approval (approvalId waitpointId : string) (e : WorkflowEffect) : WorkflowEffect :=
  mkEffect (identity e) "approval_required" (eff_reason e) (eff_status e) (Some approvalId) (Some waitpointId)
    (eff_result e) (eff_error e) (finishedAt e) (eff_outcome e).

Definition opt_str (o : option string) : json := match o with Some s => JStr s | None => JNull end.

Definition environment_text (e : RunEnvironment) : string := match e with PRODUCTION => "PRODUCTION" | TESTING => "TESTING" end.

(** The record of an effect seen for the first time. *)
Definition new_effect (id : string) (now : Z) (i : EffectInvocation) (r : ResolvedContext) (prepared : params * params) : WorkflowEffect :=
  let frozen ps := match canonical (JObj ps) with JObj fs => fs | _ => [] end in
  mkEffect (mkIdentity id (run_id (rc_run r)) (run_project_id (rc_run r)) (run_flow_id (rc_run r)) (version_id (rc_version r))
      (rc_versionDigest r) (rc_stepName r) (rc_executionPath r) (in_route i) (in_toolName i) (in_category i)
      (digest (in_request i)) (frozen prepared.1) (frozen prepared.2)
      [("source", JStr "workflow-runtime"); ("sandboxId", opt_str (ctx_sandboxId (in_context i))); ("machineBindingVersion", JNum 1);
       ("triggeredBy", opt_str (triggered_by (rc_run r))); ("environment", JStr (environment_text (environment (rc_run r))));
       ("piece", JStr (in_piece i)); ("action", JStr (in_action i))] now)
    "unresolved" EmptyString effect_pending None None None None None None.

Definition effect_changed (e : WorkflowEffect) (i : EffectInvocation) (r : ResolvedContext) : bool :=
  negb (bool_decide (requestDigest (identity e) = digest (in_request i))) ||
  negb (bool_decide (versionDigest (identity e) = rc_versionDigest r)) ||
  negb (bool_decide (ef_toolName (identity e) = in_toolName i)) ||
  negb (bool_decide (ef_actionCategory (identity e) = in_category i)).

(** The card of a new approval. *)
Definition card_intent (i : EffectInvocation) (e : WorkflowEffect) : option string :=
  match assoc_get "intent" (ef_target (identity e)) with
  | Some (JStr s) => Some s
  | _ => in_confirmation i
  end.

Definition card_context (i : EffectInvocation) (e : WorkflowEffect) : string :=
  canonicalJson (JObj ([("effectId", JStr (eff_id e)); ("runId", JStr (ef_runId (identity e))); ("versionId", JStr (ef_versionId (identity e)));
      ("stepName", JStr (ef_stepName (identity e))); ("executionPath", path_json (ef_executionPath (identity e)));
      ("target", JObj (ef_target (identity e)))] ++
    (if is_null (in_confirmation i) then [] else [("confirm", JStr "always")]) ++
    match card_intent i e with Some s => if truthy s then [("intent", JStr s)] else [] | None => [] end)).

Definition approval_card (i : EffectInvocation) (r : ResolvedContext) (e : WorkflowEffect) (d : AuthorityDecision) : CreateParams :=
  mkCreate ("workflow:" +:+ ef_runId (identity e))
    ("Workflow: " +:+ version_display_name (rc_version r) +:+
     match in_principal i with Some p => " as " +:+ pr_agentRoleId p | None => EmptyString end)
    (in_toolName i) (ef_arguments (identity e)) (actionCategory d)
    (if bool_decide (actionCategory d = make_payment) then urgent else normal_urgency) (reason d) (card_context i e)
    (Some workflow) None.

(** The transaction that asks: request, waitpoint, record and audit row, or nothing. *)
Definition ask_effect_approval (w : EffectWorld) (i : EffectInvocation) (r : ResolvedContext) (e : WorkflowEffect) (d : AuthorityDecision)
    (approvalId waitpointId audit_id : string) (now : Z) : throws (EffectWorld * WorkflowEffect) :=
  match createRequest (fun _ => []) (ew_mgr w) approvalId now (approval_card i r e d) with
  | None => inl "UNIQUE constraint failed: approval_requests.id"
  | Some (m, request) =>
      match createWaitpoint waitpointId now
              (mkCreateWaitpoint (ef_runId (identity e)) (ef_projectId (identity e)) (ef_stepName (identity e)) MANUAL None None None None None)
              (ew_db w) with
      | inl msg => inl msg
      | inr (d', wp) =>
          let e' := set_approval (req_id request) (wp_id wp) e in
          inr (log_effect r i e' false audit_id now (saveWorkflowEffect e' (set_db d' (set_mgr m w))), e')
      end
  end.

(** [invoke] from a pending record to the notification or the callback. *)
Definition invoke_pending (w : EffectWorld) (hour : Z) (i : EffectInvocation) (r : ResolvedContext) (e : WorkflowEffect)
    (approvalId waitpointId audit_id : string) (now : Z) : EffectWorld * InvokeStep :=
  match policy w hour i (ef_runId (identity e)) with
  | inl msg =>
      let e' := block_effect "denied" msg msg None now e in
      (log_effect r i e' false audit_id now (saveWorkflowEffect e' w), effect_throws (plain_error msg))
  | inr d =>
      let e1 := set_reason (reason d) e in
      match eff_approvalId e1, requiresApproval d with
      | None, false => dispatch_effect w hour i r (set_decision "allowed" e1) audit_id now
      | recorded, _ =>
          if negb (ew_has_approvals w)
          then (w, effect_throws (plain_error "Workflow approval service unavailable; execution denied"))
          else match recorded with
               | Some a => settle_approval w hour i r e1 a audit_id now
               | None =>
                   match ask_effect_approval w i r e1 d approvalId waitpointId audit_id now with
                   | inl msg => (w, effect_throws (plain_error msg))
                   | inr (w', e') => (w', effect_delivering r e')
                   end
               end
      end
  end.

Definition invoke_begin (w : EffectWorld) (hour : Z) (i : EffectInvocation) (approvalId waitpointId audit_id : string) (now : Z)
    : EffectWorld * InvokeStep :=
  if negb (ew_wired w) then (w, effect_throws (plain_error "Workflow Authority is unavailable; execution denied"))
  else match resolveEffectContext (in_context i) (in_piece i) (in_action i) w with
  | inl msg => (w, effect_throws (plain_error msg))
  | inr r =>
      let id := workflowEffectId (run_id (rc_run r)) (rc_stepName r) (rc_executionPath r) (in_route i) in
      match getWorkflowEffect id w with
      | Some e =>
          if effect_changed e i r
          then (w, effect_throws (plain_error "Workflow effect changed since it was recorded; start a new run for new arguments or version"))
          else match settled_answer e ("Workflow effect is " +:+ effect_status_name (eff_status e)) with
               | Some step => (w, step)
               | None => invoke_pending w hour i r e approvalId waitpointId audit_id now
               end
      | None =>
          match in_prepare i with
          | inl err => (w, effect_throws err)
          | inr prepared =>
              let e := new_effect id now i r prepared in
              invoke_pending (saveWorkflowEffect e w) hour i r e approvalId waitpointId audit_id now
          end
      end
  end.

(** After the notification: the record may have moved on meanwhile. *)
Definition invoke_delivered (w : EffectWorld) (hour : Z) (i : EffectInvocation) (r : ResolvedContext) (e : WorkflowEffect)
    (audit_id : string) (now : Z) : EffectWorld * InvokeStep :=
  match getWorkflowEffect (eff_id e) w with
  | None => (w, effect_throws (plain_error "Workflow effect is no longer pending"))
  | Some latest =>
      match settled_answer latest "Workflow effect is no longer pending" with
      | Some step => (w, step)
      | None => settle_approval w hour i r e (eff_approvalId e ?? "null") audit_id now
      end
  end.

(** What the callback did: a result ([undefined] is [None]) or an error. *)
Inductive EffectCallback := callback_returns (v : option json) | callback_throws (e : EffectError).

Definition settled_status (f : ActionFailure) : EffectStatus :=
  match failure_status f with failure_error => effect_failed | failure_blocked => effect_blocked | failure_unknown => effect_unknown end.

Definition finished_effect (o : EffectCallback) (now : Z) (e : WorkflowEffect) : WorkflowEffect :=
  let finish s res err out := mkEffect (identity e) (eff_decision e) (eff_reason e) s (eff_approvalId e) (eff_waitpointId e) res err (Some now) out in
  match o with
  | callback_returns v => finish effect_succeeded (Some (v ?? JNull)) (eff_error e) (eff_outcome e)
  | callback_throws (outcome_error f) => finish (settled_status f) (eff_result e) (Some (error_text (outcome_error f))) (Some f)
  | callback_throws (plain_error m) =>
      finish effect_failed (eff_result e) (Some ("Effect dispatch failed; partial effects may have occurred: " +:+ m)) (eff_outcome e)
  end.

Definition invoke_finish (w : EffectWorld) (i : EffectInvocation) (r : ResolvedContext) (e : WorkflowEffect) (o : EffectCallback)
    (audit_id : string) (now : Z) : EffectWorld * InvokeStep :=
  let e' := finished_effect o now e in
  let w1 := saveWorkflowEffect e' w in
  match o with
  | callback_returns v =>
      let receipt := stake 2000 (canonicalJson (JObj [("effectId", JStr (eff_id e)); ("result", v ?? JNull)])) in
      let w2 := match eff_approvalId e with
                | Some a => set_mgr (markExecuted (ew_mgr w1) a receipt receipt_committed now).1 w1
                | None => w1
                end in
      (log_effect r i e' true audit_id now w2, effect_replies (reply_result (v ?? JNull)))
  | callback_throws err => (log_effect r i e' false audit_id now w1, effect_throws err)
  end.
End boundary.

(** ** Lemmas on the table *)

Definition effects_keyed (w : EffectWorld) : Prop := keyed (ew_effects w).

(** A record whose dispatch was decided stays as it is. *)
Definition keeps_settled (w w' : EffectWorld) : Prop :=
  forall id e, getWorkflowEffect id w = Some e -> eff_status e <> effect_pending -> getWorkflowEffect id w' = Some e.

#[export] Instance keeps_settled_preorder : PreOrder keeps_settled.
Proof. split; [by intros w id e|]. intros a b c H1 H2 id e Hg Hs. apply H2; [|done]. by apply H1. Qed.

(** Absent or still pending, and past the fence. *)
Definition not_dispatched (id : string) (w : EffectWorld) : Prop :=
  forall e, getWorkflowEffect id w = Some e -> eff_status e = effect_pending.
Definition fenced (id : string) (w : EffectWorld) : Prop :=
  exists e, getWorkflowEffect id w = Some e /\ eff_status e <> effect_pending.

Lemma not_dispatched_back id w w' : keeps_settled w w' -> not_dispatched id w' -> not_dispatched id w.
Proof.
  intros Hk Hn e Hg. destruct (decide (eff_status e = effect_pending)) as [|Hs]; [done|].
  by apply (Hn e), Hk.
Qed.

Lemma overwritten id e x : eff_id x = id -> eff_id e = id -> overwrite_effect e x = e.
Proof. intros H1 H2. unfold overwrite_effect. rewrite bool_decide_eq_true_2; congruence. Qed.

Lemma save_get e w k : getWorkflowEffect k (saveWorkflowEffect e w) =
  if bool_decide (eff_id e = k) then Some e else getWorkflowEffect k w.
Proof.
  unfold saveWorkflowEffect. destruct (insert_row e (ew_effects w)) as [t|] eqn:Ei; unfold getWorkflowEffect; cbn [set_effects ew_effects].
  - by rewrite (get_row_insert _ _ _ k Ei).
  - case_bool_decide as E.
    + subst k. rewrite get_row_update_key by apply _. unfold insert_row in Ei.
      change (row_key e) with (eff_id e) in Ei. destruct (get_row (eff_id e) (ew_effects w)) as [x|] eqn:Eg; [|done].
      simpl. f_equal. eapply overwritten; [|done]. by apply get_row_Some in Eg as [_ ?].
    + rewrite get_row_update_other; [done|apply _|done].
Qed.

Lemma save_keyed e w : effects_keyed w -> effects_keyed (saveWorkflowEffect e w).
Proof.
  unfold effects_keyed, saveWorkflowEffect. intros H. destruct (insert_row e (ew_effects w)) eqn:Ei; cbn [set_effects ew_effects].
  - by eapply insert_row_keyed.
  - apply update_keyed; [apply _|done].
Qed.

(** Saving over a record that was not dispatched loses nothing. *)
Lemma save_keeps e w : not_dispatched (eff_id e) w -> keeps_settled w (saveWorkflowEffect e w).
Proof.
  intros Hn id x Hg Hs. rewrite save_get. case_bool_decide as E; [|done]. subst id. by apply Hn in Hg.
Qed.

Lemma claim_effect_spec e w w' b : effects_keyed w -> claimWorkflowEffect e w = (w', b) ->
  effects_keyed w' /\ keeps_settled w w' /\
  (b = true -> not_dispatched (eff_id e) w /\ fenced (eff_id e) w').
Proof.
  intros Hk. unfold claimWorkflowEffect. rewrite (surjective_pairing (update_where _ _ _)). intros [<- <-]%pair_equal_spec.
  split_and!.
  - unfold effects_keyed. cbn [set_effects ew_effects]. apply update_keyed; [apply _|done].
  - intros id x Hg Hs. unfold getWorkflowEffect in *. cbn [set_effects ew_effects].
    rewrite (get_row_update (key_is (eff_id e) is_pending_effect) (overwrite_effect _)), Hg.
    cbn [fmap option_fmap option_map]. destruct (key_is _ _ x) eqn:Ek; [|done].
    apply andb_true_iff in Ek as [_ Ek%bool_decide_eq_true]. done.
  - rewrite (update_key_changes (eff_id e) is_pending_effect) by exact Hk. unfold not_dispatched, fenced, getWorkflowEffect.
    cbn [set_effects ew_effects]. rewrite get_row_update_key by apply _.
    destruct (get_row (eff_id e) (ew_effects w)) as [x|] eqn:Eg; [|done].
    destruct (is_pending_effect x) eqn:Ep; [|done]. intros _. apply bool_decide_eq_true in Ep. split.
    + intros y [= <-]. done.
    + eexists. cbn [fmap option_fmap option_map]. split; [done|].
      rewrite (proj2 (bool_decide_eq_true _) Ep : is_pending_effect x = true), (overwritten (eff_id e)); [done| |done].
      by apply get_row_Some in Eg as [_ ?].
Qed.

(** ** The steps of [invoke] *)

Section steps.
Context (sha256 : string -> string).

(** What a step of [invoke] does to the table, whoever runs it. *)
Record step_fine (w w' : EffectWorld) (s : InvokeStep) : Prop := {
  sf_keyed : effects_keyed w';
  sf_keeps : keeps_settled w w';
  sf_dispatch : match s with
                | effect_dispatched _ e _ => not_dispatched (eff_id e) w /\ fenced (eff_id e) w'
                | _ => True
                end }.

Lemma fine_same w s : effects_keyed w -> (forall r e a, s <> effect_dispatched r e a) -> step_fine w w s.
Proof. intros Hk Hs. constructor; [done|reflexivity|]. destruct s; try done. by edestruct Hs. Qed.

Lemma log_effects r i e x a now w : ew_effects (log_effect r i e x a now w) = ew_effects w.
Proof. done. Qed.

Lemma fine_saved r i e b a now w msg : effects_keyed w -> not_dispatched (eff_id e) w ->
  step_fine w (log_effect r i e b a now (saveWorkflowEffect e w)) (effect_throws msg).
Proof.
  intros Hk Hn. constructor; [by apply save_keyed|by apply save_keeps|done].
Qed.

Lemma dispatch_fine w hour i r e a now w' s : effects_keyed w -> not_dispatched (eff_id e) w ->
  dispatch_effect sha256 w hour i r e a now = (w', s) -> step_fine w w' s.
Proof.
  intros Hk Hn. unfold dispatch_effect. destruct (checkpoint _ _ _ _ _) as [[f|m]|].
  - intros [<- <-]%pair_equal_spec. by apply fine_saved.
  - intros [<- <-]%pair_equal_spec. by apply fine_same.
  - destruct (claimWorkflowEffect e w) as [w1 b] eqn:Ec. destruct (claim_effect_spec _ _ _ _ Hk Ec) as (H1 & H2 & H3).
    destruct b; intros [<- <-]%pair_equal_spec; constructor; auto.
Qed.

Lemma settle_fine w hour i r e appr a now w' s : effects_keyed w -> not_dispatched (eff_id e) w ->
  settle_approval sha256 w hour i r e appr a now = (w', s) -> step_fine w w' s.
Proof.
  intros Hk Hn. unfold settle_approval. cbv zeta.
  destruct (getRequest (ew_mgr w) appr) as [q|]; [|intros [<- <-]%pair_equal_spec; by apply fine_same].
  destruct (negb _); [intros [<- <-]%pair_equal_spec; by apply fine_same|].
  destruct (parse _) as [v|]; [|intros [<- <-]%pair_equal_spec; by apply fine_same].
  destruct (negb _); [intros [<- <-]%pair_equal_spec; by apply fine_same|].
  destruct (_ && _); [intros [<- <-]%pair_equal_spec; by apply fine_same|].
  destruct (req_status q); try (intros [<- <-]%pair_equal_spec; by apply fine_saved).
  - intros [<- <-]%pair_equal_spec. by apply fine_same.
  - by apply dispatch_fine.
Qed.

Lemma fine_after w w1 w' s : effects_keyed w -> keeps_settled w w1 -> step_fine w1 w' s -> step_fine w w' s.
Proof.
  intros Hk H [H1 H2 H3]. constructor; [done|by etrans|]. destruct s; try done. destruct H3. split; [|done].
  by eapply not_dispatched_back.
Qed.

Lemma ask_fine w i r e d appr wp a now w' e' : effects_keyed w -> not_dispatched (eff_id e) w ->
  ask_effect_approval w i r e d appr wp a now = inr (w', e') -> effects_keyed w' /\ keeps_settled w w'.
Proof.
  intros Hk Hn. unfold ask_effect_approval. destruct (createRequest _ _ _ _ _) as [[m q]|]; [|done].
  destruct (createWaitpoint _ _ _ _) as [|[d' x]]; [done|]. intros [= <- <-]. split.
  - unfold effects_keyed. rewrite log_effects. by apply save_keyed.
  - intros id y Hg Hs. unfold getWorkflowEffect. rewrite log_effects.
    apply (save_keeps (set_approval (req_id q) (wp_id x) e) (set_db d' (set_mgr m w))); done.
Qed.

Lemma pending_fine w hour i r e appr wp a now w' s : effects_keyed w -> not_dispatched (eff_id e) w ->
  invoke_pending sha256 w hour i r e appr wp a now = (w', s) -> step_fine w w' s.
Proof.
  intros Hk Hn. unfold invoke_pending. destruct (policy w hour i _) as [msg|d].
  { intros [<- <-]%pair_equal_spec. by apply fine_saved. }
  cbv zeta. change (eff_approvalId (set_reason (reason d) e)) with (eff_approvalId e).
  destruct (eff_approvalId e) as [x|].
  - destruct (negb _); [intros [<- <-]%pair_equal_spec; by apply fine_same|]. by apply settle_fine.
  - destruct (requiresApproval d); [|by apply dispatch_fine].
    destruct (negb _); [intros [<- <-]%pair_equal_spec; by apply fine_same|].
    destruct (ask_effect_approval _ _ _ _ _ _ _ _ _) as [m|[w1 e1]] eqn:Ea; intros [<- <-]%pair_equal_spec; [by apply fine_same|].
    apply ask_fine in Ea as [? ?]; [|done..]. by constructor.
Qed.

Lemma begin_fine w hour i appr wp a now w' s : effects_keyed w ->
  invoke_begin sha256 w hour i appr wp a now = (w', s) -> step_fine w w' s.
Proof.
  intros Hk. unfold invoke_begin. destruct (negb (ew_wired w)); [intros [<- <-]%pair_equal_spec; by apply fine_same|].
  destruct (resolveEffectContext _ _ _ _ _) as [m|r]; [intros [<- <-]%pair_equal_spec; by apply fine_same|]. cbv zeta.
  set (id := workflowEffectId _ _ _ _ _). destruct (getWorkflowEffect id w) as [e|] eqn:Eg.
  - destruct (effect_changed _ _ _ _); [intros [<- <-]%pair_equal_spec; by apply fine_same|].
    destruct (settled_answer e _) as [s0|] eqn:Es.
    + intros [<- <-]%pair_equal_spec. apply fine_same; [done|]. intros ? ? ? ->. unfold settled_answer in Es.
      by destruct (eff_status e), (eff_outcome e).
    + apply pending_fine; [done|]. assert (eff_id e = id) as -> by (by apply get_row_Some in Eg as [_ ?]).
      intros x Hx. assert (x = e) as -> by congruence. unfold settled_answer in Es.
      by destruct (eff_status e), (eff_outcome e).
  - destruct (in_prepare i) as [err|p]; [intros [<- <-]%pair_equal_spec; by apply fine_same|].
    set (e := new_effect _ _ _ _ _ _). intros H. eapply fine_after; [done| |eapply pending_fine; [by apply save_keyed| |exact H]].
    + apply save_keeps. intros x Hx. change (eff_id e) with id in Hx. congruence.
    + intros x. rewrite save_get, bool_decide_eq_true_2 by done. by intros [= <-].
Qed.

Lemma delivered_fine w hour i r e a now w' s : effects_keyed w ->
  invoke_delivered sha256 w hour i r e a now = (w', s) -> step_fine w w' s.
Proof.
  intros Hk. unfold invoke_delivered. destruct (getWorkflowEffect (eff_id e) w) as [latest|] eqn:Eg;
    [|intros [<- <-]%pair_equal_spec; by apply fine_same].
  destruct (settled_answer latest _) as [s0|] eqn:Es.
  - intros [<- <-]%pair_equal_spec. apply fine_same; [done|]. intros ? ? ? ->. unfold settled_answer in Es.
    by destruct (eff_status latest), (eff_outcome latest).
  - apply settle_fine; [done|]. intros x Hx. assert (x = latest) as -> by congruence. unfold settled_answer in Es.
    by destruct (eff_status latest), (eff_outcome latest).
Qed.

Lemma finish_effects w i r e o a now :
  ew_effects (invoke_finish w i r e o a now).1 = ew_effects (saveWorkflowEffect (finished_effect o now e) w).
Proof. unfold invoke_finish. destruct o as [v|err]; [|done]. cbv zeta. by destruct (eff_approvalId e). Qed.

Lemma finished_id o now e : eff_id (finished_effect o now e) = eff_id e.
Proof. by destruct o as [v|[f|m]]. Qed.

Lemma finished_settled o now e : eff_status (finished_effect o now e) <> effect_pending.
Proof. destruct o as [v|[f|m]]; simpl; try done. unfold settled_status. by destruct (failure_status f). Qed.
End steps.

(** ** Interleavings *)

(** The steps of any number of invocations, with everything else in the daemon
    (runs, versions, approvals, audit, emergency state, configuration) changing
    in any way between them. *)
Inductive EffectEvent :=
  | ee_invoke (hour : Z) (i : EffectInvocation) (approvalId waitpointId audit_id : string) (now : Z)
  | ee_delivered (hour : Z) (i : EffectInvocation) (r : ResolvedContext) (e : WorkflowEffect) (audit_id : string) (now : Z)
  | ee_finish (i : EffectInvocation) (r : ResolvedContext) (e : WorkflowEffect) (o : EffectCallback) (audit_id : string) (now : Z)
  | ee_elsewhere (others : EffectWorld).

Section traces.
Context (sha256 : string -> string).

(** The new state and the id of the effect dispatched, if any. *)
Definition effect_event (w : EffectWorld) (ev : EffectEvent) : EffectWorld * option string :=
  let dispatched p := (p.1, match p.2 with effect_dispatched _ e _ => Some (eff_id e) | _ => None end) in
  match ev with
  | ee_invoke hour i appr wp a now => dispatched (invoke_begin sha256 w hour i appr wp a now)
  | ee_delivered hour i r e a now => dispatched (invoke_delivered sha256 w hour i r e a now)
  | ee_finish i r e o a now => ((invoke_finish w i r e o a now).1, None)
  | ee_elsewhere others => (set_effects (ew_effects w) others, None)
  end.

Fixpoint effect_events (w : EffectWorld) (evs : list EffectEvent) : EffectWorld * list string :=
  match evs with
  | [] => (w, [])
  | ev :: evs' =>
      let (w1, d) := effect_event w ev in
      let (w2, ds) := effect_events w1 evs' in
      (w2, match d with Some id => id :: ds | None => ds end)
  end.

(** The fence of an effect never reopens. *)
Definition fence_monotone (w w' : EffectWorld) : Prop := forall id, fenced id w -> fenced id w'.

Lemma event_fine w ev : effects_keyed w ->
  effects_keyed (effect_event w ev).1 /\ fence_monotone w (effect_event w ev).1 /\
  (forall id, (effect_event w ev).2 = Some id -> not_dispatched id w /\ fenced id (effect_event w ev).1) /\
  (forall id, match ev with ee_finish _ _ e _ _ _ => eff_id e <> id | _ => True end ->
     forall x, getWorkflowEffect id w = Some x -> eff_status x <> effect_pending ->
     getWorkflowEffect id (effect_event w ev).1 = Some x).
Proof.
  intros Hk.
  assert (forall w' s, step_fine w w' s -> effects_keyed w' /\ fence_monotone w w' /\
    (forall id, match s with effect_dispatched _ e _ => Some (eff_id e) | _ => None end = Some id -> not_dispatched id w /\ fenced id w') /\
    keeps_settled w w') as Hstep.
  { intros w' s [H1 H2 H3]. split_and!; try done.
    - intros id (x & Hg & Hs). exists x. split; [by apply H2|done].
    - intros id. destruct s; try done. by intros [= <-]. }
  destruct ev as [hour i appr wp a now|hour i r e a now|i r e o a now|others]; cbn [effect_event].
  - destruct (invoke_begin _ _ _ _ _ _ _ _) as [w' s] eqn:E. destruct (Hstep _ _ (begin_fine _ _ _ _ _ _ _ _ _ _ Hk E)) as (? & ? & ? & Hks).
    split_and!; try done. intros id _ x. apply Hks.
  - destruct (invoke_delivered _ _ _ _ _ _ _ _) as [w' s] eqn:E. destruct (Hstep _ _ (delivered_fine _ _ _ _ _ _ _ _ _ _ Hk E)) as (? & ? & ? & Hks).
    split_and!; try done. intros id _ x. apply Hks.
  - cbn [fst snd]. unfold effects_keyed, fence_monotone, fenced, getWorkflowEffect. rewrite finish_effects.
    fold (getWorkflowEffect). pose proof (save_get (finished_effect o now e) w) as Hsg. unfold getWorkflowEffect in Hsg.
    pose proof (finished_id o now e) as Hid. rewrite Hid in Hsg. split_and!; [by apply save_keyed| |done|].
    + intros id (x & Hg & Hs). rewrite Hsg. case_bool_decide; [|by exists x]. eexists. split; [done|]. apply finished_settled.
    + intros id Hne x Hg Hs. rewrite Hsg. by rewrite bool_decide_eq_false_2.
  - split_and!; [exact Hk|by intros id H|done|intros id _ x Hx _; exact Hx].
Qed.

Lemma events_fine evs w : effects_keyed w ->
  fence_monotone w (effect_events w evs).1 /\ List.NoDup (effect_events w evs).2 /\
  (forall id, In id (effect_events w evs).2 -> not_dispatched id w /\ fenced id (effect_events w evs).1).
Proof.
  revert w. induction evs as [|ev evs IH]; intros w Hk; cbn [effect_events].
  { split_and!; [by intros id|constructor|done]. }
  destruct (event_fine w ev Hk) as (Hk1 & Hm1 & Hd1 & Hks). destruct (effect_event w ev) as [w1 d]. cbn [fst snd] in *.
  destruct (IH w1 Hk1) as (Hm2 & Hn2 & Hi2). destruct (effect_events w1 evs) as [w2 ds]. cbn [fst snd] in *.
  assert (forall id, not_dispatched id w1 -> not_dispatched id w) as Hback.
  { intros id Hn x Hg. destruct (decide (eff_status x = effect_pending)) as [|Hs]; [done|].
    destruct (Hm1 id) as (y & Hy & Hys); [by exists x|]. by apply Hn in Hy. }
  split_and!.
  - intros id ?. by apply Hm2, Hm1.
  - destruct d as [id|]; [|done]. constructor; [|done]. intros Hin. destruct (Hi2 _ Hin) as [Hn _].
    destruct (Hd1 id eq_refl) as [_ (x & Hx & Hs)]. by apply Hn in Hx.
  - assert (forall id, In id ds -> not_dispatched id w /\ fenced id w2) as Hrest.
    { intros id Hin. destruct (Hi2 _ Hin). split; [by apply Hback|done]. }
    destruct d as [id|]; [|done]. intros id' [<-|Hin]; [|by apply Hrest].
    destruct (Hd1 id eq_refl). split; [done|by apply Hm2].
Qed.
End traces.

(** ** What a dispatch has cleared *)

Section cleared.
Context (sha256 : string -> string).

(** The approval [a] answers for the arguments of [e]. *)
Definition approval_covers (w : EffectWorld) (i : EffectInvocation) (e : WorkflowEffect) (a : string) : Prop :=
  exists q, getRequest (ew_mgr w) a = Some q /\ req_status q = approved /\ execution_mode q = workflow /\
    (exists v, parse (tool_arguments q) = Some v /\ digest sha256 v = digest sha256 (JObj (ef_arguments (identity e)))) /\
    (in_confirmation i <> None -> approvalNeedsClick (context q) = true).

Definition effect_cleared (w : EffectWorld) (hour : Z) (i : EffectInvocation) (e : WorkflowEffect) : Prop :=
  ew_emergency w = normal /\ emergency_state (ew_config w) = normal /\
  (exists run, getFlowRun (ef_runId (identity e)) (ew_db w) = Some run /\ run_status run = RUN_RUNNING) /\
  getRunCancellation (ef_runId (identity e)) (ew_db w) = None /\
  (exists latest, resolveEffectContext sha256 (in_context i) (in_piece i) (in_action i) w = inr latest /\
                  rc_versionDigest latest = versionDigest (identity e)) /\
  in_validateTarget i (ef_arguments (identity e)) (ef_target (identity e)) = None /\
  (forall c, In c (effect_categories i) -> allowed (effect_check w hour i (ef_runId (identity e)) c) = true) /\
  match eff_approvalId e with
  | Some a => approval_covers w i e a
  | None => in_confirmation i = None /\ in_approvalRequired i = false /\
            forall c, In c (effect_categories i) -> requiresApproval (effect_check w hour i (ef_runId (identity e)) c) = false
  end.

Lemma policy_spec w hour i rid d : policy w hour i rid = inr d ->
  ew_emergency w = normal /\ emergency_state (ew_config w) = normal /\
  (exists run, getFlowRun rid (ew_db w) = Some run /\ run_status run = RUN_RUNNING) /\
  getRunCancellation rid (ew_db w) = None /\
  (forall c, In c (effect_categories i) -> allowed (effect_check w hour i rid c) = true) /\
  (requiresApproval d = false -> in_confirmation i = None /\ in_approvalRequired i = false /\
     forall c, In c (effect_categories i) -> requiresApproval (effect_check w hour i rid c) = false).
Proof.
  unfold policy. destruct (negb _ || negb _) eqn:Ee; [done|]. to_prop.
  destruct (getFlowRun rid (ew_db w)) as [run|]; [|done]. destruct (negb _) eqn:Er; [done|]. to_prop.
  destruct (negb (run_not_canceled _ _)) eqn:Ec; [done|]. unfold run_not_canceled in Ec. to_prop.
  destruct (combineDecisions _) as [d0|] eqn:Ed; [|done]. destruct (negb (allowed d0)) eqn:Ea; [done|]. to_prop.
  intros Hd. split_and!; try done; [by exists run| |].
  - intros c Hc. eapply (combine_allowed _ _ Ed); [done|]. by apply in_map.
  - intros Hn. destruct (in_confirmation i); [by simplify_eq|].
    destruct (in_approvalRequired i && negb (requiresApproval d0)) eqn:Eb; [by simplify_eq|]. simplify_eq.
    rewrite Hn, andb_true_r in Eb. split_and!; [done..|]. intros c Hc.
    destruct (requiresApproval (effect_check w hour i rid c)) eqn:Eq; [|done].
    assert (requiresApproval d = true) as Hx; [|congruence]. apply (combine_approval _ _ Ed); [done|].
    eexists. split; [by apply in_map|done].
Qed.

Lemma dispatch_cleared w hour i r e a now w' r' e' args :
  dispatch_effect sha256 w hour i r e a now = (w', effect_dispatched r' e' args) ->
  (forall x, eff_approvalId e = Some x -> approval_covers w i e x) ->
  e' = e /\ effect_cleared w hour i e /\ args = canonical (JObj (ef_arguments (identity e))).
Proof.
  unfold dispatch_effect. destruct (checkpoint _ _ _ _ _) as [[f|m]|] eqn:Ec; [done..|].
  destruct (claimWorkflowEffect e w) as [w1 b]. destruct b; [|done]. intros [= _ _ -> <-] Hcov. split_and!; try done.
  unfold checkpoint in Ec. destruct (in_validateTarget _ _ _) eqn:Ev; [done|].
  destruct (resolveEffectContext _ _ _ _ _) as [|latest] eqn:Er; [done|]. destruct (negb _) eqn:En; [done|]. to_prop.
  destruct (policy w hour i _) as [|d] eqn:Ep; [done|]. apply policy_spec in Ep as (H1 & H2 & H3 & H4 & H5 & H6).
  unfold effect_cleared. split_and!; try done; [by exists latest|].
  destruct (eff_approvalId e') as [x|]; [by apply Hcov|]. apply H6. by destruct (requiresApproval d).
Qed.

Lemma settle_cleared w hour i r e appr a now w' r' e' args :
  settle_approval sha256 w hour i r e appr a now = (w', effect_dispatched r' e' args) ->
  (forall x, eff_approvalId e = Some x -> x = appr) ->
  e' = e /\ effect_cleared w hour i e /\ args = canonical (JObj (ef_arguments (identity e))).
Proof.
  intros H Happr. unfold settle_approval in H. cbv zeta in H.
  destruct (getRequest (ew_mgr w) appr) as [q|] eqn:Eq; [|done]. destruct (negb _) eqn:Em; [done|].
  destruct (parse _) as [v|] eqn:Ev; [|done]. destruct (negb (bool_decide (digest _ _ = _))) eqn:Ed; [done|].
  destruct (_ && _) eqn:Ek; [done|]. to_prop. destruct (req_status q) eqn:Es; try done.
  apply dispatch_cleared in H as (-> & H & ->); [done|]. intros x Hx. rewrite (Happr x Hx). exists q. split_and!; try done.
  - by exists v.
  - intros Hc. apply andb_false_iff in Ek as [Ek|Ek]; to_prop; [|done]. by destruct (in_confirmation i).
Qed.

Lemma pending_cleared w hour i r e appr wp a now w' r' e' args :
  invoke_pending sha256 w hour i r e appr wp a now = (w', effect_dispatched r' e' args) ->
  effect_cleared w hour i e' /\ args = canonical (JObj (ef_arguments (identity e'))).
Proof.
  unfold invoke_pending. destruct (policy w hour i _) as [|d]; [done|]. cbv zeta.
  destruct (eff_approvalId (set_reason (reason d) e)) as [x|] eqn:Ex.
  - destruct (negb _); [done|]. intros H. apply settle_cleared in H as (-> & H & ->); [done|]. intros y Hy. congruence.
  - destruct (requiresApproval d).
    + destruct (negb _); [done|]. by destruct (ask_effect_approval _ _ _ _ _ _ _ _ _) as [|[? ?]].
    + intros H. apply dispatch_cleared in H as (-> & H & ->); [done|]. intros y Hy.
      change (eff_approvalId (set_decision "allowed" (set_reason (reason d) e))) with (eff_approvalId (set_reason (reason d) e)) in Hy.
      congruence.
Qed.

Lemma save_same e w : exists t, saveWorkflowEffect e w = set_effects t w.
Proof. unfold saveWorkflowEffect. destruct (insert_row _ _); eauto. Qed.

Lemma begin_cleared w hour i appr wp a now w' r e args :
  invoke_begin sha256 w hour i appr wp a now = (w', effect_dispatched r e args) ->
  effect_cleared w hour i e /\ args = canonical (JObj (ef_arguments (identity e))).
Proof.
  unfold invoke_begin. destruct (negb _); [done|]. destruct (resolveEffectContext _ _ _ _ _) as [|rc]; [done|].
  cbv zeta. destruct (getWorkflowEffect _ w) as [x|].
  - destruct (effect_changed _ _ _ _); [done|]. destruct (settled_answer x _) as [st|] eqn:Es; [|by apply pending_cleared].
    unfold settled_answer in Es. destruct (eff_status x), (eff_outcome x); by simplify_eq.
  - destruct (in_prepare i) as [|p]; [done|]. intros H. apply pending_cleared in H.
    destruct (save_same (new_effect sha256 (workflowEffectId sha256 (run_id (rc_run rc)) (rc_stepName rc) (rc_executionPath rc) (in_route i)) now i rc p) w) as [t Et].
    rewrite Et in H. exact H.
Qed.

Lemma delivered_cleared w hour i r0 e0 a now w' r e args :
  invoke_delivered sha256 w hour i r0 e0 a now = (w', effect_dispatched r e args) ->
  effect_cleared w hour i e /\ args = canonical (JObj (ef_arguments (identity e))).
Proof.
  unfold invoke_delivered. destruct (getWorkflowEffect _ w) as [x|]; [|done].
  destruct (settled_answer x _) as [st|] eqn:Es.
  - unfold settled_answer in Es. destruct (eff_status x), (eff_outcome x); by simplify_eq.
  - intros H. apply settle_cleared in H as (-> & H & ->); [done|]. intros y Hy. by rewrite Hy.
Qed.
End cleared.

(** ** Theorems *)

(** C2: an effect is dispatched at most once, ever. Over any interleaving of any
    number of invocations (retries, duplicates, a replay after a restart) with
    anything else happening between their steps, the callback of one effect
    identity is entered at most once, and never when its record was already
    dispatched, finished or blocked before. *)
Theorem effect_dispatched_at_most_once sha256 w evs :
  effects_keyed w ->
  List.NoDup (effect_events sha256 w evs).2 /\
  forall id, In id (effect_events sha256 w evs).2 ->
    (forall e, getWorkflowEffect id w = Some e -> eff_status e = effect_pending) /\
    exists e, getWorkflowEffect id (effect_events sha256 w evs).1 = Some e /\ eff_status e <> effect_pending.
Proof. intros Hk. destruct (events_fine sha256 evs w Hk) as (_ & Hn & Hi). split; [done|]. intros id Hin. by apply Hi. Qed.

(** The outcome of an effect is final. A record that is no longer pending
    stays exactly as it is until the callback it was dispatched to settles; and
    every later invocation that names the same effect changes nothing and refuses,
    or, if the effect succeeded, answers with the recorded result. *)
Theorem effect_outcome_is_final sha256 w evs id e :
  effects_keyed w -> getWorkflowEffect id w = Some e -> eff_status e <> effect_pending ->
  (forall i r x o a now, In (ee_finish i r x o a now) evs -> eff_id x <> id) ->
  let w' := (effect_events sha256 w evs).1 in
  getWorkflowEffect id w' = Some e /\
  forall hour i appr wp a now r w2 s,
    resolveEffectContext sha256 (in_context i) (in_piece i) (in_action i) w' = inr r ->
    workflowEffectId sha256 (run_id (rc_run r)) (rc_stepName r) (rc_executionPath r) (in_route i) = id ->
    invoke_begin sha256 w' hour i appr wp a now = (w2, s) ->
    w2 = w' /\
    ((exists err, s = effect_throws err) \/
     eff_status e = effect_succeeded /\ s = effect_replies (reply_result (eff_result e ?? JNull))).
Proof.
  intros Hk Hg Hs Hf w'. assert (getWorkflowEffect id w' = Some e) as Hg'.
  { subst w'. revert w Hk Hg. induction evs as [|ev evs IH]; intros w Hk Hg; [done|]. cbn [effect_events].
    destruct (event_fine sha256 w ev Hk) as (Hk1 & _ & _ & Hks). destruct (effect_event sha256 w ev) as [w1 d].
    cbn [fst] in *. specialize (IH (fun i r x o a now Hin => Hf i r x o a now (or_intror Hin)) w1 Hk1).
    destruct (effect_events sha256 w1 evs) as [w2 ds]. apply IH, Hks; [|done..].
    destruct ev; try done. eapply Hf. by left. }
  split; [done|]. intros hour i appr wp a now r w2 s Hr Hid. unfold invoke_begin.
  destruct (negb (ew_wired w')); [intros [= <- <-]; eauto|]. rewrite Hr. cbv zeta. rewrite Hid, Hg'.
  destruct (effect_changed _ _ _ _); [intros [= <- <-]; eauto|]. unfold settled_answer.
  destruct (eff_status e), (eff_outcome e); try done; intros [= <- <-]; eauto.
Qed.

(** C10: an effect's callback is entered only when everything clears it. At that
    moment the system is in its normal state in both records, the run exists, is
    running and not canceled, the pinned version is the one recorded, the target
    is still valid, and every category the effect reaches is allowed for the
    principal; either none of them asks for an approval, no review is mandatory
    and the calling gate asked for none, or the recorded request is approved, is
    owned by the workflow engine, was asked for these very arguments, and, when
    review is mandatory, demanded the click. The arguments handed over are the
    frozen ones. *)
Theorem effect_dispatch_is_cleared sha256 w hour i r0 e0 appr wp a now w' r e args :
  invoke_begin sha256 w hour i appr wp a now = (w', effect_dispatched r e args) \/
  invoke_delivered sha256 w hour i r0 e0 a now = (w', effect_dispatched r e args) ->
  effect_cleared sha256 w hour i e /\ args = canonical (JObj (ef_arguments (identity e))).
Proof. intros [H|H]; [by apply begin_cleared in H|by apply delivered_cleared in H]. Qed.

(** ** A concrete step *)

(** A flow whose trigger leads to one piece action, its running run, and a
    configuration that governs sending messages. *)
Definition demo_version : FlowVersion :=
  mkVersion "v1" "flow" "Flow" (JObj [("name", JStr "trigger"); ("type", JStr "EMPTY"); ("nextAction",
    JObj [("name", JStr "step_1"); ("type", JStr "PIECE");
          ("settings", JObj [("pieceName", JStr "notify"); ("actionName", JStr "send")])])]).

Definition demo_flow_run : FlowRunRow :=
  mkRun "run" "flow" "v1" "project" None false None RUN_RUNNING PRODUCTION None None None None None None None None None None 0 0.

Definition demo_config : AuthorityConfig :=
  mkConfig 10 [send_message] [] [] (mkLearning false 5) normal.

Definition demo_effect_world : EffectWorld :=
  mkEffectWorld (mkDb [] [demo_flow_run] [] [] []) [demo_version] [] (mkManager [] ∅ "boot") [] normal demo_config true true.

Definition demo_invocation (c : ActionCategory) : EffectInvocation :=
  mkInvocation (mkContext "run" "project" None (Some "step_1") (Some [])) "notify" "send" "notify:send" "notify" c "communication"
    None (JObj [("text", JStr "hello")]) None (inr ([("text", JStr "hello")], [])) (fun _ _ => None) None false.

Definition demo_hash (s : string) : string := s.

Definition no_context : ResolvedContext := mkResolved demo_flow_run demo_version "step_1" [] EmptyString.
Definition no_effect : WorkflowEffect := new_effect demo_hash "none" 0 (demo_invocation read_data) no_context ([], []).

(** The record a step of [invoke] goes on with. *)
Definition step_record (s : InvokeStep) : ResolvedContext * WorkflowEffect :=
  match s with effect_delivering r e | effect_dispatched r e _ => (r, e) | _ => (no_context, no_effect) end.

(** A governed step: asked, approved by the user, dispatched after the delivery,
    settled; then invoked twice more. *)
Definition demo_first : EffectWorld * InvokeStep := invoke_begin demo_hash demo_effect_world 9 (demo_invocation send_message) "appr" "wp" "a1" 1.
Definition demo_approved : EffectWorld := set_mgr (approve (ew_mgr demo_first.1) "appr" "user" 2).1 demo_first.1.
Definition demo_record : ResolvedContext * WorkflowEffect := step_record demo_first.2.

Definition demo_events : list EffectEvent :=
  [ee_invoke 9 (demo_invocation send_message) "appr" "wp" "a1" 1; ee_elsewhere demo_approved;
   ee_delivered 9 (demo_invocation send_message) demo_record.1 demo_record.2 "a2" 3;
   ee_invoke 9 (demo_invocation send_message) "appr2" "wp2" "a3" 4;
   ee_finish (demo_invocation send_message) demo_record.1 demo_record.2 (callback_returns (Some (JStr "sent"))) "a4" 5;
   ee_invoke 9 (demo_invocation send_message) "appr3" "wp3" "a5" 6].

Lemma demo_keyed : effects_keyed demo_effect_world.
Proof. constructor. Qed.

Lemma effect_dispatched_at_most_once_witness :
  (effect_events demo_hash demo_effect_world demo_events).2 = [eff_id demo_record.2] /\
  List.NoDup (effect_events demo_hash demo_effect_world demo_events).2.
Proof.
  split; [vm_compute; reflexivity|].
  apply (effect_dispatched_at_most_once demo_hash demo_effect_world demo_events demo_keyed).
Defined.

Lemma effect_dispatch_is_cleared_witness :
  let p := invoke_delivered demo_hash demo_approved 9 (demo_invocation send_message) demo_record.1 demo_record.2 "a2" 3 in
  match p.2 with
  | effect_dispatched r e args => eff_approvalId e = Some "appr" /\ effect_cleared demo_hash demo_approved 9 (demo_invocation send_message) e
  | _ => False
  end.
Proof.
  intros p. destruct p.2 as [err|rep|r e|r e args] eqn:E; try (vm_compute in E; discriminate E). split.
  - vm_compute in E. injection E as _ <- _. reflexivity.
  - apply (effect_dispatch_is_cleared demo_hash demo_approved 9 (demo_invocation send_message) demo_record.1 demo_record.2
      "appr" "wp" "a2" 3 p.1 r e args). right. rewrite <- E. apply surjective_pairing.
Defined.

(** The state after the callback settled. *)
Definition demo_settled : EffectWorld := (effect_events demo_hash demo_effect_world (take 5 demo_events)).1.

Lemma demo_settled_keyed : effects_keyed demo_settled.
Proof. vm_compute. constructor; [by intros []|constructor]. Qed.

Lemma effect_outcome_is_final_witness :
  exists e, getWorkflowEffect (eff_id demo_record.2) demo_settled = Some e /\ eff_status e = effect_succeeded /\
    getWorkflowEffect (eff_id demo_record.2)
      (effect_events demo_hash demo_settled [ee_invoke 9 (demo_invocation send_message) "appr3" "wp3" "a5" 6]).1 = Some e /\
    (invoke_begin demo_hash demo_settled 9 (demo_invocation send_message) "appr4" "wp4" "a6" 7).2 =
      effect_replies (reply_result (JStr "sent")).
Proof.
  destruct (getWorkflowEffect (eff_id demo_record.2) demo_settled) as [e|] eqn:E; [|vm_compute in E; discriminate E].
  assert (eff_status e = effect_succeeded) as Hs by (vm_compute in E; injection E as <-; reflexivity).
  exists e. split; [reflexivity|]. split; [exact Hs|]. split.
  - apply (effect_outcome_is_final demo_hash demo_settled [ee_invoke 9 (demo_invocation send_message) "appr3" "wp3" "a5" 6]
      (eff_id demo_record.2) e demo_settled_keyed E).
    + rewrite Hs. discriminate.
    + intros i r x o a now [H|[]]. discriminate H.
  - vm_compute. reflexivity.
Defined.
