(* ===== verification/RunHandler.v ===== *)
(** * Running a claimed job (workflows/runner/handler.ts, workflows/sandbox-api/worker-handlers.ts)

    The handler of RUN_FLOW jobs awaits the executor once, so it is two steps,
    [begin_run] and [end_run]; the executor is a parameter of the model: it appears as the
    result or error [end_run] receives. While it runs the engine reports progress,
    which may come late: [updateRunProgress] and [uploadRunLog]. [run_events] runs all
    of these in any order with every operation of [WorkflowOps]. *)
From S2P Require Export WorkflowOps EffectBoundary FlowRepo.

(** ** Data *)

Record RunWorld := mkRunWorld { rw_db : Db; rw_flows : FlowDb }.
Definition with_db (w : RunWorld) (d : Db) : RunWorld := mkRunWorld d (rw_flows w).

(** What an executor throws: a [FlowExecutionError], or another error. *)
Inductive RunError :=
  | step_error (message name display : string) (partial : list (string * json))
  | other_error (message : string).

Definition run_error_text (e : RunError) : string := match e with step_error m _ _ _ | other_error m => m end.

Record ExecutorResult := mkResult { res_paused : bool; res_steps : list (string * json); res_stepsCount : Z }.

(** The context of an executor. *)
Record Execution := mkExecution { x_run : FlowRunRow; x_version : FlowVersionRow; x_job : Job; x_payload : json }.

Inductive Began := began (x : Execution) | finished | refused (message : string).

(** ** The handler *)

(** [payload.executionType], a text when present. *)
Definition execution_type (v : json) : option string := match jget "executionType" v with Some (JStr s) => Some s | _ => None end.
Definition resumes (job : Job) : bool := bool_decide (execution_type (payload job) = Some "RESUME").
Definition expected_status (job : Job) : FlowRunStatus := if resumes job then RUN_PAUSED else RUN_QUEUED.

Definition refusal (job : Job) (runId : string) (run : FlowRunRow) : string :=
  workflowFailureMessage ("RUN_FLOW refused " +:+ (execution_type (payload job) ?? "BEGIN") +:+ " for run " +:+ runId +:+ " in " +:+
    status_text (run_status run) +:+ " (attempt " +:+ show_z (attempt (job_row job)) +:+ ").").

Definition running_patch (start : Z) : UpdateRunInput := mkPatch (Some RUN_RUNNING) None (Some None) (Some None) (Some start) None None.
Definition no_version_patch (now : Z) : UpdateRunInput :=
  mkPatch (Some RUN_INTERNAL_ERROR) None (Some (Some (mkFailedStep "<engine>" "engine" None))) (Some (Some now)) None None None.

(** [updateRun] on a row just read. *)
Definition update_or_same (id : string) (p : UpdateRunInput) (now : Z) (d : Db) : Db :=
  match updateRun id p now d with inl _ => d | inr r => r.1 end.

Definition begin_run (now : Z) (job : Job) (w : RunWorld) : RunWorld * Began :=
  let d := rw_db w in
  match payload_runId (payload job) with
  | None | Some EmptyString => (w, refused ("RUN_FLOW job " +:+ job_id (job_row job) +:+ " missing runId in payload"))
  | Some runId =>
      match getFlowRun runId d with
      | None => (w, finished)
      | Some run =>
          if negb (bool_decide (getRunCancellation runId d = None)) then (w, finished)
          else if negb (attempt (job_row job) =? 1) || negb (bool_decide (run_status run = expected_status job))
          then (w, refused (refusal job runId run))
          else match get_row (run_flow_version_id run) (versions (rw_flows w)) with
               | None => (with_db w (update_or_same runId (no_version_patch now) now d),
                          refused ("RUN_FLOW: flow_version " +:+ run_flow_version_id run +:+ " not found for run " +:+ runId))
               | Some version =>
                   (with_db w (update_or_same runId (running_patch (start_time run ?? now)) now d),
                    began (mkExecution run version job (match jget "payload" (payload job) with Some JNull | None => JObj [] | Some v => v end)))
               end
      end
  end.

Definition steps_map (l : list (string * json)) : gmap string json := list_to_map (rev l).

Definition result_patch (r : ExecutorResult) (now : Z) : UpdateRunInput :=
  mkPatch (Some (if res_paused r then RUN_PAUSED else RUN_SUCCEEDED)) (Some (Some (steps_map (res_steps r)))) None
    (Some (if res_paused r then None else Some now)) None (Some (res_stepsCount r)) None.

Definition failure_patch (e : RunError) (now : Z) : UpdateRunInput :=
  let message := Some (workflowFailureMessage (run_error_text e)) in
  match e with
  | step_error _ name display partial =>
      mkPatch (Some RUN_FAILED) (Some (Some (steps_map partial))) (Some (Some (mkFailedStep name display message))) (Some (Some now)) None
        (Some (Z.of_nat (size (steps_map partial)))) None
  | other_error _ => mkPatch (Some RUN_FAILED) None (Some (Some (mkFailedStep "<engine>" "engine" message))) (Some (Some now)) None None None
  end.

Definition steps_patch (partial : list (string * json)) : UpdateRunInput :=
  mkPatch None (Some (Some (steps_map partial))) None None None None None.

(** The [catch] branch, and whether it rethrows. *)
Definition run_failed (runId : string) (e : RunError) (now : Z) (w : RunWorld) : RunWorld * option RunError :=
  let d := rw_db w in
  match getFlowRun runId d with
  | None => (w, None)
  | Some _ =>
      if negb (bool_decide (getRunCancellation runId d = None))
      then match e with
           | step_error _ _ _ partial => (with_db w (update_or_same runId (steps_patch partial) now d), None)
           | other_error _ => (w, None)
           end
      else (with_db w (update_or_same runId (failure_patch e now) now d), Some e)
  end.

(** The capture of samples swallows its errors. *)
Definition capture (versionId : string) (runSteps : list (string * json)) (now : Z) (f : FlowDb) : FlowDb :=
  match mergeRunOutputsIntoSampleData versionId runSteps now f with inr (_, f') => f' | inl _ => f end.

Definition end_run (now : Z) (x : Execution) (outcome : RunError + ExecutorResult) (w : RunWorld) : RunWorld * option RunError :=
  let runId := run_id (x_run x) in
  match outcome with
  | inl e => run_failed runId e now w
  | inr r =>
      match updateRun runId (result_patch r now) now (rw_db w) with
      | inl e => run_failed runId (other_error e) now w
      | inr (d', _) =>
          let w' := with_db w d' in
          if res_paused r || negb (bool_decide (getRunCancellation runId d' = None)) then (w', None)
          else (mkRunWorld d' (capture (run_flow_version_id (x_run x)) (res_steps r) now (rw_flows w)), None)
      end
  end.

(** ** Messages of the engine (worker-handlers.ts) *)

Definition TERMINAL_RUN_STATUSES : list FlowRunStatus :=
  [RUN_SUCCEEDED; RUN_FAILED; RUN_INTERNAL_ERROR; RUN_TIMEOUT; RUN_QUOTA_EXCEEDED; RUN_STOPPED; RUN_MEMORY_LIMIT_EXCEEDED; RUN_SCHEDULE_FAILURE].
Definition terminal (s : FlowRunStatus) : bool := includes s TERMINAL_RUN_STATUSES.

Definition isStaleWrite (runId : string) (incoming : FlowRunStatus) (d : Db) : bool :=
  if negb (bool_decide (getRunCancellation runId d = None)) then false
  else if terminal incoming then false
  else match getFlowRun runId d with Some row => terminal (run_status row) | None => true end.

(** [sandboxRun] is the run of the sandbox in the registry. *)
Definition updateRunProgress (sandboxRun : option string) (runId : string) (status : FlowRunStatus) (step : option (string * json))
    (now : Z) (d : Db) : Db :=
  if negb (bool_decide (sandboxRun = Some runId)) || isStaleWrite runId status d then d
  else
    let existing := match getFlowRun runId d with Some row => steps row ?? ∅ | None => ∅ end in
    update_or_same runId
      (mkPatch (Some status) (match step with Some (name, out) => Some (Some (<[name := JObj [("output", out)]]> existing)) | None => None end)
         None None None None None) now d.

(** A log as the engine uploads it, dates already parsed. *)
Record RunLog := mkRunLog {
  log_runId : string; log_status : FlowRunStatus; log_failedStep : option (string * string * option string);
  log_stepsCount : option Z; log_finishTime : option Z; log_startTime : option Z; log_logsFileId : option string }.

Definition log_patch (l : RunLog) : UpdateRunInput :=
  mkPatch (Some (log_status l)) None
    (match log_failedStep l with
     | Some (name, display, message) => Some (Some (mkFailedStep name display (keep_truthy_str message)))
     | None => None
     end)
    (match log_finishTime l with Some t => Some (Some t) | None => None end) (log_startTime l) (log_stepsCount l)
    (match keep_truthy_str (log_logsFileId l) with Some f => Some (Some f) | None => None end).

Definition uploadRunLog (sandboxRun : option string) (l : RunLog) (now : Z) (d : Db) : Db :=
  match sandboxRun with
  | None | Some EmptyString => d
  | Some runId =>
      if negb (bool_decide (log_runId l = runId)) || isStaleWrite (log_runId l) (log_status l) d then d
      else update_or_same (log_runId l) (log_patch l) now d
  end.

(** ** Any order *)

Inductive RunEvent :=
  | RunDb (o : WorkflowOp)
  | RunFlows (f : FlowDb)
  | RunBegin (now : Z) (job : Job)
  | RunEnd (now : Z) (x : Execution) (outcome : RunError + ExecutorResult)
  | RunProgress (sandboxRun : option string) (runId : string) (status : FlowRunStatus) (step : option (string * json)) (now : Z)
  | RunLogged (sandboxRun : option string) (l : RunLog) (now : Z).

(** One event, and the execution it starts. *)
Definition run_event (w : RunWorld) (e : RunEvent) : RunWorld * list Execution :=
  match e with
  | RunDb o => (with_db w (workflow_step (rw_db w) o).1, [])
  | RunFlows f => (mkRunWorld (rw_db w) f, [])
  | RunBegin now job => let '(w', b) := begin_run now job w in (w', match b with began x => [x] | _ => [] end)
  | RunEnd now x outcome => ((end_run now x outcome w).1, [])
  | RunProgress s runId status step now => (with_db w (updateRunProgress s runId status step now (rw_db w)), [])
  | RunLogged s l now => (with_db w (uploadRunLog s l now (rw_db w)), [])
  end.

Fixpoint run_events (w : RunWorld) (es : list RunEvent) : RunWorld * list Execution :=
  match es with
  | [] => (w, [])
  | e :: rest =>
      let '(w1, x1) := run_event w e in
      let '(w2, x2) := run_events w1 rest in
      (w2, x1 ++ x2)
  end.

(** ** A run does not go back to QUEUED *)

Definition moved (d d' : Db) : Prop := forall k r, get_row k (runs d) = Some r -> run_status r <> RUN_QUEUED ->
  exists r', get_row k (runs d') = Some r' /\ run_status r' <> RUN_QUEUED.

#[export] Instance moved_preorder : PreOrder moved.
Proof.
  split; [intros d k r H1 H2; by exists r|]. intros a b c H1 H2 k r Hg Hs. destruct (H1 k r Hg Hs) as (r1 & Hg1 & Hs1). by apply (H2 k r1).
Qed.

Lemma moved_same d d' : runs d' = runs d -> moved d d'.
Proof. intros E k r. rewrite E. by exists r. Qed.

Lemma moved_update p (f : FlowRunRow -> FlowRunRow) `{!KeepsKey f} d d' : runs d' = (update_where p f (runs d)).1 ->
  (forall r, In r (runs d) -> p r = true -> run_status r <> RUN_QUEUED -> run_status (f r) <> RUN_QUEUED) -> moved d d'.
Proof.
  intros E Hf k r Hg Hs. rewrite E, (get_row_update p f), Hg. simpl. eexists. split; [done|].
  destruct (p r) eqn:Ep; [|done]. apply Hf; [|done..]. by apply get_row_Some in Hg as [? _].
Qed.

Lemma moved_insert r t d : insert_row r (runs d) = Some t -> moved d (set_runs t d).
Proof.
  intros Hi k x Hg Hs. exists x. split; [|done]. cbn [runs set_runs]. rewrite (get_row_insert _ _ _ k Hi).
  case_bool_decide as E; [|done]. unfold insert_row in Hi. by rewrite E, Hg in Hi.
Qed.

Lemma moved_end p s f finish ts d d' : s <> RUN_QUEUED -> runs d' = (update_where p (with_end s f finish ts) (runs d)).1 -> moved d d'.
Proof. intros Hs E. by apply (moved_update p (with_end s f finish ts)). Qed.

Lemma retire_one_moved ts d j : moved d (retire_one ts d j).
Proof.
  unfold retire_one. cbv zeta. destruct (retired_run_id j) as [rid|]; [|by apply moved_same].
  destruct (truthy rid); [|by apply moved_same]. by eapply (moved_end _ RUN_FAILED).
Qed.

Lemma retire_moved ts boot d : moved d (retireWorkflowRetries ts boot d).
Proof.
  unfold retireWorkflowRetries. cbv zeta. set (d1 := set_jobs _ d). transitivity d1; [by apply moved_same|].
  generalize (select_where (replayed boot) (jobs d1)). intros l. generalize d1. clear d1.
  induction l as [|j l IH]; intros d1; simpl; [reflexivity|]. etrans; [apply retire_one_moved|apply IH].
Qed.

Lemma claim_moved lease now d d' o : claimNextJob lease now d = inr (d', o) -> moved d d'.
Proof.
  unfold claimNextJob. intros H. etrans; [apply (retire_moved now false)|].
  destruct (next_ready _ _) as [r|]; [|by simplify_eq]. destruct (rowToJob _); simplify_eq. by apply moved_same.
Qed.

Lemma apply_cancellation_moved c runId now d : moved d (apply_cancellation c runId now d).1.
Proof.
  unfold apply_cancellation. rewrite (surjective_pairing (update_where (cancels_job _) _ _)). cbv zeta. cbn [fst].
  by eapply (moved_end (key_is runId (fun _ => true)) RUN_STOPPED).
Qed.

Lemma cancel_run_moved runId now d d' r : cancelFlowRun runId now d = inr (d', r) -> moved d d'.
Proof.
  unfold cancelFlowRun. destruct (getFlowRun runId d) as [run|]; [|done].
  destruct (getRunCancellation runId d) as [c|].
  - rewrite (surjective_pairing (apply_cancellation _ _ _ _)). intros [-> _]%inr_pair. apply apply_cancellation_moved.
  - destruct (negb (run_open run)); [by intros [= <- _]|]. cbv zeta. destruct (insert_row _ (cancellations d)) as [t|]; [|done].
    rewrite (surjective_pairing (apply_cancellation _ _ _ _)). intros [-> _]%inr_pair.
    transitivity (set_cancellations t d); [by apply moved_same|apply apply_cancellation_moved].
Qed.

Lemma cancel_each_moved ids now d d' : cancel_each ids now d = inr d' -> moved d d'.
Proof.
  revert d. induction ids as [|id ids IH]; simpl; intros d; [by intros [= ->]|].
  destruct (cancelFlowRun id now d) as [|[d1 r]] eqn:E; [done|]. intros H. etrans; [by eapply cancel_run_moved|by apply IH].
Qed.

Lemma recover_moved ts d d' n : recoverOrphanedJobs ts d = inr (d', n) -> moved d d'.
Proof.
  unfold recoverOrphanedJobs. destruct (recoverCanceledRuns ts d) as [|d0] eqn:E0; [done|]. cbv zeta.
  rewrite (surjective_pairing (update_where retryable _ _)). intros [-> _]%inr_pair.
  etrans; [by eapply cancel_each_moved|]. etrans; [apply (retire_moved ts true)|]. by eapply (moved_end (stranded _) RUN_FAILED).
Qed.

Lemma cancel_job_moved id ts d d' : cancelJob id ts d = inr d' -> moved d d'.
Proof.
  unfold cancelJob. destruct (getJob id d) as [|[job|]]; [done| |by intros [= <-]; apply moved_same].
  destruct (cancel_target job) as [|[runId|]]; [done| |by intros [= <-]; apply moved_same].
  destruct (_ && _); [|by intros [= <-]; apply moved_same].
  destruct (cancelFlowRun runId ts d) as [|[d1 r]] eqn:E; [done|]. intros [= <-]. by eapply cancel_run_moved.
Qed.

Lemma fence_status c r p : p_status p <> Some RUN_QUEUED -> p_status (fence_patch c r p) <> Some RUN_QUEUED.
Proof. by destruct c. Qed.

Lemma update_run_moved id p now d d' r : p_status p <> Some RUN_QUEUED -> updateRun id p now d = inr (d', r) -> moved d d'.
Proof.
  intros Hp. unfold updateRun. destruct (getFlowRun id d) as [existing|]; [|done]. cbv zeta. intros [-> _]%inr_pair.
  eapply (moved_update (key_is id (fun _ => true)) (apply_patch (fence_patch (getRunCancellation id d) existing p) now)); [reflexivity|].
  intros r0 _ _ Hs. pose proof (fence_status (getRunCancellation id d) existing p Hp) as Hf.
  cbn [apply_patch run_status]. revert Hf. destruct (p_status (fence_patch _ _ _)) as [s|]; [|done]. simpl. congruence.
Qed.

Lemma update_or_same_moved id p now d : p_status p <> Some RUN_QUEUED -> moved d (update_or_same id p now d).
Proof.
  intros Hp. unfold update_or_same. destruct (updateRun id p now d) as [e|[d' r]] eqn:E; [reflexivity|]. by eapply update_run_moved.
Qed.

Lemma ensure_config_moved id initial d d' c : ensureRunExecutionConfig id initial d = inr (d', c) -> moved d d'.
Proof.
  unfold ensureRunExecutionConfig. destruct (getFlowRun id d) as [row|]; [|done].
  destruct (execution_config row); [by intros [-> _]%inr_pair|].
  destruct (run_config_source id initial d) as [|source]; [done|]. cbv zeta.
  destruct (scope_mismatch _ _); [done|]. intros [-> _]%inr_pair. by eapply (moved_update (key_is id (fun _ => true)) (with_config _ _)).
Qed.

Lemma enqueue_runs id ts i d d' j : enqueue id ts i d = inr (d', j) -> runs d' = runs d.
Proof.
  unfold enqueue. destruct (enqueue_refused i d); [done|]. destruct (insert_row _ _); [|done].
  by destruct (rowToJob _); intros [= <- _].
Qed.

Lemma mark_runs id now d : runs (markWaitpointResumed id now d).1 = runs d.
Proof. unfold markWaitpointResumed. by rewrite (surjective_pairing (update_where _ _ _)). Qed.

Lemma resume_transaction_runs jobId wpId runId v now d d' b : resume_in_transaction jobId wpId runId v now d = inr (d', b) -> runs d' = runs d.
Proof.
  unfold resume_in_transaction. pose proof (mark_runs wpId now d) as Hm. destruct (markWaitpointResumed wpId now d) as [d1 m].
  destruct m; simpl in *; [|by intros [-> _]%inr_pair].
  destruct (enqueue _ _ _ d1) as [|[d2 j]] eqn:E; [done|]. intros [-> _]%inr_pair. simpl. apply enqueue_runs in E. congruence.
Qed.

Lemma resume_effects_runs newId now rows d : runs (resumeResolvedWorkflowEffects newId now rows d).1.1 = runs d.
Proof.
  revert d. induction rows as [|[[eid rid] wid] rows IH]; intros d; [done|]. cbn [resumeResolvedWorkflowEffects].
  destruct (resume_effect newId now d (eid, rid, wid)) as [e|[d1 b]] eqn:E; [done|].
  assert (runs d1 = runs d) as <-.
  { unfold resume_effect in E. destruct (getFlowRun rid d); [|by injection E as <- _].
    destruct (negb _); [by injection E as <- _|]. destruct (existsb _ _); [by injection E as <- _|]. by eapply resume_transaction_runs. }
  specialize (IH d1). by destruct (resumeResolvedWorkflowEffects newId now rows d1) as [[d2 ids] e].
Qed.

Lemma tick_waitpoint_runs newId now d wp : runs (tick_waitpoint newId now d wp).1 = runs d.
Proof.
  unfold tick_waitpoint. destruct (getFlowRun _ d) as [run|]; [|apply mark_runs].
  destruct (includes _ _); [done|]. destruct (negb _); [apply mark_runs|].
  destruct (resume_in_transaction _ _ _ _ _ d) as [e|[d' b]] eqn:E; [done|]. by eapply resume_transaction_runs.
Qed.

Lemma tick_each_runs newId now due d : runs (tick_each newId now due d).1 = runs d.
Proof.
  revert d. induction due as [|wp due IH]; intros d; [done|]. cbn [tick_each]. pose proof (tick_waitpoint_runs newId now d wp) as H.
  destruct (tick_waitpoint newId now d wp) as [d1 b]. specialize (IH d1). destruct (tick_each newId now due d1). simpl in *. congruence.
Qed.

Lemma tick_runs newId effects nowIso now d : runs (tick newId effects nowIso now d).1 = runs d.
Proof.
  unfold tick. pose proof (resume_effects_runs newId now effects d) as H.
  destruct (resumeResolvedWorkflowEffects newId now effects d) as [[d1 ids] e]. simpl in H.
  pose proof (tick_each_runs newId now (listDueTimerWaitpoints nowIso 100 d1) d1) as H2.
  destruct (tick_each _ _ _ d1). simpl in *. congruence.
Qed.

Lemma route_runs jobId wpId v now d : runs (resume_route jobId wpId v now d).1 = runs d.
Proof.
  unfold resume_route. destruct (getWaitpoint wpId d) as [wp|]; [|done]. destruct (negb _); [done|].
  pose proof (mark_runs wpId now d) as Hm. destruct (markWaitpointResumed wpId now d) as [d1 m]. destruct m; simpl in *; [|done].
  destruct (enqueue _ _ _ d1) as [|[d2 j]] eqn:E; [done|]. apply enqueue_runs in E. simpl. congruence.
Qed.

(** Only [updateRun] could put a run back in the queue. *)
Definition op_keeps_started (o : WorkflowOp) : Prop :=
  match o with w_update_run _ p _ => p_status p <> Some RUN_QUEUED | _ => True end.

Lemma or_same_moved {A} (f : A -> Db) d x : (forall a, x = inr a -> moved d (f a)) -> moved d (or_same f d x).
Proof. intros H. destruct x as [e|a]; [reflexivity|by apply H]. Qed.

(** A result that is the database itself. *)
Ltac is_db a := match type of a with Db => idtac end.

Lemma workflow_step_moved d o : op_keeps_started o -> moved d (workflow_step d o).1.
Proof.
  destruct o; intros Ho; cbn [workflow_step fst]; try (apply or_same_moved; intros a E; try (let x := fresh in let y := fresh in first [is_db a | destruct a as [x y]; cbn [fst]])).
  - unfold createFlowRun in E. cbv zeta in E. destruct (insert_row _ _) eqn:Ei; [|done].
    apply inr_pair in E as [-> _]. by eapply moved_insert.
  - by eapply update_run_moved.
  - by eapply ensure_config_moved.
  - by eapply cancel_run_moved.
  - unfold createWaitpoint in E. destruct (negb _); [done|]. cbv zeta in E. destruct (insert_row _ _); [|done].
    apply inr_pair in E as [-> _]. by apply moved_same.
  - apply moved_same. unfold saveDelegation. by destruct (insert_row _ _).
  - apply moved_same. by eapply enqueue_runs.
  - destruct (claimNextJob leaseMs now d) as [e|[d' [j|]]] eqn:E; [reflexivity|..]; by eapply claim_moved.
  - unfold completeJob in E. rewrite (surjective_pairing (update_where _ _ _)) in E.
    cbn [fst snd] in E. destruct (_ =? 0)%nat; [done|]. injection E as <-. by apply moved_same.
  - apply moved_same. unfold failJob in E. destruct (getJob id d) as [|[job|]]; try done. destruct (negb _); [done|].
    destruct (_ <=? _); by injection E as <- _.
  - by eapply cancel_job_moved.
  - by eapply recover_moved.
  - pose proof (tick_runs newId effects nowIso now d) as H. destruct (tick newId effects nowIso now d). by apply moved_same.
  - pose proof (route_runs jobId wpId resumePayload now d) as H. destruct (resume_route jobId wpId resumePayload now d) as [d' [e|[]]]; by apply moved_same.
Qed.

(** ** Starting an execution *)

Definition started (k : string) (d : Db) : Prop := exists r, get_row k (runs d) = Some r /\ run_status r <> RUN_QUEUED.

Lemma begin_run_spec now job w w' b : begin_run now job w = (w', b) ->
  moved (rw_db w) (rw_db w') /\
  match b with
  | began x => x_job x = job /\ attempt (job_row job) = 1 /\ run_status (x_run x) = expected_status job /\
      payload_runId (payload job) = Some (run_id (x_run x)) /\
      getFlowRun (run_id (x_run x)) (rw_db w) = Some (x_run x) /\ getRunCancellation (run_id (x_run x)) (rw_db w) = None /\
      get_row (run_flow_version_id (x_run x)) (versions (rw_flows w)) = Some (x_version x) /\ started (run_id (x_run x)) (rw_db w')
  | _ => True
  end.
Proof.
  unfold begin_run. destruct (payload_runId (payload job)) as [[|c rid]|]; [by intros [= <- <-]| |by intros [= <- <-]].
  set (runId := String c rid). destruct (getFlowRun runId (rw_db w)) as [run|] eqn:Er; [|by intros [= <- <-]].
  case_bool_decide as Hc; [|by intros [= <- <-]]. cbn [negb].
  destruct (attempt (job_row job) =? 1) eqn:Ea; [|by intros [= <- <-]]. case_bool_decide as Hs; [|by intros [= <- <-]]. cbn [negb orb].
  destruct (get_row (run_flow_version_id run) _) as [v|] eqn:Ev; intros [= <- <-]; cbn [rw_db with_db]; (split; [by apply update_or_same_moved|]); [|done].
  to_prop. pose proof (get_row_Some _ _ _ Er) as [_ Hk]. change (run_id run = runId) in Hk. cbn [x_run x_job x_version]. rewrite Hk.
  split_and!; try done. unfold update_or_same, updateRun. rewrite Er, Hc. cbv zeta. cbn [fence_patch fst].
  unfold started. cbn [runs set_runs]. rewrite (get_row_update_key runId (fun _ => true) (apply_patch _ _)).
  unfold getFlowRun in Er. rewrite Er. by eexists.
Qed.

Lemma run_failed_moved id e now w : moved (rw_db w) (rw_db (run_failed id e now w).1).
Proof.
  unfold run_failed. destruct (getFlowRun id (rw_db w)); [|reflexivity]. destruct (negb _).
  - destruct e; [|reflexivity]. by apply update_or_same_moved.
  - apply update_or_same_moved. by destruct e.
Qed.

Lemma end_run_moved now x outcome w : moved (rw_db w) (rw_db (end_run now x outcome w).1).
Proof.
  unfold end_run. destruct outcome as [e|r]; [apply run_failed_moved|].
  destruct (updateRun _ _ _ _) as [e|[d' row]] eqn:E; [apply run_failed_moved|].
  assert (moved (rw_db w) d') by (eapply update_run_moved; [|exact E]; simpl; by destruct (res_paused r)).
  by destruct (res_paused r || _).
Qed.

(** What the engine and the rest of the daemon may write: never a run back to QUEUED. *)
Definition event_keeps_started (e : RunEvent) : Prop :=
  match e with
  | RunDb o => op_keeps_started o
  | RunProgress _ _ status _ _ => status <> RUN_QUEUED
  | RunLogged _ l _ => log_status l <> RUN_QUEUED
  | _ => True
  end.

Lemma run_event_moved w e : event_keeps_started e -> moved (rw_db w) (rw_db (run_event w e).1).
Proof.
  destruct e as [o|f|now job|now x outcome|s runId status step now|s l now]; simpl; intros Hok.
  - by apply workflow_step_moved.
  - reflexivity.
  - destruct (begin_run now job w) as [w' b] eqn:E. by apply begin_run_spec in E as [? _].
  - apply end_run_moved.
  - unfold updateRunProgress. destruct (_ || _); [reflexivity|]. apply update_or_same_moved. simpl. congruence.
  - unfold uploadRunLog. destruct s as [[|c s]|]; try reflexivity. destruct (_ || _); [reflexivity|]. apply update_or_same_moved. simpl. congruence.
Qed.

(** A first execution of the run, not a planned continuation. *)
Definition begins_run (k : string) (x : Execution) : bool := bool_decide (run_id (x_run x) = k) && negb (resumes (x_job x)).
Definition begin_count (k : string) (l : list Execution) : nat := length (List.filter (begins_run k) l).

Lemma run_event_begins w e k : event_keeps_started e ->
  (begin_count k (run_event w e).2 <= 1)%nat /\ (started k (rw_db w) -> begin_count k (run_event w e).2 = 0%nat) /\
  (begin_count k (run_event w e).2 <> 0%nat -> started k (rw_db (run_event w e).1)).
Proof.
  intros Hok. destruct e as [o|f|now job|now x outcome|s runId status step now|s l now]; cbn [run_event snd]; try (by split_and!; auto).
  destruct (begin_run now job w) as [w' b] eqn:E. apply begin_run_spec in E as [_ H]. cbn [fst snd].
  destruct b as [x| |]; try (by split_and!; auto).
  destruct H as (Ej & _ & Hs & _ & Hg & _ & _ & Hst). unfold begin_count. cbn [List.filter]. unfold begins_run.
  case_bool_decide as Hk; cbn [andb length]; [|by split_and!; auto]. subst k.
  destruct (resumes (x_job x)) eqn:Er; cbn [negb length]; [by split_and!; auto|]. split_and!; [done| |done].
  intros (r & Hr & Hn). exfalso. unfold getFlowRun in Hg. rewrite Hg in Hr. injection Hr as <-. apply Hn. rewrite Hs.
  unfold expected_status. by rewrite <- Ej, Er.
Qed.

Lemma begin_count_app k a b : begin_count k (a ++ b) = (begin_count k a + begin_count k b)%nat.
Proof. unfold begin_count. by rewrite List.filter_app, length_app. Qed.

Lemma run_events_begins k es w : List.Forall event_keeps_started es ->
  (begin_count k (run_events w es).2 <= 1)%nat /\ (started k (rw_db w) -> begin_count k (run_events w es).2 = 0%nat).
Proof.
  intros H. revert w. induction H as [|e es He _ IH]; intros w; [by split; auto|]. cbn [run_events].
  pose proof (run_event_moved w e He) as Hm. destruct (run_event_begins w e k He) as (H1 & H2 & H3).
  destruct (run_event w e) as [w1 x1]. cbn [fst snd] in *. specialize (IH w1) as [IH1 IH2].
  destruct (run_events w1 es) as [w2 x2]. cbn [fst snd] in *. rewrite begin_count_app.
  assert (started k (rw_db w) -> started k (rw_db w1)) as Hkeep by (intros (r & Hg & Hs); by apply (Hm k r)).
  split.
  - destruct (begin_count k x1) as [|n] eqn:En; [lia|]. rewrite IH2; [lia|]. by apply H3.
  - intros Hs. rewrite H2, IH2; auto.
Qed.

(** C4: over any order of job handlers, executions ending, engine messages, flow edits and
    every other operation on the workflow tables, restarts included, a run begins at most
    once, however many jobs name it; and every execution that starts is the first attempt of
    its job, for a run that was QUEUED (or PAUSED, for a continuation), not canceled, and whose
    version exists. Nothing but the handler and the engine's own reports may write a status,
    and those never write QUEUED. *)
Theorem run_begins_once (w : RunWorld) (es : list RunEvent) (k : string) :
  List.Forall event_keeps_started es ->
  (begin_count k (run_events w es).2 <= 1)%nat /\
  forall x, In x (run_events w es).2 ->
    attempt (job_row (x_job x)) = 1 /\ run_status (x_run x) = expected_status (x_job x) /\
    exists before e after, es = before ++ e :: after /\
      getFlowRun (run_id (x_run x)) (rw_db (run_events w before).1) = Some (x_run x) /\
      getRunCancellation (run_id (x_run x)) (rw_db (run_events w before).1) = None /\
      get_row (run_flow_version_id (x_run x)) (versions (rw_flows (run_events w before).1)) = Some (x_version x).
Proof.
  intros Hok. split; [by apply run_events_begins|]. clear Hok. revert w. induction es as [|e es IH]; intros w x; [done|].
  cbn [run_events]. destruct (run_event w e) as [w1 x1] eqn:E1. specialize (IH w1).
  destruct (run_events w1 es) as [w2 x2] eqn:E2. cbn [snd]. intros [Hin|Hin]%in_app_or.
  - destruct e as [o|f|now job|now y outcome|s runId status step now|s l now]; simpl in E1; try (injection E1 as _ <-; done).
    destruct (begin_run now job w) as [w' b] eqn:E. apply begin_run_spec in E as [_ H].
    injection E1 as _ <-. destruct b as [y| |]; try done. destruct Hin as [<-|[]].
    destruct H as (Ej & Ha & Hs & _ & Hg & Hc & Hv & _). rewrite Ej. split_and!; [done..|]. by exists [], (RunBegin now job), es.
  - destruct (IH x Hin) as (Ha & Hs & before & e' & after & -> & H). split_and!; [done..|]. exists (e :: before), e', after.
    split; [done|]. cbn [run_events]. rewrite E1. by destruct (run_events w1 before).
Qed.

(** ** The engine cannot revive a run *)

Definition engine_event (e : RunEvent) : Prop := match e with RunProgress _ _ _ _ _ | RunLogged _ _ _ => True | _ => False end.

Definition settled (k : string) (d : Db) : Prop := exists r, get_row k (runs d) = Some r /\ terminal (run_status r) = true.

Lemma patch_settled id p now k d : settled k d ->
  (id = k -> forall s, p_status p = Some s -> terminal s = true \/ getRunCancellation id d <> None) -> settled k (update_or_same id p now d).
Proof.
  intros (r & Hg & Ht) Hp. unfold update_or_same, updateRun. destruct (getFlowRun id d) as [e|] eqn:E; [|by exists r]. cbv zeta. cbn [fst].
  unfold settled. cbn [runs set_runs]. destruct (decide (id = k)) as [->|Hne].
  - rewrite (get_row_update_key k (fun _ => true) (apply_patch _ _)), Hg. simpl. eexists. split; [done|]. cbn [apply_patch run_status].
    destruct (getRunCancellation k d) as [c|] eqn:Ec; [done|]. cbn [fence_patch].
    destruct (p_status p) as [s|] eqn:Es; [|done]. simpl. by destruct (Hp eq_refl s eq_refl).
  - exists r. split; [|done]. by rewrite (get_row_update_other id k (fun _ => true) (apply_patch _ _)).
Qed.

Lemma stale_settled runId s d k : isStaleWrite runId s d = false -> settled k d -> runId = k -> terminal s = true \/ getRunCancellation runId d <> None.
Proof.
  unfold isStaleWrite. case_bool_decide as Hc; cbn [negb]; [|by right]. destruct (terminal s); [by left|].
  intros H (r & Hg & Ht) ->. unfold getFlowRun in H. rewrite Hg in H. congruence.
Qed.

Lemma engine_event_settled w e k : engine_event e -> settled k (rw_db w) -> settled k (rw_db (run_event w e).1).
Proof.
  destruct e as [o|f|now job|now x outcome|s runId status step now|s l now]; try done; intros _ Hs; cbn [run_event fst rw_db with_db].
  - unfold updateRunProgress. destruct (negb _); cbn [orb]; [done|]. destruct (isStaleWrite runId status _) eqn:E; [done|].
    apply patch_settled; [done|]. intros Hk s' [= <-]. by eapply stale_settled.
  - unfold uploadRunLog. destruct s as [[|c s]|]; try done. destruct (negb _); cbn [orb]; [done|].
    destruct (isStaleWrite _ _ _) eqn:E; [done|]. apply patch_settled; [done|]. intros Hk s' [= <-]. by eapply stale_settled.
Qed.

(** whatever an engine reports, however late and in whatever order, a run that has
    reached a terminal status keeps a terminal status: it is never seen running again. *)
Theorem engine_cannot_revive_a_run (w : RunWorld) (es : list RunEvent) (k : string) :
  List.Forall engine_event es -> settled k (rw_db w) -> settled k (rw_db (run_events w es).1).
Proof.
  intros H. revert w. induction H as [|e es He _ IH]; intros w Hs; [done|]. cbn [run_events].
  pose proof (engine_event_settled w e k He Hs) as H1. destruct (run_event w e) as [w1 x1]. specialize (IH w1 H1).
  by destruct (run_events w1 es).
Qed.

(** ** One run, two jobs *)

Definition queued_run : FlowRunRow :=
  mkRun "r" "f" "v" "project" None false None RUN_QUEUED PRODUCTION None None None None None None None None None None 0 0.
Definition queued_job (id : string) : Job :=
  mkJobView (mkJob id RUN_FLOW (Some "r") None None "{}" 0 JOB_RUNNING 1 1 (Some 100) 0 None 0 0) (JObj [("runId", JStr "r")]).
Definition demo_run_world : RunWorld :=
  mkRunWorld (mkDb [] [queued_run] [] [] [])
    (mkFlowDb [] [mkVersionRow "v" "f" "Flow" (JObj []) DRAFT false None None [] [] (JArr []) None None None None None 0 0]).
Definition demo_execution : Execution :=
  mkExecution queued_run (mkVersionRow "v" "f" "Flow" (JObj []) DRAFT false None None [] [] (JArr []) None None None None None 0 0) (queued_job "j1") (JObj []).
Definition demo_run_events : list RunEvent :=
  [RunBegin 1 (queued_job "j1"); RunBegin 2 (queued_job "j2"); RunProgress (Some "r") "r" RUN_RUNNING None 3;
   RunEnd 4 demo_execution (inr (mkResult false [("s", JObj [("output", JObj [("k", JNum 1)])])] 1)); RunProgress (Some "r") "r" RUN_RUNNING None 5;
   RunBegin 6 (queued_job "j3")].

Lemma run_begins_once_witness :
  begin_count "r" (run_events demo_run_world demo_run_events).2 = 1%nat /\
  (begin_count "r" (run_events demo_run_world demo_run_events).2 <= 1)%nat.
Proof.
  split; [vm_compute; reflexivity|]. apply (run_begins_once demo_run_world demo_run_events "r").
  repeat constructor; discriminate.
Defined.

(** The run above has succeeded when the late report comes. *)
Lemma engine_cannot_revive_a_run_witness :
  settled "r" (rw_db (run_events (run_events demo_run_world (take 4 demo_run_events)).1
    [RunProgress (Some "r") "r" RUN_RUNNING (Some ("s", JNull)) 5; RunLogged (Some "r") (mkRunLog "r" RUN_FAILED None None None None None) 6]).1).
Proof.
  apply engine_cannot_revive_a_run; [repeat constructor|]. eexists. split; vm_compute; reflexivity.
Defined.
