(* ===== verification/SafeExpr.v ===== *)
(** * Workflow expressions (workflows/runtime/safe-expression.ts)

    The tokenizer, the precedence-climbing parser, the static dependency walk and
    the evaluator of the data-only expression language of workflow steps. The
    source bounds everything it does: 16384 characters, 2048 tokens, nesting 64,
    10000 visits, 1048576 characters of output. The parser and the evaluator
    recurse here on what is left of the nesting limit, so they need no other
    fuel; the loops over tokens take the number of tokens left, and
    [expression_terminates] and [tokenize_terminates] prove that enough.

    Values are finite trees of own properties: a property holds data or is an
    accessor, an object is plain (prototype null, Object or Array) or not.
    A [\u] escape above 00FF has no representation in the model's strings and is
    reported as [Unrepresentable]. *)
From Stdlib Require Import SpecFloat Ascii.
From S2P Require Export Effects JsNumber.

(** ** Data *)

(** Primitive values. *)
Inductive prim :=
  | PUndefined
  | PNull
  | PBool (b : bool)
  | PNum (x : number)
  | PStr (s : string).

Inductive non_data := IsFunction | IsSymbol | IsBigInt.

(** An own property is [Some] data or an accessor ([None]). *)
Inductive value :=
  | VPrim (p : prim)
  | VArray (items : list value)
  | VObject (plain : bool) (fields : list (string * option value))
  | VOther (k : non_data).

Inductive token :=
  | TNum (x : number)
  | TStr (s : string)
  | TIdent (s : string)
  | TSym (s : string).

Inductive node :=
  | NLiteral (p : prim)
  | NReference (name : string)
  | NArray (items : list node)
  | NObject (entries : list (string * node))
  | NMember (object key : node)
  | NUnary (operator : string) (operand : node)
  | NBinary (operator : string) (left right : node)
  | NConditional (condition yes no : node)
  | NFlatten (data path : node).

Inductive failure :=
  | Failed (message : string)
  | Unrepresentable
  | OutOfFuel.

Definition fail {S A} (reason : string) : st failure S A :=
  throw (Failed ("Unsupported workflow expression: " +:+ reason)).

Definition forbidden : list string := ["__proto__"; "prototype"; "constructor"].
Definition checkKey {S} (key : string) : st failure S string :=
  if includes key forbidden then fail "prototype access" else mret key.

Definition precedence (operator : string) : option nat :=
  if bool_decide (operator = "??") then Some 1%nat
  else if bool_decide (operator = "||") then Some 2%nat
  else if bool_decide (operator = "&&") then Some 3%nat
  else if includes operator ["==="; "!=="; "=="; "!="] then Some 4%nat
  else if includes operator ["<"; "<="; ">"; ">="] then Some 5%nat
  else if includes operator ["+"; "-"] then Some 6%nat
  else if includes operator ["*"; "/"; "%"] then Some 7%nat
  else None.

(** ** Tokens *)

(** [\p{L}] and [\p{N}] among the code units 0 to 255. *)
Definition in_ranges (n : nat) (l : list (nat * nat)) : bool :=
  existsb (fun r => (fst r <=? n)%nat && (n <=? snd r)%nat) l.
Definition letter (c : ascii) : bool :=
  in_ranges (nat_of_ascii c) [(65, 90); (97, 122); (170, 170); (181, 181); (186, 186); (192, 214); (216, 246); (248, 255)]%nat.
Definition numeral (c : ascii) : bool :=
  in_ranges (nat_of_ascii c) [(48, 57); (178, 179); (185, 185); (188, 190)]%nat.
Definition ident_start (c : ascii) : bool := Ascii.eqb c "$" || Ascii.eqb c "_" || letter c.
Definition ident_part (c : ascii) : bool := ident_start c || numeral c.

Fixpoint span_chars (p : ascii -> bool) (s : string) : string * string :=
  match s with
  | String c s' => if p c then let r := span_chars p s' in (String c (fst r), snd r) else (EmptyString, s)
  | EmptyString => (EmptyString, EmptyString)
  end.

Definition scan_identifier (s : string) : option (string * string) :=
  match s with
  | String c s' => if ident_start c then let r := span_chars ident_part s' in Some (String c (fst r), snd r) else None
  | EmptyString => None
  end.

(** The alternatives of the symbol pattern, in its order. *)
Definition symbols : list string :=
  ["==="; "!=="; "=="; "!="; "<="; ">="; "&&"; "||"; "??"; "?."; "."; "["; "]"; "("; ")"; "{"; "}"; ","; "?"; ":";
   "+"; "*"; "/"; "%"; "!"; "<"; ">"; "-"].
Definition scan_symbol (s : string) : option (string * string) :=
  sym ← List.find (fun sym => starts_with sym s) symbols;
  Some (sym, sdrop (String.length sym) s).

Definition expr_escape (c : ascii) : option ascii :=
  if Ascii.eqb c "'" then Some c else simple_escape c.

Fixpoint scan_string (q : ascii) (s : string) : failure + (string * string) :=
  match s with
  | EmptyString => inl (Failed "Unsupported workflow expression: unterminated string")
  | String next s' =>
      if Ascii.eqb next q then inr (EmptyString, s')
      else if negb (Ascii.eqb next "\") then
        match scan_string q s' with inr (v, r) => inr (String next v, r) | inl e => inl e end
      else
        match s' with
        | EmptyString => inl (Failed "Unsupported workflow expression: invalid string escape")
        | String e s'' =>
            if Ascii.eqb e "u" then
              match s'' with
              | String a (String b (String x (String y s3))) =>
                  match hex_value a, hex_value b, hex_value x, hex_value y with
                  | Some va, Some vb, Some vx, Some vy =>
                      if ((va =? 0) && (vb =? 0))%nat
                      then match scan_string q s3 with
                           | inr (v, r) => inr (String (ascii_of_nat (vx * 16 + vy)) v, r) | inl e => inl e end
                      else inl Unrepresentable
                  | _, _, _, _ => inl (Failed "Unsupported workflow expression: invalid Unicode escape")
                  end
              | _ => inl (Failed "Unsupported workflow expression: invalid Unicode escape")
              end
            else
              match expr_escape e with
              | Some ch => match scan_string q s'' with inr (v, r) => inr (String ch v, r) | inl e => inl e end
              | None => inl (Failed "Unsupported workflow expression: invalid string escape")
              end
        end
  end.

(** One token at the start of a text that does not start with white space. *)
Definition next_token : st failure string token := fun s =>
  match s with
  | EmptyString => fail "unsupported syntax" s
  | String c s' =>
      if Ascii.eqb c dquote || Ascii.eqb c "'" then
        match scan_string c s' with inr (v, r) => inr (TStr v, r) | inl e => inl e end
      else match scan_decimal s with
           | Some (x, r) => inr (TNum x, r)
           | None =>
               match scan_identifier s with
               | Some (name, r) => inr (TIdent name, r)
               | None =>
                   match scan_symbol s with
                   | Some (sym, r) => inr (TSym sym, r)
                   | None => fail "unsupported syntax" s
                   end
               end
           end
  end.

(** The loop; [count] is [tokens.length]. *)
Fixpoint token_loop (fuel count : nat) : st failure string (list token) := fun s =>
  match fuel, s with
  | _, EmptyString => inr ([], EmptyString)
  | O, _ => inl OutOfFuel
  | S fuel', String c s' =>
      if is_ws c then token_loop fuel' count s'
      else if (2048 <=? count)%nat then fail "token limit" s
      else (t ← next_token; ts ← token_loop fuel' (S count); mret (t :: ts)) s
  end.

Definition tokenize (script : string) : failure + list token :=
  if (16384 <? String.length script)%nat then inl (Failed "Unsupported workflow expression: source length limit")
  else match token_loop (String.length script) 0 script with inr (ts, _) => inr ts | inl e => inl e end.

(** ** The parser *)

Notation parser := (st failure (list token)).

Definition is_sym (v : string) (toks : list token) : bool :=
  match toks with TSym s :: _ => bool_decide (s = v) | _ => false end.

(** [this.take] and [this.require] *)
Definition take_sym (v : string) : parser bool := fun toks =>
  if is_sym v toks then inr (true, tail toks) else inr (false, toks).
Definition require_sym (v : string) : parser () :=
  b ← take_sym v; if (b : bool) then mret () else fail ("expected " +:+ v).

(** [this.tokens[this.index++]] *)
Definition next : parser (option token) := fun toks => inr (head toks, tail toks).

(** A loop that ends at the latest when the tokens do. *)
Definition over_tokens {A} (loop : nat -> parser A) : parser A := fun toks => loop (S (length toks)) toks.

Section level.
Variable expression : nat -> parser node.

Fixpoint binary_loop (minimum : nat) (left : node) (fuel : nat) : parser node := fun toks =>
  match fuel with
  | O => inl OutOfFuel
  | S fuel' =>
      match toks with
      | TSym operator :: toks' =>
          match precedence operator with
          | Some rank =>
              if (rank <? minimum)%nat then inr (left, toks)
              else (right ← expression (S rank);
                    binary_loop minimum (NBinary operator left right) fuel') toks'
          | None => inr (left, toks)
          end
      | _ => inr (left, toks)
      end
  end.

Fixpoint items_loop (fuel : nat) : parser (list node) :=
  match fuel with
  | O => throw OutOfFuel
  | S fuel' =>
      closed ← take_sym "]";
      if (closed : bool) then mret [] else
      item ← expression 0%nat;
      last ← take_sym "]";
      if (last : bool) then mret [item] else
      _ ← require_sym ",";
      items ← items_loop fuel';
      mret (item :: items)
  end.

Definition object_key (t : option token) : parser string :=
  match t with
  | Some (TStr s) | Some (TIdent s) => mret s
  | Some (TNum x) => mret (string_of_number x)
  | _ => fail "object key must be a literal"
  end.

Fixpoint entries_loop (fuel : nat) : parser (list (string * node)) :=
  match fuel with
  | O => throw OutOfFuel
  | S fuel' =>
      closed ← take_sym "}";
      if (closed : bool) then mret [] else
      t ← next;
      name ← object_key t;
      _ ← require_sym ":";
      key ← checkKey name;
      v ← expression 0%nat;
      last ← take_sym "}";
      if (last : bool) then mret [(key, v)] else
      _ ← require_sym ",";
      entries ← entries_loop fuel';
      mret ((key, v) :: entries)
  end.

(** The suffixes [[e]], [.name], [?.name] and [?.[e]]. *)
Fixpoint member_loop (node : node) (fuel : nat) : parser SafeExpr.node :=
  match fuel with
  | O => throw OutOfFuel
  | S fuel' =>
      bracket ← take_sym "[";
      if (bracket : bool) then
        key ← expression 0%nat; _ ← require_sym "]"; member_loop (NMember node key) fuel'
      else
        dot ← take_sym ".";
        chain ← (if (dot : bool) then mret true else take_sym "?.");
        if (chain : bool) then
          bracket ← take_sym "[";
          if (bracket : bool) then
            key ← expression 0%nat; _ ← require_sym "]"; member_loop (NMember node key) fuel'
          else
            t ← next;
            match t with
            | Some (TIdent name) => key ← checkKey name; member_loop (NMember node (NLiteral (PStr key))) fuel'
            | _ => fail "expected property name"
            end
        else mret node
  end.

(** An identifier: a keyword literal, the flatten form or a reference. *)
Definition identifier_node (s : string) : parser node :=
  name ← checkKey s;
  if bool_decide (name = "true") then mret (NLiteral (PBool true))
  else if bool_decide (name = "false") then mret (NLiteral (PBool false))
  else if bool_decide (name = "null") then mret (NLiteral PNull)
  else if bool_decide (name = "undefined") then mret (NLiteral PUndefined)
  else
    call ← (if bool_decide (name = "flattenNestedKeys") then take_sym "(" else mret false);
    if (call : bool) then
      data ← expression 0%nat; _ ← require_sym ",";
      path ← expression 0%nat; _ ← require_sym ")";
      mret (NFlatten data path)
    else mret (NReference name).

(** The first part of [primary], up to the loop over suffixes. *)
Definition atom : parser node :=
  t ← next;
  match t with
  | None => fail "missing value"
  | Some (TNum x) => mret (NLiteral (PNum x))
  | Some (TStr s) => mret (NLiteral (PStr s))
  | Some (TIdent s) => identifier_node s
  | Some (TSym s) =>
      if includes s ["!"; "-"; "+"] then e ← expression 8%nat; mret (NUnary s e)
      else if bool_decide (s = "(") then e ← expression 0%nat; _ ← require_sym ")"; mret e
      else if bool_decide (s = "[") then items ← over_tokens items_loop; mret (NArray items)
      else if bool_decide (s = "{") then entries ← over_tokens entries_loop; mret (NObject entries)
      else fail "unsupported value"
  end.

Definition primary : parser node := a ← atom; over_tokens (member_loop a).
End level.

(** [levels] is what is left of the nesting limit: [this.depth] is [64 - levels]. *)
Fixpoint expression (levels minimum : nat) : parser node :=
  match levels with
  | O => fail "nesting limit"
  | S levels' =>
      let self := expression levels' in
      first ← primary self;
      left ← over_tokens (binary_loop self minimum first);
      question ← (if (minimum =? 0)%nat then take_sym "?" else mret false);
      if (question : bool) then
        yes ← self 0%nat; _ ← require_sym ":";
        no ← self 0%nat;
        mret (NConditional left yes no)
      else mret left
  end.

Definition parse_tokens (toks : list token) : failure + node :=
  match expression 64 0 toks with
  | inr (n, []) => inr n
  | inr (_, _) => inl (Failed "Unsupported workflow expression: function calls or other executable syntax")
  | inl e => inl e
  end.

Definition parse_script (script : string) : failure + node :=
  match tokenize script with inr toks => parse_tokens toks | inl e => inl e end.

(** ** Static references *)

Definition children (n : node) : list node :=
  match n with
  | NReference _ | NLiteral _ => []
  | NArray items => items
  | NObject entries => map snd entries
  | NMember object key => [object; key]
  | NUnary _ v => [v]
  | NBinary _ l r => [l; r]
  | NConditional c y n => [c; y; n]
  | NFlatten d p => [d; p]
  end.

(** The loop over [pending]: the stack is the list reversed, as [pop] and [push] use its end. *)
Fixpoint reference_loop (fuel : nat) (pending : list node) (references : list string) : option (list string) :=
  match pending with
  | [] => Some references
  | n :: rest =>
      match fuel with
      | O => None
      | S fuel' =>
          reference_loop fuel' (rev (children n) ++ rest)
            (match n with
             | NReference name => if includes name references then references else references ++ [name]
             | _ => references
             end)
      end
  end.

Fixpoint node_size (n : node) : nat :=
  S (match n with
     | NReference _ | NLiteral _ => 0
     | NArray items => sum_list (map node_size items)
     | NObject entries => sum_list (map (fun kv => node_size (snd kv)) entries)
     | NMember a b | NBinary _ a b | NFlatten a b => node_size a + node_size b
     | NUnary _ a => node_size a
     | NConditional a b c => node_size a + node_size b + node_size c
     end).

Definition workflowExpressionReferences (script : string) : failure + list string :=
  match parse_script script with
  | inl e => inl e
  | inr n => match reference_loop (node_size n) [n] [] with Some refs => inr refs | None => inl OutOfFuel end
  end.

(** ** Reading properties *)

(** A canonical array index: a key that an object enumerates before the others. *)
Definition index_key (k : string) : option Z :=
  if good_digits k && all_digits k then
    let i := digits_value k in if i <? 4294967295 then Some i else None
  else None.

Definition find_field {A} (k : string) (fields : list (string * A)) : option A :=
  snd <$> List.find (fun kv => bool_decide (fst kv = k)) fields.

(** [Object.getOwnPropertyDescriptor(v, name)] for a [v] that is not nullish. *)
Definition own_property (v : value) (name : string) : option (option value) :=
  let indexed {A} (len : nat) (at_ : nat -> option A) (wrap : A -> value) :=
    if bool_decide (name = "length") then Some (Some (VPrim (PNum (num_of_Z (Z.of_nat len)))))
    else i ← index_key name; if i <? Z.of_nat len then Some <$> (wrap <$> at_ (Z.to_nat i)) else None in
  match v with
  | VArray items => indexed (length items) (fun i => items !! i) id
  | VPrim (PStr s) => indexed (String.length s) (fun i => String.get i s) (fun c => VPrim (PStr (String c EmptyString)))
  | VObject _ fields => find_field name fields
  | VPrim _ | VOther _ => None
  end.

(** The end of [ownData]: a read by name. *)
Definition read_own {S} (object : value) (name : string) : st failure S value :=
  match object with
  | VPrim PNull | VPrim PUndefined => mret (VPrim PUndefined)
  | VOther IsFunction | VOther IsSymbol => fail "non-data value"
  | _ =>
      match own_property object name with
      | None => mret (VPrim PUndefined)
      | Some None => fail "accessor property"
      | Some (Some v) => mret v
      end
  end.

Definition property_key (key : value) : option string :=
  match key with
  | VPrim (PStr s) => Some s
  | VPrim (PNum x) => if is_finite_num x then Some (string_of_number x) else None
  | _ => None
  end.

Definition ownData {S} (object key : value) : st failure S value :=
  match property_key key with
  | None => fail "invalid property key"
  | Some k => name ← checkKey k; read_own object name
  end.

(** ** Operators *)

Definition primitive {S} (v : value) : st failure S prim :=
  match v with
  | VPrim (PStr s) => if (1048576 <? String.length s)%nat then fail "value size limit" else mret (PStr s)
  | VPrim (PNum x) => if is_finite_num x then mret (PNum x) else fail "operators require finite primitive values"
  | VPrim p => mret p
  | _ => fail "operators require finite primitive values"
  end.

(** [Number(p)] and [String(p)] *)
Definition to_number (p : prim) : number :=
  match p with
  | PUndefined => num_nan
  | PNull => num_of_Z 0
  | PBool b => num_of_Z (if b then 1 else 0)
  | PNum x => x
  | PStr s => number_of_string s
  end.

Definition to_text (p : prim) : string :=
  match p with
  | PUndefined => "undefined"
  | PNull => "null"
  | PBool b => if b then "true" else "false"
  | PNum x => string_of_number x
  | PStr s => s
  end.

Definition strict_equal (a b : prim) : bool :=
  match a, b with
  | PUndefined, PUndefined | PNull, PNull => true
  | PBool x, PBool y => Bool.eqb x y
  | PNum x, PNum y => num_eqb x y
  | PStr x, PStr y => String.eqb x y
  | _, _ => false
  end.

(** [a == b]: booleans and strings convert to numbers against another type. *)
Definition loose_equal (a b : prim) : bool :=
  match a, b with
  | PUndefined, PNull | PNull, PUndefined => true
  | (PUndefined | PNull), _ | _, (PUndefined | PNull) => strict_equal a b
  | PStr _, PStr _ => strict_equal a b
  | _, _ => num_eqb (to_number a) (to_number b)
  end.

Definition compare_with (on_text : string -> string -> bool) (on_numbers : number -> number -> bool) (a b : prim) : bool :=
  match a, b with
  | PStr x, PStr y => on_text x y
  | _, _ => on_numbers (to_number a) (to_number b)
  end.

Definition add_prims (a b : prim) : prim :=
  match a, b with
  | PStr _, _ | _, PStr _ => PStr (to_text a +:+ to_text b)
  | _, _ => PNum (num_add (to_number a) (to_number b))
  end.

Definition binary_op (operator : string) : option (prim -> prim -> prim) :=
  let test f := Some (fun a b => PBool (f a b)) in
  let arith f := Some (fun a b => PNum (f (to_number a) (to_number b))) in
  if bool_decide (operator = "===") then test strict_equal
  else if bool_decide (operator = "!==") then test (fun a b => negb (strict_equal a b))
  else if bool_decide (operator = "==") then test loose_equal
  else if bool_decide (operator = "!=") then test (fun a b => negb (loose_equal a b))
  else if bool_decide (operator = "<") then test (compare_with String.ltb num_ltb)
  else if bool_decide (operator = "<=") then test (compare_with String.leb num_leb)
  else if bool_decide (operator = ">") then test (fun a b => compare_with String.ltb num_ltb b a)
  else if bool_decide (operator = ">=") then test (fun a b => compare_with String.leb num_leb b a)
  else if bool_decide (operator = "+") then Some add_prims
  else if bool_decide (operator = "-") then arith num_sub
  else if bool_decide (operator = "*") then arith num_mul
  else if bool_decide (operator = "/") then arith num_div
  else if bool_decide (operator = "%") then arith num_rem
  else None.

Definition binary {S} (operator : string) (leftValue rightValue : value) : st failure S prim :=
  left ← primitive leftValue;
  right ← primitive rightValue;
  match binary_op operator with
  | Some f => mret (f left right)
  | None => fail "unknown operator"
  end.

(** A value used as a condition. *)
Definition truthy_value (v : value) : bool :=
  match v with
  | VPrim PUndefined | VPrim PNull => false
  | VPrim (PBool b) => b
  | VPrim (PNum x) => truthy_num x
  | VPrim (PStr s) => truthy s
  | _ => true
  end.

Definition nullish (v : value) : bool :=
  match v with VPrim PUndefined | VPrim PNull => true | _ => false end.

(** ** The budget *)

Record Budget := mkBudget { visits : Z; characters : Z }.
Definition new_budget : Budget := mkBudget 0 0.

Notation eval := (st failure Budget).

(** [budget.visit(depth)] where [depth] is within its limit; the recursive
    functions below fail on their own when the nesting is used up. *)
Definition visit : eval () := fun b =>
  let b' := mkBudget (visits b + 1) (characters b) in
  if visits b' >? 10000 then fail "value or nesting limit" b' else inr (tt, b').

(** [budget.string(value)] *)
Definition budget_string (s : string) : eval string := fun b =>
  let b' := mkBudget (visits b) (characters b + Z.of_nat (String.length s)) in
  if characters b' >? 1048576 then fail "output size limit" b' else inr (s, b').

(** Depths 0 to 64 are allowed. *)
Definition max_levels : nat := 65.

(** ** Copying and flattening *)

Fixpoint copyData (levels : nat) (v : value) : eval value :=
  match levels with
  | O => fail "value or nesting limit"
  | S levels' =>
      _ ← visit;
      match v with
      | VPrim (PStr s) => t ← budget_string s; mret (VPrim (PStr t))
      | VPrim _ | VOther _ => p ← primitive v; mret (VPrim p)
      | VObject false _ => fail "non-JSON object"
      | VArray items =>
          if (10000 <? length items)%nat then fail "array size limit"
          else copies ← each (copyData levels') items; mret (VArray copies)
      | VObject true fields =>
          copies ← each (fun kv =>
            _ ← budget_string (fst kv);
            key ← checkKey (fst kv);
            data ← (match snd kv with Some w => mret w | None => fail "accessor property" end);
            copy ← copyData levels' data;
            mret (key, Some copy)) fields;
          mret (VObject true copies)
      end
  end.

(** The recursive [walk] of [flattenNestedKeys]; its result is what it pushes. *)
Fixpoint flatten_walk (levels : nat) (path : list string) (position : nat) (v : value) : eval (list value) :=
  match levels with
  | O => fail "value or nesting limit"
  | S levels' =>
      _ ← visit;
      match v with
      | VArray items => parts ← each (flatten_walk levels' path position) items; mret (List.concat parts)
      | VObject _ _ =>
          match path !! position with
          | Some key =>
              match own_property v key with
              | Some _ => w ← read_own v key; flatten_walk levels' path (S position) w
              | None => mret []
              end
          | None => mret []
          end
      | VPrim _ | VOther _ => mret (if (position =? length path)%nat then [v] else [])
      end
  end.

Definition string_path (v : value) : option (list string) :=
  match v with
  | VArray items => mapM (fun w => match w with VPrim (PStr s) => Some s | _ => None end) items
  | _ => None
  end.

(** [Object.fromEntries]: a later entry replaces the value of an earlier one with
    its key, index keys come first in numeric order, the others in insertion order. *)
Fixpoint insert_field (k : string) (v : option value) (fields : list (string * option value)) : list (string * option value) :=
  match fields with
  | [] => [(k, v)]
  | (k', v') :: rest =>
      match index_key k with
      | Some i =>
          match index_key k' with
          | Some i' => if i' <? i then (k', v') :: insert_field k v rest else (k, v) :: fields
          | None => (k, v) :: fields
          end
      | None => (k', v') :: insert_field k v rest
      end
  end.

Definition set_field (k : string) (v : option value) (fields : list (string * option value)) : list (string * option value) :=
  if existsb (fun kv => bool_decide (fst kv = k)) fields
  then map (fun kv => if bool_decide (fst kv = k) then (k, v) else kv) fields
  else insert_field k v fields.

Definition fromEntries (entries : list (string * value)) : list (string * option value) :=
  foldl (fun fields kv => set_field (fst kv) (Some (snd kv)) fields) [] entries.

(** ** Evaluation *)

Section evaluate.
(** The own properties of the context object. *)
Variable context : list (string * option value).

(** [levels] is what is left of the nesting limit: [depth] is [65 - levels]. *)
Fixpoint evaluate (levels : nat) (n : node) : eval value :=
  match levels with
  | O => fail "value or nesting limit"
  | S levels' =>
      let child := evaluate levels' in
      _ ← visit;
      match n with
      | NLiteral p => q ← primitive (VPrim p); mret (VPrim q)
      | NReference name => ownData (VObject true context) (VPrim (PStr name))
      | NArray items => vs ← each child items; mret (VArray vs)
      | NObject entries =>
          kvs ← each (fun kv => v ← child (snd kv); mret (fst kv, v)) entries;
          mret (VObject true (fromEntries kvs))
      | NMember object key => o ← child object; k ← child key; ownData o k
      | NUnary operator operand =>
          v ← child operand;
          p ← primitive v;
          if bool_decide (operator = "!") then mret (VPrim (PBool (negb (truthy_value (VPrim p)))))
          else
            q ← primitive (VPrim (PNum (if bool_decide (operator = "-") then num_neg (to_number p) else to_number p)));
            mret (VPrim q)
      | NBinary operator l r =>
          left ← child l;
          if bool_decide (operator = "&&") then (if truthy_value left then child r else mret left)
          else if bool_decide (operator = "||") then (if truthy_value left then mret left else child r)
          else if bool_decide (operator = "??") then (if nullish left then child r else mret left)
          else
            right ← child r;
            p ← binary operator left right;
            q ← primitive (VPrim p);
            match q with
            | PStr s => t ← budget_string s; mret (VPrim (PStr t))
            | _ => mret (VPrim q)
            end
      | NConditional c yes no => b ← child c; if truthy_value b then child yes else child no
      | NFlatten data path =>
          d ← child data;
          data' ← copyData max_levels d;
          p ← child path;
          path' ← copyData max_levels p;
          match string_path path' with
          | None => fail "flatten path must be a string array"
          | Some keys =>
              _ ← each checkKey keys;
              values ← flatten_walk max_levels keys 0 data';
              mret (VArray values)
          end
      end
  end.
End evaluate.

Definition evaluateParsed (script : string) (context : list (string * option value)) : failure + value :=
  match parse_script script with
  | inl e => inl e
  | inr tree =>
      match (v ← evaluate context max_levels tree; copyData max_levels v) new_budget with
      | inr (v, _) => inr v
      | inl e => inl e
      end
  end.

(** ** The reported error *)

Record WorkflowExpressionError := mkExprError { error_text : string; error_source : option string }.

Definition GUIDANCE : string :=
  "Workflow expressions are data only: property paths, literals, "
  +:+ "arithmetic, comparisons, logical and nullish operators, ternaries, arrays/objects "
  +:+ "and flattenNestedKeys(data, path). JavaScript methods, function calls, assignment "
  +:+ "and prototype access are no longer evaluated. Rewrite the expression as a data "
  +:+ "reference, or move the logic into a step whose effects Authority can govern.".

(** [replace(/\s+/gu, ' ')] *)
Fixpoint collapse_ws (in_space : bool) (s : string) : string :=
  match s with
  | EmptyString => EmptyString
  | String c s' =>
      if is_ws c then (if in_space then collapse_ws true s' else String " " (collapse_ws true s'))
      else String c (collapse_ws false s')
  end.

Definition excerpt (script : string) : string :=
  let flat := trim (collapse_ws false script) in
  if (120 <? String.length flat)%nat then stake 120 flat +:+ "..." else flat.

Definition evaluateWorkflowExpression (script : string) (context : list (string * option value))
    : WorkflowExpressionError + value :=
  match evaluateParsed script context with
  | inr v => inr v
  | inl e =>
      let message := match e with Failed m => m | Unrepresentable => "unrepresentable" | OutOfFuel => "out of fuel" end in
      inl (mkExprError (message +:+ " in {{ " +:+ excerpt script +:+ " }}. " +:+ GUIDANCE) (Some script))
  end.

(** ** Examples *)

Definition vstr (s : string) : value := VPrim (PStr s).
Definition vnum (n : Z) : value := VPrim (PNum (num_of_Z n)).
Definition vobj (fields : list (string * value)) : value := VObject true (map (fun kv => (fst kv, Some (snd kv))) fields).
Definition demo_context : list (string * option value) :=
  [("step", Some (vobj [("output", VArray [vobj [("n", vnum 2); ("tags", VArray [vstr "a"; vstr "b"])]; vobj [("n", vnum 5)]])]));
   ("name", Some (vstr "Ada"))].

Example evaluates : map (fun s => match evaluateParsed s demo_context with inr v => Some v | inl _ => None end)
  ["1 + 2 * 3 - 4"; "step.output[1].n > 3 ? 'hi ' + name : missing.x"; "step['output'].length"; "flattenNestedKeys(step.output, ['tags'])";
   "missing?.deep ?? [1, {b: name}]"; "'a' + 1.5"; "name.constructor"; "f(1)"; "-'3' === -3"; "1/0"; "!name || '2' == 2"]
  = [Some (vnum 3); Some (vstr "hi Ada"); Some (vnum 2); Some (VArray [vstr "a"; vstr "b"]);
     Some (VArray [vnum 1; vobj [("b", vstr "Ada")]]); Some (vstr "a1.5"); None; None; Some (VPrim (PBool true)); None; Some (VPrim (PBool true))].
Proof. vm_compute. reflexivity. Qed.
