(* ===== verification/SafeExprPrint.v ===== *)
(** * Printing expressions, and parsing what was printed

    [tokens_of ctx n] writes an expression with only the parentheses its context
    needs: [ctx] is the least precedence an operator may have there (0 at the top,
    8 under a unary operator, 9 before a suffix). [parse_print] says that the
    parser inverts it, so operators bind by rank and associate to the left,
    suffixes bind tighter than unary operators, and a conditional never
    captures an operand. *)
From S2P Require Export SafeExprParse.

(** ** The printer *)

Definition keywords : list string := ["true"; "false"; "null"; "undefined"].

Definition literal_token (p : prim) : token :=
  match p with
  | PUndefined => TIdent "undefined"
  | PNull => TIdent "null"
  | PBool b => TIdent (if b then "true" else "false")
  | PNum x => TNum x
  | PStr s => TStr s
  end.

Definition rank (operator : string) : nat := default 0%nat (precedence operator).

(** Must [n] be parenthesised where the context asks for [ctx]? *)
Definition parens (ctx : nat) (n : node) : bool :=
  match n with
  | NBinary operator _ _ => (rank operator <? ctx)%nat
  | NConditional _ _ _ => negb (ctx =? 0)%nat
  | NUnary _ _ => (ctx =? 9)%nat
  | _ => false
  end.

Definition wrap (b : bool) (toks : list token) : list token :=
  if b then TSym "(" :: toks ++ [TSym ")"] else toks.

Definition commas (l : list (list token)) : list token :=
  match l with
  | [] => []
  | toks :: l' => toks ++ List.concat (map (fun t => TSym "," :: t) l')
  end.

Fixpoint body (n : node) : list token :=
  let at_ ctx m := wrap (parens ctx m) (body m) in
  match n with
  | NLiteral p => [literal_token p]
  | NReference name => [TIdent name]
  | NArray items => TSym "[" :: commas (map body items) ++ [TSym "]"]
  | NObject entries =>
      TSym "{" :: commas (map (fun kv => TStr (fst kv) :: TSym ":" :: body (snd kv)) entries) ++ [TSym "}"]
  | NMember object key => at_ 9%nat object ++ TSym "[" :: body key ++ [TSym "]"]
  | NUnary operator e => TSym operator :: at_ 8%nat e
  | NBinary operator l r => at_ (rank operator) l ++ TSym operator :: at_ (S (rank operator)) r
  | NConditional c yes no => at_ 1%nat c ++ TSym "?" :: body yes ++ TSym ":" :: body no
  | NFlatten data path => TIdent "flattenNestedKeys" :: TSym "(" :: body data ++ TSym "," :: body path ++ [TSym ")"]
  end.

Definition tokens_of (ctx : nat) (n : node) : list token := wrap (parens ctx n) (body n).

(** Nesting of the parser's recursion under the printed expression, without and
    with its own parentheses. *)
Fixpoint nesting (n : node) : nat :=
  let at_ ctx m := if parens ctx m then S (nesting m) else nesting m in
  match n with
  | NLiteral _ | NReference _ => 0
  | NArray items => max_list (map (fun m => S (nesting m)) items)
  | NObject entries => max_list (map (fun kv => S (nesting (snd kv))) entries)
  | NMember object key => Nat.max (at_ 9 object) (S (nesting key))
  | NUnary _ e => S (at_ 8 e)
  | NBinary operator l r => Nat.max (at_ (rank operator) l) (S (at_ (S (rank operator)) r))
  | NConditional c yes no => Nat.max (at_ 1 c) (Nat.max (S (nesting yes)) (S (nesting no)))
  | NFlatten data path => Nat.max (S (nesting data)) (S (nesting path))
  end%nat.

Definition nesting_at (ctx : nat) (n : node) : nat := if parens ctx n then S (nesting n) else nesting n.

(** The trees the grammar has: known operators, no keyword as a reference, no forbidden key. *)
Fixpoint well_formed (n : node) : bool :=
  match n with
  | NLiteral _ => true
  | NReference name => negb (includes name (forbidden ++ keywords))
  | NArray items => forallb well_formed items
  | NObject entries => forallb (fun kv => negb (includes (fst kv) forbidden) && well_formed (snd kv)) entries
  | NMember a b | NFlatten a b => well_formed a && well_formed b
  | NUnary operator e => includes operator ["!"; "-"; "+"] && well_formed e
  | NBinary operator l r => bool_decide (is_Some (precedence operator)) && well_formed l && well_formed r
  | NConditional c y n => well_formed c && well_formed y && well_formed n
  end.

(** What may follow an expression: no suffix, no call, no operator of rank [ctx] or
    more, and no conditional where one would be taken. *)
Definition no_suffix (rest : list token) : bool :=
  negb (existsb (fun v => is_sym v rest) ["["; "."; "?."; "("]).
Definition below (ctx : nat) (rest : list token) : bool :=
  match rest with
  | TSym operator :: _ => match precedence operator with Some r => (r <? ctx)%nat | None => true end
  | _ => true
  end.
Definition stops (ctx : nat) (rest : list token) : bool :=
  no_suffix rest && below ctx rest && ((negb (ctx =? 0)%nat) || negb (is_sym "?" rest)).

(** ** Parsing back *)

Lemma take_yes v rest : take_sym v (TSym v :: rest) = inr (true, rest).
Proof. unfold take_sym, is_sym. by rewrite bool_decide_true. Qed.

Lemma take_no v rest : is_sym v rest = false -> take_sym v rest = inr (false, rest).
Proof. unfold take_sym. by intros ->. Qed.

Lemma require_yes v rest : require_sym v (TSym v :: rest) = inr (tt, rest).
Proof. unfold require_sym. by rewrite (bind_step _ _ _ _ _ (take_yes v rest)). Qed.

Lemma check_yes {S} key (s : S) : includes key forbidden = false -> checkKey key s = inr (key, s).
Proof. unfold checkKey. by intros ->. Qed.

Lemma precedence_symbol operator : is_Some (precedence operator) ->
  In operator ["??"; "||"; "&&"; "==="; "!=="; "=="; "!="; "<"; "<="; ">"; ">="; "+"; "-"; "*"; "/"; "%"].
Proof.
  unfold precedence. repeat case_bool_decide; [subst; simpl; tauto..|].
  repeat match goal with |- context [includes ?x ?l] => destruct (includes x l) eqn:?Hi end;
    try (intros _; repeat match goal with H : includes _ _ = true |- _ => apply includes_In in H; simpl in H end; simpl; tauto).
  by intros [].
Qed.

(** A binary operator is neither a suffix nor closing punctuation nor [?]. *)
Lemma operator_no_suffix operator rest : is_Some (precedence operator) -> no_suffix (TSym operator :: rest) = true.
Proof. intros H%precedence_symbol. simpl in H. decompose [or] H; subst; done. Qed.

Lemma rank_spec operator : is_Some (precedence operator) -> precedence operator = Some (rank operator) /\ (1 <= rank operator <= 7)%nat.
Proof. intros H. pose proof (precedence_symbol _ H) as Hs. simpl in Hs. decompose [or] Hs; subst; vm_compute; split; try done; lia. Qed.

Lemma no_suffix_is_sym rest v : no_suffix rest = true -> In v ["["; "."; "?."; "("] -> is_sym v rest = false.
Proof. unfold no_suffix. intros H Hv. to_prop. simpl in H. to_prop. simpl in Hv. decompose [or] Hv; subst; done. Qed.

(** No expression starts with closing punctuation. *)
Definition closing (toks : list token) : bool := existsb (fun v => is_sym v toks) ["]"; "}"; ")"; ","; ":"; "?"].

Lemma body_head n rest : well_formed n = true -> closing (body n ++ rest) = false.
Proof.
  revert rest. induction n as [p|s|l|l|o IHo k IHk|op e IHe|op l IHl r IHr|c IHc y IHy n IHn|d IHd p IHp];
    intros rest Hw; cbn [body]; try done.
  - by destruct p as [| |[]| |].
  - cbn [well_formed] in Hw. to_prop. unfold wrap. destruct (parens 9 o); [done|]. rewrite <- app_assoc. by apply IHo.
  - cbn [well_formed] in Hw. to_prop. apply includes_In in H. simpl in H. decompose [or] H; subst; done.
  - cbn [well_formed] in Hw. to_prop. unfold wrap. destruct (parens (rank op) l); [done|]. rewrite <- app_assoc. by apply IHl.
  - cbn [well_formed] in Hw. to_prop. unfold wrap. destruct (parens 1 c); [done|]. rewrite <- app_assoc. by apply IHc.
Qed.

Lemma closing_is_sym toks v : closing toks = false -> In v ["]"; "}"; ")"; ","; ":"; "?"] -> is_sym v toks = false.
Proof. unfold closing. intros H Hv. simpl in H. to_prop. simpl in Hv. decompose [or] Hv; subst; done. Qed.

(** [m] is parsed back, with [levels] left, wherever its context and what follows allow it. *)
Definition back (levels : nat) (m : node) : Prop := forall ctx rest,
  (ctx <= 8)%nat -> (nesting_at ctx m < levels)%nat -> stops ctx rest = true ->
  expression levels ctx (tokens_of ctx m ++ rest) = inr (m, rest).

Lemma parens_top m : parens 0 m = false.
Proof. by destruct m. Qed.

Lemma back_top levels m rest : back levels m -> (nesting m < levels)%nat -> stops 0 rest = true ->
  expression levels 0 (body m ++ rest) = inr (m, rest).
Proof.
  intros H Hl Hs. specialize (H 0%nat rest ltac:(lia)). unfold nesting_at, tokens_of in H.
  rewrite parens_top in H. by apply H.
Qed.

(** Run the next parser of a sequence on tokens that start with what it expects. *)
Ltac run lem := rewrite (bind_step _ _ _ _ _ lem); cbn beta iota.

Lemma max_list_In x (l : list nat) : In x l -> (x <= max_list l)%nat.
Proof. induction l as [|y l IH]; simpl; [done|]. intros [->|H]; [lia|]. specialize (IH H). lia. Qed.

Section parse_back.
Variable levels : nat.
Local Notation self := (expression levels).

(** A subterm that is nested less deep and parsed back. *)
Definition sub (m : node) : Prop := back levels m /\ (nesting m < levels)%nat /\ well_formed m = true.

Lemma sub_top m rest : sub m -> stops 0 rest = true -> self 0%nat (body m ++ rest) = inr (m, rest).
Proof. intros (H & Hn & _) Hs. by apply back_top. Qed.

Lemma items_back m items fuel rest : List.Forall sub (m :: items) -> (length items < fuel)%nat ->
  items_loop self fuel (commas (map body (m :: items)) ++ TSym "]" :: rest) = inr (m :: items, rest).
Proof.
  revert m fuel. induction items as [|m' items IH]; intros m fuel [Hm Hb]%List.Forall_cons_iff Hf;
    (destruct fuel as [|fuel]; [simpl in Hf; lia|]); cbn [items_loop commas map List.concat]; rewrite <- !app_assoc.
  - run (take_no "]" (body m ++ [] ++ TSym "]" :: rest) ltac:(apply closing_is_sym; [apply body_head, Hm|simpl; tauto])).
    run (sub_top m ([] ++ TSym "]" :: rest) Hm eq_refl).
    by run (take_yes "]" rest).
  - match goal with |- context [body m ++ ?t] => set (more := t) end.
    run (take_no "]" (body m ++ more) ltac:(apply closing_is_sym; [apply body_head, Hm|simpl; tauto])).
    run (sub_top m more Hm eq_refl).
    run (take_no "]" more eq_refl). subst more. cbn [app].
    match goal with |- context [TSym "," :: ?t] => run (require_yes "," t) end.
    assert (length items < fuel)%nat as Hf' by (simpl in Hf; lia).
    specialize (IH m' fuel Hb Hf'). cbn [commas map] in IH. rewrite <- !app_assoc in IH. by run IH.
Qed.

Definition entry_tokens (kv : string * node) : list token := TStr (fst kv) :: TSym ":" :: body (snd kv).

(** The start of an iteration, up to the separator. *)
Lemma entry_step k m fuel more : includes k forbidden = false -> sub m -> stops 0 more = true ->
  entries_loop self (S fuel) (TStr k :: TSym ":" :: body m ++ more) =
  (last ← take_sym "}"; if (last : bool) then mret [(k, m)] else
   _ ← require_sym ","; entries ← entries_loop self fuel; mret ((k, m) :: entries)) more.
Proof.
  intros Hk Hm Hs. cbn [entries_loop].
  run (take_no "}" (TStr k :: TSym ":" :: body m ++ more) eq_refl).
  run (eq_refl : next (TStr k :: TSym ":" :: body m ++ more) = inr (Some (TStr k), TSym ":" :: body m ++ more)).
  run (eq_refl : object_key (Some (TStr k)) (TSym ":" :: body m ++ more) = inr (k, TSym ":" :: body m ++ more)).
  run (require_yes ":" (body m ++ more)). run (check_yes k (body m ++ more) Hk).
  by run (sub_top m more Hm Hs).
Qed.

Lemma entries_back kv entries fuel rest :
  List.Forall (fun kv => includes (fst kv) forbidden = false /\ sub (snd kv)) (kv :: entries) -> (length entries < fuel)%nat ->
  entries_loop self fuel (commas (map entry_tokens (kv :: entries)) ++ TSym "}" :: rest) = inr (kv :: entries, rest).
Proof.
  revert kv fuel. induction entries as [|kv' entries IH]; intros [k m] fuel [[Hk Hm] Hb]%List.Forall_cons_iff Hf;
    (destruct fuel as [|fuel]; [simpl in Hf; lia|]); unfold entry_tokens; cbn [commas map List.concat fst snd app] in *;
    rewrite <- ?app_assoc.
  - rewrite entry_step by done. cbn [app]. by run (take_yes "}" rest).
  - rewrite entry_step by done. cbn [app map List.concat]. match goal with |- _ (TSym "," :: ?t) = _ => run (take_no "}" (TSym "," :: t) eq_refl); run (require_yes "," t) end.
    assert (length entries < fuel)%nat as Hf' by (simpl in Hf; lia).
    specialize (IH kv' fuel Hb Hf'). unfold entry_tokens in IH. cbn [commas map] in IH. rewrite <- !app_assoc in IH.
    rewrite <- ?app_assoc. by run IH.
Qed.

(** ** Atoms, suffixes and chains of operators *)

Definition is_member (n : node) : bool := match n with NMember _ _ => true | _ => false end.
Definition is_operation (n : node) : bool := match n with NBinary _ _ _ | NConditional _ _ _ => true | _ => false end.
Definition is_unary (n : node) : bool := match n with NUnary _ _ => true | _ => false end.

(** The subterms of [n] are parsed back. *)
Definition subterms_back (n : node) : Prop := forall m, In m (children n) -> back levels m.

Lemma length_commas (l : list (list token)) x : (length l <= length (commas l ++ [x]))%nat.
Proof.
  destruct l as [|t l]; simpl; [lia|]. rewrite !length_app. simpl.
  enough (length l <= length (List.concat (map (fun t => TSym "," :: t) l)))%nat by lia.
  induction l as [|t' l IH]; simpl; [lia|]. rewrite length_app. lia.
Qed.

Lemma reference_back name rest : includes name (forbidden ++ keywords) = false -> is_sym "(" rest = false ->
  identifier_node self name rest = inr (NReference name, rest).
Proof.
  intros Hn Hr. rewrite includes_app in Hn. apply orb_false_iff in Hn as [Hf Hk]. unfold identifier_node.
  run (check_yes name rest Hf). apply includes_false in Hk. simpl in Hk.
  repeat (case_bool_decide; [subst; tauto|]). case_bool_decide.
  - by run (take_no "(" rest Hr).
  - done.
Qed.

Lemma literal_back p rest : atom self (literal_token p :: rest) = inr (NLiteral p, rest).
Proof. by destruct p as [| |[]| |]. Qed.

Lemma flatten_back data path rest : sub data -> sub path ->
  atom self (body (NFlatten data path) ++ rest) = inr (NFlatten data path, rest).
Proof.
  intros Hd Hp. cbn [body app]. rewrite <- app_assoc. cbn [app]. rewrite <- app_assoc. cbn [app].
  unfold atom, identifier_node.
  match goal with |- _ (TIdent ?s :: ?t) = _ =>
    run (eq_refl : next (TIdent s :: t) = inr (Some (TIdent s), t)); run (check_yes "flattenNestedKeys" t eq_refl) end.
  repeat (rewrite bool_decide_false by done). rewrite bool_decide_true by done.
  match goal with |- _ (TSym "(" :: ?t) = _ => run (take_yes "(" t) end.
  match goal with |- _ (body data ++ ?t) = _ => run (sub_top data t Hd eq_refl) end.
  match goal with |- _ (TSym "," :: ?t) = _ => run (require_yes "," t) end.
  match goal with |- _ (body path ++ ?t) = _ => run (sub_top path t Hp eq_refl) end.
  by run (require_yes ")" rest).
Qed.

(** What the parts of [n] satisfy once [n] fits and its subterms are parsed back. *)
Lemma sub_child n m : subterms_back n -> well_formed n = true -> In m (children n) -> (nesting m < levels)%nat -> sub m.
Proof.
  intros Hb Hw Hm Hl. split; [by apply Hb|]. split; [done|].
  destruct n; cbn [children well_formed] in *; to_prop; try (simpl in Hm; naive_solver).
  - rewrite forallb_forall in Hw. by apply Hw.
  - apply in_map_iff in Hm as (kv & <- & Hkv). rewrite forallb_forall in Hw. specialize (Hw kv Hkv). by to_prop.
Qed.

Lemma array_back items rest : subterms_back (NArray items) -> well_formed (NArray items) = true ->
  (nesting (NArray items) <= levels)%nat -> atom self (body (NArray items) ++ rest) = inr (NArray items, rest).
Proof.
  intros Hb Hw Hl. cbn [body app]. rewrite <- app_assoc. cbn [app]. unfold atom.
  match goal with |- _ (?x :: ?t) = _ => run (eq_refl : next (x :: t) = inr (Some x, t)) end.
  change (includes "[" ["!"; "-"; "+"]) with false. cbn beta iota. repeat (rewrite bool_decide_false by done). rewrite bool_decide_true by done.
  assert (List.Forall sub items) as Hs.
  { apply List.Forall_forall. intros m Hm. apply (sub_child (NArray items)); try done.
    cbn [nesting] in Hl. pose proof (max_list_In _ _ (in_map (fun m => S (nesting m)) _ _ Hm)). simpl in *. lia. }
  destruct items as [|m items]; [done|].
  assert (over_tokens (items_loop self) (commas (map body (m :: items)) ++ TSym "]" :: rest) = inr (m :: items, rest)) as H.
  { unfold over_tokens. apply items_back; [done|]. pose proof (length_commas (map body (m :: items)) (TSym "]")) as Hc.
    rewrite length_app, length_map in Hc. rewrite length_app. simpl in *. lia. }
  by run H.
Qed.

Lemma object_back entries rest : subterms_back (NObject entries) -> well_formed (NObject entries) = true ->
  (nesting (NObject entries) <= levels)%nat -> atom self (body (NObject entries) ++ rest) = inr (NObject entries, rest).
Proof.
  intros Hb Hw Hl. cbn [body app]. rewrite <- app_assoc. cbn [app]. unfold atom.
  match goal with |- _ (?x :: ?t) = _ => run (eq_refl : next (x :: t) = inr (Some x, t)) end.
  change (includes "{" ["!"; "-"; "+"]) with false. cbn beta iota. repeat (rewrite bool_decide_false by done). rewrite bool_decide_true by done.
  assert (List.Forall (fun kv => includes (fst kv) forbidden = false /\ sub (snd kv)) entries) as Hs.
  { apply List.Forall_forall. intros kv Hkv. split.
    - cbn [well_formed] in Hw. rewrite forallb_forall in Hw. specialize (Hw kv Hkv). by to_prop.
    - apply (sub_child (NObject entries)); try done; [by apply in_map|].
      cbn [nesting] in Hl. pose proof (max_list_In _ _ (in_map (fun kv => S (nesting (snd kv))) _ _ Hkv)). simpl in *. lia. }
  destruct entries as [|kv entries]; [done|].
  assert (over_tokens (entries_loop self) (commas (map entry_tokens (kv :: entries)) ++ TSym "}" :: rest) = inr (kv :: entries, rest)) as H.
  { unfold over_tokens. apply entries_back; [done|]. pose proof (length_commas (map entry_tokens (kv :: entries)) (TSym "}")) as Hc.
    rewrite length_app, length_map in Hc. rewrite length_app. simpl in *. lia. }
  by run H.
Qed.

Lemma unary_back op e rest : subterms_back (NUnary op e) -> well_formed (NUnary op e) = true ->
  (nesting (NUnary op e) <= levels)%nat -> no_suffix rest = true ->
  atom self (body (NUnary op e) ++ rest) = inr (NUnary op e, rest).
Proof.
  intros Hb Hw Hl Hr. cbn [well_formed] in Hw. to_prop. cbn [body app]. unfold atom.
  match goal with |- _ (?x :: ?t) = _ => run (eq_refl : next (x :: t) = inr (Some x, t)) end. rewrite H. cbn beta iota.
  assert (self 8%nat (tokens_of 8 e ++ rest) = inr (e, rest)) as He.
  { apply Hb; [by left|lia| |].
    - unfold nesting_at. cbn [nesting] in Hl. destruct (parens 8 e); lia.
    - unfold stops. rewrite Hr. simpl. rewrite andb_true_r. unfold below. destruct rest as [|[| | |o] r]; try done.
      destruct (precedence o) eqn:E; [|done]. pose proof (rank_spec o ltac:(by eexists)) as [Hp Hk].
      rewrite E in Hp. injection Hp as ->. apply Nat.ltb_lt. lia. }
  by run He.
Qed.

Lemma paren_back m rest : sub m -> atom self (wrap true (body m) ++ rest) = inr (m, rest).
Proof.
  intros Hm. cbn [wrap app]. rewrite <- app_assoc. cbn [app]. unfold atom.
  match goal with |- _ (?x :: ?t) = _ => run (eq_refl : next (x :: t) = inr (Some x, t)) end.
  change (includes "(" ["!"; "-"; "+"]) with false. cbn beta iota. rewrite bool_decide_true by done.
  run (sub_top m (TSym ")" :: rest) Hm eq_refl). by run (require_yes ")" rest).
Qed.

(** Anything but a suffix or an operation is read by [atom]. *)
Lemma atom_back n rest : subterms_back n -> well_formed n = true -> (nesting n <= levels)%nat ->
  is_member n = false -> is_operation n = false ->
  is_sym "(" rest = false -> (is_unary n = true -> no_suffix rest = true) ->
  atom self (body n ++ rest) = inr (n, rest).
Proof.
  intros Hb Hw Hl Hm Ho Hr Hu. destruct n; try done.
  - apply literal_back.
  - unfold atom. cbn [body app]. match goal with |- _ (?x :: ?t) = _ => run (eq_refl : next (x :: t) = inr (Some x, t)) end.
    apply reference_back; [|done]. cbn [well_formed] in Hw. by to_prop.
  - by apply array_back.
  - by apply object_back.
  - by apply unary_back; auto.
  - cbn [nesting] in Hl. apply flatten_back; apply (sub_child (NFlatten n1 n2)); simpl; auto; lia.
Qed.
End parse_back.

Lemma child_size n m : In m (children n) -> (node_size m < node_size n)%nat.
Proof.
  destruct n; simpl; try tauto; intros H.
  - enough (node_size m <= sum_list (map node_size items))%nat by lia.
    induction items as [|x l IH]; simpl in *; [done|]. destruct H as [->|H]; [lia|]. specialize (IH H). lia.
  - enough (node_size m <= sum_list (map (fun kv => node_size (snd kv)) entries))%nat by lia.
    induction entries as [|x l IH]; simpl in *; [done|]. destruct H as [<-|H]; [lia|]. specialize (IH H). lia.
  - destruct H as [<-|[<-|[]]]; lia.
  - destruct H as [<-|[]]; lia.
  - destruct H as [<-|[<-|[]]]; lia.
  - destruct H as [<-|[<-|[<-|[]]]]; lia.
  - destruct H as [<-|[<-|[]]]; lia.
Qed.

Lemma child_well_formed n m : well_formed n = true -> In m (children n) -> well_formed m = true.
Proof.
  intros Hw Hm. destruct n; cbn [children well_formed] in *; to_prop; try (simpl in Hm; naive_solver).
  - rewrite forallb_forall in Hw. by apply Hw.
  - apply in_map_iff in Hm as (kv & <- & Hkv). rewrite forallb_forall in Hw. specialize (Hw kv Hkv). by to_prop.
Qed.

Section chains.
Variable levels bound : nat.
Local Notation self := (expression levels).
Context (Hback : forall m, (node_size m < bound)%nat -> well_formed m = true -> back levels m).

Lemma smaller_sub m : (node_size m < bound)%nat -> well_formed m = true -> (nesting m < levels)%nat -> sub levels m.
Proof. intros. split; [by apply Hback|done]. Qed.

Lemma smaller_subterms n : (node_size n <= bound)%nat -> well_formed n = true -> subterms_back levels n.
Proof.
  intros Hn Hw m Hm. apply Hback; [|by eapply child_well_formed].
  pose proof (child_size n m Hm). lia.
Qed.

(** Reading [n] before a suffix: the first part of its chain of suffixes is an
    atom, and the loop takes the rest of the chain. *)
Lemma suffix_chain n rest : (node_size n < bound)%nat -> well_formed n = true -> (nesting_at 9 n <= levels)%nat ->
  is_sym "(" rest = false ->
  exists first mid, atom self (tokens_of 9 n ++ rest) = inr (first, mid) /\
    forall fuel, (length mid < fuel)%nat -> exists fuel', (length rest < fuel')%nat /\
      member_loop self first fuel mid = member_loop self n fuel' rest.
Proof.
  revert rest. induction n as [p|s|l|l|o IHo k IHk|op e IHe|op l IHl r IHr|c IHc y IHy n IHn|d IHd p IHp];
    intros rest Hs Hw Hl Hr.
  5: { assert (node_size o < bound /\ node_size k < bound)%nat as [Ho Hk] by (simpl in Hs; lia).
    cbn [well_formed] in Hw. to_prop. cbn [nesting_at parens nesting] in Hl.
    destruct (IHo (TSym "[" :: body k ++ TSym "]" :: rest) Ho H ltac:(unfold nesting_at; lia) eq_refl)
      as (first & mid & Ha & Hloop).
    exists first, mid. split.
    { cbn [tokens_of parens wrap body]. rewrite <- app_assoc. cbn [app]. rewrite <- app_assoc. exact Ha. }
    intros fuel Hf. destruct (Hloop fuel Hf) as (fuel1 & Hf1 & ->). destruct fuel1 as [|fuel1]; [simpl in Hf1; lia|].
    exists fuel1. split; [rewrite length_cons, length_app in Hf1; simpl in Hf1; lia|].
    cbn [member_loop]. run (take_yes "[" (body k ++ TSym "]" :: rest)).
    run (sub_top levels k (TSym "]" :: rest) ltac:(apply smaller_sub; [done..|lia]) eq_refl).
    by run (require_yes "]" rest). }
  all: eexists _, rest; split; [|by intros fuel Hf; exists fuel].
  all: try (apply atom_back; [apply smaller_subterms; [lia|done]|done|exact Hl|done|done|done|done]).
  all: match goal with |- atom _ (tokens_of _ ?n ++ _) = _ => assert (parens 9 n = true) as Hp end.
  all: try match goal with |- atom _ _ = _ =>
    unfold tokens_of; unfold nesting_at in Hl; rewrite Hp in *; apply paren_back, smaller_sub; [done..|lia] end.
  - done.
  - cbn [well_formed] in Hw. to_prop. pose proof (rank_spec op ltac:(done)) as [_ Hk]. apply Nat.ltb_lt. lia.
  - done.
Qed.

Lemma member_loop_stops n fuel rest : no_suffix rest = true -> (length rest < fuel)%nat ->
  member_loop self n fuel rest = inr (n, rest).
Proof.
  intros Hr Hf. destruct fuel as [|fuel]; [lia|]. cbn [member_loop].
  run (take_no "[" rest ltac:(by apply no_suffix_is_sym; [|simpl; tauto])).
  run (take_no "." rest ltac:(by apply no_suffix_is_sym; [|simpl; tauto])).
  by run (take_no "?." rest ltac:(by apply no_suffix_is_sym; [|simpl; tauto])).
Qed.

Lemma primary_of_atom n toks rest : atom self toks = inr (n, rest) -> no_suffix rest = true ->
  primary self toks = inr (n, rest).
Proof. intros Ha Hr. unfold primary. run Ha. apply member_loop_stops; [done|lia]. Qed.

Lemma primary_back n rest : (node_size n <= bound)%nat -> well_formed n = true -> (nesting n <= levels)%nat ->
  is_operation n = false -> no_suffix rest = true -> primary self (body n ++ rest) = inr (n, rest).
Proof.
  intros Hs Hw Hl Ho Hr. destruct (is_member n) eqn:Hm.
  - destruct n as [| | | |o k| | | |]; try done. unfold primary.
    assert (node_size o < bound /\ node_size k < bound)%nat as [Hso Hsk] by (simpl in Hs; lia).
    cbn [well_formed] in Hw. to_prop. cbn [nesting] in Hl.
    destruct (suffix_chain o (TSym "[" :: body k ++ TSym "]" :: rest) Hso H ltac:(unfold nesting_at; lia) eq_refl)
      as (first & mid & Ha & Hloop).
    cbn [body]. rewrite <- app_assoc. cbn [app]. rewrite <- app_assoc. cbn [app]. fold (tokens_of 9 o).
    run Ha. unfold over_tokens. destruct (Hloop (S (length mid)) ltac:(lia)) as (fuel & Hf & ->).
    destruct fuel as [|fuel]; [simpl in Hf; lia|]. cbn [member_loop].
    run (take_yes "[" (body k ++ TSym "]" :: rest)).
    run (sub_top levels k (TSym "]" :: rest) ltac:(apply smaller_sub; [done..|lia]) eq_refl).
    run (require_yes "]" rest). apply member_loop_stops; [done|].
    rewrite length_cons, length_app in Hf. simpl in Hf. lia.
  - apply primary_of_atom; [|done]. apply atom_back; try done; [by apply smaller_subterms|].
    apply no_suffix_is_sym; [done|simpl; tauto].
Qed.

Lemma below_weaken ctx ctx' rest : (ctx <= ctx')%nat -> below ctx rest = true -> below ctx' rest = true.
Proof.
  unfold below. destruct rest as [|[| | |o] r]; try done. destruct (precedence o) as [k|]; [|done].
  rewrite !Nat.ltb_lt. lia.
Qed.

Lemma binary_loop_stops minimum n fuel rest : below minimum rest = true -> (length rest < fuel)%nat ->
  binary_loop self minimum n fuel rest = inr (n, rest).
Proof.
  intros Hb Hf. destruct fuel as [|fuel]; [lia|]. cbn [binary_loop].
  destruct rest as [|[| | |o] r]; try done. cbn [below] in Hb. destruct (precedence o) as [k|]; [|done]. by rewrite Hb.
Qed.

(** Reading [n] before an operator: the leftmost operand of its chain of operators
    is a [primary], and the loop takes the rest of the chain. *)
Lemma operator_chain n ctx rest : (node_size n < bound \/ parens ctx n = false /\ node_size n <= bound)%nat -> well_formed n = true ->
  (nesting_at ctx n <= levels)%nat -> (match n with NConditional _ _ _ => ctx <> 0%nat | _ => True end) ->
  (ctx <= 8)%nat -> no_suffix rest = true -> below (S ctx) rest = true ->
  exists first mid, primary self (tokens_of ctx n ++ rest) = inr (first, mid) /\
    forall minimum fuel, (minimum <= ctx)%nat -> (length mid < fuel)%nat -> exists fuel', (length rest < fuel')%nat /\
      binary_loop self minimum first fuel mid = binary_loop self minimum n fuel' rest.
Proof.
  revert ctx rest. induction n as [p|s|l|l|o IHo k IHk|op e IHe|op l IHl r IHr|c IHc y IHy n IHn|d IHd p IHp];
    intros ctx rest Hs Hw Hl Hc Hctx Hr Hb.
  7: { destruct (parens ctx (NBinary op l r)) eqn:Hp.
    - eexists _, rest. split; [|by intros minimum fuel _ Hf; exists fuel].
      unfold tokens_of. rewrite Hp. apply primary_of_atom; [|done]. apply paren_back.
      unfold nesting_at in Hl. rewrite Hp in Hl. apply smaller_sub; [naive_solver|done|lia].
    - assert (node_size l < bound /\ node_size r < bound)%nat as [Hsl Hsr] by (simpl in Hs; lia).
      unfold nesting_at in Hl. rewrite Hp in Hl. cbn [nesting] in Hl. cbn [well_formed] in Hw. to_prop.
      pose proof (rank_spec op ltac:(done)) as [Hop Hk]. cbn [parens] in Hp. apply Nat.ltb_ge in Hp.
      destruct (IHl (rank op) (TSym op :: tokens_of (S (rank op)) r ++ rest)) as (first & mid & Ha & Hloop);
        [by left|done|unfold nesting_at; lia|by destruct l; try done; lia|lia|by apply operator_no_suffix| |].
      { cbn [below]. rewrite Hop. apply Nat.ltb_lt. lia. }
      exists first, mid. split.
      { unfold tokens_of at 1. cbn [parens]. rewrite (proj2 (Nat.ltb_ge _ _) Hp). cbn [wrap body].
        rewrite <- app_assoc. exact Ha. }
      intros minimum fuel Hmin Hf. destruct (Hloop minimum fuel ltac:(lia) Hf) as (fuel1 & Hf1 & ->).
      destruct fuel1 as [|fuel1]; [simpl in Hf1; lia|]. exists fuel1.
      split; [rewrite length_cons, length_app in Hf1; simpl in Hf1; lia|].
      cbn [binary_loop]. rewrite Hop. rewrite (proj2 (Nat.ltb_ge (rank op) minimum)) by lia.
      assert (self (S (rank op)) (tokens_of (S (rank op)) r ++ rest) = inr (r, rest)) as Hright.
      { apply Hback; [done|done|lia|unfold nesting_at; lia|]. unfold stops. rewrite Hr. simpl.
        rewrite andb_true_r. eapply below_weaken; [|exact Hb]. lia. }
      by run Hright. }
  7: { eexists _, rest. split; [|by intros minimum fuel _ Hf; exists fuel].
    assert (parens ctx (NConditional c y n) = true) as Hp by (simpl; apply negb_true_iff, Nat.eqb_neq; done).
    unfold tokens_of. unfold nesting_at in Hl. rewrite Hp in *. apply primary_of_atom; [|done]. apply paren_back.
    apply smaller_sub; [naive_solver|done|lia]. }
  all: eexists _, rest; split; [|by intros minimum fuel _ Hf; exists fuel].
  all: match goal with |- primary _ (tokens_of _ ?n ++ _) = _ =>
    assert (parens ctx n = false) as Hp by (simpl; try done; apply Nat.eqb_neq; lia) end.
  all: unfold tokens_of; unfold nesting_at in Hl; rewrite Hp in *; cbn [wrap].
  all: apply primary_back; [lia|done..].
Qed.
End chains.

(** ** Whole expressions *)

Lemma no_suffix_question rest : no_suffix (TSym "?" :: rest) = true.
Proof. done. Qed.

Lemma expression_back n : well_formed n = true -> forall levels, back levels n.
Proof.
  remember (node_size n) as size eqn:Hsize. revert n Hsize.
  induction size as [size IH] using lt_wf_ind. intros n Hsize Hw levels.
  assert (forall l m, (node_size m < size)%nat -> well_formed m = true -> back l m) as Hsmall.
  { intros l m Hm Hwm. by eapply IH. }
  (* first without parentheses around [n] itself *)
  assert (forall l ctx rest, (ctx <= 8)%nat -> parens ctx n = false -> (nesting n <= l)%nat -> stops ctx rest = true ->
    expression (S l) ctx (body n ++ rest) = inr (n, rest)) as Hplain.
  { intros l ctx rest Hctx Hp Hl Hr. unfold stops in Hr. to_prop. cbn [expression].
    destruct (match n with NConditional _ _ _ => true | _ => false end) eqn:Hcond.
    - destruct n as [| | | | | | |c yes no|]; try done. cbn [parens] in Hp. to_prop. apply Nat.eqb_eq in Hp as ->.
      cbn [nesting] in Hl. assert (node_size c < size /\ node_size yes < size /\ node_size no < size)%nat as (? & ? & ?)
        by (simpl in Hsize; lia).
      cbn [well_formed] in Hw. to_prop. cbn [body]. rewrite <- app_assoc. cbn [app]. rewrite <- app_assoc. cbn [app].
      fold (tokens_of 1 c).
      destruct (operator_chain l size (Hsmall l) c 1 (TSym "?" :: body yes ++ TSym ":" :: body no ++ rest))
        as (first & mid & Ha & Hloop); [by left|done|unfold nesting_at; lia|by destruct c|lia|done|done|].
      run Ha. destruct (Hloop 0%nat (S (length mid)) ltac:(lia) ltac:(lia)) as (fuel & Hf & E).
      rewrite (binary_loop_stops l 0 c fuel) in E by done.
      run (E : over_tokens (binary_loop (expression l) 0 first) mid = _).
      change ((0 =? 0)%nat) with true. cbn beta iota.
      run (take_yes "?" (body yes ++ TSym ":" :: body no ++ rest)).
      run (back_top l yes (TSym ":" :: body no ++ rest) ltac:(by apply Hsmall) ltac:(lia) eq_refl).
      run (require_yes ":" (body no ++ rest)).
      assert (stops 0 rest = true) as Hs by (unfold stops; by rewrite H, H1, H0).
      by run (back_top l no rest ltac:(by apply Hsmall) ltac:(lia) Hs).
    - destruct (operator_chain l size (Hsmall l) n ctx rest) as (first & mid & Ha & Hloop);
        [right; split; [done|lia]|done|unfold nesting_at; by rewrite Hp|by destruct n|done|done|by eapply below_weaken; [|exact H1]; lia|].
      unfold tokens_of in Ha. rewrite Hp in Ha. cbn [wrap] in Ha.
      run Ha. destruct (Hloop ctx (S (length mid)) ltac:(lia) ltac:(lia)) as (fuel & Hf & E).
      rewrite (binary_loop_stops l ctx n fuel) in E by done.
      run (E : over_tokens (binary_loop (expression l) ctx first) mid = _).
      destruct (ctx =? 0)%nat; [|done]. simpl in H0. to_prop. by run (take_no "?" rest H0). }
  intros ctx rest Hctx Hl Hr. unfold nesting_at in Hl. unfold tokens_of.
  destruct (parens ctx n) eqn:Hp; [|destruct levels as [|l]; [lia|]; apply Hplain; [done..|lia|done]].
  destruct levels as [|l]; [lia|]. cbn [expression].
  assert (expression l 0 (body n ++ TSym ")" :: rest) = inr (n, TSym ")" :: rest)) as Hinner.
  { destruct l as [|l]; [lia|]. apply Hplain; [lia|apply parens_top|lia|done]. }
  assert (atom (expression l) (wrap true (body n) ++ rest) = inr (n, rest)) as Ha.
  { cbn [wrap app]. rewrite <- app_assoc. cbn [app]. unfold atom.
    match goal with |- _ (?x :: ?t) = _ => run (eq_refl : next (x :: t) = inr (Some x, t)) end.
    change (includes "(" ["!"; "-"; "+"]) with false. cbn beta iota. rewrite bool_decide_true by done.
    run Hinner. by run (require_yes ")" rest). }
  unfold stops in Hr. to_prop.
  run (primary_of_atom l n _ rest Ha H).
  run (binary_loop_stops l ctx n (S (length rest)) rest H1 ltac:(lia) : over_tokens (binary_loop (expression l) ctx n) rest = _).
  destruct (ctx =? 0)%nat; [|done]. simpl in H0. to_prop. by run (take_no "?" rest H0).
Qed.

(** C32: parsing inverts printing: every well-formed expression within the nesting
    limit, written with the fewest parentheses precedence allows, is read back as
    itself. Operators therefore bind by rank and to the left, suffixes bind tighter
    than unary operators, and both branches of a conditional are read whole. *)
Theorem parse_print (n : node) :
  well_formed n = true -> (nesting n < 64)%nat -> parse_tokens (tokens_of 0 n) = inr n.
Proof.
  intros Hw Hn. unfold parse_tokens, tokens_of. rewrite parens_top. cbn [wrap].
  pose proof (back_top 64 n [] (expression_back n Hw 64) Hn eq_refl) as H.
  rewrite app_nil_r in H. by rewrite H.
Qed.

Definition demo_node : node :=
  NConditional (NBinary "&&" (NBinary "<" (NBinary "-" (NReference "a") (NReference "b")) (NLiteral (PNum (num_of_Z 3)))) (NUnary "!" (NReference "c")))
    (NMember (NArray [NBinary "*" (NBinary "+" (NReference "a") (NLiteral (PStr "x"))) (NReference "b")]) (NLiteral (PNum (num_of_Z 0))))
    (NObject [("k", NFlatten (NReference "d") (NArray []))]).

Lemma parse_print_witness : parse_tokens (tokens_of 0 demo_node) = inr demo_node.
Proof. apply parse_print; [reflexivity|apply Nat.ltb_lt; reflexivity]. Defined.

(** What the printer writes for it. *)
Example demo_tokens : tokenize "a - b < 3 && !c ? [(a + 'x') * b][0] : {'k': flattenNestedKeys(d, [])}" = inr (tokens_of 0 demo_node).
Proof. vm_compute. reflexivity. Qed.
