(* ===== verification/SafeExprEval.v ===== *)
(** * Evaluating expressions: what is read, what comes out, and termination

    The static walk finds exactly the names an expression mentions
    ([references_exact]); evaluation reads nothing else of its context
    ([evaluation_reads_its_references]); what it returns is bounded plain data
    ([evaluation_returns_bounded_data]); it always ends ([evaluation_terminates]). *)
From S2P Require Export SafeExprParse.

(** ** The static walk *)

(** [x] is mentioned as a reference somewhere in the tree. *)
Inductive refers (x : string) : node -> Prop :=
  | refers_here : refers x (NReference x)
  | refers_child n m : In m (children n) -> refers x m -> refers x n.

Lemma sum_list_app (l1 l2 : list nat) : sum_list (l1 ++ l2) = (sum_list l1 + sum_list l2)%nat.
Proof. induction l1; simpl; lia. Qed.

Lemma sum_list_rev (l : list nat) : sum_list (rev l) = sum_list l.
Proof. induction l; simpl; [done|]. rewrite sum_list_app. simpl. lia. Qed.

Lemma node_size_children n : node_size n = S (sum_list (map node_size (children n))).
Proof. destruct n; simpl; rewrite ?map_map; lia. Qed.

Lemma node_size_pos n : (0 < node_size n)%nat.
Proof. rewrite node_size_children. lia. Qed.

Definition new_reference (n : node) (references : list string) : list string :=
  match n with NReference name => if includes name references then references else references ++ [name] | _ => references end.

Lemma new_reference_In x n references : In x (new_reference n references) <-> In x references \/ n = NReference x.
Proof.
  destruct n as [|name| | | | | | |]; simpl; try naive_solver. destruct (includes name references) eqn:E.
  - apply includes_In in E. naive_solver.
  - rewrite in_app_iff. simpl. naive_solver.
Qed.

Lemma new_reference_NoDup n references : List.NoDup references -> List.NoDup (new_reference n references).
Proof.
  destruct n as [|name| | | | | | |]; simpl; try done. destruct (includes name references) eqn:E; [done|].
  apply includes_false in E. intros H. apply NoDup_Add with (a := name) (l := references); [|done].
  rewrite <- (app_nil_r references) at 1. apply Add_app.
Qed.

(** Enough fuel: one unit per node on the stack. *)
Lemma reference_loop_spec fuel pending references :
  (sum_list (map node_size pending) <= fuel)%nat -> List.NoDup references ->
  exists refs, reference_loop fuel pending references = Some refs /\ List.NoDup refs /\
    forall x, In x refs <-> In x references \/ exists n, In n pending /\ refers x n.
Proof.
  revert pending references. induction fuel as [|fuel IH]; intros [|n rest] references Hf Hd; simpl.
  1,3: exists references; naive_solver.
  - pose proof (node_size_pos n). simpl in Hf. lia.
  - fold (new_reference n references). destruct (IH (rev (children n) ++ rest) (new_reference n references)) as (refs & H1 & H2 & H3).
    + rewrite map_app, sum_list_app, map_rev, sum_list_rev. simpl in Hf. rewrite node_size_children in Hf. lia.
    + by apply new_reference_NoDup.
    + exists refs. split; [done|]. split; [done|]. intros x. rewrite H3, new_reference_In. split.
      * intros [[Hx| ->]|(m & Hm & Hr)]; [by left|right; exists (NReference x); split; [by left|constructor]|].
        apply in_app_iff in Hm as [Hm%in_rev|Hm]; right; [exists n|exists m]; split; try (by left); try (by right); [|done].
        by eapply refers_child.
      * intros [Hx|(m & [<-|Hm] & Hr)]; [by left; left| |].
        -- destruct Hr as [|n m Hm Hr]; [by left; right|]. right. exists m. rewrite in_app_iff, <- in_rev. by split; [left|].
        -- right. exists m. rewrite in_app_iff. by split; [right|].
Qed.

(** The static dependency walk finds, without duplicates, exactly the names that
    occur as references anywhere in the parsed expression (both branches of a
    conditional, keys, paths), never a literal or a property name; it fails exactly
    when the expression does not parse, with the parser's error. *)
Theorem references_exact (script : string) :
  match parse_script script with
  | inl e => workflowExpressionReferences script = inl e
  | inr n => exists refs, workflowExpressionReferences script = inr refs /\ List.NoDup refs /\
      forall x, In x refs <-> refers x n
  end.
Proof.
  unfold workflowExpressionReferences. destruct (parse_script script) as [e|n]; [done|].
  destruct (reference_loop_spec (node_size n) [n] []) as (refs & -> & Hd & H); [simpl; lia|constructor|].
  exists refs. split; [done|]. split; [done|]. intros x. rewrite H. simpl. naive_solver.
Qed.

(** ** What an evaluation reads *)

Section same_roots.
Variables ctx1 ctx2 : list (string * option value).

Lemma evaluate_same levels n :
  (forall x, refers x n -> find_field x ctx1 = find_field x ctx2) ->
  forall b, evaluate ctx1 levels n b = evaluate ctx2 levels n b.
Proof.
  revert n. induction levels as [|levels IH]; intros n Hn b; [done|]. cbn [evaluate].
  apply bind_ext; [done|]. intros _ b1.
  assert (forall m, In m (children n) -> forall s, evaluate ctx1 levels m s = evaluate ctx2 levels m s) as Hc.
  { intros m Hm. apply IH. intros x Hx. apply Hn. by eapply refers_child. }
  destruct n as [p|name|items|entries|o k|op e|op l r|c yes no|d p]; cbn [children] in Hc.
  - done.
  - unfold ownData. cbn [property_key]. unfold checkKey. destruct (includes name forbidden); [done|].
    unfold mbind, st_bind, mret, st_ret. cbn [read_own own_property]. by rewrite (Hn name (refers_here name)).
  - apply bind_ext; [|done]. apply each_ext, List.Forall_forall. auto.
  - apply bind_ext; [|done]. apply each_ext, List.Forall_forall. intros kv Hkv s.
    apply bind_ext; [|done]. apply Hc. by apply in_map.
  - apply bind_ext; [apply Hc; by left|]. intros. apply bind_ext; [apply Hc; by right; left|done].
  - apply bind_ext; [apply Hc; by left|done].
  - apply bind_ext; [apply Hc; by left|]. intros v s.
    repeat (case_bool_decide; [match goal with |- (if ?t then _ else _) _ = _ => destruct t end; try done; apply Hc; by right; left|]).
    apply bind_ext; [apply Hc; by right; left|done].
  - apply bind_ext; [apply Hc; by left|]. intros v s. destruct (truthy_value v); apply Hc; simpl; tauto.
  - apply bind_ext; [apply Hc; by left|]. intros v s. apply bind_ext; [done|]. intros v' s'.
    apply bind_ext; [apply Hc; by right; left|done].
Qed.
End same_roots.

(** An evaluation reads nothing of its context but the roots the static walk
    reported: two contexts that agree on those own properties give the same result,
    the same error included. *)
Theorem evaluation_reads_its_references (script : string) ctx1 ctx2 refs :
  workflowExpressionReferences script = inr refs ->
  (forall x, In x refs -> find_field x ctx1 = find_field x ctx2) ->
  evaluateWorkflowExpression script ctx1 = evaluateWorkflowExpression script ctx2.
Proof.
  intros Hr Hc. unfold evaluateWorkflowExpression.
  enough (evaluateParsed script ctx1 = evaluateParsed script ctx2) as -> by done.
  unfold workflowExpressionReferences in Hr. unfold evaluateParsed.
  destruct (parse_script script) as [e|n] eqn:Hp; [done|].
  destruct (reference_loop_spec (node_size n) [n] []) as (refs' & E & _ & H); [simpl; lia|constructor|].
  rewrite E in Hr. injection Hr as ->.
  rewrite (bind_ext (evaluate ctx1 max_levels n) (evaluate ctx2 max_levels n) _ (copyData max_levels)); [done| |done].
  apply evaluate_same. intros x Hx. apply Hc, H. right. exists n. by split; [left|].
Qed.

Definition other_context : list (string * option value) :=
  [("unrelated", None); ("name", Some (vstr "Ada")); ("secret", Some (VOther IsFunction))].

Lemma evaluation_reads_its_references_witness :
  evaluateWorkflowExpression "'hi ' + name" demo_context = evaluateWorkflowExpression "'hi ' + name" other_context
  /\ evaluateParsed "'hi ' + name" other_context = inr (vstr "hi Ada").
Proof.
  split; [|vm_compute; reflexivity].
  apply (evaluation_reads_its_references _ _ _ ["name"]); [vm_compute; reflexivity|].
  intros x [<-|[]]. vm_compute. reflexivity.
Defined.

(** ** What an evaluation returns *)

(** Finite primitives, arrays and plain objects whose properties are data under allowed keys. *)
Fixpoint data_value (v : value) : bool :=
  match v with
  | VPrim (PNum x) => is_finite_num x
  | VPrim _ => true
  | VArray items => forallb data_value items
  | VObject plain fields => plain && forallb (fun kv =>
      negb (includes (fst kv) forbidden) && match snd kv with Some w => data_value w | None => false end) fields
  | VOther _ => false
  end.

Fixpoint value_nodes (v : value) : Z :=
  1 + match v with
      | VArray items => foldr Z.add 0 (map value_nodes items)
      | VObject _ fields => foldr Z.add 0 (map (fun kv => match snd kv with Some w => value_nodes w | None => 0 end) fields)
      | _ => 0
      end.

Definition text_length (s : string) : Z := Z.of_nat (String.length s).

Fixpoint value_text (v : value) : Z :=
  match v with
  | VPrim (PStr s) => text_length s
  | VArray items => foldr Z.add 0 (map value_text items)
  | VObject _ fields =>
      foldr Z.add 0 (map (fun kv => text_length (fst kv) + match snd kv with Some w => value_text w | None => 0 end) fields)
  | _ => 0
  end.

Fixpoint value_height (v : value) : nat :=
  S match v with
    | VArray items => max_list (map value_height items)
    | VObject _ fields => max_list (map (fun kv => match snd kv with Some w => value_height w | None => O end) fields)
    | _ => O
    end.

Definition within_budget (b : Budget) : Prop := visits b <= 10000 /\ characters b <= 1048576.

(** What a copy charges to the budget, and that it stays within it. *)
Definition charged (nodes text : Z) (b b' : Budget) : Prop :=
  visits b' = visits b + nodes /\ characters b' = characters b + text /\ (within_budget b -> within_budget b').

Lemma charged_refl b : charged 0 0 b b.
Proof. unfold charged. rewrite !Z.add_0_r. done. Qed.

Lemma charged_trans n1 t1 n2 t2 b1 b2 b3 :
  charged n1 t1 b1 b2 -> charged n2 t2 b2 b3 -> charged (n1 + n2) (t1 + t2) b1 b3.
Proof. unfold charged. intros (? & ? & ?) (? & ? & ?). split_and!; [lia|lia|auto]. Qed.

Lemma visit_charged b u b' : visit b = inr (u, b') -> charged 1 0 b b'.
Proof.
  unfold visit. cbn [visits characters]. destruct (visits b + 1 >? 10000) eqn:E; [done|]. intros [= _ <-].
  unfold charged, within_budget. cbn. rewrite Z.gtb_ltb in E. to_prop. lia.
Qed.

Lemma budget_string_charged s b t b' : budget_string s b = inr (t, b') -> t = s /\ charged 0 (text_length s) b b'.
Proof.
  unfold budget_string. cbn [visits characters]. destruct (_ >? 1048576) eqn:E; [done|]. intros [= <- <-].
  unfold charged, within_budget, text_length. cbn [visits characters]. rewrite Z.gtb_ltb in E. to_prop. split; [done|]. lia.
Qed.

Lemma checkKey_inr {S} key (s s' : S) k : checkKey key s = inr (k, s') -> k = key /\ s' = s /\ includes key forbidden = false.
Proof. unfold checkKey. destruct (includes key forbidden); [done|]. by intros [-> ->]%ret_inr. Qed.

Lemma primitive_inr {S} v (s s' : S) p : primitive v s = inr (p, s') -> v = VPrim p /\ s' = s /\ data_value (VPrim p) = true.
Proof.
  unfold primitive. destruct v as [[| |b|x|t]| | |]; try done.
  1-3: by intros [-> ->]%ret_inr.
  - destruct (is_finite_num x) eqn:E; [|done]. by intros [-> ->]%ret_inr.
  - destruct (_ <? _)%nat; [done|]. by intros [-> ->]%ret_inr.
Qed.

(** The copy of [v]: data, within [levels], charged to the budget node by node. *)
Definition copied (levels : nat) (b : Budget) (w : value) (b' : Budget) : Prop :=
  data_value w = true /\ (value_height w <= levels)%nat /\ charged (value_nodes w) (value_text w) b b'.

Lemma each_copied {A} (f : A -> eval value) levels items b ws b' :
  (forall x, ensures (f x) (copied levels)) -> each f items b = inr (ws, b') ->
  forallb data_value ws = true /\ (max_list (map value_height ws) <= levels)%nat /\
  charged (foldr Z.add 0 (map value_nodes ws)) (foldr Z.add 0 (map value_text ws)) b b'.
Proof.
  intros Hf. revert b ws. induction items as [|x items IH]; intros b ws H.
  - apply ret_inr in H as [-> ->]. split_and!; [done|simpl; lia|apply charged_refl].
  - apply each_cons_inr in H as (y & ys & b1 & Hy & Hys & ->). apply Hf in Hy as (H1 & H2 & H3).
    destruct (IH _ _ Hys) as (I1 & I2 & I3). simpl. rewrite H1. split_and!; [done|lia|by eapply charged_trans].
Qed.

Definition copied_field (levels : nat) (b : Budget) (kv : string * option value) (b' : Budget) : Prop :=
  exists w, snd kv = Some w /\ includes (fst kv) forbidden = false /\ data_value w = true /\
    (value_height w <= levels)%nat /\ charged (value_nodes w) (text_length (fst kv) + value_text w) b b'.

Lemma each_copied_fields {A} (f : A -> eval (string * option value)) levels fields b kvs b' :
  (forall x, ensures (f x) (copied_field levels)) -> each f fields b = inr (kvs, b') ->
  forallb (fun kv => negb (includes (fst kv) forbidden) && match snd kv with Some w => data_value w | None => false end) kvs = true /\
  (max_list (map (fun kv => match snd kv with Some w => value_height w | None => O end) kvs) <= levels)%nat /\
  charged (foldr Z.add 0 (map (fun kv => match snd kv with Some w => value_nodes w | None => 0 end) kvs))
    (foldr Z.add 0 (map (fun kv => text_length (fst kv) + match snd kv with Some w => value_text w | None => 0 end) kvs)) b b'.
Proof.
  intros Hf. revert b kvs. induction fields as [|x fields IH]; intros b kvs H.
  - apply ret_inr in H as [-> ->]. split_and!; [done|simpl; lia|apply charged_refl].
  - apply each_cons_inr in H as ([k o] & ys & b1 & Hy & Hys & ->). apply Hf in Hy as (w & Ho & Hk & H1 & H2 & H3).
    simpl in Ho. subst o. destruct (IH _ _ Hys) as (I1 & I2 & I3). simpl in *. rewrite Hk, H1.
    split_and!; [done|lia|by eapply charged_trans].
Qed.

Lemma copyData_copied levels v : ensures (copyData levels v) (copied levels).
Proof.
  revert v. induction levels as [|levels IH]; intros v; [by apply ensures_throw|].
  intros b w b' H. cbn [copyData] in H. apply bind_inr in H as (u & b1 & H1%visit_charged & H).
  destruct v as [p|items|plain fields|k].
  - assert ((exists s, p = PStr s /\ (t ← budget_string s; mret (VPrim (PStr t))) b1 = inr (w, b')) \/
            (forall s, p <> PStr s) /\ (q ← primitive (VPrim p); mret (VPrim q)) b1 = inr (w, b')) as [(s & -> & Hs)|[Hn Hp]]
      by (destruct p; eauto; by right).
    + apply bind_inr in Hs as (t & b2 & [-> Hc]%budget_string_charged & [-> ->]%ret_inr).
      split_and!; [done|simpl; lia|]. by apply (charged_trans _ _ _ _ _ _ _ H1 Hc).
    + apply bind_inr in Hp as (q & b2 & (Eq & -> & Hd)%primitive_inr & [-> ->]%ret_inr). injection Eq as <-.
      destruct p; try (split_and!; [done|simpl; lia|exact H1]). by destruct (Hn s).
  - destruct (10000 <? length items)%nat; [done|].
    apply bind_inr in H as (ws & b2 & Hw & [-> ->]%ret_inr).
    destruct (each_copied _ levels _ _ _ _ IH Hw) as (I1 & I2 & I3).
    split_and!; [exact I1|simpl; lia|]. exact (charged_trans _ _ _ _ _ _ _ H1 I3).
  - destruct plain; [|done]. apply bind_inr in H as (kvs & b2 & Hw & [-> ->]%ret_inr).
    eapply (each_copied_fields _ levels) in Hw as (I1 & I2 & I3); cycle 1.
    { intros [k o] c kv c' E. apply bind_inr in E as (t & c1 & [-> Ht]%budget_string_charged & E).
      apply bind_inr in E as (key & c2 & (-> & -> & Hk)%checkKey_inr & E).
      destruct o as [d|]; [|by apply bind_inr in E as (? & ? & E & _)].
      apply bind_inr in E as (d' & c3 & [-> ->]%ret_inr & E).
      apply bind_inr in E as (y & c4 & Hy%IH & [-> ->]%ret_inr). destruct Hy as (Y1 & Y2 & Y3).
      exists y. split_and!; [done|done|done|done|]. exact (charged_trans _ _ _ _ _ _ _ Ht Y3). }
    split_and!; [exact I1|simpl; lia|]. exact (charged_trans _ _ _ _ _ _ _ H1 I3).
  - apply bind_inr in H as (q & b2 & (Eq & _)%primitive_inr & _). discriminate.
Qed.

(** *** The evaluator never leaves its budget *)

Definition spends (b b' : Budget) : Prop :=
  visits b <= visits b' /\ characters b <= characters b' /\ (within_budget b -> within_budget b').

#[export] Instance spends_preorder : PreOrder spends.
Proof. split; [done|]. unfold spends. intros x y z ? ?. intuition lia. Qed.

Lemma charged_spends n t b b' : 0 <= n -> 0 <= t -> charged n t b b' -> spends b b'.
Proof. unfold charged, spends. intuition lia. Qed.

Lemma visit_spends : respects spends visit.
Proof. intros b u b' H%visit_charged. by eapply charged_spends; [..|exact H]. Qed.

Lemma budget_string_spends s : respects spends (budget_string s).
Proof. intros b u b' [_ H]%budget_string_charged. eapply charged_spends; [..|exact H]; unfold text_length; lia. Qed.

(** Steps that leave the budget alone. *)
Lemma checkKey_spends key : respects spends (checkKey key).
Proof. unfold checkKey. destruct (includes key forbidden); [apply respects_throw|apply respects_ret, _]. Qed.

Lemma primitive_spends v : respects spends (primitive v).
Proof. by intros b p b' (_ & -> & _)%primitive_inr. Qed.

Lemma read_own_spends o name : respects spends (read_own o name).
Proof.
  assert (forall (r : option (option value)), respects spends
    (match r with None => mret (VPrim PUndefined) | Some None => fail "accessor property" | Some (Some v) => mret v end)) as H.
  { intros [[v|]|]; [apply respects_ret, _|apply respects_throw|apply respects_ret, _]. }
  unfold read_own. destruct o as [[]| | |[]]; try apply H; try (apply respects_ret, _); apply respects_throw.
Qed.

Lemma ownData_spends o k : respects spends (ownData o k).
Proof.
  unfold ownData. destruct (property_key k); [|apply respects_throw].
  apply respects_bind; [apply _|apply checkKey_spends|]. intros. apply read_own_spends.
Qed.
#[export] Hint Resolve visit_spends budget_string_spends checkKey_spends primitive_spends read_own_spends ownData_spends : effects.

Ltac spend := repeat
  match goal with
  | |- respects _ (mbind _ _) => apply respects_bind; [apply _| |intros ?]
  | |- respects _ (mret _) => apply respects_ret, _
  | |- respects _ (fail _) => apply respects_throw
  | |- respects _ (each _ _) => apply respects_each; [apply _|intros ? ?]
  | |- respects _ (match ?x with _ => _ end) => destruct x
  | |- _ => solve [auto with effects]
  end.

Lemma copyData_spends levels v : respects spends (copyData levels v).
Proof. revert v. induction levels as [|levels IH]; intros v; cbn [copyData]; spend. Qed.

Lemma flatten_walk_spends levels path position v : respects spends (flatten_walk levels path position v).
Proof. revert position v. induction levels as [|levels IH]; intros position v; cbn [flatten_walk]; spend. Qed.

Lemma binary_spends operator a b : respects spends (binary operator a b).
Proof. unfold binary. spend. Qed.
#[export] Hint Resolve copyData_spends flatten_walk_spends binary_spends : effects.

Lemma evaluate_spends context levels n : respects spends (evaluate context levels n).
Proof. revert n. induction levels as [|levels IH]; intros n; cbn [evaluate]; spend. Qed.
#[export] Hint Resolve evaluate_spends : effects.

(** C35: whatever an evaluation returns is plain, bounded data: finite primitives,
    arrays and plain objects whose keys are never __proto__, prototype or
    constructor and whose properties are never accessors or functions; at most
    10000 values, 1048576 characters of text and keys, nested at most 65 deep. *)
Theorem evaluation_returns_bounded_data (script : string) context v :
  evaluateWorkflowExpression script context = inr v ->
  data_value v = true /\ value_nodes v <= 10000 /\ value_text v <= 1048576 /\ (value_height v <= 65)%nat.
Proof.
  unfold evaluateWorkflowExpression. destruct (evaluateParsed script context) as [e|w] eqn:E; [done|]. intros [= ->].
  unfold evaluateParsed in E. destruct (parse_script script) as [|tree]; [done|].
  destruct ((w ← evaluate context max_levels tree; copyData max_levels w) new_budget) as [e|[w b]] eqn:Er; [done|].
  injection E as ->. apply bind_inr in Er as (w & b1 & H1%evaluate_spends & (D & Hh & Hv & Hc & Hw)%copyData_copied).
  destruct H1 as (V1 & C1 & W1). cbn [visits characters new_budget] in V1, C1.
  destruct (Hw (W1 ltac:(done))) as [H2 H3]. split_and!; [done|lia|lia|exact Hh].
Qed.

Lemma evaluation_returns_bounded_data_witness :
  data_value (VArray [vnum 1; vobj [("b", vstr "Ada")]]) = true /\ value_nodes (VArray [vnum 1; vobj [("b", vstr "Ada")]]) <= 10000.
Proof.
  edestruct (evaluation_returns_bounded_data "missing?.deep ?? [1, {b: name}]" demo_context) as (H1 & H2 & _);
    [vm_compute; reflexivity|]. split; [exact H1|exact H2].
Defined.

(** ** Termination *)

Ltac no_fuel := repeat
  match goal with
  | |- never _ (mbind _ _) => apply never_bind; [|intros ?]
  | |- never _ (mret _) => apply never_ret
  | |- never _ (fail _) => intros ?; discriminate
  | |- never _ (each _ _) => apply never_each; intros ? ?
  | |- never _ (match ?x with _ => _ end) => destruct x
  | |- _ => solve [auto with effects]
  end.

Lemma checkKey_never {S} key : never (S:=S) OutOfFuel (checkKey key).
Proof. unfold checkKey. no_fuel. Qed.

Lemma visit_never : never OutOfFuel visit.
Proof. intros b. unfold visit. by destruct (_ >? _). Qed.

Lemma budget_string_never s : never OutOfFuel (budget_string s).
Proof. intros b. unfold budget_string. by destruct (_ >? _). Qed.

Lemma primitive_never {S} v : never (S:=S) OutOfFuel (primitive v).
Proof. unfold primitive. no_fuel. Qed.

Lemma read_own_never {S} o name : never (S:=S) OutOfFuel (read_own o name).
Proof. unfold read_own. no_fuel. Qed.
#[export] Hint Resolve checkKey_never visit_never budget_string_never primitive_never read_own_never : effects.

Lemma ownData_never {S} o k : never (S:=S) OutOfFuel (ownData o k).
Proof. unfold ownData. no_fuel. Qed.

Lemma copyData_never levels v : never OutOfFuel (copyData levels v).
Proof. revert v. induction levels as [|levels IH]; intros v; cbn [copyData]; no_fuel. Qed.

Lemma flatten_walk_never levels path position v : never OutOfFuel (flatten_walk levels path position v).
Proof. revert position v. induction levels as [|levels IH]; intros position v; cbn [flatten_walk]; no_fuel. Qed.

Lemma binary_never {S} operator a b : never (S:=S) OutOfFuel (binary operator a b).
Proof. unfold binary. no_fuel. Qed.
#[export] Hint Resolve ownData_never copyData_never flatten_walk_never binary_never : effects.

Lemma evaluate_never context levels n : never OutOfFuel (evaluate context levels n).
Proof. revert n. induction levels as [|levels IH]; intros n; cbn [evaluate]; no_fuel. Qed.
#[export] Hint Resolve evaluate_never : effects.

(** Evaluation always ends: tokenizing, parsing, walking the references and
    evaluating return a result or one of the source's own errors, on every script
    and context; no loop of the model is ever cut short. *)
Theorem evaluation_terminates (script : string) context :
  parse_script script <> inl OutOfFuel /\ workflowExpressionReferences script <> inl OutOfFuel /\
  evaluateParsed script context <> inl OutOfFuel.
Proof.
  pose proof (parse_script_terminates script) as Hp. split; [done|]. split.
  - unfold workflowExpressionReferences. destruct (parse_script script) as [e|n]; [congruence|].
    destruct (reference_loop_spec (node_size n) [n] []) as (refs & -> & _); [simpl; lia|constructor|done].
  - unfold evaluateParsed. destruct (parse_script script) as [e|tree]; [congruence|].
    assert (never OutOfFuel (w ← evaluate context max_levels tree; copyData max_levels w)) as H by no_fuel.
    specialize (H new_budget). destruct ((w ← evaluate _ _ tree; _) new_budget) as [e|[]]; congruence.
Qed.
