(* ===== verification/SidecarScheduler.v ===== *)
(** * The sidecar event scheduler (sidecar/scheduler.ts)

    One priority queue per connected sidecar, drained round-robin in batches by a
    timer. [enqueue] is the overflow policy and the stable insertion; [drain] is
    split at the awaits of its handlers ([drain_start], [drain_next]), so that
    events arrive and sidecars disconnect while a handler runs. Every operation
    returns what it did as a list of [Effect]s. A handler is a name; what it does
    is its owner's. *)
From S2P Require Export Json JsMap.

(** ** Data *)

(** [validateEvent] (sidecar/validator.ts) refuses an event whose priority is none of these, before
    the connection enqueues it. *)
Inductive EventPriority := critical | high | normal_priority | low.

Record SidecarEvent := mkSidecarEvent {
  event_type : string;
  ev_timestamp : Z;
  ev_payload : json;
  ev_priority : option EventPriority;
}.

Record QueuedEvent := mkQueued {
  q_sidecar : string;
  q_event : SidecarEvent;
  q_priority : EventPriority;
  q_enqueuedAt : Z;
}.

#[export] Instance priority_eq_dec : EqDecision EventPriority.
Proof. solve_decision. Defined.

Definition MAX_QUEUE_PER_SIDECAR : nat := 500.
Definition DRAIN_BATCH_PER_TICK : nat := 10.
Definition UNDROPPABLE_TYPES : list string := ["rpc_result"; "rpc_progress"].
Definition DROP_LOG_INTERVAL_MS : Z := 5000.

Definition priorityWeight (p : EventPriority) : Z :=
  match p with critical => 0 | high => 1 | normal_priority => 2 | low => 3 end.
Definition weight (q : QueuedEvent) : Z := priorityWeight (q_priority q).

Definition undroppable (e : SidecarEvent) : bool := includes (event_type e) UNDROPPABLE_TYPES.
Definition droppable (q : QueuedEvent) : bool := negb (undroppable (q_event q)).

Notation handler := nat (only parsing).

Record EventScheduler := mkScheduler {
  queues : list (string * list QueuedEvent);
  sidecarIds : list string;
  roundRobinIndex : nat;
  handlers : list (string * list handler);
  directTypes : list string;
  running : bool;
  (** A drain is in progress, after so many dispatches. *)
  processing : option nat;
  droppedCount : Z;
  droppedLastAt : Z;
  droppedBySidecar : list (string * Z);
  dropLogLastAt : list (string * Z);
  dropLogSuppressed : list (string * Z);
}.

Definition new_scheduler : EventScheduler := mkScheduler [] [] 0 [] [] false None 0 0 [] [] [].

Inductive Effect :=
  | Calls (h : handler) (sidecar : string) (e : SidecarEvent)
  | Dispatched (q : QueuedEvent)
  | Dropped (q : QueuedEvent)
  | Discarded (q : QueuedEvent)
  | Logged (sidecar : string) (suppressed : Z).

Definition set_queues (s : EventScheduler) (qs : list (string * list QueuedEvent)) (ids : list string) (rr : nat) : EventScheduler :=
  mkScheduler qs ids rr (handlers s) (directTypes s) (running s) (processing s) (droppedCount s) (droppedLastAt s)
    (droppedBySidecar s) (dropLogLastAt s) (dropLogSuppressed s).
Definition set_processing (s : EventScheduler) (p : option nat) : EventScheduler :=
  mkScheduler (queues s) (sidecarIds s) (roundRobinIndex s) (handlers s) (directTypes s) (running s) p (droppedCount s)
    (droppedLastAt s) (droppedBySidecar s) (dropLogLastAt s) (dropLogSuppressed s).

(** ** Registration *)

Definition on (s : EventScheduler) (eventType : string) (h : handler) : EventScheduler :=
  mkScheduler (queues s) (sidecarIds s) (roundRobinIndex s)
    (map_set eventType (((map_get eventType (handlers s)) ?? []) ++ [h]) (handlers s))
    (directTypes s) (running s) (processing s) (droppedCount s) (droppedLastAt s) (droppedBySidecar s) (dropLogLastAt s) (dropLogSuppressed s).

Definition setDirectTypes (s : EventScheduler) (types : list string) : EventScheduler :=
  mkScheduler (queues s) (sidecarIds s) (roundRobinIndex s) (handlers s)
    (directTypes s ++ List.filter (fun t => negb (includes t (directTypes s))) (dedup types))
    (running s) (processing s) (droppedCount s) (droppedLastAt s) (droppedBySidecar s) (dropLogLastAt s) (dropLogSuppressed s).

(** The handlers of an event, its own first, then the wildcard's. *)
Definition all_handlers (s : EventScheduler) (e : SidecarEvent) : list handler :=
  ((map_get (event_type e) (handlers s)) ?? []) ++ ((map_get "*" (handlers s)) ?? []).

(** ** Overflow policy and insertion *)

Definition recordDrop (s : EventScheduler) (now : Z) (sidecarId : string) (dropped : QueuedEvent) : EventScheduler * list Effect :=
  let lastLog := (map_get sidecarId (dropLogLastAt s)) ?? 0 in
  let suppressed := (map_get sidecarId (dropLogSuppressed s)) ?? 0 in
  let quiet := now - lastLog <? DROP_LOG_INTERVAL_MS in
  (mkScheduler (queues s) (sidecarIds s) (roundRobinIndex s) (handlers s) (directTypes s) (running s) (processing s)
     (droppedCount s + 1) now
     (map_set sidecarId (((map_get sidecarId (droppedBySidecar s)) ?? 0) + 1) (droppedBySidecar s))
     (if quiet then dropLogLastAt s else map_set sidecarId now (dropLogLastAt s))
     (map_set sidecarId (if quiet then suppressed + 1 else 0) (dropLogSuppressed s)),
   Dropped dropped :: (if quiet then [] else [Logged sidecarId suppressed])).

(** [queue.splice(queue.indexOf(victim), 1)] for the first element that satisfies [p]. *)
Fixpoint remove_first (p : QueuedEvent -> bool) (queue : list QueuedEvent) : list QueuedEvent :=
  match queue with
  | [] => []
  | q :: rest => if p q then rest else q :: remove_first p rest
  end.

(** What the full queue does with an incoming event: refuse it, or make room. *)
Inductive Admission :=
  | Refuse
  | Admit (queue : list QueuedEvent) (victim : option QueuedEvent).

Definition make_room (queue : list QueuedEvent) (item : QueuedEvent) : Admission :=
  if (MAX_QUEUE_PER_SIDECAR <=? length queue)%nat then
    let candidates := List.filter droppable queue in
    match last candidates with
    | None => if undroppable (q_event item) then Admit queue None else Refuse
    | Some tail =>
        if (weight item >? weight tail) && negb (undroppable (q_event item)) then Refuse
        else
          let is_victim q := droppable q && (weight q =? weight tail) in
          Admit (remove_first is_victim queue) (List.find is_victim queue)
    end
  else Admit queue None.

(** The insertion point, from the end: after the items of the same or a lower weight. *)
Fixpoint insert_from_end (item : QueuedEvent) (reversed : list QueuedEvent) : list QueuedEvent :=
  match reversed with
  | q :: rest => if weight q >? weight item then q :: insert_from_end item rest else item :: reversed
  | [] => [item]
  end.
Definition insert_item (item : QueuedEvent) (queue : list QueuedEvent) : list QueuedEvent :=
  rev (insert_from_end item (rev queue)).

Definition queue_item (now : Z) (sidecarId : string) (e : SidecarEvent) (priority : option EventPriority) : QueuedEvent :=
  mkQueued sidecarId e (priority ?? (ev_priority e ?? normal_priority)) now.

Definition enqueue (s : EventScheduler) (now : Z) (sidecarId : string) (e : SidecarEvent) (priority : option EventPriority)
    : EventScheduler * list Effect :=
  if includes (event_type e) (directTypes s) then
    (s, map (fun h => Calls h sidecarId e) (all_handlers s e))
  else
    let '(queue, ids) := match map_get sidecarId (queues s) with
                         | Some q => (q, sidecarIds s)
                         | None => ([], sidecarIds s ++ [sidecarId])
                         end in
    let item := queue_item now sidecarId e priority in
    let stored q := set_queues s (map_set sidecarId q (queues s)) ids (roundRobinIndex s) in
    match make_room queue item with
    | Refuse => recordDrop (stored queue) now sidecarId item
    | Admit rest None => (stored (insert_item item rest), [])
    | Admit rest (Some victim) => recordDrop (stored (insert_item item rest)) now sidecarId victim
    end.

(** ** Disconnection and the loop *)

Definition removeSidecar (s : EventScheduler) (sidecarId : string) : EventScheduler * list Effect :=
  let ids := List.filter (fun id => negb (bool_decide (id = sidecarId))) (sidecarIds s) in
  (mkScheduler (map_delete sidecarId (queues s)) ids
     (if (length ids <=? roundRobinIndex s)%nat then 0%nat else roundRobinIndex s)
     (handlers s) (directTypes s) (running s) (processing s) (droppedCount s) (droppedLastAt s) (droppedBySidecar s)
     (map_delete sidecarId (dropLogLastAt s)) (map_delete sidecarId (dropLogSuppressed s)),
   map Discarded ((map_get sidecarId (queues s)) ?? [])).

Definition start (s : EventScheduler) : EventScheduler :=
  mkScheduler (queues s) (sidecarIds s) (roundRobinIndex s) (handlers s) (directTypes s) true (processing s)
    (droppedCount s) (droppedLastAt s) (droppedBySidecar s) (dropLogLastAt s) (dropLogSuppressed s).
Definition stop (s : EventScheduler) : EventScheduler :=
  mkScheduler (queues s) (sidecarIds s) (roundRobinIndex s) (handlers s) (directTypes s) false (processing s)
    (droppedCount s) (droppedLastAt s) (droppedBySidecar s) (dropLogLastAt s) (dropLogSuppressed s).

(** The scan of [nextItem], [n] positions left from offset [i]. *)
Fixpoint next_from (s : EventScheduler) (i n : nat) : option (QueuedEvent * EventScheduler) :=
  match n with
  | O => None
  | S n' =>
      let count := length (sidecarIds s) in
      let idx := ((roundRobinIndex s + i) mod count)%nat in
      match sidecarIds s !! idx ≫= fun id => (fun q => (id, q)) <$> map_get id (queues s) with
      | Some (id, item :: rest) =>
          Some (item, set_queues s (map_set id rest (queues s)) (sidecarIds s) ((idx + 1) mod count)%nat)
      | _ => next_from s (S i) n'
      end
  end.
Definition nextItem (s : EventScheduler) : option (QueuedEvent * EventScheduler) := next_from s 0 (length (sidecarIds s)).

(** A timer tick: nothing while a drain is in progress. *)
Definition drain_start (s : EventScheduler) : EventScheduler :=
  match processing s with
  | Some _ => s
  | None => if (length (sidecarIds s) =? 0)%nat then s else set_processing s (Some 0%nat)
  end.

(** One iteration of the drain in progress, up to the next await or its end. *)
Definition drain_next (s : EventScheduler) : EventScheduler * list Effect :=
  match processing s with
  | None => (s, [])
  | Some dispatched =>
      if (dispatched <? DRAIN_BATCH_PER_TICK)%nat then
        match nextItem s with
        | None => (set_processing s None, [])
        | Some (item, s') =>
            (set_processing s' (Some (S dispatched)),
             Dispatched item :: map (fun h => Calls h (q_sidecar item) (q_event item)) (all_handlers s' (q_event item)))
        end
      else (set_processing s None, [])
  end.

(** ** Sequences of operations *)

Inductive SchedulerOp :=
  | OpOn (eventType : string) (h : handler)
  | OpDirect (types : list string)
  | OpEnqueue (now : Z) (sidecarId : string) (e : SidecarEvent) (priority : option EventPriority)
  | OpRemove (sidecarId : string)
  | OpStart
  | OpStop
  | OpTick
  | OpContinue.

Definition scheduler_op (s : EventScheduler) (op : SchedulerOp) : EventScheduler * list Effect :=
  match op with
  | OpOn t h => (on s t h, [])
  | OpDirect ts => (setDirectTypes s ts, [])
  | OpEnqueue now id e p => enqueue s now id e p
  | OpRemove id => removeSidecar s id
  | OpStart => (start s, [])
  | OpStop => (stop s, [])
  | OpTick => (drain_start s, [])
  | OpContinue => drain_next s
  end.

Fixpoint scheduler_ops (s : EventScheduler) (ops : list SchedulerOp) : EventScheduler * list Effect :=
  match ops with
  | [] => (s, [])
  | op :: rest =>
      let '(s1, out1) := scheduler_op s op in
      let '(s2, out2) := scheduler_ops s1 rest in
      (s2, out1 ++ out2)
  end.

(** ** Order inside a queue *)

Definition in_order (a b : QueuedEvent) : bool := weight a <=? weight b.
Definition sorted_queue (q : list QueuedEvent) : Prop := StronglySorted (fun a b => in_order a b = true) q.

Lemma in_order_total a b : in_order a b = true \/ in_order b a = true.
Proof. unfold in_order. rewrite !Z.leb_le. lia. Qed.

Lemma in_order_trans a b c : in_order a b = true -> in_order b c = true -> in_order a c = true.
Proof. unfold in_order. rewrite !Z.leb_le. lia. Qed.

(** Where the insertion of [x] splits a sorted queue. *)
Lemma sorted_split x q : sorted_queue q -> exists a b, q = a ++ b /\
  List.Forall (fun y => weight y <= weight x) a /\ List.Forall (fun y => weight x < weight y) b.
Proof.
  induction 1 as [|y q Hs (a & b & -> & Ha & Hb) Hall]; [by exists [], []|].
  destruct (decide (weight y <= weight x)).
  - exists (y :: a), b. split_and!; [done|by constructor|done].
  - exists [], (y :: a ++ b). split_and!; [done|constructor|]. constructor; [lia|].
    apply List.Forall_forall. intros z Hz. rewrite List.Forall_forall in Hall. specialize (Hall z Hz).
    unfold in_order in Hall. to_prop. lia.
Qed.

Lemma insert_by_split x a b : List.Forall (fun y => weight y <= weight x) a -> List.Forall (fun y => weight x < weight y) b ->
  insert_by in_order x (a ++ b) = a ++ x :: b.
Proof.
  intros Ha Hb. induction Ha as [|y a Hy Ha IH]; simpl.
  - destruct Hb as [|y b Hy Hb]; simpl; [done|]. unfold in_order. by rewrite (proj2 (Z.leb_gt _ _) Hy).
  - unfold in_order at 1. rewrite (proj2 (Z.leb_le _ _) Hy). by rewrite IH.
Qed.

Lemma insert_item_split x a b : List.Forall (fun y => weight y <= weight x) a -> List.Forall (fun y => weight x < weight y) b ->
  insert_item x (a ++ b) = a ++ x :: b.
Proof.
  intros Ha Hb. unfold insert_item. rewrite rev_app_distr.
  assert (forall l r, List.Forall (fun y => weight x < weight y) l ->
    insert_from_end x (l ++ r) = l ++ insert_from_end x r) as Happ.
  { intros l r Hl. induction Hl as [|y l Hy Hl IH]; simpl; [done|]. rewrite IH.
    destruct (weight y >? weight x) eqn:E; [done|]. rewrite Z.gtb_ltb in E. to_prop. lia. }
  rewrite Happ by (by apply List.Forall_rev).
  assert (insert_from_end x (rev a) = x :: rev a) as ->.
  { apply List.Forall_rev in Ha. destruct Ha as [|y l Hy Hl]; simpl; [done|].
    destruct (weight y >? weight x) eqn:E; [|done]. rewrite Z.gtb_ltb in E. to_prop. lia. }
  rewrite rev_app_distr. simpl. by rewrite !rev_involutive, <- app_assoc.
Qed.

Lemma insert_item_by x q : sorted_queue q -> insert_item x q = insert_by in_order x q.
Proof.
  intros (a & b & -> & Ha & Hb)%(sorted_split x). by rewrite insert_item_split, insert_by_split.
Qed.

Lemma insert_item_sorted x q : sorted_queue q -> sorted_queue (insert_item x q).
Proof.
  intros Hq. rewrite insert_item_by by done.
  apply insert_by_sorted; [apply in_order_total|apply in_order_trans|done].
Qed.

Lemma insert_item_perm x q : insert_item x q ≡ₚ x :: q.
Proof.
  unfold insert_item. rewrite <- Permutation_rev.
  assert (forall l, insert_from_end x l ≡ₚ x :: l) as H.
  { induction l as [|y l IH]; simpl; [done|]. destruct (_ >? _); [|done]. rewrite IH. apply perm_swap. }
  by rewrite H, <- Permutation_rev.
Qed.

(** The insertion that scans from the end gives the queue that pushing the event
    and sorting stably by priority would give: the reference it replaces. *)
Theorem insertion_is_push_and_sort (item : QueuedEvent) (queue : list QueuedEvent) :
  sorted_queue queue -> insert_item item queue = sort_by in_order (queue ++ [item]).
Proof.
  intros Hq. rewrite insert_item_by by done. unfold sort_by. rewrite foldl_app. simpl. f_equal.
  symmetry. by apply sort_by_id.
Qed.

Definition demo_event (t : string) (p : EventPriority) : SidecarEvent := mkSidecarEvent t 0 JNull (Some p).
Definition demo_item (t : string) (p : EventPriority) : QueuedEvent := mkQueued "a" (demo_event t p) p 0.

Lemma insertion_is_push_and_sort_witness :
  insert_item (demo_item "z" high) [demo_item "x" critical; demo_item "y" high; demo_item "w" low]
  = sort_by in_order ([demo_item "x" critical; demo_item "y" high; demo_item "w" low] ++ [demo_item "z" high])
  /\ map (fun q => event_type (q_event q)) (insert_item (demo_item "z" high) [demo_item "x" critical; demo_item "y" high; demo_item "w" low])
     = ["x"; "y"; "z"; "w"].
Proof. split; [|reflexivity]. apply insertion_is_push_and_sort. repeat constructor. Defined.

(** ** The overflow policy *)

Lemma remove_first_perm p q x : List.find p q = Some x -> q ≡ₚ x :: remove_first p q.
Proof.
  induction q as [|y q IH]; simpl; [done|]. destruct (p y); [by intros [= ->]|].
  intros H. rewrite (IH H) at 1. apply perm_swap.
Qed.

Lemma remove_first_sublist p q x : In x (remove_first p q) -> In x q.
Proof. induction q as [|y q IH]; simpl; [done|]. destruct (p y); simpl; tauto. Qed.

Lemma remove_first_sorted p q : sorted_queue q -> sorted_queue (remove_first p q).
Proof.
  induction 1 as [|y q Hs IH Hall]; simpl; [constructor|]. destruct (p y); [done|]. constructor; [done|].
  apply List.Forall_forall. intros z Hz%remove_first_sublist. rewrite List.Forall_forall in Hall. by apply Hall.
Qed.

(** A queue is full only of events it may not drop, or within its bound. *)
Definition bounded_queue (q : list QueuedEvent) : Prop :=
  (length q <= MAX_QUEUE_PER_SIDECAR)%nat \/ List.Forall (fun x => droppable x = false) q.

Lemma last_filter_Some (p : QueuedEvent -> bool) q x : last (List.filter p q) = Some x -> In x q /\ p x = true.
Proof. intros H. apply last_Some in H as [l H]. apply List.filter_In. rewrite H. apply in_app_iff. right. by left. Qed.

Lemma last_filter_None (p : QueuedEvent -> bool) q : last (List.filter p q) = None -> List.Forall (fun x => p x = false) q.
Proof. intros H%last_None. apply List.Forall_forall. by apply filter_nil_iff. Qed.

(** What [make_room] answers: the queue it leaves is the old one less the victim, and a
    refused or evicted event is always one that may be dropped. *)
Lemma make_room_spec q item : sorted_queue q -> bounded_queue q ->
  match make_room q item with
  | Refuse => droppable item = true
  | Admit rest victim =>
      sorted_queue rest /\ q ≡ₚ option_list victim ++ rest /\ bounded_queue (insert_item item rest) /\
      (forall v, victim = Some v -> droppable v = true)
  end.
Proof.
  intros Hs Hb. unfold make_room. destruct (MAX_QUEUE_PER_SIDECAR <=? length q)%nat eqn:Hfull.
  - apply Nat.leb_le in Hfull. destruct (last (List.filter droppable q)) as [tail|] eqn:El.
    + destruct ((weight item >? weight tail) && negb (undroppable (q_event item))) eqn:Er; [by to_prop; unfold droppable; rewrite H0|].
      apply last_filter_Some in El as [Ht Hd].
      set (p := fun x => droppable x && (weight x =? weight tail)).
      destruct (List.find p q) as [v|] eqn:Ef.
      2: { apply (find_none _ _ Ef) in Ht. subst p. simpl in Ht. rewrite Hd, Z.eqb_refl in Ht. done. }
      pose proof (remove_first_perm _ _ _ Ef) as Hp. apply find_some in Ef as [Hv Hpv]. subst p. simpl in Hpv. to_prop.
      split_and!; [by apply remove_first_sorted|exact Hp| |by intros ? [= <-]].
      left. destruct Hb as [Hb|Hb].
      * apply Permutation_length in Hp. simpl in Hp. rewrite (Permutation_length (insert_item_perm _ _)). simpl. lia.
      * rewrite List.Forall_forall in Hb. specialize (Hb v Hv). congruence.
    + apply last_filter_None in El. destruct (undroppable (q_event item)) eqn:Eu; [|unfold droppable; by rewrite Eu].
      split_and!; [done|done| |done]. right. apply List.Forall_forall. intros x Hx.
      rewrite insert_item_perm in Hx. destruct Hx as [<-|Hx]; [unfold droppable; by rewrite Eu|].
      rewrite List.Forall_forall in El. by apply El.
  - apply Nat.leb_gt in Hfull. split_and!; [done|done| |done]. left.
    rewrite (Permutation_length (insert_item_perm _ _)). simpl. lia.
Qed.

(** ** The state invariant *)

Definition queue_ok (entry : string * list QueuedEvent) : Prop :=
  sorted_queue (snd entry) /\ bounded_queue (snd entry) /\ List.Forall (fun q => q_sidecar q = fst entry) (snd entry).

Record scheduler_ok (s : EventScheduler) : Prop := {
  ok_wf : wf (queues s);
  ok_ids : map_keys (queues s) = sidecarIds s;
  ok_index : (roundRobinIndex s < length (sidecarIds s))%nat \/ roundRobinIndex s = 0%nat;
  ok_queues : List.Forall queue_ok (queues s);
}.

Lemma queue_ok_get s id q : scheduler_ok s -> map_get id (queues s) = Some q -> queue_ok (id, q).
Proof. intros Hs H%map_get_In. pose proof (ok_queues s Hs) as Hq. rewrite List.Forall_forall in Hq. by apply Hq. Qed.

Lemma queues_set (m : list (string * list QueuedEvent)) id q : List.Forall queue_ok m -> queue_ok (id, q) ->
  List.Forall queue_ok (map_set id q m).
Proof.
  intros Hm Hq. unfold map_set. destruct (map_has id m).
  - apply List.Forall_map. eapply List.Forall_impl; [|exact Hm]. intros e He. by destruct (key_eq id e).
  - apply List.Forall_app. by split; [|constructor].
Qed.

(** Only the queues, the ids and the index matter to the invariant. *)
Lemma scheduler_ok_eq s s' : queues s' = queues s -> sidecarIds s' = sidecarIds s -> roundRobinIndex s' = roundRobinIndex s ->
  scheduler_ok s -> scheduler_ok s'.
Proof. intros E1 E2 E3 [H1 H2 H3 H4]. split; rewrite ?E1, ?E2, ?E3; done. Qed.

Lemma recordDrop_ok s now id item : scheduler_ok s -> scheduler_ok (fst (recordDrop s now id item)).
Proof. by apply scheduler_ok_eq. Qed.

(** The state between the lookup of the queue and the end of [enqueue]. *)
Lemma stored_ok s id q ids : scheduler_ok s ->
  ids = (match map_get id (queues s) with Some _ => sidecarIds s | None => sidecarIds s ++ [id] end) ->
  queue_ok (id, q) -> scheduler_ok (set_queues s (map_set id q (queues s)) ids (roundRobinIndex s)).
Proof.
  intros [Hw Hi Hr Hq] Hids Hok. split; cbn [queues sidecarIds roundRobinIndex set_queues].
  - by apply wf_set.
  - rewrite map_keys_set, Hi, Hids. destruct (map_has id (queues s)) eqn:E.
    + apply map_has_get in E as [x ->]. done.
    + destruct (map_get id (queues s)) eqn:E2; [|done].
      assert (map_has id (queues s) = true) by (apply map_has_get; by eexists). congruence.
  - destruct Hr as [Hr| ->]; [left|by right]. subst ids. destruct (map_get id (queues s)); [done|]. rewrite length_app. simpl. lia.
  - by apply queues_set.
Qed.

Definition current_queue (s : EventScheduler) (id : string) : list QueuedEvent := (map_get id (queues s)) ?? [].
Definition ids_with (s : EventScheduler) (id : string) : list string :=
  match map_get id (queues s) with Some _ => sidecarIds s | None => sidecarIds s ++ [id] end.

Lemma current_queue_ok s id : scheduler_ok s -> queue_ok (id, current_queue s id).
Proof.
  intros Hs. unfold current_queue. destruct (map_get id (queues s)) as [q|] eqn:E; simpl; [by eapply queue_ok_get|].
  split_and!; simpl; [constructor| |constructor]. left. simpl. unfold MAX_QUEUE_PER_SIDECAR. lia.
Qed.

(** [enqueue] past the direct types, by the answer of the overflow policy. *)
Lemma enqueue_unfold s now id e p : includes (event_type e) (directTypes s) = false ->
  let item := queue_item now id e p in
  let stored q := set_queues s (map_set id q (queues s)) (ids_with s id) (roundRobinIndex s) in
  enqueue s now id e p =
  match make_room (current_queue s id) item with
  | Refuse => recordDrop (stored (current_queue s id)) now id item
  | Admit rest None => (stored (insert_item item rest), [])
  | Admit rest (Some victim) => recordDrop (stored (insert_item item rest)) now id victim
  end.
Proof. intros H. unfold enqueue, current_queue, ids_with. rewrite H. by destruct (map_get id (queues s)). Qed.

Lemma insert_queue_ok id item rest q : queue_ok (id, q) -> q_sidecar item = id ->
  sorted_queue rest -> (exists v, q ≡ₚ v ++ rest) -> bounded_queue (insert_item item rest) -> queue_ok (id, insert_item item rest).
Proof.
  intros (_ & _ & Hi) Hid Hs [v Hv] Hb. split_and!; simpl in *; [by apply insert_item_sorted|done|].
  rewrite insert_item_perm. constructor; [done|]. rewrite Hv in Hi. by apply List.Forall_app in Hi as [_ ?].
Qed.

Lemma enqueue_scheduler_ok s now id e p : scheduler_ok s -> scheduler_ok (fst (enqueue s now id e p)).
Proof.
  intros Hs. destruct (includes (event_type e) (directTypes s)) eqn:Ed; [unfold enqueue; by rewrite Ed|].
  rewrite enqueue_unfold by done. cbn zeta. pose proof (current_queue_ok s id Hs) as Hq.
  pose proof (make_room_spec (current_queue s id) (queue_item now id e p) (proj1 Hq) (proj1 (proj2 Hq))) as Ha.
  destruct (make_room _ _) as [|rest [v|]].
  - apply recordDrop_ok. by apply stored_ok.
  - destruct Ha as (H1 & H2 & H3 & _). apply recordDrop_ok.
    apply stored_ok; [done|done|]. eapply insert_queue_ok; eauto.
  - destruct Ha as (H1 & H2 & H3 & _). apply stored_ok; [done|done|]. eapply insert_queue_ok; eauto.
Qed.

Lemma removeSidecar_ok s id : scheduler_ok s -> scheduler_ok (fst (removeSidecar s id)).
Proof.
  intros [Hw Hi Hr Hq]. split; cbn [fst removeSidecar queues sidecarIds roundRobinIndex].
  - by apply wf_delete.
  - by rewrite map_keys_delete_filter, Hi.
  - destruct (_ <=? _)%nat eqn:E; [by right|]. left. by apply Nat.leb_gt in E.
  - apply List.Forall_forall. intros x [Hx _]%List.filter_In. rewrite List.Forall_forall in Hq. by apply Hq.
Qed.

(** The round-robin pick: the first non-empty queue at or after the index. *)
Lemma next_from_spec s i n item s' : scheduler_ok s -> (i + n = length (sidecarIds s))%nat -> next_from s i n = Some (item, s') ->
  exists j id rest, let count := length (sidecarIds s) in let idx := ((roundRobinIndex s + j) mod count)%nat in
    (i <= j < count)%nat /\ sidecarIds s !! idx = Some id /\ map_get id (queues s) = Some (item :: rest) /\
    s' = set_queues s (map_set id rest (queues s)) (sidecarIds s) ((idx + 1) mod count)%nat /\
    forall k, (i <= k < j)%nat -> forall id', sidecarIds s !! ((roundRobinIndex s + k) mod count)%nat = Some id' -> current_queue s id' = [].
Proof.
  intros Hs. revert i. induction n as [|n IH]; intros i Hn; [done|]. cbn [next_from].
  set (idx := ((roundRobinIndex s + i) mod length (sidecarIds s))%nat).
  assert (idx < length (sidecarIds s))%nat as Hidx by (apply Nat.mod_upper_bound; lia).
  apply lookup_lt_is_Some_2 in Hidx as [id Hid]. rewrite Hid. cbn [mbind option_bind].
  destruct (map_get id (queues s)) as [[|x rest]|] eqn:Eq; cbn [fmap option_fmap option_map].
  2: { intros [= <- <-]. exists i, id, rest. split_and!; try done; try lia. }
  all: intros H; destruct (IH (S i) ltac:(lia) H) as (j & id2 & rest2 & Hj & H1 & H2 & H3 & H4).
  all: exists j, id2, rest2; split_and!; try done; try lia.
  all: intros k Hk id' Hid'; destruct (decide (k = i)) as [->|]; [|by apply (H4 k); [lia|]].
  all: fold idx in Hid'; rewrite Hid in Hid'; injection Hid' as <-; unfold current_queue; by rewrite Eq.
Qed.

Lemma next_from_None s i n : scheduler_ok s -> (i + n = length (sidecarIds s))%nat -> next_from s i n = None ->
  forall k, (i <= k < length (sidecarIds s))%nat -> forall id,
    sidecarIds s !! ((roundRobinIndex s + k) mod length (sidecarIds s))%nat = Some id -> current_queue s id = [].
Proof.
  intros Hs. revert i. induction n as [|n IH]; intros i Hn H k Hk id Hid; [lia|]. cbn [next_from] in H.
  assert (((roundRobinIndex s + i) mod length (sidecarIds s)) < length (sidecarIds s))%nat as Hidx by (apply Nat.mod_upper_bound; lia).
  apply lookup_lt_is_Some_2 in Hidx as [id0 Hid0]. rewrite Hid0 in H. cbn [mbind option_bind] in H.
  destruct (map_get id0 (queues s)) as [[|x rest]|] eqn:Eq; cbn [fmap option_fmap option_map] in H; [|done|].
  all: destruct (decide (k = i)) as [->|]; [|by apply (IH (S i) ltac:(lia) H k ltac:(lia) id)].
  all: rewrite Hid0 in Hid; injection Hid as <-; unfold current_queue; by rewrite Eq.
Qed.

Lemma mod_index n i : ((i mod n) < n)%nat \/ n = 0%nat.
Proof. destruct n; [by right|left]. apply Nat.mod_upper_bound. lia. Qed.

Lemma served_ok s id item rest idx : scheduler_ok s -> map_get id (queues s) = Some (item :: rest) ->
  scheduler_ok (set_queues s (map_set id rest (queues s)) (sidecarIds s) (idx mod length (sidecarIds s))).
Proof.
  intros Hs Hg. pose proof (queue_ok_get _ _ _ Hs Hg) as (Q1 & Q2 & Q3). destruct Hs as [Hw Hi Hr Hq].
  split; cbn [queues sidecarIds roundRobinIndex set_queues].
  - by apply wf_set.
  - rewrite map_keys_set. assert (map_has id (queues s) = true) as -> by (apply map_has_get; by eexists). done.
  - destruct (mod_index (length (sidecarIds s)) idx) as [|E]; [by left|].
    exfalso. apply map_get_In, (in_map fst) in Hg. unfold map_keys in Hi. rewrite Hi in Hg. destruct (sidecarIds s); [done|discriminate].
  - apply queues_set; [done|]. split_and!; simpl in *.
    + by apply StronglySorted_inv in Q1 as [].
    + destruct Q2 as [Q2|Q2]; [left; simpl in *; lia|right]. by inversion Q2.
    + by inversion Q3.
Qed.

Lemma nextItem_ok s item s' : scheduler_ok s -> nextItem s = Some (item, s') -> scheduler_ok s'.
Proof.
  intros Hs H. destruct (next_from_spec s 0 _ item s' Hs eq_refl H) as (j & id & rest & _ & _ & Hg & -> & _). by eapply served_ok.
Qed.

Lemma scheduler_op_ok s op : scheduler_ok s -> scheduler_ok (fst (scheduler_op s op)).
Proof.
  intros Hs. destruct op; cbn [scheduler_op fst]; try (by apply (scheduler_ok_eq s)).
  - by apply enqueue_scheduler_ok.
  - by apply removeSidecar_ok.
  - unfold drain_start. destruct (processing s); [done|]. destruct (_ =? _)%nat; [done|]. by apply (scheduler_ok_eq s).
  - unfold drain_next. destruct (processing s) as [d|]; [|done]. destruct (_ <? _)%nat; [|by apply (scheduler_ok_eq s)].
    destruct (nextItem s) as [[item s']|] eqn:E; [|by apply (scheduler_ok_eq s)].
    by apply (scheduler_ok_eq s'), (nextItem_ok s item).
Qed.

Lemma new_scheduler_ok : scheduler_ok new_scheduler.
Proof. split; cbn; [constructor|done|by right|constructor]. Qed.

Lemma scheduler_ops_ok s ops : scheduler_ok s -> scheduler_ok (fst (scheduler_ops s ops)).
Proof.
  revert s. induction ops as [|op ops IH]; intros s Hs; simpl; [done|].
  pose proof (scheduler_op_ok s op Hs). destruct (scheduler_op s op) as [s1 o1]. simpl in *.
  specialize (IH s1 H). by destruct (scheduler_ops s1 ops).
Qed.

(** ** No event is lost silently *)

Definition contents (s : EventScheduler) : list QueuedEvent := flat_map snd (queues s).

Definition outcome (f : Effect) : list QueuedEvent :=
  match f with Dispatched q | Dropped q | Discarded q => [q] | _ => [] end.
Definition drops (out : list Effect) : list QueuedEvent :=
  flat_map (fun f => match f with Dropped q => [q] | _ => [] end) out.

(** The event an operation puts under the scheduler's care. *)
Definition offered (s : EventScheduler) (op : SchedulerOp) : list QueuedEvent :=
  match op with
  | OpEnqueue now id e p => if includes (event_type e) (directTypes s) then [] else [queue_item now id e p]
  | _ => []
  end.

Fixpoint all_offered (s : EventScheduler) (ops : list SchedulerOp) : list QueuedEvent :=
  match ops with
  | [] => []
  | op :: rest => offered s op ++ all_offered (fst (scheduler_op s op)) rest
  end.

Lemma contents_get s id : scheduler_ok s -> contents s ≡ₚ current_queue s id ++ flat_map snd (map_delete id (queues s)).
Proof.
  intros Hs. unfold contents, current_queue. destruct (map_get id (queues s)) as [q|] eqn:E; simpl.
  - pose proof (Permutation_flat_map snd (map_get_perm id q _ (ok_wf s Hs) E)) as H. exact H.
  - apply map_get_None in E. by rewrite map_delete_absent.
Qed.

Lemma contents_set (m : list (string * list QueuedEvent)) id q : wf m ->
  flat_map snd (map_set id q m) ≡ₚ q ++ flat_map snd (map_delete id m).
Proof. intros Hw. exact (Permutation_flat_map snd (map_set_perm id q m Hw)). Qed.

Lemma outcome_calls (l : list handler) id e : flat_map outcome (map (fun h => Calls h id e) l) = [].
Proof. by induction l. Qed.

Lemma drops_calls (l : list handler) id e : drops (map (fun h => Calls h id e) l) = [].
Proof. by induction l. Qed.

(** What one operation does: the events it was given or held are held, dispatched,
    dropped or discarded; it drops only what may be dropped, and counts it. *)
Definition accounted (s : EventScheduler) (offer : list QueuedEvent) (r : EventScheduler * list Effect) : Prop :=
  contents s ++ offer ≡ₚ contents (fst r) ++ flat_map outcome (snd r) /\
  List.Forall (fun q => droppable q = true) (drops (snd r)) /\
  droppedCount (fst r) = droppedCount s + Z.of_nat (length (drops (snd r))).

Lemma record_drop_accounted s0 s now id item offer :
  contents s0 ++ offer ≡ₚ contents s ++ [item] -> droppable item = true -> droppedCount s = droppedCount s0 ->
  accounted s0 offer (recordDrop s now id item).
Proof.
  intros Hp Hd Hc. unfold accounted. cbn [fst snd recordDrop].
  set (log := if _ : bool then [] else [Logged id _]).
  assert (flat_map outcome log = [] /\ drops log = []) as [E1 E2] by (subst log; by destruct (_ <? _)).
  cbn [flat_map outcome drops app]. fold (drops log). rewrite E1, E2. split_and!; [exact Hp|by constructor|].
  cbn [droppedCount length]. lia.
Qed.

Lemma enqueue_accounted s now id e p : scheduler_ok s ->
  accounted s (offered s (OpEnqueue now id e p)) (enqueue s now id e p).
Proof.
  intros Hs. cbn [offered]. destruct (includes (event_type e) (directTypes s)) eqn:Ed.
  { unfold enqueue. rewrite Ed. unfold accounted. cbn [fst snd].
    rewrite outcome_calls, drops_calls. split_and!; [done|constructor|simpl; lia]. }
  rewrite enqueue_unfold by done. cbn zeta. set (item := queue_item now id e p).
  pose proof (current_queue_ok s id Hs) as (Q1 & Q2 & _). simpl in Q1, Q2.
  pose proof (make_room_spec _ item Q1 Q2) as Ha. pose proof (contents_get s id Hs) as Hc.
  assert (forall q, contents (set_queues s (map_set id q (queues s)) (ids_with s id) (roundRobinIndex s))
    ≡ₚ q ++ flat_map snd (map_delete id (queues s))) as Hset by (intros q; apply contents_set, (ok_wf s Hs)).
  destruct (make_room _ item) as [|rest [v|]].
  - apply record_drop_accounted; [|done|done]. by rewrite Hset, Hc.
  - destruct Ha as (_ & Hp & _ & Hv). apply record_drop_accounted; [|by apply Hv|done].
    rewrite Hset, Hc, insert_item_perm, Hp. simpl.
    rewrite <- !Permutation_cons_append. apply perm_swap.
  - destruct Ha as (_ & Hp & _). unfold accounted. cbn [fst snd flat_map drops length]. rewrite app_nil_r.
    split_and!; [|constructor|simpl; lia]. rewrite Hset, Hc, insert_item_perm, Hp. simpl.
    by rewrite <- Permutation_cons_append.
Qed.

Lemma quiet_accounted s s' : contents s' = contents s -> droppedCount s' = droppedCount s -> accounted s [] (s', []).
Proof. intros E1 E2. unfold accounted. cbn. rewrite E1, E2, !app_nil_r. split_and!; [done|constructor|lia]. Qed.

Lemma discard_all q : flat_map outcome (map Discarded q) = q /\ drops (map Discarded q) = [].
Proof. split; [induction q as [|x q IH]; simpl; [done|by rewrite IH]|by induction q]. Qed.

Lemma scheduler_op_accounted s op : scheduler_ok s -> accounted s (offered s op) (scheduler_op s op).
Proof.
  intros Hs. destruct op; cbn [scheduler_op]; try (by apply quiet_accounted).
  - by apply enqueue_accounted.
  - unfold removeSidecar, accounted. cbn [fst snd offered]. fold (current_queue s sidecarId).
    destruct (discard_all (current_queue s sidecarId)) as [-> ->]. rewrite app_nil_r.
    split_and!; [|constructor|simpl; lia]. rewrite (contents_get s sidecarId) by done. apply Permutation_app_comm.
  - unfold drain_start. destruct (processing s); [by apply quiet_accounted|].
    destruct (_ =? _)%nat; by apply quiet_accounted.
  - unfold drain_next. destruct (processing s) as [d|]; [|by apply quiet_accounted].
    destruct (_ <? _)%nat; [|by apply quiet_accounted].
    destruct (nextItem s) as [[item s']|] eqn:E; [|by apply quiet_accounted].
    destruct (next_from_spec s 0 _ item s' Hs eq_refl E) as (j & id & rest & _ & _ & Hg & -> & _).
    unfold accounted. cbn [fst snd offered flat_map outcome drops app]. fold drops. rewrite outcome_calls.
    fold (drops (map (fun h => Calls h (q_sidecar item) (q_event item)) (all_handlers s (q_event item)))).
    change (all_handlers (set_queues _ _ _ _) (q_event item)) with (all_handlers s (q_event item)).
    rewrite drops_calls. split_and!; [|constructor|simpl; lia]. rewrite app_nil_r.
    unfold contents at 2. cbn [queues set_processing set_queues].
    rewrite contents_set by apply (ok_wf s Hs). rewrite (contents_get s id) by done. unfold current_queue. rewrite Hg. simpl.
    by rewrite <- Permutation_cons_append.
Qed.

Lemma accounted_trans s0 o1 r1 o2 r2 : accounted s0 o1 r1 -> accounted (fst r1) o2 r2 ->
  accounted s0 (o1 ++ o2) (fst r2, snd r1 ++ snd r2).
Proof.
  intros (H1 & H2 & H3) (H4 & H5 & H6). unfold accounted, drops in *. cbn [fst snd]. rewrite !flat_map_app. split_and!.
  - rewrite app_assoc, H1, <- app_assoc, (Permutation_app_comm (flat_map outcome (snd r1)) o2), app_assoc, H4.
    rewrite <- app_assoc. f_equiv. apply Permutation_app_comm.
  - by apply List.Forall_app.
  - rewrite length_app. lia.
Qed.

Lemma scheduler_ops_accounted s ops : scheduler_ok s -> accounted s (all_offered s ops) (scheduler_ops s ops).
Proof.
  revert s. induction ops as [|op ops IH]; intros s Hs; simpl; [by apply quiet_accounted|].
  pose proof (scheduler_op_accounted s op Hs) as H1. pose proof (scheduler_op_ok s op Hs) as Hok.
  destruct (scheduler_op s op) as [s1 o1]. cbn [fst snd] in *. specialize (IH s1 Hok).
  destruct (scheduler_ops s1 ops) as [s2 o2]. exact (accounted_trans s _ (s1, o1) _ (s2, o2) H1 IH).
Qed.

(** C11: over every sequence of arrivals, drains, registrations and disconnections,
    each event given to a queue is, exactly once, still queued, dispatched, dropped
    by the overflow policy or discarded with its disconnected sidecar; the policy
    never drops an RPC result or progress event, and counts what it drops. Every
    queue stays sorted by priority and within its bound of 500 unless it holds
    nothing but such events. *)
Theorem scheduler_loses_nothing (ops : list SchedulerOp) :
  let '(s, out) := scheduler_ops new_scheduler ops in
  all_offered new_scheduler ops ≡ₚ contents s ++ flat_map outcome out /\
  List.Forall (fun q => droppable q = true) (drops out) /\
  droppedCount s = Z.of_nat (length (drops out)) /\
  List.Forall queue_ok (queues s).
Proof.
  pose proof (scheduler_ops_accounted new_scheduler ops new_scheduler_ok) as (H1 & H2 & H3).
  pose proof (scheduler_ops_ok new_scheduler ops new_scheduler_ok) as H4.
  destruct (scheduler_ops new_scheduler ops) as [s out]. cbn [fst snd] in *.
  split_and!; [exact H1|exact H2|exact H3|apply ok_queues, H4].
Qed.

(** ** Fairness *)

Definition dispatches (out : list Effect) : list QueuedEvent :=
  flat_map (fun f => match f with Dispatched q => [q] | _ => [] end) out.

(** [id] has an event queued and is [d] positions after the round-robin index. *)
Definition waits (s : EventScheduler) (id : string) (d : nat) : Prop :=
  (d < length (sidecarIds s))%nat /\
  sidecarIds s !! ((roundRobinIndex s + d) mod length (sidecarIds s))%nat = Some id /\
  current_queue s id <> [].

Lemma waits_exists s id : scheduler_ok s -> current_queue s id <> [] -> exists d, waits s id d.
Proof.
  intros Hs Hq. assert (In id (sidecarIds s)) as Hin.
  { rewrite <- (ok_ids s Hs). apply map_has_In. unfold current_queue in Hq. apply map_has_get.
    destruct (map_get id (queues s)); [by eexists|done]. }
  apply list_elem_of_In, list_elem_of_lookup in Hin as [p Hp]. pose proof (lookup_lt_Some _ _ _ Hp) as Hlt.
  set (n := length (sidecarIds s)) in *. pose proof (ok_index s Hs) as Hr. fold n in Hr.
  assert (roundRobinIndex s < n)%nat as Hrr by lia.
  exists (if (roundRobinIndex s <=? p)%nat then p - roundRobinIndex s else p + n - roundRobinIndex s)%nat.
  destruct (roundRobinIndex s <=? p)%nat eqn:E; [apply Nat.leb_le in E|apply Nat.leb_gt in E]; split_and!; try done; fold n; try lia.
  - by replace (roundRobinIndex s + (p - roundRobinIndex s))%nat with p by lia; rewrite Nat.mod_small.
  - replace (roundRobinIndex s + (p + n - roundRobinIndex s))%nat with (p + 1 * n)%nat by lia.
    by rewrite Nat.Div0.mod_add, Nat.mod_small.
Qed.

Lemma insert_item_nonempty x q : insert_item x q <> [].
Proof. intros H. pose proof (insert_item_perm x q) as Hp. rewrite H in Hp. by apply Permutation_nil in Hp. Qed.

Lemma enqueue_shape s now id e p : let s' := fst (enqueue s now id e p) in
  (sidecarIds s' = sidecarIds s \/ sidecarIds s' = sidecarIds s ++ [id]) /\
  roundRobinIndex s' = roundRobinIndex s /\ dispatches (snd (enqueue s now id e p)) = [] /\
  forall id', current_queue s id' <> [] -> current_queue s' id' <> [].
Proof.
  destruct (includes (event_type e) (directTypes s)) eqn:Ed.
  { unfold enqueue. rewrite Ed. cbn [fst snd]. split_and!; [by left|done| |done]. by induction (all_handlers s e). }
  rewrite enqueue_unfold by done. cbn zeta. set (item := queue_item now id e p).
  assert (forall q, (current_queue s id <> [] -> q <> []) -> forall id', current_queue s id' <> [] ->
    ((map_get id' (map_set id q (queues s))) ?? []) <> []) as Hset.
  { intros q Hq id' H. rewrite map_get_set. case_bool_decide; [subst; by apply Hq|exact H]. }
  assert (ids_with s id = sidecarIds s \/ ids_with s id = sidecarIds s ++ [id]) as Hids
    by (unfold ids_with; destruct (map_get id (queues s)); auto).
  assert (forall s0 v, dispatches (snd (recordDrop s0 now id v)) = []) as Hd by (intros s0 v; cbn; by destruct (_ <? _)).
  destruct (make_room _ item) as [|rest [v|]]; (split_and!; [exact Hids|done|first [apply Hd|done]|]);
    unfold current_queue at 2; cbn [fst recordDrop queues set_queues]; apply Hset; auto using insert_item_nonempty.
Qed.

(** One more sidecar pushes [id] back by at most one position. *)
Lemma waits_join s s' id new : roundRobinIndex s' = roundRobinIndex s -> scheduler_ok s -> waits s id new ->
  (forall x, sidecarIds s' = sidecarIds s ++ [x] -> current_queue s' id <> [] ->
    exists d, waits s' id d /\ (d <= S new)%nat).
Proof.
  intros Hrr Hs (Hd & Hid & _) x Hx Hq. set (n := length (sidecarIds s)) in *.
  assert (length (sidecarIds s') = S n) as Hn by (rewrite Hx, length_app; simpl; lia).
  pose proof (ok_index s Hs) as Hr. fold n in Hr. assert (roundRobinIndex s < n)%nat as Hr' by lia.
  unfold waits. rewrite Hn, Hrr, Hx. destruct (decide (roundRobinIndex s + new < n)%nat) as [Hlt|Hge].
  - exists new. rewrite Nat.mod_small in Hid by lia. rewrite Nat.mod_small by lia.
    split_and!; [lia|by apply lookup_app_l_Some|done|lia].
  - exists (S new). assert (((roundRobinIndex s + new) mod n) = roundRobinIndex s + new - n)%nat as Em.
    { replace (roundRobinIndex s + new)%nat with ((roundRobinIndex s + new - n) + 1 * n)%nat at 1 by lia.
      rewrite Nat.Div0.mod_add. apply Nat.mod_small. lia. }
    rewrite Em in Hid. assert (((roundRobinIndex s + S new) mod S n) = roundRobinIndex s + new - n)%nat as ->.
    { replace (roundRobinIndex s + S new)%nat with ((roundRobinIndex s + new - n) + 1 * S n)%nat by lia.
      rewrite Nat.Div0.mod_add. apply Nat.mod_small. lia. }
    split_and!; [lia|by apply lookup_app_l_Some|done|lia].
Qed.

(** A pick serves [id] or brings the index closer to it. *)
Lemma nextItem_progress s id d item s' : scheduler_ok s -> waits s id d -> nextItem s = Some (item, s') ->
  q_sidecar item = id \/ exists d', waits s' id d' /\ (d' < d)%nat /\ sidecarIds s' = sidecarIds s.
Proof.
  intros Hs (Hd & Hid & Hq) H.
  destruct (next_from_spec s 0 _ item s' Hs eq_refl H) as (j & id2 & rest & Hj & Hid2 & Hg & -> & Hbefore).
  pose proof (queue_ok_get _ _ _ Hs Hg) as (_ & _ & Hsc). apply List.Forall_inv in Hsc. simpl in Hsc.
  destruct (decide (id2 = id)) as [->|Hne]; [by left|right].
  assert (j < d)%nat as Hjd.
  { destruct (decide (d < j)%nat) as [Hlt|]; [by destruct Hq; apply (Hbefore d ltac:(lia))|].
    destruct (decide (j = d)) as [->|]; [congruence|lia]. }
  exists (d - j - 1)%nat. cbn [sidecarIds roundRobinIndex set_queues]. split; [|split; [lia|done]].
  unfold waits. cbn [sidecarIds roundRobinIndex set_queues]. split_and!; [lia| |].
  - rewrite Nat.Div0.add_mod_idemp_l, <- Nat.add_assoc, Nat.Div0.add_mod_idemp_l.
    by replace (roundRobinIndex s + j + (1 + (d - j - 1)))%nat with (roundRobinIndex s + d)%nat by lia.
  - unfold current_queue. cbn [queues set_queues]. rewrite map_get_set. by rewrite bool_decide_false by congruence.
Qed.

Definition is_removal (op : SchedulerOp) : bool := match op with OpRemove _ => true | _ => false end.

Lemma fair_step s id d op : scheduler_ok s -> waits s id d -> is_removal op = false ->
  let '(s', out) := scheduler_op s op in
  In id (map q_sidecar (dispatches out)) \/
  exists d', waits s' id d' /\ (length (sidecarIds s) <= length (sidecarIds s'))%nat /\
    (d' + length (dispatches out) + length (sidecarIds s) <= d + length (sidecarIds s'))%nat.
Proof.
  intros Hs Hw Hop. assert (forall s', sidecarIds s' = sidecarIds s -> roundRobinIndex s' = roundRobinIndex s ->
    queues s' = queues s -> exists d', waits s' id d' /\ (length (sidecarIds s) <= length (sidecarIds s'))%nat /\
    (d' + 0 + length (sidecarIds s) <= d + length (sidecarIds s'))%nat) as Hsame.
  { intros s' E1 E2 E3. exists d. unfold waits, current_queue. rewrite E1, E2, E3. split; [exact Hw|lia]. }
  destruct op; cbn [scheduler_op]; try (right; by apply Hsame); [| done| |].
  - pose proof (enqueue_shape s now sidecarId e priority) as (Hids & Hrr & Hd & Hq).
    destruct (enqueue s now sidecarId e priority) as [s' out]. cbn [fst snd] in *. rewrite Hd. right.
    destruct Hids as [Hids|Hids].
    + exists d. destruct Hw as (W1 & W2 & W3). unfold waits. rewrite Hids, Hrr. cbn [length]. split_and!; auto; lia.
    + destruct (waits_join s s' id d Hrr Hs Hw _ Hids (Hq _ (proj2 (proj2 Hw)))) as (d' & Hw' & Hle).
      exists d'. split; [done|]. rewrite Hids, length_app. simpl. lia.
  - right. unfold drain_start. destruct (processing s); [by apply Hsame|]. destruct (_ =? _)%nat; by apply Hsame.
  - unfold drain_next. destruct (processing s) as [k|]; [|by right; apply Hsame].
    destruct (_ <? _)%nat; [|by right; apply Hsame]. destruct (nextItem s) as [[item s']|] eqn:E; [|by right; apply Hsame].
    cbn [dispatches flat_map]. fold (dispatches (map (fun h => Calls h (q_sidecar item) (q_event item)) (all_handlers s' (q_event item)))).
    assert (forall l : list handler, dispatches (map (fun h => Calls h (q_sidecar item) (q_event item)) l) = []) as -> by by induction l.
    destruct (nextItem_progress s id d item s' Hs Hw E) as [Hid|(d' & Hw' & Hlt & Hids)]; [left; by left|right].
    exists d'. split; [exact Hw'|]. cbn [sidecarIds set_processing]. rewrite Hids. simpl. lia.
Qed.

(** C37: a sidecar with a queued event is served within one round: while no sidecar
    disconnects, fewer events of other sidecars are dispatched before one of its own
    than there are sidecars at the end, whatever arrives, joins or is registered
    meanwhile. And a pick finds nothing only when every queue is empty. *)
Theorem scheduler_is_fair (s : EventScheduler) (id : string) (ops : list SchedulerOp) :
  scheduler_ok s -> current_queue s id <> [] -> forallb (fun op => negb (is_removal op)) ops = true ->
  let '(s', out) := scheduler_ops s ops in
  nextItem s <> None /\
  (~ In id (map q_sidecar (dispatches out)) -> (length (dispatches out) < length (sidecarIds s'))%nat /\ current_queue s' id <> []).
Proof.
  intros Hs Hq Hops. destruct (waits_exists s id Hs Hq) as [d0 Hw0].
  assert (forall ops s d, scheduler_ok s -> waits s id d -> forallb (fun op => negb (is_removal op)) ops = true ->
    let '(s', out) := scheduler_ops s ops in ~ In id (map q_sidecar (dispatches out)) ->
    exists d', waits s' id d' /\ (length (sidecarIds s) <= length (sidecarIds s'))%nat /\
      (d' + length (dispatches out) + length (sidecarIds s) <= d + length (sidecarIds s'))%nat) as Hrun.
  { clear. induction ops as [|op ops IH]; intros s d Hs Hw Hops; simpl.
    - intros _. exists d. split; [done|]. simpl. lia.
    - simpl in Hops. to_prop. pose proof (fair_step s id d op Hs Hw ltac:(done)) as Hstep.
      pose proof (scheduler_op_ok s op Hs) as Hok. destruct (scheduler_op s op) as [s1 o1]. cbn [fst] in Hok.
      unfold dispatches. destruct (scheduler_ops s1 ops) as [s2 o2] eqn:E2. intros Hn.
      rewrite flat_map_app in *. rewrite map_app, in_app_iff in Hn. destruct Hstep as [Hin|(d1 & W1 & L1 & B1)]; [by destruct Hn; left|].
      pose proof (IH s1 d1 Hok W1 ltac:(done)) as Hi. rewrite E2 in Hi.
      destruct Hi as (d2 & W2 & L2 & B2); [by intros Hi; apply Hn; right|].
      exists d2. split; [done|]. unfold dispatches in *. rewrite length_app. lia. }
  specialize (Hrun ops s d0 Hs Hw0 Hops). destruct (scheduler_ops s ops) as [s' out]. split.
  - intros Hnone. destruct Hw0 as (Hd & Hid & _). apply Hq.
    by apply (next_from_None s 0 _ Hs eq_refl Hnone d0 ltac:(lia)).
  - intros Hn. destruct (Hrun Hn) as (d' & (W1 & W2 & W3) & _ & Hb). destruct Hw0 as [Hd _]. split; [lia|done].
Qed.

Definition demo_ops : list SchedulerOp :=
  [OpEnqueue 1 "a" (demo_event "x" low) None; OpEnqueue 2 "a" (demo_event "y" high) None; OpEnqueue 3 "b" (demo_event "z" low) None].
Definition demo_scheduler : EventScheduler := fst (scheduler_ops new_scheduler demo_ops).

Lemma scheduler_is_fair_witness :
  nextItem demo_scheduler <> None /\
  map q_sidecar (dispatches (snd (scheduler_ops demo_scheduler [OpTick; OpContinue; OpContinue]))) = ["a"; "b"].
Proof.
  split; [|vm_compute; reflexivity].
  apply (scheduler_is_fair demo_scheduler "b" [OpTick; OpContinue]); [|vm_compute; discriminate|reflexivity].
  apply scheduler_ops_ok, new_scheduler_ok.
Defined.
