(* ===== verification/SidecarRpc.v ===== *)
(** * The RPC tracker (sidecar/rpc.ts)

    Every outbound request is an entry with two timers: the first turns a pending
    request into a detached one and answers its caller, the second gives it up. An
    entry is an object the [pending] map and its timers share; here entries live in
    a list and the map and the timers refer to them by position. [rpc_step] is one
    call or one timer firing; a timer fires only while it is set. *)
From S2P Require Export Json JsMap.

(** ** Data *)

Inductive RPCState := rpc_pending | rpc_detached | rpc_completed | rpc_failed | rpc_timed_out.

#[export] Instance rpc_state_eq_dec : EqDecision RPCState.
Proof. solve_decision. Defined.

Record PendingRPC := mkRPC {
  rpc_id : string;
  rpc_sidecar : string;
  rpc_method : string;
  rpc_state : RPCState;
  rpc_createdAt : Z;
  rpc_initialTimer : bool;
  rpc_maxTimer : bool;
}.

Record RPCTracker := mkTracker {
  entries : list PendingRPC;
  pending : list (string * nat);
  detachedCallback : bool;
}.

Definition new_tracker : RPCTracker := mkTracker [] [] false.

(** How a promise or a late reply ends. *)
Inductive Reply := Value (v : json) | Error (message : string).

Inductive RpcEffect :=
  | Settled (entry : nat) (r : Reply)
  | Detached (entry : nat)
  | Late (entry : nat) (r : Reply) (delivered : bool)
  | Expired (entry : nat).

Definition with_state (e : PendingRPC) (st : RPCState) : PendingRPC :=
  mkRPC (rpc_id e) (rpc_sidecar e) (rpc_method e) st (rpc_createdAt e) (rpc_initialTimer e) (rpc_maxTimer e).
Definition clearTimers (e : PendingRPC) : PendingRPC :=
  mkRPC (rpc_id e) (rpc_sidecar e) (rpc_method e) (rpc_state e) (rpc_createdAt e) false false.

(** ** Operations *)

Definition onDetachedComplete (t : RPCTracker) : RPCTracker := mkTracker (entries t) (pending t) true.

Definition dispatch (t : RPCTracker) (now : Z) (id sidecar method : string) : RPCTracker * list RpcEffect :=
  (mkTracker (entries t ++ [mkRPC id sidecar method rpc_pending now true false])
     (map_set id (length (entries t)) (pending t)) (detachedCallback t), []).

(** The callback of the first timer. *)
Definition initial_timeout (t : RPCTracker) (ref : nat) : RPCTracker * list RpcEffect :=
  match entries t !! ref with
  | Some e =>
      if rpc_initialTimer e && bool_decide (rpc_state e = rpc_pending) then
        (mkTracker (<[ref := mkRPC (rpc_id e) (rpc_sidecar e) (rpc_method e) rpc_detached (rpc_createdAt e) false true]> (entries t))
           (pending t) (detachedCallback t), [Detached ref])
      else (t, [])
  | None => (t, [])
  end.

(** The callback of the second timer. It deletes by id. *)
Definition max_timeout (t : RPCTracker) (ref : nat) : RPCTracker * list RpcEffect :=
  match entries t !! ref with
  | Some e =>
      if rpc_maxTimer e && bool_decide (rpc_state e = rpc_detached) then
        (mkTracker (<[ref := with_state e rpc_timed_out]> (entries t)) (map_delete (rpc_id e) (pending t)) (detachedCallback t),
         [Expired ref])
      else (t, [])
  | None => (t, [])
  end.

(** The end of an entry, shared by [resolve], [fail] and [failAll]: the promise if it
    is still pending, the callback if it is detached. *)
Definition finish (t : RPCTracker) (ref : nat) (e : PendingRPC) (done_state : RPCState) (r : Reply) : list PendingRPC * list RpcEffect :=
  let e' := clearTimers e in
  match rpc_state e with
  | rpc_pending => (<[ref := with_state e' done_state]> (entries t), [Settled ref r])
  | rpc_detached => (<[ref := with_state e' done_state]> (entries t), [Late ref r (detachedCallback t)])
  | _ => (<[ref := e']> (entries t), [])
  end.

Definition answer (t : RPCTracker) (id : string) (done_state : RPCState) (r : Reply) : RPCTracker * list RpcEffect :=
  match map_get id (pending t) ≫= fun ref => (fun e => (ref, e)) <$> entries t !! ref with
  | None => (t, [])
  | Some (ref, e) =>
      let '(es, out) := finish t ref e done_state r in
      (mkTracker es (map_delete id (pending t)) (detachedCallback t), out)
  end.

Definition resolve (t : RPCTracker) (id : string) (result : json) : RPCTracker * list RpcEffect :=
  answer t id rpc_completed (Value result).
Definition fail_rpc (t : RPCTracker) (id message : string) : RPCTracker * list RpcEffect :=
  answer t id rpc_failed (Error message).

(** The loop over a copy of the entries of the map: each one is still there when it is reached. *)
Fixpoint fail_entries (t : RPCTracker) (sidecar reason : string) (l : list (string * nat)) : RPCTracker * list RpcEffect :=
  match l with
  | [] => (t, [])
  | (id, ref) :: rest =>
      match entries t !! ref with
      | Some e =>
          if bool_decide (rpc_sidecar e = sidecar) then
            let '(es, out) := finish t ref e rpc_failed (Error ("Sidecar disconnected: " +:+ reason)) in
            let '(t', out') := fail_entries (mkTracker es (map_delete id (pending t)) (detachedCallback t)) sidecar reason rest in
            (t', out ++ out')
          else fail_entries t sidecar reason rest
      | None => fail_entries t sidecar reason rest
      end
  end.
Definition failAll (t : RPCTracker) (sidecar reason : string) : RPCTracker * list RpcEffect :=
  fail_entries t sidecar reason (pending t).

Inductive RpcOp :=
  | OnDetached
  | Dispatch (now : Z) (id sidecar method : string)
  | InitialTimeout (ref : nat)
  | MaxTimeout (ref : nat)
  | Resolve (id : string) (result : json)
  | Fail (id message : string)
  | FailAll (sidecar reason : string).

Definition rpc_step (t : RPCTracker) (op : RpcOp) : RPCTracker * list RpcEffect :=
  match op with
  | OnDetached => (onDetachedComplete t, [])
  | Dispatch now id sidecar method => dispatch t now id sidecar method
  | InitialTimeout ref => initial_timeout t ref
  | MaxTimeout ref => max_timeout t ref
  | Resolve id result => resolve t id result
  | Fail id message => fail_rpc t id message
  | FailAll sidecar reason => failAll t sidecar reason
  end.

Fixpoint rpc_steps (t : RPCTracker) (ops : list RpcOp) : RPCTracker * list RpcEffect :=
  match ops with
  | [] => (t, [])
  | op :: rest =>
      let '(t1, o1) := rpc_step t op in
      let '(t2, o2) := rpc_steps t1 rest in
      (t2, o1 ++ o2)
  end.

(** ** The life of one request *)

Definition effect_ref (f : RpcEffect) : nat :=
  match f with Settled n _ | Detached n | Late n _ _ | Expired n => n end.
Definition effects_of (ref : nat) (out : list RpcEffect) : list RpcEffect :=
  List.filter (fun f => (effect_ref f =? ref)%nat) out.

(** The two-timeout machine: the effects of a request so far, by its state. *)
Inductive life (ref : nat) : RPCState -> list RpcEffect -> Prop :=
  | life_pending : life ref rpc_pending []
  | life_completed v : life ref rpc_completed [Settled ref (Value v)]
  | life_failed m : life ref rpc_failed [Settled ref (Error m)]
  | life_detached : life ref rpc_detached [Detached ref]
  | life_late_value v b : life ref rpc_completed [Detached ref; Late ref (Value v) b]
  | life_late_error m b : life ref rpc_failed [Detached ref; Late ref (Error m) b]
  | life_expired : life ref rpc_timed_out [Detached ref; Expired ref].

(** An unfinished entry still has the timer that will end it. *)
Definition armed (e : PendingRPC) : Prop :=
  match rpc_state e with
  | rpc_pending => rpc_initialTimer e = true
  | rpc_detached => rpc_maxTimer e = true
  | _ => True
  end.

Definition tracker_ok (t : RPCTracker) (history : list RpcEffect) : Prop :=
  (forall ref e, entries t !! ref = Some e -> life ref (rpc_state e) (effects_of ref history) /\ armed e) /\
  (forall ref, (length (entries t) <= ref)%nat -> effects_of ref history = []).

Lemma effects_of_app ref a b : effects_of ref (a ++ b) = effects_of ref a ++ effects_of ref b.
Proof. apply List.filter_app. Qed.

(** A step that changes one entry and emits its effects. *)
Lemma tracker_ok_update t history ref e e' out p cb :
  tracker_ok t history -> entries t !! ref = Some e ->
  (forall f, In f out -> effect_ref f = ref) ->
  (life ref (rpc_state e) (effects_of ref history) -> armed e -> life ref (rpc_state e') (effects_of ref history ++ out) /\ armed e') ->
  tracker_ok (mkTracker (<[ref := e']> (entries t)) p cb) (history ++ out).
Proof.
  intros [H1 H2] He Hout Hlife.
  assert (forall r, effects_of r out = if (ref =? r)%nat then out else []) as Hr.
  { intros r. unfold effects_of. clear -Hout. induction out as [|f out IH]; simpl; [by destruct (_ =? _)%nat|].
    rewrite (Hout f) by by left. rewrite IH by (intros; apply Hout; by right). by destruct (ref =? r)%nat. }
  split; cbn [entries].
  - intros r x Hx. rewrite effects_of_app, Hr. destruct (decide (ref = r)) as [<-|Hne].
    + rewrite list_lookup_insert_eq in Hx by (by eapply lookup_lt_Some). injection Hx as <-.
      rewrite Nat.eqb_refl. destruct (H1 ref e He). auto.
    + rewrite list_lookup_insert_ne in Hx by done. rewrite (proj2 (Nat.eqb_neq ref r)) by done. rewrite app_nil_r. auto.
  - intros r Hlen. rewrite length_insert in Hlen. rewrite effects_of_app, Hr, (H2 r Hlen).
    apply lookup_lt_Some in He. by rewrite (proj2 (Nat.eqb_neq ref r)) by lia.
Qed.

Lemma tracker_ok_same t history p cb : tracker_ok t history -> tracker_ok (mkTracker (entries t) p cb) history.
Proof. done. Qed.

(** [finish] moves a live entry to its end, and leaves a finished one alone. *)
Lemma finish_ok t history ref e st r p cb : tracker_ok t history -> entries t !! ref = Some e ->
  (st = rpc_completed /\ (exists v, r = Value v) \/ st = rpc_failed /\ (exists m, r = Error m)) ->
  tracker_ok (mkTracker (fst (finish t ref e st r)) p cb) (history ++ snd (finish t ref e st r)).
Proof.
  intros Hok He Hst. unfold finish.
  destruct (rpc_state e) eqn:Es; cbn [fst snd]; eapply tracker_ok_update; try done;
    try (by intros f [<-|[]]); rewrite ?Es; intros Hl Ha; cbn [rpc_state with_state clearTimers].
  - inversion Hl. destruct Hst as [[-> [v ->]]|[-> [m ->]]]; split; try done; constructor.
  - inversion Hl. destruct Hst as [[-> [v ->]]|[-> [m ->]]]; split; try done; constructor.
  - rewrite app_nil_r, Es. split; [done|]. unfold armed. cbn. by rewrite Es.
  - rewrite app_nil_r, Es. split; [done|]. unfold armed. cbn. by rewrite Es.
  - rewrite app_nil_r, Es. split; [done|]. unfold armed. cbn. by rewrite Es.
Qed.

Lemma fail_entries_ok l t history sidecar reason : tracker_ok t history ->
  tracker_ok (fst (fail_entries t sidecar reason l)) (history ++ snd (fail_entries t sidecar reason l)).
Proof.
  revert t history. induction l as [|[id ref] l IH]; intros t history Hok; simpl; [by rewrite app_nil_r|].
  destruct (entries t !! ref) as [e|] eqn:He; [|by apply IH]. case_bool_decide; [|by apply IH].
  pose proof (finish_ok t history ref e rpc_failed (Error ("Sidecar disconnected: " +:+ reason))
    (map_delete id (pending t)) (detachedCallback t) Hok He ltac:(right; eauto)) as Hf.
  destruct (finish t ref e rpc_failed _) as [es out]. cbn [fst snd] in Hf. specialize (IH _ _ Hf).
  destruct (fail_entries _ sidecar reason l) as [t' out']. cbn [fst snd] in *. by rewrite app_assoc.
Qed.

Lemma answer_ok t history id st r : tracker_ok t history ->
  (st = rpc_completed /\ (exists v, r = Value v) \/ st = rpc_failed /\ (exists m, r = Error m)) ->
  tracker_ok (fst (answer t id st r)) (history ++ snd (answer t id st r)).
Proof.
  intros Hok Hst. unfold answer. destruct (map_get id (pending t)) as [ref|]; cbn [mbind option_bind]; [|by rewrite app_nil_r].
  destruct (entries t !! ref) as [e|] eqn:He; cbn [fmap option_fmap option_map]; [|by rewrite app_nil_r].
  pose proof (finish_ok t history ref e st r (map_delete id (pending t)) (detachedCallback t) Hok He Hst) as Hf.
  by destruct (finish t ref e st r).
Qed.

Lemma rpc_step_ok t history op : tracker_ok t history ->
  tracker_ok (fst (rpc_step t op)) (history ++ snd (rpc_step t op)).
Proof.
  intros Hok. destruct op; cbn [rpc_step].
  - by rewrite app_nil_r.
  - cbn [fst snd dispatch]. rewrite app_nil_r. destruct Hok as [H1 H2]. split; cbn [entries].
    + intros ref e He. apply lookup_app_Some in He as [He|[Hlen He]]; [by apply H1|].
      apply list_lookup_singleton_Some in He as [Hz <-]. rewrite H2 by lia. split; [constructor|done].
    + intros ref Hlen. rewrite length_app in Hlen. simpl in Hlen. apply H2. lia.
  - unfold initial_timeout. destruct (entries t !! ref) as [e|] eqn:He; [|by rewrite app_nil_r].
    destruct (rpc_initialTimer e && _) eqn:Eb; [|by rewrite app_nil_r]. to_prop.
    eapply tracker_ok_update; try done; [by intros f [<-|[]]|]. rewrite H0. intros Hl _. inversion Hl.
    split; [constructor|done].
  - unfold max_timeout. destruct (entries t !! ref) as [e|] eqn:He; [|by rewrite app_nil_r].
    destruct (rpc_maxTimer e && _) eqn:Eb; [|by rewrite app_nil_r]. to_prop.
    eapply tracker_ok_update; try done; [by intros f [<-|[]]|]. rewrite H0. intros Hl _. inversion Hl.
    split; [constructor|done].
  - apply answer_ok; [done|]. left. eauto.
  - apply answer_ok; [done|]. right. eauto.
  - by apply fail_entries_ok.
Qed.

Lemma rpc_steps_ok t history ops : tracker_ok t history ->
  tracker_ok (fst (rpc_steps t ops)) (history ++ snd (rpc_steps t ops)).
Proof.
  revert t history. induction ops as [|op ops IH]; intros t history Hok; simpl; [by rewrite app_nil_r|].
  pose proof (rpc_step_ok t history op Hok) as H1. destruct (rpc_step t op) as [t1 o1]. cbn [fst snd] in H1.
  specialize (IH t1 _ H1). destruct (rpc_steps t1 ops) as [t2 o2]. cbn [fst snd] in *. by rewrite app_assoc.
Qed.

Lemma new_tracker_ok : tracker_ok new_tracker [].
Proof. split; [by intros ref e He|done]. Qed.

(** Every request follows the two-timeout machine, whatever replies, timers and
    disconnections interleave and even if ids repeat: its promise is settled at most
    once (with the reply, or as detached), a late reply is reported at most once and
    only after that, a given-up request reports nothing more, and a request without
    an end still has the running timer that will give it one. *)
Theorem rpc_refines_lifecycle (ops : list RpcOp) (ref : nat) (e : PendingRPC) :
  let '(t, out) := rpc_steps new_tracker ops in
  entries t !! ref = Some e -> life ref (rpc_state e) (effects_of ref out) /\ armed e.
Proof.
  pose proof (rpc_steps_ok new_tracker [] ops new_tracker_ok) as H.
  destruct (rpc_steps new_tracker ops) as [t out]. destruct H as [H _]. cbn [fst snd app] in H. apply H.
Qed.

Definition demo_rpc : list RpcOp :=
  [Dispatch 0 "r1" "s" "capture"; Dispatch 0 "r2" "s" "run"; Resolve "r1" JNull; InitialTimeout 1; FailAll "s" "disconnected"; Resolve "r2" JNull; MaxTimeout 1].

Lemma rpc_refines_lifecycle_witness :
  life 1 rpc_failed (effects_of 1 (snd (rpc_steps new_tracker demo_rpc)))
  /\ snd (rpc_steps new_tracker demo_rpc) = [Settled 0 (Value JNull); Detached 1; Late 1 (Error "Sidecar disconnected: disconnected") false].
Proof.
  split; [|vm_compute; reflexivity].
  pose proof (rpc_refines_lifecycle demo_rpc 1 (mkRPC "r2" "s" "run" rpc_failed 0 false false)) as H.
  apply H. vm_compute. reflexivity.
Defined.

(** ** Disconnection *)

Lemma finish_length t ref e st r : length (fst (finish t ref e st r)) = length (entries t).
Proof. unfold finish. destruct (rpc_state e); apply length_insert. Qed.
