(* ===== verification/PanelSessions.v ===== *)
(** * Panel sessions (sidecar/panel-sessions.ts, sidecar/manager.ts)

    The cookie of a panel window names a session of an enrolled sidecar. The store keeps
    the sessions and their open sockets in memory and mirrors the sessions to a table,
    best effort: each write says how far it got. The manager adds the enrollment check of
    every request, the revocations, seen by the daemon or made in another process, and the
    sweeps. The clock and the random ids are arguments; verifying a bootstrap token is the
    runtime's, so its outcome is one too. *)
From S2P Require Export JsMap.

(** ** Data *)

Record PanelSession := mkSession { ps_id : string; ps_sid : string; createdAt : Z; lastSeenAt : Z }.

(** [live]: the open sockets of a session. *)
Record PanelSessionStore := mkStore { sessions : list (string * PanelSession); live : list (string * list nat) }.
Definition new_store : PanelSessionStore := mkStore [] [].

Definition PANEL_SESSION_MAX_AGE_MS : Z := 12 * 60 * 60 * 1000.
Definition PANEL_SESSION_IDLE_MS : Z := 4 * 60 * 60 * 1000.

(** The table. [remove] runs in chunks of 500 and may throw at one of them; [None] is success. *)
Definition sink_insert (s : PanelSession) (ok : bool) (rows : list PanelSession) : list PanelSession :=
  if ok && negb (existsb (fun r => bool_decide (ps_id r = ps_id s)) rows) then rows ++ [s] else rows.
Definition sink_remove (ids : list string) (fails_at : option nat) (rows : list PanelSession) : list PanelSession :=
  let gone := match fails_at with None => ids | Some k => take (500 * k) ids end in
  List.filter (fun r => negb (includes (ps_id r) gone)) rows.

(** ** The store *)

Definition expired (now : Z) (s : PanelSession) : bool := now - createdAt s >=? PANEL_SESSION_MAX_AGE_MS.

(** The sockets it hangs up on. *)
Definition hangUp (id : string) (st : PanelSessionStore) : PanelSessionStore * list nat :=
  match map_get id (live st) with
  | None => (st, [])
  | Some open => (mkStore (sessions st) (map_delete id (live st)), open)
  end.

Definition socketOpened (id : string) (socket : nat) (st : PanelSessionStore) : PanelSessionStore * list nat :=
  if negb (map_has id (sessions st)) then (st, [socket])
  else
    let open := map_get id (live st) ?? [] in
    (mkStore (sessions st) (map_set id (if includes socket open then open else open ++ [socket]) (live st)), []).

Definition socketClosed (id : string) (socket : nat) (st : PanelSessionStore) : PanelSessionStore :=
  match map_get id (live st) with
  | None => st
  | Some open =>
      match List.filter (fun s => negb (s =? socket)%nat) open with
      | [] => mkStore (sessions st) (map_delete id (live st))
      | rest => mkStore (sessions st) (map_set id rest (live st))
      end
  end.

Definition socketsOpen (id : string) (st : PanelSessionStore) : nat := length (map_get id (live st) ?? []).

(** Sessions that end: they leave the map and their sockets are closed. *)
Definition drop_session (id : string) (st : PanelSessionStore) : PanelSessionStore * list nat :=
  hangUp id (mkStore (map_delete id (sessions st)) (live st)).
Fixpoint drop_sessions (ids : list string) (st : PanelSessionStore) : PanelSessionStore * list nat :=
  match ids with
  | [] => (st, [])
  | id :: rest =>
      let '(st1, c1) := drop_session id st in
      let '(st2, c2) := drop_sessions rest st1 in
      (st2, c1 ++ c2)
  end.

(** [None]: the table could not be read. *)
Definition hydrate (loaded : option (list PanelSession)) (now : Z) (st : PanelSessionStore) : PanelSessionStore * list string :=
  match loaded with
  | None => (st, [])
  | Some rows =>
      let restored := List.filter (fun r => negb (expired now r)) rows in
      (mkStore (foldl (fun m r => map_set (ps_id r) (mkSession (ps_id r) (ps_sid r) (createdAt r) now) m) (sessions st) restored) (live st),
       map ps_id (List.filter (expired now) rows))
  end.

Definition create (id sid : string) (now : Z) (st : PanelSessionStore) : PanelSessionStore * PanelSession :=
  let s := mkSession id sid now now in (mkStore (map_set id s (sessions st)) (live st), s).

Definition seen (now : Z) (s : PanelSession) : PanelSession := mkSession (ps_id s) (ps_sid s) (createdAt s) now.

(** The session, or the sockets closed and the ids removed on the way. *)
Definition get (id : string) (now : Z) (st : PanelSessionStore) : PanelSessionStore * list nat * list string * option PanelSession :=
  match map_get id (sessions st) with
  | None => (st, [], [], None)
  | Some s =>
      if expired now s then let '(st1, closed) := drop_session id st in (st1, closed, [id], None)
      else (mkStore (map_alter (seen now) id (sessions st)) (live st), [], [], Some (seen now s))
  end.

Definition touchBySid (sid : string) (now : Z) (st : PanelSessionStore) : PanelSessionStore :=
  mkStore (map (fun e => (fst e, if bool_decide (ps_sid (snd e) = sid) then seen now (snd e) else snd e)) (sessions st)) (live st).

(** [delete]: the ids to remove from the table. *)
Definition delete_session (id : string) (st : PanelSessionStore) : PanelSessionStore * list nat * list string :=
  let '(st1, closed) := drop_session id st in (st1, closed, if map_has id (sessions st) then [id] else []).

Definition ids_where (p : string * PanelSession -> bool) (st : PanelSessionStore) : list string := map fst (List.filter p (sessions st)).

Definition deleteBySid (sid : string) (st : PanelSessionStore) : PanelSessionStore * list nat * list string :=
  let gone := ids_where (fun e => bool_decide (ps_sid (snd e) = sid)) st in (drop_sessions gone st, gone).

Definition collectable (canIdle : string -> bool) (now : Z) (st : PanelSessionStore) (e : string * PanelSession) : bool :=
  expired now (snd e) ||
  ((socketsOpen (fst e) st =? 0)%nat && (now - lastSeenAt (snd e) >=? PANEL_SESSION_IDLE_MS) && canIdle (ps_sid (snd e))).

Definition sweep (canIdle : string -> bool) (now : Z) (st : PanelSessionStore) : PanelSessionStore * list nat * list string :=
  let gone := ids_where (collectable canIdle now st) st in (drop_sessions gone st, gone).

Definition clear : PanelSessionStore := new_store.

Definition created_desc (a b : PanelSession) : bool := createdAt b <=? createdAt a.
Definition list_sessions (now : Z) (st : PanelSessionStore) : list PanelSession :=
  sort_by created_desc (List.filter (fun s => negb (expired now s)) (map_values (sessions st))).

(** ** The manager *)

(** [sockets]: the connections open at the server. *)
Record SidecarManager := mkSidecars {
  panelSessions : PanelSessionStore; panel_rows : list PanelSession;
  enrolled : list string; sidecarConnections : list string; sockets : list nat }.
Definition new_sidecars : SidecarManager := mkSidecars new_store [] [] [] [].

Definition isEnrolled (sid : string) (m : SidecarManager) : bool := includes sid (enrolled m).

(** The store after an operation, the sockets it closed and the ids it removed from the table. *)
Definition apply_store (r : PanelSessionStore * list nat * list string) (fails_at : option nat) (m : SidecarManager) : SidecarManager :=
  let '(st, closed, gone) := r in
  mkSidecars st (sink_remove gone fails_at (panel_rows m)) (enrolled m) (sidecarConnections m)
    (List.filter (fun s => negb (includes s closed)) (sockets m)).

Definition set_enrolled (l : list string) (m : SidecarManager) : SidecarManager :=
  mkSidecars (panelSessions m) (panel_rows m) l (sidecarConnections m) (sockets m).
Definition set_connections (l : list string) (m : SidecarManager) : SidecarManager :=
  mkSidecars (panelSessions m) (panel_rows m) (enrolled m) l (sockets m).

(** [verified]: what [verifyAccessToken] found. *)
Definition openPanelSession (verified : option string) (id : string) (now : Z) (ok : bool) (m : SidecarManager) : SidecarManager * option PanelSession :=
  match verified with
  | None => (m, None)
  | Some sid =>
      if negb (isEnrolled sid m) then (m, None)
      else let '(st, s) := create id sid now (panelSessions m) in
           (mkSidecars st (sink_insert s ok (panel_rows m)) (enrolled m) (sidecarConnections m) (sockets m), Some s)
  end.

Definition resolvePanelSession (id : string) (now : Z) (fails_at : option nat) (m : SidecarManager) : SidecarManager * option PanelSession :=
  let '(st, closed, gone, r) := get id now (panelSessions m) in
  let m1 := apply_store (st, closed, gone) fails_at m in
  match r with
  | None => (m1, None)
  | Some s => if isEnrolled (ps_sid s) m then (m1, Some s)
              else (apply_store (delete_session (ps_id s) st) fails_at m1, None)
  end.

Definition panelSocketOpened (id : string) (socket : nat) (m : SidecarManager) : SidecarManager :=
  let '(st, closed) := socketOpened id socket (panelSessions m) in
  apply_store (st, closed, []) None (mkSidecars (panelSessions m) (panel_rows m) (enrolled m) (sidecarConnections m) (socket :: sockets m)).
Definition panelSocketClosed (id : string) (socket : nat) (m : SidecarManager) : SidecarManager :=
  mkSidecars (socketClosed id socket (panelSessions m)) (panel_rows m) (enrolled m) (sidecarConnections m)
    (List.filter (fun s => negb (s =? socket)%nat) (sockets m)).

Definition disconnect (sid : string) (m : SidecarManager) : SidecarManager :=
  set_connections (List.filter (fun s => negb (bool_decide (s = sid))) (sidecarConnections m)) m.

Definition revokeSidecar (sid : string) (fails_at : option nat) (m : SidecarManager) : SidecarManager * bool :=
  if negb (isEnrolled sid m) then (m, false)
  else
    let m1 := disconnect sid (set_enrolled (List.filter (fun s => negb (bool_decide (s = sid))) (enrolled m)) m) in
    (apply_store (deleteBySid sid (panelSessions m1)) fails_at m1, true).

Definition sweepRevokedConnections (m : SidecarManager) : SidecarManager :=
  set_connections (List.filter (fun s => isEnrolled s m) (sidecarConnections m)) m.

(** The sessions of the list whose sidecar is not enrolled, one [delete] each. *)
Definition sweep_revoked (listed : list PanelSession) (fails_at : option nat) (m : SidecarManager) : SidecarManager :=
  foldl (fun m s => if isEnrolled (ps_sid s) m then m else apply_store (delete_session (ps_id s) (panelSessions m)) fails_at m) m listed.
Definition sweepPanelSessions (now : Z) (fails_at : option nat) (m : SidecarManager) : SidecarManager :=
  let m1 := apply_store (sweep (fun sid => includes sid (sidecarConnections m)) now (panelSessions m)) fails_at m in
  sweep_revoked (list_sessions now (panelSessions m1)) fails_at m1.

Definition handleSidecarConnect (sid : string) (now : Z) (m : SidecarManager) : SidecarManager :=
  mkSidecars (touchBySid sid now (panelSessions m)) (panel_rows m) (enrolled m)
    (if includes sid (sidecarConnections m) then sidecarConnections m else sidecarConnections m ++ [sid]) (sockets m).

(** The process stops: nothing is hung up on, the connections go with it. *)
Definition stop (m : SidecarManager) : SidecarManager := mkSidecars clear (panel_rows m) (enrolled m) [] [].
Definition start (loads : bool) (now : Z) (fails_at : option nat) (m : SidecarManager) : SidecarManager :=
  let '(st, stale) := hydrate (if loads then Some (panel_rows m) else None) now (panelSessions m) in
  apply_store (st, [], stale) fails_at m.

(** ** Events *)

Inductive PanelEvent :=
  | EvOpen (verified : option string) (id : string) (now : Z) (ok : bool)
  | EvResolve (id : string) (now : Z) (fails_at : option nat)
  | EvSocketOpened (id : string) (socket : nat) | EvSocketClosed (id : string) (socket : nat)
  | EvConnect (sid : string) (now : Z) | EvDisconnect (sid : string)
  | EvEnroll (sid : string)
  | EvRevoke (sid : string) (fails_at : option nat)
  | EvRevokedElsewhere (sid : string)           (* [jarvis revoke], in another process *)
  | EvSweepConnections | EvSweepPanels (now : Z) (fails_at : option nat)
  | EvRestart (loads : bool) (now : Z) (fails_at : option nat).

Definition panel_step (m : SidecarManager) (e : PanelEvent) : SidecarManager :=
  match e with
  | EvOpen verified id now ok => (openPanelSession verified id now ok m).1
  | EvResolve id now k => (resolvePanelSession id now k m).1
  | EvSocketOpened id socket => panelSocketOpened id socket m
  | EvSocketClosed id socket => panelSocketClosed id socket m
  | EvConnect sid now => handleSidecarConnect sid now m
  | EvDisconnect sid => disconnect sid m
  | EvEnroll sid => set_enrolled (enrolled m ++ [sid]) m
  | EvRevoke sid k => (revokeSidecar sid k m).1
  | EvRevokedElsewhere sid => set_enrolled (List.filter (fun s => negb (bool_decide (s = sid))) (enrolled m)) m
  | EvSweepConnections => sweepRevokedConnections m
  | EvSweepPanels now k => sweepPanelSessions now k m
  | EvRestart loads now k => start loads now k (stop m)
  end.
Definition panel_steps : SidecarManager -> list PanelEvent -> SidecarManager := foldl panel_step.

(** ** Sessions that end *)

#[local] Arguments map_get : simpl never.
#[local] Arguments map_set : simpl never.
#[local] Arguments map_has : simpl never.
#[local] Arguments map_delete : simpl never.
#[local] Arguments map_alter : simpl never.

Definition without {V} (ids : list string) (l : list (string * V)) : list (string * V) := List.filter (fun e => negb (includes (fst e) ids)) l.

Lemma get_without {V} ids id (l : list (string * V)) : map_get id (without ids l) = if includes id ids then None else map_get id l.
Proof.
  unfold map_get, without. induction l as [|[k v] l IH]; [by destruct (includes id ids)|]. cbn [List.filter List.find fst]. unfold key_eq at 2. cbn [fst].
  destruct (includes k ids) eqn:E; cbn [negb List.find].
  - rewrite IH. case_bool_decide; [subst; by rewrite E|done].
  - unfold key_eq at 1. cbn [fst]. case_bool_decide; [subst; by rewrite E|apply IH].
Qed.

Lemma without_one {V} id (l : list (string * V)) : map_delete id l = without [id] l.
Proof.
  unfold map_delete, without. apply filter_ext. intros [k v]. unfold key_eq. cbn. by rewrite orb_false_r.
Qed.

Lemma without_app {V} a b (l : list (string * V)) : without b (without a l) = without (a ++ b) l.
Proof.
  assert (forall k, includes k (a ++ b) = includes k a || includes k b) as Happ by (intros k; unfold includes; apply existsb_app).
  unfold without. induction l as [|[k v] l IH]; [done|]. cbn [List.filter fst]. rewrite Happ.
  destruct (includes k a); cbn; [apply IH|]. destruct (includes k b); cbn; by rewrite IH.
Qed.

Lemma without_nil {V} (l : list (string * V)) : without [] l = l.
Proof. by apply filter_all. Qed.

Lemma wf_without {V} ids (l : list (string * V)) : wf l -> wf (without ids l).
Proof. unfold wf, map_keys, without. apply filter_NoDup_map. Qed.

(** [r]: the store without the sessions [ids], and the sockets hung up on. *)
Record dropped (ids : list string) (st : PanelSessionStore) (r : PanelSessionStore * list nat) : Prop := {
  dr_sessions : sessions r.1 = without ids (sessions st);
  dr_live : live r.1 = without ids (live st);
  dr_closed : forall id l, In id ids -> map_get id (live st) = Some l -> incl l r.2 }.

Lemma drop_session_ok id st : dropped [id] st (drop_session id st).
Proof.
  unfold drop_session, hangUp. cbn [live sessions]. destruct (map_get id (live st)) as [open|] eqn:E; split; cbn.
  - apply without_one.
  - apply without_one.
  - intros id' l [<-|[]] H. rewrite E in H. injection H as ->. apply incl_refl.
  - apply without_one.
  - rewrite <-without_one. symmetry. apply map_delete_absent. by apply map_get_None.
  - intros id' l [<-|[]] H. congruence.
Qed.

Lemma drop_sessions_ok ids st : dropped ids st (drop_sessions ids st).
Proof.
  revert st. induction ids as [|id ids IH]; intros st; cbn [drop_sessions].
  - split; cbn; [by rewrite without_nil..|by intros ? ? []].
  - destruct (drop_session_ok id st) as [H1 H2 H3]. destruct (drop_session id st) as [st1 c1]. cbn [fst snd] in *.
    destruct (IH st1) as [G1 G2 G3]. destruct (drop_sessions ids st1) as [st2 c2]. cbn [fst snd] in *. split; cbn [fst snd].
    + rewrite G1, H1, without_app. done.
    + rewrite G2, H2, without_app. done.
    + intros id' l [->|Hin] Hl; [apply incl_appl, (H3 id'); [by left|done]|].
      destruct (decide (id' = id)) as [->|Hne]; [apply incl_appl, (H3 id); [by left|done]|].
      apply incl_appr, (G3 id'); [done|]. rewrite H2, get_without. cbn. by rewrite bool_decide_false.
Qed.

Lemma get_ok id now st : let '(st1, closed, gone, r) := get id now st in
  match r with
  | Some s => sessions st1 = map_alter (seen now) id (sessions st) /\ live st1 = live st /\ closed = [] /\ gone = [] /\
      exists s0, map_get id (sessions st) = Some s0 /\ s = seen now s0 /\ expired now s0 = false
  | None => dropped gone st (st1, closed)
  end.
Proof.
  unfold get. destruct (map_get id (sessions st)) as [s0|] eqn:E.
  - destruct (expired now s0) eqn:Ee; [|split_and!; try done; by exists s0].
    pose proof (drop_session_ok id st) as H. by destruct (drop_session id st).
  - apply (drop_sessions_ok [] st).
Qed.

(** ** The invariant *)

Definition opened (past : list PanelEvent) (id sid : string) (t : Z) : Prop := exists ok, In (EvOpen (Some sid) id t ok) past.

(** The session of an open socket. *)
Definition session_of (m : SidecarManager) (socket : nat) (s : PanelSession) : Prop :=
  exists id l, map_get id (live (panelSessions m)) = Some l /\ In socket l /\ map_get id (sessions (panelSessions m)) = Some s.

Record panels_ok (past : list PanelEvent) (m : SidecarManager) : Prop := {
  po_wf : wf (sessions (panelSessions m));
  po_sessions : forall id s, map_get id (sessions (panelSessions m)) = Some s -> ps_id s = id /\ opened past id (ps_sid s) (createdAt s);
  po_rows : forall r, In r (panel_rows m) -> opened past (ps_id r) (ps_sid r) (createdAt r);
  po_live : forall id l, map_get id (live (panelSessions m)) = Some l -> is_Some (map_get id (sessions (panelSessions m)));
  po_sockets : forall socket, In socket (sockets m) -> exists s, session_of m socket s }.

Lemma opened_more past past' id sid t : incl past past' -> opened past id sid t -> opened past' id sid t.
Proof. intros Hi [ok H]. exists ok. auto. Qed.

Lemma panels_more past past' m : incl past past' -> panels_ok past m -> panels_ok past' m.
Proof.
  intros Hi [H1 H2 H3 H4 H5]. split; try done.
  - intros id s H. destruct (H2 id s H) as [Hid Ho]. split; [done|by eapply opened_more].
  - intros r H. eapply opened_more; [done|by apply H3].
Qed.

Lemma sink_remove_In ids k rows r : In r (sink_remove ids k rows) -> In r rows.
Proof. unfold sink_remove. by intros [H _]%filter_In. Qed.

(** Ending sessions keeps the invariant, whatever the table does. *)
Lemma drop_panels_ok past m ids st closed gone k : panels_ok past m -> dropped ids (panelSessions m) (st, closed) ->
  panels_ok past (apply_store (st, closed, gone) k m).
Proof.
  intros [H1 H2 H3 H4 H5] [D1 D2 D3]. cbn [fst snd] in *. split; cbn.
  - rewrite D1. by apply wf_without.
  - intros id s. rewrite D1, get_without. destruct (includes id ids); [done|]. apply H2.
  - intros r Hr. by apply sink_remove_In in Hr; apply H3.
  - intros id l. rewrite D1, D2, !get_without. destruct (includes id ids); [done|]. apply H4.
  - intros socket [Hin Hc]%filter_In. apply negb_true_iff in Hc.
    destruct (H5 socket Hin) as (s & id & l & Hl & Hs & Hm). exists s, id, l. cbn. rewrite D1, D2, !get_without.
    destruct (includes id ids) eqn:E; [|done]. apply includes_In in E. assert (In socket closed) as Hin' by (by apply (D3 id l)).
    apply includes_In in Hin'. congruence.
Qed.

Lemma get_panels_ok past id now k m : panels_ok past m ->
  let '(st, closed, gone, r) := get id now (panelSessions m) in panels_ok past (apply_store (st, closed, gone) k m).
Proof.
  intros Hok. pose proof (get_ok id now (panelSessions m)) as H. destruct (get id now (panelSessions m)) as [[[st closed] gone] [s|]].
  - destruct H as (E1 & E2 & -> & -> & s0 & Hs & -> & _). destruct Hok as [H1 H2 H3 H4 H5]. split; cbn.
    + rewrite E1. auto with jsmap.
    + intros id' s'. rewrite E1, map_get_alter. case_bool_decide; [|apply H2]. subst id'. rewrite Hs. cbn. intros [= <-]. by apply (H2 id s0).
    + intros r Hr. by apply sink_remove_In in Hr; apply H3.
    + intros id' l. rewrite E1, E2, map_get_alter. intros Hl. apply H4 in Hl. case_bool_decide; [by apply fmap_is_Some|done].
    + intros socket [Hin _]%filter_In. destruct (H5 socket Hin) as (s' & id' & l & Hl & Hsl & Hm). unfold session_of. cbn.
      rewrite E1, E2. destruct (decide (id' = id)) as [->|Hne].
      * exists (seen now s'), id, l. rewrite map_get_alter, bool_decide_true by done. by rewrite Hm.
      * exists s', id', l. by rewrite map_get_alter, bool_decide_false.
  - by apply (drop_panels_ok past m gone).
Qed.

Lemma view_panels_ok past m m' : panels_ok past m -> panelSessions m' = panelSessions m -> panel_rows m' = panel_rows m ->
  sockets m' = sockets m -> panels_ok past m'.
Proof. intros [H1 H2 H3 H4 H5] E1 E2 E3. split; rewrite ?E1, ?E2, ?E3; try done. intros s Hs. unfold session_of. rewrite E1. by apply H5. Qed.

Lemma delete_panels_ok past id k m : panels_ok past m -> panels_ok past (apply_store (delete_session id (panelSessions m)) k m).
Proof.
  intros Hok. unfold delete_session. pose proof (drop_session_ok id (panelSessions m)) as H. destruct (drop_session _ _) as [st closed].
  by apply (drop_panels_ok past m [id]).
Qed.

Lemma resolve_ok past id now k m : panels_ok past m ->
  panels_ok past (resolvePanelSession id now k m).1 /\
  forall s, (resolvePanelSession id now k m).2 = Some s ->
    ps_id s = id /\ In (ps_sid s) (enrolled m) /\ now - createdAt s < PANEL_SESSION_MAX_AGE_MS /\ opened past id (ps_sid s) (createdAt s).
Proof.
  intros Hok. unfold resolvePanelSession. pose proof (get_panels_ok past id now k m Hok) as H1. pose proof (get_ok id now (panelSessions m)) as H2.
  destruct (get id now (panelSessions m)) as [[[st closed] gone] [s|]]; [|done].
  destruct H2 as (_ & _ & _ & _ & s0 & Hs & -> & He). destruct (po_sessions past m Hok id s0 Hs) as [Hid Ho].
  destruct (isEnrolled (ps_sid (seen now s0)) m) eqn:Ee; cbn [fst snd].
  - split; [done|]. intros s [= <-]. apply includes_In in Ee. unfold expired in He. rewrite Z.geb_leb in He. apply Z.leb_gt in He.
    by split_and!.
  - split; [|done]. apply (delete_panels_ok past (ps_id (seen now s0)) k (apply_store (st, closed, gone) k m) H1).
Qed.

Lemma open_ok past verified id now ok m : panels_ok past m -> In (EvOpen verified id now ok) past -> panels_ok past (openPanelSession verified id now ok m).1.
Proof.
  intros [H1 H2 H3 H4 H5] Hin. unfold openPanelSession. destruct verified as [sid|]; [|done]. destruct (negb _); [done|].
  assert (opened past id sid now) as Ho by (by exists ok). split; cbn.
  - auto with jsmap.
  - intros id' s. rewrite map_get_set. case_bool_decide; [intros [= <-]; by subst|apply H2].
  - intros r. unfold sink_insert. destruct (_ && _); [|apply H3]. intros [Hr|[<-|[]]]%in_app_iff; [by apply H3|done].
  - intros id' l Hl. rewrite map_get_set. case_bool_decide; [by eexists|by eapply H4].
  - intros socket Hs. destruct (H5 socket Hs) as (s & id' & l & Hl & Hsl & Hm). unfold session_of. cbn.
    destruct (decide (id' = id)) as [->|Hne].
    + eexists _, id, l. split_and!; [done..|]. by rewrite map_get_set, bool_decide_true.
    + exists s, id', l. by rewrite map_get_set, bool_decide_false.
Qed.

Lemma socket_opened_ok past id socket m : panels_ok past m -> panels_ok past (panelSocketOpened id socket m).
Proof.
  intros [H1 H2 H3 H4 H5]. unfold panelSocketOpened, socketOpened. destruct (map_has id (sessions (panelSessions m))) eqn:E; cbn [negb]; split; cbn; try done.
  - intros r [Hr _]%filter_In. by apply H3.
  - intros id' l. rewrite map_get_set. case_bool_decide; [|apply H4]. subst id'. intros _. by apply map_has_get.
  - intros s Hs'. assert (socket = s \/ In s (sockets m)) as Hs by (destruct Hs' as [Hs'|[Hs' _]%filter_In]; auto). unfold session_of. cbn. set (open := map_get id (live (panelSessions m)) ?? []).
    set (open' := if includes socket open then open else open ++ [socket]).
    assert (In socket open') as Hsock.
    { unfold open'. destruct (includes socket open) eqn:Ei; [by apply includes_In in Ei|apply in_app_iff; right; by left]. }
    assert (incl open open') as Hincl by (unfold open'; destruct (includes socket open); [apply incl_refl|apply incl_appl, incl_refl]).
    destruct Hs as [<-|Hs].
    + apply map_has_get in E as [x Hx]. exists x, id, open'. by rewrite map_get_set, bool_decide_true.
    + destruct (H5 s Hs) as (x & id' & l & Hl & Hsl & Hm). exists x, id'. destruct (decide (id' = id)) as [->|Hne].
      * exists open'. rewrite map_get_set, bool_decide_true by done. split_and!; [done| |done]. apply Hincl. unfold open. by rewrite Hl.
      * exists l. by rewrite map_get_set, bool_decide_false.
  - intros r [Hr _]%filter_In. by apply H3.
  - intros s. rewrite bool_decide_true by done. cbn. intros [Hs _]%filter_In. by apply H5.
Qed.

Lemma socket_closed_ok past id socket m : panels_ok past m -> panels_ok past (panelSocketClosed id socket m).
Proof.
  intros [H1 H2 H3 H4 H5]. unfold panelSocketClosed, socketClosed.
  destruct (map_get id (live (panelSessions m))) as [open|] eqn:E.
  - set (rest := List.filter (fun s => negb (s =? socket)%nat) open).
    assert (forall s, In s open -> s <> socket -> In s rest) as Hrest.
    { intros s Hs Hne. apply filter_In. split; [done|]. by apply negb_true_iff, Nat.eqb_neq. }
    split; cbn.
    + by destruct rest.
    + by destruct rest.
    + done.
    + intros id' l. destruct rest; cbn; [rewrite map_get_delete|rewrite map_get_set]; case_bool_decide; try done; try apply H4.
      subst id'. intros _. by eapply H4.
    + intros s [Hs Hne]%filter_In. apply negb_true_iff, Nat.eqb_neq in Hne. destruct (H5 s Hs) as (x & id' & l & Hl & Hsl & Hm).
      unfold session_of. cbn. exists x, id'. destruct (decide (id' = id)) as [->|Hid].
      * rewrite E in Hl. injection Hl as <-. specialize (Hrest s Hsl Hne). destruct rest as [|y rest]; [done|]. exists (y :: rest). cbn.
        by rewrite map_get_set, bool_decide_true.
      * exists l. destruct rest; cbn; [rewrite map_get_delete|rewrite map_get_set]; by rewrite bool_decide_false.
  - split; cbn; try done. intros s [Hs Hne]%filter_In. by apply H5.
Qed.

Lemma get_touched sid now id (l : list (string * PanelSession)) :
  map_get id (map (fun e => (fst e, if bool_decide (ps_sid (snd e) = sid) then seen now (snd e) else snd e)) l) =
  (fun s => if bool_decide (ps_sid s = sid) then seen now s else s) <$> map_get id l.
Proof.
  unfold map_get. induction l as [|[k v] l IH]; [done|]. cbn [map List.find fst snd]. unfold key_eq at 1 3. cbn [fst]. case_bool_decide; [done|apply IH].
Qed.

Lemma connect_ok past sid now m : panels_ok past m -> panels_ok past (handleSidecarConnect sid now m).
Proof.
  intros [H1 H2 H3 H4 H5]. split; cbn; try done.
  - unfold wf, map_keys. rewrite map_map. cbn. exact H1.
  - intros id s. rewrite get_touched. intros (s0 & Hs & ->)%fmap_Some. apply H2 in Hs. by case_bool_decide.
  - intros id l Hl. apply H4 in Hl. rewrite get_touched. by apply fmap_is_Some.
  - intros s Hs. destruct (H5 s Hs) as (x & id' & l & Hl & Hsl & Hm). eexists _, id', l. cbn. rewrite get_touched, Hm. by split_and!.
Qed.

Lemma sweep_revoked_ok past listed k m : panels_ok past m -> panels_ok past (sweep_revoked listed k m).
Proof.
  unfold sweep_revoked. revert m. induction listed as [|s listed IH]; intros m Hok; [done|]. cbn. apply IH.
  destruct (isEnrolled _ _); [done|by apply delete_panels_ok].
Qed.

Lemma hydrated_get rows now l id : 
  map_get id (foldl (fun m r => map_set (ps_id r) (mkSession (ps_id r) (ps_sid r) (createdAt r) now) m) l rows) =
    match last (List.filter (fun r => bool_decide (ps_id r = id)) rows) with Some r => Some (seen now r) | None => map_get id l end.
Proof.
  revert l. induction rows as [|r rows IH]; intros l; [done|]. cbn [foldl List.filter]. rewrite IH.
  case_bool_decide as E.
  - rewrite last_cons. destruct (last _); [done|]. by rewrite map_get_set, bool_decide_true.
  - destruct (last _); [done|]. by rewrite map_get_set, bool_decide_false.
Qed.

Lemma start_ok past loads now k m : panels_ok past m -> sockets m = [] -> live (panelSessions m) = [] -> panels_ok past (start loads now k m).
Proof.
  intros [H1 H2 H3 H4 H5] Hs Hl. unfold start. destruct loads; cbn [hydrate].
  - split; cbn.
    + revert H1. generalize (sessions (panelSessions m)). generalize (List.filter (fun r => negb (expired now r)) (panel_rows m)).
      intros rows. induction rows as [|r rows IH]; intros l Hw; [done|]. cbn. apply IH. auto with jsmap.
    + intros id s. rewrite hydrated_get. destruct (last _) as [r|] eqn:E; [|apply H2]. intros [= <-].
      apply last_Some_elem_of, list_elem_of_In, filter_In in E as [Hr E]. apply bool_decide_eq_true in E. apply filter_In in Hr as [Hr _].
      split; [done|]. rewrite <-E. by apply (H3 r).
    + intros r Hr. by apply sink_remove_In in Hr; apply H3.
    + rewrite Hl. done.
    + rewrite Hs. done.
  - split; cbn; try done; rewrite ?Hs, ?Hl; try done. intros r Hr. by apply sink_remove_In in Hr; apply H3.
Qed.

Lemma panel_step_ok past m e : panels_ok past m -> panels_ok (past ++ [e]) (panel_step m e).
Proof.
  intros Hok. apply (panels_more past (past ++ [e])) in Hok; [|by apply incl_appl, incl_refl].
  assert (In e (past ++ [e])) as Hin by (apply in_app_iff; right; by left). revert Hok Hin. generalize (past ++ [e]). clear past. intros past Hok Hin.
  destruct e as [verified id now ok|id now k|id socket|id socket|sid now|sid|sid|sid k|sid| |now k|loads now k]; cbn [panel_step].
  - by apply open_ok.
  - by apply resolve_ok.
  - by apply socket_opened_ok.
  - by apply socket_closed_ok.
  - by apply connect_ok.
  - by apply (view_panels_ok past m).
  - by apply (view_panels_ok past m).
  - unfold revokeSidecar. destruct (negb _); [done|]. cbn [fst]. unfold deleteBySid.
    set (ids := ids_where _ _). set (m1 := disconnect _ _). pose proof (drop_sessions_ok ids (panelSessions m1)) as H.
    destruct (drop_sessions ids (panelSessions m1)) as [st closed].
    apply (drop_panels_ok past m1 ids); [by apply (view_panels_ok past m)|done].
  - by apply (view_panels_ok past m).
  - by apply (view_panels_ok past m).
  - unfold sweepPanelSessions. apply sweep_revoked_ok. unfold sweep. set (ids := ids_where _ _).
    pose proof (drop_sessions_ok ids (panelSessions m)) as H. destruct (drop_sessions ids (panelSessions m)) as [st closed].
    by apply (drop_panels_ok past m ids).
  - apply start_ok; [|done..]. destruct Hok as [H1 H2 H3 H4 H5]. split; try done. constructor.
Qed.

Lemma new_panels_ok past : panels_ok past new_sidecars.
Proof. split; try done. constructor. Qed.

Lemma panel_steps_ok es : panels_ok es (panel_steps new_sidecars es).
Proof.
  induction es as [|e es IH] using rev_ind; [apply new_panels_ok|]. unfold panel_steps. rewrite foldl_app. by apply panel_step_ok.
Qed.

(** *** What a sweep and a revocation leave *)

Lemma sweep_revoked_drops listed k m : exists ids,
  sessions (panelSessions (sweep_revoked listed k m)) = without ids (sessions (panelSessions m)) /\ enrolled (sweep_revoked listed k m) = enrolled m.
Proof.
  unfold sweep_revoked. revert m. induction listed as [|x listed IH]; intros m; cbn [foldl]; [exists []; by rewrite without_nil|].
  destruct (isEnrolled (ps_sid x) m); [apply IH|]. unfold delete_session. pose proof (drop_session_ok (ps_id x) (panelSessions m)) as [D _ _].
  destruct (drop_session _ _) as [st closed]. cbn [fst] in D. set (m1 := apply_store _ k m). destruct (IH m1) as (ids & H1 & H2).
  change (foldl _ m1 listed) with (sweep_revoked listed k m1) in *. exists ([ps_id x] ++ ids). rewrite H1, H2. cbn [m1 apply_store panelSessions]. by rewrite D, without_app.
Qed.

Lemma sweep_revoked_enrolled s listed k m : In s listed -> is_Some (map_get (ps_id s) (sessions (panelSessions (sweep_revoked listed k m)))) ->
  isEnrolled (ps_sid s) m = true.
Proof.
  revert m. induction listed as [|x listed IH]; intros m; [done|]. intros Hin H.
  unfold sweep_revoked in H. cbn [foldl] in H. fold (sweep_revoked listed k) in H.
  destruct (isEnrolled (ps_sid x) m) eqn:Ee; [destruct Hin as [->|Hin]; [done|by apply IH]|].
  unfold delete_session in H. pose proof (drop_session_ok (ps_id x) (panelSessions m)) as [D _ _].
  destruct (drop_session (ps_id x) (panelSessions m)) as [st closed]. cbn [fst] in D. set (m1 := apply_store _ k m) in H.
  destruct Hin as [->|Hin]; [|apply (IH m1) in H; [exact H|done]].
  destruct (sweep_revoked_drops listed k m1) as (ids & H1 & _). change (foldl _ m1 listed) with (sweep_revoked listed k m1) in H.
  rewrite H1 in H. unfold m1 in H. cbn in H. rewrite D, !get_without in H. cbn in H. rewrite bool_decide_true in H by done.
  destruct (includes _ ids); by destruct H.
Qed.

Lemma sweep_leaves past now k m id s : panels_ok past m -> map_get id (sessions (panelSessions (sweepPanelSessions now k m))) = Some s ->
  In (ps_sid s) (enrolled m) /\ now - createdAt s < PANEL_SESSION_MAX_AGE_MS.
Proof.
  intros Hok. unfold sweepPanelSessions, sweep. set (gone := ids_where _ _). pose proof (drop_sessions_ok gone (panelSessions m)) as D.
  destruct (drop_sessions gone (panelSessions m)) as [st closed]. pose proof D as [D1 _ _]. cbn [fst] in D1.
  set (m1 := apply_store _ k m). set (listed := list_sessions now (panelSessions m1)). intros H.
  assert (panels_ok past m1) as Hok1 by (by apply (drop_panels_ok past m gone)).
  destruct (sweep_revoked_drops listed k m1) as (ids & H1 & _). pose proof H as H'. rewrite H1, get_without in H'. destruct (includes id ids); [done|].
  destruct (po_sessions past m1 Hok1 id s H') as [Hid _].
  assert (expired now s = false) as He.
  { change (sessions (panelSessions m1)) with (sessions st) in H'. rewrite D1, get_without in H'. destruct (includes id gone) eqn:Eg; [done|].
    destruct (expired now s) eqn:Ee; [|done]. apply not_true_iff_false in Eg. destruct Eg. apply includes_In. unfold gone, ids_where.
    apply in_map_iff. exists (id, s). split; [done|]. apply filter_In. split; [by apply map_get_In|]. unfold collectable. cbn [snd]. by rewrite Ee. }
  split; [|unfold expired in He; rewrite Z.geb_leb in He; by apply Z.leb_gt in He].
  apply includes_In. change (isEnrolled (ps_sid s) m1 = true). apply (sweep_revoked_enrolled s listed k m1).
  - unfold listed, list_sessions. apply sort_by_In, filter_In. split; [|by rewrite He]. unfold map_values. apply in_map_iff. exists (id, s).
    split; [done|by apply map_get_In].
  - rewrite Hid. by rewrite H.
Qed.

(** over any order of openings, requests, sockets, connections, enrolments, revocations,
    sweeps and restarts, with a table whose writes may fail, a cookie resolves only to a
    session that a bootstrap token of its sidecar opened less than twelve hours ago, and only
    while that sidecar is enrolled. Every panel socket still open belongs to a live session;
    after a revocation none belongs to a session of the revoked sidecar, and after a sweep
    none to a sidecar that is not enrolled (revoked here or in another process) or to an
    aged-out session. *)
Theorem panel_access_is_bounded (es : list PanelEvent) : let m := panel_steps new_sidecars es in
  (forall id now k s, (resolvePanelSession id now k m).2 = Some s ->
     In (ps_sid s) (enrolled m) /\ now - createdAt s < PANEL_SESSION_MAX_AGE_MS /\
     exists ok, In (EvOpen (Some (ps_sid s)) id (createdAt s) ok) es) /\
  (forall socket, In socket (sockets m) -> exists s, session_of m socket s) /\
  (forall sid k socket, In sid (enrolled m) -> In socket (sockets (revokeSidecar sid k m).1) ->
     exists s, session_of (revokeSidecar sid k m).1 socket s /\ ps_sid s <> sid) /\
  (forall now k socket, In socket (sockets (sweepPanelSessions now k m)) ->
     exists s, session_of (sweepPanelSessions now k m) socket s /\ In (ps_sid s) (enrolled m) /\ now - createdAt s < PANEL_SESSION_MAX_AGE_MS).
Proof.
  intros m. pose proof (panel_steps_ok es) as Hok. fold m in Hok. split_and!.
  - intros id now k s H. destruct (resolve_ok es id now k m Hok) as [_ H1]. by destruct (H1 s H) as (_ & H2 & H3 & H4).
  - apply Hok.
  - intros sid k socket Hs Hin. pose proof (panel_step_ok es m (EvRevoke sid k) Hok) as Hok1. cbn [panel_step] in Hok1.
    destruct (po_sockets _ _ Hok1 socket Hin) as (s & Hss). exists s. split; [done|]. destruct Hss as (id & l & _ & _ & Hm).
    unfold revokeSidecar in Hm. unfold isEnrolled in Hm. apply includes_In in Hs. rewrite Hs in Hm. cbn [negb fst] in Hm. unfold deleteBySid in Hm.
    set (ids := ids_where _ _) in Hm. pose proof (drop_sessions_ok ids (panelSessions m)) as [D _ _].
    change (panelSessions (disconnect _ _)) with (panelSessions m) in Hm. destruct (drop_sessions ids (panelSessions m)) as [st closed]. cbn in D, Hm.
    rewrite D, get_without in Hm. destruct (includes id ids) eqn:Ei; [done|]. intros Es. apply not_true_iff_false in Ei. destruct Ei.
    apply includes_In, in_map_iff. exists (id, s). split; [done|]. apply filter_In. split; [by apply map_get_In|by apply bool_decide_eq_true].
  - intros now k socket Hin. pose proof (panel_step_ok es m (EvSweepPanels now k) Hok) as Hok1. cbn [panel_step] in Hok1.
    destruct (po_sockets _ _ Hok1 socket Hin) as (s & Hss). exists s. split; [done|]. destruct Hss as (id & l & _ & _ & Hm).
    by apply (sweep_leaves es now k m id s).
Qed.

Definition demo_panels : list PanelEvent :=
  [EvEnroll "laptop"; EvEnroll "phone"; EvOpen (Some "laptop") "s1" 0 true; EvOpen (Some "phone") "s2" 1000 true; EvSocketOpened "s1" 1; EvSocketOpened "s2" 2;
   EvResolve "s1" 2000 None; EvRevokedElsewhere "phone"].

Lemma panel_access_is_bounded_witness : let m := panel_steps new_sidecars demo_panels in
  (resolvePanelSession "s1" 3000 None m).2 = Some (mkSession "s1" "laptop" 0 3000) /\
  (exists ok, In (EvOpen (Some "laptop") "s1" 0 ok) demo_panels) /\
  (resolvePanelSession "s2" 3000 None m).2 = None /\ (resolvePanelSession "s1" 43200000 None m).2 = None /\
  sockets m = [2; 1]%nat /\ sockets (sweepPanelSessions 3000 None m) = [1%nat].
Proof.
  cbn zeta. split; [vm_compute; reflexivity|]. split; [|split_and!; vm_compute; reflexivity].
  destruct (panel_access_is_bounded demo_panels) as (H & _). destruct (H "s1" 3000 None (mkSession "s1" "laptop" 0 3000)) as (_ & _ & H2); [vm_compute; reflexivity|].
  exact H2.
Defined.

(** ** A restart, when the table works *)

Definition row_of (s : PanelSession) : string * string * Z := (ps_id s, ps_sid s, createdAt s).

(** Writes succeed and a random id is new. *)
Definition sink_works (m : SidecarManager) (e : PanelEvent) : Prop :=
  match e with
  | EvOpen (Some _) id _ ok => ok = true /\ map_has id (sessions (panelSessions m)) = false
  | EvResolve _ _ k | EvRevoke _ k | EvSweepPanels _ k => k = None
  | EvRestart loads _ k => loads = true /\ k = None
  | _ => True
  end.
Fixpoint works_run (m : SidecarManager) (es : list PanelEvent) : Prop :=
  match es with [] => True | e :: rest => sink_works m e /\ works_run (panel_step m e) rest end.

(** The table and the map list the same sessions, in the same order. *)
Definition mirrors (rows : list PanelSession) (l : list (string * PanelSession)) : Prop :=
  map row_of rows = map (fun e => row_of (snd e)) l /\ List.Forall (fun e => fst e = ps_id (snd e)) l.
Definition mirrored (m : SidecarManager) : Prop := mirrors (panel_rows m) (sessions (panelSessions m)).

Lemma mirrors_without ids rows l : mirrors rows l -> mirrors (sink_remove ids None rows) (without ids l).
Proof.
  intros [H1 H2]. revert rows H1. induction H2 as [|[k s] l E H2 IH]; intros [|r rows] H1; try done. injection H1 as Er A B H1. cbn in E. subst k.
  destruct (IH rows H1) as [G1 G2].
  unfold sink_remove, without in *. cbn [List.filter fst]. rewrite Er. destruct (includes (ps_id s) ids); cbn [negb]; [by split|].
  split; [cbn; unfold row_of at 1 3; by rewrite G1, Er, A, B|by constructor].
Qed.

Lemma mirrors_map f rows l : mirrors rows l -> (forall e, fst (f e) = fst e /\ row_of (snd (f e)) = row_of (snd e)) -> mirrors rows (map f l).
Proof.
  intros [H1 H2] Hf. split.
  - rewrite H1, map_map. apply map_ext. intros e. symmetry. apply Hf.
  - apply List.Forall_map. revert H2. apply List.Forall_impl. intros e He. destruct (Hf e) as [-> E]. rewrite He. unfold row_of in E. congruence.
Qed.

Lemma mirrors_drop m ids st closed : mirrored m -> dropped ids (panelSessions m) (st, closed) -> mirrored (apply_store (st, closed, ids) None m).
Proof. intros Hm [D _ _]. unfold mirrored. cbn [apply_store panelSessions panel_rows]. cbn in D. rewrite D. by apply mirrors_without. Qed.

Lemma mirrors_view m m' : mirrored m -> sessions (panelSessions m') = sessions (panelSessions m) -> panel_rows m' = panel_rows m -> mirrored m'.
Proof. unfold mirrored. by intros H -> ->. Qed.

Lemma sink_remove_nil k rows : sink_remove [] k rows = rows.
Proof. unfold sink_remove. destruct k as [k|]; [rewrite take_nil|]; by apply filter_all. Qed.

Lemma mirrors_delete id m : mirrored m -> mirrored (apply_store (delete_session id (panelSessions m)) None m).
Proof.
  intros Hm. unfold delete_session. pose proof (drop_session_ok id (panelSessions m)) as D. destruct (drop_session id _) as [st closed].
  destruct (map_has id (sessions (panelSessions m))) eqn:E; [by apply mirrors_drop|].
  destruct D as [D _ _]. cbn in D. unfold mirrored. cbn [apply_store panelSessions panel_rows]. rewrite sink_remove_nil, D, <-without_one.
  rewrite map_delete_absent; [done|]. by apply map_has_false.
Qed.

Lemma mirrors_seen now id rows l : mirrors rows l -> mirrors rows (map_alter (seen now) id l).
Proof. intros H. apply mirrors_map; [done|]. intros [k s]. unfold key_eq. cbn. by case_bool_decide. Qed.

Lemma mirrors_resolve id now m : mirrored m -> mirrored (resolvePanelSession id now None m).1.
Proof.
  intros Hm. unfold resolvePanelSession. pose proof (get_ok id now (panelSessions m)) as H.
  destruct (get id now (panelSessions m)) as [[[st closed] gone] [s|]]; [|by apply mirrors_drop].
  destruct H as (E1 & _ & -> & -> & _). set (m1 := apply_store _ None m).
  assert (mirrored m1) as H1 by (unfold mirrored; cbn [m1 apply_store panelSessions panel_rows]; rewrite sink_remove_nil, E1; by apply mirrors_seen).
  destruct (isEnrolled _ _); [done|]. by apply (mirrors_delete (ps_id s) m1).
Qed.

Lemma mirrors_sweep_revoked listed m : mirrored m -> mirrored (sweep_revoked listed None m).
Proof.
  unfold sweep_revoked. revert m. induction listed as [|s listed IH]; intros m Hm; [done|]. cbn. apply IH.
  destruct (isEnrolled _ _); [done|by apply mirrors_delete].
Qed.

(** What the restored map holds. *)
Lemma restored_get now id rows l : mirrors rows l -> wf l ->
  match last (List.filter (fun r => bool_decide (ps_id r = id)) (List.filter (fun r => negb (expired now r)) rows)) with
  | Some r => Some (seen now r) | None => None end =
  match map_get id l with Some s => if expired now s then None else Some (seen now s) | None => None end.
Proof.
  intros [H1 H2]. revert rows H1. induction H2 as [|[k s] l E H2 IH]; intros [|r rows] H1 Hw; try done. injection H1 as Er A B H1. cbn in E. subst k.
  apply NoDup_cons_iff in Hw as [Hnin Hw]. specialize (IH rows H1 Hw).
  assert (expired now r = expired now s /\ seen now r = seen now s) as [Ex Es] by (unfold expired, seen; by rewrite Er, A, B).
  unfold map_get. cbn [List.filter List.find]. unfold key_eq at 1. cbn [fst]. rewrite Ex. case_bool_decide as Hid.
  - cbn. assert (map_get id l = None) as Hn by (apply map_get_None; by rewrite <-Hid). rewrite Hn in IH.
    destruct (expired now s); cbn [negb List.filter]; [exact IH|]. rewrite Er, bool_decide_true by done. rewrite last_cons.
    destruct (last _); [done|]. by rewrite Es.
  - destruct (expired now s); cbn [negb List.filter]; [exact IH|]. rewrite Er, bool_decide_false by done. exact IH.
Qed.

Lemma mirrors_start now m : mirrored m -> wf (sessions (panelSessions m)) -> mirrored (start true now None (stop m)).
Proof.
  intros [H1 H2] Hw. unfold start, mirrored. cbn [hydrate stop panelSessions panel_rows apply_store clear new_store sessions].
  (* the restored entries are the rows that are not expired, in order *)
  assert (forall rows (acc : list (string * PanelSession)), List.NoDup (map fst acc ++ map ps_id rows) ->
    foldl (fun m r => map_set (ps_id r) (mkSession (ps_id r) (ps_sid r) (createdAt r) now) m) acc rows = acc ++ map (fun r => (ps_id r, seen now r)) rows) as Hfold.
  { intros rows. induction rows as [|r rows IH]; intros acc Hnd; [by rewrite app_nil_r|]. cbn [foldl map].
    assert (map_has (ps_id r) acc = false) as Hh.
    { apply map_has_false. intros Hin. cbn in Hnd. apply (NoDup_remove_2 _ _ _ Hnd). apply in_app_iff. by left. }
    unfold map_set at 2. rewrite Hh, IH; [by rewrite <-app_assoc|]. rewrite map_app, <-app_assoc. exact Hnd. }
  assert (List.NoDup (map ps_id (panel_rows m))) as Hnd.
  { assert (map ps_id (panel_rows m) = map fst (sessions (panelSessions m))) as ->; [|exact Hw].
    transitivity (map (fun k => k.1.1) (map row_of (panel_rows m))); [by rewrite map_map|]. rewrite H1, map_map. apply map_ext_in. intros e He. symmetry.
    by apply (proj1 (List.Forall_forall _ _) H2). }
  assert (forall r, In r (panel_rows m) -> includes (ps_id r) (map ps_id (List.filter (expired now) (panel_rows m))) = expired now r) as Hin.
  { intros r Hr. apply eq_true_iff_eq. rewrite includes_In, in_map_iff. split.
    - intros (r' & E & [Hr' He]%filter_In). by rewrite <-(NoDup_map_inj ps_id _ r' r Hnd Hr' Hr E).
    - intros He. exists r. split; [done|]. by apply filter_In. }
  assert (sink_remove (map ps_id (List.filter (expired now) (panel_rows m))) None (panel_rows m) = List.filter (fun r => negb (expired now r)) (panel_rows m)) as ->.
  { unfold sink_remove. apply filter_ext_in. intros r Hr. by rewrite Hin. }
  rewrite Hfold; [|by apply filter_NoDup_map]. cbn [app]. split; [by rewrite map_map|]. apply List.Forall_map, List.Forall_forall. done.
Qed.

Lemma mirrors_step past m e : panels_ok past m -> mirrored m -> sink_works m e -> mirrored (panel_step m e).
Proof.
  intros Hok Hm Hw. destruct e as [verified id now ok|id now k|id socket|id socket|sid now|sid|sid|sid k|sid| |now k|loads now k]; cbn [panel_step sink_works] in *;
    try (by apply (mirrors_view m)).
  - unfold openPanelSession. destruct verified as [sid|]; [|done]. destruct (negb _); [done|]. destruct Hw as [-> Hh]. destruct Hm as [H1 H2].
    unfold mirrored. cbn. unfold map_set. rewrite Hh. unfold sink_insert. cbn [ps_id andb].
    assert (existsb (fun r => bool_decide (ps_id r = id)) (panel_rows m) = false) as ->.
    { apply not_true_iff_false. intros (r & Hr & E)%existsb_exists. apply bool_decide_eq_true in E. apply map_has_false in Hh. destruct Hh.
      apply (in_map row_of) in Hr. rewrite H1 in Hr. apply in_map_iff in Hr as (x & Ex & Hx). apply in_map_iff. exists x. split; [|done].
      rewrite (proj1 (List.Forall_forall _ _) H2 x Hx). unfold row_of in Ex. congruence. }
    cbn [negb]. split; [by rewrite !map_app, H1|]. apply List.Forall_app. by repeat constructor.
  - subst k. by apply mirrors_resolve.
  - unfold panelSocketOpened, socketOpened. destruct (negb _); apply (mirrors_view m); try done; cbn; apply (sink_remove_nil None).
  - apply (mirrors_view m); [done| |done]. cbn. unfold socketClosed. destruct (map_get id _); [|done]. by destruct (List.filter _ _).
  - unfold handleSidecarConnect, mirrored. cbn. apply mirrors_map; [done|]. intros [k s]. cbn. by case_bool_decide.
  - subst k. unfold revokeSidecar. destruct (negb _); [done|]. cbn [fst]. unfold deleteBySid. set (ids := ids_where _ _). set (m1 := disconnect _ _).
    pose proof (drop_sessions_ok ids (panelSessions m1)) as D. destruct (drop_sessions ids (panelSessions m1)) as [st closed].
    by apply (mirrors_drop m1).
  - subst k. unfold sweepPanelSessions. apply mirrors_sweep_revoked. unfold sweep. set (ids := ids_where _ _).
    pose proof (drop_sessions_ok ids (panelSessions m)) as D. destruct (drop_sessions ids (panelSessions m)) as [st closed]. by apply mirrors_drop.
  - destruct Hw as [-> ->]. apply mirrors_start; [done|apply Hok].
Qed.

Lemma works_mirrored past m es : panels_ok past m -> mirrored m -> works_run m es -> mirrored (panel_steps m es) /\ wf (sessions (panelSessions (panel_steps m es))).
Proof.
  revert past m. induction es as [|e es IH]; intros past m Hok Hm; [split; [done|apply Hok]|]. intros [Hw Hr].
  apply (IH (past ++ [e]) (panel_step m e)); [by apply panel_step_ok|by eapply mirrors_step|done].
Qed.

(** When the writes of the table succeed, a restart restores every session of the map that
    is less than twelve hours old, with the same sidecar and the same age, and no other one,
    whatever openings, requests, revocations, sweeps and restarts came before. *)
Theorem restart_keeps_panels (es : list PanelEvent) (id : string) (now : Z) : works_run new_sidecars es ->
  map_get id (sessions (panelSessions (panel_step (panel_steps new_sidecars es) (EvRestart true now None)))) =
  match map_get id (sessions (panelSessions (panel_steps new_sidecars es))) with
  | Some s => if expired now s then None else Some (mkSession (ps_id s) (ps_sid s) (createdAt s) now)
  | None => None
  end.
Proof.
  intros Hw. destruct (works_mirrored [] new_sidecars es (new_panels_ok []) ltac:(by split) Hw) as [Hm Hwf].
  cbn [panel_step]. unfold start. cbn [hydrate stop panelSessions apply_store]. cbn [sessions]. rewrite hydrated_get.
  exact (restored_get now id _ _ Hm Hwf).
Qed.

Lemma restart_keeps_panels_witness :
  map_get "s1" (sessions (panelSessions (panel_step (panel_steps new_sidecars demo_panels) (EvRestart true 5000 None)))) = Some (mkSession "s1" "laptop" 0 5000).
Proof. rewrite (restart_keeps_panels demo_panels "s1" 5000); [vm_compute; reflexivity|]. cbn. repeat split. Defined.
