(* ===== verification/TaskManager.v ===== *)
(** * Background agent tasks (agents/task-manager.ts)

    A task is an object shared by the [tasks] map and by the callbacks of its run.
    The run itself is the sub-agent runner's; what it returns is an argument of
    [task_resolved] or [task_rejected], the two callbacks. A completion callback
    may throw; [runs] are the task ids whose run has not ended. *)
From S2P Require Export Json JsMap.

(** ** Data *)

Inductive AsyncTaskStatus := task_running | task_completed | task_failed.

#[export] Instance task_status_eq_dec : EqDecision AsyncTaskStatus.
Proof. solve_decision. Defined.

Record SubAgentResult := mkResult {
  res_success : bool;
  res_response : string;
  res_toolsUsed : list string;
  res_tokens : Z * Z;
  res_reason : string;
  res_messages : list json;
}.

Record AsyncTask := mkTask {
  task_id : string;
  task_agentId : string;
  task_agentName : string;
  task_specialistId : string;
  task_text : string;
  task_status : AsyncTaskStatus;
  task_startedAt : Z;
  task_completedAt : option Z;
  task_result : option SubAgentResult;
  task_summary : option string;
}.

Inductive TaskLifecycleEvent := ev_launch | ev_complete | ev_fail.

(** What an operation shows outside: events to the listeners and completion callbacks. *)
Inductive TaskEffect :=
  | Emit (e : TaskLifecycleEvent) (id : string)
  | CallComplete (id : string).

Record AgentTaskManager := mkManager {
  tasks : list (string * AsyncTask);
  runs : list string;
}.

Definition new_manager : AgentTaskManager := mkManager [] [].
Definition MAX_RUNNING_TASKS : nat := 5.

Definition is_running (t : AsyncTask) : bool := bool_decide (task_status t = task_running).

(** ** Operations *)

Definition runningCount (m : AgentTaskManager) : nat := length (List.filter is_running (map_values (tasks m))).
Definition canLaunch (m : AgentTaskManager) : bool := (runningCount m <? MAX_RUNNING_TASKS)%nat.

(** [throw new TaskCapacityError()] is [inl]. *)
Definition launch (m : AgentTaskManager) (taskId : string) (now : Z) (agentId agentName specialistId text : string)
    : () + (AgentTaskManager * list TaskEffect) :=
  if negb (canLaunch m) then inl tt
  else
    let t := mkTask taskId agentId agentName specialistId text task_running now None None None in
    inr (mkManager (map_set taskId t (tasks m)) (runs m ++ [taskId]), [Emit ev_launch taskId]).

Definition settle (t : AsyncTask) (st : AsyncTaskStatus) (now : Z) (r : SubAgentResult) : AsyncTask :=
  mkTask (task_id t) (task_agentId t) (task_agentName t) (task_specialistId t) (task_text t) st (task_startedAt t)
    (Some now) (Some r) (task_summary t).

Definition failure_result (message : string) : SubAgentResult :=
  mkResult false ("Task failed: " +:+ message) [] (0, 0) "error" [].

Definition end_run (m : AgentTaskManager) (taskId : string) (ts : list (string * AsyncTask)) : AgentTaskManager :=
  mkManager ts (List.filter (fun x => negb (bool_decide (x = taskId))) (runs m)).

(** The [catch] callback. *)
Definition task_rejected (m : AgentTaskManager) (taskId : string) (now : Z) (message : string) : AgentTaskManager * list TaskEffect :=
  (end_run m taskId (map_alter (fun t => settle t task_failed now (failure_result message)) taskId (tasks m)),
   [Emit ev_fail taskId; CallComplete taskId]).

(** The [then] callback; when the completion callback throws [e], the [catch] callback follows. *)
Definition task_resolved (m : AgentTaskManager) (taskId : string) (now : Z) (r : SubAgentResult) (throws : option string)
    : AgentTaskManager * list TaskEffect :=
  let m1 := end_run m taskId (map_alter (fun t => settle t task_completed now r) taskId (tasks m)) in
  let out1 := [Emit ev_complete taskId; CallComplete taskId] in
  match throws with
  | None => (m1, out1)
  | Some message => let '(m2, out2) := task_rejected m1 taskId now message in (m2, out1 ++ out2)
  end.

Definition getTask (m : AgentTaskManager) (taskId : string) : option AsyncTask := map_get taskId (tasks m).

Definition setSummary (m : AgentTaskManager) (taskId summary : string) : AgentTaskManager :=
  mkManager (map_alter (fun t => mkTask (task_id t) (task_agentId t) (task_agentName t) (task_specialistId t) (task_text t)
    (task_status t) (task_startedAt t) (task_completedAt t) (task_result t) (Some summary)) taskId (tasks m)) (runs m).

Definition getAgentTask (m : AgentTaskManager) (agentId : string) : option AsyncTask :=
  match List.filter (fun t => bool_decide (task_agentId t = agentId)) (map_values (tasks m)) with
  | [] => None
  | t :: l => Some (reduce_max task_startedAt t l)
  end.

Definition isAgentBusy (m : AgentTaskManager) (agentId : string) : bool :=
  existsb (fun t => bool_decide (task_agentId t = agentId) && is_running t) (map_values (tasks m)).

Definition listTasks (m : AgentTaskManager) (status : option AsyncTaskStatus) : list AsyncTask :=
  match status with
  | None => map_values (tasks m)
  | Some s => List.filter (fun t => bool_decide (task_status t = s)) (map_values (tasks m))
  end.

(** Old finished tasks; a completion time of 0 counts as none. *)
Definition expired (now maxAgeMs : Z) (t : AsyncTask) : bool :=
  negb (is_running t) &&
  match task_completedAt t with Some c => negb (c =? 0) && (now - c >? maxAgeMs) | None => false end.

Definition cleanup (m : AgentTaskManager) (now maxAgeMs : Z) : AgentTaskManager * nat :=
  (mkManager (List.filter (fun e => negb (expired now maxAgeMs (snd e))) (tasks m)) (runs m),
   length (List.filter (fun e => expired now maxAgeMs (snd e)) (tasks m))).

(** ** Sequences of operations *)

Inductive TaskOp :=
  | Launch (taskId : string) (now : Z) (agentId agentName specialistId text : string)
  | Resolved (taskId : string) (now : Z) (r : SubAgentResult) (throws : option string)
  | Rejected (taskId : string) (now : Z) (message : string)
  | SetSummary (taskId summary : string)
  | Cleanup (now maxAgeMs : Z).

(** A run ends once: its callbacks come only while it is in progress. *)
Definition task_step (m : AgentTaskManager) (op : TaskOp) : AgentTaskManager * list TaskEffect :=
  match op with
  | Launch id now a n s t => match launch m id now a n s t with inr r => r | inl _ => (m, []) end
  | Resolved id now r throws => if includes id (runs m) then task_resolved m id now r throws else (m, [])
  | Rejected id now message => if includes id (runs m) then task_rejected m id now message else (m, [])
  | SetSummary id s => (setSummary m id s, [])
  | Cleanup now age => (fst (cleanup m now age), [])
  end.

Fixpoint task_steps (m : AgentTaskManager) (ops : list TaskOp) : AgentTaskManager * list TaskEffect :=
  match ops with
  | [] => (m, [])
  | op :: rest =>
      let '(m1, o1) := task_step m op in
      let '(m2, o2) := task_steps m1 rest in
      (m2, o1 ++ o2)
  end.

(** The ids launched by a sequence, in order. *)
Definition launched (ops : list TaskOp) : list string :=
  flat_map (fun op => match op with Launch id _ _ _ _ _ => [id] | _ => [] end) ops.

(** ** The life of one task *)

Definition effect_task (f : TaskEffect) : string := match f with Emit _ id | CallComplete id => id end.
Definition task_effects (id : string) (out : list TaskEffect) : list TaskEffect :=
  List.filter (fun f => bool_decide (effect_task f = id)) out.

(** Effects of a task so far, by whether its run is in progress and its status. *)
Inductive task_life (id : string) : bool -> AsyncTaskStatus -> list TaskEffect -> Prop :=
  | life_running : task_life id true task_running [Emit ev_launch id]
  | life_completed : task_life id false task_completed [Emit ev_launch id; Emit ev_complete id; CallComplete id]
  | life_failed : task_life id false task_failed [Emit ev_launch id; Emit ev_fail id; CallComplete id]
  | life_callback_threw : task_life id false task_failed
      [Emit ev_launch id; Emit ev_complete id; CallComplete id; Emit ev_fail id; CallComplete id].

(** The history of every id, given the tasks and the runs in progress. *)
Definition task_known (m : AgentTaskManager) (history : list TaskEffect) (id : string) : Prop :=
  match map_get id (tasks m) with
  | Some t => task_id t = id /\ task_life id (includes id (runs m)) (task_status t) (task_effects id history)
  | None => includes id (runs m) = false /\
      (task_effects id history = [] \/ exists st, task_life id false st (task_effects id history))
  end.

Record manager_ok (m : AgentTaskManager) (used : list string) (history : list TaskEffect) : Prop := {
  mo_wf : wf (tasks m);
  mo_cap : (runningCount m <= MAX_RUNNING_TASKS)%nat;
  mo_known : forall id, task_known m history id;
  mo_fresh : forall id, ~ In id used -> map_get id (tasks m) = None /\ task_effects id history = [];
}.

Lemma task_effects_app id a b : task_effects id (a ++ b) = task_effects id a ++ task_effects id b.
Proof. apply List.filter_app. Qed.

Lemma task_effects_other id out : (forall f, In f out -> effect_task f <> id) -> task_effects id out = [].
Proof. intros H. apply filter_nil_iff. intros f Hf. apply bool_decide_eq_false. auto. Qed.

Lemma task_effects_self id out : (forall f, In f out -> effect_task f = id) -> task_effects id out = out.
Proof.
  induction out as [|f out IH]; intros H; simpl; [done|]. rewrite bool_decide_true by (apply H; by left).
  f_equal. apply IH. intros. apply H. by right.
Qed.

Lemma filter_perm_length {A} (p : A -> bool) l l' : l ≡ₚ l' -> length (List.filter p l) = length (List.filter p l').
Proof.
  induction 1 as [|x l l' _ IH|x y l|l1 l2 l3 _ IH1 _ IH2]; simpl; try done; try congruence.
  - destruct (p x); simpl; congruence.
  - by destruct (p x), (p y).
Qed.

(** How many tasks run, split at one id. *)
Lemma running_split m id t : wf (tasks m) -> map_get id (tasks m) = Some t ->
  runningCount m = ((if is_running t then 1 else 0) + length (List.filter is_running (map_values (map_delete id (tasks m)))))%nat.
Proof.
  intros Hw Hg. unfold runningCount, map_values. rewrite (filter_perm_length _ _ _ (Permutation_map snd (map_get_perm id t _ Hw Hg))).
  simpl. by destruct (is_running t).
Qed.

Lemma running_absent m id : map_get id (tasks m) = None ->
  runningCount m = length (List.filter is_running (map_values (map_delete id (tasks m)))).
Proof. intros H%map_get_None. by rewrite map_delete_absent. Qed.

Lemma includes_drop (id x : string) l : includes x (List.filter (fun y => negb (bool_decide (y = id))) l) = negb (bool_decide (x = id)) && includes x l.
Proof.
  apply eq_true_iff_eq. rewrite andb_true_iff, !includes_In, List.filter_In, negb_true_iff. tauto.
Qed.

(** Ending a run of one task: the others keep their history. *)
Lemma end_run_ok m used history id t t' out :
  manager_ok m used history -> map_get id (tasks m) = Some t -> (is_running t' = true -> is_running t = true) ->
  task_id t' = id -> (forall f, In f out -> effect_task f = id) ->
  task_life id false (task_status t') (task_effects id history ++ out) ->
  manager_ok (end_run m id (map_alter (fun _ => t') id (tasks m))) used (history ++ out).
Proof.
  intros [Hw Hc Hk Hf] Hg Hrun Hid Hout Hlife.
  assert (forall x, x <> id -> task_effects x out = []) as Hother.
  { intros x Hx. apply task_effects_other. intros f Hff E. apply Hx. rewrite <- E. by apply Hout. }
  split; cbn [tasks runs end_run].
  - by apply wf_alter.
  - rewrite (running_split _ id t') by (cbn [tasks end_run]; rewrite ?map_get_alter, ?bool_decide_true, ?Hg by done; eauto with jsmap).
    rewrite (running_split m id t) in Hc by done. cbn [tasks end_run].
    assert (map_delete id (map_alter (fun _ => t') id (tasks m)) = map_delete id (tasks m)) as ->.
    { unfold map_delete, map_alter. clear. induction (tasks m) as [|e l IH]; simpl; [done|].
      destruct (key_eq id e) eqn:E; simpl; [|by rewrite E; simpl; f_equal].
      unfold key_eq in *. simpl. by rewrite E. }
    destruct (is_running t') eqn:E1; [rewrite Hrun in Hc by done|]; destruct (is_running t); simpl in *; lia.
  - intros x. unfold task_known. cbn [tasks runs end_run]. rewrite map_get_alter, task_effects_app, includes_drop.
    case_bool_decide as Hx.
    + subst x. rewrite Hg. simpl. rewrite (task_effects_self id out) by done. done.
    + rewrite Hother, app_nil_r by done. simpl. apply Hk.
  - intros x Hx. destruct (Hf x Hx) as [H1 H2]. assert (x <> id) by congruence.
    rewrite map_get_alter, task_effects_app, bool_decide_false, Hother, H2 by done. done.
Qed.

Lemma map_alter_const {V} (f : V -> V) (k : string) v (m : list (string * V)) : wf m -> map_get k m = Some v ->
  map_alter f k m = map_alter (fun _ => f v) k m.
Proof.
  intros Hw Hg. unfold map_alter. apply map_ext_in. intros e He. destruct (key_eq k e) eqn:E; [|done].
  apply key_eq_true in E. do 2 f_equal. apply (map_get_Some _ _ _ Hw) in Hg. 
  assert (map_get k m = Some (snd e)) as H2 by (apply map_get_Some; [done|]; by destruct e; simpl in *; subst).
  apply (map_get_Some _ _ _ Hw) in Hg. congruence.
Qed.

Lemma known_run m used history id : manager_ok m used history -> includes id (runs m) = true ->
  exists t, map_get id (tasks m) = Some t /\ task_id t = id /\ task_status t = task_running /\
    task_effects id history = [Emit ev_launch id].
Proof.
  intros Hok Hin. pose proof (mo_known _ _ _ Hok id) as Hk. unfold task_known in Hk.
  destruct (map_get id (tasks m)) as [t|]; [|destruct Hk; congruence].
  destruct Hk as [Hid Hl]. rewrite Hin in Hl. exists t. by inversion Hl.
Qed.

Lemma task_rejected_ok m used history id now message : manager_ok m used history -> includes id (runs m) = true ->
  manager_ok (fst (task_rejected m id now message)) used (history ++ snd (task_rejected m id now message)).
Proof.
  intros Hok Hin. destruct (known_run _ _ _ _ Hok Hin) as (t & Hg & Hid & Hs & He).
  cbn [fst snd task_rejected]. rewrite (map_alter_const _ _ t) by (done || apply (mo_wf _ _ _ Hok)).
  eapply end_run_ok; try done; [by intros f [<-|[<-|[]]]|]. rewrite He. constructor.
Qed.

Lemma alter_twice {V} (f g : V -> V) (k : string) (m : list (string * V)) :
  map_alter g k (map_alter f k m) = map_alter (fun v => g (f v)) k m.
Proof.
  unfold map_alter. rewrite map_map. apply map_ext. intros e. destruct (key_eq k e) eqn:E; [|by rewrite E].
  unfold key_eq in *. simpl. by rewrite E.
Qed.

Lemma drop_twice (id : string) l : List.filter (fun y => negb (bool_decide (y = id))) (List.filter (fun y => negb (bool_decide (y = id))) l)
  = List.filter (fun y => negb (bool_decide (y = id))) l.
Proof.
  induction l as [|x l IH]; simpl; [done|]. destruct (bool_decide (x = id)) eqn:E; simpl; [done|]. by rewrite E, IH.
Qed.

Lemma task_resolved_ok m used history id now r throws : manager_ok m used history -> includes id (runs m) = true ->
  manager_ok (fst (task_resolved m id now r throws)) used (history ++ snd (task_resolved m id now r throws)).
Proof.
  intros Hok Hin. destruct (known_run _ _ _ _ Hok Hin) as (t & Hg & Hid & Hs & He).
  unfold task_resolved. destruct throws as [message|]; cbn [fst snd task_rejected].
  - unfold end_run. cbn [tasks runs]. rewrite alter_twice, drop_twice. fold (end_run m id).
    change (mkManager ?ts _) with (end_run m id ts).
    rewrite (map_alter_const _ _ t) by (done || apply (mo_wf _ _ _ Hok)).
    eapply end_run_ok; try done; [by intros f [<-|[<-|[<-|[<-|[]]]]]|]. rewrite He. constructor.
  - rewrite (map_alter_const _ _ t) by (done || apply (mo_wf _ _ _ Hok)).
    eapply end_run_ok; try done; [by intros f [<-|[<-|[]]]|]. rewrite He. constructor.
Qed.

Lemma launch_ok m used history id now a n sp text : manager_ok m used history -> ~ In id used ->
  let r := task_step m (Launch id now a n sp text) in manager_ok (fst r) (used ++ [id]) (history ++ snd r).
Proof.
  intros [Hw Hc Hk Hf] Hfresh. cbn zeta. cbn [task_step]. unfold launch. destruct (canLaunch m) eqn:Hcan; cbn [negb fst snd].
  2: { rewrite app_nil_r. split; try done. intros x Hx. apply Hf. rewrite in_app_iff in Hx. tauto. }
  unfold canLaunch in Hcan. apply Nat.ltb_lt in Hcan. destruct (Hf id Hfresh) as [Hnone Hempty].
  set (t := mkTask id a n sp text task_running now None None None).
  assert (forall x, x <> id -> task_effects x [Emit ev_launch id] = []) as Hother.
  { intros x Hx. apply task_effects_other. intros f [<-|[]]. simpl. congruence. }
  split; cbn [tasks runs].
  - by apply wf_set.
  - rewrite (running_split _ id t) by (cbn [tasks]; first [by apply wf_set|by rewrite map_get_set, bool_decide_true]).
    cbn [tasks]. rewrite map_delete_set. rewrite (running_absent m id Hnone) in Hcan. simpl in *. lia.
  - intros x. unfold task_known. cbn [tasks runs]. rewrite map_get_set, task_effects_app, includes_app. case_bool_decide as Hx.
    + subst x. rewrite Hempty. split; [done|]. rewrite (task_effects_self id [Emit ev_launch id]) by (by intros f [<-|[]]).
      rewrite (proj2 (includes_In id [id])) by by left. rewrite orb_true_r. constructor.
    + rewrite Hother, app_nil_r by done. rewrite (proj2 (includes_false x [id])) by (intros [E|[]]; congruence).
      rewrite orb_false_r. apply Hk.
  - intros x Hx. rewrite in_app_iff in Hx. assert (x <> id) by (intros ->; apply Hx; right; by left).
    destruct (Hf x ltac:(tauto)) as [H1 H2]. rewrite map_get_set, task_effects_app, bool_decide_false, Hother, H2 by done. done.
Qed.

Lemma cleanup_ok m used history now age : manager_ok m used history -> manager_ok (fst (cleanup m now age)) used history.
Proof.
  intros [Hw Hc Hk Hf]. cbn [fst cleanup].
  assert (forall id, map_get id (List.filter (fun e => negb (expired now age (snd e))) (tasks m)) =
    match map_get id (tasks m) with Some t => if expired now age t then None else Some t | None => None end) as Hget.
  { intros id. unfold wf in Hw. clear -Hw. unfold map_get. induction (tasks m) as [|e l IH]; [done|].
    simpl in Hw. apply NoDup_cons_iff in Hw as [Hn Hw]. specialize (IH Hw). cbn [List.filter List.find].
    destruct (key_eq id e) eqn:E.
    - cbn [fmap option_fmap option_map]. destruct (expired now age (snd e)) eqn:Ex; cbn [negb]; [|cbn [List.find]; by rewrite E].
      rewrite IH. apply key_eq_true in E. subst id. destruct (map_get_None (fst e) l) as [_ Hnone].
      unfold map_get in Hnone. by rewrite Hnone.
    - destruct (negb (expired now age (snd e))); cbn [List.find]; rewrite ?E; exact IH. }
  split; cbn [tasks runs].
  - by apply filter_NoDup_map.
  - etransitivity; [|exact Hc]. unfold runningCount, map_values. cbn [tasks]. clear.
    induction (tasks m) as [|e l IH]; simpl; [done|]. destruct (negb _); simpl; destruct (is_running (snd e)); simpl; lia.
  - intros id. unfold task_known. cbn [tasks runs]. rewrite Hget. specialize (Hk id). unfold task_known in Hk.
    destruct (map_get id (tasks m)) as [t|]; [|done]. destruct (expired now age t) eqn:Ex; [|done].
    destruct Hk as [_ Hl]. unfold expired in Ex. to_prop. unfold is_running in H.
    assert (task_status t <> task_running) by by apply bool_decide_eq_false in H. inversion Hl; try congruence; split; try done; right; eauto.
    all: exists (task_status t); congruence.
  - intros id Hid. destruct (Hf id Hid) as [H1 H2]. split; [|done]. by rewrite Hget, H1.
Qed.

Lemma set_summary_ok m used history id s : manager_ok m used history -> manager_ok (setSummary m id s) used history.
Proof.
  intros [Hw Hc Hk Hf]. unfold setSummary. set (f := fun t : AsyncTask => _).
  split; cbn [tasks runs].
  - by apply wf_alter.
  - etransitivity; [|exact Hc]. unfold runningCount, map_values, map_alter. cbn [tasks]. rewrite map_map. clear.
    induction (tasks m) as [|e l IH]; simpl; [done|].
    assert (is_running (snd (if key_eq id e then (fst e, f (snd e)) else e)) = is_running (snd e)) as -> by by destruct (key_eq id e).
    destruct (is_running (snd e)); simpl; lia.
  - intros x. specialize (Hk x). unfold task_known in *. cbn [tasks runs]. rewrite map_get_alter. case_bool_decide; [|done].
    by destruct (map_get x (tasks m)).
  - intros x Hx. destruct (Hf x Hx) as [H1 H2]. split; [|done]. rewrite map_get_alter, H1. by case_bool_decide.
Qed.

Lemma task_step_ok m used history op : manager_ok m used history ->
  (forall id, In id (launched [op]) -> ~ In id used) ->
  manager_ok (fst (task_step m op)) (used ++ launched [op]) (history ++ snd (task_step m op)).
Proof.
  intros Hok Hfresh. destruct op; cbn [launched flat_map app] in *; rewrite ?app_nil_r; cbn [task_step].
  - apply launch_ok; [done|]. apply Hfresh. by left.
  - destruct (includes taskId (runs m)) eqn:E; [by apply task_resolved_ok|by rewrite app_nil_r].
  - destruct (includes taskId (runs m)) eqn:E; [by apply task_rejected_ok|by rewrite app_nil_r].
  - cbn [fst snd]. rewrite ?app_nil_r. by apply set_summary_ok.
  - cbn [snd]. rewrite ?app_nil_r. by apply cleanup_ok.
Qed.

Lemma launched_cons op ops : launched (op :: ops) = launched [op] ++ launched ops.
Proof. by destruct op. Qed.

Lemma task_steps_ok m used history ops : manager_ok m used history -> List.NoDup (used ++ launched ops) ->
  manager_ok (fst (task_steps m ops)) (used ++ launched ops) (history ++ snd (task_steps m ops)).
Proof.
  revert m used history. induction ops as [|op ops IH]; intros m used history Hok Hd; [cbn; by rewrite !app_nil_r|].
  rewrite launched_cons, app_assoc in *. cbn [task_steps].
  pose proof (task_step_ok m used history op Hok) as H1.
  destruct (task_step m op) as [m1 o1]. cbn [fst snd] in H1.
  assert (forall id, In id (launched [op]) -> ~ In id used) as Hfresh.
  { intros id Hin Hu. apply NoDup_ListNoDup, NoDup_app in Hd as [Hd _].
    apply NoDup_app in Hd as (_ & Hd & _). by apply (Hd id); apply list_elem_of_In. }
  specialize (IH m1 _ _ (H1 Hfresh) Hd). destruct (task_steps m1 ops) as [m2 o2]. cbn [fst snd] in *. by rewrite app_assoc.
Qed.

(** Over every sequence of launches, ended runs, summaries and cleanups with fresh
    ids, at most five tasks run at once, and each task is announced, then ends
    exactly once: completed, or failed, or, when its completion callback threw,
    completed and then failed with the callback called twice. A task is running
    exactly while its run is in progress. *)
Theorem task_runs_are_bounded (ops : list TaskOp) : List.NoDup (launched ops) ->
  let '(m, out) := task_steps new_manager ops in
  (runningCount m <= MAX_RUNNING_TASKS)%nat /\
  forall id t, getTask m id = Some t -> task_life id (includes id (runs m)) (task_status t) (task_effects id out).
Proof.
  intros Hd. assert (manager_ok new_manager [] []) as Hnew.
  { split; cbn; [constructor|unfold MAX_RUNNING_TASKS; lia| |done]. intros id. split; [done|by left]. }
  pose proof (task_steps_ok new_manager [] [] ops Hnew Hd) as [Hw Hc Hk _].
  destruct (task_steps new_manager ops) as [m out]. cbn [fst snd app] in *. split; [exact Hc|].
  intros id t Hg. specialize (Hk id). unfold task_known in Hk. unfold getTask in Hg. rewrite Hg in Hk. apply Hk.
Qed.

Definition demo_result : SubAgentResult := mkResult true "done" [] (1, 2) "completed" [].
Definition demo_tasks : list TaskOp :=
  [Launch "t1" 1 "a" "Ann" "s" "x"; Launch "t2" 2 "b" "Bob" "s" "y"; Launch "t3" 3 "c" "Cy" "s" "z"; Launch "t4" 3 "d" "Di" "s" "z";
   Launch "t5" 3 "e" "Ed" "s" "z"; Launch "t6" 4 "f" "Flo" "s" "z"; Resolved "t1" 5 demo_result (Some "boom"); Launch "t7" 6 "f" "Flo" "s" "z"].

Lemma task_runs_are_bounded_witness :
  (runningCount (fst (task_steps new_manager demo_tasks)) <= MAX_RUNNING_TASKS)%nat
  /\ map_keys (tasks (fst (task_steps new_manager demo_tasks))) = ["t1"; "t2"; "t3"; "t4"; "t5"; "t7"]
  /\ option_map task_status (getTask (fst (task_steps new_manager demo_tasks)) "t1") = Some task_failed.
Proof.
  split; [|split; vm_compute; reflexivity]. pose proof (task_runs_are_bounded demo_tasks) as H.
  destruct (task_steps new_manager demo_tasks) as [m out]. apply H. cbn. repeat constructor; simpl; intuition discriminate.
Defined.
