(* ===== verification/RateLimiter.v ===== *)
(** * The sliding-window rate limiter (workflows/runner/triggers/rate-limiter.ts)

    One list of hit times per key. Every reading of the clock is an argument, so an
    operation that reads it several times takes several; [clock_ok] says that the
    readings do not go back. [limiter_bounds_window] is the promise of the class:
    no window of [windowMs] holds more than [maxPerWindow] accepted hits of a key,
    over any sequence of operations, sweeps of the map included. *)
From S2P Require Export JsMap.

Record KeyedRateLimiter := mkLimiter {
  windowMs : Z;
  maxPerWindow : nat;
  hits : list (string * list Z);
}.

Definition new_limiter (window : Z) (most : nat) : KeyedRateLimiter := mkLimiter window most [].
Definition with_hits (l : KeyedRateLimiter) (h : list (string * list Z)) : KeyedRateLimiter :=
  mkLimiter (windowMs l) (maxPerWindow l) h.

(** [while (arr.length > 0 && arr[0] <= cutoff) arr.shift()] *)
Fixpoint shift_old (cutoff : Z) (arr : list Z) : list Z :=
  match arr with
  | t :: rest => if t <=? cutoff then shift_old cutoff rest else arr
  | [] => []
  end.

(** [evicted]: the pruned hits of a key, created on demand; arrays are shared with the map. *)
Definition evicted (l : KeyedRateLimiter) (now : Z) (key : string) (create : bool) : KeyedRateLimiter * option (list Z) :=
  let cutoff := now - windowMs l in
  match map_get key (hits l) with
  | Some arr => (with_hits l (map_alter (shift_old cutoff) key (hits l)), Some (shift_old cutoff arr))
  | None => if create then (with_hits l (map_set key [] (hits l)), Some []) else (l, None)
  end.

Definition check (l : KeyedRateLimiter) (now : Z) (key : string) : KeyedRateLimiter * bool :=
  let '(l1, arr) := evicted l now key false in
  (l1, (length (arr ?? []) <? maxPerWindow l)%nat).

(** The sweep deletes the current entry, which a scan of the map allows. *)
Definition sweep (l : KeyedRateLimiter) (cutoff : Z) : KeyedRateLimiter :=
  with_hits l (List.filter (fun e => match snd e with [] => false | _ => true end)
                 (map (fun e => (fst e, shift_old cutoff (snd e))) (hits l))).

(** [record]; the clock is read for the eviction, the hit and the sweep. *)
Definition record (l : KeyedRateLimiter) (t_evict t_hit t_sweep : Z) (key : string) : KeyedRateLimiter :=
  let '(l1, _) := evicted l t_evict key true in
  let l2 := with_hits l1 (map_alter (fun arr => arr ++ [t_hit]) key (hits l1)) in
  if (10000 <? length (hits l2))%nat then sweep l2 (t_sweep - windowMs l) else l2.

(** The four readings of the clock in one [allow]. *)
Record Readings := mkReadings { r_check : Z; r_evict : Z; r_hit : Z; r_sweep : Z }.

Definition allow (l : KeyedRateLimiter) (r : Readings) (key : string) : KeyedRateLimiter * bool :=
  let '(l1, ok) := check l (r_check r) key in
  if ok then (record l1 (r_evict r) (r_hit r) (r_sweep r) key, true) else (l1, false).

(** [Math.max(1, Math.ceil(x / 1000))] *)
Definition ceil_seconds (ms : Z) : Z := Z.max 1 (- ((- ms) / 1000)).

Definition retryAfterSeconds (l : KeyedRateLimiter) (now : Z) (key : string) : Z :=
  match map_get key (hits l) with
  | Some (oldest :: _) => ceil_seconds (oldest + windowMs l - now)
  | _ => 1
  end.

(** ** What the limiter remembers *)

Inductive LimiterOp :=
  | OpAllow (r : Readings) (key : string)
  | OpCheck (now : Z) (key : string).

(** One operation and the hit it accepted. *)
Definition limiter_step (l : KeyedRateLimiter) (op : LimiterOp) : KeyedRateLimiter * list (string * Z) :=
  match op with
  | OpAllow r key => let '(l', ok) := allow l r key in (l', if ok then [(key, r_hit r)] else [])
  | OpCheck now key => (fst (check l now key), [])
  end.

Fixpoint limiter_steps (l : KeyedRateLimiter) (ops : list LimiterOp) : KeyedRateLimiter * list (string * Z) :=
  match ops with
  | [] => (l, [])
  | op :: rest =>
      let '(l1, a1) := limiter_step l op in
      let '(l2, a2) := limiter_steps l1 rest in
      (l2, a1 ++ a2)
  end.

Definition readings (op : LimiterOp) : list Z :=
  match op with OpAllow r _ => [r_check r; r_evict r; r_hit r; r_sweep r] | OpCheck now _ => [now] end.

(** The clock never goes back. *)
Definition clock_ok (ops : list LimiterOp) : Prop := StronglySorted Z.le (flat_map readings ops).

(** Times of the accepted hits of a key. *)
Definition times_of (key : string) (accepted : list (string * Z)) : list Z :=
  map snd (List.filter (fun a => bool_decide (fst a = key)) accepted).

(** How many of them lie in the window that ends at [t]. *)
Definition in_window (w t : Z) (times : list Z) : nat :=
  length (List.filter (fun x => (t - w <? x) && (x <=? t)) times).

(** The hits kept for a key are the accepted ones, less some that already left the
    window at time [clock]. *)
Definition remembers (l : KeyedRateLimiter) (clock : Z) (key : string) (times : list Z) : Prop :=
  exists gone, times = gone ++ ((map_get key (hits l)) ?? []) /\ List.Forall (fun x => x <= clock - windowMs l) gone.

Lemma shift_old_split cutoff arr : exists gone, arr = gone ++ shift_old cutoff arr /\ List.Forall (fun x => x <= cutoff) gone.
Proof.
  induction arr as [|t arr (gone & E & Hg)]; simpl; [by exists []|].
  destruct (t <=? cutoff) eqn:Et; [|by exists []]. to_prop. exists (t :: gone). simpl. rewrite <- E. by split; [|constructor].
Qed.

Lemma remembers_later l clock clock' key times : clock <= clock' -> remembers l clock key times -> remembers l clock' key times.
Proof.
  intros Hc (gone & E & Hg). exists gone. split; [done|]. eapply List.Forall_impl; [|exact Hg]. simpl. lia.
Qed.

Lemma evicted_hits l now key create : hits (fst (evicted l now key create)) =
  match map_get key (hits l) with
  | Some _ => map_alter (shift_old (now - windowMs l)) key (hits l)
  | None => if create then map_set key [] (hits l) else hits l
  end.
Proof. unfold evicted. destruct (map_get key (hits l)); [done|]. by destruct create. Qed.

Lemma evicted_window l now key create : windowMs (fst (evicted l now key create)) = windowMs l /\
  maxPerWindow (fst (evicted l now key create)) = maxPerWindow l.
Proof. unfold evicted. destruct (map_get key (hits l)); [done|]. by destruct create. Qed.

(** An eviction at [now] only forgets hits that left the window. *)
Lemma evicted_remembers l now key create k times : remembers l now k times ->
  remembers (fst (evicted l now key create)) now k times.
Proof.
  intros (gone & E & Hg). unfold remembers. rewrite evicted_hits. destruct (evicted_window l now key create) as [-> _].
  destruct (map_get key (hits l)) as [arr|] eqn:Ek.
  - rewrite map_get_alter. case_bool_decide as Hk; [subst k|by exists gone].
    rewrite Ek in *. simpl in *. destruct (shift_old_split (now - windowMs l) arr) as (more & Es & Hm).
    exists (gone ++ more). rewrite <- app_assoc, <- Es. split; [done|]. by apply List.Forall_app.
  - destruct create; [|by exists gone]. rewrite map_get_set. case_bool_decide as Hk; [subst k|by exists gone].
    rewrite Ek in E. by exists gone.
Qed.

Lemma sweep_get l cutoff k : wf (hits l) -> ((map_get k (hits (sweep l cutoff))) ?? []) = shift_old cutoff ((map_get k (hits l)) ?? []).
Proof.
  unfold wf, map_get. cbn [sweep with_hits hits]. induction (hits l) as [|[k' arr] m IH]; intros Hw; [done|].
  cbn [map_keys map fst] in Hw. apply NoDup_cons_iff in Hw as [Hn Hw]. specialize (IH Hw).
  cbn [map List.filter List.find fst snd]. unfold key_eq at 2. cbn [fst]. case_bool_decide as Hk.
  - subst k'. cbn [fmap option_fmap option_map snd default]. destruct (shift_old cutoff arr) as [|t rest] eqn:Es.
    + rewrite IH. destruct (map_get_None k m) as [_ Hnone]. unfold map_get in Hnone. by rewrite Hnone.
    + cbn [List.find]. unfold key_eq at 1. cbn [fst]. by rewrite bool_decide_true.
  - destruct (shift_old cutoff arr); [exact IH|]. cbn [List.find]. unfold key_eq at 1. cbn [fst]. by rewrite bool_decide_false.
Qed.

Lemma sweep_remembers l now k times : wf (hits l) -> remembers l now k times ->
  remembers (sweep l (now - windowMs l)) now k times.
Proof.
  intros Hw (gone & E & Hg). unfold remembers. rewrite sweep_get by done.
  destruct (shift_old_split (now - windowMs l) ((map_get k (hits l)) ?? [])) as (more & Es & Hm).
  exists (gone ++ more). rewrite <- app_assoc, <- Es. split; [done|]. by apply List.Forall_app.
Qed.

(** ** The promise *)

Definition limited (l : KeyedRateLimiter) (clock : Z) (accepted : list (string * Z)) : Prop :=
  wf (hits l) /\
  (forall k, remembers l clock k (times_of k accepted)) /\
  (forall k, List.Forall (fun x => x <= clock) (times_of k accepted)) /\
  (forall k t, (in_window (windowMs l) t (times_of k accepted) <= maxPerWindow l)%nat).

Lemma times_of_app k a b : times_of k (a ++ b) = times_of k a ++ times_of k b.
Proof. unfold times_of. by rewrite List.filter_app, map_app. Qed.

Lemma in_window_app w t a b : in_window w t (a ++ b) = (in_window w t a + in_window w t b)%nat.
Proof. unfold in_window. by rewrite List.filter_app, length_app. Qed.

Lemma in_window_le w t a : (in_window w t a <= length a)%nat.
Proof. unfold in_window. induction a as [|x a IH]; simpl; [lia|]. destruct (_ && _); simpl; lia. Qed.

Lemma in_window_gone w t clock gone : clock <= t -> List.Forall (fun x => x <= clock - w) gone -> in_window w t gone = 0%nat.
Proof.
  intros Hc Hg. unfold in_window. induction Hg as [|x gone Hx _ IH]; simpl; [done|].
  destruct (t - w <? x) eqn:E; simpl; [to_prop; lia|exact IH].
Qed.

Lemma limited_later l clock clock' accepted : clock <= clock' -> limited l clock accepted -> limited l clock' accepted.
Proof.
  intros Hc (H1 & H2 & H3 & H4). split_and!; [done| | |done].
  - intros k. by eapply remembers_later; [|apply H2].
  - intros k. eapply List.Forall_impl; [|exact (H3 k)]. simpl. lia.
Qed.

Lemma evicted_limited l now key create accepted : limited l now accepted -> limited (fst (evicted l now key create)) now accepted.
Proof.
  intros (H1 & H2 & H3 & H4). destruct (evicted_window l now key create) as [E1 E2]. split_and!.
  - rewrite evicted_hits. destruct (map_get key (hits l)); [by apply wf_alter|]. destruct create; [by apply wf_set|done].
  - intros k. by apply evicted_remembers.
  - done.
  - intros k t. rewrite E1, E2. apply H4.
Qed.

(** After an eviction with [create] the key is there, with at most the hits it had. *)
Lemma evicted_get l now key : exists arr, map_get key (hits (fst (evicted l now key true))) = Some arr /\
  (length arr <= length ((map_get key (hits l)) ?? []))%nat.
Proof.
  rewrite evicted_hits. destruct (map_get key (hits l)) as [arr|] eqn:E.
  - rewrite map_get_alter, bool_decide_true, E by done. eexists. split; [done|]. simpl.
    destruct (shift_old_split (now - windowMs l) arr) as (gone & Es & _). rewrite Es at 2. rewrite length_app. lia.
  - rewrite map_get_set, bool_decide_true by done. eexists. by split.
Qed.

(** Accepting a hit while fewer than [maxPerWindow] are remembered. *)
Lemma record_limited l te th ts key accepted : limited l te accepted -> te <= th <= ts ->
  (length ((map_get key (hits l)) ?? []) < maxPerWindow l)%nat ->
  limited (record l te th ts key) ts (accepted ++ [(key, th)]).
Proof.
  intros Hl Ht Hlen. unfold record. pose proof (evicted_limited l te key true _ Hl) as He.
  destruct (evicted_get l te key) as (arr & Hget & Harr). destruct (evicted_window l te key true) as [E1 E2].
  destruct (evicted l te key true) as [l1 o]. cbn [fst] in *.
  set (l2 := with_hits l1 (map_alter (fun arr => arr ++ [th]) key (hits l1))).
  assert (limited l2 ts (accepted ++ [(key, th)])) as H2.
  { destruct (limited_later l1 te ts accepted ltac:(lia) He) as (H1 & H2 & H3 & H4). destruct He as (_ & H2' & H3' & _).
    assert (forall k, times_of k [(key, th)] = if bool_decide (key = k) then [th] else []) as Hone.
    { intros k. unfold times_of. simpl. by case_bool_decide. }
    split_and!; cbn [hits with_hits l2].
    - by apply wf_alter.
    - intros k. rewrite times_of_app, Hone. destruct (H2 k) as (gone & E & Hg). exists gone. split; [|done].
      cbn [hits with_hits l2]. rewrite map_get_alter, E. case_bool_decide as Hk.
      + subst k. rewrite bool_decide_true by done. rewrite Hget. simpl. by rewrite app_assoc.
      + rewrite bool_decide_false by congruence. apply app_nil_r.
    - intros k. rewrite times_of_app, Hone. apply List.Forall_app. split; [done|]. case_bool_decide; constructor; [lia|constructor].
    - intros k t. rewrite times_of_app, in_window_app, Hone. cbn [windowMs maxPerWindow with_hits].
      case_bool_decide as Hk; [subst k|rewrite Nat.add_0_r; apply H4].
      destruct (decide (th <= t)) as [Hle|Hgt].
      + destruct (H2' key) as (gone & E & Hg). rewrite E, in_window_app, (in_window_gone _ _ te) by (done || lia).
        rewrite Hget. simpl. pose proof (in_window_le (windowMs l1) t arr). pose proof (in_window_le (windowMs l1) t [th]).
        simpl in *. rewrite E2. lia.
      + assert (forall w, in_window w t [th] = 0%nat) as Hz.
        { intros w. unfold in_window. simpl. rewrite (proj2 (Z.leb_gt th t)) by lia. by rewrite andb_false_r. }
        rewrite Hz, Nat.add_0_r. apply H4. }
  destruct (10000 <? length (hits l2))%nat; [|exact H2]. destruct H2 as (H1 & H2 & H3 & H4).
  split_and!.
  - cbn [hits sweep with_hits]. unfold wf, map_keys. apply filter_NoDup_map. rewrite map_map. exact H1.
  - intros k. rewrite <- E1. apply (sweep_remembers l2); [done|apply H2].
  - done.
  - done.
Qed.

(** A check only forgets; when it answers yes there is room for one hit. *)
Lemma check_limited l clock t key accepted : limited l clock accepted -> clock <= t ->
  limited (fst (check l t key)) t accepted /\ maxPerWindow (fst (check l t key)) = maxPerWindow l /\
  windowMs (fst (check l t key)) = windowMs l /\
  (snd (check l t key) = true -> (length ((map_get key (hits (fst (check l t key)))) ?? []) < maxPerWindow l)%nat).
Proof.
  intros Hl Ht. unfold check. pose proof (evicted_limited l t key false accepted (limited_later _ _ _ _ Ht Hl)) as He.
  pose proof (evicted_hits l t key false) as Hh. destruct (evicted_window l t key false) as [E1 E2].
  destruct (evicted l t key false) as [l1 o] eqn:E. cbn [fst snd] in *. split_and!; [done|done|done|].
  intros Hlt%Nat.ltb_lt. unfold evicted in E. destruct (map_get key (hits l)) as [arr|] eqn:Eg; injection E as <- <-.
  - cbn [hits with_hits]. rewrite map_get_alter, bool_decide_true, Eg by done. exact Hlt.
  - rewrite Eg. exact Hlt.
Qed.

Lemma record_window l te th ts key : windowMs (record l te th ts key) = windowMs l /\ maxPerWindow (record l te th ts key) = maxPerWindow l.
Proof.
  unfold record. pose proof (evicted_window l te key true) as [E1 E2].
  destruct (evicted l te key true) as [l2 o2]. cbn [fst snd] in *. destruct (_ <? _)%nat; cbn; by rewrite ?E1, ?E2.
Qed.

Lemma limiter_step_limited l clock op accepted : limited l clock accepted ->
  StronglySorted Z.le (clock :: readings op) ->
  limited (fst (limiter_step l op)) (List.last (readings op) clock) (accepted ++ snd (limiter_step l op)).
Proof.
  intros Hl Hs. pose proof (fun t key => check_limited l clock t key accepted Hl) as Hcheck.
  destruct op as [r key|now key]; cbn [limiter_step readings List.last] in *.
  - inversion Hs as [|? ? Hs1 Hall]. subst. inversion Hall as [|? ? Hc _]. subst.
    repeat (match goal with H : StronglySorted Z.le (_ :: _) |- _ => inversion H; subst; clear H end).
    repeat (match goal with H : List.Forall _ (_ :: _) |- _ => inversion H; subst; clear H end).
    destruct (Hcheck (r_check r) key ltac:(lia)) as (H1' & H2' & _ & H3'). unfold allow.
    destruct (check l (r_check r) key) as [l1 ok]. cbn [fst snd] in *. destruct ok; cbn [fst snd].
    + apply record_limited; [by apply (limited_later _ (r_check r)); [lia|]|lia|]. rewrite H2'. by apply H3'.
    + rewrite app_nil_r. by apply (limited_later _ (r_check r)); [lia|].
  - inversion Hs as [|? ? _ Hall]. inversion Hall. subst. rewrite app_nil_r. by apply Hcheck.
Qed.

Lemma sorted_app_inv (a b : list Z) : StronglySorted Z.le (a ++ b) ->
  StronglySorted Z.le a /\ StronglySorted Z.le b /\ forall x y, In x a -> In y b -> x <= y.
Proof.
  induction a as [|z a IH]; simpl; [intros H; split_and!; [constructor|done|done]|].
  intros [Hs Hall]%StronglySorted_inv. destruct (IH Hs) as (H1 & H2 & H3). apply List.Forall_app in Hall as [Ha Hb].
  rewrite List.Forall_forall in Hb. split_and!; [by constructor|done|]. intros x y [->|Hx] Hy; [by apply Hb|by apply H3].
Qed.

Lemma limiter_steps_limited l clock ops accepted : limited l clock accepted ->
  StronglySorted Z.le (clock :: flat_map readings ops) ->
  exists clock', limited (fst (limiter_steps l ops)) clock' (accepted ++ snd (limiter_steps l ops)).
Proof.
  revert l clock accepted. induction ops as [|op ops IH]; intros l clock accepted Hl Hs.
  - exists clock. cbn. by rewrite app_nil_r.
  - cbn [limiter_steps flat_map] in *. change (clock :: readings op ++ flat_map readings ops) with ((clock :: readings op) ++ flat_map readings ops) in Hs.
    apply sorted_app_inv in Hs as (H1 & H2 & H3). pose proof (limiter_step_limited l clock op accepted Hl H1) as Hstep.
    destruct (limiter_step l op) as [l1 a1]. cbn [fst snd] in Hstep.
    destruct (IH l1 _ _ Hstep) as [clock' Hc].
    { constructor; [done|]. apply List.Forall_forall. intros y Hy. apply H3; [|done].
      destruct op; simpl; tauto. }
    exists clock'. destruct (limiter_steps l1 ops) as [l2 a2]. cbn [fst snd] in *. by rewrite app_assoc.
Qed.

(** Over any sequence of requests and probes for any keys, with a clock that does
    not go back, no window of the configured length holds more than the configured
    number of accepted hits of one key, the sweeps that bound the map included. *)
Theorem limiter_bounds_window (window : Z) (most : nat) (ops : list LimiterOp) (key : string) (t : Z) :
  clock_ok ops -> (in_window window t (times_of key (snd (limiter_steps (new_limiter window most) ops))) <= most)%nat.
Proof.
  intros Hs. assert (exists clock, StronglySorted Z.le (clock :: flat_map readings ops)) as [clock Hc].
  { destruct (flat_map readings ops) as [|x l] eqn:E; [exists 0; repeat constructor|]. exists x.
    unfold clock_ok in Hs. rewrite E in Hs. constructor; [done|]. constructor; [lia|]. by apply StronglySorted_inv in Hs as [_ ?]. }
  assert (limited (new_limiter window most) clock []) as Hnew.
  { split_and!; [constructor|intros k; by exists []|intros k; constructor|intros k t'; cbn; lia]. }
  destruct (limiter_steps_limited _ _ _ _ Hnew Hc) as (clock' & _ & _ & _ & H). specialize (H key t).
  assert (forall ops l, windowMs (fst (limiter_steps l ops)) = windowMs l /\ maxPerWindow (fst (limiter_steps l ops)) = maxPerWindow l) as Hkeep.
  { clear. induction ops as [|op ops IH]; intros l; [done|]. cbn [limiter_steps].
    assert (windowMs (fst (limiter_step l op)) = windowMs l /\ maxPerWindow (fst (limiter_step l op)) = maxPerWindow l) as Hop.
    { destruct op as [r k|now k]; cbn [limiter_step]; unfold allow, check.
      - pose proof (evicted_window l (r_check r) k false) as [E1 E2]. destruct (evicted l (r_check r) k false) as [l1 o]. cbn [fst] in *.
        destruct (_ <? _)%nat; [|done]. destruct (record_window l1 (r_evict r) (r_hit r) (r_sweep r) k). cbn [fst snd]. split; congruence.
      - pose proof (evicted_window l now k false) as H. by destruct (evicted l now k false). }
    destruct (limiter_step l op) as [l1 a1]. specialize (IH l1). destruct (limiter_steps l1 ops). cbn [fst] in *.
    destruct IH, Hop. split; congruence. }
  destruct (Hkeep ops (new_limiter window most)) as [E1 E2]. rewrite E1, E2 in H. exact H.
Qed.

Definition at_time (t : Z) : Readings := mkReadings t t t t.
Definition demo_limits : list LimiterOp :=
  [OpAllow (at_time 0) "a"; OpAllow (at_time 10) "a"; OpAllow (at_time 20) "a"; OpAllow (at_time 20) "b"; OpCheck 105 "a"; OpAllow (at_time 110) "a"; OpAllow (at_time 111) "a"].

Lemma limiter_bounds_window_witness :
  (in_window 100 110 (times_of "a" (snd (limiter_steps (new_limiter 100 2) demo_limits))) <= 2)%nat
  /\ snd (limiter_steps (new_limiter 100 2) demo_limits) = [("a", 0); ("a", 10); ("b", 20); ("a", 110); ("a", 111)].
Proof.
  split; [|vm_compute; reflexivity]. apply limiter_bounds_window.
  unfold clock_ok. cbn. repeat constructor; lia.
Defined.

(** ** Retry-After *)

Lemma ceil_seconds_enough ms : ms <= 1000 * ceil_seconds ms.
Proof. unfold ceil_seconds. pose proof (Z.div_mod (- ms) 1000 ltac:(lia)). pose proof (Z.mod_pos_bound (- ms) 1000 ltac:(lia)). lia. Qed.

(** The delay sent with a refusal is enough: with no hit in between, the same key is
    accepted once it has passed. *)
Lemma retry_after_suffices l now key l1 : (0 < maxPerWindow l)%nat ->
  (length ((map_get key (hits l)) ?? []) <= maxPerWindow l)%nat -> check l now key = (l1, false) ->
  forall later, now + 1000 * retryAfterSeconds l1 now key <= later -> snd (check l1 later key) = true.
Proof.
  intros Hm Hlen Hc later Hlater. unfold check, evicted in Hc.
  destruct (map_get key (hits l)) as [arr|] eqn:Eg; injection Hc as <- Hf; [|by apply Nat.ltb_ge in Hf; simpl in Hf; lia].
  simpl in Hlen. unfold retryAfterSeconds in Hlater. unfold check, evicted. cbn [hits with_hits windowMs maxPerWindow] in *.
  rewrite map_get_alter, bool_decide_true, Eg in * by done. cbn [fmap option_fmap option_map snd default] in *.
  destruct (shift_old_split (now - windowMs l) arr) as (gone & Es & _).
  assert (length (shift_old (now - windowMs l) arr) <= length arr)%nat by (rewrite Es at 2; rewrite length_app; lia).
  apply Nat.ltb_ge in Hf. simpl in Hf. destruct (shift_old (now - windowMs l) arr) as [|oldest rest] eqn:E; [simpl in Hf; lia|].
  pose proof (ceil_seconds_enough (oldest + windowMs l - now)). cbn [shift_old].
  rewrite (proj2 (Z.leb_le oldest (later - windowMs l))) by lia. apply Nat.ltb_lt.
  destruct (shift_old_split (later - windowMs l) rest) as (gone2 & Es2 & _).
  assert (length (shift_old (later - windowMs l) rest) <= length rest)%nat by (rewrite Es2 at 2; rewrite length_app; lia).
  simpl in *. lia.
Qed.
