(* ===== verification/Webhook.v ===== *)
(** * The public ingress of workflows (workflows/runner/triggers/webhook.ts, workflows/api/routes.ts)

    Webhook requests, split where their handler awaits (the body, the HMAC), so
    that other requests, registrations and removals run in between; and the first
    half of the waitpoint resume route, up to the body it awaits. The HMAC is the
    runtime's: a parameter. Each synchronous stretch reads the clock once. *)
From S2P Require Export WorkflowOps EffectBoundary JsNumber.
From S2P Require Export JsMap RateLimiter.
From Stdlib Require Import Ascii.

(** ** Data *)

Record WebhookRoute := mkRoute {
  route_workflowId : string;
  route_path : string;
  route_secret : option string;
  route_registeredAt : Z;
}.

Record WebhookRequest := mkRequest {
  req_method : string;
  req_url : string;
  req_headers : list (string * string);
}.

Definition WEBHOOK_PER_FLOW_PER_MINUTE : nat := 60.
Definition WEBHOOK_GLOBAL_PER_MINUTE : nat := 600.
Definition WEBHOOK_BAD_SIGNATURE_PER_MINUTE : nat := 30.
Definition WEBHOOK_MAX_BODY_BYTES : Z := 1000000.
Definition MAX_QUEUED_WEBHOOK_RUNS : nat := 500.

Record WebhookManager := mkWebhooks {
  routes : list (string * WebhookRoute);
  perFlow : KeyedRateLimiter;
  global : KeyedRateLimiter;
  badSignature : KeyedRateLimiter;
  has_callback : bool;
}.

Definition new_webhooks : WebhookManager :=
  mkWebhooks [] (new_limiter 60000 WEBHOOK_PER_FLOW_PER_MINUTE) (new_limiter 60000 WEBHOOK_GLOBAL_PER_MINUTE)
    (new_limiter 60000 WEBHOOK_BAD_SIGNATURE_PER_MINUTE) true.

(** A response: its status, its error text and its Retry-After. *)
Record Reply := mkReply { reply_status : Z; reply_error : string; retry_after : option Z }.

Definition header (name : string) (r : WebhookRequest) : option string := map_get name (req_headers r).

(** [Number(headers.get('content-length') ?? '0')] is finite and over the cap. *)
Definition declared_too_large (r : WebhookRequest) (cap : Z) : bool :=
  let declared := number_of_string ((header "content-length" r) ?? "0") in
  is_finite_num declared && num_ltb (num_of_Z cap) declared.

(** ** Constant-time comparison *)

Definition code (c : ascii) : Z := Z.of_nat (nat_of_ascii c).

Fixpoint char_diff (a b : string) (diff : Z) : Z :=
  match a, b with
  | String x a', String y b' => char_diff a' b' (Z.lor diff (Z.lxor (code x) (code y)))
  | _, _ => diff
  end.
Definition timingSafeEqual (a b : string) : bool :=
  if negb (String.length a =? String.length b)%nat then false else char_diff a b 0 =? 0.

(** ** Budgets *)

Definition set_limiters (m : WebhookManager) (f g b : KeyedRateLimiter) : WebhookManager :=
  mkWebhooks (routes m) f g b (has_callback m).

Definition too_many (l : KeyedRateLimiter) (now : Z) (key : string) : Reply :=
  mkReply 429 "Too many requests" (Some (retryAfterSeconds l now key)).

(** Both budgets are checked before either is charged; shared by the two ingresses. *)
Definition charge (f g : KeyedRateLimiter) (now : Z) (key : string) : KeyedRateLimiter * KeyedRateLimiter * option Reply :=
  let '(f1, ok) := check f now key in
  if negb ok then (f1, g, Some (too_many f1 now key))
  else
    let '(g1, ok') := check g now "*" in
    if negb ok' then (f1, g1, Some (too_many g1 now "*"))
    else (record f1 now now now key, record g1 now now now "*", None).

Definition chargeBudgets (m : WebhookManager) (now : Z) (workflowId : string) : WebhookManager * option Reply :=
  let '(f, g, r) := charge (perFlow m) (global m) now workflowId in (set_limiters m f g (badSignature m), r).

(** ** Registration *)

Definition register (m : WebhookManager) (now : Z) (workflowId : string) (secret : option string) : WebhookManager :=
  mkWebhooks (map_set workflowId (mkRoute workflowId ("/webhooks/" +:+ workflowId) secret now) (routes m))
    (perFlow m) (global m) (badSignature m) (has_callback m).
Definition unregister (m : WebhookManager) (workflowId : string) : WebhookManager :=
  mkWebhooks (map_delete workflowId (routes m)) (perFlow m) (global m) (badSignature m) (has_callback m).

(** ** A request *)

(** [HEX_SHA256]: exactly 64 hexadecimal digits. *)
Definition is_hex_sha256 (s : string) : bool :=
  (String.length s =? 64)%nat && forallb (fun c => bool_decide (is_Some (hex_value c))) (String.list_ascii_of_string s).

(** [route.secret] used as a condition: an empty secret is none. *)
Definition secured (r : WebhookRoute) : option string :=
  match route_secret r with Some s => if truthy s then Some s else None | None => None end.

(** What a request waits for; the route is the one found on arrival. *)
Inductive Stage :=
  | ReadingBody (workflowId : string) (route : WebhookRoute) (req : WebhookRequest)
  | Hashing (workflowId : string) (route : WebhookRoute) (req : WebhookRequest) (body secret signature : string).

Inductive Outcome :=
  | Respond (r : Reply)
  | Wait (s : Stage)
  | Fire (workflowId : string) (data : json).

Definition bad_key (workflowId : string) : string := workflowId +:+ ":bad-signature".

Definition rejectUnsigned (m : WebhookManager) (now : Z) (workflowId message : string) : WebhookManager * Outcome :=
  let '(b, ok) := allow (badSignature m) (at_time now) (bad_key workflowId) in
  (set_limiters m (perFlow m) (global m) b,
   Respond (if ok then mkReply 401 message None else too_many b now (bad_key workflowId))).

(** The event data: the body's object, or the body under [body], with the request's metadata. [parse] is
    [JSON.parse] on the texts of [Json]: a body with a fractional number, or with an escape above
    \u00FF, which the runtime would parse, counts as plain text here. *)
Definition webhook_data (now : Z) (req : WebhookRequest) (body : string) : json :=
  let base := match trim body with
              | EmptyString => []
              | _ => match parse body with
                     | Some (JObj fields) => fields
                     | Some v => [("body", v)]
                     | None => [("body", JStr body)]
                     end
              end in
  JObj (map_set "_webhook"
    (JObj [("method", JStr (req_method req)); ("url", JStr (req_url req)); ("timestamp", JNum now);
           ("headers", JObj (map (fun h => (fst h, JStr (snd h))) (req_headers req)))]) base).

(** The end of the handler: the callback, which queues the run. *)
Definition accepted_request (m : WebhookManager) (now : Z) (workflowId : string) (req : WebhookRequest) (body : string) : Outcome :=
  if has_callback m then Fire workflowId (webhook_data now req body) else Respond (mkReply 200 EmptyString None).

Section handler.
Variable computeHmac : string -> string -> string.

(** On arrival; [accepting] is the backlog probe's answer. *)
Definition handle_arrival (m : WebhookManager) (now : Z) (accepting : bool) (workflowId : string) (req : WebhookRequest)
    : WebhookManager * Outcome :=
  match map_get workflowId (routes m) with
  | None => (m, Respond (mkReply 404 "Webhook not found" None))
  | Some route =>
      if negb accepting then (m, Respond (mkReply 503 "Service busy, retry later" (Some 30)))
      else
        let '(m1, refused) := match secured route with Some _ => (m, None) | None => chargeBudgets m now workflowId end in
        match refused with
        | Some r => (m1, Respond r)
        | None =>
            if declared_too_large req WEBHOOK_MAX_BODY_BYTES then (m1, Respond (mkReply 413 "Payload too large" None))
            else (m1, Wait (ReadingBody workflowId route req))
        end
  end.

(** When the body is read, or when reading it failed. *)
Definition handle_body (m : WebhookManager) (now : Z) (workflowId : string) (route : WebhookRoute) (req : WebhookRequest)
    (body : option string) : WebhookManager * Outcome :=
  match body with
  | None => (m, Respond (mkReply 400 "Failed to read request body" None))
  | Some rawBody =>
      if Z.of_nat (String.length rawBody) >? WEBHOOK_MAX_BODY_BYTES then (m, Respond (mkReply 413 "Payload too large" None))
      else match secured route with
           | None => (m, accepted_request m now workflowId req rawBody)
           | Some secret =>
               match header "x-jarvis-signature" req with
               | None => rejectUnsigned m now workflowId "Missing signature header"
               | Some signature =>
                   if negb (truthy signature) then rejectUnsigned m now workflowId "Missing signature header"
                   else if negb (is_hex_sha256 signature) then rejectUnsigned m now workflowId "Invalid signature"
                   else (m, Wait (Hashing workflowId route req rawBody secret signature))
               end
           end
  end.

(** When the HMAC is computed. *)
Definition handle_hash (m : WebhookManager) (now : Z) (workflowId : string) (req : WebhookRequest) (rawBody secret signature : string)
    : WebhookManager * Outcome :=
  let expected := computeHmac secret rawBody in
  if negb (timingSafeEqual (to_lower signature) (to_lower expected)) then rejectUnsigned m now workflowId "Invalid signature"
  else
    let '(m1, refused) := chargeBudgets m now workflowId in
    match refused with
    | Some r => (m1, Respond r)
    | None => (m1, accepted_request m1 now workflowId req rawBody)
    end.

(** ** Interleaved requests *)

Record Ingress := mkIngress { webhooks : WebhookManager; inflight : list (nat * Stage) }.

Inductive IngressOp :=
  | OpRegister (now : Z) (workflowId : string) (secret : option string)
  | OpUnregister (now : Z) (workflowId : string)
  | OpArrive (now : Z) (rid : nat) (accepting : bool) (workflowId : string) (req : WebhookRequest)
  | OpBody (now : Z) (rid : nat) (body : option string)
  | OpHash (now : Z) (rid : nat).

Definition op_time (op : IngressOp) : Z :=
  match op with
  | OpRegister now _ _ | OpUnregister now _ | OpArrive now _ _ _ _ | OpBody now _ _ | OpHash now _ => now
  end.

Definition advance (i : Ingress) (rid : nat) (r : WebhookManager * Outcome) : Ingress * list (nat * Outcome) :=
  (mkIngress (fst r) (match snd r with Wait s => map_set rid s (inflight i) | _ => map_delete rid (inflight i) end), [(rid, snd r)]).

(** Request ids are fresh on arrival; a stage runs once. *)
Definition ingress_step (i : Ingress) (op : IngressOp) : Ingress * list (nat * Outcome) :=
  match op with
  | OpRegister now id secret => (mkIngress (register (webhooks i) now id secret) (inflight i), [])
  | OpUnregister _ id => (mkIngress (unregister (webhooks i) id) (inflight i), [])
  | OpArrive now rid accepting id req =>
      if map_has rid (inflight i) then (i, []) else advance i rid (handle_arrival (webhooks i) now accepting id req)
  | OpBody now rid body =>
      match map_get rid (inflight i) with
      | Some (ReadingBody id route req) => advance i rid (handle_body (webhooks i) now id route req body)
      | _ => (i, [])
      end
  | OpHash now rid =>
      match map_get rid (inflight i) with
      | Some (Hashing id route req body secret signature) => advance i rid (handle_hash (webhooks i) now id req body secret signature)
      | _ => (i, [])
      end
  end.

(** Ghost: the requests an operation spends the budgets on, with the flow and the time.
    An open flow is charged on arrival, a secured one after its signature. *)
Definition passed (o : Outcome) : bool :=
  match o with Respond r => (reply_status r =? 413) || (reply_status r =? 200) | _ => true end.
Definition charges (i : Ingress) (op : IngressOp) (outs : list (nat * Outcome)) : list (nat * (string * Z)) :=
  match op, outs with
  | OpArrive now rid _ id _, [(_, o)] =>
      match map_get id (routes (webhooks i)) with
      | Some route => if bool_decide (secured route = None) && passed o then [(rid, (id, now))] else []
      | None => []
      end
  | OpHash now rid, [(_, o)] =>
      match map_get rid (inflight i) with
      | Some (Hashing id _ _ _ _ _) => if passed o then [(rid, (id, now))] else []
      | _ => []
      end
  | _, _ => []
  end.

Fixpoint ingress_steps (i : Ingress) (ops : list IngressOp) : Ingress * list (nat * Outcome) :=
  match ops with
  | [] => (i, [])
  | op :: rest =>
      let '(i1, o1) := ingress_step i op in
      let '(i2, o2) := ingress_steps i1 rest in
      (i2, o1 ++ o2)
  end.
Fixpoint ingress_charges (i : Ingress) (ops : list IngressOp) : list (nat * (string * Z)) :=
  match ops with
  | [] => []
  | op :: rest => charges i op (snd (ingress_step i op)) ++ ingress_charges (fst (ingress_step i op)) rest
  end.
End handler.

(** ** The waitpoint resume route, up to the body *)

Definition WAITPOINT_RESUME_PER_ID_PER_MINUTE : nat := 60.
Definition WAITPOINT_RESUME_GLOBAL_PER_MINUTE : nat := 600.
Definition WAITPOINT_RESUME_UNKNOWN_ID_PER_MINUTE : nat := 30.
Definition WAITPOINT_RESUME_MAX_BODY_BYTES : Z := 1000000.

Record ResumeBudgets := mkBudgets { resumePerId : KeyedRateLimiter; resumeGlobal : KeyedRateLimiter; resumeUnknownId : KeyedRateLimiter }.
Definition new_budgets : ResumeBudgets :=
  mkBudgets (new_limiter 60000 WAITPOINT_RESUME_PER_ID_PER_MINUTE) (new_limiter 60000 WAITPOINT_RESUME_GLOBAL_PER_MINUTE)
    (new_limiter 60000 WAITPOINT_RESUME_UNKNOWN_ID_PER_MINUTE).

(** [owned]: an effect row names this waitpoint. [None]: go on and read the body. *)
Definition resume_arrival (b : ResumeBudgets) (d : Db) (now : Z) (owned : bool) (id : string) (req : WebhookRequest)
    : ResumeBudgets * option Reply :=
  if (MAX_QUEUED_WEBHOOK_RUNS <=? countQueued d)%nat then (b, Some (mkReply 503 "Service busy, retry later" (Some 30)))
  else
    match getWaitpoint id d with
    | None =>
        let '(u, ok) := allow (resumeUnknownId b) (at_time now) "*" in
        (mkBudgets (resumePerId b) (resumeGlobal b) u,
         Some (if ok then mkReply 404 "waitpoint not found" None else too_many u now "*"))
    | Some wp =>
        let '(p, g, refused) := charge (resumePerId b) (resumeGlobal b) now id in
        let b1 := mkBudgets p g (resumeUnknownId b) in
        match refused with
        | Some r => (b1, Some r)
        | None =>
            if declared_too_large req WAITPOINT_RESUME_MAX_BODY_BYTES then (b1, Some (mkReply 413 "resume payload too large" None))
            else if owned then (b1, Some (mkReply 403 "This waitpoint is owned by Authority; resolve its approval request" None))
            else if negb (unresumed wp) then (b1, Some (mkReply 410 "waitpoint already resumed" None))
            else match getFlowRun (wp_flow_run_id wp) d with
                 | None => (b1, Some (mkReply 410 "waitpoint references a missing run" None))
                 | Some run =>
                     if bool_decide (run_status run = RUN_PAUSED) then (b1, None)
                     else (b1, Some (mkReply 409 ("waitpoint cannot be resumed: run status is " +:+ status_text (run_status run)
                                                  +:+ " (expected PAUSED)") None))
                 end
        end
    end.

(** The checks of the body; [inr] is the payload. *)
Definition resume_body (body : option string) : Reply + json :=
  match body with
  | None => inl (mkReply 400 "failed to read request body" None)
  | Some rawBody =>
      if Z.of_nat (String.length rawBody) >? WAITPOINT_RESUME_MAX_BODY_BYTES then inl (mkReply 413 "resume payload too large" None)
      else match trim rawBody with
           | EmptyString => inr (JObj [])
           | _ => match parse rawBody with
                  | Some (JObj fields) => inr (JObj fields)
                  | Some _ => inl (mkReply 400 "resume payload must be a JSON object" None)
                  | None => inr (JObj [])
                  end
           end
  end.

(** The rest of the handler: [resume_route] is its last part. *)
Definition resume_finish (d : Db) (now : Z) (jobId id : string) (body : option string) : Db * (Reply + throws RouteReply) :=
  match resume_body body with
  | inl r => (d, inl r)
  | inr payload => let '(d', r) := resume_route jobId id payload now d in (d', inr r)
  end.

(** ** Constant-time comparison is equality *)

Lemma code_inj a b : Z.lxor (code a) (code b) = 0 <-> a = b.
Proof.
  rewrite Z.lxor_eq_0_iff. unfold code. split; [|by intros ->]. intros E%Nat2Z.inj.
  by rewrite <- (ascii_nat_embedding a), E, ascii_nat_embedding.
Qed.

Lemma char_diff_zero a b diff : String.length a = String.length b -> char_diff a b diff = 0 <-> diff = 0 /\ a = b.
Proof.
  revert b diff. induction a as [|x a IH]; intros [|y b] diff Hl; try discriminate Hl; [simpl; tauto|]. injection Hl as Hl.
  cbn [char_diff]. rewrite IH, Z.lor_eq_0_iff, code_inj by done. split; [by intros [[-> ->] ->]|by intros (-> & [= -> ->])].
Qed.

Lemma timing_safe_eq a b : timingSafeEqual a b = String.eqb a b.
Proof.
  unfold timingSafeEqual. destruct (String.length a =? String.length b)%nat eqn:E; simpl.
  - apply Nat.eqb_eq in E. pose proof (char_diff_zero a b 0 E) as H. apply eq_true_iff_eq. rewrite Z.eqb_eq, String.eqb_eq. tauto.
  - symmetry. apply String.eqb_neq. intros ->. by rewrite Nat.eqb_refl in E.
Qed.

(** ** What fires *)

(** [Fire] comes at the end of the handler only. *)
Lemma accepted_fire m now id req body id' data : accepted_request m now id req body = Fire id' data ->
  id' = id /\ data = webhook_data now req body.
Proof. unfold accepted_request. destruct (has_callback m); [|done]. by intros [= <- <-]. Qed.

Lemma charge_routes m now id m' r : chargeBudgets m now id = (m', r) -> routes m' = routes m.
Proof. unfold chargeBudgets. destruct (charge _ _ _ _) as [[f g] r']. by intros [= <- <-]. Qed.

Lemma arrival_outcome m now acc id req m' o : handle_arrival m now acc id req = (m', o) ->
  match o with
  | Fire _ _ => False
  | Respond _ => True
  | Wait s => exists route, map_get id (routes m) = Some route /\ acc = true /\ s = ReadingBody id route req
  end.
Proof.
  unfold handle_arrival. destruct (map_get id (routes m)) as [route|]; [|by intros [= <- <-]].
  destruct acc; [|by intros [= <- <-]]. simpl.
  destruct (match secured route with Some _ => (m, None) | None => chargeBudgets m now id end) as [m1 [r|]]; [by intros [= <- <-]|].
  destruct (declared_too_large _ _); intros [= <- <-]; [done|]. by exists route.
Qed.

Lemma reject_outcome m now id msg : exists r, snd (rejectUnsigned m now id msg) = Respond r /\ reply_status r <> 413 /\ reply_status r <> 200.
Proof. unfold rejectUnsigned. destruct (allow _ _ _) as [b []]; eexists; split; try done; by simpl. Qed.

Lemma reject_budgets m now id msg m' o : rejectUnsigned m now id msg = (m', o) ->
  perFlow m' = perFlow m /\ global m' = global m.
Proof. unfold rejectUnsigned. destruct (allow _ _ _) as [b ok]. by intros [= <- <-]. Qed.

Lemma body_outcome m now id route req body m' o : handle_body m now id route req body = (m', o) ->
  perFlow m' = perFlow m /\ global m' = global m /\
  match o with
  | Fire id' data => secured route = None /\ exists raw, body = Some raw /\ Z.of_nat (String.length raw) <= WEBHOOK_MAX_BODY_BYTES /\
      id' = id /\ data = webhook_data now req raw
  | Respond _ => True
  | Wait s => exists raw secret sig, Z.of_nat (String.length raw) <= WEBHOOK_MAX_BODY_BYTES /\ secured route = Some secret /\
      header "x-jarvis-signature" req = Some sig /\ is_hex_sha256 sig = true /\ s = Hashing id route req raw secret sig
  end.
Proof.
  unfold handle_body. destruct body as [raw|]; [|by intros [= <- <-]].
  destruct (Z.of_nat (String.length raw) >? WEBHOOK_MAX_BODY_BYTES) eqn:El; [by intros [= <- <-]|].
  assert (Z.of_nat (String.length raw) <= WEBHOOK_MAX_BODY_BYTES) as Hl by (rewrite Z.gtb_ltb in El; to_prop; lia).
  destruct (secured route) as [secret|].
  - assert (forall msg, rejectUnsigned m now id msg = (m', o) -> perFlow m' = perFlow m /\ global m' = global m /\ exists r, o = Respond r) as Hr.
    { intros msg E. pose proof (reject_budgets _ _ _ _ _ _ E) as [? ?]. destruct (reject_outcome m now id msg) as (r & E' & _).
      rewrite E in E'. split_and!; [done..|]. by exists r. }
    destruct (header "x-jarvis-signature" req) as [sig|] eqn:Eh; [|intros (? & ? & r & ->)%Hr; done].
    destruct (negb (truthy sig)); [intros (? & ? & r & ->)%Hr; done|].
    destruct (is_hex_sha256 sig) eqn:Ex; cbn [negb]; [|intros (? & ? & r & ->)%Hr; done].
    intros [= <- <-]. split_and!; [done..|]. by exists raw, secret, sig.
  - intros [= <- <-]. split_and!; [done..|]. destruct (accepted_request m now id req raw) eqn:E; [done| |].
    + unfold accepted_request in E. by destruct (has_callback m).
    + apply accepted_fire in E as [-> ->]. split; [done|]. by exists raw.
Qed.

Lemma steps_snoc h i ops op : ingress_steps h i (ops ++ [op]) =
  (fst (ingress_step h (fst (ingress_steps h i ops)) op), snd (ingress_steps h i ops) ++ snd (ingress_step h (fst (ingress_steps h i ops)) op)).
Proof.
  revert i. induction ops as [|o ops IH]; intros i; cbn [app ingress_steps].
  - cbn [fst snd app]. destruct (ingress_step h i op) as [i1 o1]. cbn. by rewrite app_nil_r.
  - destruct (ingress_step h i o) as [i1 o1]. rewrite IH. destruct (ingress_steps h i1 ops) as [i2 o2]. cbn. by rewrite app_assoc.
Qed.

Lemma charges_snoc h i ops op : ingress_charges h i (ops ++ [op]) =
  ingress_charges h i ops ++ charges (fst (ingress_steps h i ops)) op (snd (ingress_step h (fst (ingress_steps h i ops)) op)).
Proof.
  revert i. induction ops as [|o ops IH]; intros i; cbn [app ingress_charges ingress_steps].
  - cbn. apply app_nil_r.
  - rewrite IH, app_assoc. destruct (ingress_step h i o) as [i1 o1]. cbn [fst]. by destruct (ingress_steps h i1 ops).
Qed.

(** Where an accepted request came from: an arrival in the past that found [route]. *)
Definition came_from (h : string -> string -> string) (i0 : Ingress) (past : list IngressOp) (rid : nat) (id : string)
    (route : WebhookRoute) (req : WebhookRequest) : Prop :=
  exists pre now rest, past = pre ++ OpArrive now rid true id req :: rest /\
    map_get id (routes (webhooks (fst (ingress_steps h i0 pre)))) = Some route.

(** The signature the request carries, and that it is the secret's. *)
Definition properly_signed (h : string -> string -> string) (route : WebhookRoute) (req : WebhookRequest) (body : string) : Prop :=
  match secured route with
  | None => True
  | Some secret => exists sig, header "x-jarvis-signature" req = Some sig /\ is_hex_sha256 sig = true /\
      to_lower sig = to_lower (h secret body)
  end.

Lemma came_from_later h i0 past op rid id route req : came_from h i0 past rid id route req ->
  came_from h i0 (past ++ [op]) rid id route req.
Proof. intros (pre & now & rest & -> & E). exists pre, now, (rest ++ [op]). by rewrite <- app_assoc. Qed.

Definition stage_ok (h : string -> string -> string) (i0 : Ingress) (past : list IngressOp) (rid : nat) (s : Stage) : Prop :=
  match s with
  | ReadingBody id route req => came_from h i0 past rid id route req
  | Hashing id route req body secret sig => came_from h i0 past rid id route req /\ secured route = Some secret /\
      header "x-jarvis-signature" req = Some sig /\ is_hex_sha256 sig = true /\
      Z.of_nat (String.length body) <= WEBHOOK_MAX_BODY_BYTES
  end.

Definition fire_ok (h : string -> string -> string) (i0 : Ingress) (past : list IngressOp) (rid : nat) (id : string) (data : json) : Prop :=
  exists route req body now, came_from h i0 past rid id route req /\ properly_signed h route req body /\
    Z.of_nat (String.length body) <= WEBHOOK_MAX_BODY_BYTES /\ data = webhook_data now req body.

Lemma stage_later h i0 past op rid s : stage_ok h i0 past rid s -> stage_ok h i0 (past ++ [op]) rid s.
Proof. destruct s; simpl; [|intros (? & ?); split; [|done]]; by apply came_from_later. Qed.

Lemma fire_later h i0 past op rid id data : fire_ok h i0 past rid id data -> fire_ok h i0 (past ++ [op]) rid id data.
Proof. intros (route & req & body & now & H & ?). exists route, req, body, now. split; [by apply came_from_later|done]. Qed.

(** What one operation puts out and leaves waiting. *)
Lemma step_ok h i0 past op : let i := fst (ingress_steps h i0 past) in
  (forall rid s, map_get rid (inflight i) = Some s -> stage_ok h i0 past rid s) ->
  (forall rid s, map_get rid (inflight (fst (ingress_step h i op))) = Some s -> stage_ok h i0 (past ++ [op]) rid s) /\
  (forall rid id data, In (rid, Fire id data) (snd (ingress_step h i op)) -> fire_ok h i0 (past ++ [op]) rid id data).
Proof.
  intros i Hi.
  assert (forall rid s, map_get rid (inflight i) = Some s -> stage_ok h i0 (past ++ [op]) rid s) as Hi' by (intros; by apply stage_later, Hi).
  assert (forall rid m o, (forall s, o = Wait s -> stage_ok h i0 (past ++ [op]) rid s) ->
     (forall id data, o = Fire id data -> fire_ok h i0 (past ++ [op]) rid id data) ->
     (forall rid' s, map_get rid' (inflight (fst (advance i rid (m, o)))) = Some s -> stage_ok h i0 (past ++ [op]) rid' s) /\
     (forall rid' id data, In (rid', Fire id data) (snd (advance i rid (m, o))) -> fire_ok h i0 (past ++ [op]) rid' id data)) as Hadv.
  { intros rid m o H1 H2. split.
    - intros rid' s. destruct o as [r|w|id data]; cbn [advance fst snd inflight]; rewrite ?map_get_delete, ?map_get_set;
        case_bool_decide as Hr; try done; try (by apply Hi'). subst rid'. intros [= <-]. by apply H1.
    - intros rid' id data [[= -> ->]|[]]. by apply H2. }
  destruct op as [now id secret|now id|now rid acc id req|now rid body|now rid]; cbn [ingress_step];
    try (split; [exact Hi'|by intros ? ? ? []]).
  - destruct (map_has rid (inflight i)); [split; [exact Hi'|by intros ? ? ? []]|].
    destruct (handle_arrival (webhooks i) now acc id req) as [m o] eqn:E. apply arrival_outcome in E. apply Hadv.
    + intros s ->. destruct E as (route & Er & -> & ->). exists past, now, []. by split.
    + intros ? ? ->. done.
  - destruct (map_get rid (inflight i)) as [[id route req|]|] eqn:Eg; try (split; [exact Hi'|by intros ? ? ? []]). apply Hi' in Eg.
    destruct (handle_body (webhooks i) now id route req body) as [m o] eqn:E. apply body_outcome in E as (_ & _ & E). apply Hadv.
    + intros s ->. destruct E as (raw & secret & sig & Hl & Hs & Hh & Hx & ->). done.
    + intros id' data ->. destruct E as (Hs & raw & -> & Hl & -> & ->). exists route, req, raw, now.
      split; [done|]. unfold properly_signed. by rewrite Hs.
  - destruct (map_get rid (inflight i)) as [[|id route req body secret sig]|] eqn:Eg;
      try (split; [exact Hi'|by intros ? ? ? []]).
    apply Hi' in Eg as (Hc & Hs & Hh & Hx & Hl). unfold handle_hash. rewrite timing_safe_eq.
    destruct (String.eqb _ _) eqn:Ee; cbn [negb].
    + apply String.eqb_eq in Ee. destruct (chargeBudgets (webhooks i) now id) as [m [r|]]; apply Hadv; try done.
      * intros s Ha. unfold accepted_request in Ha. by destruct (has_callback m).
      * intros id' data [-> ->]%accepted_fire. exists route, req, body, now. split; [done|]. split; [|done].
        unfold properly_signed. rewrite Hs. by exists sig.
    + destruct (rejectUnsigned (webhooks i) now id "Invalid signature") as [m o] eqn:Er.
      destruct (reject_outcome (webhooks i) now id "Invalid signature") as (r & E' & _). rewrite Er in E'. simpl in E'. subst o. by apply Hadv.
Qed.

Lemma steps_ok h m past : let i0 := mkIngress m [] in
  (forall rid s, map_get rid (inflight (fst (ingress_steps h i0 past))) = Some s -> stage_ok h i0 past rid s) /\
  (forall rid id data, In (rid, Fire id data) (snd (ingress_steps h i0 past)) -> fire_ok h i0 past rid id data).
Proof.
  intros i0. induction past as [|op past [IH1 IH2]] using rev_ind; [split; [done|by intros ? ? ? []]|].
  rewrite steps_snoc. cbn [fst snd]. destruct (step_ok h i0 past op IH1) as [H1 H2]. split; [done|].
  intros rid id data [H|H]%in_app_or; [by apply fire_later, IH2|by apply H2].
Qed.

(** C6: over any interleaving of requests with registrations and removals, a workflow
    fires only for a request that found it registered when it arrived, within the body
    cap; and when the route found then has a secret, only if the request carries a
    signature of 64 hexadecimal digits equal, case apart, to the HMAC of the very body
    the workflow receives, under that secret. *)
Theorem webhook_fires_only_signed (computeHmac : string -> string -> string) (m : WebhookManager) (ops : list IngressOp)
    (rid : nat) (id : string) (data : json) :
  In (rid, Fire id data) (snd (ingress_steps computeHmac (mkIngress m []) ops)) ->
  exists pre now rest route req body t,
    ops = pre ++ OpArrive now rid true id req :: rest /\
    map_get id (routes (webhooks (fst (ingress_steps computeHmac (mkIngress m []) pre)))) = Some route /\
    Z.of_nat (String.length body) <= 1000000 /\ data = webhook_data t req body /\
    match route_secret route with
    | None | Some EmptyString => True
    | Some secret => exists sig, header "x-jarvis-signature" req = Some sig /\ is_hex_sha256 sig = true /\
        to_lower sig = to_lower (computeHmac secret body)
    end.
Proof.
  intros H. apply (steps_ok computeHmac m ops) in H as (route & req & body & t & (pre & now & rest & E & Er) & Hs & Hl & ->).
  exists pre, now, rest, route, req, body, t. split_and!; try done. unfold properly_signed, secured in Hs.
  by destruct (route_secret route) as [[|c secret]|].
Qed.

(** ** What fires is paid for *)

(** The budgets hold the charges so far, up to the time [clock]. *)
Definition budgets_ok (m : WebhookManager) (clock : Z) (paid : list (nat * (string * Z))) : Prop :=
  limited (perFlow m) clock (map snd paid) /\ limited (global m) clock (map (fun p => ("*", snd (snd p))) paid) /\
  windowMs (perFlow m) = 60000 /\ maxPerWindow (perFlow m) = 60%nat /\ windowMs (global m) = 60000 /\ maxPerWindow (global m) = 600%nat.

Lemma budgets_later m clock now paid : clock <= now -> budgets_ok m clock paid -> budgets_ok m now paid.
Proof. intros Hc (H1 & H2 & H3). split; [by eapply limited_later|]. split; [by eapply limited_later|done]. Qed.

Lemma charge_ok m clock now id paid m' r rid : budgets_ok m clock paid -> clock <= now -> chargeBudgets m now id = (m', r) ->
  budgets_ok m' now (paid ++ match r with None => [(rid, (id, now))] | Some _ => [] end) /\
  match r with Some r => reply_status r = 429 | None => True end.
Proof.
  intros (H1 & H2 & W1 & M1 & W2 & M2) Hc. unfold chargeBudgets, charge.
  destruct (check_limited _ _ _ id _ H1 Hc) as (C1 & E1 & F1 & G1). destruct (check (perFlow m) now id) as [f1 ok]. cbn [fst snd] in *.
  assert (limited (global m) now (map (fun p => ("*", snd (snd p))) paid)) as H2' by (by eapply limited_later).
  destruct ok; cbn [negb]; [|intros [= <- <-]; split; [|done]; rewrite app_nil_r; unfold budgets_ok; simpl; split_and!; congruence || done].
  destruct (check_limited _ _ _ "*" _ H2 Hc) as (C2 & E2 & F2 & G2). destruct (check (global m) now "*") as [g1 ok']. cbn [fst snd] in *.
  destruct ok'; cbn [negb]; intros [= <- <-]; split; try done.
  - destruct (record_window f1 now now now id), (record_window g1 now now now "*").
    unfold budgets_ok. cbn [set_limiters perFlow global]. rewrite !map_app. split_and!; try congruence.
    + apply (record_limited f1 now now now id); [done|lia|]. rewrite E1. by apply G1.
    + apply (record_limited g1 now now now "*"); [done|lia|]. rewrite E2. by apply G2.
  - rewrite app_nil_r. unfold budgets_ok. simpl. split_and!; congruence || done.
Qed.

Definition flow_fires (rid : nat) (outs : list (nat * Outcome)) : nat :=
  length (List.filter (fun o => bool_decide (fst o = rid) && match snd o with Fire _ _ => true | _ => false end) outs).
Definition paid_by (rid : nat) (paid : list (nat * (string * Z))) : nat :=
  length (List.filter (fun p => bool_decide (fst p = rid)) paid).
(** An open request that has paid and still waits for its body. *)
Definition paid_pending (i : Ingress) (rid : nat) : nat :=
  match map_get rid (inflight i) with
  | Some (ReadingBody _ route _) => if bool_decide (secured route = None) then 1 else 0
  | _ => 0
  end%nat.

Lemma flow_fires_app rid a b : flow_fires rid (a ++ b) = (flow_fires rid a + flow_fires rid b)%nat.
Proof. unfold flow_fires. by rewrite List.filter_app, length_app. Qed.
Lemma paid_by_app rid a b : paid_by rid (a ++ b) = (paid_by rid a + paid_by rid b)%nat.
Proof. unfold paid_by. by rewrite List.filter_app, length_app. Qed.

Lemma pending_advance i rid m o rid' : paid_pending (fst (advance i rid (m, o))) rid' =
  if bool_decide (rid' = rid) then match o with Wait (ReadingBody _ route _) => if bool_decide (secured route = None) then 1 else 0 | _ => 0 end%nat
  else paid_pending i rid'.
Proof.
  unfold paid_pending, advance. cbn [fst snd inflight].
  destruct o as [r|s|id data]; rewrite ?map_get_delete, ?map_get_set; by case_bool_decide.
Qed.

Lemma fires_advance i rid m o rid' : flow_fires rid' (snd (advance i rid (m, o))) =
  if bool_decide (rid' = rid) then match o with Fire _ _ => 1 | _ => 0 end%nat else 0%nat.
Proof.
  unfold flow_fires, advance. cbn [snd List.filter fst]. rewrite (bool_decide_ext (rid = rid') (rid' = rid)) by done.
  case_bool_decide; [|done]. by destruct o.
Qed.

Lemma arrival_charges m now acc id req m' o clock paid rid : budgets_ok m clock paid -> clock <= now ->
  handle_arrival m now acc id req = (m', o) ->
  budgets_ok m' now (paid ++ match map_get id (routes m) with
     | Some route => if bool_decide (secured route = None) && passed o then [(rid, (id, now))] else []
     | None => []
     end).
Proof.
  intros Hb Hc. pose proof (budgets_later _ _ _ _ Hc Hb) as Hb'. unfold handle_arrival.
  destruct (map_get id (routes m)) as [route|]; [|intros [= <- <-]; by rewrite app_nil_r].
  destruct acc; cbn [negb]; [|intros [= <- <-]; cbn; by rewrite andb_false_r, app_nil_r].
  destruct (secured route) as [secret|].
  - rewrite bool_decide_false by done. cbn [andb]. rewrite app_nil_r. destruct (declared_too_large _ _); by intros [= <- <-].
  - rewrite bool_decide_true by done. destruct (chargeBudgets m now id) as [m1 r] eqn:Ec.
    apply (charge_ok _ _ _ _ _ _ _ rid Hb Hc) in Ec as [Ec Er]. destruct r as [r|].
    + intros [= <- <-]. unfold passed. rewrite Er. exact Ec.
    + destruct (declared_too_large _ _); intros [= <- <-]; exact Ec.
Qed.

Lemma hash_charges h m now id req body secret sig m' o clock paid rid : budgets_ok m clock paid -> clock <= now ->
  handle_hash h m now id req body secret sig = (m', o) ->
  budgets_ok m' now (paid ++ if passed o then [(rid, (id, now))] else []) /\ (forall s, o <> Wait s).
Proof.
  intros Hb Hc. pose proof (budgets_later _ _ _ _ Hc Hb) as Hb'. unfold handle_hash. destruct (timingSafeEqual _ _); cbn [negb].
  - destruct (chargeBudgets m now id) as [m1 r] eqn:Ec. apply (charge_ok _ _ _ _ _ _ _ rid Hb Hc) in Ec as [Ec Er].
    destruct r as [r|]; intros [= <- <-]; unfold passed; [rewrite Er; by split|].
    unfold accepted_request. destruct (has_callback m1); by split.
  - intros E. pose proof (reject_budgets _ _ _ _ _ _ E) as [E1 E2]. destruct (reject_outcome m now id "Invalid signature") as (r & Eo & N1 & N2).
    rewrite E in Eo. simpl in Eo. subst o. unfold passed.
    rewrite (proj2 (Z.eqb_neq _ _) N1), (proj2 (Z.eqb_neq _ _) N2). cbn [orb]. rewrite app_nil_r. split; [|done].
    unfold budgets_ok. by rewrite E1, E2.
Qed.

Lemma step_charges h i op clock paid : budgets_ok (webhooks i) clock paid -> clock <= op_time op ->
  budgets_ok (webhooks (fst (ingress_step h i op))) (op_time op) (paid ++ charges i op (snd (ingress_step h i op))) /\
  forall rid, (flow_fires rid (snd (ingress_step h i op)) + paid_pending (fst (ingress_step h i op)) rid
    <= paid_pending i rid + paid_by rid (charges i op (snd (ingress_step h i op))))%nat.
Proof.
  intros Hb Hc. pose proof (budgets_later _ _ _ _ Hc Hb) as Hb'.
  destruct op as [now id secret|now id|now rid acc id req|now rid body|now rid]; cbn [ingress_step op_time] in *;
    try (cbn [snd fst charges webhooks]; rewrite app_nil_r; by split; [|intros r; cbn; unfold paid_pending; cbn [inflight]; lia]).
  - destruct (map_has rid (inflight i)) eqn:Eh; [cbn; rewrite app_nil_r; split; [done|intros r; lia]|].
    destruct (handle_arrival (webhooks i) now acc id req) as [m o] eqn:E.
    split; [by apply (arrival_charges _ _ _ _ _ _ _ _ _ rid Hb Hc E)|].
    intros r. rewrite fires_advance, pending_advance. case_bool_decide as Hr; [subst r|lia].
    assert (paid_pending i rid = 0%nat) as -> by (unfold paid_pending; apply map_has_false, map_get_None in Eh; by rewrite Eh).
    cbn [charges advance snd]. pose proof (arrival_outcome _ _ _ _ _ _ _ E) as Ho. destruct o as [p|s|id' data]; [lia| |done].
    destruct Ho as (route & -> & -> & ->). cbn [passed]. destruct (bool_decide (secured route = None)); cbn [andb]; [|lia].
    unfold paid_by. cbn [List.filter fst]. rewrite bool_decide_true by done. cbn. lia.
  - destruct (map_get rid (inflight i)) as [[id route req|]|] eqn:Eg;
      try (cbn; rewrite app_nil_r; split; [done|intros r; lia]).
    destruct (handle_body (webhooks i) now id route req body) as [m o] eqn:E.
    pose proof (body_outcome _ _ _ _ _ _ _ _ E) as (E1 & E2 & Ho). cbn [charges]. rewrite app_nil_r.
    split; [unfold budgets_ok, advance; cbn [fst webhooks]; by rewrite E1, E2|].
    intros r. rewrite fires_advance, pending_advance. case_bool_decide as Hr; [subst r|cbn; lia].
    unfold paid_pending. rewrite Eg. destruct o as [p|s|id' data]; [lia| |].
    + destruct Ho as (raw & secret & sig & _ & _ & _ & _ & ->). lia.
    + destruct Ho as (Hs & _). rewrite bool_decide_true by done. cbn. lia.
  - destruct (map_get rid (inflight i)) as [[|id route req body secret sig]|] eqn:Eg;
      try (cbn; rewrite ?Eg, app_nil_r; split; [done|intros r; lia]).
    destruct (handle_hash h (webhooks i) now id req body secret sig) as [m o] eqn:E.
    apply (hash_charges _ _ _ _ _ _ _ _ _ _ _ _ rid Hb Hc) in E as [E Ho].
    cbn [charges advance snd]. rewrite Eg. split; [exact E|]. intros r.
    change [(rid, o)] with (snd (advance i rid (m, o))). rewrite fires_advance, pending_advance.
    case_bool_decide as Hr; [subst r|lia]. destruct o as [p|s|id' data]; [lia|by destruct (Ho s)|].
    cbn [passed]. unfold paid_by. cbn [List.filter fst]. rewrite bool_decide_true by done. cbn. lia.
Qed.

Lemma steps_charges h i ops clock paid : budgets_ok (webhooks i) clock paid -> StronglySorted Z.le (clock :: map op_time ops) ->
  exists clock', budgets_ok (webhooks (fst (ingress_steps h i ops))) clock' (paid ++ ingress_charges h i ops) /\
  forall rid, (flow_fires rid (snd (ingress_steps h i ops)) + paid_pending (fst (ingress_steps h i ops)) rid
    <= paid_pending i rid + paid_by rid (ingress_charges h i ops))%nat.
Proof.
  revert i clock paid. induction ops as [|op ops IH]; intros i clock paid Hb Hs.
  - exists clock. cbn. rewrite app_nil_r. split; [done|]. intros rid. lia.
  - cbn [ingress_steps ingress_charges map] in *. apply StronglySorted_inv in Hs as [Hs Hall].
    destruct (step_charges h i op clock paid Hb) as [H1 H2]; [by inversion Hall|].
    destruct (IH _ _ _ H1 Hs) as (clock' & H3 & H4). exists clock'. rewrite app_assoc.
    destruct (ingress_step h i op) as [i1 o1]. cbn [fst snd] in *. destruct (ingress_steps h i1 ops) as [i2 o2]. cbn [fst snd] in *.
    split; [done|]. intros rid. specialize (H2 rid). specialize (H4 rid). rewrite flow_fires_app, paid_by_app. lia.
Qed.

Lemma times_of_star paid : times_of "*" (map (fun p : nat * (string * Z) => ("*", snd (snd p))) paid) = map (fun p => snd (snd p)) paid.
Proof. unfold times_of. induction paid as [|p paid IH]; [done|]. cbn [map List.filter fst snd]. rewrite bool_decide_true by done. cbn [map snd]. by rewrite IH. Qed.

(** over any interleaving of requests, registrations and removals with a clock that
    does not go back, no window of a minute holds more than 60 charges of a flow or 600
    of all flows, and every run a request fires has its own charge: an open flow pays on
    arrival, a secured one once its signature is checked, and nothing fires unpaid. *)
Theorem webhook_runs_are_budgeted (computeHmac : string -> string -> string) (ops : list IngressOp) (id : string) (rid : nat) (t : Z) :
  StronglySorted Z.le (map op_time ops) ->
  let start := mkIngress new_webhooks [] in
  let paid := ingress_charges computeHmac start ops in
  (in_window 60000 t (times_of id (map snd paid)) <= 60)%nat /\
  (in_window 60000 t (map (fun p => snd (snd p)) paid) <= 600)%nat /\
  (flow_fires rid (snd (ingress_steps computeHmac start ops)) <= paid_by rid paid)%nat.
Proof.
  intros Hs start paid.
  assert (exists clock, StronglySorted Z.le (clock :: map op_time ops)) as [clock Hc].
  { destruct (map op_time ops) as [|x l]; [exists 0; repeat constructor|]. exists x.
    constructor; [done|]. constructor; [lia|]. by apply StronglySorted_inv in Hs as [_ ?]. }
  assert (forall n, limited (new_limiter 60000 n) clock []) as Hnew.
  { intros n. split_and!; [constructor|intros k; by exists []|intros k; constructor|intros k t'; cbn; lia]. }
  assert (budgets_ok (webhooks start) clock []) as Hb by (split_and!; try done; apply Hnew).
  destruct (steps_charges computeHmac start ops clock [] Hb Hc) as (clock' & (L1 & L2 & W1 & M1 & W2 & M2) & Hf).
  cbn [app] in L1, L2. fold paid in L1, L2. destruct L1 as (_ & _ & _ & H1), L2 as (_ & _ & _ & H2).
  specialize (H1 id t). specialize (H2 "*" t). rewrite W1, M1 in H1. rewrite W2, M2, times_of_star in H2.
  split_and!; [done..|]. specialize (Hf rid). fold paid in Hf. change (paid_pending start rid) with 0%nat in Hf. lia.
Qed.

(** ** A run of the ingress *)

Definition demo_hmac (secret body : string) : string :=
  String.string_of_list_ascii (List.repeat "a"%char 63) +:+ (if String.eqb body "{}" then "b" else "c").
Definition demo_headers : list (string * string) := [("x-jarvis-signature", String.string_of_list_ascii (List.repeat "A"%char 63) +:+ "B")].
Definition demo_request : WebhookRequest := mkRequest "POST" "/webhooks/w" demo_headers.
Definition demo_ingress : list IngressOp :=
  [OpRegister 0 "w" (Some "k"); OpRegister 0 "open" None; OpArrive 1 7 true "w" demo_request; OpArrive 2 8 true "open" (mkRequest "POST" "/o" []);
   OpBody 3 7 (Some "{}"); OpUnregister 4 "w"; OpBody 4 8 (Some "x"); OpHash 5 7; OpArrive 6 9 true "w" demo_request].

Lemma webhook_fires_only_signed_witness :
  exists pre now rest route req body t,
    demo_ingress = pre ++ OpArrive now 7 true "w" req :: rest /\
    map_get "w" (routes (webhooks (fst (ingress_steps demo_hmac (mkIngress new_webhooks []) pre)))) = Some route /\
    Z.of_nat (String.length body) <= 1000000 /\ webhook_data 5 demo_request "{}" = webhook_data t req body /\
    match route_secret route with
    | None | Some EmptyString => True
    | Some secret => exists sig, header "x-jarvis-signature" req = Some sig /\ is_hex_sha256 sig = true /\
        to_lower sig = to_lower (demo_hmac secret body)
    end.
Proof.
  apply (webhook_fires_only_signed demo_hmac new_webhooks demo_ingress 7 "w" (webhook_data 5 demo_request "{}")).
  vm_compute. tauto.
Defined.

Lemma webhook_runs_are_budgeted_witness :
  map snd (ingress_charges demo_hmac (mkIngress new_webhooks []) demo_ingress) = [("open", 2); ("w", 5)] /\
  (flow_fires 7 (snd (ingress_steps demo_hmac (mkIngress new_webhooks []) demo_ingress))
   <= paid_by 7 (ingress_charges demo_hmac (mkIngress new_webhooks []) demo_ingress))%nat.
Proof.
  split; [vm_compute; reflexivity|]. apply (webhook_runs_are_budgeted demo_hmac demo_ingress "w" 7 5). cbn. repeat constructor; lia.
Defined.

(** ** The resume route *)

(** The body is read only for a waitpoint that is open, free of Authority and parked;
    guesses of unknown ids leave the budgets of real resumes alone. *)
Lemma resume_arrival_spec b d now owned id req b' o : resume_arrival b d now owned id req = (b', o) ->
  (o = None -> owned = false /\ exists wp, getWaitpoint id d = Some wp /\ unresumed wp = true /\
     run_status <$> getFlowRun (wp_flow_run_id wp) d = Some RUN_PAUSED) /\
  (getWaitpoint id d = None -> resumePerId b' = resumePerId b /\ resumeGlobal b' = resumeGlobal b).
Proof.
  unfold resume_arrival. destruct (MAX_QUEUED_WEBHOOK_RUNS <=? countQueued d)%nat; [by intros [= <- <-]|].
  destruct (getWaitpoint id d) as [wp|]; [|destruct (allow _ _ _) as [u ok]; by intros [= <- <-]].
  destruct (charge _ _ _ _) as [[p g] [r|]]; [by intros [= <- <-]|].
  destruct (declared_too_large _ _); [by intros [= <- <-]|]. destruct owned; [by intros [= <- <-]|].
  destruct (unresumed wp) eqn:Eu; cbn [negb]; [|by intros [= <- <-]].
  destruct (getFlowRun (wp_flow_run_id wp) d) as [run|] eqn:Er; [|by intros [= <- <-]].
  case_bool_decide as Hs; intros [= <- <-]; [|done]. split; [|done]. intros _. split; [done|]. exists wp.
  split_and!; [done..|]. rewrite Er. simpl. by rewrite Hs.
Qed.
