(* ===== verification/RealtimeGate.v ===== *)
(** * The plan gate of realtime voice (daemon/realtime-gate.ts)

    Whether a hosted plan includes realtime voice is asked of a catalog and cached per
    URL, model and key. A fetch runs between its start, its answer and the microtask that
    takes it off the in-flight map, so these are separate steps and reads fall anywhere in
    between. [exclusion_never_flaps] is the asymmetry the source insists on: a plan known
    to be excluded is never reported open on a guess. *)
From S2P Require Export Json JsMap.

Record ResolvedRealtimeVoice := mkResolvedVoice { modelsUrl : option string; model : string; apiKey : option string }.
Record Entry := mkEntry { verdict : bool; at_ : Z; advisory : bool }.

Definition CACHE_TTL_MS : Z := 10 * 60000.
Definition ADVISORY_TTL_MS : Z := 30000.

(** [inFlight] names a fetch; [running] are those without an answer, [settling] those that
    answered and have not yet run their [finally]. *)
Record Gate := mkGate {
  cache : list (string * Entry); inFlight : list (string * nat);
  running : list (nat * (string * string)); settling : list (nat * string); nextFetch : nat }.
Definition new_gate : Gate := mkGate [] [] [] [] 0.

Definition with_cache (c : list (string * Entry)) (g : Gate) : Gate := mkGate c (inFlight g) (running g) (settling g) (nextFetch g).

(** [!resolved.modelsUrl] fails: the URL of a gated session. *)
Definition gated_url (r : ResolvedRealtimeVoice) : option string :=
  match modelsUrl r with Some u => if truthy u then Some u else None | None => None end.
Definition cacheKey (url : string) (r : ResolvedRealtimeVoice) : string := url +:+ "|" +:+ model r +:+ "|" +:+ (apiKey r ?? EmptyString).

Definition isFresh (now : Z) (e : Entry) : bool := now - at_ e <? (if advisory e then ADVISORY_TTL_MS else CACHE_TTL_MS).
(** [!hit.advisory && !hit.verdict] *)
Definition excludes (e : Entry) : bool := negb (advisory e) && negb (verdict e).

(** [fetchVerdict]: the fetch to wait for. *)
Definition fetchVerdict (key wanted : string) (g : Gate) : Gate * nat :=
  match map_get key (inFlight g) with
  | Some existing => (g, existing)
  | None =>
      let f := nextFetch g in
      (mkGate (cache g) (map_set key f (inFlight g)) (running g ++ [(f, (key, wanted))]) (settling g) (S f), f)
  end.

(** What a read answers: a verdict, nothing known, or the answer of a fetch. *)
Inductive Answer := Verdict (b : bool) | Unknown | Await (f : nat).

Definition hostedRealtimeIncluded (r : ResolvedRealtimeVoice) (now : Z) (g : Gate) : Gate * Answer :=
  match gated_url r with
  | None => (g, Verdict true)
  | Some url =>
      let key := cacheKey url r in
      let fetch := fun g => let '(g', f) := fetchVerdict key (model r) g in (g', Await f) in
      match map_get key (cache g) with
      | Some hit =>
          if isFresh now hit then (g, Verdict (verdict hit))
          else if excludes hit then ((fetchVerdict key (model r) g).1, Verdict false)
          else fetch g
      | None => fetch g
      end
  end.

Definition cachedRealtimeVerdict (r : ResolvedRealtimeVoice) (now : Z) (g : Gate) : Gate * Answer :=
  match gated_url r with
  | None => (g, Verdict true)
  | Some url =>
      let key := cacheKey url r in
      match map_get key (cache g) with
      | Some hit =>
          if isFresh now hit then (g, Verdict (verdict hit))
          else ((fetchVerdict key (model r) g).1, if excludes hit then Verdict false else Unknown)
      | None => ((fetchVerdict key (model r) g).1, Unknown)
      end
  end.

Definition warmRealtimeGate (r : ResolvedRealtimeVoice) (now : Z) (g : Gate) : Gate :=
  match gated_url r with
  | None => g
  | Some url =>
      let key := cacheKey url r in
      match map_get key (cache g) with
      | Some hit => if isFresh now hit && negb (advisory hit) then g else (fetchVerdict key (model r) g).1
      | None => (fetchVerdict key (model r) g).1
      end
  end.

Definition advisoryAllow (key : string) (now : Z) (g : Gate) : Gate * bool :=
  match map_get key (cache g) with
  | Some hit => if excludes hit then (g, false) else (with_cache (map_set key (mkEntry true now true) (cache g)) g, true)
  | None => (with_cache (map_set key (mkEntry true now true) (cache g)) g, true)
  end.

(** What the catalog does: [None] is a network failure, a timeout or a body that is not JSON. *)
Inductive CatalogReply := no_reply | reply (status : Z) (body : option json).

(** [payload.data.map(m => m.id)], the texts only; [None] when a property is read of null. *)
Definition catalog_ids (payload : json) : option (list string) :=
  match payload with
  | JNull => None
  | _ => match jget "data" payload with
         | Some (JArr items) =>
             if existsb (fun m => match m with JNull => true | _ => false end) items then None
             else Some (flat_map (fun m => match jget "id" m with Some (JStr s) => [s] | _ => [] end) items)
         | _ => Some []
         end
  end.

(** The definitive verdict in a reply, if any. *)
Definition reply_verdict (wanted : string) (r : CatalogReply) : option bool :=
  match r with
  | no_reply => None
  | reply status body =>
      if (status =? 401) || (status =? 403) then Some false
      else if negb ((200 <=? status) && (status <=? 299)) then None
      else match body with
           | None => None
           | Some payload => match catalog_ids payload with Some ids => Some (includes wanted ids) | None => None end
           end
  end.

(** The rest of the fetch: its result, which all who await it get. *)
Definition settle_fetch (key wanted : string) (r : CatalogReply) (now : Z) (g : Gate) : Gate * bool :=
  match reply_verdict wanted r with
  | Some v => (with_cache (map_set key (mkEntry v now false) (cache g)) g, v)
  | None => advisoryAllow key now g
  end.

Definition clearRealtimeGateCache (g : Gate) : Gate := mkGate [] [] (running g) (settling g) (nextFetch g).

(** ** Any order *)

Inductive GateOp :=
  | OpHosted (r : ResolvedRealtimeVoice) (now : Z)
  | OpCached (r : ResolvedRealtimeVoice) (now : Z)
  | OpWarm (r : ResolvedRealtimeVoice) (now : Z)
  | OpReply (f : nat) (c : CatalogReply) (now : Z)
  | OpFinally (f : nat)
  | OpClear.

Definition gate_step (g : Gate) (op : GateOp) : Gate * option Answer :=
  match op with
  | OpHosted r now => let '(g', a) := hostedRealtimeIncluded r now g in (g', Some a)
  | OpCached r now => let '(g', a) := cachedRealtimeVerdict r now g in (g', Some a)
  | OpWarm r now => (warmRealtimeGate r now g, None)
  | OpReply f c now =>
      match map_get f (running g) with
      | Some (key, wanted) =>
          let g1 := (settle_fetch key wanted c now g).1 in
          (mkGate (cache g1) (inFlight g1) (map_delete f (running g1)) (settling g1 ++ [(f, key)]) (nextFetch g1), None)
      | None => (g, None)
      end
  | OpFinally f =>
      match map_get f (settling g) with
      | Some key => (mkGate (cache g) (map_delete key (inFlight g)) (running g) (map_delete f (settling g)) (nextFetch g), None)
      | None => (g, None)
      end
  | OpClear => (clearRealtimeGateCache g, None)
  end.

Definition gate_steps : Gate -> list GateOp -> Gate := foldl (fun g op => (gate_step g op).1).

(** The key a read is about. *)
Definition read_key (op : GateOp) : option string :=
  match op with
  | OpHosted r _ | OpCached r _ => (fun url => cacheKey url r) <$> gated_url r
  | _ => None
  end.

(** ** Theorems *)

(** The key is known to be excluded. *)
Definition excluded (key : string) (g : Gate) : Prop := exists hit, map_get key (cache g) = Some hit /\ excludes hit = true.

Lemma fetch_cache key wanted g : cache (fetchVerdict key wanted g).1 = cache g.
Proof. unfold fetchVerdict. by destruct (map_get key (inFlight g)). Qed.

Lemma excluded_same key g g' : cache g' = cache g -> excluded key g -> excluded key g'.
Proof. intros E (hit & H). exists hit. by rewrite E. Qed.

(** The operation does not say that the plan of [key] includes realtime, or forget it. *)
Definition no_inclusion (key : string) (g : Gate) (op : GateOp) : Prop :=
  match op with
  | OpClear => False
  | OpReply f c _ => match map_get f (running g) with
                     | Some (k, wanted) => k = key -> reply_verdict wanted c <> Some true
                     | None => True
                     end
  | _ => True
  end.

Lemma settle_excluded key k wanted c now g : (k = key -> reply_verdict wanted c <> Some true) -> excluded key g ->
  excluded key (settle_fetch k wanted c now g).1.
Proof.
  intros Hc (hit & Hh & He). unfold settle_fetch. destruct (reply_verdict wanted c) as [v|] eqn:Ev.
  - unfold excluded. cbn [fst cache with_cache]. rewrite map_get_set. case_bool_decide as Hk; [|by exists hit].
    subst k. destruct v; [by destruct (Hc eq_refl)|]. by eexists.
  - unfold advisoryAllow. destruct (map_get k (cache g)) as [h|] eqn:Eh.
    + destruct (excludes h) eqn:Ex; [by exists hit|]. unfold excluded. cbn [fst cache with_cache]. rewrite map_get_set.
      case_bool_decide as Hk; [|by exists hit]. subst k. rewrite Hh in Eh. congruence.
    + unfold excluded. cbn [fst cache with_cache]. rewrite map_get_set. case_bool_decide as Hk; [|by exists hit]. subst k. congruence.
Qed.

Lemma excludes_verdict hit : excludes hit = true -> verdict hit = false.
Proof. unfold excludes. by destruct (verdict hit), (advisory hit). Qed.

Lemma gate_step_excluded key g op : no_inclusion key g op -> excluded key g ->
  excluded key (gate_step g op).1 /\ (read_key op = Some key -> (gate_step g op).2 = Some (Verdict false)).
Proof.
  intros Hn Hex. pose proof Hex as (hit & Hh & He). pose proof (excludes_verdict hit He) as Hv.
  destruct op as [r now|r now|r now|f c now|f|]; cbn [gate_step read_key].
  - unfold hostedRealtimeIncluded. destruct (gated_url r) as [url|]; [|by split]. cbn [fmap option_fmap option_map].
    destruct (decide (cacheKey url r = key)) as [->|Hne].
    + rewrite Hh, He. destruct (isFresh now hit); cbn [fst snd]; [by rewrite Hv|]. split; [|done].
      eapply excluded_same; [apply fetch_cache|done].
    + pose proof (fetch_cache (cacheKey url r) (model r) g) as Hf. destruct (fetchVerdict (cacheKey url r) (model r) g) as [g' f].
      destruct (map_get (cacheKey url r) (cache g)) as [h|]; [destruct (isFresh now h); [|destruct (excludes h)]|];
        cbn [fst snd] in *; (split; [|congruence]); [done|by eapply excluded_same..].
  - unfold cachedRealtimeVerdict. destruct (gated_url r) as [url|]; [|by split]. cbn [fmap option_fmap option_map].
    destruct (decide (cacheKey url r = key)) as [->|Hne].
    + rewrite Hh, He. destruct (isFresh now hit); cbn [fst snd]; [by rewrite Hv|]. split; [|done].
      eapply excluded_same; [apply fetch_cache|done].
    + destruct (map_get (cacheKey url r) (cache g)) as [h|]; [destruct (isFresh now h)|]; cbn [fst snd];
        (split; [|congruence]); [done|eapply excluded_same; [apply fetch_cache|done]..].
  - split; [|done]. cbn [fst]. unfold warmRealtimeGate. destruct (gated_url r) as [url|]; [|done].
    destruct (map_get (cacheKey url r) (cache g)) as [h|]; [destruct (isFresh now h && negb (advisory h)); [done|]|]; (eapply excluded_same; [apply fetch_cache|done]).
  - cbn [no_inclusion] in Hn. destruct (map_get f (running g)) as [[k wanted]|]; [|by split]. split; [|done].
    eapply excluded_same; [|by eapply settle_excluded]. done.
  - destruct (map_get f (settling g)) as [k|]; [|by split]. by split.
  - done.
Qed.

(** No operation of the sequence brings such news. *)
Fixpoint no_news (key : string) (g : Gate) (ops : list GateOp) : Prop :=
  match ops with [] => True | op :: rest => no_inclusion key g op /\ no_news key (gate_step g op).1 rest end.

(** Once a plan is known to be excluded, every later read of that plan, by a session
    starter or by the cache-only poll, at any age of the verdict and whatever fetches fail or
    are under way, answers excluded at once, until the catalog itself lists the model for that
    key or the cache is cleared. *)
Theorem exclusion_never_flaps (key : string) (g : Gate) (before : list GateOp) (op : GateOp) (after : list GateOp) :
  excluded key g -> no_news key g (before ++ op :: after) -> read_key op = Some key ->
  (gate_step (gate_steps g before) op).2 = Some (Verdict false).
Proof.
  revert g. induction before as [|b before IH]; intros g Hex Hn Hr; cbn [app no_news] in Hn; destruct Hn as [H1 H2].
  - by apply (gate_step_excluded key g op H1 Hex).
  - apply IH; [|done|done]. by apply gate_step_excluded.
Qed.

(** *** One fetch per key *)

(** Fetches under way are the in-flight ones, and no name is reused. *)
Definition under_way (g : Gate) : list (nat * string) := map (fun x => (fst x, fst (snd x))) (running g) ++ settling g.
Definition flights_ok (g : Gate) : Prop :=
  (forall f k, In (f, k) (under_way g) -> map_get k (inFlight g) = Some f /\ (f < nextFetch g)%nat) /\
  List.NoDup (map fst (under_way g)).

Lemma fetch_flights key wanted g : flights_ok g -> flights_ok (fetchVerdict key wanted g).1.
Proof.
  intros [H1 H2]. unfold fetchVerdict. destruct (map_get key (inFlight g)) as [f|] eqn:E; [done|].
  assert (under_way (mkGate (cache g) (map_set key (nextFetch g) (inFlight g)) (running g ++ [(nextFetch g, (key, wanted))]) (settling g) (S (nextFetch g)))
    ≡ₚ (nextFetch g, key) :: under_way g) as Hp.
  { unfold under_way. cbn [running settling]. rewrite map_app. cbn [map fst snd]. rewrite <- app_assoc. cbn [app]. symmetry. apply Permutation_middle. }
  split.
  - intros f k Hin. apply (Permutation_in _ Hp) in Hin. cbn [fst inFlight nextFetch]. rewrite map_get_set.
    destruct Hin as [[= <- <-]|Hin]; [rewrite bool_decide_true by done; split; [done|lia]|].
    destruct (H1 f k Hin) as [Hk Hlt]. case_bool_decide as Hb; [subst k; congruence|]. split; [done|lia].
  - cbn [fst]. apply (Permutation_NoDup (Permutation_map fst (symmetry Hp))). cbn [map fst]. constructor; [|done].
    intros (x & Ex & Hx)%in_map_iff. destruct x as [f k]. simpl in Ex. subst f. apply H1 in Hx as [_ ?]. lia.
Qed.

Lemma flights_cache c g : flights_ok g -> flights_ok (with_cache c g).
Proof. done. Qed.

Lemma read_flights op g : flights_ok g -> match op with OpHosted _ _ | OpCached _ _ | OpWarm _ _ => flights_ok (gate_step g op).1 | _ => True end.
Proof.
  intros H. assert (forall k m, flights_ok (fetchVerdict k m g).1) as Hf by (intros; by apply fetch_flights).
  destruct op as [r now|r now|r now| | |]; try done; cbn [gate_step].
  - unfold hostedRealtimeIncluded. destruct (gated_url r) as [url|]; [|done]. specialize (Hf (cacheKey url r) (model r)).
    destruct (map_get (cacheKey url r) (cache g)) as [h|]; [destruct (isFresh now h); [done|destruct (excludes h); [done|]]|]; by destruct (fetchVerdict _ _ g).
  - unfold cachedRealtimeVerdict. destruct (gated_url r) as [url|]; [|done]. specialize (Hf (cacheKey url r) (model r)).
    destruct (map_get (cacheKey url r) (cache g)) as [h|]; [destruct (isFresh now h)|]; done.
  - unfold warmRealtimeGate. destruct (gated_url r) as [url|]; [|done]. specialize (Hf (cacheKey url r) (model r)).
    destruct (map_get (cacheKey url r) (cache g)) as [h|]; [destruct (_ && _)|]; done.
Qed.

Lemma settle_fetch_flights k wanted c now g : running (settle_fetch k wanted c now g).1 = running g /\
  settling (settle_fetch k wanted c now g).1 = settling g /\ inFlight (settle_fetch k wanted c now g).1 = inFlight g /\
  nextFetch (settle_fetch k wanted c now g).1 = nextFetch g.
Proof.
  unfold settle_fetch, advisoryAllow. destruct (reply_verdict wanted c); [done|].
  destruct (map_get k (cache g)) as [h|]; [by destruct (excludes h)|done].
Qed.

Lemma under_way_wf g : flights_ok g -> wf (running g) /\ wf (settling g).
Proof.
  intros [_ H]. unfold under_way in H. rewrite map_app, map_map in H.
  split; [by eapply NoDup_app_remove_r|by eapply NoDup_app_remove_l].
Qed.

Lemma gate_step_flights g op : op <> OpClear -> flights_ok g -> flights_ok (gate_step g op).1.
Proof.
  intros Hc Hok. destruct op as [r now|r now|r now|f c now|f|];
    [by apply (read_flights (OpHosted r now))|by apply (read_flights (OpCached r now))|by apply (read_flights (OpWarm r now))| | |done].
  - cbn [gate_step]. destruct (map_get f (running g)) as [[k wanted]|] eqn:Ef; [|done]. cbn [fst].
    destruct (settle_fetch_flights k wanted c now g) as (E1 & E2 & E3 & E4). rewrite E1, E2, E3, E4.
    destruct (under_way_wf g Hok) as [Hw _]. pose proof (map_get_perm f (k, wanted) (running g) Hw Ef) as Hp.
    assert (under_way (mkGate (cache (settle_fetch k wanted c now g).1) (inFlight g) (map_delete f (running g)) (settling g ++ [(f, k)]) (nextFetch g))
      ≡ₚ under_way g) as Hu.
    { unfold under_way. cbn [running settling]. rewrite (Permutation_map (fun x => (fst x, fst (snd x))) Hp). cbn [map fst snd app].
      rewrite (Permutation_app_comm (settling g) [(f, k)]). cbn [app]. symmetry. apply Permutation_middle. }
    destruct Hok as [H1 H2]. split; [|by apply (Permutation_NoDup (Permutation_map fst (symmetry Hu)))].
    intros f' k' Hin. apply (Permutation_in _ Hu) in Hin. by apply H1.
  - cbn [gate_step]. destruct (map_get f (settling g)) as [k|] eqn:Ef; [|done]. cbn [fst].
    destruct (under_way_wf g Hok) as [_ Hw]. pose proof (map_get_perm f k (settling g) Hw Ef) as Hp.
    set (g' := mkGate (cache g) (map_delete k (inFlight g)) (running g) (map_delete f (settling g)) (nextFetch g)).
    assert (under_way g ≡ₚ (f, k) :: under_way g') as Hu.
    { unfold under_way. cbn [running settling g']. rewrite Hp at 1. symmetry. apply Permutation_middle. }
    destruct Hok as [H1 H2]. apply (Permutation_NoDup (Permutation_map fst Hu)) in H2. cbn [map fst] in H2.
    apply NoDup_cons_iff in H2 as [Hn H2]. split; [|done]. intros f' k' Hin.
    destruct (H1 f' k') as [Hk Hlt]; [apply (Permutation_in _ (symmetry Hu)); by right|].
    destruct (H1 f k) as [Hk0 _]; [apply (Permutation_in _ (symmetry Hu)); by left|].
    cbn [inFlight nextFetch g']. split; [|done]. rewrite map_get_delete. case_bool_decide as Hb; [|done]. subst k'.
    assert (f' = f) as -> by congruence. exfalso. apply Hn. by apply (in_map fst) in Hin.
Qed.

(** Without a clearing of the cache, at most one fetch per key is under way. *)
Lemma one_fetch_per_key ops : ~ In OpClear ops -> List.NoDup (map snd (under_way (gate_steps new_gate ops))).
Proof.
  intros Hn. assert (flights_ok (gate_steps new_gate ops)) as [H1 H2].
  { assert (flights_ok new_gate) as H0 by (split; [done|constructor]). revert H0 Hn. generalize new_gate.
    induction ops as [|op ops IH]; intros g Hg Hn; [done|]. simpl. apply IH; [|intros ?; apply Hn; by right].
    apply gate_step_flights; [|done]. intros ->. apply Hn. by left. }
  remember (under_way (gate_steps new_gate ops)) as l eqn:El. clear El. induction l as [|[f k] l IH]; [constructor|].
  simpl in H2. apply NoDup_cons_iff in H2 as [Hnot H2]. simpl. constructor; [|apply IH; [intros; apply H1; by right|done]].
  intros ([f' k'] & Ek & Hin)%in_map_iff. simpl in Ek. subst k'. destruct (H1 f k) as [E1 _]; [by left|].
  destruct (H1 f' k) as [E2 _]; [by right|]. assert (f' = f) as -> by congruence. apply Hnot. by apply (in_map fst) in Hin.
Qed.

(** ** A plan that was excluded at boot *)

Definition demo_voice : ResolvedRealtimeVoice := mkResolvedVoice (Some "https://proxy/models") "uj-realtime" (Some "key").
Definition demo_catalog (ids : list string) : CatalogReply := reply 200 (Some (JObj [("data", JArr (map (fun i => JObj [("id", JStr i)]) ids))])).
Definition demo_excluded : Gate := gate_steps new_gate [OpWarm demo_voice 0; OpReply 0 (demo_catalog ["other"]) 1; OpFinally 0].

(** The refresh of a stale exclusion fails twice; then the catalog lists the model. *)
Example demo_upgrade :
  (gate_step (gate_steps demo_excluded [OpCached demo_voice 900000; OpReply 1 no_reply 900001; OpFinally 1; OpHosted demo_voice 900002;
     OpReply 2 (demo_catalog ["uj-realtime"]) 900003; OpFinally 2]) (OpHosted demo_voice 900004)).2 = Some (Verdict true).
Proof. vm_compute. reflexivity. Qed.

Lemma exclusion_never_flaps_witness :
  (gate_step (gate_steps demo_excluded [OpCached demo_voice 900000; OpReply 1 no_reply 900001; OpFinally 1]) (OpHosted demo_voice 900002)).2
  = Some (Verdict false).
Proof.
  apply (exclusion_never_flaps "https://proxy/models|uj-realtime|key" demo_excluded
    [OpCached demo_voice 900000; OpReply 1 no_reply 900001; OpFinally 1] (OpHosted demo_voice 900002) []).
  - eexists. split; vm_compute; reflexivity.
  - vm_compute. repeat split. intros _. discriminate.
  - vm_compute. reflexivity.
Defined.

(** Clearing the cache forgets which fetches run: when an old one ends, it removes the entry
    of the new one, and a third read starts a fetch of the same key beside it. *)
Example clear_breaks_dedup :
  let g := gate_steps new_gate [OpWarm demo_voice 0; OpClear; OpWarm demo_voice 1; OpReply 0 no_reply 2; OpFinally 0; OpWarm demo_voice 40000] in
  map fst (under_way g) = [1%nat; 2%nat].
Proof. vm_compute. reflexivity. Qed.
