(* ===== verification/DaemonBuffers.v ===== *)
(** * Small bounded services of the daemon

    daemon/active-turns.ts (the count a graceful drain waits on), daemon/answer-store.ts
    (the last answers), daemon/event-coalescer.ts (the batch of events a heartbeat reads)
    and daemon/debug-rpc-gate.ts (the secret that opens the bench route). *)
From S2P Require Export JsString.
From S2P Require Export JsMap.
From Stdlib Require Import Ascii.

Module ActiveTurns.
(** A turn and a drain are named by the call that made them. [open] are the turns whose
    [end] was not called, [waiters] the drains to call when the count reaches zero, and
    [timers] the drains whose deadline is still armed. *)
Record ActiveTurns := mkTurns { count : Z; draining : bool; waiters : list nat; timers : list nat; open : list nat }.
Definition new_turns : ActiveTurns := mkTurns 0 false [] [] [].

(** What a drain resolves with. *)
Record Drained := mkDrained { drained : bool; remaining : Z }.

Definition quiesce (s : ActiveTurns) : ActiveTurns := mkTurns (count s) true (waiters s) (timers s) (open s).

Definition begin_turn (turn : nat) (s : ActiveTurns) : ActiveTurns :=
  mkTurns (count s + 1) (draining s) (waiters s) (timers s) (open s ++ [turn]).

(** Every waiter clears its timer and resolves. *)
Definition flush_waiters (s : ActiveTurns) : ActiveTurns * list (nat * Drained) :=
  (mkTurns (count s) (draining s) [] (List.filter (fun d => negb (includes d (waiters s))) (timers s)) (open s),
   map (fun d => (d, mkDrained true 0)) (waiters s)).

(** The closure [begin] returns: it does nothing the second time. *)
Definition end_turn (turn : nat) (s : ActiveTurns) : ActiveTurns * list (nat * Drained) :=
  if includes turn (open s) then
    let s' := mkTurns (count s - 1) (draining s) (waiters s) (timers s) (List.filter (fun t => negb (bool_decide (t = turn))) (open s)) in
    if count s' =? 0 then flush_waiters s' else (s', [])
  else (s, []).

Definition drain (d : nat) (s : ActiveTurns) : ActiveTurns * list (nat * Drained) :=
  if count s =? 0 then (s, [(d, mkDrained true 0)])
  else (mkTurns (count s) (draining s) (waiters s ++ [d]) (timers s ++ [d]) (open s), []).

(** The deadline of a drain. Its waiter stays in the list. *)
Definition deadline (d : nat) (s : ActiveTurns) : ActiveTurns * list (nat * Drained) :=
  if includes d (timers s)
  then (mkTurns (count s) (draining s) (waiters s) (List.filter (fun t => negb (bool_decide (t = d))) (timers s)) (open s),
        [(d, mkDrained false (count s))])
  else (s, []).

Inductive TurnOp := OpBegin (turn : nat) | OpEnd (turn : nat) | OpQuiesce | OpDrain (d : nat) | OpDeadline (d : nat).

Definition turn_step (s : ActiveTurns) (op : TurnOp) : ActiveTurns * list (nat * Drained) :=
  match op with
  | OpBegin t => (begin_turn t s, [])
  | OpEnd t => end_turn t s
  | OpQuiesce => (quiesce s, [])
  | OpDrain d => drain d s
  | OpDeadline d => deadline d s
  end.

Fixpoint turn_steps (s : ActiveTurns) (ops : list TurnOp) : ActiveTurns * list (nat * Drained) :=
  match ops with
  | [] => (s, [])
  | op :: rest => let '(s1, o1) := turn_step s op in let '(s2, o2) := turn_steps s1 rest in (s2, o1 ++ o2)
  end.

(** A promise keeps the first value it is resolved with. *)
Definition settles (d : nat) (log : list (nat * Drained)) : option Drained := map_get d log.

Definition begun (ops : list TurnOp) : list nat := flat_map (fun op => match op with OpBegin t => [t] | _ => [] end) ops.
Definition asked (ops : list TurnOp) : list nat := flat_map (fun op => match op with OpDrain d => [d] | _ => [] end) ops.
End ActiveTurns.

Module AnswerStore.
Record AnswerRecord := mkAnswer { id : string; prompt : string; response : string; created_at : Z }.
Definition MAX_ANSWERS : nat := 25.

(** [while (items.size > MAX) items.delete(first key)]: each turn of the loop removes one. *)
Fixpoint evict (fuel : nat) (items : list (string * AnswerRecord)) : list (string * AnswerRecord) :=
  match fuel with
  | O => items
  | S fuel' =>
      if (MAX_ANSWERS <? length items)%nat
      then match items with [] => items | (oldest, _) :: _ => evict fuel' (map_delete oldest items) end
      else items
  end.

Definition register (r : AnswerRecord) (items : list (string * AnswerRecord)) : list (string * AnswerRecord) :=
  let added := map_set (id r) r items in evict (length added) added.

Definition get (k : string) (items : list (string * AnswerRecord)) : option AnswerRecord := map_get k items.

Definition latest (items : list (string * AnswerRecord)) : option AnswerRecord :=
  match map_values items with [] => None | r :: rest => Some (reduce_max created_at r rest) end.
End AnswerStore.

Module EventCoalescer.
Record ClassifiedEvent := mkEvent { event_type : string; reason : string }.
Definition MAX_BUFFER_SIZE : nat := 100.

Definition addEvent (e : ClassifiedEvent) (buffer : list ClassifiedEvent) : list ClassifiedEvent :=
  let pushed := buffer ++ [e] in
  if (MAX_BUFFER_SIZE <? length pushed)%nat then drop (length pushed - MAX_BUFFER_SIZE) pushed else pushed.

(** [groups]: a map from a type to its events, in insertion order. *)
Definition add_to_group (groups : list (string * list ClassifiedEvent)) (e : ClassifiedEvent) : list (string * list ClassifiedEvent) :=
  if map_has (event_type e) groups then map_alter (fun l => l ++ [e]) (event_type e) groups
  else map_set (event_type e) [e] groups.
Definition group_events (events : list ClassifiedEvent) : list (string * list ClassifiedEvent) := foldl add_to_group [] events.

(** [\w] *)
Definition word_char (c : ascii) : bool :=
  let n := nat_of_ascii c in
  ((48 <=? n) && (n <=? 57))%nat || ((65 <=? n) && (n <=? 90))%nat || ((97 <=? n) && (n <=? 122))%nat || Ascii.eqb c "_".

(** [.replace(/_/g, ' ')], then [.replace(/\b\w/g, c => c.toUpperCase())]. *)
Definition spaces (s : string) : string := smap (fun c => if Ascii.eqb c "_" then " "%char else c) s.
Fixpoint capitalize (in_word : bool) (s : string) : string :=
  match s with
  | EmptyString => EmptyString
  | String c s' =>
      let w := word_char c in
      String (if w && negb in_word then upper_ascii c else c) (capitalize w s')
  end.

Definition formatEventType (t : string) : string :=
  match List.find (fun e => bool_decide (fst e = t))
    [("file_change", "File Changes"); ("clipboard", "Clipboard Activity"); ("process_started", "Apps Launched");
     ("process_stopped", "Apps Closed"); ("notification", "System Notifications"); ("calendar", "Calendar Events");
     ("email", "Emails"); ("browser", "Browser Activity"); ("commitment_overdue", "Overdue Commitments");
     ("commitment_due_soon", "Upcoming Commitments"); ("screen_capture", "Screen Captures");
     ("context_changed", "Context Switches"); ("error_detected", "Screen Errors"); ("stuck_detected", "Stuck Detection");
     ("session_started", "Sessions Started"); ("session_ended", "Sessions Ended"); ("suggestion_ready", "Awareness Suggestions")] with
  | Some e => snd e
  | None => capitalize false (spaces t)
  end.

Definition show_nat (n : nat) : string := show_z (Z.of_nat n).

Definition group_lines (g : string * list ClassifiedEvent) : list string :=
  let '(t, events) := g in
  ["**" +:+ formatEventType t +:+ "** (" +:+ show_nat (length events) +:+ "):"]
  ++ map (fun e => "  - " +:+ reason e) (take 5 events)
  ++ (if (5 <? length events)%nat then ["  - ... and " +:+ show_nat (length events - 5) +:+ " more"] else [])
  ++ [EmptyString].

Definition summary_lines (events : list ClassifiedEvent) : list string :=
  ["## Recent Activity (" +:+ show_nat (length events) +:+ " events since last check)"; EmptyString]
  ++ flat_map group_lines (group_events events).

Definition flush (buffer : list ClassifiedEvent) : list ClassifiedEvent * string :=
  match buffer with
  | [] => (buffer, EmptyString)
  | _ => ([], JsString.join newline (summary_lines buffer))
  end.
End EventCoalescer.

Module DebugRpcGate.
Definition DEBUG_RPC_ENV : string := "JARVIS_DEBUG_RPC".
Definition MIN_SECRET_LENGTH : nat := 16.

Inductive DebugRpcGateState := gate_off | gate_too_short | gate_refused_hosted | gate_open.

(** The gate, the environment and the active secret after the call. *)
Definition initDebugRpcGate (hosted : bool) (env : list (string * string))
    : DebugRpcGateState * list (string * string) * option string :=
  let raw := map_get DEBUG_RPC_ENV env in
  let env' := map_delete DEBUG_RPC_ENV env in
  match raw with
  | None | Some EmptyString => (gate_off, env', None)
  | Some secret =>
      if (String.length secret <? MIN_SECRET_LENGTH)%nat then (gate_too_short, env', None)
      else if hosted then (gate_refused_hosted, env', None)
      else (gate_open, env', Some secret)
  end.

(** [Buffer.from(s, 'utf8')] of code units below 256: one byte below 128, else two. *)
Fixpoint utf8 (s : string) : list Z :=
  match s with
  | EmptyString => []
  | String c s' =>
      let n := Z.of_nat (nat_of_ascii c) in
      (if n <? 128 then [n] else [Z.lor 192 (Z.shiftr n 6); Z.lor 128 (Z.land n 63)]) ++ utf8 s'
  end.

Definition debugRpcTokenMatches (presented : option string) (gate : string) : bool :=
  match presented with
  | None | Some EmptyString => false
  | Some p => let a := utf8 p in let b := utf8 gate in (length a =? length b)%nat && bool_decide (a = b)
  end.
End DebugRpcGate.

(** ** Graceful drain *)

Section turns.
Import ActiveTurns.

Definition turns_ok (s : ActiveTurns) (log : list (nat * Drained)) (turns drains : list nat) : Prop :=
  count s = Z.of_nat (length (open s)) /\ List.NoDup (open s) /\ (forall t, In t (open s) -> In t turns) /\
  (forall d, In d (timers s) -> In d (waiters s)) /\ (forall d, In d (waiters s) -> In d drains) /\
  (count s = 0 -> waiters s = []) /\
  (forall d, In d drains -> settles d log = None -> In d (timers s)) /\
  (forall d r, In (d, r) log -> In d drains).

Lemma new_turns_ok : turns_ok new_turns [] [] [].
Proof. split_and!; simpl; try done; constructor. Qed.

(** What every answer of a step says: the count when it was given. *)
Definition exact (s : ActiveTurns) (out : list (nat * Drained)) : Prop :=
  forall d r, In (d, r) out -> remaining r = count s /\ drained r = (count s =? 0).

Lemma settles_app d l1 l2 : settles d (l1 ++ l2) = match settles d l1 with Some r => Some r | None => settles d l2 end.
Proof.
  unfold settles, map_get. rewrite find_app. by destruct (List.find _ l1).
Qed.

Lemma settles_answered d l r : settles d (map (fun d => (d, r)) l) = None -> ~ In d l.
Proof. intros H Hin. apply map_get_None in H. apply H. unfold map_keys. rewrite map_map. by rewrite map_id. Qed.

Lemma remove_turn (t : nat) l : List.NoDup l -> In t l ->
  Z.of_nat (length l) - 1 = Z.of_nat (length (List.filter (fun x => negb (bool_decide (x = t))) l)).
Proof.
  induction 1 as [|x l Hx Hd IH]; simpl; [done|]. intros [->|Hin].
  - rewrite bool_decide_true by done. simpl. enough (List.filter (fun x => negb (bool_decide (x = t))) l = l) as -> by lia.
    clear -Hx. induction l as [|y l IH]; [done|]. simpl in *. rewrite bool_decide_false by (intros ->; tauto). simpl. f_equal. tauto.
  - rewrite bool_decide_false by (intros ->; done). simpl. specialize (IH Hin). lia.
Qed.

Lemma in_remaining {A} `{EqDecision A} (t x : A) l : In x (List.filter (fun y => negb (bool_decide (y = t))) l) <-> In x l /\ x <> t.
Proof. rewrite filter_In, negb_true_iff, bool_decide_eq_false. done. Qed.

Lemma turn_step_ok s op log turns drains : turns_ok s log turns drains ->
  List.NoDup (turns ++ begun [op]) -> List.NoDup (drains ++ asked [op]) ->
  let '(s', out) := turn_step s op in
  turns_ok s' (log ++ out) (turns ++ begun [op]) (drains ++ asked [op]) /\ exact s' out.
Proof.
  intros (Hc & Hd & Hopen & Htw & Hwd & Hz & Hp & Hl) Ht Hdr. destruct op as [t|t| |d|d]; simpl; rewrite ?app_nil_r.
  - split; [|by intros ? ?]. simpl in Ht. split_and!; simpl.
    + rewrite length_app. simpl. lia.
    + apply NoDup_ListNoDup. apply NoDup_app. split_and!; [by apply NoDup_ListNoDup| |by apply NoDup_singleton].
      intros x Hx%list_elem_of_In Hx'%list_elem_of_In. destruct Hx' as [->|[]]. apply Hopen in Hx.
      apply NoDup_ListNoDup, NoDup_app in Ht as (_ & Hn & _). apply (Hn x); apply list_elem_of_In; simpl; auto.
    + intros x. rewrite !in_app_iff. intros [H|H]; auto.
    + done.
    + done.
    + intros. assert (0 <= count s) by lia. lia.
    + done.
    + done.
  - unfold end_turn. destruct (includes t (open s)) eqn:Hi; [|by split; [rewrite app_nil_r|intros ? ?]].
    apply includes_In in Hi. pose proof (remove_turn t _ Hd Hi) as Hrem. simpl. rewrite Hc. unfold flush_waiters. simpl.
    set (rest := List.filter _ (open s)) in *. assert (List.NoDup rest) by by apply List.NoDup_filter.
    assert (forall x, In x rest -> In x turns) by (intros x [? _]%in_remaining; auto).
    destruct (_ =? 0) eqn:E; [apply Z.eqb_eq in E|apply Z.eqb_neq in E].
    + split.
      * split_and!; simpl; try done.
        -- intros d [H1 H2]%filter_In. exfalso. apply Htw in H1. apply includes_In in H1. by rewrite H1 in H2.
        -- intros d H1 H2. rewrite settles_app in H2. destruct (settles d log) eqn:E1; [done|]. exfalso.
           apply settles_answered in H2. apply H2. by apply Htw, Hp.
        -- intros d r [Hin|Hin]%in_app_iff; [by apply (Hl d r)|]. apply in_map_iff in Hin as (x & [= <- <-] & Hx). auto.
      * intros d r Hin. apply in_map_iff in Hin as (x & [= <- <-] & Hx). simpl. rewrite E. done.
    + rewrite app_nil_r. split; [|by intros ? ?]. by split_and!; simpl.
  - by split; [|intros ? ?].
  - unfold drain. simpl in Hdr. destruct (count s =? 0) eqn:E; [apply Z.eqb_eq in E|apply Z.eqb_neq in E].
    + split; [|intros x r [[= <- <-]|[]]; simpl; by rewrite E]. split_and!; try done.
      * intros x Hx. apply in_app_iff. auto.
      * intros x Hx H2. rewrite settles_app in H2. destruct (settles x log) eqn:E1; [done|]. apply in_app_iff in Hx as [Hx|[->|[]]]; [auto|].
        unfold settles, map_get in H2. simpl in H2. unfold key_eq in H2. simpl in H2. by rewrite bool_decide_true in H2.
      * intros x r [Hin|[[= <- <-]|[]]]%in_app_iff; apply in_app_iff; simpl; eauto.
    + rewrite app_nil_r. split; [|by intros ? ?]. split_and!; simpl; try done.
      * intros x. rewrite !in_app_iff. intros [H|H]; auto.
      * intros x. rewrite !in_app_iff. intros [H|H]; auto.
      * intros x. rewrite !in_app_iff. intros [H|H]; auto.
      * intros x r Hin. apply in_app_iff. eauto.
  - unfold deadline. destruct (includes d (timers s)) eqn:Hi.
    + apply includes_In in Hi. assert (count s <> 0) as Hne by (intros H0; apply Htw in Hi; rewrite (Hz H0) in Hi; done). split.
      * split_and!; simpl; try done.
        -- intros x [Hx _]%in_remaining. auto.
        -- intros x Hx H2. rewrite settles_app in H2. destruct (settles x log) eqn:E1; [done|]. apply in_remaining. split; [auto|].
           intros ->. unfold settles, map_get in H2. simpl in H2. unfold key_eq in H2. simpl in H2. by rewrite bool_decide_true in H2.
        -- intros x r [Hin|[[= <- <-]|[]]]%in_app_iff; eauto.
      * intros x r [[= <- <-]|[]]. simpl. split; [done|]. symmetry. by apply Z.eqb_neq.
    + rewrite app_nil_r. by split; [|intros ? ?].
Qed.

Lemma begun_cons op ops : begun (op :: ops) = begun [op] ++ begun ops.
Proof. unfold begun. simpl. by rewrite app_nil_r. Qed.
Lemma asked_cons op ops : asked (op :: ops) = asked [op] ++ asked ops.
Proof. unfold asked. simpl. by rewrite app_nil_r. Qed.

Lemma NoDup_prefix {A} (l1 l2 : list A) : List.NoDup (l1 ++ l2) -> List.NoDup l1.
Proof. rewrite <- !NoDup_ListNoDup. intros (H & _)%NoDup_app. done. Qed.

Lemma turn_steps_ok s log turns drains ops : turns_ok s log turns drains ->
  List.NoDup (turns ++ begun ops) -> List.NoDup (drains ++ asked ops) ->
  turns_ok (turn_steps s ops).1 (log ++ (turn_steps s ops).2) (turns ++ begun ops) (drains ++ asked ops) /\
  forall pre op rest, ops = pre ++ op :: rest ->
    exact (turn_step (turn_steps s pre).1 op).1 (turn_step (turn_steps s pre).1 op).2.
Proof.
  revert s log turns drains. induction ops as [|op ops IH]; intros s log turns drains Hs Ht Hd.
  { simpl. rewrite !app_nil_r. split; [done|]. intros [|] ? ? [=]. }
  rewrite begun_cons, asked_cons, !app_assoc in *.
  pose proof (turn_step_ok s op log turns drains Hs (NoDup_prefix _ _ Ht) (NoDup_prefix _ _ Hd)) as Hstep.
  cbn [turn_steps]. destruct (turn_step s op) as [s1 o1] eqn:E1. destruct Hstep as [H1 He1].
  destruct (IH s1 (log ++ o1) _ _ H1 Ht Hd) as [H2 He2]. destruct (turn_steps s1 ops) as [s2 o2] eqn:E2. simpl in *.
  rewrite app_assoc. split; [done|]. intros [|x pre] op' rest [= <- E].
  - simpl. by rewrite E1.
  - cbn [turn_steps]. rewrite E1. specialize (He2 pre op' rest E). by destruct (turn_steps s1 pre) as [s3 o3].
Qed.
End turns.

(** Over every order of turns that begin and end (their [end] called any number of times),
    drains and deadlines: the count is the number of turns in flight; every answer a drain
    gets carries the count at that moment, and says drained exactly when it is zero; and a
    drain without an answer has its deadline armed and a turn it waits for. *)
Theorem drain_waits_for_turns (ops : list ActiveTurns.TurnOp) :
  List.NoDup (ActiveTurns.begun ops) -> List.NoDup (ActiveTurns.asked ops) ->
  let '(s, log) := ActiveTurns.turn_steps ActiveTurns.new_turns ops in
  ActiveTurns.count s = Z.of_nat (length (ActiveTurns.open s)) /\
  (forall d, In d (ActiveTurns.asked ops) -> ActiveTurns.settles d log = None -> In d (ActiveTurns.timers s) /\ 0 < ActiveTurns.count s) /\
  forall pre op rest, ops = pre ++ op :: rest ->
    let s1 := (ActiveTurns.turn_steps ActiveTurns.new_turns pre).1 in
    let '(s2, answers) := ActiveTurns.turn_step s1 op in
    forall d r, In (d, r) answers -> ActiveTurns.remaining r = ActiveTurns.count s2 /\ ActiveTurns.drained r = (ActiveTurns.count s2 =? 0).
Proof.
  intros Ht Hd. destruct (turn_steps_ok _ [] [] [] ops new_turns_ok Ht Hd) as [(Hc & _ & _ & Htw & _ & Hz & Hp & _) He].
  destruct (ActiveTurns.turn_steps ActiveTurns.new_turns ops) as [s log]. simpl in *. split_and!; [done| |].
  - intros d Hin Hs. specialize (Hp d Hin Hs). split; [done|]. apply Htw in Hp.
    destruct (decide (ActiveTurns.count s = 0)) as [H0|]; [by rewrite (Hz H0) in Hp|lia].
  - intros pre op rest E. specialize (He pre op rest E). simpl in He. by destruct (ActiveTurns.turn_step _ op) as [s2 answers].
Qed.

Lemma drain_waits_for_turns_witness :
  let ops := [ActiveTurns.OpBegin 1; ActiveTurns.OpQuiesce; ActiveTurns.OpDrain 7; ActiveTurns.OpEnd 1; ActiveTurns.OpEnd 1; ActiveTurns.OpDeadline 7] in
  (ActiveTurns.turn_steps ActiveTurns.new_turns ops).2 = [(7%nat, ActiveTurns.mkDrained true 0)] /\
  ActiveTurns.count (ActiveTurns.turn_steps ActiveTurns.new_turns ops).1 = 0.
Proof.
  intros ops. split; [vm_compute; reflexivity|].
  destruct (drain_waits_for_turns ops) as (Hc & _); [repeat constructor; simpl; tauto|repeat constructor; simpl; tauto|].
  exact Hc.
Defined.

(** ** The last answers *)

Section answers.
Import AnswerStore.

Definition keyed_by_id (l : list AnswerRecord) : list (string * AnswerRecord) := map (fun r => (id r, r)) l.
Definition registered (l : list AnswerRecord) : list (string * AnswerRecord) := foldl (fun m r => register r m) [] l.

Lemma map_keys_by_id l : map_keys (keyed_by_id l) = map id l.
Proof. unfold map_keys, keyed_by_id. rewrite map_map. done. Qed.

Lemma evict_keeps_last (l : list AnswerRecord) n : List.NoDup (map id l) -> (length l <= n + MAX_ANSWERS)%nat ->
  evict n (keyed_by_id l) = keyed_by_id (keep_last MAX_ANSWERS l).
Proof.
  revert l. induction n as [|n IH]; intros l Hd Hn; simpl.
  { by rewrite keep_last_small by lia. }
  assert (length (keyed_by_id l) = length l) as -> by apply length_map.
  destruct (MAX_ANSWERS <? length l)%nat eqn:E; [apply Nat.ltb_lt in E|apply Nat.ltb_ge in E; by rewrite keep_last_small by lia].
  destruct l as [|r l]; [done|]. cbn [map] in Hd. apply NoDup_cons_iff in Hd as [Hr Hd]. cbn [keyed_by_id map]. fold (keyed_by_id l). cbn [length] in *.
  assert (map_delete (id r) ((id r, r) :: keyed_by_id l) = keyed_by_id l) as ->.
  { unfold map_delete. simpl. unfold key_eq at 1. simpl. rewrite bool_decide_true by done. simpl.
    apply map_delete_absent. by rewrite map_keys_by_id. }
  rewrite IH by (done || lia). f_equal. unfold keep_last. cbn [length].
  replace (S (length l) - MAX_ANSWERS)%nat with (S (length l - MAX_ANSWERS)) by lia. done.
Qed.

Lemma NoDup_map_keep_last (l : list AnswerRecord) n : List.NoDup (map id l) -> List.NoDup (map id (keep_last n l)).
Proof.
  destruct (keep_last_suffix n l) as (pre & E & _). intros H. rewrite E, map_app in H.
  apply NoDup_ListNoDup, NoDup_app in H as (_ & _ & H). by apply NoDup_ListNoDup.
Qed.

(** With fresh ids the store is the 25 last answers, in order; so an answer is found iff
    it is one of them, and the fallback is the newest of them. *)
Theorem store_keeps_last (l : list AnswerRecord) : List.NoDup (map id l) ->
  registered l = keyed_by_id (keep_last MAX_ANSWERS l) /\
  (forall r, In r l -> get (id r) (registered l) = Some r <-> In r (keep_last MAX_ANSWERS l)).
Proof.
  intros Hd. assert (registered l = keyed_by_id (keep_last MAX_ANSWERS l)) as E.
  { unfold registered. induction l as [|r l IH] using rev_ind; [done|]. rewrite foldl_app. simpl.
    rewrite map_app in Hd. pose proof (NoDup_prefix _ _ Hd) as Hl. rewrite IH by done. unfold register.
    assert (~ In (id r) (map id (keep_last MAX_ANSWERS l))) as Hr.
    { apply NoDup_ListNoDup, NoDup_app in Hd as (_ & Hn & _). intros Hin. apply (Hn (id r)); [|apply list_elem_of_In; by left].
      destruct (keep_last_suffix MAX_ANSWERS l) as (pre & E & _). rewrite E, map_app. apply elem_of_app. right. by apply list_elem_of_In. }
    assert (map_set (id r) r (keyed_by_id (keep_last MAX_ANSWERS l)) = keyed_by_id (keep_last MAX_ANSWERS l ++ [r])) as ->.
    { unfold map_set. destruct (map_has _ _) eqn:Hh; [apply map_has_In in Hh; by rewrite map_keys_by_id in Hh|].
      unfold keyed_by_id. by rewrite map_app. }
    rewrite evict_keeps_last.
    - f_equal. apply keep_last_snoc.
    - rewrite map_app. apply NoDup_ListNoDup, NoDup_app. split_and!; [by apply NoDup_ListNoDup, NoDup_map_keep_last| |apply NoDup_singleton].
      intros x Hx%list_elem_of_In Hx'%list_elem_of_In. destruct Hx' as [<-|[]]. done.
    - unfold keyed_by_id. rewrite length_map, length_app, keep_last_length. simpl. lia. }
  split; [done|]. intros r Hin. rewrite E. unfold get. split.
  - intros H%map_get_In. apply in_map_iff in H as (x & [= _ <-] & Hx). done.
  - intros Hk. apply map_get_Some; [unfold wf; rewrite map_keys_by_id; by apply NoDup_map_keep_last|]. apply in_map_iff. by exists r.
Qed.
End answers.

(** ** The batch of events *)

Section coalescer.
Import EventCoalescer.

Lemma add_event_keeps e buffer l : buffer = keep_last MAX_BUFFER_SIZE l -> addEvent e buffer = keep_last MAX_BUFFER_SIZE (l ++ [e]).
Proof.
  intros ->. unfold addEvent. rewrite <- keep_last_snoc. set (pushed := _ ++ [e]).
  destruct (MAX_BUFFER_SIZE <? length pushed)%nat eqn:E; [done|]. apply Nat.ltb_ge in E. by rewrite keep_last_small.
Qed.

(** The buffer is the last 100 events added since it was emptied. *)
Lemma buffer_keeps_last l : foldl (fun b e => addEvent e b) [] l = keep_last MAX_BUFFER_SIZE l.
Proof.
  induction l as [|e l IH] using rev_ind; [done|]. rewrite foldl_app. simpl. by apply add_event_keeps.
Qed.

Lemma dedup_snoc {A} `{EqDecision A} (l : list A) x : Prelude.dedup (l ++ [x]) = if includes x l then Prelude.dedup l else Prelude.dedup l ++ [x].
Proof.
  induction l as [|y l IH]; simpl; [done|]. rewrite IH. destruct (bool_decide (x = y)) eqn:Exy.
  - apply bool_decide_eq_true in Exy as ->. simpl. destruct (includes y l) eqn:E; [done|]. rewrite List.filter_app. simpl.
    rewrite bool_decide_true by done. simpl. by rewrite app_nil_r.
  - simpl. apply bool_decide_eq_false in Exy. destruct (includes x l) eqn:E; [done|]. rewrite List.filter_app. simpl.
    by rewrite bool_decide_false by (intros ->; done).
Qed.

Definition of_type (t : string) (events : list ClassifiedEvent) : list ClassifiedEvent :=
  List.filter (fun e => bool_decide (event_type e = t)) events.

(** The groups, in the order their types first appear, each with its events in order. *)
Lemma groups_exact events :
  group_events events = map (fun t => (t, of_type t events)) (Prelude.dedup (map event_type events)).
Proof.
  induction events as [|e events IH] using rev_ind; [done|]. unfold group_events in *. rewrite foldl_app. simpl. rewrite IH.
  rewrite map_app. simpl. rewrite dedup_snoc. unfold add_to_group.
  set (groups := map _ (Prelude.dedup _)). assert (map_keys groups = Prelude.dedup (map event_type events)) as Hk.
  { unfold map_keys, groups. rewrite map_map. simpl. apply map_id. }
  assert (map_has (event_type e) groups = includes (event_type e) (map event_type events)) as Hh.
  { destruct (includes _ _) eqn:E.
    - apply map_has_In. rewrite Hk, dedup_In. by apply includes_In.
    - apply map_has_false. rewrite Hk, dedup_In, <- includes_In. congruence. }
  rewrite Hh. assert (forall t, of_type t (events ++ [e]) = if bool_decide (event_type e = t) then of_type t events ++ [e] else of_type t events) as Ho.
  { intros t. unfold of_type. rewrite List.filter_app. simpl. case_bool_decide; [done|apply app_nil_r]. }
  destruct (includes _ _) eqn:E.
  - unfold map_alter, groups. rewrite map_map. apply map_ext. intros t. unfold key_eq. simpl. rewrite Ho.
    rewrite (bool_decide_ext (t = event_type e) (event_type e = t)) by done. by case_bool_decide.
  - unfold map_set. rewrite Hh, map_app. simpl. rewrite Ho, bool_decide_true by done. f_equal.
    + unfold groups. apply map_ext_in. intros t Ht. rewrite dedup_In in Ht. rewrite Ho, bool_decide_false; [done|].
      intros <-. apply includes_In in Ht. congruence.
    + enough (of_type (event_type e) events = []) as -> by done. unfold of_type. apply filter_nil_iff. intros x Hx.
      apply bool_decide_eq_false. intros Ex. apply not_true_iff_false in E. apply E, includes_In, in_map_iff. by exists x.
Qed.

(** A flush empties the buffer, and reports it by type: a type's line gives its number of
    events, its first five reasons and how many more there are. *)
Theorem flush_reports_batch (added : list ClassifiedEvent) :
  let batch := keep_last MAX_BUFFER_SIZE added in
  flush (foldl (fun b e => addEvent e b) [] added) =
    ([], match batch with
         | [] => EmptyString
         | _ => JsString.join newline (summary_lines batch)
         end) /\
  flat_map snd (group_events batch) ≡ₚ batch /\
  map fst (group_events batch) = Prelude.dedup (map event_type batch).
Proof.
  intros batch. rewrite buffer_keeps_last. fold batch. split; [by destruct batch|]. rewrite groups_exact, flat_map_concat_map, !map_map. simpl. split.
  - enough (forall l ks, List.NoDup ks -> (forall e, In e l -> In (event_type e) ks) -> concat (map (fun t => of_type t l) ks) ≡ₚ l) as H.
    { apply H; [apply dedup_NoDup|]. intros e He. rewrite dedup_In. by apply in_map. }
    clear. intros l. induction l as [|e l IH]; intros ks Hd Hk.
    { clear. induction ks; simpl; [done|done]. }
    transitivity (e :: concat (map (fun t => of_type t l) ks)); [|f_equiv; apply IH; auto with datatypes]. clear IH. specialize (Hk e (or_introl eq_refl)).
    induction Hd as [|k ks Hn Hd IH]; [done|]. simpl. destruct Hk as [->|Hk].
    + unfold of_type at 1. simpl. rewrite bool_decide_true by done. simpl. fold (of_type (event_type e) l).
      erewrite map_ext_in; [done|]. intros t Ht. unfold of_type. simpl. rewrite bool_decide_false; [done|]. intros <-. done.
    + unfold of_type at 1. simpl. rewrite bool_decide_false by (intros <-; done). fold (of_type k l). rewrite (IH Hk).
      by rewrite Permutation_middle.
  - apply map_id.
Qed.

Example coalesced_summary :
  (flush [mkEvent "email" "a"; mkEvent "disk_space" "b"; mkEvent "email" "c"]).2 =
  JsString.join newline ["## Recent Activity (3 events since last check)"; EmptyString; "**Emails** (2):"; "  - a"; "  - c"; EmptyString;
    "**Disk Space** (1):"; "  - b"; EmptyString].
Proof. vm_compute. reflexivity. Qed.
End coalescer.

(** ** The bench route's secret *)

Section gate.
Import DebugRpcGate.

Lemma nat_of_ascii_small c : (nat_of_ascii c < 256)%nat.
Proof. apply nat_ascii_bounded. Qed.

Lemma utf8_inj a b : utf8 a = utf8 b -> a = b.
Proof.
  assert (forall c d, nat_of_ascii c = nat_of_ascii d -> c = d) as Hinj.
  { intros c d H. rewrite <- (ascii_nat_embedding c), <- (ascii_nat_embedding d). by f_equal. }
  assert (forall n, 128 <= n < 256 -> Z.lor 192 (Z.shiftr n 6) * 64 + Z.lor 128 (Z.land n 63) = 192 * 64 + 128 + n /\ 192 <= Z.lor 192 (Z.shiftr n 6)) as Hb.
  { intros n Hn. assert (forallb (fun k => let n := Z.of_nat k in (Z.lor 192 (Z.shiftr n 6) * 64 + Z.lor 128 (Z.land n 63) =? 192 * 64 + 128 + n)
      && (192 <=? Z.lor 192 (Z.shiftr n 6))) (List.seq 128 128) = true) as H by (vm_compute; reflexivity).
    rewrite forallb_forall in H. specialize (H (Z.to_nat n)). rewrite in_seq in H. specialize (H ltac:(lia)). cbn zeta in H.
    rewrite Z2Nat.id in H by lia. apply andb_true_iff in H as [H1%Z.eqb_eq H2%Z.leb_le]. done. }
  revert b. induction a as [|c a IH]; intros [|d b] H; [done| | |].
  - simpl in H. by destruct (_ <? _).
  - simpl in H. by destruct (_ <? _).
  - simpl in H. pose proof (nat_of_ascii_small c). pose proof (nat_of_ascii_small d).
    set (n := Z.of_nat (nat_of_ascii c)) in *. set (m := Z.of_nat (nat_of_ascii d)) in *.
    destruct (n <? 128) eqn:E1, (m <? 128) eqn:E2; simpl in H; injection H; intros; to_prop.
    + f_equal; [apply Hinj; lia|auto].
    + destruct (Hb m ltac:(lia)). lia.
    + destruct (Hb n ltac:(lia)). lia.
    + destruct (Hb m ltac:(lia)), (Hb n ltac:(lia)). f_equal; [apply Hinj; lia|auto].
Qed.

(** The route exists only on a self-hosted daemon started with a secret of at least 16
    characters; a request passes only with that very secret; and whatever the outcome, the
    secret is gone from the environment that child processes inherit, and nothing else is. *)
Theorem debug_gate_needs_secret (hosted : bool) (env : list (string * string)) :
  let '(state, env', secret) := initDebugRpcGate hosted env in
  (state = gate_open <-> is_Some secret) /\
  (forall s, secret = Some s ->
     map_get DEBUG_RPC_ENV env = Some s /\ (MIN_SECRET_LENGTH <= String.length s)%nat /\ hosted = false /\
     forall presented, debugRpcTokenMatches presented s = true <-> presented = Some s) /\
  map_get DEBUG_RPC_ENV env' = None /\ forall k, k <> DEBUG_RPC_ENV -> map_get k env' = map_get k env.
Proof.
  assert (map_get DEBUG_RPC_ENV (map_delete DEBUG_RPC_ENV env) = None /\
    forall k, k <> DEBUG_RPC_ENV -> map_get k (map_delete DEBUG_RPC_ENV env) = map_get k env) as Henv.
  { split; [by rewrite map_get_delete, bool_decide_true|]. intros k Hk. by rewrite map_get_delete, bool_decide_false. }
  assert (forall st, st <> gate_open -> (st = gate_open <-> is_Some (None : option string))) as Hshut.
  { intros st Hst. split; [done|by intros [? [=]]]. }
  unfold initDebugRpcGate. destruct (map_get DEBUG_RPC_ENV env) as [[|c s]|] eqn:E; [by split_and!; try apply Henv; [apply Hshut|]| |by split_and!; try apply Henv; [apply Hshut|]].
  set (secret := String c s) in *. destruct (String.length secret <? MIN_SECRET_LENGTH)%nat eqn:El; [by split_and!; try apply Henv; [apply Hshut|]|].
  destruct hosted; [by split_and!; try apply Henv; [apply Hshut|]|]. split_and!; try apply Henv; [by split|].
  intros x [= <-]. split_and!; [done|by apply Nat.ltb_ge in El|done|]. intros presented. unfold debugRpcTokenMatches.
  destruct presented as [[|d p]|]; [done| |done]. rewrite andb_true_iff, Nat.eqb_eq, bool_decide_eq_true. split.
  - intros [_ H%utf8_inj]. by rewrite H.
  - intros [= -> ->]. done.
Qed.
End gate.
