(* ===== verification/JsDate.v ===== *)
(** * Dates as JavaScript computes them

    Days are counted from 1970-01-01 in the proleptic Gregorian calendar, as ECMAScript's
    Date does; [civil] is the date of a day and [make_day] ECMAScript's MakeDay, which
    accepts months and dates out of range. A day is first placed in a year that starts in
    March, so that the leap day comes last. *)
From S2P Require Export Prelude.

(** The first day of the year that starts in March of [y]. *)
Definition year_start (y : Z) : Z := 365 * y + y / 4 - y / 100 + y / 400 - 719468.

(** The March year of a day: four centuries, a century, four years, a year. *)
Definition march_year (day : Z) : Z :=
  let z := day + 719468 in
  let doe := z mod 146097 in
  let c := Z.min 3 (doe / 36524) in
  let doc := doe - 36524 * c in
  let q := doc / 1461 in
  let r := Z.min 3 ((doc - 1461 * q) / 365) in
  400 * (z / 146097) + 100 * c + 4 * q + r.

(** The month (1 to 12) and the date of a day of a March year, counted from 0. *)
Definition month_part (doy : Z) : Z * Z :=
  let mp := (5 * doy + 2) / 153 in
  (if mp <? 10 then mp + 3 else mp - 9, doy - (153 * mp + 2) / 5 + 1).

Definition day_of_year (day : Z) : Z := day - year_start (march_year day).
Definition month_of (day : Z) : Z := (month_part (day_of_year day)).1.
Definition date_of (day : Z) : Z := (month_part (day_of_year day)).2.
Definition year_of (day : Z) : Z := march_year day + (if month_of day <=? 2 then 1 else 0).

(** 0 is Sunday. *)
Definition weekday (day : Z) : Z := (day + 4) mod 7.

(** The day of the first of a month, the month from 1 to 12. *)
Definition first_of_month (y m : Z) : Z :=
  year_start (if m <=? 2 then y - 1 else y) + (153 * ((m + 9) mod 12) + 2) / 5.

(** MakeDay: [month] counts from 0. *)
Definition make_day (year month date : Z) : Z :=
  first_of_month (year + month / 12) (month mod 12 + 1) + date - 1.

(** A date as one comparable number. *)
Definition date_key (day : Z) : Z := year_of day * 10000 + month_of day * 100 + date_of day.

Definition leap (y : Z) : bool := (y mod 4 =? 0) && (negb (y mod 100 =? 0) || (y mod 400 =? 0)).
Definition year_length (y : Z) : Z := if leap (y + 1) then 366 else 365.
Definition days_in_month (y m : Z) : Z :=
  if m =? 2 then (if leap y then 29 else 28) else if (m =? 4) || (m =? 6) || (m =? 9) || (m =? 11) then 30 else 31.

(** ** March years *)

Lemma leap_spec y : if leap y then y / 4 - y / 100 + y / 400 = (y - 1) / 4 - (y - 1) / 100 + (y - 1) / 400 + 1
                    else y / 4 - y / 100 + y / 400 = (y - 1) / 4 - (y - 1) / 100 + (y - 1) / 400.
Proof.
  unfold leap. destruct (y mod 4 =? 0) eqn:E4, (y mod 100 =? 0) eqn:E100, (y mod 400 =? 0) eqn:E400; to_prop; cbn [andb orb negb];
    Z.to_euclidean_division_equations; lia.
Qed.

Lemma year_start_next y : year_start (y + 1) = year_start y + year_length y.
Proof.
  unfold year_start, year_length. pose proof (leap_spec (y + 1)) as H. replace (y + 1 - 1) with y in H by lia. destruct (leap (y + 1)); lia.
Qed.

Lemma year_length_bounds y : 365 <= year_length y <= 366.
Proof. unfold year_length. case_match; lia. Qed.

Lemma march_year_start day : year_start (march_year day) <= day < year_start (march_year day + 1).
Proof.
  unfold march_year, year_start. set (z := day + 719468). pose proof (Z.div_mod z 146097 ltac:(lia)) as Hz.
  pose proof (Z.mod_pos_bound z 146097 ltac:(lia)) as Hd. set (doe := z mod 146097) in *. set (era := z / 146097) in *.
  pose proof (Z.div_mod doe 36524 ltac:(lia)). pose proof (Z.mod_pos_bound doe 36524 ltac:(lia)).
  set (c := Z.min 3 (doe / 36524)). assert (0 <= c <= 3 /\ 0 <= doe - 36524 * c <= 36524 /\ (c < 3 -> doe - 36524 * c < 36524)) as Hc by lia.
  set (doc := doe - 36524 * c) in *. pose proof (Z.div_mod doc 1461 ltac:(lia)). pose proof (Z.mod_pos_bound doc 1461 ltac:(lia)).
  set (q := doc / 1461) in *. assert (0 <= q <= 24) as Hq by lia. set (doq := doc - 1461 * q).
  assert (0 <= doq < 1461) as Hdq by lia. pose proof (Z.div_mod doq 365 ltac:(lia)). pose proof (Z.mod_pos_bound doq 365 ltac:(lia)).
  set (r := Z.min 3 (doq / 365)). assert (0 <= r <= 3 /\ 0 <= doq - 365 * r <= 365 /\ (r < 3 -> doq - 365 * r < 365)) as Hr by lia.
  set (y := 400 * era + 100 * c + 4 * q + r).
  assert (y / 4 = 100 * era + 25 * c + q) as -> by (unfold y; symmetry; apply Z.div_unique with r; lia).
  assert (y / 100 = 4 * era + c) as -> by (unfold y; symmetry; apply Z.div_unique with (4 * q + r); lia).
  assert (y / 400 = era) as -> by (unfold y; symmetry; apply Z.div_unique with (100 * c + 4 * q + r); lia).
  assert ((y + 1) / 4 = 100 * era + 25 * c + q + (if r =? 3 then 1 else 0)) as ->.
  { destruct (r =? 3) eqn:E; to_prop; symmetry; [apply Z.div_unique with 0|apply Z.div_unique with (r + 1)]; lia. }
  assert ((y + 1) / 100 = 4 * era + c + (if (r =? 3) && (q =? 24) then 1 else 0)) as ->.
  { destruct (r =? 3) eqn:E, (q =? 24) eqn:E2; to_prop; cbn [andb]; symmetry; [apply Z.div_unique with 0|apply Z.div_unique with (4 * q + r + 1)..]; lia. }
  assert ((y + 1) / 400 = era + (if (r =? 3) && (q =? 24) && (c =? 3) then 1 else 0)) as ->.
  { destruct (r =? 3) eqn:E, (q =? 24) eqn:E2, (c =? 3) eqn:E3; to_prop; cbn [andb]; symmetry; [apply Z.div_unique with 0|apply Z.div_unique with (100 * c + 4 * q + r + 1)..]; lia. }
  unfold y. destruct (r =? 3) eqn:E, (q =? 24) eqn:E2, (c =? 3) eqn:E3; to_prop; cbn [andb]; lia.
Qed.

Lemma year_start_lt y1 y2 : y1 < y2 -> year_start y1 + 365 <= year_start y2.
Proof.
  intros H. replace y2 with (y1 + 1 + (y2 - y1 - 1)) by lia. assert (0 <= y2 - y1 - 1) as Hn by lia. revert Hn.
  generalize (y2 - y1 - 1). apply natlike_ind.
  - rewrite Z.add_0_r, year_start_next. pose proof (year_length_bounds y1). lia.
  - intros x Hx IH. replace (y1 + 1 + Z.succ x) with (y1 + 1 + x + 1) by lia. rewrite year_start_next.
    pose proof (year_length_bounds (y1 + 1 + x)). lia.
Qed.

Lemma march_year_unique day y : year_start y <= day < year_start (y + 1) -> march_year day = y.
Proof.
  intros H. pose proof (march_year_start day). destruct (Z.lt_trichotomy (march_year day) y) as [Hl|[|Hl]]; [|done|].
  - assert (march_year day + 1 = y \/ march_year day + 1 < y) as [<-|Hl'] by lia; [lia|]. apply year_start_lt in Hl'. lia.
  - assert (y + 1 = march_year day \/ y + 1 < march_year day) as [Hl'|Hl'] by lia; [rewrite Hl' in H; lia|]. apply year_start_lt in Hl'. lia.
Qed.

Lemma day_of_year_bounds day : 0 <= day_of_year day < year_length (march_year day).
Proof. unfold day_of_year. pose proof (march_year_start day). rewrite year_start_next in *. lia. Qed.

Lemma march_year_next day :
  (day_of_year day + 1 < year_length (march_year day) /\ march_year (day + 1) = march_year day /\ day_of_year (day + 1) = day_of_year day + 1) \/
  (day_of_year day + 1 = year_length (march_year day) /\ march_year (day + 1) = march_year day + 1 /\ day_of_year (day + 1) = 0).
Proof.
  pose proof (day_of_year_bounds day) as H. unfold day_of_year in *.
  destruct (decide (day - year_start (march_year day) + 1 < year_length (march_year day))); [left|right]; (split; [lia|]).
  - assert (march_year (day + 1) = march_year day) as ->; [apply march_year_unique; rewrite year_start_next; lia|]. lia.
  - assert (march_year (day + 1) = march_year day + 1) as ->.
    { apply march_year_unique. rewrite !year_start_next. pose proof (year_length_bounds (march_year day + 1)). lia. }
    rewrite year_start_next. lia.
Qed.

(** ** Months, by a table of the days of a year *)

Definition month_check (doy : Z) : bool :=
  let '(m, d) := month_part doy in
  let '(m', d') := month_part (doy + 1) in
  (1 <=? m) && (m <=? 12) && (1 <=? d) && (d <=? days_in_month 4 m) &&
  (doy =? (153 * ((m + 9) mod 12) + 2) / 5 + d - 1) && (if m =? 2 then doy =? 336 + d else if m =? 1 then doy <? 337 else doy <? 306) &&
  (if (d =? days_in_month 4 m) && negb (m =? 2) then (d' =? 1) && (m' =? (if m =? 12 then 1 else m + 1))
   else (m =? 2) && (29 <=? d) || (m' =? m) && (d' =? d + 1)).

Lemma months_checked : forallb month_check (map Z.of_nat (List.seq 0 366)) = true.
Proof. vm_compute. reflexivity. Qed.

Lemma month_checked doy : 0 <= doy < 366 -> month_check doy = true.
Proof.
  intros H. pose proof months_checked as Hc. rewrite forallb_forall in Hc. apply Hc. apply in_map_iff. exists (Z.to_nat doy).
  rewrite in_seq. split; lia.
Qed.

(** ** The calendar *)

Lemma leap_month y m : days_in_month y m = if (m =? 2) && negb (leap y) then 28 else days_in_month 4 m.
Proof. unfold days_in_month. destruct (m =? 2); [|done]. change (leap 4) with true. by destruct (leap y). Qed.

(** The facts of the table for a day. *)
Lemma month_facts day :
  1 <= month_of day <= 12 /\ 1 <= date_of day <= days_in_month 4 (month_of day) /\
  day_of_year day = (153 * ((month_of day + 9) mod 12) + 2) / 5 + date_of day - 1 /\
  (if month_of day =? 2 then day_of_year day = 336 + date_of day else if month_of day =? 1 then day_of_year day < 337 else day_of_year day < 306).
Proof.
  pose proof (day_of_year_bounds day). pose proof (year_length_bounds (march_year day)).
  pose proof (month_checked (day_of_year day) ltac:(lia)) as H1. unfold month_check in H1. unfold month_of, date_of.
  destruct (month_part (day_of_year day)) as [m d]. destruct (month_part (day_of_year day + 1)) as [m' d']. cbn [fst snd].
  rewrite !andb_true_iff in H1. destruct H1 as [[[[[[? ?] ?] ?] ?] Hi] _]. to_prop. split_and!; try lia.
  destruct (m =? 2); [by to_prop|]. destruct (m =? 1); by to_prop.
Qed.

Lemma days_in_month_bounds y m : 28 <= days_in_month y m <= 31.
Proof. unfold days_in_month. repeat case_match; lia. Qed.

(** February ends a March year. *)
Lemma february day : month_of day = 2 -> year_of day = march_year day + 1 /\ year_length (march_year day) = 337 + days_in_month (year_of day) 2.
Proof.
  intros E. unfold year_of. rewrite E. cbn [Z.leb Z.compare Pos.compare Pos.compare_cont]. split; [done|].
  unfold year_length, days_in_month. rewrite Z.eqb_refl. by destruct (leap _).
Qed.

Lemma civil_range day : 1 <= month_of day <= 12 /\ 1 <= date_of day <= days_in_month (year_of day) (month_of day).
Proof.
  destruct (month_facts day) as (Hm & Hd & _ & Hi). split; [done|]. rewrite leap_month.
  destruct (month_of day =? 2) eqn:E; [|done]. destruct (leap (year_of day)) eqn:El; [done|]. cbn [andb negb]. to_prop.
  destruct (february day E) as [_ Hl]. pose proof (day_of_year_bounds day). unfold days_in_month in Hl. rewrite El in Hl. cbn in Hl. lia.
Qed.

Lemma make_day_civil day : make_day (year_of day) (month_of day - 1) (date_of day) = day.
Proof.
  destruct (month_facts day) as (Hm & _ & Hy & _). unfold make_day, first_of_month.
  rewrite Z.div_small, Z.mod_small by lia. replace (month_of day - 1 + 1) with (month_of day) by lia.
  replace (if month_of day <=? 2 then year_of day + 0 - 1 else year_of day + 0) with (march_year day).
  - unfold day_of_year in Hy. lia.
  - unfold year_of. destruct (month_of day <=? 2); lia.
Qed.

Lemma month_next doy : 0 <= doy < 366 ->
  let '(m, d) := month_part doy in
  let '(m', d') := month_part (doy + 1) in
  d < days_in_month 4 m /\ m' = m /\ d' = d + 1 \/
  d = days_in_month 4 m /\ m <> 2 /\ d' = 1 /\ m' = (if m =? 12 then 1 else m + 1) \/
  m = 2 /\ d = 29.
Proof.
  intros H%month_checked. unfold month_check in H. destruct (month_part doy) as [m d], (month_part (doy + 1)) as [m' d'].
  rewrite !andb_true_iff in H. destruct H as [[[[_ Hd] _] _] H]. apply Z.leb_le in Hd. destruct (d =? days_in_month 4 m) eqn:E, (m =? 2) eqn:E2; to_prop; cbn [andb negb orb] in H.
  - right; right. subst m. change (days_in_month 4 2) with 29 in E. lia.
  - right; left. rewrite andb_true_iff, !Z.eqb_eq in H. tauto.
  - left. subst m. destruct (29 <=? d) eqn:E3; to_prop; [change (days_in_month 4 2) with 29 in *; lia|]. cbn [orb] in H. rewrite andb_true_iff, !Z.eqb_eq in H. lia.
  - left. rewrite andb_true_iff, !Z.eqb_eq in H. lia.
Qed.

(** The next day is the next date of the month, or the first of the next month. *)
Lemma civil_next day :
  (date_of day < days_in_month (year_of day) (month_of day) /\ date_of (day + 1) = date_of day + 1 /\
   month_of (day + 1) = month_of day /\ year_of (day + 1) = year_of day) \/
  (date_of day = days_in_month (year_of day) (month_of day) /\ date_of (day + 1) = 1 /\
   (month_of day = 12 /\ month_of (day + 1) = 1 /\ year_of (day + 1) = year_of day + 1 \/
    month_of day < 12 /\ month_of (day + 1) = month_of day + 1 /\ year_of (day + 1) = year_of day)).
Proof.
  destruct (month_facts day) as (Hm & Hd & _ & Hi). pose proof (february day) as Hf.
  pose proof (day_of_year_bounds day) as Hb. pose proof (year_length_bounds (march_year day)).
  destruct (march_year_next day) as [(Hl & Ey & Ed)|(Hl & Ey & Ed)].
  - pose proof (month_next (day_of_year day) ltac:(lia)) as Hn. rewrite <- Ed in Hn.
    assert (forall dd, month_part (day_of_year dd) = (month_of dd, date_of dd)) as E by (intros dd; unfold month_of, date_of; by destruct (month_part _)).
    rewrite !E in Hn. clear E.
    assert (year_of (day + 1) = march_year day + (if month_of (day + 1) <=? 2 then 1 else 0)) as Hy by (unfold year_of; by rewrite Ey).
    assert (year_of day = march_year day + (if month_of day <=? 2 then 1 else 0)) as Hy0 by done.
    destruct Hn as [(H1 & H2 & H3)|[(H1 & H2 & H3 & H4)|(H1 & H2)]].
    + left. rewrite H2 in Hy. rewrite leap_month. destruct (month_of day =? 2) eqn:E; to_prop; cbn [andb]; [|split_and!; lia || congruence].
      rewrite E in H1. destruct (Hf E) as [_ Hf']. rewrite leap_month in Hf'. cbn [Z.eqb Pos.eqb andb] in Hf'.
      destruct (leap (year_of day)); cbn [negb] in *; split_and!; lia || congruence.
    + right. rewrite leap_month. assert (month_of day =? 2 = false) as -> by by apply Z.eqb_neq. cbn [andb]. split_and!; [done|done|].
      destruct (month_of day =? 12) eqn:E; to_prop; rewrite Hy, Hy0, H4; [left|right]; (split; [lia|]; split; [done|]).
      * rewrite E. cbn. lia.
      * destruct (month_of day + 1 <=? 2) eqn:E1, (month_of day <=? 2) eqn:E2; to_prop; lia.
    + rewrite H1 in Hi. cbn [Z.eqb Pos.eqb] in Hi. lia.
  - right. assert (month_of (day + 1) = 3 /\ date_of (day + 1) = 1) as [E1 E2] by (unfold month_of, date_of; by rewrite Ed).
    assert (month_of day = 2) as E.
    { destruct (month_of day =? 2) eqn:E; [by to_prop|]. destruct (month_of day =? 1); lia. }
    destruct (Hf E) as [Hy Hf']. rewrite E in *. cbn [Z.eqb Pos.eqb] in Hi. split_and!; [lia|done|]. right. split_and!; [lia|lia|].
    rewrite Hy. unfold year_of. rewrite E1, Ey. cbn. lia.
Qed.

Lemma date_key_next day : date_key day < date_key (day + 1).
Proof.
  unfold date_key. pose proof (civil_range day). pose proof (days_in_month_bounds (year_of day) (month_of day)). destruct (civil_next day); lia.
Qed.

(** Walking forward day by day. *)
Lemma Z_steps (R : Z -> Z -> Prop) : Transitive R -> (forall x, R x (x + 1)) -> forall x y, x < y -> R x y.
Proof.
  intros Ht Hs x y H. replace y with (x + 1 + (y - x - 1)) by lia. assert (0 <= y - x - 1) as Hn by lia. revert Hn.
  generalize (y - x - 1). apply natlike_ind.
  - rewrite Z.add_0_r. apply Hs.
  - intros n Hn IH. transitivity (x + 1 + n); [done|]. replace (x + 1 + Z.succ n) with (x + 1 + n + 1) by lia. apply Hs.
Qed.

Lemma date_key_lt d1 d2 : d1 < d2 -> date_key d1 < date_key d2.
Proof.
  apply (Z_steps (fun x y => date_key x < date_key y)); [intros x y z; lia|apply date_key_next].
Qed.

Lemma date_key_le d1 d2 : d1 <= d2 -> date_key d1 <= date_key d2.
Proof. intros H. destruct (decide (d1 = d2)) as [->|]; [lia|]. pose proof (date_key_lt d1 d2). lia. Qed.

Lemma date_key_inj d1 d2 : date_key d1 = date_key d2 -> d1 = d2.
Proof. intros H. destruct (Z.lt_trichotomy d1 d2) as [Hl|[->|Hl]]; [|done|]; apply date_key_lt in Hl; lia. Qed.

(** MakeDay counts dates from the first of the month. *)
Lemma make_day_date y m d : make_day y m d = make_day y m 1 + (d - 1).
Proof. unfold make_day. lia. Qed.

(** The days of a month after a day of it. *)
Lemma same_month day n : 0 <= n -> date_of day + n <= days_in_month (year_of day) (month_of day) ->
  date_of (day + n) = date_of day + n /\ month_of (day + n) = month_of day /\ year_of (day + n) = year_of day.
Proof.
  revert n. apply (natlike_ind (fun n => date_of day + n <= days_in_month (year_of day) (month_of day) -> _)).
  - intros _. by rewrite !Z.add_0_r.
  - intros n Hn IH H. destruct IH as (E1 & E2 & E3); [lia|]. replace (day + Z.succ n) with (day + n + 1) by lia.
    destruct (civil_next (day + n)) as [(H1 & H2 & H3 & H4)|(H1 & _)]; rewrite ?E1, ?E2, ?E3 in *; lia.
Qed.

(** The first of the next month. *)
Lemma month_end day : let n := days_in_month (year_of day) (month_of day) - date_of day + 1 in
  make_day (year_of day) (month_of day) 1 = day + n /\ date_of (day + n) = 1 /\ month_of (day + n) <> month_of day.
Proof.
  intros n. pose proof (civil_range day) as Hr. destruct (same_month day (n - 1)) as (E1 & E2 & E3); [lia..|].
  assert (date_of (day + n) = 1 /\ (month_of day = 12 /\ month_of (day + n) = 1 /\ year_of (day + n) = year_of day + 1 \/
    month_of day < 12 /\ month_of (day + n) = month_of day + 1 /\ year_of (day + n) = year_of day)) as [Hd Hm].
  { pose proof (civil_next (day + (n - 1))) as Hc. replace (day + (n - 1) + 1) with (day + n) in Hc by lia. rewrite E1, E2, E3 in Hc. lia. }
  split_and!; [|done|lia]. pose proof (make_day_civil (day + n)) as Hmk. rewrite Hd in Hmk. rewrite <- Hmk. unfold make_day.
  destruct Hm as [(M1 & M2 & ->)|(M1 & -> & ->)]; [rewrite M1, M2|].
  - change (12 / 12) with 1. change (12 mod 12) with 0. change ((1 - 1) / 12) with 0. change ((1 - 1) mod 12) with 0. by rewrite Z.add_0_r.
  - by replace (month_of day + 1 - 1) with (month_of day) by lia.
Qed.

#[global] Arguments month_of _ : simpl never.
#[global] Arguments date_of _ : simpl never.
#[global] Arguments year_of _ : simpl never.
#[global] Arguments weekday _ : simpl never.
#[global] Arguments make_day _ _ _ : simpl never.
