(* ===== verification/Cron.v ===== *)
(** * Cron expressions and jobs (lib/cron-scheduler.ts)

    The field parser, the wall clock, the search of the next run in the configured timezone
    and in the machine's own (at a fixed offset), and the job table with its intervals.
    Times are milliseconds; the wall clock of a timezone is the runtime's, a parameter that
    gives the reading of an epoch minute. *)
From S2P Require Export JsString.
From S2P Require Export JsMap JsDate.
From S2P Require Import Json JsNumber.
From Stdlib Require Import Ascii.

(** ** Parsing *)

Definition error := string.

(** [parseInt(s, 10)], [None] for NaN. *)
Definition parse_int (s : string) : option Z :=
  let unsigned s := match span_digits s with (EmptyString, _) => None | (d, _) => Some (digits_value d) end in
  match trim_start s with
  | String "-" s' => Z.opp <$> unsigned s'
  | String "+" s' => unsigned s'
  | s' => unsigned s'
  end.

(** [s.split(/\s+/)] *)
Fixpoint split_ws (s : string) : list string :=
  match s with
  | EmptyString => [EmptyString]
  | String a s' =>
      let rest := split_ws s' in
      if is_ws a then match rest, s' with
                      | EmptyString :: _, String b _ => if is_ws b then rest else EmptyString :: rest
                      | _, _ => EmptyString :: rest
                      end
      else match rest with w :: ws => String a w :: ws | [] => [String a EmptyString] end
  end.

(** [for (let i = lo; i <= hi; i += step) values.add(i)] *)
Definition count_up (lo hi step : Z) : list Z := map (fun n => lo + step * Z.of_nat n) (List.seq 0 (Z.to_nat ((hi - lo) / step + 1))).

Definition has_char (c : ascii) (s : string) : bool := existsb (Ascii.eqb c) (String.list_ascii_of_string s).
Definition in_quotes (what s : string) : error := "Invalid " +:+ what +:+ " in cron field: " +:+ String dquote s +:+ String dquote EmptyString.

(** The bounds of a range [a-b]: both have to be numbers for a loop over them to run. *)
Definition range_bounds (s : string) : option Z * option Z :=
  match split_on "-" s with a :: b :: _ => (parse_int a, parse_int b) | _ => (None, None) end.

(** One comma-separated part of a field. *)
Definition parse_part (lo hi : Z) (part : string) : error + list Z :=
  let trimmed := trim part in
  if bool_decide (trimmed = "*") then inr (count_up lo hi 1)
  else if has_char "/" trimmed then
    match split_on "/" trimmed with
    | rangeStr :: stepStr :: _ =>
        match parse_int stepStr with
        | Some step =>
            if step <=? 0 then inl (in_quotes "step" trimmed)
            else
              let '(rangeMin, rangeMax) :=
                if bool_decide (rangeStr = "*") then (Some lo, Some hi)
                else if has_char "-" rangeStr then range_bounds rangeStr
                else (parse_int rangeStr, Some hi) in
              inr (match rangeMin, rangeMax with Some a, Some b => count_up a b step | _, _ => [] end)
        | None => inl (in_quotes "step" trimmed)
        end
    | _ => inl (in_quotes "step" trimmed)
    end
  else if has_char "-" trimmed then
    match range_bounds trimmed with
    | (Some a, Some b) => inr (count_up a b 1)
    | _ => inl (in_quotes "range" trimmed)
    end
  else match parse_int trimmed with
       | Some v => inr [v]
       | None => inl (in_quotes "value" trimmed)
       end.

Fixpoint parse_parts (lo hi : Z) (parts : list string) : error + list Z :=
  match parts with
  | [] => inr []
  | p :: rest =>
      match parse_part lo hi p with
      | inl e => inl e
      | inr v => match parse_parts lo hi rest with inl e => inl e | inr vs => inr (v ++ vs) end
      end
  end.

Definition parseField (field : string) (lo hi : Z) : error + list Z :=
  match parse_parts lo hi (split_on "," field) with
  | inl e => inl e
  | inr values => inr (sort_by Z.leb (Prelude.dedup values))
  end.

Record Fields := mkFields { minutes : list Z; hours : list Z; daysOfMonth : list Z; months : list Z; daysOfWeek : list Z }.

Definition parseExpression (expression : string) : error + Fields :=
  match split_ws (trim expression) with
  | [minField; hourField; domField; monthField; dowField] =>
      match parseField minField 0 59, parseField hourField 0 23, parseField domField 1 31, parseField monthField 1 12, parseField dowField 0 6 with
      | inr m, inr h, inr d, inr mo, inr w => inr (mkFields m h d mo w)
      | inl e, _, _, _, _ | _, inl e, _, _, _ | _, _, inl e, _, _ | _, _, _, inl e, _ | _, _, _, _, inl e => inl e
      end
  | parts => inl ("Invalid cron expression " +:+ String dquote expression +:+ String dquote (": expected 5 fields, got "
                  +:+ show_z (Z.of_nat (length parts))))
  end.

Definition MIN_INTERVAL_MS : Z := 1000.
Definition MAX_INTERVAL_MS : Z := 24 * 60 * 60000.

(** [/^@every\s+(\d+)(s|m|h)$/i] *)
Definition every_match (s : string) : option (Z * ascii) :=
  if starts_with "@every" (to_lower s) then
    match sdrop 6 s with
    | String c rest =>
        if is_ws c then
          match span_digits (trim_start rest) with
          | (EmptyString, _) => None
          | (d, String u EmptyString) =>
              let unit := lower_ascii u in
              if Ascii.eqb unit "s" || Ascii.eqb unit "m" || Ascii.eqb unit "h" then Some (digits_value d, unit) else None
          | _ => None
          end
        else None
    | EmptyString => None
    end
  else None.

(** [inr None]: not this syntax. *)
Definition parseEveryExpression (expression : string) : error + option Z :=
  match every_match (trim expression) with
  | None => inr None
  | Some (n, unit) =>
      let quoted := String dquote expression +:+ String dquote EmptyString in
      if n <=? 0 then inl ("Invalid @every duration in " +:+ quoted +:+ ": amount must be a positive integer")
      else
        let ms := if Ascii.eqb unit "s" then n * 1000 else if Ascii.eqb unit "m" then n * 60000 else n * 60 * 60000 in
        if ms <? MIN_INTERVAL_MS then inl ("@every duration " +:+ quoted +:+ " is below the 1s minimum (got " +:+ show_z ms +:+ "ms)")
        else if ms >? MAX_INTERVAL_MS then inl ("@every duration " +:+ quoted +:+ " exceeds the 24h maximum (got " +:+ show_z ms +:+ "ms)")
        else inr (Some ms)
  end.

Example fields_parse :
  parseExpression " */15  9-17,20 1 1,7/3 0-4/2 " =
  inr (mkFields [0; 15; 30; 45] [9; 10; 11; 12; 13; 14; 15; 16; 17; 20] [1] [1; 7; 10] [0; 2; 4]) /\
  parseField "1-x" 0 59 = inl (in_quotes "range" "1-x") /\
  parseEveryExpression "@every 10s" = inr (Some 10000) /\ parseEveryExpression "* * * * *" = inr None.
Proof. vm_compute. done. Qed.

(** ** The wall clock *)

Record WallClock := mkWall { wc_minute : Z; wc_hour : Z; wc_dom : Z; wc_month : Z; wc_dow : Z; wc_year : Z }.

Definition localDateKey (wc : WallClock) : Z := wc_year wc * 10000 + wc_month wc * 100 + wc_dom wc.

(** What a local minute (counted from local 1970-01-01 00:00) reads. *)
Definition local_reading (local : Z) : WallClock :=
  let day := local / 1440 in
  mkWall (local mod 60) (local mod 1440 / 60) (date_of day) (month_of day) (weekday day) (year_of day).

Definition date_ok (f : Fields) (wc : WallClock) : bool :=
  includes (wc_month wc) (months f) && includes (wc_dom wc) (daysOfMonth f) && includes (wc_dow wc) (daysOfWeek f).

Definition reading_ok (f : Fields) (wc : WallClock) : bool :=
  includes (wc_minute wc) (minutes f) && includes (wc_hour wc) (hours f) && date_ok f wc.

Section timezone.
(** [wall k]: what the configured timezone reads at minute [k] of the epoch. *)
Context (wall : Z -> WallClock).

Definition matches (expression : string) (date : Z) : bool :=
  match parseExpression expression with inl _ => false | inr f => reading_ok f (wall (date / 60000)) end.

(** Minutes to the nominal midnight. *)
Definition to_midnight (k : Z) : Z := 24 * 60 - (wc_hour (wall k) * 60 + wc_minute (wall k)).

Fixpoint hops (n : nat) (startKey candidate : Z) : Z :=
  match n with
  | O => candidate
  | S n' => if localDateKey (wall candidate) <=? startKey then hops n' startKey (candidate + to_midnight candidate) else candidate
  end.

Fixpoint walk_back (guard : nat) (startKey candidate : Z) : Z :=
  match guard with
  | O => candidate
  | S guard' => if localDateKey (wall (candidate - 1)) <=? startKey then candidate else walk_back guard' startKey (candidate - 1)
  end.

(** In minutes, as every candidate is a whole one. *)
Definition startOfNextLocalDay (k : Z) : Z :=
  let startKey := localDateKey (wall k) in
  walk_back 180 startKey (hops 3 startKey (k + to_midnight k)).

(** One turn of the loop: where to look next, or [None] on a match. *)
Definition zone_step (f : Fields) (k : Z) : option Z :=
  let wc := wall k in
  if negb (date_ok f wc) then Some (startOfNextLocalDay k)
  else if negb (includes (wc_hour wc) (hours f)) then Some (k + (60 - wc_minute wc))
  else if negb (includes (wc_minute wc) (minutes f)) then
    Some (match List.find (fun m => wc_minute wc <? m) (minutes f) with
          | Some nextMinute => k + (nextMinute - wc_minute wc)
          | None => k + (60 - wc_minute wc)
          end)
  else None.

(** [while (ts < limit && ++guard < 600_000)]; [limit] in milliseconds. *)
Fixpoint search (step : Z -> option Z) (limit : Z) (guard : nat) (k : Z) : option Z :=
  match guard with
  | O => None
  | S guard' => if 60000 * k <? limit then match step k with None => Some k | Some k' => search step limit guard' k' end else None
  end.

Definition nextRunInTimezone (expression : string) (from : Z) : option Z :=
  match parseExpression expression with
  | inl _ => None
  | inr f => Z.mul 60000 <$> search (zone_step f) (from + 366 * 24 * 60 * 60000) (Z.to_nat 599999) (from / 60000 + 1)
  end.
End timezone.

(** ** Without a configured timezone: the machine's own, at a fixed offset *)

Section machine.
(** Minutes to add to UTC. *)
Context (offset : Z).

(** What the date setters give, in local minutes: [setMonth(getMonth() + 1)], then [setDate(1)]
    at midnight; [setDate(getDate() + 1)] at midnight. *)
Definition next_month_start (local : Z) : Z :=
  let day := local / 1440 in
  let moved := make_day (year_of day) (month_of day - 1 + 1) (date_of day) in
  make_day (year_of moved) (month_of moved - 1) 1 * 1440.
Definition next_day_start (local : Z) : Z :=
  let day := local / 1440 in make_day (year_of day) (month_of day - 1) (date_of day + 1) * 1440.

Definition next_hour (f : Fields) (local : Z) : Z :=
  match List.find (fun h => local mod 1440 / 60 <? h) (hours f) with
  | Some h => local / 1440 * 1440 + h * 60
  | None => next_day_start local
  end.

Definition machine_step (f : Fields) (local : Z) : option Z :=
  let wc := local_reading local in
  if negb (includes (wc_month wc) (months f)) then Some (next_month_start local)
  else if negb (includes (wc_dom wc) (daysOfMonth f)) || negb (includes (wc_dow wc) (daysOfWeek f)) then Some (next_day_start local)
  else if negb (includes (wc_hour wc) (hours f)) then Some (next_hour f local)
  else if negb (includes (wc_minute wc) (minutes f)) then
    Some (match List.find (fun m => wc_minute wc <? m) (minutes f) with
          | Some nextMinute => local / 60 * 60 + nextMinute
          | None => next_hour f local
          end)
  else None.

(** [limit.setFullYear(limit.getFullYear() + 1)], in local milliseconds. *)
Definition year_later (local_ms : Z) : Z :=
  let day := local_ms / 86400000 in
  make_day (year_of day + 1) (month_of day - 1) (date_of day) * 86400000 + local_ms mod 86400000.

(** The fuel is the number of minutes to search, never more than the turns of the loop. *)
Definition nextRun (expression : string) (from : Z) : option Z :=
  match parseExpression expression with
  | inl _ => None
  | inr f =>
      let local_ms := from + offset * 60000 in
      let start := local_ms / 60000 + 1 in
      let limit := year_later local_ms in
      (fun local => 60000 * (local - offset)) <$> search (machine_step f) limit (S (Z.to_nat (limit / 60000 + 1 - start))) start
  end.

Definition machine_wall (k : Z) : WallClock := local_reading (k + offset).
End machine.

Example next_runs :
  nextRun 0 "30 9 * * 1-5" 1767225600000 = Some 1767259800000 /\
  nextRunInTimezone (machine_wall 0) "30 9 * * 1-5" 1767225600000 = Some 1767259800000.
Proof. vm_compute. done. Qed.

(** ** The search finds the first minute that matches *)

(** [r] is the first minute after [after] that [ok] accepts, the limit in milliseconds excluded. *)
Definition first_match (ok : Z -> bool) (after limit : Z) (r : option Z) : Prop :=
  match r with
  | Some k => after < k /\ 60000 * k < limit /\ ok k = true /\ forall j, after < j < k -> ok j = false
  | None => forall j, after < j -> 60000 * j < limit -> ok j = false
  end.

Lemma search_first (ok : Z -> bool) (P : Z -> Prop) (step : Z -> option Z) (limit : Z) (guard : nat) (k : Z) :
  (forall j, P j -> match step j with
             | None => ok j = true
             | Some j' => j < j' /\ P j' /\ forall i, j <= i < j' -> ok i = false
             end) ->
  P k -> limit <= 60000 * (k + Z.of_nat guard) -> first_match ok (k - 1) limit (search step limit guard k).
Proof.
  intros Hs. revert k. induction guard as [|guard IH]; intros k HP Hl; cbn [search]; [intros j Hj Hlim; lia|].
  destruct (60000 * k <? limit) eqn:E; to_prop; [|intros j Hj Hlim; lia].
  specialize (Hs k HP). destruct (step k) as [k'|].
  - destruct Hs as (Hlt & HP' & Hno). specialize (IH k' HP' ltac:(lia)).
    destruct (search step limit guard k') as [r|]; unfold first_match in *.
    + destruct IH as (H1 & H2 & H3 & H4). split_and!; [lia|done|done|]. intros j Hj.
      destruct (decide (j < k')); [apply Hno; lia|apply H4; lia].
    + intros j Hj Hlim. destruct (decide (j < k')); [apply Hno; lia|apply IH; lia].
  - split_and!; [lia|done|done|]. intros j Hj. lia.
Qed.

(** What a search ends at is later, within the limit and right, whatever it jumped over. *)
Lemma search_sound (ok : Z -> bool) (step : Z -> option Z) (limit : Z) (guard : nat) (k r : Z) :
  (forall j, match step j with None => ok j = true | Some j' => j < j' end) ->
  search step limit guard k = Some r -> k <= r /\ 60000 * r < limit /\ ok r = true.
Proof.
  intros Hs. revert k. induction guard as [|guard IH]; intros k; cbn [search]; [done|].
  destruct (60000 * k <? limit) eqn:E; to_prop; [|done]. specialize (Hs k). destruct (step k) as [k'|].
  - intros (H1 & H2 & H3)%IH. split_and!; [lia|done|done].
  - intros [= <-]. split_and!; [lia|done|done].
Qed.

(** The fields of a parsed expression are sorted. *)
Lemma parse_field_sorted field lo hi l : parseField field lo hi = inr l -> StronglySorted Z.le l.
Proof.
  unfold parseField. destruct (parse_parts _ _ _) as [|v]; [done|]. intros [= <-].
  assert (StronglySorted (fun a b => (a <=? b) = true) (sort_by Z.leb (Prelude.dedup v))) as H.
  { apply sort_by_sorted; [intros a b; rewrite !Z.leb_le; lia|intros a b c; rewrite !Z.leb_le; lia]. }
  induction H as [|a l _ IH Hall]; constructor; [done|]. eapply List.Forall_impl; [|exact Hall]. intros b. apply Z.leb_le.
Qed.

Lemma parse_sorted e f : parseExpression e = inr f -> StronglySorted Z.le (minutes f) /\ StronglySorted Z.le (hours f).
Proof.
  unfold parseExpression. destruct (split_ws (trim e)) as [|a [|b [|c [|d [|w [|]]]]]]; try done.
  destruct (parseField a 0 59) as [|m] eqn:Ea; [done|]. destruct (parseField b 0 23) as [|h] eqn:Eb; [done|].
  destruct (parseField c 1 31); [done|]. destruct (parseField d 1 12); [done|]. destruct (parseField w 0 6); [done|].
  intros [= <-]. split; by eapply parse_field_sorted.
Qed.

(** [find(x => x > v)] on a sorted list. *)
Lemma find_next v l : StronglySorted Z.le l ->
  match List.find (fun x => v <? x) l with
  | Some n => In n l /\ v < n /\ forall x, In x l -> v < x -> n <= x
  | None => forall x, In x l -> x <= v
  end.
Proof.
  induction 1 as [|a l _ IH Hall]; simpl; [done|]. rewrite List.Forall_forall in Hall. destruct (v <? a) eqn:E; to_prop.
  - split_and!; [by left|done|]. intros x [<-|Hx] _; [lia|by apply Hall].
  - destruct (List.find _ l) as [n|].
    + destruct IH as (H1 & H2 & H3). split_and!; [by right|done|]. intros x [<-|Hx] Hv; [lia|by apply H3].
    + intros x [<-|Hx]; [done|by apply IH].
Qed.

Lemma includes_In_false (x : Z) l : includes x l = false <-> ~ In x l.
Proof. rewrite <- includes_In. by destruct (includes x l). Qed.

(** What the search needs of a timezone: readings in range; the clock runs through each
    hour it shows; the date never goes back; a date has one weekday; and every date ends,
    with at most one change of the clock between a minute of it and its end, of at most
    three hours forward. *)
Class ZoneLaws (wall : Z -> WallClock) : Prop := {
  wall_range k : 0 <= wc_minute (wall k) < 60 /\ 0 <= wc_hour (wall k) < 24 /\ 1 <= wc_dom (wall k) <= 31 /\ 1 <= wc_month (wall k) <= 12;
  wall_hour k j : 0 <= j < 60 - wc_minute (wall k) ->
    wc_hour (wall (k + j)) = wc_hour (wall k) /\ wc_minute (wall (k + j)) = wc_minute (wall k) + j;
  wall_date k k' : k <= k' -> localDateKey (wall k) <= localDateKey (wall k');
  wall_weekday k k' : localDateKey (wall k) = localDateKey (wall k') -> wc_dow (wall k) = wc_dow (wall k');
  wall_day k : exists fin change shift, k < fin /\ shift <= 180 /\ localDateKey (wall k) < localDateKey (wall fin) /\
    forall j, k <= j < fin -> localDateKey (wall j) = localDateKey (wall k) /\
      to_midnight wall j = fin - j + (if j <? change then shift else 0)
}.

Section laws.
Context (wall : Z -> WallClock) `{!ZoneLaws wall}.

Lemma walk_back_to fin startKey n s : 0 <= s <= Z.of_nat n ->
  localDateKey (wall (fin - 1)) <= startKey -> (forall j, fin <= j -> startKey < localDateKey (wall j)) ->
  walk_back wall n startKey (fin + s) = fin.
Proof.
  revert s. induction n as [|n IH]; intros s Hs Hbefore Hafter; cbn [walk_back]; [lia|].
  destruct (decide (s = 0)) as [->|].
  - rewrite Z.add_0_r. apply Z.leb_le in Hbefore. by rewrite Hbefore.
  - assert (localDateKey (wall (fin + s - 1)) <=? startKey = false) as -> by (apply Z.leb_gt, Hafter; lia).
    replace (fin + s - 1) with (fin + (s - 1)) by lia. apply IH; [lia|done|done].
Qed.

(** The jump to the next date lands on its first minute, whatever the clock does that day. *)
Lemma next_local_day k : k < startOfNextLocalDay wall k /\
  forall j, k <= j < startOfNextLocalDay wall k -> localDateKey (wall j) = localDateKey (wall k).
Proof.
  destruct (wall_day k) as (fin & change & shift & Hk & Hshift & Hkey & Hday). set (startKey := localDateKey (wall k)) in *.
  assert (forall j, fin <= j -> startKey < localDateKey (wall j)) as Hafter by (intros j Hj; pose proof (wall_date fin j Hj); lia).
  assert (localDateKey (wall (fin - 1)) <= startKey) as Hbefore by (destruct (Hday (fin - 1)); lia).
  enough (startOfNextLocalDay wall k = fin) as -> by (split; [done|intros j Hj; by apply Hday]).
  assert (exists s, hops wall 3 startKey (k + to_midnight wall k) = fin + s /\ 0 <= s <= 180) as (s & Hh & Hs).
  2:{ unfold startOfNextLocalDay. fold startKey. rewrite Hh. by apply walk_back_to. }
  assert (forall n s, 0 <= s -> hops wall (S n) startKey (fin + s) = fin + s) as Hstop.
  { intros n s Hs. cbn [hops]. by rewrite (proj2 (Z.leb_gt _ _) (Hafter (fin + s) ltac:(lia))). }
  destruct (Hday k ltac:(lia)) as [_ Hmid]. destruct (k <? change) eqn:Ec; to_prop.
  2:{ exists 0. rewrite Hmid. replace (k + (fin - k + 0)) with (fin + 0) by lia. split; [by apply Hstop|lia]. }
  destruct (decide (0 <= shift)).
  { exists shift. rewrite Hmid. replace (k + (fin - k + shift)) with (fin + shift) by lia. split; [by apply Hstop|lia]. }
  exists 0. split; [|lia]. assert (change <= fin + shift) as Hc.
  { destruct (Hday (Z.min change fin - 1) ltac:(lia)) as [_ Hm]. rewrite (proj2 (Z.ltb_lt _ _)) in Hm by lia.
    unfold to_midnight in Hm. pose proof (wall_range (Z.min change fin - 1)). lia. }
  rewrite Hmid. replace (k + (fin - k + shift)) with (fin + shift) by lia. destruct (Hday (fin + shift) ltac:(lia)) as [Hk2 Hm2].
  cbn [hops]. rewrite Hk2, Z.leb_refl, Hm2, (proj2 (Z.ltb_ge _ _)) by lia.
  replace (fin + shift + (fin - (fin + shift) + 0)) with (fin + 0) by lia.
  rewrite (proj2 (Z.leb_gt _ _) (Hafter (fin + 0) ltac:(lia))). done.
Qed.

Lemma same_date f k j : localDateKey (wall j) = localDateKey (wall k) -> date_ok f (wall j) = date_ok f (wall k).
Proof.
  intros H. pose proof (wall_weekday _ _ H) as Hw. pose proof (wall_range j). pose proof (wall_range k). unfold localDateKey in H. unfold date_ok.
  assert (wc_month (wall j) = wc_month (wall k) /\ wc_dom (wall j) = wc_dom (wall k)) as [-> ->] by lia. by rewrite Hw.
Qed.

Lemma zone_step_sound f k : match zone_step wall f k with None => reading_ok f (wall k) = true | Some k' => k < k' end.
Proof.
  unfold zone_step. pose proof (wall_range k) as Hr. unfold reading_ok.
  destruct (date_ok f (wall k)); cbn [negb]; [|by apply next_local_day].
  destruct (includes (wc_hour (wall k)) (hours f)); cbn [negb]; [|lia].
  destruct (includes (wc_minute (wall k)) (minutes f)); cbn [negb]; [done|].
  destruct (List.find _ (minutes f)) as [n|] eqn:E; [|lia]. apply List.find_some in E as [_ E]. to_prop. lia.
Qed.

Lemma zone_step_ok f k : StronglySorted Z.le (minutes f) -> (forall m, In m (minutes f) -> m <= 59) ->
  match zone_step wall f k with
  | None => reading_ok f (wall k) = true
  | Some k' => k < k' /\ forall j, k <= j < k' -> reading_ok f (wall j) = false
  end.
Proof.
  intros Hs Hm. unfold zone_step. pose proof (wall_range k) as Hr. unfold reading_ok.
  destruct (date_ok f (wall k)) eqn:Ed; cbn [negb].
  2:{ destruct (next_local_day k) as [H1 H2]. split; [done|]. intros j Hj. rewrite (same_date f k j) by by apply H2. by rewrite Ed, andb_false_r. }
  assert (forall j, k <= j < k + (60 - wc_minute (wall k)) -> wc_hour (wall j) = wc_hour (wall k) /\ wc_minute (wall j) = wc_minute (wall k) + (j - k)) as Hhour.
  { intros j Hj. replace j with (k + (j - k)) at 1 2 by lia. apply wall_hour. lia. }
  destruct (includes (wc_hour (wall k)) (hours f)) eqn:Eh; cbn [negb].
  2:{ split; [lia|]. intros j Hj. destruct (Hhour j Hj) as [-> _]. by rewrite Eh, andb_false_r. }
  destruct (includes (wc_minute (wall k)) (minutes f)) eqn:Em; cbn [negb]; [done|]. apply includes_In_false in Em.
  pose proof (find_next (wc_minute (wall k)) (minutes f) Hs) as Hf. destruct (List.find _ (minutes f)) as [n|].
  - destruct Hf as (Hin & Hlt & Hmin). specialize (Hm n Hin). split; [lia|]. intros j Hj. destruct (Hhour j ltac:(lia)) as [_ ->].
    assert (includes (wc_minute (wall k) + (j - k)) (minutes f) = false) as ->; [|done]. apply includes_In_false. intros Hx.
    destruct (decide (j = k)) as [->|]; [by rewrite Z.sub_diag, Z.add_0_r in Hx|]. specialize (Hmin _ Hx ltac:(lia)). lia.
  - split; [lia|]. intros j Hj. destruct (Hhour j ltac:(lia)) as [_ ->].
    assert (includes (wc_minute (wall k) + (j - k)) (minutes f) = false) as ->; [|done]. apply includes_In_false. intros Hx.
    destruct (decide (j = k)) as [->|]; [by rewrite Z.sub_diag, Z.add_0_r in Hx|]. specialize (Hf _ Hx). lia.
Qed.
End laws.

(** ** Timezones with one change of the clock *)

Lemma local_reading_range L : 0 <= wc_minute (local_reading L) < 60 /\ 0 <= wc_hour (local_reading L) < 24 /\
  1 <= wc_dom (local_reading L) <= 31 /\ 1 <= wc_month (local_reading L) <= 12.
Proof.
  cbn. pose proof (civil_range (L / 1440)). pose proof (days_in_month_bounds (year_of (L / 1440)) (month_of (L / 1440))).
  pose proof (Z.mod_pos_bound L 60 ltac:(lia)). pose proof (Z.mod_pos_bound L 1440 ltac:(lia)).
  assert (0 <= L mod 1440 / 60 < 24) by (split; [apply Z.div_pos|apply Z.div_lt_upper_bound]; lia). lia.
Qed.

Lemma local_key L : localDateKey (local_reading L) = date_key (L / 1440).
Proof. done. Qed.

Lemma local_minutes L : wc_hour (local_reading L) * 60 + wc_minute (local_reading L) = L mod 1440.
Proof.
  cbn. assert (L mod 60 = (L mod 1440) mod 60) as ->; [|pose proof (Z.div_mod (L mod 1440) 60 ltac:(lia)); lia].
  rewrite (Z.div_mod L 1440) at 1 by lia. replace (1440 * (L / 1440) + L mod 1440) with (L mod 1440 + (24 * (L / 1440)) * 60) by lia. by rewrite Z.mod_add.
Qed.

(** Within an hour the hour and the date do not change. *)
Lemma same_hour L j : 0 <= j < 60 - L mod 60 -> (L + j) / 1440 = L / 1440 /\ (L + j) mod 60 = L mod 60 + j /\ (L + j) mod 1440 / 60 = L mod 1440 / 60.
Proof.
  intros H. pose proof (Z.mod_pos_bound L 60 ltac:(lia)). pose proof (Z.div_mod L 60 ltac:(lia)). set (h := L / 60) in *.
  assert ((L + j) / 60 = h) as Eh by (symmetry; apply Z.div_unique with (L mod 60 + j); lia).
  assert (forall x, x / 1440 = x / 60 / 24) as Hd by (intros x; by rewrite Z.div_div).
  assert (forall x, x mod 1440 / 60 = (x / 60) mod 24) as Hm.
  { intros x. replace 1440 with (60 * 24) by done. rewrite Z.rem_mul_r by lia. rewrite Z.mul_comm, Z.div_add by lia.
    rewrite (Z.div_small (x mod 60)) by (apply Z.mod_pos_bound; lia). lia. }
  rewrite !Hd, !Hm, Eh. split_and!; [done| |done]. symmetry. apply Z.mod_unique with h; lia.
Qed.

(** The offset is [o1] before minute [change] of the epoch and [o2] from it on. *)
Definition change_local (change o1 o2 k : Z) : Z := k + (if k <? change then o1 else o2).
Definition change_zone (change o1 o2 : Z) (k : Z) : WallClock := local_reading (change_local change o1 o2 k).

Section change_zone.
Context (change o1 o2 : Z).
Context (Hour : (change + o1) mod 60 = 0).
Context (Forward : o2 - o1 <= 180) (Same : (change - 1 + o1) / 1440 <= (change + o2) / 1440).

#[local] Notation local := (change_local change o1 o2).
#[local] Notation day k := (local k / 1440).

Lemma local_cases k : k < change /\ local k = k + o1 \/ change <= k /\ local k = k + o2.
Proof. unfold change_local. destruct (k <? change) eqn:E; to_prop; lia. Qed.

Lemma local_day_mono k k' : k <= k' -> day k <= day k'.
Proof.
  intros H. destruct (local_cases k) as [[Hk ->]|[Hk ->]], (local_cases k') as [[Hk' ->]|[Hk' ->]].
  - apply Z.div_le_mono; lia.
  - transitivity ((change - 1 + o1) / 1440); [apply Z.div_le_mono; lia|]. transitivity ((change + o2) / 1440); [done|apply Z.div_le_mono; lia].
  - lia.
  - apply Z.div_le_mono; lia.
Qed.

Lemma change_hour k j : 0 <= j < 60 - local k mod 60 -> local (k + j) = local k + j.
Proof.
  intros H. destruct (local_cases k) as [[Hk E]|[Hk E]], (local_cases (k + j)) as [[Hk' E']|[Hk' E']]; rewrite E' ; rewrite E in *; try lia.
  exfalso. pose proof (Z.div_mod (k + o1) 60 ltac:(lia)). pose proof (Z.mod_pos_bound (k + o1) 60 ltac:(lia)).
  pose proof (Z.div_mod (change + o1) 60 ltac:(lia)). assert ((k + o1) / 60 < (change + o1) / 60) by nia. nia.
Qed.

Lemma change_to_midnight k : to_midnight (change_zone change o1 o2) k = 1440 * (day k + 1) - local k.
Proof.
  unfold to_midnight. change (24 * 60) with 1440. unfold change_zone. rewrite local_minutes. pose proof (Z.div_mod (local k) 1440 ltac:(lia)). lia.
Qed.

Lemma date_end L d : d = L / 1440 <-> 1440 * d <= L < 1440 * (d + 1).
Proof.
  split; [intros ->; pose proof (Z.div_mod L 1440 ltac:(lia)); pose proof (Z.mod_pos_bound L 1440 ltac:(lia)); lia|].
  intros H. apply Z.div_unique with (L - 1440 * d); lia.
Qed.

Lemma change_day k : exists fin shift, k < fin /\ shift <= 180 /\ day k < day fin /\
  forall j, k <= j < fin -> day j = day k /\ 1440 * (day k + 1) - local j = fin - j + (if j <? change then shift else 0).
Proof.
  set (d := day k). pose proof (proj1 (date_end (local k) d) eq_refl) as Hd. set (e := 1440 * (d + 1)) in *.
  assert (forall j, d <= day j -> local j < e -> day j = d) as Hsame.
  { intros j Hj Hlt. symmetry. apply date_end. split; [|exact Hlt]. pose proof (proj1 (date_end (local j) _) eq_refl). lia. }
  assert (forall j, e <= local j -> d < day j) as Hlater.
  { intros j Hj. pose proof (proj1 (date_end (local j) _) eq_refl). lia. }
  assert (forall fin shift, k < fin -> shift <= 180 -> e <= local fin ->
    (forall j, k <= j < fin -> local j < e /\ e - local j = fin - j + (if j <? change then shift else 0)) ->
    exists fin shift, k < fin /\ shift <= 180 /\ d < day fin /\ forall j, k <= j < fin -> day j = d /\ e - local j = fin - j + (if j <? change then shift else 0)) as Hdone.
  { intros fin shift H1 H2 H3 H4. exists fin, shift. split_and!; [done|done|by apply Hlater|]. intros j Hj. destruct (H4 j Hj).
    split; [|done]. apply Hsame; [apply local_day_mono; lia|done]. }
  pose proof (proj1 (date_end (change - 1 + o1) _) eq_refl) as Hb. pose proof (proj1 (date_end (change + o2) _) eq_refl) as Ha.
  destruct (local_cases k) as [[Hk Ek]|[Hk Ek]].
  2:{ apply (Hdone (e - o2) 0); [lia|lia|destruct (local_cases (e - o2)); lia|].
      intros j Hj. destruct (local_cases j); destruct (j <? change); lia. }
  destruct (decide (e - o1 < change)).
  { apply (Hdone (e - o1) 0); [lia|lia|destruct (local_cases (e - o1)); lia|].
    intros j Hj. destruct (local_cases j); destruct (j <? change); lia. }
  assert (d <= (change + o2) / 1440) as Hdc.
  { pose proof (local_day_mono k change ltac:(lia)) as Hm. destruct (local_cases change) as [|[_ E]]; [lia|]. by rewrite E in Hm. }
  destruct (decide (change + o2 < e)).
  - apply (Hdone (e - o2) (o2 - o1)); [lia|lia|destruct (local_cases (e - o2)); lia|].
    intros j Hj. destruct (local_cases j), (j <? change) eqn:E; to_prop; lia.
  - apply (Hdone change (e - o1 - change)); [lia|lia|destruct (local_cases change); lia|].
    intros j Hj. destruct (local_cases j), (j <? change) eqn:E; to_prop; lia.
Qed.

#[export] Instance change_zone_laws : ZoneLaws (change_zone change o1 o2).
Proof.
  split.
  - intros k. apply local_reading_range.
  - intros k j Hj. unfold change_zone in *. cbn [wc_minute wc_hour local_reading] in *. rewrite change_hour by done.
    destruct (same_hour (local k) j Hj) as (_ & H1 & H2). done.
  - intros k k' H. unfold change_zone. rewrite !local_key. by apply date_key_le, local_day_mono.
  - intros k k'. unfold change_zone. rewrite !local_key. intros H%date_key_inj. cbn. by rewrite H.
  - intros k. destruct (change_day k) as (fin & shift & H1 & H2 & H3 & H4). exists fin, change, shift. split_and!; [done|done| |].
    + unfold change_zone. rewrite !local_key. by apply date_key_lt.
    + intros j Hj. destruct (H4 j Hj) as [H5 H6]. unfold change_zone at 1 2. rewrite !local_key, H5. split; [done|].
      rewrite change_to_midnight, H5. done.
Qed.
End change_zone.

(** A zone at a fixed offset, and the machine's. *)
Lemma machine_change_zone offset k : machine_wall offset k = change_zone (- offset) offset offset k.
Proof. unfold machine_wall, change_zone, change_local. by destruct (_ <? _). Qed.

Lemma fixed_zone_laws offset : ZoneLaws (change_zone (- offset) offset offset).
Proof. apply change_zone_laws; rewrite ?Z.add_opp_diag_l; try done; [lia|]. apply Z.div_le_mono; lia. Qed.

(** ** The searches are exact *)

(** The expressions whose minutes are minutes: the parser does not check it. *)
Definition minutes_in_range (expression : string) : bool :=
  match parseExpression expression with inl _ => true | inr f => forallb (fun m => m <=? 59) (minutes f) end.

(** C38: in the configured timezone, in every zone whose clock follows the laws, changes of the clock by up
    to three hours included, a reported next run is a minute after the given time and within 366
    days at which the expression matches the wall clock. For an expression without a minute above
    59 it is exactly the first such minute, and none is reported only when there is none: the jumps
    over dates, hours and minutes skip nothing and the guard of the loop never cuts it. The parser
    lets a minute above 59 through, and the search may then jump over matches
    ([minute_out_of_range]). *)
Theorem next_run_is_first_match (wall : Z -> WallClock) `{!ZoneLaws wall} (expression : string) (from : Z) :
  exists r, nextRunInTimezone wall expression from = Z.mul 60000 <$> r /\
    (forall k, r = Some k -> from / 60000 < k /\ 60000 * k < from + 366 * 24 * 60 * 60000 /\ matches wall expression (60000 * k) = true) /\
    (minutes_in_range expression = true ->
     first_match (fun k => matches wall expression (60000 * k)) (from / 60000) (from + 366 * 24 * 60 * 60000) r).
Proof.
  unfold minutes_in_range, nextRunInTimezone.
  assert (forall k, matches wall expression (60000 * k) = match parseExpression expression with inl _ => false | inr f => reading_ok f (wall k) end) as E.
  { intros k. unfold matches. by rewrite Z.mul_comm, Z.div_mul by lia. }
  destruct (parseExpression expression) as [e|f] eqn:Ep.
  { exists None. split_and!; [done|done|]. intros _ j _ _. by rewrite E. }
  eexists. split; [done|]. destruct (parse_sorted _ _ Ep) as [Hs _]. split.
  { intros k Hk. destruct (search_sound (reading_ok f ∘ wall) _ _ _ _ _ (zone_step_sound wall f) Hk) as (H1 & H2 & H3).
    rewrite E. split_and!; [lia|done|exact H3]. }
  intros Hm. rewrite forallb_forall in Hm.
  pose proof (search_first (reading_ok f ∘ wall) (fun _ => True) (zone_step wall f) (from + 366 * 24 * 60 * 60000) (Z.to_nat 599999) (from / 60000 + 1)) as H.
  replace (from / 60000 + 1 - 1) with (from / 60000) in H by lia.
  assert (first_match (reading_ok f ∘ wall) (from / 60000) (from + 366 * 24 * 60 * 60000)
    (search (zone_step wall f) (from + 366 * 24 * 60 * 60000) (Z.to_nat 599999) (from / 60000 + 1))) as Hf.
  { apply H.
    - intros j _. pose proof (zone_step_ok wall f j Hs ltac:(intros m Hin; by apply Z.leb_le, Hm)) as Hj.
      destruct (zone_step wall f j); [by destruct Hj|done].
    - done.
    - rewrite Z2Nat.id by lia. pose proof (Z.div_mod from 60000 ltac:(lia)). pose proof (Z.mod_pos_bound from 60000 ltac:(lia)). lia. }
  destruct (search _ _ _ _) as [r|]; cbn in Hf |- *.
  - destruct Hf as (H1 & H2 & H3 & H4). rewrite E. split_and!; [done|done|done|]. intros j Hj. rewrite E. by apply H4.
  - intros j H1 H2. rewrite E. by apply Hf.
Qed.

(** New York from its change to summer time on 2026-03-08 at 07:00 UTC. *)
Definition demo_new_york : Z -> WallClock := change_zone 29549220 (-300) (-240).

Lemma next_run_is_first_match_witness :
  nextRunInTimezone demo_new_york "30 2 * * *" 1772946000000 = Some 1773037800000 /\
  minutes_in_range "30 2 * * *" = true /\
  exists r, nextRunInTimezone demo_new_york "30 2 * * *" 1772946000000 = Z.mul 60000 <$> r /\
    first_match (fun k => matches demo_new_york "30 2 * * *" (60000 * k)) (1772946000000 / 60000) (1772946000000 + 366 * 24 * 60 * 60000) r.
Proof.
  split; [vm_compute; reflexivity|]. split; [reflexivity|].
  assert (ZoneLaws demo_new_york) by (apply change_zone_laws; [reflexivity|lia|vm_compute; congruence]).
  destruct (next_run_is_first_match demo_new_york "30 2 * * *" 1772946000000) as (r & H1 & _ & H2). exists r. split; [exact H1|].
  apply H2. reflexivity.
Defined.

(** The parser accepts a minute 75; the search jumps to it over the next full hour, and on from there. *)
Example minute_out_of_range :
  nextRunInTimezone demo_new_york "0,75 * * * *" 60000 = None /\ matches demo_new_york "0,75 * * * *" 3600000 = true.
Proof. vm_compute. done. Qed.

(** ** The machine's own timezone *)

Lemma same_day L j : L / 1440 * 1440 <= j < (L / 1440 + 1) * 1440 -> j / 1440 = L / 1440 /\ j mod 1440 = j - L / 1440 * 1440.
Proof.
  intros H. split; symmetry; [apply Z.div_unique with (j - L / 1440 * 1440)|apply Z.mod_unique with (L / 1440)]; lia.
Qed.

Lemma next_day_start_ok L : next_day_start L = (L / 1440 + 1) * 1440.
Proof.
  unfold next_day_start. rewrite make_day_date. pose proof (make_day_civil (L / 1440)) as H. rewrite make_day_date in H. lia.
Qed.

(** [setMonth] keeps the date: the next month has it. *)
Definition keeps_date (day : Z) : bool := date_of (make_day (year_of day) (month_of day) (date_of day)) =? date_of day.

#[local] Strategy opaque [make_day month_of date_of year_of].
Lemma next_month_start_ok L : keeps_date (L / 1440) = true ->
  L < next_month_start L /\ date_of (next_month_start L / 1440) = 1 /\
  forall j, L <= j < next_month_start L -> month_of (j / 1440) = month_of (L / 1440).
Proof.
  set (day := L / 1440). intros H%Z.eqb_eq. destruct (month_end day) as (H1 & H2 & _).
  set (n := days_in_month (year_of day) (month_of day) - date_of day + 1) in *.
  pose proof (civil_range day) as Hr. pose proof (Z.div_mod L 1440 ltac:(lia)) as HL. pose proof (Z.mod_pos_bound L 1440 ltac:(lia)). fold day in HL.
  assert (next_month_start L = (day + n) * 1440) as ->.
  { unfold next_month_start. fold day. replace (month_of day - 1 + 1) with (month_of day) by lia.
    set (moved := make_day (year_of day) (month_of day) (date_of day)) in *. pose proof (make_day_civil moved) as Hmk. rewrite make_day_date, H in Hmk.
    unfold moved in Hmk at 3. rewrite (make_day_date (year_of day)), H1 in Hmk. lia. }
  rewrite Z.div_mul by lia. split_and!; [lia|done|]. intros j Hj.
  assert (day <= j / 1440 < day + n) as Hjd by (split; [apply Z.div_le_lower_bound|apply Z.div_lt_upper_bound]; lia).
  destruct (same_month day (j / 1440 - day)) as (_ & E & _); [lia|lia|]. by replace (day + (j / 1440 - day)) with (j / 1440) in E by lia.
Qed.

Section machine_ok.
Context (f : Fields) (Sorted_minutes : StronglySorted Z.le (minutes f)) (Sorted_hours : StronglySorted Z.le (hours f)).
Context (Minutes : forall m, In m (minutes f) -> m <= 59) (Hours : forall h, In h (hours f) -> h <= 23).

(** Where the walk may stand: a month it does not leave, or one that [setMonth] leaves well. *)
Definition walk_ok (L : Z) : Prop := includes (month_of (L / 1440)) (months f) = true \/ keeps_date (L / 1440) = true.

#[local] Notation ok L := (reading_ok f (local_reading L)).

Lemma first_of_month_ok day : date_of day = 1 -> keeps_date day = true.
Proof.
  intros H. unfold keeps_date. rewrite H. destruct (month_end day) as (-> & E & _). by apply Z.eqb_eq.
Qed.

Lemma next_day_walk day : includes (month_of day) (months f) = true -> walk_ok ((day + 1) * 1440).
Proof.
  intros H. unfold walk_ok. rewrite Z.div_mul by lia. destruct (civil_next day) as [(_ & _ & -> & _)|(_ & E & _)]; [by left|].
  right. by apply first_of_month_ok.
Qed.

Lemma wrong_hour L : includes (L mod 1440 / 60) (hours f) = false -> ok L = false.
Proof. intros H. unfold reading_ok. cbn [local_reading wc_hour]. by rewrite H, andb_false_r. Qed.
Lemma wrong_minute L : includes (L mod 60) (minutes f) = false -> ok L = false.
Proof. intros H. unfold reading_ok. cbn [local_reading wc_minute]. by rewrite H. Qed.

Lemma hour_of_day L : L mod 1440 / 60 = L / 60 - 24 * (L / 1440).
Proof.
  rewrite (Z.div_mod L 1440) at 2 by lia. replace (1440 * (L / 1440) + L mod 1440) with (24 * (L / 1440) * 60 + L mod 1440) by lia.
  rewrite Z.div_add_l by lia. lia.
Qed.

(** The jump to the next hour of the list skips, past this hour, only hours not in it. *)
Lemma next_hour_ok L : includes (month_of (L / 1440)) (months f) = true ->
  (L / 60 + 1) * 60 <= next_hour f L /\ walk_ok (next_hour f L) /\
  forall j, (L / 60 + 1) * 60 <= j < next_hour f L -> ok j = false.
Proof.
  intros Hmonth. pose proof (Z.div_mod L 1440 ltac:(lia)) as HL. pose proof (Z.mod_pos_bound L 1440 ltac:(lia)) as Hb.
  pose proof (Z.div_mod L 60 ltac:(lia)) as Hh. pose proof (Z.mod_pos_bound L 60 ltac:(lia)) as Hm.
  pose proof (hour_of_day L) as Ho. unfold next_hour. pose proof (find_next (L mod 1440 / 60) (hours f) Sorted_hours) as Hf.
  assert (L / 60 < 24 * (L / 1440 + 1)) by lia.
  assert (forall j, (L / 60 + 1) * 60 <= j < (L / 1440 + 1) * 1440 -> L mod 1440 / 60 < j mod 1440 / 60 /\ j = L / 1440 * 1440 + j mod 1440 /\
    60 * (j mod 1440 / 60) <= j mod 1440) as Hj.
  { intros j Hj. destruct (same_day L j ltac:(lia)) as [Ed Em]. rewrite (hour_of_day j), Ed, Ho.
    pose proof (Z.div_mod j 60 ltac:(lia)). pose proof (Z.mod_pos_bound j 60 ltac:(lia)). lia. }
  destruct (List.find _ (hours f)) as [n|].
  - destruct Hf as (Hin & Hlt & Hmin). specialize (Hours n Hin). split; [lia|].
    destruct (same_day L (L / 1440 * 1440 + n * 60) ltac:(lia)) as [Ed _]. split; [unfold walk_ok; rewrite Ed; by left|].
    intros j Hjr. destruct (Hj j ltac:(lia)) as (Hgt & Ej & Hle). apply wrong_hour, includes_In_false. intros Hx. specialize (Hmin _ Hx Hgt). lia.
  - rewrite next_day_start_ok. split; [lia|]. split; [by apply next_day_walk|]. intros j Hjr. apply wrong_hour, includes_In_false.
    intros Hx. destruct (Hj j Hjr) as (Hgt & _). specialize (Hf _ Hx). lia.
Qed.

Lemma machine_step_ok L : walk_ok L ->
  match machine_step f L with
  | None => ok L = true
  | Some L' => L < L' /\ walk_ok L' /\ forall j, L <= j < L' -> ok j = false
  end.
Proof.
  intros HP. unfold machine_step. cbn [local_reading wc_month wc_dom wc_dow wc_hour wc_minute].
  pose proof (Z.div_mod L 1440 ltac:(lia)) as HL. pose proof (Z.mod_pos_bound L 1440 ltac:(lia)) as Hb.
  pose proof (Z.div_mod L 60 ltac:(lia)) as HL60. pose proof (Z.mod_pos_bound L 60 ltac:(lia)) as Hb60.
  destruct (includes (month_of (L / 1440)) (months f)) eqn:Em; cbn [negb].
  2:{ destruct HP as [HP|HP]; [congruence|]. destruct (next_month_start_ok L HP) as (H1 & H2 & H3). split_and!; [done| |].
      - right. by apply first_of_month_ok.
      - intros j Hj. unfold reading_ok, date_ok. cbn [local_reading wc_month]. by rewrite (H3 j Hj), Em, !andb_false_r. }
  destruct (includes (date_of (L / 1440)) (daysOfMonth f)) eqn:Edom; cbn [negb orb].
  2:{ rewrite next_day_start_ok. split_and!; [lia|by apply next_day_walk|]. intros j Hj. destruct (same_day L j ltac:(lia)) as [E _].
      unfold reading_ok, date_ok. cbn [local_reading wc_dom]. by rewrite E, Edom, !andb_false_r. }
  destruct (includes (weekday (L / 1440)) (daysOfWeek f)) eqn:Edow; cbn [negb orb].
  2:{ rewrite next_day_start_ok. split_and!; [lia|by apply next_day_walk|]. intros j Hj. destruct (same_day L j ltac:(lia)) as [E _].
      unfold reading_ok, date_ok. cbn [local_reading wc_dow]. by rewrite E, Edow, !andb_false_r. }
  destruct (next_hour_ok L Em) as (Hn1 & Hn2 & Hn3).
  assert (forall j, L <= j < (L / 60 + 1) * 60 -> j / 1440 = L / 1440 /\ j mod 60 = L mod 60 + (j - L) /\ j mod 1440 / 60 = L mod 1440 / 60) as Hsame.
  { intros j Hj. replace j with (L + (j - L)) at 1 2 4 by lia. apply same_hour. lia. }
  destruct (includes (L mod 1440 / 60) (hours f)) eqn:Eh; cbn [negb].
  2:{ split_and!; [lia|done|]. intros j Hj. destruct (decide (j < (L / 60 + 1) * 60)); [|apply Hn3; lia].
      destruct (Hsame j ltac:(lia)) as (_ & _ & E). apply wrong_hour. by rewrite E. }
  destruct (includes (L mod 60) (minutes f)) eqn:Emin; cbn [negb].
  { unfold reading_ok, date_ok. cbn [local_reading wc_minute wc_hour wc_month wc_dom wc_dow]. by rewrite Emin, Eh, Em, Edom, Edow. }
  apply includes_In_false in Emin. pose proof (find_next (L mod 60) (minutes f) Sorted_minutes) as Hf.
  assert (forall j, L <= j < (L / 60 + 1) * 60 -> (forall x, In x (minutes f) -> L mod 60 < x -> L mod 60 + (j - L) < x) -> ok j = false) as Hmin.
  { intros j Hj Hx. destruct (Hsame j Hj) as (_ & E & _). apply wrong_minute. rewrite E. apply includes_In_false. intros Hin.
    destruct (decide (j = L)) as [->|]; [by rewrite Z.sub_diag, Z.add_0_r in Hin|]. specialize (Hx _ Hin ltac:(lia)). lia. }
  destruct (List.find _ (minutes f)) as [n|].
  - destruct Hf as (Hin & Hlt & Hle). specialize (Minutes n Hin). split_and!; [lia| |].
    + destruct (Hsame (L / 60 * 60 + n) ltac:(lia)) as [E _]. unfold walk_ok. rewrite E. by left.
    + intros j Hj. apply Hmin; [lia|]. intros x Hx Hgt. specialize (Hle x Hx Hgt). lia.
  - split_and!; [lia|done|]. intros j Hj. destruct (decide (j < (L / 60 + 1) * 60)); [|apply Hn3; lia].
    apply Hmin; [lia|]. intros x Hx Hgt. specialize (Hf x Hx). lia.
Qed.
End machine_ok.

(** The hours and minutes are in range, and the first candidate's month is in the
    expression or has a next month long enough for its date. *)
Definition machine_ready (offset : Z) (expression : string) (from : Z) : bool :=
  match parseExpression expression with
  | inl _ => true
  | inr f =>
      let day := ((from + offset * 60000) / 60000 + 1) / 1440 in
      forallb (fun m => m <=? 59) (minutes f) && forallb (fun h => h <=? 23) (hours f) &&
      (includes (month_of day) (months f) || keeps_date day)
  end.

(** In the machine's own timezone, at a fixed offset, the next run is exactly the first
    matching minute within a calendar year, unless the first candidate is on a date that the
    next month does not have, in a month the expression excludes. *)
Theorem machine_next_run_is_first_match (offset : Z) (expression : string) (from : Z) :
  machine_ready offset expression from = true ->
  exists r, nextRun offset expression from = Z.mul 60000 <$> r /\
    first_match (fun k => matches (machine_wall offset) expression (60000 * k)) (from / 60000)
      (year_later (from + offset * 60000) - offset * 60000) r.
Proof.
  unfold machine_ready, nextRun. intros Hm.
  assert (forall k, matches (machine_wall offset) expression (60000 * k) =
    match parseExpression expression with inl _ => false | inr f => reading_ok f (local_reading (k + offset)) end) as E.
  { intros k. unfold matches. by rewrite Z.mul_comm, Z.div_mul by lia. }
  destruct (parseExpression expression) as [e|f] eqn:Ep.
  { exists None. split; [done|]. intros j _ _. by rewrite E. }
  destruct (parse_sorted _ _ Ep) as [Hs1 Hs2]. rewrite !andb_true_iff, !forallb_forall, orb_true_iff in Hm. destruct Hm as [[H1 H2] H3].
  set (local_ms := from + offset * 60000) in *. set (start := local_ms / 60000 + 1) in *. set (limit := year_later local_ms).
  assert (start = from / 60000 + offset + 1) as Estart by (unfold start, local_ms; rewrite Z.div_add by lia; lia).
  pose proof (search_first (fun L => reading_ok f (local_reading L)) (walk_ok f) (machine_step f) limit (S (Z.to_nat (limit / 60000 + 1 - start))) start) as H.
  assert (first_match (fun L => reading_ok f (local_reading L)) (start - 1) limit
    (search (machine_step f) limit (S (Z.to_nat (limit / 60000 + 1 - start))) start)) as Hf.
  { apply H; [|exact H3|].
    - intros j Hj. apply machine_step_ok; [done|done| | |done]; intros x Hx; by apply Z.leb_le; auto.
    - pose proof (Z.div_mod limit 60000 ltac:(lia)). pose proof (Z.mod_pos_bound limit 60000 ltac:(lia)). lia. }
  exists ((fun local => local - offset) <$> search (machine_step f) limit (S (Z.to_nat (limit / 60000 + 1 - start))) start).
  split; [by destruct (search _ _ _ _)|]. destruct (search _ _ _ _) as [L|]; cbn in Hf |- *.
  - destruct Hf as (F1 & F2 & F3 & F4). rewrite E. replace (L - offset + offset) with L by lia. split_and!; [lia|lia|done|].
    intros j Hj. rewrite E. apply F4. lia.
  - intros j F1 F2. rewrite E. apply Hf; lia.
Qed.

Lemma machine_next_run_is_first_match_witness :
  nextRun 60 "0 9 29 2 *" 1772064000000 = None /\
  exists r, nextRun 60 "0 9 29 2 *" 1772064000000 = Z.mul 60000 <$> r /\
    first_match (fun k => matches (machine_wall 60) "0 9 29 2 *" (60000 * k)) (1772064000000 / 60000)
      (year_later (1772064000000 + 60 * 60000) - 60 * 60000) r.
Proof. split; [vm_compute; reflexivity|]. apply (machine_next_run_is_first_match 60 "0 9 29 2 *" 1772064000000). reflexivity. Defined.

(** From a date the next month does not have, [setMonth] lands two months later: on
    2026-01-31 the search skips February, and finds no first of February within the year. *)
Example month_skipped :
  nextRun 0 "0 0 1 2 *" 1769860800000 = None /\ matches (machine_wall 0) "0 0 1 2 *" 1769904000000 = true /\
  nextRunInTimezone (machine_wall 0) "0 0 1 2 *" 1769860800000 = Some 1769904000000.
Proof. vm_compute. done. Qed.

(** The parser accepts an hour 30; the machine's search then jumps over a matching hour of the next day. *)
Example hour_out_of_range :
  nextRun 0 "0 5,30 * * *" 1767247200000 = None /\ matches (machine_wall 0) "0 5,30 * * *" 1767330000000 = true.
Proof. vm_compute. done. Qed.
