(* ===== verification/CronJobs.v ===== *)
(** * The jobs of the cron scheduler (lib/cron-scheduler.ts)

    The job table with the intervals of the runtime. Interval callbacks are steps of their
    own, named by the handle [setInterval] gave, so that a cleared interval does nothing. *)
From S2P Require Export Cron.
From S2P Require Import JsMap.

(** [Every]: an [@every] interval. [Standard]: the 30-second check, with the last minute it
    evaluated. *)
Inductive Interval := Every (id : string) (ms : Z) | Standard (id expression : string) (lastTickMinute : Z).

Record CronJob := mkJob { expression : string; lastRun : option Z; nextRun_at : Z; handle : nat }.

Record CronScheduler := mkCron { jobs : list (string * CronJob); intervals : list (nat * Interval); nextHandle : nat }.
Definition new_cron : CronScheduler := mkCron [] [] 0.

Record Fire := mkFire { f_handle : nat; f_id : string; f_expression : option string; f_time : Z }.

Section cron.
(** The configured timezone, and the machine's offset, used without one. *)
Context (timezone : option (Z -> WallClock)) (offset : Z).

Definition cron_wall : Z -> WallClock := default (machine_wall offset) timezone.
Definition cron_next (e : string) (from : Z) : option Z :=
  match timezone with Some wall => nextRunInTimezone wall e from | None => nextRun offset e from end.

Definition cancel (id : string) (s : CronScheduler) : CronScheduler :=
  match map_get id (jobs s) with
  | Some job => mkCron (map_delete id (jobs s)) (map_delete (handle job) (intervals s)) (nextHandle s)
  | None => s
  end.

Definition cancelAll (s : CronScheduler) : CronScheduler :=
  mkCron [] (foldl (fun l job => map_delete (handle job) l) (intervals s) (map_values (jobs s))) (nextHandle s).

Definition add_job (id e : string) (next : Z) (i : Interval) (s : CronScheduler) : CronScheduler :=
  mkCron (map_set id (mkJob e None next (nextHandle s)) (jobs s)) (intervals s ++ [(nextHandle s, i)]) (S (nextHandle s)).

(** [inl]: what it throws; the previous job of the same id is gone then too. *)
Definition schedule (id e : string) (now : Z) (s : CronScheduler) : CronScheduler * (error + ()) :=
  let s1 := if map_has id (jobs s) then cancel id s else s in
  match parseEveryExpression e with
  | inl err => (s1, inl err)
  | inr (Some ms) => (add_job id e (now + ms) (Every id ms) s1, inr tt)
  | inr None =>
      match parseExpression e with
      | inl err => (s1, inl err)
      | inr _ =>
          match cron_next e now with
          | None => (s1, inl ("Cron expression " +:+ String dquote e +:+ String dquote " has no upcoming execution times"))
          | Some next => (add_job id e next (Standard id e (-1)) s1, inr tt)
          end
      end
  end.

Definition ran (now next : Z) (j : CronJob) : CronJob := mkJob (expression j) (Some now) next (handle j).

(** The interval of handle [h] fires. *)
Definition tick (h : nat) (now : Z) (s : CronScheduler) : CronScheduler * list Fire :=
  match map_get h (intervals s) with
  | None => (s, [])
  | Some (Every id ms) => (mkCron (map_alter (ran now (now + ms)) id (jobs s)) (intervals s) (nextHandle s), [mkFire h id None now])
  | Some (Standard id e last) =>
      let currentMinute := now / 60000 in
      if currentMinute =? last then (s, [])
      else
        let ticked := map_set h (Standard id e currentMinute) (intervals s) in
        if matches cron_wall e now
        then (mkCron (map_alter (ran now (cron_next e now ?? now)) id (jobs s)) ticked (nextHandle s), [mkFire h id (Some e) now])
        else (mkCron (jobs s) ticked (nextHandle s), [])
  end.

Inductive CronOp := OpSchedule (id e : string) (now : Z) | OpCancel (id : string) | OpCancelAll | OpTick (h : nat) (now : Z).

Definition cron_step (s : CronScheduler) (op : CronOp) : CronScheduler * list Fire :=
  match op with
  | OpSchedule id e now => ((schedule id e now s).1, [])
  | OpCancel id => (cancel id s, [])
  | OpCancelAll => (cancelAll s, [])
  | OpTick h now => tick h now s
  end.

Fixpoint cron_steps (s : CronScheduler) (ops : list CronOp) : CronScheduler * list Fire :=
  match ops with
  | [] => (s, [])
  | op :: rest => let '(s1, f1) := cron_step s op in let '(s2, f2) := cron_steps s1 rest in (s2, f1 ++ f2)
  end.

(** The clock the ticks read. *)
Definition tick_times (ops : list CronOp) : list Z := flat_map (fun op => match op with OpTick _ now => [now] | _ => [] end) ops.

(** ** One interval per job *)

#[local] Arguments map_get : simpl never.
#[local] Arguments map_set : simpl never.
#[local] Arguments map_delete : simpl never.
#[local] Arguments map_alter : simpl never.
#[local] Arguments matches : simpl never.

Definition interval_id (i : Interval) : string := match i with Every id _ | Standard id _ _ => id end.

(** The live intervals are those of the jobs, each under its job's handle. *)
Definition jobs_ok (s : CronScheduler) : Prop :=
  wf (jobs s) /\ wf (intervals s) /\ (forall h i, map_get h (intervals s) = Some i -> (h < nextHandle s)%nat) /\
  (forall h i, map_get h (intervals s) = Some i -> exists job, map_get (interval_id i) (jobs s) = Some job /\ handle job = h) /\
  (forall id job, map_get id (jobs s) = Some job -> exists i, map_get (handle job) (intervals s) = Some i /\ interval_id i = id).

Lemma new_cron_ok : jobs_ok new_cron.
Proof. split_and!; try done; constructor. Qed.

Lemma cancel_ok id s : jobs_ok s -> jobs_ok (cancel id s) /\ map_get id (jobs (cancel id s)) = None.
Proof.
  intros (Hj & Hi & Hh & Hij & Hji). unfold cancel. destruct (map_get id (jobs s)) as [job|] eqn:E; [|done].
  split; [|cbn; by rewrite map_get_delete, bool_decide_true]. split_and!; cbn; auto with jsmap.
  - intros h i H. rewrite map_get_delete in H. case_bool_decide; [done|eauto].
  - intros h i H. rewrite map_get_delete in H. case_bool_decide as Hne; [done|]. destruct (Hij h i H) as (job' & E' & Eh).
    exists job'. split; [|done]. rewrite map_get_delete, bool_decide_false; [done|]. intros Eid. rewrite Eid in E'. simplify_eq.
  - intros id' job' H. rewrite map_get_delete in H. case_bool_decide as Hne; [done|]. destruct (Hji id' job' H) as (i & E' & Ei).
    exists i. split; [|done]. rewrite map_get_delete, bool_decide_false; [done|]. intros Eh.
    destruct (Hji id job E) as (i2 & E2 & Ei2). rewrite Eh in E'. congruence.
Qed.

Lemma cancel_all_ok s : jobs_ok s -> jobs_ok (cancelAll s).
Proof.
  intros (Hj & Hi & Hh & Hij & Hji). unfold cancelAll. set (l := foldl _ _ _).
  assert (forall h i, map_get h l = Some i -> False) as Hnone.
  { assert (forall js (m : list (nat * Interval)) h i, map_get h (foldl (fun l job => map_delete (handle job) l) m js) = Some i ->
      map_get h m = Some i /\ forall job, In job js -> handle job <> h) as H.
    { clear. intros js. induction js as [|j js IH]; intros m h i H; [done|]. cbn [foldl] in H. destruct (IH _ _ _ H) as [H1 H2].
      rewrite map_get_delete in H1. case_bool_decide as Hne; [done|]. split; [done|]. intros job [<-|Hin]; [congruence|auto]. }
    intros h i Hl. destruct (H _ _ _ _ Hl) as [H1 H2]. destruct (Hij h i H1) as (job & E & Eh). apply (H2 job); [|done].
    apply map_get_In in E. unfold map_values. apply in_map_iff. by exists (interval_id i, job). }
  split_and!; cbn; try done; [constructor| |by intros h i ?%Hnone..].
  assert (forall js (m : list (nat * Interval)), wf m -> wf (foldl (fun l job => map_delete (handle job) l) m js)) as H; [|by apply H].
  clear. intros js. induction js as [|j js IH]; intros m H; [done|]. apply IH. auto with jsmap.
Qed.

Lemma add_job_ok id e next i s : jobs_ok s -> map_get id (jobs s) = None -> interval_id i = id -> jobs_ok (add_job id e next i s).
Proof.
  intros (Hj & Hi & Hh & Hij & Hji) Hid Ei. unfold add_job.
  assert (map_get (nextHandle s) (intervals s) = None) as Hfresh.
  { destruct (map_get (nextHandle s) (intervals s)) eqn:E; [|done]. apply Hh in E. lia. }
  assert (intervals s ++ [(nextHandle s, i)] = map_set (nextHandle s) i (intervals s)) as ->.
  { unfold map_set. destruct (map_has _ _) eqn:E; [|done]. apply map_has_get in E as [? E]. congruence. }
  split_and!; cbn; auto with jsmap.
  - intros h i' H. rewrite map_get_set in H. case_bool_decide; [lia|]. apply Hh in H. lia.
  - intros h i' H. rewrite map_get_set in H. case_bool_decide as Hne.
    + injection H as <-. rewrite map_get_set, bool_decide_true by done. by eexists.
    + destruct (Hij h i' H) as (job & E & Eh). exists job. rewrite map_get_set, bool_decide_false; [done|congruence].
  - intros id' job H. rewrite map_get_set in H. case_bool_decide as Hne.
    + injection H as <-. cbn. exists i. rewrite map_get_set, bool_decide_true by done. split; congruence.
    + destruct (Hji id' job H) as (i' & E & Ei'). exists i'. rewrite map_get_set, bool_decide_false; [done|]. intros Eh. rewrite Eh in E. congruence.
Qed.

Lemma schedule_ok id e now s : jobs_ok s -> jobs_ok (schedule id e now s).1.
Proof.
  intros Hs. unfold schedule. set (s1 := if map_has id (jobs s) then cancel id s else s).
  assert (jobs_ok s1 /\ map_get id (jobs s1) = None) as [H1 H2].
  { unfold s1. destruct (map_has id (jobs s)) eqn:E; [by apply cancel_ok|]. split; [done|]. by apply map_get_None, map_has_false. }
  destruct (parseEveryExpression e) as [|[ms|]]; [done|by apply add_job_ok|]. destruct (parseExpression e); [done|].
  destruct (cron_next e now); [by apply add_job_ok|done].
Qed.

Lemma alter_jobs_ok f id s : jobs_ok s -> (forall j, handle (f j) = handle j) -> jobs_ok (mkCron (map_alter f id (jobs s)) (intervals s) (nextHandle s)).
Proof.
  intros (Hj & Hi & Hh & Hij & Hji) Hf. split_and!; cbn; auto with jsmap.
  - intros h i H. destruct (Hij h i H) as (job & E & Eh). rewrite map_get_alter. case_bool_decide; rewrite E; [|by eexists].
    eexists. split; [done|]. by rewrite Hf.
  - intros id' job H. rewrite map_get_alter in H. case_bool_decide; [|eauto]. destruct (map_get id' (jobs s)) as [j|] eqn:E; [|done].
    cbn in H. injection H as <-. rewrite Hf. eauto.
Qed.

Lemma set_interval_ok h i i' s : jobs_ok s -> map_get h (intervals s) = Some i -> interval_id i' = interval_id i ->
  jobs_ok (mkCron (jobs s) (map_set h i' (intervals s)) (nextHandle s)).
Proof.
  intros (Hj & Hi & Hh & Hij & Hji) E Ei. split_and!; cbn; auto with jsmap.
  - intros h' x H. rewrite map_get_set in H. case_bool_decide; [subst; eauto|eauto].
  - intros h' x H. rewrite map_get_set in H. case_bool_decide; [|eauto]. injection H as <-. subst h'. rewrite Ei. eauto.
  - intros id job H. destruct (Hji id job H) as (x & Ex & Eid). rewrite map_get_set. case_bool_decide as Eh; [|eauto].
    exists i'. split; [done|]. rewrite Eh in Ex. congruence.
Qed.

Lemma cron_step_ok s op : jobs_ok s -> jobs_ok (cron_step s op).1.
Proof.
  intros Hs. destruct op as [id e now|id| |h now]; cbn [cron_step fst].
  - by apply schedule_ok.
  - by apply cancel_ok.
  - by apply cancel_all_ok.
  - unfold tick. destruct (map_get h (intervals s)) as [[id ms|id e last]|] eqn:E; [by apply alter_jobs_ok| |done].
    destruct (_ =? last); [done|]. pose proof (set_interval_ok h _ (Standard id e (now / 60000)) s Hs E eq_refl) as H1.
    destruct (matches _ _ _); [|done]. by apply (alter_jobs_ok (ran now (cron_next e now ?? now)) id) in H1.
Qed.

(** ** Once per minute *)

(** The fires of a 5-field job, by its handle. *)
Definition standard_of (h : nat) (f : Fire) : bool := (f_handle f =? h)%nat && bool_decide (is_Some (f_expression f)).
Definition fires_of (h : nat) (fires : list Fire) : list Fire := List.filter (standard_of h) fires.
Definition minute_of (f : Fire) : Z := f_time f / 60000.

Record fires_ok (s : CronScheduler) (clock : Z) (fires : list Fire) : Prop := {
  fires_old : forall f, In f fires -> (f_handle f < nextHandle s)%nat;
  fires_match : forall f e, In f fires -> f_expression f = Some e -> matches cron_wall e (f_time f) = true;
  fires_sorted : forall h, StronglySorted Z.lt (map minute_of (fires_of h fires));
  fires_last : forall h id e last, map_get h (intervals s) = Some (Standard id e last) ->
    (forall f, In f (fires_of h fires) -> minute_of f <= last) /\ (fires_of h fires <> [] -> last <= clock / 60000)
}.

Lemma fires_keep s s' clock clock' fires : fires_ok s clock fires -> clock <= clock' -> (nextHandle s <= nextHandle s')%nat ->
  (forall h id e last, map_get h (intervals s') = Some (Standard id e last) ->
     map_get h (intervals s) = Some (Standard id e last) \/ (nextHandle s <= h)%nat) -> fires_ok s' clock' fires.
Proof.
  intros [Ho Hm Hs Hl] Hc Hn Hi. split; [|done|done|].
  - intros f Hf. specialize (Ho f Hf). lia.
  - intros h id e last H. destruct (Hi _ _ _ _ H) as [H'|Hnew].
    + destruct (Hl _ _ _ _ H') as [H1 H2]. split; [done|]. intros Hne. specialize (H2 Hne). pose proof (Z.div_le_mono clock clock' 60000). lia.
    + assert (fires_of h fires = []) as ->; [|by split].
      apply filter_nil_iff. intros f Hf. unfold standard_of. specialize (Ho f Hf). by rewrite (proj2 (Nat.eqb_neq _ _)) by lia.
Qed.

Lemma cancel_keeps id s h i : map_get h (intervals (cancel id s)) = Some i -> map_get h (intervals s) = Some i.
Proof.
  unfold cancel. destruct (map_get id (jobs s)); [|done]. cbn. rewrite map_get_delete. by case_bool_decide.
Qed.

Lemma cancel_handle id s : nextHandle (cancel id s) = nextHandle s.
Proof. unfold cancel. by destruct (map_get id (jobs s)). Qed.

Lemma get_snoc {V} h (l : list (nat * V)) k v x : map_get h (l ++ [(k, v)]) = Some x -> map_get h l = Some x \/ h = k.
Proof.
  unfold map_get. rewrite find_app. destruct (List.find _ l); [by left|]. cbn. unfold key_eq. cbn. case_bool_decide; [|done]. by right.
Qed.

Lemma schedule_keeps id e now s : (nextHandle s <= nextHandle (schedule id e now s).1)%nat /\
  forall h i, map_get h (intervals (schedule id e now s).1) = Some i -> map_get h (intervals s) = Some i \/ (nextHandle s <= h)%nat.
Proof.
  unfold schedule. set (s1 := if map_has id (jobs s) then cancel id s else s).
  assert (nextHandle s1 = nextHandle s /\ forall h i, map_get h (intervals s1) = Some i -> map_get h (intervals s) = Some i) as [Hn Hi].
  { unfold s1. destruct (map_has id (jobs s)); [|done]. split; [apply cancel_handle|apply cancel_keeps]. }
  assert (forall next i, (nextHandle s <= nextHandle (add_job id e next i s1))%nat /\
    forall h j, map_get h (intervals (add_job id e next i s1)) = Some j -> map_get h (intervals s) = Some j \/ (nextHandle s <= h)%nat) as Hadd.
  { intros next i. unfold add_job. cbn. rewrite Hn. split; [lia|]. intros h j [H| ->]%get_snoc; [left; by apply Hi|right; lia]. }
  assert ((nextHandle s <= nextHandle s1)%nat /\ forall h i, map_get h (intervals s1) = Some i -> map_get h (intervals s) = Some i \/ (nextHandle s <= h)%nat) as Hsame.
  { split; [lia|]. intros h i H. left. by apply Hi. }
  destruct (parseEveryExpression e) as [|[ms|]]; [exact Hsame|apply Hadd|]. destruct (parseExpression e); [exact Hsame|].
  destruct (cron_next e now); [apply Hadd|exact Hsame].
Qed.

Lemma cancel_all_keeps s h i : map_get h (intervals (cancelAll s)) = Some i -> map_get h (intervals s) = Some i.
Proof.
  unfold cancelAll. cbn. generalize (map_values (jobs s)) (intervals s). intros js. induction js as [|j js IH]; intros m H; [done|].
  cbn in H. apply IH in H. rewrite map_get_delete in H. by case_bool_decide.
Qed.

Lemma fires_of_snoc h fires f : fires_of h (fires ++ [f]) = if standard_of h f then fires_of h fires ++ [f] else fires_of h fires.
Proof. unfold fires_of. rewrite List.filter_app. cbn. destruct (standard_of h f); [done|apply app_nil_r]. Qed.

Lemma sorted_snoc l x : StronglySorted Z.lt l -> (forall y, In y l -> y < x) -> StronglySorted Z.lt (l ++ [x]).
Proof.
  induction 1 as [|y l Hs IH Hall]; intros H; cbn; [repeat constructor|]. constructor; [apply IH; intros z Hz; apply H; by right|].
  apply List.Forall_app. split; [done|]. constructor; [apply H; by left|constructor].
Qed.

Lemma tick_fires h now s clock fires : jobs_ok s -> fires_ok s clock fires -> clock <= now ->
  fires_ok (tick h now s).1 now (fires ++ (tick h now s).2).
Proof.
  intros Hj Hf Hc. unfold tick. destruct (map_get h (intervals s)) as [[id ms|id e last]|] eqn:E; cbn [fst snd].
  3:{ rewrite app_nil_r. by apply (fires_keep s s clock now fires Hf); auto. }
  - assert (h < nextHandle s)%nat as Hh by by eapply Hj. destruct (fires_keep s s clock now fires Hf Hc (le_n _) ltac:(auto)) as [Ho Hm Hs Hl].
    assert (forall h', fires_of h' (fires ++ [mkFire h id None now]) = fires_of h' fires) as Hsame.
    { intros h'. rewrite fires_of_snoc. unfold standard_of. cbn. by rewrite andb_false_r. }
    split; cbn.
    + intros f [Hin|[<-|[]]]%in_app_iff; [by apply Ho|done].
    + intros f e [Hin|[<-|[]]]%in_app_iff; [by apply Hm|done].
    + intros h'. by rewrite Hsame.
    + intros h' id' e' last' H. rewrite Hsame. by eapply Hl.
  - destruct (_ =? last) eqn:El; to_prop.
    { rewrite app_nil_r. by apply (fires_keep s s clock now fires Hf); auto. }
    assert (h < nextHandle s)%nat as Hh by by eapply Hj. pose proof (Z.div_le_mono clock now 60000 ltac:(lia) Hc) as Hminute. destruct Hf as [Ho Hm Hs Hl].
    destruct (Hl h id e last E) as [Hl1 Hl2].
    assert (forall f, In f (fires_of h fires) -> minute_of f < now / 60000) as Hlt.
    { intros f Hf. specialize (Hl1 f Hf). assert (fires_of h fires <> []) as Hne by (intros H0; by rewrite H0 in Hf). specialize (Hl2 Hne). lia. }
    assert (forall js, fires_ok (mkCron js (map_set h (Standard id e (now / 60000)) (intervals s)) (nextHandle s)) now fires) as Hno.
    { intros js. split; cbn; [done|done|done|]. intros h' id' e' last' H. rewrite map_get_set in H. case_bool_decide as Hne.
      - injection H as <- <- <-. subst h'. split; [|lia]. intros f Hf. specialize (Hlt f Hf). lia.
      - destruct (Hl h' id' e' last' H) as [H1 H2]. split; [done|]. intros H3. specialize (H2 H3). lia. }
    destruct (matches _ _ _) eqn:Em; cbn [fst snd]; [|rewrite app_nil_r; apply Hno].
    destruct (Hno (map_alter (ran now (cron_next e now ?? now)) id (jobs s))) as [Ho' Hm' Hs' Hl']. split.
    + intros f [Hin|[<-|[]]]%in_app_iff; [by apply Ho'|done].
    + intros f e' [Hin|[<-|[]]]%in_app_iff; [by apply Hm'|]. cbn. by intros [= <-].
    + intros h'. rewrite fires_of_snoc. unfold standard_of. cbn. rewrite andb_true_r.
      destruct (h =? h')%nat eqn:Eh; [apply Nat.eqb_eq in Eh as <-|done]. rewrite map_app. apply sorted_snoc; [done|].
      intros y Hy. apply in_map_iff in Hy as (f & <- & Hf). by apply Hlt.
    + intros h' id' e' last' H. rewrite fires_of_snoc. unfold standard_of. cbn. rewrite andb_true_r.
      destruct (Hl' h' id' e' last' H) as [H1 H2]. destruct (h =? h')%nat eqn:Eh; [apply Nat.eqb_eq in Eh as <-|done].
      cbn in H. rewrite map_get_set, bool_decide_true in H by done. injection H as <- <- <-. split; [|lia].
      intros f [Hin|[<-|[]]]%in_app_iff; [by apply H1|unfold minute_of; cbn; lia].
Qed.

Lemma cron_steps_ok s clock fires ops : jobs_ok s -> fires_ok s clock fires -> StronglySorted Z.le (clock :: tick_times ops) ->
  exists clock', jobs_ok (cron_steps s ops).1 /\ fires_ok (cron_steps s ops).1 clock' (fires ++ (cron_steps s ops).2).
Proof.
  revert s clock fires. induction ops as [|op ops IH]; intros s clock fires Hj Hf Hc; [exists clock; by rewrite app_nil_r|].
  cbn [cron_steps]. pose proof (cron_step_ok s op Hj) as Hj1.
  assert (exists clock1, fires_ok (cron_step s op).1 clock1 (fires ++ (cron_step s op).2) /\ StronglySorted Z.le (clock1 :: tick_times ops)) as (clock1 & Hf1 & Hc1).
  { destruct op as [id e now|id| |h now]; cbn [cron_step fst snd]; rewrite ?app_nil_r.
    - exists clock. split; [|done]. destruct (schedule_keeps id e now s) as [H1 H2]. by apply (fires_keep s _ clock clock); [|lia| |eauto].
    - exists clock. split; [|done]. apply (fires_keep s _ clock clock); [done|lia|by rewrite cancel_handle|]. intros h i e last H. left. by eapply cancel_keeps.
    - exists clock. split; [|done]. apply (fires_keep s _ clock clock); [done|lia|done|]. intros h i e last H. left. by eapply cancel_all_keeps.
    - exists now. cbn in Hc. apply StronglySorted_inv in Hc as [Hc Hall]. split; [|done]. apply (tick_fires h now s clock); [done|done|].
      by apply List.Forall_inv in Hall. }
  destruct (cron_step s op) as [s1 f1]. cbn [fst snd] in *. destruct (IH s1 clock1 (fires ++ f1) Hj1 Hf1 Hc1) as (clock' & H1 & H2).
  exists clock'. destruct (cron_steps s1 ops) as [s2 f2]. cbn [fst snd] in *. by rewrite app_assoc.
Qed.
End cron.

(** over any sequence of schedules, cancellations and interval ticks whose clock does not
    go back, the live intervals are exactly those of the scheduled jobs, one each, so a
    replaced or cancelled job never fires again; a 5-field job fires only at minutes its
    expression matches, and at most once in each, however often its check runs. *)
Theorem cron_fires_once_per_minute (timezone : option (Z -> WallClock)) (offset : Z) (ops : list CronOp) :
  StronglySorted Z.le (tick_times ops) ->
  let '(s, fires) := cron_steps timezone offset new_cron ops in
  (forall id job, map_get id (jobs s) = Some job -> exists i, map_get (handle job) (intervals s) = Some i /\ interval_id i = id) /\
  (forall h i, map_get h (intervals s) = Some i -> exists job, map_get (interval_id i) (jobs s) = Some job /\ handle job = h) /\
  (forall h, StronglySorted Z.lt (map minute_of (fires_of h fires))) /\
  forall f e, In f fires -> f_expression f = Some e -> matches (cron_wall timezone offset) e (f_time f) = true.
Proof.
  intros Hc. assert (fires_ok timezone offset new_cron 0 []) as Hnew by (split; cbn; try done; constructor).
  assert (exists clock, StronglySorted Z.le (clock :: tick_times ops)) as [clock Hclock].
  { destruct (tick_times ops) as [|t l]; [exists 0; repeat constructor|]. exists t. constructor; [done|].
    constructor; [lia|]. by apply StronglySorted_inv in Hc as [_ ?]. }
  assert (fires_ok timezone offset new_cron clock []) as Hnew' by (split; cbn; try done; constructor).
  destruct (cron_steps_ok timezone offset new_cron clock [] ops new_cron_ok Hnew' Hclock) as (clock' & (_ & _ & _ & H1 & H2) & [_ H3 H4 _]).
  destruct (cron_steps timezone offset new_cron ops) as [s fires]. cbn in *. split_and!; [done|done|done|]. intros f e. apply H3.
Qed.

Definition demo_cron_ops : list CronOp :=
  [OpSchedule "a" "*/2 * * * *" 1767225600000; OpTick 0 1767225630000; OpTick 0 1767225660000; OpTick 0 1767225690000; OpTick 0 1767225720000;
   OpTick 0 1767225750000; OpSchedule "a" "@every 5s" 1767225751000; OpTick 0 1767225840000; OpTick 1 1767225845000; OpCancel "a"; OpTick 1 1767225850000].

Lemma cron_fires_once_per_minute_witness :
  map (fun f => (f_handle f, f_time f)) (cron_steps None 0 new_cron demo_cron_ops).2 =
    [(0%nat, 1767225630000); (0%nat, 1767225720000); (1%nat, 1767225845000)] /\
  forall h, StronglySorted Z.lt (map minute_of (fires_of h (cron_steps None 0 new_cron demo_cron_ops).2)).
Proof.
  split; [vm_compute; reflexivity|]. pose proof (cron_fires_once_per_minute None 0 demo_cron_ops) as H.
  destruct (cron_steps None 0 new_cron demo_cron_ops) as [s fires]. apply H. cbn. repeat (constructor; [|repeat (constructor; [lia|]); constructor]). constructor.
Defined.
