(* ===== verification/EventBuffer.v ===== *)
(** * The buffer of recent events (workflows/runtime/event-buffer.ts)

    Every published event gets the next id and enters a bounded buffer that a polling
    trigger reads with a cursor. Events leave by overflow or by age, and the buffer counts
    what it dropped. Each reading of the clock is an argument. [poll_misses_nothing] is what
    the drop signal is for: a poll whose cursor is not behind the last drop returns every
    matching event published since, whatever the sequence of publications and other polls. *)
From S2P Require Export Json.

Record BufferedEvent := mkEvent { ev_id : Z; ev_type : string; ev_payload : list (string * json); ev_timestamp : Z }.

Record WorkflowEventBuffer := mkBuffer {
  capacity : Z; maxAgeMs : Z; events : list BufferedEvent; nextId : Z;
  droppedCount : Z; droppedLastAt : Z; droppedLastHeadId : Z }.

Definition new_buffer (cap age : option Z) : WorkflowEventBuffer := mkBuffer (cap ?? 10000) (age ?? 60 * 60000) [] 0 0 0 0.

(** [events.splice(0, n)] with the count of a drop of [n > 0] events. *)
Definition drop_events (b : WorkflowEventBuffer) (n : nat) (at_ : Z) : WorkflowEventBuffer :=
  mkBuffer (capacity b) (maxAgeMs b) (drop n (events b)) (nextId b) (droppedCount b + Z.of_nat n) at_ (nextId b).

(** How many of the oldest events are older than the cutoff. *)
Fixpoint aged (cutoff : Z) (l : list BufferedEvent) : nat :=
  match l with
  | e :: rest => if ev_timestamp e <? cutoff then S (aged cutoff rest) else 0
  | [] => 0
  end.

(** [prune]; the clock is read for the cutoff and for a drop. *)
Definition prune (b : WorkflowEventBuffer) (t_cutoff t_drop : Z) : WorkflowEventBuffer :=
  if maxAgeMs b <=? 0 then b
  else let n := aged (t_cutoff - maxAgeMs b) (events b) in if (0 <? n)%nat then drop_events b n t_drop else b.

(** The readings of one publication. *)
Record PublishClock := mkClock { t_cutoff : Z; t_pruned : Z; t_stamp : Z; t_overflow : Z }.

Definition publish (b : WorkflowEventBuffer) (c : PublishClock) (eventType : string) (payload : list (string * json))
    : WorkflowEventBuffer * Z :=
  let b1 := prune b (t_cutoff c) (t_pruned c) in
  let id := nextId b1 + 1 in
  let b2 := mkBuffer (capacity b1) (maxAgeMs b1) (events b1 ++ [mkEvent id eventType payload (t_stamp c)]) id
              (droppedCount b1) (droppedLastAt b1) (droppedLastHeadId b1) in
  let excess := Z.of_nat (length (events b2)) - capacity b2 in
  (if 0 <? excess then drop_events b2 (Z.to_nat excess) (t_overflow c) else b2, id).

(** [a === b] on a payload value and a value of a filter decoded from a request: no
    object of one is an object of the other. *)
Definition strict_same (a b : json) : bool :=
  match a, b with
  | JNull, JNull => true
  | JBool x, JBool y => Bool.eqb x y
  | JNum x, JNum y => x =? y
  | JStr x, JStr y => String.eqb x y
  | _, _ => false
  end.

(** [makeShallowEq] *)
Definition matches_filter (filter : option (list (string * json))) (payload : list (string * json)) : bool :=
  match filter with
  | None => true
  | Some entries => forallb (fun kv => match assoc_get (fst kv) payload with Some v => strict_same v (snd kv) | None => false end) entries
  end.

Record PollRequest := mkPoll { pr_eventType : string; pr_filter : option (list (string * json)); pr_since : option Z; pr_headOnly : bool }.

(** What a poll is for: the type and the filter. *)
Definition wanted (r : PollRequest) (e : BufferedEvent) : bool :=
  bool_decide (ev_type e = pr_eventType r) && matches_filter (pr_filter r) (ev_payload e).
Definition since_of (r : PollRequest) : Z := pr_since r ?? 0.

Definition poll (b : WorkflowEventBuffer) (t_cutoff t_drop : Z) (r : PollRequest) : WorkflowEventBuffer * list BufferedEvent * Z :=
  let b1 := prune b t_cutoff t_drop in
  (b1, if pr_headOnly r then [] else List.filter (fun e => negb (ev_id e <=? since_of r) && wanted r e) (events b1), nextId b1).

(** ** Any sequence *)

Inductive BufferOp :=
  | OpPublish (c : PublishClock) (eventType : string) (payload : list (string * json))
  | OpPoll (t_cutoff t_drop : Z) (r : PollRequest).

(** One operation and the event it published. *)
Definition buffer_step (b : WorkflowEventBuffer) (op : BufferOp) : WorkflowEventBuffer * list BufferedEvent :=
  match op with
  | OpPublish c ty p => let '(b', id) := publish b c ty p in (b', [mkEvent id ty p (t_stamp c)])
  | OpPoll t1 t2 r => let '(b', _, _) := poll b t1 t2 r in (b', [])
  end.
Fixpoint buffer_steps (b : WorkflowEventBuffer) (ops : list BufferOp) : WorkflowEventBuffer * list BufferedEvent :=
  match ops with
  | [] => (b, [])
  | op :: rest =>
      let '(b1, p1) := buffer_step b op in
      let '(b2, p2) := buffer_steps b1 rest in
      (b2, p1 ++ p2)
  end.

(** ** The invariant *)

(** The published events in order are numbered from 1; the buffer is a suffix of them, the
    rest was dropped and counted, and the last drop saw the head of its time. *)
Definition buffer_ok (b : WorkflowEventBuffer) (published : list BufferedEvent) : Prop :=
  map ev_id published = map Z.of_nat (seq 1 (length published)) /\
  nextId b = Z.of_nat (length published) /\
  exists gone, published = gone ++ events b /\ droppedCount b = Z.of_nat (length gone) /\
    Z.of_nat (length gone) <= droppedLastHeadId b <= nextId b.

Lemma drop_ok b published n at_ : (n <= length (events b))%nat -> buffer_ok b published -> buffer_ok (drop_events b n at_) published.
Proof.
  intros Hn (Hid & Hnext & gone & E & Hc & Hh). split; [done|]. split; [done|]. exists (gone ++ take n (events b)).
  cbn [events droppedCount droppedLastHeadId nextId drop_events]. rewrite length_app, length_take.
  rewrite <- app_assoc, take_drop. rewrite E, length_app in Hnext. split_and!; [done|lia|lia|lia].
Qed.

Lemma aged_le cutoff l : (aged cutoff l <= length l)%nat.
Proof. induction l as [|e l IH]; simpl; [done|]. destruct (ev_timestamp e <? cutoff); simpl; lia. Qed.

Lemma prune_ok b t1 t2 published : buffer_ok b published -> buffer_ok (prune b t1 t2) published.
Proof.
  intros H. unfold prune. destruct (maxAgeMs b <=? 0); [done|]. cbv zeta. destruct (0 <? _)%nat; [|done].
  apply drop_ok; [apply aged_le|done].
Qed.

Lemma prune_capacity b t1 t2 : capacity (prune b t1 t2) = capacity b /\ maxAgeMs (prune b t1 t2) = maxAgeMs b /\ nextId (prune b t1 t2) = nextId b.
Proof. unfold prune. destruct (maxAgeMs b <=? 0); [done|]. cbv zeta. by destruct (0 <? _)%nat. Qed.

Lemma publish_buffer_ok b c ty p published : 0 <= capacity b -> buffer_ok b published ->
  buffer_ok (publish b c ty p).1 (published ++ [mkEvent (publish b c ty p).2 ty p (t_stamp c)]) /\
  Z.of_nat (length (events (publish b c ty p).1)) <= capacity b /\ capacity (publish b c ty p).1 = capacity b.
Proof.
  intros Hcap H. unfold publish. cbv zeta. cbn [fst snd]. apply (prune_ok _ (t_cutoff c) (t_pruned c)) in H.
  destruct (prune_capacity b (t_cutoff c) (t_pruned c)) as (Ec & _ & _). rewrite <- Ec in Hcap.
  set (b1 := prune b (t_cutoff c) (t_pruned c)) in *. rewrite <- Ec. clear Ec.
  set (e := mkEvent (nextId b1 + 1) ty p (t_stamp c)).
  set (b2 := mkBuffer (capacity b1) _ (events b1 ++ [e]) _ _ _ _).
  assert (buffer_ok b2 (published ++ [e])) as H2.
  { destruct H as (Hid & Hnext & gone & E & Hc & Hh). split; [|split].
    - rewrite map_app, Hid, length_app. cbn [map length]. rewrite seq_app, map_app. cbn [seq map]. do 3 f_equal. simpl. lia.
    - rewrite length_app. cbn [nextId b2 length]. lia.
    - exists gone. cbn [events droppedCount droppedLastHeadId nextId b2]. rewrite E, app_assoc. split_and!; [done|done|lia|lia]. }
  cbn [events capacity b2]. rewrite length_app. cbn [length]. destruct (0 <? _) eqn:Ex; to_prop.
  - split; [apply drop_ok; [|done]|].
    + cbn [events b2]. rewrite length_app. cbn [length]. lia.
    + cbn [events drop_events b2 capacity]. rewrite length_drop, length_app. cbn [length]. split; [lia|done].
  - split; [done|]. cbn [events b2 capacity]. rewrite length_app. cbn [length]. split; [lia|done].
Qed.

Lemma buffer_step_ok b op published : 0 <= capacity b -> buffer_ok b published ->
  buffer_ok (buffer_step b op).1 (published ++ (buffer_step b op).2) /\ capacity (buffer_step b op).1 = capacity b.
Proof.
  intros Hcap H. destruct op as [c ty p|t1 t2 r]; cbn [buffer_step].
  - destruct (publish_buffer_ok b c ty p published Hcap H) as (H1 & _ & H3). by destruct (publish b c ty p).
  - cbn [fst snd]. rewrite app_nil_r. split; [by apply prune_ok|]. by destruct (prune_capacity b t1 t2).
Qed.

Lemma buffer_steps_ok ops b published : 0 <= capacity b -> buffer_ok b published ->
  buffer_ok (buffer_steps b ops).1 (published ++ (buffer_steps b ops).2) /\ capacity (buffer_steps b ops).1 = capacity b.
Proof.
  revert b published. induction ops as [|op ops IH]; intros b published Hcap H; cbn [buffer_steps]; [by rewrite app_nil_r|].
  destruct (buffer_step_ok b op published Hcap H) as [H1 E1]. destruct (buffer_step b op) as [b1 p1]. cbn [fst snd] in *.
  destruct (IH b1 (published ++ p1)) as [H2 E2]; [lia|done|]. destruct (buffer_steps b1 ops) as [b2 p2]. cbn [fst snd] in *.
  rewrite <- app_assoc in H2. split; [done|]. congruence.
Qed.

Lemma ids_after published n gone rest : map ev_id published = map Z.of_nat (seq 1 n) -> published = gone ++ rest ->
  (forall e, In e gone -> ev_id e <= Z.of_nat (length gone)) /\ (forall e, In e rest -> Z.of_nat (length gone) < ev_id e <= Z.of_nat n).
Proof.
  intros Hid ->. rewrite map_app in Hid.
  assert (length gone + length rest = n)%nat as Hn.
  { apply (f_equal length) in Hid. rewrite length_app, !length_map, length_seq in Hid. lia. }
  rewrite <- Hn, seq_app, map_app in Hid. apply app_inj_1 in Hid as [H1 H2]; [|by rewrite !length_map, length_seq].
  split; intros e He; apply (in_map ev_id) in He; [rewrite H1 in He|rewrite H2 in He];
    apply in_map_iff in He as (k & <- & Hk%in_seq); lia.
Qed.

Lemma filter_none {A} (p : A -> bool) l : (forall x, In x l -> p x = false) -> List.filter p l = [].
Proof. induction l as [|x l IH]; intros H; [done|]. simpl. rewrite (H x); [|by left]. apply IH. intros y Hy. apply H. by right. Qed.

(** after any publications and polls, a poll returns, in order and without repetition,
    matching events published after its cursor, and a cursor past them all; and if the buffer
    does not report a drop beyond the caller's cursor, it returns every such event: nothing is
    missed in silence. The number of dropped events is counted exactly, and the buffer never
    holds more than its capacity after a publication. *)
Theorem poll_misses_nothing (cap age : option Z) (ops : list BufferOp) (t1 t2 : Z) (r : PollRequest) :
  0 <= cap ?? 10000 -> pr_headOnly r = false ->
  let '(b, published) := buffer_steps (new_buffer cap age) ops in
  let '(b', delivered, cursor) := poll b t1 t2 r in
  let due := List.filter (fun e => negb (ev_id e <=? since_of r) && wanted r e) published in
  (exists missed, due = missed ++ delivered) /\
  (droppedLastHeadId b' <= since_of r -> delivered = due) /\
  (forall e, In e published -> ev_id e <= cursor) /\
  List.NoDup (map ev_id delivered) /\
  droppedCount b' = Z.of_nat (length published) - Z.of_nat (length (events b')) /\
  (forall c ty p, Z.of_nat (length (events (publish b' c ty p).1)) <= cap ?? 10000).
Proof.
  intros Hcap Hh. assert (buffer_ok (new_buffer cap age) []) as H0 by (split; [done|]; split; [done|]; by exists []).
  destruct (buffer_steps_ok ops (new_buffer cap age) [] Hcap H0) as [Hok Ec].
  destruct (buffer_steps (new_buffer cap age) ops) as [b published]. cbn [fst snd app] in *. unfold poll. rewrite Hh.
  pose proof (prune_ok b t1 t2 published Hok) as Hok'. destruct (prune_capacity b t1 t2) as (Ec' & _ & _).
  set (b' := prune b t1 t2) in *. pose proof Hok' as (Hid & Hnext & gone & E & Hc & Hd).
  destruct (ids_after published (length published) gone (events b') Hid E) as [Hgone Hrest].
  cbv zeta. split_and!.
  - exists (List.filter (fun e => negb (ev_id e <=? since_of r) && wanted r e) gone). rewrite E at 1. apply List.filter_app.
  - intros Hs. rewrite E at 1. rewrite List.filter_app, (filter_none _ gone); [done|]. intros e He. apply Hgone in He.
    rewrite (proj2 (Z.leb_le (ev_id e) (since_of r))); [done|lia].
  - intros e He. rewrite Hnext. rewrite E in He. apply in_app_or in He as [He|He]; [|by apply Hrest].
    apply Hgone in He. rewrite E, length_app. lia.
  - apply filter_NoDup_map. assert (List.NoDup (map ev_id published)) as Hn.
    { rewrite Hid. apply Finite.Injective_map_NoDup; [|apply seq_NoDup]. intros x y. lia. }
    rewrite E, map_app in Hn. by apply NoDup_app_remove_l in Hn.
  - rewrite Hc, E, length_app. lia.
  - intros c ty p. destruct (publish_buffer_ok b' c ty p published) as (_ & Hl & _); [rewrite Ec', Ec; exact Hcap|done|].
    rewrite Ec', Ec in Hl. exact Hl.
Qed.

(** ** A poll that lags *)

Definition demo_at (t : Z) : PublishClock := mkClock t t t t.
Definition demo_buffer_ops : list BufferOp :=
  [OpPublish (demo_at 1) "mail" [("from", JStr "a")]; OpPublish (demo_at 2) "clip" []; OpPublish (demo_at 3) "mail" [("from", JStr "a")];
   OpPoll 4 4 (mkPoll "mail" None (Some 0) false); OpPublish (demo_at 5) "mail" [("from", JStr "b")]].
Definition demo_poll (since : Z) : PollRequest := mkPoll "mail" (Some [("from", JStr "a")]) (Some since) false.

(** Capacity 2: the events 1 and 2 are dropped when the head is at 4. *)
Example demo_dropped : (let b := (buffer_steps (new_buffer (Some 2) None) demo_buffer_ops).1 in
  (droppedCount b, droppedLastHeadId b, map ev_id (poll b 6 6 (demo_poll 0)).1.2)) = (2, 4, [3]).
Proof. vm_compute. reflexivity. Qed.

Lemma poll_misses_nothing_witness :
  let '(b, published) := buffer_steps (new_buffer (Some 9) None) demo_buffer_ops in
  let '(b', delivered, cursor) := poll b 6 6 (demo_poll 1) in
  let due := List.filter (fun e => negb (ev_id e <=? since_of (demo_poll 1)) && wanted (demo_poll 1) e) published in
  (exists missed, due = missed ++ delivered) /\
  (droppedLastHeadId b' <= since_of (demo_poll 1) -> delivered = due) /\
  (forall e, In e published -> ev_id e <= cursor) /\
  List.NoDup (map ev_id delivered) /\
  droppedCount b' = Z.of_nat (length published) - Z.of_nat (length (events b')) /\
  (forall c ty p, Z.of_nat (length (events (publish b' c ty p).1)) <= (Some 9) ?? 10000).
Proof. apply (poll_misses_nothing (Some 9) None demo_buffer_ops 6 6 (demo_poll 1)); [simpl; lia|reflexivity]. Defined.
