(* ===== verification/SampleTaint.v ===== *)
(** * Provenance of saved samples (workflows/runtime/machine-binding.ts, inputReferences and previewUsesUnqualifiedSamples)

    A preview of one step may read saved outputs of other steps, which no machine
    vouches for. Before such a step acts on a screen, the source asks whether its
    input mentions a saved sample, directly or through the items of loops. The
    template grammar and the expression references are those of the engine.
    [preview_taint_exact] shows that the worklist answers exactly reachability,
    and that both worklists end. *)
From Stdlib Require Import Ascii.
From S2P Require Export SafeExprEval FlowGraph.
From S2P Require Export WorkflowDb JsMap.

(** ** References of an input *)

(** [.] of a regular expression; U+2028 and U+2029 are above the model's code units. *)
Definition line_terminator (c : ascii) : bool := Ascii.eqb c "010" || Ascii.eqb c "013".

(** [(.*?)\}\}] from here: the text up to the first closing pair on the line. *)
Fixpoint lazy_body (s : string) : option string :=
  match s with
  | EmptyString => None
  | String c rest =>
      if starts_with "}}" s then Some EmptyString
      else if line_terminator c then None
      else String c <$> lazy_body rest
  end.

(** [matchAll(/\{\{(.*?)\}\}/g)]: the captures; [skip] counts what a match consumed. *)
Fixpoint template_expressions (skip : nat) (s : string) : list string :=
  match s with
  | EmptyString => []
  | String _ rest =>
      match skip with
      | S n => template_expressions n rest
      | O =>
          match (if starts_with "{{" s then lazy_body (sdrop 2 s) else None) with
          | Some expression => expression :: template_expressions (String.length expression + 3) rest
          | None => template_expressions 0 rest
          end
      end
  end.

(** An object's own entries in the order it lists them: index keys first, by value. *)
Definition is_index (e : string * json) : bool := match index_key (fst e) with Some _ => true | None => false end.
Definition index_le (a b : string * json) : bool :=
  match index_key (fst a), index_key (fst b) with Some i, Some j => i <=? j | _, _ => true end.
Definition set_entry (m : list (string * json)) (e : string * json) : list (string * json) := map_set (fst e) (snd e) m.
Definition own_entries (fields : list (string * json)) : list (string * json) :=
  let m := foldl set_entry [] fields in
  sort_by index_le (List.filter is_index m) ++ List.filter (fun e => negb (is_index e)) m.

Definition own_values (v : json) : list json :=
  match v with JArr items => items | JObj fields => map snd (own_entries fields) | _ => [] end.
Definition own_keys (v : json) : list string :=
  match v with JObj fields => map fst (own_entries fields) | _ => [] end.

Definition add_names (names references : list string) : list string :=
  foldl (fun refs name => if includes name refs then refs else refs ++ [name]) references names.

(** The inner loop over the templates of one text. *)
Fixpoint text_references (expressions references : list string) : failure + list string :=
  match expressions with
  | [] => inr references
  | expression :: rest =>
      if starts_with "connections" expression then text_references rest references
      else match workflowExpressionReferences expression with
           | inl e => inl e
           | inr names => text_references rest (add_names names references)
           end
  end.

(** The loop over [pending]; the stack is the list reversed. *)
Fixpoint input_loop (fuel : nat) (pending : list json) (references : list string) : failure + list string :=
  match pending with
  | [] => inr references
  | v :: rest =>
      match fuel with
      | O => inl OutOfFuel
      | S fuel' =>
          match v with
          | JStr text =>
              match text_references (template_expressions 0 text) references with
              | inl e => inl e
              | inr refs => input_loop fuel' rest refs
              end
          | _ => input_loop fuel' (rev (own_values v) ++ rest) references
          end
      end
  end.

(** [None] is an absent input. *)
Definition inputReferences (input : option json) : failure + list string :=
  match input with Some v => input_loop (json_size v) [v] [] | None => inr [] end.

(** ** The preview *)

Inductive TaintError := StepUnavailable | BadExpression (e : failure).

(** [new Map(nodes.map(node => [node.name, node])).get(name)]: the last node of the name. *)
Definition find_node (nodes : list json) (name : string) : option json :=
  List.find (fun node => jstr_is (jget "name" node) name) (rev nodes).

Definition LOOP_TYPE : string := "LOOP_ON_ITEMS".
Definition loop_node (nodes : list json) (name : string) : option json :=
  match find_node nodes name with
  | Some node => if jstr_is (jget "type" node) LOOP_TYPE then Some node else None
  | None => None
  end.

Section preview.
Variables (nodes : list json) (trigger : json) (tested : string) (samples : list string).

Definition is_trigger (name : string) : bool := jstr_is (jget "name" trigger) name.

(** The roots of a loop that a walk through it follows. *)
Definition keeps_root (name root : string) : bool := negb (is_trigger root && bool_decide (name = tested)).

Fixpoint taint_loop (fuel : nat) (pending visited : list string) : TaintError + bool :=
  match pending with
  | [] => inr false
  | name :: rest =>
      match fuel with
      | O => inl (BadExpression OutOfFuel)
      | S fuel' =>
          if includes name visited then taint_loop fuel' rest visited
          else match loop_node nodes name with
               | Some node =>
                   match inputReferences (jget "settings" node) with
                   | inl e => inl (BadExpression e)
                   | inr roots => taint_loop fuel' (rev (List.filter (keeps_root name) roots) ++ rest) (name :: visited)
                   end
               | None =>
                   if includes name samples then inr true else taint_loop fuel' rest (name :: visited)
               end
      end
  end.

(** What a walk can still push: the roots of the loops it has not visited. *)
Definition roots_count (node : json) : nat :=
  match inputReferences (jget "settings" node) with inr roots => length roots | inl _ => 0%nat end.
Definition taint_fuel (pending : list string) : nat := length pending + list_sum (map roots_count nodes).
End preview.

Definition step_input (step : json) : option json := match jget "settings" step with Some s => jget "input" s | None => None end.

Definition preview_input (overrides : option json) (stepName : string) (step : json) : option json :=
  match overrides with
  | Some o => match jget stepName o with Some v => Some v | None => step_input step end
  | None => step_input step
  end.

(** [config] is the run's frozen configuration, [version] the trigger of its flow version. *)
Definition previewUsesUnqualifiedSamples (config : option RunExecutionConfig) (version : option json) (activeStepName : option string)
    : TaintError + bool :=
  match config with
  | None => inr false
  | Some c =>
      match stepNameToTest c with
      | None | Some EmptyString => inr false
      | Some tested =>
          match List.filter (fun name => negb (bool_decide (name = tested))) (own_keys (sampleData c ?? JObj [])) with
          | [] => inr false
          | samples =>
              let nodes := walkFlowNodes version in
              let stepName := activeStepName ?? tested in
              match find_node nodes stepName with
              | None => inl StepUnavailable
              | Some step =>
                  let trigger := version ?? JNull in
                  match inputReferences (preview_input (sampleInputOverride c) stepName step) with
                  | inl e => inl (BadExpression e)
                  | inr refs =>
                      let pending := rev (List.filter (fun name => negb (is_trigger trigger name)) refs) in
                      taint_loop nodes trigger tested samples (taint_fuel nodes pending) pending []
                  end
              end
          end
      end
  end.

Example templates_1 : template_expressions 0 "a {{x.y}} {{ {{z}}}} {{" = ["x.y"; " {{z"].
Proof. reflexivity. Qed.

(** ** Own entries *)

Lemma partition_perm {A} (p : A -> bool) (l : list A) : List.filter p l ++ List.filter (fun x => negb (p x)) l ≡ₚ l.
Proof.
  induction l as [|x l IH]; [done|]. simpl. destruct (p x); simpl; [by rewrite IH|].
  rewrite <- Permutation_middle. by rewrite IH.
Qed.

Lemma own_entries_perm fields : own_entries fields ≡ₚ foldl set_entry [] fields.
Proof. unfold own_entries. rewrite sort_by_perm. apply partition_perm. Qed.

Lemma set_entries_spec fields : wf (foldl set_entry [] fields) /\ forall k, map_get k (foldl set_entry [] fields) = assoc_get k fields.
Proof.
  induction fields as [|[k v] fields [IH1 IH2]] using rev_ind; [split; [constructor|done]|].
  rewrite foldl_app. cbn [foldl].
  change (set_entry (foldl set_entry [] fields) (k, v)) with (map_set k v (foldl set_entry [] fields)). split; [by apply wf_set|]. intros k'. rewrite map_get_set, IH2.
  unfold assoc_get. rewrite rev_app_distr. cbn [rev app List.find fst]. rewrite (bool_decide_ext (k = k') (k' = k)) by done.
  by case_bool_decide.
Qed.

Lemma own_entries_In fields k v : In (k, v) (own_entries fields) <-> assoc_get k fields = Some v.
Proof.
  destruct (set_entries_spec fields) as [Hw Hg]. rewrite <- Hg, (map_get_Some k v _ Hw).
  pose proof (own_entries_perm fields) as Hp. split; intros H; [by apply (Permutation_in _ Hp)|by apply (Permutation_in _ (symmetry Hp))].
Qed.

Definition entries_size (m : list (string * json)) : nat := list_sum (map (fun e => json_size (snd e)) m).

Lemma list_sum_perm (l1 l2 : list nat) : l1 ≡ₚ l2 -> list_sum l1 = list_sum l2.
Proof. induction 1; simpl; lia. Qed.

Lemma entries_size_perm m1 m2 : m1 ≡ₚ m2 -> entries_size m1 = entries_size m2.
Proof. intros H. unfold entries_size. by apply list_sum_perm, Permutation_map. Qed.

Lemma entries_size_delete k m : (entries_size (map_delete k m) <= entries_size m)%nat.
Proof. unfold entries_size, map_delete. induction m as [|e m IH]; simpl; [done|]. destruct (negb (key_eq k e)); simpl; lia. Qed.

Lemma own_entries_size fields : (entries_size (own_entries fields) <= entries_size fields)%nat.
Proof.
  rewrite (entries_size_perm _ _ (own_entries_perm fields)).
  induction fields as [|[k v] fields IH] using rev_ind; [done|]. rewrite foldl_app. cbn [foldl].
  change (set_entry (foldl set_entry [] fields) (k, v)) with (map_set k v (foldl set_entry [] fields)).
  rewrite (entries_size_perm _ _ (map_set_perm k v _ (proj1 (set_entries_spec fields)))).
  pose proof (entries_size_delete k (foldl set_entry [] fields)). unfold entries_size in *. rewrite map_app, list_sum_app. simpl. lia.
Qed.

Lemma own_values_size v : (match v with JStr _ => 0 | _ => stack_size (own_values v) end < json_size v)%nat.
Proof.
  unfold stack_size. destruct v as [| | | |items|fields]; try (simpl; lia).
  pose proof (own_entries_size fields) as H. unfold own_values. rewrite map_map.
  unfold entries_size in H. cbn [json_size]. lia.
Qed.

(** ** What an input mentions *)

(** [w] is [v] or lies somewhere under it. *)
Inductive part (w : json) : json -> Prop :=
  | part_here : part w w
  | part_item items u : In u items -> part w u -> part w (JArr items)
  | part_field k fields u : assoc_get k fields = Some u -> part w u -> part w (JObj fields).

(** Some text under [v] has a template whose expression refers to [x]. *)
Definition mentions (x : string) (v : json) : Prop :=
  exists text expression n, part (JStr text) v /\ In expression (template_expressions 0 text) /\
    starts_with "connections" expression = false /\ parse_script expression = inr n /\ refers x n.

Lemma mentions_own x v : (forall t, v <> JStr t) -> mentions x v <-> exists u, In u (own_values v) /\ mentions x u.
Proof.
  intros Hs. split.
  - intros (text & e & n & Hp & H). inversion Hp as [E|items u Hu Hp' E|k fields u Hu Hp' E]; [by destruct (Hs text)| |].
    + exists u. split; [done|]. by exists text, e, n.
    + exists u. split; [|by exists text, e, n]. apply in_map_iff. exists (k, u). split; [done|]. by apply own_entries_In.
  - intros (u & Hu & text & e & n & Hp & H). exists text, e, n. split; [|done].
    destruct v as [| | | |items|fields]; try done; [by eapply part_item|].
    apply in_map_iff in Hu as ([k w] & <- & Hu). apply own_entries_In in Hu. by eapply part_field.
Qed.

Definition mentions_in (x : string) (expressions : list string) : Prop :=
  exists expression n, In expression expressions /\ starts_with "connections" expression = false /\
    parse_script expression = inr n /\ refers x n.

Lemma mentions_text x text : mentions x (JStr text) <-> mentions_in x (template_expressions 0 text).
Proof.
  split; [intros (t & e & n & Hp & H); inversion Hp; subst; by exists e, n|].
  intros (e & n & H). exists text, e, n. split; [constructor|done].
Qed.

Lemma add_names_In x names references : In x (add_names names references) <-> In x names \/ In x references.
Proof.
  unfold add_names. revert references. induction names as [|y names IH]; intros refs; cbn [foldl]; [simpl; tauto|].
  rewrite IH. destruct (includes y refs) eqn:E.
  - apply includes_In in E. simpl. split; [tauto|]. intros [[->|H]|H]; tauto.
  - rewrite in_app_iff. simpl. tauto.
Qed.

Lemma reference_names expression :
  match workflowExpressionReferences expression with
  | inl e => e <> OutOfFuel
  | inr names => forall x, In x names <-> exists n, parse_script expression = inr n /\ refers x n
  end.
Proof.
  unfold workflowExpressionReferences. pose proof (parse_script_terminates expression) as Ht.
  destruct (parse_script expression) as [e|n]; [congruence|].
  destruct (reference_loop_spec (node_size n) [n] []) as (refs & -> & _ & H); [simpl; lia|constructor|].
  intros x. rewrite H. simpl. naive_solver.
Qed.

Lemma text_references_spec expressions references :
  match text_references expressions references with
  | inl e => e <> OutOfFuel
  | inr refs => forall x, In x refs <-> In x references \/ mentions_in x expressions
  end.
Proof.
  revert references. induction expressions as [|e l IH]; intros refs; cbn [text_references].
  - intros x. unfold mentions_in. simpl. naive_solver.
  - assert (forall x, mentions_in x (e :: l) <-> (starts_with "connections" e = false /\ exists n, parse_script e = inr n /\ refers x n) \/ mentions_in x l) as Hc
      by (intros x; unfold mentions_in; simpl; naive_solver).
    destruct (starts_with "connections" e) eqn:Es.
    + specialize (IH refs). destruct (text_references l refs) as [f|out]; [done|]. intros x. rewrite IH, Hc. naive_solver.
    + pose proof (reference_names e) as Hn. destruct (workflowExpressionReferences e) as [f|names]; [done|].
      specialize (IH (add_names names refs)). destruct (text_references l _) as [f|out]; [done|].
      intros x. rewrite IH, add_names_In, Hn, Hc. naive_solver.
Qed.

Lemma input_loop_spec fuel pending references : (stack_size pending <= fuel)%nat ->
  match input_loop fuel pending references with
  | inl e => e <> OutOfFuel
  | inr refs => forall x, In x refs <-> In x references \/ exists v, In v pending /\ mentions x v
  end.
Proof.
  revert pending references. induction fuel as [|fuel IH]; intros [|v rest] references Hf; cbn [input_loop].
  1,3: intros x; simpl; naive_solver.
  - pose proof (json_size_pos v). unfold stack_size in Hf. simpl in Hf. lia.
  - change (json_size v + stack_size rest <= S fuel)%nat in Hf. pose proof (json_size_pos v) as Hpos. pose proof (own_values_size v) as Hs.
    assert ((exists t, v = JStr t) \/ forall t, v <> JStr t) as [[text ->]|Hn] by (destruct v; try (by right); left; by eexists).
    + pose proof (text_references_spec (template_expressions 0 text) references) as Ht.
      destruct (text_references _ references) as [e|refs]; [done|].
      specialize (IH rest refs ltac:(simpl in Hf; lia)). destruct (input_loop fuel rest refs) as [e|out]; [done|].
      intros x. rewrite IH, Ht, <- mentions_text. simpl. naive_solver.
    + replace (match v with JStr text => _ | _ => _ end) with (input_loop fuel (rev (own_values v) ++ rest) references)
        by (destruct v as [| | |t| |]; try done; by destruct (Hn t)).
      replace (match v with JStr _ => 0%nat | _ => _ end) with (stack_size (own_values v)) in Hs by (destruct v as [| | |t| |]; try done; by destruct (Hn t)).
      specialize (IH (rev (own_values v) ++ rest) references).
      assert (stack_size (rev (own_values v) ++ rest) <= fuel)%nat as Hle.
      { unfold stack_size at 1. rewrite map_app, list_sum_app, map_rev, list_sum_rev. fold (stack_size (own_values v)) (stack_size rest). lia. }
      specialize (IH Hle). destruct (input_loop fuel _ references) as [e|out]; [done|].
      intros x. rewrite IH. pose proof (mentions_own x v) as Hm. simpl. setoid_rewrite in_app_iff. setoid_rewrite <- in_rev.
      specialize (Hm Hn). naive_solver.
Qed.

(** ** What a preview depends on *)

Lemma list_sum_map_le {A} (f g : A -> nat) l : (forall x, In x l -> (f x <= g x)%nat) -> (list_sum (map f l) <= list_sum (map g l))%nat.
Proof.
  induction l as [|x l IH]; intros H; [done|]. change (f x + list_sum (map f l) <= g x + list_sum (map g l))%nat.
  pose proof (H x (or_introl eq_refl)). specialize (IH (fun y Hy => H y (or_intror Hy))). lia.
Qed.

Lemma list_sum_map_drop {A} (f g : A -> nat) l x d : (forall y, (f y <= g y)%nat) -> In x l -> (f x + d <= g x)%nat ->
  (list_sum (map f l) + d <= list_sum (map g l))%nat.
Proof.
  intros Hle Hin Hd. induction l as [|y l IH]; [done|]. change (f y + list_sum (map f l) + d <= g y + list_sum (map g l))%nat.
  destruct Hin as [->|Hin]; [pose proof (list_sum_map_le f g l (fun z _ => Hle z)); lia|].
  specialize (IH Hin). pose proof (Hle y). lia.
Qed.

Section taint.
Variables (nodes : list json) (trigger : json) (tested : string) (samples : list string).

(** A loop's output depends on what its settings mention. *)
Definition loop_root (name root : string) : Prop :=
  exists node settings, loop_node nodes name = Some node /\ jget "settings" node = Some settings /\
    mentions root settings /\ keeps_root trigger tested name root = true.

(** The names whose saved output the names of [start] depend on. *)
Inductive flows (start : string -> Prop) : string -> Prop :=
  | flows_start x : start x -> flows start x
  | flows_loop x y : flows start x -> loop_root x y -> flows start y.

Definition sampled (x : string) : Prop := loop_node nodes x = None /\ In x samples.

Lemma flows_mono (P Q : string -> Prop) x : (forall y, P y -> flows Q y) -> flows P x -> flows Q x.
Proof. intros H. induction 1; [by apply H|by eapply flows_loop]. Qed.

Lemma flows_closed (start V : string -> Prop) x : (forall y, start y -> V y) ->
  (forall y z, V y -> loop_root y z -> V z) -> flows start x -> V x.
Proof. intros H1 H2. induction 1; [by apply H1|by eapply H2]. Qed.

Definition named (visited : list string) (node : json) : bool := existsb (jstr_is (jget "name" node)) visited.
Definition weight_of (visited : list string) (node : json) : nat := if named visited node then 0 else roots_count node.
Definition weight (visited : list string) : nat := list_sum (map (weight_of visited) nodes).

Lemma find_node_In name node : find_node nodes name = Some node -> In node nodes /\ jstr_is (jget "name" node) name = true.
Proof. intros [H1 H2]%List.find_some. split; [by apply in_rev|done]. Qed.

Lemma jstr_is_inj o a b : jstr_is o a = true -> jstr_is o b = true -> a = b.
Proof. unfold jstr_is. destruct o as [[| | |t| |]|]; try done. intros H1 H2. to_prop. congruence. Qed.

Lemma weight_of_visit name visited node : (weight_of (name :: visited) node <= weight_of visited node)%nat.
Proof.
  unfold weight_of, named. cbn [existsb].
  destruct (jstr_is (jget "name" node) name), (existsb (jstr_is (jget "name" node)) visited); cbn [orb]; lia.
Qed.

Lemma weight_visit name visited : (weight (name :: visited) <= weight visited)%nat.
Proof. apply list_sum_map_le. intros n _. apply weight_of_visit. Qed.

Lemma weight_loop name visited node : find_node nodes name = Some node -> ~ In name visited ->
  (weight (name :: visited) + roots_count node <= weight visited)%nat.
Proof.
  intros [Hin Hn]%find_node_In Hv.
  assert (named visited node = false) as Hun.
  { apply not_true_iff_false. intros (v & Hv' & Hs)%existsb_exists. by rewrite <- (jstr_is_inj _ _ _ Hs Hn) in Hv. }
  apply (list_sum_map_drop _ _ _ node); [apply weight_of_visit|done|].
  unfold weight_of, named in *. cbn [existsb]. by rewrite Hn, Hun.
Qed.

Lemma inputReferences_spec input :
  match inputReferences input with
  | inl e => e <> OutOfFuel
  | inr refs => forall x, In x refs <-> exists v, input = Some v /\ mentions x v
  end.
Proof.
  unfold inputReferences. destruct input as [v|]; [|intros x; simpl; naive_solver].
  pose proof (input_loop_spec (json_size v) [v] [] ltac:(unfold stack_size; simpl; lia)) as H.
  destruct (input_loop _ _ _) as [e|refs]; [done|]. intros x. rewrite H. simpl. naive_solver.
Qed.

(** What a walk that found nothing has shown: a closed set without samples. *)
Definition closed (V : string -> Prop) : Prop := forall v, V v -> ~ sampled v /\ forall y, loop_root v y -> V y.

Lemma taint_loop_spec fuel pending visited : (length pending + weight visited <= fuel)%nat ->
  (forall v, In v visited -> ~ sampled v /\ forall y, loop_root v y -> In y visited \/ In y pending) ->
  match taint_loop nodes trigger tested samples fuel pending visited with
  | inl e => exists f, e = BadExpression f /\ f <> OutOfFuel
  | inr true => exists x, flows (fun y => In y pending) x /\ sampled x
  | inr false => exists V, closed V /\ forall y, In y pending \/ In y visited -> V y
  end.
Proof.
  revert pending visited. induction fuel as [|fuel IH]; intros [|name rest] visited Hf Hv; cbn [taint_loop].
  1,3: exists (fun y => In y visited); split; [intros v Hin; destruct (Hv v Hin) as [H1 H2]; split; [done|]; intros y Hy; by destruct (H2 y Hy)|]; intros y [[]|]; done.
  - simpl in Hf. lia.
  - cbn [length] in Hf. destruct (includes name visited) eqn:Ei; [|apply includes_false in Ei].
    + apply includes_In in Ei. specialize (IH rest visited ltac:(lia)). destruct (taint_loop _ _ _ _ fuel rest visited) as [e|[]].
      * apply IH. intros v Hin. destruct (Hv v Hin) as [H1 H2]. split; [done|]. intros y Hy. destruct (H2 y Hy) as [|[<-|]]; tauto.
      * destruct IH as (x & Hx & Hs).
        { intros v Hin. destruct (Hv v Hin) as [H1 H2]. split; [done|]. intros y Hy. destruct (H2 y Hy) as [|[<-|]]; tauto. }
        exists x. split; [|done]. eapply flows_mono; [|exact Hx]. intros y Hy. apply flows_start. by right.
      * destruct IH as (V & HV & Hin).
        { intros v Hin. destruct (Hv v Hin) as [H1 H2]. split; [done|]. intros y Hy. destruct (H2 y Hy) as [|[<-|]]; tauto. }
        exists V. split; [done|]. intros y [[<-|Hy]|Hy]; apply Hin; tauto.
    + destruct (loop_node nodes name) as [node|] eqn:En.
      * assert (find_node nodes name = Some node) as Hfind.
        { unfold loop_node in En. destruct (find_node nodes name) as [n|]; [|done]. by destruct (jstr_is _ _); simplify_eq. }
        pose proof (inputReferences_spec (jget "settings" node)) as Hr. pose proof (weight_loop name visited node Hfind Ei) as Hw.
        unfold roots_count in Hw. destruct (inputReferences (jget "settings" node)) as [e|roots]; [by exists e|].
        assert (forall y, loop_root name y <-> In y (rev (List.filter (keeps_root trigger tested name) roots))) as Hroot.
        { intros y. rewrite <- in_rev, filter_In, Hr. unfold loop_root. rewrite En. naive_solver. }
        specialize (IH (rev (List.filter (keeps_root trigger tested name) roots) ++ rest) (name :: visited)).
        assert (length (rev (List.filter (keeps_root trigger tested name) roots) ++ rest) + weight (name :: visited) <= fuel)%nat as Hlen.
        { rewrite length_app, length_rev. pose proof (List.filter_length_le (keeps_root trigger tested name) roots). lia. }
        specialize (IH Hlen).
        assert (forall v, In v (name :: visited) -> ~ sampled v /\ forall y, loop_root v y -> In y (name :: visited) \/
                  In y (rev (List.filter (keeps_root trigger tested name) roots) ++ rest)) as Hv'.
        { intros v [<-|Hin]; [split; [by intros [Hs _]; rewrite En in Hs|]; intros y Hy%Hroot; right; apply in_app_iff; by left|].
          destruct (Hv v Hin) as [H1 H2]. split; [done|]. intros y Hy. rewrite in_app_iff. destruct (H2 y Hy) as [|[<-|]]; simpl; tauto. }
        specialize (IH Hv'). destruct (taint_loop _ _ _ _ fuel _ _) as [e|[]]; [done| |].
        -- destruct IH as (x & Hx & Hs). exists x. split; [|done]. eapply flows_mono; [|exact Hx].
           intros y [Hy%Hroot|Hy]%in_app_iff; [|apply flows_start; by right]. eapply flows_loop; [apply flows_start; by left|done].
        -- destruct IH as (V & HV & Hin). exists V. split; [done|]. intros y [[<-|Hy]|Hy]; apply Hin; rewrite ?in_app_iff; simpl; tauto.
      * destruct (includes name samples) eqn:Es.
        -- apply includes_In in Es. exists name. split; [apply flows_start; by left|done].
        -- apply includes_false in Es. specialize (IH rest (name :: visited)). pose proof (weight_visit name visited).
           specialize (IH ltac:(lia)).
           assert (forall v, In v (name :: visited) -> ~ sampled v /\ forall y, loop_root v y -> In y (name :: visited) \/ In y rest) as Hv'.
           { intros v [<-|Hin]; [split; [by intros [_ ?]|]; intros y (? & ? & Hl & _); by rewrite En in Hl|].
             destruct (Hv v Hin) as [H1 H2]. split; [done|]. intros y Hy. destruct (H2 y Hy) as [|[<-|]]; simpl; tauto. }
           specialize (IH Hv'). destruct (taint_loop _ _ _ _ fuel _ _) as [e|[]]; [done| |].
           ++ destruct IH as (x & Hx & Hs). exists x. split; [|done]. eapply flows_mono; [|exact Hx]. intros y Hy. apply flows_start. by right.
           ++ destruct IH as (V & HV & Hin). exists V. split; [done|]. intros y [[<-|Hy]|Hy]; apply Hin; simpl; tauto.
Qed.
End taint.

(** What the previewed step reads: the names its input mentions, the trigger apart,
    whose payload is this run's own. *)
Definition preview_reads (c : RunExecutionConfig) (trigger : json) (stepName : string) (step : json) (x : string) : Prop :=
  is_trigger trigger x = false /\
  exists input, preview_input (sampleInputOverride c) stepName step = Some input /\ mentions x input.

(** The check of a preview ends, and its answer is exact: it says that unqualified
    samples are used iff a saved sample of a step other than the tested one can be
    reached from a name the step's input mentions, following the items of loops and
    nothing else, where a mention is a reference in a template of a text anywhere in
    the input. It fails only when an expression on the way does not parse. *)
Theorem preview_taint_exact (c : RunExecutionConfig) (tested : string) (trigger : json) (active : option string) (step : json) :
  stepNameToTest c = Some tested -> tested <> EmptyString ->
  find_node (walkFlowNodes (Some trigger)) (active ?? tested) = Some step ->
  match previewUsesUnqualifiedSamples (Some c) (Some trigger) active with
  | inl StepUnavailable | inl (BadExpression OutOfFuel) => False
  | inl (BadExpression _) => True
  | inr tainted => tainted = true <->
      exists x, flows (walkFlowNodes (Some trigger)) trigger tested (preview_reads c trigger (active ?? tested) step) x /\
        loop_node (walkFlowNodes (Some trigger)) x = None /\
        In x (own_keys (sampleData c ?? JObj [])) /\ x <> tested
  end.
Proof.
  intros Ht Hne Hs. unfold previewUsesUnqualifiedSamples. rewrite Ht. destruct tested as [|ch name]; [done|].
  set (tested := String ch name) in *.
  destruct (List.filter _ _) as [|s samples0] eqn:Ef.
  { split; [done|]. intros (x & _ & _ & Hin & Hx). assert (In x []) as []. rewrite <- Ef. apply filter_In. split; [done|].
    by rewrite bool_decide_false. }
  assert (forall x, In x (s :: samples0) <-> In x (own_keys (sampleData c ?? JObj [])) /\ x <> tested) as Hsamples.
  { intros x. rewrite <- Ef, filter_In. apply and_iff_compat_l. rewrite negb_true_iff, bool_decide_eq_false. done. }
  clear Ef. revert Hsamples. generalize (s :: samples0) as samples. intros samples Hsamples.
  rewrite Hs. cbn [default]. unfold id.
  pose proof (inputReferences_spec (preview_input (sampleInputOverride c) (active ?? tested) step)) as Hr.
  destruct (inputReferences _) as [e|refs]; [by destruct e|].
  set (pending := rev _). set (nodes := walkFlowNodes (Some trigger)) in *.
  assert (forall x, In x pending <-> preview_reads c trigger (active ?? tested) step x) as Hp.
  { intros x. unfold pending, preview_reads. rewrite <- in_rev, filter_In, Hr, negb_true_iff. tauto. }
  pose proof (taint_loop_spec nodes trigger tested samples (taint_fuel nodes pending) pending []) as H.
  assert (forall x, loop_node nodes x = None /\ In x (own_keys (sampleData c ?? JObj [])) /\ x <> tested <-> sampled nodes samples x) as Hb
    by (intros x; unfold sampled; rewrite Hsamples; tauto).
  specialize (H ltac:(done) ltac:(by intros v [])). destruct (taint_loop _ _ _ _ _ _ _) as [e|[]].
  - destruct H as (f & -> & Hf). by destruct f.
  - split; [|done]. intros _. destruct H as (x & Hx & Hsam). exists x. split; [|by apply Hb].
    eapply flows_mono; [|exact Hx]. intros y Hy. apply flows_start. by apply Hp.
  - split; [done|]. destruct H as (V & HV & Hin). intros (x & Hx & Hsam%Hb).
    assert (V x) as Hvx.
    { eapply flows_closed; [| |exact Hx]; [intros y Hy; apply Hin; left; by apply Hp|intros y z Hy Hl; by apply (HV y)]. }
    by destruct (HV x Hvx).
Qed.

(** ** A preview inside a loop *)

Definition demo_step : json :=
  JObj [("name", JStr "act"); ("type", JStr "PIECE");
        ("settings", JObj [("input", JObj [("element", JStr "use {{loop.item}} of {{trigger.body}}")])])].
Definition demo_trigger : json :=
  JObj [("name", JStr "trigger"); ("type", JStr "EMPTY");
        ("nextAction", JObj [("name", JStr "loop"); ("type", JStr "LOOP_ON_ITEMS");
           ("settings", JObj [("items", JStr "{{ search['hits'] }}")]); ("firstLoopAction", demo_step)])].
Definition demo_samples (names : list string) : RunExecutionConfig :=
  mkRunConfig (Some "act") (Some (JObj (map (fun n => (n, JNum 1)) names))) None.

Example preview_unrelated : previewUsesUnqualifiedSamples (Some (demo_samples ["act"; "trigger"; "other"])) (Some demo_trigger) None = inr false.
Proof. vm_compute. reflexivity. Qed.

Lemma preview_taint_exact_witness :
  previewUsesUnqualifiedSamples (Some (demo_samples ["act"; "search"])) (Some demo_trigger) None = inr true /\
  match previewUsesUnqualifiedSamples (Some (demo_samples ["act"; "search"])) (Some demo_trigger) None with
  | inl StepUnavailable | inl (BadExpression OutOfFuel) => False
  | inl (BadExpression _) => True
  | inr tainted => tainted = true <->
      exists x, flows (walkFlowNodes (Some demo_trigger)) demo_trigger "act"
          (preview_reads (demo_samples ["act"; "search"]) demo_trigger "act" demo_step) x /\
        loop_node (walkFlowNodes (Some demo_trigger)) x = None /\
        In x (own_keys (sampleData (demo_samples ["act"; "search"]) ?? JObj [])) /\ x <> "act"
  end.
Proof.
  split; [vm_compute; reflexivity|]. apply preview_taint_exact; [reflexivity|discriminate|vm_compute; reflexivity].
Defined.
