(* ===== verification/MachineBinding.v ===== *)
(** * The machine a run acts on (workflows/runtime/machine-binding.ts, workflows/db/repos/run-machine-binding.ts)

    The first action of a run that needs a computer binds the run to one machine and
    one connection of it; every later dispatch is checked against that record. The
    connected machines, the flags and the rest of the database are whatever they
    are at each call, so the operations take them as arguments and only the table
    of bindings is threaded. [run_acts_on_one_machine] is what the checks promise
    over any sequence of calls by any runs. *)
From S2P Require Export EffectBoundary SampleTaint.

(** ** Data *)

Inductive SidecarCapability :=
  | cap_terminal | cap_filesystem | cap_desktop | cap_browser | cap_clipboard | cap_screenshot
  | cap_system_info | cap_awareness | cap_windows | cap_pebble | cap_sub_pebble.
#[export] Instance SidecarCapability_eq_dec : EqDecision SidecarCapability.
Proof. solve_decision. Defined.

Record SidecarInfo := mkSidecar {
  sc_id : string; sc_name : string; connected : bool;
  capabilities : option (list SidecarCapability); unavailable_capabilities : option (list SidecarCapability) }.

Inductive SelectedBy := selected_implicit | selected_explicit.
Record RunMachineBinding := mkBinding {
  mb_runId : string; mb_sidecarId : option string; mb_sessionId : option string; selectedBy : SelectedBy; boundAt : Z }.
#[export] Instance binding_row_key : Row RunMachineBinding := mb_runId.

(** The sidecar manager, the local process and its flags at one call. *)
Record Machines := mkMachines {
  inventory : list SidecarInfo; getConnectionSessionId : string -> option string;
  localSessionId : string; noLocalTools : bool }.

Definition PERCEPTION_CAPABILITIES : list SidecarCapability := [cap_desktop; cap_browser; cap_screenshot].

Inductive BindError := Refused (e : EffectError) | Unparsed (e : failure).

Definition machineBindingBlocked (code reason : string) : BindError :=
  Refused (outcome_error (mkFailure failure_blocked code
    (reason +:+ " No action was dispatched. Review the recorded results and start a new run with an explicit target and fresh approvals; do not replay completed work.") true)).

(** ** The table *)

Definition getRunMachineBinding (runId : string) (t : list RunMachineBinding) : option RunMachineBinding := get_row runId t.

(** Earlier work of the run that names a machine without a recorded session;
    the columns are members of the record's JSON. *)
Definition text_in (o : option json) (texts : list string) : bool :=
  match o with Some (JStr s) => includes s texts | _ => false end.
(** [COALESCE(json_extract(...), 0) < 1]: a text is above every number. *)
Definition below_one (o : option json) : bool :=
  match o with
  | None | Some JNull => true
  | Some (JNum n) => n <? 1
  | Some (JBool b) => negb b
  | Some (JStr _) | Some (JArr _) | Some (JObj _) => false
  end.
Definition unbound_work (runId : string) (e : WorkflowEffect) : bool :=
  let i := identity e in
  bool_decide (ef_runId i = runId) &&
  (text_in (assoc_get "selection" (ef_target i)) ["pinned-sidecar"; "local-host"]
   || match assoc_get "sidecarId" (ef_target i) with Some _ => true | None => false end
   || (bool_decide (ef_route i = "agent") && below_one (assoc_get "machineBindingVersion" (provenance i)))).

(** The transaction: the first writer binds the run. [select] may refuse. *)
Definition ensureRunMachineBinding (w : EffectWorld) (runId projectId : string) (now : Z)
    (select : BindError + (option string * option string * SelectedBy)) (t : list RunMachineBinding)
    : list RunMachineBinding * (BindError + RunMachineBinding) :=
  let identity_mismatch := machineBindingBlocked "WORKFLOW_BINDING_IDENTITY" "The machine binding does not match an active workflow run." in
  match getFlowRun runId (ew_db w) with
  | None => (t, inl identity_mismatch)
  | Some run =>
      if negb (bool_decide (run_project_id run = projectId)) || negb (bool_decide (run_status run = RUN_RUNNING))
      then (t, inl identity_mismatch)
      else match getRunMachineBinding runId t with
           | Some existing => (t, inr existing)
           | None =>
               if existsb (unbound_work runId) (ew_effects w)
               then (t, inl (machineBindingBlocked "WORKFLOW_BINDING_LEGACY" "Earlier workflow work has no verifiable machine/session binding."))
               else match select with
                    | inl e => (t, inl e)
                    | inr (sidecarId, sessionId, by_) =>
                        let binding := mkBinding runId sidecarId sessionId by_ now in
                        match insert_row binding t with
                        | Some t' => (t', inr binding)
                        | None => (t, inl (Refused (plain_error "UNIQUE constraint failed: workflow_run_machine_binding.run_id")))
                        end
                    end
           end
  end.

(** ** Choosing a machine *)

Definition ambiguous (selector : string) : BindError :=
  machineBindingBlocked "WORKFLOW_TARGET_AMBIGUOUS" ("Workflow target " +:+ String dquote (selector +:+ String dquote " is missing or ambiguous.")).

Definition identify (selector : string) (inv : list SidecarInfo) : BindError + SidecarInfo :=
  match List.find (fun s => bool_decide (sc_id s = selector)) inv with
  | Some exact => inr exact
  | None =>
      let named := List.filter (fun s => bool_decide (to_lower (sc_name s) = to_lower selector)) inv in
      let matches := match named with [] => List.filter (fun s => str_includes (to_lower selector) (to_lower (sc_name s))) inv | _ => named end in
      match matches with [s] => inr s | _ => inl (ambiguous selector) end
  end.

Definition has_cap (o : option (list SidecarCapability)) (c : SidecarCapability) : bool :=
  match o with Some l => includes c l | None => false end.
Definition capable (capability : option SidecarCapability) (s : SidecarInfo) : bool :=
  match capability with Some c => has_cap (capabilities s) c && negb (has_cap (unavailable_capabilities s) c) | None => true end.

Record BindContext := mkBindContext { bc_runId : string; bc_projectId : string; bc_stepName : option string }.

(** The run's frozen configuration and the trigger of its version. *)
Definition preview_of (w : EffectWorld) (ctx : BindContext) : TaintError + bool :=
  let row := getFlowRun (bc_runId ctx) (ew_db w) in
  let version := match row with Some r => get_row (run_flow_version_id r) (ew_versions w) | None => None end in
  previewUsesUnqualifiedSamples (match row with Some r => execution_config r | None => None end)
    (version_trigger <$> version) (bc_stepName ctx).

Definition perceives (capability : option SidecarCapability) : bool :=
  match capability with Some c => includes c PERCEPTION_CAPABILITIES | None => false end.

(** The sample check: [Some] refuses. *)
Definition sample_check (w : EffectWorld) (ctx : BindContext) : option BindError :=
  match preview_of w ctx with
  | inr false => None
  | inr true => Some (machineBindingBlocked "WORKFLOW_SAMPLE_BINDING_UNKNOWN"
      "Referenced test outputs have no verified machine/session provenance. Run the required perception steps again in a full run.")
  | inl StepUnavailable => Some (machineBindingBlocked "WORKFLOW_SAMPLE_BINDING_UNKNOWN" "The saved preview step is unavailable for provenance validation.")
  | inl (BadExpression e) => Some (Unparsed e)
  end.

Definition selector_of (explicit : option json) : option string :=
  match explicit with
  | Some (JStr s) => match trim s with EmptyString => None | t => Some t end
  | _ => None
  end.

(** The machine for a run without a binding. *)
Definition select_machine (m : Machines) (requested selector : option string) (capability : option SidecarCapability)
    : BindError + (option string * option string * SelectedBy) :=
  let sidecarId := match requested with
                   | Some id => Some id
                   | None => sc_id <$> List.find (fun s => connected s && capable capability s) (inventory m)
                   end in
  match sidecarId with
  | None =>
      if noLocalTools m
      then inl (machineBindingBlocked "WORKFLOW_MACHINE_UNAVAILABLE" "No capable sidecar is connected and local execution is disabled.")
      else inr (None, Some (localSessionId m), match selector with Some _ => selected_explicit | None => selected_implicit end)
  | Some id => inr (Some id, getConnectionSessionId m id, match selector with Some _ => selected_explicit | None => selected_implicit end)
  end.

Definition show_machine (id : option string) : string := id ?? "the local host".

Definition resolveTarget (w : EffectWorld) (m : Machines) (now : Z) (ctx : BindContext) (explicit : option json)
    (capability : option SidecarCapability) (t : list RunMachineBinding) : list RunMachineBinding * (BindError + option string) :=
  if negb (run_not_canceled (bc_runId ctx) (ew_db w)) then (t, inl (Refused (plain_error (canceled_message (bc_runId ctx)))))
  else
    let selector := selector_of explicit in
    let prior := getRunMachineBinding (bc_runId ctx) t in
    let checked := match capability, prior with None, None => true | _, _ => perceives capability end in
    match (if checked then sample_check w ctx else None) with
    | Some e => (t, inl e)
    | None =>
        let requested := match selector with
                         | Some s =>
                             if bool_decide ((prior ≫= mb_sidecarId) = Some s) then inr (Some s)
                             else match identify s (inventory m) with inl e => inl e | inr found => inr (Some (sc_id found)) end
                         | None => inr None
                         end in
        match requested with
        | inl e => (t, inl e)
        | inr requested =>
            match ensureRunMachineBinding w (bc_runId ctx) (bc_projectId ctx) now (select_machine m requested selector capability) t with
            | (t', inl e) => (t', inl e)
            | (t', inr binding) =>
                match requested with
                | Some r =>
                    if truthy r && negb (bool_decide (Some r = mb_sidecarId binding))
                    then (t', inl (machineBindingBlocked "WORKFLOW_RETARGET_REQUIRED"
                           ("Run is bound to " +:+ show_machine (mb_sidecarId binding) +:+ "; retargeting to " +:+ r +:+ " requires a new decision.")))
                    else (t', inr (mb_sidecarId binding))
                | None => (t', inr (mb_sidecarId binding))
                end
            end
        end
    end.

(** ** The fence before a dispatch *)

Definition id_json (id : option string) : option json := match id with Some s => Some (JStr s) | None => Some JNull end.

Definition capability_text (c : SidecarCapability) : string :=
  match c with
  | cap_terminal => "terminal" | cap_filesystem => "filesystem" | cap_desktop => "desktop" | cap_browser => "browser"
  | cap_clipboard => "clipboard" | cap_screenshot => "screenshot" | cap_system_info => "system_info"
  | cap_awareness => "awareness" | cap_windows => "windows" | cap_pebble => "pebble" | cap_sub_pebble => "sub_pebble"
  end.

Definition session_changed (id : string) : BindError :=
  machineBindingBlocked "WORKFLOW_SESSION_CHANGED" ("The connection session for bound computer " +:+ id +:+ " changed or cannot be verified.").

(** The checks of the bound machine. *)
Definition check_machine (m : Machines) (binding : RunMachineBinding) (sidecarId : option string) (capability : option SidecarCapability)
    : option BindError :=
  match sidecarId with
  | None =>
      if noLocalTools m || negb (bool_decide (mb_sessionId binding = Some (localSessionId m)))
      then Some (machineBindingBlocked "WORKFLOW_SESSION_CHANGED" "The bound local session changed or local tools were disabled.")
      else None
  | Some id =>
      match List.find (fun s => bool_decide (sc_id s = id)) (inventory m) with
      | Some sidecar =>
          if negb (connected sidecar)
          then Some (machineBindingBlocked "WORKFLOW_MACHINE_OFFLINE" ("Bound computer " +:+ id +:+ " is offline or no longer enrolled."))
          else if negb (truthy_opt (mb_sessionId binding)) || negb (bool_decide (getConnectionSessionId m id = mb_sessionId binding))
          then Some (session_changed id)
          else match capability with
               | Some c =>
                   if negb (capable capability sidecar)
                   then Some (machineBindingBlocked "WORKFLOW_CAPABILITY_UNAVAILABLE"
                          ("Bound computer " +:+ id +:+ " lacks the " +:+ capability_text c +:+ " capability."))
                   else None
               | None => None
               end
      | None => Some (machineBindingBlocked "WORKFLOW_MACHINE_OFFLINE" ("Bound computer " +:+ id +:+ " is offline or no longer enrolled."))
      end
  end.

Definition assertDispatch (w : EffectWorld) (m : Machines) (now : Z) (ctx : BindContext) (sidecarId : option string)
    (capability : option SidecarCapability) (t : list RunMachineBinding) : list RunMachineBinding * (BindError + ()) :=
  match resolveTarget w m now ctx (id_json sidecarId) capability t with
  | (t', inl e) => (t', inl e)
  | (t', inr target) =>
      if negb (bool_decide (target = sidecarId))
      then (t', inl (machineBindingBlocked "WORKFLOW_RETARGET_REQUIRED" "Dispatch does not match the bound machine."))
      else match getRunMachineBinding (bc_runId ctx) t' with
           | None => (t', inl (Refused (plain_error "Cannot read properties of null (reading 'sessionId')")))
           | Some binding =>
               match check_machine m binding sidecarId capability with
               | Some e => (t', inl e)
               | None => (t', inr tt)
               end
           end
  end.

(** ** Calls of any runs, each in whatever state the daemon is in *)

Inductive MachineOp :=
  | OpResolve (explicit : option json) (capability : option SidecarCapability)
  | OpDispatch (sidecarId : option string) (capability : option SidecarCapability).

Record MachineCall := mkCall { mc_world : EffectWorld; mc_machines : Machines; mc_now : Z; mc_ctx : BindContext; mc_op : MachineOp }.

(** One call, and whether it let a dispatch through. *)
Definition machine_step (t : list RunMachineBinding) (c : MachineCall) : list RunMachineBinding * bool :=
  match mc_op c with
  | OpResolve explicit capability => ((resolveTarget (mc_world c) (mc_machines c) (mc_now c) (mc_ctx c) explicit capability t).1, false)
  | OpDispatch sidecarId capability =>
      let '(t', r) := assertDispatch (mc_world c) (mc_machines c) (mc_now c) (mc_ctx c) sidecarId capability t in
      (t', match r with inr _ => true | inl _ => false end)
  end.

Fixpoint dispatched (t : list RunMachineBinding) (calls : list MachineCall) : list MachineCall :=
  match calls with
  | [] => []
  | c :: rest => (if (machine_step t c).2 then [c] else []) ++ dispatched (machine_step t c).1 rest
  end.

Definition op_machine (c : MachineCall) : option string := match mc_op c with OpDispatch s _ => s | OpResolve _ _ => None end.
Definition op_capability (c : MachineCall) : option SidecarCapability :=
  match mc_op c with OpDispatch _ c => c | OpResolve _ c => c end.

(** The session a machine answers with at a call, when it can serve it. *)
Definition live_session (c : MachineCall) : option string :=
  match op_machine c with
  | None => if noLocalTools (mc_machines c) then None else Some (localSessionId (mc_machines c))
  | Some id =>
      match List.find (fun s => bool_decide (sc_id s = id)) (inventory (mc_machines c)) with
      | Some s => if connected s && capable (op_capability c) s then getConnectionSessionId (mc_machines c) id else None
      | None => None
      end
  end.

(** The run may act at a call, and on what the call names. *)
Definition run_cleared (c : MachineCall) : Prop :=
  let w := mc_world c in let rid := bc_runId (mc_ctx c) in
  getRunCancellation rid (ew_db w) = None /\
  (exists run, getFlowRun rid (ew_db w) = Some run /\ run_status run = RUN_RUNNING /\ run_project_id run = bc_projectId (mc_ctx c)) /\
  (perceives (op_capability c) = true -> preview_of w (mc_ctx c) = inr false).

(** ** Theorems *)

(** Bindings are only added. *)
Definition keeps_bindings (t t' : list RunMachineBinding) : Prop := forall k b, get_row k t = Some b -> get_row k t' = Some b.

Definition run_active (w : EffectWorld) (runId projectId : string) : Prop :=
  exists run, getFlowRun runId (ew_db w) = Some run /\ run_status run = RUN_RUNNING /\ run_project_id run = projectId.

(** A branch that leaves the table alone. *)
Ltac unchanged := intros [= <- <-]; split; [by intros ? ?|done].

Lemma ensure_binding_spec w runId projectId now select t t' r :
  ensureRunMachineBinding w runId projectId now select t = (t', r) ->
  keeps_bindings t t' /\ match r with inr b => get_row runId t' = Some b /\ run_active w runId projectId | inl _ => True end.
Proof.
  unfold ensureRunMachineBinding, run_active. destruct (getFlowRun runId (ew_db w)) as [run|]; [|unchanged].
  case_bool_decide as Hp; [|unchanged]. case_bool_decide as Hs; [|unchanged]. cbn [negb orb].
  assert (exists run', Some run = Some run' /\ run_status run' = RUN_RUNNING /\ run_project_id run' = projectId) as Hrun by (by exists run).
  destruct (getRunMachineBinding runId t) as [b|] eqn:Eb; [unchanged|].
  destruct (existsb _ _); [unchanged|]. destruct (select) as [e|[[sc se] by_]]; [unchanged|].
  destruct (insert_row _ t) as [t1|] eqn:Ei; [|unchanged]. intros [= <- <-]. split.
  - intros k b Hk. rewrite (get_row_insert _ _ _ k Ei). case_bool_decide as Hk'; [|done].
    unfold row_key, binding_row_key in Hk'. simpl in Hk'. subst k. unfold getRunMachineBinding in Eb. congruence.
  - split; [|done]. rewrite (get_row_insert _ _ _ _ Ei). by rewrite bool_decide_true.
Qed.

Lemma sample_check_passed w ctx : sample_check w ctx = None -> preview_of w ctx = inr false.
Proof. unfold sample_check. by destruct (preview_of w ctx) as [[]|[]]. Qed.

Lemma resolve_target_spec w m now ctx explicit capability t t' r :
  resolveTarget w m now ctx explicit capability t = (t', r) ->
  keeps_bindings t t' /\
  match r with
  | inl _ => True
  | inr target => (exists b, get_row (bc_runId ctx) t' = Some b /\ mb_sidecarId b = target) /\
      getRunCancellation (bc_runId ctx) (ew_db w) = None /\ run_active w (bc_runId ctx) (bc_projectId ctx) /\
      (perceives capability = true -> preview_of w ctx = inr false)
  end.
Proof.
  unfold resolveTarget, run_not_canceled. case_bool_decide as Hc; cbn [andb negb]; [|unchanged].
  destruct (negb (negb _)); [unchanged|].
  destruct (if match capability, getRunMachineBinding (bc_runId ctx) t with None, None => true | _, _ => perceives capability end
            then sample_check w ctx else None) as [e|] eqn:Es; [unchanged|].
  assert (perceives capability = true -> preview_of w ctx = inr false) as Hp.
  { intros Hp. apply sample_check_passed. rewrite Hp in Es. by destruct capability, (getRunMachineBinding (bc_runId ctx) t). }
  destruct (match selector_of explicit with Some s => _ | None => _ end) as [e|requested]; [unchanged|].
  destruct (ensureRunMachineBinding _ _ _ _ _ _) as [t1 [e|b]] eqn:Ee; apply ensure_binding_spec in Ee as [Hk Hb]; [by intros [= <- <-]|].
  destruct Hb as [Hb Hrun]. destruct requested as [q|]; [destruct (truthy q && _)|]; intros [= <- <-]; split; try done;
    (split; [by exists b|done]).
Qed.

Lemma check_machine_live c b : check_machine (mc_machines c) b (op_machine c) (op_capability c) = None ->
  exists session, mb_sessionId b = Some session /\ live_session c = Some session.
Proof.
  unfold check_machine, live_session. destruct (op_machine c) as [id|].
  - destruct (List.find _ _) as [s|]; [|done]. destruct (connected s); cbn [negb andb]; [|done].
    destruct (truthy_opt (mb_sessionId b)) eqn:Et; [|done]. case_bool_decide as Hs; cbn [negb orb]; [|done].
    destruct (mb_sessionId b) as [session|]; [|done]. intros H.
    assert (capable (op_capability c) s = true) as ->; [|by exists session].
    destruct (op_capability c) as [cap|]; [|done]. by destruct (capable (Some cap) s).
  - destruct (noLocalTools (mc_machines c)); [done|]. case_bool_decide as Hs; [|done]. intros _. by eexists.
Qed.

(** What a call that lets a dispatch through has established. *)
Definition bound_call (t : list RunMachineBinding) (c : MachineCall) : Prop :=
  exists b session, get_row (bc_runId (mc_ctx c)) t = Some b /\ mb_sidecarId b = op_machine c /\
    mb_sessionId b = Some session /\ live_session c = Some session.

Lemma machine_step_spec t c : keeps_bindings t (machine_step t c).1 /\
  ((machine_step t c).2 = true -> bound_call (machine_step t c).1 c /\ run_cleared c).
Proof.
  destruct c as [w m now ctx [explicit capability|sidecarId capability]]; unfold machine_step; cbn [mc_op mc_world mc_machines mc_now mc_ctx].
  - split; [|done]. destruct (resolveTarget w m now ctx explicit capability t) as [t' r] eqn:E. by apply resolve_target_spec in E as [? _].
  - unfold assertDispatch. destruct (resolveTarget _ _ _ _ _ _ _) as [t' [e|target]] eqn:E; apply resolve_target_spec in E as [Hk Hr]; [done|].
    case_bool_decide as Ht; cbn [negb]; [subst target|done]. destruct Hr as ((b & Hb & Hid) & Hc & Hrun & Hp).
    unfold getRunMachineBinding. rewrite Hb. destruct (check_machine m b sidecarId capability) as [e|] eqn:Em; [done|].
    cbn [fst snd]. split; [done|]. intros _. split.
    + destruct (check_machine_live (mkCall w m now ctx (OpDispatch sidecarId capability)) b Em) as (session & Hs & Hl).
      by exists b, session.
    + split; [done|]. split; [exact Hrun|exact Hp].
Qed.

Lemma dispatched_bound t calls c : In c (dispatched t calls) -> exists t', bound_call t' c /\ run_cleared c /\
  (forall b, get_row (bc_runId (mc_ctx c)) t = Some b -> get_row (bc_runId (mc_ctx c)) t' = Some b).
Proof.
  revert t. induction calls as [|d calls IH]; intros t; [done|]. cbn [dispatched]. destruct (machine_step_spec t d) as [Hk Hd].
  destruct (machine_step t d).2; intros Hin; cbn [app] in Hin.
  - destruct Hin as [<-|Hin]; [exists (machine_step t d).1; destruct (Hd eq_refl); split; [done|]; split; [done|]; apply Hk|].
    destruct (IH _ Hin) as (t' & H1 & H2 & H3). exists t'. split; [done|]. split; [done|]. intros b Hb. by apply H3, Hk.
  - destruct (IH _ Hin) as (t' & H1 & H2 & H3). exists t'. split; [done|]. split; [done|]. intros b Hb. by apply H3, Hk.
Qed.

Lemma same_machine t calls c1 c2 : In c1 (dispatched t calls) -> In c2 (dispatched t calls) ->
  bc_runId (mc_ctx c1) = bc_runId (mc_ctx c2) -> op_machine c1 = op_machine c2 /\ live_session c1 = live_session c2.
Proof.
  intros H1 H2 E. revert t H1 H2. induction calls as [|d calls IH]; intros t; [done|]. cbn [dispatched].
  destruct (machine_step_spec t d) as [_ Hd].
  assert (forall c c', bound_call (machine_step t d).1 c -> In c' (dispatched (machine_step t d).1 calls) ->
            bc_runId (mc_ctx c) = bc_runId (mc_ctx c') -> op_machine c = op_machine c' /\ live_session c = live_session c') as Hcross.
  { intros c c' (b & s & Hb & Hm & Hs & Hl) Hin Er. apply dispatched_bound in Hin as (t' & (b' & s' & Hb' & Hm' & Hs' & Hl') & _ & Hk).
    rewrite Er in Hb. apply Hk in Hb. assert (b = b') by congruence. subst b'. split; congruence. }
  destruct (machine_step t d).2; cbn [app]; [|by apply IH].
  destruct (Hd eq_refl) as [Hb _]. intros [<-|H1] [<-|H2]; [done| | |by apply (IH (machine_step t d).1)].
  - by apply Hcross.
  - destruct (Hcross d c1 Hb H1 (eq_sym E)). by split.
Qed.

(** C5: over any sequence of target resolutions and dispatches, by any runs, each with
    whatever machines, flags, runs and effects the daemon has at that moment: all the
    dispatches let through for one run name one machine, which is reachable, capable
    and answers with one and the same session at all of them; and each is for a run that
    is running, in its project and not canceled, and, when it perceives a screen, reads no
    unqualified sample. *)
Theorem run_acts_on_one_machine (calls : list MachineCall) (c1 c2 : MachineCall) :
  In c1 (dispatched [] calls) -> In c2 (dispatched [] calls) -> bc_runId (mc_ctx c1) = bc_runId (mc_ctx c2) ->
  op_machine c1 = op_machine c2 /\ (exists session, live_session c1 = Some session /\ live_session c2 = Some session) /\
  run_cleared c1 /\ run_cleared c2.
Proof.
  intros H1 H2 E. destruct (same_machine [] calls c1 c2 H1 H2 E) as [Hm Hl].
  apply dispatched_bound in H1 as (_ & (b & s & _ & _ & _ & Hs) & Hc1 & _). apply dispatched_bound in H2 as (_ & _ & Hc2 & _).
  split; [done|]. split; [exists s; by rewrite <- Hl|done].
Qed.

(** ** A run and its machines *)

Definition demo_pc (id session : string) : Machines :=
  mkMachines [mkSidecar id "Desk" true (Some [cap_desktop; cap_terminal]) None] (fun _ => Some session) "local-1" false.
Definition demo_ctx : BindContext := mkBindContext (run_id demo_flow_run) (run_project_id demo_flow_run) (Some "step_1").
Definition demo_dispatch (m : Machines) (id : option string) : MachineCall := mkCall demo_effect_world m 5 demo_ctx (OpDispatch id (Some cap_desktop)).
Definition demo_calls : list MachineCall :=
  [mkCall demo_effect_world (demo_pc "pc" "s1") 4 demo_ctx (OpResolve (Some (JStr " desk ")) None); demo_dispatch (demo_pc "pc" "s1") (Some "pc");
   demo_dispatch (demo_pc "pc" "s2") (Some "pc"); demo_dispatch (demo_pc "other" "s1") (Some "other"); demo_dispatch (demo_pc "pc" "s1") (Some "pc")].

Lemma run_acts_on_one_machine_witness :
  dispatched [] demo_calls = [demo_dispatch (demo_pc "pc" "s1") (Some "pc"); demo_dispatch (demo_pc "pc" "s1") (Some "pc")] /\
  exists session, live_session (demo_dispatch (demo_pc "pc" "s1") (Some "pc")) = Some session.
Proof.
  split; [vm_compute; reflexivity|].
  destruct (run_acts_on_one_machine demo_calls (demo_dispatch (demo_pc "pc" "s1") (Some "pc")) (demo_dispatch (demo_pc "pc" "s1") (Some "pc")))
    as (_ & (session & H & _) & _).
  - vm_compute. left. reflexivity.
  - vm_compute. left. reflexivity.
  - reflexivity.
  - exists session. exact H.
Defined.
