(* ===== verification/Triggers.v ===== *)
(** * The trigger manager (workflows/runner/triggers/manager.ts)

    Which flow is subscribed to what: cron jobs, webhook routes, bus events and
    engine-managed triggers. Registrations and teardowns await the engine, so they are
    split there: a refresh runs under its flow's lock ([inFlight]), the scan of [start] and
    the teardowns of [stop] run beside them, and [trigger_step] lets any other event come in
    between. The engine is a parameter: it appears as the answers it gives. *)
From S2P Require Export RunHandler.
From S2P Require Import JsMap.
From S2P Require CronJobs Webhook EventBuffer.

(** ** Data *)

Inductive SubscriptionKind := kind_cron | kind_webhook | kind_event | kind_engine.
#[export] Instance SubscriptionKind_eq_dec : EqDecision SubscriptionKind.
Proof. solve_decision. Defined.
Definition kind_name (k : SubscriptionKind) : string :=
  match k with kind_cron => "cron" | kind_webhook => "webhook" | kind_event => "event" | kind_engine => "engine" end.

(** The teardown closures: an engine trigger's records whether it has a cron job and a route. *)
Inductive Teardown := td_cron | td_webhook | td_event (handler : nat) | td_engine (cronTearDown webhookTearDown : bool).

(** [sub_seq]: the place of the entry in the iteration order of the map. *)
Record ActiveSub := mkSub { versionId : string; sub_kind : SubscriptionKind; teardown : Teardown; sub_seq : nat }.

(** What a cron job calls. *)
Inductive Callback := cb_fire (flowId expression : string) | cb_engine (flowId versionId : string).

(** A handler of the event bus. *)
Record Handler := mkHandler { h_id : nat; h_eventType : string; h_flowId : string; h_filter : option (list (string * json)) }.

(** An engine registration at its awaits: ON_ENABLE, then the release of the engine. *)
Inductive Registering :=
  | enabling (f : FlowRow) (v : FlowVersionRow)
  | releasing (f : FlowRow) (v : FlowVersionRow) (r : string + (option json * option json)).

(** A refresh at its awaits; [next]: the flow to register after the teardown. *)
Inductive Refreshing := tearing (next : option FlowRow) | registering (r : Registering).

Record TriggerManager := mkManager {
  world : RunWorld;
  cron : CronJobs.CronScheduler; callbacks : list (nat * Callback);
  ingress : Webhook.Ingress;
  bus : list Handler; nextHandler : nat;
  subs : list (string * ActiveSub); nextSub : nat;
  inFlight : list (string * (nat * option Refreshing));  (* calls not settled, the running one *)
  pollingInFlight : list (string * string);              (* with the version of the poll *)
  enableRetries : list (string * (nat * nat));           (* attempt, timer *)
  timers : list (nat * string); nextTimer : nat;
  starting : option (option Registering * list FlowRow);
  stopping : option nat }.

Definition new_triggers (w : RunWorld) : TriggerManager :=
  mkManager w CronJobs.new_cron [] (Webhook.mkIngress Webhook.new_webhooks []) [] 0 [] 0 [] [] [] [] 0 None None.

Definition set_world w m := mkManager w (cron m) (callbacks m) (ingress m) (bus m) (nextHandler m) (subs m) (nextSub m) (inFlight m)
  (pollingInFlight m) (enableRetries m) (timers m) (nextTimer m) (starting m) (stopping m).
Definition set_cron c cb m := mkManager (world m) c cb (ingress m) (bus m) (nextHandler m) (subs m) (nextSub m) (inFlight m)
  (pollingInFlight m) (enableRetries m) (timers m) (nextTimer m) (starting m) (stopping m).
Definition set_ingress i m := mkManager (world m) (cron m) (callbacks m) i (bus m) (nextHandler m) (subs m) (nextSub m) (inFlight m)
  (pollingInFlight m) (enableRetries m) (timers m) (nextTimer m) (starting m) (stopping m).
Definition set_bus b n m := mkManager (world m) (cron m) (callbacks m) (ingress m) b n (subs m) (nextSub m) (inFlight m)
  (pollingInFlight m) (enableRetries m) (timers m) (nextTimer m) (starting m) (stopping m).
Definition set_subs s n m := mkManager (world m) (cron m) (callbacks m) (ingress m) (bus m) (nextHandler m) s n (inFlight m)
  (pollingInFlight m) (enableRetries m) (timers m) (nextTimer m) (starting m) (stopping m).
Definition set_inFlight l m := mkManager (world m) (cron m) (callbacks m) (ingress m) (bus m) (nextHandler m) (subs m) (nextSub m) l
  (pollingInFlight m) (enableRetries m) (timers m) (nextTimer m) (starting m) (stopping m).
Definition set_polling p m := mkManager (world m) (cron m) (callbacks m) (ingress m) (bus m) (nextHandler m) (subs m) (nextSub m) (inFlight m)
  p (enableRetries m) (timers m) (nextTimer m) (starting m) (stopping m).
Definition set_retries r t n m := mkManager (world m) (cron m) (callbacks m) (ingress m) (bus m) (nextHandler m) (subs m) (nextSub m) (inFlight m)
  (pollingInFlight m) r t n (starting m) (stopping m).
Definition set_activity s p m := mkManager (world m) (cron m) (callbacks m) (ingress m) (bus m) (nextHandler m) (subs m) (nextSub m) (inFlight m)
  (pollingInFlight m) (enableRetries m) (timers m) (nextTimer m) s p.

(** What the manager lets out: a queued run, or a rejection nobody handles. *)
Inductive Out :=
  | run_queued (runId flowId versionId : string) (kind : SubscriptionKind) (payload : json) (executeTrigger : bool)
  | unhandled_rejection (message : string).

(** ** Reading the trigger *)

Definition trigger_input (trigger : json) : json :=
  match (jget "settings" trigger ≫= jget "input") with Some JNull | None => JObj [] | Some v => v end.
Definition text_field (k : string) (input : json) : option string :=
  match jget k input with Some (JStr s) => if truthy s then Some s else None | _ => None end.
Definition setting (k : string) (trigger : json) : option json := jget "settings" trigger ≫= jget k.
Definition orElse {A} (a b : option A) : option A := match a with Some _ => a | None => b end.
Definition cron_expression (trigger : json) : option string :=
  let input := trigger_input trigger in
  orElse (text_field "cron_expression" input) (orElse (text_field "cronExpression" input) (text_field "expression" input)).

Definition present (o : option json) : bool := match o with Some v => truthy_json v | None => false end.
Definition some_listeners (o : option json) : bool := match o with Some (JArr (_ :: _)) => true | _ => false end.
Definition schedule_expression (o : option json) : option string := match o with Some v => text_field "cronExpression" v | None => None end.
Definition keep_nonnull (o : option json) : option json := match o with Some JNull => None | _ => o end.

Section manager.
Context (defaultProject : string) (timezone : option (Z -> Cron.WallClock)) (offset : Z).
Context (computeHmac : string -> string -> string).
(** Whether there is an engine, and the backoff of a failed ON_ENABLE, in ms. *)
Context (engineRuntime : bool) (enableRetryDelaysMs : list Z).

(** ** Subscriptions *)

Definition job_id (flowId : string) : string := "flow:" +:+ flowId.

Definition set_sub (flowId version : string) (k : SubscriptionKind) (td : Teardown) (m : TriggerManager) : TriggerManager :=
  let seq := match map_get flowId (subs m) with Some old => sub_seq old | None => nextSub m end in
  set_subs (map_set flowId (mkSub version k td seq) (subs m)) (S (nextSub m)) m.

Definition clearEnableRetry (flowId : string) (m : TriggerManager) : TriggerManager :=
  match map_get flowId (enableRetries m) with
  | Some entry => set_retries (map_delete flowId (enableRetries m)) (map_delete (snd entry) (timers m)) (nextTimer m) m
  | None => m
  end.

(** [this.cron.schedule(`flow:${flowId}`, e, cb)]: whether it threw. *)
Definition cron_schedule (flowId e : string) (cb : Callback) (now : Z) (m : TriggerManager) : TriggerManager * bool :=
  let '(c, r) := CronJobs.schedule timezone offset (job_id flowId) e now (cron m) in
  match r with
  | inl _ => (set_cron c (callbacks m) m, true)
  | inr _ => (set_cron c (map_set (CronJobs.nextHandle (cron m)) cb (callbacks m)) m, false)
  end.
Definition cron_cancel (flowId : string) (m : TriggerManager) : TriggerManager :=
  set_cron (CronJobs.cancel (job_id flowId) (cron m)) (callbacks m) m.
Definition webhook_register (flowId : string) (secret : option string) (now : Z) (m : TriggerManager) : TriggerManager :=
  set_ingress (Webhook.ingress_step computeHmac (ingress m) (Webhook.OpRegister now flowId secret)).1 m.
Definition webhook_unregister (flowId : string) (now : Z) (m : TriggerManager) : TriggerManager :=
  set_ingress (Webhook.ingress_step computeHmac (ingress m) (Webhook.OpUnregister now flowId)).1 m.

Definition registerCron (flowId version : string) (trigger : json) (now : Z) (m : TriggerManager) : TriggerManager :=
  match cron_expression trigger with
  | None => m
  | Some e =>
      let '(m1, threw) := cron_schedule flowId e (cb_fire flowId e) now m in
      if threw then m1 else set_sub flowId version kind_cron td_cron m1
  end.

Definition registerWebhook (flowId version : string) (trigger : json) (now : Z) (m : TriggerManager) : TriggerManager :=
  set_sub flowId version kind_webhook td_webhook (webhook_register flowId (text_field "secret" (trigger_input trigger)) now m).

Definition event_filter (input : json) : option (list (string * json)) :=
  match jget "filter" input with Some (JObj fields) => Some fields | _ => None end.

Definition registerJarvisEvent (flowId version : string) (trigger : json) (m : TriggerManager) : TriggerManager :=
  if negb (jstr_is (setting "triggerName" trigger) "on_event") then m
  else match text_field "eventType" (trigger_input trigger) with
       | None => m
       | Some eventType =>
           let h := mkHandler (nextHandler m) eventType flowId (event_filter (trigger_input trigger)) in
           set_sub flowId version kind_event (td_event (nextHandler m)) (set_bus (bus m ++ [h]) (S (nextHandler m)) m)
       end.

(** ** Engine triggers *)

Definition scheduleEnableRetry (flowId : string) (m : TriggerManager) : TriggerManager :=
  let prior := map_get flowId (enableRetries m) in
  let timers1 := match prior with Some p => map_delete (snd p) (timers m) | None => timers m end in
  let attempt := match prior with Some p => S (fst p) | None => O end in
  match enableRetryDelaysMs !! attempt with
  | None => set_retries (map_delete flowId (enableRetries m)) timers1 (nextTimer m) m
  | Some _ => set_retries (map_set flowId (attempt, nextTimer m) (enableRetries m)) (timers1 ++ [(nextTimer m, flowId)]) (S (nextTimer m)) m
  end.

(** [registerEngineTrigger] from the point where it has a schedule and listeners. *)
Definition register_engine_end (f : FlowRow) (v : FlowVersionRow) (schedule listeners : option json) (now : Z) (m : TriggerManager)
    : TriggerManager :=
  let flowId := fl_id f in
  if negb (present schedule) && negb (some_listeners listeners) then m
  else
    let '(m1, cronTearDown) :=
      match schedule_expression schedule with
      | Some e => let '(m1, threw) := cron_schedule flowId e (cb_engine flowId (fv_id v)) now m in (m1, negb threw)
      | None => (m, false)
      end in
    let m2 := if some_listeners listeners then webhook_register flowId None now m1 else m1 in
    clearEnableRetry flowId (set_sub flowId (fv_id v) kind_engine (td_engine cronTearDown (some_listeners listeners)) m2).

(** A persisted state skips the engine; otherwise ON_ENABLE is awaited. *)
Definition registerEngineTrigger (f : FlowRow) (v : FlowVersionRow) (now : Z) (m : TriggerManager) : TriggerManager * option Registering :=
  if negb (present (engine_schedule v)) && negb (present (engine_listeners v)) then (m, Some (enabling f v))
  else (register_engine_end f v (engine_schedule v) (engine_listeners v) now m, None).

Inductive EnableAnswer := acquire_failed | hook_failed (reason : string) | hook_answered (listeners scheduleOptions : option json).

(** ON_ENABLE settles: its state is persisted before the engine is released. *)
Definition enable_answered (f : FlowRow) (v : FlowVersionRow) (a : EnableAnswer) (now : Z) (m : TriggerManager)
    : TriggerManager * option Registering :=
  match a with
  | acquire_failed => (scheduleEnableRetry (fl_id f) m, None)
  | hook_failed reason => (m, Some (releasing f v (inl reason)))
  | hook_answered l s =>
      let listeners := keep_nonnull l in let schedule := keep_nonnull s in
      match setEngineTriggerState (fv_id v) (Some listeners) (Some schedule) now (rw_flows (world m)) with
      | inl _ => (m, Some (releasing f v (inl "setEngineTriggerState: not found")))
      | inr (_, d) => (set_world (mkRunWorld (rw_db (world m)) d) m, Some (releasing f v (inr (schedule, listeners))))
      end
  end.

(** The engine is released, or its release failed. *)
Definition engine_released (f : FlowRow) (v : FlowVersionRow) (r : string + (option json * option json)) (broke : bool) (now : Z)
    (m : TriggerManager) : TriggerManager :=
  match r, broke with
  | inr (schedule, listeners), false => register_engine_end f v schedule listeners now m
  | _, _ => scheduleEnableRetry (fl_id f) m
  end.

(** ** Registration *)

(** [flow.published_version_id ?? getLatestDraft(flow.id)?.id ?? null], read in the tables of [m]. *)
Definition desired_version (f : FlowRow) (m : TriggerManager) : option string := live_version f (rw_flows (world m)).

Definition register (f : FlowRow) (now : Z) (m : TriggerManager) : TriggerManager * option Registering :=
  match desired_version f m with
  | None | Some EmptyString => (m, None)
  | Some vid =>
      match get_row vid (versions (rw_flows (world m))) with
      | None => (m, None)
      | Some v =>
          let trigger := fv_trigger v in
          if negb (is_object trigger) then (m, None)
          else match ungrantedCodeSteps f trigger with
               | Some _ => (m, None)
               | None =>
                   if jstr_is (jget "type" trigger) "PIECE_TRIGGER" then
                     if jstr_is (setting "pieceName" trigger) "schedule" then (registerCron (fl_id f) vid trigger now m, None)
                     else if jstr_is (setting "pieceName" trigger) "webhook" then (registerWebhook (fl_id f) vid trigger now m, None)
                     else if engineRuntime then registerEngineTrigger f v now m
                     else if jstr_is (setting "pieceName" trigger) "jarvis-trigger" then (registerJarvisEvent (fl_id f) vid trigger m, None)
                     else (m, None)
                   else (m, None)
               end
      end
  end.

(** ** Teardown *)

(** An engine trigger's persisted state is cleared before ON_DISABLE is awaited. *)
Definition begin_teardown (flowId : string) (s : ActiveSub) (now : Z) (m : TriggerManager) : TriggerManager :=
  match teardown s with
  | td_cron => cron_cancel flowId m
  | td_webhook => webhook_unregister flowId now m
  | td_event h => set_bus (List.filter (fun x => negb (h_id x =? h)%nat) (bus m)) (nextHandler m) m
  | td_engine c w =>
      let m1 := if c then cron_cancel flowId m else m in
      let m2 := if w then webhook_unregister flowId now m1 else m1 in
      match setEngineTriggerState (versionId s) (Some None) (Some None) now (rw_flows (world m2)) with
      | inl _ => m2
      | inr (_, d) => set_world (mkRunWorld (rw_db (world m2)) d) m2
      end
  end.

(** [unregister]: whether a teardown is awaited. *)
Definition unregister (flowId : string) (now : Z) (m : TriggerManager) : TriggerManager * bool :=
  let m1 := clearEnableRetry flowId m in
  match map_get flowId (subs m1) with
  | None => (m1, false)
  | Some s => (begin_teardown flowId s now m1, true)
  end.

(** ** Refresh under the lock of the flow *)

(** A call joins its flow's chain. *)
Definition refresh (flowId : string) (m : TriggerManager) : TriggerManager :=
  set_inFlight (map_set flowId match map_get flowId (inFlight m) with Some (n, r) => (S n, r) | None => (1%nat, None) end (inFlight m)) m.

(** The running call awaits again, or is settled: the next in the chain may run, the entry of an empty one goes. *)
Definition advance_lock (flowId : string) (r : TriggerManager * option Refreshing) : TriggerManager :=
  let m := r.1 in
  match map_get flowId (inFlight m), r.2 with
  | Some (n, _), Some phase => set_inFlight (map_set flowId (n, Some phase) (inFlight m)) m
  | Some (1%nat, _), None => set_inFlight (map_delete flowId (inFlight m)) m
  | Some (n, _), None => set_inFlight (map_set flowId (pred n, None) (inFlight m)) m
  | None, _ => m
  end.

Definition registering_phase (r : TriggerManager * option Registering) : TriggerManager * option Refreshing :=
  (r.1, registering <$> r.2).

Definition run_refresh (flowId : string) (now : Z) (m : TriggerManager) : TriggerManager * option Refreshing :=
  let existing := map_get flowId (subs m) in
  let tear_down next :=
    let '(m1, awaited) := unregister flowId now m in (m1, if awaited then Some (tearing next) else None) in
  match get_row flowId (flows (rw_flows (world m))) with
  | None => tear_down None
  | Some f =>
      if negb (bool_decide (fl_status f = ENABLED)) then tear_down None
      else match existing with
           | None => registering_phase (register f now m)
           | Some s => if bool_decide (desired_version f m = Some (versionId s)) then (m, None) else tear_down (Some f)
           end
  end.

(** The next call of the chain runs up to its first await. *)
Definition lock_turn (flowId : string) (now : Z) (m : TriggerManager) : TriggerManager :=
  match map_get flowId (inFlight m) with
  | Some (S _, None) => advance_lock flowId (run_refresh flowId now m)
  | _ => m
  end.

(** The awaited teardown is over, whether it failed or not. *)
Definition torn (flowId : string) (now : Z) (m : TriggerManager) : TriggerManager :=
  match map_get flowId (inFlight m) with
  | Some (_, Some (tearing next)) =>
      let m1 := set_subs (map_delete flowId (subs m)) (nextSub m) m in
      advance_lock flowId match next with None => (m1, None) | Some f => registering_phase (register f now m1) end
  | _ => m
  end.

Definition refresh_answered (flowId : string) (a : EnableAnswer) (now : Z) (m : TriggerManager) : TriggerManager :=
  match map_get flowId (inFlight m) with
  | Some (_, Some (registering (enabling f v))) => advance_lock flowId (registering_phase (enable_answered f v a now m))
  | _ => m
  end.

Definition refresh_released (flowId : string) (broke : bool) (now : Z) (m : TriggerManager) : TriggerManager :=
  match map_get flowId (inFlight m) with
  | Some (_, Some (registering (releasing f v r))) => advance_lock flowId (engine_released f v r broke now m, None)
  | _ => m
  end.

(** A retry timer fires: [this.refresh(flowId)]. *)
Definition timer_fires (timer : nat) (m : TriggerManager) : TriggerManager :=
  match map_get timer (timers m) with
  | Some flowId => refresh flowId (set_retries (enableRetries m) (map_delete timer (timers m)) (nextTimer m) m)
  | None => m
  end.

(** ** Start and stop *)

(** [listFlows(undefined, { status: "ENABLED", limit: 1000 })], latest update first. *)
Definition updated_desc (a b : FlowRow) : bool := fl_updated b <=? fl_updated a.
Definition enabled_flows (d : FlowDb) : list FlowRow :=
  take 1000 (sort_by updated_desc (select_where (fun f => bool_decide (fl_project_id f = defaultProject) && bool_decide (fl_status f = ENABLED)) (flows d))).

Definition start (m : TriggerManager) : TriggerManager :=
  set_activity (Some (None, enabled_flows (rw_flows (world m)))) (stopping m) m.

(** The loop of [start] takes its next flow. *)
Definition start_next (now : Z) (m : TriggerManager) : TriggerManager :=
  match starting m with
  | Some (None, f :: rest) => let '(m1, r) := register f now m in set_activity (Some (r, rest)) (stopping m1) m1
  | Some (None, []) => set_activity None (stopping m) m
  | _ => m
  end.
Definition start_answered (a : EnableAnswer) (now : Z) (m : TriggerManager) : TriggerManager :=
  match starting m with
  | Some (Some (enabling f v), rest) => let '(m1, r) := enable_answered f v a now m in set_activity (Some (r, rest)) (stopping m1) m1
  | _ => m
  end.
Definition start_released (broke : bool) (now : Z) (m : TriggerManager) : TriggerManager :=
  match starting m with
  | Some (Some (releasing f v r), rest) => let m1 := engine_released f v r broke now m in set_activity (Some (None, rest)) (stopping m1) m1
  | _ => m
  end.

(** The loop of [stop] tears down the first subscription at or after place [from], or ends. *)
Definition stop_from (from : nat) (now : Z) (m : TriggerManager) : TriggerManager :=
  match List.find (fun e => from <=? sub_seq (snd e))%nat (subs m) with
  | Some (flowId, s) => let m1 := begin_teardown flowId s now m in set_activity (starting m1) (Some (sub_seq s)) m1
  | None => set_activity (starting m) None (set_cron (CronJobs.cancelAll (cron m)) (callbacks m) (set_subs [] (nextSub m) m))
  end.
Definition stop (now : Z) (m : TriggerManager) : TriggerManager :=
  stop_from 0 now (foldl (fun m flowId => clearEnableRetry flowId m) m (map_keys (enableRetries m))).
Definition stop_torn (now : Z) (m : TriggerManager) : TriggerManager :=
  match stopping m with Some at_ => stop_from (S at_) now m | None => m end.

(** ** Fires *)

(** Whether the foreign keys of flow_run hold (db/schema.ts). *)
Definition run_keys_exist (flowId vid : string) (d : FlowDb) : bool :=
  negb (bool_decide (get_row flowId (flows d) = None)) && negb (bool_decide (get_row vid (versions d) = None)).

(** The run is kept when [enqueue] throws after it. *)
Definition enqueueFlowRun (ids : string * string) (now : Z) (flowId vid : string) (k : SubscriptionKind) (payload : json) (executeTrigger : bool)
    (w : RunWorld) : RunWorld * option string :=
  if negb (run_keys_exist flowId vid (rw_flows w)) then (w, Some "FOREIGN KEY constraint failed")
  else
    match createFlowRun defaultProject ids.1 now
            (mkCreateRun flowId vid None None false (Some ("trigger:" +:+ kind_name k)) None None (Some now) None None) (rw_db w) with
    | inl e => (w, Some e)
    | inr (d1, run) =>
        let body := JObj (("runId", JStr (run_id run)) :: ("payload", payload) :: (if executeTrigger then [("executeTrigger", JBool true)] else [])) in
        match enqueue ids.2 now (mkEnqueue RUN_FLOW body (Some (run_id run)) (Some flowId) (Some vid) None None (Some 1)) d1 with
        | inl e => (with_db w d1, Some e)
        | inr (d2, _) => (with_db w d2, None)
        end
    end.

Definition fire (flowId : string) (payload : json) (k : SubscriptionKind) (ids : string * string) (now : Z) (m : TriggerManager)
    : TriggerManager * list Out :=
  match map_get flowId (subs m) with
  | None => (m, [])
  | Some s =>
      if negb (truthy (versionId s)) then (m, [])
      else if bool_decide (k = kind_webhook) && (Webhook.MAX_QUEUED_WEBHOOK_RUNS <=? countQueued (rw_db (world m)))%nat then (m, [])
      else
        let executeTrigger := bool_decide (sub_kind s = kind_engine) in
        match enqueueFlowRun ids now flowId (versionId s) (sub_kind s) payload executeTrigger (world m) with
        | (w, None) => (set_world w m, [run_queued ids.1 flowId (versionId s) (sub_kind s) payload executeTrigger])
        | (w, Some _) => (set_world w m, [])
        end
  end.

(** [fireEngineTrigger]: a poll begins. *)
Definition poll_begin (flowId vid : string) (m : TriggerManager) : TriggerManager :=
  if negb engineRuntime then m
  else if map_has flowId (pollingInFlight m) then m
  else match get_row vid (versions (rw_flows (world m))) with
       | None => m
       | Some _ => set_polling (map_set flowId vid (pollingInFlight m)) m
       end.

Definition poll_payload (item : json) : json := match item with JObj _ => item | _ => JObj [("value", item)] end.

(** One run per polled item; nothing catches what a run throws. *)
Fixpoint queue_items (items : list json) (ids : nat -> string * string) (n : nat) (now : Z) (flowId vid : string) (w : RunWorld)
    : RunWorld * list Out :=
  match items with
  | [] => (w, [])
  | item :: rest =>
      match enqueueFlowRun (ids n) now flowId vid kind_engine (poll_payload item) false w with
      | (w1, Some e) => (w1, [unhandled_rejection e])
      | (w1, None) =>
          let '(w2, out) := queue_items rest ids (S n) now flowId vid w1 in
          (w2, run_queued (ids n).1 flowId vid kind_engine (poll_payload item) false :: out)
      end
  end.

(** The poll settles: [None] when it failed, else the items. *)
Definition poll_end (flowId : string) (answer : option (list json)) (ids : nat -> string * string) (now : Z) (m : TriggerManager)
    : TriggerManager * list Out :=
  match map_get flowId (pollingInFlight m) with
  | None => (m, [])
  | Some vid =>
      let m1 := set_polling (map_delete flowId (pollingInFlight m)) m in
      let '(w, out) := queue_items (answer ?? []) ids 0 now flowId vid (world m1) in
      (set_world w m1, out)
  end.

(** An interval of the cron scheduler fires, and with it the job's callback. *)
Definition cron_fires (h : nat) (ids : string * string) (now : Z) (m : TriggerManager) : TriggerManager * list Out :=
  let '(c, fires) := CronJobs.tick timezone offset h now (cron m) in
  let m1 := set_cron c (callbacks m) m in
  match fires, map_get h (callbacks m) with
  | _ :: _, Some (cb_fire flowId e) => fire flowId (JObj [("cronExpression", JStr e); ("firedAt", JNum now)]) kind_cron ids now m1
  | _ :: _, Some (cb_engine flowId vid) => (poll_begin flowId vid m1, [])
  | _, _ => (m1, [])
  end.

(** A stage of a webhook request; an accepted one calls back. *)
Definition ingress_fires (op : Webhook.IngressOp) (ids : string * string) (now : Z) (m : TriggerManager) : TriggerManager * list Out :=
  let '(i, outs) := Webhook.ingress_step computeHmac (ingress m) op in
  let m1 := set_ingress i m in
  match outs with
  | [(_, Webhook.Fire flowId data)] => fire flowId data kind_webhook ids now m1
  | _ => (m1, [])
  end.

(** [WorkflowEventBus.publish] to the handlers of the event's type. *)
Fixpoint bus_fires (hs : list Handler) (payload : list (string * json)) (ids : nat -> string * string) (n : nat) (now : Z) (m : TriggerManager)
    : TriggerManager * list Out :=
  match hs with
  | [] => (m, [])
  | h :: rest =>
      let '(m1, o1) := if EventBuffer.matches_filter (h_filter h) payload then fire (h_flowId h) (JObj payload) kind_event (ids n) now m else (m, []) in
      let '(m2, o2) := bus_fires rest payload ids (S n) now m1 in
      (m2, o1 ++ o2)
  end.

(** ** Events *)

Inductive Event :=
  | EvWorld (w : RunWorld)          (* the rest of the daemon writes to the tables *)
  | EvStart | EvStartNext (now : Z) | EvStartAnswered (a : EnableAnswer) (now : Z) | EvStartReleased (broke : bool) (now : Z)
  | EvStop (now : Z) | EvStopTorn (now : Z)
  | EvRefresh (flowId : string) | EvTurn (flowId : string) (now : Z) | EvTorn (flowId : string) (now : Z)
  | EvAnswered (flowId : string) (a : EnableAnswer) (now : Z) | EvReleased (flowId : string) (broke : bool) (now : Z)
  | EvTimer (timer : nat)
  | EvCron (h : nat) (ids : string * string) (now : Z)
  | EvArrive (now : Z) (rid : nat) (workflowId : string) (req : Webhook.WebhookRequest) (ids : string * string)
  | EvBody (now : Z) (rid : nat) (body : option string) (ids : string * string)
  | EvHash (now : Z) (rid : nat) (ids : string * string)
  | EvBus (eventType : string) (payload : list (string * json)) (ids : nat -> string * string) (now : Z)
  | EvPolled (flowId : string) (answer : option (list json)) (ids : nat -> string * string) (now : Z).

Definition trigger_step (m : TriggerManager) (e : Event) : TriggerManager * list Out :=
  match e with
  | EvWorld w => (set_world w m, [])
  | EvStart => (start m, [])
  | EvStartNext now => (start_next now m, [])
  | EvStartAnswered a now => (start_answered a now m, [])
  | EvStartReleased broke now => (start_released broke now m, [])
  | EvStop now => (stop now m, [])
  | EvStopTorn now => (stop_torn now m, [])
  | EvRefresh flowId => (refresh flowId m, [])
  | EvTurn flowId now => (lock_turn flowId now m, [])
  | EvTorn flowId now => (torn flowId now m, [])
  | EvAnswered flowId a now => (refresh_answered flowId a now m, [])
  | EvReleased flowId broke now => (refresh_released flowId broke now m, [])
  | EvTimer timer => (timer_fires timer m, [])
  | EvCron h ids now => cron_fires h ids now m
  | EvArrive now rid id req ids =>
      ingress_fires (Webhook.OpArrive now rid (countQueued (rw_db (world m)) <? Webhook.MAX_QUEUED_WEBHOOK_RUNS)%nat id req) ids now m
  | EvBody now rid body ids => ingress_fires (Webhook.OpBody now rid body) ids now m
  | EvHash now rid ids => ingress_fires (Webhook.OpHash now rid) ids now m
  | EvBus eventType payload ids now => bus_fires (List.filter (fun h => bool_decide (h_eventType h = eventType)) (bus m)) payload ids 0 now m
  | EvPolled flowId answer ids now => poll_end flowId answer ids now m
  end.

Fixpoint trigger_steps (m : TriggerManager) (es : list Event) : TriggerManager * list Out :=
  match es with
  | [] => (m, [])
  | e :: rest =>
      let '(m1, o1) := trigger_step m e in
      let '(m2, o2) := trigger_steps m1 rest in
      (m2, o1 ++ o2)
  end.

(** The flow tables an execution goes through. *)
Fixpoint tables_seen (m : TriggerManager) (es : list Event) : list FlowDb :=
  rw_flows (world m) :: match es with [] => [] | e :: rest => tables_seen (trigger_step m e).1 rest end.

(** ** What a trigger runs was cleared *)

Definition seen_enabled (past : list FlowDb) (f : FlowRow) : Prop :=
  fl_status f = ENABLED /\ exists d, In d past /\ In f (flows d).

(** The version was the live one of an enabled flow that may run what it contains. *)
Definition cleared (past : list FlowDb) (flowId vid : string) : Prop :=
  exists f v d, seen_enabled past f /\ fl_id f = flowId /\ In d past /\ In v (versions d) /\ fv_id v = vid /\
    live_version f d = Some vid /\ ungrantedCodeSteps f (fv_trigger v) = None.

Definition safe_reg (past : list FlowDb) (r : Registering) : Prop :=
  match r with enabling f v | releasing f v _ => cleared past (fl_id f) (fv_id v) end.
Definition safe_phase (past : list FlowDb) (r : Refreshing) : Prop :=
  match r with tearing None => True | tearing (Some f) => seen_enabled past f | registering r => safe_reg past r end.

(** The row of flow_run a trigger writes: queued, and of a version that was cleared. *)
Definition trigger_run (past : list FlowDb) (r : FlowRunRow) : Prop :=
  run_status r = RUN_QUEUED /\ cleared past (run_flow_id r) (run_flow_version_id r).

(** The body of a job that runs [runId] on [payload]. *)
Definition run_body (runId : string) (payload : json) (executeTrigger : bool) : json :=
  JObj (("runId", JStr runId) :: ("payload", payload) :: (if executeTrigger then [("executeTrigger", JBool true)] else [])).

(** The row of workflow_job that runs [r], with its body. *)
Definition job_runs (r : FlowRunRow) (body : json) (j : JobRow) : Prop :=
  job_type j = RUN_FLOW /\ job_status j = JOB_QUEUED /\ job_flow_run_id j = Some (run_id r) /\ job_flow_id j = Some (run_flow_id r) /\
  job_flow_version_id j = Some (run_flow_version_id r) /\ job_payload j = stringify body.

(** [d'] is [d] with rows added to flow_run and workflow_job, and nothing else changed: the runs are of
    cleared versions, each job runs one of them, and each run said to be queued is there with its job. *)
Definition wrote (past : list FlowDb) (out : list Out) (d d' : Db) : Prop :=
  exists rs js, d' = set_jobs (jobs d ++ js) (set_runs (runs d ++ rs) d) /\ List.Forall (trigger_run past) rs /\
    List.Forall (fun j => exists r payload x, In r rs /\ job_runs r (run_body (run_id r) payload x) j) js /\
    forall runId flowId vid k payload x, In (run_queued runId flowId vid k payload x) out -> exists r j, In r rs /\ In j js /\
      run_id r = runId /\ run_flow_id r = flowId /\ run_flow_version_id r = vid /\ triggered_by r = Some ("trigger:" +:+ kind_name k) /\
      job_runs r (run_body runId payload x) j.

Record safe (past : list FlowDb) (m : TriggerManager) : Prop := {
  safe_subs : forall flowId s, map_get flowId (subs m) = Some s -> cleared past flowId (versionId s);
  safe_callbacks : forall h flowId vid, map_get h (callbacks m) = Some (cb_engine flowId vid) -> cleared past flowId vid;
  safe_polls : forall flowId vid, map_get flowId (pollingInFlight m) = Some vid -> cleared past flowId vid;
  safe_locks : forall flowId n r, map_get flowId (inFlight m) = Some (n, Some r) -> safe_phase past r;
  safe_start : forall r rest, starting m = Some (r, rest) -> (forall x, r = Some x -> safe_reg past x) /\ List.Forall (seen_enabled past) rest }.

#[local] Arguments map_get : simpl never.
#[local] Arguments map_has : simpl never.
#[local] Arguments map_set : simpl never.
#[local] Arguments map_delete : simpl never.
#[local] Arguments get_row : simpl never.

Lemma new_safe past w : safe past (new_triggers w).
Proof. by split. Qed.

Lemma seen_more past past' f : incl past past' -> seen_enabled past f -> seen_enabled past' f.
Proof. intros Hi (He & d & Hd & Hf). split; [done|]. exists d. auto. Qed.

Lemma cleared_more past past' flowId vid : incl past past' -> cleared past flowId vid -> cleared past' flowId vid.
Proof. intros Hi (f & v & d & Hs & Hf & Hd & H). exists f, v, d. split; [by apply (seen_more past)|]. auto. Qed.

Lemma safe_more past past' m : incl past past' -> safe past m -> safe past' m.
Proof.
  intros Hi [H1 H2 H3 H4 H5].
  assert (forall r, safe_reg past r -> safe_reg past' r) as Hr by (intros [f v|f v r]; by apply cleared_more).
  split; [intros; eapply cleared_more; eauto..| |].
  - intros flowId n [[f|]|r] H; apply H4 in H; [by eapply seen_more|done|by apply Hr].
  - intros r rest H. apply H5 in H as [Hx Hf]. split; [auto|]. revert Hf. apply List.Forall_impl. intros f. by apply seen_more.
Qed.

Lemma safe_set_sub past flowId v k td m : safe past m -> cleared past flowId v -> safe past (set_sub flowId v k td m).
Proof.
  intros [H1 H2 H3 H4 H5] Hc. split; try done. intros f s H. cbn in H. rewrite map_get_set in H.
  case_bool_decide; [|by eapply H1]. injection H as <-. by subst f.
Qed.

Lemma safe_clear_retry past flowId m : safe past m -> safe past (clearEnableRetry flowId m).
Proof. unfold clearEnableRetry. intros []. by destruct (map_get flowId (enableRetries m)). Qed.

Lemma safe_cron_schedule past flowId e cb now m : safe past m -> (forall f v, cb = cb_engine f v -> cleared past f v) ->
  safe past (cron_schedule flowId e cb now m).1.
Proof.
  intros [H1 H2 H3 H4 H5] Hc. unfold cron_schedule. destruct (CronJobs.schedule _ _ _ _ _ _) as [c [err|[]]]; cbn [fst]; [by split|].
  split; try done. intros h f v H. cbn in H. rewrite map_get_set in H. case_bool_decide; [|by eapply H2]. apply Hc. congruence.
Qed.

Lemma safe_retry past flowId m : safe past m -> safe past (scheduleEnableRetry flowId m).
Proof. unfold scheduleEnableRetry. intros []. by destruct (enableRetryDelaysMs !! _). Qed.

Lemma safe_engine_end past f v s l now m : safe past m -> cleared past (fl_id f) (fv_id v) -> safe past (register_engine_end f v s l now m).
Proof.
  intros Hs Hc. unfold register_engine_end. destruct (_ && _); [done|].
  assert (exists m1 c, match schedule_expression s with
      | Some e => let '(m1, threw) := cron_schedule (fl_id f) e (cb_engine (fl_id f) (fv_id v)) now m in (m1, negb threw)
      | None => (m, false) end = (m1, c) /\ safe past m1) as (m1 & c & -> & H1).
  { destruct (schedule_expression s) as [e|]; [|by eexists _, _].
    pose proof (safe_cron_schedule past (fl_id f) e (cb_engine (fl_id f) (fv_id v)) now m Hs) as H.
    destruct (cron_schedule _ _ _ _ _) as [m1 t]. eexists _, _. split; [done|]. apply H. by intros ? ? [= <- <-]. }
  apply safe_clear_retry, safe_set_sub; [|done]. destruct (some_listeners l); [|done]. by destruct H1.
Qed.

Lemma safe_register past f now m : safe past m -> In (rw_flows (world m)) past -> seen_enabled past f ->
  safe past (register f now m).1 /\ forall r, (register f now m).2 = Some r -> safe_reg past r.
Proof.
  intros Hs Hp Hf. unfold register, desired_version. destruct (live_version f _) as [vid|] eqn:Ev; [|done].
  destruct vid as [|c0 vid0] eqn:Evid; [done|]. rewrite <-Evid in *. clear Evid c0 vid0.
  destruct (get_row vid _) as [v|] eqn:Er; [|done]. apply get_row_Some in Er as [Hin Hid].
  destruct (negb (is_object (fv_trigger v))); [done|]. destruct (ungrantedCodeSteps f (fv_trigger v)) eqn:Eu; [done|].
  assert (cleared past (fl_id f) vid) as Hc by (exists f, v, (rw_flows (world m)); done).
  destruct (jstr_is _ _); [|done]. destruct (jstr_is _ _).
  { split; [|done]. cbn. unfold registerCron. destruct (cron_expression _) as [e|]; [|done].
    pose proof (safe_cron_schedule past (fl_id f) e (cb_fire (fl_id f) e) now m Hs ltac:(done)) as H.
    destruct (cron_schedule _ _ _ _ _) as [m1 []]; cbn in H; [done|]. by apply safe_set_sub. }
  destruct (jstr_is _ _).
  { split; [|done]. apply safe_set_sub; [|done]. by destruct Hs. }
  destruct engineRuntime.
  { unfold registerEngineTrigger. change (row_key v) with (fv_id v) in Hid. rewrite <-Hid in Hc. destruct (_ && _); cbn.
    - split; [done|]. by intros r [= <-].
    - split; [|done]. by apply safe_engine_end. }
  destruct (jstr_is _ _); [|done]. split; [|done]. cbn. unfold registerJarvisEvent. destruct (negb _); [done|].
  destruct (text_field _ _); [|done]. apply safe_set_sub; [|done]. by destruct Hs.
Qed.

Lemma safe_answered past f v a now m : safe past m -> cleared past (fl_id f) (fv_id v) ->
  safe past (enable_answered f v a now m).1 /\ forall r, (enable_answered f v a now m).2 = Some r -> safe_reg past r.
Proof.
  intros Hs Hc. destruct a as [|reason|l s]; cbn [enable_answered fst snd].
  - split; [by apply safe_retry|done].
  - split; [done|]. by intros r [= <-].
  - destruct (setEngineTriggerState _ _ _ _ _) as [e|[row d]]; cbn [fst snd]; (split; [by destruct Hs|by intros r [= <-]]).
Qed.

Lemma safe_released past f v r b now m : safe past m -> cleared past (fl_id f) (fv_id v) -> safe past (engine_released f v r b now m).
Proof. intros Hs Hc. destruct r as [e|[s l]], b; cbn; first [by apply safe_retry|by apply safe_engine_end]. Qed.

Lemma safe_teardown past flowId s now m : safe past m -> safe past (begin_teardown flowId s now m).
Proof.
  intros Hs. unfold begin_teardown. destruct (teardown s) as [| |h|c w]; [by destruct Hs..|].
  assert (forall m1, safe past m1 -> safe past (if w then webhook_unregister flowId now m1 else m1)) as Hw by (intros m1 []; by destruct w).
  assert (safe past (if c then cron_cancel flowId m else m)) as Hm by (destruct Hs; by destruct c).
  apply Hw in Hm. destruct (setEngineTriggerState _ _ _ _ _) as [e|[row d]]; [done|]. by destruct Hm.
Qed.

Lemma safe_unregister past flowId now m : safe past m -> safe past (unregister flowId now m).1.
Proof.
  intros Hs. unfold unregister. apply (safe_clear_retry past flowId) in Hs.
  destruct (map_get flowId _); [by apply safe_teardown|done].
Qed.

Lemma safe_advance past flowId r : safe past r.1 -> (forall p, r.2 = Some p -> safe_phase past p) -> safe past (advance_lock flowId r).
Proof.
  intros Hs Hp. unfold advance_lock. destruct (map_get flowId (inFlight r.1)) as [[n x]|]; [|by destruct r.2].
  assert (forall k o, (forall p, o = Some p -> safe_phase past p) -> safe past (set_inFlight (map_set flowId (k, o) (inFlight r.1)) r.1)) as Hset.
  { intros k o Ho. destruct Hs as [H1 H2 H3 H4 H5]. split; try done. intros f n' p H. cbn in H. rewrite map_get_set in H.
    case_bool_decide; [|by eapply H4]. injection H as -> ->. by apply Ho. }
  destruct r.2 as [p|]; [destruct n as [|[|n]]; by apply Hset|].
  assert (safe past (set_inFlight (map_delete flowId (inFlight r.1)) r.1)) as Hdel.
  { destruct Hs as [H1 H2 H3 H4 H5]. split; try done. intros f n' p H. cbn in H. rewrite map_get_delete in H.
    case_bool_decide; [done|by eapply H4]. }
  destruct n as [|[|n]]; [by apply Hset|done|by apply Hset].
Qed.

Lemma safe_registering past f now m : safe past m -> In (rw_flows (world m)) past -> seen_enabled past f ->
  safe past (registering_phase (register f now m)).1 /\ forall p, (registering_phase (register f now m)).2 = Some p -> safe_phase past p.
Proof.
  intros Hs Hp Hf. destruct (safe_register past f now m Hs Hp Hf) as [H1 H2]. split; [done|]. intros p H. cbn in H.
  apply fmap_Some in H as (r & Hr & ->). by apply H2.
Qed.

Lemma safe_run_refresh past flowId now m : safe past m -> In (rw_flows (world m)) past ->
  safe past (run_refresh flowId now m).1 /\ forall p, (run_refresh flowId now m).2 = Some p -> safe_phase past p.
Proof.
  intros Hs Hp. unfold run_refresh.
  assert (forall next, (forall f, next = Some f -> seen_enabled past f) ->
    let r := let '(m1, awaited) := unregister flowId now m in (m1, if awaited : bool then Some (tearing next) else None) in
    safe past r.1 /\ forall p, r.2 = Some p -> safe_phase past p) as Htear.
  { intros next Hn. pose proof (safe_unregister past flowId now m Hs) as Hu. destruct (unregister flowId now m) as [m1 b].
    split; [done|]. intros p H. destruct b; [|done]. injection H as <-. destruct next; [by apply Hn|done]. }
  destruct (get_row flowId _) as [f|] eqn:E; [|by apply Htear]. apply get_row_Some in E as [Hin _].
  destruct (bool_decide (fl_status f = ENABLED)) eqn:Ee; cbn [negb]; [|by apply Htear]. apply bool_decide_eq_true in Ee.
  assert (seen_enabled past f) as Hf by (split; [done|by exists (rw_flows (world m))]).
  destruct (map_get flowId (subs m)) as [s|]; [|by apply safe_registering].
  case_bool_decide; [done|]. apply Htear. by intros ? [= <-].
Qed.

(** *** What is written *)

Lemma wrote_nothing past d : wrote past [] d d.
Proof. exists [], []. split_and!; [destruct d; cbn; by rewrite !app_nil_r|constructor|constructor|done]. Qed.

Lemma wrote_rejection past m d d' : wrote past [] d d' -> wrote past [unhandled_rejection m] d d'.
Proof. intros (rs & js & H1 & H2 & H3 & _). exists rs, js. split_and!; [done..|]. intros ? ? ? ? ? ? [H|[]]. discriminate H. Qed.

Lemma wrote_app past o1 o2 d d1 d2 : wrote past o1 d d1 -> wrote past o2 d1 d2 -> wrote past (o1 ++ o2) d d2.
Proof.
  intros (r1 & j1 & -> & A1 & B1 & C1) (r2 & j2 & -> & A2 & B2 & C2). exists (r1 ++ r2), (j1 ++ j2).
  split_and!; [cbn; by rewrite !app_assoc|by apply List.Forall_app| |].
  - apply List.Forall_app. split; (eapply List.Forall_impl; [|first [exact B1|exact B2]]); intros j (r & p & x & Hr & Hj);
      exists r, p, x; (split; [apply in_app_iff; auto|done]).
  - intros runId flowId vid k payload x [H%C1|H%C2]%in_app_iff; destruct H as (r & j & Hr & Hj & H); exists r, j;
      (split; [apply in_app_iff; auto|]); (split; [apply in_app_iff; auto|exact H]).
Qed.

Lemma enqueue_wrote past ids now flowId vid k payload x w : cleared past flowId vid ->
  let r := enqueueFlowRun ids now flowId vid k payload x w in
  wrote past match r.2 with None => [run_queued ids.1 flowId vid k payload x] | Some _ => [] end (rw_db w) (rw_db r.1) /\ rw_flows r.1 = rw_flows w.
Proof.
  intros Hc. unfold enqueueFlowRun. destruct (negb (run_keys_exist _ _ _)); [split; [apply wrote_nothing|done]|].
  unfold createFlowRun. set (row := mkRun _ _ _ _ _ _ _ _ _ _ _ _ _ _ _ _ _ _ _ _ _).
  destruct (insert_row row (runs (rw_db w))) as [t|] eqn:Ei; [|split; [apply wrote_nothing|done]].
  assert (t = runs (rw_db w) ++ [row]) as -> by (unfold insert_row in Ei; destruct (get_row _ _); [done|by injection Ei as <-]).
  assert (trigger_run past row) as Hrow by (split; [done|exact Hc]).
  change (JObj _) with (run_body (run_id row) payload x). unfold enqueue.
  set (i := mkEnqueue _ _ _ _ _ _ _ _). set (d1 := set_runs _ _).
  assert (wrote past [] (rw_db w) d1) as H1.
  { exists [row], []. split_and!; [unfold d1; destruct (rw_db w); cbn; by rewrite app_nil_r|by repeat constructor|constructor|done]. }
  destruct (enqueue_refused i d1); [by split|].
  destruct (insert_row (new_job ids.2 now i) (jobs d1)) as [t|] eqn:Ej; [|by split].
  assert (t = jobs d1 ++ [new_job ids.2 now i]) as -> by (unfold insert_row in Ej; destruct (get_row _ (jobs d1)); [done|by injection Ej as <-]).
  destruct (rowToJob _) as [e|j]; [by split|]. split; [|done]. cbn [snd fst with_db rw_db].
  assert (job_runs row (run_body (run_id row) payload x) (new_job ids.2 now i)) as Hj by done.
  exists [row], [new_job ids.2 now i]. split_and!; [done|by repeat constructor| |].
  - constructor; [|constructor]. exists row, payload, x. split; [by left|done].
  - intros runId f v k' p x' [[= <- <- <- <- <- <-]|[]]. exists row, (new_job ids.2 now i). split_and!; [by left|by left|done..].
Qed.

(** A step that keeps the state safe and writes what [wrote] allows. *)
Definition steps_to (past : list FlowDb) (m : TriggerManager) (r : TriggerManager * list Out) : Prop :=
  safe past r.1 /\ wrote past r.2 (rw_db (world m)) (rw_db (world r.1)).

Lemma quiet_step past m m' : safe past m' -> rw_db (world m') = rw_db (world m) -> steps_to past m (m', []).
Proof. intros Hs E. split; [done|]. cbn. rewrite E. apply wrote_nothing. Qed.

Lemma safe_fire past flowId payload k ids now m : safe past m -> steps_to past m (fire flowId payload k ids now m).
Proof.
  intros Hs. unfold fire. destruct (map_get flowId (subs m)) as [s|] eqn:E; [|by apply quiet_step].
  destruct (negb _); [by apply quiet_step|]. destruct (_ && _); [by apply quiet_step|].
  assert (cleared past flowId (versionId s)) as Hc by (by eapply safe_subs).
  destruct (enqueue_wrote past ids now flowId (versionId s) (sub_kind s) payload (bool_decide (sub_kind s = kind_engine)) (world m) Hc) as [Hw _].
  destruct (enqueueFlowRun _ _ _ _ _ _ _ _) as [w [e|]]; (split; [by destruct Hs|exact Hw]).
Qed.

Lemma safe_items past items ids n now flowId vid w : cleared past flowId vid ->
  wrote past (queue_items items ids n now flowId vid w).2 (rw_db w) (rw_db (queue_items items ids n now flowId vid w).1).
Proof.
  intros Hc. revert n w. induction items as [|item items IH]; intros n w; cbn [queue_items]; [apply wrote_nothing|].
  destruct (enqueue_wrote past (ids n) now flowId vid kind_engine (poll_payload item) false w Hc) as [Hw _].
  destruct (enqueueFlowRun _ _ _ _ _ _ _ _) as [w1 [e|]]; [by apply wrote_rejection|].
  specialize (IH (S n) w1). destruct (queue_items _ _ _ _ _ _ _) as [w2 out]. by apply (wrote_app past [_] _ _ (rw_db w1)).
Qed.

Lemma safe_poll_begin past flowId vid m : safe past m -> cleared past flowId vid -> safe past (poll_begin flowId vid m).
Proof.
  intros Hs Hc. unfold poll_begin. destruct (negb _); [done|]. destruct (map_has _ _); [done|]. destruct (get_row _ _); [|done].
  destruct Hs as [H1 H2 H3 H4 H5]. split; try done. intros f' v H. cbn in H. rewrite map_get_set in H. case_bool_decide; [|by eapply H3].
  congruence.
Qed.

Lemma poll_begin_world flowId vid m : world (poll_begin flowId vid m) = world m.
Proof. unfold poll_begin. by case_all. Qed.

Lemma safe_poll_end past flowId answer ids now m : safe past m -> steps_to past m (poll_end flowId answer ids now m).
Proof.
  intros Hs. unfold poll_end. destruct (map_get flowId (pollingInFlight m)) as [vid|] eqn:E; [|by apply quiet_step].
  assert (cleared past flowId vid) as Hc by (by eapply safe_polls).
  match goal with |- context [queue_items ?a ?b ?c ?d ?e ?f ?g] =>
    pose proof (safe_items past a b c d e f g Hc) as Hi; destruct (queue_items a b c d e f g) as [w out] end.
  split; [|exact Hi]. destruct Hs as [H1 H2 H3 H4 H5]. split; try done. intros f v H. cbn in H. rewrite map_get_delete in H.
  case_bool_decide; [done|by eapply H3].
Qed.

Lemma safe_cron_fires past h ids now m : safe past m -> steps_to past m (cron_fires h ids now m).
Proof.
  intros Hs. unfold cron_fires. destruct (CronJobs.tick _ _ _ _ _) as [c fires].
  assert (safe past (set_cron c (callbacks m) m)) as H1 by (by destruct Hs).
  destruct fires as [|x l]; [by apply quiet_step|].
  destruct (map_get h (callbacks m)) as [[flowId e|flowId vid]|] eqn:E; [exact (safe_fire _ _ _ _ _ _ _ H1)| |by apply quiet_step].
  apply quiet_step; [|by rewrite poll_begin_world]. apply safe_poll_begin; [done|]. by eapply safe_callbacks.
Qed.

Lemma safe_ingress past op ids now m : safe past m -> steps_to past m (ingress_fires op ids now m).
Proof.
  intros Hs. unfold ingress_fires. destruct (Webhook.ingress_step _ _ _) as [i outs].
  assert (safe past (set_ingress i m)) as H1 by (by destruct Hs).
  destruct outs as [|[rid [r|s|id data]] [|y l]]; try (by apply quiet_step). exact (safe_fire _ _ _ _ _ _ _ H1).
Qed.

Lemma safe_bus past hs payload ids n now m : safe past m -> steps_to past m (bus_fires hs payload ids n now m).
Proof.
  revert n m. induction hs as [|h hs IH]; intros n m Hs; cbn [bus_fires]; [by apply quiet_step|].
  assert (steps_to past m (if EventBuffer.matches_filter (h_filter h) payload then fire (h_flowId h) (JObj payload) kind_event (ids n) now m
    else (m, []))) as H1 by (destruct (EventBuffer.matches_filter _ _); [by apply safe_fire|by apply quiet_step]).
  destruct (if EventBuffer.matches_filter (h_filter h) payload then _ else _) as [m1 o1]. destruct H1 as [H1 Hw1].
  destruct (IH (S n) m1 H1) as [H2 Hw2]. destruct (bus_fires _ _ _ _ _ _) as [m2 o2]. split; [done|]. by eapply wrote_app.
Qed.

Lemma safe_activity past s p m : safe past m ->
  (forall r rest, s = Some (r, rest) -> (forall x, r = Some x -> safe_reg past x) /\ List.Forall (seen_enabled past) rest) ->
  safe past (set_activity s p m).
Proof. intros [H1 H2 H3 H4 H5] H. by split. Qed.

Lemma enabled_flows_seen past d : In d past -> List.Forall (seen_enabled past) (enabled_flows d).
Proof.
  intros Hd. apply List.Forall_forall. intros f Hf. unfold enabled_flows in Hf.
  assert (forall A n (l : list A) x, In x (take n l) -> In x l) as Htake.
  { intros A n l x Hx. rewrite <-(take_drop n l). apply in_or_app. by left. }
  apply Htake, sort_by_In, filter_In in Hf as [Hin [_ He]%andb_true_iff].
  apply bool_decide_eq_true in He. split; [done|by exists d].
Qed.

Lemma safe_start_next past now m : safe past m -> In (rw_flows (world m)) past -> safe past (start_next now m).
Proof.
  intros Hs Hp. unfold start_next. destruct (starting m) as [[[r|] [|f rest]]|] eqn:E; try done; [by apply safe_activity|].
  apply (safe_start past m Hs) in E as [_ [Hf Hrest]%List.Forall_cons_iff]. destruct (safe_register past f now m Hs Hp Hf) as [H1 H2].
  destruct (register f now m) as [m1 r]. apply safe_activity; [done|]. by intros ? ? [= <- <-].
Qed.

Lemma safe_start_answered past a now m : safe past m -> safe past (start_answered a now m).
Proof.
  intros Hs. unfold start_answered. destruct (starting m) as [[[[f v|]|] rest]|] eqn:E; try done.
  apply (safe_start past m Hs) in E as [Hr Hrest]. destruct (safe_answered past f v a now m Hs (Hr _ eq_refl)) as [H1 H2].
  destruct (enable_answered f v a now m) as [m1 r]. apply safe_activity; [done|]. by intros ? ? [= <- <-].
Qed.

Lemma safe_start_released past b now m : safe past m -> safe past (start_released b now m).
Proof.
  intros Hs. unfold start_released. destruct (starting m) as [[[[|f v r]|] rest]|] eqn:E; try done.
  apply (safe_start past m Hs) in E as [Hr Hrest]. apply safe_activity; [apply safe_released; [done|by apply (Hr _ eq_refl)]|].
  by intros ? ? [= <- <-].
Qed.

Lemma safe_stop_from past from now m : safe past m -> safe past (stop_from from now m).
Proof.
  intros Hs. unfold stop_from. destruct (List.find _ _) as [[flowId s]|].
  - pose proof (safe_teardown past flowId s now m Hs) as H. apply safe_activity; [done|]. by apply safe_start.
  - apply safe_activity; [by destruct Hs|]. intros r rest H. by apply (safe_start past m Hs).
Qed.

Lemma safe_stop past now m : safe past m -> safe past (stop now m).
Proof.
  intros Hs. unfold stop. apply safe_stop_from. generalize (map_keys (enableRetries m)). intros l. revert m Hs. induction l as [|k l IH]; intros m Hs; [done|]. cbn. apply IH. by apply safe_clear_retry.
Qed.

Lemma safe_torn past flowId now m : safe past m -> In (rw_flows (world m)) past -> safe past (torn flowId now m).
Proof.
  intros Hs Hp. unfold torn. destruct (map_get flowId (inFlight m)) as [[n [[next|]|]]|] eqn:E; try done.
  apply (safe_locks past m Hs) in E.
  assert (safe past (set_subs (map_delete flowId (subs m)) (nextSub m) m)) as H1.
  { destruct Hs as [H1 H2 H3 H4 H5]. split; try done. intros f s H. cbn in H. rewrite map_get_delete in H.
    case_bool_decide; [done|by eapply H1]. }
  destruct next as [f|]; [|by apply safe_advance]. destruct (safe_registering past f now _ H1 Hp E) as [H2 H3]. by apply safe_advance.
Qed.

Lemma safe_refresh past flowId m : safe past m -> safe past (refresh flowId m).
Proof.
  intros [H1 H2 H3 H4 H5]. split; try done. intros f n p H. cbn in H. rewrite map_get_set in H. case_bool_decide; [|by eapply H4].
  destruct (map_get flowId (inFlight m)) as [[k r]|] eqn:E; [|done]. injection H as _ ->. by eapply H4.
Qed.

(** *** The other handlers write no run and no job *)

Definition same_db (m m' : TriggerManager) : Prop := rw_db (world m') = rw_db (world m).

Lemma cron_schedule_db flowId e cb now m : same_db m (cron_schedule flowId e cb now m).1.
Proof. unfold cron_schedule. destruct (CronJobs.schedule _ _ _ _ _ _) as [c [|]]; done. Qed.

Lemma retry_db flowId m : same_db m (scheduleEnableRetry flowId m).
Proof. unfold scheduleEnableRetry, same_db. by destruct (enableRetryDelaysMs !! _). Qed.

Lemma clear_retry_db flowId m : same_db m (clearEnableRetry flowId m).
Proof. unfold clearEnableRetry, same_db. by destruct (map_get _ _). Qed.

Lemma engine_end_db f v s l now m : same_db m (register_engine_end f v s l now m).
Proof.
  unfold register_engine_end. destruct (_ && _); [done|].
  assert (forall x, x = match schedule_expression s with
      | Some e => let '(m1, threw) := cron_schedule (fl_id f) e (cb_engine (fl_id f) (fv_id v)) now m in (m1, negb threw)
      | None => (m, false) end -> same_db m x.1) as H.
  { intros x ->. destruct (schedule_expression s) as [e|]; [|done].
    pose proof (cron_schedule_db (fl_id f) e (cb_engine (fl_id f) (fv_id v)) now m) as H. by destruct (cron_schedule _ _ _ _ _). }
  specialize (H _ eq_refl). destruct (match schedule_expression s with Some _ => _ | None => _ end) as [m1 c].
  unfold same_db in *. rewrite clear_retry_db. cbn. destruct (some_listeners l); exact H.
Qed.

Lemma register_db f now m : same_db m (register f now m).1.
Proof.
  unfold register. destruct (desired_version f m) as [[|c vid]|]; [done| |done].
  destruct (get_row _ _) as [v|]; [|done]. cbv zeta. destruct (negb _); [done|]. destruct (ungrantedCodeSteps _ _); [done|].
  destruct (jstr_is _ _); [|done]. destruct (jstr_is _ _).
  - unfold registerCron. destruct (cron_expression _) as [e|]; [|done].
    pose proof (cron_schedule_db (fl_id f) e (cb_fire (fl_id f) e) now m) as H. by destruct (cron_schedule _ _ _ _ _) as [m1 []].
  - destruct (jstr_is _ _); [done|]. destruct engineRuntime.
    + unfold registerEngineTrigger. destruct (_ && _); [done|apply engine_end_db].
    + destruct (jstr_is _ _); [|done]. unfold registerJarvisEvent. destruct (negb _); [done|]. by destruct (text_field _ _).
Qed.

Lemma answered_db f v a now m : same_db m (enable_answered f v a now m).1.
Proof. destruct a; cbn; [apply retry_db|done|]. by destruct (setEngineTriggerState _ _ _ _ _) as [|[? ?]]. Qed.

Lemma released_db f v r b now m : same_db m (engine_released f v r b now m).
Proof. destruct r as [|[? ?]], b; cbn; first [apply retry_db|apply engine_end_db]. Qed.

Lemma teardown_db flowId s now m : same_db m (begin_teardown flowId s now m).
Proof.
  unfold begin_teardown. destruct (teardown s) as [| | |c w]; try done. cbv zeta.
  destruct (setEngineTriggerState _ _ _ _ _) as [|[? ?]]; by destruct c, w.
Qed.

Lemma advance_db flowId r : same_db r.1 (advance_lock flowId r).
Proof. unfold advance_lock, same_db. destruct (map_get _ _) as [[[|[|n]] x]|], r.2; done. Qed.

Lemma unregister_db flowId now m : same_db m (unregister flowId now m).1.
Proof.
  unfold unregister. cbv zeta. destruct (map_get _ _); unfold same_db; cbn [fst]; rewrite ?teardown_db; apply clear_retry_db.
Qed.

Lemma run_refresh_db flowId now m : same_db m (run_refresh flowId now m).1.
Proof.
  unfold run_refresh. pose proof (unregister_db flowId now m) as Hu. destruct (unregister flowId now m) as [m1 b]. cbn in Hu.
  destruct (get_row _ _) as [f|]; [|done]. destruct (negb _); [done|]. destruct (map_get _ _); [|apply register_db].
  by case_bool_decide.
Qed.

Lemma stop_from_db from now m : same_db m (stop_from from now m).
Proof. unfold stop_from. destruct (List.find _ _) as [[flowId s]|]; [apply teardown_db|done]. Qed.

Lemma stop_db now m : same_db m (stop now m).
Proof.
  unfold stop, same_db. rewrite stop_from_db. generalize (map_keys (enableRetries m)). intros l. revert m.
  induction l as [|k l IH]; intros m; [done|]. cbn. rewrite IH. apply clear_retry_db.
Qed.

Lemma torn_db flowId now m : same_db m (torn flowId now m).
Proof.
  unfold torn. destruct (map_get _ _) as [[n [[next|]|]]|]; try done. unfold same_db. rewrite advance_db.
  destruct next as [f|]; [|done]. cbn. by rewrite register_db.
Qed.

Lemma safe_step past m e : safe past m -> In (rw_flows (world m)) past ->
  safe past (trigger_step m e).1 /\
  ((forall w, e <> EvWorld w) -> wrote past (trigger_step m e).2 (rw_db (world m)) (rw_db (world (trigger_step m e).1))).
Proof.
  intros Hs Hp.
  assert (forall r, steps_to past m r -> safe past r.1 /\
    ((forall w, e <> EvWorld w) -> wrote past r.2 (rw_db (world m)) (rw_db (world r.1)))) as Hstep by (by intros r [? ?]).
  assert (forall m', safe past m' -> same_db m m' -> safe past m' /\
    ((forall w, e <> EvWorld w) -> wrote past [] (rw_db (world m)) (rw_db (world m')))) as Hquiet
    by (intros m' H E; split; [done|]; intros _; rewrite E; apply wrote_nothing).
  destruct e; cbn [trigger_step fst snd].
  - split; [by destruct Hs|]. intros Hw. by destruct (Hw w).
  - apply Hquiet; [|done]. apply safe_activity; [done|]. intros r rest [= <- <-]. split; [done|by apply enabled_flows_seen].
  - apply Hquiet; [by apply safe_start_next|]. unfold start_next. destruct (starting m) as [[[r|] [|f rest]]|]; try done.
    pose proof (register_db f now m) as H. by destruct (register f now m).
  - apply Hquiet; [by apply safe_start_answered|]. unfold start_answered. destruct (starting m) as [[[[f v|]|] rest]|]; try done.
    pose proof (answered_db f v a now m) as H. by destruct (enable_answered f v a now m).
  - apply Hquiet; [by apply safe_start_released|]. unfold start_released. destruct (starting m) as [[[[|f v r]|] rest]|]; try done.
    apply released_db.
  - apply Hquiet; [by apply safe_stop|apply stop_db].
  - apply Hquiet; unfold stop_torn; destruct (stopping m); [by apply safe_stop_from|done|apply stop_from_db|done].
  - apply Hquiet; [by apply (safe_refresh past flowId m Hs)|done].
  - apply Hquiet; unfold lock_turn; destruct (map_get flowId (inFlight m)) as [[[|n] [r|]]|]; try done.
    + destruct (safe_run_refresh past flowId now m Hs Hp). by apply safe_advance.
    + unfold same_db. rewrite advance_db. apply run_refresh_db.
  - apply Hquiet; [by apply safe_torn|apply torn_db].
  - apply Hquiet; unfold refresh_answered; destruct (map_get flowId (inFlight m)) as [[n [[|[f v|]]|]]|] eqn:E; try done.
    + apply (safe_locks past m Hs) in E. destruct (safe_answered past f v a now m Hs E) as [H1 H2]. apply safe_advance; [done|].
      intros p H. cbn in H. apply fmap_Some in H as (r & Hr & ->). by apply H2.
    + unfold same_db. rewrite advance_db. apply answered_db.
  - apply Hquiet; unfold refresh_released; destruct (map_get flowId (inFlight m)) as [[n [[|[|f v r]]|]]|] eqn:E; try done.
    + apply (safe_locks past m Hs) in E. apply safe_advance; [by apply safe_released|done].
    + unfold same_db. rewrite advance_db. apply released_db.
  - apply Hquiet; unfold timer_fires; destruct (map_get timer (timers m)) as [flowId|]; try done. apply safe_refresh. by destruct Hs.
  - by apply Hstep, safe_cron_fires.
  - by apply Hstep, safe_ingress.
  - by apply Hstep, safe_ingress.
  - by apply Hstep, safe_ingress.
  - by apply Hstep, safe_bus.
  - by apply Hstep, safe_poll_end.
Qed.

(** ** Subscriptions and what they hold *)

(** A cron job, a webhook route, the bus handlers. *)
Definition Resources : Type := bool * bool * list nat.
Definition nothing_held : Resources := (false, false, []).
Definition held_by (t : Teardown) : Resources :=
  match t with
  | td_cron => (true, false, [])
  | td_webhook => (false, true, [])
  | td_event h => (false, false, [h])
  | td_engine c w => (c, w, [])
  end.
Definition resources (m : TriggerManager) (flowId : string) : Resources :=
  (map_has (job_id flowId) (CronJobs.jobs (cron m)), map_has flowId (Webhook.routes (Webhook.webhooks (ingress m))),
   map h_id (List.filter (fun h => bool_decide (h_flowId h = flowId)) (bus m))).
Definition expected (m : TriggerManager) (flowId : string) : Resources :=
  match map_get flowId (subs m) with Some s => held_by (teardown s) | None => nothing_held end.
Definition phase_of (m : TriggerManager) (flowId : string) : option Refreshing := map_get flowId (inFlight m) ≫= snd.

Definition bus_ok (m : TriggerManager) : Prop :=
  List.NoDup (map h_id (bus m)) /\ List.Forall (fun h => h_id h < nextHandler m)%nat (bus m).

(** [m1] differs from [m] in the subscription and the resources of one flow, and in what no other flow sees. *)
Record only_for (flowId : string) (m m1 : TriggerManager) : Prop := {
  of_resources : forall id, id <> flowId -> resources m1 id = resources m id;
  of_subs : forall id, id <> flowId -> map_get id (subs m1) = map_get id (subs m);
  of_inFlight : inFlight m1 = inFlight m;
  of_starting : starting m1 = starting m;
  of_bus : bus_ok m -> bus_ok m1 }.

Lemma only_refl flowId m : only_for flowId m m.
Proof. by split. Qed.

Lemma only_trans flowId m1 m2 m3 : only_for flowId m1 m2 -> only_for flowId m2 m3 -> only_for flowId m1 m3.
Proof.
  intros [H1 H2 H3 H4 H5] [G1 G2 G3 G4 G5].
  split; [intros id Hne; by rewrite G1, H1|intros id Hne; by rewrite G2, H2|congruence|congruence|auto].
Qed.

Lemma job_id_inj a b : job_id a = job_id b -> a = b.
Proof. unfold job_id. cbn. by intros [=]. Qed.

Lemma map_has_delete {K V} `{EqDecision K} (k k' : K) (l : list (K * V)) : map_has k' (map_delete k l) = negb (bool_decide (k' = k)) && map_has k' l.
Proof.
  apply eq_true_iff_eq. rewrite andb_true_iff, negb_true_iff, bool_decide_eq_false, !map_has_get, map_get_delete. case_bool_decide; [|naive_solver].
  split; [by intros []|naive_solver].
Qed.

Lemma cancel_has id s k : map_has k (CronJobs.jobs (CronJobs.cancel id s)) = negb (bool_decide (k = id)) && map_has k (CronJobs.jobs s).
Proof.
  unfold CronJobs.cancel. destruct (map_get id (CronJobs.jobs s)) as [j|] eqn:E; cbn; [apply map_has_delete|].
  case_bool_decide as Hk; [|done]. subst k. cbn. by apply map_has_false, map_get_None.
Qed.

Lemma schedule_has id e now s k : let '(s1, r) := CronJobs.schedule timezone offset id e now s in
  map_has k (CronJobs.jobs s1) = if bool_decide (k = id) then match r with inr _ => true | inl _ => false end else map_has k (CronJobs.jobs s).
Proof.
  unfold CronJobs.schedule. set (s1 := if map_has id (CronJobs.jobs s) then _ else s).
  assert (map_has k (CronJobs.jobs s1) = negb (bool_decide (k = id)) && map_has k (CronJobs.jobs s)) as H1.
  { unfold s1. destruct (map_has id (CronJobs.jobs s)) eqn:E; [apply cancel_has|]. case_bool_decide; [by subst|done]. }
  assert (forall next i, map_has k (CronJobs.jobs (CronJobs.add_job id e next i s1)) =
    if bool_decide (k = id) then true else map_has k (CronJobs.jobs s)) as H2.
  { intros next i. cbn. rewrite map_has_set, H1. by case_bool_decide. }
  destruct (Cron.parseEveryExpression e) as [|[ms|]]; [|by rewrite H2|].
  - rewrite H1. by case_bool_decide.
  - destruct (Cron.parseExpression e); [rewrite H1; by case_bool_decide|].
    destruct (CronJobs.cron_next _ _ _ _); [by rewrite H2|]. rewrite H1. by case_bool_decide.
Qed.

Lemma tick_has h now s k : map_has k (CronJobs.jobs (CronJobs.tick timezone offset h now s).1) = map_has k (CronJobs.jobs s).
Proof.
  assert (forall f id (l : list (string * CronJobs.CronJob)), map_has k (map_alter f id l) = map_has k l) as Ha.
  { intros f id l. apply eq_true_iff_eq. by rewrite !map_has_In, map_keys_alter. }
  unfold CronJobs.tick. destruct (map_get h _) as [[id ms|id e last]|]; [apply Ha| |done].
  destruct (_ =? _); [done|]. destruct (Cron.matches _ _ _); [apply Ha|done].
Qed.

Lemma cron_schedule_only flowId e cb now m : let '(m1, threw) := cron_schedule flowId e cb now m in
  only_for flowId m m1 /\ map_get flowId (subs m1) = map_get flowId (subs m) /\
  resources m1 flowId = (negb threw, (resources m flowId).1.2, (resources m flowId).2).
Proof.
  unfold cron_schedule. pose proof (schedule_has (job_id flowId) e now (cron m)) as H.
  destruct (CronJobs.schedule _ _ _ _ _ _) as [c [err|[]]].
  all: split_and!; [split; try done; intros id Hne; unfold resources; cbn; rewrite H, bool_decide_false; [done|by intros ?%job_id_inj]|done|].
  all: unfold resources; cbn; by rewrite H, bool_decide_true.
Qed.

Lemma cron_cancel_only flowId m : let m1 := cron_cancel flowId m in
  only_for flowId m m1 /\ map_get flowId (subs m1) = map_get flowId (subs m) /\
  resources m1 flowId = (false, (resources m flowId).1.2, (resources m flowId).2).
Proof.
  cbn zeta. split_and!; [split; try done; intros id Hne; unfold resources; cbn; rewrite cancel_has, bool_decide_false; [done|by intros ?%job_id_inj]|done|].
  unfold resources. cbn. by rewrite cancel_has, bool_decide_true.
Qed.

Lemma webhook_register_only flowId secret now m : let m1 := webhook_register flowId secret now m in
  only_for flowId m m1 /\ map_get flowId (subs m1) = map_get flowId (subs m) /\
  resources m1 flowId = ((resources m flowId).1.1, true, (resources m flowId).2).
Proof.
  cbn zeta. split_and!; [split; try done; intros id Hne; unfold resources; cbn; by rewrite map_has_set, bool_decide_false|done|].
  unfold resources. cbn. by rewrite map_has_set, bool_decide_true.
Qed.

Lemma webhook_unregister_only flowId now m : let m1 := webhook_unregister flowId now m in
  only_for flowId m m1 /\ map_get flowId (subs m1) = map_get flowId (subs m) /\
  resources m1 flowId = ((resources m flowId).1.1, false, (resources m flowId).2).
Proof.
  cbn zeta. split_and!; [split; try done; intros id Hne; unfold resources; cbn; by rewrite map_has_delete, bool_decide_false|done|].
  unfold resources. cbn. by rewrite map_has_delete, bool_decide_true.
Qed.

Lemma set_sub_only flowId v k td m : let m1 := set_sub flowId v k td m in
  only_for flowId m m1 /\ resources m1 flowId = resources m flowId /\ expected m1 flowId = held_by td.
Proof.
  cbn zeta. split_and!; [split; try done; intros id Hne; cbn; by rewrite map_get_set, bool_decide_false|done|].
  unfold expected. cbn. by rewrite map_get_set, bool_decide_true.
Qed.

Lemma clear_retry_only flowId k m : only_for flowId m (clearEnableRetry k m) /\ resources (clearEnableRetry k m) flowId = resources m flowId /\
  subs (clearEnableRetry k m) = subs m.
Proof. unfold clearEnableRetry. destruct (map_get k (enableRetries m)); [|split; [apply only_refl|done]]. by split_and!. Qed.

Lemma retry_only flowId k m : only_for flowId m (scheduleEnableRetry k m) /\ resources (scheduleEnableRetry k m) flowId = resources m flowId /\
  subs (scheduleEnableRetry k m) = subs m.
Proof. unfold scheduleEnableRetry. by destruct (enableRetryDelaysMs !! _). Qed.

(** A registration of [m] that ended in [m1]: the flow holds what its subscription says. *)
Definition registered (flowId : string) (m m1 : TriggerManager) : Prop :=
  only_for flowId m m1 /\ resources m1 flowId = expected m1 flowId.

Definition reg_flow (r : Registering) : string := match r with enabling f _ | releasing f _ _ => fl_id f end.
(** The same, with the await it may have stopped at: then there is no subscription. *)
Definition reg_ok (flowId : string) (m : TriggerManager) (r : TriggerManager * option Registering) : Prop :=
  registered flowId m r.1 /\ forall x, r.2 = Some x -> reg_flow x = flowId /\ map_get flowId (subs r.1) = None.

(** A flow that has nothing. *)
Definition vacant (m : TriggerManager) (flowId : string) : Prop := resources m flowId = nothing_held /\ map_get flowId (subs m) = None.

Lemma vacant_registered flowId m : vacant m flowId -> registered flowId m m.
Proof. intros [H1 H2]. split; [apply only_refl|]. unfold expected. by rewrite H2. Qed.

Lemma set_sub_registered flowId v k td m m1 : only_for flowId m m1 -> resources m1 flowId = held_by td -> registered flowId m (set_sub flowId v k td m1).
Proof.
  intros Ho Hr. destruct (set_sub_only flowId v k td m1) as (H1 & H2 & H3).
  split; [by eapply only_trans|]. by rewrite H2, H3.
Qed.

Lemma retry_registered flowId k m : vacant m flowId -> registered flowId m (scheduleEnableRetry k m).
Proof.
  intros [H1 H2]. destruct (retry_only flowId k m) as (Ho & Hr & Hs). split; [done|]. unfold expected. by rewrite Hr, Hs, H2.
Qed.

Lemma registerCron_ok flowId v t now m : vacant m flowId -> registered flowId m (registerCron flowId v t now m).
Proof.
  intros Hv. unfold registerCron. destruct (cron_expression t) as [e|]; [|by apply vacant_registered].
  pose proof (cron_schedule_only flowId e (cb_fire flowId e) now m) as H. destruct (cron_schedule _ _ _ _ _) as [m1 threw].
  destruct H as (Ho & Hs & Hr), Hv as [H1 H2]. rewrite H1 in Hr. destruct threw; cbn in Hr.
  - split; [done|]. unfold expected. by rewrite Hs, H2.
  - by apply set_sub_registered.
Qed.

Lemma registerWebhook_ok flowId v t now m : vacant m flowId -> registered flowId m (registerWebhook flowId v t now m).
Proof.
  intros [H1 H2]. unfold registerWebhook. destruct (webhook_register_only flowId (text_field "secret" (trigger_input t)) now m) as (Ho & Hs & Hr).
  rewrite H1 in Hr. by apply set_sub_registered.
Qed.

Lemma registerJarvisEvent_ok flowId v t m : vacant m flowId -> registered flowId m (registerJarvisEvent flowId v t m).
Proof.
  intros Hv. unfold registerJarvisEvent. destruct (negb _); [by apply vacant_registered|].
  destruct (text_field _ _) as [ty|]; [|by apply vacant_registered]. destruct Hv as [H1 H2]. set (h := mkHandler _ _ _ _).
  apply set_sub_registered.
  - split; try done.
    + intros id Hne. unfold resources. cbn [set_bus bus cron ingress]. rewrite List.filter_app. cbn. rewrite bool_decide_false by congruence.
      by rewrite app_nil_r.
    + intros [Hn Hf]. split; cbn [set_bus bus nextHandler].
      * rewrite map_app. rewrite (Permutation_app_comm _ _). cbn. constructor; [|done].
        intros (x & Hx & Hin)%in_map_iff. apply (proj1 (List.Forall_forall _ _) Hf) in Hin. cbn in Hx. lia.
      * apply List.Forall_app. split; [eapply List.Forall_impl; [|exact Hf]; cbn; lia|]. constructor; [cbn; lia|constructor].
  - unfold resources in *. cbn [set_bus bus cron ingress]. rewrite List.filter_app, map_app. injection H1 as -> -> ->.
    cbn. by rewrite bool_decide_true.
Qed.

Lemma engine_end_ok f v s l now m : vacant m (fl_id f) -> registered (fl_id f) m (register_engine_end f v s l now m).
Proof.
  intros Hv. unfold register_engine_end. destruct (_ && _); [by apply vacant_registered|]. destruct Hv as [H1 H2].
  assert (exists m1 c, match schedule_expression s with
      | Some e => let '(m1, threw) := cron_schedule (fl_id f) e (cb_engine (fl_id f) (fv_id v)) now m in (m1, negb threw)
      | None => (m, false) end = (m1, c) /\ only_for (fl_id f) m m1 /\ resources m1 (fl_id f) = (c, false, [])) as (m1 & c & -> & Ho & Hr).
  { destruct (schedule_expression s) as [e|]; [|eexists _, _; split_and!; [done|apply only_refl|done]].
    pose proof (cron_schedule_only (fl_id f) e (cb_engine (fl_id f) (fv_id v)) now m) as H.
    destruct (cron_schedule _ _ _ _ _) as [m1 t]. destruct H as (Ho & _ & Hr). rewrite H1 in Hr. by eexists _, _. }
  set (m2 := if some_listeners l then webhook_register (fl_id f) None now m1 else m1).
  assert (only_for (fl_id f) m m2 /\ resources m2 (fl_id f) = (c, some_listeners l, [])) as [Ho2 Hr2].
  { unfold m2. destruct (some_listeners l); [|done]. destruct (webhook_register_only (fl_id f) None now m1) as (G1 & _ & G2).
    rewrite Hr in G2. split; [by eapply only_trans|done]. }
  destruct (set_sub_registered (fl_id f) (fv_id v) kind_engine (td_engine c (some_listeners l)) m m2 Ho2 Hr2) as [G1 G2].
  match goal with |- registered _ _ (clearEnableRetry ?k ?x) => destruct (clear_retry_only (fl_id f) k x) as (K1 & K2 & K3) end.
  split; [by eapply only_trans|]. unfold expected. rewrite K2, K3. exact G2.
Qed.

Lemma register_ok f now m : vacant m (fl_id f) -> reg_ok (fl_id f) m (register f now m).
Proof.
  intros Hv. assert (reg_ok (fl_id f) m (m, None)) as Hno by (split; [by apply vacant_registered|done]).
  unfold register, desired_version. destruct (live_version f _) as [[|c vid]|]; [done| |done].
  destruct (get_row _ _) as [v|]; [|done]. destruct (negb _); [done|]. destruct (ungrantedCodeSteps _ _); [done|].
  destruct (jstr_is _ _); [|done]. destruct (jstr_is _ _); [split; [by apply registerCron_ok|done]|].
  destruct (jstr_is _ _); [split; [by apply registerWebhook_ok|done]|]. destruct engineRuntime.
  { unfold registerEngineTrigger. destruct (_ && _); [|split; [by apply engine_end_ok|done]].
    split; [by apply vacant_registered|]. intros x [= <-]. by destruct Hv. }
  destruct (jstr_is _ _); [split; [by apply registerJarvisEvent_ok|done]|done].
Qed.

Lemma answered_ok f v a now m : vacant m (fl_id f) -> reg_ok (fl_id f) m (enable_answered f v a now m).
Proof.
  intros Hv. pose proof (vacant_registered (fl_id f) m Hv) as Hr. destruct a as [|reason|l s]; cbn [enable_answered].
  - split; [by apply retry_registered|done].
  - split; [done|]. intros x [= <-]. by destruct Hv.
  - destruct (setEngineTriggerState _ _ _ _ _) as [e|[row d]]; (split; [|intros x [= <-]; by destruct Hv]); [done|].
    destruct Hr as [[] ?]. by split.
Qed.

Lemma released_ok f v r b now m : vacant m (fl_id f) -> registered (fl_id f) m (engine_released f v r b now m).
Proof. intros Hv. destruct r as [e|[s l]], b; cbn; first [by apply retry_registered|by apply engine_end_ok]. Qed.

Lemma teardown_ok flowId s now m : bus_ok m -> resources m flowId = held_by (teardown s) ->
  only_for flowId m (begin_teardown flowId s now m) /\ resources (begin_teardown flowId s now m) flowId = nothing_held /\
  subs (begin_teardown flowId s now m) = subs m.
Proof.
  intros [Hn Hf] Hr. unfold begin_teardown. destruct (teardown s) as [| |h|c w] eqn:Et.
  - destruct (cron_cancel_only flowId m) as (H1 & H2 & H3). rewrite Hr in H3. done.
  - destruct (webhook_unregister_only flowId now m) as (H1 & H2 & H3). rewrite Hr in H3. done.
  - assert (exists x, In x (bus m) /\ h_id x = h /\ h_flowId x = flowId) as (x & Hx & Hh & Hfl).
    { unfold resources in Hr. injection Hr as _ _ Hr. assert (In h (map h_id (List.filter (fun h0 => bool_decide (h_flowId h0 = flowId)) (bus m)))) as Hin
        by (rewrite Hr; by left). apply in_map_iff in Hin as (x & Hid & [Hx Hb]%filter_In). apply bool_decide_eq_true in Hb. by exists x. }
    assert (forall y, In y (bus m) -> h_id y = h -> y = x) as Huniq.
    { intros y Hy Hid. apply (NoDup_map_inj h_id (bus m)); [done..|congruence]. }
    split_and!; [split; try done| |done].
    + intros id Hne. unfold resources. cbn [set_bus bus cron ingress]. f_equal. f_equal. rewrite filter_comm. apply filter_all.
      intros y [Hy Hb]%filter_In. apply bool_decide_eq_true in Hb. apply negb_true_iff, Nat.eqb_neq. intros E. apply Huniq in E; [|done]. congruence.
    + intros _. split; cbn [set_bus bus nextHandler].
      * by apply filter_NoDup_map.
      * apply List.Forall_forall. intros y [Hy _]%filter_In. by apply (proj1 (List.Forall_forall _ _) Hf).
    + unfold resources in *. cbn [set_bus bus cron ingress]. injection Hr as -> -> Hr. unfold nothing_held. f_equal.
      rewrite filter_comm. match goal with |- map _ ?l = [] => assert (l = []) as ->; [|done] end. apply filter_nil_iff. intros y Hy.
      assert (h_id y = h) as E; [|by rewrite E, Nat.eqb_refl]. assert (In (h_id y) [h]) as [E|[]]; [|done]. rewrite <-Hr. by apply in_map.
  - assert (exists m1, (if c then cron_cancel flowId m else m) = m1 /\ only_for flowId m m1 /\ subs m1 = subs m /\ resources m1 flowId = (false, w, [])) as (m1 & -> & O1 & S1 & R1).
    { eexists. split; [done|]. destruct c; [|split_and!; [apply only_refl|done..]]. destruct (cron_cancel_only flowId m) as (H1 & H2 & H3). by rewrite Hr in H3. }
    assert (exists m2, (if w then webhook_unregister flowId now m1 else m1) = m2 /\ only_for flowId m m2 /\ subs m2 = subs m /\ resources m2 flowId = nothing_held) as (m2 & -> & O2 & S2 & R2).
    { eexists. split; [done|]. destruct w; [|done]. destruct (webhook_unregister_only flowId now m1) as (H1 & H2 & H3). rewrite R1 in H3.
      split_and!; [by eapply only_trans|done|done]. }
    destruct (setEngineTriggerState _ _ _ _ _) as [e|[row d]]; [done|]. split_and!; [|done|done]. by destruct O2.
Qed.

(** *** The invariant *)

Definition phase_ok (m : TriggerManager) (flowId : string) (p : option Refreshing) : Prop :=
  match p with
  | Some (tearing next) => resources m flowId = nothing_held /\ forall f, next = Some f -> fl_id f = flowId
  | Some (registering r) => vacant m flowId /\ reg_flow r = flowId
  | None => resources m flowId = expected m flowId
  end.
Definition starting_flows (r : option Registering) (rest : list FlowRow) : list string :=
  match r with Some x => [reg_flow x] | None => [] end ++ map fl_id rest.
(** The flows left once the first of [starting_flows] is done. *)
Definition tail_of (r : option Registering) (rest : list FlowRow) : list FlowRow := match r with Some _ => rest | None => tail rest end.
Definition start_ok (m : TriggerManager) : Prop :=
  match starting m with
  | None => True
  | Some (r, rest) => (forall id, phase_of m id = None) /\ List.NoDup (starting_flows r rest) /\
      forall id, In id (starting_flows r rest) -> map_get id (subs m) = None
  end.
Definition tidy (m : TriggerManager) : Prop := bus_ok m /\ (forall id, phase_ok m id (phase_of m id)) /\ start_ok m.

(** The scan of [start] runs before any refresh, on tables with unique ids, and nothing runs beside [stop]. *)
Definition orderly (m : TriggerManager) (e : Event) : Prop :=
  match e with
  | EvStart => subs m = [] /\ (forall id, phase_of m id = None) /\ keyed (flows (rw_flows (world m)))
  | EvTurn _ _ => starting m = None
  | EvStop _ | EvStopTorn _ => False
  | _ => True
  end.
Fixpoint orderly_run (m : TriggerManager) (es : list Event) : Prop :=
  match es with [] => True | e :: rest => orderly m e /\ orderly_run (trigger_step m e).1 rest end.

Record same_view (m m1 : TriggerManager) : Prop := {
  sv_resources : forall id, resources m1 id = resources m id;
  sv_subs : subs m1 = subs m;
  sv_phase : forall id, phase_of m1 id = phase_of m id;
  sv_starting : starting m1 = starting m;
  sv_bus : bus m1 = bus m /\ nextHandler m1 = nextHandler m }.

Lemma phase_ok_view m m1 id p : resources m1 id = resources m id -> map_get id (subs m1) = map_get id (subs m) -> phase_ok m id p -> phase_ok m1 id p.
Proof. intros Hr Hs. destruct p as [[next|r]|]; unfold phase_ok, vacant, expected; by rewrite Hr, ?Hs. Qed.

Lemma tidy_view m m1 : same_view m m1 -> tidy m -> tidy m1.
Proof.
  intros [H1 H2 H3 H4 [H5 H6]] (Hb & Hp & Hst). split_and!.
  - unfold bus_ok. by rewrite H5, H6.
  - intros id. rewrite H3. by apply (phase_ok_view m); rewrite ?H2.
  - unfold start_ok in *. rewrite H4. destruct (starting m) as [[r rest]|]; [|done]. rewrite H2. destruct Hst as [Ha Hr].
    split; [|done]. intros id. by rewrite H3.
Qed.

Lemma view_trans m1 m2 m3 : same_view m1 m2 -> same_view m2 m3 -> same_view m1 m3.
Proof.
  intros [A1 A2 A3 A4 [A5 A6]] [B1 B2 B3 B4 [B5 B6]].
  split; [intros id; by rewrite B1, A1|congruence|intros id; by rewrite B3, A3|congruence|split; congruence].
Qed.

Lemma fire_view flowId payload k ids now m : same_view m (fire flowId payload k ids now m).1.
Proof.
  unfold fire. destruct (map_get flowId (subs m)); [|done]. destruct (negb _); [done|]. destruct (_ && _); [done|].
  by destruct (enqueueFlowRun _ _ _ _ _ _ _ _) as [w [e|]].
Qed.

Lemma budget_routes m now id : Webhook.routes (Webhook.chargeBudgets m now id).1 = Webhook.routes m.
Proof. unfold Webhook.chargeBudgets. by destruct (Webhook.charge _ _ _ _) as [[f g] r]. Qed.

Lemma reject_routes m now id msg : Webhook.routes (Webhook.rejectUnsigned m now id msg).1 = Webhook.routes m.
Proof. unfold Webhook.rejectUnsigned. by destruct (RateLimiter.allow _ _ _) as [b ok]. Qed.

Definition ingress_request (op : Webhook.IngressOp) : bool :=
  match op with Webhook.OpRegister _ _ _ | Webhook.OpUnregister _ _ => false | _ => true end.

Lemma ingress_routes op i : ingress_request op = true ->
  Webhook.routes (Webhook.webhooks (Webhook.ingress_step computeHmac i op).1) = Webhook.routes (Webhook.webhooks i).
Proof.
  destruct op as [| |now rid accepting id req|now rid body|now rid]; [done..|intros _|intros _|intros _]; cbn [Webhook.ingress_step].
  - destruct (map_has rid _); [done|]. cbn. unfold Webhook.handle_arrival. destruct (map_get id _) as [route|]; [|done].
    destruct (negb accepting); [done|]. destruct (Webhook.secured route).
    + by destruct (Webhook.declared_too_large _ _).
    + pose proof (budget_routes (Webhook.webhooks i) now id) as H. destruct (Webhook.chargeBudgets _ _ _) as [m1 [r|]]; [done|].
      by destruct (Webhook.declared_too_large _ _).
  - destruct (map_get rid _) as [[id route req|]|]; try done. cbn. unfold Webhook.handle_body. destruct body as [b|]; [|done].
    destruct (_ >? _); [done|]. destruct (Webhook.secured route); [|done]. destruct (Webhook.header _ _); [|apply reject_routes].
    destruct (negb _); [apply reject_routes|]. destruct (negb _); [apply reject_routes|done].
  - destruct (map_get rid _) as [[|id route req b secret sg]|]; try done. cbn. unfold Webhook.handle_hash. destruct (negb _); [apply reject_routes|].
    pose proof (budget_routes (Webhook.webhooks i) now id) as H. by destruct (Webhook.chargeBudgets _ _ _) as [m1 [r|]].
Qed.

Lemma ingress_view op ids now m : ingress_request op = true -> same_view m (ingress_fires op ids now m).1.
Proof.
  intros Hop. unfold ingress_fires. pose proof (ingress_routes op (ingress m) Hop) as H. destruct (Webhook.ingress_step _ _ _) as [i outs].
  assert (same_view m (set_ingress i m)) as H1 by (split; try done; intros id; unfold resources; cbn in *; by rewrite H).
  destruct outs as [|[rid [r|s|id data]] [|y l]]; try exact H1. eapply view_trans; [exact H1|apply fire_view].
Qed.

Lemma poll_begin_view flowId vid m : same_view m (poll_begin flowId vid m).
Proof. unfold poll_begin. destruct (negb _); [done|]. destruct (map_has _ _); [done|]. by destruct (get_row _ _). Qed.

Lemma cron_view h ids now m : same_view m (cron_fires h ids now m).1.
Proof.
  unfold cron_fires. pose proof (tick_has h now (cron m)) as H. destruct (CronJobs.tick _ _ _ _ _) as [c fires].
  assert (same_view m (set_cron c (callbacks m) m)) as H1 by (split; try done; intros id; unfold resources; cbn in *; by rewrite H).
  destruct fires; [done|]. destruct (map_get h (callbacks m)) as [[]|]; [| |done]; (eapply view_trans; [exact H1|]); [apply fire_view|apply poll_begin_view].
Qed.

Lemma bus_view hs payload ids n now m : same_view m (bus_fires hs payload ids n now m).1.
Proof.
  revert n m. induction hs as [|h hs IH]; intros n m; cbn [bus_fires]; [done|].
  assert (same_view m (if EventBuffer.matches_filter (h_filter h) payload then fire (h_flowId h) (JObj payload) kind_event (ids n) now m
    else (m, [])).1) as H1 by (destruct (EventBuffer.matches_filter _ _); [apply fire_view|done]).
  destruct (if EventBuffer.matches_filter _ _ then _ else _) as [m1 o1]. specialize (IH (S n) m1). destruct (bus_fires _ _ _ _ _ _) as [m2 o2].
  by eapply view_trans.
Qed.

Lemma poll_end_view flowId answer ids now m : same_view m (poll_end flowId answer ids now m).1.
Proof. unfold poll_end. destruct (map_get flowId (pollingInFlight m)); [|done]. by destruct (queue_items _ _ _ _ _ _ _). Qed.

Lemma refresh_view flowId m : same_view m (refresh flowId m).
Proof.
  split; try done. intros id. unfold phase_of. cbn. rewrite map_get_set. case_bool_decide; [|done]. subst id.
  by destruct (map_get flowId (inFlight m)) as [[n r]|].
Qed.

Lemma timer_view timer m : same_view m (timer_fires timer m).
Proof.
  unfold timer_fires. destruct (map_get timer (timers m)) as [flowId|]; [|done]. eapply view_trans; [|apply refresh_view]. by split.
Qed.

Lemma advance_view flowId r : is_Some (map_get flowId (inFlight r.1)) -> let m1 := advance_lock flowId r in
  (forall id, phase_of m1 id = if bool_decide (id = flowId) then r.2 else phase_of r.1 id) /\
  (forall id, resources m1 id = resources r.1 id) /\ subs m1 = subs r.1 /\ starting m1 = starting r.1 /\
  bus m1 = bus r.1 /\ nextHandler m1 = nextHandler r.1.
Proof.
  intros [[n x] E]. cbn zeta. unfold advance_lock. rewrite E.
  assert (forall k, let m1 := set_inFlight (map_set flowId (k, r.2) (inFlight r.1)) r.1 in
    forall id, phase_of m1 id = if bool_decide (id = flowId) then r.2 else phase_of r.1 id) as Hset.
  { intros k m1 id. unfold phase_of, m1. cbn. rewrite map_get_set. by case_bool_decide. }
  destruct r.2 as [p|].
  - split_and!; by destruct n as [|[|n]].
  - split_and!; [|by destruct n as [|[|n]]..]. intros id. destruct n as [|[|n]]; [apply Hset| |apply Hset].
    unfold phase_of. cbn. rewrite map_get_delete. by case_bool_decide.
Qed.

(** A step of the refresh of [flowId] that ended with its next phase [r.2]. *)
Lemma advance_tidy flowId m r : tidy m -> starting m = None -> is_Some (map_get flowId (inFlight m)) -> only_for flowId m r.1 ->
  phase_ok r.1 flowId r.2 -> tidy (advance_lock flowId r).
Proof.
  intros (Hb & Hp & _) Hst He [H1 H2 H3 H4 H5] Hr. rewrite <-H3 in He. destruct (advance_view flowId r He) as (G1 & G2 & G3 & G4 & G5 & G6).
  split; [|split].
  - apply H5 in Hb. unfold bus_ok. by rewrite G5, G6.
  - intros id. rewrite G1. case_bool_decide as Hid.
    + subst id. apply (phase_ok_view r.1); [done|by rewrite G3|done].
    + assert (phase_of r.1 id = phase_of m id) as -> by (unfold phase_of; by rewrite H3).
      apply (phase_ok_view m); [by rewrite G2, H1|by rewrite G3, H2|apply Hp].
  - unfold start_ok. by rewrite G4, H4, Hst.
Qed.

Lemma phase_entry m flowId p : phase_of m flowId = Some p -> is_Some (map_get flowId (inFlight m)).
Proof. unfold phase_of. by destruct (map_get flowId (inFlight m)). Qed.

Lemma start_quiet m flowId p : start_ok m -> phase_of m flowId = Some p -> starting m = None.
Proof. unfold start_ok. destruct (starting m) as [[r rest]|]; [|done]. intros [H _] E. by rewrite H in E. Qed.

Lemma reg_phase_ok flowId m r : reg_ok flowId m r -> only_for flowId m (registering_phase r).1 /\ phase_ok (registering_phase r).1 flowId (registering_phase r).2.
Proof.
  intros [[Ho Hr] Hx]. split; [done|]. cbn. destruct r as [m1 [x|]]; cbn in *; [|done]. destruct (Hx x eq_refl) as [H1 H2].
  unfold vacant. rewrite Hr. unfold expected. by rewrite H2.
Qed.

Lemma unregister_ok flowId now m : bus_ok m -> resources m flowId = expected m flowId ->
  let '(m1, awaited) := unregister flowId now m in
  only_for flowId m m1 /\ resources m1 flowId = nothing_held /\ subs m1 = subs m /\
  (awaited = false -> map_get flowId (subs m1) = None).
Proof.
  intros Hb Hr. unfold unregister. destruct (clear_retry_only flowId flowId m) as (H1 & H2 & H3).
  rewrite H3. unfold expected in Hr. destruct (map_get flowId (subs m)) as [s|] eqn:E.
  - destruct (teardown_ok flowId s now (clearEnableRetry flowId m)) as (G1 & G2 & G3); [by apply H1|by rewrite H2|].
    split_and!; [by eapply only_trans|done|by rewrite G3|done].
  - split_and!; [done|by rewrite H2|done|]. intros _. by rewrite H3.
Qed.

Lemma run_refresh_ok flowId now m : tidy m -> phase_of m flowId = None ->
  only_for flowId m (run_refresh flowId now m).1 /\ phase_ok (run_refresh flowId now m).1 flowId (run_refresh flowId now m).2.
Proof.
  intros (Hb & Hp & Hs) Hn. specialize (Hp flowId). rewrite Hn in Hp. cbn in Hp. unfold run_refresh.
  assert (forall next, (forall f, next = Some f -> fl_id f = flowId) ->
    let r := let '(m1, awaited) := unregister flowId now m in (m1, if awaited : bool then Some (tearing next) else None) in
    only_for flowId m r.1 /\ phase_ok r.1 flowId r.2) as Htear.
  { intros next Hnext. pose proof (unregister_ok flowId now m Hb Hp) as H. destruct (unregister flowId now m) as [m1 b].
    destruct H as (H1 & H2 & H3 & H4). split; [done|]. destruct b; cbn; [done|]. unfold expected. by rewrite H2, H4. }
  destruct (get_row flowId _) as [f|] eqn:Ef; [|by apply Htear]. apply get_row_Some in Ef as [_ Hid]. change (row_key f) with (fl_id f) in Hid.
  destruct (negb _); [by apply Htear|]. destruct (map_get flowId (subs m)) as [s|] eqn:Es.
  - case_bool_decide; [by split; [apply only_refl|]|]. apply Htear. by intros ? [= <-].
  - apply reg_phase_ok. subst flowId. apply register_ok. split; [|done]. rewrite Hp. unfold expected. by rewrite Es.
Qed.

Lemma torn_ok flowId now m : tidy m -> tidy (torn flowId now m).
Proof.
  intros Ht. unfold torn. destruct (map_get flowId (inFlight m)) as [[n [[next|]|]]|] eqn:E; try done.
  assert (phase_of m flowId = Some (tearing next)) as Ep by (unfold phase_of; by rewrite E).
  pose proof Ht as (Hb & Hp & Hs). pose proof (start_quiet m flowId _ Hs Ep) as Hst. specialize (Hp flowId). rewrite Ep in Hp. destruct Hp as [Hr Hf].
  set (m1 := set_subs (map_delete flowId (subs m)) (nextSub m) m).
  assert (only_for flowId m m1) as Ho by (split; try done; intros id Hne; cbn; by rewrite map_get_delete, bool_decide_false).
  assert (vacant m1 flowId) as Hv by (split; [done|cbn; by rewrite map_get_delete, bool_decide_true]).
  apply (advance_tidy flowId m); [done|done|by eexists| |]; destruct next as [f|]; [|done| |].
  - destruct (reg_phase_ok flowId m1 (register f now m1)) as [G1 G2]; [rewrite <-(Hf f eq_refl) in *; by apply register_ok|by eapply only_trans].
  - destruct (reg_phase_ok flowId m1 (register f now m1)) as [G1 G2]; [rewrite <-(Hf f eq_refl) in *; by apply register_ok|done].
  - cbn. destruct Hv as [H1 H2]. unfold expected. cbn in H2 |- *. rewrite H2. exact H1.
Qed.

(** The scan of [start], with nothing else running: its flow holds nothing before. *)
Lemma start_vacant m r rest id : tidy m -> starting m = Some (r, rest) -> In id (starting_flows r rest) -> vacant m id.
Proof.
  intros (Hb & Hp & Hs) E Hin. unfold start_ok in Hs. rewrite E in Hs. destruct Hs as (Ha & _ & Hn). specialize (Hn id Hin).
  split; [|done]. specialize (Hp id). rewrite Ha in Hp. cbn in Hp. rewrite Hp. unfold expected. by rewrite Hn.
Qed.

Lemma start_registered flowId m r0 rest m1 r : tidy m -> starting m = Some (r0, rest) -> starting_flows r0 rest = flowId :: map fl_id (tail_of r0 rest) ->
  reg_ok flowId m (m1, r) -> tidy (set_activity (Some (r, tail_of r0 rest)) (stopping m1) m1).
Proof.
  intros (Hb & Hp & Hs) E Hl [[[O1 O2 O3 O4 O5] Hres] Hx]. unfold start_ok in Hs. rewrite E, Hl in Hs.
  destruct Hs as (Ha & [Hnin Hnd]%NoDup_cons_iff & Hn). cbn [fst snd] in *.
  assert (forall id, phase_of m1 id = None) as Ha1 by (intros id; unfold phase_of; rewrite O3; apply Ha).
  assert (forall id, resources m1 id = expected m1 id) as Hall.
  { intros id. destruct (decide (id = flowId)) as [->|Hne]; [done|]. rewrite O1 by done. specialize (Hp id). rewrite Ha in Hp.
    cbn in Hp. rewrite Hp. unfold expected. by rewrite O2. }
  split_and!; [by apply O5|intros id; change (phase_of (set_activity _ _ m1) id) with (phase_of m1 id); rewrite Ha1; apply Hall|].
  split_and!; [done| |].
  - unfold starting_flows. destruct r as [x|]; [|done]. destruct (Hx x eq_refl) as [-> _]. by constructor.
  - intros id Hin. cbn [set_activity subs].
    assert (In id (map fl_id (tail_of r0 rest)) -> map_get id (subs m1) = None) as Hrest.
    { intros H. rewrite O2; [apply Hn; by right|]. intros ->. done. }
    unfold starting_flows in Hin. destruct r as [x|]; [|by apply Hrest]. destruct Hin as [<-|Hin]; [|by apply Hrest].
    destruct (Hx x eq_refl) as [-> ?]. done.
Qed.

Lemma start_next_ok now m : tidy m -> tidy (start_next now m).
Proof.
  intros Ht. unfold start_next. destruct (starting m) as [[[x|] [|f rest]]|] eqn:E; try done.
  - destruct Ht as (Hb & Hp & _). by split_and!.
  - assert (vacant m (fl_id f)) as Hv by (apply (start_vacant m None (f :: rest)); [done|done|by left]).
    pose proof (register_ok f now m Hv) as Hr. destruct (register f now m) as [m1 r].
    by apply (start_registered (fl_id f) m None (f :: rest)).
Qed.

Lemma start_answered_ok a now m : tidy m -> tidy (start_answered a now m).
Proof.
  intros Ht. unfold start_answered. destruct (starting m) as [[[[f v|]|] rest]|] eqn:E; try done.
  assert (vacant m (fl_id f)) as Hv by (apply (start_vacant m (Some (enabling f v)) rest); [done|done|by left]).
  pose proof (answered_ok f v a now m Hv) as Hr. destruct (enable_answered f v a now m) as [m1 r].
  by apply (start_registered (fl_id f) m (Some (enabling f v)) rest).
Qed.

Lemma start_released_ok b now m : tidy m -> tidy (start_released b now m).
Proof.
  intros Ht. unfold start_released. destruct (starting m) as [[[[|f v r]|] rest]|] eqn:E; try done.
  assert (vacant m (fl_id f)) as Hv by (apply (start_vacant m (Some (releasing f v r)) rest); [done|done|by left]).
  apply (start_registered (fl_id f) m (Some (releasing f v r)) rest _ None); [done|done|done|].
  split; [by apply released_ok|done].
Qed.

Lemma start_tidy m : tidy m -> orderly m EvStart -> tidy (start m).
Proof.
  intros (Hb & Hp & _) (Hs & Ha & Hk). split_and!; [done|done|]. split_and!; [done| |].
  - cbn. unfold enabled_flows. assert (forall A n (l : list A) B (g : A -> B), List.NoDup (map g l) -> List.NoDup (map g (take n l))) as Htake.
    { intros A n l B g H. rewrite <-(take_drop n l), map_app in H. by apply List.NoDup_app_remove_r in H. }
    apply Htake. rewrite sort_by_perm. by apply filter_NoDup_map.
  - intros id _. cbn. by rewrite Hs.
Qed.

Lemma tidy_step m e : tidy m -> orderly m e -> tidy (trigger_step m e).1.
Proof.
  intros Ht Ho. destruct e; cbn [trigger_step fst]; try done;
    eauto using start_next_ok, start_answered_ok, start_released_ok, torn_ok, tidy_view, refresh_view, timer_view, cron_view, ingress_view, bus_view, poll_end_view.
  - by apply start_tidy.
  - unfold lock_turn. destruct (map_get flowId (inFlight m)) as [[[|n] [p|]]|] eqn:E; try done.
    destruct (run_refresh_ok flowId now m Ht) as [G1 G2]; [unfold phase_of; by rewrite E|].
    by apply (advance_tidy flowId m).
  - unfold refresh_answered. destruct (map_get flowId (inFlight m)) as [[n [[|[f v|]]|]]|] eqn:E; try done.
    assert (phase_of m flowId = Some (registering (enabling f v))) as Ep by (unfold phase_of; by rewrite E).
    pose proof Ht as (_ & Hp & Hs). specialize (Hp flowId). rewrite Ep in Hp. destruct Hp as [Hv Hf]. cbn in Hf. rewrite <-Hf in Hv.
    destruct (reg_phase_ok _ _ _ (answered_ok f v a now m Hv)) as [G1 G2]. rewrite Hf in *.
    apply (advance_tidy flowId m); [done|by eapply start_quiet|by eexists|done|done].
  - unfold refresh_released. destruct (map_get flowId (inFlight m)) as [[n [[|[|f v r]]|]]|] eqn:E; try done.
    assert (phase_of m flowId = Some (registering (releasing f v r))) as Ep by (unfold phase_of; by rewrite E).
    pose proof Ht as (_ & Hp & Hs). specialize (Hp flowId). rewrite Ep in Hp. destruct Hp as [Hv Hf]. cbn in Hf. rewrite <-Hf in Hv.
    destruct (released_ok f v r broke now m Hv) as [G1 G2]. rewrite Hf in *.
    apply (advance_tidy flowId m); [done|by eapply start_quiet|by eexists|done|done].
Qed.

Lemma tidy_run m es : tidy m -> orderly_run m es -> tidy (trigger_steps m es).1.
Proof.
  revert m. induction es as [|e es IH]; intros m Ht; [done|]. cbn [trigger_steps orderly_run]. intros [Ho Hr].
  pose proof (tidy_step m e Ht Ho) as H1. destruct (trigger_step m e) as [m1 o1]. specialize (IH m1 H1 Hr).
  by destruct (trigger_steps m1 es) as [m2 o2].
Qed.

Lemma new_tidy w : tidy (new_triggers w).
Proof. split_and!; [split; constructor|done|done]. Qed.

Lemma tables_now m es : In (rw_flows (world (trigger_steps m es).1)) (tables_seen m es).
Proof.
  revert m. induction es as [|e es IH]; intros m; [by left|]. cbn [trigger_steps tables_seen]. destruct (trigger_step m e) as [m1 o1].
  specialize (IH m1). destruct (trigger_steps m1 es) as [m2 o2]. by right.
Qed.

Lemma safe_run past m es : safe past m -> incl (tables_seen m es) past -> safe past (trigger_steps m es).1.
Proof.
  revert m. induction es as [|e es IH]; intros m Hs Hi; [done|]. cbn [trigger_steps tables_seen] in *.
  destruct (safe_step past m e Hs) as [H1 _]; [apply Hi; by left|]. destruct (trigger_step m e) as [m1 o1].
  specialize (IH m1 H1). destruct (trigger_steps m1 es) as [m2 o2]. apply IH. intros d Hd. apply Hi. by right.
Qed.

Lemma retries_kept flowId s now m : enableRetries (begin_teardown flowId s now m) = enableRetries m.
Proof.
  unfold begin_teardown. destruct (teardown s) as [| | |c w]; try done.
  destruct (setEngineTriggerState _ _ _ _ _) as [e|[row d]]; by destruct c, w.
Qed.

Lemma unregister_clears flowId now m : map_get flowId (enableRetries (unregister flowId now m).1) = None.
Proof.
  assert (map_get flowId (enableRetries (clearEnableRetry flowId m)) = None) as H.
  { unfold clearEnableRetry. destruct (map_get flowId (enableRetries m)) eqn:E; [|done]. cbn. by rewrite map_get_delete, bool_decide_true. }
  unfold unregister. destruct (map_get flowId (subs (clearEnableRetry flowId m))); [|done]. cbn. by rewrite retries_kept.
Qed.

(** The flow is gone or disabled. *)
Definition inactive (m : TriggerManager) (flowId : string) : bool :=
  match get_row flowId (flows (rw_flows (world m))) with Some f => negb (bool_decide (fl_status f = ENABLED)) | None => true end.

Lemma inactive_refresh flowId now now' n m : tidy m -> starting m = None -> map_get flowId (inFlight m) = Some (S n, None) -> inactive m flowId = true ->
  let m1 := torn flowId now' (lock_turn flowId now m) in vacant m1 flowId /\ map_get flowId (enableRetries m1) = None.
Proof.
  intros Ht Hst E Hi. cbn zeta.
  assert (phase_of m flowId = None) as Ep by (unfold phase_of; by rewrite E).
  assert (run_refresh flowId now m = (let '(m1, awaited) := unregister flowId now m in (m1, if awaited : bool then Some (tearing None) else None))) as Er.
  { unfold run_refresh. unfold inactive in Hi. destruct (get_row flowId _) as [f|]; [by rewrite Hi|done]. }
  pose proof Ht as (Hb & Hp & _). specialize (Hp flowId). rewrite Ep in Hp. cbn in Hp.
  pose proof (unregister_ok flowId now m Hb Hp) as Hu. pose proof (unregister_clears flowId now m) as Hc.
  unfold lock_turn. rewrite E, Er. destruct (unregister flowId now m) as [m1 b]. destruct Hu as ([O1 O2 O3 O4 O5] & Hr & Hs & Hn).
  assert (map_get flowId (inFlight m1) = Some (S n, None)) as E1 by by rewrite O3.
  assert (forall r : TriggerManager * option Refreshing, enableRetries (advance_lock flowId r) = enableRetries r.1) as Hretry.
  { intros r. unfold advance_lock. by destruct (map_get flowId (inFlight r.1)) as [[[|[|k]] ?]|], r.2. }
  assert (exists n', map_get flowId (inFlight (advance_lock flowId (m1, Some (tearing None)))) = Some (n', Some (tearing None))) as [n' E2].
  { unfold advance_lock. cbn [fst snd]. rewrite E1. destruct n; (eexists; cbn [inFlight set_inFlight]; by rewrite map_get_set, bool_decide_true). }
  destruct b.
  - destruct (advance_view flowId (m1, Some (tearing None))) as (G1 & G2 & G3 & _); [by eexists|].
    unfold torn. rewrite E2. set (m2 := set_subs _ _ _).
    assert (map_get flowId (inFlight m2) = Some (n', Some (tearing None))) as E3 by exact E2.
    destruct (advance_view flowId (m2, None)) as (K1 & K2 & K3 & _); [by eexists|]. split.
    + split; [rewrite K2; cbn; change (resources m2 flowId) with (resources (advance_lock flowId (m1, Some (tearing None))) flowId); by rewrite G2|].
      rewrite K3. cbn. by rewrite map_get_delete, bool_decide_true.
    + rewrite Hretry. cbn [fst]. change (enableRetries m2) with (enableRetries (advance_lock flowId (m1, Some (tearing None)))). by rewrite Hretry.
  - destruct (advance_view flowId (m1, None)) as (G1 & G2 & G3 & _); [by eexists|].
    assert (torn flowId now' (advance_lock flowId (m1, None)) = advance_lock flowId (m1, None)) as ->.
    { unfold torn. specialize (G1 flowId). rewrite bool_decide_true in G1 by done. unfold phase_of in G1.
      by destruct (map_get flowId (inFlight (advance_lock flowId (m1, None)))) as [[k [[|]|]]|]. }
    split; [|by rewrite Hretry]. split; [by rewrite G2|]. rewrite G3. by apply Hn.
Qed.

(** A poll that comes back after its flow was deleted ends in a rejection nobody handles. *)
Lemma deleted_flow_poll flowId vid items ids now m : map_get flowId (pollingInFlight m) = Some vid -> items <> [] ->
  get_row flowId (flows (rw_flows (world m))) = None ->
  (poll_end flowId (Some items) ids now m).2 = [unhandled_rejection "FOREIGN KEY constraint failed"].
Proof.
  intros E Hi Hg. assert (run_keys_exist flowId vid (rw_flows (world m)) = false) as Hk by (unfold run_keys_exist; by rewrite Hg).
  unfold poll_end. rewrite E. destruct items as [|i items]; [done|]. cbn -[run_keys_exist]. unfold enqueueFlowRun. by rewrite Hk.
Qed.
End manager.

(** C36: whatever the order of refreshes, scans, retries, engine answers, ticks, webhook requests, bus
    events, polls and writes of the rest of the daemon, what a trigger writes runs only what was
    cleared. A step of the manager adds to flow_run only queued runs of a version that, in the flow
    tables as they were at some moment so far, was the live one of the flow, read from a row of that
    flow that was enabled and whose CODE steps, if any, were granted in that row; every job it adds is a
    queued RUN_FLOW job for such a run, naming its flow and version, with the run's id in its
    payload; and a run it reports as queued is there with its job, its payload and its trigger's kind. *)
Theorem trigger_runs_are_cleared (defaultProject : string) (timezone : option (Z -> Cron.WallClock)) (offset : Z)
    (computeHmac : string -> string -> string) (engineRuntime : bool) (delays : list Z) (w : RunWorld) (es : list Event) (e : Event) :
  let past := tables_seen defaultProject timezone offset computeHmac engineRuntime delays (new_triggers w) es in
  let m := (trigger_steps defaultProject timezone offset computeHmac engineRuntime delays (new_triggers w) es).1 in
  let m' := trigger_step defaultProject timezone offset computeHmac engineRuntime delays m e in
  (forall w', e <> EvWorld w') -> wrote past m'.2 (rw_db (world m)) (rw_db (world m'.1)).
Proof.
  intros past m m' He.
  assert (safe past m) as Hs by (apply safe_run; [apply new_safe|apply incl_refl]).
  apply safe_step; [exact Hs|apply tables_now|exact He].
Qed.

(** With the scan of [start] before the first refresh, over any order of events a flow
    whose refresh is not in progress holds exactly what its subscription says: its cron job,
    its webhook route and its bus handler, and none of them without one; and a refresh that
    finds the flow gone or disabled leaves no subscription, no resource and no retry, so that
    nothing fires for it. *)
Theorem subscriptions_own_resources (defaultProject : string) (timezone : option (Z -> Cron.WallClock)) (offset : Z)
    (computeHmac : string -> string -> string) (engineRuntime : bool) (delays : list Z) (w : RunWorld) (es : list Event) :
  orderly_run defaultProject timezone offset computeHmac engineRuntime delays (new_triggers w) es ->
  let m := (trigger_steps defaultProject timezone offset computeHmac engineRuntime delays (new_triggers w) es).1 in
  forall flowId, phase_of m flowId = None ->
    resources m flowId = expected m flowId /\
    forall n now now', starting m = None -> map_get flowId (inFlight m) = Some (S n, None) -> inactive m flowId = true ->
      let m1 := torn timezone offset computeHmac engineRuntime flowId now' (lock_turn timezone offset computeHmac engineRuntime flowId now m) in
      resources m1 flowId = nothing_held /\ map_get flowId (subs m1) = None /\ map_get flowId (enableRetries m1) = None /\
      forall payload k ids t, fire defaultProject flowId payload k ids t m1 = (m1, []).
Proof.
  intros Ho m flowId Hp.
  pose proof (tidy_run defaultProject timezone offset computeHmac engineRuntime delays (new_triggers w) es (new_tidy w) Ho) as Ht. fold m in Ht.
  split; [destruct Ht as (_ & H & _); specialize (H flowId); by rewrite Hp in H|].
  intros n now now' Hs E Hi. destruct (inactive_refresh defaultProject timezone offset computeHmac engineRuntime flowId now now' n m Ht Hs E Hi) as [[H1 H2] H3].
  split_and!; [done..|]. intros payload k ids t. unfold fire. by rewrite H2.
Qed.

(** ** A scheduled flow and a polled one *)

Definition piece (name : string) (input : list (string * json)) : json :=
  JObj [("type", JStr "PIECE_TRIGGER"); ("settings", JObj [("pieceName", JStr name); ("input", JObj input)])].
Definition demo_trigger_ops : list FlowOp :=
  [demo_new_flow "mail" 1; OpCreateDraft "v2" "mail" "Mail" (Some (piece "gmail" [])) 2; OpStatus "mail" ENABLED 3;
   demo_new_flow "daily" 4; OpCreateDraft "v1" "daily" "Daily" (Some (piece "schedule" [("cronExpression", JStr "* * * * *")])) 5; OpStatus "daily" ENABLED 6].
Definition demo_trigger_flows : FlowDb := flow_steps "project" empty_flows demo_trigger_ops.
Definition demo_world (d : FlowDb) : RunWorld := mkRunWorld empty_db d.
Definition demo_after (w : RunWorld) (ops : list FlowOp) : RunWorld := mkRunWorld (rw_db w) (flow_steps "project" demo_trigger_flows ops).
Definition demo_ids (n : nat) : string * string := ("run" +:+ show_z (Z.of_nat n), "job" +:+ show_z (Z.of_nat n)).

(** The scan registers "daily", then "mail" after ON_ENABLE; both fire; then "daily" is disabled and "mail" deleted during a poll. *)
Definition demo_scan : list Event :=
  [EvStart; EvStartNext 10; EvStartNext 10; EvStartAnswered (hook_answered None (Some (JObj [("cronExpression", JStr "*/5 * * * *")]))) 11;
   EvStartReleased false 12; EvStartNext 13].
Definition demo_fires : list Event :=
  [EvCron 0 (demo_ids 0) 60000; EvCron 1 ("", "") 300000;
   EvPolled "mail" (Some [JObj [("subject", JStr "hi")]; JNum 7]) (fun n => demo_ids (S n)) 301000].
Definition demo_disable : list Event :=
  [EvWorld (demo_after (demo_world demo_trigger_flows) [OpStatus "daily" DISABLED 20]); EvRefresh "daily"].
Definition demo_delete : list Event :=
  [EvCron 1 ("", "") 600000; EvWorld (demo_after (demo_world demo_trigger_flows) [OpDeleteFlow "mail"]);
   EvPolled "mail" (Some [JNum 1]) demo_ids 601000].

Definition demo_triggers (es : list Event) : TriggerManager * list Out :=
  trigger_steps "project" None 0 Webhook.demo_hmac true [5000; 15000] (new_triggers (demo_world demo_trigger_flows)) es.

Definition demo_polled : Event := EvPolled "mail" (Some [JObj [("subject", JStr "hi")]; JNum 7]) (fun n => demo_ids (S n)) 301000.

Lemma trigger_runs_are_cleared_witness :
  let es := demo_scan ++ take 2 demo_fires in
  let m := (demo_triggers es).1 in
  let m' := trigger_step "project" None 0 Webhook.demo_hmac true [5000; 15000] m demo_polled in
  m'.2 = [run_queued "run1" "mail" "v2" kind_engine (JObj [("subject", JStr "hi")]) false;
          run_queued "run2" "mail" "v2" kind_engine (JObj [("value", JNum 7)]) false] /\
  map run_id (runs (rw_db (world m'.1))) = ["run0"; "run1"; "run2"] /\
  map job_payload (drop 1 (jobs (rw_db (world m'.1)))) =
    map stringify [run_body "run1" (JObj [("subject", JStr "hi")]) false; run_body "run2" (JObj [("value", JNum 7)]) false] /\
  wrote (tables_seen "project" None 0 Webhook.demo_hmac true [5000; 15000] (new_triggers (demo_world demo_trigger_flows)) es) m'.2
    (rw_db (world m)) (rw_db (world m'.1)).
Proof.
  cbv zeta. split; [vm_compute; reflexivity|]. split; [vm_compute; reflexivity|]. split; [vm_compute; reflexivity|].
  apply (trigger_runs_are_cleared "project" None 0 Webhook.demo_hmac true [5000; 15000] (demo_world demo_trigger_flows)
    (demo_scan ++ take 2 demo_fires) demo_polled). intros w'. discriminate.
Defined.

Lemma subscriptions_own_resources_witness :
  let m := (demo_triggers (demo_scan ++ demo_fires ++ demo_disable)).1 in
  resources m "daily" = (true, false, []) /\
  resources (torn None 0 Webhook.demo_hmac true "daily" 23 (lock_turn None 0 Webhook.demo_hmac true "daily" 22 m)) "daily" = nothing_held.
Proof.
  cbn zeta. split; [vm_compute; reflexivity|].
  refine (proj1 (proj2 (subscriptions_own_resources "project" None 0 Webhook.demo_hmac true [5000; 15000] (demo_world demo_trigger_flows)
    (demo_scan ++ demo_fires ++ demo_disable) _ "daily" _) O 22 23 _ _ _)); [|vm_compute; reflexivity..].
  cbn [app demo_scan demo_fires demo_disable orderly_run orderly]. split_and!; try exact I; [reflexivity|intros id; reflexivity|].
  vm_compute. repeat constructor; simpl; intuition discriminate.
Defined.

(** The daemon shuts down on it (daemon/index.ts). *)
Example deleted_flow_poll_rejected :
  List.last (demo_triggers (demo_scan ++ demo_delete)).2 (unhandled_rejection "") = unhandled_rejection "FOREIGN KEY constraint failed".
Proof. vm_compute. reflexivity. Qed.
