(* ===== verification/Commitments.v ===== *)
(** * Commitments (vault/commitments.ts)

    The commitments table: what the daemon promised to do, when, and how it ended.
    A row linked from commitment_work is a work item ([works] lists the linked ids)
    and follows its own contract (WorkItems). [retry_policy] is the value of its JSON
    column (stored and read back by [Json.parse_stringify]), so [parseCommitment] is
    the identity here. *)
From S2P Require Export Json Sql.

Inductive CommitmentPriority := low | normal | high | critical.
Inductive CommitmentStatus := pending | active | completed | failed | escalated.

Record CommitmentRow := mkCommitment {
  cm_id : string; what : string; when_due : option Z; cm_context : option string; priority : CommitmentPriority;
  cm_status : CommitmentStatus; retry_policy : option json; created_from : option string; assigned_to : option string;
  cm_created_at : Z; completed_at : option Z; cm_result : option string; sort_order : Z }.

#[global] Instance commitment_row : Row CommitmentRow := cm_id.
#[global] Instance CommitmentPriority_eq : EqDecision CommitmentPriority. Proof. solve_decision. Defined.
#[global] Instance CommitmentStatus_eq : EqDecision CommitmentStatus. Proof. solve_decision. Defined.

Definition isWorkItemCommitment (works : list string) (id : string) : bool := includes id works.

(** ** Creation and queries *)

Record CommitmentOpts := mkCommitmentOpts {
  o_when_due : option Z; o_context : option string; o_priority : option CommitmentPriority;
  o_retry_policy : option json; o_created_from : option string; o_assigned_to : option string }.
Definition no_commitment_opts : CommitmentOpts := mkCommitmentOpts None None None None None None.

(** [id] is the value [generateId] returns; [None] is the constraint error of a duplicate. *)
Definition createCommitment (id : string) (now : Z) (text : string) (o : CommitmentOpts) (t : list CommitmentRow)
    : option (list CommitmentRow * CommitmentRow) :=
  let row := mkCommitment id text (o_when_due o) (o_context o) (o_priority o ?? normal) pending (o_retry_policy o)
               (o_created_from o) (o_assigned_to o) now None None 0 in
  match insert_row row t with Some t' => Some (t', row) | None => None end.

Definition getCommitment (id : string) (t : list CommitmentRow) : option CommitmentRow := get_row id t.

Definition open_status (c : CommitmentRow) : bool := includes (cm_status c) [pending; active].
Definition due_by (now : Z) (c : CommitmentRow) : bool := match when_due c with Some d => d <=? now | None => false end.

Record CommitmentQuery := mkQuery {
  q_status : option CommitmentStatus; q_priority : option CommitmentPriority; q_assigned_to : option string; q_overdue : bool }.

Definition matches_query (now : Z) (q : CommitmentQuery) (c : CommitmentRow) : bool :=
  match q_status q with Some s => bool_decide (cm_status c = s) | None => true end &&
  match q_priority q with Some p => bool_decide (priority c = p) | None => true end &&
  match q_assigned_to q with Some (String _ _ as a) => bool_decide (assigned_to c = Some a) | _ => true end &&
  (negb (q_overdue q) || (due_by now c && open_status c)).

(** [ORDER BY sort_order ASC, created_at DESC] *)
Definition board_order (a b : CommitmentRow) : bool :=
  (sort_order a <? sort_order b) || ((sort_order a =? sort_order b) && (cm_created_at b <=? cm_created_at a)).

Definition findCommitments (now : Z) (q : CommitmentQuery) (t : list CommitmentRow) : list CommitmentRow :=
  sort_by board_order (select_where (matches_query now q) t).

(** [EXCLUDE_WORK_ITEMS]: the options of the two scheduled queries. *)
Definition scheduled (excludeWorkItems : bool) (works : list string) (c : CommitmentRow) : bool :=
  open_status c && negb (excludeWorkItems && includes (cm_id c) works).

(** [ORDER BY when_due ASC], on rows that have one. *)
Definition due_asc (a b : CommitmentRow) : bool := (when_due a ?? 0) <=? (when_due b ?? 0).

Definition getUpcoming (limit : Z) (exclude : bool) (works : list string) (t : list CommitmentRow) : list CommitmentRow :=
  sql_limit limit 0 (sort_by due_asc (select_where (fun c => scheduled exclude works c && bool_decide (when_due c <> None)) t)).

Definition getDueCommitments (now : Z) (exclude : bool) (works : list string) (t : list CommitmentRow) : list CommitmentRow :=
  sort_by due_asc (select_where (fun c => due_by now c && scheduled exclude works c) t).

(** ** Updates: each returns [None] when the row does not exist *)

Definition ended (s : CommitmentStatus) (at_ : option Z) (result : option string) (c : CommitmentRow) : CommitmentRow :=
  mkCommitment (cm_id c) (what c) (when_due c) (cm_context c) (priority c) s (retry_policy c) (created_from c) (assigned_to c)
    (cm_created_at c) at_ result (sort_order c).
Definition with_status (s : CommitmentStatus) (c : CommitmentRow) : CommitmentRow := ended s (completed_at c) (cm_result c) c.
Definition with_assignee (a : string) (c : CommitmentRow) : CommitmentRow :=
  mkCommitment (cm_id c) (what c) (when_due c) (cm_context c) (priority c) (cm_status c) (retry_policy c) (created_from c) (Some a)
    (cm_created_at c) (completed_at c) (cm_result c) (sort_order c).
Definition with_due (d : option Z) (c : CommitmentRow) : CommitmentRow :=
  mkCommitment (cm_id c) (what c) d (cm_context c) (priority c) (cm_status c) (retry_policy c) (created_from c) (assigned_to c)
    (cm_created_at c) (completed_at c) (cm_result c) (sort_order c).
Definition with_order (o : Z) (c : CommitmentRow) : CommitmentRow :=
  mkCommitment (cm_id c) (what c) (when_due c) (cm_context c) (priority c) (cm_status c) (retry_policy c) (created_from c) (assigned_to c)
    (cm_created_at c) (completed_at c) (cm_result c) o.

(** [UPDATE commitments SET .. WHERE id = ?] *)
Definition update_row (id : string) (f : CommitmentRow -> CommitmentRow) (t : list CommitmentRow) : list CommitmentRow :=
  (update_where (key_is id (fun _ => true)) f t).1.

(** The row is read, updated and read again. *)
Definition change (id : string) (f : CommitmentRow -> CommitmentRow) (t : list CommitmentRow)
    : list CommitmentRow * option CommitmentRow :=
  match getCommitment id t with
  | None => (t, None)
  | Some _ => let t' := update_row id f t in (t', getCommitment id t')
  end.

Definition completeCommitment (id : string) (result : option string) (now : Z) := change id (ended completed (Some now) result).
Definition failCommitment (id : string) (reason : option string) (now : Z) := change id (ended failed (Some now) reason).
Definition escalateCommitment (id : string) := change id (with_status escalated).
Definition terminal_status (s : CommitmentStatus) : bool := bool_decide (s = completed) || bool_decide (s = failed).

(** The result is overwritten too: with null when none is given. *)
Definition updateCommitmentStatus (id : string) (s : CommitmentStatus) (result : option string) (now : Z) :=
  change id (ended s (if terminal_status s then Some now else None) result).
Definition updateCommitmentAssignee (id assignedTo : string) := change id (with_assignee assignedTo).
Definition updateCommitmentDue (id : string) (due : option Z) := change id (with_due due).

Definition reorderCommitments (items : list (string * Z)) (t : list CommitmentRow) : list CommitmentRow :=
  foldl (fun t i => update_row i.1 (with_order i.2) t) t items.

(** Any operation of this file on the table. *)
Inductive CommitmentOp :=
  | OpCreate (id : string) (now : Z) (text : string) (o : CommitmentOpts)
  | OpComplete (id : string) (result : option string) (now : Z)
  | OpFail (id : string) (reason : option string) (now : Z)
  | OpEscalate (id : string)
  | OpStatus (id : string) (s : CommitmentStatus) (result : option string) (now : Z)
  | OpAssign (id assignedTo : string)
  | OpDue (id : string) (due : option Z)
  | OpReorder (items : list (string * Z)).

Definition commitment_step (t : list CommitmentRow) (op : CommitmentOp) : list CommitmentRow :=
  match op with
  | OpCreate id now text o => match createCommitment id now text o t with Some (t', _) => t' | None => t end
  | OpComplete id r now => (completeCommitment id r now t).1
  | OpFail id r now => (failCommitment id r now t).1
  | OpEscalate id => (escalateCommitment id t).1
  | OpStatus id s r now => (updateCommitmentStatus id s r now t).1
  | OpAssign id a => (updateCommitmentAssignee id a t).1
  | OpDue id d => (updateCommitmentDue id d t).1
  | OpReorder items => reorderCommitments items t
  end.

(** ** Lemmas *)

#[export] Instance ended_key s a r : KeepsKey (ended s a r). Proof. done. Qed.
#[export] Instance with_assignee_key a : KeepsKey (with_assignee a). Proof. done. Qed.
#[export] Instance with_due_key d : KeepsKey (with_due d). Proof. done. Qed.
#[export] Instance with_order_key o : KeepsKey (with_order o). Proof. done. Qed.
#[export] Instance with_status_key s : KeepsKey (with_status s). Proof. done. Qed.

Section update.
Context (f : CommitmentRow -> CommitmentRow) `{!KeepsKey f}.

Lemma update_row_get id k t :
  getCommitment k (update_row id f t) = (if bool_decide (k = id) then f <$> getCommitment k t else getCommitment k t).
Proof.
  unfold getCommitment, update_row. rewrite get_row_update by done.
  destruct (get_row k t) as [c|] eqn:E; simpl; [|by case_bool_decide].
  apply get_row_Some in E as [_ E]. unfold key_is. rewrite andb_true_r, E. by case_bool_decide.
Qed.

Lemma change_get id k t :
  getCommitment k (change id f t).1 = (if bool_decide (k = id) then f <$> getCommitment k t else getCommitment k t).
Proof.
  unfold change. destruct (getCommitment id t) eqn:E; simpl; [apply update_row_get|].
  case_bool_decide; [subst; by rewrite E|done].
Qed.

Lemma change_keyed id t : keyed t -> keyed (change id f t).1.
Proof. unfold change. intros H. destruct (getCommitment id t); simpl; [by apply update_keyed|done]. Qed.
End update.

(** Does an operation write the row [id]? A creation never does: the key is taken. *)
Definition writes (id : string) (op : CommitmentOp) : bool :=
  match op with
  | OpCreate _ _ _ _ => false
  | OpComplete i _ _ | OpFail i _ _ | OpEscalate i | OpStatus i _ _ _ | OpAssign i _ | OpDue i _ => bool_decide (id = i)
  | OpReorder items => includes id (map fst items)
  end.

Lemma reorder_keyed items : forall t, keyed t -> keyed (reorderCommitments items t).
Proof. induction items as [|i items IH]; intros t Ht; simpl; [done|]. apply IH. by apply update_keyed. Qed.

Lemma reorder_other id items : forall t, includes id (map fst items) = false ->
  getCommitment id (reorderCommitments items t) = getCommitment id t.
Proof.
  induction items as [|[i o] items IH]; intros t Hi; [done|]. simpl in Hi. apply orb_false_iff in Hi as [Hi Hr].
  change (getCommitment id (reorderCommitments items (update_row i (with_order o) t)) = getCommitment id t).
  rewrite IH by done. rewrite update_row_get by apply _. by rewrite Hi.
Qed.

Lemma commitment_step_keyed t op : keyed t -> keyed (commitment_step t op).
Proof.
  intros Ht. destruct op; simpl; try (apply change_keyed; [apply _|done]); [|by apply reorder_keyed].
  unfold createCommitment. destruct (insert_row _ t) as [t'|] eqn:E; [|done]. by apply insert_row_keyed in E.
Qed.

Lemma commitment_step_other id t op : writes id op = false -> is_Some (getCommitment id t) ->
  getCommitment id (commitment_step t op) = getCommitment id t.
Proof.
  intros Hw Hs. destruct op; simpl in *; try (unfold completeCommitment, failCommitment, escalateCommitment, updateCommitmentStatus,
    updateCommitmentAssignee, updateCommitmentDue; rewrite change_get by apply _; by rewrite Hw); [|by apply reorder_other].
  unfold createCommitment. destruct (insert_row _ t) as [t'|] eqn:E; [|done]. unfold getCommitment in *.
  rewrite (get_row_insert _ _ _ id E). case_bool_decide as Hk; [|done]. exfalso. unfold insert_row in E. rewrite Hk in E.
  destruct Hs as [r Hs]. by rewrite Hs in E.
Qed.

Lemma status_get id k s r now t : getCommitment k (updateCommitmentStatus id s r now t).1 =
  (if bool_decide (k = id) then ended s (if terminal_status s then Some now else None) r <$> getCommitment k t else getCommitment k t).
Proof. unfold updateCommitmentStatus. by rewrite change_get by apply _. Qed.

Lemma status_keyed id s r now t : keyed t -> keyed (updateCommitmentStatus id s r now t).1.
Proof. intros. apply change_keyed; [apply _|done]. Qed.
