(* ===== verification/CommitmentExecutor.v ===== *)
(** * The executor of due commitments (daemon/commitment-executor.ts)

    Announce, wait out the cancel window, execute. [executeCommitment] awaits the agent's
    turn, so it is two steps, [fireExecution] and [turn_ended]; between them the world may
    do anything: other turns, checks, cancels, approvals, the user's edits, a restart.
    [exec_run] runs all of these in any order. The timers are those the code sets: one of
    them can fire once its time has come. *)
From S2P Require Export Approval.
From S2P Require Export Commitments.
From S2P Require Export JsMap.
From Stdlib Require Import Ascii.

#[local] Arguments map_get : simpl never.
#[local] Arguments map_has : simpl never.
#[local] Arguments map_set : simpl never.
#[local] Arguments map_delete : simpl never.

(** ** Data *)

Inductive Aggressiveness := passive | moderate | aggressive.

Record ExecutionState := mkExecution {
  commitmentId : string; ex_what : string; announcedAt : Z; cancelDeadline : option Z; cancelled : bool; executed_ : bool }.

Record Parked := mkParked { p_what : string; requestIds : list string }.

(** [executeTimers] maps an id to the time its timer is due. *)
Record Executor := mkExecutor {
  aggressiveness : Aggressiveness; agent : bool; lookup_set : bool; running : bool; notifiedIds : list string;
  pending_ : list (string * ExecutionState); executedIds : list string; awaitingApproval : list (string * Parked);
  executeTimers : list (string * Z) }.

(** The executor with the tables it works on and the turns it awaits. *)
Record World := mkWorld {
  ex : Executor; commitments : list CommitmentRow; works : list string; approvals : Manager; turns : list ExecutionState }.

(** What the rest of the daemon sees, in order. *)
Inductive Output :=
  | published (topic : string) (c : CommitmentRow)
  | announced (c : CommitmentRow) (at_ : Z) (executeAt : option Z)
  | chat (text : string)
  | cancel_noted (id : string)
  | turn_begun (id : string) (prompt : string) (at_ : Z).

(** [CANCEL_WINDOW]; [None] is Infinity. *)
Definition cancel_window (a : Aggressiveness) : option Z :=
  match a with passive => None | moderate => Some 30000 | aggressive => Some 5000 end.

Definition new_executor (a : Aggressiveness) : Executor := mkExecutor a false false false [] [] [] [] [].

Definition with_ex (w : World) (x : Executor) : World := mkWorld x (commitments w) (works w) (approvals w) (turns w).
Definition with_commitments (w : World) (t : list CommitmentRow) : World := mkWorld (ex w) t (works w) (approvals w) (turns w).
Definition with_turns (w : World) (l : list ExecutionState) : World := mkWorld (ex w) (commitments w) (works w) (approvals w) l.

Definition set_pending (l : list (string * ExecutionState)) (x : Executor) : Executor :=
  mkExecutor (aggressiveness x) (agent x) (lookup_set x) (running x) (notifiedIds x) l (executedIds x) (awaitingApproval x) (executeTimers x).
Definition set_executed (l : list string) (x : Executor) : Executor :=
  mkExecutor (aggressiveness x) (agent x) (lookup_set x) (running x) (notifiedIds x) (pending_ x) l (awaitingApproval x) (executeTimers x).
Definition set_notified (l : list string) (x : Executor) : Executor :=
  mkExecutor (aggressiveness x) (agent x) (lookup_set x) (running x) l (pending_ x) (executedIds x) (awaitingApproval x) (executeTimers x).
Definition set_awaiting (l : list (string * Parked)) (x : Executor) : Executor :=
  mkExecutor (aggressiveness x) (agent x) (lookup_set x) (running x) (notifiedIds x) (pending_ x) (executedIds x) l (executeTimers x).
Definition set_timers (l : list (string * Z)) (x : Executor) : Executor :=
  mkExecutor (aggressiveness x) (agent x) (lookup_set x) (running x) (notifiedIds x) (pending_ x) (executedIds x) (awaitingApproval x) l.
Definition set_running (b : bool) (x : Executor) : Executor :=
  mkExecutor (aggressiveness x) (agent x) (lookup_set x) b (notifiedIds x) (pending_ x) (executedIds x) (awaitingApproval x) (executeTimers x).
Definition setAgentService (x : Executor) : Executor :=
  mkExecutor (aggressiveness x) true (lookup_set x) (running x) (notifiedIds x) (pending_ x) (executedIds x) (awaitingApproval x) (executeTimers x).
Definition setApprovalLookup (x : Executor) : Executor :=
  mkExecutor (aggressiveness x) (agent x) true (running x) (notifiedIds x) (pending_ x) (executedIds x) (awaitingApproval x) (executeTimers x).

(** [set.add(x)] *)
Definition set_add (x : string) (l : list string) : list string := if includes x l then l else l ++ [x].

(** ** The ids of a parked commitment *)

Definition AWAITING_PREFIX : string := "Awaiting user approval ".
Definition REQ_OPEN : string := AWAITING_PREFIX +:+ "[req:".

(** The text up to the first [c], which must be there: what the group of AWAITING_RE captures. *)
Fixpoint until (c : ascii) (s : string) : option string :=
  match s with
  | EmptyString => None
  | String a s' => if Ascii.eqb a c then Some EmptyString else String a <$> until c s'
  end.

Definition parseParkedRequestIds (result : option string) : option (list string) :=
  match result with
  | None | Some EmptyString => None
  | Some r =>
      if starts_with REQ_OPEN r
      then match until "]" (sdrop (String.length REQ_OPEN) r) with
           | Some ids => Some (List.filter truthy (map trim (split_on "," ids)))
           | None => None
           end
      else None
  end.

Definition park_text (ids : list string) (summary : string) : string :=
  AWAITING_PREFIX +:+ "[req:" +:+ JsString.join "," ids +:+ "]: " +:+ summary.

(** ** Settling parked commitments *)

(** A request by its outcome: [None] counts as still pending. *)
Definition request_status (m : Manager) (id : string) : Approval.ApprovalStatus :=
  match getRequest m id with Some r => req_status r | None => expired end.
Definition unsettled (m : Manager) (id : string) : bool :=
  includes (request_status m id) [Approval.pending; approved].
Definition was_executed (m : Manager) (id : string) : bool := bool_decide (request_status m id = Approval.executed).

Definition results_of (m : Manager) (ids : list string) : list string :=
  flat_map (fun id => match getRequest m id with
                      | Some r => if bool_decide (req_status r = Approval.executed)
                                  then match execution_result r with Some (String _ _ as s) => [s] | _ => [] end
                                  else []
                      | None => []
                      end) ids.

Definition or_text (s fallback : string) : string := match s with EmptyString => fallback | _ => s end.

(** One entry: whether it stays, and the new table. *)
Definition settle_entry (m : Manager) (works : list string) (now : Z) (id : string) (p : Parked) (t : list CommitmentRow)
    : bool * list CommitmentRow :=
  if isWorkItemCommitment works id then (false, t)
  else if existsb (unsettled m) (requestIds p) then (true, t)
  else match getCommitment id t with
       | Some c =>
           if bool_decide (cm_status c = active)
           then if existsb (was_executed m) (requestIds p)
                then (false, (updateCommitmentStatus id completed
                                (Some (or_text (stake 500 (JsString.join newline (results_of m (requestIds p)))) "Approved and executed")) now t).1)
                else (false, (updateCommitmentStatus id failed (Some "Approval denied or expired") now t).1)
           else (false, t)
       | None => (false, t)
       end.

Fixpoint settle_entries (m : Manager) (works : list string) (now : Z) (l : list (string * Parked)) (t : list CommitmentRow)
    : list (string * Parked) * list CommitmentRow :=
  match l with
  | [] => ([], t)
  | (id, p) :: rest =>
      let '(stays, t1) := settle_entry m works now id p t in
      let '(rest', t2) := settle_entries m works now rest t1 in
      (if stays then (id, p) :: rest' else rest', t2)
  end.

Definition settleAwaitingApprovals (now : Z) (w : World) : World :=
  if lookup_set (ex w) then
    let '(l, t) := settle_entries (approvals w) (works w) now (awaitingApproval (ex w)) (commitments w) in
    with_commitments (with_ex w (set_awaiting l (ex w))) t
  else w.

(** ** Announcing *)

Definition dq : string := String dquote EmptyString.

Definition announce_text (a : Aggressiveness) (text : string) : string :=
  match cancel_window a with
  | None => "Task due: " +:+ dq +:+ text +:+ dq +:+ ". Waiting for your instruction to proceed."
  | Some w => "Executing " +:+ dq +:+ text +:+ dq +:+ " in " +:+ show_z (w / 1000) +:+ "s. Send cancel to abort."
  end.

(** A check runs without an await, so that its readings of the clock are one instant here: [now] is that
    of the check, where the source reads [Date.now()] again for each announcement. *)
Definition announceExecution (now : Z) (c : CommitmentRow) (x : Executor) : Executor * list Output :=
  let deadline := match cancel_window (aggressiveness x) with Some w => Some (now + w) | None => None end in
  let x1 := set_pending (map_set (cm_id c) (mkExecution (cm_id c) (what c) now deadline false false) (pending_ x)) x in
  let x2 := match deadline with Some d => set_timers (map_set (cm_id c) (now + Z.max 0 (d - now)) (executeTimers x1)) x1 | None => x1 end in
  (x2, [announced c now deadline; chat (announce_text (aggressiveness x) (what c))]).

(** One candidate of the last loop of [checkAndAnnounce]. *)
Definition consider (now : Z) (x : Executor) (c : CommitmentRow) : Executor * list Output :=
  if map_has (cm_id c) (pending_ x) || includes (cm_id c) (executedIds x) || terminal_status (cm_status c) then (x, [])
  else match parseParkedRequestIds (cm_result c) with
       | Some ids =>
           (if map_has (cm_id c) (awaitingApproval x) then x
            else set_awaiting (map_set (cm_id c) (mkParked (what c) ids) (awaitingApproval x)) x, [])
       | None => announceExecution now c x
       end.

Fixpoint consider_all (now : Z) (cs : list CommitmentRow) (x : Executor) : Executor * list Output :=
  match cs with
  | [] => (x, [])
  | c :: cs' => let '(x1, o1) := consider now x c in let '(x2, o2) := consider_all now cs' x1 in (x2, o1 ++ o2)
  end.

(** [c.when_due && c.when_due > now && c.when_due <= now + ms] *)
Definition due_within (now ms : Z) (c : CommitmentRow) : bool :=
  match when_due c with Some d => negb (d =? 0) && (now <? d) && (d <=? now + ms) | None => false end.

(** One-shot bus events of one kind. *)
Definition notify_one (topic mark : string) (acc : list string * list Output) (c : CommitmentRow) : list string * list Output :=
  let '(notified, out) := acc in
  if terminal_status (cm_status c) || includes (mark +:+ cm_id c) notified then acc
  else (notified ++ [mark +:+ cm_id c], out ++ [published topic c]).

Definition cap (limit keep : nat) (l : list string) : list string := if (limit <? length l)%nat then keep_last keep l else l.

(** [now] is the clock of the check, [now_sql] the later one of the query of due rows, [now_settle] the earlier one of the settlement. *)
Definition checkAndAnnounce (now_settle now now_sql : Z) (w0 : World) : World * list Output :=
  let w := settleAwaitingApprovals now_settle w0 in
  let x := ex w in
  let dueNow := getDueCommitments now_sql true (works w) (commitments w) in
  let upcoming := getUpcoming 20 true (works w) (commitments w) in
  let '(n1, o1) := foldl (notify_one "commitment.overdue" "overdue:") (notifiedIds x, []) dueNow in
  let '(n2, o2) := foldl (notify_one "commitment.due_soon" "due_soon:") (n1, []) (List.filter (due_within now (15 * 60000)) upcoming) in
  let '(x', o3) := consider_all now (dueNow ++ List.filter (due_within now (2 * 60000)) upcoming) (set_notified (cap 1000 500 n2) x) in
  (with_ex w x', o1 ++ o2 ++ o3).

(** ** Cancelling and executing *)

Definition cancelExecution (id : string) (x : Executor) : Executor * list Output * bool :=
  match map_get id (pending_ x) with
  | None => (x, [], false)
  | Some s =>
      if executed_ s || cancelled s then (x, [], false)
      else (set_timers (map_delete id (executeTimers x)) (set_pending (map_delete id (pending_ x)) x), [cancel_noted id], true)
  end.

Definition getPending (x : Executor) : list ExecutionState :=
  List.filter (fun s => negb (cancelled s) && negb (executed_ s)) (map_values (pending_ x)).

Definition execution_prompt (text : string) : string :=
  JsString.join newline
    ["[COMMITMENT EXECUTION — MANDATORY]"; "";
     "You previously committed to: " +:+ dq +:+ text +:+ dq;
     "This commitment is now due. Execute it NOW using your tools."; "";
     "Instructions:";
     "1. Use your available tools (browser, terminal, file operations) to complete this task.";
     "2. Be thorough — actually perform the work, don't just describe it.";
     "3. Gated actions (commands that change the machine, file writes, app control, deletions, installs, settings, messages, email, payments) stop automatically for the user's approval and return [AWAITING_APPROVAL]. Do the autonomous part first, then make the call; if it is awaiting approval, say so and stop. Do NOT write "
       +:+ dq +:+ "APPROVAL REQUIRED" +:+ dq +:+ " yourself and do not claim the action was done.";
     "4. After completion, summarize what you did.";
     "5. If the task is impossible or unclear, explain why and suggest alternatives."; "";
     "BEGIN EXECUTION."].

(** The timer of [id], and [fireExecution] up to the awaited turn. *)
Definition fireExecution (id : string) (now : Z) (w0 : World) : World * list Output :=
  let w := with_ex w0 (set_timers (map_delete id (executeTimers (ex w0))) (ex w0)) in
  let x := ex w in
  match map_get id (pending_ x) with
  | None => (w, [])
  | Some s =>
      let dropped := set_pending (map_delete id (pending_ x)) x in
      if cancelled s || executed_ s || isWorkItemCommitment (works w) id then (with_ex w dropped, [])
      else if negb (agent x) then (w, [])
      else
        let s' := mkExecution (commitmentId s) (ex_what s) (announcedAt s) (cancelDeadline s) (cancelled s) true in
        let x' := set_executed (cap 500 250 (set_add id (executedIds x))) dropped in
        let t := (updateCommitmentStatus (commitmentId s) active None now (commitments w)).1 in
        (with_turns (with_commitments (with_ex w x') t) (turns w ++ [s']),
         [turn_begun (commitmentId s) (execution_prompt (ex_what s)) now])
  end.

(** What the awaited turn gave: an error (its message, when it is an Error), or the answer
    and the ids of the approval requests the turn stopped on. *)
Inductive TurnResult := turn_failed (message : option string) | turn_answered (response : option string) (ids : list string).

Definition result_summary (response : option string) : string :=
  match response with
  | Some (String _ _ as r) => if (500 <? String.length r)%nat then stake 497 r +:+ "..." else r
  | _ => "Executed successfully"
  end.

Definition close_turn (s : ExecutionState) (res : TurnResult) (now : Z) (w : World) : World * list Output :=
  let update st r := with_commitments w (updateCommitmentStatus (commitmentId s) st (Some r) now (commitments w)).1 in
  match res with
  | turn_failed m => (update failed (m ?? "Execution failed"), [])
  | turn_answered response ids =>
      (match ids with
       | [] => update completed (result_summary response)
       | _ => let w' := update active (park_text ids (result_summary response)) in
              with_ex w' (set_awaiting (map_set (commitmentId s) (mkParked (ex_what s) ids) (awaitingApproval (ex w'))) (ex w'))
       end, [chat (response ?? "Task executed (no response).")])
  end.

(** The turn at position [k] of those awaited returns. *)
Definition turn_ended (k : nat) (res : TurnResult) (now : Z) (w : World) : World * list Output :=
  match turns w !! k with
  | None => (w, [])
  | Some s => close_turn s res now (with_turns w (delete k (turns w)))
  end.

(** ** The world's steps *)

Definition start (now_settle now now_sql : Z) (w : World) : World * list Output :=
  if running (ex w) then (w, []) else checkAndAnnounce now_settle now now_sql (with_ex w (set_running true (ex w))).
Definition stop (x : Executor) : Executor := set_timers [] (set_running false x).

Inductive ExecOp :=
  | OpSetAgent | OpSetLookup | OpStart (now_settle now now_sql : Z) | OpStop
  | OpCheck (now_settle now now_sql : Z)
  | OpSettle (now : Z)
  | OpTimer (id : string) (now : Z)
  | OpTurn (k : nat) (res : TurnResult) (now : Z)
  | OpCancel (id : string)
  | OpEdit (op : CommitmentOp)
  | OpLink (id : string)
  | OpApprovals (m : Manager)
  | OpRestart (a : Aggressiveness).

Definition exec_step (w : World) (op : ExecOp) : World * list Output :=
  match op with
  | OpSetAgent => (with_ex w (setAgentService (ex w)), [])
  | OpSetLookup => (with_ex w (setApprovalLookup (ex w)), [])
  | OpStart a b c => start a b c w
  | OpStop => (with_ex w (stop (ex w)), [])
  | OpCheck a b c => checkAndAnnounce a b c w
  | OpSettle now => (settleAwaitingApprovals now w, [])
  | OpTimer id now =>
      match map_get id (executeTimers (ex w)) with
      | Some due => if due <=? now then fireExecution id now w else (w, [])
      | None => (w, [])
      end
  | OpTurn k res now => turn_ended k res now w
  | OpCancel id => let '(x, out, _) := cancelExecution id (ex w) in (with_ex w x, out)
  | OpEdit op => (with_commitments w (commitment_step (commitments w) op), [])
  | OpLink id => (mkWorld (ex w) (commitments w) (set_add id (works w)) (approvals w) (turns w), [])
  | OpApprovals m => (mkWorld (ex w) (commitments w) (works w) m (turns w), [])
  | OpRestart a => (mkWorld (new_executor a) (commitments w) (works w) (approvals w) [], [])
  end.

Fixpoint exec_run (w : World) (ops : list ExecOp) : World * list Output :=
  match ops with
  | [] => (w, [])
  | op :: ops' => let '(w1, o1) := exec_step w op in let '(w2, o2) := exec_run w1 ops' in (w2, o1 ++ o2)
  end.

(** ** What the executor's maps mean *)

Definition fresh (a : Aggressiveness) (rows : list CommitmentRow) (works : list string) (m : Manager) : World :=
  mkWorld (new_executor a) rows works m [].

(** The outputs that end or restart the wait of [id]. *)
Definition concerns (id : string) (o : Output) : bool :=
  match o with
  | announced c _ _ => bool_decide (cm_id c = id)
  | cancel_noted i | turn_begun i _ _ => bool_decide (i = id)
  | published _ _ | chat _ => false
  end.
Definition quiet (id : string) (l : list Output) : Prop := forall o, In o l -> concerns id o = false.

(** A row the check may announce: open, due within two minutes of [t0], not parked. *)
Definition announceable (t0 : Z) (c : CommitmentRow) : Prop :=
  open_status c = true /\ (exists d, when_due c = Some d /\ d <= t0 + 2 * 60000) /\ parseParkedRequestIds (cm_result c) = None.

(** The announcement a timer of [id] due at [d] comes from. *)
Definition armed (log : list Output) (a : Aggressiveness) (id : string) (d : Z) : Prop :=
  exists c t0 pre post, log = pre ++ announced c t0 (Some d) :: post /\ cm_id c = id /\
    cancel_window a = Some (d - t0) /\ announceable t0 c /\ quiet id post.

Record exec_ok (log : list Output) (x : Executor) : Prop := {
  timers_pending : forall id, is_Some (map_get id (executeTimers x)) -> is_Some (map_get id (pending_ x));
  timers_armed : forall id d, map_get id (executeTimers x) = Some d -> armed log (aggressiveness x) id d;
  pending_state : forall id s, map_get id (pending_ x) = Some s -> commitmentId s = id /\ cancelled s = false /\ executed_ s = false;
}.

(** The two queries of a check are close together. *)
Definition check_clock (op : ExecOp) : Prop :=
  match op with OpStart _ now now_sql | OpCheck _ now now_sql => now_sql <= now + 2 * 60000 | _ => True end.

Lemma quiet_app id l1 l2 : quiet id (l1 ++ l2) <-> quiet id l1 /\ quiet id l2.
Proof. unfold quiet. setoid_rewrite in_app_iff. naive_solver. Qed.

Lemma armed_app log a id d out : armed log a id d -> quiet id out -> armed (log ++ out) a id d.
Proof.
  intros (c & t0 & pre & post & -> & Hid & Hw & Hc & Hq) Ho. exists c, t0, pre, (post ++ out).
  split; [by rewrite <- app_assoc|]. repeat (split; [done|]). by apply quiet_app.
Qed.

(** Outputs that concern nobody, and states with the same maps. *)
Lemma exec_ok_same log x out x' : exec_ok log x -> (forall id, quiet id out) ->
  pending_ x' = pending_ x -> executeTimers x' = executeTimers x -> aggressiveness x' = aggressiveness x -> exec_ok (log ++ out) x'.
Proof.
  intros [H1 H2 H3] Ho Ep Et Ea. split; rewrite ?Ep, ?Et, ?Ea; [done| |done]. intros id d Hd. apply armed_app; auto.
Qed.

Lemma quiet_nil id : quiet id []. Proof. intros o []. Qed.

Lemma exec_ok_new log a : exec_ok log (new_executor a).
Proof. split; [by intros ? [? [=]]|by intros ? ? [=]|by intros ? ? [=]]. Qed.

(** ** The check *)

Lemma consider_ok log now x c : exec_ok log x -> open_status c = true ->
  (exists d, when_due c = Some d /\ d <= now + 2 * 60000) ->
  exec_ok (log ++ (consider now x c).2) (consider now x c).1 /\ aggressiveness (consider now x c).1 = aggressiveness x.
Proof.
  intros Hx Ho Hd. unfold consider.
  destruct (map_has (cm_id c) (pending_ x)) eqn:Ep; simpl.
  { split; [by apply exec_ok_same with x; [done|apply quiet_nil|..]|done]. }
  destruct (includes (cm_id c) (executedIds x) || terminal_status (cm_status c)) eqn:Ee; simpl.
  { split; [by apply exec_ok_same with x; [done|apply quiet_nil|..]|done]. }
  destruct (parseParkedRequestIds (cm_result c)) as [ids|] eqn:Epk; simpl.
  { destruct (map_has (cm_id c) (awaitingApproval x)); split; try done; by apply exec_ok_same with x; [done|apply quiet_nil|..]. }
  assert (map_get (cm_id c) (pending_ x) = None) as Hp.
  { destruct (map_get _ _) eqn:E; [|done]. assert (map_has (cm_id c) (pending_ x) = true) by (apply map_has_get; eauto). congruence. }
  assert (map_get (cm_id c) (executeTimers x) = None) as Ht.
  { destruct (map_get (cm_id c) (executeTimers x)) eqn:E; [|done]. destruct (timers_pending _ _ Hx (cm_id c)); [by eauto|congruence]. }
  assert (forall id, id <> cm_id c -> quiet id (announceExecution now c x).2) as Hq.
  { intros id Hid o [<-|[<-|[]]]; simpl; [by apply bool_decide_false|done]. }
  unfold announceExecution in *. destruct (cancel_window (aggressiveness x)) as [win|] eqn:Ew; simpl in *; (split; [|done]).
  - split; simpl; intros id.
    + rewrite !map_get_set. case_bool_decide; [by eauto|]. apply (timers_pending _ _ Hx).
    + intros d. rewrite map_get_set. case_bool_decide as E.
      * intros [= <-]. subst id. assert (0 <= win) by (clear -Ew; destruct (aggressiveness x); simplify_eq/=; lia).
        exists c, now, log, [chat (announce_text (aggressiveness x) (what c))].
        replace (now + Z.max 0 (now + win - now)) with (now + win) by lia.
        repeat (split; [done|]). split; [rewrite Ew; f_equal; lia|]. split; [done|]. intros o [<-|[]]. done.
      * intros Hd'. apply armed_app; [by apply (timers_armed _ _ Hx)|auto].
    + intros s. rewrite map_get_set. case_bool_decide; [intros [= <-]; by subst|apply (pending_state _ _ Hx)].
  - split; simpl; intros id.
    + intros Hs. rewrite map_get_set. case_bool_decide; [by eauto|]. by apply (timers_pending _ _ Hx).
    + intros d Hd'. apply armed_app; [by apply (timers_armed _ _ Hx)|]. apply Hq. intros ->. congruence.
    + intros s. rewrite map_get_set. case_bool_decide; [intros [= <-]; by subst|apply (pending_state _ _ Hx)].
Qed.

Lemma consider_all_ok now cs : forall log x, exec_ok log x ->
  (forall c, In c cs -> open_status c = true /\ exists d, when_due c = Some d /\ d <= now + 2 * 60000) ->
  exec_ok (log ++ (consider_all now cs x).2) (consider_all now cs x).1 /\
  aggressiveness (consider_all now cs x).1 = aggressiveness x.
Proof.
  induction cs as [|c cs IH]; intros log x Hx Hcs; simpl.
  { split; [by apply exec_ok_same with x; [done|apply quiet_nil|..]|done]. }
  destruct (Hcs c (or_introl eq_refl)) as [Ho Hd].
  pose proof (consider_ok log now x c Hx Ho Hd) as [H1 Ha]. destruct (consider now x c) as [x1 o1]. simpl in *.
  pose proof (IH (log ++ o1) x1 H1 (fun y Hy => Hcs y (or_intror Hy))) as [H2 Ha2].
  destruct (consider_all now cs x1) as [x2 o2]. simpl in *. rewrite app_assoc. split; [done|congruence].
Qed.

Lemma due_commitments_In now ws t c : In c (getDueCommitments now true ws t) ->
  In c t /\ open_status c = true /\ includes (cm_id c) ws = false /\ exists d, when_due c = Some d /\ d <= now.
Proof.
  unfold getDueCommitments, select_where, due_by, scheduled. rewrite sort_by_In, List.filter_In.
  intros [Hin [Hd [Ho Hw]%andb_prop]%andb_prop]. simpl in Hw. apply negb_true_iff in Hw. split; [done|]. split; [done|]. split; [done|].
  destruct (when_due c) as [d|]; [|done]. exists d. split; [done|lia].
Qed.

Lemma upcoming_In n ws t c : In c (getUpcoming n true ws t) -> In c t /\ open_status c = true /\ includes (cm_id c) ws = false.
Proof.
  unfold getUpcoming, select_where, scheduled. intros H%sql_limit_In. rewrite sort_by_In, List.filter_In in H.
  destruct H as [Hin [[Ho Hw]%andb_prop _]%andb_prop]. simpl in Hw. by apply negb_true_iff in Hw.
Qed.

(** The candidates of a check: rows of the table that are open, due, and not work items. *)
Definition candidates (now now_sql : Z) (w : World) : list CommitmentRow :=
  getDueCommitments now_sql true (works w) (commitments w) ++
  List.filter (due_within now (2 * 60000)) (getUpcoming 20 true (works w) (commitments w)).

Lemma candidates_In now now_sql w c : now_sql <= now + 2 * 60000 -> In c (candidates now now_sql w) ->
  In c (commitments w) /\ open_status c = true /\ includes (cm_id c) (works w) = false /\
  exists d, when_due c = Some d /\ d <= now + 2 * 60000.
Proof.
  unfold candidates. intros Hn [Hc|Hc]%in_app_iff.
  - apply due_commitments_In in Hc as (? & ? & ? & d & ? & ?). repeat (split; [done|]). exists d. split; [done|lia].
  - apply List.filter_In in Hc as [Hc Hd]. apply upcoming_In in Hc as (? & ? & ?). repeat (split; [done|]).
    unfold due_within in Hd. destruct (when_due c) as [d|]; [|done]. exists d. split; [done|lia].
Qed.

(** Bus events change the set of notified ids only, and concern no wait. *)
Lemma notify_quiet topic mark cs : forall acc, (forall id, quiet id acc.2) -> forall id, quiet id (foldl (notify_one topic mark) acc cs).2.
Proof.
  induction cs as [|c cs IH]; intros acc Ha; simpl; [done|]. apply IH. intros id. unfold notify_one.
  destruct acc as [n out]. destruct (_ || _); [apply Ha|]. simpl. apply quiet_app. split; [apply Ha|]. intros o [<-|[]]. done.
Qed.

Lemma settle_ex now w : exists l, ex (settleAwaitingApprovals now w) = set_awaiting l (ex w) /\
  works (settleAwaitingApprovals now w) = works w /\ turns (settleAwaitingApprovals now w) = turns w /\
  approvals (settleAwaitingApprovals now w) = approvals w.
Proof.
  unfold settleAwaitingApprovals. destruct (lookup_set (ex w)).
  - destruct (settle_entries _ _ _ _ _) as [l t]. by exists l.
  - exists (awaitingApproval (ex w)). repeat split. by destruct (ex w).
Qed.

(** A check is: settle, publish (quietly), consider the candidates. *)
Lemma check_shape t0 now now_sql w : exists n out,
  (forall id, quiet id out) /\
  checkAndAnnounce t0 now now_sql w =
    (let w1 := settleAwaitingApprovals t0 w in
     let r := consider_all now (candidates now now_sql w1) (set_notified n (ex w1)) in (with_ex w1 r.1, out ++ r.2)).
Proof.
  unfold checkAndAnnounce, candidates. set (w1 := settleAwaitingApprovals t0 w). cbv zeta.
  pose proof (notify_quiet "commitment.overdue" "overdue:" (getDueCommitments now_sql true (works w1) (commitments w1))
                (notifiedIds (ex w1), []) quiet_nil) as Hq1.
  destruct (foldl (notify_one "commitment.overdue" _) _ _) as [n1 o1].
  pose proof (notify_quiet "commitment.due_soon" "due_soon:"
                (List.filter (due_within now (15 * 60000)) (getUpcoming 20 true (works w1) (commitments w1))) (n1, []) quiet_nil) as Hq2.
  destruct (foldl (notify_one "commitment.due_soon" _) _ _) as [n2 o2].
  exists (cap 1000 500 n2), (o1 ++ o2). split; [intros id; by apply quiet_app|].
  destruct (consider_all _ _ _) as [x' o3]. simpl. by rewrite <- app_assoc.
Qed.

Lemma check_ok log t0 now now_sql w : now_sql <= now + 2 * 60000 -> exec_ok log (ex w) ->
  exec_ok (log ++ (checkAndAnnounce t0 now now_sql w).2) (ex (checkAndAnnounce t0 now now_sql w).1).
Proof.
  intros Hn Hx. destruct (check_shape t0 now now_sql w) as (n & out & Hq & ->). cbv zeta. simpl.
  destruct (settle_ex t0 w) as (l & He & _). rewrite app_assoc.
  apply consider_all_ok.
  - apply exec_ok_same with (ex w); [done|done|..]; by rewrite He.
  - intros c Hc. apply candidates_In in Hc as (_ & Ho & _ & Hd); done.
Qed.

(** ** Firing and the other steps *)

Lemma map_get_delete_ne {V} k k' (m : list (string * V)) v : map_get k' (map_delete k m) = Some v -> k' <> k /\ map_get k' m = Some v.
Proof. rewrite map_get_delete. by case_bool_decide. Qed.

(** Forgetting the wait of [id], with an output that concerns only [id]. *)
Lemma exec_ok_drop log x out x' id : exec_ok log x -> (forall k, k <> id -> quiet k out) ->
  pending_ x' = map_delete id (pending_ x) -> executeTimers x' = map_delete id (executeTimers x) -> aggressiveness x' = aggressiveness x ->
  exec_ok (log ++ out) x'.
Proof.
  intros [H1 H2 H3] Ho Ep Et Ea. split; rewrite ?Ep, ?Et, ?Ea.
  - intros k [d [Hk Hd]%map_get_delete_ne]. rewrite map_get_delete, bool_decide_false by done. eauto.
  - intros k d [Hk Hd]%map_get_delete_ne. apply armed_app; auto.
  - intros k s [_ Hs]%map_get_delete_ne. eauto.
Qed.

Lemma exec_cancel_ok log id x : exec_ok log x ->
  exec_ok (log ++ (cancelExecution id x).1.2) (cancelExecution id x).1.1.
Proof.
  intros Hx. unfold cancelExecution. destruct (map_get id (pending_ x)) as [s|] eqn:E; simpl.
  2: { by apply exec_ok_same with x; [done|apply quiet_nil|..]. }
  destruct (executed_ s || cancelled s); simpl.
  { by apply exec_ok_same with x; [done|apply quiet_nil|..]. }
  apply exec_ok_drop with x id; [done| |done..]. intros k Hk o [<-|[]]. simpl. by apply bool_decide_false.
Qed.

(** What firing does: nothing to the turns, or the one turn of [id]. *)
Lemma fire_cases id now w log : exec_ok log (ex w) ->
  exec_ok (log ++ (fireExecution id now w).2) (ex (fireExecution id now w).1) /\
  ((fireExecution id now w).2 = [] /\ turns (fireExecution id now w).1 = turns w /\
     commitments (fireExecution id now w).1 = commitments w \/
   exists s, map_get id (pending_ (ex w)) = Some s /\ isWorkItemCommitment (works w) id = false /\
     (fireExecution id now w).2 = [turn_begun id (execution_prompt (ex_what s)) now] /\
     turns (fireExecution id now w).1 = turns w ++ [mkExecution id (ex_what s) (announcedAt s) (cancelDeadline s) (cancelled s) true] /\
     commitments (fireExecution id now w).1 = (updateCommitmentStatus id active None now (commitments w)).1).
Proof.
  intros Hx. unfold fireExecution. cbv zeta. simpl.
  assert (exec_ok log (set_timers (map_delete id (executeTimers (ex w))) (ex w))) as Hx1.
  { destruct Hx as [H1 H2 H3]. split; simpl; [|by intros k d [_ Hd]%map_get_delete_ne; auto|done].
    intros k [d [Hk Hd]%map_get_delete_ne]. eauto. }
  destruct (map_get id (pending_ (ex w))) as [s|] eqn:E; simpl.
  2: { split; [|by left]. by rewrite app_nil_r. }
  destruct (pending_state _ _ Hx id s E) as (Hid & Hc & He). rewrite Hc, He. simpl.
  destruct (isWorkItemCommitment (works w) id) eqn:Ew; simpl.
  { split; [|by left]. apply exec_ok_drop with (ex w) id; [done|intros; apply quiet_nil|done..]. }
  destruct (agent (ex w)); simpl.
  2: { split; [|by left]. by rewrite app_nil_r. }
  rewrite Hid. split; [|right; exists s; rewrite ?Hc; done].
  apply exec_ok_drop with (ex w) id; [done| |done..].
  intros k Hk o [<-|[]]. simpl. by apply bool_decide_false.
Qed.

Lemma close_turn_shape s res now w :
  pending_ (ex (close_turn s res now w).1) = pending_ (ex w) /\ executeTimers (ex (close_turn s res now w).1) = executeTimers (ex w) /\
  aggressiveness (ex (close_turn s res now w).1) = aggressiveness (ex w) /\ works (close_turn s res now w).1 = works w /\
  turns (close_turn s res now w).1 = turns w /\ approvals (close_turn s res now w).1 = approvals w /\
  forall id, quiet id (close_turn s res now w).2.
Proof.
  unfold close_turn. destruct res as [m|r [|i ids]]; cbv zeta; simpl; repeat split; try apply quiet_nil;
    intros id o [<-|[]]; done.
Qed.

Lemma exec_step_ok log w op : check_clock op -> exec_ok log (ex w) ->
  exec_ok (log ++ (exec_step w op).2) (ex (exec_step w op).1).
Proof.
  intros Hop Hx. destruct op; simpl; try (by apply exec_ok_same with (ex w); [done|apply quiet_nil|..]).
  - unfold start. destruct (running (ex w)); simpl; [by apply exec_ok_same with (ex w); [done|apply quiet_nil|..]|].
    apply check_ok; [done|]. by rewrite <- (app_nil_r log); apply exec_ok_same with (ex w); [done|apply quiet_nil|..].
  - rewrite app_nil_r. destruct Hx as [H1 H2 H3]. split; [by intros ? [? [=]]|by intros ? ? [=]|done].
  - by apply check_ok.
  - destruct (settle_ex now w) as (l & He & _). apply exec_ok_same with (ex w); [done|apply quiet_nil|..]; by rewrite He.
  - destruct (map_get id (executeTimers (ex w))) as [due|]; [destruct (due <=? now)|]; simpl;
      try (by apply exec_ok_same with (ex w); [done|apply quiet_nil|..]). by apply fire_cases.
  - unfold turn_ended. destruct (turns w !! k) as [s|]; simpl; [|by apply exec_ok_same with (ex w); [done|apply quiet_nil|..]].
    pose proof (close_turn_shape s res now (with_turns w (delete k (turns w)))) as (? & ? & ? & _ & _ & _ & ?).
    by apply exec_ok_same with (ex w).
  - pose proof (exec_cancel_ok log id (ex w) Hx) as Hc. by destruct (cancelExecution id (ex w)) as [[x out] b].
  - rewrite app_nil_r. apply exec_ok_new.
Qed.

Lemma run_ok ops : forall log w, Forall check_clock ops -> exec_ok log (ex w) ->
  exec_ok (log ++ (exec_run w ops).2) (ex (exec_run w ops).1).
Proof.
  induction ops as [|op ops IH]; intros log w Hops Hx; simpl; [by rewrite app_nil_r|].
  apply Forall_cons in Hops as [Hop Hops]. pose proof (exec_step_ok log w op Hop Hx) as H1.
  destruct (exec_step w op) as [w1 o1]. simpl in H1. pose proof (IH _ _ Hops H1) as H2.
  destruct (exec_run w1 ops) as [w2 o2]. simpl in *. by rewrite app_assoc.
Qed.

(** Only a timer begins a turn. *)
Lemma consider_all_no_turn now cs : forall x o, In o (consider_all now cs x).2 -> forall i p t, o <> turn_begun i p t.
Proof.
  induction cs as [|c cs IH]; intros x o; simpl; [done|].
  destruct (consider now x c) as [x1 o1] eqn:E1. destruct (consider_all now cs x1) as [x2 o2] eqn:E2. simpl.
  intros [H|H]%in_app_iff i p t; [|by apply (IH x1); rewrite E2].
  unfold consider, announceExecution in E1. case_hyp E1; simplify_eq/=; naive_solver.
Qed.

Lemma turn_only_by_timer log w op i p t : check_clock op -> exec_ok log (ex w) -> In (turn_begun i p t) (exec_step w op).2 ->
  op = OpTimer i t /\ isWorkItemCommitment (works w) i = false /\ exists d, map_get i (executeTimers (ex w)) = Some d /\ d <= t.
Proof.
  intros Hop Hx. destruct op; simpl; try done.
  - unfold start. destruct (running (ex w)); [done|]. destruct (check_shape now_settle now now_sql (with_ex w (set_running true (ex w)))) as (n & out & Hq & ->).
    cbv zeta. simpl. intros [H|H]%in_app_iff; [specialize (Hq i _ H); simpl in Hq; by rewrite bool_decide_true in Hq|].
    by apply consider_all_no_turn with (i := i) (p := p) (t := t) in H.
  - destruct (check_shape now_settle now now_sql w) as (n & out & Hq & ->).
    cbv zeta. simpl. intros [H|H]%in_app_iff; [specialize (Hq i _ H); simpl in Hq; by rewrite bool_decide_true in Hq|].
    by apply consider_all_no_turn with (i := i) (p := p) (t := t) in H.
  - destruct (map_get id (executeTimers (ex w))) as [d|] eqn:Ed; [|done]. destruct (Z.leb_spec d now); [|done].
    destruct (fire_cases id now w log Hx) as [_ [(-> & _)|(s & _ & Hw & -> & _)]]; [done|]. intros [[= -> <- ->]|[]].
    split; [done|]. split; [done|]. by exists d.
  - unfold turn_ended. destruct (turns w !! k) as [s|]; [|done]. intros H.
    apply (close_turn_shape s res now (with_turns w (delete k (turns w)))) with (id := i) in H. simpl in H. by rewrite bool_decide_true in H.
  - unfold cancelExecution. destruct (map_get id (pending_ (ex w))) as [s|]; [|done]. destruct (_ || _); [done|]. simpl. by intros [[=]|[]].
Qed.

(** C22: a turn of a commitment begins only when the timer of its announcement fires: the row was
    open, due within two minutes, and not parked on approvals when it was announced; the whole
    cancel window of the mode has passed since; it was not cancelled, announced again or begun
    in between; and it is not a work item when it starts. Passive mode begins none. *)
Theorem execution_was_announced a rows works0 m ops w log op i p t :
  Forall check_clock (op :: ops) -> exec_run (fresh a rows works0 m) ops = (w, log) ->
  In (turn_begun i p t) (exec_step w op).2 ->
  op = OpTimer i t /\ isWorkItemCommitment (works w) i = false /\
  exists c t0 window pre post, log = pre ++ announced c t0 (Some (t0 + window)) :: post /\ cm_id c = i /\
    cancel_window (aggressiveness (ex w)) = Some window /\ t0 + window <= t /\ announceable t0 c /\ quiet i post.
Proof.
  intros [Hop Hops]%Forall_cons Hr Hin.
  pose proof (run_ok ops [] (fresh a rows works0 m) Hops (exec_ok_new [] a)) as Hx. rewrite Hr in Hx. simpl in Hx.
  destruct (turn_only_by_timer log w op i p t Hop Hx Hin) as (-> & Hw & d & Hd & Ht). split; [done|]. split; [done|].
  destruct (timers_armed _ _ Hx i d Hd) as (c & t0 & pre & post & -> & Hid & Ha & Hc & Hq).
  exists c, t0, (d - t0), pre, post. replace (t0 + (d - t0)) with d by lia. done.
Qed.

(** ** Parked commitments *)

(** Request ids as [generateId] makes them: no separators, no spaces. *)
Definition clean_id (i : string) : bool := truthy i && bool_decide (trim i = i) && lacks "," i && lacks "]" i.

Lemma until_app c s rest : lacks c s = true -> until c (s +:+ String c rest) = Some s.
Proof.
  induction s as [|a s IH]; simpl; [by rewrite Ascii.eqb_refl|]. rewrite lacks_cons. intros [Ha Hs]%andb_prop.
  apply negb_true_iff in Ha. by rewrite Ha, IH.
Qed.

Lemma lacks_app c s t : lacks c (s +:+ t) = lacks c s && lacks c t.
Proof. induction s as [|a s IH]; [done|]. change (String a s +:+ t) with (String a (s +:+ t)). by rewrite !lacks_cons, IH, andb_assoc. Qed.

Lemma lacks_join c sep l : lacks c sep = true -> (forall s, In s l -> lacks c s = true) -> lacks c (JsString.join sep l) = true.
Proof.
  intros Hs. induction l as [|s l IH]; intros Hl; [done|]. destruct l as [|s' l]; [apply Hl; by left|].
  rewrite join_cons, !lacks_app, Hs by done. rewrite (Hl s (or_introl eq_refl)). simpl. apply IH. intros x Hx. apply Hl. by right.
Qed.

(** The stored result of a parked commitment gives its ids back. *)
Lemma park_text_parses ids summary : ids <> [] -> forallb clean_id ids = true ->
  parseParkedRequestIds (Some (park_text ids summary)) = Some ids.
Proof.
  intros Hne Hc. rewrite forallb_forall in Hc.
  assert (forall i, In i ids -> truthy i = true /\ trim i = i /\ lacks "," i = true /\ lacks "]" i = true) as Hi.
  { intros i Hin. specialize (Hc i Hin). unfold clean_id in Hc.
    apply andb_prop in Hc as [[[Ht Htr]%andb_prop Hl]%andb_prop Hr]. by apply bool_decide_eq_true in Htr. }
  unfold park_text.
  change (AWAITING_PREFIX +:+ "[req:" +:+ JsString.join "," ids +:+ "]: " +:+ summary)
    with (REQ_OPEN +:+ (JsString.join "," ids +:+ String "]" (": " +:+ summary))).
  unfold parseParkedRequestIds. change (REQ_OPEN +:+ ?r) with (String "A" (sdrop 1 REQ_OPEN +:+ r)) at 1. cbv iota beta.
  rewrite starts_with_app, sdrop_app, until_app.
  2: { apply lacks_join; [done|]. intros i Hin. by apply Hi. }
  rewrite split_join; [|done|intros i Hin; by apply Hi].
  f_equal. rewrite (map_ext_in _ (fun i => i)), map_id; [|intros i Hin; by apply Hi].
  apply filter_all. intros i Hin. by apply Hi.
Qed.

(** The row [c] after its requests [ids] have their outcome. *)
Definition closed (m : Manager) (ids : list string) (now : Z) (c : CommitmentRow) : CommitmentRow :=
  if existsb (was_executed m) ids
  then ended completed (Some now) (Some (or_text (stake 500 (JsString.join newline (results_of m ids))) "Approved and executed")) c
  else ended failed (Some now) (Some "Approval denied or expired") c.

Lemma closed_not_open m ids now c : open_status (closed m ids now c) = false.
Proof. unfold closed. by destruct (existsb _ ids). Qed.

(** An operation that leaves the row [id] to the executor. *)
Definition leaves (id : string) (op : ExecOp) : Prop := match op with OpEdit o => writes id o = false | _ => True end.

Section waiting.
Context (id : string) (ids : list string) (c : CommitmentRow).
Context (Hparked : parseParkedRequestIds (cm_result c) = Some ids).
Context (seen : Manager -> Prop).

(** The row is as it was parked, or closed by an outcome. *)
Definition row_waits (t : list CommitmentRow) : Prop :=
  getCommitment id t = Some c \/
  exists m now, seen m /\ existsb (unsettled m) ids = false /\ getCommitment id t = Some (closed m ids now c).
Definition entries_wait (l : list (string * Parked)) : Prop := forall p, In (id, p) l -> requestIds p = ids.

Record waits (w : World) : Prop := {
  w_keyed : keyed (commitments w);
  w_pending : map_get id (pending_ (ex w)) = None;
  w_turns : forall s, In s (turns w) -> commitmentId s <> id;
  w_row : row_waits (commitments w);
  w_entries : entries_wait (awaitingApproval (ex w));
  w_seen : seen (approvals w) }.

Lemma row_waits_same t t' : row_waits t -> getCommitment id t' = getCommitment id t -> row_waits t'.
Proof. unfold row_waits. by intros H ->. Qed.

Lemma row_waits_active t r : row_waits t -> getCommitment id t = Some r -> cm_status r = active -> r = c.
Proof.
  intros [Hc|(m & now & _ & _ & Hc)] Hr Ha; rewrite Hc in Hr; injection Hr as <-; [done|].
  pose proof (closed_not_open m ids now c) as Ho. unfold open_status in Ho. by rewrite Ha in Ho.
Qed.

Lemma row_waits_open t r : row_waits t -> getCommitment id t = Some r -> open_status r = true -> r = c.
Proof.
  intros [Hc|(m & now & _ & _ & Hc)] Hr Ha; rewrite Hc in Hr; injection Hr as <-; [done|]. by rewrite closed_not_open in Ha.
Qed.

Lemma row_waits_status t k st r now : k <> id -> row_waits t -> row_waits (updateCommitmentStatus k st r now t).1.
Proof. intros Hk Hr. apply row_waits_same with t; [done|]. rewrite status_get, bool_decide_false by auto. done. Qed.

Lemma settle_entry_waits m ws now k p t : seen m -> keyed t -> row_waits t -> entries_wait [(k, p)] ->
  keyed (settle_entry m ws now k p t).2 /\ row_waits (settle_entry m ws now k p t).2.
Proof.
  intros Hm Ht Hr Hp. unfold settle_entry.
  destruct (isWorkItemCommitment ws k); [done|]. destruct (existsb (unsettled m) (requestIds p)) eqn:Eu; [done|].
  destruct (getCommitment k t) as [ck|] eqn:Ek; [|done].
  destruct (bool_decide_reflect (cm_status ck = active)) as [Ea|]; [|done].
  destruct (decide (k = id)) as [->|Hne].
  - pose proof (row_waits_active t ck Hr Ek Ea) as ->. rewrite (Hp p (or_introl eq_refl)) in *.
    assert (row_waits (if existsb (was_executed m) ids
              then (updateCommitmentStatus id completed (Some (or_text (stake 500 (JsString.join newline (results_of m ids))) "Approved and executed")) now t).1
              else (updateCommitmentStatus id failed (Some "Approval denied or expired") now t).1)) as Hl.
    { right. exists m, now. split; [done|]. split; [done|]. unfold closed.
      destruct (existsb (was_executed m) ids); by rewrite status_get, bool_decide_true, Ek by done. }
    destruct (existsb (was_executed m) ids); (split; [by apply status_keyed|exact Hl]).
  - destruct (existsb (was_executed m) (requestIds p)); (split; [by apply status_keyed|by apply row_waits_status]).
Qed.

Lemma settle_entries_waits m ws now l : seen m -> forall t, keyed t -> row_waits t -> entries_wait l ->
  keyed (settle_entries m ws now l t).2 /\ row_waits (settle_entries m ws now l t).2 /\ entries_wait (settle_entries m ws now l t).1.
Proof.
  intros Hm. induction l as [|[k p] l IH]; intros t Ht Hr Hl; simpl; [done|].
  assert (entries_wait [(k, p)]) as Hp by (intros q [[= -> ->]|[]]; apply Hl; by left).
  pose proof (settle_entry_waits m ws now k p t Hm Ht Hr Hp) as [Hk1 Hr1].
  destruct (settle_entry m ws now k p t) as [stays t1]. simpl in *.
  destruct (IH t1 Hk1 Hr1 (fun q Hq => Hl q (or_intror Hq))) as (Hk2 & Hr2 & Hl2).
  destruct (settle_entries m ws now l t1) as [l2 t2]. simpl in *. split; [done|]. split; [done|].
  destruct stays; [|done]. intros q [Hq|Hq]; [apply Hl; by left|by apply Hl2].
Qed.

Lemma settle_waits now w : waits w -> waits (settleAwaitingApprovals now w).
Proof.
  intros [Hk Hp Ht Hr He Hs]. unfold settleAwaitingApprovals. destruct (lookup_set (ex w)); [|done].
  pose proof (settle_entries_waits (approvals w) (works w) now _ Hs _ Hk Hr He) as (H1 & H2 & H3).
  destruct (settle_entries _ _ _ _ _) as [l t]. by split.
Qed.

(** A candidate that is this row is parked; the others do not touch its entries. *)
Lemma consider_waits now x r : (cm_id r = id -> r = c) -> map_get id (pending_ x) = None -> entries_wait (awaitingApproval x) ->
  map_get id (pending_ (consider now x r).1) = None /\ entries_wait (awaitingApproval (consider now x r).1).
Proof.
  intros Hid Hp He. unfold consider. destruct (_ || terminal_status (cm_status r)); [done|].
  destruct (parseParkedRequestIds (cm_result r)) as [l|] eqn:El; simpl.
  - destruct (map_has (cm_id r) (awaitingApproval x)); [done|]. simpl. split; [done|]. intros p Hin.
    unfold map_set in Hin. destruct (map_has (cm_id r) (awaitingApproval x)) eqn:Eh.
    + apply in_map_iff in Hin as ([k q] & Hq & Hin). destruct (key_eq (cm_id r) (k, q)) eqn:Ek; [|injection Hq as -> ->; by apply He].
      injection Hq as Hk <-. specialize (Hid Hk). subst r. rewrite Hparked in El. by injection El as <-.
    + apply in_app_iff in Hin as [Hin|[[= Hk <-]|[]]]; [by apply He|]. specialize (Hid Hk). subst r. rewrite Hparked in El. by injection El as <-.
  - assert (cm_id r <> id) as Hne by (intros Hk; rewrite (Hid Hk), Hparked in El; done).
    unfold announceExecution. destruct (cancel_window (aggressiveness x)); simpl; (split; [|done]); rewrite map_get_set, bool_decide_false by auto; done.
Qed.

Lemma consider_all_waits now cs : (forall r, In r cs -> cm_id r = id -> r = c) -> forall x,
  map_get id (pending_ x) = None -> entries_wait (awaitingApproval x) ->
  map_get id (pending_ (consider_all now cs x).1) = None /\ entries_wait (awaitingApproval (consider_all now cs x).1).
Proof.
  induction cs as [|r cs IH]; intros Hcs x Hp He; simpl; [done|].
  destruct (consider_waits now x r (Hcs r (or_introl eq_refl)) Hp He) as [H1 H2].
  destruct (consider now x r) as [x1 o1]. simpl in *. destruct (IH (fun y Hy => Hcs y (or_intror Hy)) x1 H1 H2) as [H3 H4].
  by destruct (consider_all now cs x1) as [x2 o2].
Qed.

Lemma check_waits t0 now now_sql w : now_sql <= now + 2 * 60000 -> waits w -> waits (checkAndAnnounce t0 now now_sql w).1.
Proof.
  intros Hn Hw. destruct (check_shape t0 now now_sql w) as (n & out & _ & ->). cbv zeta. simpl.
  destruct (settle_waits t0 w Hw) as [Hk Hp Ht Hr He Hs]. set (w1 := settleAwaitingApprovals t0 w) in *.
  assert (forall r, In r (candidates now now_sql w1) -> cm_id r = id -> r = c) as Hc.
  { intros r (Hin & Ho & _)%candidates_In Hid; [|done]. apply row_waits_open with (commitments w1); [done| |done].
    rewrite <- Hid. by apply (get_row_In _ r). }
  destruct (consider_all_waits now _ Hc (set_notified n (ex w1)) Hp He) as [H1 H2]. by split.
Qed.

Lemma turn_ended_waits k res now w : waits w -> waits (turn_ended k res now w).1.
Proof.
  intros [Hk Hp Ht Hr He Hs]. unfold turn_ended. destruct (turns w !! k) as [s|] eqn:Ek; [|done].
  assert (In s (turns w)) as Hin by (by apply list_elem_of_In, list_elem_of_lookup_2 with k). specialize (Ht s Hin) as Hne.
  assert (forall s', In s' (delete k (turns w)) -> commitmentId s' <> id) as Ht'.
  { intros s' Hs'. apply Ht. rewrite delete_take_drop in Hs'. apply list_elem_of_In. apply list_elem_of_In in Hs'.
    apply elem_of_app in Hs' as [H|H]; [by apply elem_of_take in H as (j & H & _); apply list_elem_of_lookup_2 with j|].
    rewrite <- (take_drop (S k) (turns w)). apply elem_of_app. by right. }
  unfold close_turn. destruct res as [m|r [|i l]]; cbv zeta; simpl; split; simpl; try done; try (by apply status_keyed); try (by apply row_waits_status).
  intros p Hq. unfold map_set in Hq. destruct (map_has (commitmentId s) (awaitingApproval (ex w))).
  - apply in_map_iff in Hq as ([k' q] & Hq & Hin'). destruct (key_eq (commitmentId s) (k', q)); simplify_eq; by apply He.
  - apply in_app_iff in Hq as [Hq|[[= Hq _]|[]]]; [by apply He|done].
Qed.

Lemma fire_waits log k now w : exec_ok log (ex w) -> waits w -> waits (fireExecution k now w).1.
Proof.
  intros Hx [Hk Hp Ht Hr He Hs]. unfold fireExecution. cbv zeta. simpl.
  destruct (map_get k (pending_ (ex w))) as [s|] eqn:E; simpl; [|by split].
  assert (k <> id) as Hne by congruence. destruct (pending_state _ _ Hx k s E) as (Hid & _ & _).
  assert (map_get id (map_delete k (pending_ (ex w))) = None) as Hp' by (rewrite map_get_delete; by case_bool_decide).
  destruct (cancelled s || executed_ s || isWorkItemCommitment (works w) k); [by split|].
  destruct (agent (ex w)); simpl; [|by split].
  split; simpl; [by apply status_keyed|done| |apply row_waits_status; [congruence|done]|done|done].
  intros s' [Hs'|[<-|[]]]%in_app_iff; [by apply Ht|]. simpl. congruence.
Qed.

Lemma step_waits log w op : check_clock op -> leaves id op -> (forall m, op = OpApprovals m -> seen m) ->
  exec_ok log (ex w) -> waits w -> waits (exec_step w op).1.
Proof.
  intros Hop Hl Hm Hx Hw. pose proof Hw as [Hk Hp Ht Hr He Hs]. destruct op; simpl; try (by split).
  - unfold start. destruct (running (ex w)); [done|]. apply check_waits; [done|]. by split.
  - by apply check_waits.
  - by apply settle_waits.
  - destruct (map_get id0 (executeTimers (ex w))) as [d|]; [|done]. destruct (d <=? now); [|done]. by apply fire_waits with log.
  - by apply turn_ended_waits.
  - unfold cancelExecution. destruct (map_get id0 (pending_ (ex w))); [|by split]. destruct (_ || _); [by split|].
    split; simpl; try done. rewrite map_get_delete. by case_bool_decide.
  - split; simpl; try done; [by apply commitment_step_keyed|]. apply row_waits_same with (commitments w); [done|].
    apply commitment_step_other; [done|]. destruct Hr as [->|(m & n & _ & _ & ->)]; eauto.
  - split; try done. by apply Hm.
  - split; simpl; try done; intros ? [].
Qed.

Lemma step_no_turn log w op p t : check_clock op -> exec_ok log (ex w) -> waits w -> ~ In (turn_begun id p t) (exec_step w op).2.
Proof.
  intros Hop Hx Hw Hin. destruct (turn_only_by_timer log w op id p t Hop Hx Hin) as (_ & _ & d & Hd & _).
  destruct (timers_pending _ _ Hx id) as [s Hs]; [by eauto|]. by rewrite (w_pending _ Hw) in Hs.
Qed.

Lemma run_waits ops : forall log w, Forall check_clock ops -> Forall (leaves id) ops -> (forall m, In (OpApprovals m) ops -> seen m) ->
  exec_ok log (ex w) -> waits w ->
  waits (exec_run w ops).1 /\ forall p t, ~ In (turn_begun id p t) (exec_run w ops).2.
Proof.
  induction ops as [|op ops IH]; intros log w Hops Hl Hm Hx Hw; simpl; [split; [done|by intros p t []]|].
  apply Forall_cons in Hops as [Hop Hops]. apply Forall_cons in Hl as [Hl1 Hl].
  pose proof (step_no_turn log w op) as Hno. pose proof (exec_step_ok log w op Hop Hx) as Hx1.
  pose proof (step_waits log w op Hop Hl1 (fun m E => Hm m (or_introl E)) Hx Hw) as Hw1.
  destruct (exec_step w op) as [w1 o1]. simpl in *.
  destruct (IH _ w1 Hops Hl (fun m H => Hm m (or_intror H)) Hx1 Hw1) as [H1 H2].
  destruct (exec_run w1 ops) as [w2 o2]. simpl in *. split; [done|]. intros p t H. apply in_app_iff in H as [H|H]; [by apply (Hno p t)|by apply (H2 p t)].
Qed.
End waiting.

(** Every step keeps the ids of the rows, and those of the parked entries, distinct. *)
Definition tidy (w : World) : Prop := keyed (commitments w) /\ wf (awaitingApproval (ex w)).

Lemma settle_entry_keyed m ws now k p t : keyed t -> keyed (settle_entry m ws now k p t).2.
Proof. intros Ht. unfold settle_entry. repeat case_match; simpl; try done; by apply status_keyed. Qed.

Lemma settle_tidy m ws now l : forall t, keyed t -> wf l ->
  keyed (settle_entries m ws now l t).2 /\ wf (settle_entries m ws now l t).1 /\ incl (settle_entries m ws now l t).1 l.
Proof.
  induction l as [|[k p] l IH]; intros t Ht Hl; simpl; [split; [done|split; [done|by intros ? []]]|].
  pose proof (settle_entry_keyed m ws now k p t Ht) as H1. apply NoDup_cons_iff in Hl as [Hk Hl].
  destruct (settle_entry m ws now k p t) as [b t1]. destruct (IH t1 H1 Hl) as (H2 & H3 & H4).
  destruct (settle_entries m ws now l t1) as [l2 t2]. simpl in *. split; [done|].
  destruct b; [|split; [done|intros e He; right; by apply H4]].
  split; [|intros e [He|He]; [by left|right; by apply H4]]. constructor; [|done]. intros Hin. apply Hk. apply in_map_iff in Hin as (e & He & Hin). apply in_map_iff. exists e. auto.
Qed.

Lemma settle_world_tidy now w : tidy w -> tidy (settleAwaitingApprovals now w).
Proof.
  unfold settleAwaitingApprovals, tidy. destruct (lookup_set (ex w)); [|done]. intros [Hk Hw].
  pose proof (settle_tidy (approvals w) (works w) now (awaitingApproval (ex w)) _ Hk Hw) as (? & ? & _).
  by destruct (settle_entries _ _ _ _ _).
Qed.

Lemma consider_all_wf now cs : forall x, wf (awaitingApproval x) -> wf (awaitingApproval (consider_all now cs x).1).
Proof.
  induction cs as [|c cs IH]; intros x Hx; simpl; [done|].
  assert (wf (awaitingApproval (consider now x c).1)) as H1.
  { unfold consider, announceExecution. repeat case_match; simpl; try done. by apply wf_set. }
  destruct (consider now x c) as [x1 o1]. specialize (IH x1 H1). by destruct (consider_all now cs x1).
Qed.

Lemma check_tidy t0 now now_sql w : tidy w -> tidy (checkAndAnnounce t0 now now_sql w).1.
Proof.
  intros Hw. destruct (check_shape t0 now now_sql w) as (n & out & _ & ->). cbv zeta.
  destruct (settle_world_tidy t0 w Hw) as [H1 H2]. split; [exact H1|]. by apply consider_all_wf.
Qed.

Lemma step_tidy w op : tidy w -> tidy (exec_step w op).1.
Proof.
  intros Hw. pose proof Hw as [Hk Ha]. destruct op; simpl; try done.
  - unfold start. destruct (running (ex w)); [done|]. by apply check_tidy.
  - by apply check_tidy.
  - by apply settle_world_tidy.
  - unfold fireExecution. repeat case_match; simpl; try done; (split; [|done]); by apply status_keyed.
  - unfold turn_ended, close_turn. repeat case_match; simpl; try done; (split; simpl; [by apply status_keyed|try done; by apply wf_set]).
  - unfold cancelExecution. destruct (map_get id (pending_ (ex w))); [destruct (_ || _)|]; done.
  - split; [by apply commitment_step_keyed|done].
  - split; [done|apply wf_nil].
Qed.

Lemma run_tidy ops : forall w, tidy w -> tidy (exec_run w ops).1.
Proof.
  induction ops as [|op ops IH]; intros w Hk; simpl; [done|]. pose proof (step_tidy w op Hk) as H1.
  destruct (exec_step w op) as [w1 o1]. specialize (IH w1 H1). by destruct (exec_run w1 ops).
Qed.

(** The wait begins when the turn stops on requests: the round trip of the stored ids. *)
Lemma parked_waits seen w k s response i l now c :
  (forall j s', turns w !! j = Some s' -> commitmentId s' = commitmentId s -> j = k) -> turns w !! k = Some s ->
  map_get (commitmentId s) (pending_ (ex w)) = None -> keyed (commitments w) ->
  getCommitment (commitmentId s) (commitments w) = Some c -> seen (approvals w) -> wf (awaitingApproval (ex w)) ->
  waits (commitmentId s) (i :: l) (ended active None (Some (park_text (i :: l) (result_summary response))) c) seen
    (turn_ended k (turn_answered response (i :: l)) now w).1.
Proof.
  intros Hu Hk Hp Hkd Hc Hs Hwf. unfold turn_ended. rewrite Hk. cbv zeta. simpl. split; simpl; try done.
  - by apply status_keyed.
  - intros s' Hs' E. apply list_elem_of_In, list_elem_of_lookup in Hs' as [j Hj].
    destruct (decide (j < k)%nat) as [Hlt|Hge].
    + rewrite list_lookup_delete_lt in Hj by done. apply Hu in Hj; [lia|done].
    + rewrite list_lookup_delete_ge in Hj by lia. apply Hu in Hj; [lia|done].
  - left. by rewrite status_get, bool_decide_true, Hc by done.
  - intros p Hin. assert (wf (map_set (commitmentId s) (mkParked (ex_what s) (i :: l)) (awaitingApproval (ex w)))) as Hw by (by apply wf_set).
    apply (map_get_Some _ _ _ Hw) in Hin. rewrite map_get_set, bool_decide_true in Hin by done. by injection Hin as <-.
Qed.

(** a commitment whose turn stopped on approval requests waits for their outcome: whatever
    checks, timers, other turns, edits of other rows and restarts follow, no turn of it
    begins again, and its row stays as it was parked until a settlement that sees every
    request decided closes it: completed when one was executed, failed otherwise. *)
Theorem parked_commitment_waits a rows works0 m0 ops0 w log0 k s response i l now ops w' log c :
  keyed rows -> Forall check_clock (ops0 ++ ops) -> exec_run (fresh a rows works0 m0) ops0 = (w, log0) ->
  turns w !! k = Some s -> (forall j s', turns w !! j = Some s' -> commitmentId s' = commitmentId s -> j = k) ->
  map_get (commitmentId s) (pending_ (ex w)) = None -> getCommitment (commitmentId s) (commitments w) = Some c ->
  forallb clean_id (i :: l) = true -> Forall (leaves (commitmentId s)) ops ->
  exec_run w (OpTurn k (turn_answered response (i :: l)) now :: ops) = (w', log) ->
  let parked := ended active None (Some (park_text (i :: l) (result_summary response))) c in
  (forall p t, ~ In (turn_begun (commitmentId s) p t) log) /\
  (getCommitment (commitmentId s) (commitments w') = Some parked \/
   exists m t, (m = approvals w \/ In (OpApprovals m) ops) /\ existsb (unsettled m) (i :: l) = false /\
     getCommitment (commitmentId s) (commitments w') = Some (closed m (i :: l) t parked)).
Proof.
  intros Hkd [Hc0 Hc1]%Forall_app Hr Hk Hu Hp Hg Hcl Hlv Hrun parked.
  pose proof (run_ok ops0 [] (fresh a rows works0 m0) Hc0 (exec_ok_new [] a)) as Hx. rewrite Hr in Hx. simpl in Hx.
  pose proof (run_tidy ops0 (fresh a rows works0 m0) (conj Hkd wf_nil)) as [Hw1 Hw2]. rewrite Hr in Hw1, Hw2. simpl in Hw1, Hw2.
  set (seen := fun m => m = approvals w \/ In (OpApprovals m) ops).
  pose proof (parked_waits seen w k s response i l now c Hu Hk Hp Hw1 Hg (or_introl eq_refl) Hw2) as Hw.
  pose proof (exec_step_ok log0 w (OpTurn k (turn_answered response (i :: l)) now) I Hx) as Hx1.
  pose proof (turn_only_by_timer log0 w (OpTurn k (turn_answered response (i :: l)) now)) as Hno.
  simpl in Hrun, Hx1, Hno. destruct (turn_ended k (turn_answered response (i :: l)) now w) as [w1 o1]. simpl in *.
  destruct (run_waits (commitmentId s) (i :: l) parked (park_text_parses (i :: l) _ ltac:(done) Hcl) seen ops _ w1
              Hc1 Hlv (fun m H => or_intror H) Hx1 Hw) as [Hw' Hn].
  destruct (exec_run w1 ops) as [w2 o2]. simplify_eq/=. split.
  - intros p t H. apply in_app_iff in H as [H|H]; [|by apply (Hn p t)]. by destruct (Hno (commitmentId s) p t I Hx H).
  - destruct (w_row _ _ _ _ _ Hw') as [H|(m & t & H)]; [by left|right; by exists m, t].
Qed.

(** ** A commitment due at time 1000, checked at 2000 *)

Definition demo_commitment : CommitmentRow := mkCommitment "c1" "send the report" (Some 1000) None normal pending None None None 0 None None 0.
Definition demo_world : World := fresh moderate [demo_commitment] [] (mkManager [] ∅ "boot").
Definition demo_begin : list ExecOp := [OpSetAgent; OpSetLookup; OpStart 2000 2000 2000].

Example demo_announced : (exec_run demo_world demo_begin).2 =
  [published "commitment.overdue" demo_commitment; announced demo_commitment 2000 (Some 32000); chat (announce_text moderate "send the report")].
Proof. vm_compute. reflexivity. Qed.

Example demo_too_early : (exec_run demo_world (demo_begin ++ [OpTimer "c1" 31999])).2 = (exec_run demo_world demo_begin).2.
Proof. vm_compute. reflexivity. Qed.

Lemma execution_was_announced_witness :
  exists c t0 window pre post, (exec_run demo_world demo_begin).2 = pre ++ announced c t0 (Some (t0 + window)) :: post /\
    cm_id c = "c1" /\ t0 + window <= 32000 /\ announceable t0 c /\ quiet "c1" post.
Proof.
  destruct (execution_was_announced moderate [demo_commitment] [] (mkManager [] ∅ "boot") demo_begin (exec_run demo_world demo_begin).1
              (exec_run demo_world demo_begin).2 (OpTimer "c1" 32000) "c1" (execution_prompt "send the report") 32000) as (_ & _ & c & t0 & win & pre & post & H1 & H2 & _ & H3 & H4 & H5).
  - repeat constructor; simpl; lia.
  - unfold demo_world. by destruct (exec_run _ demo_begin).
  - vm_compute. by left.
  - by exists c, t0, win, pre, post.
Defined.

(** The turn stops on request r1; a restart and a check later the commitment still waits. *)
Definition demo_running : list ExecOp := demo_begin ++ [OpTimer "c1" 32000].
Definition demo_after : list ExecOp := [OpRestart moderate; OpSetAgent; OpSetLookup; OpCheck 90000 90000 90000; OpTimer "c1" 200000; OpCheck 210000 210000 210000].

Lemma parked_commitment_waits_witness :
  ~ In (turn_begun "c1" (execution_prompt "send the report") 92000)
    (exec_run (exec_run demo_world demo_running).1 (OpTurn 0 (turn_answered (Some "asked") ["r1"]) 33000 :: demo_after)).2.
Proof.
  set (w := (exec_run demo_world demo_running).1).
  refine ((fun H => proj1 H _ _) (parked_commitment_waits moderate [demo_commitment] [] (mkManager [] ∅ "boot") demo_running w (exec_run demo_world demo_running).2
    0 (mkExecution "c1" "send the report" 2000 (Some 32000) false true) (Some "asked") "r1" [] 33000 demo_after
    (exec_run w (OpTurn 0 (turn_answered (Some "asked") ["r1"]) 33000 :: demo_after)).1
    (exec_run w (OpTurn 0 (turn_answered (Some "asked") ["r1"]) 33000 :: demo_after)).2
    (ended active None None demo_commitment) _ _ _ _ _ _ _ _ _ _)).
  - unfold keyed. simpl. constructor; [simpl; tauto|constructor].
  - repeat constructor; simpl; lia.
  - unfold w, demo_world. by destruct (exec_run _ demo_running).
  - vm_compute. reflexivity.
  - intros j s' Hj. vm_compute in Hj. destruct j as [|j]; [done|]. by destruct j.
  - vm_compute. reflexivity.
  - vm_compute. reflexivity.
  - vm_compute. reflexivity.
  - repeat constructor.
  - by destruct (exec_run w _).
Defined.

(** A cancelled execution is announced again by the next check, and runs unless cancelled again:
    the row stays due and open, and nothing remembers the cancel. *)
Definition begins (id : string) (o : Output) : bool := match o with turn_begun i _ _ => bool_decide (i = id) | _ => false end.

Example cancelled_execution_returns :
  existsb (begins "c1") (exec_run demo_world (demo_begin ++ [OpCancel "c1"; OpCheck 62000 62000 62000; OpTimer "c1" 92000])).2 = true.
Proof. vm_compute. reflexivity. Qed.

(** A commitment the user completed during the cancel window is executed and reopened. *)
Example completed_commitment_executes :
  let r := exec_run demo_world (demo_begin ++ [OpEdit (OpComplete "c1" (Some "done by hand") 10000); OpTimer "c1" 32000]) in
  existsb (begins "c1") r.2 = true /\ (cm_status <$> getCommitment "c1" (commitments r.1)) = Some active /\
  (cm_result <$> getCommitment "c1" (commitments r.1)) = Some None.
Proof. vm_compute. done. Qed.
