(* ===== verification/Goals.v ===== *)
(** * Goals (vault/goals.ts, goals/service.ts, goals/awareness-bridge.ts)

    The goals, goal_progress and goal_check_ins tables with the operations on them, and
    the service that keeps a goal's health and escalation. Scores are binary64 numbers
    ([JsNumber]). JSON columns hold their values ([Json.parse_stringify]). [goal_step]
    runs any operation that writes the tables; work items (WorkItems) score through
    [record_score]. *)
From S2P Require Export JsNumber Json.
From S2P Require Export Sql.
From Stdlib Require Import SpecFloat.

(** ** Data *)

Inductive GoalLevel := objective | key_result | milestone | task | daily_action.
Inductive GoalStatus := g_draft | g_active | g_paused | g_completed | g_failed | g_killed.
Inductive GoalHealth := on_track | at_risk | behind | critical_health.
Inductive TimeHorizon := life | yearly | quarterly | monthly | weekly | daily.
Inductive EscalationStage := no_stage | pressure | root_cause | suggest_kill.
Inductive ProgressType := manual | auto_detected | review | system.
Inductive CheckInType := morning_plan | evening_review.

#[global] Instance GoalLevel_eq : EqDecision GoalLevel. Proof. solve_decision. Defined.
#[global] Instance GoalStatus_eq : EqDecision GoalStatus. Proof. solve_decision. Defined.
#[global] Instance GoalHealth_eq : EqDecision GoalHealth. Proof. solve_decision. Defined.
#[global] Instance TimeHorizon_eq : EqDecision TimeHorizon. Proof. solve_decision. Defined.
#[global] Instance EscalationStage_eq : EqDecision EscalationStage. Proof. solve_decision. Defined.
#[global] Instance ProgressType_eq : EqDecision ProgressType. Proof. solve_decision. Defined.
#[global] Instance CheckInType_eq : EqDecision CheckInType. Proof. solve_decision. Defined.

(** What a goal says about itself, as [updateGoal] edits it. *)
Record GoalText := mkGoalText {
  title : string; description : string; success_criteria : string; time_horizon : TimeHorizon; deadline : option Z;
  estimated_hours : option number; authority_level : Z; tags : list string; dependencies : list string }.

Record Goal := mkGoal {
  g_id : string; parent_id : option string; level : GoalLevel; text : GoalText;
  score : number; score_reason : option string; g_status : GoalStatus; health : GoalHealth; started_at : option Z; actual_hours : number;
  escalation_stage : EscalationStage; escalation_started_at : option Z; g_sort_order : Z; g_created_at : Z; updated_at : Z;
  g_completed_at : option Z }.

Record GoalProgressEntry := mkProgress {
  pr_id : string; goal_id : string; pr_type : ProgressType; score_before : number; score_after : number; note : string;
  source : string; pr_created_at : Z }.

Record GoalCheckIn := mkCheckIn {
  ci_id : string; ci_type : CheckInType; summary : string; goals_reviewed : list string; actions_planned : list string;
  actions_completed : list string; ci_created_at : Z }.

#[global] Instance goal_row : Row Goal := g_id.
#[global] Instance progress_row : Row GoalProgressEntry := pr_id.
#[global] Instance check_in_row : Row GoalCheckIn := ci_id.

Record GoalDb := mkGoalDb { goals : list Goal; progress : list GoalProgressEntry; checkins : list GoalCheckIn }.
Definition set_goals (t : list Goal) (d : GoalDb) : GoalDb := mkGoalDb t (progress d) (checkins d).
Definition set_progress (t : list GoalProgressEntry) (d : GoalDb) : GoalDb := mkGoalDb (goals d) t (checkins d).
Definition empty_goals : GoalDb := mkGoalDb [] [] [].

(** ** Reading goals *)

Definition getGoal (id : string) (d : GoalDb) : option Goal := get_row id (goals d).

(** [parent_id]: absent, null, or an id. *)
Record GoalQuery := mkGoalQuery {
  gq_status : option GoalStatus; gq_level : option GoalLevel; gq_parent : option (option string); gq_health : option GoalHealth;
  gq_tag : option string; gq_horizon : option TimeHorizon; gq_limit : option Z }.
Definition all_goals : GoalQuery := mkGoalQuery None None None None None None None.

Definition json_texts (l : list string) : json := JArr (map JStr l).
Definition in_quotes (s : string) : string := String dquote (s +:+ String dquote EmptyString).
Definition contains_quoted (s : string) (l : list string) : bool :=
  like (String percent (in_quotes s +:+ String percent EmptyString)) (stringify (json_texts l)).

(** A null column matches no tag, like the empty list. *)
Definition goal_matches (q : GoalQuery) (g : Goal) : bool :=
  match gq_status q with Some s => bool_decide (g_status g = s) | None => true end &&
  match gq_level q with Some l => bool_decide (level g = l) | None => true end &&
  match gq_parent q with Some p => bool_decide (parent_id g = p) | None => true end &&
  match gq_health q with Some h => bool_decide (health g = h) | None => true end &&
  match gq_tag q with Some (String _ _ as t) => contains_quoted t (tags (text g)) | _ => true end &&
  match gq_horizon q with Some h => bool_decide (time_horizon (text g) = h) | None => true end.

(** [Math.max(1, Math.min(parseInt(limit ?? 100) || 100, 1000))] *)
Definition safe_limit (limit : option Z) : Z := let n := limit ?? 100 in Z.max 1 (Z.min (if n =? 0 then 100 else n) 1000).

(** [ORDER BY sort_order ASC, created_at ASC] *)
Definition goal_order (a b : Goal) : bool :=
  (g_sort_order a <? g_sort_order b) || ((g_sort_order a =? g_sort_order b) && (g_created_at a <=? g_created_at b)).

Definition findGoals (q : GoalQuery) (d : GoalDb) : list Goal :=
  sql_limit (safe_limit (gq_limit q)) 0 (sort_by goal_order (select_where (goal_matches q) (goals d))).

Definition of_parent (p : option string) : GoalQuery := mkGoalQuery None None (Some p) None None None None.
Definition getRootGoals (d : GoalDb) : list Goal := findGoals (of_parent None) d.
Definition getGoalChildren (parentId : string) (d : GoalDb) : list Goal := findGoals (of_parent (Some parentId)) d.
Definition getActiveGoalsByLevel (l : GoalLevel) (d : GoalDb) : list Goal :=
  findGoals (mkGoalQuery (Some g_active) (Some l) None None None None None) d.

(** [collectChildren], with fuel: enough is the number of goals ([goal_tree_terminates]). *)
Fixpoint collectChildren (fuel : nat) (d : GoalDb) (parentId : string) : list Goal :=
  match fuel with
  | O => []
  | S fuel' => flat_map (fun child => child :: collectChildren fuel' d (g_id child)) (getGoalChildren parentId d)
  end.

Definition getGoalTree (rootId : string) (d : GoalDb) : list Goal :=
  match getGoal rootId d with None => [] | Some root => root :: collectChildren (length (goals d)) d rootId end.

Definition past_deadline (now : Z) (g : Goal) : bool :=
  bool_decide (g_status g = g_active) && match deadline (text g) with Some t => t <? now | None => false end.

(** [ORDER BY deadline ASC]: null first. *)
Definition deadline_asc (a b : Goal) : bool :=
  match deadline (text a), deadline (text b) with None, _ => true | Some _, None => false | Some x, Some y => x <=? y end.

Definition getOverdueGoals (now : Z) (d : GoalDb) : list Goal := sort_by deadline_asc (select_where (past_deadline now) (goals d)).

Definition getGoalsByDependency (goalId : string) (d : GoalDb) : list Goal :=
  select_where (fun g => contains_quoted goalId (dependencies (text g)) && includes (g_status g) [g_draft; g_active; g_paused]) (goals d).

Definition getGoalsNeedingEscalation (d : GoalDb) : list Goal :=
  sort_by deadline_asc (select_where (fun g => bool_decide (g_status g = g_active) && includes (health g) [behind; critical_health]) (goals d)).

(** ** Writing goals *)

Definition zero : number := S754_zero false.
Definition one : number := num_of_Z 1.

Definition scored (s : number) (reason : string) (now : Z) (g : Goal) : Goal :=
  mkGoal (g_id g) (parent_id g) (level g) (text g) s (Some reason) (g_status g) (health g) (started_at g) (actual_hours g)
    (escalation_stage g) (escalation_started_at g) (g_sort_order g) (g_created_at g) now (g_completed_at g).
Definition with_text (t : GoalText) (o now : Z) (g : Goal) : Goal :=
  mkGoal (g_id g) (parent_id g) (level g) t (score g) (score_reason g) (g_status g) (health g) (started_at g) (actual_hours g)
    (escalation_stage g) (escalation_started_at g) o (g_created_at g) now (g_completed_at g).
Definition with_goal_status (s : GoalStatus) (start done_at : option Z) (now : Z) (g : Goal) : Goal :=
  mkGoal (g_id g) (parent_id g) (level g) (text g) (score g) (score_reason g) s (health g) start (actual_hours g)
    (escalation_stage g) (escalation_started_at g) (g_sort_order g) (g_created_at g) now done_at.
Definition with_health (h : GoalHealth) (now : Z) (g : Goal) : Goal :=
  mkGoal (g_id g) (parent_id g) (level g) (text g) (score g) (score_reason g) (g_status g) h (started_at g) (actual_hours g)
    (escalation_stage g) (escalation_started_at g) (g_sort_order g) (g_created_at g) now (g_completed_at g).
Definition with_stage (s : EscalationStage) (start : option Z) (now : Z) (g : Goal) : Goal :=
  mkGoal (g_id g) (parent_id g) (level g) (text g) (score g) (score_reason g) (g_status g) (health g) (started_at g) (actual_hours g)
    s start (g_sort_order g) (g_created_at g) now (g_completed_at g).
Definition with_hours (h : number) (now : Z) (g : Goal) : Goal :=
  mkGoal (g_id g) (parent_id g) (level g) (text g) (score g) (score_reason g) (g_status g) (health g) (started_at g) h
    (escalation_stage g) (escalation_started_at g) (g_sort_order g) (g_created_at g) now (g_completed_at g).

Definition update_goal (id : string) (f : Goal -> Goal) (d : GoalDb) : GoalDb :=
  set_goals (update_where (key_is id (fun _ => true)) f (goals d)).1 d.

Record GoalOpts := mkGoalOpts {
  go_parent : option string; go_text : GoalText; go_status : option GoalStatus; go_sort_order : option Z }.

(** The text of a goal created with a title only. *)
Definition default_text (t : string) : GoalText := mkGoalText t EmptyString EmptyString quarterly None None 3 [] [].

(** The row of a new goal. *)
Definition new_goal (id : string) (now : Z) (l : GoalLevel) (o : GoalOpts) : Goal :=
  mkGoal id (go_parent o) l (go_text o) zero None (go_status o ?? g_draft) on_track
    (if bool_decide (go_status o = Some g_active) then Some now else None) zero no_stage None (go_sort_order o ?? 0) now now None.

(** [None] is a constraint error: the id is taken, or the parent does not exist. *)
Definition createGoal (id : string) (now : Z) (l : GoalLevel) (o : GoalOpts) (d : GoalDb) : option (GoalDb * Goal) :=
  match go_parent o with
  | Some p => match getGoal p d with
              | None => None
              | Some _ => match insert_row (new_goal id now l o) (goals d) with Some t => Some (set_goals t d, new_goal id now l o) | None => None end
              end
  | None => match insert_row (new_goal id now l o) (goals d) with Some t => Some (set_goals t d, new_goal id now l o) | None => None end
  end.

Record GoalUpdate := mkGoalUpdate {
  u_title : option string; u_description : option string; u_success : option string; u_horizon : option TimeHorizon;
  u_deadline : option (option Z); u_hours : option (option number); u_authority : option Z; u_tags : option (list string);
  u_dependencies : option (list string); u_sort_order : option Z }.

Definition patch_text (u : GoalUpdate) (t : GoalText) : GoalText :=
  mkGoalText (u_title u ?? title t) (u_description u ?? description t) (u_success u ?? success_criteria t) (u_horizon u ?? time_horizon t)
    (u_deadline u ?? deadline t) (u_hours u ?? estimated_hours t) (u_authority u ?? authority_level t) (u_tags u ?? tags t)
    (u_dependencies u ?? dependencies t).

(** [sets.length === 0] *)
Definition no_update (u : GoalUpdate) : bool :=
  match u with mkGoalUpdate None None None None None None None None None None => true | _ => false end.

Definition updateGoal (id : string) (u : GoalUpdate) (now : Z) (d : GoalDb) : GoalDb * option Goal :=
  match getGoal id d with
  | None => (d, None)
  | Some g =>
      if no_update u then (d, Some g)
      else let d' := update_goal id (fun g => with_text (patch_text u (text g)) (u_sort_order u ?? g_sort_order g) now g) d in (d', getGoal id d')
  end.

(** [Math.max(0, Math.min(1, score))] on a finite score. *)
Definition clamp_score (s : number) : number := if num_leb one s then one else if num_leb s zero then zero else s.

(** [None] is the constraint error of a goal that does not exist, or of a taken id. *)
Definition addProgressEntry (id : string) (goalId : string) (ty : ProgressType) (before after : number) (n src : string) (now : Z) (d : GoalDb)
    : option (GoalDb * GoalProgressEntry) :=
  let e := mkProgress id goalId ty before after n src now in
  match getGoal goalId d, insert_row e (progress d) with Some _, Some t => Some (set_progress t d, e) | _, _ => None end.

(** A score with its progress entry: what [updateGoalScore] and a checked work item both write. *)
Definition record_score (entry id : string) (ty : ProgressType) (s : number) (reason src : string) (now : Z) (g : Goal) (d : GoalDb) : option GoalDb :=
  match addProgressEntry entry id ty (score g) s reason src now d with
  | Some (d1, _) => Some (update_goal id (scored s reason now) d1)
  | None => None
  end.

Definition updateGoalScore (entry id : string) (s : number) (reason src : string) (now : Z) (d : GoalDb) : option (GoalDb * option Goal) :=
  if bool_decide (src = "daily_review") || negb (is_finite_num s) then Some (d, None)
  else match getGoal id d with
       | None => Some (d, None)
       | Some g => match record_score entry id (if bool_decide (src = "user") then manual else system) (clamp_score s) reason src now g d with
                   | Some d' => Some (d', getGoal id d')
                   | None => None
                   end
       end.

Definition terminal_goal (s : GoalStatus) : bool := includes s [g_completed; g_failed; g_killed].

(** [!existing.started_at]: null and 0. *)
Definition unset_time (t : option Z) : bool := match t with Some n => n =? 0 | None => true end.

Definition updateGoalStatus (id : string) (s : GoalStatus) (now : Z) (d : GoalDb) : GoalDb * option Goal :=
  match getGoal id d with
  | None => (d, None)
  | Some g0 =>
      let start := bool_decide (s = g_active) && unset_time (started_at g0) in
      let d' := update_goal id (fun g => with_goal_status s (if start then Some now else started_at g)
                                           (if terminal_goal s then Some now else g_completed_at g) now g) d in
      (d', getGoal id d')
  end.

Definition updateGoalHealth (id : string) (h : GoalHealth) (now : Z) (d : GoalDb) : GoalDb * option Goal :=
  let d' := update_goal id (with_health h now) d in (d', getGoal id d').

Definition updateGoalEscalation (id : string) (s : EscalationStage) (now : Z) (d : GoalDb) : GoalDb * option Goal :=
  if bool_decide (s = no_stage) then let d' := update_goal id (with_stage no_stage None now) d in (d', getGoal id d')
  else match getGoal id d with
       | None => (d, None)
       | Some g => let start := if bool_decide (escalation_stage g = no_stage) then Some now else escalation_started_at g in
                   let d' := update_goal id (with_stage s start now) d in (d', getGoal id d')
       end.

Definition updateGoalActualHours (id : string) (h : number) (now : Z) (d : GoalDb) : GoalDb * option Goal :=
  let d' := update_goal id (with_hours h now) d in (d', getGoal id d').

Definition reorderGoals (items : list (string * Z)) (now : Z) (d : GoalDb) : GoalDb :=
  foldl (fun d i => update_goal i.1 (fun g => with_text (text g) i.2 now g) d) d items.

(** [id] is [root] or a descendant of it. *)
Fixpoint descends (fuel : nat) (t : list Goal) (root id : string) : bool :=
  bool_decide (id = root) ||
  match fuel with
  | O => false
  | S fuel' => match get_row id t with
               | Some g => match parent_id g with Some p => descends fuel' t root p | None => false end
               | None => false
               end
  end.

(** [ON DELETE CASCADE]: the goal, its descendants, and the progress of all of them. *)
Definition cascades (root : string) (t : list Goal) (id : string) : bool := descends (length t) t root id.

Definition deleteGoal (id : string) (d : GoalDb) : GoalDb * bool :=
  match getGoal id d with
  | None => (d, false)
  | Some _ => (mkGoalDb (delete_where (fun g => cascades id (goals d) (g_id g)) (goals d))
                 (delete_where (fun p => cascades id (goals d) (goal_id p)) (progress d)) (checkins d), true)
  end.

(** ** Progress, check-ins, metrics *)

Definition progress_desc (a b : GoalProgressEntry) : bool := pr_created_at b <=? pr_created_at a.
Definition getProgressHistory (goalId : string) (limit : Z) (d : GoalDb) : list GoalProgressEntry :=
  sql_limit (Z.max 1 (Z.min limit 500)) 0 (sort_by progress_desc (select_where (fun p => bool_decide (goal_id p = goalId)) (progress d))).

Definition createCheckIn (id : string) (ty : CheckInType) (s : string) (reviewed planned done_ : list string) (now : Z) (d : GoalDb)
    : option (GoalDb * GoalCheckIn) :=
  let c := mkCheckIn id ty s reviewed planned done_ now in
  match insert_row c (checkins d) with Some t => Some (mkGoalDb (goals d) (progress d) t, c) | None => None end.

Definition check_in_desc (a b : GoalCheckIn) : bool := ci_created_at b <=? ci_created_at a.
Definition getRecentCheckIns (ty : option CheckInType) (limit : Z) (d : GoalDb) : list GoalCheckIn :=
  sql_limit (Z.max 1 (Z.min limit 100)) 0
    (sort_by check_in_desc (select_where (fun c => match ty with Some t => bool_decide (ci_type c = t) | None => true end) (checkins d))).

(** [startOfDay] is the local midnight of the call. *)
Definition getTodayCheckIn (ty : CheckInType) (startOfDay : Z) (d : GoalDb) : option GoalCheckIn :=
  head (sort_by check_in_desc (select_where (fun c => bool_decide (ci_type c = ty) && (startOfDay <=? ci_created_at c)) (checkins d))).

Record GoalMetrics := mkMetrics {
  m_total : nat; m_active : nat; m_completed : nat; m_failed : nat; m_killed : nat; m_avg : number;
  m_on_track : nat; m_at_risk : nat; m_behind : nat; m_critical : nat; m_overdue : nat }.

(** [avg] is SQLite's AVG of the scores, null on none. *)
Definition getGoalMetrics (avg : list number -> option number) (now : Z) (d : GoalDb) : GoalMetrics :=
  let count p := length (select_where p (goals d)) in
  let in_status s := count (fun g => bool_decide (g_status g = s)) in
  let in_health h := count (fun g => bool_decide (g_status g = g_active) && bool_decide (health g = h)) in
  mkMetrics (length (goals d)) (in_status g_active) (in_status g_completed) (in_status g_failed) (in_status g_killed)
    (avg (map score (select_where (fun g => bool_decide (g_status g = g_active) && bool_decide (level g = objective)) (goals d))) ?? zero)
    (in_health on_track) (in_health at_risk) (in_health behind) (in_health critical_health) (count (past_deadline now)).

(** goals/awareness-bridge.ts, [logAutoDetectedProgress]: one match. An entry repeats the score. *)
Definition auto_detect (entry goalId n : string) (now : Z) (d : GoalDb) : option GoalDb :=
  if existsb (fun p => bool_decide (pr_type p = auto_detected) && (now - pr_created_at p <? 30 * 60 * 1000)) (getProgressHistory goalId 5 d)
  then Some d
  else match getGoal goalId d with
       | None => Some d
       | Some g => match addProgressEntry entry goalId auto_detected (score g) (score g) n "awareness" now d with
                   | Some (d', _) => Some d'
                   | None => None
                   end
       end.

(** ** The service (goals/service.ts) *)

Inductive GoalEvent :=
  | goal_created (id : string) | goal_updated (id : string) | goal_scored (id : string) (s : number)
  | goal_completed (id : string) | goal_failed (id : string) | goal_killed (id : string) | goal_status_changed (id : string)
  | goal_health_changed (id : string) (h : GoalHealth) | goal_deleted (id : string) | goal_escalated (id : string) (s : EscalationStage).

Definition tenths (n : Z) : number := of_decimal n (-1).
Definition hundredths (n : Z) : number := of_decimal n (-2).

Definition calculateHealth (now : Z) (g : Goal) : GoalHealth :=
  match deadline (text g) with
  | None | Some 0 => if num_leb (tenths 6) (score g) then on_track else if num_leb (tenths 3) (score g) then at_risk else behind
  | Some due =>
      let startTime := started_at g ?? g_created_at g in
      let totalDuration := due - startTime in
      let elapsed := now - startTime in
      if due <? now
      then if num_leb (tenths 7) (score g) then on_track else if num_leb (tenths 4) (score g) then behind else critical_health
      else
        let timeRatio := if 0 <? totalDuration then num_div (num_of_Z elapsed) (num_of_Z totalDuration) else zero in
        let gap := num_sub (num_mul timeRatio (tenths 7)) (score g) in
        if num_leb gap zero then on_track else if num_leb gap (hundredths 15) then at_risk
        else if num_leb gap (tenths 3) then behind else critical_health
  end.

Definition service_createGoal (id : string) (now : Z) (l : GoalLevel) (o : GoalOpts) (d : GoalDb) : option (GoalDb * Goal * list GoalEvent) :=
  match createGoal id now l o d with Some (d', g) => Some (d', g, [goal_created (g_id g)]) | None => None end.

Definition service_updateGoal (id : string) (u : GoalUpdate) (now : Z) (d : GoalDb) : GoalDb * option Goal * list GoalEvent :=
  let '(d', g) := updateGoal id u now d in (d', g, match g with Some _ => [goal_updated id] | None => [] end).

Definition updateHealth (id : string) (h : GoalHealth) (now : Z) (d : GoalDb) : GoalDb * list GoalEvent :=
  let '(d', g) := updateGoalHealth id h now d in (d', match g with Some _ => [goal_health_changed id h] | None => [] end).

Definition scoreGoal (entry id : string) (s : number) (reason src : string) (now : Z) (d : GoalDb) : option (GoalDb * option Goal * list GoalEvent) :=
  match updateGoalScore entry id s reason src now d with
  | None => None
  | Some (d1, None) => Some (d1, None, [])
  | Some (d1, Some g) =>
      let h := calculateHealth now g in
      if bool_decide (h = health g) then Some (d1, Some g, [goal_scored id (score g)])
      else let '(d2, ev) := updateHealth (g_id g) h now d1 in Some (d2, Some g, goal_scored id (score g) :: ev)
  end.

(** The extraction of a finished goal into the vault's memory is not modelled. *)
Definition updateStatus (id : string) (s : GoalStatus) (now : Z) (d : GoalDb) : GoalDb * option Goal * list GoalEvent :=
  let '(d', g) := updateGoalStatus id s now d in
  (d', g, match g with
          | Some _ => [match s with g_completed => goal_completed id | g_failed => goal_failed id | g_killed => goal_killed id
                       | _ => goal_status_changed id end]
          | None => []
          end).

Definition service_deleteGoal (id : string) (d : GoalDb) : GoalDb * bool * list GoalEvent :=
  let '(d', b) := deleteGoal id d in (d', b, if b then [goal_deleted id] else []).

Record EscalationWeeks := mkWeeks { w_pressure : number; w_root_cause : number; w_suggest_kill : number }.
Definition default_weeks : EscalationWeeks := mkWeeks (num_of_Z 1) (num_of_Z 3) (num_of_Z 4).

Definition WEEK_MS : Z := 7 * 24 * 60 * 60 * 1000.
Definition weeks_since (now since : Z) : number := num_div (num_of_Z (now - since)) (num_of_Z WEEK_MS).

(** The stage one goal moves to, if any: [checkAccountability] and the engine of
    accountability.ts decide it alike. *)
Definition next_stage (weeks : EscalationWeeks) (now : Z) (g : Goal) : option EscalationStage :=
  let since := escalation_started_at g ?? updated_at g in
  match escalation_stage g with
  | no_stage => if num_leb (w_pressure weeks) (weeks_since now (updated_at g)) then Some pressure else None
  | pressure => if num_leb (w_root_cause weeks) (weeks_since now since) then Some root_cause else None
  | root_cause => if num_leb (w_suggest_kill weeks) (weeks_since now since) then Some suggest_kill else None
  | suggest_kill => None
  end.

Fixpoint escalate_each (weeks : EscalationWeeks) (now : Z) (l : list Goal) (d : GoalDb) : GoalDb * list GoalEvent :=
  match l with
  | [] => (d, [])
  | g :: l' =>
      match next_stage weeks now g with
      | Some s => let '(d2, ev) := escalate_each weeks now l' (updateGoalEscalation (g_id g) s now d).1 in (d2, goal_escalated (g_id g) s :: ev)
      | None => escalate_each weeks now l' d
      end
  end.

Definition checkAccountability (weeks : option EscalationWeeks) (now : Z) (d : GoalDb) : GoalDb * list GoalEvent :=
  escalate_each (weeks ?? default_weeks) now (getGoalsNeedingEscalation d) d.

Fixpoint refresh_each (now : Z) (l : list Goal) (d : GoalDb) : GoalDb * list GoalEvent :=
  match l with
  | [] => (d, [])
  | g :: l' =>
      let h := calculateHealth now g in
      if bool_decide (h = health g) then refresh_each now l' d
      else let '(d1, ev1) := updateHealth (g_id g) h now d in
           let '(d2, ev2) := refresh_each now l' d1 in (d2, ev1 ++ ev2)
  end.

Definition active_goals : GoalQuery := mkGoalQuery (Some g_active) None None None None None None.
Definition recalculateAllHealth (now : Z) (d : GoalDb) : GoalDb * list GoalEvent := refresh_each now (findGoals active_goals d) d.

(** ** Any operation that writes the tables *)

Inductive GoalOp :=
  | OpCreateGoal (id : string) (now : Z) (l : GoalLevel) (o : GoalOpts)
  | OpUpdateGoal (id : string) (u : GoalUpdate) (now : Z)
  | OpScore (entry id : string) (s : number) (reason src : string) (now : Z)
  | OpGoalStatus (id : string) (s : GoalStatus) (now : Z)
  | OpHealth (id : string) (h : GoalHealth) (now : Z)
  | OpEscalation (id : string) (s : EscalationStage) (now : Z)
  | OpHours (id : string) (h : number) (now : Z)
  | OpReorderGoals (items : list (string * Z)) (now : Z)
  | OpDeleteGoal (id : string)
  | OpCheckIn (id : string) (ty : CheckInType) (s : string) (reviewed planned done_ : list string) (now : Z)
  | OpAutoDetect (entry id n : string) (now : Z)
  | OpScoreGoal (entry id : string) (s : number) (reason src : string) (now : Z)
  | OpAccountability (weeks : option EscalationWeeks) (now : Z)
  | OpRefreshHealth (now : Z).

Definition or_keep {A} (f : A -> GoalDb) (d : GoalDb) (r : option A) : GoalDb := match r with Some a => f a | None => d end.

Definition goal_step (d : GoalDb) (op : GoalOp) : GoalDb :=
  match op with
  | OpCreateGoal id now l o => or_keep fst d (createGoal id now l o d)
  | OpUpdateGoal id u now => (updateGoal id u now d).1
  | OpScore e id s r src now => or_keep fst d (updateGoalScore e id s r src now d)
  | OpGoalStatus id s now => (updateGoalStatus id s now d).1
  | OpHealth id h now => (updateGoalHealth id h now d).1
  | OpEscalation id s now => (updateGoalEscalation id s now d).1
  | OpHours id h now => (updateGoalActualHours id h now d).1
  | OpReorderGoals items now => reorderGoals items now d
  | OpDeleteGoal id => (deleteGoal id d).1
  | OpCheckIn id ty s r p dn now => or_keep fst d (createCheckIn id ty s r p dn now d)
  | OpAutoDetect e id n now => or_keep (fun d' => d') d (auto_detect e id n now d)
  | OpScoreGoal e id s r src now => or_keep (fun x => x.1.1) d (scoreGoal e id s r src now d)
  | OpAccountability w now => (checkAccountability w now d).1
  | OpRefreshHealth now => (recalculateAllHealth now d).1
  end.
Definition goal_steps : GoalDb -> list GoalOp -> GoalDb := foldl goal_step.

(** ** Scores and their history *)

(** A score between 0 and 1 (so not NaN). *)
Definition in_unit (s : number) : bool := num_leb zero s && num_leb s one.

(** Entries that lead from one score to another, each starting where the last one ended. *)
Fixpoint chain (s : number) (l : list GoalProgressEntry) (final : number) : Prop :=
  match l with [] => final = s | p :: l' => score_before p = s /\ in_unit (score_after p) = true /\ chain (score_after p) l' final end.

Definition history (id : string) (d : GoalDb) : list GoalProgressEntry := select_where (fun p => bool_decide (goal_id p = id)) (progress d).

(** Every parent comes before its children ([seen] are the ids already passed). *)
Fixpoint parents_first (seen : list string) (t : list Goal) : Prop :=
  match t with
  | [] => True
  | g :: t' => (forall p, parent_id g = Some p -> In p seen) /\ parents_first (g_id g :: seen) t'
  end.

Record goals_ok (d : GoalDb) : Prop := {
  ids_keyed : keyed (goals d);
  parents_ok : parents_first [] (goals d);
  entries_owned : forall p, In p (progress d) -> is_Some (getGoal (goal_id p) d);
  histories : forall g, In g (goals d) -> in_unit (score g) = true /\ chain zero (history (g_id g) d) (score g) }.

Lemma compare_swap x y : SFcompare x y = option_map CompOpp (SFcompare y x).
Proof.
  destruct x as [[]|[]| |[] m e]; destruct y as [[]|[]| |[] m' e']; simpl; try done;
    rewrite (Z.compare_antisym e' e); destruct (Z.compare e' e); simpl; try done;
    rewrite (Pos.compare_cont_antisym m' m Eq); simpl; by destruct (Pos.compare_cont Eq m' m).
Qed.

Lemma leb_total x y : num_leb x y = false -> is_finite_num x = true -> is_finite_num y = true -> num_leb y x = true.
Proof.
  unfold num_leb, SFleb. rewrite (compare_swap x y). intros H Hx Hy.
  destruct (SFcompare y x) as [[]|] eqn:E; simpl in *; try done.
  destruct x as [[]|[]| |[] m e]; destruct y as [[]|[]| |[] m' e']; simpl in *; done.
Qed.

Lemma ltb_leb x y : num_ltb x y = false -> is_finite_num x = true -> is_finite_num y = true -> num_leb y x = true.
Proof.
  unfold num_leb, num_ltb, SFleb, SFltb. rewrite (compare_swap x y). intros H Hx Hy.
  destruct (SFcompare y x) as [[]|] eqn:E; simpl in *; try done.
  destruct x as [[]|[]| |[] m e]; destruct y as [[]|[]| |[] m' e']; simpl in *; done.
Qed.

Lemma clamp_in_unit s : is_finite_num s = true -> in_unit (clamp_score s) = true.
Proof.
  intros Hs. unfold clamp_score, in_unit. destruct (num_leb one s) eqn:E1; [by vm_compute|].
  destruct (num_leb s zero) eqn:E2; [by vm_compute|].
  by rewrite (leb_total s zero), (leb_total one s).
Qed.

Lemma chain_snoc s l mid p : chain s l mid -> score_before p = mid -> in_unit (score_after p) = true -> chain s (l ++ [p]) (score_after p).
Proof. revert s. induction l as [|q l IH]; intros s; simpl; [by intros -> ->|]. intros (H1 & H2 & H3) Hm Hu. auto. Qed.

(** ** Updates that leave scores and parents alone *)

Class Neutral (f : Goal -> Goal) := neutral : forall g, g_id (f g) = g_id g /\ parent_id (f g) = parent_id g /\ score (f g) = score g.

#[export] Instance with_text_neutral t o now : Neutral (with_text t o now). Proof. done. Qed.
#[export] Instance with_status_neutral s a b now : Neutral (with_goal_status s a b now). Proof. done. Qed.
#[export] Instance with_health_neutral h now : Neutral (with_health h now). Proof. done. Qed.
#[export] Instance with_stage_neutral s a now : Neutral (with_stage s a now). Proof. done. Qed.
#[export] Instance with_hours_neutral h now : Neutral (with_hours h now). Proof. done. Qed.

(** Rows with the same ids and parents, in the same order. *)
Lemma parents_first_map f t : (forall g, g_id (f g) = g_id g /\ parent_id (f g) = parent_id g) ->
  forall seen, parents_first seen t -> parents_first seen (map f t).
Proof.
  intros Hf. induction t as [|g t IH]; intros seen; simpl; [done|]. destruct (Hf g) as [-> ->]. intros [H1 H2]. auto.
Qed.

Lemma update_goal_get id f d k : (forall g, g_id (f g) = g_id g) ->
  getGoal k (update_goal id f d) = (fun g => if bool_decide (g_id g = id) then f g else g) <$> getGoal k d.
Proof.
  intros Hf. assert (KeepsKey f) by exact Hf. unfold getGoal, update_goal, set_goals. cbn [goals].
  rewrite get_row_update by done. unfold key_is, row_key, goal_row.
  destruct (get_row k (goals d)) as [g|]; simpl; [|done]. by rewrite andb_true_r.
Qed.

Lemma neutral_ok id f d : Neutral f -> goals_ok d -> goals_ok (update_goal id f d).
Proof.
  intros Hf [Hk Hp He Hh]. assert (forall g, g_id (f g) = g_id g) as Hid by (intros; apply Hf). split.
  - assert (KeepsKey f) by exact Hid. by apply update_keyed.
  - simpl. apply parents_first_map; [|done]. intros g. destruct (key_is id _ g); [split; apply Hf|done].
  - intros p Hin. rewrite update_goal_get by done. destruct (He p Hin) as [g ->]. by eexists.
  - intros g Hin. simpl in Hin. apply in_map_iff in Hin as (g0 & <- & Hin). destruct (Hh g0 Hin) as [H1 H2].
    destruct (key_is id _ g0); [destruct (Hf g0) as (-> & _ & ->)|]; done.
Qed.

Lemma guarded_neutral_ok id (f : Goal -> Goal -> Goal) d : (forall g0, Neutral (f g0)) -> goals_ok d -> forall g0, goals_ok (update_goal id (f g0) d).
Proof. intros Hf Hd g0. by apply neutral_ok. Qed.

(** ** Scoring *)

Lemma scored_ok id entry ty s reason src now g d d' : goals_ok d -> getGoal id d = Some g -> in_unit s = true ->
  record_score entry id ty s reason src now g d = Some d' -> goals_ok d'.
Proof.
  intros [Hk Hp He Hh] Hg Hs. unfold record_score, addProgressEntry. rewrite Hg.
  destruct (insert_row _ (progress d)) as [t|] eqn:Ei; [|done]. intros [= <-].
  unfold insert_row in Ei. destruct (get_row _ (progress d)); [done|]. injection Ei as <-.
  set (e := mkProgress entry id ty (score g) s reason src now).
  assert (forall k, history k (set_progress (progress d ++ [e]) d) = history k d ++ (if bool_decide (id = k) then [e] else [])) as Hist.
  { intros k. unfold history, select_where. simpl. rewrite List.filter_app. simpl. by case_bool_decide. }
  apply get_row_Some in Hg as Hin. destruct Hin as [Hin Hid]. split.
  - by apply update_keyed.
  - simpl. apply parents_first_map; [|done]. intros g1. by destruct (key_is id _ g1).
  - intros p Hp'. change (is_Some (getGoal (goal_id p) (update_goal id (scored s reason now) (set_progress (progress d ++ [e]) d)))).
    rewrite update_goal_get by done. assert (is_Some (getGoal (goal_id p) d)) as [g1 H1].
    { simpl in Hp'. apply in_app_iff in Hp' as [H|[<-|[]]]; [by apply He|]. by exists g. }
    change (getGoal (goal_id p) (set_progress _ d)) with (getGoal (goal_id p) d). rewrite H1. by eexists.
  - intros g1 Hin1. simpl in Hin1. apply in_map_iff in Hin1 as (g0 & <- & Hin0). destruct (Hh g0 Hin0) as [H1 H2].
    change (history ?k (update_goal ?i ?f ?x)) with (history k x). unfold key_is. rewrite andb_true_r.
    destruct (bool_decide_reflect (row_key g0 = id)) as [E|E].
    + assert (g0 = g) as -> by (apply (keyed_unique (goals d)); [done..|by rewrite E]). split; [done|].
      change (g_id (scored s reason now g)) with (g_id g). rewrite Hist. change (g_id g) with (row_key g). rewrite E, bool_decide_true by done.
      apply (chain_snoc zero _ (score g) e); [|done|done]. rewrite <- E. done.
    + rewrite Hist. change (g_id g0) with (row_key g0). rewrite bool_decide_false by auto. by rewrite app_nil_r.
Qed.

(** ** Creation and deletion *)

Lemma parents_first_snoc t g : forall seen, parents_first seen t ->
  (forall p, parent_id g = Some p -> In p seen \/ In p (map g_id t)) -> parents_first seen (t ++ [g]).
Proof.
  induction t as [|g0 t IH]; intros seen; simpl.
  - intros _ H. split; [|done]. intros p Hp. by destruct (H p Hp).
  - intros [H1 H2] H. split; [done|]. apply IH; [done|]. intros p Hp. destruct (H p Hp) as [?|[<-|?]]; [left; by right|left; by left|by right].
Qed.

Lemma parents_first_filter p t : forall seen seen', parents_first seen t ->
  (forall g q, In g t -> p g = true -> parent_id g = Some q -> In q seen -> In q seen') ->
  (forall g g', In g t -> In g' t -> p g = true -> parent_id g = Some (g_id g') -> p g' = true) ->
  parents_first seen' (List.filter p t).
Proof.
  induction t as [|g t IH]; intros seen seen'; simpl; [done|]. intros [H1 H2] Hs Hd. destruct (p g) eqn:Ep; simpl.
  - split; [intros q Hq; apply (Hs g); eauto|]. apply IH with (g_id g :: seen); [done| |naive_solver].
    intros g' q Hg' Hp' Hq [<-|Hin]; [by left|right]. by apply (Hs g' q); auto.
  - apply IH with (g_id g :: seen); [done| |naive_solver].
    intros g' q Hg' Hp' Hq [<-|Hin]; [|by apply (Hs g' q); auto]. exfalso.
    assert (p g = true) by (apply (Hd g' g); auto). congruence.
Qed.

Lemma created_ok id now l o d t : goals_ok d -> (forall p, go_parent o = Some p -> is_Some (getGoal p d)) ->
  insert_row (new_goal id now l o) (goals d) = Some t -> goals_ok (set_goals t d).
Proof.
  intros [Hk Hp He Hh] Hpar Hi. pose proof (fun k => get_row_insert _ _ _ k Hi) as Hget. split.
  - by apply insert_row_keyed in Hi.
  - simpl. unfold insert_row in Hi. destruct (get_row _ (goals d)); [done|]. injection Hi as <-.
    apply parents_first_snoc; [done|]. intros p Hq. right. destruct (Hpar p Hq) as [g [Hin <-]%get_row_Some].
    by apply (in_map g_id).
  - intros p Hin. unfold getGoal. simpl. rewrite Hget. case_bool_decide; [by eexists|by apply He].
  - intros g Hin. change (history (g_id g) (set_goals t d)) with (history (g_id g) d).
    unfold insert_row in Hi. destruct (get_row _ (goals d)) eqn:En; [done|]. injection Hi as <-. simpl in Hin.
    apply in_app_iff in Hin as [Hin|[<-|[]]]; [by apply Hh|]. split; [by vm_compute|]. simpl.
    assert (history id d = []) as ->; [|done]. apply filter_nil_iff. intros p Hp'. apply bool_decide_false. intros E.
    destruct (He p Hp') as [g Hg]. unfold getGoal in Hg. rewrite E in Hg. change (row_key (new_goal id now l o)) with id in En. congruence.
Qed.

(** [id] is reached from [root] by steps from parent to child. *)
Inductive Desc (t : list Goal) (root : string) : string -> Prop :=
  | desc_root : Desc t root root
  | desc_child c p : In c t -> parent_id c = Some p -> Desc t root p -> Desc t root (g_id c).

(** The number of rows from [id] to the end of the table. *)
Fixpoint rank (id : string) (t : list Goal) : nat :=
  match t with [] => O | g :: t' => if bool_decide (g_id g = id) then S (length t') else rank id t' end.

Lemma rank_le id t : (rank id t <= length t)%nat.
Proof. induction t as [|g t IH]; simpl; [lia|]. case_bool_decide; lia. Qed.

Lemma seen_or_rank t c p : keyed t -> forall seen, parents_first seen t -> In c t -> parent_id c = Some p ->
  In p seen \/ (rank (g_id c) t < rank p t)%nat.
Proof.
  unfold keyed. induction t as [|g t IH]; intros Hk seen; [done|]. simpl in Hk. apply NoDup_cons_iff in Hk as [Hn Hk].
  simpl. intros [H1 H2] [->|Hin] Hp; [left; auto|].
  assert (g_id g <> g_id c) as Hne by (intros E; apply Hn; change (row_key g) with (g_id g); rewrite E; by apply (in_map row_key)).
  rewrite (bool_decide_false (g_id g = g_id c)) by done. pose proof (rank_le (g_id c) t).
  destruct (IH Hk (g_id g :: seen) H2 Hin Hp) as [[<-|Hs]|Hlt]; [right|by left|right].
  - rewrite bool_decide_true by done. lia.
  - case_bool_decide; lia.
Qed.

Lemma child_rank t c p : keyed t -> parents_first [] t -> In c t -> parent_id c = Some p -> (rank (g_id c) t < rank p t)%nat.
Proof. intros Hk Hp Hin Hc. by destruct (seen_or_rank t c p Hk [] Hp Hin Hc). Qed.

Lemma descends_Desc f t root id : descends f t root id = true -> Desc t root id.
Proof.
  revert id. induction f as [|f IH]; intros id; simpl; (destruct (bool_decide_reflect (id = root)) as [->|_]; [constructor|]); simpl; [done|].
  destruct (get_row id t) as [g|] eqn:Eg; [|done]. apply get_row_Some in Eg as [Hin <-].
  destruct (parent_id g) as [p|] eqn:Ep; [|done]. intros H%IH. by apply desc_child with p.
Qed.

Lemma Desc_descends t root id : keyed t -> parents_first [] t -> Desc t root id ->
  forall f, (length t <= f + rank id t)%nat -> descends f t root id = true.
Proof.
  intros Hk Hp. induction 1 as [|c p Hin Hc Hd IH]; intros f Hf.
  { destruct f; simpl; by rewrite bool_decide_true. }
  pose proof (child_rank t c p Hk Hp Hin Hc). pose proof (rank_le p t). destruct f as [|f]; [lia|]. simpl.
  change (get_row (g_id c) t) with (get_row (row_key c) t). rewrite (get_row_In t c Hk Hin), Hc, IH by lia. by rewrite orb_true_r.
Qed.

(** The fuel of a cascade is enough. *)
Lemma cascades_spec t root id : keyed t -> parents_first [] t -> cascades root t id = true <-> Desc t root id.
Proof.
  intros Hk Hp. split; [apply descends_Desc|]. intros Hd. by apply Desc_descends; [..|lia].
Qed.

Lemma delete_where_get (p : string -> bool) k t : keyed t -> p k = false ->
  get_row k (delete_where (fun g : Goal => p (g_id g)) t) = get_row k t.
Proof.
  unfold get_row, delete_where. intros _ Hpk. induction t as [|g t IH]; simpl; [done|].
  destruct (bool_decide_reflect (row_key g = k)) as [E|E].
  - change (g_id g) with (row_key g). rewrite E, Hpk. simpl. by rewrite bool_decide_true.
  - destruct (p (g_id g)); simpl; [done|]. by rewrite bool_decide_false.
Qed.

(** What remains after a deletion is closed: a goal whose parent is deleted is deleted. *)
Lemma deleted_ok id d : goals_ok d -> goals_ok (deleteGoal id d).1.
Proof.
  intros Hd. pose proof Hd as [Hk Hp He Hh]. unfold deleteGoal. destruct (getGoal id d) as [g0|]; [|done]. simpl. clear g0.
  set (gone := cascades id (goals d)). split.
  - by apply (filter_NoDup_map row_key).
  - apply parents_first_filter with []; [done|done|]. intros g g' Hg Hg' Hkeep Hpar.
    destruct (gone (g_id g')) eqn:Eg; [|done]. exfalso. apply cascades_spec in Eg; [|done..].
    assert (gone (g_id g) = true) as Hg1 by (apply cascades_spec; [done..|by apply desc_child with (g_id g')]). by rewrite Hg1 in Hkeep.
  - intros p Hin. simpl in Hin. apply List.filter_In in Hin as [Hin Hkeep%negb_true_iff]. destruct (He p Hin) as [g Hg].
    unfold getGoal. simpl. rewrite (delete_where_get gone) by done. by exists g.
  - intros g Hin. simpl in Hin. apply List.filter_In in Hin as [Hin Hkeep%negb_true_iff]. destruct (Hh g Hin) as [H1 H2]. split; [done|].
    replace (history (g_id g) _) with (history (g_id g) d); [done|]. unfold history, select_where, delete_where. simpl.
    rewrite filter_comm. symmetry. apply filter_all. intros p Hp'. apply List.filter_In in Hp' as [_ E%bool_decide_eq_true].
    rewrite E. fold gone. by rewrite Hkeep.
Qed.

(** ** Every operation *)

Lemma escalation_ok id s now d : goals_ok d -> goals_ok (updateGoalEscalation id s now d).1.
Proof.
  intros Hd. unfold updateGoalEscalation. case_bool_decide; [by apply neutral_ok; [apply _|]|].
  destruct (getGoal id d); [by apply neutral_ok; [apply _|]|done].
Qed.

Lemma update_score_ok e id s r src now d d' g : goals_ok d -> updateGoalScore e id s r src now d = Some (d', g) -> goals_ok d'.
Proof.
  intros Hd. unfold updateGoalScore. destruct (bool_decide (src = "daily_review") || negb (is_finite_num s)) eqn:E; [by intros [= <- _]|].
  apply orb_false_iff in E as [_ Hf%negb_false_iff]. destruct (getGoal id d) as [g0|] eqn:Eg; [|by intros [= <- _]].
  destruct (record_score _ _ _ _ _ _ _ _ _) as [d1|] eqn:Er; [|done]. intros [= <- _].
  by apply (scored_ok _ _ _ _ _ _ _ _ _ _ Hd Eg (clamp_in_unit s Hf) Er).
Qed.

Lemma progress_entry_ok e id g n now d d' x : goals_ok d -> getGoal id d = Some g ->
  addProgressEntry e id auto_detected (score g) (score g) n "awareness" now d = Some (d', x) -> goals_ok d'.
Proof.
  intros Hd Hg Ha. assert (In g (goals d) /\ g_id g = id) as [Hin Hid] by (by apply get_row_Some in Hg).
  destruct (histories _ Hd g Hin) as [Hu _].
  (* the same as scoring the goal with its own score *)
  assert (exists d2, record_score e id auto_detected (score g) n "awareness" now g d = Some d2 /\ goals_ok d2) as (d2 & Hr & Hok).
  { unfold record_score. rewrite Ha. eexists. split; [done|]. apply (scored_ok id e auto_detected (score g) n "awareness" now g d); [done..|].
    unfold record_score. by rewrite Ha. }
  unfold record_score in Hr. rewrite Ha in Hr. injection Hr as <-. clear -Hok Hd Ha Hg Hid.
  unfold addProgressEntry in Ha. rewrite Hg in Ha. destruct (insert_row _ (progress d)) as [t|]; [|done]. injection Ha as <- <-.
  destruct Hd as [Hk Hp He Hh]. destruct Hok as [_ _ He2 Hh2]. split; [done|done| |].
  - intros p Hin. specialize (He2 p Hin). rewrite update_goal_get in He2 by done.
    change (getGoal (goal_id p) (set_progress t d)) with (getGoal (goal_id p) d) in *. by apply fmap_is_Some in He2.
  - intros g1 Hin1. split; [by apply Hh|].
    set (f := fun r => if key_is id (fun _ => true) r then scored (score g) n now r else r).
    destruct (Hh2 (f g1)) as [_ H2]; [by apply (in_map f)|].
    assert (score (f g1) = score g1 /\ g_id (f g1) = g_id g1) as [E1 E2].
    { unfold f, key_is. rewrite andb_true_r. destruct (bool_decide_reflect (row_key g1 = id)) as [E|]; [|done]. simpl. split; [|done].
      f_equal. apply get_row_Some in Hg as [Hing Hidg]. apply (keyed_unique (goals d)); [done..|congruence]. }
    by rewrite E1, E2 in H2.
Qed.

Lemma goal_step_ok d op : goals_ok d -> goals_ok (goal_step d op).
Proof.
  intros Hd. destruct op; simpl.
  - unfold createGoal, or_keep. destruct (go_parent o) as [q|] eqn:Eo.
    + destruct (getGoal q d) eqn:Eq; [|done]. destruct (insert_row _ (goals d)) eqn:Ei; [|done].
      apply (created_ok id now l o); [done| |done]. intros p' Hp'. rewrite Eo in Hp'. injection Hp' as <-. by eexists.
    + destruct (insert_row _ (goals d)) eqn:Ei; [|done]. apply (created_ok id now l o); [done| |done]. by rewrite Eo.
  - unfold updateGoal. destruct (getGoal id d); [|done]. destruct (no_update u); [done|]. simpl. by apply neutral_ok.
  - destruct (updateGoalScore _ _ _ _ _ _ _) as [[d' g]|] eqn:E; [|done]. by apply update_score_ok in E.
  - unfold updateGoalStatus. destruct (getGoal id d); [|done]. by apply neutral_ok.
  - by apply neutral_ok; [apply _|].
  - by apply escalation_ok.
  - by apply neutral_ok; [apply _|].
  - revert d Hd. induction items as [|[i o] items IH]; intros d Hd; [done|]. apply IH. by apply neutral_ok.
  - by apply deleted_ok.
  - unfold createCheckIn, or_keep. destruct (insert_row _ (checkins d)); [|done]. by destruct Hd.
  - unfold auto_detect. destruct (existsb _ _); [done|]. destruct (getGoal id d) as [g|] eqn:Eg; [|done].
    destruct (addProgressEntry _ _ _ _ _ _ _ _ _) as [[d' x]|] eqn:Ea; [|done]. by apply progress_entry_ok in Ea.
  - unfold scoreGoal. destruct (updateGoalScore _ _ _ _ _ _ _) as [[d1 [g|]]|] eqn:E; simpl; [|by apply update_score_ok in E|done].
    apply update_score_ok in E; [|done]. case_bool_decide; [done|]. simpl. by apply neutral_ok; [apply _|].
  - unfold checkAccountability. generalize (getGoalsNeedingEscalation d). intros l. revert d Hd.
    induction l as [|g l IH]; intros d Hd; simpl; [done|]. destruct (next_stage _ now g); [|by apply IH].
    pose proof (IH _ (escalation_ok (g_id g) e now d Hd)). by destruct (escalate_each _ now l _).
  - unfold recalculateAllHealth. generalize (findGoals active_goals d). intros l. revert d Hd.
    induction l as [|g l IH]; intros d Hd; simpl; [done|]. case_bool_decide; [by apply IH|]. unfold updateHealth. simpl.
    pose proof (IH _ (neutral_ok (g_id g) _ d (with_health_neutral (calculateHealth now g) now) Hd)) as Hr.
    by destruct (refresh_each now l _).
Qed.

Lemma goal_steps_ok ops : forall d, goals_ok d -> goals_ok (goal_steps d ops).
Proof. induction ops as [|op ops IH]; intros d Hd; [done|]. apply IH. by apply goal_step_ok. Qed.

Lemma empty_goals_ok : goals_ok empty_goals.
Proof. split; [constructor|done|by intros ? []|by intros ? []]. Qed.

(** The stages count from the start of the pressure stage: a goal behind since 0 whose pressure
    started after one week reaches the root cause after four. *)
Example root_cause_waits :
  let g := mkGoal "g" None task (default_text "late") zero None g_active behind None zero pressure (Some WEEK_MS) 0 0 WEEK_MS None in
  next_stage default_weeks (4 * WEEK_MS - 1) g = None /\ next_stage default_weeks (4 * WEEK_MS) g = Some root_cause.
Proof. vm_compute. done. Qed.
