(* ===== verification/GoalTree.v ===== *)
(** * The tree of a goal (vault/goals.ts, [getGoalTree]) and the limits of the queries

    [collectChildren] recurses without a bound on a table it does not check for cycles.
    It returns, because a parent row precedes its children and no operation moves a goal
    to another parent, and what it lists is the subtree that [deleteGoal] removes, as
    long as no goal has more children than the default limit of a query. *)
From S2P Require Export Goals.

Section tree.
Context (d : GoalDb) (Hd : goals_ok d).
Let t := goals d.

Lemma children_In c p : In c (getGoalChildren p d) -> In c t /\ parent_id c = Some p.
Proof.
  unfold getGoalChildren, findGoals, select_where. intros H%sql_limit_In. rewrite sort_by_In, List.filter_In in H.
  destruct H as [Hin Hm]. split; [done|]. unfold goal_matches in Hm. simpl in Hm. to_prop. naive_solver.
Qed.

Lemma child_lower c p : In c (getGoalChildren p d) -> (rank (g_id c) t < rank p t)%nat.
Proof. intros [Hin Hp]%children_In. by apply child_rank; [apply Hd|apply Hd|..]. Qed.

(** With enough fuel the recursion ends on its own. *)
Lemma collect_fuel f : forall p f', (rank p t <= f)%nat -> (rank p t <= f')%nat -> collectChildren f d p = collectChildren f' d p.
Proof.
  induction f as [|f IH]; intros p f' Hf Hf'.
  - destruct f' as [|f']; [done|]. simpl. destruct (getGoalChildren p d) as [|c l] eqn:E; [done|]. exfalso.
    assert (rank (g_id c) t < rank p t)%nat by (apply child_lower; rewrite E; by left). lia.
  - destruct f' as [|f'].
    { simpl. destruct (getGoalChildren p d) as [|c l] eqn:E; [done|]. exfalso.
      assert (rank (g_id c) t < rank p t)%nat by (apply child_lower; rewrite E; by left). lia. }
    simpl. assert (forall c, In c (getGoalChildren p d) -> collectChildren f d (g_id c) = collectChildren f' d (g_id c)) as Hc.
    { intros c Hc%child_lower. apply IH; lia. }
    revert Hc. generalize (getGoalChildren p d) as l. intros l. induction l as [|c l IHl]; intros Hc; simpl; [done|].
    rewrite (Hc c (or_introl eq_refl)), IHl; [done|]. intros y Hy. apply Hc. by right.
Qed.

Lemma desc_top c c' x : In c' t -> parent_id c' = Some (g_id c) -> Desc t (g_id c') x -> Desc t (g_id c) x.
Proof.
  intros Hin Hp Hx. induction Hx as [|y q Hy Hq _ IH]; [by apply desc_child with (g_id c); [..|constructor]|by apply desc_child with q].
Qed.

(** What is listed under a child is the child or below it. *)
Lemma collect_In f : forall c g, g = c \/ In g (collectChildren f d (g_id c)) -> In c t -> In g t /\ Desc t (g_id c) (g_id g).
Proof.
  induction f as [|f IH]; intros c g [->|H] Hc; try (split; [done|constructor]); simpl in H; [done|].
  apply in_flat_map in H as (c' & [Hin Hp]%children_In & H). destruct (IH c' g) as [H1 H2]; [|done|].
  { destruct H as [<-|H]; [by left|by right]. }
  split; [done|]. by apply desc_top with c'.
Qed.

(** Going down lowers the rank. *)
Lemma desc_rank a b : Desc t a b -> b = a \/ (rank b t < rank a t)%nat.
Proof.
  induction 1 as [|c p Hin Hp _ IH]; [by left|right].
  pose proof (child_rank t c p (ids_keyed _ Hd) (parents_ok _ Hd) Hin Hp). destruct IH as [->|?]; lia.
Qed.

(** Two ancestors of a goal are comparable. *)
Lemma desc_linear a b x : Desc t a x -> Desc t b x -> Desc t a b \/ Desc t b a.
Proof.
  intros Ha. revert b. induction Ha as [|c p Hin Hp Ha IH]; intros b Hb; [by right|].
  inversion Hb as [E|c' p' Hin' Hp' Hb' E]; subst.
  - left. by apply desc_child with p.
  - assert (c' = c) as -> by (apply (keyed_unique t); [apply Hd|done..]). rewrite Hp in Hp'. injection Hp' as <-. by apply IH.
Qed.

Lemma siblings_apart p c1 c2 x : In c1 t -> In c2 t -> parent_id c1 = Some p -> parent_id c2 = Some p ->
  Desc t (g_id c1) x -> Desc t (g_id c2) x -> c1 = c2.
Proof.
  intros H1 H2 P1 P2 D1 D2.
  assert (forall a b, In a t -> In b t -> parent_id a = Some p -> parent_id b = Some p -> Desc t (g_id a) (g_id b) -> a = b) as Hkey.
  { intros a b Ha Hb Pa Pb Hab. inversion Hab as [E|c q Hin Hq Hdesc E]; subst.
    - by apply (keyed_unique t); [apply Hd|..].
    - assert (c = b) as -> by (apply (keyed_unique t); [apply Hd|done..]). rewrite Pb in Hq. injection Hq as <-. exfalso.
      pose proof (child_rank t a p (ids_keyed _ Hd) (parents_ok _ Hd) Ha Pa). apply desc_rank in Hdesc as [->|?]; lia. }
  destruct (desc_linear _ _ _ D1 D2) as [H|H]; [by apply Hkey|symmetry; by apply Hkey].
Qed.

Lemma children_NoDup p : List.NoDup (map g_id (getGoalChildren p d)).
Proof.
  unfold getGoalChildren, findGoals, sql_limit. cbv zeta. set (s := sort_by _ _).
  assert (List.NoDup (map g_id s)) as Hs.
  { unfold s. eapply Permutation_NoDup; [symmetry; apply Permutation_map, sort_by_perm|]. apply (filter_NoDup_map row_key). apply Hd. }
  destruct (_ <? 0); rewrite ?drop_0; [done|]. rewrite <- (firstn_skipn (Z.to_nat (safe_limit (gq_limit (of_parent (Some p))))) s), map_app in Hs.
  by apply NoDup_app_remove_r in Hs.
Qed.

(** The lists under two different siblings share no id. *)
Lemma flat_NoDup f p l : List.NoDup (map g_id l) -> (forall c, In c l -> In c (getGoalChildren p d)) ->
  (forall c, In c l -> List.NoDup (map g_id (c :: collectChildren f d (g_id c)))) ->
  List.NoDup (map g_id (flat_map (fun c => c :: collectChildren f d (g_id c)) l)).
Proof.
  induction l as [|c l IH]; intros Hnd Hsub Hc; [constructor|]. cbn [flat_map]. rewrite map_app. apply NoDup_ListNoDup, NoDup_app.
  simpl in Hnd. apply NoDup_cons_iff in Hnd as [Hcl Hnd]. split; [apply NoDup_ListNoDup, Hc; by left|]. split.
  - intros x Hx Hx'. apply list_elem_of_In, in_map_iff in Hx as (g & <- & Hg). apply list_elem_of_In, in_map_iff in Hx' as (g' & E & Hg').
    apply in_flat_map in Hg' as (c2 & Hc2 & Hg').
    pose proof (Hsub c (or_introl eq_refl)) as [H1 P1]%children_In. pose proof (Hsub c2 (or_intror Hc2)) as [H2 P2]%children_In.
    assert (c = c2) as ->; [|by apply Hcl, in_map].
    apply (siblings_apart p c c2 (g_id g)); try done.
    + apply (collect_In f c g); [destruct Hg as [<-|Hg]; [by left|by right]|done].
    + rewrite <- E. apply (collect_In f c2 g'); [destruct Hg' as [<-|Hg']; [by left|by right]|done].
  - apply NoDup_ListNoDup, IH; [done|intros y Hy; apply Hsub; by right|intros y Hy; apply Hc; by right].
Qed.

(** A goal is not below itself. *)
Lemma not_below_itself f c : In c t -> ~ In (g_id c) (map g_id (collectChildren f d (g_id c))).
Proof.
  intros Hc. destruct f as [|f]; [simpl; tauto|]. simpl. intros (g & Eg & (c' & Hc' & Hg)%in_flat_map)%in_map_iff.
  pose proof (child_lower c' (g_id c) Hc') as Hlt. apply children_In in Hc' as [Hin _].
  assert (Desc t (g_id c') (g_id g)) as Hd' by (apply (collect_In f c' g); [destruct Hg as [<-|Hg]; [by left|by right]|done]).
  rewrite Eg in Hd'. apply desc_rank in Hd' as [E|?]; [rewrite E in Hlt|]; lia.
Qed.

Lemma collect_NoDup f : forall c, In c t -> List.NoDup (map g_id (c :: collectChildren f d (g_id c))).
Proof.
  induction f as [|f IH]; intros c Hc; (constructor; [by apply not_below_itself|]); [constructor|].
  apply flat_NoDup with (g_id c); [apply children_NoDup|done|]. intros y [Hy _]%children_In. by apply IH.
Qed.

(** Nothing is cut when no goal has more children than the limit. *)
Lemma children_complete c p : (length (select_where (goal_matches (of_parent (Some p))) t) <= 100)%nat ->
  In c t -> parent_id c = Some p -> In c (getGoalChildren p d).
Proof.
  intros Hlen Hin Hp. unfold getGoalChildren, findGoals, sql_limit. cbv zeta.
  change (safe_limit (gq_limit (of_parent (Some p)))) with 100. change (100 <? 0) with false. cbv iota. rewrite drop_0, firstn_all2.
  2: { rewrite sort_by_length. change (Z.to_nat 100) with 100%nat. exact Hlen. }
  apply sort_by_In, List.filter_In. split; [done|]. unfold goal_matches. simpl. by rewrite Hp, bool_decide_true.
Qed.

Lemma collect_child f : forall r g c, In g (collectChildren f d r) -> In c (getGoalChildren (g_id g) d) -> In c (collectChildren (S f) d r).
Proof.
  induction f as [|f IH]; intros r g c; [done|]. intros (c0 & Hc0 & [<-|Hg])%in_flat_map Hc; apply in_flat_map; exists c0; (split; [done|right]).
  - apply in_flat_map. exists c. split; [done|by left].
  - by apply (IH (g_id c0) g).
Qed.

Lemma collect_complete r x : (forall p, (length (select_where (goal_matches (of_parent (Some p))) t) <= 100)%nat) ->
  Desc t r x -> x = r \/ exists g, In g (collectChildren (length t) d r) /\ g_id g = x.
Proof.
  intros Hlim. pose proof (rank_le r t) as Hr. induction 1 as [|c p Hin Hp _ IH]; [by left|]. right. exists c. split; [|done].
  pose proof (children_complete c p (Hlim p) Hin Hp) as Hc.
  rewrite (collect_fuel (length t) r (S (length t))) by lia. destruct IH as [->|(g & Hg & <-)]; [|by apply collect_child with g].
  simpl. apply in_flat_map. exists c. split; [done|by left].
Qed.
End tree.

(** [getGoalTree] returns: with the number of goals as fuel the recursion has ended, more
    fuel changes nothing. It lists goals of the table, each once, the root first; they are
    goals that deleting the root removes, and all of those when no goal has more than 100
    children. *)
Theorem goal_tree_terminates ops root g0 :
  let d := goal_steps empty_goals ops in
  getGoal root d = Some g0 ->
  (forall extra, collectChildren (length (goals d) + extra) d root = collectChildren (length (goals d)) d root) /\
  head (getGoalTree root d) = Some g0 /\ List.NoDup (map g_id (getGoalTree root d)) /\
  (forall g, In g (getGoalTree root d) -> In g (goals d) /\ cascades root (goals d) (g_id g) = true) /\
  ((forall p, (length (select_where (goal_matches (of_parent (Some p))) (goals d)) <= 100)%nat) ->
   forall g, In g (goals d) -> cascades root (goals d) (g_id g) = true -> In g (getGoalTree root d)).
Proof.
  intros d Hg. assert (goals_ok d) as Hd by apply goal_steps_ok, empty_goals_ok.
  pose proof (get_row_Some _ _ _ Hg) as [Hin Hroot]. change (row_key g0) with (g_id g0) in Hroot.
  pose proof (rank_le root (goals d)) as Hr. unfold getGoalTree. rewrite Hg. split; [intros extra; apply collect_fuel; [done|lia..]|].
  split; [done|]. rewrite <- Hroot. split; [by apply collect_NoDup|].
  assert (forall id, cascades (g_id g0) (goals d) id = true <-> Desc (goals d) (g_id g0) id) as Hcas.
  { intros id. apply cascades_spec; [apply (ids_keyed _ Hd)|apply (parents_ok _ Hd)]. }
  split.
  - intros g H. rewrite Hcas. apply (collect_In d (length (goals d)) g0 g); [destruct H as [<-|H]; [by left|by right]|done].
  - intros Hlim g Hgin Hc%Hcas. destruct (collect_complete d Hd _ _ Hlim Hc) as [E|(g' & Hg' & E)].
    + left. by apply (keyed_unique (goals d)); [apply (ids_keyed _ Hd)|..].
    + right. replace g with g'; [done|]. apply (keyed_unique (goals d)); [apply (ids_keyed _ Hd)| |done|done].
      by apply (collect_In d (length (goals d)) g0 g'); [right|].
Qed.

(** ** A plan of three goals *)

Definition demo_opts (t : string) (p : option string) (s : option GoalStatus) (o : Z) : GoalOpts := mkGoalOpts p (default_text t) s (Some o).
Definition demo_goals : list GoalOp :=
  [OpCreateGoal "o" 1 objective (demo_opts "ship" None (Some g_active) 0);
   OpCreateGoal "k1" 2 key_result (demo_opts "tests" (Some "o") None 1);
   OpCreateGoal "k2" 3 key_result (demo_opts "docs" (Some "o") None 0);
   OpCreateGoal "t" 4 task (demo_opts "unit tests" (Some "k1") None 0);
   OpScore "p1" "t" (tenths 4) "half way" "user" 5; OpScore "p2" "t" (num_of_Z 3) "done" "user" 6;
   OpAutoDetect "p3" "t" "Activity detected" 7; OpCreateGoal "bad" 8 task (demo_opts "orphan" (Some "gone") None 0)].

Example demo_tree : map g_id (getGoalTree "o" (goal_steps empty_goals demo_goals)) = ["o"; "k2"; "k1"; "t"].
Proof. vm_compute. reflexivity. Qed.

Example demo_deleted : map g_id (goals (goal_step (goal_steps empty_goals demo_goals) (OpDeleteGoal "k1"))) = ["o"; "k2"].
Proof. vm_compute. reflexivity. Qed.

Lemma goal_tree_terminates_witness :
  let d := goal_steps empty_goals demo_goals in
  collectChildren (length (goals d) + 7) d "o" = collectChildren (length (goals d)) d "o".
Proof. exact (proj1 (goal_tree_terminates demo_goals "o" (mkGoal "o" None objective (default_text "ship") zero None g_active on_track (Some 1) zero no_stage None 0 1 1 None) eq_refl) 7%nat). Defined.

(** The hourly refresh reads the active goals with the default limit: with a hundred of them
    ahead in the order, the health of the next one is never recalculated. *)
Definition numbered (n : nat) : string := "g" +:+ show_z (Z.of_nat n).
Definition many_goals : list GoalOp :=
  map (fun n => OpCreateGoal (numbered n) 1 task (demo_opts "small" None (Some g_active) (Z.of_nat n))) (seq 0 101).

Example last_goal_not_refreshed :
  let d := goal_steps empty_goals many_goals in
  let d' := goal_step d (OpRefreshHealth 2) in
  (health <$> getGoal (numbered 99) d') = Some behind /\ (health <$> getGoal (numbered 100) d') = Some on_track /\
  (calculateHealth 2 <$> getGoal (numbered 100) d') = Some behind.
Proof. vm_compute. done. Qed.
