(* ===== verification/WorkItems.v ===== *)
(** * Today work items (goals/work-items.ts, goals/workflow-bridge.ts)

    A work item extends a commitment with a proposal, the user's decision on it, the run
    it starts and the check of its result. The operations read and write the vault's
    tables and those of the workflows in one database, so the state is all of them; a
    throw inside a transaction leaves it unchanged ([st]). JSON columns hold their
    values, except [input], which is kept as the text the code stores. *)
From S2P Require Export RunHandler Commitments Goals.
From S2P Require Export Effects.

(** ** Data *)

Inductive WorkMode := work_manual | work_workflow.
Inductive WorkOutcome := accepted | rejected_work.
Inductive Verdict := passed | failed_check.
#[global] Instance WorkMode_eq : EqDecision WorkMode. Proof. solve_decision. Defined.
#[global] Instance WorkOutcome_eq : EqDecision WorkOutcome. Proof. solve_decision. Defined.
#[global] Instance Verdict_eq : EqDecision Verdict. Proof. solve_decision. Defined.

Record WorkDecision := mkDecision { wd_id : string; wd_outcome : WorkOutcome; wd_reason : string; wd_decidedAt : Z }.

Inductive WorkBlockerKind := blocker_manual | blocker_waitpoint | blocker_missing_run | blocker_run_failure | blocker_result_check.
#[global] Instance WorkBlockerKind_eq : EqDecision WorkBlockerKind. Proof. solve_decision. Defined.
Record WorkBlocker := mkBlocker { wb_kind : WorkBlockerKind; wb_ref : option string; wb_reason : string }.

Record ResultCheck := mkCheck {
  rc_id : string; verdict : Verdict; rc_summary : string; evidence : list (string * string); checkedAt : Z;
  rc_runId : option string; runSnapshot : option FlowRunRow; goalProgressId : option string }.

(** The part of a row the decision freezes. *)
Record WorkConfig := mkWorkConfig {
  w_goal_id : option string; w_mode : WorkMode; w_workflow_id : option string; w_version_id : option string; w_input : string }.

Record WorkRow := mkWorkRow {
  work_id : string; w_plan_id : option string; w_action_index : option nat; w_config : WorkConfig;
  w_decision : option WorkDecision; w_run_id : option string; w_blocker : option string; w_result_check : option ResultCheck;
  w_updated_at : Z }.
#[global] Instance work_row : Row WorkRow := work_id.

Inductive WorkStatus := proposed | rejected | ready | running_work | blocked | needs_check | verified | failed_work.

Record WorkItem := mkWorkItem {
  it_row : WorkRow; it_title : string; it_input : json; it_run : option FlowRunRow; it_blocker : option WorkBlocker;
  it_status : WorkStatus; it_createdAt : Z; it_updatedAt : Z }.

(** [available]: the flow_run table exists. *)
Record Vault := mkVault { vault_run : RunWorld; vault_goals : GoalDb; vault_commitments : list CommitmentRow; vault_items : list WorkRow; available : bool }.
Definition with_items (t : list WorkRow) (v : Vault) : Vault := mkVault (vault_run v) (vault_goals v) (vault_commitments v) t (available v).
Definition with_cms (t : list CommitmentRow) (v : Vault) : Vault := mkVault (vault_run v) (vault_goals v) t (vault_items v) (available v).
Definition with_goaldb (g : GoalDb) (v : Vault) : Vault := mkVault (vault_run v) g (vault_commitments v) (vault_items v) (available v).
Definition with_run (w : RunWorld) (v : Vault) : Vault := mkVault w (vault_goals v) (vault_commitments v) (vault_items v) (available v).

(** [WorkItemError], or another error of the database. *)
Inductive WorkError := WorkItemError (message : string) (status : Z) | vault_error (message : string).
Notation work_op A := (st WorkError Vault A).

Definition reads {A} (f : Vault -> A) : work_op A := fun v => inr (f v, v).
Definition writes_to (f : Vault -> Vault) : work_op () := fun v => inr ((), f v).
Definition refuse {A} (m : string) (s : Z) : work_op A := throw (WorkItemError m s).
Definition check_that (b : bool) (m : string) (s : Z) : work_op () := if b then mret () else refuse m s.

(** ** Input validation *)

Definition row (id : string) : work_op WorkRow :=
  v ← reads vault_items; match get_row id v with Some w => mret w | None => refuse "Work item not found" 404 end.

Definition requiredText (value : option json) (name : string) : work_op string :=
  match value with
  | Some (JStr s) =>
      if truthy (trim s) && (Z.of_nat (String.length s) <=? 10000) then mret (trim s)
      else refuse (name +:+ " must be non-empty text of at most 10000 characters") 400
  | _ => refuse (name +:+ " must be non-empty text of at most 10000 characters") 400
  end.

Definition object (value : option json) : work_op (list (string * json)) :=
  match value with Some (JObj fields) => mret fields | _ => refuse "Expected an object" 400 end.

(** ** Reading *)

Definition cancelledReason (c : option RunCancellation) : option string :=
  match c with
  | None => None
  | Some c => Some (if inFlightMayHaveCompleted c
                    then "Execution was cancelled; its effects are uncertain. Inspect any partial results before proposing another run."
                    else "Execution was cancelled before it could start.")
  end.

Definition failure_reason (run : FlowRunRow) (d : Db) : string :=
  match failed_step run with
  | Some (mkFailedStep _ _ (Some m)) => m
  | _ => cancelledReason (getRunCancellation (run_id run) d) ?? status_text (run_status run)
  end.

Definition linked_run (w : WorkRow) (v : Vault) : option FlowRunRow :=
  match w_run_id w with Some (String _ _ as rid) => if available v then getFlowRun rid (rw_db (vault_run v)) else None | _ => None end.

Definition open_waitpoints (run : FlowRunRow) (v : Vault) : list WaitpointRow :=
  listWaitpointsByFlowRun (run_id run) (Some false) (rw_db (vault_run v)).

Definition outcome_is (o : WorkOutcome) (w : WorkRow) : bool :=
  match w_decision w with Some d => bool_decide (wd_outcome d = o) | None => false end.

(** The status and blocker before a result check. *)
Definition run_standing (w : WorkRow) (run : option FlowRunRow) (v : Vault) : WorkStatus * option WorkBlocker :=
  let blocker := match w_blocker w with Some (String _ _ as r) => Some (mkBlocker blocker_manual None r) | _ => None end in
  let status := match w_decision w with Some d => if bool_decide (wd_outcome d = rejected_work) then rejected else ready | None => proposed end in
  match w_run_id w with
  | Some (String _ _ as rid) =>
      match run with
      | None => (blocked, Some (mkBlocker blocker_missing_run (Some rid) "Linked run is unavailable"))
      | Some r =>
          if negb (includes (run_status r) [RUN_QUEUED; RUN_RUNNING; RUN_PAUSED; RUN_SUCCEEDED])
          then (failed_work, Some (mkBlocker blocker_run_failure (Some (run_id r)) (failure_reason r (rw_db (vault_run v)))))
          else match head (open_waitpoints r v) with
               | Some wp => (blocked, Some (mkBlocker blocker_waitpoint (Some (wp_id wp)) ("Waiting at " +:+ wp_step_name wp)))
               | None =>
                   if bool_decide (run_status r = RUN_PAUSED)
                   then (blocked, Some (mkBlocker blocker_waitpoint (Some (run_id r)) "Run is paused"))
                   else if includes (run_status r) [RUN_RUNNING; RUN_QUEUED] then (running_work, blocker)
                   else (needs_check, blocker)
               end
      end
  | _ => (if truthy_opt (w_blocker w) && outcome_is accepted w then blocked else status, blocker)
  end.

Definition standing (w : WorkRow) (run : option FlowRunRow) (v : Vault) : WorkStatus * option WorkBlocker :=
  match w_result_check w with
  | Some c => match verdict c with
              | passed => (verified, None)
              | failed_check => (failed_work, Some (mkBlocker blocker_result_check (Some (rc_id c)) (rc_summary c)))
              end
  | None => run_standing w run v
  end.

(** [JSON.parse] of the stored text, which [stringify] wrote. *)
Definition item_of (w : WorkRow) (c : CommitmentRow) (v : Vault) : WorkItem :=
  let run := linked_run w v in
  mkWorkItem w (what c) (parse (w_input (w_config w)) ?? JNull) run (standing w run v).2 (standing w run v).1 (cm_created_at c)
    (Z.max (w_updated_at w) match run with Some r => run_updated r | None => 0 end).

Definition getWorkItem (id : string) : work_op WorkItem :=
  w ← row id;
  c ← reads (fun v => getCommitment id (vault_commitments v));
  match c with Some c => reads (item_of w c) | None => throw (vault_error "null is not an object") end.

(** ** Listing *)

Record WorkFilter := mkWorkFilter { f_planId : option string; f_goalId : option string; f_today : option (Z * Z) }.

(** A linked row with its commitment, as the JOIN yields it. [f_today]: the local day's bounds. *)
Definition in_filter (f : WorkFilter) (e : WorkRow * CommitmentRow) : bool :=
  match f_planId f with Some p => bool_decide (w_plan_id e.1 = Some p) | None => true end &&
  match f_goalId f with Some g => bool_decide (w_goal_id (w_config e.1) = Some g) | None => true end &&
  match f_today f with Some (s, e') => (s <=? cm_created_at e.2) && (cm_created_at e.2 <? e') | None => true end.

(** [ORDER BY c.created_at, w.action_index, w.work_id], null indexes first. *)
Definition index_order (a b : option nat) : comparison :=
  match a, b with None, None => Eq | None, Some _ => Lt | Some _, None => Gt | Some x, Some y => Nat.compare x y end.
Definition item_order (a b : WorkRow * CommitmentRow) : bool :=
  match Z.compare (cm_created_at a.2) (cm_created_at b.2) with
  | Lt => true | Gt => false
  | Eq => match index_order (w_action_index a.1) (w_action_index b.1) with
          | Lt => true | Gt => false
          | Eq => match String.compare (work_id a.1) (work_id b.1) with Gt => false | _ => true end
          end
  end.

Definition joined (v : Vault) : list (WorkRow * CommitmentRow) :=
  flat_map (fun w => match getCommitment (work_id w) (vault_commitments v) with Some c => [(w, c)] | None => [] end) (vault_items v).

Definition listWorkItems (f : WorkFilter) : work_op (list WorkItem) :=
  l ← reads (fun v => sort_by item_order (List.filter (in_filter f) (joined v)));
  each (fun e => getWorkItem (work_id e.1)) l.

(** ** Creation and configuration *)

Definition new_config (goal : option string) : WorkConfig := mkWorkConfig goal work_manual None None "{}".
Definition new_row (id : string) (plan : option string) (index : option nat) (goal : option string) (now : Z) : WorkRow :=
  mkWorkRow id plan index (new_config goal) None None None None now.

Definition insert_commitment (id text : string) (from : option string) (now : Z) : work_op () :=
  t ← reads vault_commitments;
  match createCommitment id now text (mkCommitmentOpts None None None None from None) t with
  | Some (t', _) => writes_to (with_cms t')
  | None => throw (vault_error "UNIQUE constraint failed: commitments.id")
  end.

Definition insert_item (w : WorkRow) : work_op () :=
  t ← reads vault_items;
  match insert_row w t with Some t' => writes_to (with_items t') | None => throw (vault_error "UNIQUE constraint failed: commitment_work.work_id") end.

Definition update_item (id : string) (f : WorkRow -> WorkRow) : work_op () :=
  writes_to (fun v => with_items (update_where (key_is id (fun _ => true)) f (vault_items v)).1 v).

Definition set_config (c : WorkConfig) (now : Z) (w : WorkRow) : WorkRow :=
  mkWorkRow (work_id w) (w_plan_id w) (w_action_index w) c (w_decision w) (w_run_id w) (w_blocker w) (w_result_check w) now.
Definition set_decision (d : WorkDecision) (now : Z) (w : WorkRow) : WorkRow :=
  mkWorkRow (work_id w) (w_plan_id w) (w_action_index w) (w_config w) (Some d) (w_run_id w) (w_blocker w) (w_result_check w) now.
Definition set_blocker (b : option string) (now : Z) (w : WorkRow) : WorkRow :=
  mkWorkRow (work_id w) (w_plan_id w) (w_action_index w) (w_config w) (w_decision w) (w_run_id w) b (w_result_check w) now.
Definition set_run (rid : string) (now : Z) (w : WorkRow) : WorkRow :=
  mkWorkRow (work_id w) (w_plan_id w) (w_action_index w) (w_config w) (w_decision w) (Some rid) (w_blocker w) (w_result_check w) now.
Definition set_check (c : ResultCheck) (w : WorkRow) : WorkRow :=
  mkWorkRow (work_id w) (w_plan_id w) (w_action_index w) (w_config w) (w_decision w) (w_run_id w) (w_blocker w) (Some c) (checkedAt c).

(** One action of a plan. *)
Definition plan_action (planId : string) (index : nat) (id : string) (title : json) (goalId : option string) (now : Z) : work_op WorkItem :=
  existing ← reads (fun v => List.find (fun w => bool_decide (w_plan_id w = Some planId) && bool_decide (w_action_index w = Some index)) (vault_items v));
  match existing with
  | Some w => getWorkItem (work_id w)
  | None =>
      t ← requiredText (Some title) "title";
      _ ← insert_commitment id t (Some ("goal_check_in:" +:+ planId)) now;
      plan ← reads (fun v => get_row planId (checkins (vault_goals v)));
      _ ← match plan with Some _ => mret () | None => throw (vault_error "FOREIGN KEY constraint failed") end;
      goal ← reads (fun v => match goalId with
                             | Some (String _ _ as g) => match getGoal g (vault_goals v) with Some _ => Some g | None => None end
                             | _ => None
                             end);
      _ ← insert_item (new_row id (Some planId) (Some index) goal now);
      getWorkItem id
  end.

(** [ids] are the ids generated for the actions, in order. *)
Fixpoint plan_actions (planId : string) (index : nat) (actions : list (string * json * option string)) (now : Z) : work_op (list WorkItem) :=
  match actions with
  | [] => mret []
  | (id, title, goalId) :: rest =>
      i ← plan_action planId index id title goalId now;
      l ← plan_actions planId (S index) rest now;
      mret (i :: l)
  end.
Definition createPlannedWork (planId : string) (actions : list (string * json * option string)) (now : Z) : work_op (list WorkItem) :=
  plan_actions planId 0 actions now.

(** [patch.k === undefined ? old : patch.k] *)
Definition patched (k : string) (patch : list (string * json)) (old : json) : json := match assoc_get k patch with Some v => v | None => old end.
Definition as_json (o : option string) : json := match o with Some s => JStr s | None => JNull end.

Definition ALLOWED : list string := ["goalId"; "mode"; "workflowId"; "workflowVersionId"; "input"].

Definition checked_goal (value : json) : work_op (option string) :=
  match value with
  | JNull => mret None
  | JStr g => known ← reads (fun v => getGoal g (vault_goals v)); match known with Some _ => mret (Some g) | None => refuse "Unknown goalId" 400 end
  | _ => refuse "Unknown goalId" 400
  end.

Definition checked_mode (value : json) : work_op WorkMode :=
  if jstr_is (Some value) "manual" then mret work_manual
  else if jstr_is (Some value) "workflow" then mret work_workflow
  else refuse "mode must be manual or workflow" 400.

(** The version exists, belongs to the flow, which exists, and is locked. *)
Definition locked_version (flowId versionId : string) (v : Vault) : bool :=
  match get_row flowId (flows (rw_flows (vault_run v))), get_row versionId (versions (rw_flows (vault_run v))) with
  | Some _, Some ver => bool_decide (fv_flow_id ver = flowId) && bool_decide (fv_state ver = LOCKED)
  | _, _ => false
  end.

Definition checked_target (mode : WorkMode) (workflowId versionId : json) : work_op (option string * option string) :=
  match mode with
  | work_workflow =>
      av ← reads available;
      _ ← check_that av "Workflow runtime is unavailable" 409;
      match workflowId, versionId with
      | JStr f, JStr ver =>
          ok ← reads (locked_version f ver);
          _ ← check_that ok "Choose a locked version belonging to the workflow" 400;
          mret (Some f, Some ver)
      | _, _ => refuse "workflowId and workflowVersionId are required" 400
      end
  | work_manual =>
      match workflowId, versionId with
      | JNull, JNull => mret (None, None)
      | _, _ => refuse "Manual work cannot reference a workflow" 400
      end
  end.

Definition configureWorkItem (id : string) (body : json) (now : Z) : work_op WorkItem :=
  patch ← object (Some body);
  w ← row id;
  _ ← check_that (match w_decision w with None => true | Some _ => false end)
        "Decided work is immutable; create a new proposal to change it" 409;
  _ ← check_that (forallb (fun kv => includes (fst kv) ALLOWED) patch) "Unknown work configuration field" 400;
  let c := w_config w in
  goal ← checked_goal (patched "goalId" patch (as_json (w_goal_id c)));
  mode ← checked_mode (patched "mode" patch (JStr (if bool_decide (w_mode c = work_manual) then "manual" else "workflow")));
  target ← checked_target mode (patched "workflowId" patch (as_json (w_workflow_id c))) (patched "workflowVersionId" patch (as_json (w_version_id c)));
  payload ← match assoc_get "input" patch with
            | None => mret (w_input c)
            | Some v => fields ← object (Some v); mret (stringify (JObj fields))
            end;
  _ ← check_that (Z.of_nat (String.length payload) <=? 256000) "input exceeds 256000 characters" 400;
  _ ← update_item id (set_config (mkWorkConfig goal mode target.1 target.2 payload) now);
  getWorkItem id.

Definition createWorkItem (id : string) (body : json) (now : Z) : work_op WorkItem :=
  input ← object (Some body);
  t ← requiredText (assoc_get "title" input) "title";
  _ ← insert_commitment id t None now;
  _ ← insert_item (new_row id None None None now);
  configureWorkItem id (JObj (List.filter (fun kv => negb (bool_decide (fst kv = "title"))) input)) now.

(** ** The decision and the blocker *)

Definition outcome_of (value : option json) : option WorkOutcome :=
  if jstr_is value "accepted" then Some accepted else if jstr_is value "rejected" then Some rejected_work else None.

(** [decId] is the id generated for the decision. *)
Definition decideWorkItem (id : string) (body : json) (decId : string) (now : Z) : work_op WorkItem :=
  input ← object (Some body);
  match outcome_of (assoc_get "outcome" input) with
  | None => refuse "outcome must be accepted or rejected" 400
  | Some outcome =>
      reason ← requiredText (assoc_get "reason" input) "reason";
      w ← row id;
      match w_decision w with
      | Some d => if bool_decide (wd_outcome d = outcome) && bool_decide (wd_reason d = reason) then getWorkItem id
                  else refuse "Work already has a decision" 409
      | None => _ ← update_item id (set_decision (mkDecision decId outcome reason now) now); getWorkItem id
      end
  end.

Definition setWorkBlocker (id : string) (body : json) (now : Z) : work_op WorkItem :=
  input ← object (Some body);
  reason ← match assoc_get "reason" input with
           | Some JNull => mret None
           | value => t ← requiredText value "reason"; mret (Some t)
           end;
  w ← row id;
  _ ← check_that (match w_result_check w with None => true | _ => false end && negb (truthy_opt (w_run_id w)) && outcome_is accepted w)
        "Only accepted, unstarted work can have a manual blocker" 409;
  _ ← update_item id (set_blocker reason now);
  getWorkItem id.

(** ** The check of the result *)

Definition verdict_of (value : option json) : option Verdict :=
  if jstr_is value "passed" then Some passed else if jstr_is value "failed" then Some failed_check else None.

Definition evidence_entry (entry : json) : work_op (string * string) :=
  e ← object (Some entry);
  r ← requiredText (assoc_get "ref" e) "evidence.ref";
  d ← requiredText (assoc_get "description" e) "evidence.description";
  mret (r, d).

Definition checked_evidence (value : option json) : work_op (list (string * string)) :=
  match value with
  | Some (JArr l) =>
      if (1 <=? length l)%nat && (length l <=? 20)%nat then each evidence_entry l
      else refuse "Provide 1-20 evidence references" 400
  | _ => refuse "Provide 1-20 evidence references" 400
  end.

(** The run allows this verdict. *)
Definition run_checkable (item : WorkItem) (vd : Verdict) : work_op () :=
  if bool_decide (w_mode (w_config (it_row item)) = work_workflow) then
    match it_run item with
    | None => refuse "A finished linked run is required" 409
    | Some r =>
        _ ← check_that (negb (includes (run_status r) [RUN_RUNNING; RUN_QUEUED; RUN_PAUSED])) "A finished linked run is required" 409;
        waiting ← reads (open_waitpoints r);
        _ ← check_that (negb (bool_decide (run_status r = RUN_SUCCEEDED)) || match waiting with [] => true | _ => false end)
              "Resolve outstanding run waitpoints before checking its result" 409;
        check_that (negb (bool_decide (vd = passed)) || bool_decide (run_status r = RUN_SUCCEEDED)) "A failed run cannot be verified as successful" 409
    end
  else mret ().

(** [goalScore]: absent, not a number, or a number. *)
Definition valid_score (gs : option number) (vd : Verdict) (goal : option string) : option (string * number) :=
  match gs, vd, goal with
  | Some s, passed, Some (String _ _ as g) => if is_finite_num s && negb (num_ltb s zero) && negb (num_ltb one s) then Some (g, s) else None
  | _, _, _ => None
  end.

(** [entry] is the id generated for the progress entry. *)
Definition apply_score (id checkId entry : string) (goalScore : option (option number)) (vd : Verdict) (goal : option string) (summary : string) (now : Z)
    : work_op (option string) :=
  match goalScore with
  | None => mret None
  | Some gs =>
      match valid_score gs vd goal with
      | None => refuse "goalScore requires a passed check, linked goal, and a number from 0 to 1" 400
      | Some (g, s) =>
          found ← reads (fun v => getGoal g (vault_goals v));
          match found with
          | None => refuse "Linked goal no longer exists" 409
          | Some goal =>
              d ← reads vault_goals;
              match record_score entry (g_id goal) manual s summary ("work_item:" +:+ id +:+ ":check:" +:+ checkId) now goal d with
              | Some d' => _ ← writes_to (with_goaldb d'); mret (Some entry)
              | None => throw (vault_error "UNIQUE constraint failed: goal_progress.id")
              end
          end
      end
  end.

Definition checkWorkResult (id : string) (body : json) (goalScore : option (option number)) (checkId entry : string) (now : Z) : work_op WorkItem :=
  input ← object (Some body);
  match verdict_of (assoc_get "verdict" input) with
  | None => refuse "verdict must be passed or failed" 400
  | Some vd =>
      summary ← requiredText (assoc_get "summary" input) "summary";
      ev ← checked_evidence (assoc_get "evidence" input);
      work ← getWorkItem id;
      let w := it_row work in
      _ ← check_that (match w_result_check w with None => true | _ => false end) "Result is already checked" 409;
      _ ← check_that (outcome_is accepted w && negb match it_blocker work with Some b => bool_decide (wb_kind b = blocker_manual) | None => false end)
            "Accept and unblock the work before checking its result" 409;
      _ ← run_checkable work vd;
      progress ← apply_score id checkId entry goalScore vd (w_goal_id (w_config w)) summary now;
      let check := mkCheck checkId vd summary ev now (w_run_id w) (it_run work) progress in
      _ ← update_item id (set_check check);
      _ ← writes_to (fun v => with_cms (update_row id (ended (if bool_decide (vd = passed) then completed else failed) (Some now) (Some summary))
                                          (vault_commitments v)) v);
      getWorkItem id
  end.

(** ** The run of an accepted item (workflow-bridge.ts) *)

Definition lift_db {A} (f : Db -> throws (Db * A)) : work_op A := fun v =>
  match f (rw_db (vault_run v)) with
  | inl e => inl (vault_error e)
  | inr (d', a) => inr (a, with_run (with_db (vault_run v) d') v)
  end.

Definition run_input (workId : string) (d : WorkDecision) (flowId versionId : string) (now : Z) : CreateFlowRunInput :=
  mkCreateRun flowId versionId None None false (Some ("work_item:" +:+ workId +:+ ":decision:" +:+ wd_id d)) (Some PRODUCTION) None (Some now) None None.
Definition run_job (rid flowId versionId : string) (payload : json) : EnqueueInput :=
  mkEnqueue RUN_FLOW (JObj [("runId", JStr rid); ("payload", payload)]) (Some rid) (Some flowId) (Some versionId) None None (Some 1).

(** [rid] and [jobId] are the ids generated for the run and its job; with a run it
    starts comes the input it queues. *)
Definition startWorkItemRun (project rid jobId : string) (workItemId workflowId : string) (now : Z) : work_op (FlowRunRow * option json) :=
  work ← getWorkItem workItemId;
  let w := it_row work in
  let c := w_config w in
  match w_version_id c with
  | Some (String _ _ as versionId) =>
      _ ← check_that (bool_decide (w_mode c = work_workflow) && bool_decide (w_workflow_id c = Some workflowId))
            "Work item does not reference this workflow" 409;
      match w_decision w with
      | Some (mkDecision _ accepted _ _ as d) =>
          match w_run_id w, it_run work with
          | Some (String _ _), None => refuse "Linked run is unavailable; create a new proposal to retry" 409
          | Some (String _ _), Some r => mret (r, None)
          | _, _ =>
              _ ← check_that (match it_blocker work, w_result_check w with None, None => true | _, _ => false end) "Work is blocked or already checked" 409;
              ok ← reads (locked_version workflowId versionId);
              _ ← check_that ok "The accepted workflow version is unavailable" 409;
              run ← lift_db (createFlowRun project rid now (run_input workItemId d workflowId versionId now));
              _ ← lift_db (enqueue jobId now (run_job (run_id run) workflowId versionId (it_input work)));
              _ ← update_item workItemId (set_run (run_id run) now);
              _ ← writes_to (fun v => with_cms (update_row workItemId (with_status active) (vault_commitments v)) v);
              mret (run, Some (it_input work))
          end
      | _ => refuse "Accept the work proposal before running it" 409
      end
  | _ => refuse "Work item does not reference this workflow" 409
  end.

(** ** Any sequence of operations *)

Inductive VaultOp :=
  | OpPlan (planId : string) (actions : list (string * json * option string)) (now : Z)
  | OpCreateItem (id : string) (body : json) (now : Z)
  | OpConfigure (id : string) (body : json) (now : Z)
  | OpDecide (id : string) (body : json) (decId : string) (now : Z)
  | OpBlocker (id : string) (body : json) (now : Z)
  | OpResult (id : string) (body : json) (goalScore : option (option number)) (checkId entry : string) (now : Z)
  | OpStartRun (rid jobId : string) (id workflowId : string) (now : Z)
  | OpRuns (e : RunEvent)
  | OpGoals (o : GoalOp)
  | OpCommitments (o : CommitmentOp).

(** A run started for a work item: the item and the id of the run. *)
Record Started := mkStarted { st_item : string; st_run : string }.

Definition settle {A} (v : Vault) (r : WorkError + (A * Vault)) : Vault := match r with inl _ => v | inr (_, v') => v' end.

Definition vault_step (project : string) (v : Vault) (op : VaultOp) : Vault * list Started :=
  match op with
  | OpPlan p l now => (settle v (createPlannedWork p l now v), [])
  | OpCreateItem id b now => (settle v (createWorkItem id b now v), [])
  | OpConfigure id b now => (settle v (configureWorkItem id b now v), [])
  | OpDecide id b i now => (settle v (decideWorkItem id b i now v), [])
  | OpBlocker id b now => (settle v (setWorkBlocker id b now v), [])
  | OpResult id b gs ci e now => (settle v (checkWorkResult id b gs ci e now v), [])
  | OpStartRun rid j id f now =>
      match startWorkItemRun project rid j id f now v with
      | inl _ => (v, [])
      | inr ((r, queued), v') => (v', match queued with Some _ => [mkStarted id (run_id r)] | None => [] end)
      end
  | OpRuns e => (with_run (run_event (vault_run v) e).1 v, [])
  | OpGoals o => (with_goaldb (goal_step (vault_goals v) o) v, [])
  | OpCommitments o => (with_cms (commitment_step (vault_commitments v) o) v, [])
  end.

Fixpoint vault_run_ops (project : string) (v : Vault) (ops : list VaultOp) : Vault * list Started :=
  match ops with
  | [] => (v, [])
  | op :: ops' => let '(v1, o1) := vault_step project v op in let '(v2, o2) := vault_run_ops project v1 ops' in (v2, o1 ++ o2)
  end.
