(* ===== verification/WorkContract.v ===== *)
(** * The contract of work items

    What docs/TODAY_WORK_ITEMS.md promises of the operations in [WorkItems], whatever else
    is done to the runs, goals and commitments between them: a decision freezes the
    proposal, an accepted item starts one run on exactly what was accepted, and a result
    is checked once, against a run that ended. *)
From S2P Require Export WorkItems.

#[local] Arguments getWorkItem : simpl never.
#[local] Arguments requiredText : simpl never.
#[local] Arguments mbind : simpl never.
#[local] Arguments mret : simpl never.

(** ** Operations that only read *)

Notation only_reads m := (respects (E := WorkError) (@eq Vault) m).

Lemma read_reads {A} (f : Vault -> A) : only_reads (reads f).
Proof. by intros v a v' [= _ <-]. Qed.
Lemma read_ret {A} (a : A) : only_reads (mret a : work_op A).
Proof. apply respects_ret, _. Qed.
Lemma read_refuse {A} m s : only_reads (refuse m s : work_op A).
Proof. apply respects_throw. Qed.
Lemma read_throw {A} e : only_reads (throw e : work_op A).
Proof. apply respects_throw. Qed.
Lemma read_check b m s : only_reads (check_that b m s).
Proof. unfold check_that. destruct b; [apply read_ret|apply read_refuse]. Qed.

Ltac read_only := repeat first
  [ apply read_reads | apply read_ret | apply read_refuse | apply read_throw | apply read_check
  | apply respects_bind; [apply _| |intros ?]
  | apply respects_each; [apply _|intros ? ?]
  | case_match ].

Lemma read_row id : only_reads (row id). Proof. unfold row. read_only. Qed.
Lemma read_text v n : only_reads (requiredText v n). Proof. unfold requiredText. read_only. Qed.
Lemma read_object v : only_reads (object v). Proof. unfold object. read_only. Qed.
Lemma read_item id : only_reads (getWorkItem id). Proof. unfold getWorkItem. repeat (read_only; try apply read_row). Qed.
Lemma read_goal v : only_reads (checked_goal v). Proof. unfold checked_goal. read_only. Qed.
Lemma read_mode v : only_reads (checked_mode v). Proof. unfold checked_mode. read_only. Qed.
Lemma read_target m a b : only_reads (checked_target m a b). Proof. unfold checked_target. read_only. Qed.
Lemma read_evidence v : only_reads (checked_evidence v).
Proof. unfold checked_evidence, evidence_entry. repeat (read_only; try apply read_text; try apply read_object). Qed.
Lemma read_checkable i vd : only_reads (run_checkable i vd). Proof. unfold run_checkable. read_only. Qed.

(** Invert one step of a successful operation; a step that only reads leaves the state. *)
Ltac step H :=
  let Hs := fresh "Hs" in
  apply bind_inr in H as (? & ? & Hs & H);
  first [ (let E := fresh in
           pose proof Hs as E;
           first [ apply read_object in E | apply read_text in E | apply read_row in E | apply read_item in E
                 | apply read_goal in E | apply read_mode in E | apply read_target in E | apply read_evidence in E
                 | apply read_checkable in E | apply read_check in E | apply read_reads in E ];
           match type of E with _ = ?v' => subst v' end) | idtac ].

Lemma check_true b m s v a v' : check_that b m s v = inr (a, v') -> b = true.
Proof. by destruct b. Qed.

Lemma row_get id v w v' : row id v = inr (w, v') -> get_row id (vault_items v) = Some w.
Proof.
  unfold row. intros (t & v1 & [= <- <-] & H)%bind_inr. destruct (get_row id (vault_items v)); [|done]. by injection H as ->.
Qed.

Lemma item_get id v i v' : getWorkItem id v = inr (i, v') ->
  exists w c, get_row id (vault_items v) = Some w /\ getCommitment id (vault_commitments v) = Some c /\ i = item_of w c v.
Proof.
  unfold getWorkItem. intros H. step H. apply row_get in Hs. apply bind_inr in H as (c & v1 & [= <- <-] & H).
  destruct (getCommitment id (vault_commitments v)) as [c|]; [|done]. injection H as <- _. by eexists _, c.
Qed.

(** ** What each operation writes *)

(** The row [id] through [f]. *)
Definition put (id : string) (f : WorkRow -> WorkRow) (v : Vault) : Vault :=
  with_items (update_where (key_is id (fun _ => true)) f (vault_items v)).1 v.

Lemma update_item_inr id f v a v' : update_item id f v = inr (a, v') -> v' = put id f v.
Proof. by intros [= _ <-]. Qed.

Lemma configure_shape id b now v i v' : configureWorkItem id b now v = inr (i, v') ->
  exists w c, get_row id (vault_items v) = Some w /\ w_decision w = None /\ v' = put id (set_config c now) v.
Proof.
  unfold configureWorkItem. intros H. do 3 step H. apply row_get in Hs0. apply check_true in Hs1. do 4 step H.
  apply bind_inr in H as (payload & v1 & Hp & H).
  assert (v1 = v) as ->.
  { destruct (assoc_get "input" _); [step Hp|]; by injection Hp as _ <-. }
  step H. apply bind_inr in H as (u & v1 & Hu%update_item_inr & H). apply read_item in H. subst.
  eexists _, _. split; [done|]. by destruct (w_decision _).
Qed.

Lemma decide_shape id b di now v i v' : decideWorkItem id b di now v = inr (i, v') ->
  v' = v \/ exists w o r, get_row id (vault_items v) = Some w /\ w_decision w = None /\
    v' = put id (set_decision (mkDecision di o r now) now) v.
Proof.
  unfold decideWorkItem. intros H. step H. destruct (outcome_of _) as [o|]; [|done]. do 2 step H. apply row_get in Hs1.
  destruct (w_decision _) as [d|] eqn:Ed.
  - destruct (_ && _); [|done]. apply read_item in H. by left.
  - apply bind_inr in H as (u & v1 & Hu%update_item_inr & H). apply read_item in H. subst. right. by eexists _, o, _.
Qed.

Lemma blocker_shape id b now v i v' : setWorkBlocker id b now v = inr (i, v') ->
  exists w r, get_row id (vault_items v) = Some w /\ w_result_check w = None /\ truthy_opt (w_run_id w) = false /\
    v' = put id (set_blocker r now) v.
Proof.
  unfold setWorkBlocker. intros H. step H. apply bind_inr in H as (reason & v1 & Hr & H).
  assert (v1 = v) as ->.
  { case_hyp Hr; try (by injection Hr as _ <-); step Hr; by injection Hr as _ <-. }
  do 2 step H. apply row_get in Hs0. apply check_true in Hs1. apply bind_inr in H as (u & v1 & Hu%update_item_inr & H).
  apply read_item in H. subst. exists x0, reason. split; [done|]. to_prop. by destruct (w_result_check x0).
Qed.

Lemma valid_score_spec gs vd goal g s : valid_score gs vd goal = Some (g, s) ->
  gs = Some s /\ vd = passed /\ goal = Some g /\ in_unit s = true.
Proof.
  unfold valid_score. destruct gs as [s'|], vd, goal as [[|a goal]|]; try done.
  destruct (_ && _) eqn:E; [|done]. intros [= <- <-]. apply andb_prop in E as [[Hf H1%negb_true_iff]%andb_prop H2%negb_true_iff].
  repeat (split; [done|]). unfold in_unit. by rewrite (ltb_leb s' zero), (ltb_leb one s').
Qed.

(** Scoring writes the goals only. *)
Lemma score_shape id ci e gs vd goal summary now v p v' : apply_score id ci e gs vd goal summary now v = inr (p, v') ->
  (gs = None /\ p = None /\ v' = v) \/
  exists g s d', gs = Some (Some s) /\ vd = passed /\ goal = Some (g_id g) /\ in_unit s = true /\ p = Some e /\ getGoal (g_id g) (vault_goals v) = Some g /\
    record_score e (g_id g) manual s summary ("work_item:" +:+ id +:+ ":check:" +:+ ci) now g (vault_goals v) = Some d' /\ v' = with_goaldb d' v.
Proof.
  unfold apply_score. destruct gs as [gs|]; [|intros [= <- <-]; by left].
  destruct (valid_score gs vd goal) as [[g s]|] eqn:Ev; [|done]. apply valid_score_spec in Ev as (-> & -> & -> & Hu). intros H. right.
  apply bind_inr in H as (fg & v1 & [= <- <-] & H). destruct (getGoal g (vault_goals v)) as [goal|] eqn:Eg; [|done].
  apply bind_inr in H as (d & v1 & [= <- <-] & H). destruct (record_score _ _ _ _ _ _ _ _ _) as [d'|] eqn:Er; [|done].
  apply bind_inr in H as (u & v1 & [= _ <-] & H). injection H as <- <-.
  assert (g_id goal = g) as <- by (by apply get_row_Some in Eg as [_ Eg]). by exists goal, s, d'.
Qed.

Lemma evidence_length v l s s' : checked_evidence v s = inr (l, s') -> (1 <= length l <= 20)%nat.
Proof.
  unfold checked_evidence. destruct v as [[]|]; try done. destruct (_ && _) eqn:E; [|done].
  apply andb_prop in E as [E1%Nat.leb_le E2%Nat.leb_le]. intros H. assert (length l = length items) as ->; [|done].
  clear E1 E2. revert l s H. induction items as [|x items IH]; intros l s H; [by injection H as <- _|].
  apply each_cons_inr in H as (y & ys & s1 & _ & H & ->). simpl. f_equal. by apply IH with s1.
Qed.

Lemma checkable_spec i vd v u v' : run_checkable i vd v = inr (u, v') -> w_mode (w_config (it_row i)) = work_workflow ->
  exists r, it_run i = Some r /\ includes (run_status r) [RUN_RUNNING; RUN_QUEUED; RUN_PAUSED] = false /\
    (run_status r = RUN_SUCCEEDED -> open_waitpoints r v = []) /\ (vd = passed -> run_status r = RUN_SUCCEEDED).
Proof.
  unfold run_checkable. intros H Hm. rewrite bool_decide_true in H by done. destruct (it_run i) as [r|]; [|done].
  step H. apply check_true, negb_true_iff in Hs. apply bind_inr in H as (wp & v1 & [= <- <-] & H). step H. apply check_true in Hs0.
  apply check_true in H. exists r. split; [done|]. split; [done|]. split.
  - intros E. rewrite bool_decide_true in Hs0 by done. by destruct (open_waitpoints r v).
  - intros ->. rewrite (bool_decide_true (passed = passed)) in H by done. by apply bool_decide_eq_true in H.
Qed.

(** The check a successful call records. *)
Definition recorded (id ci : string) (vd : Verdict) (summary : string) (ev : list (string * string)) (now : Z) (w : WorkRow) (v : Vault)
    (progress : option string) : ResultCheck := mkCheck ci vd summary ev now (w_run_id w) (linked_run w v) progress.

Lemma result_shape id body gs ci e now v item v' : checkWorkResult id body gs ci e now v = inr (item, v') ->
  exists w c vd summary ev progress v1, get_row id (vault_items v) = Some w /\ getCommitment id (vault_commitments v) = Some c /\
    w_result_check w = None /\ outcome_is accepted w = true /\ (1 <= length ev <= 20)%nat /\
    (w_mode (w_config w) = work_workflow -> exists r, linked_run w v = Some r /\
       includes (run_status r) [RUN_RUNNING; RUN_QUEUED; RUN_PAUSED] = false /\
       (run_status r = RUN_SUCCEEDED -> open_waitpoints r v = []) /\ (vd = passed -> run_status r = RUN_SUCCEEDED)) /\
    apply_score id ci e gs vd (w_goal_id (w_config w)) summary now v = inr (progress, v1) /\
    v' = with_cms (update_row id (ended (if bool_decide (vd = passed) then completed else failed) (Some now) (Some summary)) (vault_commitments v1))
           (put id (set_check (recorded id ci vd summary ev now w v progress)) v1).
Proof.
  unfold checkWorkResult. intros H. step H. destruct (verdict_of _) as [vd|]; [|done]. do 2 step H. apply evidence_length in Hs1.
  step H. apply item_get in Hs2 as (w & c & Hw & Hc & ->). do 3 step H. apply check_true in Hs2, Hs3.
  pose proof (fun E => checkable_spec _ _ _ _ _ Hs4 E) as Hr. simpl in *.
  apply bind_inr in H as (progress & v1 & Hsc & H). apply bind_inr in H as (u1 & v2 & Hu%update_item_inr & H). subst v2.
  apply bind_inr in H as (u2 & v2 & [= _ <-] & H). apply read_item in H. subst v'.
  exists w, c, vd, x0, x1, progress, v1. to_prop. destruct (w_result_check w); [done|]. done.
Qed.

(** The input of the proposal, as its JSON text says. *)
Definition accepted_input (w : WorkRow) : json := parse (w_input (w_config w)) ?? JNull.

(** What a call that starts a run has seen and written. *)
Record run_started (project rid jobId id f : string) (now : Z) (v : Vault) (r : FlowRunRow) (q : json) (v' : Vault) : Prop := {
  rs_row : exists w d ver, get_row id (vault_items v) = Some w /\ w_decision w = Some d /\ wd_outcome d = accepted /\
    truthy_opt (w_run_id w) = false /\ w_mode (w_config w) = work_workflow /\ w_workflow_id (w_config w) = Some f /\
    w_version_id (w_config w) = Some ver /\ locked_version f ver v = true /\ q = accepted_input w /\
    exists d1 d2 j, createFlowRun project rid now (run_input id d f ver now) (rw_db (vault_run v)) = inr (d1, r) /\
      enqueue jobId now (run_job (run_id r) f ver q) d1 = inr (d2, j) /\ rw_db (vault_run v') = d2;
  rs_items : vault_items v' = vault_items (put id (set_run (run_id r) now) v);
  rs_goals : vault_goals v' = vault_goals v }.

Lemma start_shape project rid jobId id f now v r q v' : startWorkItemRun project rid jobId id f now v = inr ((r, q), v') ->
  match q with None => v' = v | Some input => run_started project rid jobId id f now v r input v' end.
Proof.
  unfold startWorkItemRun. intros H. step H. apply item_get in Hs as (w & c & Hw & Hc & ->). simpl in H.
  destruct (w_version_id (w_config w)) as [[|a ver']|] eqn:Ever; try done. set (ver := String a ver') in *.
  step H. apply check_true in Hs. apply andb_prop in Hs as [Hm%bool_decide_eq_true Hf%bool_decide_eq_true].
  destruct (w_decision w) as [[di [|] dr dt]|] eqn:Ed; try done.
  assert (forall (m : work_op (FlowRunRow * option json)), m = (
              _ ← check_that (match (standing w (linked_run w v) v).2, w_result_check w with None, None => true | _, _ => false end) "Work is blocked or already checked" 409;
              ok ← reads (locked_version f ver);
              _ ← check_that ok "The accepted workflow version is unavailable" 409;
              run ← lift_db (createFlowRun project rid now (run_input id (mkDecision di accepted dr dt) f ver now));
              _ ← lift_db (enqueue jobId now (run_job (run_id run) f ver (parse (w_input (w_config w)) ?? JNull)));
              _ ← update_item id (set_run (run_id run) now);
              _ ← writes_to (fun v => with_cms (update_row id (with_status active) (vault_commitments v)) v);
              mret (run, Some (parse (w_input (w_config w)) ?? JNull))) ->
            m v = inr (r, q, v') -> truthy_opt (w_run_id w) = false ->
            match q with None => v' = v | Some input => run_started project rid jobId id f now v r input v' end) as Hfresh.
  { intros m -> Hr Hid. step Hr. apply bind_inr in Hr as (ok & v1 & [= <- <-] & Hr). step Hr. apply check_true in Hs0.
    apply bind_inr in Hr as (run & v1 & Hrun & Hr). apply bind_inr in Hr as (j & v2 & Hj & Hr).
    apply bind_inr in Hr as (u & v3 & Hu%update_item_inr & Hr). apply bind_inr in Hr as (u2 & v4 & [= _ <-] & Hr).
    injection Hr as <- <- <-. unfold lift_db in Hrun, Hj.
    destruct (createFlowRun _ _ _ _ _) as [e|[d1 r1]] eqn:Ec; [done|]. injection Hrun as -> <-.
    destruct (enqueue _ _ _ _) as [e|[d2 j2]] eqn:Ee; [done|]. injection Hj as _ <-. subst v3. split; [|done|done].
    exists w, (mkDecision di accepted dr dt), ver. repeat (split; [done|]). by exists d1, d2, j2. }
  destruct (w_run_id w) as [[|b rid']|] eqn:Erid.
  - by apply (Hfresh _ eq_refl H).
  - destruct (linked_run w v); [|done]. by injection H as <- <- <-.
  - by apply (Hfresh _ eq_refl H).
Qed.

(** ** What no operation undoes *)

Record row_ext (w w' : WorkRow) : Prop := {
  rx_id : work_id w' = work_id w;
  rx_plan : w_plan_id w' = w_plan_id w /\ w_action_index w' = w_action_index w;
  rx_decided : forall d, w_decision w = Some d -> w_decision w' = Some d /\ w_config w' = w_config w;
  rx_run : truthy_opt (w_run_id w) = true -> w_run_id w' = w_run_id w /\ w_blocker w' = w_blocker w;
  rx_check : forall c, w_result_check w = Some c -> w_result_check w' = Some c }.

Record items_ext (v v' : Vault) : Prop := {
  ix_keyed : keyed (vault_items v) -> keyed (vault_items v');
  ix_rows : forall id w, get_row id (vault_items v) = Some w -> exists w', get_row id (vault_items v') = Some w' /\ row_ext w w' }.

#[export] Instance row_ext_preorder : PreOrder row_ext.
Proof.
  split.
  - intros w. split; auto.
  - intros w1 w2 w3 [A1 [B1 B1'] C1 D1 E1] [A2 [B2 B2'] C2 D2 E2]. split; [congruence|split; congruence| | |].
    + intros d Hd. destruct (C1 d Hd) as [H1 H1']. destruct (C2 d H1) as [H2 H2']. split; congruence.
    + intros Ht. destruct (D1 Ht) as [H1 H1']. rewrite <- H1 in Ht. destruct (D2 Ht). split; congruence.
    + eauto.
Qed.

#[export] Instance items_ext_preorder : PreOrder items_ext.
Proof.
  split.
  - intros v. split; [done|]. intros id w Hw. exists w. split; [done|reflexivity].
  - intros v1 v2 v3 [K1 R1] [K2 R2]. split; [auto|]. intros id w Hw. destruct (R1 id w Hw) as (w2 & H2 & E2).
    destruct (R2 id w2 H2) as (w3 & H3 & E3). exists w3. split; [done|]. by transitivity w2.
Qed.

Lemma ext_same v v' : vault_items v' = vault_items v -> items_ext v v'.
Proof. intros E. split; rewrite E; [done|]. intros id w Hw. exists w. split; [done|reflexivity]. Qed.

Lemma put_get id f v k : (forall w, work_id (f w) = work_id w) ->
  get_row k (vault_items (put id f v)) = (if bool_decide (k = id) then f <$> get_row k (vault_items v) else get_row k (vault_items v)).
Proof.
  intros Hf. assert (KeepsKey f) by exact Hf. unfold put, with_items. cbn [vault_items]. rewrite get_row_update by done.
  destruct (get_row k (vault_items v)) as [w|] eqn:E; simpl; [|by case_bool_decide].
  apply get_row_Some in E as [_ E]. unfold key_is. rewrite andb_true_r, E. by case_bool_decide.
Qed.

Lemma ext_put id f v w : (forall w, work_id (f w) = work_id w) -> get_row id (vault_items v) = Some w -> row_ext w (f w) -> items_ext v (put id f v).
Proof.
  intros Hf Hw Hx. assert (KeepsKey f) by exact Hf. split; [by apply update_keyed|].
  intros k w1 Hk. rewrite put_get by done. case_bool_decide; [subst|]; rewrite Hk; simpl; eexists; (split; [done|]); [congruence|reflexivity].
Qed.

Notation extends m := (respects (E := WorkError) items_ext m).

Lemma ext_reads {A} (m : work_op A) : only_reads m -> extends m.
Proof. intros H v a v' E. apply H in E as <-. reflexivity. Qed.

Lemma ext_insert w : extends (insert_item w).
Proof.
  intros v a v' H. unfold insert_item in H. apply bind_inr in H as (t & v1 & [= <- <-] & H).
  destruct (insert_row w (vault_items v)) as [t'|] eqn:Ei; [|done]. injection H as _ <-. split; simpl; [exact (insert_row_keyed _ _ _ Ei)|].
  intros id w1 Hw1. exists w1. split; [|reflexivity]. rewrite (get_row_insert _ _ _ id Ei). case_bool_decide as E; [|done].
  exfalso. unfold insert_row in Ei. rewrite E, Hw1 in Ei. done.
Qed.

Lemma ext_commitment i t f n : extends (insert_commitment i t f n).
Proof.
  intros v a v' H. unfold insert_commitment in H. apply bind_inr in H as (t0 & v1 & [= <- <-] & H).
  destruct (createCommitment _ _ _ _ _) as [[t' c]|]; [|done]. injection H as _ <-. by apply ext_same.
Qed.

Lemma ext_configure id b now : extends (configureWorkItem id b now).
Proof.
  intros v i v' (w & c & Hw & Hd & ->)%configure_shape. apply (ext_put id _ v w); [done..|]. split; simpl; auto. by rewrite Hd.
Qed.

Lemma ext_decide id b di now : extends (decideWorkItem id b di now).
Proof.
  intros v i v' [->|(w & o & r & Hw & Hd & ->)]%decide_shape; [reflexivity|]. apply (ext_put id _ v w); [done..|]. split; simpl; auto. by rewrite Hd.
Qed.

Lemma ext_blocker id b now : extends (setWorkBlocker id b now).
Proof.
  intros v i v' (w & r & Hw & Hc & Hr & ->)%blocker_shape. apply (ext_put id _ v w); [done..|]. split; simpl; auto. by rewrite Hr.
Qed.

Lemma score_items id ci e gs vd goal s now v p v' : apply_score id ci e gs vd goal s now v = inr (p, v') -> vault_items v' = vault_items v.
Proof. by intros [(_ & _ & ->)|(g & sc & d' & _ & _ & _ & _ & _ & _ & _ & ->)]%score_shape. Qed.

Lemma ext_result id b gs ci e now : extends (checkWorkResult id b gs ci e now).
Proof.
  intros v i v' (w & c & vd & s & ev & p & v1 & Hw & _ & Hc & _ & _ & _ & Hs%score_items & ->)%result_shape.
  transitivity v1; [by apply ext_same|].
  transitivity (put id (set_check (recorded id ci vd s ev now w v p)) v1); [|by apply ext_same].
  apply (ext_put id _ v1 w); [done|by rewrite Hs|]. split; simpl; auto. by rewrite Hc.
Qed.

Lemma ext_start project rid j id f now : extends (startWorkItemRun project rid j id f now).
Proof.
  intros v [r [q|]] v' H%start_shape; [|subst; reflexivity]. destruct H as [(w & d & ver & Hw & _ & _ & Hr & _) Hi _].
  transitivity (put id (set_run (run_id r) now) v); [|by apply ext_same]. apply (ext_put id _ v w); [done..|]. split; simpl; auto. by rewrite Hr.
Qed.

Ltac extending := repeat first
  [ apply ext_insert | apply ext_commitment | apply ext_configure
  | apply ext_reads, read_item | apply ext_reads, read_text | apply ext_reads, read_object | apply ext_reads, read_reads
  | apply ext_reads, read_ret | apply ext_reads, read_throw | apply respects_bind; [apply _| |intros ?] | case_match ].

Lemma ext_plan p l now : extends (createPlannedWork p l now).
Proof.
  unfold createPlannedWork. generalize 0%nat as n. induction l as [|[[id title] goal] l IH]; intros n; simpl; [by extending|].
  apply respects_bind; [apply _| |intros i; apply respects_bind; [apply _|apply IH|intros ?; by extending]].
  unfold plan_action. by extending.
Qed.

Lemma ext_create id b now : extends (createWorkItem id b now).
Proof. unfold createWorkItem. by extending. Qed.

Lemma ext_settle {A} (m : work_op A) v : extends m -> items_ext v (settle v (m v)).
Proof. intros Hm. unfold settle. destruct (m v) as [e|[a v']] eqn:E; [reflexivity|by apply Hm in E]. Qed.

Lemma step_ext project v op : items_ext v (vault_step project v op).1.
Proof.
  destruct op; simpl; try (by apply ext_same);
    [apply ext_settle, ext_plan|apply ext_settle, ext_create|apply ext_settle, ext_configure|apply ext_settle, ext_decide
    |apply ext_settle, ext_blocker|apply ext_settle, ext_result|].
  destruct (startWorkItemRun _ _ _ _ _ _ _) as [e|[[r q] v']] eqn:E; [reflexivity|]. by apply ext_start in E.
Qed.

Lemma run_ext project ops : forall v, items_ext v (vault_run_ops project v ops).1.
Proof.
  induction ops as [|op ops IH]; intros v; simpl; [reflexivity|]. pose proof (step_ext project v op) as H1.
  destruct (vault_step project v op) as [v1 o1]. specialize (IH v1). destruct (vault_run_ops project v1 ops) as [v2 o2]. by transitivity v1.
Qed.

(** ** The theorems *)

(** A decided proposal is frozen: whatever follows, its decision, its goal, mode, workflow,
    version and input stay as decided; the run it has started stays its run; and a recorded
    result check is never replaced. *)
Theorem decided_work_is_frozen project v ops v' log id w d :
  vault_run_ops project v ops = (v', log) -> get_row id (vault_items v) = Some w -> w_decision w = Some d ->
  exists w', get_row id (vault_items v') = Some w' /\ w_decision w' = Some d /\ w_config w' = w_config w /\
    (truthy_opt (w_run_id w) = true -> w_run_id w' = w_run_id w) /\ (forall c, w_result_check w = Some c -> w_result_check w' = Some c).
Proof.
  intros Hr Hw Hd. pose proof (run_ext project ops v) as [_ Hx]. rewrite Hr in Hx. destruct (Hx id w Hw) as (w' & Hw' & [_ _ Hdec Hrun Hc]).
  exists w'. destruct (Hdec d Hd). split; [done|]. split; [done|]. split; [done|]. split; [|done]. intros Ht. by apply Hrun.
Qed.

(** [generateId] never gives the empty text. *)
Definition real_ids (op : VaultOp) : Prop := match op with OpStartRun rid _ _ _ _ => rid <> EmptyString | _ => True end.

(** The item of a started run, as it is in the table. *)
Definition runs_accepted (s : Started) (v : Vault) : Prop :=
  exists w d, get_row (st_item s) (vault_items v) = Some w /\ w_decision w = Some d /\ wd_outcome d = accepted /\
    w_run_id w = Some (st_run s) /\ st_run s <> EmptyString /\ w_mode (w_config w) = work_workflow.

Lemma runs_accepted_ext s v v' : items_ext v v' -> runs_accepted s v -> runs_accepted s v'.
Proof.
  intros [_ Hx] (w & d & Hw & Hd & Ho & Hr & Hne & H). destruct (Hx _ w Hw) as (w' & Hw' & [_ _ Hdec Hrun _]).
  destruct (Hdec d Hd) as [Hd' Hc']. destruct Hrun as [Hr' _]; [rewrite Hr; by destruct (st_run s)|].
  exists w', d. rewrite Hc', Hr'. done.
Qed.

(** What the tables of the runs and the jobs show of the start of run [rid] for item [id] with row [w]. *)
Record starts_run (db db' : Db) (rid jobId id f : string) (w : WorkRow) : Prop := {
  sr_run : get_row rid (runs db) = None /\ exists r d, get_row rid (runs db') = Some r /\
    run_flow_id r = f /\ w_workflow_id (w_config w) = Some f /\ w_version_id (w_config w) = Some (run_flow_version_id r) /\
    environment r = PRODUCTION /\ run_status r = RUN_QUEUED /\
    w_decision w = Some d /\ wd_outcome d = accepted /\ triggered_by r = Some ("work_item:" +:+ id +:+ ":decision:" +:+ wd_id d);
  sr_job : get_row jobId (jobs db) = None /\ exists j, get_row jobId (jobs db') = Some j /\
    job_type j = RUN_FLOW /\ job_flow_run_id j = Some rid /\ job_flow_id j = Some f /\
    job_flow_version_id j = w_version_id (w_config w) /\ job_status j = JOB_QUEUED /\
    job_payload j = stringify (JObj [("runId", JStr rid); ("payload", accepted_input w)]);
  sr_others : (forall k, k <> rid -> get_row k (runs db') = get_row k (runs db)) /\
    (forall k, k <> jobId -> get_row k (jobs db') = get_row k (jobs db)) }.

Lemma starts_run_ext db db' rid jobId id f w w' : row_ext w w' -> starts_run db db' rid jobId id f w -> starts_run db db' rid jobId id f w'.
Proof.
  intros [_ _ Hdec _ _] [(Hf & r & d & H1 & H2 & H3 & H4 & H5 & H6 & Hd & H7) Hj Ho].
  destruct (Hdec d Hd) as [Hd' Hc']. split; [split; [done|]|unfold accepted_input; by rewrite Hc'|done].
  exists r, d. by rewrite Hc', Hd'.
Qed.

Lemma enqueue_rows id ts i d d' j : enqueue id ts i d = inr (d', j) -> runs d' = runs d /\ get_row id (jobs d) = None /\
  get_row id (jobs d') = Some (new_job id ts i) /\ forall k, k <> id -> get_row k (jobs d') = get_row k (jobs d).
Proof.
  unfold enqueue. destruct (enqueue_refused i d); [done|]. destruct (insert_row (new_job id ts i) (jobs d)) as [t|] eqn:Et; [|done].
  destruct (rowToJob _); [done|]. intros [= <- _]. split; [done|]. cbn [jobs set_jobs]. split; [|split].
  - exact (insert_row_fresh _ _ _ Et).
  - rewrite (get_row_insert _ _ _ _ Et). by rewrite bool_decide_true.
  - intros k Hk. rewrite (get_row_insert _ _ _ _ Et). by rewrite bool_decide_false by (intros E; by destruct Hk).
Qed.

(** A started run: its item had none, and the tables gained the run and its job. *)
Lemma step_starts project v op s : real_ids op -> In s (vault_step project v op).2 ->
  (exists w, get_row (st_item s) (vault_items v) = Some w /\ truthy_opt (w_run_id w) = false) /\
  runs_accepted s (vault_step project v op).1 /\ (vault_step project v op).2 = [s].
Proof.
  destruct op; simpl; try done. intros Hne.
  destruct (startWorkItemRun project rid jobId id workflowId now v) as [e|[[r [q|]] v']] eqn:E; try done.
  intros [<-|[]]. apply start_shape in E as [(w & d & ver & Hw & Hd & Ho & Hr & Hm & Hf & Hv & _ & Hq & d1 & d2 & j & Hc & _) Hi _]. simpl.
  split; [by exists w|]. split; [|done].
  unfold createFlowRun in Hc. cbv zeta in Hc. destruct (insert_row _ (runs _)) as [t|]; [|done]. injection Hc as _ Er.
  assert (get_row id (vault_items v') = Some (set_run (run_id r) now w)) as Hw'.
  { rewrite Hi, put_get by done. by rewrite bool_decide_true, Hw by done. }
  exists (set_run (run_id r) now w), d. rewrite <- Er in *. simpl. repeat (split; [done|]). done.
Qed.

Lemma start_tables project v rid jobId id f now : rid <> EmptyString ->
  let '(v', log) := vault_step project v (OpStartRun rid jobId id f now) in
  match log with
  | [] => vault_run v' = vault_run v
  | s :: _ => s = mkStarted id rid /\ exists w, get_row id (vault_items v') = Some w /\
      starts_run (rw_db (vault_run v)) (rw_db (vault_run v')) rid jobId id f w
  end.
Proof.
  intros Hne. simpl. destruct (startWorkItemRun project rid jobId id f now v) as [e|[[r [q|]] v']] eqn:E; [done| |]; apply start_shape in E; [|by subst].
  destruct E as [(w & d & ver & Hw & Hd & Ho & _ & _ & Hf & Hv & _ & Hq & d1 & d2 & j & Hc & He & <-) Hi _].
  unfold createFlowRun in Hc. cbv zeta in Hc. destruct (insert_row _ (runs _)) as [t|] eqn:Et; [|done]. injection Hc as <- <-.
  apply enqueue_rows in He as (Hruns & Hj0 & Hj1 & Hj2). split; [done|]. exists (set_run rid now w).
  split; [rewrite Hi, put_get by done; by rewrite bool_decide_true, Hw by done|]. split.
  - split; [exact (insert_row_fresh _ _ _ Et)|].
    eexists _, d. rewrite Hruns. cbn [runs set_runs]. rewrite (get_row_insert _ _ _ _ Et). rewrite bool_decide_true by done. by split_and!.
  - split; [exact Hj0|]. eexists. split; [exact Hj1|]. cbn. rewrite Hv, Hq. done.
  - split; [|exact Hj2]. intros k Hk. rewrite Hruns. cbn [runs set_runs]. rewrite (get_row_insert _ _ _ _ Et).
    by rewrite bool_decide_false by (intros E; by destruct Hk).
Qed.

Lemma run_ops_app project ops1 : forall v ops2, vault_run_ops project v (ops1 ++ ops2) =
  ((vault_run_ops project (vault_run_ops project v ops1).1 ops2).1,
   (vault_run_ops project v ops1).2 ++ (vault_run_ops project (vault_run_ops project v ops1).1 ops2).2).
Proof.
  induction ops1 as [|op ops1 IH]; intros v ops2; simpl; [apply surjective_pairing|].
  destruct (vault_step project v op) as [v1 o1]. rewrite IH. destruct (vault_run_ops project v1 ops1) as [v2 o2]. simpl.
  destruct (vault_run_ops project v2 ops2) as [v3 o3]. simpl. by rewrite app_assoc.
Qed.

(** An item that has its run starts no other. *)
Lemma no_second_start project ops : forall v id w, Forall real_ids ops -> get_row id (vault_items v) = Some w ->
  truthy_opt (w_run_id w) = true -> ~ In id (map st_item (vault_run_ops project v ops).2).
Proof.
  induction ops as [|op ops IH]; intros v id w Hops Hw Ht; simpl; [tauto|]. apply Forall_cons in Hops as [Hop Hops].
  pose proof (step_ext project v op) as [_ Hx]. pose proof (fun s => step_starts project v op s Hop) as Hs.
  destruct (vault_step project v op) as [v1 o1]. destruct (Hx id w Hw) as (w1 & Hw1 & [_ _ _ Hrun _]). simpl in *.
  destruct (Hrun Ht) as [Hr _]. specialize (IH v1 id w1 Hops Hw1). rewrite Hr in IH. specialize (IH Ht).
  destruct (vault_run_ops project v1 ops) as [v2 o2]. simpl in *. rewrite map_app, in_app_iff, in_map_iff.
  intros [(s & <- & Hin)|H]; [|done]. destruct (Hs s Hin) as [(w' & Hw' & Hf) _]. congruence.
Qed.

Lemma accepted_runs_log project v0 ops v log :
  Forall real_ids ops -> vault_run_ops project v0 ops = (v, log) ->
  List.NoDup (map st_item log) /\ forall s, In s log -> runs_accepted s v.
Proof.
  revert v0 v log. induction ops as [|op ops IH]; intros v0 v log Hops Hr; simpl in Hr; [by injection Hr as <- <-; split; [constructor|intros s []]|].
  apply Forall_cons in Hops as [Hop Hops]. pose proof (fun s => step_starts project v0 op s Hop) as Hs.
  destruct (vault_step project v0 op) as [v1 o1]. pose proof (run_ext project ops v1) as Hx. pose proof (no_second_start project ops v1) as Hno.
  specialize (IH v1). destruct (vault_run_ops project v1 ops) as [v2 o2]. injection Hr as <- <-. simpl in *.
  destruct (IH v2 o2 Hops eq_refl) as [Hnd Hall]. split.
  - destruct o1 as [|s o1]; [done|]. destruct (Hs s (or_introl eq_refl)) as (_ & Hacc & Ho). injection Ho as ->. simpl. constructor; [|done].
    destruct Hacc as (w & d & Hw & _ & _ & Hrid & Hne & _). apply (Hno (st_item s) w); [done..|]. rewrite Hrid. by destruct (st_run s).
  - intros s [H|H]%in_app_iff; [|by apply Hall]. destruct (Hs s H) as (_ & Hacc & _). by apply (runs_accepted_ext s v1).
Qed.

(** C12: an accepted workflow item starts at most one run, however often and in whatever order the
    calls come, and that run stays the item's run. A call that starts one adds to the tables one
    run and one job: a queued production run of exactly the flow and the version of the item, which
    names the item and the decision that accepted it, and a queued RUN_FLOW job of that run, flow and
    version, whose payload is the run's id and the input that was accepted; both as the item's row
    still says after everything that followed. Any other such call writes no run and no job. *)
Theorem accepted_work_runs_once project v0 ops v log :
  Forall real_ids ops -> vault_run_ops project v0 ops = (v, log) ->
  List.NoDup (map st_item log) /\ (forall s, In s log -> runs_accepted s v) /\
  forall ops1 rid jobId id f now ops2, ops = ops1 ++ OpStartRun rid jobId id f now :: ops2 ->
    let v1 := (vault_run_ops project v0 ops1).1 in
    let '(v2, started) := vault_step project v1 (OpStartRun rid jobId id f now) in
    match started with
    | [] => vault_run v2 = vault_run v1
    | s :: rest => rest = [] /\ s = mkStarted id rid /\ In s log /\
        exists w, get_row id (vault_items v) = Some w /\ starts_run (rw_db (vault_run v1)) (rw_db (vault_run v2)) rid jobId id f w
    end.
Proof.
  intros Hops Hr. destruct (accepted_runs_log project v0 ops v log Hops Hr) as [H1 H2]. split; [done|]. split; [done|].
  intros ops1 rid jobId id f now ops2 ->. cbv zeta. set (v1 := (vault_run_ops project v0 ops1).1).
  apply Forall_app in Hops as [_ [Hop _]%Forall_cons]. pose proof (start_tables project v1 rid jobId id f now Hop) as Ht.
  pose proof (fun s => step_starts project v1 (OpStartRun rid jobId id f now) s Hop) as Hs.
  rewrite run_ops_app in Hr. cbn [vault_run_ops] in Hr. fold v1 in Hr.
  destruct (vault_step project v1 (OpStartRun rid jobId id f now)) as [v2 started]. cbn [fst snd] in Hs.
  destruct started as [|s rest]; [done|]. destruct (Hs s (or_introl eq_refl)) as (_ & _ & [= ->]). destruct Ht as (-> & w & Hw & Hst).
  pose proof (run_ext project ops2 v2) as [_ Hx]. destruct (vault_run_ops project v2 ops2) as [v3 o3]. cbn [fst snd] in *. injection Hr as <- <-.
  destruct (Hx id w Hw) as (w' & Hw' & He). split; [done|]. split; [done|]. split; [apply in_app_iff; right; by left|].
  exists w'. split; [done|]. by apply (starts_run_ext _ _ _ _ _ _ w).
Qed.

(** a result is recorded only for an accepted item that had none, with one to twenty references
    and, for workflow work, a linked run that has ended; it passes only if that run succeeded
    and waits for nothing. The call writes the check with a snapshot of the run, the end of
    the commitment, and, for a passed check with a valid score, the goal's score together
    with its progress entry; it writes no run. *)
Theorem checked_result_spec id body goalScore ci entry now v item v' :
  checkWorkResult id body goalScore ci entry now v = inr (item, v') ->
  exists w c vd summary ev progress, get_row id (vault_items v) = Some w /\ getCommitment id (vault_commitments v) = Some c /\
    w_result_check w = None /\ outcome_is accepted w = true /\ (1 <= length ev <= 20)%nat /\
    (w_mode (w_config w) = work_workflow -> exists r, linked_run w v = Some r /\
       includes (run_status r) [RUN_RUNNING; RUN_QUEUED; RUN_PAUSED] = false /\
       (vd = passed -> run_status r = RUN_SUCCEEDED /\ open_waitpoints r v = [])) /\
    get_row id (vault_items v') = Some (set_check (recorded id ci vd summary ev now w v progress) w) /\
    getCommitment id (vault_commitments v') =
      Some (ended (if bool_decide (vd = passed) then completed else failed) (Some now) (Some summary) c) /\
    vault_run v' = vault_run v /\
    match progress with
    | None => goalScore = None /\ vault_goals v' = vault_goals v
    | Some p => p = entry /\ vd = passed /\ exists g s, goalScore = Some (Some s) /\ in_unit s = true /\ w_goal_id (w_config w) = Some (g_id g) /\
        record_score entry (g_id g) manual s summary ("work_item:" +:+ id +:+ ":check:" +:+ ci) now g (vault_goals v) = Some (vault_goals v')
    end.
Proof.
  intros (w & c & vd & s & ev & p & v1 & Hw & Hc & Hno & Hacc & Hlen & Hrun & Hs & ->)%result_shape.
  exists w, c, vd, s, ev, p. pose proof (score_items _ _ _ _ _ _ _ _ _ _ _ Hs) as Hi.
  assert (vault_commitments v1 = vault_commitments v /\ vault_run v1 = vault_run v) as [Hcm Hrn].
  { by apply score_shape in Hs as [(_ & _ & ->)|(g & sc & d' & _ & _ & _ & _ & _ & _ & _ & ->)]. }
  split; [done|]. split; [done|]. split; [done|]. split; [done|]. split; [done|]. split.
  { intros Hm. destruct (Hrun Hm) as (r & H1 & H2 & H3 & H4). exists r. split; [done|]. split; [done|]. intros Hp. split; [by apply H4|]. apply H3. by apply H4. }
  split.
  { change (get_row id (vault_items (put id (set_check (recorded id ci vd s ev now w v p)) v1)) = Some (set_check (recorded id ci vd s ev now w v p) w)).
    rewrite put_get by done. by rewrite bool_decide_true, Hi, Hw by done. }
  split; [cbn [vault_commitments with_cms]; rewrite Hcm, update_row_get by apply _; by rewrite bool_decide_true, Hc by done|].
  split; [done|]. apply score_shape in Hs as [(-> & -> & ->)|(g & sc & d' & -> & -> & Hg & Hu & -> & _ & Hrec & ->)]; [done|].
  split; [done|]. split; [done|]. by exists g, sc.
Qed.

(** ** Scores, through the goals' own operations and through checked results *)

Lemma result_goals_ok id body gs ci e now v item v' : goals_ok (vault_goals v) ->
  checkWorkResult id body gs ci e now v = inr (item, v') -> goals_ok (vault_goals v').
Proof.
  intros Hg (w & c & vd & s & ev & p & v1 & _ & _ & _ & _ & _ & _ & Hs & ->)%result_shape. simpl.
  apply score_shape in Hs as [(_ & _ & ->)|(g & sc & d' & _ & _ & _ & Hu & _ & Hget & Hrec & ->)]; [done|].
  by apply (scored_ok _ _ _ _ _ _ _ _ _ _ Hg Hget Hu Hrec).
Qed.

(** The goals are written by no other operation on work items. *)
Definition same_goals (v v' : Vault) : Prop := vault_goals v' = vault_goals v.
#[export] Instance same_goals_preorder : PreOrder same_goals.
Proof. split; [done|]. unfold same_goals. intros x y z -> ->. done. Qed.
Notation keeps_goals m := (respects (E := WorkError) same_goals m).

Lemma keep_reads {A} (m : work_op A) : only_reads m -> keeps_goals m.
Proof. by intros H v a v' E%H; subst. Qed.
Lemma keep_commitment i t f n : keeps_goals (insert_commitment i t f n).
Proof.
  intros v a v' H. unfold insert_commitment in H. apply bind_inr in H as (t0 & v1 & [= <- <-] & H).
  destruct (createCommitment _ _ _ _ _) as [[t' c]|]; [|done]. by injection H as _ <-.
Qed.
Lemma keep_insert w : keeps_goals (insert_item w).
Proof. intros v a v' H. unfold insert_item in H. apply bind_inr in H as (t & v1 & [= <- <-] & H). destruct (insert_row _ _); [|done]. by injection H as _ <-. Qed.
Lemma keep_configure id b now : keeps_goals (configureWorkItem id b now).
Proof. by intros v i v' (w & c & _ & _ & ->)%configure_shape. Qed.

Ltac keeping := repeat first
  [ apply keep_insert | apply keep_commitment | apply keep_configure
  | apply keep_reads, read_item | apply keep_reads, read_text | apply keep_reads, read_object | apply keep_reads, read_reads
  | apply keep_reads, read_ret | apply keep_reads, read_throw | apply respects_bind; [apply _| |intros ?] | case_match ].

Lemma keep_plan p l now : keeps_goals (createPlannedWork p l now).
Proof.
  unfold createPlannedWork. generalize 0%nat as n. induction l as [|[[id title] goal] l IH]; intros n; simpl; [by keeping|].
  apply respects_bind; [apply _| |intros i; apply respects_bind; [apply _|apply IH|intros ?; by keeping]].
  unfold plan_action. by keeping.
Qed.

Lemma step_goals project v op : goals_ok (vault_goals v) -> goals_ok (vault_goals (vault_step project v op).1).
Proof.
  intros Hg. assert (forall A (m : work_op A), keeps_goals m -> goals_ok (vault_goals (settle v (m v)))) as Hk.
  { intros A m Hm. unfold settle. destruct (m v) as [e|[a v']] eqn:E; [done|]. apply Hm in E. simpl. by rewrite E. }
  destruct op; simpl; try done.
  - apply Hk, keep_plan.
  - apply Hk. unfold createWorkItem. by keeping.
  - apply Hk, keep_configure.
  - apply Hk. by intros v1 i v' [->|(w & o & r & _ & _ & ->)]%decide_shape.
  - apply Hk. by intros v1 i v' (w & r & _ & _ & _ & ->)%blocker_shape.
  - unfold settle. destruct (checkWorkResult _ _ _ _ _ _ v) as [e|[a v']] eqn:E; [done|]. by apply result_goals_ok in E.
  - destruct (startWorkItemRun _ _ _ _ _ _ v) as [e|[[r [q|]] v']] eqn:E; [done| |]; apply start_shape in E; [|by subst]. simpl. by rewrite (rs_goals _ _ _ _ _ _ _ _ _ _ E).
  - by apply goal_step_ok.
Qed.

(** scores are bounded and have a history: whatever is done to the goals and the work items,
    a score stays between 0 and 1, and the progress entries of each goal are a chain of
    recorded scores that starts at 0, where each entry begins with the score the previous
    one left and the last one left the current score. *)
Theorem scores_have_history project v0 ops v log g :
  vault_goals v0 = empty_goals -> vault_run_ops project v0 ops = (v, log) -> In g (goals (vault_goals v)) ->
  in_unit (score g) = true /\ chain zero (history (g_id g) (vault_goals v)) (score g).
Proof.
  intros H0 Hr. assert (goals_ok (vault_goals v)) as Hg; [|by apply (histories _ Hg)].
  assert (goals_ok (vault_goals v0)) as Hv by (rewrite H0; apply empty_goals_ok). clear H0. revert v0 log Hr Hv.
  induction ops as [|op ops IH]; intros v0 log Hr Hv; simpl in Hr; [by injection Hr as <- <-|].
  pose proof (step_goals project v0 op Hv) as H1. destruct (vault_step project v0 op) as [v1 o1]. specialize (IH v1).
  destruct (vault_run_ops project v1 ops) as [v2 o2]. injection Hr as <- <-. by apply (IH o2).
Qed.

(** ** A workflow proposal, accepted, run once and checked *)

Definition demo_vault : Vault :=
  mkVault (mkRunWorld empty_db
    (mkFlowDb [mkFlow "f" "f" "project" None ENABLED (Some "ver") None false None None 0 0]
              [mkVersionRow "ver" "f" "Flow" (JObj []) LOCKED true None None [] [] (JArr []) None None None None None 0 0]))
    empty_goals [] [] true.

Definition demo_proposal : json :=
  JObj [("title", JStr " send the report "); ("goalId", JStr "g"); ("mode", JStr "workflow"); ("workflowId", JStr "f");
        ("workflowVersionId", JStr "ver"); ("input", JObj [("to", JStr "ann")])].
Definition demo_accept : json := JObj [("outcome", JStr "accepted"); ("reason", JStr "yes")].
Definition demo_check : json :=
  JObj [("verdict", JStr "passed"); ("summary", JStr "sent"); ("evidence", JArr [JObj [("ref", JStr "mail"); ("description", JStr "in the outbox")]])].
Definition run_succeeds : UpdateRunInput := mkPatch (Some RUN_SUCCEEDED) None None (Some (Some 20)) None None None.

Definition demo_started : list VaultOp :=
  [OpGoals (OpCreateGoal "g" 1 task (mkGoalOpts None (default_text "report") None None)); OpCreateItem "w1" demo_proposal 2;
   OpDecide "w1" demo_accept "d1" 3; OpConfigure "w1" (JObj [("input", JObj [])]) 4; OpStartRun "r1" "j1" "w1" "f" 5; OpStartRun "r2" "j2" "w1" "f" 6].
Definition demo_done : Vault := (vault_run_ops "project" demo_vault (demo_started ++ [OpRuns (RunDb (w_update_run "r1" run_succeeds 20))])).1.

Example demo_started_once :
  (vault_run_ops "project" demo_vault demo_started).2 = [mkStarted "w1" "r1"] /\
  map (fun j => (job_id j, parse (job_payload j))) (jobs (rw_db (vault_run (vault_run_ops "project" demo_vault demo_started).1))) =
    [("j1", Some (JObj [("runId", JStr "r1"); ("payload", JObj [("to", JStr "ann")])]))].
Proof. vm_compute. done. Qed.

Lemma accepted_work_runs_once_witness :
  List.NoDup (map st_item (vault_run_ops "project" demo_vault demo_started).2) /\
  (forall s, In s (vault_run_ops "project" demo_vault demo_started).2 -> runs_accepted s (vault_run_ops "project" demo_vault demo_started).1) /\
  let db ops := rw_db (vault_run (vault_run_ops "project" demo_vault ops).1) in
  exists w, starts_run (db (firstn 4 demo_started)) (db (firstn 5 demo_started)) "r1" "j1" "w1" "f" w /\ accepted_input w = JObj [("to", JStr "ann")].
Proof.
  destruct (accepted_work_runs_once "project" demo_vault demo_started (vault_run_ops "project" demo_vault demo_started).1
    (vault_run_ops "project" demo_vault demo_started).2) as (H1 & H2 & H3); [repeat constructor; done|apply surjective_pairing|].
  split; [exact H1|]. split; [exact H2|].
  specialize (H3 (firstn 4 demo_started) "r1" "j1" "w1" "f" 5 (skipn 5 demo_started) eq_refl). vm_compute in H3.
  destruct H3 as (_ & _ & _ & w & Hw & Hs). exists w. split; [exact Hs|]. injection Hw as <-. reflexivity.
Defined.

Definition demo_item : WorkRow :=
  mkWorkRow "w1" None None (mkWorkConfig (Some "g") work_workflow (Some "f") (Some "ver") (stringify (JObj [("to", JStr "ann")])))
    (Some (mkDecision "d1" accepted "yes" 3)) (Some "r1") None None 5.

Lemma decided_work_is_frozen_witness :
  exists w', get_row "w1" (vault_items (vault_step "project" demo_done (OpConfigure "w1" (JObj [("input", JObj [])]) 30)).1) = Some w' /\
    w_config w' = w_config demo_item.
Proof.
  destruct (decided_work_is_frozen "project" demo_done [OpConfigure "w1" (JObj [("input", JObj [])]) 30]
              (vault_step "project" demo_done (OpConfigure "w1" (JObj [("input", JObj [])]) 30)).1 [] "w1" demo_item (mkDecision "d1" accepted "yes" 3))
    as (w' & H1 & _ & H2 & _); [vm_compute; reflexivity|vm_compute; reflexivity|reflexivity|]. exists w'. exact (conj H1 H2).
Defined.

Definition demo_result : WorkItem * Vault :=
  match checkWorkResult "w1" demo_check (Some (Some (tenths 8))) "c1" "p1" 40 demo_done with
  | inr x => x
  | inl _ => (mkWorkItem demo_item "" JNull None None proposed 0 0, demo_done)
  end.

Lemma checked_result_spec_witness :
  exists w, get_row "w1" (vault_items demo_done) = Some w /\ outcome_is accepted w = true /\ vault_run demo_result.2 = vault_run demo_done.
Proof.
  destruct (checked_result_spec "w1" demo_check (Some (Some (tenths 8))) "c1" "p1" 40 demo_done demo_result.1 demo_result.2)
    as (w & c & vd & s & ev & p & H1 & _ & _ & H2 & _ & _ & _ & _ & H3 & _); [vm_compute; reflexivity|]. exists w. exact (conj H1 (conj H2 H3)).
Defined.

Example demo_verified : it_status demo_result.1 = verified /\ map score (goals (vault_goals demo_result.2)) = [tenths 8].
Proof. vm_compute. done. Qed.

Definition demo_scored : Vault * list Started :=
  vault_run_ops "project" demo_vault (demo_started ++ [OpRuns (RunDb (w_update_run "r1" run_succeeds 20)); OpResult "w1" demo_check (Some (Some (tenths 8))) "c1" "p1" 40]).
Definition demo_goal : Goal :=
  mkGoal "g" None task (default_text "report") (tenths 8) (Some "sent") g_draft on_track None zero no_stage None 0 1 40 None.

Lemma scores_have_history_witness :
  in_unit (score demo_goal) = true /\ chain zero (history (g_id demo_goal) (vault_goals demo_scored.1)) (score demo_goal).
Proof.
  apply (scores_have_history "project" demo_vault
    (demo_started ++ [OpRuns (RunDb (w_update_run "r1" run_succeeds 20)); OpResult "w1" demo_check (Some (Some (tenths 8))) "c1" "p1" 40])
    demo_scored.1 demo_scored.2 demo_goal); [exact eq_refl|exact (surjective_pairing demo_scored)|]. vm_compute. left. reflexivity.
Defined.
