(* ===== verification/Llm.v ===== *)
(** * Tiers and provider errors (llm/tiers.ts, llm/provider.ts)

    The tier map and its fall-up chains, the codes of provider errors with the
    classifiers of statuses and messages, and the events of a stream. *)
From Stdlib Require Import Ascii.
From S2P Require Export Regex Json JsMap.

(** ** tiers.ts *)

Inductive Tier := conversation | high | medium | low.

#[export] Instance Tier_eq_dec : EqDecision Tier.
Proof. solve_decision. Defined.

Definition tier_name (t : Tier) : string :=
  match t with conversation => "conversation" | high => "high" | medium => "medium" | low => "low" end.

Definition TIERS : list Tier := [conversation; high; medium; low].

Record TierAssignment := mkAssignment { provider : string; model : option string }.

Definition TierMap := list (Tier * TierAssignment).

Definition TIER_FALLBACK (t : Tier) : list Tier :=
  match t with
  | conversation => []
  | high => [medium]
  | medium => [high]
  | low => [medium; high]
  end.

Record TierResolution := mkResolution { resolved_tier : Tier; assignment : TierAssignment }.

(** The first of [candidates] that is assigned. *)
Fixpoint first_assigned (candidates : list Tier) (tiers : TierMap) : option TierResolution :=
  match candidates with
  | [] => None
  | t :: rest => match map_get t tiers with Some a => Some (mkResolution t a) | None => first_assigned rest tiers end
  end.

Definition resolveTier (requested : Tier) (tiers : TierMap) : option TierResolution :=
  first_assigned (requested :: TIER_FALLBACK requested) tiers.

Definition validateTierMap (tiers : TierMap) : option string :=
  if negb (map_has medium tiers) && negb (map_has high tiers)
  then Some "LLM config invalid: at least one of `medium` or `high` tier must be configured." else None.

Definition parseModelRef (ref : option string) : option TierAssignment :=
  match ref with
  | None | Some EmptyString => None
  | Some s =>
      match index_of ":" s with
      | None | Some O => None
      | Some idx =>
          if (idx =? String.length s - 1)%nat then None
          else Some (mkAssignment (stake idx s) (Some (sdrop (S idx) s)))
      end
  end.

Definition formatModelRef (a : TierAssignment) : string :=
  match model a with Some (String c m) => provider a +:+ ":" +:+ String c m | _ => provider a end.

(** ** provider.ts *)

Inductive LLMErrorCode :=
  | code_auth | code_forbidden | code_rate_limit | code_network | code_bad_request | code_unsupported_tools
  | code_not_found | code_server | code_quota_exhausted | code_content_policy | code_restricted | code_unknown.

#[export] Instance LLMErrorCode_eq_dec : EqDecision LLMErrorCode.
Proof. solve_decision. Defined.

(** What a call may throw: an [LLMProviderError], another [Error], or something else. *)
Inductive LLMError :=
  | ProviderError (message : string) (code : LLMErrorCode) (retryAfterMs : option Z)
  | PlainError (message : string)
  | NotAnError (shown : string).

Definition error_message (e : LLMError) : string :=
  match e with ProviderError m _ _ | PlainError m | NotAnError m => m end.
Definition error_retry (e : LLMError) : option Z := match e with ProviderError _ _ r => r | _ => None end.

Definition classifyHttpStatus (status : Z) : LLMErrorCode :=
  if status =? 401 then code_auth
  else if status =? 403 then code_forbidden
  else if status =? 429 then code_rate_limit
  else if status =? 498 then code_network
  else if status =? 404 then code_not_found
  else if (status =? 400) || (status =? 422) then code_bad_request
  else if (status =? 502) || (status =? 503) || (status =? 504) then code_network
  else if status >=? 500 then code_server
  else code_unknown.

(** [/\bs\b/] *)
Definition whole (s : string) : regex := rseq [RWordB; rlit s; RWordB].

Definition tool_words : regex :=
  rany [rseq [rlit "tool"; ropt (rlit "s")]; rseq [rlit "tool"; chars "_ -"; rany [rlit "calling"; rlit "use"]];
        rseq [rlit "function"; chars "_ -"; rlit "calling"]].

Definition unsupported_patterns : list regex :=
  [ rseq [RWordB; tool_words; ropt (chars (String "039" (String dquote EmptyString))); rplus rspace;
          ropt (rseq [rany [rlit "is"; rlit "are"]; rplus rspace]); rany [rlit "not supported"; rlit "unsupported"]; RWordB];
    rseq [RWordB; rany [rlit "does not"; rlit "doesn't"; rlit "do not"; rlit "cannot"]; rplus rspace; rlit "support";
          rplus rspace; tool_words; RWordB];
    rseq [RWordB; rlit "unsupported "; rany [rlit "parameter"; rlit "field"]; RStar rspace; rlit ":"; RStar rspace;
          ropt (chars (String "039" (String dquote EmptyString))); rany [rlit "tools"; rlit "tool_choice"]; RWordB] ].

Definition timed_out_pattern : regex := rseq [RWordB; rlit "timed"; rplus rspace; rlit "out"; RWordB].

(** [words.some(w => s.includes(w))] *)
Definition mentions (words : list string) (s : string) : bool := existsb (fun w => str_includes w s) words.

Definition classifyErrorString (raw : string) : LLMErrorCode :=
  let s := to_lower raw in
  if negb (truthy raw) then code_unknown
  else if re_test (whole "403") s || mentions ["forbidden"; "permission_error"; "permission_denied"] s then code_forbidden
  else if re_test (whole "401") s
    || mentions ["unauthorized"; "api key"; "invalid_api_key"; "invalid x-api-key"; "authentication"] s then code_auth
  else if mentions ["permission denied"; "not have access"] s then code_forbidden
  else if re_test (whole "429") s
    || mentions ["rate limit"; "too many requests"; "insufficient_quota"; "quota"] s then code_rate_limit
  else if re_test (rseq [RWordB; rany [rlit "502"; rlit "503"; rlit "504"]; RWordB]) s || mentions ["timeout"] s
    || re_test timed_out_pattern s
    || mentions ["temporarily unavailable"; "econnrefused"; "enotfound"; "network"] s then code_network
  else if re_test (whole "404") s || mentions ["not found"; "model_not_found"] s then code_not_found
  else if re_test (rseq [RWordB; rlit "5"; rdigit; rdigit; RWordB]) s || mentions ["internal server error"] s then code_server
  else if existsb (fun r => re_test r s) unsupported_patterns then code_unsupported_tools
  else if re_test (rseq [RWordB; rany [rlit "400"; rlit "422"]; RWordB]) s || mentions ["bad request"; "invalid_request"] s
    then code_bad_request
  else code_unknown.

#[global] Arguments classifyErrorString : simpl never.

Definition getLLMErrorCode (e : LLMError) : LLMErrorCode :=
  match e with
  | ProviderError m code _ =>
      if bool_decide (code = code_bad_request) && bool_decide (classifyErrorString m = code_unsupported_tools)
      then code_unsupported_tools else code
  | _ => classifyErrorString (error_message e)
  end.

(** *** Messages *)

Inductive MessageRole := role_system | role_user | role_assistant | role_tool.

#[export] Instance MessageRole_eq_dec : EqDecision MessageRole.
Proof. solve_decision. Defined.

Inductive ContentBlock := TextBlock (text : string) | ImageBlock (media_type data : string).

Record LLMToolCall := mkCall { call_id : string; call_name : string; call_arguments : json }.

(** The content is a text or a list of blocks. *)
Record LLMMessage := mkMessage {
  msg_role : MessageRole;
  msg_content : string + list ContentBlock;
  msg_calls : option (list LLMToolCall);
  msg_call_id : option string }.

Record LLMUsage := mkUsage {
  input_tokens : Z; output_tokens : Z; cache_read : option Z; cache_creation : option Z }.

Section responses.
(** The tool calls of a response are passed through. *)
Context {ToolCall : Type}.

Record LLMResponse := mkResponse {
  response_content : string;
  response_calls : list ToolCall;
  response_usage : option LLMUsage;
  response_model : string }.

Inductive LLMStreamEvent :=
  | EvText (text : string)
  | EvToolCall (call : ToolCall)
  | EvDone (response : LLMResponse)
  | EvError (error : string) (code : option LLMErrorCode) (retry_after_ms : option Z).

Definition is_content (e : LLMStreamEvent) : bool := match e with EvText _ | EvToolCall _ => true | _ => false end.
End responses.
Arguments LLMResponse : clear implicits.
Arguments LLMStreamEvent : clear implicits.
