(* ===== verification/LlmManager.v ===== *)
(** * The LLM manager (llm/manager.ts)

    Which providers a call may reach, in which order, how often and after which
    waits. A provider is what the source calls ([chat], [stream]): its answers come
    from an [Env], which may let them depend on everything done before, and also
    says when the caller's signal is aborted, when its deadline has passed and what
    the clock reads. A call appends what it does to a log; its candidates are
    computed when it starts, so no other operation of the manager changes it. The
    messages and the options other than the model are the same for every attempt
    and are left out. A consumer reads a stream to its end. *)
From Stdlib Require Import Ascii.
From S2P Require Export Llm.

(** ** Registration *)

Record LLMProvider := mkProvider { prov_name : string; placeholderDefaultModel : bool }.

Record LLMManager := mkManager {
  providers : list (string * LLMProvider);
  primaryProvider : string;
  fallbackChain : list string;
  tierMap : TierMap }.

Definition new_manager : LLMManager := mkManager [] "" [] [].

Definition registerProvider (p : LLMProvider) (m : LLMManager) : LLMManager :=
  mkManager (map_set (prov_name p) p (providers m)) (if truthy (primaryProvider m) then primaryProvider m else prov_name p)
    (fallbackChain m) (tierMap m).

(** An operation that throws returns the message and changes nothing. *)
Definition not_registered (name : string) : string := "Provider '" +:+ name +:+ "' not registered".

Definition setPrimary (name : string) (m : LLMManager) : string + LLMManager :=
  if negb (map_has name (providers m)) then inl (not_registered name)
  else inr (mkManager (providers m) name (fallbackChain m) (tierMap m)).

Definition setFallbackChain (names : list string) (m : LLMManager) : string + LLMManager :=
  match List.find (fun n => negb (map_has n (providers m))) names with
  | Some n => inl (not_registered n)
  | None => inr (mkManager (providers m) (primaryProvider m) names (tierMap m))
  end.

Definition unregistered_tier (tier : Tier) (name : string) : string :=
  not_registered name +:+ " (tier '" +:+ tier_name tier +:+ "')".

Definition with_tiers (m : LLMManager) (tiers : TierMap) : LLMManager :=
  mkManager (providers m) (primaryProvider m) (fallbackChain m) tiers.

Definition setTierAssignment (tier : Tier) (a : option TierAssignment) (m : LLMManager) : string + LLMManager :=
  match a with
  | None => inr (with_tiers m (map_delete tier (tierMap m)))
  | Some a =>
      if negb (map_has (provider a) (providers m)) then inl (unregistered_tier tier (provider a))
      else inr (with_tiers m (map_set tier a (tierMap m)))
  end.

Definition tier_of_name (s : string) : option Tier := List.find (fun t => bool_decide (tier_name t = s)) TIERS.

(** The loop of [setTierMap] over the entries of the configured map. *)
Fixpoint tier_entries (entries : list (string * option TierAssignment)) (m : LLMManager) (next : TierMap)
    : string + TierMap :=
  match entries with
  | [] => inr next
  | (_, None) :: rest => tier_entries rest m next
  | (name, Some a) :: rest =>
      match tier_of_name name with
      | None => tier_entries rest m next
      | Some t =>
          if negb (map_has (provider a) (providers m)) then inl (unregistered_tier t (provider a))
          else tier_entries rest m (map_set t a next)
      end
  end.

Definition setTierMap (entries : list (string * option TierAssignment)) (m : LLMManager) : string + LLMManager :=
  match tier_entries entries m [] with inl e => inl e | inr next => inr (with_tiers m next) end.

Definition hasConversationTier (m : LLMManager) : bool := map_has conversation (tierMap m).

Definition getProviderSequence (override : option string) (m : LLMManager) : list string :=
  let primary := match override with
                 | Some o => if truthy o && map_has o (providers m) then o else primaryProvider m
                 | None => primaryProvider m end in
  primary :: List.filter (fun n => negb (bool_decide (n = primary))) (fallbackChain m).

Definition replaceProviders (ps : list LLMProvider) (primary : string) (fallback : list string) (m : LLMManager)
    : LLMManager :=
  let newMap := foldl (fun acc p => map_set (prov_name p) p acc) [] ps in
  mkManager newMap
    (if map_has primary newMap then primary else match ps with p :: _ => prov_name p | [] => "" end)
    (List.filter (fun n => map_has n newMap) fallback)
    (List.filter (fun e => map_has (provider (snd e)) newMap) (tierMap m)).

(** ** Retry and failover *)

Definition MAX_RETRIES_PER_PROVIDER : nat := 3.
Definition REQUEST_TIMEOUT_MS : Z := 90000.
Definition MAX_RETRY_AFTER_MS : Z := 60000.

Definition formatFailure (name : string) (errors : list string) : string :=
  let n := Z.of_nat (length errors) in
  let word := if n =? 1 then "attempt" else "attempts" in
  "Provider '" +:+ name +:+ "' failed after " +:+ show_z n +:+ " " +:+ word +:+ ":" +:+ newline
  +:+ JsString.join newline (map (fun e => "  " +:+ e) errors).

Definition shouldRetryCode (code : LLMErrorCode) : bool :=
  match code with code_rate_limit | code_network | code_server => true | _ => false end.

Definition shouldRetry (e : LLMError) : bool :=
  match e with
  | NotAnError _ => false
  | ProviderError _ code _ => shouldRetryCode code
  | PlainError m =>
      let msg := to_lower m in
      mentions ["timeout"] msg || re_test timed_out_pattern msg
      || mentions ["econnrefused"; "enotfound"; "network"; "temporarily unavailable"; "429"; "503"] msg
  end.

Definition model_gone_patterns : list regex :=
  let gone := rany [rlit_i "decommissioned"; rlit_i "not found"; rlit_i "does not exist"; rlit_i "unsupported";
                    rlit_i "unavailable"; rlit_i "retired"] in
  [ rseq [RWordB; rlit_i "model";
          rany [rseq [chars "_ -"; rlit_i "decommissioned"]; rseq [chars "_ -"; rlit_i "not"; chars "_ -"; rlit_i "found"];
                rseq [chars "_ -"; rlit_i "unsupported"]; rseq [chars "_ -"; rlit_i "unavailable"];
                rseq [chars "_ -"; rlit_i "retired"]]; RWordB];
    rseq [RWordB; rlit_i "model"; RWordB; rupto 160 rdot; RWordB; gone; RWordB];
    rseq [RWordB; rany [rlit_i "decommissioned"; rlit_i "retired"]; RWordB; rupto 160 rdot; RWordB; rlit_i "model"; RWordB] ].

(** The provider will answer the same way under another model. *)
Definition out_of_capacity (code : LLMErrorCode) : bool :=
  match code with code_rate_limit | code_quota_exhausted | code_restricted => true | _ => false end.

Definition shouldFailOver (code : LLMErrorCode) (message : string) : bool :=
  if out_of_capacity code then true
  else match code with
       | code_bad_request | code_not_found => existsb (fun r => re_test r message) model_gone_patterns
       | _ => false
       end.

#[global] Arguments getLLMErrorCode : simpl never.
#[global] Arguments shouldFailOver : simpl never.
#[global] Arguments shouldRetry : simpl never.
#[global] Arguments formatFailure : simpl never.

(** ** Candidates *)

Definition Candidate : Type := TierResolution * LLMProvider.

Definition candidate_key (name : string) (model : option string) : string :=
  name +:+ String "000" ((model ?? EmptyString)).

Definition no_provider_message (tier : Tier) : string :=
  let chain := map tier_name (tier :: TIER_FALLBACK tier) in
  match tier with
  | conversation =>
      "No provider configured for tier 'conversation'. Assign the conversation tier in Settings > LLM."
  | _ =>
      "No provider configured for tier '" +:+ tier_name tier +:+ "' or its fall-up chain. "
      +:+ "Choose a default model or assign the " +:+ JsString.join ", " (removelast chain) +:+ " or " +:+ List.last chain ""
      +:+ " tier in Settings > LLM."
  end.

Definition resolveTierOrThrow (tier : Tier) (m : LLMManager) : LLMError + Candidate :=
  match resolveTier tier (tierMap m) with
  | None => inl (PlainError (no_provider_message tier))
  | Some r =>
      match map_get (provider (assignment r)) (providers m) with
      | None => inl (PlainError ("Tier '" +:+ tier_name tier +:+ "' references provider '" +:+ provider (assignment r)
                                 +:+ "' which is not registered."))
      | Some p => inr (r, p)
      end
  end.

(** The closure [add]: the candidates so far and the keys seen. *)
Definition add_candidate (m : LLMManager) (acc : list Candidate * list string) (r : TierResolution)
    : list Candidate * list string :=
  let '(out, seen) := acc in
  match map_get (provider (assignment r)) (providers m) with
  | None => acc
  | Some p =>
      if negb (truthy_opt (model (assignment r))) && placeholderDefaultModel p then acc
      else let key := candidate_key (prov_name p) (model (assignment r)) in
        if includes key seen then acc else (out ++ [(r, p)], seen ++ [key])
  end.

Definition without_model (r : TierResolution) : TierResolution :=
  mkResolution (resolved_tier r) (mkAssignment (provider (assignment r)) None).

(** The assigned tiers among [tier] and its fall-up chain. *)
Definition mapped_tiers (tier : Tier) (m : LLMManager) : list TierResolution :=
  omap (fun t => mkResolution t <$> map_get t (tierMap m)) (tier :: TIER_FALLBACK tier).

Definition tierCandidates (tier : Tier) (m : LLMManager) : LLMError + list Candidate :=
  match resolveTierOrThrow tier m with
  | inl e => inl e
  | inr (r, p) =>
      let start := ([(r, p)], [candidate_key (prov_name p) (model (assignment r))]) in
      let own := mkResolution (resolved_tier r) (mkAssignment (prov_name p) None) in
      inr (foldl (fun acc r => add_candidate m (add_candidate m acc r) (without_model r))
             (add_candidate m start own) (mapped_tiers tier m)).1
  end.

(** ** Calls *)

Section calls.
Context {T : Type}.

(** A row of the usage table, as [recordUsage] receives it. *)
Record UsageRow := mkRow {
  row_tier : Tier;
  row_resolved : Tier;
  row_subsystem : string;
  row_provider : string;
  row_model : string;
  row_tokens : LLMUsage;
  row_latency : Z;
  row_error : option LLMErrorCode }.

Inductive LlmEvent :=
  | Sent (p : LLMProvider) (model : option string)
  | Slept (ms : Z)
  | Recorded (u : UsageRow).

Definition Log := list LlmEvent.

Record Env := mkEnv {
  env_chat : Log -> LLMProvider -> option string -> LLMError + LLMResponse T;
  env_stream : Log -> LLMProvider -> option string -> list (LLMStreamEvent T) * option LLMError;
  env_aborted : Log -> bool;
  env_deadline : Log -> option LLMError;
  env_clock : Log -> Z }.

Context (env : Env).

(** How a call ends when it does not return: with the reason of the caller's signal, or with an error. *)
Inductive Failure := Aborted | Failed (e : LLMError).

(** One attempt under the timeout, whose abort is one of the answers of [env_chat]. *)
Definition withTimeout (p : LLMProvider) (m : option string) (l : Log) : Log * (LLMError + LLMResponse T) :=
  match env_deadline env l with
  | Some e => (l, inl e)
  | None =>
      let l1 := l ++ [Sent p m] in
      match env_deadline env l1 with Some e => (l1, inl e) | None => (l1, env_chat env l p m) end
  end.

(** [waitForRetry]: [None] when the signal is aborted, [Some None] for [false], and the budget left
    for [true]. Only [chat] passes its signal. *)
Definition waitForRetry (signal : bool) (retryAfterMs : option Z) (remainingMs : Z) (l : Log)
    : Log * option (option Z) :=
  if signal && env_aborted env l then (l, None)
  else match retryAfterMs with
       | None => (l, Some (Some remainingMs))
       | Some ms =>
           if ms <=? 0 then (l, Some (Some remainingMs))
           else if ms >? remainingMs then (l, Some None)
           else let l1 := l ++ [Slept ms] in
             if signal && env_aborted env l1 then (l1, None) else (l1, Some (Some (remainingMs - ms)))
       end.

(** What the attempts on one provider leave when none succeeded. *)
Record Exhausted := mkExhausted { ex_errors : list string; ex_code : option LLMErrorCode; ex_retry : option Z }.

Definition attempt_line (left : nat) (message : string) : string :=
  "attempt " +:+ show_z (Z.of_nat (MAX_RETRIES_PER_PROVIDER - left) + 1) +:+ ": " +:+ message.

(** Whether another attempt on the same provider follows a failure. *)
Definition tries_again (left : nat) (retry failFast : bool) (code : LLMErrorCode) : bool :=
  negb (negb retry || (left =? 1)%nat) && negb (failFast && bool_decide (code = code_rate_limit)).

(** The attempts of [invokeWithRetry] and of one provider of [chatWithOverride]. *)
Fixpoint chat_attempts (left : nat) (p : LLMProvider) (m : option string) (failFast : bool) (remainingMs : Z)
    (x : Exhausted) (l : Log) : Log * (option Exhausted + LLMResponse T) :=
  match left with
  | O => (l, inl (Some x))
  | S left' =>
      if env_aborted env l then (l, inl None)
      else let '(l1, out) := withTimeout p m l in
        if env_aborted env l1 then (l1, inl None)
        else match out with
          | inr r => (l1, inr r)
          | inl e =>
              let code := getLLMErrorCode e in
              let x1 := mkExhausted (ex_errors x ++ [attempt_line left (error_message e)]) (Some code) (error_retry e) in
              if tries_again left (shouldRetry e) failFast code then
                match waitForRetry true (error_retry e) remainingMs l1 with
                | (l2, None) => (l2, inl None)
                | (l2, Some None) => (l2, inl (Some x1))
                | (l2, Some (Some rest)) => chat_attempts left' p m failFast rest x1 l2
                end
              else (l1, inl (Some x1))
          end
  end.

Definition no_attempt : Exhausted := mkExhausted [] None None.

Definition invokeWithRetry (p : LLMProvider) (m : option string) (failFast : bool) (l : Log)
    : Log * (Failure + LLMResponse T) :=
  match chat_attempts MAX_RETRIES_PER_PROVIDER p m failFast MAX_RETRY_AFTER_MS no_attempt l with
  | (l1, inr r) => (l1, inr r)
  | (l1, inl None) => (l1, inl Aborted)
  | (l1, inl (Some x)) =>
      (l1, inl (Failed (ProviderError (formatFailure (prov_name p) (ex_errors x)) (ex_code x ?? code_unknown) (ex_retry x))))
  end.

Definition no_usage : LLMUsage := mkUsage 0 0 None None.

Definition response_tokens (r : option (LLMResponse T)) : LLMUsage :=
  match r with
  | Some r => let u := response_usage r ?? no_usage in
      mkUsage (input_tokens u) (output_tokens u) (Some (cache_read u ?? 0)) (Some (cache_creation u ?? 0))
  | None => mkUsage 0 0 (Some 0) (Some 0)
  end.

(** [a || b || ''] *)
Definition or_model (a : option string) (b : option string) : string :=
  match a with Some (String c s) => String c s | _ => b ?? EmptyString end.

(** The model an attempt on a candidate names: the caller's override counts for the first one only. *)
Definition candidate_model (first : bool) (override : option string) (c : Candidate) : option string :=
  let m := model (assignment c.1) in
  let m := if first then match override with Some o => Some o | None => m end else m in
  if truthy_opt m then m else None.

Definition has_alternative (name : string) (exhausted : list string) (rest : list Candidate) : bool :=
  existsb (fun c => negb (bool_decide (prov_name c.2 = name)) && negb (includes (prov_name c.2) exhausted)) rest.

(** The loop of [chatTier]. *)
Fixpoint chat_candidates (tier : Tier) (subsystem : string) (override : option string) (cs : list Candidate)
    (first : bool) (exhausted failures : list string) (code : LLMErrorCode) (retry : option Z) (l : Log)
    : Log * (Failure + LLMResponse T) :=
  match cs with
  | [] => (l, inl (Failed (ProviderError (JsString.join (newline +:+ newline) failures) code retry)))
  | c :: rest =>
      let p := c.2 in
      if includes (prov_name p) exhausted
      then chat_candidates tier subsystem override rest false exhausted failures code retry l
      else
        let m := candidate_model first override c in
        let started := env_clock env l in
        match invokeWithRetry p m (has_alternative (prov_name p) exhausted rest) l with
        | (l1, inr r) =>
            (l1 ++ [Recorded (mkRow tier (resolved_tier c.1) subsystem (prov_name p) (or_model (Some (response_model r)) m)
                                (response_tokens (Some r)) (env_clock env l1 - started) None)], inr r)
        | (l1, inl Aborted) => (l1, inl Aborted)
        | (l1, inl (Failed e)) =>
            if env_aborted env l1 then (l1, inl Aborted)
            else
              let code1 := getLLMErrorCode e in
              let retry1 := match error_retry e with Some ms => Some ms | None => retry end in
              let l2 := l1 ++ [Recorded (mkRow tier (resolved_tier c.1) subsystem (prov_name p) (m ?? EmptyString)
                                           no_usage (env_clock env l1 - started) (Some code1))] in
              if negb (shouldFailOver code1 (error_message e)) then (l2, inl (Failed e))
              else chat_candidates tier subsystem override rest false
                     (if out_of_capacity code1 then exhausted ++ [prov_name p] else exhausted)
                     (failures ++ [error_message e]) code1 retry1 l2
        end
  end.

Definition chatTier (mgr : LLMManager) (tier : Tier) (subsystem : string) (override : option string) (l : Log)
    : Log * (Failure + LLMResponse T) :=
  if env_aborted env l then (l, inl Aborted)
  else match tierCandidates tier mgr with
       | inl e => (l, inl (Failed e))
       | inr cs => chat_candidates tier subsystem override cs true [] [] code_unknown None l
       end.

(** *** The legacy chain *)

Fixpoint override_providers (mgr : LLMManager) (names : list string) (m : option string) (failures : list string)
    (l : Log) : Log * (Failure + LLMResponse T) :=
  match names with
  | [] => (l, inl (Failed (PlainError (JsString.join (newline +:+ newline) failures))))
  | name :: rest =>
      match map_get name (providers mgr) with
      | None => override_providers mgr rest m (failures ++ [not_registered name]) l
      | Some p =>
          match chat_attempts MAX_RETRIES_PER_PROVIDER p m false MAX_RETRY_AFTER_MS no_attempt l with
          | (l1, inr r) => (l1, inr r)
          | (l1, inl None) => (l1, inl Aborted)
          | (l1, inl (Some x)) => override_providers mgr rest m (failures ++ [formatFailure name (ex_errors x)]) l1
          end
      end
  end.

Definition chatWithOverride (mgr : LLMManager) (overridePrimary : option string) (m : option string) (l : Log)
    : Log * (Failure + LLMResponse T) :=
  if env_aborted env l then (l, inl Aborted)
  else override_providers mgr (getProviderSequence overridePrimary mgr) m [] l.

Definition chat (mgr : LLMManager) (m : option string) (l : Log) : Log * (Failure + LLMResponse T) :=
  match resolveTier medium (tierMap mgr) with
  | Some _ => chatTier mgr medium "legacy" m l
  | None => chatWithOverride mgr None m l
  end.

(** *** Streams *)

(** How the events of one attempt end: without an error, or with one, after content or not. *)
Inductive AttemptEnd :=
  | Clean
  | Broken (message : string) (code : LLMErrorCode) (retryAfterMs : option Z) (retry emitted : bool).

Definition thrown_code (e : LLMError) : LLMErrorCode :=
  match e with ProviderError _ code _ => code | _ => classifyErrorString (error_message e) end.

(** The [for await] over the events of one attempt: what it yields, until an error event or a throw. *)
Fixpoint read_stream (evs : list (LLMStreamEvent T)) (thrown : option LLMError) (emitted : bool)
    : list (LLMStreamEvent T) * AttemptEnd :=
  match evs with
  | [] =>
      ([], match thrown with
           | None => Clean
           | Some e => Broken (error_message e) (thrown_code e) (error_retry e) (shouldRetry e) emitted
           end)
  | EvError msg code retry :: _ =>
      let code := code ?? classifyErrorString msg in ([], Broken msg code retry (shouldRetryCode code) emitted)
  | ev :: rest => let '(out, fin) := read_stream rest thrown (emitted || is_content ev) in (ev :: out, fin)
  end.

(** How the attempts on one provider end: with an event already yielded, or with the error to yield. *)
Inductive StreamEnd := Ended | Exhaust (x : Exhausted).

Definition failure_event (name : string) (x : Exhausted) (code : LLMErrorCode) : LLMStreamEvent T :=
  EvError (formatFailure name (ex_errors x)) (Some code) (ex_retry x).

(** The attempts of [streamWithRetry] and of one provider of the legacy stream, whose error code and
    retry hint outlive a provider ([x]). *)
Fixpoint stream_attempts (left : nat) (p : LLMProvider) (m : option string) (failFast : bool) (remainingMs : Z)
    (x : Exhausted) (l : Log) : Log * list (LLMStreamEvent T) * StreamEnd :=
  match left with
  | O => (l, [], Exhaust x)
  | S left' =>
      let l1 := l ++ [Sent p m] in
      let '(evs, thrown) := env_stream env l p m in
      match read_stream evs thrown false with
      | (out, Clean) => (l1, out, Ended)
      | (out, Broken msg code retryAfter retry emitted) =>
          let x1 := mkExhausted (ex_errors x ++ [attempt_line left msg]) (Some code) retryAfter in
          if emitted then (l1, out ++ [failure_event (prov_name p) x1 code], Ended)
          else if tries_again left retry failFast code then
            match waitForRetry false retryAfter remainingMs l1 with
            | (l2, Some (Some rest)) =>
                let '(l3, out3, fin) := stream_attempts left' p m failFast rest x1 l2 in (l3, out ++ out3, fin)
            | (l2, _) => (l2, out, Exhaust x1)
            end
          else (l1, out, Exhaust x1)
      end
  end.

Definition streamWithRetry (p : LLMProvider) (m : option string) (failFast : bool) (l : Log)
    : Log * list (LLMStreamEvent T) :=
  match stream_attempts MAX_RETRIES_PER_PROVIDER p m failFast MAX_RETRY_AFTER_MS no_attempt l with
  | (l1, out, Ended) => (l1, out)
  | (l1, out, Exhaust x) =>
      (l1, out ++ [failure_event (prov_name p) x
                     (ex_code x ?? classifyErrorString (JsString.join newline (ex_errors x)))])
  end.

Definition is_error (e : LLMStreamEvent T) : bool := match e with EvError _ _ _ => true | _ => false end.

(** The last error and the last response of the events of a candidate. *)
Definition last_error (evs : list (LLMStreamEvent T)) : option (string * option LLMErrorCode * option Z) :=
  last (omap (fun e => match e with EvError m c r => Some (m, c, r) | _ => None end) evs).
Definition last_response (evs : list (LLMStreamEvent T)) : option (LLMResponse T) :=
  last (omap (fun e => match e with EvDone r => Some r | _ => None end) evs).

Definition stream_row (tier : Tier) (c : Candidate) (subsystem : string) (m : option string)
    (evs : list (LLMStreamEvent T)) (latency : Z) : UsageRow :=
  mkRow tier (resolved_tier c.1) subsystem (prov_name c.2) (or_model (response_model <$> last_response evs) m)
    (response_tokens (last_response evs)) latency
    ((fun e => e.1.2 ?? classifyErrorString e.1.1) <$> last_error evs).

(** The loop of [streamTier]. *)
Fixpoint stream_candidates (tier : Tier) (subsystem : string) (override : option string) (cs : list Candidate)
    (first : bool) (exhausted : list string) (failures : list (string * option LLMErrorCode * option Z)) (l : Log)
    : Log * list (LLMStreamEvent T) :=
  match cs with
  | [] =>
      let error := JsString.join (newline +:+ newline) (map (fun f => f.1.1) failures) in
      (l, [EvError error (Some ((last failures ≫= (fun f => f.1.2)) ?? classifyErrorString error))
             (last failures ≫= snd)])
  | c :: rest =>
      let p := c.2 in
      if includes (prov_name p) exhausted
      then stream_candidates tier subsystem override rest false exhausted failures l
      else
        let m := candidate_model first override c in
        let started := env_clock env l in
        let '(l1, evs) := streamWithRetry p m (has_alternative (prov_name p) exhausted rest) l in
        let l2 := l1 ++ [Recorded (stream_row tier c subsystem m evs (env_clock env l1 - started))] in
        let out := List.filter (fun e => negb (is_error e)) evs in
        match last_error evs with
        | None => (l2, out)
        | Some (msg, code, retry) =>
            let terminal := EvError msg code retry in
            let code1 := code ?? classifyErrorString msg in
            if existsb is_content evs || negb (shouldFailOver code1 msg) then (l2, out ++ [terminal])
            else
              let '(l3, out3) := stream_candidates tier subsystem override rest false
                (if out_of_capacity code1 then exhausted ++ [prov_name p] else exhausted)
                (failures ++ [(msg, code, retry)]) l2 in
              (l3, out ++ out3)
        end
  end.

(** [streamTier]: the events and, when no tier resolves, the error thrown. *)
Definition streamTier (mgr : LLMManager) (tier : Tier) (subsystem : string) (override : option string) (l : Log)
    : Log * list (LLMStreamEvent T) * option LLMError :=
  match tierCandidates tier mgr with
  | inl e => (l, [], Some e)
  | inr cs => let '(l1, out) := stream_candidates tier subsystem override cs true [] [] l in (l1, out, None)
  end.

(** The legacy stream over the provider chain. *)
Fixpoint stream_chain (mgr : LLMManager) (names : list string) (m : option string) (failures : list string)
    (code : option LLMErrorCode) (retry : option Z) (l : Log) : Log * list (LLMStreamEvent T) :=
  match names with
  | [] =>
      let aggregated := JsString.join (newline +:+ newline) failures in
      (l, [EvError aggregated (Some (code ?? classifyErrorString aggregated)) retry])
  | name :: rest =>
      match map_get name (providers mgr) with
      | None => stream_chain mgr rest m (failures ++ [not_registered name]) code retry l
      | Some p =>
          match stream_attempts MAX_RETRIES_PER_PROVIDER p m false MAX_RETRY_AFTER_MS (mkExhausted [] code retry) l with
          | (l1, out, Ended) => (l1, out)
          | (l1, out, Exhaust x) =>
              let '(l2, out2) := stream_chain mgr rest m (failures ++ [formatFailure name (ex_errors x)])
                (ex_code x) (ex_retry x) l1 in
              (l2, out ++ out2)
          end
      end
  end.

Definition stream (mgr : LLMManager) (m : option string) (l : Log) : Log * list (LLMStreamEvent T) * option LLMError :=
  match resolveTier medium (tierMap mgr) with
  | Some _ => streamTier mgr medium "legacy" m l
  | None => let '(l1, out) := stream_chain mgr (getProviderSequence None mgr) m [] None None l in (l1, out, None)
  end.

(** *** agents/orchestrator.ts: streamTierWithFallback *)

(** The events of the first tier up to an error that comes before any content. *)
Fixpoint until_early_error (evs : list (LLMStreamEvent T)) (emitted : bool) : list (LLMStreamEvent T) * bool :=
  match evs with
  | [] => ([], false)
  | ev :: rest =>
      if is_error ev && negb emitted then ([], true)
      else let '(out, early) := until_early_error rest (emitted || is_content ev) in (ev :: out, early)
  end.

Definition streamTierWithFallback (mgr : LLMManager) (tier : Tier) (fallbackTier : option Tier) (subsystem : string)
    (override : option string) (l : Log) : Log * list (LLMStreamEvent T) * option LLMError :=
  let first := streamTier mgr tier subsystem override l in
  match fallbackTier with
  | None => first
  | Some f =>
      if bool_decide (f = tier) then first
      else let '(l1, evs, thrown) := first in
        let '(out, early) := until_early_error evs false in
        if early then
          let '(l2, evs2, thrown2) := streamTier mgr f subsystem override l1 in (l2, out ++ evs2, thrown2)
        else (l1, out, thrown)
  end.
End calls.

(** ** The operations of the manager *)

Inductive ManagerOp :=
  | OpRegister (p : LLMProvider)
  | OpSetPrimary (name : string)
  | OpSetFallback (names : list string)
  | OpAssign (tier : Tier) (a : option TierAssignment)
  | OpSetTiers (entries : list (string * option TierAssignment))
  | OpReplace (ps : list LLMProvider) (primary : string) (fallback : list string).

Definition or_keep (m : LLMManager) (r : string + LLMManager) : LLMManager := match r with inr m' => m' | inl _ => m end.

Definition manager_step (m : LLMManager) (op : ManagerOp) : LLMManager :=
  match op with
  | OpRegister p => registerProvider p m
  | OpSetPrimary n => or_keep m (setPrimary n m)
  | OpSetFallback ns => or_keep m (setFallbackChain ns m)
  | OpAssign t a => or_keep m (setTierAssignment t a m)
  | OpSetTiers es => or_keep m (setTierMap es m)
  | OpReplace ps pr fb => replaceProviders ps pr fb m
  end.

Definition manager_run (ops : list ManagerOp) : LLMManager := foldl manager_step new_manager ops.

(** Providers are kept under their names, and an assignment names a registered provider. *)
Definition manager_ok (m : LLMManager) : Prop :=
  (forall name p, map_get name (providers m) = Some p -> prov_name p = name) /\
  (forall t a, map_get t (tierMap m) = Some a -> map_has (provider a) (providers m) = true) /\
  wf (tierMap m).

(** ** Lemmas on the manager *)

Lemma tier_entries_ok entries m next tiers : tier_entries entries m next = inr tiers ->
  (forall t a, map_get t next = Some a -> map_has (provider a) (providers m) = true) -> wf next ->
  (forall t a, map_get t tiers = Some a -> map_has (provider a) (providers m) = true) /\ wf tiers.
Proof.
  revert next. induction entries as [|[name [a|]] rest IH]; intros next; simpl; [by intros [= ->]| |by apply IH].
  destruct (tier_of_name name) as [t|]; [|by apply IH].
  destruct (map_has (provider a) (providers m)) eqn:Ea; [|done]. intros H Hn Hwf. apply (IH _ H); [|by apply wf_set].
  intros t' a'. rewrite map_get_set. case_bool_decide; [by intros [= <-]|apply Hn].
Qed.

Lemma registered_names ps (acc : list (string * LLMProvider)) :
  (forall name p, map_get name acc = Some p -> prov_name p = name) ->
  forall name p, map_get name (foldl (fun acc p => map_set (prov_name p) p acc) acc ps) = Some p -> prov_name p = name.
Proof.
  revert acc. induction ps as [|q ps IH]; intros acc Hacc; simpl; [done|]. apply IH.
  intros name p. rewrite map_get_set. case_bool_decide; [by intros [= <-]|apply Hacc].
Qed.

Lemma manager_step_ok m op : manager_ok m -> manager_ok (manager_step m op).
Proof.
  intros (Hn & Ht & Hwf). destruct op as [p|name|names|t a|entries|ps pr fb]; simpl.
  - split_and!; [| |done]; simpl.
    + intros name q. rewrite map_get_set. case_bool_decide; [by intros [= <-]|apply Hn].
    + intros t a Ha. rewrite map_has_set. apply orb_true_iff. right. by eapply Ht.
  - unfold setPrimary. by destruct (map_has name (providers m)).
  - unfold setFallbackChain. by destruct (List.find _ names).
  - destruct a as [a|]; simpl.
    + destruct (map_has (provider a) (providers m)) eqn:Ea; simpl; [|done]. split_and!; [done| |by apply wf_set].
      simpl. intros t' a'. rewrite map_get_set. case_bool_decide; [by intros [= <-]|apply Ht].
    + split_and!; [done| |by apply wf_delete]. simpl. intros t' a'. rewrite map_get_delete. case_bool_decide; [done|apply Ht].
  - unfold setTierMap. destruct (tier_entries entries m []) as [e|tiers] eqn:E; simpl; [done|].
    apply tier_entries_ok in E as [E1 E2]; [by split_and!|done|apply wf_nil].
  - split_and!; simpl.
    + by apply registered_names.
    + intros t a Ha. by apply map_get_filter in Ha as [_ Ha].
    + unfold wf, map_keys. by apply filter_NoDup_map.
Qed.

Lemma manager_run_ok ops : manager_ok (manager_run ops).
Proof.
  unfold manager_run. assert (manager_ok new_manager) as H by (split_and!; [done|done|apply wf_nil]). revert H.
  generalize new_manager. induction ops as [|op ops IH]; intros m H; simpl; [done|]. by apply IH, manager_step_ok.
Qed.

(** A candidate: its assignment is a mapped one, or the default model of a mapped provider that has a
    default of its own. *)
Definition candidate_ok (m : LLMManager) (tier : Tier) (c : Candidate) : Prop :=
  exists r, In r (mapped_tiers tier m) /\ map_get (provider (assignment r)) (providers m) = Some c.2 /\
    prov_name c.2 = provider (assignment r) /\
    (assignment c.1 = assignment r \/ model (assignment c.1) = None /\ placeholderDefaultModel c.2 = false).

Lemma add_candidate_ok m tier acc r r' : manager_ok m -> In r' (mapped_tiers tier m) ->
  assignment r = assignment r' \/ assignment r = mkAssignment (provider (assignment r')) None ->
  List.Forall (candidate_ok m tier) acc.1 -> List.Forall (candidate_ok m tier) (add_candidate m acc r).1.
Proof.
  intros (Hn & _) Hr' Hr Hacc. destruct acc as [out seen]; simpl in *.
  assert (provider (assignment r) = provider (assignment r')) as Ep by (by destruct Hr as [->| ->]).
  destruct (map_get (provider (assignment r)) (providers m)) as [p|] eqn:E; [|done].
  destruct (negb (truthy_opt (model (assignment r))) && placeholderDefaultModel p) eqn:Es; [done|].
  destruct (includes _ seen); [done|]. simpl. apply List.Forall_app. split; [done|]. constructor; [|constructor].
  exists r'. rewrite <-Ep. split_and!; [done|done|by apply Hn|]. simpl. destruct Hr as [->|Hr]; [by left|right].
  rewrite Hr in Es |- *. by split.
Qed.

Lemma add_pair_ok m tier acc r : manager_ok m -> In r (mapped_tiers tier m) -> List.Forall (candidate_ok m tier) acc.1 ->
  List.Forall (candidate_ok m tier) (add_candidate m (add_candidate m acc r) (without_model r)).1.
Proof. intros Hm Hr Hacc. apply (add_candidate_ok m tier _ _ r); [done..|by right|]. apply (add_candidate_ok m tier _ _ r); auto. Qed.

Lemma first_assigned_mapped ts m r : first_assigned ts (tierMap m) = Some r ->
  In r (omap (fun t => mkResolution t <$> map_get t (tierMap m)) ts).
Proof.
  induction ts as [|t ts IH]; simpl; [done|]. destruct (map_get t (tierMap m)) as [a|]; simpl; [intros [= <-]; by left|apply IH].
Qed.

Lemma foldl_ok {A B} (P : B -> Prop) (f : B -> A -> B) (l : list A) acc :
  P acc -> (forall b a, In a l -> P b -> P (f b a)) -> P (foldl f acc l).
Proof.
  revert acc. induction l as [|a l IH]; intros acc H0 Hf; simpl; [done|].
  apply IH; [apply Hf; [by left|done]|]. intros b x Hx. apply Hf. by right.
Qed.

Lemma tierCandidates_ok m tier cs : manager_ok m -> tierCandidates tier m = inr cs -> List.Forall (candidate_ok m tier) cs.
Proof.
  intros Hm. unfold tierCandidates, resolveTierOrThrow. destruct (resolveTier tier (tierMap m)) as [r|] eqn:Er; [|done].
  destruct (map_get _ _) as [p|] eqn:Ep; [|done]. intros H. apply (inj inr) in H as <-.
  assert (In r (mapped_tiers tier m)) as Hr by (by apply first_assigned_mapped).
  assert (prov_name p = provider (assignment r)) as En by (by apply Hm).
  apply foldl_ok with (P := fun acc => List.Forall (candidate_ok m tier) acc.1); [|intros; by apply add_pair_ok].
  apply (add_candidate_ok m tier _ _ r); [done..|right; simpl; by rewrite En|].
  constructor; [|constructor]. exists r. split_and!; auto.
Qed.

(** ** What a call adds to the log *)

Definition sent_to (d : Log) : list (LLMProvider * option string) :=
  omap (fun e => match e with Sent p m => Some (p, m) | _ => None end) d.
Definition recorded (d : Log) : list UsageRow := omap (fun e => match e with Recorded u => Some u | _ => None end) d.
Definition slept (d : Log) : Z := foldr (fun e z => match e with Slept ms => ms + z | _ => z end) 0 d.

Lemma sent_to_app d1 d2 : sent_to (d1 ++ d2) = sent_to d1 ++ sent_to d2. Proof. apply omap_app. Qed.
Lemma recorded_app d1 d2 : recorded (d1 ++ d2) = recorded d1 ++ recorded d2. Proof. apply omap_app. Qed.
Lemma slept_app d1 d2 : slept (d1 ++ d2) = slept d1 + slept d2.
Proof. unfold slept. induction d1 as [|[] d1 IH]; simpl; rewrite ?IH; lia. Qed.

(** At most [n] attempts on one provider with one model, and waits of at most [ms]. *)
Record attempts (p : LLMProvider) (m : option string) (n : nat) (ms : Z) (d : Log) : Prop := mkAttempts {
  at_sent : List.Forall (eq (p, m)) (sent_to d);
  at_count : (length (sent_to d) <= n)%nat;
  at_slept : 0 <= slept d <= ms;
  at_rows : recorded d = [] }.

Lemma attempts_nil p m n ms : 0 <= ms -> attempts p m n ms [].
Proof. intros. split; simpl; [constructor|lia|lia|done]. Qed.

Lemma attempts_sent p m n ms d : attempts p m n ms d -> attempts p m (S n) ms (Sent p m :: d).
Proof. intros [H1 H2 H3 H4]. split; simpl; [by constructor|lia|done|done]. Qed.

Lemma attempts_slept p m n ms w d : 0 <= w -> attempts p m n ms d -> attempts p m n (w + ms) (Slept w :: d).
Proof. intros Hw [H1 H2 H3 H4]. split; simpl; [done|done|lia|done]. Qed.

Lemma attempts_le p m n n' ms ms' d : attempts p m n ms d -> (n <= n')%nat -> ms <= ms' -> attempts p m n' ms' d.
Proof. intros [H1 H2 H3 H4] Hn Hms. split; [done|lia|lia|done]. Qed.

Section log.
Context {T : Type} (env : Env (T := T)).

Lemma withTimeout_log p m l : exists d, (withTimeout env p m l).1 = l ++ d /\ (d = [] \/ d = [Sent p m]).
Proof.
  unfold withTimeout. destruct (env_deadline env l); [exists []; rewrite app_nil_r; auto|].
  exists [Sent p m]. destruct (env_deadline env _); auto.
Qed.

Lemma waitForRetry_log signal retry rest l l' out : 0 <= rest -> waitForRetry env signal retry rest l = (l', out) ->
  exists w, 0 <= w <= rest /\ (l' = l /\ w = 0 \/ l' = l ++ [Slept w]) /\ (forall r, out = Some (Some r) -> r = rest - w).
Proof.
  intros Hr. unfold waitForRetry. destruct (signal && env_aborted env l).
  { intros [= <- <-]. exists 0. split_and!; [lia|lia|by left|done]. }
  destruct retry as [ms|]; [|intros [= <- <-]; exists 0; split_and!; [lia|lia|by left|intros r [= <-]; lia]].
  destruct (ms <=? 0) eqn:E1; [intros [= <- <-]; exists 0; split_and!; [lia|lia|by left|intros r [= <-]; lia]|].
  destruct (ms >? rest) eqn:E2; [intros [= <- <-]; exists 0; split_and!; [lia|lia|by left|done]|]. to_prop.
  destruct (signal && _); intros [= <- <-]; exists ms; (split_and!; [lia|lia|by right|]); [done|by intros r [= <-]].
Qed.

(** The wait of [waitForRetry] and the attempts that follow it. *)
Lemma attempts_wait p m n rest w l l2 d : 0 <= w <= rest -> (l2 = l /\ w = 0 \/ l2 = l ++ [Slept w]) ->
  attempts p m n (rest - w) d -> exists d', l2 ++ d = l ++ d' /\ attempts p m n rest d'.
Proof.
  intros Hw Hl Hd. destruct Hl as [[-> ->]| ->]; [exists d; by rewrite Z.sub_0_r in Hd|].
  exists (Slept w :: d). rewrite <-app_assoc. split; [done|]. replace rest with (w + (rest - w)) by lia.
  apply attempts_slept; [lia|done].
Qed.

Lemma chat_attempts_log left p m ff rest x l : 0 <= rest ->
  exists d, (chat_attempts env left p m ff rest x l).1 = l ++ d /\ attempts p m left rest d.
Proof.
  revert rest x l. induction left as [|left IH]; intros rest x l Hr; simpl.
  { exists []. rewrite app_nil_r. split; [done|by apply attempts_nil]. }
  destruct (env_aborted env l); [exists []; rewrite app_nil_r; split; [done|by apply attempts_nil]|].
  destruct (withTimeout_log p m l) as (d1 & E1 & Hd1). destruct (withTimeout env p m l) as [l1 out]. simpl in E1. subst l1.
  assert (forall l2, (exists d, l2 = (l ++ d1) ++ d /\ attempts p m left rest d) ->
    exists d, l2 = l ++ d /\ attempts p m (S left) rest d) as Hcons.
  { intros l2 (d & -> & Hd). exists (d1 ++ d). rewrite app_assoc. split; [done|].
    destruct Hd1 as [-> | ->]; simpl; [apply (attempts_le p m left _ rest); [done|lia|lia]|by apply attempts_sent]. }
  assert (exists d, l ++ d1 = (l ++ d1) ++ d /\ attempts p m left rest d) as Hend.
  { exists []. rewrite app_nil_r. split; [done|by apply attempts_nil]. }
  destruct (env_aborted env (l ++ d1)); [by apply Hcons|]. destruct out as [e|r]; [|by apply Hcons].
  destruct (tries_again _ _ _ _); [|by apply Hcons].
  destruct (waitForRetry _ _ _ _ _) as [l2 out2] eqn:Ew. apply waitForRetry_log in Ew as (w & Hw & Hl2 & Hrest); [|done].
  assert (exists d, l2 ++ [] = (l ++ d1) ++ d /\ attempts p m left rest d) as Hwait.
  { apply (attempts_wait p m left rest w); [done|done|]. apply attempts_nil. lia. }
  rewrite app_nil_r in Hwait. destruct out2 as [[rest'|]|]; [|by apply Hcons..].
  specialize (Hrest rest' eq_refl) as ->. apply Hcons.
  match goal with |- context [chat_attempts env left p m ff _ ?x1 l2] =>
    destruct (IH (rest - w) x1 l2 ltac:(lia)) as (d & -> & Hd) end.
  by apply (attempts_wait p m left rest w).
Qed.

Lemma stream_attempts_log left p m ff rest x l : 0 <= rest ->
  exists d, (stream_attempts env left p m ff rest x l).1.1 = l ++ d /\ attempts p m left rest d.
Proof.
  revert rest x l. induction left as [|left IH]; intros rest x l Hr; simpl.
  { exists []. rewrite app_nil_r. split; [done|by apply attempts_nil]. }
  assert (forall l2, (exists d, l2 = (l ++ [Sent p m]) ++ d /\ attempts p m left rest d) ->
    exists d, l2 = l ++ d /\ attempts p m (S left) rest d) as Hcons.
  { intros l2 (d & -> & Hd). exists (Sent p m :: d). rewrite <-app_assoc. split; [done|]. by apply attempts_sent. }
  assert (exists d, l ++ [Sent p m] = (l ++ [Sent p m]) ++ d /\ attempts p m left rest d) as Hend.
  { exists []. rewrite app_nil_r. split; [done|by apply attempts_nil]. }
  destruct (env_stream env l p m) as [evs thrown].
  destruct (read_stream evs thrown false) as [out [|msg code retry rt em]]; [by apply Hcons|].
  destruct em; [by apply Hcons|]. destruct (tries_again _ _ _ _); [|by apply Hcons].
  destruct (waitForRetry _ _ _ _ _) as [l2 out2] eqn:Ew. apply waitForRetry_log in Ew as (w & Hw & Hl2 & Hrest); [|done].
  assert (exists d, l2 ++ [] = (l ++ [Sent p m]) ++ d /\ attempts p m left rest d) as Hwait.
  { apply (attempts_wait p m left rest w); [done|done|]. apply attempts_nil. lia. }
  rewrite app_nil_r in Hwait. destruct out2 as [[rest'|]|]; [|by apply Hcons..].
  specialize (Hrest rest' eq_refl) as ->.
  match goal with |- context [stream_attempts env left p m ff _ ?x1 l2] =>
    destruct (IH (rest - w) x1 l2 ltac:(lia)) as (d & E & Hd); destruct (stream_attempts env left p m ff _ x1 l2) as [[l3 o3] f3] end.
  simpl in E |- *. subst l3. apply Hcons. by apply (attempts_wait p m left rest w).
Qed.

(** ** What a stream yields *)

Notation events := (list (LLMStreamEvent T)).

Definition content (out : events) : events := List.filter is_content out.

(** The content of [out] is that of the last attempt of the log, and of no other. *)
Definition from_one (l' : Log) (out : events) : Prop :=
  content out = [] \/
  exists l0 p m n d, l' = l0 ++ Sent p m :: d /\ sent_to d = [] /\ content out = content (take n (env_stream env l0 p m).1).

(** An error event is the last one. *)
Definition error_last (out : events) : Prop :=
  exists body tail, out = body ++ tail /\ (length tail <= 1)%nat /\ List.Forall (fun e => is_error e = false) body.

Definition quiet (out : events) : Prop := content out = [] /\ List.Forall (fun e => is_error e = false) out.

Lemma content_app a b : content (a ++ b) = content a ++ content b. Proof. apply List.filter_app. Qed.

Lemma from_one_app l' a b : content a = [] -> from_one l' b -> from_one l' (a ++ b).
Proof.
  intros Ha [Hb|(l0 & p & m & n & d & ? & ? & Hb)]; [left; by rewrite content_app, Ha|right].
  exists l0, p, m, n, d. by rewrite content_app, Ha.
Qed.

Lemma from_one_more l' d out : sent_to d = [] -> from_one l' out -> from_one (l' ++ d) out.
Proof.
  intros Hd [H|(l0 & p & m & n & d0 & -> & H1 & H2)]; [by left|right]. exists l0, p, m, n, (d0 ++ d).
  rewrite <-app_assoc, sent_to_app, H1. by split_and!.
Qed.

Lemma error_last_app a b : List.Forall (fun e => is_error e = false) a -> error_last b -> error_last (a ++ b).
Proof.
  intros Ha (body & tail & -> & Hl & Hb). exists (a ++ body), tail. split_and!; [by rewrite app_assoc|done|]. by apply List.Forall_app.
Qed.

Lemma error_last_one (a : events) e : List.Forall (fun e => is_error e = false) a -> error_last (a ++ [e]).
Proof. intros Ha. by exists a, [e]. Qed.

Lemma error_last_none (a : events) : List.Forall (fun e => is_error e = false) a -> error_last a.
Proof. intros Ha. exists a, []. rewrite app_nil_r. split_and!; [done|simpl; lia|done]. Qed.

Lemma content_none (out : events) : existsb is_content out = false <-> content out = [].
Proof.
  unfold content. rewrite filter_nil_iff. split.
  - intros H x Hx. destruct (is_content x) eqn:E; [|done]. by rewrite <-H; symmetry; apply existsb_exists; exists x.
  - intros H. destruct (existsb is_content out) eqn:E; [|done]. apply existsb_exists in E as (x & Hx & Ex). by rewrite H in Ex.
Qed.

(** Reading an attempt yields a prefix of its events, without errors, and knows whether it had content. *)
Lemma read_stream_spec (evs : events) thrown em out fin : read_stream evs thrown em = (out, fin) ->
  List.Forall (fun e => is_error e = false) out /\ (exists n, out = take n evs) /\
  (forall msg code retry rt b, fin = Broken msg code retry rt b -> b = em || existsb is_content out).
Proof.
  revert em out fin. induction evs as [|ev evs IH]; intros em out fin; simpl.
  - intros [= <- <-]. split_and!; [constructor|by exists 0%nat|]. intros * Hb. rewrite orb_false_r. destruct thrown; by simplify_eq.
  - destruct ev as [t|c|r|msg code retry]; simpl.
    4: { intros [= <- <-]. split_and!; [constructor|by exists 0%nat|]. intros * Hb. rewrite orb_false_r. by simplify_eq. }
    all: destruct (read_stream evs thrown _) as [o f] eqn:E; intros [= <- <-];
      destruct (IH _ _ _ E) as (H1 & [n ->] & H3);
      (split_and!; [by constructor|by exists (S n)|]); intros * Hb; rewrite (H3 _ _ _ _ _ Hb); simpl; by destruct em.
Qed.

Lemma stream_attempts_out left p m ff rest x l l' out fin :
  stream_attempts env left p m ff rest x l = (l', out, fin) ->
  match fin with Ended => from_one l' out /\ error_last out | Exhaust _ => quiet out end.
Proof.
  revert rest x l l' out fin. induction left as [|left IH]; intros rest x l l' out fin; simpl.
  { intros [= <- <- <-]. split; [done|constructor]. }
  destruct (env_stream env l p m) as [evs thrown] eqn:Ee.
  destruct (read_stream evs thrown false) as [o f] eqn:Er. apply read_stream_spec in Er as (Hne & [n Ho] & Hb).
  assert (from_one (l ++ [Sent p m]) o) as Hfrom.
  { right. exists l, p, m, n, []. rewrite Ee, Ho. by split_and!. }
  destruct f as [|msg code retry rt em]; [intros [= <- <- <-]; split; [done|by apply error_last_none]|].
  specialize (Hb _ _ _ _ _ eq_refl). simpl in Hb. destruct em.
  { intros [= <- <- <-]. split; [|by apply error_last_one].
    destruct Hfrom as [H|(l0 & p0 & m0 & n0 & d & H1 & H2 & H3)]; [left|right; exists l0, p0, m0, n0, d; split_and!; try done];
      rewrite content_app; simpl; by rewrite app_nil_r. }
  assert (quiet o) as Hq by (split; [by apply content_none|done]).
  destruct (tries_again _ _ _ _); [|intros [= <- <- <-]; exact Hq].
  destruct (waitForRetry _ _ _ _ _) as [l2 [[rest'|]|]]; [|intros [= <- <- <-]; exact Hq..].
  destruct (stream_attempts env left _ _ _ _ _ _) as [[l3 o3] f3] eqn:E3. intros [= <- <- <-]. apply IH in E3.
  destruct Hq as [Hq1 Hq2]. destruct f3 as [|x3].
  - destruct E3 as [H1 H2]. split; [by apply from_one_app|by apply error_last_app].
  - destruct E3 as [H1 H2]. split; [by rewrite content_app, Hq1|by apply List.Forall_app].
Qed.

Lemma streamWithRetry_out p m ff l l' out : streamWithRetry env p m ff l = (l', out) ->
  from_one l' out /\ error_last out.
Proof.
  unfold streamWithRetry. destruct (stream_attempts _ _ _ _ _ _ _ _) as [[l1 o] [|x]] eqn:E; intros [= <- <-];
    apply stream_attempts_out in E; [done|]. destruct E as [E1 E2].
  split; [left; by rewrite content_app, E1|by apply error_last_one].
Qed.

(** ** What a tier's call adds to the log

    Attempts on the candidates that are not [exhausted], at most three and one minute of waits for
    each, and none on a provider after a row says that it is out of capacity. *)
Record tier_log (cs : list Candidate) (override : option string) (exhausted : list string) (d : Log) : Prop := mkTierLog {
  tl_sent : forall p m, In (p, m) (sent_to d) ->
    exists c first, In c cs /\ c.2 = p /\ m = candidate_model first override c /\ ~ In (prov_name p) exhausted;
  tl_count : (length (sent_to d) <= 3 * length cs)%nat;
  tl_slept : 0 <= slept d <= MAX_RETRY_AFTER_MS * Z.of_nat (length cs);
  tl_spent : forall d1 u d2 code, d = d1 ++ Recorded u :: d2 -> row_error u = Some code -> out_of_capacity code = true ->
    List.Forall (fun pm => prov_name pm.1 <> row_provider u) (sent_to d2) }.

Lemma split_at_row (da : Log) u db d1 u' d2 : recorded da = [] -> da ++ Recorded u :: db = d1 ++ Recorded u' :: d2 ->
  u = u' /\ db = d2 \/ exists d1', db = d1' ++ Recorded u' :: d2.
Proof.
  revert d1. induction da as [|e da IH]; intros d1 Hda; simpl.
  - destruct d1 as [|e1 d1]; simpl; [by intros [= -> ->]; left|]. intros [= <- ->]. right. by exists d1.
  - destruct d1 as [|e1 d1]; simpl; [by intros [= -> _]|]. intros [= <- E]. apply (IH d1); [by destruct e|done].
Qed.

Lemma tier_log_nil cs override exhausted : tier_log cs override exhausted [].
Proof. split; simpl; [done|lia|unfold MAX_RETRY_AFTER_MS; lia|]. by intros [|] *. Qed.

Lemma tier_log_skip c cs override exhausted d : tier_log cs override exhausted d -> tier_log (c :: cs) override exhausted d.
Proof.
  intros [H1 H2 H3 H4]. split; [|simpl; lia|simpl length; unfold MAX_RETRY_AFTER_MS in *; lia|done].
  intros p m Hin. destruct (H1 p m Hin) as (c' & first & Hc & H). exists c', first. by split; [right|].
Qed.

Lemma attempts_tier_log c cs first override exhausted d : ~ In (prov_name c.2) exhausted ->
  attempts c.2 (candidate_model first override c) 3 MAX_RETRY_AFTER_MS d -> tier_log (c :: cs) override exhausted d.
Proof.
  intros Hex [H1 H2 H3 H4]. split; [|simpl; lia|simpl length; unfold MAX_RETRY_AFTER_MS in *; lia|].
  - intros p m Hin. rewrite List.Forall_forall in H1. specialize (H1 _ Hin) as [= <- <-]. exists c, first. by split_and!; [left|..].
  - intros d1 u d2 code ->. rewrite recorded_app in H4. by destruct (recorded d1).
Qed.

Lemma tier_log_step c cs first override exhausted exhausted' da u db : ~ In (prov_name c.2) exhausted ->
  attempts c.2 (candidate_model first override c) 3 MAX_RETRY_AFTER_MS da -> row_provider u = prov_name c.2 ->
  (forall code, row_error u = Some code -> out_of_capacity code = true -> In (prov_name c.2) exhausted' \/ db = []) ->
  incl exhausted exhausted' -> tier_log cs override exhausted' db ->
  tier_log (c :: cs) override exhausted (da ++ Recorded u :: db).
Proof.
  intros Hex Ha Hu Hspent Hincl [B1 B2 B3 B4].
  pose proof (attempts_tier_log c cs first override exhausted da Hex Ha) as [A1 A2 A3 _]. destruct Ha as [_ A4 A5 A6].
  split; rewrite ?sent_to_app, ?slept_app; simpl.
  - intros p m [Hin|Hin]%in_app_or; [by apply A1|]. destruct (B1 p m Hin) as (c' & f & Hc & H1 & H2 & H3).
    exists c', f. split_and!; [by right|done|done|]. intros Hx. by apply H3, Hincl.
  - rewrite length_app. lia.
  - unfold MAX_RETRY_AFTER_MS in *. lia.
  - intros d1 u' d2 code E Hc Ho. destruct (split_at_row _ _ _ _ _ _ A6 E) as [[-> ->]|[d1' ->]].
    + rewrite Hu. apply List.Forall_forall. intros [p m] Hin E'. destruct (Hspent code Hc Ho) as [Hx|Hd]; [|by rewrite Hd in Hin].
      destruct (B1 p m Hin) as (? & ? & ? & ? & ? & H). apply H. simpl in E'. by rewrite E'.
    + by eapply B4.
Qed.

Lemma exhausted_incl code (name : string) exhausted :
  incl exhausted (if out_of_capacity code then exhausted ++ [name] else exhausted).
Proof. destruct (out_of_capacity code); [apply incl_appl|]; apply incl_refl. Qed.

Lemma exhausted_in code (name : string) exhausted : out_of_capacity code = true ->
  In name (if out_of_capacity code then exhausted ++ [name] else exhausted).
Proof. intros ->. apply in_or_app. right. by left. Qed.

Lemma chat_candidates_log tier sub override cs first exhausted failures code retry l :
  exists d, (chat_candidates env tier sub override cs first exhausted failures code retry l).1 = l ++ d /\
    tier_log cs override exhausted d.
Proof.
  revert first exhausted failures code retry l. induction cs as [|c cs IH]; intros first exhausted failures code retry l; simpl.
  { exists []. rewrite app_nil_r. split; [done|apply tier_log_nil]. }
  destruct (includes (prov_name c.2) exhausted) eqn:Ei.
  { destruct (IH false exhausted failures code retry l) as (d & -> & Hd). exists d. split; [done|by apply tier_log_skip]. }
  apply includes_false in Ei. unfold invokeWithRetry.
  destruct (chat_attempts_log MAX_RETRIES_PER_PROVIDER c.2 (candidate_model first override c)
    (has_alternative (prov_name c.2) exhausted cs) MAX_RETRY_AFTER_MS no_attempt l ltac:(done)) as (da & E & Ha).
  destruct (chat_attempts _ _ _ _ _ _ _ _) as [l1 out]. simpl in E. subst l1. simpl.
  assert (exists d, l ++ da = l ++ d /\ tier_log (c :: cs) override exhausted d) as Hstop
    by (exists da; split; [done|by eapply attempts_tier_log]).
  destruct out as [[x|]|r]; simpl; [|done|].
  - destruct (env_aborted env _); [done|]. destruct (shouldFailOver _ _) eqn:Ef; simpl.
    + match goal with |- context [chat_candidates env tier sub override cs false ?ex ?fl ?cd ?rt ?l2] =>
        destruct (IH false ex fl cd rt l2) as (db & E & Hb) end.
      rewrite E, <-!app_assoc. eexists. split; [done|]. eapply tier_log_step; [done|done|done| |apply exhausted_incl|exact Hb].
      intros code' Hc Ho. left. simpl in Hc. injection Hc as <-. by apply exhausted_in.
    + rewrite <-app_assoc. eexists. split; [done|]. eapply tier_log_step; [done|done|done|by right|by intros x' Hx'|apply tier_log_nil].
  - rewrite <-app_assoc. eexists. split; [done|]. eapply tier_log_step; [done|done|done|by right|by intros x' Hx'|apply tier_log_nil].
Qed.

Lemma streamWithRetry_log p m ff l : exists d, (streamWithRetry env p m ff l).1 = l ++ d /\
  attempts p m 3 MAX_RETRY_AFTER_MS d.
Proof.
  unfold streamWithRetry. destruct (stream_attempts_log MAX_RETRIES_PER_PROVIDER p m ff MAX_RETRY_AFTER_MS no_attempt l ltac:(done)) as (d & E & Hd).
  exists d. destruct (stream_attempts _ _ _ _ _ _ _ _) as [[l1 o] []]; simpl in *; by subst l1.
Qed.

Lemma stream_candidates_log tier sub override cs first exhausted failures l :
  exists d, (stream_candidates env tier sub override cs first exhausted failures l).1 = l ++ d /\
    tier_log cs override exhausted d.
Proof.
  revert first exhausted failures l. induction cs as [|c cs IH]; intros first exhausted failures l; simpl.
  { exists []. rewrite app_nil_r. split; [done|apply tier_log_nil]. }
  destruct (includes (prov_name c.2) exhausted) eqn:Ei.
  { destruct (IH false exhausted failures l) as (d & -> & Hd). exists d. split; [done|by apply tier_log_skip]. }
  apply includes_false in Ei.
  destruct (streamWithRetry_log c.2 (candidate_model first override c) (has_alternative (prov_name c.2) exhausted cs) l) as (da & E & Ha).
  destruct (streamWithRetry _ _ _ _ _) as [l1 evs]. simpl in E. subst l1.
  destruct (last_error evs) as [[[msg code] retry]|] eqn:El.
  2: { simpl. rewrite <-app_assoc. eexists. split; [done|]. eapply tier_log_step; [done|done|done|by right|by intros x' Hx'|apply tier_log_nil]. }
  destruct (existsb is_content evs || _); simpl.
  - rewrite <-app_assoc. eexists. split; [done|]. eapply tier_log_step; [done|done|done|by right|by intros x' Hx'|apply tier_log_nil].
  - match goal with |- context [stream_candidates env tier sub override cs false ?ex ?fl ?l2] =>
      destruct (IH false ex fl l2) as (db & E & Hb); destruct (stream_candidates env tier sub override cs false ex fl l2) as [l3 o3] end.
    simpl in E |- *. subst l3. rewrite <-!app_assoc. eexists. split; [done|].
    eapply tier_log_step; [done|done|done| |apply exhausted_incl|exact Hb].
    intros code' Hc Ho. left. unfold stream_row in Hc. simpl in Hc. rewrite El in Hc. simpl in Hc. injection Hc as <-. by apply exhausted_in.
Qed.

Lemma last_error_none (evs : events) : last_error evs = None -> List.Forall (fun e => is_error e = false) evs.
Proof.
  unfold last_error. intros H%last_None. apply List.Forall_forall. intros e He. destruct e as [| | |msg code retry]; try done.
  exfalso. assert (In (msg, code, retry) []) as []. rewrite <-H. apply list_elem_of_In, list_elem_of_omap.
  exists (EvError msg code retry). split; [by apply list_elem_of_In|done].
Qed.

Lemma filter_errors_ok (evs : events) : List.Forall (fun e => is_error e = false) (List.filter (fun e => negb (is_error e)) evs).
Proof. apply List.Forall_forall. intros e [_ He]%List.filter_In. by apply negb_true_iff. Qed.

Lemma content_filter (evs : events) : content (List.filter (fun e => negb (is_error e)) evs) = content evs.
Proof.
  unfold content. rewrite filter_comm. apply filter_all. intros e [_ He]%List.filter_In. by destruct e.
Qed.

Lemma stream_candidates_out tier sub override cs first exhausted failures l l' out :
  stream_candidates env tier sub override cs first exhausted failures l = (l', out) -> from_one l' out /\ error_last out.
Proof.
  revert first exhausted failures l l' out. induction cs as [|c cs IH]; intros first exhausted failures l l' out; simpl.
  { intros [= <- <-]. split; [by left|by apply (error_last_one [])]. }
  destruct (includes _ _); [apply IH|].
  destruct (streamWithRetry _ _ _ _ _) as [l1 evs] eqn:Es. apply streamWithRetry_out in Es as [Hf _].
  assert (forall d, sent_to d = [] -> from_one (l1 ++ d) (List.filter (fun e => negb (is_error e)) evs)) as Hf'.
  { intros d Hd. apply from_one_more; [done|]. unfold from_one. by rewrite content_filter. }
  destruct (last_error evs) as [[[msg code] retry]|] eqn:El.
  2: { intros [= <- <-]. split; [by apply Hf'|apply error_last_none, filter_errors_ok]. }
  destruct (existsb is_content evs || _) eqn:Eb.
  - intros [= <- <-]. split; [|apply error_last_one, filter_errors_ok].
    destruct (Hf' [Recorded (stream_row tier c sub (candidate_model first override c) evs (env_clock env l1 - env_clock env l))] eq_refl)
      as [H|(l0 & p0 & m0 & n0 & d & H1 & H2 & H3)]; [left|right; exists l0, p0, m0, n0, d; split_and!; try done];
      rewrite content_app; simpl; by rewrite app_nil_r.
  - destruct (stream_candidates env tier sub override cs _ _ _ _) as [l3 o3] eqn:E3. intros [= <- <-].
    apply IH in E3 as [H1 H2]. apply orb_false_iff in Eb as [Eb _]. apply content_none in Eb.
    split; [apply from_one_app; [by rewrite content_filter|done]|apply error_last_app; [apply filter_errors_ok|done]].
Qed.
End log.

(** ** The number of candidates *)

Definition candidate_id (c : Candidate) : string := candidate_key (prov_name c.2) (model (assignment c.1)).

Lemma add_candidate_keys m acc r : map candidate_id acc.1 = acc.2 -> List.NoDup acc.2 ->
  map candidate_id (add_candidate m acc r).1 = (add_candidate m acc r).2 /\ List.NoDup (add_candidate m acc r).2.
Proof.
  destruct acc as [out seen]; simpl. intros Hk Hn. destruct (map_get _ _) as [p|]; [|done].
  destruct (_ && _); [done|]. destruct (includes _ seen) eqn:Ei; [done|]. simpl. rewrite map_app, Hk. split; [done|].
  apply includes_false in Ei. apply List.NoDup_app; [done|repeat constructor; by intros []|]. by intros x Hx [<-|[]].
Qed.

Lemma tierCandidates_keys m tier cs : tierCandidates tier m = inr cs -> List.NoDup (map candidate_id cs).
Proof.
  unfold tierCandidates. destruct (resolveTierOrThrow tier m) as [e|[r p]]; [done|]. intros H. apply (inj inr) in H as <-.
  match goal with |- List.NoDup (map candidate_id ?acc.1) =>
    enough (map candidate_id acc.1 = acc.2 /\ List.NoDup acc.2) as [-> ?] by done end.
  apply foldl_ok with (P := fun acc => map candidate_id acc.1 = acc.2 /\ List.NoDup acc.2).
  - apply add_candidate_keys; [done|]. simpl. constructor; [by intros []|constructor].
  - intros acc r' _ [H1 H2]. destruct (add_candidate_keys m acc r' H1 H2). by apply add_candidate_keys.
Qed.

Lemma chain_length tier : (length (tier :: TIER_FALLBACK tier) <= 3)%nat.
Proof. destruct tier; simpl; lia. Qed.

Lemma omap_length {A B} (f : A -> option B) l : (length (omap f l) <= length l)%nat.
Proof.
  induction l as [|x l IH]; [simpl; lia|]. change (omap f (x :: l)) with (match f x with Some y => y :: omap f l | None => omap f l end).
  destruct (f x); simpl length in *; lia.
Qed.

Lemma candidates_bound m tier cs : manager_ok m -> tierCandidates tier m = inr cs -> (length cs <= 6)%nat.
Proof.
  intros Hm H. pose proof (tierCandidates_keys _ _ _ H) as Hk. pose proof (tierCandidates_ok _ _ _ Hm H) as Hok.
  rewrite <-(length_map candidate_id).
  transitivity (length (flat_map (fun r => [candidate_key (provider (assignment r)) (model (assignment r));
                                            candidate_key (provider (assignment r)) None]) (mapped_tiers tier m))).
  - apply NoDup_incl_length; [done|]. intros k (c & <- & Hc)%in_map_iff. rewrite List.Forall_forall in Hok.
    destruct (Hok c Hc) as (r & Hr & _ & En & Ha). apply in_flat_map. exists r. split; [done|]. unfold candidate_id. rewrite En.
    destruct Ha as [->|[-> _]]; [by left|right; by left].
  - rewrite (flat_map_constant_length (c := 2)) by done. pose proof (omap_length (fun t => mkResolution t <$> map_get t (tierMap m)) (tier :: TIER_FALLBACK tier)).
    pose proof (chain_length tier). unfold mapped_tiers. lia.
Qed.

(** ** Properties *)

(** Where a call may send, and how often: to the providers mapped to [tier] or to a tier of its
    fall-up chain, with the mapped model, the provider's own default or the caller's override; at
    most 18 attempts, at most six minutes of waits, and nothing more to a provider once a usage row
    says that its attempts ended with it out of capacity. *)
Definition routed (m : LLMManager) (tier : Tier) (override : option string) (d : Log) : Prop :=
  (forall p mo, In (p, mo) (sent_to d) -> exists t a, In t (tier :: TIER_FALLBACK tier) /\ map_get t (tierMap m) = Some a /\
     map_get (provider a) (providers m) = Some p /\ (mo = None \/ mo = model a \/ mo = override)) /\
  (length (sent_to d) <= 18)%nat /\ 0 <= slept d <= 360000 /\
  (forall d1 u d2 code, d = d1 ++ Recorded u :: d2 -> row_error u = Some code -> out_of_capacity code = true ->
     List.Forall (fun pm => prov_name pm.1 <> row_provider u) (sent_to d2)).

Lemma routed_nil m tier override : routed m tier override [].
Proof. split_and!; simpl; [done|lia|lia|lia|]. by intros [|] *. Qed.

Lemma candidate_model_cases first override c : candidate_model first override c = None \/
  candidate_model first override c = model (assignment c.1) \/ candidate_model first override c = override.
Proof. unfold candidate_model. destruct first, override as [o|]; destruct (truthy_opt _); auto. Qed.

Lemma tier_log_routed m tier cs override d : manager_ok m -> tierCandidates tier m = inr cs ->
  tier_log cs override [] d -> routed m tier override d.
Proof.
  intros Hm Hcs [H1 H2 H3 H4]. pose proof (candidates_bound _ _ _ Hm Hcs) as Hb.
  pose proof (tierCandidates_ok _ _ _ Hm Hcs) as Hok. rewrite List.Forall_forall in Hok.
  unfold MAX_RETRY_AFTER_MS in H3. split_and!; [|lia|lia|lia|done].
  intros p mo Hin. destruct (H1 p mo Hin) as (c & first & Hc & <- & -> & _).
  destruct (Hok c Hc) as (r & Hr & Hp & _ & Ha). unfold mapped_tiers in Hr.
  apply list_elem_of_In, list_elem_of_omap in Hr as (t & Ht & Et). apply fmap_Some in Et as (a & Ea & ->). apply list_elem_of_In in Ht. simpl in Hp, Ha.
  exists t, a. split_and!; [done|done|done|].
  destruct (candidate_model_cases first override c) as [->|[->| ->]]; [by left| |by right; right].
  destruct Ha as [->|[-> _]]; [right; by left|by left].
Qed.

(** C23: a conversation reaches only the providers the user mapped to its tier: whatever was registered,
    assigned or replaced before, and whatever providers, clock and signal do, [chatTier] and
    [streamTier] send only to providers mapped to the tier or its fall-up chain, with the mapped model,
    the provider's own default or the caller's override; they make at most 18 attempts and wait at
    most six minutes in all. A provider that is rate limited may be asked up to three times in a row; but
    once the attempts on it have ended and their usage row records a rate limit, an exhausted quota
    or a restriction, the rest of the call sends it nothing more, under any model or tier. *)
Theorem tier_calls_are_routed {T} (env : Env (T := T)) ops tier subsystem override l : let m := manager_run ops in
  (exists d, (chatTier env m tier subsystem override l).1 = l ++ d /\ routed m tier override d) /\
  (exists d, (streamTier env m tier subsystem override l).1.1 = l ++ d /\ routed m tier override d).
Proof.
  intros m. pose proof (manager_run_ok ops) as Hm. fold m in Hm. unfold chatTier, streamTier. split.
  - destruct (env_aborted env l); [exists []; rewrite app_nil_r; split; [done|apply routed_nil]|].
    destruct (tierCandidates tier m) as [e|cs] eqn:Ec; [exists []; rewrite app_nil_r; split; [done|apply routed_nil]|].
    destruct (chat_candidates_log env tier subsystem override cs true [] [] code_unknown None l) as (d & E & Hd).
    exists d. split; [done|by eapply tier_log_routed].
  - destruct (tierCandidates tier m) as [e|cs] eqn:Ec; [exists []; rewrite app_nil_r; split; [done|apply routed_nil]|].
    destruct (stream_candidates_log env tier subsystem override cs true [] [] l) as (d & E & Hd). exists d.
    destruct (stream_candidates _ _ _ _ _ _ _ _ _) as [l1 out]. split; [done|by eapply tier_log_routed].
Qed.

Lemma until_early_error_spec {T} (evs : list (LLMStreamEvent T)) em out early : until_early_error evs em = (out, early) ->
  (early = false -> out = evs) /\ (early = true -> em = false /\ quiet out).
Proof.
  revert em out early. induction evs as [|ev evs IH]; intros em out early; simpl; [intros [= <- <-]; by split|].
  destruct (is_error ev && negb em) eqn:Eb.
  { intros [= <- <-]. split; [done|]. intros _. apply andb_true_iff in Eb as [_ Eb%negb_true_iff]. by split_and!. }
  destruct (until_early_error evs _) as [o b] eqn:Eu. intros [= <- <-]. destruct (IH _ _ _ Eu) as [H1 H2]. split; [intros Hb; by rewrite H1|].
  intros Hb. destruct (H2 Hb) as [[-> Ec]%orb_false_iff [Hq1 Hq2]]. split; [done|]. rewrite andb_true_r in Eb.
  split; [|by constructor]. unfold content. simpl. by rewrite Ec.
Qed.

(** C24: an answer has one author: whatever fails, is retried or falls over to another provider or to the
    fallback tier, all the text and tool calls that reach the caller come from one attempt, the
    last one sent, in its order; and an error event is the last event. *)
Theorem stream_has_one_author {T} (env : Env (T := T)) m tier fallbackTier subsystem override l l' out thrown :
  streamTierWithFallback env m tier fallbackTier subsystem override l = (l', out, thrown) ->
  from_one env l' out /\ error_last out.
Proof.
  assert (forall t l l' out thrown, streamTier env m t subsystem override l = (l', out, thrown) ->
    from_one env l' out /\ error_last out) as Htier.
  { intros t l0 l1 out0 thr. unfold streamTier. destruct (tierCandidates t m) as [e|cs].
    - intros [= <- <- <-]. split; [by left|by apply error_last_none].
    - destruct (stream_candidates _ _ _ _ _ _ _ _ _) as [l2 o2] eqn:E. intros [= <- <- <-]. by eapply stream_candidates_out. }
  unfold streamTierWithFallback. destruct fallbackTier as [f|]; [|apply Htier]. case_bool_decide; [apply Htier|].
  destruct (streamTier env m tier subsystem override l) as [[l1 evs] thr] eqn:E1. apply Htier in E1.
  destruct (until_early_error evs false) as [o early] eqn:Eu. apply until_early_error_spec in Eu as [H1 H2].
  destruct early; [|intros [= <- <- <-]; by rewrite H1].
  destruct (streamTier env m f subsystem override l1) as [[l2 evs2] thr2] eqn:E2. intros [= <- <- <-]. apply Htier in E2 as [E2 E3].
  destruct (H2 eq_refl) as [_ [Hq1 Hq2]]. split; [by apply from_one_app|by apply error_last_app].
Qed.

(** ** A local model that is rate limited, and a cloud one that breaks off *)

Definition demo_ops : list ManagerOp :=
  [OpRegister (mkProvider "ollama" true); OpRegister (mkProvider "cloud" false);
   OpAssign low (Some (mkAssignment "ollama" (Some "llama:8b"))); OpAssign medium (Some (mkAssignment "cloud" (Some "big")));
   OpAssign high (Some (mkAssignment "nowhere" None))].

Definition demo_env : Env (T := unit) :=
  mkEnv
    (fun l p m => match m with
                  | Some _ => inl (ProviderError "slow down" code_rate_limit (Some 25000))
                  | None => inr (mkResponse "fine" [] None "default") end)
    (fun l p m => if placeholderDefaultModel p then ([EvError "429 slow down" None (Some 25000)], None)
                  else ([EvText "Hel"; EvText "lo"; EvError "connection reset: network" None None; EvText "never"], None))
    (fun _ => false) (fun _ => None) (fun l => Z.of_nat (length l)).

Example demo_tiers : tierMap (manager_run demo_ops) =
  [(low, mkAssignment "ollama" (Some "llama:8b")); (medium, mkAssignment "cloud" (Some "big"))].
Proof. vm_compute. done. Qed.

(** The local provider is asked once, since another one is left; the cloud provider is asked until
    the budget of a minute would be exceeded. *)
Example demo_chat :
  let r := chatTier demo_env (manager_run demo_ops) low "chat" None [] in
  map (fun pm => (prov_name pm.1, pm.2)) (sent_to r.1) =
    [("ollama", Some "llama:8b"); ("cloud", Some "big"); ("cloud", Some "big"); ("cloud", Some "big")] /\
  slept r.1 = 50000 /\ map row_error (recorded r.1) = [Some code_rate_limit; Some code_rate_limit].
Proof. vm_compute. done. Qed.

Lemma triple_eta {A B C} (x : A * B * C) : x = (x.1.1, x.1.2, x.2). Proof. by destruct x as [[a b] c]. Qed.

Lemma stream_has_one_author_witness :
  let r := streamTierWithFallback demo_env (manager_run demo_ops) low (Some high) "chat" None [] in
  (from_one demo_env r.1.1 r.1.2 /\ error_last r.1.2) /\
  content r.1.2 = [EvText "Hel"; EvText "lo"] /\ length r.1.2 = 3%nat.
Proof.
  intros r. split; [|vm_compute; done].
  exact (stream_has_one_author demo_env (manager_run demo_ops) low (Some high) "chat" None [] r.1.1 r.1.2 r.2 (triple_eta r)).
Defined.

(** A model that is gone moves to the provider's default; an unknown 404 does not. *)
Example gone_model : map (shouldFailOver code_not_found)
  ["The model `llama3` has been decommissioned"; "404 page not found"; "model_not_found"; "retired in May: this model"] =
  [true; false; true; true].
Proof. vm_compute. reflexivity. Qed.

Example classified : map classifyErrorString
  ["Provider 'x' failed after 1 attempt: HTTP 403"; "error 1429"; "Request timed  out"; "HTTP 404"; "tool_use is not supported here"; "HTTP 422"; ""] =
  [code_forbidden; code_unknown; code_network; code_not_found; code_unsupported_tools; code_bad_request; code_unknown].
Proof. vm_compute. reflexivity. Qed.
