(* ===== verification/ToolSelection.v ===== *)
(** * Which tools a turn needs, for which models (actions/tools/tool-relevance)

    selection.ts, the words and patterns of a conversation that make a group of tools
    relevant, and model-class.ts, the models whose tool list may be shortened, with
    the policy of policy.ts. Reasons, which are only logged, are left out. *)
From Stdlib Require Import Ascii.
From S2P Require Export JsNumber ToolGate Llm.

(** ** policy.ts *)

Record ToolFilterPolicy := mkPolicy { policy_enabled : bool; maxParamsB : number; policy_models : list string }.

Definition DEFAULT_MAX_PARAMS_B : number := num_of_Z 20.
Definition DISABLED_POLICY : ToolFilterPolicy := mkPolicy false DEFAULT_MAX_PARAMS_B [].

(** [JARVIS_TOOL_FILTER]. *)
Definition envOverride (raw : option string) : option bool :=
  match raw with
  | None => None
  | Some raw =>
      let v := to_lower (trim raw) in
      if includes v ["off"; "0"; "false"; "no"] then Some false
      else if includes v ["on"; "1"; "true"; "yes"] then Some true else None
  end.

Definition getToolFilterPolicy (current : ToolFilterPolicy) (env : option string) : ToolFilterPolicy :=
  if policy_enabled current && bool_decide (envOverride env = Some false) then DISABLED_POLICY else current.

(** A value of the configuration file. *)
Inductive ConfigValue := cfg_bool (b : bool) | cfg_number (n : number) | cfg_string (s : string) | cfg_list (l : list ConfigValue) | cfg_other.

Record FilterConfig := mkFilterConfig { cfg_enabled : option ConfigValue; cfg_max_params : option ConfigValue; cfg_models : option ConfigValue }.

Definition max_params_of (v : option ConfigValue) : number :=
  match v with
  | Some (cfg_number n) => if is_finite_num n && num_ltb (num_of_Z 0) n then n else DEFAULT_MAX_PARAMS_B
  | _ => DEFAULT_MAX_PARAMS_B
  end.

Definition models_of (v : option ConfigValue) : list string :=
  match v with
  | Some (cfg_list l) => omap (fun m => match m with cfg_string s => if truthy (trim s) then Some (trim s) else None | _ => None end) l
  | _ => []
  end.

Definition toolFilterPolicyFromConfig (raw : option FilterConfig) (env : option string) : ToolFilterPolicy :=
  let override := envOverride env in
  if bool_decide (override = Some false) then DISABLED_POLICY
  else
    let enabled := bool_decide (override = Some true)
                   || match raw ≫= cfg_enabled with Some (cfg_bool b) => b | _ => false end in
    if negb enabled then DISABLED_POLICY
    else mkPolicy true (max_params_of (raw ≫= cfg_max_params)) (models_of (raw ≫= cfg_models)).

(** ** selection.ts *)

Record TriggerGroup := mkGroup { group_tools : list string; group_words : list string; group_patterns : list regex }.

Definition URL_RE : regex :=
  rany [rseq [rlit_i "http"; ropt (rlit_i "s"); rlit "://"; rplus rnonspace];
        rseq [RWordB; rlit_i "www"; rlit "."; rplus rnonspace]].

Definition PATH_RE : regex :=
  rany [rseq [RAlt RBegin rspace; ropt (chars "~."); chars "/\"; rplus (RChar (fun c => is_word c || negb (lacks c ".-/\")))];
        rlit "```"].

Definition TRIGGER_GROUPS : list TriggerGroup :=
  [ mkGroup ["browser_navigate"; "browser_snapshot"; "browser_click"; "browser_type"; "browser_hover"; "browser_press_key";
             "browser_scroll"; "browser_screenshot"; "browser_upload_file"; "browser_evaluate"]
      ["url"; "web"; "website"; "webpage"; "page"; "browse"; "browser"; "article"; "link"; "online"; "google"; "search";
       "internet"; "site"; "blog"; "news"; "research"; "summarise"; "summarize"; "competitor"; "landscape"; "dashboard"] [URL_RE];
    mkGroup ["desktop_snapshot"; "desktop_find_element"; "desktop_list_windows"; "desktop_screenshot"; "capture_screen"; "ui_snapshot"]
      ["screen"; "window"; "see"; "look"; "showing"; "display"; "dialog"; "button"; "field"; "visible"; "onscreen"; "desktop"] [];
    mkGroup ["desktop_click"; "desktop_type"; "desktop_press_keys"; "desktop_launch_app"; "desktop_focus_window"; "ui_act"]
      ["open"; "launch"; "start"; "click"; "type"; "press"; "key"; "keyboard"; "notepad"; "app"; "application"; "close"; "focus"; "switch"] [];
    mkGroup ["run_command"]
      ["run"; "command"; "terminal"; "shell"; "script"; "build"; "compile"; "test"; "install"; "npm"; "bun"; "git"; "log"; "logs";
       "process"; "restart"; "service"; "check"; "status"; "deploy"] [];
    mkGroup ["read_file"; "list_directory"; "write_file"]
      ["file"; "folder"; "directory"; "read"; "write"; "save"; "disk"; "path"; "download"] [PATH_RE];
    mkGroup ["get_clipboard"; "set_clipboard"] ["clipboard"; "copy"; "copied"; "paste"] [];
    mkGroup ["list_sidecars"]
      ["sidecar"; "sidecars"; "machine"; "machines"; "device"; "devices"; "remote"; "paired"; "computer"; "laptop"; "pc"] [];
    mkGroup ["run_skill"; "record_skill"; "manage_skills"]
      ["skill"; "skills"; "record"; "replay"; "macro"; "teach"; "demonstrate"] [];
    mkGroup ["delegate_task"; "manage_agents"]
      ["delegate"; "agent"; "agents"; "specialist"; "parallel"; "background"; "spawn"] [];
    mkGroup ["manage_workflow"]
      ["workflow"; "workflows"; "automation"; "automate"; "schedule"; "scheduled"; "recurring"; "daily"; "weekly"; "morning";
       "trigger"; "every"] [];
    mkGroup ["manage_goals"] ["goal"; "goals"; "objective"; "okr"; "target"; "milestone"; "ship"] [];
    mkGroup ["commitments"]
      ["remind"; "reminder"; "remember"; "commit"; "commitment"; "promise"; "todo"; "deadline"; "due"; "follow"] [];
    mkGroup ["create_document"] ["document"; "doc"; "note"; "notes"; "memo"; "report"; "draft"; "write"] [];
    mkGroup ["content_pipeline"] ["content"; "pipeline"; "idea"; "outline"; "publish"; "post"] [];
    mkGroup ["research_queue"] ["research"; "queue"; "queued"; "investigate"] [] ].

Definition SELECTION_WINDOW_CHARS : Z := 8000.

Definition message_parts (m : LLMMessage) : list string :=
  match msg_role m with
  | role_user | role_assistant =>
      match msg_content m with
      | inl s => [s]
      | inr blocks => omap (fun b => match b with TextBlock t => Some t | ImageBlock _ _ => None end) blocks
      end
  | _ => []
  end.

(** The end of the conversation, in lower case (ASCII letters; no trigger has another letter). *)
Definition conversationText (messages : list LLMMessage) : string :=
  let joined := to_lower (JsString.join newline (flat_map message_parts messages)) in
  let n := Z.of_nat (String.length joined) in
  if n >? SELECTION_WINDOW_CHARS then sdrop (Z.to_nat (n - SELECTION_WINDOW_CHARS)) joined else joined.

Definition wordRe (word : string) : regex := rseq [RWordB; rlit_i word; RWordB].

Definition groupMatches (g : TriggerGroup) (text : string) : bool :=
  if existsb (fun p => re_test p text) (group_patterns g) then true
  else existsb (fun w => re_test (wordRe w) text) (group_words g).

Definition selectRelevantNames (text : string) : list string :=
  flat_map (fun g => if groupMatches g text then group_tools g else []) TRIGGER_GROUPS.

Definition triggerTableNames : list string := flat_map group_tools TRIGGER_GROUPS.
Definition hasTrigger (t : ToolDefinition) : bool := includes (tool_def_name t) triggerTableNames.

(** ** model-class.ts *)

Record ModelRef := mkRef { ref_provider : string; ref_model : option string }.

Definition FRONTIER_VETO : list string :=
  ["claude"; "sonnet"; "opus"; "haiku"; "gpt-4"; "gpt-5"; "gpt4"; "gpt5"; "o1-"; "o3-"; "o4-"; "gemini"; "grok"; "usejarvis"].

(** [PARAM_TAG] after its separator: digits, a fraction, [b], and a separator or the end. *)
Definition tag_at (s : string) : option string :=
  let '(d, rest) := span_digits s in
  let '(tag, rest) :=
    match rest with
    | String "." s' => let '(f, rest') := span_digits s' in
        if truthy f then (d +:+ "." +:+ f, rest') else (d, rest)
    | _ => (d, rest)
    end in
  match rest with
  | String b rest' =>
      if truthy d && Ascii.eqb (lower_ascii b) "b"
         && match rest' with EmptyString => true | String c _ => negb (lacks c "-_.:") end
      then Some tag else None
  | EmptyString => None
  end.

(** The first match of [PARAM_TAG] that starts with a separator. *)
Fixpoint tag_after (s : string) : option string :=
  match s with
  | EmptyString => None
  | String c s' =>
      if negb (lacks c "-:_") then match tag_at s' with Some t => Some t | None => tag_after s' end else tag_after s'
  end.

Definition parseParamsB (modelId : string) : option number :=
  match (match tag_at modelId with Some t => Some t | None => tag_after modelId end) with
  | None => None
  | Some t => let n := number_of_string t in if is_finite_num n && num_ltb (num_of_Z 0) n then Some n else None
  end.

Definition vetoed (text : string) : bool := let t := to_lower text in existsb (fun v => str_includes v t) FRONTIER_VETO.

(** [classifyModel]: whether the model may have its list shortened. *)
Definition classifyModel (ref : ModelRef) (providerKind : option string) (policy : ToolFilterPolicy) : bool :=
  let kind := to_lower (providerKind ?? ref_provider ref) in
  let model := ref_model ref ?? EmptyString in
  let full := if truthy model then ref_provider ref +:+ ":" +:+ model else ref_provider ref in
  if existsb (fun m => bool_decide (to_lower m = to_lower full)) (policy_models policy) then true
  else if negb (truthy model) then false
  else if vetoed model || vetoed (ref_provider ref) then false
  else if negb (bool_decide (kind = "ollama")) then false
  else match parseParamsB model with
       | None => false
       | Some p => negb (num_ltb (maxParamsB policy) p)
       end.

Definition tierCandidateRefs (tier : Tier) (tiers : TierMap) : list ModelRef :=
  omap (fun t => (fun a => mkRef (provider a) (model a)) <$> map_get t tiers) (tier :: TIER_FALLBACK tier).

Definition PLACEHOLDER_DEFAULT_KINDS : list string := ["ollama"; "openai_compatible"; "litellm"].

Definition expandCandidate (ref : ModelRef) (kind : string) : list ModelRef :=
  if negb (truthy_opt (ref_model ref)) || includes kind PLACEHOLDER_DEFAULT_KINDS then [ref]
  else [ref; mkRef (ref_provider ref) None].

Definition ref_key (r : ModelRef) : string := ref_provider r +:+ ":" +:+ (ref_model r ?? EmptyString).

(** The loop of [allReachableRefs]: the references and the keys seen. *)
Definition add_ref (acc : list ModelRef * list string) (r : ModelRef) : list ModelRef * list string :=
  let '(refs, seen) := acc in
  if includes (ref_key r) seen then acc else (refs ++ [r], seen ++ [ref_key r]).

Definition allReachableRefs (tier : Tier) (fallbackTier : option Tier) (tiers : TierMap) : list ModelRef :=
  let refs := tierCandidateRefs tier tiers in
  match fallbackTier with
  | None => refs
  | Some f =>
      if bool_decide (f = tier) then refs
      else (foldl add_ref (refs, map ref_key refs) (tierCandidateRefs f tiers)).1
  end.

(** The kinds of the configured providers; an absent one has its name for its kind. *)
Definition kind_of (kinds : list (string * option string)) (name : string) : string :=
  match map_get name kinds with Some (Some k) => k | _ => name end.

Definition isTierEligible (tier : Tier) (tiers : TierMap) (kinds : list (string * option string)) (policy : ToolFilterPolicy)
    (fallbackTier : option Tier) : bool :=
  if negb (policy_enabled policy) then false
  else match allReachableRefs tier fallbackTier tiers with
       | [] => false
       | candidates =>
           forallb (fun a => let kind := kind_of kinds (ref_provider a) in
                      forallb (fun r => classifyModel r (Some kind) policy) (expandCandidate a kind)) candidates
       end.
