(* ===== verification/ToolRelevance.v ===== *)
(** * The tool relevance filter (actions/tools/tool-relevance, agents/orchestrator.ts)

    authority-classes.ts, the two axes of a tool; invariant.ts, which normalises a
    candidate set; ledger.ts, the names a conversation keeps; filter.ts, the
    decision for one turn; discover.ts, the way back to the full set; and the part
    of the orchestrator that holds the ledgers. [relevance_step] is any of its
    operations. The lists of names of a failure stand for its text. *)
From Stdlib Require Import Ascii.
From S2P Require Export ToolSelection LlmManager.

(** ** authority-classes.ts *)

Inductive OutsideReach := framed | fetch | replay | inert.

#[export] Instance OutsideReach_eq_dec : EqDecision OutsideReach.
Proof. solve_decision. Defined.

Definition REPLAY_TOOLS : list string :=
  ["manage_skills"; "create_document"; "content_pipeline"; "manage_goals"; "list_sidecars"].
Definition SYNTHETIC_TOOLS : list string := ["discover_tools"; "ask_for_clarification"].
Definition NOT_REPLAY_DESPITE_APPEARANCES : list string := ["commitments"; "research_queue"].
Definition INERT_TOOLS : list string :=
  ["write_file"; "set_clipboard"; "get_system_info"; "request_approval"; "desktop_click"; "desktop_type";
   "desktop_press_keys"; "desktop_launch_app"; "desktop_focus_window"].

Definition outsideReach (t : ToolDefinition) : OutsideReach :=
  let name := tool_def_name t in
  if includes name SYNTHETIC_TOOLS then inert
  else if isUntrustedSourceTool name (Some (tool_category t)) then framed
  else if includes name NOT_REPLAY_DESPITE_APPEARANCES then fetch
  else if includes name REPLAY_TOOLS then replay
  else if includes name INERT_TOOLS then inert
  else fetch.

(** [Object.hasOwn] *)
Definition hasExplicitAction (t : ToolDefinition) : bool :=
  existsb (fun e => bool_decide (e.1 = tool_def_name t)) TOOL_ACTION_MAP.

(** A rank; [None] is infinity. *)
Definition authorityRank (t : ToolDefinition) : option Z :=
  if includes (tool_def_name t) SYNTHETIC_TOOLS then Some (severityRank read_data)
  else if negb (hasExplicitAction t) then None
  else Some (severityRank (getActionForTool (tool_def_name t) (tool_category t))).

Definition FLOOR_RANK_CEILING : Z := severityRank read_data.
Definition PERCEPTION_RANK_CEILING : Z := severityRank access_browser.

Definition isFloorEligible (t : ToolDefinition) : bool :=
  bool_decide (outsideReach t = inert) && hasExplicitAction t
  && match authorityRank t with Some r => r <=? FLOOR_RANK_CEILING | None => false end.

Definition FRAMED_ACTORS : list string := ["browser_upload_file"; "run_skill"; "record_skill"].

Definition isFramedPerception (t : ToolDefinition) : bool :=
  bool_decide (outsideReach t = framed) && negb (includes (tool_def_name t) FRAMED_ACTORS).

Definition isInvariantTrigger (t : ToolDefinition) : bool :=
  bool_decide (outsideReach t = fetch)
  || match authorityRank t with Some r => r >? PERCEPTION_RANK_CEILING | None => true end.

(** ** invariant.ts *)

Inductive Invariant := I1 | I3_subset | I3_floor | I4.

Record InvariantFailure := mkFailure { failed_invariant : Invariant; failed_names : list string }.

Record NormalizeResult := mkNormalized {
  norm_tools : list ToolDefinition; failedOpen : bool; norm_failures : list InvariantFailure; repaired : list string }.

Definition names (ts : list ToolDefinition) : list string := map tool_def_name ts.

Definition checkFramingInvariant (all selected : list ToolDefinition) : option InvariantFailure :=
  match List.filter isInvariantTrigger selected with
  | [] => None
  | triggers =>
      match List.filter (fun t => isFramedPerception t && negb (includes (tool_def_name t) (names selected))) all with
      | [] => None
      | missing => Some (mkFailure I1 (names triggers ++ names missing))
      end
  end.

(** The tools of [all] whose name is kept, in the order of [all]. *)
Definition build (all : list ToolDefinition) (keep : list string) : list ToolDefinition :=
  List.filter (fun t => includes (tool_def_name t) keep) all.

Definition normalizeInner (all candidate : list ToolDefinition) : NormalizeResult :=
  match List.filter (fun t => negb (includes (tool_def_name t) (names all))) candidate with
  | _ :: _ as foreign => mkNormalized all true [mkFailure I3_subset (names foreign)] []
  | [] =>
      let keep := names candidate in
      let added := match checkFramingInvariant all (build all keep) with
                   | Some _ => List.filter (fun t => isFramedPerception t && negb (includes (tool_def_name t) keep)) all
                   | None => [] end in
      let keep := keep ++ names added in
      let tools := build all keep in
      let after := match checkFramingInvariant all tools with Some f => [f] | None => [] end in
      let missingFloor := List.filter (fun t => isFloorEligible t && negb (includes (tool_def_name t) keep)) all in
      let failures := after ++ match missingFloor with [] => [] | _ => [mkFailure I3_floor (names missingFloor)] end in
      match failures with
      | _ :: _ => mkNormalized all true failures []
      | [] => mkNormalized tools false [] (names added)
      end
  end.

Definition normalizeToolSet (all candidate : list ToolDefinition) : NormalizeResult :=
  match all with [] => mkNormalized [] false [] [] | _ => normalizeInner all candidate end.

(** ** ledger.ts *)

Definition DISCOVER_TOOLS : string := "discover_tools".

(** A set of names in insertion order. *)
Definition ToolExposureLedger := list string.

Definition ledger_add (toolNames : list string) (l : ToolExposureLedger) : ToolExposureLedger :=
  foldl (fun acc n => if truthy n && negb (includes n acc) then acc ++ [n] else acc) l toolNames.

Definition admittedNames (args : json) : list string :=
  match jget "names" args with
  | Some (JStr s) => [s]
  | Some (JArr l) => omap (fun v => match v with JStr s => if truthy s then Some s else None | _ => None end) l
  | _ => []
  end.

Definition seed_call (isKnown : string -> bool) (l : ToolExposureLedger) (tc : LLMToolCall) : ToolExposureLedger :=
  let l1 := if isKnown (call_name tc) then ledger_add [call_name tc] l else l in
  if bool_decide (call_name tc = DISCOVER_TOOLS)
  then ledger_add (List.filter isKnown (admittedNames (call_arguments tc))) l1 else l1.

Definition seedFromMessages (messages : option (list LLMMessage)) (isKnown : option (string -> bool))
    (l : ToolExposureLedger) : ToolExposureLedger :=
  let ok := isKnown ?? (fun _ => true) in
  match messages with
  | None => l
  | Some ms =>
      foldl (fun acc m => match msg_role m, msg_calls m with
                          | role_assistant, Some calls => foldl (seed_call ok) acc calls
                          | _, _ => acc end) l ms
  end.

(** ** filter.ts *)

(** The counter of [noteViolation] and the time of its last line in the log. *)
Record Violations := mkViolations { violationCount : Z; lastLoggedAt : Z }.
Definition LOG_INTERVAL_MS : Z := 60000.
Definition noteViolation (now : Z) (v : Violations) : Violations :=
  mkViolations (violationCount v + 1) (if now - lastLoggedAt v <? LOG_INTERVAL_MS then lastLoggedAt v else now).

Record FilterDecision := mkDecided {
  decided_tools : list ToolDefinition; filtered : bool; exposed : list string; decided_failures : list InvariantFailure }.

Definition unfiltered (all : list ToolDefinition) : FilterDecision := mkDecided all false (names all) [].

Section filter.
(** The one [DISCOVER_TOOLS_DEFINITION] object. *)
Variable discover_id : nat.

Definition DISCOVER_TOOLS_DEFINITION : ToolDefinition :=
  mkTool discover_id DISCOVER_TOOLS
    ("Your tool list has been shortened for this conversation and some tools are hidden. "
     +:+ "Call this with no arguments to see every tool that exists, including the hidden ones. "
     +:+ "Call it with `names` to un-hide the ones you need; they become available immediately "
     +:+ "and stay available for the rest of the conversation. "
     +:+ "Use this instead of improvising with a different tool when the one you want is missing.")
    "general" [("names", mkParam "array" "Tool names to un-hide. Omit to list the full catalogue first." false None)]
    None None.

Record FilterContext := mkContext {
  ctx_all : list ToolDefinition;
  ctx_messages : list LLMMessage;
  ctx_ledger : ToolExposureLedger;
  ctx_tier : Tier;
  ctx_fallback : option Tier;
  ctx_tiers : TierMap;
  ctx_kinds : list (string * option string);
  ctx_policy : ToolFilterPolicy }.

Definition candidates_of (ctx : FilterContext) : list ToolDefinition :=
  let wanted := selectRelevantNames (conversationText (ctx_messages ctx)) in
  List.filter (fun t => isFloorEligible t || includes (tool_def_name t) wanted || includes (tool_def_name t) (ctx_ledger ctx))
    (ctx_all ctx).

Definition decideTools (ctx : FilterContext) (now : Z) (v : Violations) : FilterDecision * Violations :=
  let all := ctx_all ctx in
  if (length all =? 0)%nat then (unfiltered all, v)
  else if negb (policy_enabled (ctx_policy ctx)) then (unfiltered all, v)
  else if negb (isTierEligible (ctx_tier ctx) (ctx_tiers ctx) (ctx_kinds ctx) (ctx_policy ctx) (ctx_fallback ctx))
    then (unfiltered all, v)
  else
    let result := normalizeToolSet all (candidates_of ctx) in
    if failedOpen result then (mkDecided all false (names all) (norm_failures result), noteViolation now v)
    else if (length all <=? length (norm_tools result))%nat then (unfiltered all, v)
    else
      let tools := norm_tools result ++ [DISCOVER_TOOLS_DEFINITION] in
      if negb (existsb (fun t => bool_decide (tool_def_name t = DISCOVER_TOOLS)) tools)
      then (unfiltered all, noteViolation now v)
      else (mkDecided tools true (names tools) [], v).

Definition realtimeToolDecision (all : list ToolDefinition) : FilterDecision := unfiltered all.

(** ** discover.ts *)

(** [description.search(/\.\s/)] *)
Fixpoint sentence_end (s : string) : option nat :=
  match s with
  | String c (String d _ as s') => if Ascii.eqb c "." && is_ws d then Some O else S <$> sentence_end s'
  | _ => None
  end.

Definition summarise (description : string) : string :=
  let first := match sentence_end description with
               | Some (S cut) => stake (S (S cut)) description
               | _ => description end in
  if (160 <? String.length first)%nat then stake 157 first +:+ "..." else trim first.

Definition catalogue_line (exposed : list string) (t : ToolDefinition) : string :=
  "- " +:+ tool_def_name t +:+ " [" +:+ (if includes (tool_def_name t) exposed then "available" else "hidden") +:+ "]: "
  +:+ summarise (tool_description t).

Definition buildCatalogue (all : list ToolDefinition) (exposed : list string) : string :=
  JsString.join newline
    ((show_z (Z.of_nat (length all)) +:+ " tools exist; "
      +:+ show_z (Z.of_nat (length (List.filter (fun t => includes (tool_def_name t) exposed) all))) +:+ " are currently available.")
     :: map (catalogue_line exposed) all
     ++ [EmptyString; "Call discover_tools({" +:+ String dquote "names" +:+ String dquote ": [" +:+ String dquote "tool_name"
         +:+ String dquote ", ...]}) to un-hide what you need."]).

(** [handleDiscoverTools]: the result, the names admitted, and the ledger. *)
Definition handleDiscoverTools (args : json) (all : list ToolDefinition) (l : ToolExposureLedger) (exposed : list string)
    : string * list string * ToolExposureLedger :=
  match admittedNames args with
  | [] => (buildCatalogue all exposed, [], l)
  | requested =>
      let admitted := List.filter (fun n => includes n (names all)) requested in
      let unknown := List.filter (fun n => negb (includes n (names all))) requested in
      let parts :=
        (match admitted with
         | [] => []
         | _ => ["Now available: " +:+ JsString.join ", " admitted +:+ ". They are in your tool list from the next step onward."]
         end)
        ++ match unknown with
           | [] => []
           | _ => ["No such tool: " +:+ JsString.join ", " unknown +:+ ". Call discover_tools with no arguments to see the catalogue."]
           end in
      (JsString.join " " parts, admitted, ledger_add admitted l)
  end.

(** What an intercepted call answers, whether the exposed set grew, the names admitted and the ledger. *)
Record Discovery := mkDiscovery {
  disc_result : string; disc_grew : bool; disc_admitted : list string; disc_ledger : ToolExposureLedger }.

Definition interceptDiscovery (toolName : string) (args : json) (all : list ToolDefinition) (l : ToolExposureLedger)
    (exposed : list string) (filterEnabled : bool) (haltedState : option string) : option Discovery :=
  if negb (bool_decide (toolName = DISCOVER_TOOLS)) then None
  else if negb filterEnabled then None
  else match haltedState with
       | Some (String _ _ as halted) =>
           Some (mkDiscovery ("[SYSTEM " +:+ to_upper halted +:+ "] Tool discovery is suspended.") false [] l)
       | _ =>
           let '(result, admitted, l1) := handleDiscoverTools args all l exposed in
           Some (mkDiscovery result (length l <? length l1)%nat admitted l1)
       end.

(** ** agents/orchestrator.ts *)

(** What the orchestrator keeps for the filter: the policy and the environment switch, the registered
    tools, the tier map and the kinds of the providers, a ledger per agent, and the violations. *)
Record Relevance := mkRelevance {
  rel_policy : ToolFilterPolicy;
  rel_env : option string;
  rel_tools : list ToolDefinition;
  rel_tiers : TierMap;
  rel_kinds : list (string * option string);
  rel_ledgers : list (string * ToolExposureLedger);
  rel_violations : Violations }.

Definition ledgerFor (agentId : string) (w : Relevance) : ToolExposureLedger := map_get agentId (rel_ledgers w) ?? [].

Definition with_ledger (agentId : string) (l : ToolExposureLedger) (w : Relevance) : Relevance :=
  mkRelevance (rel_policy w) (rel_env w) (rel_tools w) (rel_tiers w) (rel_kinds w) (map_set agentId l (rel_ledgers w))
    (rel_violations w).
Definition with_violations (v : Violations) (w : Relevance) : Relevance :=
  mkRelevance (rel_policy w) (rel_env w) (rel_tools w) (rel_tiers w) (rel_kinds w) (rel_ledgers w) v.

Definition live_policy (w : Relevance) : ToolFilterPolicy := getToolFilterPolicy (rel_policy w) (rel_env w).

(** [decideTurnTools]: [None] is an undefined list. *)
Definition decideTurnTools (agentId : string) (messages : list LLMMessage) (tier : Tier) (fallbackTier : option Tier)
    (now : Z) (w : Relevance) : option FilterDecision * Relevance :=
  let w := with_ledger agentId (ledgerFor agentId w) w in
  match rel_tools w with
  | [] => (None, w)
  | all =>
      let '(d, v) := decideTools (mkContext all messages (ledgerFor agentId w) tier fallbackTier (rel_tiers w) (rel_kinds w)
                                    (live_policy w)) now (rel_violations w) in
      (Some d, with_violations v w)
  end.

Definition handleDiscoveryCall (agentId toolName : string) (args : json) (shown : list string) (halted : option string)
    (w : Relevance) : option Discovery * Relevance :=
  match interceptDiscovery toolName args (rel_tools w) (ledgerFor agentId w) shown (policy_enabled (live_policy w)) halted with
  | None => (None, w)
  | Some d => (Some d, with_ledger agentId (disc_ledger d) w)
  end.

Definition noteToolUse (agentId name : string) (w : Relevance) : Relevance :=
  if negb (policy_enabled (live_policy w)) then w
  else if negb (includes name (names (rel_tools w))) then w
  else with_ledger agentId (ledger_add [name] (ledgerFor agentId w)) w.

(** *** Any of its operations *)

Inductive RelevanceOp :=
  | OpPolicy (p : ToolFilterPolicy)
  | OpEnv (e : option string)
  | OpTools (ts : list ToolDefinition)
  | OpTiers (tiers : TierMap) (kinds : list (string * option string))
  | OpDecide (agent : string) (messages : list LLMMessage) (tier : Tier) (fallbackTier : option Tier) (now : Z)
  | OpDiscover (agent toolName : string) (args : json) (shown : list string) (halted : option string)
  | OpUse (agent name : string)
  | OpTerminate (agent : string).

(** What an operation shows: a decision and a call of a tool, each with the state it was made from,
    the names a discovery admits, and the end of an agent's ledger. *)
Inductive RelevanceEvent :=
  | Decided (agent : string) (from : Relevance) (tier : Tier) (fallbackTier : option Tier) (d : FilterDecision)
  | Called (agent : string) (from : Relevance) (name : string)
  | Admits (agent name : string)
  | Forgot (agent : string).

Definition relevance_step (w : Relevance) (op : RelevanceOp) : Relevance * list RelevanceEvent :=
  match op with
  | OpPolicy p => (mkRelevance p (rel_env w) (rel_tools w) (rel_tiers w) (rel_kinds w) (rel_ledgers w) (rel_violations w), [])
  | OpEnv e => (mkRelevance (rel_policy w) e (rel_tools w) (rel_tiers w) (rel_kinds w) (rel_ledgers w) (rel_violations w), [])
  | OpTools ts => (mkRelevance (rel_policy w) (rel_env w) ts (rel_tiers w) (rel_kinds w) (rel_ledgers w) (rel_violations w), [])
  | OpTiers tiers kinds =>
      (mkRelevance (rel_policy w) (rel_env w) (rel_tools w) tiers kinds (rel_ledgers w) (rel_violations w), [])
  | OpDecide agent messages tier fb now =>
      match decideTurnTools agent messages tier fb now w with
      | (Some d, w') => (w', [Decided agent w tier fb d])
      | (None, w') => (w', [])
      end
  | OpDiscover agent name args shown halted =>
      match handleDiscoveryCall agent name args shown halted w with
      | (Some d, w') => (w', map (Admits agent) (disc_admitted d))
      | (None, w') => (w', [])
      end
  | OpUse agent name =>
      (noteToolUse agent name w, [Called agent w name])
  | OpTerminate agent =>
      (mkRelevance (rel_policy w) (rel_env w) (rel_tools w) (rel_tiers w) (rel_kinds w) (map_delete agent (rel_ledgers w))
         (rel_violations w), [Forgot agent])
  end.

Fixpoint relevance_run (w : Relevance) (ops : list RelevanceOp) : Relevance * list RelevanceEvent :=
  match ops with
  | [] => (w, [])
  | op :: ops' =>
      let '(w1, out) := relevance_step w op in
      let '(w2, out') := relevance_run w1 ops' in (w2, out ++ out')
  end.

(** ** The normalised set *)

Lemma build_In all keep t : In t (build all keep) <-> In t all /\ In (tool_def_name t) keep.
Proof. unfold build. by rewrite List.filter_In, includes_In. Qed.

(** I1, as a property of the kept names. *)
Definition framing_kept (all : list ToolDefinition) (keep : list string) : Prop :=
  forall t p, In t (build all keep) -> isInvariantTrigger t = true -> In p all -> isFramedPerception p = true ->
    In (tool_def_name p) keep.

Lemma checkFraming_spec all keep : checkFramingInvariant all (build all keep) = None <-> framing_kept all keep.
Proof.
  unfold checkFramingInvariant, framing_kept.
  destruct (List.filter isInvariantTrigger (build all keep)) as [|t0 ts] eqn:Et.
  { split; [|done]. intros _ t p Ht Htr. rewrite filter_nil_iff in Et. by rewrite (Et t Ht) in Htr. }
  destruct (List.filter _ all) as [|p0 ps] eqn:Ep.
  - split; [|done]. intros _ t p _ _ Hp Hpp. rewrite filter_nil_iff in Ep. specialize (Ep p Hp).
    rewrite Hpp in Ep. simpl in Ep. apply negb_false_iff, includes_In, in_map_iff in Ep as (q & <- & Hq). by apply build_In in Hq as [_ Hq].
  - split; [done|]. intros H. exfalso.
    assert (In p0 (p0 :: ps)) as Hp by (by left). rewrite <-Ep in Hp.
    apply List.filter_In in Hp as [Hp [Hpp Hn]%andb_true_iff]. apply negb_true_iff, includes_false in Hn. apply Hn.
    assert (In t0 (t0 :: ts)) as Ht by (by left). rewrite <-Et in Ht. apply List.filter_In in Ht as [Ht Htr].
    apply in_map, build_In. split; [done|by apply (H t0)].
Qed.

(** Normalisation of a candidate set taken from the input, with the floor, never fails open: it
    keeps the candidate and restores I1. *)
Lemma normalize_spec all (p : ToolDefinition -> bool) : (forall t, isFloorEligible t = true -> p t = true) ->
  exists keep, normalizeInner all (List.filter p all) =
      mkNormalized (build all keep) false [] (repaired (normalizeInner all (List.filter p all))) /\
    (forall t, In t all -> p t = true -> In (tool_def_name t) keep) /\ framing_kept all keep.
Proof.
  intros Hfloor. unfold normalizeInner.
  assert (List.filter (fun t => negb (includes (tool_def_name t) (names all))) (List.filter p all) = []) as ->.
  { apply filter_nil_iff. intros t [Ht _]%List.filter_In. apply negb_false_iff, includes_In. by apply in_map. }
  set (keep := names (List.filter p all)).
  set (added := match checkFramingInvariant all (build all keep) with Some _ => _ | None => [] end).
  assert (framing_kept all (keep ++ names added)) as Hf.
  { unfold added. destruct (checkFramingInvariant all (build all keep)) eqn:E.
    - intros t q _ _ Hq Hqp. apply in_or_app. destruct (includes (tool_def_name q) keep) eqn:Ek; [left; by apply includes_In|right].
      apply in_map, List.filter_In. split; [done|]. by rewrite Hqp, Ek.
    - simpl. rewrite app_nil_r. by apply checkFraming_spec. }
  assert (forall t, In t all -> p t = true -> In (tool_def_name t) (keep ++ names added)) as Hkeep.
  { intros t Ht Hp. apply in_or_app. left. by apply in_map, List.filter_In. }
  apply checkFraming_spec in Hf as Hc. rewrite Hc.
  assert (List.filter (fun t => isFloorEligible t && negb (includes (tool_def_name t) (keep ++ names added))) all = []) as ->.
  { apply filter_nil_iff. intros t Ht. destruct (isFloorEligible t) eqn:Ef; [|done]. simpl.
    apply negb_false_iff, includes_In. by apply Hkeep, Hfloor. }
  exists (keep ++ names added). by split_and!.
Qed.

(** What a decision promises: the full list unchanged, or a part of it in its order with the way
    back appended, which keeps the floor, the tools the ledger names and I1, for a turn whose
    models are all cleared. *)
Definition decision_ok (ctx : FilterContext) (d : FilterDecision) : Prop :=
  exposed d = names (decided_tools d) /\
  (d = unfiltered (ctx_all ctx) \/
   exists keep, let kept := build (ctx_all ctx) keep in
     decided_tools d = kept ++ [DISCOVER_TOOLS_DEFINITION] /\ filtered d = true /\
     (exists t, In t (ctx_all ctx) /\ ~ In t kept) /\
     (forall t, In t (ctx_all ctx) -> isFloorEligible t = true -> In t kept) /\
     (forall t, In t (ctx_all ctx) -> In (tool_def_name t) (ctx_ledger ctx) -> In t kept) /\
     (forall t p, In t kept -> isInvariantTrigger t = true -> In p (ctx_all ctx) -> isFramedPerception p = true -> In p kept) /\
     isTierEligible (ctx_tier ctx) (ctx_tiers ctx) (ctx_kinds ctx) (ctx_policy ctx) (ctx_fallback ctx) = true).

Lemma shorter_filter {A} (f : A -> bool) l : (length (List.filter f l) < length l)%nat -> exists x, In x l /\ f x = false.
Proof.
  intros H. destruct (List.find (fun x => negb (f x)) l) as [x|] eqn:E.
  - apply List.find_some in E as [E1 E2]. exists x. split; [done|by apply negb_true_iff].
  - rewrite filter_all in H; [lia|]. intros x Hx. pose proof (List.find_none _ _ E x Hx) as Hn. by apply negb_false_iff.
Qed.

Lemma decideTools_ok ctx now v : decision_ok ctx (decideTools ctx now v).1 /\ (decideTools ctx now v).2 = v.
Proof.
  assert (decision_ok ctx (unfiltered (ctx_all ctx))) as Hun by (by split; [|left]).
  unfold decideTools. destruct (length (ctx_all ctx) =? 0)%nat eqn:E0; [done|]. destruct (negb (policy_enabled _)); [done|].
  destruct (isTierEligible _ _ _ _ _) eqn:Ee; [|done]. simpl.
  destruct (normalize_spec (ctx_all ctx) (fun t => isFloorEligible t || includes (tool_def_name t) (selectRelevantNames (conversationText (ctx_messages ctx)))
     || includes (tool_def_name t) (ctx_ledger ctx))) as (keep & E & Hkeep & Hf).
  { intros t ->. done. }
  fold (candidates_of ctx) in E. unfold normalizeToolSet. destruct (ctx_all ctx) as [|t0 ts] eqn:Ea; [done|]. rewrite <-Ea in *.
  rewrite E. simpl. destruct (length (ctx_all ctx) <=? length (build (ctx_all ctx) keep))%nat eqn:El; [done|].
  rewrite existsb_app. simpl. rewrite orb_true_r. simpl. split; [|done].
  split; [done|right]. exists keep. simpl. split_and!; try done.
  - apply Nat.leb_gt in El. destruct (shorter_filter _ _ El) as (t & Ht & Hn). exists t. split; [done|].
    intros [_ Hk]%build_In. by apply includes_false in Hn.
  - intros t Ht Hfl. apply build_In. split; [done|]. apply Hkeep; [done|]. by rewrite Hfl.
  - intros t Ht Hl%includes_In. apply build_In. split; [done|]. apply Hkeep; [done|]. by rewrite Hl, orb_true_r.
  - intros t p Ht Htr Hp Hpp. apply build_In. split; [done|]. by apply (Hf t).
Qed.

(** ** The ledger only grows *)

Lemma ledger_add_incl ns l : incl l (ledger_add ns l).
Proof.
  unfold ledger_add. revert l. induction ns as [|n ns IH]; intros l; simpl; [apply incl_refl|].
  eapply incl_tran; [|apply IH]. destruct (_ && _); [apply incl_appl|]; apply incl_refl.
Qed.

Lemma ledger_add_In ns l n : truthy n = true -> In n ns -> In n (ledger_add ns l).
Proof.
  intros Ht. unfold ledger_add. revert l. induction ns as [|m ns IH]; intros l; simpl; [done|]. intros [->|Hin]; [|by apply IH].
  rewrite Ht. simpl. apply (ledger_add_incl ns). destruct (includes n l) eqn:E; simpl; [by apply includes_In|].
  apply in_or_app. right. by left.
Qed.

(** Every name an agent keeps is in its ledger until it is terminated. *)
Lemma with_ledger_get a l w b : ledgerFor b (with_ledger a l w) = if bool_decide (b = a) then l else ledgerFor b w.
Proof. unfold ledgerFor, with_ledger. simpl. rewrite map_get_set. by case_bool_decide. Qed.

Lemma step_ledger w op b : (forall out, (relevance_step w op).2 = out -> ~ In (Forgot b) out) ->
  incl (ledgerFor b w) (ledgerFor b (relevance_step w op).1).
Proof.
  intros Hno. specialize (Hno _ eq_refl). destruct op as [p|e|ts|tiers kinds|a ms tier fb now|a name args shown halted|a name|a]; simpl in *; try apply incl_refl.
  - assert (forall w', rel_ledgers w' = rel_ledgers (with_ledger a (ledgerFor a w) w) -> incl (ledgerFor b w) (ledgerFor b w')) as H.
    { intros w' E. replace (ledgerFor b w') with (ledgerFor b (with_ledger a (ledgerFor a w) w)) by (unfold ledgerFor; by rewrite E).
      rewrite with_ledger_get. case_bool_decide; [by subst; apply incl_refl|apply incl_refl]. }
    unfold decideTurnTools. destruct (rel_tools _); [by apply H|]. destruct (decideTools _ _ _) as [d v]. by apply H.
  - unfold handleDiscoveryCall. destruct (interceptDiscovery _ _ _ _ _ _ _) as [d|] eqn:E; simpl; [|apply incl_refl].
    rewrite with_ledger_get. case_bool_decide as Hb; [subst b|apply incl_refl]. revert E. unfold interceptDiscovery.
    destruct (negb _); [done|]. destruct (negb _); [done|].
    assert (forall r ad l1, handleDiscoverTools args (rel_tools w) (ledgerFor a w) shown = (r, ad, l1) -> incl (ledgerFor a w) l1) as Hl.
    { intros r ad l1. unfold handleDiscoverTools. destruct (admittedNames args); intros [= <- <- <-]; [apply incl_refl|apply ledger_add_incl]. }
    destruct (handleDiscoverTools _ _ _ _) as [[r ad] l1]. specialize (Hl _ _ _ eq_refl).
    destruct halted as [[|c s]|]; intros [= <-]; simpl; [done|apply incl_refl|done].
  - unfold noteToolUse. destruct (negb _); [apply incl_refl|]. destruct (negb _); [apply incl_refl|].
    rewrite with_ledger_get. case_bool_decide; [subst b; apply ledger_add_incl|apply incl_refl].
  - unfold ledgerFor at 2. simpl. rewrite map_get_delete. case_bool_decide; [|apply incl_refl]. subst b. exfalso. apply Hno. by left.
Qed.

(** What puts [n] on the ledger of [agent]: a call of a registered tool while the filter is on, or a
    discovery that admits it. *)
Definition keeps (agent n : string) (e : RelevanceEvent) : Prop :=
  e = Admits agent n \/
  exists from, e = Called agent from n /\ policy_enabled (live_policy from) = true /\ In n (names (rel_tools from)).

Lemma step_kept w op b n e : truthy n = true -> keeps b n e -> In e (relevance_step w op).2 -> In n (ledgerFor b (relevance_step w op).1).
Proof.
  intros Hn He. destruct op as [p|ev|ts|tiers kinds|a ms tier fb now|a name args shown halted|a name|a]; simpl; try done.
  - destruct (decideTurnTools a ms tier fb now w) as [[d|] w1]; simpl; [|done]. intros [<-|[]]. by destruct He as [He|(? & He & _)].
  - unfold handleDiscoveryCall. destruct (interceptDiscovery _ _ _ _ _ _ _) as [d|] eqn:E; simpl; [|done].
    intros (m & <- & Hin)%in_map_iff. destruct He as [[= -> ->]|(? & He & _)]; [|done].
    rewrite with_ledger_get, bool_decide_true by done. revert E. unfold interceptDiscovery.
    destruct (negb _); [done|]. destruct (negb _); [done|].
    assert (forall r ad l1, handleDiscoverTools args (rel_tools w) (ledgerFor b w) shown = (r, ad, l1) -> In n ad -> In n l1) as Hl.
    { intros r ad l1. unfold handleDiscoverTools. destruct (admittedNames args); intros [= <- <- <-]; [done|by apply ledger_add_In]. }
    destruct (handleDiscoverTools _ _ _ _) as [[r ad] l1]. specialize (Hl _ _ _ eq_refl).
    destruct halted as [[|c s]|]; intros [= <-]; simpl in *; [by apply Hl|done|by apply Hl].
  - intros [<-|[]]. destruct He as [He|(from & [= -> <- ->] & Hp & Hi%includes_In)]; [done|]. unfold noteToolUse. rewrite Hp, Hi. simpl.
    rewrite with_ledger_get, bool_decide_true by done. apply (ledger_add_In [n]); [done|by left].
  - intros [<-|[]]. by destruct He as [He|(? & He & _)].
Qed.

Lemma step_decided w op a from tier fb d : In (Decided a from tier fb d) (relevance_step w op).2 ->
  from = w /\ exists ms, decision_ok (mkContext (rel_tools w) ms (ledgerFor a w) tier fb (rel_tiers w) (rel_kinds w) (live_policy w)) d.
Proof.
  destruct op as [p|e|ts|tiers kinds|b ms t f now|b name args shown halted|b name|b]; simpl; try done.
  - unfold decideTurnTools. destruct (rel_tools (with_ledger b (ledgerFor b w) w)) as [|t0 ts] eqn:Et; [done|]. simpl in Et.
    match goal with |- context [decideTools ?c ?n ?v] => pose proof (decideTools_ok c n v) as [Hok _]; destruct (decideTools c n v) as [d0 v0] end.
    simpl. intros [[= <- <- <- <- <-]|[]]. split; [done|]. exists ms. rewrite Et.
    rewrite with_ledger_get, bool_decide_true in Hok by done. exact Hok.
  - destruct (handleDiscoveryCall _ _ _ _ _ _) as [[d0|] w0]; simpl; [|done]. by intros (m & ? & _)%in_map_iff.
  - by intros [|].
  - by intros [|].
Qed.

Lemma step_violations w op : rel_violations (relevance_step w op).1 = rel_violations w.
Proof.
  destruct op as [p|e|ts|tiers kinds|a ms tier fb now|a name args shown halted|a name|a]; simpl; try done.
  - unfold decideTurnTools. destruct (rel_tools _); [done|].
    match goal with |- context [decideTools ?c ?n ?v] => pose proof (decideTools_ok c n v) as [_ Hv]; destruct (decideTools c n v) as [d0 v0] end.
    simpl in *. by rewrite Hv.
  - unfold handleDiscoveryCall. by destruct (interceptDiscovery _ _ _ _ _ _ _).
  - unfold noteToolUse. destruct (negb _); [done|]. by destruct (negb _).
Qed.

(** The ledgers at a decision hold what was called and admitted before it. *)
Definition ledgers_hold (w : Relevance) (log : list RelevanceEvent) : Prop :=
  forall b n l1 e l2, truthy n = true -> log = l1 ++ e :: l2 -> keeps b n e -> ~ In (Forgot b) l2 -> In n (ledgerFor b w).

Lemma step_hold w op log : ledgers_hold w log -> ledgers_hold (relevance_step w op).1 (log ++ (relevance_step w op).2).
Proof.
  intros H b n l1 e l2 Hn E He Hf. apply List.app_eq_app in E as (l & [[-> E]|[-> E]]).
  - destruct l as [|x l]; simpl in E; [apply (step_kept _ _ _ _ e); [done..|]; rewrite <-E; by left|]. injection E as <- ->.
    apply step_ledger; [intros ? <- Hx; apply Hf, in_or_app; by right|]. eapply H; [done|done|done|].
    intros Hx. apply Hf, in_or_app. by left.
  - apply (step_kept _ _ _ _ e); [done..|]. rewrite E. apply in_or_app. right. by left.
Qed.

(** What a decision taken after [log] promises: the registered tools unchanged, or some of them, in
    order, with the way back appended: the floor, every registered tool that the agent, since its
    ledger began, has called while it was registered and the filter on, or was admitted by a
    discovery, and, if one of them fetches unframed content or outranks the browser, every framed
    reader. Every model the call may reach is cleared. *)
Definition turn_ok (log : list RelevanceEvent) (a : string) (from : Relevance) (tier : Tier) (fb : option Tier)
    (d : FilterDecision) : Prop :=
  exposed d = names (decided_tools d) /\
  (d = unfiltered (rel_tools from) \/
   exists keep, let kept := build (rel_tools from) keep in
     decided_tools d = kept ++ [DISCOVER_TOOLS_DEFINITION] /\ filtered d = true /\
     (exists t, In t (rel_tools from) /\ ~ In t kept) /\
     (forall t, In t (rel_tools from) -> isFloorEligible t = true -> In t kept) /\
     (forall t p, In t kept -> isInvariantTrigger t = true -> In p (rel_tools from) -> isFramedPerception p = true -> In p kept) /\
     (forall n k1 e k2 t, log = k1 ++ e :: k2 -> keeps a n e -> ~ In (Forgot a) k2 -> truthy n = true -> In t (rel_tools from) ->
        tool_def_name t = n -> In t kept) /\
     isTierEligible tier (rel_tiers from) (rel_kinds from) (live_policy from) fb = true).

Lemma step_turn_ok w op log a from tier fb d : ledgers_hold w log -> In (Decided a from tier fb d) (relevance_step w op).2 ->
  turn_ok log a from tier fb d.
Proof.
  intros Hl Hin. destruct (step_decided _ _ _ _ _ _ _ Hin) as [-> (ms & He & Hd)]. split; [done|].
  destruct Hd as [->|(keep & H1 & H2 & H3 & H4 & H5 & H6 & H7)]; [by left|right]. exists keep. simpl in *. split_and!; try done.
  intros n k1 e k2 t E Hk Hf Hn Ht En. apply H5; [done|]. rewrite En. by eapply Hl.
Qed.

Lemma decided_alone w op a from tier fb d : In (Decided a from tier fb d) (relevance_step w op).2 ->
  (relevance_step w op).2 = [Decided a from tier fb d].
Proof.
  destruct op as [p|e|ts|tiers kinds|b ms t f now|b name args shown halted|b name|b]; simpl; try done.
  - destruct (decideTurnTools _ _ _ _ _ _) as [[d0|] w1]; simpl; [by intros [->|[]]|done].
  - destruct (handleDiscoveryCall _ _ _ _ _ _) as [[d0|] w1]; simpl; [by intros (m & ? & _)%in_map_iff|done].
  - by intros [|].
  - by intros [|].
Qed.

Lemma run_turns ops : forall w log, ledgers_hold w log ->
  rel_violations (relevance_run w ops).1 = rel_violations w /\
  forall l1 a from tier fb d l2, (relevance_run w ops).2 = l1 ++ Decided a from tier fb d :: l2 ->
    turn_ok (log ++ l1) a from tier fb d.
Proof.
  induction ops as [|op ops IH]; intros w log Hl; simpl; [split; [done|by intros [|]]|].
  pose proof (step_violations w op) as Hv. pose proof (step_hold w op log Hl) as Hl'.
  pose proof (fun a from tier fb d => step_turn_ok w op log a from tier fb d Hl) as Hd.
  pose proof (fun a from tier fb d => decided_alone w op a from tier fb d) as Hal.
  destruct (relevance_step w op) as [w1 out]. simpl in *. destruct (IH w1 (log ++ out) Hl') as [IH1 IH2].
  destruct (relevance_run w1 ops) as [w2 out']. simpl in *. split; [by rewrite IH1|].
  intros l1 a from tier fb d l2 E. apply List.app_eq_app in E as (l & [[-> E]|[-> E]]).
  - destruct l as [|e l]; simpl in E.
    + symmetry in E. specialize (IH2 [] _ _ _ _ _ _ E). by rewrite !app_nil_r in *.
    + injection E as <- ->. assert (In (Decided a from tier fb d) (l1 ++ Decided a from tier fb d :: l)) as Hin
        by (apply in_or_app; right; by left).
      pose proof (Hal _ _ _ _ _ Hin) as Ho. destruct l1 as [|x [|y l1]]; [rewrite app_nil_r; by apply Hd| |]; done.
  - rewrite app_assoc. by eapply IH2.
Qed.

Definition new_relevance : Relevance := mkRelevance DISABLED_POLICY None [] [] [] [] (mkViolations 0 0).

(** C25: the filter never opens a way around the framing: whatever the conversations say and whatever is
    called, admitted, registered, mapped or switched in between, a decision either leaves the list
    alone or keeps, of the registered tools in their order and with the way back appended, the
    floor, all that the agent was admitted by a discovery or has called while the filter was on,
    and, beside any unframed or high-ranking tool, every framed reader, for a call whose models are
    all cleared; and no normalisation ever fails open. A call made while the filter is off is not
    recorded, and its tool may be withdrawn when the filter is turned on ([called_while_off]). *)
Theorem filtered_turns_keep_framing ops l1 a from tier fb d l2 :
  (relevance_run new_relevance ops).2 = l1 ++ Decided a from tier fb d :: l2 ->
  turn_ok l1 a from tier fb d /\ violationCount (rel_violations (relevance_run new_relevance ops).1) = 0.
Proof.
  intros E. destruct (run_turns ops new_relevance []) as [H1 H2]; [by intros b n [|? ?] e k2|].
  rewrite H1. split; [|done]. by eapply (H2 l1).
Qed.
End filter.

(** ** What a filtered call can reach

    [placeholderDefaultModel] of the registered providers is the mirror of the kinds. *)
Definition kinds_agree (kinds : list (string * option string)) (m : LLMManager) : Prop :=
  forall name p, map_get name (providers m) = Some p -> includes (kind_of kinds name) PLACEHOLDER_DEFAULT_KINDS = true ->
    placeholderDefaultModel p = true.

Definition cleared (kinds : list (string * option string)) (policy : ToolFilterPolicy) (name : string) (m : option string) : bool :=
  classifyModel (mkRef name m) (Some (kind_of kinds name)) policy.

Lemma classify_falsy name m k policy : truthy_opt m = false -> classifyModel (mkRef name m) k policy = classifyModel (mkRef name None) k policy.
Proof. by destruct m as [[|c s]|]. Qed.

Lemma add_ref_incl acc r : incl acc.1 (add_ref acc r).1.
Proof. destruct acc as [refs seen]; simpl. destruct (includes _ _); [apply incl_refl|by apply incl_appl, incl_refl]. Qed.

(** The references of the fallback tier are reachable ones, or have the key of one. *)
Lemma add_refs_In rs acc : acc.2 = map ref_key acc.1 ->
  forall r, In r acc.1 \/ In r rs -> exists r', In r' (foldl add_ref acc rs).1 /\ ref_key r' = ref_key r.
Proof.
  revert acc. induction rs as [|r0 rs IH]; intros acc Hacc r; simpl; [intros [Hr|[]]; by exists r|].
  assert ((add_ref acc r0).2 = map ref_key (add_ref acc r0).1) as Hacc'.
  { destruct acc as [refs seen]; simpl in *. destruct (includes _ _); simpl; [done|]. by rewrite map_app, Hacc. }
  assert (exists r', In r' (add_ref acc r0).1 /\ ref_key r' = ref_key r0) as (r1 & Hr1 & E1).
  { destruct acc as [refs seen]; simpl in *. subst seen. destruct (includes _ _) eqn:Ei; simpl.
    - apply includes_In, in_map_iff in Ei as (r1 & E & Hr). by exists r1.
    - exists r0. split; [apply in_or_app; right; by left|done]. }
  intros [Hr|[<-|Hr]]; [apply (IH _ Hacc'); left; by apply add_ref_incl| |apply (IH _ Hacc'); by right].
  destruct (IH _ Hacc' r1 (or_introl Hr1)) as (r' & Hr' & E'). exists r'. by rewrite E'.
Qed.

Lemma append_inv s a b : s +:+ a = s +:+ b -> a = b.
Proof. induction s as [|c s IH]; simpl; [done|]. intros [= E]. by apply IH. Qed.

Lemma ref_key_inj r r' : lacks ":" (ref_provider r) = true -> lacks ":" (ref_provider r') = true -> ref_key r = ref_key r' ->
  ref_provider r = ref_provider r' /\ (ref_model r ?? EmptyString) = (ref_model r' ?? EmptyString).
Proof.
  unfold ref_key. intros H H' E. assert (ref_provider r = ref_provider r') as Ep.
  { pose proof (split_on_app ":" _ (ref_model r ?? EmptyString) H) as S1.
    pose proof (split_on_app ":" _ (ref_model r' ?? EmptyString) H') as S2.
    change (":" +:+ ?x) with (String ":" x) in E. rewrite E, S2 in S1. by injection S1 as -> _. }
  split; [done|]. rewrite Ep in E. apply append_inv in E. by injection E.
Qed.

(** An assignment of the call's tiers is among the references that were classified. *)
Lemma mapped_reachable tier fb tiers t a : In t (tier :: TIER_FALLBACK tier) \/ (exists f, fb = Some f /\ In t (f :: TIER_FALLBACK f)) ->
  (forall t a, map_get t tiers = Some a -> lacks ":" (provider a) = true) -> map_get t tiers = Some a ->
  exists r, In r (allReachableRefs tier fb tiers) /\ ref_provider r = provider a /\
    (ref_model r ?? EmptyString) = (model a ?? EmptyString).
Proof.
  intros Ht Hlk Ha.
  assert (forall t' t0, In t0 (t' :: TIER_FALLBACK t') -> map_get t0 tiers = Some a ->
    In (mkRef (provider a) (model a)) (tierCandidateRefs t' tiers)) as Hin.
  { intros t' t0 H0 Ha0. unfold tierCandidateRefs. apply list_elem_of_In, list_elem_of_omap. exists t0.
    split; [by apply list_elem_of_In|]. by rewrite Ha0. }
  assert (forall t' r, In r (tierCandidateRefs t' tiers) -> lacks ":" (ref_provider r) = true) as Hrl.
  { intros t' r Hr. unfold tierCandidateRefs in Hr. apply list_elem_of_In, list_elem_of_omap in Hr as (t0 & _ & E).
    apply fmap_Some in E as (a0 & E & ->). by eapply Hlk. }
  unfold allReachableRefs. destruct fb as [f|].
  2: { destruct Ht as [Ht|(f & [=] & _)]. by exists (mkRef (provider a) (model a)); split_and!; [eapply Hin|..]. }
  destruct (decide (f = tier)) as [->|Hne].
  { rewrite bool_decide_true by done. exists (mkRef (provider a) (model a)). split_and!; [|done|done].
    destruct Ht as [Ht|(f' & [= <-] & Ht)]; by eapply Hin. }
  rewrite bool_decide_false by done.
  destruct (add_refs_In (tierCandidateRefs f tiers) (tierCandidateRefs tier tiers, map ref_key (tierCandidateRefs tier tiers)) eq_refl
    (mkRef (provider a) (model a))) as (r & Hr & E).
  { destruct Ht as [Ht|(f' & [= <-] & Ht)]; [left|right]; by eapply Hin. }
  exists r. split; [done|]. apply (ref_key_inj r (mkRef (provider a) (model a))) in E; [done| |by eapply Hlk].
  assert (forall rs acc, (forall x, In x acc.1 -> lacks ":" (ref_provider x) = true) -> (forall x, In x rs -> lacks ":" (ref_provider x) = true) ->
    forall x, In x (foldl add_ref acc rs).1 -> lacks ":" (ref_provider x) = true) as Hall.
  { induction rs as [|r0 rs IH]; intros acc Hacc Hrs; simpl; [done|]. apply IH; [|intros x Hx; apply Hrs; by right].
    destruct acc as [refs seen]; simpl in *. destruct (includes _ _); [done|]. intros x [Hx|[<-|[]]]%in_app_or; [by apply Hacc|].
    apply Hrs. by left. }
  eapply Hall; [| |exact Hr]; intros x Hx; by eapply Hrl.
Qed.

Lemma classify_model name m m' k policy : (m ?? EmptyString) = (m' ?? EmptyString) ->
  classifyModel (mkRef name m) k policy = classifyModel (mkRef name m') k policy.
Proof. intros E. unfold classifyModel. simpl. by rewrite E. Qed.

(** Every attempt of a tier's call goes to a cleared model. *)
Lemma tier_sends_cleared {T} (env : Env (T := T)) m kinds policy tier fb t sub l : manager_ok m -> kinds_agree kinds m ->
  (forall t a, map_get t (tierMap m) = Some a -> lacks ":" (provider a) = true) ->
  isTierEligible tier (tierMap m) kinds policy fb = true -> t = tier \/ fb = Some t ->
  exists d, (streamTier env m t sub None l).1.1 = l ++ d /\
    forall p mo, In (p, mo) (sent_to d) -> cleared kinds policy (prov_name p) mo = true.
Proof.
  intros Hm Hk Hlk He Ht. unfold streamTier. destruct (tierCandidates t m) as [e|cs] eqn:Ec; [exists []; by rewrite app_nil_r|].
  destruct (stream_candidates_log env t sub None cs true [] [] l) as (d & E & [Hs _ _ _]). exists d.
  destruct (stream_candidates _ _ _ _ _ _ _ _ _) as [l1 out]. split; [done|].
  intros p mo Hin. destruct (Hs p mo Hin) as (c & first & Hc & <- & -> & _).
  pose proof (tierCandidates_ok _ _ _ Hm Ec) as Hok. rewrite List.Forall_forall in Hok.
  destruct (Hok c Hc) as (r & Hr & Hp & En & Hcase). unfold mapped_tiers in Hr.
  apply list_elem_of_In, list_elem_of_omap in Hr as (t0 & Ht0 & Et). apply fmap_Some in Et as (a & Ea & ->). simpl in *.
  assert (In t0 (t :: TIER_FALLBACK t)) as Hin0 by (by apply list_elem_of_In).
  destruct (mapped_reachable tier fb (tierMap m) t0 a) as (r & Hr & Er & Em); [|done|done|].
  { destruct Ht as [->| ->]; [by left|right; by exists t]. }
  unfold isTierEligible in He. destruct (negb _); [done|].
  assert (forallb (fun a => let kind := kind_of kinds (ref_provider a) in
    forallb (fun r => classifyModel r (Some kind) policy) (expandCandidate a kind)) (allReachableRefs tier fb (tierMap m)) = true) as Hall.
  { clear Hr. revert He. by destruct (allReachableRefs tier fb (tierMap m)). }
  rewrite forallb_forall in Hall. specialize (Hall r Hr). simpl in Hall. rewrite Er in Hall. rewrite forallb_forall in Hall.
  unfold cleared, candidate_model. rewrite En.
  assert (forall mo', (mo' ?? EmptyString) = (ref_model r ?? EmptyString) ->
    classifyModel (mkRef (provider a) mo') (Some (kind_of kinds (provider a))) policy = true) as Hmain.
  { intros mo' E'. rewrite (classify_model _ _ (ref_model r)) by done. rewrite <-Er at 1. replace (mkRef (ref_provider r) (ref_model r)) with r by (by destruct r).
    apply Hall. unfold expandCandidate. destruct (_ || _); by left. }
  assert (truthy_opt (ref_model r) = true -> placeholderDefaultModel c.2 = false ->
    classifyModel (mkRef (provider a) None) (Some (kind_of kinds (provider a))) policy = true) as Hdef.
  { intros Htr Hpl. apply Hall. unfold expandCandidate. rewrite Htr. cbn [negb orb].
    destruct (includes (kind_of kinds (provider a)) PLACEHOLDER_DEFAULT_KINDS) eqn:Ei; [|right; left; by rewrite Er].
    by rewrite (Hk _ _ Hp Ei) in Hpl. }
  destruct first; (destruct Hcase as [->|[-> Hpl]]; [destruct (truthy_opt (model a)) eqn:Ett; [by apply Hmain|]|simpl]);
    try (apply Hmain; rewrite Em; by destruct (model a) as [[|]|]);
    (destruct (truthy_opt (ref_model r)) eqn:Er2; [by apply Hdef|apply Hmain; by destruct (ref_model r) as [[|]|]]).
Qed.

(** C26: frontier models are unaffected: when the gate lets a turn be filtered, every attempt of its call,
    retries, failovers and the caller's fallback tier included, goes to a provider and model that
    the classifier cleared. *)
Theorem filtered_calls_reach_cleared_models {T} (env : Env (T := T)) ops kinds policy tier fb subsystem l :
  let m := manager_run ops in kinds_agree kinds m ->
  (forall t a, map_get t (tierMap m) = Some a -> lacks ":" (provider a) = true) ->
  isTierEligible tier (tierMap m) kinds policy fb = true ->
  exists d, (streamTierWithFallback env m tier fb subsystem None l).1.1 = l ++ d /\
    forall p mo, In (p, mo) (sent_to d) -> cleared kinds policy (prov_name p) mo = true.
Proof.
  intros m Hk Hlk He. pose proof (manager_run_ok ops) as Hm. fold m in Hm.
  pose proof (fun t l => tier_sends_cleared env m kinds policy tier fb t subsystem l Hm Hk Hlk He) as Hs.
  unfold streamTierWithFallback. destruct fb as [f|]; [|apply Hs; by left]. case_bool_decide; [apply Hs; by left|].
  destruct (Hs tier l) as (d & E & Hd); [by left|]. destruct (streamTier env m tier subsystem None l) as [[l1 evs] thr]. simpl in E. subst l1.
  destruct (until_early_error evs false) as [o early]. destruct early; [|by exists d].
  destruct (Hs f (l ++ d)) as (d2 & E2 & Hd2); [by right|]. destruct (streamTier env m f subsystem None (l ++ d)) as [[l2 evs2] thr2].
  simpl in E2 |- *. subst l2. exists (d ++ d2). rewrite app_assoc. split; [done|].
  intros p mo. rewrite sent_to_app. intros [Hx|Hx]%in_app_or; [by apply Hd|by apply Hd2].
Qed.

(** ** A conversation with a small local model *)

Definition demo_tool (n : nat) (name category : string) : ToolDefinition := mkTool n name "Does one thing. Or two." category [] None None.
Definition demo_tools : list ToolDefinition :=
  [demo_tool 1 "browser_snapshot" "browser"; demo_tool 2 "run_command" "terminal"; demo_tool 3 "get_system_info" "general";
   demo_tool 4 "ui_act" "ui"; demo_tool 5 "manage_goals" "goals"; demo_tool 6 "read_file" "file-ops"; demo_tool 7 "manage_workflow" "automation"].
Definition demo_says (s : string) : LLMMessage := mkMessage role_user (inl s) None None.
Definition demo_policy : ToolFilterPolicy := mkPolicy true DEFAULT_MAX_PARAMS_B [].
Definition demo_setup : list RelevanceOp :=
  [OpPolicy demo_policy; OpTools demo_tools; OpTiers [(low, mkAssignment "ollama" (Some "qwen2.5:7b"))] []].
Definition demo_turns : list RelevanceOp :=
  demo_setup ++
  [OpDecide "a" [demo_says "Set a goal to ship it"] low None 1; OpUse "a" "manage_goals"; OpDecide "a" [demo_says "thanks"] low None 2;
   OpDiscover "a" "discover_tools" (JObj [("names", JArr [JStr "run_command"; JStr "sudo"])]) ["manage_goals"] None;
   OpDecide "a" [demo_says "thanks"] low None 3].

Definition decisions (log : list RelevanceEvent) : list (list string) :=
  omap (fun e => match e with Decided _ _ _ _ d => Some (names (decided_tools d)) | _ => None end) log.

(** The goals tool stays for the turn after it was called; admitting the shell brings the readers. *)
Example demo_exposed : decisions (relevance_run 0 new_relevance demo_turns).2 =
  [["get_system_info"; "manage_goals"; "discover_tools"]; ["get_system_info"; "manage_goals"; "discover_tools"];
   ["browser_snapshot"; "run_command"; "get_system_info"; "ui_act"; "manage_goals"; "read_file"; "discover_tools"]].
Proof. vm_compute. reflexivity. Qed.

(** A tool that was offered but not called is withdrawn when the words that made it relevant are no
    longer in the text: the exposed set shrinks within the conversation. *)
Example exposure_shrinks :
  decisions (relevance_run 0 new_relevance
    (demo_setup ++ [OpDecide "a" [demo_says "Set a goal"] low None 1; OpDecide "a" [demo_says "thanks"] low None 2])).2 =
  [["get_system_info"; "manage_goals"; "discover_tools"]; ["get_system_info"; "discover_tools"]].
Proof. vm_compute. reflexivity. Qed.

(** A tool called while the filter is off is not on the ledger when it is turned on. *)
Example called_while_off :
  decisions (relevance_run 0 new_relevance
    [OpTools demo_tools; OpTiers [(low, mkAssignment "ollama" (Some "qwen2.5:7b"))] []; OpUse "a" "manage_goals"; OpPolicy demo_policy;
     OpDecide "a" [demo_says "thanks"] low None 1]).2 = [["get_system_info"; "discover_tools"]].
Proof. vm_compute. reflexivity. Qed.

Definition demo_last : list RelevanceEvent := (relevance_run 0 new_relevance demo_turns).2.
Definition demo_decision (e : option RelevanceEvent) : Relevance * FilterDecision :=
  match e with Some (Decided _ from _ _ d) => (from, d) | _ => (new_relevance, unfiltered []) end.

Lemma filtered_turns_keep_framing_witness :
  let e := demo_decision (demo_last !! 4%nat) in
  turn_ok 0 (take 4 demo_last) "a" e.1 low None e.2 /\
  violationCount (rel_violations (relevance_run 0 new_relevance demo_turns).1) = 0.
Proof.
  apply (filtered_turns_keep_framing 0 demo_turns (take 4 demo_last) "a" (demo_decision (demo_last !! 4%nat)).1 low None
           (demo_decision (demo_last !! 4%nat)).2 []).
  vm_compute. reflexivity.
Defined.

Lemma filtered_calls_reach_cleared_models_witness :
  exists d, (streamTierWithFallback demo_env (manager_run [OpRegister (mkProvider "ollama" true); OpAssign low (Some (mkAssignment "ollama" (Some "qwen2.5:7b")))])
               low (Some medium) "chat" None []).1.1 = [] ++ d /\
    forall p mo, In (p, mo) (sent_to d) -> cleared [] demo_policy (prov_name p) mo = true.
Proof.
  apply (filtered_calls_reach_cleared_models demo_env
    [OpRegister (mkProvider "ollama" true); OpAssign low (Some (mkAssignment "ollama" (Some "qwen2.5:7b")))] [] demo_policy low (Some medium) "chat" []).
  - intros name p Hp. apply map_get_In in Hp as [[= <- <-]|[]]. done.
  - intros t a Ha. apply map_get_In in Ha as [[= <- <-]|[]]. done.
  - vm_compute. reflexivity.
Defined.

Example demo_classified : map (fun m => classifyModel (mkRef "ollama" (Some m)) (Some "ollama") demo_policy)
  ["qwen2.5:7b"; "llama3.1-8b"; "qwen3-30b-a3b"; "mixtral-8x7b"; "claude-7b"; "phi3"; "big:70b"; "odd:7.5b"] =
  [true; true; false; false; false; false; false; true].
Proof. vm_compute. reflexivity. Qed.

Example demo_selected : map (fun s => existsb (String.eqb "browser_navigate") (selectRelevantNames (conversationText [demo_says s])))
  ["summarise this article https://example.com/post/1"; "see WWW.example.com"; "turn on the lights"] = [true; true; false].
Proof. vm_compute. reflexivity. Qed.
