(* ===== verification/ConvTasks.v ===== *)
(** * Conversation tasks (agents/conv/task-envelope.ts, task-registry.ts, task-dispatcher.ts,
    conv-orchestrator.ts)

    A delegated task is a record in the cache of the registry, mirrored in the table
    [tasks]; the dispatcher runs it through a runner it awaits, so that a run is two
    steps with anything in between, and a long result takes a third, around the call
    that condenses it. [conv_step] is any operation: a tool call of the conversation
    model, the return of a runner or of the condenser, an abort, a change of the
    table's availability, and a restart, which keeps the table only. An abort
    controller is a flag in [controllers]; a record refers to it by position. *)
From S2P Require Export Json Sql JsMap.

(** ** task-envelope.ts *)

Inductive TaskStatus := st_queued | st_running | st_needs_input | st_completed | st_failed | st_cancelled.

#[export] Instance TaskStatus_eq_dec : EqDecision TaskStatus.
Proof. solve_decision. Defined.

Definition status_text (s : TaskStatus) : string :=
  match s with
  | st_queued => "queued" | st_running => "running" | st_needs_input => "needs_input"
  | st_completed => "completed" | st_failed => "failed" | st_cancelled => "cancelled"
  end.

Definition terminal (s : TaskStatus) : bool := match s with st_completed | st_failed | st_cancelled => true | _ => false end.

(** Tier and template are texts of the model, which the handler only checks to be there. *)
Record TaskRequest := mkRequest {
  req_tier : string; req_template : string; req_intent : string; req_original : option string }.

(** An envelope is the object the conversation model and the table receive. *)
Definition envelope (id : string) (status : TaskStatus) (summary : string) (rest : list (string * json)) : json :=
  JObj ([("task_id", JStr id); ("status", JStr (status_text status)); ("summary", JStr summary)] ++ rest).

Record TaskRecord := mkTaskRecord {
  rec_id : string;
  rec_request : TaskRequest;
  rec_subsystem : string;
  rec_status : TaskStatus;
  rec_startedAt : Z;
  rec_updatedAt : Z;
  rec_result : option json;
  rec_abort : option nat;
  rec_question : option string;
  rec_paused : option json }.

(** ** The table *)

Record TaskRow := mkTaskRow {
  row_id : string;
  row_status : TaskStatus;
  row_tier : string;
  row_template : string;
  row_intent : string;
  row_original : option string;
  row_subsystem : string;
  row_started : Z;
  row_updated : Z;
  row_result : option string;
  row_question : option string;
  row_paused : option string }.

#[export] Instance TaskRow_row : Row TaskRow := row_id.

(** [value ? JSON.stringify(value) : null] *)
Definition json_column (v : option json) : option string :=
  match v with Some j => if truthy_json j then Some (stringify j) else None | None => None end.

Definition row_of (r : TaskRecord) : TaskRow :=
  mkTaskRow (rec_id r) (rec_status r) (req_tier (rec_request r)) (req_template (rec_request r)) (req_intent (rec_request r))
    (req_original (rec_request r)) (rec_subsystem r) (rec_startedAt r) (rec_updatedAt r)
    (json_column (rec_result r)) (rec_question r) (json_column (rec_paused r)).

Definition non_empty (o : option string) : option string := match o with Some (String c s) => Some (String c s) | _ => None end.
Definition parsed (o : option string) : option json := match non_empty o with Some s => parse s | None => None end.

Definition rowToRecord (w : TaskRow) : TaskRecord :=
  mkTaskRecord (row_id w) (mkRequest (row_tier w) (row_template w) (row_intent w) (non_empty (row_original w)))
    (row_subsystem w) (row_status w) (row_started w) (row_updated w) (parsed (row_result w)) None
    (non_empty (row_question w)) (parsed (row_paused w)).

(** The update of the upsert keeps [started_at]. *)
Definition upsert (w : TaskRow) (t : list TaskRow) : list TaskRow :=
  match get_row (row_id w) t with
  | None => t ++ [w]
  | Some _ =>
      (update_where (key_is (row_id w) (fun _ => true))
         (fun o => mkTaskRow (row_id o) (row_status w) (row_tier w) (row_template w) (row_intent w) (row_original w)
                     (row_subsystem w) (row_started o) (row_updated w) (row_result w) (row_question w) (row_paused w)) t).1
  end.

(** [SELECT * FROM tasks ORDER BY updated_at DESC], by the index on [updated_at]. *)
Definition newest_first (t : list TaskRow) : list TaskRow :=
  sort_by (fun a b => row_updated b <=? row_updated a) (rev t).

(** ** State *)

(** A run in progress: the task, what it was asked, its controller and its listener, and the output
    whose condensation is awaited. *)
Record Run := mkRun {
  run_task : string;
  run_request : TaskRequest;
  run_controller : nat;
  run_listener : nat;
  run_condensing : option string }.

(** A listener of the registry: the tool call it belongs to, and the task a resume waits for. *)
Record Listener := mkListener { lis_id : nat; lis_task : option string }.

Record ConvWorld := mkConv {
  cache : list (string * TaskRecord);
  table : list TaskRow;
  available : bool;
  controllers : list bool;
  listeners : list Listener;
  next_listener : nat;
  runs : list Run }.

(** What happens: a runner is started, with the history it continues; a run pauses; the events for the
    interface; the envelope a tool call returns, or that it throws; warnings are left out. *)
Inductive ConvEvent :=
  | Started (id : string) (request : TaskRequest) (message : string) (history : option json)
  | Paused (id question : string) (conversation : json)
  | TaskStarted (listener : nat) (r : TaskRecord)
  | TaskEnded (listener : nat) (status : TaskStatus) (r : TaskRecord) (env : json)
  | Answered (listener : option nat) (env : json)
  | ToolThrew.

Definition with_cache (c : list (string * TaskRecord)) (w : ConvWorld) : ConvWorld :=
  mkConv c (table w) (available w) (controllers w) (listeners w) (next_listener w) (runs w).
Definition with_table (t : list TaskRow) (w : ConvWorld) : ConvWorld :=
  mkConv (cache w) t (available w) (controllers w) (listeners w) (next_listener w) (runs w).
Definition with_controllers (l : list bool) (w : ConvWorld) : ConvWorld :=
  mkConv (cache w) (table w) (available w) l (listeners w) (next_listener w) (runs w).
Definition with_listeners (l : list Listener) (n : nat) (w : ConvWorld) : ConvWorld :=
  mkConv (cache w) (table w) (available w) (controllers w) l n (runs w).
Definition with_runs (l : list Run) (w : ConvWorld) : ConvWorld :=
  mkConv (cache w) (table w) (available w) (controllers w) (listeners w) (next_listener w) l.

(** ** task-registry.ts *)

(** The statement changes nothing while the table is not available. *)
Definition db_run (f : list TaskRow -> list TaskRow) (w : ConvWorld) : ConvWorld :=
  if available w then with_table (f (table w)) w else w.

Definition persist (r : TaskRecord) (w : ConvWorld) : ConvWorld := db_run (upsert (row_of r)) w.

(** [notify]: every listener sees the record; those of the tool calls report a task that runs. *)
Definition notify (r : TaskRecord) (w : ConvWorld) : list ConvEvent :=
  omap (fun l => if bool_decide (rec_status r = st_running)
                    && match lis_task l with None => truthy (rec_id r) | Some id => bool_decide (rec_id r = id) end
                 then Some (TaskStarted (lis_id l) r) else None) (listeners w).

(** Write a record back to the cache and the table. *)
Definition save (r : TaskRecord) (w : ConvWorld) : ConvWorld := persist r (with_cache (map_set (rec_id r) r (cache w)) w).

Definition maxKeepCompleted : nat := 25.

Definition done_tasks (w : ConvWorld) : list TaskRecord := List.filter (fun r => terminal (rec_status r)) (map_values (cache w)).

Definition evict_one (w : ConvWorld) (id : string) : ConvWorld :=
  let w := with_cache (map_delete id (cache w)) w in
  db_run (delete_where (fun o => bool_decide (row_id o = id))) w.

Definition evictOldCompleted (w : ConvWorld) : ConvWorld :=
  let done := done_tasks w in
  if (length done <=? maxKeepCompleted)%nat then w
  else
    let oldest := sort_by (fun a b => rec_updatedAt a <=? rec_updatedAt b) done in
    foldl evict_one w (map rec_id (take (length done - maxKeepCompleted) oldest)).

Definition create (id : string) (request : TaskRequest) (subsystem : string) (now : Z) (w : ConvWorld)
    : ConvWorld * list ConvEvent :=
  let r := mkTaskRecord id request subsystem st_queued now now None None None None in
  let w := save r w in (w, notify r w).

Definition getTask (id : string) (w : ConvWorld) : option TaskRecord := map_get id (cache w).

Definition in_flight (r : TaskRecord) : bool :=
  match rec_status r with st_queued | st_running | st_needs_input => true | _ => false end.
Definition inFlight (w : ConvWorld) : list TaskRecord := List.filter in_flight (map_values (cache w)).

(** [slice(0, limit)] of the newest first. *)
Definition recentResults (limit : nat) (w : ConvWorld) : list TaskRecord :=
  take limit (sort_by (fun a b => rec_updatedAt b <=? rec_updatedAt a) (done_tasks w)).

Definition moved (r : TaskRecord) (status : TaskStatus) (result : option json) (now : Z) : TaskRecord :=
  mkTaskRecord (rec_id r) (rec_request r) (rec_subsystem r) status (rec_startedAt r) now
    (match result with Some e => Some e | None => rec_result r end) (rec_abort r) (rec_question r) (rec_paused r).

Definition transition (id : string) (status : TaskStatus) (result : option json) (now : Z) (w : ConvWorld)
    : ConvWorld * list ConvEvent :=
  match getTask id w with
  | None => (w, [])
  | Some r =>
      let r := moved r status result now in
      let w := save r w in
      let out := notify r w in
      (if terminal status then evictOldCompleted w else w, out)
  end.

Definition setAbortController (id : string) (ctrl : nat) (w : ConvWorld) : ConvWorld :=
  match getTask id w with
  | None => w
  | Some r =>
      with_cache (map_set id (mkTaskRecord (rec_id r) (rec_request r) (rec_subsystem r) (rec_status r) (rec_startedAt r)
        (rec_updatedAt r) (rec_result r) (Some ctrl) (rec_question r) (rec_paused r)) (cache w)) w
  end.

Definition abort (id : string) (w : ConvWorld) : bool * ConvWorld :=
  match getTask id w with
  | None => (false, w)
  | Some r =>
      if negb (in_flight r) then (false, w)
      else (true, match rec_abort r with Some c => with_controllers (<[c := true]> (controllers w)) w | None => w end)
  end.

Definition with_pause (r : TaskRecord) (question : option string) (conversation : option json) (now : Z) : TaskRecord :=
  mkTaskRecord (rec_id r) (rec_request r) (rec_subsystem r) (rec_status r) (rec_startedAt r) now (rec_result r) (rec_abort r)
    question conversation.

Definition recordPauseState (id question : string) (conversation : json) (now : Z) (w : ConvWorld) : ConvWorld :=
  match getTask id w with None => w | Some r => save (with_pause r (Some question) (Some conversation) now) w end.

Definition clearPauseState (id : string) (now : Z) (w : ConvWorld) : ConvWorld :=
  match getTask id w with None => w | Some r => save (with_pause r None None now) w end.

Definition interrupted (r : TaskRecord) (now : Z) : TaskRecord :=
  mkTaskRecord (rec_id r) (rec_request r) (rec_subsystem r) st_failed (rec_startedAt r) now
    (Some (envelope (rec_id r) st_failed "Task was interrupted by a daemon restart and could not be resumed."
             [("error", JStr "daemon_restart")]))
    (rec_abort r) (rec_question r) (rec_paused r).

(** One row of [hydrate]. *)
Definition load_row (now : Z) (w : ConvWorld) (row : TaskRow) : ConvWorld :=
  let r := rowToRecord row in
  match rec_status r with
  | st_running | st_queued => save (interrupted r now) w
  | _ => with_cache (map_set (rec_id r) r (cache w)) w
  end.

Definition hydrate (now : Z) (w : ConvWorld) : ConvWorld :=
  if negb (available w) then w
  else evictOldCompleted (foldl (load_row now) w (newest_first (table w))).

(** ** task-dispatcher.ts *)

Definition SUMMARY_THRESHOLD_CHARS : nat := 3000.

(** What a runner returns, or the message of what it throws. *)
Inductive RunOutcome :=
  | Completed (text : string)
  | PausedFor (question : string) (conversation : list json)
  | Threw (message : string).

Definition is_aborted (ctrl : nat) (w : ConvWorld) : bool := (controllers w !! ctrl) ?? false.

(** A new controller, attached to the task, which moves to [running]. *)
Definition begin_run (id : string) (now : Z) (w : ConvWorld) : nat * ConvWorld * list ConvEvent :=
  let ctrl := length (controllers w) in
  let w := setAbortController id ctrl (with_controllers (controllers w ++ [false]) w) in
  let '(w, out) := transition id st_running None now w in (ctrl, w, out).

(** The end of the tool call [listener] with the envelope of [id]: the event, the end of the
    subscription and the answer. *)
Definition finish (listener : nat) (id : string) (status : TaskStatus) (env : json) (w : ConvWorld)
    : ConvWorld * list ConvEvent :=
  let ended := match getTask id w with
               | Some r => if terminal status then [TaskEnded listener status r env] else []
               | None => [] end in
  (with_listeners (List.filter (fun l => negb (lis_id l =? listener)%nat) (listeners w)) (next_listener w) w,
   ended ++ [Answered (Some listener) env]).

(** A transition with its envelope, and the end of the tool call. *)
Definition settle (listener : nat) (id : string) (status : TaskStatus) (env : json) (now : Z) (w : ConvWorld)
    : ConvWorld * list ConvEvent :=
  let '(w, out) := transition id status (Some env) now w in
  let '(w, out') := finish listener id status env w in (w, out ++ out').

Definition finalize (listener : nat) (id : string) (status : TaskStatus) (summary : string) (details : bool) (now : Z)
    (w : ConvWorld) : ConvWorld * list ConvEvent :=
  settle listener id status (envelope id status summary (if details then [("details_ref", JStr id)] else [])) now w.

Definition add_run (id : string) (request : TaskRequest) (ctrl listener : nat) (w : ConvWorld) : ConvWorld :=
  with_runs (runs w ++ [mkRun id request ctrl listener None]) w.

(** [dispatch] up to the call of the runner. *)
Definition dispatch (id : string) (request : TaskRequest) (listener : nat) (now : Z) (w : ConvWorld)
    : ConvWorld * list ConvEvent :=
  let '(w, out1) := create id request ("task_" +:+ req_template request) now w in
  let '(ctrl, w, out2) := begin_run id now w in
  if is_aborted ctrl w then
    let '(w, out3) := finalize listener id st_cancelled "Task cancelled before it could start." false now w in
    (w, out1 ++ out2 ++ out3)
  else
    (add_run id request ctrl listener w,
     out1 ++ out2 ++ [Started id request (req_original request ?? req_intent request) None]).

Definition failed_envelope (id summary error : string) : json := envelope id st_failed summary [("error", JStr error)].

(** [resume] up to the call of the runner. *)
Definition resume (id input : string) (listener : nat) (now : Z) (w : ConvWorld) : ConvWorld * list ConvEvent :=
  match getTask id w with
  | None => finish listener id st_failed (failed_envelope id ("Task " +:+ id +:+ " not found.") "not_found") w
  | Some r =>
      match (if bool_decide (rec_status r = st_needs_input) then rec_paused r else None) with
      | Some history =>
          if truthy_json history then
            let '(ctrl, w, out) := begin_run id now w in
            let w := clearPauseState id now w in
            (add_run id (rec_request r) ctrl listener w, out ++ [Started id (rec_request r) input (Some history)])
          else finish listener id st_failed (failed_envelope id
                 ("Task " +:+ id +:+ " is not waiting for input (status=" +:+ status_text (rec_status r) +:+ ").") "invalid_state") w
      | None => finish listener id st_failed (failed_envelope id
                 ("Task " +:+ id +:+ " is not waiting for input (status=" +:+ status_text (rec_status r) +:+ ").") "invalid_state") w
      end
  end.

Definition drop_run (k : nat) (w : ConvWorld) : ConvWorld := with_runs (delete k (runs w)) w.

(** [runAndHandle] from the return of the runner. *)
Definition run_returned (k : nat) (outcome : RunOutcome) (now : Z) (w : ConvWorld) : ConvWorld * list ConvEvent :=
  match runs w !! k with
  | Some (mkRun id request ctrl listener None) =>
      match outcome with
      | Threw msg =>
          settle listener id st_failed (failed_envelope id ("Task failed: " +:+ stake 200 msg) msg) now (drop_run k w)
      | _ =>
          if is_aborted ctrl w
          then finalize listener id st_cancelled "Task cancelled during execution." false now (drop_run k w)
          else match outcome with
          | PausedFor q conversation =>
              let w := recordPauseState id q (JArr conversation) now (drop_run k w) in
              let '(w, out) := settle listener id st_needs_input
                (envelope id st_needs_input q [("needs_input", JObj [("question", JStr q)])]) now w in
              (w, Paused id q (JArr conversation) :: out)
          | Completed text =>
              let trimmed := trim text in
              if negb (truthy trimmed) then finalize listener id st_completed "Task produced no output." true now (drop_run k w)
              else if (String.length trimmed <=? SUMMARY_THRESHOLD_CHARS)%nat
                then finalize listener id st_completed trimmed true now (drop_run k w)
              else (with_runs (<[k := mkRun id request ctrl listener (Some trimmed)]> (runs w)) w, [])
          | Threw _ => (w, [])
          end
      end
  | _ => (w, [])
  end.

(** [summarize] from the answer of the model, or its failure. *)
Definition condensed_summary (trimmed : string) (answer : option string) : string :=
  match answer with
  | Some content => if truthy (trim content) then trim content else stake 400 trimmed
  | None => stake 400 trimmed +:+ (if (400 <? String.length trimmed)%nat then "..." else "")
  end.

Definition condensed (k : nat) (answer : option string) (now : Z) (w : ConvWorld) : ConvWorld * list ConvEvent :=
  match runs w !! k with
  | Some (mkRun id _ _ listener (Some trimmed)) =>
      finalize listener id st_completed (condensed_summary trimmed answer) true now (drop_run k w)
  | _ => (w, [])
  end.

(** ** conv-orchestrator.ts: handleToolCall *)

(** An argument the schema of the tool calls a string, when it is there and not empty. *)
Definition text_arg (k : string) (args : json) : option string :=
  match jget k args with Some (JStr s) => non_empty (Some s) | _ => None end.

Definition tool_error (message : string) : list ConvEvent := [Answered None (JObj [("error", JStr message)])].

Definition subscribe (target : option string) (w : ConvWorld) : nat * ConvWorld :=
  (next_listener w, with_listeners (listeners w ++ [mkListener (next_listener w) target]) (S (next_listener w)) w).

Definition result_summary (r : TaskRecord) : json :=
  match rec_result r with Some e => jget "summary" e ?? JNull | None => JNull end.

Definition conv_tool_names : list string := ["delegate"; "check_task"; "cancel_task"; "resume_task"].

(** [newId] is the id a delegated task gets, [userMessage] the message of the turn. A tool that reads a
    property of null arguments throws. *)
Definition handleToolCall (name : string) (args : json) (newId userMessage : string) (now : Z) (w : ConvWorld)
    : ConvWorld * list ConvEvent :=
  if includes name conv_tool_names && (match args with JNull => true | _ => false end) then (w, [ToolThrew])
  else if bool_decide (name = "delegate") then
    match text_arg "tier" args, text_arg "template" args, text_arg "intent" args with
    | Some tier, Some template, Some intent =>
        let '(l, w) := subscribe None w in
        dispatch newId (mkRequest tier template intent (non_empty (Some userMessage))) l now w
    | _, _, _ => (w, tool_error "delegate requires tier, template, and intent")
    end
  else if bool_decide (name = "check_task") then
    match text_arg "task_id" args with
    | None => (w, tool_error "check_task requires task_id")
    | Some id =>
        match getTask id w with
        | None => (w, tool_error ("task " +:+ id +:+ " not found"))
        | Some r => (w, [Answered None (JObj [("task_id", JStr (rec_id r)); ("status", JStr (status_text (rec_status r)));
                                              ("elapsed_ms", JNum (now - rec_startedAt r)); ("summary", result_summary r)])])
        end
    end
  else if bool_decide (name = "cancel_task") then
    match text_arg "task_id" args with
    | None => (w, tool_error "cancel_task requires task_id")
    | Some id => let '(ok, w) := abort id w in (w, [Answered None (JObj [("task_id", JStr id); ("cancelled", JBool ok)])])
    end
  else if bool_decide (name = "resume_task") then
    match text_arg "task_id" args, text_arg "input" args with
    | Some id, Some input => let '(l, w) := subscribe (Some id) w in resume id input l now w
    | _, _ => (w, tool_error "resume_task requires task_id and input")
    end
  else (w, tool_error ("unknown tool: " +:+ name)).

(** ** Any operation *)

Inductive ConvOp :=
  | OpTool (name : string) (args : json) (newId userMessage : string) (now : Z)
  | OpReturn (k : nat) (outcome : RunOutcome) (now : Z)
  | OpCondensed (k : nat) (answer : option string) (now : Z)
  | OpAbort (id : string)
  | OpAvailable (b : bool)
  | OpRestart (now : Z).

Definition new_conv : ConvWorld := mkConv [] [] true [] [] 0 [].

(** A new process with the table the old one left. *)
Definition restart (now : Z) (w : ConvWorld) : ConvWorld := hydrate now (mkConv [] (table w) (available w) [] [] 0 []).

Definition conv_step (w : ConvWorld) (op : ConvOp) : ConvWorld * list ConvEvent :=
  match op with
  | OpTool name args newId msg now => handleToolCall name args newId msg now w
  | OpReturn k outcome now => run_returned k outcome now w
  | OpCondensed k answer now => condensed k answer now w
  | OpAbort id => ((abort id w).2, [])
  | OpAvailable b => (mkConv (cache w) (table w) b (controllers w) (listeners w) (next_listener w) (runs w), [])
  | OpRestart now => (restart now w, [])
  end.

Fixpoint conv_run (w : ConvWorld) (ops : list ConvOp) : ConvWorld * list ConvEvent :=
  match ops with
  | [] => (w, [])
  | op :: ops' => let '(w1, out) := conv_step w op in let '(w2, out') := conv_run w1 ops' in (w2, out ++ out')
  end.

(** ** What the table keeps of a task *)

(** The record as a new process reads it back: no controller, and an empty question is none. *)
Definition stored (r : TaskRecord) : TaskRecord :=
  mkTaskRecord (rec_id r) (rec_request r) (rec_subsystem r) (rec_status r) (rec_startedAt r) (rec_updatedAt r)
    (rec_result r) None (match rec_question r with Some q => non_empty (Some q) | None => None end) (rec_paused r).

Definition truthy_option (o : option json) : Prop := forall j, o = Some j -> truthy_json j = true.

(** The records that survive a round trip through the table. *)
Record storable (r : TaskRecord) : Prop := {
  st_result : truthy_option (rec_result r);
  st_paused : truthy_option (rec_paused r);
  st_original : non_empty (req_original (rec_request r)) = req_original (rec_request r) }.

Lemma non_empty_idem o : non_empty (non_empty o) = non_empty o.
Proof. by destruct o as [[|]|]. Qed.

Lemma stringify_non_empty v : non_empty (Some (stringify v)) = Some (stringify v).
Proof. pose proof (parse_stringify v) as H. by destruct (stringify v). Qed.

Lemma parsed_column o : truthy_option o -> parsed (json_column o) = o.
Proof.
  intros H. destruct o as [j|]; [|done]. simpl. rewrite (H j eq_refl). unfold parsed.
  rewrite stringify_non_empty. apply parse_stringify.
Qed.

Lemma rowToRecord_row_of r : storable r -> rowToRecord (row_of r) = stored r.
Proof.
  intros [H1 H2 H3]. unfold rowToRecord, row_of, stored. simpl. rewrite H3, !parsed_column by done.
  destruct r as [? [] ? ? ? ? ? ? [[|]|] ?]; simpl in *; done.
Qed.

Lemma storable_stored r : storable r -> storable (stored r).
Proof. intros [H1 H2 H3]. by split. Qed.

Lemma storable_moved r status result now :
  storable r -> truthy_option result -> storable (moved r status result now).
Proof. intros [H1 H2 H3] H. split; [by destruct result|done|done]. Qed.

Lemma storable_pause r q c now : storable r -> truthy_option c -> storable (with_pause r q c now).
Proof. intros [H1 H2 H3] H. by split. Qed.

Lemma storable_interrupted r now : storable r -> storable (interrupted r now).
Proof. intros [H1 H2 H3]. split; [|done|done]. by intros j [= <-]. Qed.

Lemma truthy_envelope id status summary rest : truthy_option (Some (envelope id status summary rest)).
Proof. by intros j [= <-]. Qed.

Lemma truthy_none : truthy_option None.
Proof. done. Qed.

#[local] Hint Resolve storable_stored storable_moved storable_pause storable_interrupted truthy_envelope truthy_none : conv.

(** ** The upsert *)

Lemma upsert_keys w t : keyed t -> keyed (upsert w t) /\ (forall k, In k (map row_id (upsert w t)) <-> k = row_id w \/ In k (map row_id t)).
Proof.
  intros Hk. unfold upsert. destruct (get_row (row_id w) t) as [o|] eqn:E.
  - set (f := fun o => mkTaskRow _ _ _ _ _ _ _ _ _ _ _ _).
    assert (KeepsKey f) as Hf by done. split; [by apply update_keyed|]. intros k.
    assert (map row_id (update_where (key_is (row_id w) (fun _ => true)) f t).1 = map row_id t) as ->
      by apply (update_keys _ f t). split; [by right|].
    intros [->|?]; [|done]. apply get_row_Some in E as [Hin Hid]. unfold row_key, TaskRow_row in Hid. rewrite <- Hid. by apply in_map.
  - split.
    + apply (insert_row_keyed w t); [|done]. unfold insert_row. change (row_key w) with (row_id w). by rewrite E.
    + intros k. rewrite map_app, in_app_iff. simpl. naive_solver.
Qed.

(** The row of [w] after the upsert: [w] itself when the row it replaces was inserted at the same time. *)
Lemma get_row_upsert w t k : (forall o, get_row (row_id w) t = Some o -> row_started o = row_started w) ->
  get_row k (upsert w t) = if bool_decide (k = row_id w) then Some w else get_row k t.
Proof.
  intros Hs. unfold upsert. destruct (get_row (row_id w) t) as [o|] eqn:E.
  - set (f := fun o => mkTaskRow _ _ _ _ _ _ _ _ _ _ _ _). assert (KeepsKey f) as Hf by done.
    case_bool_decide as Hk; [subst k|by apply get_row_update_other].
    rewrite get_row_update_key by done. rewrite E. simpl. unfold f. rewrite (Hs o eq_refl).
    apply get_row_Some in E as [_ Hid]. unfold row_key, TaskRow_row in Hid. rewrite Hid. by destruct w.
  - assert (insert_row w t = Some (t ++ [w])) as Hi by (unfold insert_row; change (row_key w) with (row_id w); by rewrite E).
    rewrite (get_row_insert _ _ _ k Hi). change (row_key w) with (row_id w).
    repeat case_bool_decide; by subst.
Qed.

Lemma get_row_deleted id t k : keyed t ->
  get_row k (delete_where (fun o => bool_decide (row_id o = id)) t) = if bool_decide (k = id) then None else get_row k t.
Proof.
  intros Hk. case_bool_decide as E.
  - subst. apply get_row_None. intros (o & Hid & [_ Hn]%filter_In)%in_map_iff.
    unfold row_key, TaskRow_row in Hid. by rewrite bool_decide_eq_true_2 in Hn.
  - destruct (get_row k t) as [o|] eqn:Eg.
    + apply get_row_Some in Eg as [Hin <-]. apply get_row_In; [by apply keyed_delete|]. apply filter_In. split; [done|].
      by rewrite bool_decide_eq_false_2.
    + apply get_row_None. apply get_row_None in Eg. intros (o & Hid & [Hin _]%filter_In)%in_map_iff.
      apply Eg. rewrite <- Hid. by apply in_map.
Qed.

(** ** The cache and the table agree *)

(** [used] lists the ids given out so far. *)
Record mirrored (used : list string) (w : ConvWorld) : Prop := {
  mir_available : available w = true;
  mir_wf : wf (cache w);
  mir_keyed : keyed (table w);
  mir_cache : forall id r, getTask id w = Some r ->
    rec_id r = id /\ storable r /\ exists row, get_row id (table w) = Some row /\ rowToRecord row = stored r;
  mir_table : forall row, In row (table w) -> storable (rowToRecord row) /\ In (row_id row) used }.

(** Every row is of a cached task, except while the rows are being loaded. *)
Definition complete (w : ConvWorld) : Prop := forall row, In row (table w) -> is_Some (getTask (row_id row) w).

Lemma mirrored_used used w id r : mirrored used w -> getTask id w = Some r -> In id used.
Proof.
  intros H Hg. destruct (mir_cache _ _ H _ _ Hg) as (_ & _ & row & Hr & _). apply get_row_Some in Hr as [Hin <-].
  by apply (mir_table _ _ H) in Hin as [_ ?].
Qed.

Lemma mirrored_started used w r : mirrored used w ->
  match getTask (rec_id r) w with Some r0 => rec_startedAt r0 = rec_startedAt r | None => ~ In (rec_id r) used end ->
  forall o, get_row (rec_id r) (table w) = Some o -> row_started o = rec_startedAt r.
Proof.
  intros H Hs o Ho. destruct (getTask (rec_id r) w) as [r0|] eqn:E.
  - destruct (mir_cache _ _ H _ _ E) as (_ & _ & row & Hr & Hrow). simplify_eq. rewrite <- Hs.
    change (row_started o) with (rec_startedAt (rowToRecord o)). by rewrite Hrow.
  - apply get_row_Some in Ho as [Hin Hid]. apply (mir_table _ _ H) in Hin as [_ Hu].
    unfold row_key, TaskRow_row in Hid. by rewrite Hid in Hu.
Qed.

Lemma getTask_save r w id : getTask id (save r w) = if bool_decide (id = rec_id r) then Some r else getTask id w.
Proof.
  unfold getTask, save, persist, db_run. simpl.
  replace (cache (if available w then _ else _)) with (map_set (rec_id r) r (cache w)) by (by destruct (available w)).
  apply map_get_set.
Qed.

Lemma runs_save r w : runs (save r w) = runs w.
Proof. unfold save, persist, db_run. simpl. by destruct (available w). Qed.

Lemma save_mirrored used r w : mirrored used w -> storable r -> In (rec_id r) used ->
  (forall o, get_row (rec_id r) (table w) = Some o -> row_started o = rec_startedAt r) -> mirrored used (save r w).
Proof.
  intros H Hr Hu Hs. pose proof H as [Ha Hwf Hk Hc Ht].
  assert (table (save r w) = upsert (row_of r) (table w)) as Et by (unfold save, persist, db_run; simpl; by rewrite Ha).
  assert (cache (save r w) = map_set (rec_id r) r (cache w)) as Ec by (unfold save, persist, db_run; simpl; by rewrite Ha).
  destruct (upsert_keys (row_of r) (table w) Hk) as [Hk' Hin].
  pose proof (fun k => get_row_upsert (row_of r) (table w) k Hs) as Hg. simpl in Hg.
  split.
  - unfold save, persist, db_run. simpl. by rewrite Ha.
  - rewrite Ec. by apply wf_set.
  - by rewrite Et.
  - intros id r'. rewrite getTask_save, Et, Hg. case_bool_decide; [|apply Hc].
    intros [= <-]. subst. split_and!; [done|done|]. exists (row_of r). split; [done|]. by apply rowToRecord_row_of.
  - intros row Hrow. rewrite Et in Hrow.
    assert (get_row (row_id row) (upsert (row_of r) (table w)) = Some row) as Hrow' by (by apply get_row_In).
    rewrite Hg in Hrow'. case_bool_decide as Eid.
    + simplify_eq. rewrite rowToRecord_row_of by done. split; [by apply storable_stored|done].
    + apply get_row_Some in Hrow' as [? _]. by apply Ht.
Qed.

Lemma save_complete r w : keyed (table w) -> complete w -> complete (save r w).
Proof.
  intros Hk Hc row Hrow. rewrite getTask_save. case_bool_decide as E; [done|].
  unfold save, persist, db_run in Hrow. simpl in Hrow. destruct (available w); [|by apply Hc]. simpl in Hrow.
  apply (in_map row_id), (upsert_keys (row_of r) _ Hk) in Hrow as [?|(o & <- & Hin)%in_map_iff]; [done|]. by apply Hc.
Qed.

(** ** Eviction *)

Lemma evict_one_mirrored used w id : mirrored used w -> mirrored used (evict_one w id).
Proof.
  intros [Ha Hwf Hk Hc Ht]. unfold evict_one, db_run. simpl. rewrite Ha. split; simpl; [done|by apply wf_delete|by apply keyed_delete| |].
  - intros i r. unfold getTask. simpl. rewrite map_get_delete. case_bool_decide as E; [done|]. intros Hg.
    destruct (Hc i r Hg) as (Hid & Hs & row & Hrow & Hr). split_and!; [done|done|]. exists row. split; [|done].
    rewrite get_row_deleted by done. by rewrite bool_decide_eq_false_2.
  - intros row [Hin _]%filter_In. by apply Ht.
Qed.

Lemma evict_one_get w id i : getTask i (evict_one w id) = if bool_decide (i = id) then None else getTask i w.
Proof. unfold evict_one, db_run, getTask. simpl. destruct (available w); apply map_get_delete. Qed.

Lemma evict_one_complete w id : available w = true -> complete w -> complete (evict_one w id).
Proof.
  intros Ha Hc row. rewrite evict_one_get. unfold evict_one, db_run. simpl. rewrite Ha. simpl. intros [Hin Hn]%filter_In.
  apply negb_true_iff, bool_decide_eq_false in Hn. rewrite bool_decide_eq_false_2 by done. by apply Hc.
Qed.

Lemma evict_one_runs w id : runs (evict_one w id) = runs w.
Proof. unfold evict_one, db_run. simpl. by destruct (available w). Qed.

(** What an operation on [id] leaves of the others: nothing appears, nothing in flight goes. *)
Record touches (used : list string) (id : string) (w w' : ConvWorld) : Prop := {
  to_mirrored : mirrored used w';
  to_runs : runs w' = runs w;
  to_complete : complete w -> complete w';
  to_only : forall i r, i <> id -> getTask i w' = Some r -> getTask i w = Some r;
  to_keeps : forall i r, i <> id -> getTask i w = Some r -> in_flight r = true -> getTask i w' = Some r }.

Lemma touches_refl used id w : mirrored used w -> touches used id w w.
Proof. by split. Qed.

Lemma touches_trans used id w1 w2 w3 : touches used id w1 w2 -> touches used id w2 w3 -> touches used id w1 w3.
Proof. intros [A1 B1 F1 C1 D1] [A2 B2 F2 C2 D2]. split; [done|by rewrite B2|eauto|eauto|eauto]. Qed.

Lemma evict_all_spec used ids w : mirrored used w ->
  mirrored used (foldl evict_one w ids) /\ runs (foldl evict_one w ids) = runs w /\
  (complete w -> complete (foldl evict_one w ids)) /\
  (forall i r, getTask i (foldl evict_one w ids) = Some r -> getTask i w = Some r /\ ~ In i ids) /\
  (forall i r, getTask i w = Some r -> ~ In i ids -> getTask i (foldl evict_one w ids) = Some r).
Proof.
  revert w. induction ids as [|x ids IH]; intros w H; [by split_and!; naive_solver|]. simpl.
  destruct (IH _ (evict_one_mirrored used w x H)) as (Hm & Hr & Hf & Ho & Hk).
  split_and!; [done|by rewrite Hr, evict_one_runs|intros Hc; apply Hf, evict_one_complete; [apply H|done]| |].
  - intros i r [Hg Hn]%Ho. rewrite evict_one_get in Hg. case_bool_decide; [done|]. split; [done|]. naive_solver.
  - intros i r Hg Hn. apply Hk; [|naive_solver]. rewrite evict_one_get. rewrite bool_decide_eq_false_2; [done|naive_solver].
Qed.

Lemma in_flight_terminal r : in_flight r = negb (terminal (rec_status r)).
Proof. unfold in_flight. by destruct (rec_status r). Qed.

Lemma getTask_In id r w : getTask id w = Some r -> In r (map_values (cache w)).
Proof. intros H%map_get_In. by apply (in_map snd) in H. Qed.

Lemma In_getTask used r w : mirrored used w -> In r (map_values (cache w)) -> getTask (rec_id r) w = Some r.
Proof.
  intros H ([k r'] & Er & Hin)%in_map_iff. simpl in Er. subst r'.
  assert (getTask k w = Some r) as Hg by (by apply map_get_Some, Hin; apply (mir_wf _ _ H)).
  by destruct (mir_cache _ _ H _ _ Hg) as (<- & _).
Qed.

Lemma take_In {A} (x : A) n l : In x (take n l) -> In x l.
Proof. intros H. rewrite <- (firstn_skipn n l). apply in_app_iff. by left. Qed.

Lemma evict_spec used w : mirrored used w ->
  mirrored used (evictOldCompleted w) /\ runs (evictOldCompleted w) = runs w /\
  (complete w -> complete (evictOldCompleted w)) /\
  (forall i r, getTask i (evictOldCompleted w) = Some r -> getTask i w = Some r) /\
  (forall i r, getTask i w = Some r -> in_flight r = true -> getTask i (evictOldCompleted w) = Some r).
Proof.
  intros H. unfold evictOldCompleted. destruct (length (done_tasks w) <=? maxKeepCompleted)%nat; [by split_and!|].
  match goal with |- context [foldl evict_one w ?l] => set (ids := l) end.
  destruct (evict_all_spec used ids w H) as (Hm & Hr & Hf & Ho & Hk). split_and!; [done|done|done|naive_solver|]. clear Hf.
  intros i r Hg Hf. apply Hk; [done|]. intros (r' & Hid & Hin)%in_map_iff. apply take_In, sort_by_In, filter_In in Hin as [Hin Ht].
  apply (In_getTask used) in Hin; [|done]. rewrite Hid, Hg in Hin. simplify_eq. rewrite in_flight_terminal, Ht in Hf. done.
Qed.

Lemma evict_touches used id w w' : touches used id w w' -> touches used id w (evictOldCompleted w').
Proof.
  intros [Hm Hr Hf Ho Hk]. destruct (evict_spec used w' Hm) as (Hm' & Hr' & Hf' & Ho' & Hk').
  split; [done|by rewrite Hr'|eauto|eauto|eauto].
Qed.

(** ** Changes of one record *)

Lemma save_touches used r w : mirrored used w -> storable r -> In (rec_id r) used ->
  (forall o, get_row (rec_id r) (table w) = Some o -> row_started o = rec_startedAt r) -> touches used (rec_id r) w (save r w).
Proof.
  intros H Hr Hu Hs. split; [by apply save_mirrored|apply runs_save|apply save_complete, H| |]; intros i r' Hi;
    rewrite getTask_save, bool_decide_eq_false_2 by done; done.
Qed.

(** An update of a cached record. *)
Lemma update_touches used id r r' w : mirrored used w -> getTask id w = Some r -> storable r' ->
  rec_id r' = rec_id r -> rec_startedAt r' = rec_startedAt r -> touches used id w (save r' w).
Proof.
  intros H Hg Hr Hid Hs. pose proof (mirrored_used _ _ _ _ H Hg) as Hu. destruct (mir_cache _ _ H _ _ Hg) as (Hi & _).
  assert (rec_id r' = id) as <- by congruence. apply save_touches; [done|done|done|].
  apply (mirrored_started used); [done|]. rewrite Hg. by symmetry.
Qed.

Lemma transition_spec used id status env now w r : mirrored used w -> getTask id w = Some r -> truthy_option env ->
  touches used id w (transition id status env now w).1 /\
  (forall r', getTask id (transition id status env now w).1 = Some r' -> r' = moved r status env now) /\
  (terminal status = false -> getTask id (transition id status env now w).1 = Some (moved r status env now)).
Proof.
  intros H Hg He. unfold transition. rewrite Hg. destruct (mir_cache _ _ H _ _ Hg) as (Hi & Hs & _).
  set (r1 := moved r status env now).
  assert (touches used id w (save r1 w)) as Ht by (apply (update_touches used id r); [done|done|by apply storable_moved|done|done]).
  assert (getTask id (save r1 w) = Some r1) as Hg1 by (rewrite getTask_save; by rewrite bool_decide_eq_true_2).
  destruct (terminal status) eqn:Et; cbn [fst snd].
  - split_and!; [by apply evict_touches| |done]. intros r' Hr'. destruct (evict_spec used _ (to_mirrored _ _ _ _ Ht)) as (_ & _ & _ & Ho & _). apply Ho in Hr'. by simplify_eq.
  - split_and!; [done| |done]. intros r' Hr'. by simplify_eq.
Qed.

Lemma setAbort_touches used id c w r : mirrored used w -> getTask id w = Some r ->
  touches used id w (setAbortController id c w) /\
  exists r', getTask id (setAbortController id c w) = Some r' /\ rec_paused r' = rec_paused r /\ rec_status r' = rec_status r
             /\ rec_request r' = rec_request r.
Proof.
  intros H Hg. unfold setAbortController. rewrite Hg. set (r' := mkTaskRecord _ _ _ _ _ _ _ _ _ _).
  destruct (mir_cache _ _ H _ _ Hg) as (Hi & Hs & row & Hrow & Hr).
  assert (forall i, getTask i (with_cache (map_set id r' (cache w)) w) = if bool_decide (i = id) then Some r' else getTask i w) as Hget
    by (intros i; apply map_get_set).
  split.
  - split; [|done| | |].
    + split; simpl; [apply H|by apply wf_set, H|apply H| |apply H]. intros i rr. rewrite Hget. case_bool_decide; [|apply H].
      intros [= <-]. subst i. split_and!; [done|by destruct Hs|]. exists row. by split.
    + intros Hc row' Hin. rewrite Hget. case_bool_decide; [done|]. by apply Hc.
    + intros i rr Hne. by rewrite Hget, bool_decide_eq_false_2.
    + intros i rr Hne. by rewrite Hget, bool_decide_eq_false_2.
  - exists r'. split; [|done]. rewrite Hget. by rewrite bool_decide_eq_true_2.
Qed.

(** [w] with other controllers, listeners or runs. *)
Lemma mirrored_ext used w w' : cache w' = cache w -> table w' = table w -> available w' = available w ->
  mirrored used w -> mirrored used w'.
Proof. intros E1 E2 E3 [A B C D F]. split; unfold getTask in *; rewrite ?E1, ?E2, ?E3; done. Qed.

Lemma begin_task_run used id now w r : mirrored used w -> getTask id w = Some r ->
  let '(ctrl, w', out) := begin_run id now w in
  touches used id w w' /\ is_aborted ctrl w' = false /\
  exists r', getTask id w' = Some r' /\ rec_status r' = st_running /\ rec_paused r' = rec_paused r /\ rec_request r' = rec_request r.
Proof.
  intros H Hg. unfold begin_run. set (c := length (controllers w)). set (w1 := with_controllers _ w).
  assert (mirrored used w1) as H1 by (by apply (mirrored_ext used w)).
  assert (getTask id w1 = Some r) as Hg1 by done.
  destruct (setAbort_touches used id c w1 r H1 Hg1) as [Ht (r2 & Hg2 & Hp2 & Hs2 & Hq2)].
  set (w2 := setAbortController id c w1) in *.
  destruct (transition_spec used id st_running None now w2 r2 (to_mirrored _ _ _ _ Ht) Hg2 truthy_none) as (Ht3 & Hu & Hex).
  destruct (transition id st_running None now w2) as [w3 out] eqn:E3. simpl in *.
  assert (touches used id w w1) as Ht1 by (by split).
  split_and!.
  - by eapply touches_trans, touches_trans.
  - unfold is_aborted. assert (controllers w3 = controllers w ++ [false]) as ->.
    { unfold transition in E3. rewrite Hg2 in E3. simpl in E3. injection E3 as <- _. unfold save, persist, db_run. simpl.
      replace (controllers (if available w2 then _ else _)) with (controllers w2) by (by destruct (available w2)).
      unfold w2, setAbortController. by rewrite Hg1. }
    unfold c. by rewrite lookup_app_r, Nat.sub_diag by lia.
  - exists (moved r2 st_running None now). split_and!; [by apply Hex|done|done|done].
Qed.

(** ** Loading the table *)

Lemma stored_rowToRecord row : stored (rowToRecord row) = rowToRecord row.
Proof. unfold stored, rowToRecord. simpl. f_equal. by destruct (row_question row) as [[|]|]. Qed.

(** What a row becomes: a task that was running when the process ended has failed. *)
Definition loaded (now : Z) (row : TaskRow) : TaskRecord :=
  match row_status row with st_running | st_queued => interrupted (rowToRecord row) now | _ => rowToRecord row end.

Lemma loaded_id now row : rec_id (loaded now row) = row_id row.
Proof. unfold loaded. by destruct (row_status row). Qed.

Lemma load_row_get now w row i :
  getTask i (load_row now w row) = if bool_decide (i = row_id row) then Some (loaded now row) else getTask i w.
Proof.
  unfold load_row, loaded. simpl. destruct (row_status row); try (apply (getTask_save (interrupted (rowToRecord row) now))); apply map_get_set.
Qed.

Lemma load_row_runs now w row : runs (load_row now w row) = runs w.
Proof. unfold load_row. simpl. destruct (row_status row); try apply runs_save; done. Qed.

(** Loading a row keeps the others and never adds one. *)
Lemma load_row_spec used now w row : mirrored used w -> get_row (row_id row) (table w) = Some row ->
  mirrored used (load_row now w row) /\
  (forall i, i <> row_id row -> get_row i (table (load_row now w row)) = get_row i (table w)) /\
  (forall i, In i (map row_id (table (load_row now w row))) -> In i (map row_id (table w))).
Proof.
  intros H Hrow. pose proof Hrow as [Hin _]%get_row_Some. destruct (mir_table _ _ H _ Hin) as [Hs Hu].
  unfold load_row. simpl. set (ri := interrupted (rowToRecord row) now).
  assert (mirrored used (save ri w) /\ (forall i, i <> row_id row -> get_row i (table (save ri w)) = get_row i (table w)) /\
          (forall i, In i (map row_id (table (save ri w))) -> In i (map row_id (table w)))) as Hi.
  { assert (forall o, get_row (rec_id ri) (table w) = Some o -> row_started o = rec_startedAt ri) as Ho
      by (simpl; intros o Hg; by simplify_eq).
    split; [apply save_mirrored; [done|by apply storable_interrupted|done|done]|].
    unfold save, persist, db_run. simpl. rewrite (mir_available _ _ H). simpl. split.
    - intros i Hne. rewrite get_row_upsert by done. by rewrite bool_decide_eq_false_2.
    - intros i [->|?]%(upsert_keys (row_of ri) _ (mir_keyed _ _ H)); [by apply (in_map row_id _ row)|done]. }
  destruct (row_status row) eqn:Es; try exact Hi; (split; [|done]);
    (split; simpl; [apply H|apply wf_set, H|apply H| |apply H]; intros i r Hg; unfold getTask in Hg; simpl in Hg;
     rewrite map_get_set in Hg; case_bool_decide; [|by apply H]; simplify_eq; split_and!; [done|done|];
     exists row; split; [done|by rewrite stored_rowToRecord]).
Qed.

Lemma load_rows_spec used now rows w : mirrored used w -> List.NoDup (map row_id rows) ->
  (forall row, In row rows -> get_row (row_id row) (table w) = Some row) ->
  let w' := foldl (load_row now) w rows in
  mirrored used w' /\ runs w' = runs w /\
  (forall i, In i (map row_id (table w')) -> In i (map row_id (table w))) /\
  (forall i r, getTask i w' = Some r -> getTask i w = Some r \/ exists row, In row rows /\ row_id row = i /\ r = loaded now row) /\
  (forall row, In row rows -> getTask (row_id row) w' = Some (loaded now row)) /\
  (forall i, ~ In i (map row_id rows) -> getTask i w' = getTask i w).
Proof.
  revert w. induction rows as [|row rows IH]; intros w H Hd Hg; [simpl; split_and!; try done; by left|].
  simpl in Hd. apply NoDup_cons_iff in Hd as [Hn Hd]. cbn [foldl].
  destruct (load_row_spec used now w row H (Hg row (or_introl eq_refl))) as (H1 & Ho & Hsub).
  destruct (IH (load_row now w row) H1 Hd) as (Hm & Hr & Hs & Hf & Ht & Hk).
  { intros row' Hin. rewrite Ho by (intros E; apply Hn; rewrite <- E; by apply in_map). apply Hg. by right. }
  split_and!.
  - done.
  - by rewrite Hr, load_row_runs.
  - auto.
  - intros i r [Hi|(row' & Hin & E)]%Hf.
    + rewrite load_row_get in Hi. case_bool_decide; [right|by left]. simplify_eq. exists row. split_and!; [by left|done|done].
    + right. exists row'. split; [by right|done].
  - intros row' [<-|Hin]; [|by apply Ht]. rewrite Hk by done. rewrite load_row_get. by rewrite bool_decide_eq_true_2.
  - intros i Hi. simpl in Hi. rewrite Hk by tauto. rewrite load_row_get, bool_decide_eq_false_2; [done|naive_solver].
Qed.

(** A restart: every task of the table, the interrupted ones failed, the finished ones perhaps evicted. *)
Lemma restart_spec used now w : mirrored used w ->
  let w' := restart now w in
  mirrored used w' /\ runs w' = [] /\ complete w' /\
  (forall i r, getTask i w' = Some r -> exists row, In row (table w) /\ row_id row = i /\ r = loaded now row) /\
  (forall row, In row (table w) -> in_flight (loaded now row) = true -> getTask (row_id row) w' = Some (loaded now row)).
Proof.
  intros H. unfold restart, hydrate. set (w0 := mkConv [] (table w) (available w) [] [] 0 []).
  change (available w0) with (available w). rewrite (mir_available _ _ H). cbn [negb].
  set (rows := newest_first (table w0)).
  assert (rows ≡ₚ table w) as Hp by (unfold rows, newest_first; rewrite sort_by_perm; symmetry; apply Permutation_rev).
  assert (mirrored used w0) as H0 by (destruct H; split; [done|by constructor|done|by intros|done]).
  assert (forall row, In row rows <-> In row (table w)) as Hin
    by (intros row; split; apply Permutation_in; [done|by symmetry]).
  destruct (load_rows_spec used now rows w0 H0) as (Hm & Hr & Hs & Hf & Ht & _).
  { eapply Permutation_NoDup; [|exact (mir_keyed _ _ H)]. symmetry. by apply Permutation_map. }
  { intros row Hi%Hin. by apply (get_row_In (table w)); [apply H|]. }
  destruct (evict_spec used _ Hm) as (Hm' & Hr' & Hc' & Ho' & Hk'). split_and!; [done|by rewrite Hr'| | |].
  - apply Hc'. intros row Hrow. apply (in_map row_id), Hs, in_map_iff in Hrow as (o & <- & Ho). apply Hin in Ho. by rewrite Ht.
  - intros i r [?|(row & Hrow & E)]%Ho'%Hf; [done|]. exists row. by rewrite <- Hin.
  - intros row Hrow Hfl. apply Hk'; [|done]. by apply Ht, Hin.
Qed.

(** ** The conversation a task continues *)

Inductive phase := ph_new | ph_run | ph_paused (conversation : json).

(** What an event makes of the task [id]: its first run, a pause, a run that continues exactly the
    conversation of the pause; anything else is no event of [id]. *)
Inductive phase_step (id : string) : phase -> ConvEvent -> phase -> Prop :=
  | ps_first q m : phase_step id ph_new (Started id q m None) ph_run
  | ps_pause question h : phase_step id ph_run (Paused id question h) (ph_paused h)
  | ps_resume q m h : phase_step id (ph_paused h) (Started id q m (Some h)) ph_run
  | ps_started p i q m h : i <> id -> phase_step id p (Started i q m h) p
  | ps_paused p i q h : i <> id -> phase_step id p (Paused i q h) p
  | ps_task p l r : phase_step id p (TaskStarted l r) p
  | ps_ended p l s r e : phase_step id p (TaskEnded l s r e) p
  | ps_answer p l e : phase_step id p (Answered l e) p
  | ps_threw p : phase_step id p ToolThrew p.

Inductive phases (id : string) : phase -> list ConvEvent -> phase -> Prop :=
  | phases_nil p : phases id p [] p
  | phases_cons p e q evs r : phase_step id p e q -> phases id q evs r -> phases id p (e :: evs) r.

Lemma phases_app id p l1 q l2 r : phases id p l1 q -> phases id q l2 r -> phases id p (l1 ++ l2) r.
Proof. induction 1; simpl; [done|]. intros. econstructor; eauto. Qed.

(** Events of the interface only. *)
Definition display (e : ConvEvent) : bool := match e with Started _ _ _ _ | Paused _ _ _ => false | _ => true end.

Lemma phases_display id p evs : List.Forall (fun e => display e = true) evs -> phases id p evs p.
Proof. induction 1 as [|[] evs He Hl IH]; try done; econstructor; eauto; constructor. Qed.

Lemma notify_display r w : List.Forall (fun e => display e = true) (notify r w).
Proof. unfold notify. induction (listeners w) as [|l ls IH]; simpl; [constructor|]. case_all; simpl; auto. Qed.

Lemma transition_display id status env now w : List.Forall (fun e => display e = true) (transition id status env now w).2.
Proof. unfold transition. destruct (getTask id w); [apply notify_display|constructor]. Qed.

Lemma finish_display l id status env w : List.Forall (fun e => display e = true) (finish l id status env w).2.
Proof. unfold finish. simpl. apply Forall_app. split; [|by repeat constructor]. case_all; by repeat constructor. Qed.

Lemma settle_display l id status env now w : List.Forall (fun e => display e = true) (settle l id status env now w).2.
Proof.
  unfold settle. pose proof (transition_display id status (Some env) now w) as Ht. destruct (transition _ _ _ _ w) as [w1 out].
  pose proof (finish_display l id status env w1) as Hf. destruct (finish l id status env w1). by apply Forall_app.
Qed.

(** ** The invariant *)

Record coherent (used : list string) (tr : list ConvEvent) (w : ConvWorld) : Prop := {
  co_mirrored : mirrored used w;
  co_complete : complete w;
  co_runs : List.NoDup (map run_task (runs w));
  co_running : forall x, In x (map run_task (runs w)) ->
    (exists r, getTask x w = Some r /\ rec_status r = st_running) /\ phases x ph_new tr ph_run;
  co_tasks : forall id r, getTask id w = Some r ->
    match rec_status r with
    | st_queued => False
    | st_running => In id (map run_task (runs w))
    | st_needs_input => exists h, rec_paused r = Some (JArr h) /\ phases id ph_new tr (ph_paused (JArr h))
    | _ => True
    end;
  co_trace : forall id, (exists p, phases id ph_new tr p) /\ (~ In id used -> phases id ph_new tr ph_new) }.

(** What an operation changes besides one task. *)
Lemma coherent_ext used tr out w w' : cache w' = cache w -> table w' = table w -> available w' = available w ->
  map run_task (runs w') = map run_task (runs w) -> List.Forall (fun e => display e = true) out ->
  coherent used tr w -> coherent used (tr ++ out) w'.
Proof.
  intros E1 E2 E3 E4 Ho H.
  assert (forall id p, phases id ph_new tr p -> phases id ph_new (tr ++ out) p) as Hp
    by (intros id p Hp; eapply phases_app; [exact Hp|by apply phases_display]).
  destruct H as [A B C D E F]. split; unfold complete, getTask in *; rewrite ?E1, ?E2, ?E4.
  - by apply (mirrored_ext used w).
  - done.
  - done.
  - intros x [? ?]%D. auto.
  - intros id r Hg. specialize (E id r Hg). destruct (rec_status r); try done. destruct E as (h & ? & ?). exists h. auto.
  - intros id. destruct (F id) as [[p Hq] Hn]. split; [exists p; auto|auto].
Qed.

(** An operation on the task [id] alone, whose run (if any) is over or begins. *)
Lemma coherent_touch used tr out id p w w0 w1 w' : coherent used tr w ->
  cache w0 = cache w -> table w0 = table w -> touches used id w0 w1 ->
  cache w' = cache w1 -> table w' = table w1 -> available w' = available w1 ->
  List.NoDup (map run_task (runs w')) ->
  (forall x, x <> id -> In x (map run_task (runs w')) <-> In x (map run_task (runs w))) ->
  (forall i, i <> id -> forall p, phases i p out p) ->
  phases id ph_new (tr ++ out) p -> In id used ->
  (In id (map run_task (runs w')) -> p = ph_run /\ exists r, getTask id w1 = Some r /\ rec_status r = st_running) ->
  (forall r, getTask id w1 = Some r ->
    match rec_status r with
    | st_queued => False
    | st_running => In id (map run_task (runs w'))
    | st_needs_input => exists h, rec_paused r = Some (JArr h) /\ p = ph_paused (JArr h)
    | _ => True
    end) ->
  coherent used (tr ++ out) w'.
Proof.
  intros H B1 B2 [Hm _ Hc Ho Hk] E1 E2 E3 Hnd Hin Hout Hp Hu Hrun Htask.
  assert (forall i q, i <> id -> phases i ph_new tr q -> phases i ph_new (tr ++ out) q) as Hq
    by (intros i q Hi Hq; eapply phases_app; [exact Hq|by apply Hout]).
  assert (forall i, getTask i w' = getTask i w1) as Eg by (intros i; unfold getTask; by rewrite E1).
  assert (forall i, getTask i w0 = getTask i w) as Eg0 by (intros i; unfold getTask; by rewrite B1).
  destruct H as [A B C D E F]. split.
  - by apply (mirrored_ext used w1).
  - intros row. rewrite E2, Eg. apply Hc. intros row' Hrow'. rewrite Eg0. apply B. by rewrite <- B2.
  - done.
  - intros x Hx. rewrite Eg. destruct (decide (x = id)) as [->|Hne].
    + destruct (Hrun Hx) as [-> Hex]. split; [exact Hex|exact Hp].
    + apply Hin in Hx; [|done]. destruct (D x Hx) as [(r & Hg & Hs) Hph]. split; [|by apply Hq].
      exists r. split; [|done]. apply Hk; [done|by rewrite Eg0|]. unfold in_flight. by rewrite Hs.
  - intros i r. rewrite Eg. intros Hg. destruct (decide (i = id)) as [->|Hne].
    + specialize (Htask r Hg). destruct (rec_status r); try done. destruct Htask as (h & ? & ->). exists h. by split.
    + pose proof (Ho i r Hne Hg) as Hg0. rewrite Eg0 in Hg0. specialize (E i r Hg0). destruct (rec_status r); try done; [by apply Hin|].
      destruct E as (h & ? & ?). exists h. split; [done|by apply Hq].
  - intros i. destruct (decide (i = id)) as [->|Hne]; [split; [by exists p|done]|].
    destruct (F i) as [[q ?] Hn]. split; [exists q; by apply Hq|]. intros ?. apply Hq; [done|by apply Hn].
Qed.

(** ** The operations keep it *)

Lemma coherent_more used used' tr w : (forall i, In i used -> In i used') -> coherent used tr w -> coherent used' tr w.
Proof.
  intros Hu [[A1 A2 A3 A4 A5] B C D E F]. split; [|done|done|done|done|].
  - split; try done. intros row Hin. destruct (A5 row Hin). auto.
  - intros id. destruct (F id) as [? ?]. split; auto.
Qed.

Lemma phases_other i id p q m h : i <> id -> phases i p [Started id q m h] p.
Proof. intros. econstructor; [by constructor|constructor]. Qed.

(** A run of [id] begins. *)
Lemma started_coherent used tr w w1 id q m h ctrl l r p0 out : coherent used tr w -> touches used id w w1 ->
  getTask id w1 = Some r -> rec_status r = st_running -> In id used -> ~ In id (map run_task (runs w)) ->
  List.Forall (fun e => display e = true) out -> phases id ph_new tr p0 -> phase_step id p0 (Started id q m h) ph_run ->
  coherent used (tr ++ out ++ [Started id q m h]) (add_run id q ctrl l w1).
Proof.
  intros H Ht Hg Hs Hu Hn Ho Hp Hstep. pose proof (to_runs _ _ _ _ Ht) as Er.
  assert (map run_task (runs (add_run id q ctrl l w1)) = map run_task (runs w) ++ [id]) as Em by (simpl; by rewrite Er, map_app).
  apply (coherent_touch used tr _ id ph_run w w w1); [done|done|done|done|done|done|done| | | | |done| |]; rewrite ?Em.
  - apply NoDup_ListNoDup, NoDup_app. split; [apply NoDup_ListNoDup, H|]. split; [|apply NoDup_singleton].
    by intros x Hx%list_elem_of_In ->%list_elem_of_singleton.
  - intros x Hx. rewrite in_app_iff. simpl. naive_solver.
  - intros i Hi p. eapply phases_app; [by apply phases_display|by apply phases_other].
  - eapply phases_app; [done|]. eapply phases_app; [by apply phases_display|]. econstructor; [done|constructor].
  - intros _. split; [done|]. by exists r.
  - intros r' Hr'. simplify_eq. rewrite Hs. apply in_app_iff. right. by left.
Qed.

Lemma display_app l1 l2 : List.Forall (fun e => display e = true) l1 -> List.Forall (fun e => display e = true) l2 ->
  List.Forall (fun e => display e = true) (l1 ++ l2).
Proof. intros. by apply Forall_app. Qed.

Lemma begin_run_display id now w : List.Forall (fun e => display e = true) (begin_run id now w).2.
Proof.
  unfold begin_run. match goal with |- context [transition id st_running None now ?w1] => set (w2 := w1) end.
  pose proof (transition_display id st_running None now w2) as Ht. by destruct (transition _ _ _ _ w2).
Qed.

Lemma dispatch_coherent used tr id q l now w : coherent used tr w -> ~ In id used ->
  non_empty (req_original q) = req_original q ->
  coherent (id :: used) (tr ++ (dispatch id q l now w).2) (dispatch id q l now w).1.
Proof.
  intros H Hn Hq. unfold dispatch, create. set (r := mkTaskRecord _ _ _ _ _ _ _ _ _ _).
  assert (coherent (id :: used) tr w) as H1 by (apply (coherent_more used); [by right|done]).
  assert (getTask id w = None) as Hg0.
  { destruct (getTask id w) eqn:E; [|done]. by apply (mirrored_used _ _ _ _ (co_mirrored _ _ _ H)) in E. }
  assert (touches (id :: used) id w (save r w)) as Ht.
  { apply (save_touches _ r w); [apply H1|by split|by left|]. apply (mirrored_started used); [apply H|]. simpl. by rewrite Hg0. }
  assert (getTask id (save r w) = Some r) as Hg by (rewrite getTask_save; by rewrite bool_decide_eq_true_2).
  pose proof (begin_task_run (id :: used) id now (save r w) r (to_mirrored _ _ _ _ Ht) Hg) as Hb.
  pose proof (begin_run_display id now (save r w)) as Hd.
  destruct (begin_run id now (save r w)) as [[ctrl w2] out2]. destruct Hb as (Ht2 & Ha & r2 & Hg2 & Hs2 & _). rewrite Ha. cbn [fst snd] in *.
  rewrite (app_assoc (notify r (save r w))).
  apply (started_coherent _ tr w w2 id q _ None ctrl l r2 ph_new); [done|by eapply touches_trans|done|done|by left| | | |constructor].
  - intros (x & Ex & Hin)%in_map_iff. apply (in_map run_task) in Hin. rewrite Ex in Hin.
    apply (co_running _ _ _ H) in Hin as [(r' & Hr' & _) _]. congruence.
  - apply display_app; [apply notify_display|done].
  - by apply (co_trace _ _ _ H id).
Qed.

Lemma finish_coherent used tr l id status env w : coherent used tr w ->
  coherent used (tr ++ (finish l id status env w).2) (finish l id status env w).1.
Proof. intros H. apply (coherent_ext used tr _ w); [done|done|done|done|apply finish_display|done]. Qed.

Lemma resume_coherent used tr id input l now w : coherent used tr w ->
  coherent used (tr ++ (resume id input l now w).2) (resume id input l now w).1.
Proof.
  intros H. unfold resume. destruct (getTask id w) as [r|] eqn:Hg; [|by apply finish_coherent].
  case_bool_decide as Hs; [|by apply finish_coherent]. pose proof (co_tasks _ _ _ H id r Hg) as Hp. rewrite Hs in Hp.
  destruct Hp as (h & Hh & Hph). rewrite Hh. cbn [truthy_json].
  pose proof (begin_task_run used id now w r (co_mirrored _ _ _ H) Hg) as Hb. pose proof (begin_run_display id now w) as Hd.
  destruct (begin_run id now w) as [[ctrl w2] out2]. destruct Hb as (Ht2 & _ & r2 & Hg2 & Hs2 & _). cbn [fst snd] in *.
  unfold clearPauseState. rewrite Hg2. set (r3 := with_pause r2 None None now).
  destruct (mir_cache _ _ (to_mirrored _ _ _ _ Ht2) _ _ Hg2) as (Hid & Hst & _).
  apply (started_coherent _ tr w (save r3 w2) id _ _ _ ctrl l r3 (ph_paused (JArr h)));
    [done| | |done|by apply (mirrored_used _ w _ r), Hg; apply H| |done|done|constructor].
  - eapply touches_trans; [done|]. apply (update_touches used id r2); [apply Ht2|done|by apply storable_pause|done|done].
  - rewrite getTask_save. by rewrite bool_decide_eq_true_2.
  - intros (Hex & _)%(co_running _ _ _ H). destruct Hex as (r' & ? & ?). congruence.
Qed.

(** ** The end of a run *)

Lemma dropped_runs used tr w k x : coherent used tr w -> runs w !! k = Some x ->
  List.NoDup (map run_task (delete k (runs w))) /\ ~ In (run_task x) (map run_task (delete k (runs w))) /\
  (forall y, y <> run_task x -> In y (map run_task (delete k (runs w))) <-> In y (map run_task (runs w))).
Proof.
  intros H Hk. assert (map run_task (runs w) ≡ₚ run_task x :: map run_task (delete k (runs w))) as Hp
    by (apply (Permutation_map run_task (l':=x :: delete k (runs w))), delete_Permutation, Hk).
  pose proof (Permutation_NoDup Hp (co_runs _ _ _ H)) as [Hn Hd]%NoDup_cons_iff. split_and!; [done|done|].
  intros y Hy. split; intros Hin.
  - eapply Permutation_in; [symmetry; exact Hp|by right].
  - eapply Permutation_in in Hin; [|exact Hp]. destruct Hin as [E|?]; [congruence|done].
Qed.

(** The task of a run is running, and was started and not paused since. *)
Lemma run_task_running used tr w k x : coherent used tr w -> runs w !! k = Some x ->
  In (run_task x) used /\ (exists r, getTask (run_task x) w = Some r) /\ phases (run_task x) ph_new tr ph_run.
Proof.
  intros H Hk. assert (In (run_task x) (map run_task (runs w))) as Hin
    by (apply in_map, list_elem_of_In, list_elem_of_lookup; by exists k).
  destruct (co_running _ _ _ H _ Hin) as [(r & Hg & _) Hp]. split_and!; [|by exists r|done].
  apply (mirrored_used _ w _ r); [apply H|done].
Qed.

Lemma settle_fields l id status env now w :
  let w' := (settle l id status env now w).1 in let w1 := (transition id status (Some env) now w).1 in
  cache w' = cache w1 /\ table w' = table w1 /\ available w' = available w1 /\ runs w' = runs w1.
Proof. unfold settle, finish. by destruct (transition id status (Some env) now w). Qed.

Lemma settled_coherent used tr w w0 k x l status env now pre p :
  coherent used tr w -> runs w !! k = Some x -> touches used (run_task x) (drop_run k w) w0 ->
  (exists r, getTask (run_task x) w0 = Some r /\ (status = st_needs_input -> exists h, rec_paused r = Some (JArr h) /\ p = ph_paused (JArr h))) ->
  terminal status = true \/ status = st_needs_input -> truthy_option (Some env) ->
  phases (run_task x) ph_run pre p -> (forall i, i <> run_task x -> forall q, phases i q pre q) ->
  coherent used (tr ++ pre ++ (settle l (run_task x) status env now w0).2) (settle l (run_task x) status env now w0).1.
Proof.
  intros H Hk Ht (r & Hg & Hpause) Hstatus He Hpre Hother. set (id := run_task x) in *.
  destruct (dropped_runs _ _ _ _ _ H Hk) as (Hnd & Hnin & Hin). destruct (run_task_running _ _ _ _ _ H Hk) as (Hu & _ & Hph).
  destruct (transition_spec used id status (Some env) now w0 r (to_mirrored _ _ _ _ Ht) Hg He) as (Ht1 & Honly & _).
  destruct (settle_fields l id status env now w0) as (E1 & E2 & E3 & E4).
  set (w1 := (transition id status (Some env) now w0).1) in *.
  assert (runs (settle l id status env now w0).1 = delete k (runs w)) as Er
    by (rewrite E4, (to_runs _ _ _ _ Ht1), (to_runs _ _ _ _ Ht); done).
  apply (coherent_touch used tr _ id p w (drop_run k w) w1);
    [done|done|done|by eapply touches_trans|done|done|done|by rewrite Er|intros y Hy; rewrite Er; by apply Hin| | |done| |].
  - intros i Hi q. eapply phases_app; [by apply Hother|]. by apply phases_display, settle_display.
  - eapply phases_app; [done|]. eapply phases_app; [done|]. by apply phases_display, settle_display.
  - rewrite Er. done.
  - intros r' ->%Honly. simpl. destruct Hstatus as [Hterm| ->]; [by destruct status|]. by apply Hpause.
Qed.

(** A run that ends: [settled_coherent] without a pause. *)
Lemma ended_coherent used tr w k x l status env now : coherent used tr w -> runs w !! k = Some x ->
  terminal status = true -> truthy_option (Some env) ->
  coherent used (tr ++ (settle l (run_task x) status env now (drop_run k w)).2) (settle l (run_task x) status env now (drop_run k w)).1.
Proof.
  intros H Hk Hs He. destruct (run_task_running _ _ _ _ _ H Hk) as (_ & (r & Hg) & _).
  apply (settled_coherent used tr w (drop_run k w) k x l status env now [] ph_run);
    [done|done|apply touches_refl, (mirrored_ext used w); try done; apply H| |by left|done|constructor|constructor].
  exists r. split; [done|]. by intros ->.
Qed.

#[local] Ltac end_run H Hk := apply (ended_coherent _ _ _ _ _ _ _ _ _ H Hk); [done|apply truthy_envelope].

Lemma run_returned_coherent used tr k o now w : coherent used tr w ->
  coherent used (tr ++ (run_returned k o now w).2) (run_returned k o now w).1.
Proof.
  intros H. assert (coherent used (tr ++ []) w) as Hid by (by rewrite app_nil_r).
  unfold run_returned. destruct (runs w !! k) as [[id q ctrl l [?|]]|] eqn:Hk; [done| |done].
  destruct (run_task_running _ _ _ _ _ H Hk) as (_ & (r & Hg) & _). cbn [run_task] in Hg.
  assert (mirrored used (drop_run k w)) as Hm by (by apply (mirrored_ext used w), H).
  destruct o as [text|question conversation|msg]; [| |end_run H Hk];
    (destruct (is_aborted ctrl w); [end_run H Hk|]).
  - destruct (negb _); [end_run H Hk|].
    destruct (_ <=? _)%nat; [end_run H Hk|].
    apply (coherent_ext used tr [] w); try done. simpl. rewrite list_fmap_insert. simpl.
    apply list_insert_id. by rewrite list_lookup_fmap, Hk.
  - unfold recordPauseState. change (getTask id (drop_run k w)) with (getTask id w). rewrite Hg.
    set (r1 := with_pause r (Some question) (Some (JArr conversation)) now).
    destruct (mir_cache _ _ (co_mirrored _ _ _ H) _ _ Hg) as (Hrid & Hst & _).
    assert (touches used id (drop_run k w) (save r1 (drop_run k w))) as Ht
      by (apply (update_touches used id r); [done|done| |done|done]; apply storable_pause; [done|by intros j [= <-]]).
    set (env := envelope id st_needs_input question _).
    pose proof (settled_coherent used tr w _ k _ l st_needs_input env now [Paused id question (JArr conversation)]
      (ph_paused (JArr conversation)) H Hk Ht) as Hs. cbn [run_task] in Hs.
    destruct (settle l id st_needs_input env now (save r1 (drop_run k w))) as [w2 out]. cbn [fst snd] in *.
    apply Hs; clear Hs; [|by right|by intros j [= <-]| |].
    + exists r1. split; [rewrite getTask_save; by rewrite bool_decide_eq_true_2|]. intros _. by exists conversation.
    + econstructor; constructor.
    + intros i Hi p. econstructor; [by constructor|constructor].
Qed.

Lemma condensed_coherent used tr k a now w : coherent used tr w ->
  coherent used (tr ++ (condensed k a now w).2) (condensed k a now w).1.
Proof.
  intros H. assert (coherent used (tr ++ []) w) as Hid by (by rewrite app_nil_r).
  unfold condensed. destruct (runs w !! k) as [[id q ctrl l [trimmed|]]|] eqn:Hk; [|done|done].
  end_run H Hk.
Qed.

Lemma restart_coherent used tr now w : coherent used tr w -> coherent used tr (restart now w).
Proof.
  intros H. destruct (restart_spec used now w (co_mirrored _ _ _ H)) as (Hm & Hr & Hc & Hf & _).
  split; [done|done|rewrite Hr; constructor|by rewrite Hr| |apply H].
  intros id r (row & Hin & Hid & ->)%Hf. destruct (co_complete _ _ _ H row Hin) as [r0 Hg].
  destruct (mir_cache _ _ (co_mirrored _ _ _ H) _ _ Hg) as (_ & _ & row' & Hrow' & Hst).
  assert (row' = row) as -> by (pose proof (get_row_In (table w) row (mir_keyed _ _ (co_mirrored _ _ _ H)) Hin) as E;
    change (row_key row) with (row_id row) in E; congruence).
  pose proof (co_tasks _ _ _ H _ _ Hg) as Ht.
  assert (row_status row = rec_status r0) as Es by (change (row_status row) with (rec_status (rowToRecord row)); by rewrite Hst).
  assert (rec_paused (rowToRecord row) = rec_paused r0) as Ep by (by rewrite Hst).
  unfold loaded. rewrite Hid in Ht. rewrite Es. destruct (rec_status r0) eqn:E0; simpl; rewrite ?Es, ?E0; try done.
  destruct Ht as (h & Hh & Hp). exists h. split; [|done]. by rewrite <- Hh, <- Ep.
Qed.

Definition new_ids (ops : list ConvOp) : list string :=
  omap (fun op => match op with OpTool name _ newId _ _ => if bool_decide (name = "delegate") then Some newId else None | _ => None end) ops.

(** The id generator does not repeat itself, and the table is always available: no write is lost. *)
Definition stored_ops (ops : list ConvOp) : Prop :=
  List.NoDup (new_ids ops) /\ List.Forall (fun op => op <> OpAvailable false) ops.

(** The id generator does not repeat itself, and no process starts from a table that missed a write:
    nothing restarts once the table has been unavailable. *)
Definition sound_ops (ops : list ConvOp) : Prop :=
  List.NoDup (new_ids ops) /\
  forall l1 l2, ops = l1 ++ OpAvailable false :: l2 -> List.Forall (fun op => forall now, op <> OpRestart now) l2.

Lemma new_coherent : coherent [] [] new_conv.
Proof.
  split; [split; try done; apply List.NoDup_nil|by intros ? ?|apply List.NoDup_nil|by intros ? ?|by intros ? ?|].
  intros id. split; [exists ph_new|]; constructor.
Qed.

Lemma tool_error_display m : List.Forall (fun e => display e = true) (tool_error m).
Proof. by repeat constructor. Qed.

Lemma tool_coherent used tr name args newId msg now w : coherent used tr w ->
  (name = "delegate" -> ~ In newId used) ->
  coherent (new_ids [OpTool name args newId msg now] ++ used)
    (tr ++ (handleToolCall name args newId msg now w).2) (handleToolCall name args newId msg now w).1.
Proof.
  intros H Hn. unfold handleToolCall.
  destruct (includes name conv_tool_names && (match args with JNull => true | _ => false end)).
  { apply (coherent_ext _ tr [ToolThrew] w); [done|done|done|done|by repeat constructor|].
    apply (coherent_more used); [|done]. intros i Hi. apply in_app_iff. by right. }
  unfold new_ids. cbn [omap list_omap]. case_bool_decide as Hd.
  - cbn [app]. assert (coherent (newId :: used) tr w) as Hm by (apply (coherent_more used); [by right|done]).
    destruct (text_arg "tier" args), (text_arg "template" args), (text_arg "intent" args);
      try (by apply (coherent_ext _ tr _ w); [done|done|done|done|apply tool_error_display|]).
    unfold subscribe. apply dispatch_coherent; [|by apply Hn|apply non_empty_idem].
    rewrite <- (app_nil_r tr). by apply (coherent_ext used tr [] w).
  - cbn [app]. assert (forall e, display e = true -> coherent used (tr ++ [e]) w) as He
      by (intros e ?; apply (coherent_ext used tr [e] w); auto).
    assert (forall m, coherent used (tr ++ tool_error m) w) as Hm by (intros m; by apply He).
    case_bool_decide; [|case_bool_decide; [|case_bool_decide; [|apply Hm]]].
    + destruct (text_arg "task_id" args); [|apply Hm]. destruct (getTask _ w); [by apply He|apply Hm].
    + destruct (text_arg "task_id" args) as [id|]; [|apply Hm]. unfold abort.
      destruct (getTask id w) as [r|]; [|by apply He]. destruct (negb (in_flight r)); [by apply He|].
      apply (coherent_ext used tr _ w); try by destruct (rec_abort r). by repeat constructor.
    + destruct (text_arg "task_id" args) as [id|], (text_arg "input" args); try apply Hm. unfold subscribe.
      apply resume_coherent. rewrite <- (app_nil_r tr). by apply (coherent_ext used tr [] w).
Qed.

Lemma step_coherent used tr op w : coherent used tr w -> op <> OpAvailable false ->
  (forall i, In i (new_ids [op]) -> ~ In i used) ->
  coherent (new_ids [op] ++ used) (tr ++ (conv_step w op).2) (conv_step w op).1.
Proof.
  intros H Ha Hn. destruct op as [name args newId msg now|k o now|k a now|id|b|now]; simpl.
  - apply tool_coherent; [done|]. intros ->. apply Hn. by left.
  - by apply run_returned_coherent.
  - by apply condensed_coherent.
  - apply (coherent_ext used tr [] w); try done; unfold abort; destruct (getTask id w) as [r|]; try done;
      destruct (negb (in_flight r)); try done; by destruct (rec_abort r).
  - destruct b; [|done]. apply (coherent_ext used tr [] w); try done. simpl. symmetry. apply H.
  - rewrite app_nil_r. by apply restart_coherent.
Qed.

Lemma run_coherent ops used tr w : coherent used tr w -> List.NoDup (new_ids ops) ->
  (forall i, In i (new_ids ops) -> ~ In i used) -> List.Forall (fun op => op <> OpAvailable false) ops ->
  exists used', coherent used' (tr ++ (conv_run w ops).2) (conv_run w ops).1.
Proof.
  revert used tr w. induction ops as [|op ops IH]; intros used tr w H Hd Hn Ha.
  - exists used. simpl. by rewrite app_nil_r.
  - apply Forall_cons in Ha as [Ha1 Ha2].
    assert (new_ids (op :: ops) = new_ids [op] ++ new_ids ops) as En by (unfold new_ids; by rewrite <- omap_app).
    rewrite En in Hd, Hn. apply NoDup_ListNoDup, NoDup_app in Hd as (_ & Hx & Hd2%NoDup_ListNoDup).
    assert (coherent (new_ids [op] ++ used) (tr ++ (conv_step w op).2) (conv_step w op).1) as H1
      by (apply step_coherent; [done|done|]; intros i Hi; apply Hn, in_app_iff; by left).
    simpl. destruct (conv_step w op) as [w1 out]. cbn [fst snd] in H1.
    destruct (IH _ _ w1 H1 Hd2) as [used' Hu]; [|done|].
    + intros i Hi [Hi1|Hi2]%in_app_iff; [|by apply (Hn i); [apply in_app_iff; by right|]].
      apply (Hx i); by apply list_elem_of_In.
    + destruct (conv_run w1 ops) as [w2 out2]. exists used'. by rewrite <- app_assoc in Hu.
Qed.

Lemma stored_coherent ops w out : stored_ops ops -> conv_run new_conv ops = (w, out) -> exists used, coherent used out w.
Proof.
  intros [Hd Ha] E. destruct (run_coherent ops [] [] new_conv new_coherent Hd) as [used H]; [by intros ? ? []|done|].
  rewrite E in H. by exists used.
Qed.

(** ** A process does not read its table

    Two worlds are alike when they differ in the table and its availability only. Until a restart
    no operation tells them apart. *)

Definition alike (w w' : ConvWorld) : Prop :=
  cache w = cache w' /\ controllers w = controllers w' /\ listeners w = listeners w' /\
  next_listener w = next_listener w' /\ runs w = runs w'.

#[local] Instance alike_equiv : Equivalence alike.
Proof. split; [by intros w|by intros w w' (?&?&?&?&?)|intros w1 w2 w3 (?&?&?&?&?) (?&?&?&?&?); split_and!; congruence]. Qed.

(** Alike worlds with the same events. *)
Notation alike_out := (prod_relation alike (@eq (list ConvEvent))).

Ltac alike_fields := intros w w' (Ec & Et & El & En & Er); destruct w, w'; cbn in *; subst; by split_and!.

#[local] Instance with_cache_alike : Proper (eq ==> alike ==> alike) with_cache. Proof. intros ? c ->. alike_fields. Qed.
#[local] Instance with_controllers_alike : Proper (eq ==> alike ==> alike) with_controllers. Proof. intros ? c ->. alike_fields. Qed.
#[local] Instance with_listeners_alike : Proper (eq ==> eq ==> alike ==> alike) with_listeners. Proof. intros ? l -> ? n ->. alike_fields. Qed.
#[local] Instance with_runs_alike : Proper (eq ==> alike ==> alike) with_runs. Proof. intros ? l ->. alike_fields. Qed.
#[local] Instance cache_alike : Proper (alike ==> eq) cache. Proof. by intros w w' (?&_). Qed.
#[local] Instance controllers_alike : Proper (alike ==> eq) controllers. Proof. by intros w w' (?&?&_). Qed.
#[local] Instance listeners_alike : Proper (alike ==> eq) listeners. Proof. by intros w w' (?&?&?&_). Qed.
#[local] Instance next_listener_alike : Proper (alike ==> eq) next_listener. Proof. by intros w w' (?&?&?&?&_). Qed.
#[local] Instance runs_alike : Proper (alike ==> eq) runs. Proof. by intros w w' (?&?&?&?&?). Qed.

Lemma db_run_alike f w : alike (db_run f w) w.
Proof. unfold db_run. by destruct (available w). Qed.

#[local] Instance getTask_alike id : Proper (alike ==> eq) (getTask id).
Proof. intros w w' H. unfold getTask. by rewrite H. Qed.

#[local] Instance notify_alike r : Proper (alike ==> eq) (notify r).
Proof. intros w w' H. unfold notify. by rewrite H. Qed.

#[local] Instance is_aborted_alike c : Proper (alike ==> eq) (is_aborted c).
Proof. intros w w' H. unfold is_aborted. by rewrite H. Qed.

#[local] Instance save_alike r : Proper (alike ==> alike) (save r).
Proof. intros w w' H. unfold save, persist. by rewrite !db_run_alike, H. Qed.

#[local] Instance evict_one_alike : Proper (alike ==> eq ==> alike) evict_one.
Proof. intros w w' H id ? <-. unfold evict_one. by rewrite !db_run_alike, H. Qed.

Lemma evict_all_alike ids w w' : alike w w' -> alike (foldl evict_one w ids) (foldl evict_one w' ids).
Proof. revert w w'. induction ids as [|x ids IH]; intros w w' H; [done|]. simpl. apply IH. by rewrite H. Qed.

#[local] Instance evictOldCompleted_alike : Proper (alike ==> alike) evictOldCompleted.
Proof.
  intros w w' H. unfold evictOldCompleted, done_tasks. rewrite (cache_alike w w' H). destruct (_ <=? _)%nat; [done|]. by apply evict_all_alike.
Qed.

#[local] Instance transition_alike id status env now : Proper (alike ==> alike_out) (transition id status env now).
Proof.
  intros w w' H. unfold transition. rewrite (getTask_alike id w w' H). destruct (getTask id w') as [r|]; [|done].
  assert (alike (save (moved r status env now) w) (save (moved r status env now) w')) as Hs by (by rewrite H).
  split; simpl; [destruct (terminal status); by rewrite Hs|by rewrite Hs].
Qed.

#[local] Instance setAbortController_alike id c : Proper (alike ==> alike) (setAbortController id c).
Proof. intros w w' H. unfold setAbortController. rewrite (getTask_alike id w w' H). destruct (getTask id w'); by rewrite H. Qed.

#[local] Instance recordPauseState_alike id q h now : Proper (alike ==> alike) (recordPauseState id q h now).
Proof. intros w w' H. unfold recordPauseState. rewrite (getTask_alike id w w' H). destruct (getTask id w'); by rewrite H. Qed.

#[local] Instance clearPauseState_alike id now : Proper (alike ==> alike) (clearPauseState id now).
Proof. intros w w' H. unfold clearPauseState. rewrite (getTask_alike id w w' H). destruct (getTask id w'); by rewrite H. Qed.

#[local] Instance add_run_alike id q c l : Proper (alike ==> alike) (add_run id q c l).
Proof. intros w w' H. unfold add_run. by rewrite H. Qed.

#[local] Instance drop_run_alike k : Proper (alike ==> alike) (drop_run k).
Proof. intros w w' H. unfold drop_run. by rewrite H. Qed.

Lemma abort_alike id w w' : alike w w' -> (abort id w).1 = (abort id w').1 /\ alike (abort id w).2 (abort id w').2.
Proof.
  intros H. unfold abort. rewrite (getTask_alike id w w' H). destruct (getTask id w') as [r|]; [|done].
  destruct (negb (in_flight r)); [done|]. split; [done|]. simpl. destruct (rec_abort r); by rewrite H.
Qed.

Lemma begin_run_alike id now w w' : alike w w' ->
  prod_relation (prod_relation eq alike) eq (begin_run id now w) (begin_run id now w').
Proof.
  intros H. unfold begin_run. rewrite (controllers_alike w w' H).
  match goal with |- context [transition id st_running None now ?x] => assert (alike x
    (setAbortController id (length (controllers w')) (with_controllers (controllers w' ++ [false]) w'))) as Hx by (by rewrite H) end.
  pose proof (transition_alike id st_running None now _ _ Hx) as [H1 H2].
  do 2 destruct (transition _ _ _ _ _). by split.
Qed.

#[local] Instance finish_alike l id status env : Proper (alike ==> alike_out) (finish l id status env).
Proof.
  intros w w' H. unfold finish. rewrite (getTask_alike id w w' H). split; [|done]. simpl. by rewrite H.
Qed.

#[local] Instance settle_alike l id status env now : Proper (alike ==> alike_out) (settle l id status env now).
Proof.
  intros w w' H. unfold settle. destruct (transition_alike id status (Some env) now w w' H) as [H1 H2].
  destruct (transition id status (Some env) now w) as [w1 o1], (transition id status (Some env) now w') as [w1' o1']. simpl in H1, H2. subst.
  destruct (finish_alike l id status env w1 w1' H1) as [H3 H4].
  destruct (finish l id status env w1), (finish l id status env w1'). simpl in *. subst. by split.
Qed.

#[local] Instance dispatch_alike id q l now : Proper (alike ==> alike_out) (dispatch id q l now).
Proof.
  intros w w' H. unfold dispatch, create, finalize. set (r := mkTaskRecord _ _ _ _ _ _ _ _ _ _).
  assert (alike (save r w) (save r w')) as Hs by (by rewrite H). rewrite (notify_alike r _ _ Hs).
  destruct (begin_run_alike id now _ _ Hs) as [[H1 H2] H3].
  destruct (begin_run id now (save r w)) as [[c w1] o1], (begin_run id now (save r w')) as [[c' w1'] o1']. simpl in H1, H2, H3. subst.
  rewrite (is_aborted_alike c' w1 w1' H2). destruct (is_aborted c' w1').
  - match goal with |- context [settle l id st_cancelled ?e now _] => destruct (settle_alike l id st_cancelled e now _ _ H2) as [H3 H4];
      destruct (settle l id st_cancelled e now w1), (settle l id st_cancelled e now w1') end. simpl in *. subst. by split.
  - split; [|done]. simpl. by rewrite H2.
Qed.

#[local] Instance resume_alike id input l now : Proper (alike ==> alike_out) (resume id input l now).
Proof.
  intros w w' H. unfold resume. rewrite (getTask_alike id w w' H). destruct (getTask id w') as [r|]; [|by rewrite H].
  destruct (if bool_decide _ then _ else _) as [h|]; [|by rewrite H]. destruct (truthy_json h); [|by rewrite H].
  destruct (begin_run_alike id now w w' H) as [[H1 H2] H3].
  destruct (begin_run id now w) as [[c w1] o1], (begin_run id now w') as [[c' w1'] o1']. simpl in H1, H2, H3. subst.
  split; [|done]. simpl. by rewrite H2.
Qed.

#[local] Instance run_returned_alike k o now : Proper (alike ==> alike_out) (run_returned k o now).
Proof.
  intros w w' H. unfold run_returned, finalize. rewrite (runs_alike w w' H). destruct (runs w' !! k) as [[id q c l [t|]]|]; [done| |done].
  assert (alike (drop_run k w) (drop_run k w')) as Hd by (by rewrite H). rewrite (is_aborted_alike c w w' H).
  destruct o as [text|question conversation|msg]; [| |by apply settle_alike].
  - destruct (is_aborted c w'); [by apply settle_alike|]. case_match; [by apply settle_alike|]. case_match; [by apply settle_alike|].
    split; [|done]. simpl. by rewrite H.
  - destruct (is_aborted c w'); [by apply settle_alike|].
    assert (alike (recordPauseState id question (JArr conversation) now (drop_run k w))
                  (recordPauseState id question (JArr conversation) now (drop_run k w'))) as Hp by (by rewrite Hd).
    match goal with |- context [settle l id st_needs_input ?e now _] => destruct (settle_alike l id st_needs_input e now _ _ Hp) as [H3 H4] end.
    do 2 destruct (settle _ _ _ _ _ _). simpl in *. subst. by split.
Qed.

#[local] Instance condensed_alike k a now : Proper (alike ==> alike_out) (condensed k a now).
Proof.
  intros w w' H. unfold condensed, finalize. rewrite (runs_alike w w' H). destruct (runs w' !! k) as [[id q c l [t|]]|]; [|done..].
  apply settle_alike. by rewrite H.
Qed.

#[local] Instance handleToolCall_alike name args newId msg now : Proper (alike ==> alike_out) (handleToolCall name args newId msg now).
Proof.
  intros w w' H.
  assert (forall t, (subscribe t w).1 = (subscribe t w').1 /\ alike (subscribe t w).2 (subscribe t w').2) as Hs.
  { intros t. unfold subscribe. simpl. split; [by rewrite H|]. rewrite (listeners_alike w w' H), (next_listener_alike w w' H). by rewrite H. }
  assert (forall m, alike_out (w, tool_error m) (w', tool_error m)) as He by (by intros m).
  unfold handleToolCall. destruct (includes name conv_tool_names && (match args with JNull => true | _ => false end)); [by split|]. case_bool_decide.
  { destruct (text_arg "tier" args), (text_arg "template" args), (text_arg "intent" args); try apply He.
    destruct (Hs None) as [Ha Hb]. do 2 destruct (subscribe None _). simpl in *. subst. by apply dispatch_alike. }
  case_bool_decide.
  { destruct (text_arg "task_id" args) as [id|]; [|apply He]. rewrite (getTask_alike id w w' H). by destruct (getTask id w'). }
  case_bool_decide.
  { destruct (text_arg "task_id" args) as [id|]; [|apply He]. destruct (abort_alike id w w' H) as [Ha Hb].
    do 2 destruct (abort _ _). simpl in *. subst. by split. }
  case_bool_decide; [|apply He].
  destruct (text_arg "task_id" args) as [id|], (text_arg "input" args); try apply He.
  destruct (Hs (Some id)) as [Ha Hb]. do 2 destruct (subscribe _ _). simpl in *. subst. by apply resume_alike.
Qed.

Lemma step_alike op w w' : alike w w' -> (forall now, op <> OpRestart now) -> alike_out (conv_step w op) (conv_step w' op).
Proof.
  intros H Hr. destruct op as [name args newId msg now|k o now|k a now|id|b|now]; simpl.
  - by apply handleToolCall_alike.
  - by apply run_returned_alike.
  - by apply condensed_alike.
  - split; [by apply abort_alike|done].
  - by split.
  - by destruct (Hr now).
Qed.

(** Until a restart, what a run shows does not depend on when the table is available. *)
Definition goes_away (op : ConvOp) : bool := match op with OpAvailable false => true | _ => false end.

Lemma run_alike ops w w' : alike w w' -> List.Forall (fun op => forall now, op <> OpRestart now) ops ->
  alike_out (conv_run w ops) (conv_run w' (List.filter (fun op => negb (goes_away op)) ops)).
Proof.
  intros H Ha. revert w w' H. induction Ha as [|op ops Hop Ha IH]; intros w w' H; [done|]. simpl.
  destruct (goes_away op) eqn:Eg; simpl.
  - destruct op as [| | | |[]|]; try discriminate Eg. simpl.
    destruct (IH (mkConv (cache w) (table w) false (controllers w) (listeners w) (next_listener w) (runs w)) w' H) as [H1 H2].
    do 2 destruct (conv_run _ _). by split.
  - destruct (step_alike op w w' H Hop) as [H1 H2]. destruct (conv_step w op) as [w1 o1], (conv_step w' op) as [w1' o1']. simpl in H1, H2. subst.
    destruct (IH w1 w1' H1) as [H3 H4]. do 2 destruct (conv_run _ _). simpl in *. subst. by split.
Qed.

Lemma conv_run_app l1 l2 w : conv_run w (l1 ++ l2) =
  ((conv_run (conv_run w l1).1 l2).1, (conv_run w l1).2 ++ (conv_run (conv_run w l1).1 l2).2).
Proof.
  revert w. induction l1 as [|op l1 IH]; intros w; simpl; [by destruct (conv_run w l2)|].
  destruct (conv_step w op) as [w1 o1]. rewrite IH. destruct (conv_run w1 l1) as [w2 o2]. simpl. by rewrite app_assoc.
Qed.

Lemma new_ids_app l1 l2 : new_ids (l1 ++ l2) = new_ids l1 ++ new_ids l2.
Proof. apply omap_app. Qed.

Lemma new_ids_kept l : new_ids (List.filter (fun op => negb (goes_away op)) l) = new_ids l.
Proof.
  induction l as [|op l IH]; [done|]. simpl. destruct op as [| | | |[]|]; simpl; by rewrite ?IH.
Qed.

(** The operations up to the first failure of the table. *)
Lemma split_available ops : List.Forall (fun op => op <> OpAvailable false) ops \/
  exists l1 l2, ops = l1 ++ OpAvailable false :: l2 /\ List.Forall (fun op => op <> OpAvailable false) l1.
Proof.
  induction ops as [|op ops IH]; [by left|]. destruct (goes_away op) eqn:Eg.
  - right. exists [], ops. by destruct op as [| | | |[]|].
  - assert (op <> OpAvailable false) as Hop by (by intros ->).
    destruct IH as [IH|(l1 & l2 & -> & Hl)]; [left; by constructor|]. right. exists (op :: l1), l2. split; [done|by constructor].
Qed.

(** What the operations show is shown by operations that lose no write. *)
Lemma sound_stored ops w out : sound_ops ops -> conv_run new_conv ops = (w, out) ->
  exists ops' w', stored_ops ops' /\ conv_run new_conv ops' = (w', out) /\ alike w w'.
Proof.
  intros [Hd Hs] E. destruct (split_available ops) as [Ha|(l1 & l2 & -> & Ha)]; [by exists ops, w|].
  specialize (Hs l1 l2 eq_refl). rewrite conv_run_app in E. injection E as <- <-.
  set (l := List.filter (fun op => negb (goes_away op)) (OpAvailable false :: l2)).
  assert (alike_out (conv_run (conv_run new_conv l1).1 (OpAvailable false :: l2)) (conv_run (conv_run new_conv l1).1 l)) as [H1 H2].
  { apply run_alike; [done|]. constructor; [done|exact Hs]. }
  exists (l1 ++ l), (conv_run new_conv (l1 ++ l)).1. split_and!.
  - split; [rewrite new_ids_app; unfold l; by rewrite new_ids_kept, <- new_ids_app|]. apply Forall_app. split; [done|]. apply List.Forall_forall.
    intros op [_ Hn]%filter_In. by intros ->.
  - rewrite conv_run_app. cbn [fst]. by rewrite <- H2.
  - rewrite conv_run_app. exact H1.
Qed.

(** ** What it gives *)

(** C27: whatever the conversation model delegates, resumes and cancels, however the runs return and
    whether or not the table can be written, the runs of a task alternate with its pauses: one first
    run, without a history, and then each run continues exactly the conversation its last pause
    saved, which no other run continues. A task has one run at a time, and it is running just while
    the process has a run of it. A restart is covered when the table has been available up to it: a
    write that fails is only logged, and a process that starts from a table that has missed one can
    continue the same saved conversation again ([lost_write_resumes_twice]). *)
Theorem tasks_continue_their_conversation ops w out : sound_ops ops -> conv_run new_conv ops = (w, out) ->
  (forall id, exists p, phases id ph_new out p) /\
  List.NoDup (map run_task (runs w)) /\
  (forall id r, getTask id w = Some r -> rec_status r = st_running <-> In id (map run_task (runs w))).
Proof.
  intros Hs E. destruct (sound_stored ops w out Hs E) as (ops' & w' & Hs' & E' & Ha).
  destruct (stored_coherent ops' w' out Hs' E') as [used H]. rewrite (runs_alike w w' Ha).
  split_and!; [intros id; by apply (co_trace _ _ _ H)|apply H|]. intros id r. rewrite (getTask_alike id w w' Ha). intros Hg. split.
  - intros Hst. pose proof (co_tasks _ _ _ H id r Hg) as Ht. by rewrite Hst in Ht.
  - intros Hin. destruct (co_running _ _ _ H id Hin) as [(r' & ? & ?) _]. congruence.
Qed.

(** C28: a restart loses no question that could be stored. When the table has been available all along, a
    task that waits for input is there afterwards with its request, its question and its
    conversation, and a reply of the user starts its runner on that conversation; of the other
    tasks none is queued or running. A write that fails is only logged by the registry, and a
    question asked while the table was away is lost ([unstored_question_is_lost]); so is all of the
    registry when the table cannot be read at the start. *)
Theorem restart_keeps_questions ops w out now : stored_ops ops -> conv_run new_conv ops = (w, out) ->
  (forall id r, getTask id w = Some r -> rec_status r = st_needs_input ->
    getTask id (restart now w) = Some (stored r) /\
    exists h, rec_paused r = Some (JArr h) /\
      forall input l now', In (Started id (rec_request r) input (Some (JArr h))) (resume id input l now' (restart now w)).2) /\
  (forall id r, getTask id (restart now w) = Some r -> rec_status r <> st_queued /\ rec_status r <> st_running).
Proof.
  intros Hs E. destruct (stored_coherent ops w out Hs E) as [used H]. pose proof (restart_coherent _ _ now _ H) as Hc.
  destruct (restart_spec used now w (co_mirrored _ _ _ H)) as (_ & Hr & _ & _ & Hk). split.
  - intros id r Hg Hst. destruct (mir_cache _ _ (co_mirrored _ _ _ H) _ _ Hg) as (Hid & _ & row & Hrow & Hrec).
    pose proof Hrow as [Hin Hrid]%get_row_Some. change (row_key row) with (row_id row) in Hrid.
    assert (loaded now row = stored r) as El.
    { unfold loaded. change (row_status row) with (rec_status (rowToRecord row)). rewrite Hrec. simpl. by rewrite Hst. }
    assert (getTask id (restart now w) = Some (stored r)) as Hg'.
    { rewrite <- Hrid, <- El. apply Hk; [done|]. rewrite El. unfold in_flight. simpl. by rewrite Hst. }
    split; [done|]. pose proof (co_tasks _ _ _ H id r Hg) as Ht. rewrite Hst in Ht. destruct Ht as (h & Hh & _).
    exists h. split; [done|]. intros input l now'. unfold resume. rewrite Hg'. cbn [rec_status rec_paused stored]. rewrite Hst, Hh.
    rewrite bool_decide_eq_true_2 by done. cbn [truthy_json].
    destruct (begin_run id now' (restart now w)) as [[ctrl w2] o2]. apply in_app_iff. right. by left.
  - intros id r Hg. pose proof (co_tasks _ _ _ Hc id r Hg) as Ht. rewrite Hr in Ht. split; intros Es; by rewrite Es in Ht.
Qed.

(** ** A conversation *)

Definition delegate_args : json :=
  JObj [("tier", JStr "medium"); ("template", JStr "research"); ("intent", JStr "find the report")].
Definition task_args (more : list (string * json)) : json := JObj (("task_id", JStr "t1") :: more).

Definition demo_ops : list ConvOp :=
  [OpTool "delegate" delegate_args "t1" "Find it" 1; OpReturn 0 (PausedFor "Which year?" [JStr "m1"]) 2].

Lemma demo_stored : stored_ops demo_ops.
Proof. split; repeat constructor; simpl; naive_solver. Qed.

(** The table goes away while the answer runs, and comes back. *)
Definition demo_unstored : list ConvOp :=
  demo_ops ++ [OpAvailable false; OpTool "resume_task" (task_args [("input", JStr "2024")]) "" "" 4; OpAvailable true].

Lemma demo_sound : sound_ops demo_unstored.
Proof.
  split; [by repeat constructor; simpl; naive_solver|]. intros l1 l2 E.
  do 5 (destruct l1 as [|? l1]; [try discriminate E; injection E as <-; repeat constructor; by intros|injection E as _ E]).
  by destruct l1.
Qed.

Lemma tasks_continue_their_conversation_witness :
  sound_ops demo_unstored /\ map run_task (runs (conv_run new_conv demo_unstored).1) = ["t1"] /\
  (exists p, phases "t1" ph_new (conv_run new_conv demo_unstored).2 p) /\
  List.NoDup (map run_task (runs (conv_run new_conv demo_unstored).1)).
Proof.
  destruct (tasks_continue_their_conversation demo_unstored (conv_run new_conv demo_unstored).1 (conv_run new_conv demo_unstored).2
    demo_sound) as (H1 & H2 & _); [by destruct (conv_run new_conv demo_unstored)|].
  split; [exact demo_sound|]. split; [vm_compute; reflexivity|]. split; [apply H1|exact H2].
Defined.

Lemma restart_keeps_questions_witness :
  exists r, getTask "t1" (conv_run new_conv demo_ops).1 = Some r /\ rec_status r = st_needs_input /\
    rec_question r = Some "Which year?" /\ getTask "t1" (restart 9 (conv_run new_conv demo_ops).1) = Some (stored r).
Proof.
  eexists. split; [vm_compute; reflexivity|]. split; [done|]. split; [done|].
  apply (restart_keeps_questions demo_ops (conv_run new_conv demo_ops).1 (conv_run new_conv demo_ops).2 9 demo_stored);
    [by destruct (conv_run new_conv demo_ops)|vm_compute; reflexivity|done].
Defined.

(** [cancel_task] on a task that waits for input answers that it is cancelled: the controller it
    aborts belongs to the run that paused, and the task can still be resumed. *)
Example cancelled_question_resumes :
  let '(w, out) := conv_run new_conv (demo_ops ++
    [OpTool "cancel_task" (task_args []) "" "" 3; OpTool "resume_task" (task_args [("input", JStr "2024")]) "" "" 4]) in
  In (Answered None (JObj [("task_id", JStr "t1"); ("cancelled", JBool true)])) out /\
  (rec_status <$> getTask "t1" w) = Some st_running /\
  last out = Some (Started "t1" (mkRequest "medium" "research" "find the report" (Some "Find it")) "2024" (Some (JArr [JStr "m1"]))).
Proof. vm_compute. split_and!; [repeat (first [by left|right])|done|done]. Qed.

(** The resume is not stored, so the next process finds the question again and the same saved
    conversation is continued twice. *)
Example lost_write_resumes_twice :
  let resumes := [OpTool "resume_task" (task_args [("input", JStr "2024")]) "" "" 4] in
  let '(w, out) := conv_run new_conv (demo_ops ++ [OpAvailable false] ++ resumes ++ [OpAvailable true; OpRestart 5] ++ resumes) in
  List.filter (fun e => match e with Started _ _ _ (Some _) => true | _ => false end) out =
    let again := Started "t1" (mkRequest "medium" "research" "find the report" (Some "Find it")) "2024" (Some (JArr [JStr "m1"])) in [again; again].
Proof. vm_compute. reflexivity. Qed.

(** A question asked while the table is away is not there after a restart: the task is failed. *)
Example unstored_question_is_lost :
  let '(w, _) := conv_run new_conv (take 1 demo_ops ++ [OpAvailable false] ++ drop 1 demo_ops ++ [OpAvailable true]) in
  (rec_status <$> getTask "t1" w) = Some st_needs_input /\ (rec_status <$> getTask "t1" (restart 9 w)) = Some st_failed.
Proof. vm_compute. split; reflexivity. Qed.
