(* ===== verification/ConvRecovery.v ===== *)
(** * Calls a model prints instead of making (agents/conv/conv-tool-recovery.ts)

    Some models answer [/delegate{...}] or [(delegate {...})] as text. The scanner finds
    such calls, takes them out of the text and turns them into tool calls; while the
    answer streams, the tail that could still become one is withheld. A position is an
    index into the text; the scans of the global expressions are structural on the text,
    with the number of characters the last match still covers. *)
From Stdlib Require Import Ascii.
From S2P Require Export Json Llm.

(** ** The markers *)

Definition CONV_TOOL_NAMES : list string := ["delegate"; "check_task"; "cancel_task"; "resume_task"].
Definition CALL_OPENERS : list ascii := ["/"%char; "("%char].
Definition CALL_PREFIXES : list string := flat_map (fun o => map (String o) CONV_TOOL_NAMES) CALL_OPENERS.
Definition FALLBACK_MARKER : string := "FALLBACK_OK".
Definition MAX_PREFIX_LEN : nat := foldl Nat.max (String.length FALLBACK_MARKER) (map String.length CALL_PREFIXES).

Definition is_opener (c : ascii) : bool := existsb (Ascii.eqb c) CALL_OPENERS.

(** [p] at the start of [s], letters in either case. *)
Definition starts_with_ci (p s : string) : bool := starts_with (to_lower p) (to_lower s).

Definition word_char (c : ascii) : bool :=
  let n := nat_of_ascii c in
  is_digit c || ((65 <=? n)%nat && (n <=? 90)%nat) || ((97 <=? n)%nat && (n <=? 122)%nat) || (n =? 95)%nat.

(** How many characters of white space [s] starts with. *)
Fixpoint spaces (s : string) : nat := match s with String c s' => if is_ws c then S (spaces s') else 0 | EmptyString => 0 end.

Definition word_at (s : string) : bool := match s with String c _ => word_char c | EmptyString => false end.

(** [text.replace(FALLBACK_PATTERN, '')]; [before]: the last character was one of a word. *)
Fixpoint strip_marker (skip : nat) (before : bool) (s : string) : string :=
  match s with
  | EmptyString => EmptyString
  | String c s' =>
      match skip with
      | S k => strip_marker k (word_char c) s'
      | O =>
          let after := sdrop (String.length FALLBACK_MARKER) s in
          if negb before && starts_with_ci FALLBACK_MARKER s && negb (word_at after)
          then strip_marker (String.length FALLBACK_MARKER + spaces after - 1) (word_char c) s'
          else String c (strip_marker 0 (word_char c) s')
      end
  end.

Definition tool_name_at (s : string) : option string := List.find (fun n => starts_with_ci n s) CONV_TOOL_NAMES.

(** A match: where it is, its opener, the name and the length of the match. *)
Record CallMatch := mkCallMatch { cm_index : nat; cm_opener : ascii; cm_name : string; cm_length : nat }.

(** [CALL_PATTERN] at the start of [s], which is at index [i]. *)
Definition call_at (i : nat) (s : string) : option CallMatch :=
  match s with
  | String c rest =>
      if is_opener c then
        match tool_name_at rest with
        | Some n =>
            let after := sdrop (String.length n) rest in
            match sdrop (spaces after) after with
            | String "{" _ => Some (mkCallMatch i c n (S (String.length n + spaces after)))
            | _ => None
            end
        | None => None
        end
      else None
  | EmptyString => None
  end.

(** [PARTIAL_CALL_PATTERN] at the start of [s]. *)
Definition partial_at (i : nat) (s : string) : option CallMatch :=
  match s with
  | String c rest =>
      if is_opener c then (fun n => mkCallMatch i c n (S (String.length n))) <$> tool_name_at rest else None
  | EmptyString => None
  end.

(** [text.matchAll(pattern)]: the next search starts at the end of the match. *)
Fixpoint match_all (at_start : nat -> string -> option CallMatch) (skip i : nat) (s : string) : list CallMatch :=
  match s with
  | EmptyString => []
  | String _ s' =>
      match skip with
      | S k => match_all at_start k (S i) s'
      | O => match at_start i s with
             | Some m => m :: match_all at_start (cm_length m - 1) (S i) s'
             | None => match_all at_start 0 (S i) s'
             end
      end
  end.

(** ** The end of the arguments *)

(** The loop of [jsonObjectEnd] from a character on: how many more characters the object takes. *)
Fixpoint object_scan (depth : Z) (inString escaped : bool) (s : string) : option nat :=
  match s with
  | EmptyString => None
  | String c s' =>
      if inString then
        S <$> (if escaped then object_scan depth true false s'
               else if Ascii.eqb c "\" then object_scan depth true true s'
               else object_scan depth (negb (Ascii.eqb c dquote)) false s')
      else if Ascii.eqb c dquote then S <$> object_scan depth true escaped s'
      else if Ascii.eqb c "{" then S <$> object_scan (depth + 1) false escaped s'
      else if Ascii.eqb c "}" then
        if depth - 1 =? 0 then Some 1%nat else S <$> object_scan (depth - 1) false escaped s'
      else S <$> object_scan depth false escaped s'
  end.

Definition jsonObjectEnd (text : string) (start : nat) : option nat :=
  match sdrop start text with
  | String "{" _ as s => Nat.add start <$> object_scan 0 false false s
  | _ => None
  end.

(** [text.slice(a, b)] *)
Definition slice (a b : nat) (text : string) : string := stake (b - a) (sdrop a text).

(** ** Taking the calls out *)

Definition callSignature (name : string) (arguments : json) : string := name +:+ ":" +:+ stringify arguments.

Record Strip := mkStrip {
  visible : string;
  cursor : nat;
  recovered : list LLMToolCall;
  signatures : list string }.

Definition last_char (s : string) : option ascii := match srev s with String c _ => Some c | EmptyString => None end.

(** [!visible || /\s$/.test(visible)] *)
Definition at_seam (s : string) : bool := match last_char s with Some c => is_ws c | None => true end.

Definition skip_spaces (text : string) (k : nat) : nat := (k + spaces (sdrop k text))%nat.

(** The cursor after the call that ends at [jsonEnd]. *)
Definition after_call (text : string) (opener : ascii) (seen : string) (jsonEnd : nat) : nat :=
  let k := if Ascii.eqb opener "(" then
             let k := skip_spaces text jsonEnd in
             match sdrop k text with String ")" _ => S k | _ => k end
           else jsonEnd in
  if at_seam seen then skip_spaces text k else k.

(** [parse] is [JSON.parse] on the texts of [Json]: a call whose arguments hold a fractional number, or an
    escape above \u00FF, which the runtime would recover, stays in the text here. *)
Definition strip_match (text idPrefix : string) (st : Strip) (m : CallMatch) : Strip :=
  if (cm_index m <? cursor st)%nat then st
  else
    let jsonStart := (cm_index m + cm_length m)%nat in
    match jsonObjectEnd text jsonStart with
    | None => st
    | Some jsonEnd =>
        match parse (slice jsonStart jsonEnd text) with
        | Some (JObj fields as args) =>
            let seen := visible st +:+ slice (cursor st) (cm_index m) text in
            let signature := callSignature (cm_name m) args in
            let next := after_call text (cm_opener m) seen jsonEnd in
            if existsb (String.eqb signature) (signatures st)
            then mkStrip seen next (recovered st) (signatures st)
            else mkStrip seen next
                   (recovered st ++ [mkCall (idPrefix +:+ "_" +:+ show_z (Z.of_nat (length (recovered st)))) (cm_name m) args])
                   (signatures st ++ [signature])
        | _ => st
        end
    end.

Definition stripSerializedConvTools (text : string) (existing : list LLMToolCall) (idPrefix : string)
    : string * list LLMToolCall :=
  let text := strip_marker 0 false text in
  let start := mkStrip EmptyString 0 [] (map (fun c => callSignature (call_name c) (call_arguments c)) existing) in
  let st := foldl (strip_match text idPrefix) start (match_all call_at 0 0 text) in
  (visible st +:+ sdrop (cursor st) text, existing ++ recovered st).

Definition recoverSerializedConvTools (text : string) (existing : list LLMToolCall) (idPrefix : string)
    : string * list LLMToolCall :=
  let '(t, calls) := stripSerializedConvTools text existing idPrefix in (trim t, calls).

(** ** While the answer streams *)

Definition isMarkerPrefix (tail : string) : bool :=
  starts_with (to_upper tail) FALLBACK_MARKER || existsb (starts_with (to_lower tail)) CALL_PREFIXES.

Definition isUnresolvedCallTail (opener : ascii) (rest : string) : bool :=
  let jsonStart := (String.length rest - String.length (trim_start rest))%nat in
  if (jsonStart =? String.length rest)%nat then true
  else match sdrop jsonStart rest with
       | String "{" _ =>
           match jsonObjectEnd rest jsonStart with
           | None => true
           | Some e => if negb (Ascii.eqb opener "(") then false else (String.length (trim (sdrop e rest)) =? 0)%nat
           end
       | _ => false
       end.

Definition pendingSerializedToolSuffix (text : string) : nat :=
  let len := String.length text in
  let pending := foldl (fun acc m =>
    if isUnresolvedCallTail (cm_opener m) (sdrop (cm_index m + cm_length m) text)
    then Nat.max acc (len - cm_index m) else acc) 0%nat (match_all partial_at 0 0 text) in
  if (0 <? pending)%nat then pending
  else
    let windowStart := (len - MAX_PREFIX_LEN)%nat in
    match List.find (fun i => isMarkerPrefix (sdrop i text)) (seq windowStart (len - windowStart)) with
    | Some i => (len - i)%nat
    | None => 0%nat
    end.

Definition visibleStreamText (text : string) : string :=
  let safe := stake (String.length text - pendingSerializedToolSuffix text) text in
  trim_start (stripSerializedConvTools safe [] "stream").1.

(** ** The scan of a printed object *)

Lemma sdrop_app_add a b k : sdrop (String.length a + k) (a +:+ b) = sdrop k b.
Proof. by induction a as [|c a IH]; simpl. Qed.

Lemma stake_app a b : stake (String.length a) (a +:+ b) = a.
Proof. induction a as [|c a IH]; simpl; [by destruct b|by f_equal]. Qed.

(** A text the scan at depth [d] passes over, outside of a string. *)
Definition passes (d : Z) (s : string) : Prop :=
  forall rest, object_scan d false false (s +:+ rest) = Nat.add (String.length s) <$> object_scan d false false rest.

Lemma passes_nil d : passes d EmptyString.
Proof. intros rest. simpl. by destruct (object_scan _ _ _ rest). Qed.

Lemma passes_app d a b : passes d a -> passes d b -> passes d (a +:+ b).
Proof.
  intros Ha Hb rest. rewrite append_assoc, Ha, Hb, string_app_length. destruct (object_scan _ _ _ rest); simpl; [f_equal; lia|done].
Qed.

(** Neither a quote nor a brace. *)
Definition bland (c : ascii) : bool := negb (Ascii.eqb c dquote || Ascii.eqb c "{" || Ascii.eqb c "}").

Lemma passes_bland d s : forallb bland (String.list_ascii_of_string s) = true -> passes d s.
Proof.
  induction s as [|c s IH]; [intros; apply passes_nil|]. simpl. intros [Hc Hs]%andb_true_iff rest. simpl.
  apply negb_true_iff, orb_false_iff in Hc as [[H1 H2]%orb_false_iff H3]. rewrite H1, H2, H3, (IH Hs).
  by destruct (object_scan _ _ _ rest).
Qed.

Lemma digits_bland s : all_digits s = true -> forallb bland (String.list_ascii_of_string s) = true.
Proof.
  induction s as [|c s IH]; [done|]. cbn [all_digits String.list_ascii_of_string forallb]. intros [Hc Hs]%andb_true_iff.
  rewrite (IH Hs), andb_true_r. all_chars c; try done.
Qed.

Lemma passes_number d z : passes d (show_z z).
Proof.
  destruct (show_z_shape z) as (sign & ds & -> & Hsign & Hd & _). apply passes_app; apply passes_bland; [by destruct Hsign as [->| ->]|].
  by apply digits_bland.
Qed.

Lemma scan_escape_char d c t :
  object_scan d true false (escape_char c +:+ t) = Nat.add (String.length (escape_char c)) <$> object_scan d true false t.
Proof. all_chars c; simpl; by destruct (object_scan d true false t). Qed.

Lemma scan_string d s rest :
  object_scan d true false (escape s +:+ String dquote rest) = Nat.add (S (String.length (escape s))) <$> object_scan d false false rest.
Proof.
  induction s as [|c s IH]; [simpl; by destruct (object_scan d false false rest)|].
  cbn [escape]. rewrite append_assoc, scan_escape_char, IH, string_app_length.
  destruct (object_scan d false false rest); simpl; [f_equal; lia|done].
Qed.

Lemma passes_quote d s : passes d (quote s).
Proof.
  intros rest. unfold quote. cbn [String.append]. rewrite append_assoc. cbn [String.append]. cbn [object_scan].
  change (Ascii.eqb dquote dquote) with true. cbn iota. rewrite scan_string. cbn [String.length]. rewrite string_app_length.
  destruct (object_scan d false false rest); simpl; [f_equal; lia|done].
Qed.

Lemma passes_join d l : List.Forall (passes d) l -> passes d (JsString.join "," l).
Proof.
  intros H. induction H as [|s l Hs Hl IH]; [apply passes_nil|]. destruct (decide (l = [])) as [->|Hne]; [done|].
  rewrite join_cons by done. apply passes_app; [done|]. apply passes_app; [by apply passes_bland|done].
Qed.

(** Braces around what the scan passes one level deeper. *)
Lemma scan_braces d s rest : 0 <= d -> passes (d + 1) s ->
  object_scan d false false ("{" +:+ s +:+ "}" +:+ rest) =
    if d =? 0 then Some (2 + String.length s)%nat else Nat.add (2 + String.length s) <$> object_scan d false false rest.
Proof.
  intros Hd Hs. change ("{" +:+ s +:+ "}" +:+ rest) with (String "{" (s +:+ String "}" rest)).
  cbn [object_scan]. cbn -[object_scan Z.add Z.sub Z.eqb]. rewrite Hs. cbn -[Z.add Z.sub Z.eqb].
  replace (d + 1 - 1) with d by lia. destruct (d =? 0); [simpl; f_equal; lia|].
  destruct (object_scan d false false rest); simpl; [f_equal; lia|done].
Qed.

Lemma passes_braces d s : 0 < d -> passes (d + 1) s -> passes d ("{" +:+ s +:+ "}").
Proof.
  intros Hd Hs rest. rewrite !append_assoc, scan_braces by (done || lia). destruct (Z.eqb_spec d 0); [lia|].
  rewrite !string_app_length. simpl. by rewrite Nat.add_1_r.
Qed.

Definition member_text (kv : string * json) : string := quote (fst kv) +:+ ":" +:+ stringify (snd kv).

Lemma passes_member d kv : passes d (stringify (snd kv)) -> passes d (member_text kv).
Proof. intros H. apply passes_app; [apply passes_quote|]. apply passes_app; [by apply passes_bland|done]. Qed.

Lemma passes_stringify v d : 0 < d -> passes d (stringify v).
Proof.
  revert d. induction v as [|b|n|s|l IH|fs IH] using json_nested_ind; intros d Hd; cbn [stringify].
  - by apply passes_bland.
  - destruct b; by apply passes_bland.
  - apply passes_number.
  - apply passes_quote.
  - apply passes_app; [by apply passes_bland|]. apply passes_app; [|by apply passes_bland]. apply passes_join.
    apply Forall_map. eapply List.Forall_impl; [|exact IH]. intros x Hx. by apply Hx.
  - apply passes_braces; [done|]. apply passes_join. apply Forall_map. eapply List.Forall_impl; [|exact IH].
    intros kv Hkv. apply passes_member, Hkv. lia.
Qed.

(** The scan finds the end of a printed object, whatever follows. *)
Lemma scan_object fs rest :
  object_scan 0 false false (stringify (JObj fs) +:+ rest) = Some (String.length (stringify (JObj fs))).
Proof.
  cbn [stringify]. rewrite !append_assoc, scan_braces; [|done|].
  - rewrite !string_app_length. simpl. by rewrite Nat.add_1_r.
  - apply passes_join, Forall_map. apply List.Forall_forall. intros kv _. apply passes_member, passes_stringify. lia.
Qed.

(** ** The search *)

(** A text in which [CALL_PATTERN] matches nowhere. *)
Fixpoint no_call (s : string) : bool :=
  match s with
  | EmptyString => true
  | String _ s' => match call_at 0 s with None => no_call s' | Some _ => false end
  end.

Lemma call_at_index i s : call_at i s = (fun m => mkCallMatch i (cm_opener m) (cm_name m) (cm_length m)) <$> call_at 0 s.
Proof. destruct s as [|c s]; [done|]. simpl. destruct (is_opener c); [|done]. destruct (tool_name_at s) as [n|]; [|done]. by case_all. Qed.

Lemma call_at_opener i c s m : call_at i (String c s) = Some m -> is_opener c = true /\ cm_index m = i.
Proof. simpl. destruct (is_opener c); [|done]. case_all; naive_solver. Qed.

(** Characters that do not occur in a lower-case name. *)
Lemma starts_with_cut n a o s : negb (existsb (Ascii.eqb o) (String.list_ascii_of_string n)) = true ->
  starts_with n (a +:+ String o s) = starts_with n a.
Proof.
  revert a. induction n as [|c n IH]; intros a; [done|]. cbn [String.list_ascii_of_string existsb].
  intros [H1 H2]%negb_true_iff%orb_false_iff. destruct a as [|d a]; cbn [String.append starts_with].
  - by rewrite Ascii.eqb_sym, H1.
  - rewrite IH; [done|]. by rewrite H2.
Qed.

Lemma to_lower_app a b : to_lower (a +:+ b) = to_lower a +:+ to_lower b.
Proof. induction a as [|c a IH]; [done|]. cbn. f_equal. exact IH. Qed.

Lemma opener_cases o : is_opener o = true -> o = "/"%char \/ o = "("%char.
Proof. unfold is_opener. simpl. rewrite orb_false_r, orb_true_iff, !Ascii.eqb_eq. done. Qed.

Lemma tool_name_cut a o s : is_opener o = true -> tool_name_at (a +:+ String o s) = tool_name_at a.
Proof.
  intros Ho. unfold tool_name_at. unfold CONV_TOOL_NAMES. unfold List.find, starts_with_ci. rewrite to_lower_app.
  assert (to_lower (String o s) = String o (to_lower s)) as -> by (by destruct (opener_cases o Ho) as [->| ->]).
  by destruct (opener_cases o Ho) as [->| ->]; rewrite !starts_with_cut.
Qed.

Lemma tool_name_length s n : tool_name_at s = Some n -> (String.length n <= String.length s)%nat.
Proof.
  intros H%List.find_some. destruct H as [_ H]. unfold starts_with_ci in H. apply starts_with_spec in H as [r E].
  assert (forall x, String.length (to_lower x) = String.length x) as Hl
    by (induction x as [|c x IH]; [done|]; cbn; f_equal; exact IH).
  rewrite <- (Hl n), <- (Hl s), E, string_app_length. lia.
Qed.

Lemma sdrop_app_le k a b : (k <= String.length a)%nat -> sdrop k (a +:+ b) = sdrop k a +:+ b.
Proof. revert a. induction k as [|k IH]; intros [|c a] H; simpl in *; try done; try lia. apply IH. lia. Qed.

Lemma spaces_length s : (spaces s <= String.length s)%nat.
Proof. induction s as [|c s IH]; simpl; [lia|]. destruct (is_ws c); lia. Qed.

Lemma spaces_cut a o s : is_opener o = true -> spaces (a +:+ String o s) = spaces a.
Proof.
  intros Ho. induction a as [|c a IH]; simpl; [by destruct (opener_cases o Ho) as [->| ->]|]. by rewrite IH.
Qed.

(** What comes before an opener does not match with what follows. *)
Lemma call_at_cut c a o s : is_opener o = true -> call_at 0 (String c a) = None -> call_at 0 (String c (a +:+ String o s)) = None.
Proof.
  intros Ho. unfold call_at. destruct (is_opener c); [|done]. rewrite tool_name_cut by done.
  destruct (tool_name_at a) as [n|] eqn:En; [|done]. apply tool_name_length in En as Hn.
  rewrite sdrop_app_le, spaces_cut, sdrop_app_le by (done || apply spaces_length).
  destruct (sdrop (spaces (sdrop (String.length n) a)) _) as [|d r]; [by destruct (opener_cases o Ho) as [->| ->]|]. done.
Qed.

Lemma match_all_no_call i pre o s : is_opener o = true -> no_call pre = true ->
  match_all call_at 0 i (pre +:+ String o s) = match_all call_at 0 (i + String.length pre) (String o s).
Proof.
  intros Ho. revert i. induction pre as [|c pre IH]; intros i; [intros _; by rewrite Nat.add_0_r|].
  cbn [no_call String.append match_all String.length]. destruct (call_at 0 (String c pre)) eqn:Hc; [done|]. intros Hp.
  rewrite call_at_index, call_at_cut, IH by done. cbn [fmap option_fmap option_map]. rewrite (Nat.add_succ_r i). reflexivity.
Qed.

Lemma match_all_none k i s : no_call s = true -> match_all call_at k i s = [].
Proof.
  revert k i. induction s as [|c s IH]; intros k i; [done|]. cbn [no_call match_all]. destruct (call_at 0 (String c s)) eqn:Hc; [done|]. intros Hp.
  destruct k; [|by apply IH]. rewrite call_at_index, Hc. by apply IH.
Qed.

Lemma match_all_index k i a b m : no_call b = true ->
  In m (match_all call_at k i (a +:+ b)) -> (cm_index m < i + String.length a)%nat.
Proof.
  intros Hb. revert k i. induction a as [|c a IH]; intros k i; [cbn [String.append]; by rewrite match_all_none|].
  cbn [String.append match_all String.length]. assert (forall k', In m (match_all call_at k' (S i) (a +:+ b)) -> (cm_index m < i + S (String.length a))%nat) as IH'
    by (intros k' H%IH; lia).
  destruct k; [|apply IH']. destruct (call_at i (String c (a +:+ b))) as [m0|] eqn:E; [|apply IH'].
  intros [<-|H]; [|by apply (IH' _ H)]. apply call_at_opener in E as [_ ->]. lia.
Qed.

Lemma tool_name_known s n : tool_name_at s = Some n -> In n CONV_TOOL_NAMES.
Proof. intros H%List.find_some. apply H. Qed.

Lemma call_name_known i s m : call_at i s = Some m -> In (cm_name m) CONV_TOOL_NAMES.
Proof.
  destruct s as [|c s]; [done|]. simpl. destruct (is_opener c); [|done]. destruct (tool_name_at s) as [n|] eqn:E; [|done].
  case_all; try done. intros [= <-]. by apply tool_name_known in E.
Qed.

Lemma match_all_name k i s m : In m (match_all call_at k i s) -> In (cm_name m) CONV_TOOL_NAMES.
Proof.
  revert k i. induction s as [|c s IH]; intros k i; [done|]. cbn [match_all]. destruct k; [|apply IH].
  destruct (call_at i (String c s)) as [m0|] eqn:E; [|apply IH]. intros [<-|?]; [by apply call_name_known in E|by eapply IH].
Qed.

(** ** What is recovered *)

Definition known_call (c : LLMToolCall) : Prop :=
  In (call_name c) CONV_TOOL_NAMES /\ exists fields, call_arguments c = JObj fields.

Definition signature_of (c : LLMToolCall) : string := callSignature (call_name c) (call_arguments c).

(** The loop: the calls recovered so far, new ones only, in order. *)
Definition strip_sound (prefix : string) (old : list string) (st : Strip) : Prop :=
  signatures st = old ++ map signature_of (recovered st) /\
  List.Forall known_call (recovered st) /\
  List.NoDup (map signature_of (recovered st)) /\
  (forall s, In s (map signature_of (recovered st)) -> ~ In s old) /\
  map call_id (recovered st) = map (fun n => prefix +:+ "_" +:+ show_z (Z.of_nat n)) (seq 0 (length (recovered st))).

Lemma strip_match_sound prefix old text st m : In (cm_name m) CONV_TOOL_NAMES -> strip_sound prefix old st ->
  strip_sound prefix old (strip_match text prefix st m).
Proof.
  intros Hname Hs. unfold strip_match. destruct (_ <? _)%nat; [done|]. destruct (jsonObjectEnd _ _) as [e|]; [|done].
  destruct (parse _) as [[| | | | |fields]|]; try done. destruct Hs as (Hsig & Hk & Hd & Hn & Hid).
  destruct (existsb _ (signatures st)) eqn:E; [by split_and!|].
  assert (~ In (callSignature (cm_name m) (JObj fields)) (signatures st)) as Hnew.
  { intros Hin. apply not_true_iff_false in E. apply E, existsb_exists. eexists. split; [exact Hin|]. apply String.eqb_refl. }
  rewrite Hsig, in_app_iff in Hnew. unfold strip_sound. cbn [recovered signatures]. rewrite map_app. split_and!.
  - by rewrite Hsig, app_assoc.
  - apply Forall_app. split; [done|]. constructor; [split; [done|by exists fields]|constructor].
  - apply NoDup_ListNoDup, NoDup_app. split; [by apply NoDup_ListNoDup|]. split; [|apply NoDup_singleton].
    intros s Hs%list_elem_of_In ->%list_elem_of_singleton. tauto.
  - intros s [Hs|[<-|[]]]%in_app_iff; [by apply Hn|]. unfold signature_of. simpl. tauto.
  - rewrite map_app, Hid, length_app. simpl. by rewrite Nat.add_1_r, seq_S, map_app.
Qed.

Lemma strip_all_sound prefix old text ms st : (forall m, In m ms -> In (cm_name m) CONV_TOOL_NAMES) ->
  strip_sound prefix old st -> strip_sound prefix old (foldl (strip_match text prefix) st ms).
Proof.
  revert st. induction ms as [|m ms IH]; intros st Hn Hs; [done|]. simpl. apply IH; [intros; apply Hn; by right|].
  apply strip_match_sound; [apply Hn; by left|done].
Qed.

(** Whatever a model prints, the calls of the answer are the ones it made, unchanged, then the
    recovered ones: each is one of the four tools of the conversation with an object for
    arguments, none repeats a call the model made or another recovered one, and their ids count up. *)
Theorem recovered_calls_are_new text existing prefix :
  exists new, (recoverSerializedConvTools text existing prefix).2 = existing ++ new /\
    List.Forall known_call new /\
    List.NoDup (map signature_of new) /\
    (forall c d, In c existing -> In d new -> signature_of c <> signature_of d) /\
    map call_id new = map (fun n => prefix +:+ "_" +:+ show_z (Z.of_nat n)) (seq 0 (length new)).
Proof.
  unfold recoverSerializedConvTools, stripSerializedConvTools. set (t := strip_marker 0 false text).
  change (fun c => callSignature (call_name c) (call_arguments c)) with signature_of. set (old := map signature_of existing).
  set (st := foldl _ _ _). assert (strip_sound prefix old st) as (_ & Hk & Hd & Hn & Hid).
  { apply strip_all_sound; [intros m Hm; by apply match_all_name in Hm|].
    repeat split; try constructor; try done. simpl. by rewrite app_nil_r. }
  exists (recovered st). split_and!; try done. intros c d Hc Hd' E. apply (Hn (signature_of d)); [by apply in_map|].
  rewrite <- E. by apply in_map.
Qed.

(** ** A printed call comes back *)

(** White space only. *)
Definition blank_text (s : string) : bool := forallb is_ws (String.list_ascii_of_string s).

(** What closes a call: nothing, or a parenthesis after white space. *)
Definition close_of (o : ascii) (gap : string) : string := if Ascii.eqb o "(" then gap +:+ ")" else EmptyString.

(** A call the way the models print it: [/delegate{...}] and [(delegate {...})] are
    [written "/" "delegate" "" args ""] and [written "(" "delegate" " " args ""]. *)
Definition written (o : ascii) (shown gap : string) (args : json) (gap' : string) : string :=
  String o (shown +:+ gap +:+ stringify args +:+ close_of o gap').

Lemma object_text fs : exists s, stringify (JObj fs) = String "{" s.
Proof. by eexists. Qed.

Lemma spaces_blank gap s : blank_text gap = true -> spaces (gap +:+ s) = (String.length gap + spaces s)%nat.
Proof. unfold blank_text. induction gap as [|c gap IH]; [done|]. simpl. intros [-> H]%andb_true_iff. by rewrite IH. Qed.

Lemma shown_name shown name s : In name CONV_TOOL_NAMES -> to_lower shown = name ->
  tool_name_at (shown +:+ s) = Some name /\ String.length shown = String.length name.
Proof.
  intros Hn <-. split.
  - unfold tool_name_at, CONV_TOOL_NAMES, List.find, starts_with_ci. rewrite to_lower_app.
    by destruct Hn as [<-|[<-|[<-|[<-|[]]]]].
  - clear. induction shown as [|c x IH]; [done|]. cbn. f_equal. exact IH.
Qed.

Lemma call_at_written i o shown name gap fs rest : is_opener o = true -> In name CONV_TOOL_NAMES -> to_lower shown = name ->
  blank_text gap = true ->
  call_at i (String o (shown +:+ gap +:+ stringify (JObj fs) +:+ rest)) =
    Some (mkCallMatch i o name (S (String.length shown + String.length gap))).
Proof.
  intros Ho Hn Hs Hg. destruct (object_text fs) as [s Es]. unfold call_at. rewrite Ho.
  destruct (shown_name shown name (gap +:+ stringify (JObj fs) +:+ rest) Hn Hs) as [-> <-].
  rewrite sdrop_app, spaces_blank, Es by done. cbn [String.append spaces]. change (is_ws "{") with false. cbn iota.
  by rewrite Nat.add_0_r, sdrop_app.
Qed.

Lemma stripped_later text prefix st ms : (forall m, In m ms -> (cm_index m < cursor st)%nat) ->
  foldl (strip_match text prefix) st ms = st.
Proof.
  intros H. induction ms as [|m ms IH]; [done|]. cbn [foldl].
  assert (strip_match text prefix st m = st) as -> by (unfold strip_match; by rewrite (proj2 (Nat.ltb_lt _ _) (H m (or_introl eq_refl)))).
  apply IH. intros m' Hm'. apply H. by right.
Qed.

Lemma sdrop_spaces s : sdrop (spaces s) s = trim_start s.
Proof. induction s as [|c s IH]; [done|]. simpl. by destruct (is_ws c). Qed.

(** The cursor after the call of [written], with what it leaves of the rest. *)
Lemma after_call_spec a o gap' seen post : is_opener o = true -> blank_text gap' = true ->
  let text := a +:+ close_of o gap' +:+ post in
  (String.length a <= after_call text o seen (String.length a))%nat /\
  sdrop (after_call text o seen (String.length a)) text = if at_seam seen then trim_start post else post.
Proof.
  intros Ho Hg text. unfold after_call, close_of, skip_spaces in *. subst text. unfold close_of.
  destruct (Ascii.eqb o "(") eqn:Eo.
  - rewrite sdrop_app, (append_assoc gap'), spaces_blank by done. cbn [String.append spaces]. change (is_ws ")") with false. cbn iota.
    rewrite Nat.add_0_r, sdrop_app_add, sdrop_app.
    assert (forall k, sdrop (S (String.length a + String.length gap') + k) (a +:+ gap' +:+ String ")" post) = sdrop k post) as Hd.
    { intros k. replace (S (String.length a + String.length gap') + k)%nat with (String.length a + (String.length gap' + S k))%nat by lia.
      by rewrite sdrop_app_add, sdrop_app_add. }
    pose proof (Hd 0%nat) as H0. rewrite Nat.add_0_r in H0. change (sdrop 0 post) with post in H0.
    destruct (at_seam seen); [|split; [lia|exact H0]]; rewrite H0; (split; [lia|]); rewrite Hd; apply sdrop_spaces.
  - cbn [String.append]. destruct (at_seam seen); [|split; [lia|apply sdrop_app]].
    rewrite sdrop_app. split; [lia|]. rewrite sdrop_app_add. apply sdrop_spaces.
Qed.

(** No call starts in what closes one. *)
Lemma no_call_close o gap' post : blank_text gap' = true -> no_call post = true -> no_call (close_of o gap' +:+ post) = true.
Proof.
  intros Hg Hp. unfold close_of. destruct (Ascii.eqb o "("); [|done]. rewrite append_assoc. unfold blank_text in Hg.
  change (")" +:+ post) with (String ")" post). induction gap' as [|c gap' IH]; [done|]. simpl in Hg. apply andb_true_iff in Hg as [Hc Hg]. cbn [String.append no_call].
  assert (is_opener c = false) as Ho by (clear -Hc; by all_chars c). unfold call_at. rewrite Ho. by apply IH.
Qed.

(** One step of the loop, at the printed call. *)
Lemma strip_written pre o shown name gap fs gap' post prefix old : is_opener o = true -> blank_text gap' = true ->
  let args := JObj fs in
  let text := (pre +:+ String o (shown +:+ gap)) +:+ stringify args +:+ close_of o gap' +:+ post in
  let st := strip_match text prefix (mkStrip EmptyString 0 [] old)
              (mkCallMatch (String.length pre) o name (S (String.length shown + String.length gap))) in
  visible st = pre /\ (String.length (pre +:+ String o (shown +:+ gap) +:+ stringify args) <= cursor st)%nat /\
  sdrop (cursor st) text = (if at_seam pre then trim_start post else post) /\
  recovered st = (if existsb (String.eqb (callSignature name args)) old then [] else [mkCall (prefix +:+ "_0") name args]).
Proof.
  intros Ho Hg args text st. set (head := pre +:+ String o (shown +:+ gap)) in *. set (J := stringify args) in *.
  assert (String.length pre + S (String.length shown + String.length gap) = String.length head)%nat as Eh
    by (unfold head; rewrite string_app_length; cbn [String.length]; by rewrite string_app_length).
  assert (jsonObjectEnd text (String.length head) = Some (String.length (head +:+ J))) as Ej.
  { unfold jsonObjectEnd, text. rewrite sdrop_app. destruct (object_text fs) as [s Es]. pose proof (scan_object fs (close_of o gap' +:+ post)) as Hs.
    change (stringify (JObj fs)) with J in Es, Hs. rewrite string_app_length. rewrite Es in Hs |- *. cbn [String.append] in *.
    by rewrite Hs. }
  assert (slice (String.length head) (String.length (head +:+ J)) text = J) as Esl.
  { unfold slice, text. rewrite sdrop_app, string_app_length. replace (_ - _)%nat with (String.length J) by lia. apply stake_app. }
  destruct (after_call_spec (head +:+ J) o gap' pre post Ho Hg) as [Hle Hd].
  rewrite (append_assoc head J) in Hd, Hle. change (head +:+ J +:+ close_of o gap' +:+ post) with text in Hd, Hle.
  assert (String.length (pre +:+ String o (shown +:+ gap) +:+ J) = String.length (head +:+ J)) as -> by (unfold head; by rewrite append_assoc).
  assert (slice 0 (String.length pre) text = pre) as Epre.
  { unfold slice, text, head. rewrite append_assoc, Nat.sub_0_r. change (sdrop 0 ?x) with x. apply stake_app. }
  subst st. unfold strip_match. cbn [cm_index cm_length cm_opener cm_name cursor visible signatures recovered]. rewrite Eh, Ej, Esl.
  assert (parse J = Some args) as -> by apply parse_stringify. cbn iota. rewrite Epre. cbn [String.append].
  change (String.length pre <? 0)%nat with false. cbn iota. subst args.
  destruct (existsb _ old); cbn [cursor visible recovered]; by split_and!.
Qed.

(** C30: a call a model prints in either way, as [/delegate{...}] or as [(delegate {...})], its name in
    letters of either case and with any white space before the arguments and the parenthesis, comes
    back as the call. When the answer, once the FALLBACK_OK markers are taken out of it (and of
    the arguments), is such a call between texts in which no call starts, it keeps those texts,
    without the space the call left behind, and the call, with its name and its very arguments, is
    added unless the model also made it. *)
Theorem printed_calls_round_trip answer pre o shown name gap fs gap' post existing prefix :
  let args := JObj fs in
  is_opener o = true -> In name CONV_TOOL_NAMES -> to_lower shown = name -> blank_text gap = true -> blank_text gap' = true ->
  no_call pre = true -> no_call post = true ->
  strip_marker 0 false answer = pre +:+ written o shown gap args gap' +:+ post ->
  recoverSerializedConvTools answer existing prefix =
    (trim (pre +:+ (if at_seam pre then trim_start post else post)),
     existing ++ (if existsb (String.eqb (callSignature name args)) (map signature_of existing) then []
                  else [mkCall (prefix +:+ "_0") name args])).
Proof.
  intros args Ho Hn Hs Hg Hg' Hpre Hpost Hmark. unfold recoverSerializedConvTools, stripSerializedConvTools. rewrite Hmark.
  change (fun c => callSignature (call_name c) (call_arguments c)) with signature_of. set (old := map signature_of existing).
  set (text := pre +:+ written o shown gap args gap' +:+ post).
  assert (text = (pre +:+ String o (shown +:+ gap)) +:+ stringify args +:+ close_of o gap' +:+ post) as Et
    by (unfold text, written; rewrite (append_assoc pre); cbn [String.append]; by rewrite !append_assoc).
  destruct (strip_written pre o shown name gap fs gap' post prefix old Ho Hg') as (Hv & Hc & Hd & Hr). fold args in Hv, Hc, Hd, Hr.
  rewrite <- Et in Hv, Hc, Hd, Hr.
  assert (exists ms, match_all call_at 0 0 text =
      mkCallMatch (String.length pre) o name (S (String.length shown + String.length gap)) :: ms /\
      forall m, In m ms -> (cm_index m < String.length (pre +:+ String o (shown +:+ gap) +:+ stringify args))%nat) as (ms & -> & Hms).
  { rewrite Et, append_assoc. cbn [String.append]. rewrite match_all_no_call by done. rewrite append_assoc. cbn [match_all]. unfold args.
    rewrite (call_at_written _ o shown name) by done. eexists. split; [reflexivity|]. intros m Hm.
    rewrite <- (append_assoc gap), <- append_assoc in Hm.
    apply match_all_index in Hm; [|by apply no_call_close]. fold args in Hm |- *. rewrite !string_app_length in *. cbn [String.length] in *.
    rewrite !string_app_length. lia. }
  cbn [foldl]. rewrite stripped_later by (intros m Hm; specialize (Hms m Hm); lia). by rewrite Hv, Hd, Hr.
Qed.

(** An answer without a call is left alone (but for the markers and the white space around it). *)
Lemma plain_text_kept text existing prefix : no_call (strip_marker 0 false text) = true ->
  recoverSerializedConvTools text existing prefix = (trim (strip_marker 0 false text), existing).
Proof.
  intros Hp. unfold recoverSerializedConvTools, stripSerializedConvTools. rewrite match_all_none by done.
  simpl. by rewrite app_nil_r.
Qed.

(** ** Examples *)

Definition delegate_intent (intent : string) : json := JObj [("tier", JStr "low"); ("intent", JStr intent)].

Lemma printed_calls_round_trip_witness :
  recoverSerializedConvTools ("FALLBACK_OK On it (and/or later). " +:+ written "(" "Delegate" " " (delegate_intent "find {it}") " " +:+ " Back soon.") [] "r" =
    ("On it (and/or later). Back soon.", [mkCall "r_0" "delegate" (delegate_intent "find {it}")]).
Proof.
  apply (printed_calls_round_trip _ "On it (and/or later). " "(" "Delegate" "delegate" " " [("tier", JStr "low"); ("intent", JStr "find {it}")]
    " " " Back soon." [] "r"); [done|by left|done|done|done|done|done|vm_compute; reflexivity].
Defined.

(** While the answer streams, an opener inside the arguments of a finished call cuts the call in two:
    the text shown is the start of the serialized call, which the finished answer does not have. *)
Example streamed_call_leaks :
  let text := written "/" "delegate" EmptyString (delegate_intent "run /check_task{ later") EmptyString in
  starts_with "/delegate{" (visibleStreamText text) = true /\ (recoverSerializedConvTools text [] "r").1 = EmptyString.
Proof. vm_compute. done. Qed.
