(* ===== verification/ConvTurn.v ===== *)
(** * A turn of the conversation (agents/conv/conv-orchestrator.ts: streamTurn, processTurn;
    agents/progress.ts)

    The turn calls the conversation tier, at most eight times; each answer streams to the
    user, is cleared of serialized calls, and its calls run one after the other before the
    next call of the model. The tier is a function from the messages to the events of its
    stream and the error it throws, a tool call one from the call to its envelope or the error
    it throws (of arguments that are null, say), which ends the turn; both over a state of their own. [turn] is the list of what the turn does, in order. *)
From Stdlib Require Import Ascii.
From S2P Require Export ConvRecovery.

(** ** agents/progress.ts *)

Definition checking_prefixes : list string := ["read"; "list"; "get"; "find"; "search"; "inspect"; "browser_"; "web_"].
Definition working_prefixes : list string :=
  ["write"; "create"; "update"; "edit"; "delete"; "run"; "execute"; "send"; "desktop_"].

(** The apostrophes of the source are typographic; the bytes of one in UTF-8 stand for it here. *)
Definition apostrophe : string :=
  String (ascii_of_nat 226) (String (ascii_of_nat 128) (String (ascii_of_nat 153) EmptyString)).
Definition I_am (s : string) : string := "I" +:+ apostrophe +:+ "m " +:+ s.

(** [String(first.arguments.template ?? '')], for a text. *)
Definition template_text (arguments : json) : string :=
  match jget "template" arguments with Some (JStr s) => to_lower s | _ => EmptyString end.

Definition progressAcknowledgement (calls : list LLMToolCall) : string :=
  match calls with
  | [] => I_am "working on that now."
  | first :: _ =>
      if bool_decide (call_name first = "delegate") then
        let template := template_text (call_arguments first) in
        if bool_decide (template = "research") then I_am "looking into that now and I" +:+ apostrophe +:+ "ll report back."
        else if bool_decide (template = "code") then I_am "checking the relevant code now."
        else if bool_decide (template = "plan") then I_am "working through the plan now."
        else if bool_decide (template = "write") then I_am "drafting that now."
        else I_am "working on that now."
      else if bool_decide (call_name first = "check_task") then I_am "checking on that task now."
      else if bool_decide (call_name first = "resume_task") then I_am "picking that task back up now."
      else if existsb (fun p => starts_with_ci p (call_name first)) checking_prefixes
        then I_am "checking the relevant details now."
      else if existsb (fun p => starts_with_ci p (call_name first)) working_prefixes then I_am "working through that now."
      else I_am "working on that now."
  end.

(** ** The turn *)

Definition MAX_CONV_ITERATIONS : nat := 8.

Inductive ConvStreamEvent :=
  | CText (text : string) (newSegment segmentEnd : bool)
  | CDone (tasksRun : list string).

Section turn.
Context {S : Type}.

(** What a call of the tier streams, and the error it throws after that. *)
Definition Streamed : Type := list (LLMStreamEvent LLMToolCall) * option LLMError.

Context (tier : S -> list LLMMessage -> S * Streamed) (tool : S -> LLMToolCall -> S * (LLMError + json * option string)).

(** What a turn does; it fails with the error of the tier or of a call, or with the one a stream reports. *)
Inductive TurnStep :=
  | Asked (messages : list LLMMessage)
  | Said (e : ConvStreamEvent)
  | Ran (c : LLMToolCall) (env : json) (task : option string)
  | Failed (error : LLMError + string * option LLMErrorCode).

(** The variables of one iteration, with [hasVisibleText], which outlives it. *)
Record Answer := mkAnswer {
  responseText : string;
  responseToolCalls : list LLMToolCall;
  answer_response : option (LLMResponse LLMToolCall);
  firstTextChunk : bool;
  emittedVisible : string;
  hasVisibleText : bool }.

Definition says (text : string) (a : Answer) : Answer * TurnStep :=
  (mkAnswer (responseText a) (responseToolCalls a) (answer_response a) false text true,
   Said (CText (sdrop (String.length (emittedVisible a)) text) (firstTextChunk a && hasVisibleText a) false)).

Definition with_text (t : string) (a : Answer) : Answer :=
  mkAnswer (responseText a +:+ t) (responseToolCalls a) (answer_response a) (firstTextChunk a) (emittedVisible a) (hasVisibleText a).

(** One event of the stream; [inr] is the error it reports. *)
Definition on_event (a : Answer) (e : LLMStreamEvent LLMToolCall)
    : Answer * list TurnStep + string * option LLMErrorCode :=
  match e with
  | EvText t =>
      let a := with_text t a in
      let shown := visibleStreamText (responseText a) in
      if (String.length shown <=? String.length (emittedVisible a))%nat then inl (a, [])
      else let '(a, s) := says shown a in inl (a, [s])
  | EvToolCall c =>
      inl (mkAnswer (responseText a) (responseToolCalls a ++ [c]) (answer_response a) (firstTextChunk a) (emittedVisible a)
             (hasVisibleText a), [])
  | EvDone r =>
      inl (mkAnswer (responseText a) (responseToolCalls a) (Some r) (firstTextChunk a) (emittedVisible a) (hasVisibleText a), [])
  | EvError msg code _ => inr (msg, code)
  end.

(** The stream, up to the error it reports. *)
Fixpoint on_stream (a : Answer) (evs : list (LLMStreamEvent LLMToolCall))
    : Answer * list TurnStep * option (string * option LLMErrorCode) :=
  match evs with
  | [] => (a, [], None)
  | e :: evs' =>
      match on_event a e with
      | inr err => (a, [], Some err)
      | inl (a, out) => let '(a, out', err) := on_stream a evs' in (a, out ++ out', err)
      end
  end.

Definition new_answer (seen : bool) : Answer := mkAnswer EmptyString [] None true EmptyString seen.

(** [responseText || response.content], and the calls likewise; a stream without a [done] counts as one
    with what was received. *)
Definition answer_text (a : Answer) : string :=
  if truthy (responseText a) then responseText a
  else match answer_response a with Some r => response_content r | None => EmptyString end.
Definition answer_calls (a : Answer) : list LLMToolCall :=
  match responseToolCalls a with
  | [] => match answer_response a with Some r => response_calls r | None => [] end
  | calls => calls
  end.

Definition recovery_prefix (iteration : nat) : string := "recovered_conv_" +:+ show_z (Z.of_nat iteration).

Definition assistant_message (content : string) (calls : list LLMToolCall) : LLMMessage :=
  mkMessage role_assistant (inl content) (Some calls) None.
Definition tool_message (c : LLMToolCall) (env : json) : LLMMessage :=
  mkMessage role_tool (inl (stringify env)) None (Some (call_id c)).

(** The calls of an answer, one after the other, up to one that throws: the messages and the tasks they
    add. *)
Fixpoint run_calls (s : S) (calls : list LLMToolCall) : S * list LLMMessage * list string * list TurnStep * option LLMError :=
  match calls with
  | [] => (s, [], [], [], None)
  | c :: calls' =>
      match tool s c with
      | (s, inl e) => (s, [], [], [], Some e)
      | (s, inr (env, task)) =>
          let '(s, msgs, tasks, out, thrown) := run_calls s calls' in
          (s, tool_message c env :: msgs, match task with Some id => if truthy id then id :: tasks else tasks | None => tasks end,
           Ran c env task :: out, thrown)
      end
  end.

(** The acknowledgment before the calls run: the content of the assistant message, what is said,
    [hasVisibleText] and [acknowledgedWork]. *)
Definition acknowledge (content : string) (calls : list LLMToolCall) (seen acknowledged : bool)
    : string * list TurnStep * bool * bool :=
  if negb (truthy (trim content)) then
    if acknowledged then (content, [], seen, true)
    else let text := progressAcknowledgement calls in
         (text, [Said (CText text seen true)], true, truthy (trim text))
  else (content, [Said (CText EmptyString false true)], seen, true).

Definition stuck_text : string := "I got stuck routing your request. Could you rephrase or try again?".

(** The loop with [fuel] iterations left. *)
Fixpoint conv_loop (fuel : nat) (s : S) (messages : list LLMMessage) (tasksRun : list string) (seen acknowledged : bool)
    : S * list TurnStep :=
  match fuel with
  | O => (s, [Said (CText stuck_text true true); Said (CDone tasksRun)])
  | Datatypes.S fuel' =>
      let iteration := (MAX_CONV_ITERATIONS - fuel)%nat in
      let '(s, (evs, thrown)) := tier s messages in
      let '(a, out, err) := on_stream (new_answer seen) evs in
      let out := Asked messages :: out in
      match err, thrown with
      | Some reported, _ => (s, out ++ [Failed (inr reported)])
      | None, Some e => (s, out ++ [Failed (inl e)])
      | None, None =>
          let '(content, calls) := recoverSerializedConvTools (answer_text a) (answer_calls a) (recovery_prefix iteration) in
          let '(a, flushed) :=
            if (String.length (emittedVisible a) <? String.length content)%nat
            then let '(a, st) := says content a in (a, [st]) else (a, []) in
          let out := out ++ flushed in
          match calls with
          | [] => (s, out ++ [Said (CDone tasksRun)])
          | _ =>
              let '(content, said, seen, acknowledged) := acknowledge content calls (hasVisibleText a) acknowledged in
              let '(s, results, tasks, ran, thrown) := run_calls s calls in
              match thrown with
              | Some e => (s, out ++ said ++ ran ++ [Failed (inl e)])
              | None =>
                  let '(s, rest) := conv_loop fuel' s (messages ++ assistant_message content calls :: results) (tasksRun ++ tasks)
                                      seen acknowledged in
                  (s, out ++ said ++ ran ++ rest)
              end
          end
      end
  end.

(** [streamTurn] on the messages it builds. *)
Definition streamTurn (s : S) (messages : list LLMMessage) : S * list TurnStep :=
  conv_loop MAX_CONV_ITERATIONS s messages [] false false.

(** ** processTurn *)

Definition ends_with_newline (s : string) : bool := match last_char s with Some c => Ascii.eqb c "010" | None => false end.

Definition collect (acc : string * list string) (st : TurnStep) : string * list string :=
  match st with
  | Said (CText t newSegment _) =>
      if negb (truthy t) then acc
      else (acc.1 +:+ (if newSegment && truthy acc.1 && negb (ends_with_newline acc.1) then newline else EmptyString) +:+ t, acc.2)
  | Said (CDone tasks) => (acc.1, acc.2 ++ tasks)
  | _ => acc
  end.

(** The text and the tasks of a turn, or the error it throws. *)
Definition processTurn (s : S) (messages : list LLMMessage)
    : S * (string * list string + (LLMError + string * option LLMErrorCode)) :=
  let '(s, out) := streamTurn s messages in
  (s, match last out with Some (Failed e) => inr e | _ => inl (foldl collect (EmptyString, []) out) end).

(** ** Lemmas *)

(** Text for the user, and nothing else. *)
Definition speech (st : TurnStep) : Prop := match st with Said (CText _ _ _) => True | _ => False end.

Lemma on_event_speech a e a' out : on_event a e = inl (a', out) -> List.Forall speech out.
Proof. destruct e; simpl; [destruct (_ <=? _)%nat| | |done]; intros [= _ <-]; repeat constructor. Qed.

Lemma on_stream_speech evs a : List.Forall speech (on_stream a evs).1.2.
Proof.
  revert a. induction evs as [|e evs IH]; intros a; [constructor|]. cbn [on_stream].
  destruct (on_event a e) as [[a' out]|err] eqn:E; [|constructor]. specialize (IH a').
  destruct (on_stream a' evs) as [[a2 out'] err]. apply Forall_app. split; [by eapply on_event_speech|done].
Qed.

Lemma acknowledge_speech content calls seen ack : List.Forall speech (acknowledge content calls seen ack).1.1.2.
Proof. unfold acknowledge. case_all; repeat constructor. Qed.

(** A call that ran. *)
Record Done := mkDone { done_call : LLMToolCall; done_env : json; done_task : option string }.

Definition ran_step (d : Done) : TurnStep := Ran (done_call d) (done_env d) (done_task d).
Definition task_of (d : Done) : option string := match done_task d with Some id => if truthy id then Some id else None | None => None end.

(** The message the model gets for a call: its id and its envelope. *)
Definition result_message (d : Done) : LLMMessage :=
  mkMessage role_tool (inl (stringify (done_env d))) None (Some (call_id (done_call d))).

(** [d] is what the tool gave for its call. *)
Definition tool_gave (d : Done) : Prop := exists s, (tool s (done_call d)).2 = inr (done_env d, done_task d).

Lemma run_calls_spec s calls : exists ds, List.Forall tool_gave ds /\
  (run_calls s calls).1.1.1.2 = map result_message ds /\ (run_calls s calls).1.1.2 = omap task_of ds /\
  (run_calls s calls).1.2 = map ran_step ds /\ ((run_calls s calls).2 = None -> map done_call ds = calls).
Proof.
  revert s. induction calls as [|c calls IH]; intros s; [by exists []|]. cbn [run_calls].
  destruct (tool s c) as [s1 [e|[env task]]] eqn:Et; [by exists []|]. destruct (IH s1) as (ds & H0 & H1 & H2 & H3 & H4).
  destruct (run_calls s1 calls) as [[[[s2 msgs] tasks] out] thrown]. cbn [fst snd] in *. subst.
  exists (mkDone c env task :: ds). simpl. split_and!; try done.
  - constructor; [|done]. exists s. simpl. by rewrite Et.
  - unfold task_of at 1. simpl. by destruct task as [[|]|].
  - intros Hn. by rewrite H4.
Qed.

(** A round: the text of the assistant message and the calls of it that ran; and the messages the model
    gets of it. *)
Definition Round : Type := string * list Done.
Definition round_messages (r : Round) : list LLMMessage :=
  mkMessage role_assistant (inl r.1) (Some (map done_call r.2)) None :: map result_message r.2.

(** The calls of the round are those of an answer of the tier to [told], in the [iteration]th call of it,
    and the tool gave what the round says. *)
Definition round_of (iteration : nat) (told : list LLMMessage) (r : Round) : Prop :=
  r.2 <> [] /\ List.Forall tool_gave r.2 /\
  exists s seen evs a out, (tier s told).2 = (evs, None) /\ on_stream (new_answer seen) evs = (a, out, None) /\
    (recoverSerializedConvTools (answer_text a) (answer_calls a) (recovery_prefix iteration)).2 = map done_call r.2.

(** The calls a list of steps ran. *)
Definition ran_in (l : list TurnStep) : list Done :=
  omap (fun st => match st with Ran c env task => Some (mkDone c env task) | _ => None end) l.

Lemma ran_in_speech l : List.Forall speech l -> ran_in l = [].
Proof. induction 1 as [|[| [] | |] l H Hl IH]; try done. Qed.

Lemma ran_in_map ds : ran_in (map ran_step ds) = ds.
Proof. induction ds as [|[] ds IH]; [done|]. simpl. by f_equal. Qed.

Lemma ran_in_app a b : ran_in (a ++ b) = ran_in a ++ ran_in b.
Proof. apply omap_app. Qed.

Definition asks (st : TurnStep) : bool := match st with Asked _ => true | _ => false end.
Definition final (st : TurnStep) : bool := match st with Said (CDone _) | Failed _ => true | _ => false end.

Lemma speech_quiet l : List.Forall speech l -> List.Forall (fun st => asks st = false /\ final st = false) l.
Proof. intros H. eapply List.Forall_impl; [|exact H]. by intros [|[]| |]. Qed.

Lemma ran_quiet ds : List.Forall (fun st => asks st = false /\ final st = false) (map ran_step ds).
Proof. apply Forall_map, List.Forall_forall. done. Qed.

(** How a turn ends, the calls it makes of the tier and what each of them is told. *)
Record turn_ok (fuel : nat) (messages : list LLMMessage) (tasksRun : list string) (out : list TurnStep) : Prop := {
  tk_end : exists pre e, out = pre ++ [e] /\ final e = true /\ List.Forall (fun st => final st = false) pre /\
    forall tasks, e = Said (CDone tasks) -> tasks = tasksRun ++ omap task_of (ran_in pre);
  tk_bound : (length (List.filter asks out) <= fuel)%nat;
  tk_told : forall l1 msgs l2, out = l1 ++ Asked msgs :: l2 -> exists rounds,
    msgs = messages ++ concat (map round_messages rounds) /\ concat (map snd rounds) = ran_in l1 /\
    forall k r, rounds !! k = Some r ->
      round_of (MAX_CONV_ITERATIONS - fuel + k) (messages ++ concat (map round_messages (take k rounds))) r }.

Lemma quiet_filter l : List.Forall (fun st => asks st = false /\ final st = false) l -> List.filter asks l = [].
Proof. induction 1 as [|st l [H _] Hl IH]; [done|]. simpl. by rewrite H. Qed.

(** The first [Asked] of steps that follow quiet ones is not among those. *)
Lemma quiet_split quiet rest l1 msgs l2 : List.Forall (fun st => asks st = false /\ final st = false) quiet ->
  quiet ++ rest = l1 ++ Asked msgs :: l2 -> exists l1', l1 = quiet ++ l1' /\ rest = l1' ++ Asked msgs :: l2.
Proof.
  intros H. revert l1. induction H as [|st q [Ha _] Hq IH]; intros l1 E; [by exists l1|]. simpl in E.
  destruct l1 as [|st' l1]; injection E as -> E; [done|]. destruct (IH l1 E) as (l1' & -> & ?). by exists l1'.
Qed.

(** The last iteration: what is asked, then text and calls, then the end. *)
Lemma turn_stops fuel messages tasksRun quiet e : List.Forall (fun st => asks st = false /\ final st = false) quiet ->
  final e = true -> asks e = false -> (forall tasks, e = Said (CDone tasks) -> tasks = tasksRun ++ omap task_of (ran_in quiet)) ->
  turn_ok (Datatypes.S fuel) messages tasksRun (Asked messages :: quiet ++ [e]).
Proof.
  intros Hs He Ha Ht. split.
  - exists (Asked messages :: quiet), e. split_and!; [done|done| |exact Ht].
    constructor; [done|]. eapply List.Forall_impl; [|exact Hs]. by intros ? [].
  - simpl. rewrite List.filter_app, quiet_filter by done. simpl. rewrite Ha. simpl. lia.
  - intros l1 msgs l2 E. destruct l1 as [|st l1]; injection E as Est E; subst.
    + exists []. simpl. by rewrite app_nil_r.
    + apply quiet_split in E as (l1' & _ & E); [|done]. destruct l1' as [|? [|]]; by simplify_eq/=.
Qed.

(** An iteration that runs calls, and the rest of the turn. *)
Lemma turn_goes_on fuel messages tasksRun q content ds rest : List.Forall (fun st => asks st = false /\ final st = false) q ->
  ran_in q = ds -> (fuel < MAX_CONV_ITERATIONS)%nat -> round_of (MAX_CONV_ITERATIONS - Datatypes.S fuel) messages (content, ds) ->
  turn_ok fuel (messages ++ round_messages (content, ds)) (tasksRun ++ omap task_of ds) rest ->
  turn_ok (Datatypes.S fuel) messages tasksRun (Asked messages :: q ++ rest).
Proof.
  intros Q Hran Hf Hround [(pre & e & -> & He & Hpre & Ht) Hb Htold]. split.
  - exists (Asked messages :: q ++ pre), e. split_and!; [simpl; by rewrite app_assoc|done| |].
    + constructor; [done|]. apply Forall_app. split; [|done]. eapply List.Forall_impl; [|exact Q]. by intros ? [].
    + intros tasks E. rewrite (Ht tasks E). change (ran_in (Asked messages :: q ++ pre)) with (ran_in (q ++ pre)).
      by rewrite ran_in_app, Hran, omap_app, app_assoc.
  - simpl. rewrite List.filter_app, quiet_filter by done. simpl. lia.
  - intros l1 msgs l2 E. destruct l1 as [|st l1]; injection E as Est E.
    + subst msgs. exists []. simpl. by rewrite app_nil_r.
    + subst st. apply quiet_split in E as (l1' & -> & E); [|done]. destruct (Htold l1' msgs l2 E) as (rounds & -> & Hr & Hk).
      exists ((content, ds) :: rounds). simpl. split_and!; [by rewrite <- app_assoc| |].
      * change (ran_in (Asked messages :: q ++ l1')) with (ran_in (q ++ l1')). by rewrite ran_in_app, Hran, Hr.
      * intros [|k] r Hin; simpl in Hin.
        -- injection Hin as <-. simpl. by rewrite Nat.add_0_r, app_nil_r.
        -- apply Hk in Hin. cbn [take firstn map concat]. rewrite <- app_assoc in Hin.
           replace (7 - fuel + Datatypes.S k)%nat with (MAX_CONV_ITERATIONS - fuel + k)%nat by (unfold MAX_CONV_ITERATIONS in *; lia). exact Hin.
Qed.

Lemma conv_loop_ok fuel s messages tasksRun seen ack : (fuel <= MAX_CONV_ITERATIONS)%nat ->
  turn_ok fuel messages tasksRun (conv_loop fuel s messages tasksRun seen ack).2.
Proof.
  revert s messages tasksRun seen ack. induction fuel as [|fuel IH]; intros s messages tasksRun seen ack Hfuel.
  - split; [|simpl; lia|].
    + exists [Said (CText stuck_text true true)], (Said (CDone tasksRun)). split_and!; [done|done|by repeat constructor|].
      intros tasks [= <-]. by rewrite app_nil_r.
    + intros [|? [|? [|]]]; simpl; intros; simplify_eq.
  - cbn [conv_loop]. destruct (tier s messages) as [s1 [evs thrown]] eqn:Etier. pose proof (on_stream_speech evs (new_answer seen)) as Hs.
    destruct (on_stream (new_answer seen) evs) as [[a out] err] eqn:Estr. cbn [fst snd] in Hs. apply speech_quiet in Hs as Hq.
    destruct err as [reported|]; [by apply turn_stops|]. destruct thrown as [e|]; [by apply turn_stops|].
    destruct (recoverSerializedConvTools (answer_text a) (answer_calls a) _) as [text calls] eqn:Erec.
    destruct (if (_ <? _)%nat then _ else _) as [a2 flushed] eqn:Ef.
    assert (List.Forall speech flushed) as Hf by (destruct (_ <? _)%nat in Ef; injection Ef as _ <-; repeat constructor).
    assert (List.Forall speech (out ++ flushed)) as Hof by (by apply Forall_app).
    destruct calls as [|c calls].
    + cbn [snd]. rewrite <- app_comm_cons. apply turn_stops; [by apply speech_quiet|done|done|].
      intros ? [= ->]. rewrite ran_in_speech by done. simpl. by rewrite app_nil_r.
    + pose proof (acknowledge_speech text (c :: calls) (hasVisibleText a2) ack) as Ha.
      destruct (acknowledge text (c :: calls) (hasVisibleText a2) ack) as [[[content' said] seen'] ack']. cbn [fst snd] in Ha.
      destruct (run_calls_spec s1 (c :: calls)) as (ds & Hg & Hm & Ht & Ho & Hd).
      destruct (run_calls s1 (c :: calls)) as [[[[s2 results] tasks] ran] thrown]. cbn [fst snd] in Hm, Ht, Ho, Hd. subst results tasks ran.
      assert (List.Forall (fun st => asks st = false /\ final st = false) ((out ++ flushed) ++ said ++ map ran_step ds)) as Q.
      { apply Forall_app; split; [by apply speech_quiet|]. apply Forall_app; split; [by apply speech_quiet|apply ran_quiet]. }
      destruct thrown as [e|].
      { cbn [snd]. rewrite <- !app_comm_cons.
        replace ((out ++ flushed) ++ said ++ map ran_step ds ++ [Failed (inl e)])
          with (((out ++ flushed) ++ said ++ map ran_step ds) ++ [Failed (inl e)]) by (by rewrite <- !app_assoc).
        by apply turn_stops. }
      specialize (Hd eq_refl).
      assert (turn_ok fuel (messages ++ round_messages (content', ds)) (tasksRun ++ omap task_of ds)
        (conv_loop fuel s2 (messages ++ assistant_message content' (c :: calls) :: map result_message ds)
           (tasksRun ++ omap task_of ds) seen' ack').2) as Hrest by (rewrite <- Hd; apply IH; lia).
      destruct (conv_loop fuel s2 _ _ seen' ack') as [s3 rest]. cbn [snd] in *. rewrite <- !app_comm_cons.
      replace ((out ++ flushed) ++ said ++ map ran_step ds ++ rest) with (((out ++ flushed) ++ said ++ map ran_step ds) ++ rest)
        by (by rewrite <- !app_assoc).
      apply (turn_goes_on fuel messages tasksRun _ content' ds rest); [done| |lia| |done].
      * by rewrite !ran_in_app, !(ran_in_speech said), (ran_in_speech out), (ran_in_speech flushed), ran_in_map by done.
      * split; [simpl; intros Hn; by rewrite Hn in Hd|]. split; [done|]. exists s, seen, evs, a, out. cbn [snd]. by rewrite Etier, Erec, Hd.
Qed.

(** ** What a turn promises *)

(** C31: a turn ends. Whatever the model streams and the calls return, it asks the conversation tier at
    most eight times; it ends with one last step, the end of the turn or the error that stops it, and
    neither occurs before; at its end it reports the tasks of the calls it ran, in order. *)
Theorem turns_end s messages : let out := (streamTurn s messages).2 in
  (length (List.filter asks out) <= MAX_CONV_ITERATIONS)%nat /\
  exists pre e, out = pre ++ [e] /\ final e = true /\ List.Forall (fun st => final st = false) pre /\
    forall tasks, e = Said (CDone tasks) -> tasks = omap task_of (ran_in pre).
Proof.
  destruct (conv_loop_ok MAX_CONV_ITERATIONS s messages [] false false (le_n _)) as [He Hb _]. split; [exact Hb|exact He].
Qed.

(** C29: the model is told what its calls did. Each time the tier is asked, the messages are those of
    the turn's start and then, round by round, an assistant message with the calls of the tier's
    answer to the messages before it, those it made and those recovered from its text, and one
    tool message for each of them, in order, with the id of the call and the envelope its tool
    gave: exactly the calls that ran so far, so none is repeated, lost or left without an answer. *)
Theorem calls_are_answered s messages l1 msgs l2 : (streamTurn s messages).2 = l1 ++ Asked msgs :: l2 ->
  exists rounds, msgs = messages ++ concat (map round_messages rounds) /\ concat (map snd rounds) = ran_in l1 /\
    forall k r, rounds !! k = Some r -> round_of k (messages ++ concat (map round_messages (take k rounds))) r.
Proof. destruct (conv_loop_ok MAX_CONV_ITERATIONS s messages [] false false (le_n _)) as [_ _ Ht]. apply Ht. Qed.
End turn.

(** ** A turn *)

Definition demo_call : LLMToolCall := mkCall "c1" "delegate" (JObj [("tier", JStr "low")]).

(** The model acknowledges and delegates, then tells the result. *)
Definition demo_tier (n : nat) (messages : list LLMMessage) : nat * Streamed :=
  (Datatypes.S n, (match n with O => [EvText "On it."; EvToolCall demo_call] | _ => [EvText "All done."] end, None)).
Definition demo_tool (n : nat) (c : LLMToolCall) : nat * (LLMError + json * option string) :=
  (n, inr (JObj [("task_id", JStr "t1")], Some "t1")).
Definition demo_start : list LLMMessage := [mkMessage role_user (inl "Find it") None None].
Definition demo_turn : list TurnStep := (streamTurn demo_tier demo_tool 0%nat demo_start).2.
Definition demo_told : list LLMMessage :=
  demo_start ++ [mkMessage role_assistant (inl "On it.") (Some [demo_call]) None;
                 mkMessage role_tool (inl (stringify (JObj [("task_id", JStr "t1")]))) None (Some "c1")].

Lemma calls_are_answered_witness :
  demo_turn = take 4 demo_turn ++ Asked demo_told :: drop 5 demo_turn /\
  exists rounds, demo_told = demo_start ++ concat (map round_messages rounds) /\ concat (map snd rounds) = ran_in (take 4 demo_turn) /\
    forall k r, rounds !! k = Some r -> round_of demo_tier demo_tool k (demo_start ++ concat (map round_messages (take k rounds))) r.
Proof.
  split; [vm_compute; reflexivity|].
  apply (calls_are_answered demo_tier demo_tool 0%nat demo_start (take 4 demo_turn) demo_told (drop 5 demo_turn)).
  vm_compute. reflexivity.
Defined.

(** A call whose arguments are null makes the handler throw, and the turn fails after what ran. *)
Example a_throwing_call_ends_the_turn :
  let tool (n : nat) (c : LLMToolCall) := (n, match call_arguments c with
    | JNull => inl (PlainError "Cannot read properties of null") | _ => inr (JObj [("task_id", JStr "t1")], Some "t1") end) in
  let tier (n : nat) (messages : list LLMMessage) :=
    (n, ([EvText "On it."; EvToolCall demo_call; EvToolCall (mkCall "c2" "check_task" JNull)], None)) in
  drop 3 (streamTurn tier tool 0%nat demo_start).2 =
    [Ran demo_call (JObj [("task_id", JStr "t1")]) (Some "t1"); Failed (inl (PlainError "Cannot read properties of null"))].
Proof. vm_compute. reflexivity. Qed.

Example demo_processed : (processTurn demo_tier demo_tool 0%nat demo_start).2 = inl ("On it." +:+ newline +:+ "All done.", ["t1"]).
Proof. vm_compute. reflexivity. Qed.
