(* ===== verification/SubAgent.v ===== *)
(** * The sub-agent runner (agents/sub-agent-runner.ts)

    [runSubAgent] is the loop of a delegated agent: ask the model, run its tool calls one
    after the other through the authority gate, until it answers without a call. A call
    that needs approval goes to the governed dispatch, which may pause the run; the caller
    keeps the state and starts the run again from it. What the run awaits is a function:
    the model of the messages, a tool body and the state of the rest of the system of the
    position of the call in the run, a fence of the point it stands at, the dispatch of
    the call it is given. [runSubAgent] returns the events of the run with its result. *)
From S2P Require Export Gatekeeper Llm.

Definition MAX_TOOL_ITERATIONS : nat := 100.

(** ** Data *)

Record SubAgentApprovalRef := mkApprovalRef { ref_effect : string; ref_approval : string; ref_waitpoint : string }.

Record SubAgentPrincipal := mkPrincipal {
  pr_agent : string; pr_role : string; pr_level : Z; pr_profile : option AuthorityProfile }.

Record GovernedToolCall := mkGoverned {
  gc_call : LLMToolCall;
  gc_sequence : nat;
  gc_action : ActionCategory;
  gc_tool_category : string;
  gc_principal : SubAgentPrincipal;
  gc_reason : string }.

(** What the dispatch answers; [g_raised] is the message of what it throws. *)
Inductive GovernedToolResult :=
  | g_executed (result : string)
  | g_failed (result : string)
  | g_denied (reason : string)
  | g_paused (approval : SubAgentApprovalRef)
  | g_raised (message : string).

Definition GovernedToolDispatch : Type := GovernedToolCall -> GovernedToolResult.

Record SubAgentPause := mkPause {
  pause_call : GovernedToolCall;
  pause_approval : SubAgentApprovalRef;
  pause_remaining : list LLMToolCall;
  pause_iteration : nat }.

(** What the run carries from call to call, and what a checkpoint saves. *)
Record SubRun := mkSubRun {
  run_messages : list LLMMessage;
  run_toolsUsed : list string;
  run_input : Z;
  run_output : Z;
  run_sequence : nat;
  run_taint : list string;
  run_failed : list string }.

Record SubAgentCheckpoint := mkCheckpoint { cp_run : SubRun; cp_iteration : nat }.

(** The model's answer; [ans_tool_use] says that it finished to use tools. *)
Record Answered := mkAnswered {
  ans_content : string; ans_calls : list LLMToolCall; ans_tool_use : bool; ans_input : Z; ans_output : Z }.

(** The caller's part of the authority context. *)
Record SubContext := mkSubContext {
  sc_agent : Agent; sc_profile : option AuthorityProfile; sc_gating : option TaintGating; sc_audited : bool }.

(** The rest of the system when a call is judged. *)
Record Moment := mkMoment {
  at_emergency : option EmergencyState;
  at_config : AuthorityConfig;
  at_hour : Z;
  at_grants : gmap string (list ActionCategory) }.

(** Where the run checks that it was not cancelled. *)
Inductive FencePoint :=
  | before_call (sequence : nat)
  | before_body (sequence : nat)
  | before_ask (iteration : nat)
  | after_ask (iteration : nat)
  | after_turn (iteration : nat)
  | before_resume (sequence : nat).

Inductive SubEvent :=
  | SAsked (messages : list LLMMessage)
  | SRan (sequence : nat) (name : string) (args : params) (outcome : ToolOutcome)
  | SDispatched (call : GovernedToolCall) (answer : GovernedToolResult)
  | SAudited (name : string) (category : ActionCategory) (decision : AuthorityDecisionType) (ran : bool)
      (approval : option string)
  | STurn (c : SubAgentCheckpoint).

(** What ends a run early. *)
Inductive SubError := dispatch_error (message : string) | canceled_error (message : string) | other_error (message : string).

Definition sub_error_message (e : SubError) : string :=
  match e with dispatch_error m | canceled_error m | other_error m => m end.

Inductive SubAgentTermination :=
  | ended_completed (text : string)
  | ended_max_iterations
  | ended_paused (p : SubAgentPause)
  | ended_error (e : SubError).

Definition result_success (t : SubAgentTermination) : bool := match t with ended_error _ => false | _ => true end.
Definition result_response (t : SubAgentTermination) : string :=
  match t with
  | ended_completed text => text
  | ended_error e => "Sub-agent error: " +:+ sub_error_message e
  | _ => EmptyString
  end.

(** The tools of a result are listed once. *)
Record SubAgentResult := mkSubResult { res_run : SubRun; res_end : SubAgentTermination }.

Definition with_tools (l : list string) (r : SubRun) : SubRun :=
  mkSubRun (run_messages r) l (run_input r) (run_output r) (run_sequence r) (run_taint r) (run_failed r).

Definition finish (r : SubRun) (e : SubAgentTermination) : SubAgentResult :=
  mkSubResult (with_tools (dedup (run_toolsUsed r)) r) e.

(** ** Texts *)

Definition denialText (name reason : string) : string :=
  "[APPROVAL DENIED] " +:+ name +:+ ": " +:+ reason +:+ " Do not retry the action; report that it was not performed.".

(** [boundedResult] of a text, or of a value it prints. *)
Definition boundedResult (raw : json) : string :=
  cap_result (match raw with JStr s => s | _ => stringify raw end).

Definition args_of (c : LLMToolCall) : params := match call_arguments c with JObj fields => fields | _ => [] end.

Section runner.
Context (registry : ToolRegistry) (moment : nat -> Moment) (body : nat -> string -> params -> ToolOutcome)
        (alive : FencePoint -> option string) (discovery : nat -> LLMToolCall -> option string)
        (ask : list LLMMessage -> string + Answered) (ctx : option SubContext).

Definition category_of (name : string) : option string := tool_category <$> get registry name.

Definition note (taint : list string) (name : string) (category : option string) : list string :=
  match ctx with Some _ => noteTaint taint name category | None => taint end.

(** A result for the model, and whether it is a failure. *)
Definition Dispatched : Type := string * bool.

(** [governedText], of any answer but a pause. *)
Definition governedText (taint : list string) (name category : string) (g : GovernedToolResult) : list string * Dispatched :=
  match g with
  | g_denied reason => (taint, (denialText name reason, true))
  | g_failed r => (taint, (markUntrustedToolFailure name (Some category) r MAX_TOOL_RESULT_CHARS, true))
  | g_executed r => (noteTaint taint name (Some category), (markUntrustedToolResult name (Some category) (cap_result r), false))
  | g_paused _ | g_raised _ => (taint, (EmptyString, true))
  end.

(** ** One call *)

Definition effective_profile (c : SubContext) (taint : list string) : option AuthorityProfile :=
  mergeProfiles (sc_profile c) (taintProfile (sc_gating c) taint).

Definition call_gate (name : string) (args : params) : ResolvedToolGate := resolveToolGate (get registry name) name args.

Definition check_category (c : SubContext) (taint : list string) (seq : nat) (name : string) (cat : ActionCategory)
    : AuthorityDecision :=
  checkAuthority (at_config (moment seq)) (at_hour (moment seq))
    (mkCheck (agent_key (sc_agent c)) (max_authority_level (authority (sc_agent c))) (role_id (agent_role (sc_agent c))) name
       (category_of name ?? "unknown") cat (at_grants (moment seq)) (effective_profile c taint)).

(** The decision on a call; [None] is the error of combining none. *)
Definition decide (c : SubContext) (taint : list string) (seq : nat) (name : string) (args : params) : option AuthorityDecision :=
  combineDecisions (map (check_category c taint seq name) (categories (call_gate name args))).

Definition audit_row (c : SubContext) (name : string) (args : params) (d : AuthorityDecisionType) (ran : bool)
    (approval : option string) : list SubEvent :=
  if sc_audited c then [SAudited name (gateCategory (call_gate name args)) d ran approval] else [].

(** The row of a call that reached its body, when there is a gate. *)
Definition audit_run (name : string) (args : params) (ran : bool) : list SubEvent :=
  match ctx with Some c => audit_row c name args audit_allowed ran None | None => [] end.

Definition run_error (taint : list string) (name : string) (e : ToolError) : list string * Dispatched :=
  match e with
  | OutcomeError m =>
      (note taint name (category_of name), (markUntrustedToolFailure name (category_of name) m MAX_TOOL_RESULT_CHARS, true))
  | Registry.PlainError m => (taint, ("Error executing " +:+ name +:+ ": " +:+ m, true))
  end.

(** The end of [executeTool]: the tool itself. *)
Definition run_tool_body (taint : list string) (seq : nat) (name : string) (args : params)
    : list SubEvent * (list string * Dispatched) :=
  match execute_begin registry name args (alive (before_body seq)) with
  | inl e => (audit_run name args false, run_error taint name e)
  | inr _ =>
      let o := body seq name args in
      match execute_finish name o with
      | inr raw => (SRan seq name args o :: audit_run name args true,
                    (note taint name (category_of name), (markUntrustedToolResult name (category_of name) (boundedResult raw), false)))
      | inl e => (SRan seq name args o :: audit_run name args false, run_error taint name e)
      end
  end.

Inductive CallEnd :=
  | call_text (taint : list string) (d : Dispatched)
  | call_paused (call : GovernedToolCall) (approval : SubAgentApprovalRef)
  | call_failed (e : SubError).

Definition body_end (p : list SubEvent * (list string * Dispatched)) : list SubEvent * CallEnd :=
  (p.1, call_text p.2.1 p.2.2).

(** The call the dispatch is given. *)
Definition governed_call (c : SubContext) (taint : list string) (tc : LLMToolCall) (seq : nat) (d : AuthorityDecision)
    : GovernedToolCall :=
  mkGoverned tc seq (gateCategory (call_gate (call_name tc) (args_of tc))) (category_of (call_name tc) ?? "unknown")
    (mkPrincipal (agent_key (sc_agent c)) (role_id (agent_role (sc_agent c)))
       (max_authority_level (authority (sc_agent c))) (effective_profile c taint))
    (reason d).

(** The answer of the dispatch as the end of the call, without its audit row. *)
Definition answered (taint : list string) (call : GovernedToolCall) (g : GovernedToolResult) : CallEnd :=
  match g with
  | g_raised m => call_failed (dispatch_error m)
  | g_paused a => call_paused call a
  | _ => let '(taint, d) := governedText taint (call_name (gc_call call)) (gc_tool_category call) g in call_text taint d
  end.

Definition governed_row (c : SubContext) (name : string) (args : params) (g : GovernedToolResult) : list SubEvent :=
  match g with
  | g_paused a => audit_row c name args audit_approval_required false (Some (ref_approval a))
  | g_denied _ => audit_row c name args audit_denied false None
  | g_executed _ => audit_row c name args audit_approval_required true None
  | _ => audit_row c name args audit_approval_required false None
  end.

(** The state of the switch, when it stops execution. *)
Definition halted (seq : nat) : option EmergencyState :=
  match at_emergency (moment seq) with Some s => if canExecute s then None else Some s | None => None end.

Definition refusal (taint : list string) (text : string) : CallEnd := call_text taint (text, true).

Definition executeTool (disp : option GovernedToolDispatch) (taint : list string) (tc : LLMToolCall) (seq : nat)
    : list SubEvent * CallEnd :=
  let name := call_name tc in
  let args := args_of tc in
  match ctx with
  | None => body_end (run_tool_body taint seq name args)
  | Some c =>
      match halted seq with
      | Some s => ([], refusal taint ("[SYSTEM " +:+ to_upper (state_name s) +:+ "] Tool execution suspended."))
      | None =>
          if negb (has registry name)
          then ([], refusal taint ("Error: no tool named " +:+ String dquote (name +:+ String dquote " is available.")))
          else if bool_decide (confirm (call_gate name args) = Some confirm_always)
          then (audit_row c name args audit_denied false None,
                refusal taint ("[AUTHORITY DENIED] " +:+ name +:+
                  " requires the user's confirmation. Sub-agents cannot request approvals directly."))
          else match decide c taint seq name args with
          | None => ([], call_failed (other_error "Reduce of empty array with no initial value"))
          | Some d =>
              if negb (allowed d)
              then (audit_row c name args audit_denied false None,
                    refusal taint ("[AUTHORITY DENIED] " +:+ name +:+ ": " +:+ reason d))
              else if requiresApproval d then
                match disp with
                | None => (audit_row c name args audit_approval_required false None,
                           refusal taint ("[AUTHORITY DENIED] " +:+ name +:+
                             " requires user approval. Sub-agents cannot request approvals directly."))
                | Some g =>
                    let call := governed_call c taint tc seq d in
                    (SDispatched call (g call) :: governed_row c name args (g call), answered taint call (g call))
                end
              else body_end (run_tool_body taint seq name args)
          end
      end
  end.

(** ** The calls of a turn *)

(** [noteToolCall] and the next position. *)
Definition noted (tc : LLMToolCall) (r : SubRun) : SubRun :=
  mkSubRun (run_messages r) (run_toolsUsed r ++ [call_name tc]) (run_input r) (run_output r) (S (run_sequence r))
    (run_taint r) (run_failed r).

(** [record]: the tool message, and the id of a call that failed. *)
Definition record (tc : LLMToolCall) (d : Dispatched) (taint : list string) (r : SubRun) : SubRun :=
  mkSubRun (run_messages r ++ [mkMessage role_tool (inl d.1) None (Some (call_id tc))]) (run_toolsUsed r) (run_input r)
    (run_output r) (run_sequence r) taint (if d.2 then run_failed r ++ [call_id tc] else run_failed r).

Inductive CallsEnd := calls_done | calls_paused (p : SubAgentPause) | calls_failed (e : SubError).

Fixpoint dispatchCalls (disp : option GovernedToolDispatch) (calls : list LLMToolCall) (iteration : nat) (r : SubRun)
    : list SubEvent * SubRun * CallsEnd :=
  match calls with
  | [] => ([], r, calls_done)
  | tc :: rest =>
      match alive (before_call (S (run_sequence r))) with
      | Some m => ([], r, calls_failed (canceled_error m))
      | None =>
          let r := noted tc r in
          match discovery (run_sequence r) tc with
          | Some text => dispatchCalls disp rest iteration (record tc (text, false) (run_taint r) r)
          | None =>
              match executeTool disp (run_taint r) tc (run_sequence r) with
              | (evs, call_text taint d) =>
                  let '(evs', r, e) := dispatchCalls disp rest iteration (record tc d taint r) in (evs ++ evs', r, e)
              | (evs, call_paused call a) => (evs, r, calls_paused (mkPause call a rest iteration))
              | (evs, call_failed e) => (evs, r, calls_failed e)
              end
          end
      end
  end.

(** ** The loop *)

Definition asked (a : Answered) (r : SubRun) : SubRun :=
  mkSubRun (run_messages r) (run_toolsUsed r) (run_input r + ans_input a) (run_output r + ans_output a) (run_sequence r)
    (run_taint r) (run_failed r).

Definition assistant (a : Answered) (r : SubRun) : SubRun :=
  mkSubRun (run_messages r ++ [mkMessage role_assistant (inl (ans_content a)) (Some (ans_calls a)) None]) (run_toolsUsed r)
    (run_input r) (run_output r) (run_sequence r) (run_taint r) (run_failed r).

(** What follows the calls of a turn: the fence, then the pause or the next turn by [k]. *)
Definition turn_over (iteration : nat) (evs : list SubEvent) (r : SubRun) (e : CallsEnd)
    (k : SubRun -> list SubEvent * SubAgentResult) : list SubEvent * SubAgentResult :=
  match e with
  | calls_failed err => (evs, finish r (ended_error err))
  | _ =>
      match alive (after_turn iteration), e with
      | Some m, _ => (evs, finish r (ended_error (canceled_error m)))
      | None, calls_paused p => (evs, finish r (ended_paused p))
      | None, _ => let '(evs', res) := k r in (evs ++ STurn (mkCheckpoint r (S iteration)) :: evs', res)
      end
  end.

Fixpoint sub_loop (fuel : nat) (disp : option GovernedToolDispatch) (iteration : nat) (r : SubRun)
    : list SubEvent * SubAgentResult :=
  match fuel with
  | O => ([], finish r ended_max_iterations)
  | S fuel' =>
      match alive (before_ask iteration) with
      | Some m => ([], finish r (ended_error (canceled_error m)))
      | None =>
          match ask (run_messages r) with
          | inl m => ([SAsked (run_messages r)], finish r (ended_error (other_error m)))
          | inr a =>
              let asking := SAsked (run_messages r) in
              match alive (after_ask iteration) with
              | Some m => ([asking], finish r (ended_error (canceled_error m)))
              | None =>
                  let r := asked a r in
                  match ans_tool_use a, ans_calls a with
                  | true, _ :: _ =>
                      let '(evs, r, e) := dispatchCalls disp (ans_calls a) iteration (assistant a r) in
                      turn_over iteration (asking :: evs) r e (sub_loop fuel' disp (S iteration))
                  | _, _ => ([asking], finish r (ended_completed (ans_content a)))
                  end
              end
          end
      end
  end.

(** Where a run starts: afresh at iteration 0, from a checkpoint, or from a pause. *)
Record SubAgentStart := mkStart { start_run : SubRun; start_iteration : nat; start_pending : option SubAgentPause }.

(** From iteration [i]; [maxIterations] is the cap of the whole run. *)
Definition loop_from (maxIterations : nat) (disp : option GovernedToolDispatch) (i : nat) (r : SubRun)
    : list SubEvent * SubAgentResult := sub_loop (maxIterations - i) disp i r.

Definition runSubAgent (maxIterations : nat) (disp : option GovernedToolDispatch) (s : SubAgentStart)
    : list SubEvent * SubAgentResult :=
  let r := start_run s in
  match start_pending s with
  | None => loop_from maxIterations disp (start_iteration s) r
  | Some p =>
      match disp, ctx with
      | Some g, Some _ =>
          let call := pause_call p in
          match alive (before_resume (gc_sequence call)) with
          | Some m => ([], finish r (ended_error (canceled_error m)))
          | None =>
              let ev := SDispatched call (g call) in
              match answered (run_taint r) call (g call) with
              | call_failed e => ([ev], finish r (ended_error e))
              | call_paused _ a =>
                  ([ev], finish r (ended_paused (mkPause call a (pause_remaining p) (pause_iteration p))))
              | call_text taint d =>
                  let '(evs, r, e) := dispatchCalls disp (pause_remaining p) (pause_iteration p) (record (gc_call call) d taint r) in
                  turn_over (pause_iteration p) (ev :: evs) r e (loop_from maxIterations disp (S (pause_iteration p)))
              end
          end
      | _, _ => ([], finish r (ended_error (other_error "Cannot resume a paused sub-agent without a governed tool dispatch")))
      end
  end.

(** What the caller keeps of a run that paused, to start it again. *)
Definition resume_of (res : SubAgentResult) (p : SubAgentPause) : SubAgentStart :=
  mkStart (res_run res) (pause_iteration p) (Some p).

(** ** What reaches a tool *)

(** The tools whose outside content the gate counts, event by event: as the code notes them. *)
Definition taint_after (taint : list string) (ev : SubEvent) : list string :=
  match ev with
  | SRan _ name _ (Returned _ | ThrewOutcome _) => note taint name (category_of name)
  | SDispatched call (g_executed _) => noteTaint taint (call_name (gc_call call)) (Some (gc_tool_category call))
  | _ => taint
  end.

(** The tools that brought outside content to the run, event by event: the model is shown what a tool returned, what it threw,
    and what a governed call executed or failed with. *)
Definition taint_read (taint : list string) (ev : SubEvent) : list string :=
  match ev with
  | SRan _ name _ _ => note taint name (category_of name)
  | SDispatched call (g_executed _ | g_failed _) => noteTaint taint (call_name (gc_call call)) (Some (gc_tool_category call))
  | _ => taint
  end.

(** Tool [x] brought outside content that is not counted: a failure of a governed call, or a plain error. *)
Definition uncounted (x : string) (ev : SubEvent) : Prop :=
  match ev with
  | SRan _ name _ (ThrewError _) => x = name /\ isTaintSourceTool name (category_of name) = true
  | SDispatched call (g_failed _) => x = call_name (gc_call call) /\ isTaintSourceTool x (Some (gc_tool_category call)) = true
  | _ => False
  end.

(** The gate lets the call through, with ([approval]) or without an approval, when the run has read [taint]. *)
Definition judged (c : SubContext) (taint : list string) (seq : nat) (name : string) (args : params) (approval : bool) : Prop :=
  halted seq = None /\
  has registry name = true /\ confirm (call_gate name args) <> Some confirm_always /\
  exists d, decide c taint seq name args = Some d /\ allowed d = true /\ requiresApproval d = approval.

(** The dispatch is asked as the gate judged. *)
Definition asked_as_judged (c : SubContext) (taint : list string) (call : GovernedToolCall) : Prop :=
  let name := call_name (gc_call call) in
  let args := args_of (gc_call call) in
  judged c taint (gc_sequence call) name args true /\
  exists d, decide c taint (gc_sequence call) name args = Some d /\ call = governed_call c taint (gc_call call) (gc_sequence call) d.

Definition event_ok (c : SubContext) (taint : list string) (ev : SubEvent) : Prop :=
  match ev with
  | SRan seq name args _ => judged c taint seq name args false
  | SDispatched call _ => asked_as_judged c taint call
  | _ => True
  end.

Fixpoint trace_ok (c : SubContext) (taint : list string) (evs : list SubEvent) : Prop :=
  match evs with [] => True | ev :: evs' => event_ok c taint ev /\ trace_ok c (taint_after taint ev) evs' end.

Lemma trace_ok_app c taint l1 l2 : trace_ok c taint (l1 ++ l2) <-> trace_ok c taint l1 /\ trace_ok c (foldl taint_after taint l1) l2.
Proof. revert taint. induction l1 as [|ev l1 IH]; intros taint; simpl; [tauto|]. rewrite IH. tauto. Qed.

(** Audit rows and turns neither read outside content nor reach a tool. *)
Definition quiet_event (ev : SubEvent) : bool := match ev with SRan _ _ _ _ | SDispatched _ _ => false | _ => true end.

Lemma quiet_trace c taint evs : forallb quiet_event evs = true -> trace_ok c taint evs /\ foldl taint_after taint evs = taint.
Proof.
  revert taint. induction evs as [|ev evs IH]; intros taint; [done|]. simpl. intros [He Hq]%andb_true_iff.
  destruct ev; try done; simpl; destruct (IH taint Hq); auto.
Qed.

Lemma audit_row_quiet c name args d ran a : forallb quiet_event (audit_row c name args d ran a) = true.
Proof. unfold audit_row. by destruct (sc_audited c). Qed.

Lemma audit_run_quiet name args ran : forallb quiet_event (audit_run name args ran) = true.
Proof. unfold audit_run. destruct ctx; [apply audit_row_quiet|done]. Qed.

Lemma governed_row_quiet c name args g : forallb quiet_event (governed_row c name args g) = true.
Proof. destruct g; apply audit_row_quiet. Qed.

Lemma execute_begin_error name args m e : execute_begin registry name args m = inl e -> exists t, e = Registry.PlainError t.
Proof.
  unfold execute_begin. destruct (get registry name) as [t|]; [|intros [= <-]; by eexists].
  destruct (validateParameters t args); [intros [= <-]; by eexists|]. destruct m; [intros [= <-]; by eexists|done].
Qed.

(** The tool itself, once it is judged. *)
Lemma run_tool_body_ok c taint seq name args : judged c taint seq name args false ->
  let p := run_tool_body taint seq name args in trace_ok c taint p.1 /\ p.2.1 = foldl taint_after taint p.1.
Proof.
  intros Hj. unfold run_tool_body. destruct (execute_begin registry name args _) as [e|t] eqn:Eb.
  - destruct (execute_begin_error _ _ _ _ Eb) as [m ->]. simpl.
    destruct (quiet_trace c taint _ (audit_run_quiet name args false)) as [? ->]. by split.
  - destruct (body seq name args) as [v|m|m] eqn:Eo; unfold execute_finish; cbn [run_error fst snd trace_ok event_ok foldl taint_after];
      match goal with |- context [trace_ok c ?t (audit_run name args ?b)] =>
        destruct (quiet_trace c t _ (audit_run_quiet name args b)) as [? ->] end; by split.
Qed.

Definition end_taint (e : CallEnd) : option (list string) := match e with call_text t _ => Some t | _ => None end.

Lemma executeTool_ok c disp taint tc seq : ctx = Some c ->
  let p := executeTool disp taint tc seq in
  trace_ok c taint p.1 /\ forall t, end_taint p.2 = Some t -> t = foldl taint_after taint p.1.
Proof.
  intros Hc. unfold executeTool. rewrite Hc. set (name := call_name tc). set (args := args_of tc).
  assert (forall evs text, forallb quiet_event evs = true ->
    trace_ok c taint evs /\ forall t, end_taint (refusal taint text) = Some t -> t = foldl taint_after taint evs) as Hrefuse.
  { intros evs text Hq. destruct (quiet_trace c taint evs Hq) as [? ->]. split; [done|]. by intros t [= <-]. }
  destruct (halted seq) as [s|] eqn:Eh; [by apply Hrefuse|].
  destruct (has registry name) eqn:Ehas; cbn [negb]; [|by apply Hrefuse].
  case_bool_decide as Econf; [apply Hrefuse, audit_row_quiet|].
  destruct (decide c taint seq name args) as [d|] eqn:Ed; [|by split].
  destruct (allowed d) eqn:Ea; cbn [negb]; [|apply Hrefuse, audit_row_quiet].
  assert (judged c taint seq name args (requiresApproval d)) as Hj.
  { split_and!; [done|done|done|]. by exists d. }
  destruct (requiresApproval d) eqn:Er.
  - destruct disp as [g|]; [|apply Hrefuse, audit_row_quiet]. set (call := governed_call c taint tc seq d). cbn [fst snd trace_ok event_ok foldl].
    destruct (quiet_trace c (taint_after taint (SDispatched call (g call))) _ (governed_row_quiet c name args (g call))) as [Ht ->].
    split; [split; [|exact Ht]|].
    + split; [exact Hj|]. by exists d.
    + destruct (g call); cbn; by intros t [= <-].
  - destruct (run_tool_body_ok c taint seq name args Hj) as [H1 H2]. destruct (run_tool_body taint seq name args) as [evs [t' d']].
    cbn in *. split; [done|]. by intros t [= <-].
Qed.

Lemma dispatchCalls_ok c disp calls iteration r : ctx = Some c ->
  let p := dispatchCalls disp calls iteration r in
  trace_ok c (run_taint r) p.1.1 /\ (p.2 = calls_done -> run_taint p.1.2 = foldl taint_after (run_taint r) p.1.1).
Proof.
  intros Hc. revert r. induction calls as [|tc calls IH]; intros r; [done|]. cbn [dispatchCalls].
  destruct (alive (before_call (S (run_sequence r)))); [done|].
  destruct (discovery (run_sequence (noted tc r)) tc) as [text|]; [apply (IH (record tc (text, false) (run_taint (noted tc r)) (noted tc r)))|].
  pose proof (executeTool_ok c disp (run_taint (noted tc r)) tc (run_sequence (noted tc r)) Hc) as He.
  destruct (executeTool disp _ tc _) as [evs [t d|call a|e]]; cbn [fst snd end_taint] in He; destruct He as [He Ht]; [|by split|by split].
  specialize (Ht t eq_refl). pose proof (IH (record tc d t (noted tc r))) as IH'.
  destruct (dispatchCalls disp calls iteration _) as [[evs' r'] e]. cbn [fst snd record run_taint noted] in *. rewrite Ht in IH'.
  destruct IH' as [H1 H2]. rewrite trace_ok_app, foldl_app. split; [by split|done].
Qed.

Lemma turn_over_ok c iteration evs r e k taint : trace_ok c taint evs -> (e = calls_done -> run_taint r = foldl taint_after taint evs) ->
  (forall r, trace_ok c (run_taint r) (k r).1) -> trace_ok c taint (turn_over iteration evs r e k).1.
Proof.
  intros He Ht Hk. unfold turn_over. destruct e as [|p|err]; [|by destruct (alive _)|done].
  destruct (alive (after_turn iteration)); [done|]. specialize (Hk r). destruct (k r) as [evs' res]. cbn [fst] in *.
  apply trace_ok_app. split; [done|]. simpl. rewrite <- (Ht eq_refl). by split.
Qed.

Lemma sub_loop_ok c disp fuel iteration r : ctx = Some c -> trace_ok c (run_taint r) (sub_loop fuel disp iteration r).1.
Proof.
  intros Hc. revert iteration r. induction fuel as [|fuel IH]; intros iteration r; [done|]. cbn [sub_loop].
  destruct (alive (before_ask iteration)); [done|]. destruct (ask (run_messages r)) as [m|a]; [by split|].
  destruct (alive (after_ask iteration)); [by split|]. destruct (ans_tool_use a); [|by split].
  destruct (ans_calls a) as [|tc calls]; [by split|].
  pose proof (dispatchCalls_ok c disp (tc :: calls) iteration (assistant a (asked a r)) Hc) as Hd.
  destruct (dispatchCalls disp (tc :: calls) iteration _) as [[evs r'] e]. cbn [fst snd] in Hd. destruct Hd as [H1 H2].
  apply turn_over_ok; [by split|done|]. intros r2. apply IH.
Qed.

Lemma In_noteTaint x taint name category : In x (noteTaint taint name category) <-> In x taint \/ (x = name /\ isTaintSourceTool name category = true).
Proof. unfold noteTaint. destruct (isTaintSourceTool name category); [rewrite set_add_In|]; intuition congruence. Qed.

Lemma taint_counted c taint evs x : ctx = Some c ->
  In x (foldl taint_read taint evs) <-> In x (foldl taint_after taint evs) \/ exists ev, In ev evs /\ uncounted x ev.
Proof.
  intros Hc. revert evs. apply (rev_ind (fun evs => In x (foldl taint_read taint evs) <-> In x (foldl taint_after taint evs) \/ exists ev, In ev evs /\ uncounted x ev)).
  - simpl. split; [by left|]. intros [H|(ev & [] & _)]; done.
  - intros ev evs IH. rewrite !foldl_app. cbn [foldl]. assert ((exists e, In e (evs ++ [ev]) /\ uncounted x e) <-> (exists e, In e evs /\ uncounted x e) \/ uncounted x ev) as ->.
    { split; [intros (e & [H|[<-|[]]]%in_app_iff & Hu); [left; by exists e|by right]|].
      intros [(e & H & Hu)|Hu]; [exists e|exists ev]; (split; [apply in_app_iff; simpl; tauto|done]). }
    destruct ev as [|seq name args [v|m|m]|call [r|r|r|a|m]| |]; cbn [taint_read taint_after uncounted]; unfold note; rewrite ?Hc, ?In_noteTaint, ?IH; intuition (subst; auto).
Qed.

(** C13: a sub-agent reaches no tool the gate does not let it reach. In a run under a gate, whatever the
    model asks and wherever the run starts, each call of a tool's body was judged with the taint the
    run had noted by then: the system was not halted, the tool exists and needs no confirmation of the
    user, and the combined decision allows it without an approval. A call that needs one goes only to
    the dispatch, with the identity and profile it was judged with, unless it is the call the run
    paused on before. The noted taint is every tool that brought outside content, but for two kinds of
    content the run reads and does not count: what a governed call failed with, and a plain error. *)
Theorem subagent_calls_are_judged c maxIterations disp s l1 ev l2 : ctx = Some c ->
  (runSubAgent maxIterations disp s).1 = l1 ++ ev :: l2 ->
  (event_ok c (foldl taint_after (run_taint (start_run s)) l1) ev \/
   (l1 = [] /\ exists p g, start_pending s = Some p /\ ev = SDispatched (pause_call p) g)) /\
  forall x, In x (foldl taint_read (run_taint (start_run s)) l1) <->
    In x (foldl taint_after (run_taint (start_run s)) l1) \/ exists e, In e l1 /\ uncounted x e.
Proof.
  intros Hc E0. split; [|intros x; by apply (taint_counted c)]. revert E0.
  unfold runSubAgent. destruct (start_pending s) as [p|].
  2: { intros E. left. pose proof (sub_loop_ok c disp (maxIterations - start_iteration s) (start_iteration s) (start_run s) Hc) as H.
       unfold loop_from in E. rewrite E, trace_ok_app in H. simpl in H. tauto. }
  destruct disp as [g|]; [|by destruct l1]. rewrite Hc. destruct (alive (before_resume _)); [by destruct l1|].
  set (call := pause_call p). set (first := SDispatched call (g call)).
  assert (forall evs, trace_ok c (taint_after (run_taint (start_run s)) first) evs -> first :: evs = l1 ++ ev :: l2 ->
    event_ok c (foldl taint_after (run_taint (start_run s)) l1) ev \/
    (l1 = [] /\ exists p' g', Some p = Some p' /\ ev = SDispatched (pause_call p') g')) as Hgo.
  { intros evs Hev E. destruct l1 as [|e1 l1]; injection E as <- E; [right; split; [done|]; by exists p, (g call)|].
    left. simpl. rewrite E, trace_ok_app in Hev. simpl in Hev. tauto. }
  destruct (answered (run_taint (start_run s)) call (g call)) as [t d|call' a|e] eqn:Ea; [|by apply Hgo|by apply Hgo].
  assert (t = taint_after (run_taint (start_run s)) first) as Et
    by (unfold first; destruct (g call); simpl in Ea |- *; congruence).
  pose proof (dispatchCalls_ok c (Some g) (pause_remaining p) (pause_iteration p) (record (gc_call call) d t (start_run s)) Hc) as Hd.
  destruct (dispatchCalls _ _ _ _) as [[evs r] e]. cbn [fst snd record run_taint] in Hd. destruct Hd as [H1 H2]. rewrite Et in H1, H2.
  intros E. unfold turn_over in E. destruct e as [|pe|err]; [|destruct (alive (after_turn _)); by apply (Hgo evs)|by apply (Hgo evs)].
  destruct (alive (after_turn _)); [by apply (Hgo evs)|].
  pose proof (sub_loop_ok c (Some g) (maxIterations - S (pause_iteration p)) (S (pause_iteration p)) r Hc) as Hl.
  unfold loop_from in E. destruct (sub_loop _ _ _ r) as [evs' res]. cbn [fst] in *. apply (Hgo (evs ++ STurn (mkCheckpoint r (S (pause_iteration p))) :: evs')); [|done].
  apply trace_ok_app. split; [done|]. cbn [trace_ok event_ok]. rewrite <- (H2 eq_refl). by split.
Qed.

(** ** A pause is only a delay *)

(** The dispatch that answers as [g1] before position [n] and as [g2] from there on. *)
Definition splice (n : nat) (g1 g2 : GovernedToolDispatch) : GovernedToolDispatch :=
  fun call => if (gc_sequence call <? n)%nat then g1 call else g2 call.

Lemma splice_before n g1 g2 call : (gc_sequence call < n)%nat -> splice n g1 g2 call = g1 call.
Proof. unfold splice. intros H%Nat.ltb_lt. by rewrite H. Qed.

Lemma splice_after n g1 g2 call : (n <= gc_sequence call)%nat -> splice n g1 g2 call = g2 call.
Proof. unfold splice. intros H%Nat.ltb_ge. by rewrite H. Qed.

(** A call asks the dispatch about its own position only. *)
Lemma executeTool_agree g g' taint tc seq : (forall call, gc_sequence call = seq -> g call = g' call) ->
  executeTool (Some g) taint tc seq = executeTool (Some g') taint tc seq.
Proof.
  intros H. unfold executeTool. destruct ctx as [c|]; [|done]. destruct (halted seq); [done|].
  destruct (negb _); [done|]. case_bool_decide; [done|]. destruct (decide c taint seq _ _) as [d|]; [|done].
  by rewrite (H (governed_call c taint tc seq d)).
Qed.

Lemma executeTool_pause g taint tc seq evs call a : executeTool (Some g) taint tc seq = (evs, call_paused call a) ->
  gc_sequence call = seq /\ gc_call call = tc /\
  forall g2, (executeTool (Some g2) taint tc seq).2 = answered taint call (g2 call).
Proof.
  unfold executeTool. destruct ctx as [c|]; [|unfold body_end; intros [=]]. destruct (halted seq); [unfold refusal; intros [=]|].
  destruct (negb _); [intros [=]|]. case_bool_decide; [intros [=]|]. destruct (decide c taint seq _ _) as [d|]; [|intros [=]].
  destruct (negb (allowed d)); [intros [=]|]. destruct (requiresApproval d); [|unfold body_end; intros [=]].
  set (call0 := governed_call c taint tc seq d). destruct (g call0) eqn:Eg; intros [=]; subst; by split_and!.
Qed.

Lemma dispatchCalls_agree g g' calls iteration r :
  (forall call, (run_sequence r < gc_sequence call <= run_sequence r + length calls)%nat -> g call = g' call) ->
  dispatchCalls (Some g) calls iteration r = dispatchCalls (Some g') calls iteration r.
Proof.
  revert r. induction calls as [|tc calls IH]; intros r H; [done|]. cbn [dispatchCalls length] in *.
  destruct (alive _); [done|]. destruct (discovery _ tc) as [text|]; [apply IH; cbn; intros; apply H; lia|].
  rewrite (executeTool_agree g g') by (cbn; intros; apply H; lia).
  destruct (executeTool (Some g') _ tc _) as [evs [t d| |]]; try done. rewrite IH; [done|]. cbn. intros. apply H. lia.
Qed.

Lemma dispatchCalls_sequence disp calls iteration r : (dispatchCalls disp calls iteration r).2 = calls_done ->
  run_sequence (dispatchCalls disp calls iteration r).1.2 = (run_sequence r + length calls)%nat.
Proof.
  revert r. induction calls as [|tc calls IH]; intros r; [simpl; lia|]. cbn [dispatchCalls length].
  destruct (alive _); [done|]. destruct (discovery _ tc) as [text|]; [intros H; rewrite (IH _ H); simpl; lia|].
  destruct (executeTool disp _ tc _) as [evs [t d| |]]; try done. specialize (IH (record tc d t (noted tc r))).
  destruct (dispatchCalls disp calls iteration _) as [[evs' r'] e]. cbn in *. intros H. rewrite (IH H). lia.
Qed.

Lemma turn_over_result iteration evs evs' r e k k' : (forall r, (k r).2 = (k' r).2) ->
  (turn_over iteration evs r e k).2 = (turn_over iteration evs' r e k').2.
Proof.
  intros Hk. unfold turn_over. specialize (Hk r). destruct e; try done; destruct (alive _); try done.
  destruct (k r), (k' r). done.
Qed.

Lemma sub_loop_agree fuel g g' iteration r : (forall call, (run_sequence r < gc_sequence call)%nat -> g call = g' call) ->
  sub_loop fuel (Some g) iteration r = sub_loop fuel (Some g') iteration r.
Proof.
  revert iteration r. induction fuel as [|fuel IH]; intros iteration r H; [done|]. cbn [sub_loop].
  destruct (alive _); [done|]. destruct (ask _) as [m|a]; [done|]. destruct (alive _); [done|]. destruct (ans_tool_use a); [|done].
  destruct (ans_calls a) as [|tc calls]; [done|]. set (r0 := assistant a (asked a r)).
  rewrite (dispatchCalls_agree g g') by (cbn; intros; apply H; lia).
  pose proof (dispatchCalls_sequence (Some g') (tc :: calls) iteration r0) as Hseq.
  destruct (dispatchCalls (Some g') (tc :: calls) iteration r0) as [[evs r1] e]. cbn [fst snd] in Hseq.
  unfold turn_over. destruct e; [|done|done]. destruct (alive _); [done|]. rewrite IH; [done|].
  rewrite (Hseq eq_refl). intros call Hc. apply H. unfold r0 in Hc. simpl in Hc. lia.
Qed.

(** The rest of the turn the run paused in, once the dispatch answers. *)
Definition rest_of_turn (g : GovernedToolDispatch) (p : SubAgentPause) (r : SubRun) : SubRun * CallsEnd :=
  match answered (run_taint r) (pause_call p) (g (pause_call p)) with
  | call_failed e => (r, calls_failed e)
  | call_paused _ a => (r, calls_paused (mkPause (pause_call p) a (pause_remaining p) (pause_iteration p)))
  | call_text taint d =>
      let '(_, r, e) := dispatchCalls (Some g) (pause_remaining p) (pause_iteration p) (record (gc_call (pause_call p)) d taint r) in
      (r, e)
  end.

Definition turn_end (x : list SubEvent * SubRun * CallsEnd) : SubRun * CallsEnd := (x.1.2, x.2).

Lemma turn_end_cons evs x : turn_end (let '(evs', r, e) := x in (evs ++ evs', r, e)) = turn_end x.
Proof. by destruct x as [[q1 q2] q3]. Qed.

Lemma turn_end_of x : (let '(_, r, e) := x in (r, e)) = turn_end x.
Proof. by destruct x as [[q1 q2] q3]. Qed.

Lemma dispatchCalls_pause g1 calls iteration r evs r1 p : dispatchCalls (Some g1) calls iteration r = (evs, r1, calls_paused p) ->
  let n := gc_sequence (pause_call p) in
  (run_sequence r < n)%nat /\ run_sequence r1 = n /\ pause_iteration p = iteration /\
  forall g2, turn_end (dispatchCalls (Some (splice n g1 g2)) calls iteration r) = rest_of_turn g2 p r1.
Proof.
  revert r evs. induction calls as [|tc calls IH]; intros r evs; [done|]. cbn [dispatchCalls].
  destruct (alive _) eqn:Ea; [done|]. destruct (discovery _ tc) as [text|] eqn:Ed.
  { intros E. destruct (IH _ _ E) as (H1 & H2 & H3 & H4). cbn in H1. split_and!; [lia|done|done|]. intros g2. apply H4. }
  destruct (executeTool (Some g1) (run_taint (noted tc r)) tc (run_sequence (noted tc r))) as [evs1 [t d|call a|e]] eqn:Ee; [| |intros [=]].
  - destruct (dispatchCalls (Some g1) calls iteration _) as [[evs' r'] e] eqn:El. intros [= <- -> ->].
    destruct (IH _ _ El) as (H1 & H2 & H3 & H4). cbn in H1. split_and!; [lia|done|done|]. intros g2.
    assert (executeTool (Some (splice (gc_sequence (pause_call p)) g1 g2)) (run_taint (noted tc r)) tc (run_sequence (noted tc r))
            = (evs1, call_text t d)) as ->
      by (rewrite <- Ee; apply executeTool_agree; intros call Hc; apply splice_before; rewrite Hc; simpl; lia).
    rewrite <- H4. apply turn_end_cons.
  - destruct (executeTool_pause _ _ _ _ _ _ _ Ee) as (Hseq & Htc & Hans). intros [= <- <- <-]. cbn [pause_call pause_iteration].
    cbn [run_sequence noted] in Hseq. split_and!; [lia|done|done|]. intros g2. unfold rest_of_turn. cbn [pause_call pause_remaining pause_iteration].
    pose proof (Hans (splice (gc_sequence call) g1 g2)) as Hr. rewrite splice_after in Hr by done.
    destruct (executeTool (Some (splice (gc_sequence call) g1 g2)) (run_taint (noted tc r)) tc (run_sequence (noted tc r))) as [evs2 e2].
    cbn [snd] in Hr. subst e2. rewrite Htc. destruct (answered (run_taint (noted tc r)) call (g2 call)) as [t d|call' a'|e] eqn:Eans.
    + rewrite (dispatchCalls_agree _ g2) by (cbn; intros; apply splice_after; lia).
      etransitivity; [apply turn_end_cons|symmetry; apply turn_end_of].
    + assert (call' = call) as -> by (destruct (g2 call); simpl in Eans; congruence). done.
    + done.
Qed.

(** *** The list of tools used

    It is only appended to, and a result drops its repetitions, so a run started again from the
    shorter list gives the same results. *)

Lemma filter_and {A} (p q : A -> bool) l : List.filter p (List.filter q l) = List.filter (fun x => q x && p x) l.
Proof. induction l as [|x l IH]; [done|]. simpl. destruct (q x); simpl; [|done]. by destruct (p x); rewrite IH. Qed.

Lemma dedup_app {A} `{EqDecision A} (a b : list A) : dedup (a ++ b) = dedup a ++ List.filter (fun y => negb (includes y a)) (dedup b).
Proof.
  induction a as [|x a IH]; simpl; [symmetry; by apply List.filter_true|]. f_equal. rewrite IH, List.filter_app. f_equal.
  rewrite filter_and. apply List.filter_ext. intros y. simpl. rewrite negb_orb, andb_comm.
  by rewrite (bool_decide_ext (x = y) (y = x)) by done.
Qed.

Lemma dedup_app_l {A} `{EqDecision A} (a a' b : list A) : dedup a = dedup a' -> dedup (a ++ b) = dedup (a' ++ b).
Proof.
  intros E. rewrite !dedup_app, E. f_equal. apply List.filter_ext. intros y. f_equal. apply eq_true_iff_eq.
  by rewrite !includes_In, <- dedup_In, E, dedup_In.
Qed.

Lemma dedup_idem {A} `{EqDecision A} (a : list A) : dedup (dedup a) = dedup a.
Proof.
  assert (forall l : list A, List.NoDup l -> dedup l = l) as H by
    (induction 1 as [|x l Hn Hd IH]; [done|]; simpl; rewrite IH; f_equal; apply List.forallb_filter_id, forallb_forall; intros y Hy;
     apply negb_true_iff, bool_decide_eq_false; by intros ->).
  apply H, dedup_NoDup.
Qed.

Lemma dispatchCalls_tools disp calls iteration r l : dedup (run_toolsUsed r) = dedup l ->
  let '(evs, r1, e) := dispatchCalls disp calls iteration r in
  exists l1, dedup (run_toolsUsed r1) = dedup l1 /\ dispatchCalls disp calls iteration (with_tools l r) = (evs, with_tools l1 r1, e).
Proof.
  revert r l. induction calls as [|tc calls IH]; intros r l Hl; [by exists l|]. cbn [dispatchCalls].
  change (run_sequence (with_tools l r)) with (run_sequence r). destruct (alive _); [by exists l|].
  change (noted tc (with_tools l r)) with (with_tools (l ++ [call_name tc]) (noted tc r)).
  assert (dedup (run_toolsUsed (noted tc r)) = dedup (l ++ [call_name tc])) as Hl' by (simpl; by apply dedup_app_l).
  cbn [run_sequence run_taint with_tools]. destruct (discovery _ tc) as [text|].
  { exact (IH (record tc (text, false) (run_taint (noted tc r)) (noted tc r)) _ Hl'). }
  destruct (executeTool disp _ tc _) as [evs [t d|call a|e]]; [|by eexists|by eexists].
  pose proof (IH (record tc d t (noted tc r)) _ Hl') as IH'.
  change (record tc d t (with_tools (l ++ [call_name tc]) (noted tc r))) with (with_tools (l ++ [call_name tc]) (record tc d t (noted tc r))).
  destruct (dispatchCalls disp calls iteration (record tc d t (noted tc r))) as [[evs' r'] e].
  destruct IH' as (l1 & H1 & ->). by exists l1.
Qed.

Lemma finish_tools r l e : dedup (run_toolsUsed r) = dedup l -> finish (with_tools l r) e = finish r e.
Proof. intros H. unfold finish. simpl. by rewrite H. Qed.

Lemma turn_over_tools iteration evs evs' r l e k : dedup (run_toolsUsed r) = dedup l ->
  (k (with_tools l r)).2 = (k r).2 -> (turn_over iteration evs (with_tools l r) e k).2 = (turn_over iteration evs' r e k).2.
Proof.
  intros H Hk. unfold turn_over. destruct e; try (simpl; by rewrite finish_tools);
    (destruct (alive _); [simpl; by rewrite finish_tools|]); [|simpl; by rewrite finish_tools].
  destruct (k (with_tools l r)), (k r). done.
Qed.

Lemma sub_loop_tools fuel disp iteration r l : dedup (run_toolsUsed r) = dedup l ->
  (sub_loop fuel disp iteration (with_tools l r)).2 = (sub_loop fuel disp iteration r).2.
Proof.
  revert iteration r l. induction fuel as [|fuel IH]; intros iteration r l H; [by apply finish_tools|]. cbn [sub_loop].
  change (run_messages (with_tools l r)) with (run_messages r).
  destruct (alive _); [by apply finish_tools|]. destruct (ask _) as [m|a]; [by apply finish_tools|].
  destruct (alive _); [by apply finish_tools|]. change (asked a (with_tools l r)) with (with_tools l (asked a r)).
  destruct (ans_tool_use a); [|by apply finish_tools]. destruct (ans_calls a) as [|tc calls]; [by apply finish_tools|].
  change (assistant a (with_tools l (asked a r))) with (with_tools l (assistant a (asked a r))).
  pose proof (dispatchCalls_tools disp (tc :: calls) iteration (assistant a (asked a r)) l H) as Hd.
  destruct (dispatchCalls disp (tc :: calls) iteration (assistant a (asked a r))) as [[evs r1] e].
  destruct Hd as (l1 & Hl1 & ->). apply turn_over_tools; [done|]. by apply IH.
Qed.

(** *** The run that pauses *)

(** The state of the run is what the caller keeps, but for repetitions in the list of tools. *)
Lemma resumed_tools maxIterations g p r l i : dedup (run_toolsUsed r) = dedup l ->
  (runSubAgent maxIterations (Some g) (mkStart (with_tools l r) i (Some p))).2 =
  (runSubAgent maxIterations (Some g) (mkStart r i (Some p))).2.
Proof.
  intros H. unfold runSubAgent. cbn [start_pending start_run]. destruct ctx as [c|]; [|by apply finish_tools].
  destruct (alive _); [by apply finish_tools|]. change (run_taint (with_tools l r)) with (run_taint r).
  destruct (answered _ _ _) as [t d|call a|e]; [|by apply finish_tools|by apply finish_tools].
  change (record (gc_call (pause_call p)) d t (with_tools l r)) with (with_tools l (record (gc_call (pause_call p)) d t r)).
  pose proof (dispatchCalls_tools (Some g) (pause_remaining p) (pause_iteration p) (record (gc_call (pause_call p)) d t r) l H) as Hd.
  destruct (dispatchCalls (Some g) _ _ (record _ d t r)) as [[evs r1] e]. destruct Hd as (l1 & Hl1 & ->).
  apply turn_over_tools; [done|]. by apply sub_loop_tools.
Qed.

(** A pause starts the rest of its turn. *)
Lemma resumed_turn maxIterations g p r i : ctx <> None -> alive (before_resume (gc_sequence (pause_call p))) = None ->
  alive (after_turn (pause_iteration p)) = None ->
  (runSubAgent maxIterations (Some g) (mkStart r i (Some p))).2 =
  (turn_over (pause_iteration p) [] (rest_of_turn g p r).1 (rest_of_turn g p r).2
     (loop_from maxIterations (Some g) (S (pause_iteration p)))).2.
Proof.
  intros Hc Ha Hat. unfold runSubAgent, rest_of_turn. cbn [start_pending start_run]. destruct ctx as [c|]; [|done]. rewrite Ha.
  destruct (answered _ _ _) as [t d|call a|e]; [|unfold turn_over; cbn; by rewrite Hat|done].
  destruct (dispatchCalls (Some g) _ _ _) as [[evs r1] e]. by apply turn_over_result.
Qed.

Lemma turn_over_paused iteration evs r e k p : res_end (turn_over iteration evs r e k).2 = ended_paused p ->
  (e = calls_paused p /\ alive (after_turn iteration) = None) \/
  (e = calls_done /\ alive (after_turn iteration) = None /\ (turn_over iteration evs r e k).2 = (k r).2).
Proof.
  unfold turn_over. destruct e as [|p'|err]; [|destruct (alive _); [done|intros [= <-]; by left]|done].
  destruct (alive _); [done|]. destruct (k r) as [evs' res]. by right.
Qed.

(** The turn of the spliced run, as the rest of the turn that paused. *)
Lemma spliced_turn maxIterations g1 g2 calls iteration r evs r1 p k : ctx <> None ->
  dispatchCalls (Some g1) calls iteration r = (evs, r1, calls_paused p) -> alive (after_turn iteration) = None ->
  let n := gc_sequence (pause_call p) in
  alive (before_resume n) = None ->
  (forall r', (n <= run_sequence r')%nat -> (k r').2 = (loop_from maxIterations (Some g2) (S iteration) r').2) ->
  (let '(evs, r', e) := dispatchCalls (Some (splice n g1 g2)) calls iteration r in turn_over iteration evs r' e k).2 =
  (runSubAgent maxIterations (Some g2) (mkStart r1 (pause_iteration p) (Some p))).2.
Proof.
  intros Hc Hd Hat n Hres Hk. destruct (dispatchCalls_pause g1 calls iteration r evs r1 p Hd) as (H1 & H2 & H3 & H4).
  rewrite resumed_turn by (done || by rewrite H3). rewrite H3. specialize (H4 g2). fold n in H4.
  assert (forall e', (rest_of_turn g2 p r1).2 = e' -> e' = calls_done -> (n <= run_sequence (rest_of_turn g2 p r1).1)%nat) as Hseq.
  { intros e' <-. unfold rest_of_turn. destruct (answered _ _ _) as [t d|call a|e]; [|done|done].
    pose proof (dispatchCalls_sequence (Some g2) (pause_remaining p) (pause_iteration p) (record (gc_call (pause_call p)) d t r1)) as Hs.
    destruct (dispatchCalls (Some g2) _ _ _) as [[evs2 r2] e2]. cbn [fst snd] in *. intros ->. rewrite (Hs eq_refl). simpl. lia. }
  destruct (dispatchCalls (Some (splice n g1 g2)) calls iteration r) as [[evs2 r2] e2]. unfold turn_end in H4. cbn [fst snd] in H4.
  rewrite <- H4 in Hseq |- *. cbn [fst snd] in *. unfold turn_over. destruct e2; try done; destruct (alive _); try done.
  specialize (Hk r2 (Hseq _ eq_refl eq_refl)). destruct (k r2), (loop_from _ _ _ r2). done.
Qed.

Lemma loop_pause maxIterations g1 g2 fuel iteration r p : ctx <> None -> fuel = (maxIterations - iteration)%nat ->
  res_end (sub_loop fuel (Some g1) iteration r).2 = ended_paused p ->
  let n := gc_sequence (pause_call p) in
  alive (before_resume n) = None ->
  exists r1, (sub_loop fuel (Some g1) iteration r).2 = finish r1 (ended_paused p) /\ (run_sequence r < n)%nat /\
    (sub_loop fuel (Some (splice n g1 g2)) iteration r).2 =
    (runSubAgent maxIterations (Some g2) (mkStart r1 (pause_iteration p) (Some p))).2.
Proof.
  intros Hc. revert iteration r. induction fuel as [|fuel IH]; intros iteration r Hf; [done|]. cbn [sub_loop].
  destruct (alive (before_ask iteration)); [done|]. destruct (ask _) as [m|a]; [done|]. destruct (alive (after_ask iteration)); [done|].
  destruct (ans_tool_use a); [|done]. destruct (ans_calls a) as [|tc calls]; [done|]. set (asking := SAsked (run_messages r)).
  set (r0 := assistant a (asked a r)). assert (run_sequence r0 = run_sequence r) as Hr0 by done.
  destruct (dispatchCalls (Some g1) (tc :: calls) iteration r0) as [[evs r1] e] eqn:Ed. intros He Hres. set (n := gc_sequence (pause_call p)) in *.
  destruct (turn_over_paused _ _ _ _ _ _ He) as [[-> Hat]|(-> & Hat & Ek)].
  - exists r1. destruct (dispatchCalls_pause g1 _ _ _ _ _ _ Ed) as (H1 & _). split_and!; [unfold turn_over; by rewrite Hat|by rewrite <- Hr0|].
    rewrite <- (spliced_turn maxIterations g1 g2 (tc :: calls) iteration r0 evs r1 p (sub_loop fuel (Some (splice n g1 g2)) (S iteration)) Hc Ed Hat Hres).
    + fold n. destruct (dispatchCalls (Some (splice n g1 g2)) (tc :: calls) iteration r0) as [[evs2 r2] e2]. by apply turn_over_result.
    + intros r' Hr'. rewrite (sub_loop_agree fuel _ g2) by (intros; apply splice_after; fold n in Hr'; lia). unfold loop_from.
      by replace (maxIterations - S iteration)%nat with fuel by lia.
  - rewrite Ek in He |- *. pose proof (dispatchCalls_sequence (Some g1) (tc :: calls) iteration r0) as Hseq.
    rewrite Ed in Hseq. specialize (Hseq eq_refl). cbn [fst snd] in Hseq.
    destruct (IH (S iteration) r1 ltac:(lia) He Hres) as (r2 & E2 & Hlt & Es). exists r2. fold n in Hlt, Es. split_and!; [done|lia|].
    assert (dispatchCalls (Some (splice n g1 g2)) (tc :: calls) iteration r0 = (evs, r1, calls_done)) as ->
      by (rewrite <- Ed; apply dispatchCalls_agree; intros; apply splice_before; lia). rewrite <- Es.
    unfold turn_over. rewrite Hat. by destruct (sub_loop fuel (Some (splice n g1 g2)) (S iteration) r1).
Qed.

Lemma run_pending maxIterations g q r i : ctx <> None ->
  (runSubAgent maxIterations (Some g) (mkStart r i (Some q))).2 =
  match alive (before_resume (gc_sequence (pause_call q))) with
  | Some m => finish r (ended_error (canceled_error m))
  | None =>
      match answered (run_taint r) (pause_call q) (g (pause_call q)) with
      | call_failed e => finish r (ended_error e)
      | call_paused _ a => finish r (ended_paused (mkPause (pause_call q) a (pause_remaining q) (pause_iteration q)))
      | call_text t d =>
          (let '(evs, r1, e) := dispatchCalls (Some g) (pause_remaining q) (pause_iteration q) (record (gc_call (pause_call q)) d t r) in
           turn_over (pause_iteration q) evs r1 e (loop_from maxIterations (Some g) (S (pause_iteration q)))).2
      end
  end.
Proof.
  intros Hc. unfold runSubAgent. cbn [start_pending start_run]. destruct ctx; [|done]. destruct (alive _); [done|].
  destruct (answered _ _ _); try done. destruct (dispatchCalls _ _ _ _) as [[evs r1] e]. by apply turn_over_result.
Qed.

(** A run that starts from a pause and pauses again, on the same call or on a later one. *)
Lemma resumed_pause maxIterations g1 g2 q r i p : ctx <> None -> (gc_sequence (pause_call q) <= run_sequence r)%nat ->
  res_end (runSubAgent maxIterations (Some g1) (mkStart r i (Some q))).2 = ended_paused p ->
  let n := gc_sequence (pause_call p) in
  alive (before_resume n) = None ->
  exists r1, (runSubAgent maxIterations (Some g1) (mkStart r i (Some q))).2 = finish r1 (ended_paused p) /\
    (runSubAgent maxIterations (Some (splice n g1 g2)) (mkStart r i (Some q))).2 =
    (runSubAgent maxIterations (Some g2) (mkStart r1 (pause_iteration p) (Some p))).2.
Proof.
  intros Hc Hq He n Hres. rewrite run_pending in He |- * by done. rewrite (run_pending _ (splice n g1 g2)) by done.
  set (call := pause_call q) in *. destruct (alive (before_resume (gc_sequence call))) eqn:Ea; [done|].
  destruct (answered (run_taint r) call (g1 call)) as [t d|call' a|e] eqn:Eans; [| |done].
  - set (r0 := record (gc_call call) d t r) in *. set (it := pause_iteration q) in *.
    destruct (dispatchCalls (Some g1) (pause_remaining q) it r0) as [[evs r1] e] eqn:Ed.
    destruct (turn_over_paused _ _ _ _ _ _ He) as [[-> Hat]|(-> & Hat & Ek)].
    + destruct (dispatchCalls_pause g1 _ _ _ _ _ _ Ed) as (H1 & _). fold n in H1. change (run_sequence r0) with (run_sequence r) in H1.
      exists r1. split; [unfold turn_over; by rewrite Hat|]. rewrite splice_before, Eans by lia. fold r0.
      apply (spliced_turn maxIterations g1 g2 (pause_remaining q) it r0 evs r1 p); [done|done|done|done|].
      intros r' Hr'. fold n in Hr'. unfold loop_from. f_equal. apply sub_loop_agree. intros. apply splice_after. lia.
    + rewrite Ek in He |- *. unfold loop_from in He |- *.
      destruct (loop_pause maxIterations g1 g2 _ (S it) r1 p Hc eq_refl He Hres) as (r2 & E2 & Hlt & Es). fold n in Hlt, Es.
      pose proof (dispatchCalls_sequence (Some g1) (pause_remaining q) it r0) as Hseq. rewrite Ed in Hseq. specialize (Hseq eq_refl).
      cbn [fst snd] in Hseq. change (run_sequence r0) with (run_sequence r) in Hseq.
      exists r2. split; [done|]. rewrite splice_before, Eans by lia. fold r0.
      assert (dispatchCalls (Some (splice n g1 g2)) (pause_remaining q) it r0 = (evs, r1, calls_done)) as ->.
      { rewrite <- Ed. apply dispatchCalls_agree. change (run_sequence r0) with (run_sequence r). intros. apply splice_before. lia. }
      rewrite <- Es. unfold turn_over. rewrite Hat. by destruct (sub_loop _ (Some (splice n g1 g2)) (S it) r1).
  - assert (call' = call) as -> by (destruct (g1 call); simpl in Eans; congruence). simpl in He. injection He as <-.
    exists r. split; [done|]. subst n. cbn [pause_call] in *. rewrite run_pending by done. cbn [pause_call pause_remaining pause_iteration]. rewrite Ea.
    rewrite splice_after by done. destruct (answered (run_taint r) call (g2 call)) as [t d| |]; [|done|done].
    set (r0 := record (gc_call call) d t r). set (n := gc_sequence call) in *.
    rewrite (dispatchCalls_agree (splice n g1 g2) g2) by (intros; apply splice_after; simpl in *; lia).
    pose proof (dispatchCalls_sequence (Some g2) (pause_remaining q) (pause_iteration q) r0) as Hseq.
    match goal with |- (match ?x with _ => _ end).2 = (match ?y with _ => _ end).2 => change x with y end.
    destruct (dispatchCalls (Some g2) _ _ r0) as [[evs r1] e]. cbn [fst snd] in Hseq. unfold turn_over. destruct e; [|done|done].
    destruct (alive _); [done|]. unfold loop_from. specialize (Hseq eq_refl).
    rewrite (sub_loop_agree _ (splice n g1 g2) g2) by (intros; apply splice_after; simpl in *; lia). done.
Qed.

(** When a run pauses on a call, starting it again from what its result says, with a dispatch that
    now answers, gives the result the run would have had, had the dispatch answered so at once. The
    run may itself have started from a pause. *)
Lemma pause_is_a_delay maxIterations g1 g2 s p : ctx <> None ->
  (forall q, start_pending s = Some q -> (gc_sequence (pause_call q) <= run_sequence (start_run s))%nat) ->
  let res := (runSubAgent maxIterations (Some g1) s).2 in
  let n := gc_sequence (pause_call p) in
  res_end res = ended_paused p -> alive (before_resume n) = None ->
  (runSubAgent maxIterations (Some g2) (resume_of res p)).2 = (runSubAgent maxIterations (Some (splice n g1 g2)) s).2.
Proof.
  intros Hc Hseq res n He Hres.
  assert (exists r1, res = finish r1 (ended_paused p) /\ (runSubAgent maxIterations (Some (splice n g1 g2)) s).2 =
    (runSubAgent maxIterations (Some g2) (mkStart r1 (pause_iteration p) (Some p))).2) as (r1 & -> & ->).
  { subst res. destruct s as [r i [q|]].
    - by apply (resumed_pause maxIterations g1 g2 q r i p Hc (Hseq q eq_refl) He Hres).
    - destruct (loop_pause maxIterations g1 g2 _ i r p Hc eq_refl He Hres) as (r1 & E & _ & Es). by exists r1. }
  unfold resume_of, finish. cbn [res_run]. apply resumed_tools. by rewrite dedup_idem.
Qed.

(** ** Checkpoints *)

Definition is_turn (ev : SubEvent) : bool := match ev with STurn _ => true | _ => false end.

Lemma executeTool_turns disp taint tc seq : List.Forall (fun ev => is_turn ev = false) (executeTool disp taint tc seq).1.
Proof.
  assert (forall c name args d ran a, List.Forall (fun ev => is_turn ev = false) (audit_row c name args d ran a)) as Ha
    by (intros; unfold audit_row; destruct (sc_audited _); repeat constructor).
  assert (forall name args ran, List.Forall (fun ev => is_turn ev = false) (audit_run name args ran)) as Hr
    by (intros; unfold audit_run; destruct ctx; [apply Ha|constructor]).
  assert (forall taint seq name args, List.Forall (fun ev => is_turn ev = false) (run_tool_body taint seq name args).1) as Hb
    by (intros; unfold run_tool_body; destruct (execute_begin _ _ _ _); [apply Hr|]; destruct (execute_finish _ _); constructor; [done|apply Hr|done|apply Hr]).
  unfold executeTool. destruct ctx as [c|]; [|apply Hb]. destruct (halted seq); [constructor|]. destruct (negb _); [constructor|].
  case_bool_decide; [apply Ha|]. destruct (decide c taint seq _ _) as [d|]; [|constructor]. destruct (negb (allowed d)); [apply Ha|].
  destruct (requiresApproval d); [|apply Hb]. destruct disp as [g|]; [|apply Ha]. constructor; [done|]. destruct (g _); apply Ha.
Qed.

Lemma dispatchCalls_turns disp calls iteration r : List.Forall (fun ev => is_turn ev = false) (dispatchCalls disp calls iteration r).1.1.
Proof.
  revert r. induction calls as [|tc calls IH]; intros r; [constructor|]. cbn [dispatchCalls]. destruct (alive _); [constructor|].
  destruct (discovery _ tc); [apply IH|]. pose proof (executeTool_turns disp (run_taint (noted tc r)) tc (run_sequence (noted tc r))) as He.
  destruct (executeTool disp _ tc _) as [evs [t d| |]]; try done. specialize (IH (record tc d t (noted tc r))).
  destruct (dispatchCalls disp calls iteration _) as [[evs' r'] e]. by apply Forall_app.
Qed.

Lemma no_turn_split evs rest l1 cp l2 : List.Forall (fun ev => is_turn ev = false) evs -> evs ++ rest = l1 ++ STurn cp :: l2 ->
  exists l1', rest = l1' ++ STurn cp :: l2.
Proof.
  intros H. revert l1. induction H as [|ev evs He Hl IH]; intros l1 E; [by exists l1|].
  destruct l1 as [|x l1]; injection E as -> E; [done|]. by apply (IH l1).
Qed.

Lemma turn_checkpoint maxIterations disp iteration evs r e l1 cp l2 :
  (forall r l1, (loop_from maxIterations disp (S iteration) r).1 = l1 ++ STurn cp :: l2 ->
    loop_from maxIterations disp (cp_iteration cp) (cp_run cp) = (l2, (loop_from maxIterations disp (S iteration) r).2)) ->
  List.Forall (fun ev => is_turn ev = false) evs ->
  (turn_over iteration evs r e (loop_from maxIterations disp (S iteration))).1 = l1 ++ STurn cp :: l2 ->
  loop_from maxIterations disp (cp_iteration cp) (cp_run cp) =
  (l2, (turn_over iteration evs r e (loop_from maxIterations disp (S iteration))).2).
Proof.
  intros Hk Hevs. assert (forall l1, evs <> l1 ++ STurn cp :: l2) as Hn.
  { intros l0 E. rewrite <- (app_nil_r evs) in E. apply no_turn_split in E as [[|? ?] E]; done. }
  unfold turn_over. specialize (Hk r). destruct e; [|destruct (alive _); simpl; intros E; by destruct (Hn l1)|simpl; intros E; by destruct (Hn l1)].
  destruct (alive _); [simpl; intros E; by destruct (Hn l1)|].
  destruct (loop_from maxIterations disp (S iteration) r) as [evs' res] eqn:El. cbn [fst snd] in *.
  intros E. apply no_turn_split in E as [[|x l3] E]; [| |done].
  - injection E as <- <-. done.
  - injection E as _ E. by apply (Hk l3).
Qed.

Lemma loop_checkpoint maxIterations disp iteration r l1 cp l2 :
  (loop_from maxIterations disp iteration r).1 = l1 ++ STurn cp :: l2 ->
  loop_from maxIterations disp (cp_iteration cp) (cp_run cp) = (l2, (loop_from maxIterations disp iteration r).2).
Proof.
  remember (maxIterations - iteration)%nat as fuel eqn:Hf. revert iteration r l1 Hf.
  induction fuel as [|fuel IH]; intros iteration r l1 Hf; unfold loop_from at 1 3; rewrite <- Hf; [by destruct l1|].
  assert (loop_from maxIterations disp (S iteration) = sub_loop fuel disp (S iteration)) as Hl
    by (unfold loop_from; by replace (maxIterations - S iteration)%nat with fuel by lia).
  cbn [sub_loop]. destruct (alive _); [by destruct l1|].
  assert (forall ev, is_turn ev = false -> [ev] <> l1 ++ STurn cp :: l2) as Hone by (intros ev He; destruct l1 as [|x [|? ?]]; intros [=]; subst; done).
  destruct (ask _) as [m|a]; [intros E; by apply Hone in E|]. destruct (alive _); [intros E; by apply Hone in E|].
  destruct (ans_tool_use a); [|intros E; by apply Hone in E]. destruct (ans_calls a) as [|tc calls]; [intros E; by apply Hone in E|].
  pose proof (dispatchCalls_turns disp (tc :: calls) iteration (assistant a (asked a r))) as Ht.
  destruct (dispatchCalls disp (tc :: calls) iteration _) as [[evs r1] e]. rewrite <- Hl. apply turn_checkpoint; [|by constructor].
  intros r2 l3. apply IH. lia.
Qed.

(** A run started from the state it saved after any of its turns does what the run itself does after
    that turn, and has its result. *)
Lemma run_checkpoint maxIterations disp s l1 cp l2 : (runSubAgent maxIterations disp s).1 = l1 ++ STurn cp :: l2 ->
  runSubAgent maxIterations disp (mkStart (cp_run cp) (cp_iteration cp) None) = (l2, (runSubAgent maxIterations disp s).2).
Proof.
  unfold runSubAgent at 2. cbn [start_pending start_run start_iteration]. unfold runSubAgent.
  destruct (start_pending s) as [p|]; [|apply loop_checkpoint]. destruct disp as [g|]; [|by destruct l1].
  destruct ctx as [c|]; [|by destruct l1]. destruct (alive _); [by destruct l1|].
  destruct (answered _ _ _) as [t d| |]; [|by destruct l1 as [|? [|? ?]]|by destruct l1 as [|? [|? ?]]].
  pose proof (dispatchCalls_turns (Some g) (pause_remaining p) (pause_iteration p) (record (gc_call (pause_call p)) d t (start_run s))) as Ht.
  destruct (dispatchCalls (Some g) _ _ _) as [[evs r] e]. apply turn_checkpoint; [|by constructor].
  intros r2 l3. apply loop_checkpoint.
Qed.

(** *** What a paused run says *)

Lemma executeTool_paused disp taint tc seq evs call a : executeTool disp taint tc seq = (evs, call_paused call a) ->
  exists g, disp = Some g /\ ctx <> None /\ g call = g_paused a.
Proof.
  assert (forall p, (body_end p).2 <> call_paused call a) as Hb by done. intros E.
  assert ((executeTool disp taint tc seq).2 = call_paused call a) as H by (by rewrite E). clear E. revert H. unfold executeTool.
  destruct ctx as [c|]; [|intros H; by destruct (Hb _ H)]. destruct (halted seq); [done|]. destruct (negb _); [done|].
  case_bool_decide; [done|]. destruct (decide c taint seq _ _) as [d|]; [|done]. destruct (negb (allowed d)); [done|].
  destruct (requiresApproval d); [|intros H0; by destruct (Hb _ H0)]. destruct disp as [g|]; [|done]. cbn [snd]. intros H0. exists g.
  split_and!; [done|done|]. destruct (g (governed_call c taint tc seq d)) eqn:Eg; simpl in H0; congruence.
Qed.

Lemma dispatchCalls_paused disp calls iteration r evs r1 p : dispatchCalls disp calls iteration r = (evs, r1, calls_paused p) ->
  exists g, disp = Some g /\ ctx <> None /\ g (pause_call p) = g_paused (pause_approval p).
Proof.
  revert r evs. induction calls as [|tc calls IH]; intros r evs; [done|]. cbn [dispatchCalls].
  destruct (alive _); [done|]. destruct (discovery _ tc) as [text|]; [apply IH|].
  destruct (executeTool disp _ tc _) as [evs1 [t d|call a|e]] eqn:Ee; [| |done].
  - destruct (dispatchCalls disp calls iteration _) as [[evs' r'] e] eqn:El. intros [= _ -> ->]. by eapply IH.
  - intros [= _ _ <-]. by apply executeTool_paused in Ee.
Qed.

Lemma sub_loop_paused fuel disp iteration r p : res_end (sub_loop fuel disp iteration r).2 = ended_paused p ->
  exists g, disp = Some g /\ ctx <> None /\ g (pause_call p) = g_paused (pause_approval p).
Proof.
  revert iteration r. induction fuel as [|fuel IH]; intros iteration r; [done|]. cbn [sub_loop].
  destruct (alive _); [done|]. destruct (ask _) as [m|a]; [done|]. destruct (alive _); [done|].
  destruct (ans_tool_use a); [|done]. destruct (ans_calls a) as [|tc calls]; [done|].
  destruct (dispatchCalls disp (tc :: calls) iteration _) as [[evs r1] e] eqn:Ed. intros H.
  apply turn_over_paused in H as H1. destruct H1 as [[-> _]|(_ & _ & Ek)]; [by eapply dispatchCalls_paused|].
  rewrite Ek in H. by eapply IH.
Qed.

(** A run that paused was told so by its dispatch. *)
Lemma run_paused maxIterations disp s p : res_end (runSubAgent maxIterations disp s).2 = ended_paused p ->
  exists g, disp = Some g /\ ctx <> None /\ g (pause_call p) = g_paused (pause_approval p).
Proof.
  unfold runSubAgent. destruct (start_pending s) as [q|]; [|apply sub_loop_paused].
  destruct disp as [g|]; [|done]. destruct ctx as [c|] eqn:Hc; [|done]. rewrite <- Hc. destruct (alive _); [done|].
  destruct (answered _ _ _) as [t d|call a|e] eqn:Ea; [| |done].
  - destruct (dispatchCalls _ _ _ _) as [[evs r] e] eqn:Ed. intros H. apply turn_over_paused in H as H1.
    destruct H1 as [[-> _]|(_ & _ & Ek)]; [by eapply dispatchCalls_paused|]. rewrite Ek in H. by eapply sub_loop_paused.
  - cbn [snd res_end finish]. intros [= <-]. exists g. split_and!; [done|congruence|]. cbn [pause_call pause_approval].
    unfold answered in Ea. destruct (g (pause_call q)) eqn:Eg; simpl in Ea; congruence.
Qed.

Lemma sub_loop_pause_sequence fuel disp iteration r p : res_end (sub_loop fuel disp iteration r).2 = ended_paused p ->
  gc_sequence (pause_call p) = run_sequence (res_run (sub_loop fuel disp iteration r).2).
Proof.
  revert iteration r. induction fuel as [|fuel IH]; intros iteration r; [done|]. cbn [sub_loop].
  destruct (alive _); [done|]. destruct (ask _) as [m|a]; [done|]. destruct (alive _); [done|].
  destruct (ans_tool_use a); [|done]. destruct (ans_calls a) as [|tc calls]; [done|].
  destruct (dispatchCalls disp (tc :: calls) iteration _) as [[evs r1] e] eqn:Ed. intros H.
  apply turn_over_paused in H as H1. destruct H1 as [[-> Ha]|(_ & _ & Ek)].
  - destruct (dispatchCalls_paused _ _ _ _ _ _ _ Ed) as (g & -> & _). destruct (dispatchCalls_pause g _ _ _ _ _ _ Ed) as (_ & <- & _).
    unfold turn_over. by rewrite Ha.
  - rewrite Ek in H |- *. by apply IH.
Qed.

(** The call a run pauses on is the last one it reached. *)
Lemma run_pause_sequence maxIterations disp s p :
  (forall q, start_pending s = Some q -> (gc_sequence (pause_call q) <= run_sequence (start_run s))%nat) ->
  res_end (runSubAgent maxIterations disp s).2 = ended_paused p ->
  (gc_sequence (pause_call p) <= run_sequence (res_run (runSubAgent maxIterations disp s).2))%nat.
Proof.
  intros Hs. unfold runSubAgent. destruct (start_pending s) as [q|].
  2: { intros H. apply sub_loop_pause_sequence in H. unfold loop_from. lia. }
  destruct disp as [g|]; [|done]. destruct ctx as [c|]; [|done]. destruct (alive _); [done|].
  destruct (answered _ _ _) as [t d|call a|e] eqn:Ea; [| |done].
  - destruct (dispatchCalls _ _ _ _) as [[evs r] e] eqn:Ed. intros H. apply turn_over_paused in H as H1.
    destruct H1 as [[-> Ha]|(_ & _ & Ek)].
    + destruct (dispatchCalls_pause g _ _ _ _ _ _ Ed) as (_ & <- & _). unfold turn_over. by rewrite Ha.
    + rewrite Ek in H |- *. apply sub_loop_pause_sequence in H. unfold loop_from. lia.
  - cbn [snd res_end finish]. intros [= <-]. cbn. by apply Hs.
Qed.

Lemma finish_finish r e : finish (res_run (finish r e)) e = finish r e.
Proof. unfold finish. cbn [res_run with_tools run_toolsUsed]. unfold with_tools. simpl. by rewrite dedup_idem. Qed.

(** Every result lists its tools once. *)
Definition settled (res : SubAgentResult) : Prop := finish (res_run res) (res_end res) = res.

Lemma finish_settled r e : settled (finish r e).
Proof. apply finish_finish. Qed.
#[local] Hint Resolve finish_settled : core.

Lemma turn_over_settled iteration evs r e k : (forall r, settled (k r).2) -> settled (turn_over iteration evs r e k).2.
Proof. intros Hk. unfold turn_over. specialize (Hk r). by destruct e, (alive (after_turn iteration)), (k r); cbn [snd] in *; auto. Qed.

Lemma sub_loop_settled fuel disp iteration r : settled (sub_loop fuel disp iteration r).2.
Proof.
  revert iteration r. induction fuel as [|fuel IH]; intros iteration r; [by simpl|]. cbn [sub_loop].
  destruct (alive _); [by simpl|]. destruct (ask _) as [m|a]; [by simpl|]. destruct (alive _); [by simpl|].
  destruct (ans_tool_use a), (ans_calls a) as [|tc calls]; try by simpl.
  destruct (dispatchCalls disp (tc :: calls) iteration _) as [[evs r1] e]. by apply turn_over_settled.
Qed.

Lemma run_settled maxIterations disp s : settled (runSubAgent maxIterations disp s).2.
Proof.
  unfold runSubAgent. destruct (start_pending s) as [q|]; [|apply sub_loop_settled].
  destruct disp as [g|], ctx as [c|]; try by simpl. destruct (alive _); [by simpl|].
  destruct (answered _ _ _); try by simpl. destruct (dispatchCalls _ _ _ _) as [[evs r] e].
  apply turn_over_settled. intros r'. apply sub_loop_settled.
Qed.

(** A paused run that is started again before anything was decided stays as it is. *)
Lemma resumed_undecided maxIterations disp s p : let res := (runSubAgent maxIterations disp s).2 in
  res_end res = ended_paused p -> alive (before_resume (gc_sequence (pause_call p))) = None ->
  runSubAgent maxIterations disp (resume_of res p) = ([SDispatched (pause_call p) (g_paused (pause_approval p))], res).
Proof.
  intros res He Ha. destruct (run_paused _ _ _ _ He) as (g & -> & Hc & Hg). pose proof (run_settled maxIterations (Some g) s) as Hs.
  fold res in Hs. unfold runSubAgent, resume_of. cbn [start_pending start_run]. destruct ctx as [c|]; [|done]. rewrite Ha.
  unfold answered. rewrite Hg.
  unfold settled in Hs. rewrite He in Hs. f_equal. etransitivity; [|exact Hs]. by destruct p.
Qed.

(** ** What a finished run has carried out *)

(** The call ran and returned, was executed under an approval, or was answered as a discovery. *)
Definition carried_out (evs : list SubEvent) (tc : LLMToolCall) : Prop :=
  (exists seq o v, In (SRan seq (call_name tc) (args_of tc) o) evs /\ execute_finish (call_name tc) o = inr v) \/
  (exists call answer, In (SDispatched call (g_executed answer)) evs /\ gc_call call = tc) \/
  (exists seq text, discovery seq tc = Some text).

Lemma carried_out_incl evs evs' tc : (forall ev, In ev evs -> In ev evs') -> carried_out evs tc -> carried_out evs' tc.
Proof.
  intros H [(q & o & v & Hi & Ho)|[(call & a & Hi & Ho)|Hd]]; [left; exists q, o, v; auto|right; left; exists call, a; auto|by right; right].
Qed.

Lemma run_tool_body_done taint seq tc :
  (run_tool_body taint seq (call_name tc) (args_of tc)).2.2.2 = true \/ carried_out (run_tool_body taint seq (call_name tc) (args_of tc)).1 tc.
Proof.
  unfold run_tool_body. assert (forall t e, (run_error t (call_name tc) e).2.2 = true) as He by (by intros t []).
  destruct (execute_begin _ _ _ _); [left; apply He|]. destruct (execute_finish _ _) as [e|v] eqn:Ef; [left; apply He|].
  right. left. exists seq, (body seq (call_name tc) (args_of tc)), v. split; [by left|done].
Qed.

Lemma executeTool_done disp taint tc seq evs t x : executeTool disp taint tc seq = (evs, call_text t x) ->
  x.2 = true \/ carried_out evs tc.
Proof.
  assert (body_end (run_tool_body taint seq (call_name tc) (args_of tc)) = (evs, call_text t x) -> x.2 = true \/ carried_out evs tc) as Hb.
  { destruct (run_tool_body_done taint seq tc) as [H|H]; unfold body_end; intros [= <- _ <-]; [by left|by right]. }
  unfold executeTool. destruct ctx as [c|]; [|done]. destruct (halted seq); [intros [= _ _ <-]; by left|].
  destruct (negb _); [intros [= _ _ <-]; by left|]. case_bool_decide; [intros [= _ _ <-]; by left|].
  destruct (decide c taint seq _ _) as [d|]; [|done]. destruct (negb (allowed d)); [intros [= _ _ <-]; by left|].
  destruct (requiresApproval d); [|done]. destruct disp as [g|]; [|intros [= _ _ <-]; by left].
  destruct (g (governed_call c taint tc seq d)) eqn:Eg; simpl; intros [= <- _ <-]; try (by left).
  right. right. left. eexists _, _. split; [by left|done].
Qed.

(** A turn whose calls are all done adds tool messages only, and each call failed or was carried out. *)
Lemma dispatchCalls_done disp calls iteration r evs r' : dispatchCalls disp calls iteration r = (evs, r', calls_done) ->
  (forall id, In id (run_failed r) -> In id (run_failed r')) /\
  (forall tc, In tc calls -> In (call_id tc) (run_failed r') \/ carried_out evs tc) /\
  exists ms, run_messages r' = run_messages r ++ ms /\ List.Forall (fun m => msg_role m = role_tool) ms.
Proof.
  revert r evs. induction calls as [|tc calls IH]; intros r evs; cbn [dispatchCalls].
  { intros [= <- <-]. split_and!; [done|by intros ? []|]. exists []. by rewrite app_nil_r. }
  destruct (alive _); [done|]. destruct (discovery _ tc) as [text|] eqn:Ed.
  { intros E. destruct (IH _ _ E) as (H1 & H2 & ms & H3 & H4). cbn in H1, H3. split_and!; [done| |].
    - intros x [<-|Hx]; [right; right; right; eauto|auto].
    - rewrite H3, <- app_assoc. eexists. split; [done|]. by constructor. }
  destruct (executeTool disp _ tc _) as [evs1 [t d| |]] eqn:Ee; try done. apply executeTool_done in Ee.
  destruct (dispatchCalls disp calls iteration _) as [[evs' r1] e] eqn:El. intros [= <- <- ->].
  destruct (IH _ _ El) as (H1 & H2 & ms & H3 & H4). cbn in H1, H3. split_and!.
  - intros id Hid. apply H1. destruct d.2; [apply in_or_app; by left|done].
  - intros x [<-|Hx].
    + destruct Ee as [Ee|Ee]; [left|right; eapply carried_out_incl; [|exact Ee]; intros; apply in_or_app; by left].
      apply H1. rewrite Ee. apply in_or_app. right. by left.
    + destruct (H2 x Hx) as [|H]; [by left|right]. eapply carried_out_incl; [|exact H]. intros. apply in_or_app. by right.
  - rewrite H3, <- app_assoc. eexists. split; [done|]. by constructor.
Qed.

(** Every call of the log failed or was carried out. *)
Definition logged (evs : list SubEvent) (r : SubRun) : Prop :=
  forall m calls tc, In m (run_messages r) -> msg_role m = role_assistant -> msg_calls m = Some calls -> In tc calls ->
    In (call_id tc) (run_failed r) \/ carried_out evs tc.

Lemma sub_loop_logged fuel disp iteration r evs0 text : logged evs0 r ->
  res_end (sub_loop fuel disp iteration r).2 = ended_completed text ->
  logged (evs0 ++ (sub_loop fuel disp iteration r).1) (res_run (sub_loop fuel disp iteration r).2).
Proof.
  revert iteration r evs0. induction fuel as [|fuel IH]; intros iteration r evs0 Hl; [done|]. cbn [sub_loop].
  destruct (alive _); [done|]. destruct (ask _) as [m|a]; [done|]. destruct (alive _); [done|].
  assert (logged (evs0 ++ [SAsked (run_messages r)]) (asked a r)) as Hone.
  { intros m calls tc Hm Hr Hc Htc. destruct (Hl m calls tc Hm Hr Hc Htc) as [|H]; [by left|right].
    eapply carried_out_incl; [|exact H]. intros. apply in_or_app. by left. }
  destruct (ans_tool_use a); [|done]. destruct (ans_calls a) as [|tc0 calls0] eqn:Ea; [done|]. rewrite <- Ea.
  destruct (dispatchCalls disp (ans_calls a) iteration _) as [[evs r1] e] eqn:Ed. unfold turn_over.
  destruct e; [|destruct (alive _); done|done]. destruct (alive _); [done|].
  destruct (dispatchCalls_done _ _ _ _ _ _ Ed) as (H1 & H2 & ms & H3 & H4). cbn in H1, H3.
  assert (logged (evs0 ++ (SAsked (run_messages r) :: evs) ++ [STurn (mkCheckpoint r1 (S iteration))]) r1) as Hl1.
  { intros m calls tc Hm Hr Hc Htc. rewrite H3, !in_app_iff in Hm. destruct Hm as [[Hm|[<-|[]]]|Hm].
    - destruct (Hl m calls tc Hm Hr Hc Htc) as [H|H]; [left; auto|right].
      eapply carried_out_incl; [|exact H]. intros. apply in_or_app. by left.
    - injection Hc as <-. destruct (H2 tc Htc) as [H|H]; [by left|right].
      eapply carried_out_incl; [|exact H]. intros. rewrite !in_app_iff. right. left. by right.
    - rewrite List.Forall_forall in H4. specialize (H4 m Hm). congruence. }
  specialize (IH (S iteration) r1 _ Hl1). destruct (sub_loop fuel disp (S iteration) r1) as [evs' res]. cbn [fst snd] in *.
  intros He. specialize (IH He). by rewrite <- !app_assoc in IH.
Qed.

(** A conversation that finished ends with an answer of the model that asks for no tool. *)
Lemma sub_loop_finishes fuel disp iteration r text : res_end (sub_loop fuel disp iteration r).2 = ended_completed text ->
  exists evs messages a, (sub_loop fuel disp iteration r).1 = evs ++ [SAsked messages] /\ ask messages = inr a /\
    ans_content a = text /\ (ans_tool_use a = false \/ ans_calls a = []).
Proof.
  revert iteration r. induction fuel as [|fuel IH]; intros iteration r; [done|]. cbn [sub_loop].
  destruct (alive _); [done|]. destruct (ask (run_messages r)) as [m|a] eqn:Eq; [done|]. destruct (alive _); [done|].
  assert (ans_tool_use a = false \/ ans_calls a = [] -> res_end (finish (asked a r) (ended_completed (ans_content a))) = ended_completed text ->
    exists evs messages a0, [SAsked (run_messages r)] = evs ++ [SAsked messages] /\ ask messages = inr a0 /\ ans_content a0 = text /\
      (ans_tool_use a0 = false \/ ans_calls a0 = [])) as Hend.
  { intros Ha [= <-]. by exists [], (run_messages r), a. }
  destruct (ans_tool_use a) eqn:Eu; [|apply Hend; by left]. destruct (ans_calls a) as [|tc0 calls0] eqn:Ea; [apply Hend; by right|]. clear Hend.
  destruct (dispatchCalls disp (tc0 :: calls0) iteration _) as [[evs r1] e]. unfold turn_over.
  destruct e; [|destruct (alive _); done|done]. destruct (alive _); [done|]. specialize (IH (S iteration) r1).
  destruct (sub_loop fuel disp (S iteration) r1) as [evs' res]. cbn [fst snd] in *. intros He.
  destruct (IH He) as (evs2 & messages & a2 & -> & H). exists ((SAsked (run_messages r) :: evs) ++ STurn (mkCheckpoint r1 (S iteration)) :: evs2), messages, a2.
  split; [by rewrite <- app_assoc|done].
Qed.

(** ** createScopedToolRegistry *)

Definition createScopedToolRegistry (builtin : list ToolDefinition) (allowedCategories : list string)
    : string + ToolRegistry :=
  foldl (fun acc t => match acc with inl e => inl e | inr reg => register reg t end) (inr [])
    (List.filter (fun t => includes (tool_category t) allowedCategories) builtin).
End runner.

(** ** A run *)

Definition demo_role : RoleDefinition := mkRole "worker" "Worker" ["email"] 8 None.
Definition demo_ctx : SubContext := mkSubContext (new_agent "w" "s" 1 demo_role None None None) None (Some (buildTaintGating None)) true.
Definition demo_tools : ToolRegistry := [read_file_tool; mail_tool].
Definition demo_moment (seq : nat) : Moment := mkMoment (Some normal) demo_config 12 ∅.
Definition demo_body (seq : nat) (name : string) (args : params) : ToolOutcome := Returned (JStr "ok").
Definition demo_alive (p : FencePoint) : option string := None.
Definition demo_discovery (seq : nat) (tc : LLMToolCall) : option string := None.

Definition read_call : LLMToolCall := mkCall "c1" "read_file" (JObj [("path", JStr "/a")]).
Definition mail_call : LLMToolCall := mkCall "c2" "gmail_send" (JObj []).

(** The model reads a file and sends a mail in its first turn, then answers. *)
Definition demo_ask (messages : list LLMMessage) : string + Answered :=
  match messages with
  | [] => inr (mkAnswered EmptyString [read_call; mail_call] true 1 1)
  | _ => inr (mkAnswered "done" [] false 1 1)
  end.

Definition demo_start : SubAgentStart := mkStart (mkSubRun [] [] 0 0 0 [] []) 0 None.
Definition demo_ref : SubAgentApprovalRef := mkApprovalRef "e" "a" "p".
Definition demo_run (g : GovernedToolDispatch) (s : SubAgentStart) : list SubEvent * SubAgentResult :=
  runSubAgent demo_tools demo_moment demo_body demo_alive demo_discovery demo_ask (Some demo_ctx) 5 (Some g) s.
Definition demo_pausing : list SubEvent * SubAgentResult := demo_run (fun _ => g_paused demo_ref) demo_start.

Lemma subagent_calls_are_judged_witness :
  nth_error demo_pausing.1 1 = Some (SRan 1 "read_file" [("path", JStr "/a")] (Returned (JStr "ok"))) /\
  judged demo_tools demo_moment demo_ctx [] 1 "read_file" [("path", JStr "/a")] false.
Proof.
  split; [vm_compute; reflexivity|].
  destruct (subagent_calls_are_judged demo_tools demo_moment demo_body demo_alive demo_discovery demo_ask (Some demo_ctx) demo_ctx 5
    (Some (fun _ => g_paused demo_ref)) demo_start (take 1 demo_pausing.1)
    (SRan 1 "read_file" [("path", JStr "/a")] (Returned (JStr "ok"))) (drop 2 demo_pausing.1)) as [[H|[H _]] _];
    [done|vm_compute; reflexivity|exact H|discriminate H].
Defined.

Definition browse_tool : ToolDefinition := mkTool 4 "browser_navigate" "Go" "browser" [] None None.

(** Outside content that comes back as a failure taints the run when the tool ran directly, and does not
    when the dispatch ran it; both results are framed as outside content. *)
Example governed_failure_is_not_taint :
  (run_error [browse_tool] (Some demo_ctx) [] "browser_navigate" (OutcomeError "page text")).1 = ["browser_navigate"] /\
  (governedText [] "browser_navigate" "browser" (g_failed "page text")).1 = [] /\
  (governedText [] "browser_navigate" "browser" (g_failed "page text")).2.1 =
    (run_error [browse_tool] (Some demo_ctx) [] "browser_navigate" (OutcomeError "page text")).2.1.
Proof. vm_compute. done. Qed.
