(* ===== verification/Delegate.v ===== *)
(** * Delegations of workflow steps (workflows/adapters/m7-agent-delegator.ts,
    workflows/db/repos/delegation.ts)

    The step [jarvis-agent.delegate] hands a goal to a sub-agent: [delegate] spawns it under
    the primary agent, runs it, and answers with its last message, the trace of its calls and a
    declared outcome. With a continuation the conversation is durable: it is saved after every
    turn, at a pause and at the end, and a step that runs again continues from the saved record.
    The record is the only thing that survives the process; [store_after] is what is left of it
    after any part of the events. The time of a save, which nothing reads back, is left out; the
    texts a fresh conversation starts with are an argument, as are the functions a run awaits. *)
From S2P Require Export EffectBoundary SubAgent JsMap.

(** ** Data *)

Inductive PieceAgentRunStatus :=
  | delegate_completed | delegate_max_iterations | delegate_error | delegate_canceled | delegate_approval_required.

Record PieceAgentToolCall := mkTraced {
  traced_name : string; traced_args : string; traced_result : option string; traced_error : option string }.

Record PieceAgentDelegateResult := mkDelegateResult {
  finalMessage : string;
  toolCalls : list PieceAgentToolCall;
  delegate_status : PieceAgentRunStatus;
  delegate_failure : option string;
  delegate_approval : option SubAgentApprovalRef;
  delegate_outcome : option ActionOutcome }.

Record PieceAgentDelegateInput := mkDelegateInput {
  goal : string; asked_role : option string; asked_iterations : option Z; requiredTools : option (list string) }.

(** What a checkpoint is bound to. *)
Record DelegationIdentity := mkDelegationIdentity {
  dg_id : string; dg_runId : string; dg_stepName : string; dg_executionPath : list (string * Z); dg_versionDigest : string }.
Record DelegationBinding := mkBinding { bound_identity : DelegationIdentity; bound_role : string; bound_goal : string }.

Inductive DelegationStatus := delegation_running | delegation_paused | delegation_completed.

#[export] Instance DelegationStatus_eq_dec : EqDecision DelegationStatus.
Proof. solve_decision. Defined.

Record DelegationCheckpoint := mkDelegationCheckpoint {
  dc_binding : DelegationBinding;
  dc_status : DelegationStatus;
  dc_run : SubRun;
  dc_iteration : nat;
  dc_pending : option SubAgentPause;
  dc_result : option PieceAgentDelegateResult }.

Record DelegationContinuation := mkContinuation { co_identity : DelegationIdentity; co_dispatch : GovernedToolDispatch }.

Inductive DelegateEvent := d_ran (ev : SubEvent) | d_saved (c : DelegationCheckpoint).

(** The record after the events, whatever came before. *)
Definition save (stored : option DelegationCheckpoint) (ev : DelegateEvent) : option DelegationCheckpoint :=
  match ev with d_saved c => Some c | d_ran _ => stored end.
Definition store_after (stored : option DelegationCheckpoint) (evs : list DelegateEvent) : option DelegationCheckpoint :=
  foldl save stored evs.

(** ** The trace *)

(** [responseById]: the last tool message of a call. *)
Definition answers_call (id : string) (m : LLMMessage) : option string :=
  match msg_role m, msg_call_id m, msg_content m with
  | role_tool, Some i, inl text => if bool_decide (i = id) then Some text else None
  | _, _, _ => None
  end.
Definition response_of (messages : list LLMMessage) (id : string) : option string :=
  head (omap (answers_call id) (rev messages)).

Definition capped_trace (maxResultChars : nat) (result : string) : string :=
  if (maxResultChars <? String.length result)%nat
  then stake maxResultChars result +:+ "... (truncated, was " +:+ show_z (Z.of_nat (String.length result)) +:+ " chars)"
  else result.

Definition trace_entry (messages : list LLMMessage) (maxResultChars : nat) (failed : list string) (c : LLMToolCall)
    : PieceAgentToolCall :=
  let result := response_of messages (call_id c) in
  mkTraced (call_name c) (stringify (call_arguments c)) (capped_trace maxResultChars <$> result)
    (if includes (call_id c) failed then result else None).

(** The calls an assistant message asks for. *)
Definition asked_calls (m : LLMMessage) : list LLMToolCall :=
  match msg_role m, msg_calls m with role_assistant, Some calls => calls | _, _ => [] end.

Definition extractToolCallsTrace (messages : list LLMMessage) (maxResultChars : nat) (failed : list string)
    : list PieceAgentToolCall :=
  map (trace_entry messages maxResultChars failed) (flat_map asked_calls messages).

(** ** The declared outcome *)

Definition completes (name : string) (c : PieceAgentToolCall) : bool :=
  bool_decide (traced_name c = name) && negb (is_null (traced_result c)) && is_null (traced_error c).

Definition delegationOutcome (status : PieceAgentRunStatus) (calls : list PieceAgentToolCall) (err : option string)
    (required : list string) : ActionOutcome :=
  match status with
  | delegate_error => outcome_failure (mkFailure failure_error "AGENT_ERROR" (err ?? "The delegated agent failed") false)
  | delegate_max_iterations =>
      outcome_failure (mkFailure failure_error "AGENT_INCOMPLETE"
        "The delegated agent reached its iteration limit before finishing" false)
  | delegate_canceled =>
      outcome_failure (mkFailure failure_error "AGENT_CANCELED" "The delegated agent was canceled before finishing" false)
  | delegate_approval_required =>
      outcome_failure (mkFailure failure_blocked "APPROVAL_PENDING" "A governed tool call is waiting for approval" true)
  | delegate_completed =>
      match List.filter (fun name => negb (existsb (completes name) calls)) required with
      | [] => outcome_succeeded
      | unmet =>
          let attempted := existsb (fun name => existsb (fun c => bool_decide (traced_name c = name)) calls) unmet in
          outcome_failure (mkFailure failure_error "REQUIRED_TOOL_NOT_COMPLETED"
            ("The delegated agent finished without completing: " +:+ JsString.join ", " unmet) (negb attempted))
      end
  end.

Definition errorResult (error : string) (calls : list PieceAgentToolCall) : PieceAgentDelegateResult :=
  mkDelegateResult EmptyString calls delegate_error (Some error) None None.

(** [result.outcome = delegationOutcome(result, required)] *)
Definition with_outcome (required : option (list string)) (r : PieceAgentDelegateResult) : PieceAgentDelegateResult :=
  mkDelegateResult (finalMessage r) (toolCalls r) (delegate_status r) (delegate_failure r) (delegate_approval r)
    (Some (delegationOutcome (delegate_status r) (toolCalls r) (delegate_failure r) (required ?? []))).

(** ** The agent of a delegation *)

(** [terminateAgent]: the message it throws, if any, with the hierarchy it leaves; [None] is a bound on
    the depth that was too small. *)
Fixpoint terminateAgent (fuel : nat) (h : AgentHierarchy) (id : string) : option (option string * AgentHierarchy) :=
  match fuel with
  | O => None
  | S fuel' =>
      match getAgent h id with
      | None => Some (Some ("Agent not found: " +:+ id), h)
      | Some _ =>
          match foldl (fun acc c => match acc with Some (None, h') => terminateAgent fuel' h' (agent_key c) | _ => acc end)
                  (Some (None, h)) (getChildren h id) with
          | Some (None, h') => pair None <$> removeAgent (S (length (agents h'))) h' id
          | x => x
          end
      end
  end.

(** The cleanup in [finally], its errors ignored. *)
Definition clean_up (o : Orchestrator) (id : string) : Orchestrator :=
  match terminateAgent (S (length (agents (hierarchy o)))) (hierarchy o) id with
  | Some (_, h) => with_hierarchy o h
  | None => o
  end.

Definition DEFAULT_ROLE_ID : string := "workflow-default".
Definition DEFAULT_MAX_ITERATIONS : Z := 50.
Definition DEFAULT_TRACE_RESULT_MAX_CHARS : nat := 1000.

(** [fresh_messages] are the messages a conversation starts with: the role's prompt and the goal. *)
Record M7AgentDelegator := mkDelegator {
  specialists : list (string * RoleDefinition);
  defaultRoleId : string;
  defaultMaxIterations : Z;
  has_engine : bool;
  has_trail : bool;
  traceResultMaxChars : nat;
  builtin_tools : list ToolDefinition;
  fresh_messages : Agent -> string -> list LLMMessage }.

(** What [spawnSubAgent] takes from the moment it runs at. *)
Record Spawning := mkSpawning {
  sp_hour : Z; sp_taint : list string; sp_id : string; sp_session : string; sp_now : Z }.

(** The sub-agent's gate: no profile, no taint gating, no grants of its own. *)
Definition child_context (d : M7AgentDelegator) (child : Agent) : option SubContext :=
  if has_engine d then Some (mkSubContext child None None (has_trail d)) else None.

(** ** delegate *)

Section delegate.
Context (moment : nat -> Moment) (body : nat -> string -> params -> ToolOutcome) (alive : FencePoint -> option string)
        (discovery : nat -> LLMToolCall -> option string) (ask : list LLMMessage -> string + Answered).

(** [Math.min(input.maxIterations ?? default, 200)], an integer. *)
Definition delegated_iterations (d : M7AgentDelegator) (input : PieceAgentDelegateInput) : nat :=
  Z.to_nat (Z.min (asked_iterations input ?? defaultMaxIterations d) 200).

(** Where the run starts: at the saved state, or with the goal. *)
Definition start_of (fresh : list LLMMessage) (stored : option DelegationCheckpoint) : SubAgentStart :=
  match stored with
  | Some c =>
      if bool_decide (dc_status c = delegation_completed) then mkStart (mkSubRun fresh [] 0 0 0 [] []) 0 None
      else mkStart (dc_run c) (dc_iteration c) (dc_pending c)
  | None => mkStart (mkSubRun fresh [] 0 0 0 [] []) 0 None
  end.

(** [durable.save] of each completed turn. *)
Definition progress (b : option DelegationBinding) (ev : SubEvent) : list DelegateEvent :=
  match ev, b with
  | STurn cp, Some b => [d_saved (mkDelegationCheckpoint b delegation_running (cp_run cp) (cp_iteration cp) None None)]
  | STurn _, None => []
  | _, _ => [d_ran ev]
  end.

(** The record of a result: without the messages, at iteration 0. *)
Definition finished_run (r : SubRun) : SubRun :=
  mkSubRun [] (run_toolsUsed r) (run_input r) (run_output r) (run_sequence r) (run_taint r) (run_failed r).

(** What follows the run: what is saved, and the answer. *)
Definition conclude (d : M7AgentDelegator) (required : option (list string)) (b : option DelegationBinding)
    (res : SubAgentResult) : list DelegateEvent * PieceAgentDelegateResult :=
  let r := res_run res in
  let trace := extractToolCallsTrace (run_messages r) (traceResultMaxChars d) (run_failed r) in
  let finish (result : PieceAgentDelegateResult) :=
    let finished := with_outcome required result in
    (match b with
     | Some b => [d_saved (mkDelegationCheckpoint b delegation_completed (finished_run r) 0 None (Some finished))]
     | None => []
     end, finished) in
  match res_end res with
  | ended_paused p =>
      match b with
      | None => ([], errorResult "delegate failed: paused without a continuation" [])
      | Some b => ([d_saved (mkDelegationCheckpoint b delegation_paused r (pause_iteration p) (Some p) None)],
                   mkDelegateResult EmptyString trace delegate_approval_required None (Some (pause_approval p)) None)
      end
  | ended_error (dispatch_error _) => ([], errorResult (result_response (res_end res)) trace)
  | ended_error (canceled_error _) =>
      ([], with_outcome required
             (mkDelegateResult EmptyString trace delegate_canceled (Some (result_response (res_end res))) None None))
  | ended_error (other_error _) => finish (errorResult (result_response (res_end res)) trace)
  | ended_max_iterations => finish (mkDelegateResult EmptyString trace delegate_max_iterations None None None)
  | ended_completed text => finish (mkDelegateResult text trace delegate_completed None None None)
  end.

(** The run of the sub-agent [child], from the record. *)
Definition delegated_run (d : M7AgentDelegator) (input : PieceAgentDelegateInput) (dispatch : option GovernedToolDispatch)
    (registry : ToolRegistry) (child : Agent) (stored : option DelegationCheckpoint) : list SubEvent * SubAgentResult :=
  runSubAgent registry moment body alive discovery ask (child_context d child) (delegated_iterations d input) dispatch
    (start_of (fresh_messages d child (goal input)) stored).

Definition run_and_conclude (d : M7AgentDelegator) (input : PieceAgentDelegateInput) (b : option DelegationBinding)
    (dispatch : option GovernedToolDispatch) (registry : ToolRegistry) (child : Agent) (stored : option DelegationCheckpoint)
    : list DelegateEvent * PieceAgentDelegateResult :=
  let '(evs, res) := delegated_run d input dispatch registry child stored in
  let '(saves, said) := conclude d (requiredTools input) b res in
  (flat_map (progress b) evs ++ saves, said).

(** The answer the record itself gives: a finished result, or a refusal when what it is bound to changed. *)
Definition finished_answer (input : PieceAgentDelegateInput) (c : DelegationCheckpoint) : option PieceAgentDelegateResult :=
  match dc_result c with
  | Some result =>
      if bool_decide (dc_status c = delegation_completed) then Some (with_outcome (requiredTools input) result) else None
  | None => None
  end.

Definition changed_answer (input : PieceAgentDelegateInput) (roleId : string) (co : DelegationContinuation)
    (c : DelegationCheckpoint) : option PieceAgentDelegateResult :=
  if negb (bool_decide (dg_versionDigest (bound_identity (dc_binding c)) = dg_versionDigest (co_identity co)))
  then Some (errorResult "Workflow version changed while the delegation was paused; start a new run" [])
  else if negb (bool_decide (bound_role (dc_binding c) = roleId)) || negb (bool_decide (bound_goal (dc_binding c) = goal input))
  then Some (errorResult "Delegation input changed while it was paused; start a new run" [])
  else None.

Definition recorded_answer (input : PieceAgentDelegateInput) (roleId : string) (cont : option DelegationContinuation)
    (stored : option DelegationCheckpoint) : option PieceAgentDelegateResult :=
  match cont, stored with
  | Some co, Some c =>
      match finished_answer input c with Some r => Some r | None => changed_answer input roleId co c end
  | _, _ => None
  end.

Definition delegate (d : M7AgentDelegator) (o : Orchestrator) (sp : Spawning) (input : PieceAgentDelegateInput)
    (cont : option DelegationContinuation) (stored : option DelegationCheckpoint)
    : list DelegateEvent * PieceAgentDelegateResult * Orchestrator :=
  let roleId := asked_role input ?? defaultRoleId d in
  match map_get roleId (specialists d) with
  | None =>
      let available := JsString.join ", " (map_keys (specialists d)) in
      ([], errorResult ("unknown role " +:+ String dquote (roleId +:+ String dquote ("; available: " +:+
             (if truthy available then available else "<none>")))) [], o)
  | Some role =>
      match getPrimary (hierarchy o) with
      | None => ([], errorResult ("no primary agent registered; the daemon's agent-service hasn't initialized " +:+
                   "-- workflows can't delegate yet") [], o)
      | Some parent =>
          match recorded_answer input roleId cont stored with
          | Some said => ([], said, o)
          | None =>
              match spawnSubAgent o (sp_hour sp) (sp_taint sp) (agent_key parent) (sp_id sp) (sp_session sp) (sp_now sp) role None with
              | inl e => ([], errorResult ("delegate failed: " +:+ e) [], o)
              | inr (o1, child) =>
                  match createScopedToolRegistry (builtin_tools d) (allowed_tools (authority child)) with
                  | inl e => ([], errorResult ("delegate failed: " +:+ e) [], clean_up o1 (sp_id sp))
                  | inr registry =>
                      let b := (fun co => mkBinding (co_identity co) roleId (goal input)) <$> cont in
                      (run_and_conclude d input b (co_dispatch <$> cont) registry child
                         (match cont with Some _ => stored | None => None end),
                       clean_up o1 (sp_id sp))
                  end
              end
          end
      end
  end.

(** ** Crashes *)

Lemma store_after_app st l1 l2 : store_after st (l1 ++ l2) = store_after (store_after st l1) l2.
Proof. apply foldl_app. Qed.

(** The record after some events is the last one they saved, or the one before. *)
Lemma last_save st evs : store_after st evs = st \/ exists l1 c l2, evs = l1 ++ d_saved c :: l2 /\ store_after st evs = Some c.
Proof.
  induction evs as [|ev evs IH] using rev_ind; [by left|]. rewrite store_after_app. destruct ev as [ev|c].
  - destruct IH as [IH|(l1 & c & l2 & -> & IH)]; [by left|]. right. exists l1, c, (l2 ++ [d_ran ev]). split; [|done]. by rewrite <- app_assoc.
  - right. by exists evs, c, [].
Qed.

(** What is saved is a turn of the run, or its end. *)
Lemma save_where b evs fin l1 c l2 : List.Forall (fun ev => exists c, ev = d_saved c) fin -> (length fin <= 1)%nat ->
  flat_map (progress (Some b)) evs ++ fin = l1 ++ d_saved c :: l2 ->
  (exists e1 cp e2, evs = e1 ++ STurn cp :: e2 /\ progress (Some b) (STurn cp) = [d_saved c] /\
     l2 = flat_map (progress (Some b)) e2 ++ fin) \/ (fin = [d_saved c] /\ l2 = []).
Proof.
  intros Hf Hn. revert l1. induction evs as [|ev evs IH]; intros l1 E.
  - right. simpl in E. subst fin. destruct l1 as [|x l1]; [by destruct l2; simpl in Hn; [|lia]|]. rewrite length_app in Hn. simpl in Hn. lia.
  - cbn [flat_map] in E. rewrite <- app_assoc in E.
    assert ((exists c, progress (Some b) ev = [d_saved c] /\ exists cp, ev = STurn cp) \/ progress (Some b) ev = [d_ran ev]) as [(x & Hx & cp & ->)|Hx]
      by (destruct ev; [by right..|left; eauto]); rewrite Hx in E; simpl in E; destruct l1 as [|y l1]; injection E as E0 E; try done.
    + left. exists [], cp, evs. by rewrite Hx, E0, <- E.
    + destruct (IH l1 E) as [(e1 & cp' & e2 & -> & H)|H]; [|by right]. left. by exists (STurn cp :: e1), cp', e2.
    + destruct (IH l1 E) as [(e1 & cp' & e2 & -> & H)|H]; [|by right]. left. by exists (ev :: e1), cp', e2.
Qed.

Lemma conclude_saves d required b res : List.Forall (fun ev => exists c, ev = d_saved c) (conclude d required b res).1 /\
  (length (conclude d required b res).1 <= 1)%nat.
Proof.
  unfold conclude. destruct (res_end res) as [| |p|[]], b as [b|]; simpl; split; try lia; repeat constructor; eauto.
Qed.

Section crashes.
Context (d : M7AgentDelegator) (input : PieceAgentDelegateInput) (b : DelegationBinding) (dispatch : option GovernedToolDispatch)
        (registry : ToolRegistry) (child : Agent) (Halive : forall n, alive (before_resume n) = None).

Definition session (stored : option DelegationCheckpoint) : list DelegateEvent * PieceAgentDelegateResult :=
  run_and_conclude d input (Some b) dispatch registry child stored.

(** A record from which a session ends as one from [stored] does. *)
Definition as_good (stored : option DelegationCheckpoint) (c : DelegationCheckpoint) : Prop :=
  dc_binding c = b /\
  if bool_decide (dc_status c = delegation_completed)
  then (exists result, dc_result c = Some result /\ with_outcome (requiredTools input) result = (session stored).2) /\
       store_after stored (session stored).1 = Some c
  else (session (Some c)).2 = (session stored).2 /\
       store_after (Some c) (session (Some c)).1 = store_after stored (session stored).1.

Lemma saved_is_as_good stored l1 c l2 : (session stored).1 = l1 ++ d_saved c :: l2 -> as_good stored c.
Proof.
  unfold as_good, session, run_and_conclude. destruct (delegated_run _ _ _ _ _ stored) as [evs res] eqn:Er.
  destruct (conclude d (requiredTools input) (Some b) res) as [fin said] eqn:Ec. cbn [fst snd]. intros E.
  destruct (conclude_saves d (requiredTools input) (Some b) res) as [Hf Hn]. rewrite Ec in Hf, Hn. cbn [fst] in Hf, Hn.
  assert (store_after stored (flat_map (progress (Some b)) evs ++ fin) = store_after (Some c) l2) as Hst
    by (rewrite E; by rewrite store_after_app).
  destruct (save_where b evs fin l1 c l2 Hf Hn E) as [(e1 & cp & e2 & -> & Hc & ->)|[-> ->]].
  - injection Hc as <-. cbn [dc_binding dc_status]. split; [done|].
    assert (delegated_run d input dispatch registry child
              (Some (mkDelegationCheckpoint b delegation_running (cp_run cp) (cp_iteration cp) None None)) = (e2, res)) as ->; [|by rewrite Ec].
    unfold delegated_run in *. simpl start_of.
    pose proof (run_checkpoint registry moment body alive discovery ask (child_context d child) (delegated_iterations d input) dispatch
      (start_of (fresh_messages d child (goal input)) stored) e1 cp e2) as Hcp. rewrite Er in Hcp. by apply Hcp.
  - revert Ec. unfold conclude. assert (Ht : forall p, res_end res = ended_paused p ->
      exists ev, is_turn ev = false /\ delegated_run d input dispatch registry child
        (Some (mkDelegationCheckpoint b delegation_paused (res_run res) (pause_iteration p) (Some p) None)) = ([ev], res)).
    { intros p Hp. unfold delegated_run in *. simpl start_of.
      assert (res = (runSubAgent registry moment body alive discovery ask (child_context d child) (delegated_iterations d input) dispatch
        (start_of (fresh_messages d child (goal input)) stored)).2) as -> by (by rewrite Er). eexists. split; [|by apply resumed_undecided]. done. }
    destruct (res_end res) as [text| |p|[]] eqn:He; intros [= <- <-]; cbn [dc_binding dc_status dc_result]; try (split; [done|]);
      try (split; [by eexists|done]). simpl. destruct (Ht p eq_refl) as (ev & Hev & ->). rewrite He.
    assert (progress (Some b) ev = [d_ran ev]) as Hp by (by destruct ev). rewrite Hst. simpl. by rewrite Hp.
Qed.

(** What a session does that starts from a record another one saved. *)
Definition goes_on (c : DelegationCheckpoint) (rest again : list DelegateEvent) : Prop :=
  match dc_status c with
  | delegation_running => again = rest
  | delegation_completed => rest = [] /\ again = []
  | delegation_paused => rest = [] /\ exists p, dc_pending c = Some p /\
      again = [d_ran (SDispatched (pause_call p) (g_paused (pause_approval p))); d_saved c]
  end.

Lemma saved_goes_on stored l1 c l2 : (session stored).1 = l1 ++ d_saved c :: l2 ->
  (dc_status c = delegation_completed <-> dc_result c <> None) /\
  goes_on c l2 (if bool_decide (dc_status c = delegation_completed) then [] else (session (Some c)).1).
Proof.
  unfold session, run_and_conclude. destruct (delegated_run _ _ _ _ _ stored) as [evs res] eqn:Er.
  destruct (conclude d (requiredTools input) (Some b) res) as [fin said] eqn:Ec. cbn [fst snd]. intros E.
  destruct (conclude_saves d (requiredTools input) (Some b) res) as [Hf Hn]. rewrite Ec in Hf, Hn. cbn [fst] in Hf, Hn.
  destruct (save_where b evs fin l1 c l2 Hf Hn E) as [(e1 & cp & e2 & -> & Hc & ->)|[-> ->]].
  - injection Hc as <-. cbn [dc_status dc_result]. split; [done|]. unfold goes_on. cbn [dc_status].
    assert (delegated_run d input dispatch registry child
              (Some (mkDelegationCheckpoint b delegation_running (cp_run cp) (cp_iteration cp) None None)) = (e2, res)) as ->; [|by rewrite Ec].
    unfold delegated_run in *. simpl start_of.
    pose proof (run_checkpoint registry moment body alive discovery ask (child_context d child) (delegated_iterations d input) dispatch
      (start_of (fresh_messages d child (goal input)) stored) e1 cp e2) as Hcp. rewrite Er in Hcp. by apply Hcp.
  - revert Ec. unfold conclude, goes_on. destruct (res_end res) as [text| |p|[]] eqn:He; intros [= <- <-]; cbn [dc_status dc_result dc_pending]; try done.
    split; [done|]. split; [done|]. exists p. split; [done|]. rewrite bool_decide_eq_false_2 by done.
    assert (delegated_run d input dispatch registry child (Some (mkDelegationCheckpoint b delegation_paused (res_run res) (pause_iteration p) (Some p) None))
      = ([SDispatched (pause_call p) (g_paused (pause_approval p))], res)) as ->; [|by rewrite He].
    unfold delegated_run in *. simpl start_of.
    assert (res = (runSubAgent registry moment body alive discovery ask (child_context d child) (delegated_iterations d input) dispatch
      (start_of (fresh_messages d child (goal input)) stored)).2) as -> by (by rewrite Er). by apply resumed_undecided.
Qed.
End crashes.

(** A delegation that reaches its sub-agent, with what it runs it with. *)
Lemma delegate_cases d o sp input :
  (exists m o', forall cont stored, delegate d o sp input cont stored = ([], errorResult m [], o')) \/
  (exists m o', forall cont stored, delegate d o sp input cont stored =
     match recorded_answer input (asked_role input ?? defaultRoleId d) cont stored with
     | Some r => ([], r, o) | None => ([], errorResult m [], o') end) \/
  exists registry child o', forall cont stored, delegate d o sp input cont stored =
    match recorded_answer input (asked_role input ?? defaultRoleId d) cont stored with
    | Some r => ([], r, o)
    | None => (run_and_conclude d input
                 ((fun co => mkBinding (co_identity co) (asked_role input ?? defaultRoleId d) (goal input)) <$> cont)
                 (co_dispatch <$> cont) registry child (match cont with Some _ => stored | None => None end), o')
    end.
Proof.
  unfold delegate. destruct (map_get _ _) as [role|]; [|left; by eexists _, _].
  destruct (getPrimary _) as [parent|]; [|left; by eexists _, _]. right.
  destruct (spawnSubAgent _ _ _ _ _ _ _ _ _) as [e|[o1 child]]; [left; by eexists _, _|].
  destruct (createScopedToolRegistry _ _) as [e|registry]; [left; by eexists _, _|]. right. by exists registry, child, (clean_up o1 (sp_id sp)).
Qed.

(** A record that was saved here is not refused. *)
Lemma recorded_here input roleId co c : dc_binding c = mkBinding (co_identity co) roleId (goal input) ->
  recorded_answer input roleId (Some co) (Some c) = finished_answer input c.
Proof.
  intros Hb. unfold recorded_answer. destruct (finished_answer input c); [done|]. unfold changed_answer. rewrite Hb.
  cbn [bound_identity bound_role bound_goal]. by rewrite !bool_decide_eq_true_2.
Qed.

Lemma delegation_survives d o sp input co stored ns : (forall n, alive (before_resume n) = None) ->
  let life stored := delegate d o sp input (Some co) stored in
  let left := foldl (fun stored n => store_after stored (take n (life stored).1.1)) stored ns in
  (life left).1.2 = (life stored).1.2 /\
  store_after left (life left).1.1 = store_after stored (life stored).1.1.
Proof.
  intros Ha life. revert stored. induction ns as [|n ns IH]; intros stored; [done|]. cbn [foldl].
  set (next := store_after stored (take n (life stored).1.1)). destruct (IH next) as [-> ->]. clear IH.
  destruct (last_save stored (take n (life stored).1.1)) as [H|(l1 & c & l2 & El & H)]; fold next in H; [by rewrite H|]. rewrite H.
  assert ((life stored).1.1 = l1 ++ d_saved c :: (l2 ++ drop n (life stored).1.1)) as E
    by (rewrite <- (take_drop n (life stored).1.1) at 1; by rewrite El, <- app_assoc). clear El H next. revert E. unfold life.
  destruct (delegate_cases d o sp input) as [(m & o' & Hd)|[(m & o' & Hd)|(registry & child & o' & Hd)]]; rewrite !Hd.
  { cbn [fst snd]; intros E; by destruct l1. }
  { destruct (recorded_answer _ _ _ stored); cbn [fst snd]; intros E; by destruct l1. }
  destruct (recorded_answer _ _ _ stored); [cbn [fst snd]; intros E; by destruct l1|]. cbn [fst snd fmap option_fmap option_map]. intros E.
  destruct (saved_is_as_good d input _ _ registry child Ha stored l1 c _ E) as [Hb Hgood].
  rewrite (recorded_here _ _ _ _ Hb). unfold session in Hgood. unfold finished_answer. revert Hgood. destruct (bool_decide _).
  - intros [(result & -> & Hr) Hst]. by rewrite Hr.
  - intros [Hr Hst]. destruct (dc_result c); cbn [fst snd]; by rewrite Hr, Hst.
Qed.

(** The events [again] of a session from the record that the part [taken] of the events [evs] left behind. *)
Definition continues (evs taken again : list DelegateEvent) : Prop :=
  ((forall c, ~ In (d_saved c) taken) /\ again = evs) \/
  exists l1 c l2 rest, taken = l1 ++ d_saved c :: l2 /\ (forall c', ~ In (d_saved c') l2) /\
    evs = l1 ++ d_saved c :: rest /\ goes_on c rest again.

Lemma last_save_split evs : (forall c, ~ In (d_saved c) evs) \/
  exists l1 c l2, evs = l1 ++ d_saved c :: l2 /\ forall c', ~ In (d_saved c') l2.
Proof.
  induction evs as [|ev evs IH]; [left; by intros c []|]. destruct IH as [H|(l1 & c & l2 & -> & H)]; [|right; by exists (ev :: l1), c, l2].
  destruct ev as [e|c]; [left; intros c [|Hc]; [done|by apply (H c)]|right; by exists [], c, evs].
Qed.

Lemma store_without_saves stored evs : (forall c, ~ In (d_saved c) evs) -> store_after stored evs = stored.
Proof.
  revert stored. induction evs as [|ev evs IH]; intros stored H; [done|]. unfold store_after in *. cbn [foldl].
  destruct ev as [e|c]; [apply IH; intros c Hc; apply (H c); by right|by destruct (H c (or_introl eq_refl))].
Qed.

(** C14: a delegation survives the process that runs it. However often that process dies, after
    whatever part of its events, the step that runs again from the record left behind ends with the
    answer, the trace and the record of a delegation that was never interrupted. No turn that was
    saved is repeated: a session that dies is followed by one whose events are what the dead one
    would have gone on with after the last record it saved; if that record was of a pause, the
    question to the dispatch alone, and if it was of the end, nothing, the record answers. This
    asks of the cancellation fence that it lets pending calls be resumed. *)
Theorem delegations_survive_crashes d o sp input co stored ns : (forall n, alive (before_resume n) = None) ->
  let life stored := delegate d o sp input (Some co) stored in
  let left := foldl (fun stored n => store_after stored (take n (life stored).1.1)) stored ns in
  (life left).1.2 = (life stored).1.2 /\
  store_after left (life left).1.1 = store_after stored (life stored).1.1 /\
  forall n, let taken := take n (life left).1.1 in
    continues (life left).1.1 taken (life (store_after left taken)).1.1.
Proof.
  intros Ha life left. destruct (delegation_survives d o sp input co stored ns Ha) as [H1 H2]. split; [done|]. split; [done|]. clear H1 H2.
  clearbody left. intros n taken. destruct (last_save_split taken) as [Hn|(l1 & c & l2 & El & Hl)].
  { left. split; [done|]. by rewrite store_without_saves. }
  right. exists l1, c, l2, (l2 ++ drop n (life left).1.1).
  assert ((life left).1.1 = l1 ++ d_saved c :: (l2 ++ drop n (life left).1.1)) as E
    by (rewrite <- (take_drop n (life left).1.1) at 1; fold taken; by rewrite El, <- app_assoc).
  do 3 (split; [done|]). assert (store_after left taken = Some c) as ->
    by (rewrite El, store_after_app; apply (store_without_saves (Some c) l2 Hl)). clear El Hl taken. revert E. unfold life.
  destruct (delegate_cases d o sp input) as [(m & o' & Hd)|[(m & o' & Hd)|(registry & child & o' & Hd)]]; rewrite !Hd.
  { cbn [fst snd]; intros E; by destruct l1. }
  { destruct (recorded_answer _ _ _ left); cbn [fst snd]; intros E; by destruct l1. }
  destruct (recorded_answer _ _ _ left); [cbn [fst snd]; intros E; by destruct l1|]. cbn [fst snd fmap option_fmap option_map]. intros E.
  destruct (saved_is_as_good d input _ _ registry child Ha left l1 c _ E) as [Hb _].
  destruct (saved_goes_on d input _ _ registry child Ha left l1 c _ E) as [Hr Hg]. rewrite (recorded_here _ _ _ _ Hb).
  unfold finished_answer. destruct (dc_result c) as [r|].
  - rewrite (proj2 Hr) in Hg |- * by done. exact Hg.
  - rewrite bool_decide_eq_false_2 in Hg by (intros H%Hr; done). exact Hg.
Qed.

(** ** Pauses *)

(** What delegations save: a finished record answers without an approval, another one has no result,
    and its pending call is one the run has reached. *)
Definition sound_record (c : DelegationCheckpoint) : Prop :=
  match dc_status c with
  | delegation_completed => exists r, dc_result c = Some r /\ delegate_approval r = None
  | _ => dc_result c = None /\
         forall q, dc_pending c = Some q -> (gc_sequence (pause_call q) <= run_sequence (dc_run c))%nat
  end.

Lemma sound_start fresh stored q : (forall c, stored = Some c -> sound_record c) ->
  start_pending (start_of fresh stored) = Some q -> (gc_sequence (pause_call q) <= run_sequence (start_run (start_of fresh stored)))%nat.
Proof.
  intros Hs. destruct stored as [c|]; [|done]. specialize (Hs c eq_refl). unfold sound_record in Hs. simpl.
  case_bool_decide as He; [done|]. cbn [start_pending start_run]. destruct (dc_status c); [by apply Hs..|done].
Qed.

(** A session that parks on an approval saved the run it goes on from. *)
Lemma parked d input b dispatch registry child stored a : (forall c, stored = Some c -> sound_record c) ->
  delegate_approval (session d input b dispatch registry child stored).2 = Some a ->
  exists p res, delegated_run d input dispatch registry child stored = ((delegated_run d input dispatch registry child stored).1, res) /\
    res_end res = ended_paused p /\ pause_approval p = a /\
    let c := mkDelegationCheckpoint b delegation_paused (res_run res) (pause_iteration p) (Some p) None in
    store_after stored (session d input b dispatch registry child stored).1 = Some c /\ sound_record c.
Proof.
  intros Hs. unfold session, run_and_conclude. destruct (delegated_run d input dispatch registry child stored) as [evs res] eqn:Er.
  destruct (conclude d (requiredTools input) (Some b) res) as [fin said] eqn:Ec. cbn [fst snd]. revert Ec. unfold conclude.
  destruct (res_end res) as [text| |p|[]] eqn:He; intros [= <- <-]; try done. intros [= <-]. exists p, res. do 3 (split; [done|]). cbv zeta.
  split; [by rewrite store_after_app|]. split; [done|]. cbn [dc_pending dc_run]. intros q [= <-]. unfold delegated_run in Er.
  assert (res = (runSubAgent registry moment body alive discovery ask (child_context d child) (delegated_iterations d input) dispatch
    (start_of (fresh_messages d child (goal input)) stored)).2) as E by (by rewrite Er). rewrite E in He |- *.
  apply run_pause_sequence; [|done]. intros q. by apply sound_start.
Qed.

Lemma recorded_without_approval input roleId co stored r : (forall c, stored = Some c -> sound_record c) ->
  recorded_answer input roleId (Some co) stored = Some r -> delegate_approval r = None.
Proof.
  intros Hs. destruct stored as [c|]; [|done]. specialize (Hs c eq_refl). unfold recorded_answer, finished_answer, sound_record in *.
  assert (changed_answer input roleId co c = Some r -> delegate_approval r = None) as H.
  { unfold changed_answer. destruct (negb _); [by intros [= <-]|]. destruct (_ || _); [by intros [= <-]|done]. }
  destruct (dc_result c) as [x|] eqn:Ex; [|done]. case_bool_decide as Hd; [|done]. rewrite Hd in Hs.
  destruct Hs as (y & [= <-] & Hy). by intros [= <-].
Qed.

Lemma session_answer d input b dispatch registry child stored : (session d input b dispatch registry child stored).2 =
  (conclude d (requiredTools input) (Some b) (delegated_run d input dispatch registry child stored).2).2.
Proof. unfold session, run_and_conclude. destruct (delegated_run _ _ _ _ _ _) as [evs res]. by destruct (conclude _ _ _ _). Qed.

(** C15: an approval only delays a delegation. When a delegation parks on an approval, its record holds
    the call it waits for; and once the dispatch knows the decision, the step that runs again from
    the record gives the answer and the trace the delegation would have given, had the decision
    been there when the call was first made. The new record may park again, and so on. The record is
    one a delegation saved, and the cancellation fence lets pending calls be resumed. *)
Theorem decisions_continue_delegations d o sp input id g1 g2 stored a :
  (forall c, stored = Some c -> sound_record c) -> (forall n, alive (before_resume n) = None) ->
  let life g stored := delegate d o sp input (Some (mkContinuation id g)) stored in
  delegate_approval (life g1 stored).1.2 = Some a ->
  exists c p, store_after stored (life g1 stored).1.1 = Some c /\ sound_record c /\
    dc_pending c = Some p /\ pause_approval p = a /\ g1 (pause_call p) = g_paused a /\
    (life g2 (Some c)).1.2 = (life (splice (gc_sequence (pause_call p)) g1 g2) stored).1.2.
Proof.
  intros Hs Ha life. unfold life.
  destruct (delegate_cases d o sp input) as [(m & o' & Hd)|[(m & o' & Hd)|(registry & child & o' & Hd)]].
  { by rewrite Hd. }
  { rewrite Hd. destruct (recorded_answer _ _ _ stored) as [r|] eqn:Er; cbn [fst snd]; [|done].
    by rewrite (recorded_without_approval _ _ _ _ _ Hs Er). }
  rewrite !Hd. set (roleId := asked_role input ?? defaultRoleId d).
  destruct (recorded_answer _ _ _ stored) as [r|] eqn:Er; cbn [fst snd fmap option_fmap option_map co_identity co_dispatch].
  { by rewrite (recorded_without_approval _ _ _ _ _ Hs Er). }
  set (b := mkBinding id roleId (goal input)). intros Happr.
  destruct (parked d input b (Some g1) registry child stored a Hs Happr) as (p & res & Erun & He & Hp & Hst & Hsound).
  eexists _, p. do 4 (split; [done|]).
  set (s := start_of (fresh_messages d child (goal input)) stored) in *.
  assert (res = (runSubAgent registry moment body alive discovery ask (child_context d child) (delegated_iterations d input) (Some g1) s).2) as E
    by (unfold delegated_run in Erun; fold s in Erun; by rewrite Erun).
  rewrite E in He. destruct (run_paused _ _ _ _ _ _ _ _ _ _ _ He) as (g & [= <-] & Hctx & Hg). rewrite <- Hp. split; [done|].
  rewrite !Hd. fold roleId. rewrite (recorded_here _ _ (mkContinuation id g2)) by done.
  change (recorded_answer input roleId (Some (mkContinuation id (splice (gc_sequence (pause_call p)) g1 g2))) stored)
    with (recorded_answer input roleId (Some (mkContinuation id g1)) stored). rewrite Er.
  cbn [finished_answer dc_result fst snd fmap option_fmap option_map co_identity co_dispatch]. fold b.
  change (run_and_conclude d input (Some b)) with (session d input b). rewrite !session_answer. do 2 f_equal.
  unfold delegated_run. fold s. rewrite <- (pause_is_a_delay _ _ _ _ _ _ _ _ g1 g2 s p); [|done| |exact He|by apply Ha].
  - by rewrite <- E.
  - intros q. by apply sound_start.
Qed.

(** ** The declared outcome *)

Definition ran_events (evs : list DelegateEvent) : list SubEvent :=
  omap (fun ev => match ev with d_ran e => Some e | d_saved _ => None end) evs.

Lemma progress_kept b evs e : In e evs -> is_turn e = false -> In e (ran_events (flat_map (progress b) evs)).
Proof.
  intros Hi He. induction evs as [|x evs IH]; [done|]. unfold ran_events in *. cbn [flat_map]. rewrite omap_app, in_app_iff.
  destruct Hi as [->|Hi]; [left|right; auto]. destruct e; try done; by left.
Qed.

(** A required tool counts only when a call of it has a result that is no failure. *)
Lemma succeeded_calls status calls err required name : delegationOutcome status calls err required = outcome_succeeded ->
  In name required -> status = delegate_completed /\ exists c, In c calls /\ completes name c = true.
Proof.
  destruct status; try done. simpl. destruct (List.filter _ required) as [|x l] eqn:Ef; [|done]. intros _ Hin. split; [done|].
  apply existsb_exists. destruct (existsb (completes name) calls) eqn:Ee; [done|].
  assert (In name (List.filter (fun name => negb (existsb (completes name) calls)) required)) as H
    by (apply List.filter_In; split; [done|by rewrite Ee]). by rewrite Ef in H.
Qed.

Lemma succeeded_completed status calls err required : delegationOutcome status calls err required = outcome_succeeded -> status = delegate_completed.
Proof. by destruct status. Qed.

Lemma conclude_finished d required b res : delegate_outcome (conclude d required b res).2 = Some outcome_succeeded ->
  exists text, res_end res = ended_completed text /\ delegate_status (conclude d required b res).2 = delegate_completed /\
    finalMessage (conclude d required b res).2 = text.
Proof.
  unfold conclude. intros H. assert (forall o, Some o = Some outcome_succeeded -> o = outcome_succeeded) as Hinj by congruence.
  destruct (res_end res) as [text| |p|[]]; [by exists text|by apply Hinj, succeeded_completed in H|by destruct b|done| |];
    by apply Hinj, succeeded_completed in H.
Qed.

Lemma conclude_succeeded d required b res name : delegate_outcome (conclude d required b res).2 = Some outcome_succeeded ->
  In name (required ?? []) -> exists text c, res_end res = ended_completed text /\
    In c (extractToolCallsTrace (run_messages (res_run res)) (traceResultMaxChars d) (run_failed (res_run res))) /\
    completes name c = true.
Proof.
  unfold conclude. intros H Hin.
  destruct (res_end res) as [text| |p|[]]; [|done|by destruct b|done..].
  assert (forall o, Some o = Some outcome_succeeded -> o = outcome_succeeded) as Hinj by congruence. apply Hinj in H.
  apply (succeeded_calls _ _ _ _ name) in H as [_ (c & Hc & Hn)]; [|done]. by exists text, c.
Qed.

(** An entry of the trace that completes is a call of the log that did not fail. *)
Lemma completed_entry messages cap failed name c : In c (extractToolCallsTrace messages cap failed) -> completes name c = true ->
  exists m calls tc, In m messages /\ msg_role m = role_assistant /\ msg_calls m = Some calls /\ In tc calls /\
    call_name tc = name /\ ~ In (call_id tc) failed.
Proof.
  unfold extractToolCallsTrace. intros (tc & <- & (m & Hm & Htc)%in_flat_map)%in_map_iff. unfold completes, trace_entry, asked_calls in *.
  cbn [traced_name traced_result traced_error]. destruct (msg_role m) eqn:Er; try done. destruct (msg_calls m) as [calls|] eqn:Ec; [|done].
  destruct (response_of messages (call_id tc)) as [t|]; [|by rewrite andb_false_r]. cbn [fmap option_fmap option_map is_null negb].
  destruct (includes (call_id tc) failed) eqn:Ei; cbn [is_null]; [by rewrite andb_false_r|]. intros H. exists m, calls, tc. split_and!; try done.
  - by to_prop.
  - intros Hin. apply includes_In in Hin. congruence.
Qed.

Lemma succeeded_run d input b dispatch registry child name :
  (forall a g, List.Forall (fun m => msg_role m <> role_assistant) (fresh_messages d a g)) ->
  delegate_outcome (run_and_conclude d input b dispatch registry child None).2 = Some outcome_succeeded ->
  In name (requiredTools input ?? []) ->
  exists tc, call_name tc = name /\ carried_out discovery (ran_events (run_and_conclude d input b dispatch registry child None).1) tc.
Proof.
  intros Hfresh. unfold run_and_conclude. destruct (delegated_run d input dispatch registry child None) as [evs res] eqn:Er.
  destruct (conclude d (requiredTools input) b res) as [fin said] eqn:Ec. cbn [fst snd]. intros Ho Hin.
  destruct (conclude_succeeded d (requiredTools input) b res name) as (text & c & He & Hc & Hn); [by rewrite Ec|done|].
  destruct (completed_entry _ _ _ _ _ Hc Hn) as (m & calls & tc & Hm & Hr & Hcalls & Htc & Hname & Hf). exists tc. split; [done|].
  set (r0 := mkSubRun (fresh_messages d child (goal input)) [] 0 0 0 [] []).
  assert (logged discovery [] r0) as Hl0.
  { intros m0 calls0 tc0 Hm0 Hr0. specialize (Hfresh child (goal input)). rewrite List.Forall_forall in Hfresh. by destruct (Hfresh m0 Hm0). }
  pose proof (sub_loop_logged registry moment body alive discovery ask (child_context d child) (delegated_iterations d input - 0) dispatch 0 r0 []
    text Hl0) as H.
  change (sub_loop registry moment body alive discovery ask (child_context d child) (delegated_iterations d input - 0) dispatch 0 r0)
    with (delegated_run d input dispatch registry child None) in H. rewrite Er in H. cbn [fst snd app] in H.
  destruct (H He m calls tc Hm Hr Hcalls Htc) as [|Hdone]; [done|].
  assert (forall ev, In ev evs -> is_turn ev = false -> In ev (ran_events (flat_map (progress b) evs ++ fin))) as Hk.
  { intros ev Hev Ht. unfold ran_events. rewrite omap_app. apply in_or_app. left. by apply progress_kept. }
  destruct Hdone as [(q & oc & v & Hi & Hv)|[(call & a & Hi & Hv)|Hd]]; [left; exists q, oc, v|right; left; exists call, a|by right; right];
    (split; [by apply Hk|done]).
Qed.

Lemma ran_events_kept b evs fin e : ran_events fin = [] -> is_turn e = false ->
  ran_events (flat_map (progress b) (evs ++ [e]) ++ fin) = ran_events (flat_map (progress b) evs) ++ [e].
Proof.
  intros Hf He. unfold ran_events in *. rewrite flat_map_app, !omap_app, Hf, app_nil_r. f_equal. by destruct e.
Qed.

(** The conversation of a delegation finished, with [text]. *)
Definition finished_with (evs : list SubEvent) (text : string) : Prop :=
  exists before messages a, evs = before ++ [SAsked messages] /\ ask messages = inr a /\ ans_content a = text /\
    (ans_tool_use a = false \/ ans_calls a = []).

Lemma succeeded_finished d input b dispatch registry child :
  delegate_outcome (run_and_conclude d input b dispatch registry child None).2 = Some outcome_succeeded ->
  delegate_status (run_and_conclude d input b dispatch registry child None).2 = delegate_completed /\
  finished_with (ran_events (run_and_conclude d input b dispatch registry child None).1)
    (finalMessage (run_and_conclude d input b dispatch registry child None).2).
Proof.
  unfold run_and_conclude. destruct (delegated_run d input dispatch registry child None) as [evs res] eqn:Er.
  destruct (conclude d (requiredTools input) b res) as [fin said] eqn:Ec. cbn [fst snd]. intros Ho.
  destruct (conclude_finished d (requiredTools input) b res) as (text & He & Hst & Hm); [by rewrite Ec|]. rewrite Ec in Hst, Hm. cbn [fst snd] in Hst, Hm.
  split; [done|]. rewrite Hm. assert (ran_events fin = []) as Hfin.
  { unfold conclude in Ec. rewrite He in Ec. injection Ec as <- _. by destruct b. }
  pose proof (sub_loop_finishes registry moment body alive discovery ask (child_context d child) (delegated_iterations d input - 0) dispatch 0
    (mkSubRun (fresh_messages d child (goal input)) [] 0 0 0 [] []) text) as H.
  change (sub_loop registry moment body alive discovery ask (child_context d child) (delegated_iterations d input - 0) dispatch 0
    (mkSubRun (fresh_messages d child (goal input)) [] 0 0 0 [] [])) with (delegated_run d input dispatch registry child None) in H.
  rewrite Er in H. destruct (H He) as (l & messages & a & E & Ha). cbn [fst] in E. rewrite E, ran_events_kept by done.
  by exists (ran_events (flat_map (progress b) l)), messages, a.
Qed.

(** C16: a delegation that declares success did what it had to. When a fresh delegation answers with the
    outcome [succeeded], the conversation finished: its status is completed, and the last thing the
    model was asked it answered without asking for a tool, with the text that is the final message.
    And every required tool was called and carried out in it: its body ran and returned, the dispatch
    executed it under an approval, or it was the synthetic discovery tool. A call that was denied,
    failed or never reached is not enough. *)
Theorem succeeded_delegations_did_their_work d o sp input cont :
  (forall a g, List.Forall (fun m => msg_role m <> role_assistant) (fresh_messages d a g)) ->
  let result := (delegate d o sp input cont None).1 in
  delegate_outcome result.2 = Some outcome_succeeded ->
  delegate_status result.2 = delegate_completed /\ finished_with (ran_events result.1) (finalMessage result.2) /\
  forall name, In name (requiredTools input ?? []) -> exists tc, call_name tc = name /\ carried_out discovery (ran_events result.1) tc.
Proof.
  intros Hfresh result. unfold result.
  destruct (delegate_cases d o sp input) as [(m & o' & Hd)|[(m & o' & Hd)|(registry & child & o' & Hd)]]; rewrite Hd;
    unfold recorded_answer; [by destruct cont..|]. destruct cont as [co|]; intros Hout.
  - destruct (succeeded_finished _ _ _ _ _ _ Hout) as [H1 H2]. split; [done|]. split; [done|]. intros name Hn. by apply succeeded_run.
  - destruct (succeeded_finished _ _ _ _ _ _ Hout) as [H1 H2]. split; [done|]. split; [done|]. intros name Hn. by apply succeeded_run.
Qed.
End delegate.

(** ** The agent *)

(** A new agent that is cleaned up again leaves the agents and their children as they were. *)
Lemma clean_up_spawned o id a p : hierarchy_wf (hierarchy o) -> ~ In id (keys (hierarchy o)) -> agent_key a = id ->
  parent_key a = Some p -> In p (keys (hierarchy o)) ->
  let left := hierarchy (clean_up (with_hierarchy o (addAgent (hierarchy o) a)) id) in
  agents left = agents (hierarchy o) /\ forall k, (children left !! k) ?? [] = (children (hierarchy o) !! k) ?? [].
Proof.
  intros Hw Hid Ha Hp Hin left. set (h := hierarchy o) in *. set (h1 := addAgent h a) in *.
  assert (p <> id) as Hpid by congruence.
  assert (agents h1 = agents h ++ [a]) as Hags.
  { unfold h1, addAgent. cbn [agents]. clear -Hid Ha. unfold keys in Hid. induction (agents h) as [|b l IH]; [done|]. simpl in *.
    rewrite bool_decide_eq_false_2 by (rewrite Ha; tauto). rewrite IH by tauto. done. }
  assert (forall k, ~ In id ((children h !! k) ?? [])) as Hnone.
  { intros k (b & Hb & Hk & _)%(wf_children h Hw). apply Hid. rewrite <- Hk. by apply in_map. }
  assert ((children h !! id) ?? [] = []) as Hch.
  { destruct ((children h !! id) ?? []) as [|c l] eqn:E; [done|]. exfalso. apply Hid.
    assert (edge h id c) as (b & Hb & _ & Hpb) by (apply (wf_children h Hw); rewrite E; by left). by apply (wf_parent h Hw b). }
  assert ((children h1 !! id) ?? [] = []) as Hch1.
  { unfold h1, addAgent. cbn [children]. rewrite Hp, lookup_insert_ne by done. exact Hch. }
  assert (getAgent h1 id = Some a) as Hget.
  { unfold getAgent. rewrite Hags. clear -Hid Ha. unfold keys in Hid. induction (agents h) as [|b l IH]; simpl in *.
    - by rewrite bool_decide_eq_true_2.
    - rewrite bool_decide_eq_false_2 by tauto. apply IH. tauto. }
  assert (exists ch, left = mkHierarchy (drop_agent id (agents h1)) (drop_child p id ch) /\ ch = delete id (children h1)) as (ch & -> & ->).
  { unfold left, clean_up. change (hierarchy (with_hierarchy o h1)) with h1. cbn [terminateAgent]. rewrite Hget. unfold getChildren.
    rewrite Hch1. cbn [omap list_omap foldl]. cbn [removeAgent]. rewrite Hget, Hch1. cbn [foldl fmap option_fmap option_map]. rewrite Hp. by eexists. }
  cbn [agents children]. split.
  - rewrite Hags. unfold drop_agent. rewrite List.filter_app. simpl. rewrite bool_decide_eq_true_2, app_nil_r by done.
    apply List.forallb_filter_id, forallb_forall. intros b Hb. apply negb_true_iff, bool_decide_eq_false. intros E. apply Hid. rewrite <- E.
    by apply in_map.
  - intros k. unfold drop_child, h1, addAgent. cbn [children]. rewrite Hp, (lookup_delete_ne _ id p), lookup_insert_eq by done.
    destruct (decide (k = p)) as [->|Hkp].
    + rewrite lookup_insert_eq, Ha. unfold set_add.
      destruct (includes id ((children h !! p) ?? [])) eqn:Ei; [by apply includes_In, Hnone in Ei|].
      rewrite List.filter_app. simpl. rewrite bool_decide_eq_true_2, app_nil_r by done.
      apply List.forallb_filter_id, forallb_forall. intros b Hb. apply negb_true_iff, bool_decide_eq_false. intros ->. by apply (Hnone p).
    + rewrite lookup_insert_ne by done. destruct (decide (k = id)) as [->|Hki]; [by rewrite lookup_delete_eq, Hch|].
      by rewrite lookup_delete_ne, lookup_insert_ne.
Qed.

(** Nothing of what a delegation's sub-agent has read governs what it does next: its gate has no profile
    and no taint gating to merge. *)
Lemma delegated_agents_are_not_taint_gated d child c taint : child_context d child = Some c -> effective_profile c taint = None.
Proof. unfold child_context. destruct (has_engine d); [|done]. by intros [= <-]. Qed.

(** ** A delegation *)

Definition planner_role : RoleDefinition := mkRole "assistant" "Assistant" ["delegation"; "file-ops"; "email"; "general"] 10 None.
Definition worker_role : RoleDefinition := mkRole "worker" "Worker" ["file-ops"; "email"; "general"] 8 None.
Definition demo_delegator : M7AgentDelegator :=
  mkDelegator [("workflow-default", worker_role)] DEFAULT_ROLE_ID DEFAULT_MAX_ITERATIONS true true
    DEFAULT_TRACE_RESULT_MAX_CHARS [read_file_tool; mail_tool] (fun _ g => [mkMessage role_user (inl g) None None]).
Definition demo_daemon : Orchestrator :=
  with_hierarchy (demo_orchestrator []) (addAgent empty_hierarchy (new_agent "p" "s" 1 planner_role None None None)).
Definition demo_spawning : Spawning := mkSpawning 12 [] "c" "s" 2.
Definition demo_input : PieceAgentDelegateInput := mkDelegateInput "Send it" None None (Some ["gmail_send"]).
Definition demo_identity : DelegationIdentity := mkDelegationIdentity "wfd" "run" "step_1" [] "digest".

(** The model reads a file and sends a mail, then looks again, then answers. *)
Definition demo_thinking (messages : list LLMMessage) : string + Answered :=
  match length messages with
  | 1%nat => inr (mkAnswered EmptyString [read_call; mail_call] true 1 1)
  | 4%nat => inr (mkAnswered EmptyString [mkCall "c3" "read_file" (JObj [("path", JStr "/b")])] true 1 1)
  | _ => inr (mkAnswered "done" [] false 1 1)
  end.

Definition demo_delegate (g : GovernedToolDispatch) (stored : option DelegationCheckpoint)
    : list DelegateEvent * PieceAgentDelegateResult * Orchestrator :=
  delegate SubAgent.demo_moment demo_body demo_alive demo_discovery demo_thinking demo_delegator demo_daemon demo_spawning demo_input
    (Some (mkContinuation demo_identity g)) stored.

Definition executing (call : GovernedToolCall) : GovernedToolResult := g_executed "sent".
Definition pausing (call : GovernedToolCall) : GovernedToolResult := g_paused demo_ref.

(** The process dies in the first turn, after it, in the second one and after the end. *)
Lemma delegations_survive_crashes_witness :
  delegate_status (demo_delegate executing None).1.2 = delegate_completed /\
  (demo_delegate executing (foldl (fun stored n => store_after stored (take n (demo_delegate executing stored).1.1)) None [3; 8; 2; 50]%nat)).1.2
    = (demo_delegate executing None).1.2 /\
  continues (demo_delegate executing None).1.1 (take 8 (demo_delegate executing None).1.1)
    (demo_delegate executing (store_after None (take 8 (demo_delegate executing None).1.1))).1.1 /\
  (length (demo_delegate executing (store_after None (take 8 (demo_delegate executing None).1.1))).1.1 <? length (demo_delegate executing None).1.1)%nat = true.
Proof.
  split; [vm_compute; reflexivity|]. split; [|split; [|vm_compute; reflexivity]].
  - apply (delegations_survive_crashes SubAgent.demo_moment demo_body demo_alive demo_discovery demo_thinking demo_delegator demo_daemon
      demo_spawning demo_input (mkContinuation demo_identity executing) None [3; 8; 2; 50]%nat); done.
  - destruct (delegations_survive_crashes SubAgent.demo_moment demo_body demo_alive demo_discovery demo_thinking demo_delegator demo_daemon
      demo_spawning demo_input (mkContinuation demo_identity executing) None []) as (_ & _ & H); [done|]. exact (H 8%nat).
Defined.

Lemma decisions_continue_delegations_witness :
  delegate_approval (demo_delegate pausing None).1.2 = Some demo_ref /\
  exists c p, store_after None (demo_delegate pausing None).1.1 = Some c /\ sound_record c /\ dc_pending c = Some p /\
    pause_approval p = demo_ref /\ pausing (pause_call p) = g_paused demo_ref /\
    (demo_delegate executing (Some c)).1.2 = (demo_delegate (splice (gc_sequence (pause_call p)) pausing executing) None).1.2.
Proof.
  split; [vm_compute; reflexivity|].
  apply (decisions_continue_delegations SubAgent.demo_moment demo_body demo_alive demo_discovery demo_thinking demo_delegator demo_daemon
    demo_spawning demo_input demo_identity pausing executing None demo_ref); [done|done|vm_compute; reflexivity].
Defined.

Lemma succeeded_delegations_did_their_work_witness :
  delegate_outcome (demo_delegate executing None).1.2 = Some outcome_succeeded /\
  finished_with demo_thinking (ran_events (demo_delegate executing None).1.1) "done" /\
  exists tc, call_name tc = "gmail_send" /\ carried_out demo_discovery (ran_events (demo_delegate executing None).1.1) tc.
Proof.
  destruct (succeeded_delegations_did_their_work SubAgent.demo_moment demo_body demo_alive demo_discovery demo_thinking demo_delegator
    demo_daemon demo_spawning demo_input (Some (mkContinuation demo_identity executing))) as (_ & H1 & H2);
    [by repeat constructor|vm_compute; reflexivity|].
  split; [vm_compute; reflexivity|]. split; [exact H1|]. apply H2. by left.
Defined.

(** A call to the model that fails because the run was cancelled under it ends the delegation as an error,
    and its record is written back, although the scope has refused to go on since. *)
Example model_error_hides_cancellation :
  let alive p := match p with before_ask O => None | _ => Some "canceled" end in
  let answer := (delegate SubAgent.demo_moment demo_body alive demo_discovery (fun _ => inl "aborted") demo_delegator demo_daemon
                   demo_spawning demo_input (Some (mkContinuation demo_identity executing)) None).1 in
  delegate_status answer.2 = delegate_error /\ (dc_status <$> store_after None answer.1) = Some delegation_completed.
Proof. split; vm_compute; reflexivity. Qed.
