(* ===== verification/DelegateDispatch.v ===== *)
(** * The governed calls of a delegation (workflows/runtime/service-backends.ts)

    [agentDelegate] first passes the effect boundary itself ([delegation_invocation]), which only
    says that delegating was allowed, and then hands the step to the delegator with a continuation
    whose dispatch makes each governed tool call of the sub-agent an effect of its own. As
    [invoke] does, the dispatch stops where it awaits: [dispatch_begin], [dispatch_delivered] after
    the notification of a new approval, [dispatch_finish] when the tool has settled. The check
    that the tool's callback repeats before it runs is the one the boundary has just made. *)
From S2P Require Export Delegate.

(** ** Names (workflows/runtime/effect-capabilities.ts) *)

Definition OPAQUE_TOOL_NAMES : list string :=
  ["run_command"; "browser_evaluate"; "browser_navigate"; "browser_click"; "browser_type"; "browser_upload_file";
   "browser_press_key"; "browser_hover"; "browser_scroll"; "desktop_click"; "desktop_type"; "desktop_press_keys";
   "desktop_launch_app"; "desktop_focus_window"; "record_skill"; "manage_skills"].
Definition GATED_TOOL_NAMES : list string := ["run_skill"].

Definition AGENT_PIECE : string := "@jarvispieces/piece-jarvis-agent".

(** ** The delegation as an effect *)

Section boundary.
Context (sha256 : string -> string).

(** The request without how the caller handles the outcome. *)
Definition effect_request (input : PieceAgentDelegateInput) : params :=
  [("goal", JStr (goal input))] ++
  match asked_role input with Some r => [("role", JStr r)] | None => [] end ++
  match asked_iterations input with Some n => [("maxIterations", JNum n)] | None => [] end.

Definition delegation_invocation (ctx : WorkflowEffectContext) (input : PieceAgentDelegateInput) : EffectInvocation :=
  mkInvocation ctx AGENT_PIECE "delegate" "agent" "workflow_delegate" spawn_agent "delegation" None (JObj (effect_request input)) None
    (inr (effect_request input, [("role", JStr (asked_role input ?? "workflow-default"))])) (fun _ _ => None) None false.

Definition delegation_identity (r : ResolvedContext) : DelegationIdentity :=
  mkDelegationIdentity
    ("wfd_" +:+ digest sha256 (JArr [JStr (run_id (rc_run r)); JStr (rc_stepName r); path_json (rc_executionPath r)]))
    (run_id (rc_run r)) (rc_stepName r) (rc_executionPath r) (rc_versionDigest r).

(** What the step answers when the boundary has answered: it waits, or the delegation starts. *)
Definition waiting_answer (reply : EffectReply) : option PieceAgentDelegateResult :=
  match reply with
  | reply_approval e a w =>
      Some (mkDelegateResult EmptyString [] delegate_approval_required None (Some (mkApprovalRef e a w)) None)
  | reply_result _ => None
  end.

(** ** A governed call as an effect *)

Definition agent_tool_route (sequence : nat) : string := "agent-tool:" +:+ show_z (Z.of_nat sequence).

Definition call_target (call : GovernedToolCall) : params :=
  let p := gc_principal call in
  [("tool", JStr (call_name (gc_call call))); ("sequence", JNum (Z.of_nat (gc_sequence call)));
   ("principal", JObj [("agentId", JStr (pr_agent p)); ("agentRoleId", JStr (pr_role p)); ("agentAuthorityLevel", JNum (pr_level p))])].

Definition call_invocation (ctx : WorkflowEffectContext) (call : GovernedToolCall) : EffectInvocation :=
  let p := gc_principal call in
  mkInvocation ctx AGENT_PIECE "delegate" (agent_tool_route (gc_sequence call)) (call_name (gc_call call)) (gc_action call)
    (gc_tool_category call) None
    (JObj [("toolName", JStr (call_name (gc_call call))); ("arguments", call_arguments (gc_call call))]) None
    (inr (args_of (gc_call call), call_target call)) (fun _ _ => None)
    (Some (EffectBoundary.mkPrincipal (pr_agent p) (pr_role p) (pr_level p) (SubAgent.pr_profile p))) true.

(** The record of the call in a run of the delegation, by [resolved]. *)
Definition call_effect_id (r : ResolvedContext) (call : GovernedToolCall) : string :=
  workflowEffectId sha256 (run_id (rc_run r)) (rc_stepName r) (rc_executionPath r) (agent_tool_route (gc_sequence call)).

(** Calls no approval can describe. *)
Definition unsupported (name : string) : option string :=
  if includes name OPAQUE_TOOL_NAMES
  then Some ("Unsupported workflow capability: " +:+ name +:+ " has opaque code/UI effects; use a typed governed adapter.")
  else if includes name GATED_TOOL_NAMES
  then Some ("Unsupported workflow capability: " +:+ name +:+
             " is only approvable through its typed adapter; call it as a flow step, not from a delegated agent.")
  else None.

(** [String(result ?? '')] of what the callback below returns: a text or nothing. *)
Definition result_text (v : json) : string := match v with JStr s => s | JNull => EmptyString | _ => stringify v end.

(** The record the boundary left decides what the agent sees, not the message. *)
Definition refused_answer (recorded : option WorkflowEffect) (message : string) : GovernedToolResult :=
  match recorded with
  | Some e =>
      match eff_status e with
      | effect_blocked => g_denied (eff_error e ?? message)
      | effect_failed | effect_unknown => g_failed (eff_error e ?? message)
      | _ => g_raised message
      end
  | None => g_raised message
  end.

(** Where the dispatch of a call stands. *)
Inductive GovernedStep :=
  | governed_answers (g : GovernedToolResult)
  | governed_delivering (r : ResolvedContext) (e : WorkflowEffect)
  | governed_runs (r : ResolvedContext) (e : WorkflowEffect) (args : json).

Definition governed_step (resolved : ResolvedContext) (call : GovernedToolCall) (p : EffectWorld * InvokeStep)
    : EffectWorld * GovernedStep :=
  let (w, s) := p in
  (w, match s with
      | effect_throws err => governed_answers (refused_answer (getWorkflowEffect (call_effect_id resolved call) w) (error_text err))
      | effect_replies (reply_result v) => governed_answers (g_executed (result_text v))
      | effect_replies (reply_approval e a wp) => governed_answers (g_paused (mkApprovalRef e a wp))
      | effect_delivering r e => governed_delivering r e
      | effect_dispatched r e args => governed_runs r e args
      end).

Definition dispatch_begin (resolved : ResolvedContext) (ctx : WorkflowEffectContext) (w : EffectWorld) (hour : Z)
    (call : GovernedToolCall) (approvalId waitpointId audit_id : string) (now : Z) : EffectWorld * GovernedStep :=
  match unsupported (call_name (gc_call call)) with
  | Some why => (w, governed_answers (g_denied why))
  | None => governed_step resolved call (invoke_begin sha256 w hour (call_invocation ctx call) approvalId waitpointId audit_id now)
  end.

Definition dispatch_delivered (resolved : ResolvedContext) (ctx : WorkflowEffectContext) (w : EffectWorld) (hour : Z)
    (call : GovernedToolCall) (r : ResolvedContext) (e : WorkflowEffect) (audit_id : string) (now : Z)
    : EffectWorld * GovernedStep :=
  governed_step resolved call (invoke_delivered sha256 w hour (call_invocation ctx call) r e audit_id now).

(** What [registry.execute] does with the frozen arguments: it returns a value ([None] is [undefined]),
    or throws an action outcome or another error. *)
Inductive ExecuteEnd := execute_returns (v : option json) | execute_fails (f : ActionFailure) | execute_throws (message : string).

Definition call_callback (name : string) (x : ExecuteEnd) : EffectCallback :=
  match x with
  | execute_returns (Some (JStr s)) => callback_returns (Some (JStr s))
  | execute_returns v => callback_returns ((fun v => JStr (stringify v)) <$> v)
  | execute_fails f => callback_throws (outcome_error f)
  | execute_throws m =>
      callback_throws (outcome_error (mkFailure failure_error "TOOL_FAILED" ("Error executing " +:+ name +:+ ": " +:+ m) false))
  end.

Definition dispatch_finish (resolved : ResolvedContext) (ctx : WorkflowEffectContext) (w : EffectWorld) (call : GovernedToolCall)
    (r : ResolvedContext) (e : WorkflowEffect) (x : ExecuteEnd) (audit_id : string) (now : Z) : EffectWorld * GovernedStep :=
  governed_step resolved call (invoke_finish w (call_invocation ctx call) r e (call_callback (call_name (gc_call call)) x) audit_id now).

(** ** The answers of a record *)

(** What a settled record answers, whenever it is asked. *)
Definition settled_call (e : WorkflowEffect) : option GovernedToolResult :=
  match eff_status e with
  | effect_succeeded => Some (g_executed (result_text (eff_result e ?? JNull)))
  | effect_blocked => g_denied <$> eff_error e
  | effect_failed | effect_unknown => g_failed <$> eff_error e
  | effect_pending | effect_dispatching => None
  end.

Lemma settled_asked_again resolved ctx w hour call appr wp a now e g :
  ew_wired w = true -> resolveEffectContext sha256 ctx AGENT_PIECE "delegate" w = inr resolved ->
  getWorkflowEffect (call_effect_id resolved call) w = Some e -> settled_call e = Some g ->
  effect_changed sha256 e (call_invocation ctx call) resolved = false -> unsupported (call_name (gc_call call)) = None ->
  dispatch_begin resolved ctx w hour call appr wp a now = (w, governed_answers g).
Proof.
  intros Hw Hr Hg Hs Hc Hu. unfold dispatch_begin. rewrite Hu. unfold invoke_begin. rewrite Hw. cbn [negb in_context in_piece in_action call_invocation].
  rewrite Hr. cbv zeta. cbn [in_route call_invocation]. fold (call_effect_id resolved call). rewrite Hg.
  fold (call_invocation ctx call). rewrite Hc. unfold settled_call, settled_answer in *.
  destruct (eff_status e) eqn:Es; try done; [by injection Hs as <-|..]; destruct (eff_error e) as [m|] eqn:Ee; try done;
    injection Hs as <-; destruct (eff_outcome e); unfold governed_step, refused_answer; rewrite Hg, Es, Ee; done.
Qed.

Lemma finished_settled_call name x now e : exists g, settled_call (finished_effect (call_callback name x) now e) = Some g /\
  match call_callback name x with
  | callback_returns v => g = g_executed (result_text (v ?? JNull))
  | callback_throws err => forall w, getWorkflowEffect (eff_id e) w = Some (finished_effect (call_callback name x) now e) ->
      refused_answer (getWorkflowEffect (eff_id e) w) (error_text err) = g
  end.
Proof.
  assert (forall v, exists g, settled_call (finished_effect (callback_returns v) now e) = Some g /\ g = g_executed (result_text (v ?? JNull)))
    as Hv by (intros v; by eexists).
  assert (forall f, exists g, settled_call (finished_effect (callback_throws (outcome_error f)) now e) = Some g /\
    forall w, getWorkflowEffect (eff_id e) w = Some (finished_effect (callback_throws (outcome_error f)) now e) ->
      refused_answer (getWorkflowEffect (eff_id e) w) (error_text (outcome_error f)) = g) as Hf.
  { intros f. unfold settled_call, refused_answer. cbn [finished_effect eff_status eff_error settled_status].
    unfold settled_status. destruct (failure_status f); eexists; (split; [done|]); intros w ->; done. }
  destruct x as [[[]|]|f|m]; [apply Hv..|apply Hf|apply Hf].
Qed.

Lemma finished_get w i r e o a now : getWorkflowEffect (eff_id e) (invoke_finish w i r e o a now).1 = Some (finished_effect o now e).
Proof.
  unfold getWorkflowEffect. rewrite finish_effects. pose proof (save_get (finished_effect o now e) w (eff_id e)) as H.
  rewrite finished_id, bool_decide_eq_true_2 in H by done. exact H.
Qed.

(** A call whose tool settled answers from the record from then on. *)
Lemma finished_answers resolved ctx w call r e x a now : eff_id e = call_effect_id resolved call ->
  exists g, dispatch_finish resolved ctx w call r e x a now =
    ((invoke_finish w (call_invocation ctx call) r e (call_callback (call_name (gc_call call)) x) a now).1, governed_answers g) /\
    settled_call (finished_effect (call_callback (call_name (gc_call call)) x) now e) = Some g.
Proof.
  intros Hid. destruct (finished_settled_call (call_name (gc_call call)) x now e) as (g & Hs & Hg). exists g. split; [|done].
  pose proof (finished_get w (call_invocation ctx call) r e (call_callback (call_name (gc_call call)) x) a now) as Hget.
  unfold dispatch_finish, governed_step. revert Hget. unfold invoke_finish. cbv zeta.
  destruct (call_callback (call_name (gc_call call)) x) as [v|err]; cbn [fst]; intros Hget; [by rewrite Hg|].
  rewrite <- Hid. by rewrite (Hg _ Hget).
Qed.
End boundary.

(** ** Theorems *)

(** C17: one dispatch per approved call, and one answer. When the tool of a governed call has settled, the
    dispatch answers the sub-agent, and every time a resumed conversation asks for the same call
    again, whatever else happened in the daemon meanwhile, it gives that same answer from the
    record, runs nothing and changes nothing. *)
Theorem decided_calls_keep_their_answer sha256 resolved ctx w call r e x a now evs : effects_keyed w ->
  eff_id e = call_effect_id sha256 resolved call -> effect_changed sha256 e (call_invocation ctx call) resolved = false ->
  unsupported (call_name (gc_call call)) = None ->
  (forall i r x o a now, In (ee_finish i r x o a now) evs -> eff_id x <> eff_id e) ->
  let settled := dispatch_finish sha256 resolved ctx w call r e x a now in
  exists g, settled.2 = governed_answers g /\
    let later := (effect_events sha256 settled.1 evs).1 in
    forall hour appr wp a' now', ew_wired later = true ->
      resolveEffectContext sha256 ctx AGENT_PIECE "delegate" later = inr resolved ->
      dispatch_begin sha256 resolved ctx later hour call appr wp a' now' = (later, governed_answers g).
Proof.
  intros Hk Hid Hc Hu Hf settled. destruct (finished_answers sha256 resolved ctx w call r e x a now Hid) as (g & E & Hg).
  unfold settled. rewrite E. exists g. split; [done|]. cbn [fst]. intros hour appr wp a' now' Hw Hr.
  set (o := call_callback (call_name (gc_call call)) x) in *. set (e' := finished_effect o now e) in *.
  set (later := (effect_events sha256 _ evs).1) in *.
  assert (getWorkflowEffect (eff_id e) later = Some e') as Hget.
  { set (w1 := (invoke_finish w (call_invocation ctx call) r e o a now).1) in *.
    assert (effects_keyed w1) as Hk1 by (unfold effects_keyed, w1; rewrite finish_effects; by apply save_keyed).
    by destruct (effect_outcome_is_final sha256 w1 evs (eff_id e) e' Hk1 (finished_get w _ r e o a now) (finished_settled o now e) Hf) as [H _]. }
  apply (settled_asked_again sha256 resolved ctx later hour call appr wp a' now' e'); try done; [by rewrite <- Hid|].
  unfold effect_changed in *. assert (identity e' = identity e) as -> by (unfold e'; by destruct o as [v|[f|m]]). done.
Qed.

(** A sub-agent's governed call runs only under its own approval. The tool's body is started by the
    dispatch only when its name is one an approval can describe, and a recorded, approved request
    covers the frozen arguments it is handed; the system is in its normal state, the run is running
    and not canceled at the version of the record, and the sub-agent itself, with its level and its
    profile, is allowed the call. A gate that required the approval is never overruled. *)
Theorem governed_calls_run_approved sha256 resolved ctx w hour call appr wp a now r0 e0 w' r e args :
  dispatch_begin sha256 resolved ctx w hour call appr wp a now = (w', governed_runs r e args) \/
  unsupported (call_name (gc_call call)) = None /\
  dispatch_delivered sha256 resolved ctx w hour call r0 e0 a now = (w', governed_runs r e args) ->
  includes (call_name (gc_call call)) OPAQUE_TOOL_NAMES = false /\ includes (call_name (gc_call call)) GATED_TOOL_NAMES = false /\
  (exists id, eff_approvalId e = Some id /\ approval_covers sha256 w (call_invocation ctx call) e id) /\
  args = canonical (JObj (ef_arguments (identity e))) /\
  effect_cleared sha256 w hour (call_invocation ctx call) e.
Proof.
  assert (forall p, governed_step sha256 resolved call p = (w', governed_runs r e args) -> p = (w', effect_dispatched r e args)) as Hstep.
  { intros [w1 [err|[]|r1 e1|r1 e1 args1]]; by intros [= -> -> -> ->]. }
  intros H. assert (unsupported (call_name (gc_call call)) = None /\ effect_cleared sha256 w hour (call_invocation ctx call) e /\
    args = canonical (JObj (ef_arguments (identity e)))) as (Hu & Hc & Hargs).
  { destruct H as [H|[Hu H]]; [unfold dispatch_begin in H; destruct (unsupported _); [done|]|]; apply Hstep in H; (split; [done|]);
      [by apply begin_cleared in H|by apply delivered_cleared in H]. }
  unfold unsupported in Hu. destruct (includes _ OPAQUE_TOOL_NAMES); [done|]. destruct (includes _ GATED_TOOL_NAMES); [done|].
  do 2 (split; [done|]). split; [|done]. destruct Hc as (_ & _ & _ & _ & _ & _ & _ & Ha).
  destruct (eff_approvalId e) as [id|]; [by exists id|]. by destruct Ha as (_ & Hn & _).
Qed.

(** ** A governed call *)

(** The running flow of [EffectBoundary], with a step that delegates. *)
Definition agent_version : FlowVersion :=
  mkVersion "v1" "flow" "Flow" (JObj [("name", JStr "trigger"); ("type", JStr "EMPTY"); ("nextAction",
    JObj [("name", JStr "step_1"); ("type", JStr "PIECE");
          ("settings", JObj [("pieceName", JStr AGENT_PIECE); ("actionName", JStr "delegate")])])]).
Definition agent_world : EffectWorld :=
  mkEffectWorld (ew_db demo_effect_world) [agent_version] [] (ew_mgr demo_effect_world) [] normal (ew_config demo_effect_world) true true.
Definition agent_ctx : WorkflowEffectContext := mkContext "run" "project" None (Some "step_1") (Some []).
Definition agent_resolved : ResolvedContext :=
  EffectBoundary.mkResolved demo_flow_run agent_version "step_1" [] (digest demo_hash (version_trigger agent_version)).
Definition worker_call : GovernedToolCall :=
  mkGoverned mail_call 2 send_email "email" (SubAgent.mkPrincipal "c" "worker" 8 None) "governed".

(** The step of a world that has asked, been approved and been told. *)
Definition agent_asked : EffectWorld * GovernedStep :=
  dispatch_begin demo_hash agent_resolved agent_ctx agent_world 9 worker_call "appr" "wp" "a1" 1.
Definition agent_approved : EffectWorld := set_mgr (approve (ew_mgr agent_asked.1) "appr" "user" 2).1 agent_asked.1.
Definition agent_runs : EffectWorld * GovernedStep :=
  dispatch_begin demo_hash agent_resolved agent_ctx agent_approved 9 worker_call "appr2" "wp2" "a2" 3.

Definition running_record (s : GovernedStep) : ResolvedContext * WorkflowEffect :=
  match s with governed_delivering r e | governed_runs r e _ => (r, e) | _ => (no_context, no_effect) end.

Lemma governed_calls_run_approved_witness :
  match agent_runs.2 with
  | governed_runs r e args => exists id, eff_approvalId e = Some id /\
      approval_covers demo_hash agent_approved (call_invocation agent_ctx worker_call) e id
  | _ => False
  end.
Proof.
  destruct agent_runs.2 as [g|r e|r e args] eqn:E; try (vm_compute in E; discriminate E).
  destruct (governed_calls_run_approved demo_hash agent_resolved agent_ctx agent_approved 9 worker_call "appr2" "wp2" "a2" 3
    agent_resolved no_effect agent_runs.1 r e args) as (_ & _ & H & _); [|exact H].
  left. rewrite <- E. apply surjective_pairing.
Defined.

(** The mail is sent; the resumed conversation asks for it again. *)
Lemma decided_calls_keep_their_answer_witness :
  let e := (running_record agent_runs.2).2 in
  let settled := dispatch_finish demo_hash agent_resolved agent_ctx agent_runs.1 worker_call agent_resolved e
                   (execute_returns (Some (JStr "sent"))) "a3" 4 in
  settled.2 = governed_answers (g_executed "sent") /\
  dispatch_begin demo_hash agent_resolved agent_ctx settled.1 9 worker_call "appr3" "wp3" "a4" 5 = (settled.1, governed_answers (g_executed "sent")).
Proof.
  intros e settled. split; [vm_compute; reflexivity|].
  edestruct (decided_calls_keep_their_answer demo_hash agent_resolved agent_ctx agent_runs.1 worker_call agent_resolved e
    (execute_returns (Some (JStr "sent"))) "a3" 4 []) as (g & Hg & H).
  - vm_compute. constructor; [by intros []|constructor].
  - vm_compute. reflexivity.
  - vm_compute. reflexivity.
  - reflexivity.
  - by intros i r x o a now [].
  - assert (g = g_executed "sent") as -> by (vm_compute in Hg; injection Hg as <-; reflexivity).
    apply (H 9 "appr3" "wp3" "a4" 5); vm_compute; reflexivity.
Defined.
