(* ===== verification/LlmOutput.v ===== *)
(** * The output contract of model steps (workflows/runtime/llm-output-contract.ts)

    A step that asks a model for JSON declares a schema in a closed subset of JSON Schema.
    [parseOutputSchema] accepts a declaration or says why not, [validateOutput] lists how a value
    departs from it, and [evaluateLlmOutput] turns a reply into an outcome. A declaration and a
    reply are JSON values ([JsonData]). The recursion of [parseNode] follows the source's limit on
    nesting, so it needs no other bound. *)
From Stdlib Require Import Ascii.
From S2P Require Export JsonData Effects EffectBoundary.

(** ** Schemas *)

Inductive OutputSchemaType := t_object | t_array | t_string | t_number | t_integer | t_boolean | t_null.

#[export] Instance OutputSchemaType_eq_dec : EqDecision OutputSchemaType.
Proof. solve_decision. Defined.

Definition type_name (t : OutputSchemaType) : string :=
  match t with
  | t_object => "object" | t_array => "array" | t_string => "string" | t_number => "number" | t_integer => "integer"
  | t_boolean => "boolean" | t_null => "null"
  end.

Definition TYPES : list OutputSchemaType := [t_object; t_array; t_string; t_number; t_integer; t_boolean; t_null].

(** The keywords of a node that hold no schema. *)
Record NodeRules := mkRules {
  required : option (list string);
  additionalProperties : option bool;
  enum : option (list jval);
  minItems : option number; maxItems : option number;
  minLength : option number; maxLength : option number;
  minimum : option number; maximum : option number;
  title : option string; description : option string }.

Inductive OutputSchema := mkSchema (type : OutputSchemaType) (rules : NodeRules)
  (properties : option (list (string * OutputSchema))) (items : option OutputSchema).

Definition schema_type (s : OutputSchema) : OutputSchemaType := let '(mkSchema t _ _ _) := s in t.
Definition schema_rules (s : OutputSchema) : NodeRules := let '(mkSchema _ r _ _) := s in r.
Definition schema_properties (s : OutputSchema) : list (string * OutputSchema) := let '(mkSchema _ _ ps _) := s in ps ?? [].
Definition schema_items (s : OutputSchema) : option OutputSchema := let '(mkSchema _ _ _ i) := s in i.

(** [OUTPUT_SCHEMA_LIMITS] *)
Definition limit_nodes : nat := 256.
Definition limit_depth : nat := 8.
Definition limit_properties : nat := 64.
Definition limit_enumValues : nat := 64.
Definition limit_violations : nat := 20.
Definition limit_nameLength : nat := 128.
Definition limit_nameExcerpt : nat := 80.

Definition KEYWORDS : list string :=
  ["type"; "properties"; "required"; "additionalProperties"; "items"; "enum"; "minItems"; "maxItems"; "minLength";
   "maxLength"; "minimum"; "maximum"; "title"; "description"].
Definition forbiddenNames : list string := ["__proto__"; "prototype"; "constructor"].

(** ** Names in messages *)

Definition smap_str (f : ascii -> string) (s : string) : string :=
  foldr (fun c acc => f c +:+ acc) EmptyString (String.list_ascii_of_string s).

(** RFC 6901 escaping. *)
Definition pointer (name : string) : string :=
  smap_str (fun c => if Ascii.eqb c "~" then "~0" else if Ascii.eqb c "/" then "~1" else String c EmptyString) name.

(** [\p{C}] among the code units below 256: controls and the soft hyphen. *)
Definition is_other (c : ascii) : bool :=
  let n := nat_of_ascii c in (n <? 32)%nat || ((127 <=? n)%nat && (n <=? 159)%nat) || (n =? 173)%nat.

Definition escape_quote (c : ascii) : string :=
  if Ascii.eqb c dquote || Ascii.eqb c "\" then String "\" (String c EmptyString) else String c EmptyString.
Definition escape_other (c : ascii) : string :=
  if is_other c
  then let n := nat_of_ascii c in "\u00" +:+ String (hex_digit (n / 16)) (String (hex_digit (n mod 16)) EmptyString)
  else String c EmptyString.

Definition label (name : string) : string :=
  let escaped := smap_str escape_other (smap_str escape_quote (pointer name)) in
  if (limit_nameExcerpt <? String.length escaped)%nat then stake limit_nameExcerpt escaped +:+ "..." else escaped.

(** ** Values *)

(** The integer keys of an object come first, in ascending order. *)
Definition array_index (k : string) : option Z :=
  match span_digits k with
  | (d, EmptyString) => if good_digits d && (digits_value d <? 2 ^ 32 - 1) then Some (digits_value d) else None
  | _ => None
  end.

Fixpoint insert_index {A} (i : Z) (e : A) (l : list (Z * A)) : list (Z * A) :=
  match l with
  | [] => [(i, e)]
  | (j, x) :: l' => if i <=? j then (i, e) :: l else (j, x) :: insert_index i e l'
  end.

Definition object_entries {A} (fields : list (string * A)) : list (string * A) :=
  map snd (foldr (fun e acc => match array_index e.1 with Some i => insert_index i e acc | None => acc end) [] fields) ++
  List.filter (fun e => is_null (array_index e.1)) fields.

(** [Number.isInteger] *)
Definition is_integer (x : number) : bool :=
  match x with
  | SpecFloat.S754_zero _ => true
  | SpecFloat.S754_finite _ m e => let '(num, den) := fraction m e in num mod den =? 0
  | _ => false
  end.

Definition jsonType (v : jval) : OutputSchemaType :=
  match v with
  | VNull => t_null | VBool _ => t_boolean | VString _ => t_string | VList _ => t_array | VRecord _ => t_object
  | VNumber x => if is_integer x then t_integer else t_number
  end.

Definition type_matches (actual declared : OutputSchemaType) : bool :=
  bool_decide (actual = declared) || (bool_decide (declared = t_number) && bool_decide (actual = t_integer)).

Definition isPrimitive (v : jval) : bool := match v with VList _ | VRecord _ => false | _ => true end.

(** [===] on primitives. *)
Definition strict_eq (a b : jval) : bool :=
  match a, b with
  | VNull, VNull => true
  | VBool x, VBool y => Bool.eqb x y
  | VNumber x, VNumber y => num_eqb x y
  | VString x, VString y => bool_decide (x = y)
  | _, _ => false
  end.

(** ** Declarations *)

Definition quoted (k : string) : string := String dquote (k +:+ String dquote EmptyString).

(** [fail]: the message and where. *)
Definition fails {A} (at_ message : string) : st string nat A := throw (message +:+ " at " +:+ at_).
Definition guard (ok : bool) (at_ message : string) : st string nat unit := if ok then mret tt else fails at_ message.

(** [++budget.nodes > limit] *)
Definition count_node (at_ : string) : st string nat unit :=
  fun nodes => if (limit_nodes <? S nodes)%nat then fails at_ "schema exceeds 256 nodes" (S nodes) else inr (tt, S nodes).

Definition parse_type (at_ : string) (fields : list (string * jval)) : st string nat OutputSchemaType :=
  match map_get "type" fields with
  | Some (VString s) =>
      match List.find (fun t => bool_decide (type_name t = s)) TYPES with
      | Some t => mret t
      | None => fails at_ (quoted "type" +:+ " must be one of object, array, string, number, integer, boolean, null")
      end
  | _ => fails at_ (quoted "type" +:+ " must be one of object, array, string, number, integer, boolean, null")
  end.

Definition parse_text (at_ keyword : string) (fields : list (string * jval)) : st string nat (option string) :=
  match map_get keyword fields with
  | None => mret None
  | Some (VString s) => mret (Some s)
  | Some _ => fails at_ (quoted keyword +:+ " must be a string")
  end.

Definition only (at_ : string) (fields : list (string * jval)) (t : OutputSchemaType) (keyword : string) (types : list OutputSchemaType)
    : st string nat unit :=
  guard (negb (map_has keyword fields) || includes t types) at_
    (quoted keyword +:+ " applies to " +:+ JsString.join " or " (map type_name types) +:+ " only").

Definition integerAtLeastZero (at_ keyword : string) (fields : list (string * jval)) : st string nat (option number) :=
  match map_get keyword fields with
  | None => mret None
  | Some (VNumber x) =>
      if is_integer x && negb (num_ltb x (num_of_Z 0)) then mret (Some x)
      else fails at_ (quoted keyword +:+ " must be a non-negative integer")
  | Some _ => fails at_ (quoted keyword +:+ " must be a non-negative integer")
  end.

Definition finite (at_ keyword : string) (fields : list (string * jval)) : st string nat (option number) :=
  match map_get keyword fields with
  | None => mret None
  | Some (VNumber x) => if is_finite_num x then mret (Some x) else fails at_ (quoted keyword +:+ " must be a finite number")
  | Some _ => fails at_ (quoted keyword +:+ " must be a finite number")
  end.

(** The texts of a list of non-empty texts. *)
Definition names_of (l : list jval) : option (list string) :=
  mapM (fun v => match v with VString s => if truthy s then Some s else None | _ => None end) l.

Definition parse_required (at_ : string) (fields : list (string * jval)) : st string nat (option (list string)) :=
  match map_get "required" fields with
  | None => mret None
  | Some v =>
      match (match v with VList l => names_of l | _ => None end) with
      | None => fails at_ (quoted "required" +:+ " must be an array of property names")
      | Some names =>
          _ ← guard (forallb (fun n => (String.length n <=? limit_nameLength)%nat) names) at_
                (quoted "required" +:+ " names a property longer than 128 characters");
          _ ← guard (length (dedup names) =? length names)%nat at_ (quoted "required" +:+ " lists a property twice");
          _ ← guard (negb (existsb (fun n => includes n forbiddenNames) names)) at_
                (quoted "required" +:+ " names a property that is not allowed");
          mret (Some names)
      end
  end.

Definition parse_additional (at_ : string) (fields : list (string * jval)) : st string nat (option bool) :=
  match map_get "additionalProperties" fields with
  | None => mret None
  | Some (VBool b) => mret (Some b)
  | Some _ => fails at_ (quoted "additionalProperties" +:+ " must be true or false")
  end.

(** [min !== undefined && max !== undefined && min > max] *)
Definition exceeds (min max : option number) : bool :=
  match min, max with Some a, Some b => num_ltb b a | _, _ => false end.

Definition parse_enum (at_ : string) (fields : list (string * jval)) (t : OutputSchemaType) : st string nat (option (list jval)) :=
  match map_get "enum" fields with
  | None => mret None
  | Some (VList (x :: l)) =>
      _ ← guard (length (x :: l) <=? limit_enumValues)%nat at_ (quoted "enum" +:+ " exceeds 64 values");
      _ ← guard (forallb isPrimitive (x :: l)) at_ (quoted "enum" +:+ " values must be strings, numbers, booleans or null");
      _ ← guard (forallb (fun v => type_matches (jsonType v) t) (x :: l)) at_
            (quoted "enum" +:+ " contains a value that is not of type " +:+ type_name t);
      mret (Some (x :: l))
  | Some _ => fails at_ (quoted "enum" +:+ " must be a non-empty array")
  end.

(** What precedes the nested schemas, and what follows them. *)
Definition node_type (at_ : string) (fields : list (string * jval)) : st string nat (OutputSchemaType * option string * option string) :=
  _ ← match List.find (fun k => negb (includes k KEYWORDS)) (map fst (object_entries fields)) with
      | Some k => fails at_ ("unsupported schema keyword " +:+ quoted k)
      | None => mret tt
      end;
  t ← parse_type at_ fields;
  ti ← parse_text at_ "title" fields;
  de ← parse_text at_ "description" fields;
  _ ← only at_ fields t "properties" [t_object]; _ ← only at_ fields t "required" [t_object];
  _ ← only at_ fields t "additionalProperties" [t_object];
  _ ← only at_ fields t "items" [t_array]; _ ← only at_ fields t "minItems" [t_array]; _ ← only at_ fields t "maxItems" [t_array];
  _ ← only at_ fields t "minLength" [t_string]; _ ← only at_ fields t "maxLength" [t_string];
  _ ← only at_ fields t "minimum" [t_number; t_integer]; _ ← only at_ fields t "maximum" [t_number; t_integer];
  mret (t, ti, de).

Fixpoint parseNode (levels : nat) (value : jval) (path : string) {struct levels} : st string nat OutputSchema :=
  let at_ := if truthy path then path else "/" in
  match value with
  | VRecord fields =>
      _ ← count_node at_;
      match levels with
      | O => fails at_ "schema nesting exceeds 8 levels"
      | S levels' =>
          head ← node_type at_ fields;
          let '(t, ti, de) := head in
          ps ← match map_get "properties" fields with
               | None => mret None
               | Some (VRecord entries) =>
                   _ ← guard (length entries <=? limit_properties)%nat at_ (quoted "properties" +:+ " exceeds 64 entries");
                   l ← each (fun e : string * jval =>
                        _ ← guard (String.length e.1 <=? limit_nameLength)%nat at_ "property name exceeds 128 characters";
                        _ ← guard (negb (includes e.1 forbiddenNames)) at_ ("property name " +:+ quoted e.1 +:+ " is not allowed");
                        s ← parseNode levels' e.2 (path +:+ "/properties/" +:+ pointer e.1);
                        mret (e.1, s)) (object_entries entries);
                   mret (Some l)
               | Some _ => fails at_ (quoted "properties" +:+ " must be an object")
               end;
          req ← parse_required at_ fields;
          add ← parse_additional at_ fields;
          its ← match map_get "items" fields with
                | None => mret None
                | Some v => s ← parseNode levels' v (path +:+ "/items"); mret (Some s)
                end;
          mini ← integerAtLeastZero at_ "minItems" fields; maxi ← integerAtLeastZero at_ "maxItems" fields;
          minl ← integerAtLeastZero at_ "minLength" fields; maxl ← integerAtLeastZero at_ "maxLength" fields;
          lo ← finite at_ "minimum" fields; hi ← finite at_ "maximum" fields;
          _ ← guard (negb (exceeds mini maxi)) at_ (quoted "minItems" +:+ " exceeds " +:+ quoted "maxItems");
          _ ← guard (negb (exceeds minl maxl)) at_ (quoted "minLength" +:+ " exceeds " +:+ quoted "maxLength");
          _ ← guard (negb (exceeds lo hi)) at_ (quoted "minimum" +:+ " exceeds " +:+ quoted "maximum");
          en ← parse_enum at_ fields t;
          mret (mkSchema t (mkRules req add en mini maxi minl maxl lo hi ti de) ps its)
      end
  | _ => fails at_ "schema must be an object"
  end.

(** Depths 0 to the limit. *)
Definition parseOutputSchema (value : jval) : string + OutputSchema :=
  match parseNode (S limit_depth) value EmptyString 0%nat with
  | inl e => inl e
  | inr (s, _) => inr s
  end.

(** ** Validation *)

(** [`${low} < value`] and the like, for the bounds a schema has. *)
Definition below (bound : option number) (x : number) : bool := match bound with Some b => num_ltb x b | None => false end.
Definition above (bound : option number) (x : number) : bool := match bound with Some b => num_ltb b x | None => false end.
Definition bound_text (bound : option number) : string := match bound with Some b => string_of_number b | None => EmptyString end.

Definition when (b : bool) (message : string) : list string := if b then [message] else [].

(** The checks of a value against its own node. *)
Definition check_node (v : jval) (t : OutputSchemaType) (r : NodeRules) (at_ : string) : list string :=
  match enum r with
  | Some l => when (negb (existsb (fun c => strict_eq c v) l)) ("value at " +:+ at_ +:+ " is not one of the allowed values")
  | None => []
  end ++
  match v with
  | VString s =>
      let n := num_of_Z (Z.of_nat (String.length s)) in
      when (below (minLength r) n) ("string at " +:+ at_ +:+ " is shorter than " +:+ bound_text (minLength r)) ++
      when (above (maxLength r) n) ("string at " +:+ at_ +:+ " is longer than " +:+ bound_text (maxLength r))
  | VNumber n =>
      when (below (minimum r) n) ("number at " +:+ at_ +:+ " is below " +:+ bound_text (minimum r)) ++
      when (above (maximum r) n) ("number at " +:+ at_ +:+ " is above " +:+ bound_text (maximum r))
  | VList l =>
      let n := num_of_Z (Z.of_nat (length l)) in
      when (below (minItems r) n) ("array at " +:+ at_ +:+ " has fewer than " +:+ bound_text (minItems r) +:+ " items") ++
      when (above (maxItems r) n) ("array at " +:+ at_ +:+ " has more than " +:+ bound_text (maxItems r) +:+ " items")
  | VRecord fields =>
      flat_map (fun name => when (negb (map_has name fields))
                  ("missing required property " +:+ quoted (label name) +:+ " at " +:+ at_)) (required r ?? [])
  | _ => []
  end.

(** Everything [check] reports, in its order. *)
Fixpoint check (value : jval) (schema : OutputSchema) (path : string) {struct value} : list string :=
  let at_ := if truthy path then path else "/" in
  let t := schema_type schema in
  if negb (type_matches (jsonType value) t)
  then ["expected " +:+ type_name t +:+ " at " +:+ at_ +:+ ", got " +:+ type_name (jsonType value)]
  else
    check_node value t (schema_rules schema) at_ ++
    match value with
    | VList items =>
        match schema_items schema with
        | Some s => concat (imap (fun i chk => chk s (path +:+ "/" +:+ show_z (Z.of_nat i))) (map check items))
        | None => []
        end
    | VRecord fields =>
        flat_map (fun e : string * (OutputSchema -> string -> list string) =>
          match map_get e.1 (schema_properties schema) with
          | Some s => e.2 s (path +:+ "/" +:+ pointer e.1)
          | None => when (bool_decide (additionalProperties (schema_rules schema) = Some false))
                      ("unexpected property " +:+ quoted (label e.1) +:+ " at " +:+ at_)
          end) (object_entries (map (fun e => (e.1, check e.2)) fields))
    | _ => []
    end.

Definition validateOutput (value : jval) (schema : OutputSchema) : list string :=
  let reported := check value schema EmptyString in
  let hidden := (length reported - limit_violations)%nat in
  take limit_violations reported ++
  when (0 <? hidden)%nat (show_z (Z.of_nat hidden) +:+ " more violation" +:+ (if (hidden =? 1)%nat then "" else "s") +:+ " not listed").

Definition invalid_json (text : string) : ActionFailure :=
  mkFailure failure_error "INVALID_JSON_OUTPUT"
    (if starts_with "```" (trim_start text)
     then "The reply is not valid JSON: it starts with a code fence. Ask the model for bare JSON with no fences or commentary."
     else "The reply is not valid JSON. Ask the model for bare JSON with no commentary.") false.

(** The outcome, and the value of a reply that met what was asked of it. *)
Definition evaluateLlmOutput (text : string) (parseJson : bool) (outputSchema : option OutputSchema) : ActionOutcome * option jval :=
  if negb parseJson && is_null outputSchema then (outcome_succeeded, None)
  else match parse_json text with
       | None => (outcome_failure (invalid_json text), None)
       | Some parsed =>
           match (match outputSchema with Some s => validateOutput parsed s | None => [] end) with
           | [] => (outcome_succeeded, Some parsed)
           | violations =>
               (outcome_failure (mkFailure failure_error "OUTPUT_SCHEMA_MISMATCH"
                  ("The reply is valid JSON but does not match the declared output schema: " +:+ JsString.join "; " violations) false), None)
           end
       end.

(** ** What a schema asks of a value *)

Definition in_bounds (low high : option number) (x : number) : Prop :=
  (forall b, low = Some b -> num_ltb x b = false) /\ (forall b, high = Some b -> num_ltb b x = false).

(** The rules of one node. *)
Definition node_ok (v : jval) (t : OutputSchemaType) (r : NodeRules) : Prop :=
  (jsonType v = t \/ t = t_number /\ jsonType v = t_integer) /\
  (forall l, enum r = Some l -> exists c, In c l /\ strict_eq c v = true) /\
  match v with
  | VString s => in_bounds (minLength r) (maxLength r) (num_of_Z (Z.of_nat (String.length s)))
  | VNumber n => in_bounds (minimum r) (maximum r) n
  | VList l => in_bounds (minItems r) (maxItems r) (num_of_Z (Z.of_nat (length l)))
  | VRecord fields => forall name, In name (required r ?? []) -> exists x, In (name, x) fields
  | _ => True
  end.

(** The meaning of the schema language, independently of how it is checked. *)
Inductive Satisfies : jval -> OutputSchema -> Prop :=
  | satisfies v s : node_ok v (schema_type s) (schema_rules s) ->
      (forall l x i, v = VList l -> schema_items s = Some i -> In x l -> Satisfies x i) ->
      (forall fs k x p, v = VRecord fs -> In (k, x) fs -> map_get k (schema_properties s) = Some p -> Satisfies x p) ->
      (forall fs k x, v = VRecord fs -> In (k, x) fs -> map_get k (schema_properties s) = None ->
         additionalProperties (schema_rules s) <> Some false) ->
      Satisfies v s.

(** ** Lemmas *)

Lemma when_nil b m : when b m = [] <-> b = false.
Proof. by destruct b. Qed.

Lemma bounds_nil low high x m1 m2 : when (below low x) m1 ++ when (above high x) m2 = [] <-> in_bounds low high x.
Proof.
  rewrite app_nil, !when_nil. unfold in_bounds, below, above.
  split; intros [H1 H2]; destruct low as [a|], high as [b|]; split; try done; try (intros ? [= <-]; done); auto.
Qed.

Lemma flat_map_nil {A B} (f : A -> list B) l : flat_map f l = [] <-> forall x, In x l -> f x = [].
Proof.
  induction l as [|a l IH]; cbn; [by split|]. rewrite app_nil, IH. split; [intros [H1 H2] x [<-|Hx]; auto|auto].
Qed.

Lemma type_matches_spec a t : type_matches a t = true <-> a = t \/ t = t_number /\ a = t_integer.
Proof. unfold type_matches. rewrite orb_true_iff, andb_true_iff, !bool_decide_eq_true. tauto. Qed.

Lemma check_node_nil v t r at_ : type_matches (jsonType v) t = true -> check_node v t r at_ = [] <-> node_ok v t r.
Proof.
  intros Ht. apply type_matches_spec in Ht. unfold check_node, node_ok. rewrite app_nil.
  assert (match enum r with Some l => when (negb (existsb (fun c => strict_eq c v) l))
            ("value at " +:+ at_ +:+ " is not one of the allowed values") | None => [] end = [] <->
          forall l, enum r = Some l -> exists c, In c l /\ strict_eq c v = true) as ->.
  { destruct (enum r) as [l|]; [|by split]. rewrite when_nil, negb_false_iff, existsb_exists. split; [by intros H ? [= <-]|by intros H; apply H]. }
  assert (forall P Q : Prop, (P <-> Q) -> (forall E : Prop, (E /\ P) <-> ((jsonType v = t \/ t = t_number /\ jsonType v = t_integer) /\ E /\ Q))) as Hgo
    by tauto.
  apply Hgo. destruct v; try (by split); try apply bounds_nil.
  rewrite flat_map_nil. split; intros H name Hin; specialize (H name Hin).
  - rewrite when_nil, negb_false_iff, map_has_In in H. apply in_map_iff in H as ([k x] & <- & Hx). by exists x.
  - rewrite when_nil, negb_false_iff, map_has_In. destruct H as [x Hx]. apply in_map_iff. by exists (name, x).
Qed.

Lemma insert_index_perm {A} i (e : A) l : map snd (insert_index i e l) ≡ₚ e :: map snd l.
Proof. induction l as [|[j x] l IH]; [done|]. cbn. destruct (i <=? j); cbn; [done|]. rewrite IH. constructor. Qed.

Lemma object_entries_perm {A} (fields : list (string * A)) : object_entries fields ≡ₚ fields.
Proof.
  unfold object_entries. induction fields as [|e fields IH]; [done|]. cbn [foldr List.filter].
  destruct (array_index e.1) as [i|]; cbn [is_null]; [by rewrite insert_index_perm; cbn; rewrite IH|].
  rewrite <- Permutation_middle. by rewrite IH.
Qed.

Lemma object_entries_In {A} (fields : list (string * A)) e : In e (object_entries fields) <-> In e fields.
Proof. split; apply Permutation_in; [apply object_entries_perm|symmetry; apply object_entries_perm]. Qed.

Lemma concat_imap_nil {A B} (f : nat -> A -> list B) l : (forall i x, In x l -> f i x = []) -> concat (imap f l) = [].
Proof.
  revert f. induction l as [|x l IH]; intros f H; [done|]. cbn. rewrite H by (by left). apply IH. intros i y Hy. apply H. by right.
Qed.

Lemma concat_imap_nil_inv {A B} (f : nat -> A -> list B) l x : concat (imap f l) = [] -> In x l -> exists i, f i x = [].
Proof.
  revert f. induction l as [|y l IH]; intros f; [done|]. cbn. intros [H1 H2]%app_nil [<-|Hx]; [by exists 0%nat|].
  destruct (IH _ H2 Hx) as [i Hi]. by exists (S i).
Qed.

(** ** Validation is exact *)

Lemma satisfies_node v s : Satisfies v s -> node_ok v (schema_type s) (schema_rules s).
Proof. by intros []. Qed.

(** What [check] reports below the node itself. *)
Definition check_below (v : jval) (schema : OutputSchema) (path : string) : list string :=
  match v with
  | VList items =>
      match schema_items schema with
      | Some s => concat (imap (fun i chk => chk s (path +:+ "/" +:+ show_z (Z.of_nat i))) (map check items))
      | None => []
      end
  | VRecord fields =>
      flat_map (fun e : string * (OutputSchema -> string -> list string) =>
        match map_get e.1 (schema_properties schema) with
        | Some s => e.2 s (path +:+ "/" +:+ pointer e.1)
        | None => when (bool_decide (additionalProperties (schema_rules schema) = Some false))
                    ("unexpected property " +:+ quoted (label e.1) +:+ " at " +:+ (if truthy path then path else "/"))
        end) (object_entries (map (fun e => (e.1, check e.2)) fields))
  | _ => []
  end.

Lemma check_split v s path : check v s path = [] <-> node_ok v (schema_type s) (schema_rules s) /\ check_below v s path = [].
Proof.
  assert (check v s path = if negb (type_matches (jsonType v) (schema_type s))
    then ["expected " +:+ type_name (schema_type s) +:+ " at " +:+ (if truthy path then path else "/") +:+ ", got " +:+ type_name (jsonType v)]
    else check_node v (schema_type s) (schema_rules s) (if truthy path then path else "/") ++ check_below v s path) as -> by (by destruct v).
  destruct (type_matches (jsonType v) (schema_type s)) eqn:Et; cbn [negb].
  - by rewrite app_nil, (check_node_nil _ _ _ _ Et).
  - split; [done|]. intros [[Hk _] _]. apply type_matches_spec in Hk. congruence.
Qed.

Lemma below_list l s path : (forall x, In x l -> forall s path, check x s path = [] <-> Satisfies x s) ->
  check_below (VList l) s path = [] <-> forall x i, schema_items s = Some i -> In x l -> Satisfies x i.
Proof.
  intros IH. cbn [check_below]. destruct (schema_items s) as [i|]; [|by split]. split.
  - intros H x i' [= <-] Hx. destruct (concat_imap_nil_inv _ _ (check x) H ltac:(by apply in_map)) as [n Hc]. by apply IH in Hc.
  - intros H. apply concat_imap_nil. intros n c (x & <- & Hx)%in_map_iff. apply IH; [done|]. by apply H.
Qed.

Lemma below_record fs s path : (forall k x, In (k, x) fs -> forall s path, check x s path = [] <-> Satisfies x s) ->
  check_below (VRecord fs) s path = [] <->
  forall k x, In (k, x) fs -> match map_get k (schema_properties s) with
    | Some p => Satisfies x p | None => additionalProperties (schema_rules s) <> Some false end.
Proof.
  intros IH. cbn [check_below]. rewrite flat_map_nil. split.
  - intros H k x Hx. specialize (H (k, check x)). cbn [fst snd] in H.
    assert (In (k, check x) (object_entries (map (fun e => (e.1, check e.2)) fs))) as Hin by (apply object_entries_In, in_map_iff; by exists (k, x)).
    specialize (H Hin). destruct (map_get k _) as [p|]; [by apply (IH k x Hx) in H|]. apply when_nil in H. by apply bool_decide_eq_false in H.
  - intros H e He. apply object_entries_In, in_map_iff in He as ([k x] & <- & Hx). cbn [fst snd]. specialize (H k x Hx).
    destruct (map_get k _) as [p|]; [by apply (IH k x Hx)|]. apply when_nil. by apply bool_decide_eq_false.
Qed.

Lemma check_exact v : forall s path, check v s path = [] <-> Satisfies v s.
Proof.
  assert (forall v s path, (forall l, v <> VList l) -> (forall fs, v <> VRecord fs) -> check v s path = [] <-> Satisfies v s) as Hleaf.
  { intros v' s path Hl Hr. rewrite check_split. split; [|intros H%satisfies_node; split; [done|]; destruct v' as [| | | |l|fs]; try done; [by destruct (Hl l)|by destruct (Hr fs)]].
    intros [Hn _]. constructor; [done|intros l x i E; by edestruct Hl|intros fs k x p E; by edestruct Hr|intros fs k x E; by edestruct Hr]. }
  induction v as [|b|x|t|l IH|fs IH] using jval_ind'; intros s path; [by apply Hleaf..| |].
  - rewrite check_split, below_list by (by rewrite List.Forall_forall in IH). split.
    + intros [Hn Hi]. constructor; [done| |done|done]. intros l' x i [= <-] Ei Hx. by eapply Hi.
    + intros H. inversion H as [v' s' Hn Hi _ _]; subst. split; [done|]. intros x i Ei Hx. by eapply Hi.
  - rewrite check_split, below_record by (intros k x Hx; rewrite List.Forall_forall in IH; apply (IH (k, x) Hx)). split.
    + intros [Hn Hf]. constructor; [done|done| |].
      * intros fs' k x p [= <-] Hx Hp. specialize (Hf k x Hx). by rewrite Hp in Hf.
      * intros fs' k x [= <-] Hx Hp. specialize (Hf k x Hx). by rewrite Hp in Hf.
    + intros H. inversion H as [v' s' Hn _ Hp Ha]; subst. split; [done|]. intros k x Hx.
      destruct (map_get k _) as [p|] eqn:Ep; [by eapply Hp|by eapply Ha].
Qed.

Lemma validate_exact v s : validateOutput v s = [] <-> Satisfies v s.
Proof.
  rewrite <- (check_exact v s EmptyString). unfold validateOutput. rewrite app_nil, when_nil.
  destruct (check v s EmptyString) as [|m l]; [by split|]. split; [|done]. by intros [? _].
Qed.

(** C18: a step gets what it declared, or a typed failure. With a schema, the value of a reply is handed on
    exactly when the text is JSON and the value satisfies the schema in the sense of the schema
    language, every keyword included; asked only for JSON, exactly when the text is JSON. The outcome
    is success exactly then, or when nothing was asked. *)
Theorem replies_meet_their_contract text parseJson schema :
  let evaluated := evaluateLlmOutput text parseJson schema in
  let asked := parseJson = true \/ schema <> None in
  (forall v, evaluated.2 = Some v <->
     asked /\ parse_json text = Some v /\ forall s, schema = Some s -> Satisfies v s) /\
  (evaluated.1 = outcome_succeeded <-> ~ asked \/ evaluated.2 <> None).
Proof.
  cbv zeta. set (violations p := match schema with Some s => validateOutput p s | None => [] end).
  assert (forall p, violations p = [] <-> forall s, schema = Some s -> Satisfies p s) as Hok.
  { intros p. unfold violations. destruct schema as [s|]; [|by split]. rewrite validate_exact. split; [by intros H ? [= <-]|intros H; by apply H]. }
  assert (negb parseJson && is_null schema = true <-> ~ (parseJson = true \/ schema <> None)) as Hask.
  { destruct parseJson; [split; [discriminate|intros H; exfalso; apply H; by left]|].
    destruct schema; [split; [discriminate|intros H; exfalso; apply H; right; discriminate]|].
    split; [|reflexivity]. intros _ [H|H]; [discriminate H|by apply H]. }
  unfold evaluateLlmOutput. fold (violations). destruct (negb parseJson && is_null schema).
  { destruct Hask as [Hask _]. specialize (Hask eq_refl). cbn [fst snd]. split; [|tauto]. intros v. split; [discriminate|tauto]. }
  assert (parseJson = true \/ schema <> None) as Ha.
  { destruct parseJson; [by left|]. destruct schema; [right; discriminate|]. destruct Hask as [_ H]. discriminate H. intros [E|E]; [discriminate E|by apply E]. }
  destruct (parse_json text) as [p|]; cbn [fst snd].
  2: { split; [intros v; split; [discriminate|intros (_ & H & _); discriminate H]|]. split; [discriminate|tauto]. }
  change (match schema with Some s => validateOutput p s | None => [] end) with (violations p). specialize (Hok p).
  destruct (violations p) as [|m l]; cbn [fst snd].
  - split; [|split; [right; discriminate|reflexivity]]. intros v. split.
    + intros [= <-]. split_and!; [done|done|]. by apply Hok.
    + intros (_ & [= <-] & _). reflexivity.
  - split; [|split; [discriminate|tauto]]. intros v. split; [discriminate|]. intros (_ & [= <-] & H). apply Hok in H. discriminate H.
Qed.

(** ** Names of a reply in messages *)

(** Reading the text inside a quoted fragment: no control character, and no quote that is not escaped. *)
Fixpoint stays_quoted (escaped : bool) (s : string) : bool :=
  match s with
  | EmptyString => true
  | String c s' =>
      negb (is_other c) &&
      (if escaped then stays_quoted false s' else negb (Ascii.eqb c dquote) && stays_quoted (Ascii.eqb c "\") s')
  end.

Lemma smap_str_app f a b : smap_str f (a +:+ b) = smap_str f a +:+ smap_str f b.
Proof. induction a as [|c a IH]; [done|]. unfold smap_str in *. cbn. by rewrite IH, append_assoc. Qed.

Lemma smap_str_smap f g s : smap_str f (smap_str g s) = smap_str (fun c => smap_str f (g c)) s.
Proof.
  induction s as [|c s IH]; [done|]. change (smap_str g (String c s)) with (g c +:+ smap_str g s).
  change (smap_str (fun c => smap_str f (g c)) (String c s)) with (smap_str f (g c) +:+ smap_str (fun c => smap_str f (g c)) s).
  by rewrite smap_str_app, IH.
Qed.

Lemma escaped_char c rest : stays_quoted false (smap_str escape_other (escape_quote c) +:+ rest) = stays_quoted false rest.
Proof. destruct c as [[] [] [] [] [] [] [] []]; reflexivity. Qed.

Lemma escaped_stays s : stays_quoted false (smap_str (fun c => smap_str escape_other (escape_quote c)) s) = true.
Proof.
  induction s as [|c s IH]; [done|]. unfold smap_str at 1. cbn [String.list_ascii_of_string foldr].
  change (foldr _ _ _) with (smap_str (fun c => smap_str escape_other (escape_quote c)) s). by rewrite escaped_char.
Qed.

Lemma stake_stays n e s : stays_quoted e s = true -> stays_quoted e (stake n s) = true.
Proof.
  revert e s. induction n as [|n IH]; intros e [|c s]; try done. cbn. rewrite !andb_true_iff. intros [-> H]. split; [done|].
  destruct e; [by apply IH|]. apply andb_true_iff in H as [-> H]. by apply IH.
Qed.

Lemma dots_stay e s : stays_quoted e s = true -> stays_quoted e (s +:+ "...") = true.
Proof.
  revert e. induction s as [|c s IH]; intros e; [by destruct e|]. cbn. rewrite !andb_true_iff. intros [-> H]. split; [done|].
  destruct e; [by apply IH|]. apply andb_true_iff in H as [-> H]. by apply IH.
Qed.

(** A name a model chose cannot forge the text of a message: its label is at most 83 characters, has no
    control character and no quote that would end the quoted fragment it stands in. *)
Lemma labels_are_contained name : stays_quoted false (label name) = true /\ (String.length (label name) <= limit_nameExcerpt + 3)%nat.
Proof.
  unfold label. rewrite smap_str_smap. set (e := smap_str _ (pointer name)).
  assert (stays_quoted false e = true) as He by apply escaped_stays. destruct (limit_nameExcerpt <? String.length e)%nat eqn:El.
  - split; [by apply dots_stay, stake_stays|]. rewrite string_app_length. pose proof (stake_length limit_nameExcerpt e).
    change (String.length "...") with 3%nat. lia.
  - apply Nat.ltb_ge in El. split; [done|lia].
Qed.

Lemma violations_are_bounded v s : (length (validateOutput v s) <= limit_violations + 1)%nat.
Proof. unfold validateOutput. rewrite length_app, length_take. destruct (0 <? _)%nat; cbn [when length]; lia. Qed.

(** ** Accepted declarations *)

(** The rules of a node are what its keywords say. *)
Record rules_declared (fields : list (string * jval)) (r : NodeRules) : Prop := {
  rd_required : map_get "required" fields = (fun l => VList (map VString l)) <$> required r;
  rd_additional : map_get "additionalProperties" fields = VBool <$> additionalProperties r;
  rd_enum : map_get "enum" fields = VList <$> enum r;
  rd_minItems : map_get "minItems" fields = VNumber <$> minItems r;
  rd_maxItems : map_get "maxItems" fields = VNumber <$> maxItems r;
  rd_minLength : map_get "minLength" fields = VNumber <$> minLength r;
  rd_maxLength : map_get "maxLength" fields = VNumber <$> maxLength r;
  rd_minimum : map_get "minimum" fields = VNumber <$> minimum r;
  rd_maximum : map_get "maximum" fields = VNumber <$> maximum r;
  rd_title : map_get "title" fields = VString <$> title r;
  rd_description : map_get "description" fields = VString <$> description r }.

(** A property name a declaration may use. *)
Definition name_allowed (n : string) : Prop := (String.length n <= limit_nameLength)%nat /\ ~ In n forbiddenNames.

(** A count is a whole number that is not negative. *)
Definition count_bound (o : option number) : Prop := forall b, o = Some b -> is_integer b = true /\ num_ltb b (num_of_Z 0) = false.
Definition finite_bound (o : option number) : Prop := forall b, o = Some b -> is_finite_num b = true.

(** Keywords that do not apply to the type, values a keyword cannot have, or bounds that cannot be met, are not accepted. *)
Record rules_sensible (t : OutputSchemaType) (r : NodeRules) : Prop := {
  rs_required : required r <> None \/ additionalProperties r <> None -> t = t_object;
  rs_items : minItems r <> None \/ maxItems r <> None -> t = t_array;
  rs_length : minLength r <> None \/ maxLength r <> None -> t = t_string;
  rs_range : minimum r <> None \/ maximum r <> None -> t = t_number \/ t = t_integer;
  rs_distinct : forall l, required r = Some l -> List.NoDup l /\ (forall n, In n l -> n <> EmptyString /\ name_allowed n);
  rs_counts : count_bound (minItems r) /\ count_bound (maxItems r) /\ count_bound (minLength r) /\ count_bound (maxLength r);
  rs_finite : finite_bound (minimum r) /\ finite_bound (maximum r);
  rs_order : exceeds (minItems r) (maxItems r) = false /\ exceeds (minLength r) (maxLength r) = false /\
             exceeds (minimum r) (maximum r) = false;
  rs_enum : forall l, enum r = Some l -> (1 <= length l <= limit_enumValues)%nat /\
    forall v, In v l -> isPrimitive v = true /\ type_matches (jsonType v) t = true }.

(** The schema [s] says what the declaration [j] says, within [levels] of nesting. *)
Fixpoint Declares (levels : nat) (j : jval) (s : OutputSchema) : Prop :=
  match levels, j with
  | S levels', VRecord fields =>
      let '(mkSchema t r ps its) := s in
      (forall k, In k (map fst fields) -> In k KEYWORDS) /\ map_get "type" fields = Some (VString (type_name t)) /\
      rules_declared fields r /\ rules_sensible t r /\
      match ps with
      | None => map_get "properties" fields = None
      | Some l => t = t_object /\ (length l <= limit_properties)%nat /\
          exists entries, map_get "properties" fields = Some (VRecord entries) /\ map fst l ≡ₚ map fst entries /\
          forall k p, In (k, p) l -> name_allowed k /\ exists v, In (k, v) entries /\ Declares levels' v p
      end /\
      match its with
      | None => map_get "items" fields = None
      | Some i => t = t_array /\ exists v, map_get "items" fields = Some v /\ Declares levels' v i
      end
  | _, _ => False
  end.

Fixpoint schema_nodes (s : OutputSchema) : nat :=
  let '(mkSchema _ _ ps its) := s in
  S (match ps with Some l => list_sum (map (fun e => schema_nodes e.2) l) | None => O end +
     match its with Some i => schema_nodes i | None => O end).

(** *** The parts of a node *)

Lemma guard_inr ok at_ m n x n' : guard ok at_ m n = inr (x, n') -> ok = true /\ n' = n.
Proof. unfold guard. destruct ok; [|discriminate]. by intros [= _ ->]. Qed.

Lemma count_inr at_ n x n' : count_node at_ n = inr (x, n') -> n' = S n /\ (n' <= limit_nodes)%nat.
Proof. unfold count_node. destruct (_ <? _)%nat eqn:E; [discriminate|]. apply Nat.ltb_ge in E. by intros [= _ <-]. Qed.

Lemma type_inr at_ fields n t n' : parse_type at_ fields n = inr (t, n') -> n' = n /\ map_get "type" fields = Some (VString (type_name t)).
Proof.
  unfold parse_type. destruct (map_get "type" fields) as [[]|]; try discriminate. destruct (List.find _ TYPES) as [u|] eqn:E; [|discriminate].
  intros [= -> ->]. apply List.find_some in E as [_ E]. apply bool_decide_eq_true in E. by rewrite E.
Qed.

Lemma text_inr at_ k fields n x n' : parse_text at_ k fields n = inr (x, n') -> n' = n /\ map_get k fields = VString <$> x.
Proof. unfold parse_text. destruct (map_get k fields) as [[]|]; try discriminate; by intros [= <- ->]. Qed.

Lemma only_inr at_ fields t k types n x n' : only at_ fields t k types n = inr (x, n') ->
  n' = n /\ (map_get k fields <> None -> In t types).
Proof.
  intros [H ->]%guard_inr. split; [done|]. intros Hk. apply orb_true_iff in H as [H|H]; [|by apply includes_In].
  apply negb_true_iff, map_has_false in H. by apply map_get_None in H.
Qed.

Lemma non_negative_inr at_ k fields n x n' : integerAtLeastZero at_ k fields n = inr (x, n') ->
  n' = n /\ map_get k fields = VNumber <$> x /\ count_bound x.
Proof.
  unfold integerAtLeastZero. destruct (map_get k fields) as [[| |y| | |]|]; try discriminate; [|by intros [= <- ->]].
  destruct (_ && _) eqn:E; [|discriminate]. intros [= <- ->]. split_and!; [done|done|]. intros b [= <-].
  by apply andb_true_iff in E as [? ?%negb_true_iff].
Qed.

Lemma finite_inr at_ k fields n x n' : finite at_ k fields n = inr (x, n') ->
  n' = n /\ map_get k fields = VNumber <$> x /\ finite_bound x.
Proof.
  unfold finite. destruct (map_get k fields) as [[| |y| | |]|]; try discriminate; [|by intros [= <- ->]].
  destruct (is_finite_num y) eqn:E; [|discriminate]. intros [= <- ->]. split_and!; [done|done|]. by intros b [= <-].
Qed.

Lemma names_of_spec l names : names_of l = Some names -> l = map VString names /\ forall n, In n names -> n <> EmptyString.
Proof.
  unfold names_of. revert names. induction l as [|v l IH]; intros names; cbn; [by intros [= <-]|].
  destruct v; try discriminate. destruct (truthy s) eqn:Et; [|discriminate]. cbn. destruct (mapM _ l) as [ns|]; [|discriminate]. cbn.
  intros [= <-]. destruct (IH ns eq_refl) as [-> H]. split; [done|]. intros n [<-|Hn]; [by destruct s|by apply H].
Qed.

Lemma dedup_length_NoDup {A} `{EqDecision A} (l : list A) : length (dedup l) = length l -> List.NoDup l.
Proof.
  intros E. eapply List.NoDup_incl_NoDup; [apply (dedup_NoDup l)|lia|]. intros x. apply dedup_In.
Qed.

(** Take a sequence of the parser apart. *)
Ltac parsed H := let x := fresh "x" in let m := fresh "m" in let E := fresh "E" in
  apply bind_inr in H as (x & m & E & H).

Lemma required_inr at_ fields n x n' : parse_required at_ fields n = inr (x, n') ->
  n' = n /\ map_get "required" fields = (fun l => VList (map VString l)) <$> x /\
  forall l, x = Some l -> List.NoDup l /\ (forall k, In k l -> k <> EmptyString /\ name_allowed k).
Proof.
  unfold parse_required. destruct (map_get "required" fields) as [v|]; [|by intros [= <- ->]].
  destruct (match v with VList l => names_of l | _ => None end) as [names|] eqn:En; [|discriminate]. intros H.
  parsed H. parsed H. parsed H. apply guard_inr in E as [Hl ->], E0 as [Hd ->], E1 as [Hf ->].
  injection H as <- ->. destruct v; try discriminate. apply names_of_spec in En as [-> Hne]. split_and!; [done|done|].
  intros l [= <-]. apply Nat.eqb_eq, dedup_length_NoDup in Hd. split; [done|]. intros k Hk. split; [by apply Hne|].
  rewrite forallb_forall in Hl. split; [by apply Nat.leb_le, Hl|]. intros Hin. apply negb_true_iff in Hf.
  assert (existsb (fun n => includes n forbiddenNames) names = true) as Hx; [|congruence].
  apply existsb_exists. exists k. split; [done|by apply includes_In].
Qed.

Lemma additional_inr at_ fields n x n' : parse_additional at_ fields n = inr (x, n') ->
  n' = n /\ map_get "additionalProperties" fields = VBool <$> x.
Proof. unfold parse_additional. destruct (map_get _ fields) as [[]|]; try discriminate; by intros [= <- ->]. Qed.

Lemma enum_inr at_ fields t n x n' : parse_enum at_ fields t n = inr (x, n') ->
  n' = n /\ map_get "enum" fields = VList <$> x /\ forall l, x = Some l -> (1 <= length l <= limit_enumValues)%nat /\
    forall v, In v l -> isPrimitive v = true /\ type_matches (jsonType v) t = true.
Proof.
  unfold parse_enum. destruct (map_get "enum" fields) as [[| | | |[|y l]|]|]; try discriminate; [|by intros [= <- ->]]. intros H.
  parsed H. parsed H. parsed H. apply guard_inr in E as [Hl ->], E0 as [Hp ->], E1 as [Ht ->]. injection H as <- ->.
  split_and!; [done|done|]. intros l0 [= <-]. split; [apply Nat.leb_le in Hl; cbn [length] in *; lia|].
  intros v Hv. rewrite forallb_forall in Ht, Hp. by auto.
Qed.

(** A keyword of the list is only used with one of its types. *)
Definition applies (fields : list (string * jval)) (t : OutputSchemaType) (k : string) (types : list OutputSchemaType) : Prop :=
  map_get k fields <> None -> In t types.

Lemma node_type_inr at_ fields n t ti de n' : node_type at_ fields n = inr (t, ti, de, n') ->
  n' = n /\ (forall k, In k (map fst fields) -> In k KEYWORDS) /\ map_get "type" fields = Some (VString (type_name t)) /\
  map_get "title" fields = VString <$> ti /\ map_get "description" fields = VString <$> de /\
  (applies fields t "properties" [t_object] /\ applies fields t "required" [t_object] /\ applies fields t "items" [t_array] /\
   applies fields t "additionalProperties" [t_object]) /\
  (applies fields t "minItems" [t_array] /\ applies fields t "maxItems" [t_array] /\ applies fields t "minLength" [t_string] /\
   applies fields t "maxLength" [t_string] /\ applies fields t "minimum" [t_number; t_integer] /\ applies fields t "maximum" [t_number; t_integer]).
Proof.
  unfold node_type. intros H. do 14 (parsed H). injection H as <- <- <- ->.
  apply type_inr in E0 as [-> Ht]. apply text_inr in E1 as [-> Hti], E2 as [-> Hde].
  apply only_inr in E3 as [-> H3], E4 as [-> H4], E5 as [-> H5], E6 as [-> H6], E7 as [-> H7], E8 as [-> H8], E9 as [-> H9], E10 as [-> H10],
    E11 as [-> H11], E12 as [-> H12].
  assert (m = n /\ forall k, In k (map fst fields) -> In k KEYWORDS) as [-> Hk]; [|by split_and!].
  destruct (List.find _ _) as [k|] eqn:Ef; [discriminate|]. injection E as _ ->. split; [done|]. intros k Hk.
  assert (In k (map fst (object_entries fields))) as Hin.
  { apply in_map_iff in Hk as (e & <- & He). apply in_map. by apply object_entries_In. }
  pose proof (List.find_none _ _ Ef k Hin) as Hn. apply negb_false_iff in Hn. by apply includes_In.
Qed.

Section node.
Context (levels : nat)
  (IH : forall v path n s n', parseNode levels v path n = inr (s, n') ->
          Declares levels v s /\ n' = (n + schema_nodes s)%nat /\ (n' <= limit_nodes)%nat).

Lemma properties_inr at_ path entries n l n' :
  each (fun e : string * jval =>
    _ ← guard (String.length e.1 <=? limit_nameLength)%nat at_ "property name exceeds 128 characters";
    _ ← guard (negb (includes e.1 forbiddenNames)) at_ ("property name " +:+ quoted e.1 +:+ " is not allowed");
    s ← parseNode levels e.2 (path +:+ "/properties/" +:+ pointer e.1);
    mret (e.1, s)) entries n = inr (l, n') ->
  map fst l = map fst entries /\ (forall k p, In (k, p) l -> name_allowed k /\ exists v, In (k, v) entries /\ Declares levels v p) /\
  n' = (n + list_sum (map (fun e => schema_nodes e.2) l))%nat /\ (n <= limit_nodes -> n' <= limit_nodes)%nat.
Proof.
  revert n l. induction entries as [|e entries IHe]; intros n l; cbn [each]; [intros [= <- ->]; split_and!; [done|by intros ? ? []|cbn; lia|done]|].
  intros H. parsed H. parsed H. injection H as <- <-. parsed E. parsed E. parsed E. injection E as <- <-.
  apply guard_inr in E1 as [Hl ->], E2 as [Hf ->]. apply IH in E3 as (Hd & -> & Hb). apply IHe in E0 as (H1 & H2 & -> & H4).
  cbn [map fst snd list_sum foldr]. split_and!; [by rewrite H1| |unfold list_sum; cbn; lia|intros _; by apply H4]. intros k p [[= <- <-]|Hp].
  - split; [split; [by apply Nat.leb_le|]|].
    + intros Hin%includes_In. by rewrite Hin in Hf.
    + exists e.2. split; [left; by destruct e|done].
  - destruct (H2 k p Hp) as (? & v & Hv & ?). split; [done|]. exists v. split; [by right|done].
Qed.

Lemma properties_declared at_ path fields t n ps n' : applies fields t "properties" [t_object] ->
  match map_get "properties" fields with
  | None => mret None
  | Some (VRecord entries) =>
      _ ← guard (length entries <=? limit_properties)%nat at_ (quoted "properties" +:+ " exceeds 64 entries");
      l ← each (fun e : string * jval =>
           _ ← guard (String.length e.1 <=? limit_nameLength)%nat at_ "property name exceeds 128 characters";
           _ ← guard (negb (includes e.1 forbiddenNames)) at_ ("property name " +:+ quoted e.1 +:+ " is not allowed");
           s ← parseNode levels e.2 (path +:+ "/properties/" +:+ pointer e.1);
           mret (e.1, s)) (object_entries entries);
      mret (Some l)
  | Some _ => fails at_ (quoted "properties" +:+ " must be an object")
  end n = inr (ps, n') ->
  match ps with
  | None => map_get "properties" fields = None
  | Some l => t = t_object /\ (length l <= limit_properties)%nat /\
      exists entries, map_get "properties" fields = Some (VRecord entries) /\ map fst l ≡ₚ map fst entries /\
      forall k p, In (k, p) l -> name_allowed k /\ exists v, In (k, v) entries /\ Declares levels v p
  end /\
  n' = (n + match ps with Some l => list_sum (map (fun e => schema_nodes e.2) l) | None => 0 end)%nat /\
  (n <= limit_nodes -> n' <= limit_nodes)%nat.
Proof.
  unfold applies. destruct (map_get "properties" fields) as [[| | | | |entries]|]; try discriminate.
  2: { intros _ [= <- ->]. split_and!; [done|lia|done]. }
  intros Ha H. parsed H. parsed H. injection H as <- <-. apply guard_inr in E as [Hlen ->]. apply properties_inr in E0 as (Hf & Hp & -> & Hb).
  assert (map fst x0 ≡ₚ map fst entries) as Hperm by (by rewrite Hf, object_entries_perm). split; [|by split].
  split_and!; [|apply Nat.leb_le in Hlen; apply Permutation_length in Hperm; rewrite !length_map in Hperm; lia|].
  - destruct (Ha ltac:(discriminate)) as [?|[]]; done.
  - exists entries. split_and!; [done|done|]. intros k p Hin. destruct (Hp k p Hin) as (? & v & Hv & ?). split; [done|].
    exists v. split; [by apply object_entries_In|done].
Qed.

Lemma items_declared path fields t n its n' : applies fields t "items" [t_array] ->
  match map_get "items" fields with
  | None => mret None
  | Some v => s ← parseNode levels v (path +:+ "/items"); mret (Some s)
  end n = inr (its, n') ->
  match its with
  | None => map_get "items" fields = None
  | Some i => t = t_array /\ exists v, map_get "items" fields = Some v /\ Declares levels v i
  end /\
  n' = (n + match its with Some i => schema_nodes i | None => 0 end)%nat /\ (n <= limit_nodes -> n' <= limit_nodes)%nat.
Proof.
  unfold applies. destruct (map_get "items" fields) as [v|].
  2: { intros _ [= <- ->]. split_and!; [done|lia|done]. }
  intros Ha H. parsed H. injection H as <- <-. apply IH in E as (Hd & -> & Hb). split; [|by split].
  split; [destruct (Ha ltac:(discriminate)) as [?|[]]; done|by exists v].
Qed.
End node.

(** A keyword that was read is of one of its types. *)
Lemma applies_one {A} fields t k types (f : A -> jval) x : applies fields t k types -> map_get k fields = f <$> x -> x <> None -> In t types.
Proof. intros Ha E Hx. apply Ha. rewrite E. by destruct x. Qed.

Lemma parseNode_declares levels : forall v path n s n', parseNode levels v path n = inr (s, n') ->
  Declares levels v s /\ n' = (n + schema_nodes s)%nat /\ (n' <= limit_nodes)%nat.
Proof.
  induction levels as [|levels IH]; intros v path n s n'; cbn [parseNode]; destruct v as [| | | | |fields]; try discriminate.
  { intros H. parsed H. discriminate H. }
  intros H. parsed H. apply count_inr in E as [-> Hn]. parsed H. destruct x0 as [[t ti] de].
  apply node_type_inr in E as (-> & Hk & Ht & Hti & Hde & (Ap & Ar & Ai & Aa) & A1 & A2 & A3 & A4 & A5 & A6).
  apply bind_inr in H as (ps & q1 & Eps & H). apply bind_inr in H as (req & q2 & Ereq & H). apply bind_inr in H as (add & q3 & Eadd & H).
  apply bind_inr in H as (its & q4 & Eits & H). do 9 (parsed H). apply bind_inr in H as (en & q5 & Een & H).
  injection H as <- <-. apply required_inr in Ereq as (-> & Hreq & Hd). apply additional_inr in Eadd as (-> & Hadd).
  apply non_negative_inr in E as (-> & R1 & N1), E0 as (-> & R2 & N2), E1 as (-> & R3 & N3), E2 as (-> & R4 & N4).
  apply finite_inr in E3 as (-> & R5 & N5), E4 as (-> & R6 & N6).
  apply guard_inr in E5 as [G1 ->], E6 as [G2 ->], E7 as [G3 ->]. apply enum_inr in Een as (-> & Hen & He).
  apply (properties_declared levels IH _ path fields t) in Eps as (Hps & -> & Hb1); [|done]. apply (items_declared levels IH path fields t) in Eits as (Hits & -> & Hb2); [|done].
  split; [|split; [cbn [schema_nodes]; lia|by apply Hb2, Hb1]]. cbn [Declares]. split_and!; [done|done|by constructor| |done|done].
  constructor; cbn.
  - intros [H|H]; [destruct (applies_one _ _ _ _ _ _ Ar Hreq H) as [?|[]]|destruct (applies_one _ _ _ _ _ _ Aa Hadd H) as [?|[]]]; done.
  - intros [H|H]; [destruct (applies_one _ _ _ _ _ _ A1 R1 H) as [?|[]]|destruct (applies_one _ _ _ _ _ _ A2 R2 H) as [?|[]]]; done.
  - intros [H|H]; [destruct (applies_one _ _ _ _ _ _ A3 R3 H) as [?|[]]|destruct (applies_one _ _ _ _ _ _ A4 R4 H) as [?|[]]]; done.
  - intros [H|H]; [destruct (applies_one _ _ _ _ _ _ A5 R5 H) as [?|[?|[]]]|destruct (applies_one _ _ _ _ _ _ A6 R6 H) as [?|[?|[]]]]; auto.
  - done.
  - by split_and!.
  - by split.
  - apply negb_true_iff in G1, G2, G3. by split_and!.
  - done.
Qed.

(** C19: a declaration that is accepted is one the validator honours. The schema says what the declaration
    says, keyword by keyword at every level: no keyword outside the subset and none on a type it does
    not constrain, [additionalProperties] included; counts are whole and not negative, bounds finite,
    and no pair of them impossible to meet; an enumeration has one to 64 primitive values of the type;
    and no property is declared or required under a forbidden or too long name, nor an empty one
    required, nor one twice. It has at most 256 nodes and nine levels. *)
Theorem accepted_schemas_are_honoured j s : parseOutputSchema j = inr s ->
  Declares (S limit_depth) j s /\ (schema_nodes s <= limit_nodes)%nat.
Proof.
  unfold parseOutputSchema. destruct (parseNode _ j EmptyString 0%nat) as [|[s' n]] eqn:E; [discriminate|]. intros [= <-].
  apply parseNode_declares in E as (Hd & -> & Hb). done.
Qed.

(** A list of at most three names, each of a person with an age. *)
Definition people_declaration : jval :=
  VRecord [("type", VString "array"); ("maxItems", VNumber (num_of_Z 3));
    ("items", VRecord [("type", VString "object"); ("required", VList [VString "name"]); ("additionalProperties", VBool false);
      ("properties", VRecord [("name", VRecord [("type", VString "string"); ("minLength", VNumber (num_of_Z 1))]);
                              ("age", VRecord [("type", VString "integer"); ("minimum", VNumber (num_of_Z 0))])])])].
Definition people_schema : OutputSchema :=
  match parseOutputSchema people_declaration with inr s => s | inl _ => mkSchema t_null (mkRules None None None None None None None None None None None) None None end.

Lemma accepted_schemas_are_honoured_witness :
  Declares (S limit_depth) people_declaration people_schema /\ (schema_nodes people_schema <= limit_nodes)%nat.
Proof. apply (accepted_schemas_are_honoured people_declaration people_schema). vm_compute. reflexivity. Defined.

(** What the contract reports of replies to it. *)
Example people_replies :
  let judge text := let '(outcome, parsed) := evaluateLlmOutput text true (Some people_schema) in (outcome, is_null parsed) in
  judge "[{'name':'Ada','age':36}]" = (outcome_failure (invalid_json "[{'name':'Ada','age':36}]"), true) /\
  judge ("[{" +:+ quoted "name" +:+ ":" +:+ quoted "Ada" +:+ "}]") = (outcome_succeeded, false) /\
  validateOutput (VList [VRecord [("age", VNumber (num_of_Z (-1)))]; VNull]) people_schema =
    ["missing required property " +:+ quoted "name" +:+ " at /0"; "number at /0/age is below 0"; "expected object at /1, got null"] /\
  schema_nodes people_schema = 4%nat.
Proof. vm_compute. repeat split. Qed.
