(* ===== verification/PieceEffects.v ===== *)
(** * Governed pieces (workflows/runtime/piece-effects.ts, piece-effect-guard.ts,
    sandbox-api/routes/jarvis-pieces.ts, service-backends.ts: pieceAuthorize)

    A verified piece makes its own call from the engine process. Before it does, the engine asks
    the daemon ([authorizePieceDispatch]); the route ([authorize_route]) checks the request, and
    [pieceAuthorize] puts the dispatch through the effect boundary. The input of the step leaves the
    engine only as its projection [sanitizePieceInput], and the daemon projects it again.

    The values of a resolved input ([pval]) are JSON data, [undefined], bytes and dates (each date is
    its ISO text, so valid); numbers are integers. [bound] gives the JSON a projected value becomes:
    [None] is [undefined], which JSON drops from objects. An assignment to the key [__proto__] makes
    no own property, so [bound] skips that key. *)
From Stdlib Require Import Ascii.
From S2P Require Export DelegateDispatch.

(** ** The adapters *)

Definition PIECE_AUTH_PROPERTY : string := "auth".
Definition PIECE_TOOL_CATEGORY : string := "workflow-piece".

Record GovernedPieceAdapter := mkAdapter {
  catalogId : string; adapter_pieceName : string; unknownActionCategory : ActionCategory;
  adapter_categories : list (ActionCategory * list string); targetProps : list string; vettedVersion : string }.

Definition gmail_adapter : GovernedPieceAdapter :=
  mkAdapter "gmail" "@activepieces/piece-gmail" delete_data
    [(read_data,
      ["gmail_get_mail"; "gmail_search_mail"; "gmail_get_message"; "gmail_search_email"; "gmail_get_thread"; "gmail_get_draft";
       "gmail_list_drafts"; "gmail_list_threads"; "gmail_get_attachment"; "gmail_list_labels"; "gmail_get_label";
       "gmail_get_profile"; "gmail_list_history"]);
     (write_data,
      ["create_draft_reply"; "gmail_create_draft"; "gmail_update_draft"; "gmail_create_label"; "gmail_add_label_to_email";
       "gmail_remove_label_from_email"; "gmail_archive_email"]);
     (send_email,
      ["send_email"; "gmail_send_email"; "reply_to_email"; "gmail_reply_to_thread"; "gmail_send_draft";
       "gmail_forward_message"; "request_approval_in_mail"]);
     (delete_data,
      ["gmail_delete_draft"; "custom_api_call"]);
     (modify_settings,
      ["gmail_stop_watch"])]
    ["receiver"; "cc"; "bcc"; "subject"; "reply_to"; "from"; "to"; "message_id"; "thread_id"; "draft_id"; "label"; "url";
     "method"]
    "0.15.0".

Definition slack_adapter : GovernedPieceAdapter :=
  mkAdapter "slack" "@activepieces/piece-slack" delete_data
    [(read_data,
      ["get-file"; "searchMessages"; "slack-find-user-by-email"; "slack-find-user-by-handle"; "find-user-by-id"; "listUsers";
       "getChannelHistory"; "retrieveThreadMessages"; "get-message"; "get_group_by_handle"; "slack_list_scheduled_messages";
       "slack_get_message_permalink"; "slack_get_channel_history"; "slack_get_thread_replies"; "slack_search_messages";
       "slack_search_all"; "find_user_by_email"; "get_user"; "list_users"; "find_user_by_handle"; "slack_find_channel";
       "slack_get_channel_info"; "slack_get_file"; "slack_get_reactions"; "slack_list_channel_members"; "slack_list_channels";
       "slack_list_custom_emoji"; "slack_list_files"; "slack_list_user_conversations"; "list_user_groups";
       "slack_list_user_reactions"; "markdownToSlackFormat"]);
     (send_message,
      ["send_direct_message"; "send_channel_message"; "request_approval_direct_message"; "request_approval_message";
       "request_action_direct_message"; "request_action_message"; "slack_post_message"; "slack_send_direct_message";
       "slack_schedule_message"; "slack_send_ephemeral_message"; "updateMessage"; "slack_update_message"]);
     (write_data,
      ["slack-add-reaction-to-message"; "slack_add_reaction"; "slack_remove_reaction"; "uploadFile";
       "slack_mark_conversation_read"; "slack_join_channel"; "slack_leave_channel"; "slack_close_dm"; "slack-create-channel";
       "slack_create_channel"; "slack_rename_channel"; "set-channel-topic"; "slack_set_channel_topic";
       "slack_set_channel_purpose"; "slack-set-user-status"; "set_user_status"; "slack_unarchive_channel"]);
     (modify_settings,
      ["invite-user-to-channel"; "slack_invite_users_to_channel"; "slack_remove_user_from_channel"; "update_group_users";
       "slack-update-profile"; "update_profile"]);
     (delete_data,
      ["delete-message"; "slack_delete_message"; "slack_delete_scheduled_message"; "slack_archive_channel"; "custom_api_call"])]
    ["channel"; "user"; "userId"; "username"; "email"; "handle"; "ts"; "threadTs"; "text"; "file"; "reaction"; "name"; "query";
     "url"; "method"]
    "0.17.10".

Definition notion_adapter : GovernedPieceAdapter :=
  mkAdapter "notion" "@activepieces/piece-notion" delete_data
    [(read_data,
      ["list_databases"; "notion-find-database-item"; "list_database_pages"; "getPageOrBlockChildren"; "retrieve_database";
       "get_page_comments"; "find_page"; "notion_get_page"; "notion_get_block_children"; "notion_get_page_comments";
       "notion_search"; "notion_list_users"; "notion_get_user"; "notion_get_database"; "notion_query_database";
       "notion_find_database_item"]);
     (write_data,
      ["create_database_item"; "update_database_item"; "createPage"; "append_to_page"; "restore_database_item"; "add_comment";
       "notion_create_page"; "notion_move_page"; "notion_append_to_page"; "notion_update_block"; "notion_add_comment";
       "notion_create_database"; "notion_update_database_schema"; "notion_create_database_item"; "notion_update_database_item";
       "notion_restore_database_item"]);
     (delete_data,
      ["archive_database_item"; "notion_archive_page"; "notion_delete_block"; "notion_archive_database_item"; "custom_api_call"])]
    ["database_id"; "page_id"; "pageId"; "block_id"; "item_id"; "database_item_id"; "archived_item_id"; "parent_page_id";
     "new_parent_page_id"; "title"; "comment_text"; "url"; "method"]
    "0.6.10".

Definition openai_adapter : GovernedPieceAdapter :=
  mkAdapter "openai" "@activepieces/piece-openai" delete_data
    [(read_data,
      ["list_files"; "find_file"; "list_models"]);
     (write_data,
      ["ask_chatgpt"; "ask_assistant"; "vision_prompt"; "extract-structured-data"; "classify_text"; "analyze_sentiment";
       "create_embedding"; "search_embeddings"; "generate_image"; "edit_image"; "text_to_speech"; "transcribe"; "translate";
       "upload_file"]);
     (delete_data,
      ["delete_file"; "custom_api_call"])]
    ["model"; "prompt"; "text"; "input"; "query"; "fileName"; "purpose"; "url"; "method"]
    "0.10.5".

Definition claude_adapter : GovernedPieceAdapter :=
  mkAdapter "claude" "@activepieces/piece-claude" delete_data
    [(write_data,
      ["ask_claude"; "extract-structured-data"]);
     (delete_data,
      ["custom_api_call"])]
    ["model"; "prompt"; "systemPrompt"; "text"; "mode"; "url"; "method"]
    "0.4.12".

Definition github_adapter : GovernedPieceAdapter :=
  mkAdapter "github" "@activepieces/piece-github" delete_data
    [(read_data,
      ["getIssueInformation"; "find_branch"; "find_issue"; "find_user"]);
     (write_data,
      ["github_create_issue"; "createCommentOnAIssue"; "github_create_pull_request_review_comment";
       "github_create_commit_comment"; "github_create_discussion_comment"; "add_labels_to_issue"; "create_branch";
       "update_issue"; "lockIssue"; "unlockIssue"]);
     (send_message,
      ["github_create_gist"]);
     (delete_data,
      ["delete_branch"; "rawGraphqlQuery"; "custom_api_call"])]
    ["repository"; "issue_number"; "pull_number"; "discussion_number"; "commit_id"; "branch"; "source_branch";
     "new_branch_name"; "title"; "filename"; "public"; "path"; "username"; "url"; "method"]
    "0.7.3".

Definition google_calendar_adapter : GovernedPieceAdapter :=
  mkAdapter "google-calendar" "@activepieces/piece-google-calendar" delete_data
    [(read_data,
      ["google_calendar_get_events"; "google_calendar_find_busy_free_periods"; "google_calendar_get_event_by_id";
       "google_calendar_search_events_all_calendars"; "google_calendar_find_free_slots";
       "google_calendar_list_recurring_event_instances"; "google_calendar_get_event"; "google_calendar_list_events";
       "google_calendar_find_busy_periods"; "google_calendar_list_calendars"; "google_calendar_get_calendar";
       "google_calendar_get_colors"; "google_calendar_list_settings"]);
     (write_data,
      ["create_quick_event"; "create_google_calendar_event"; "update_event"; "google_calendar_move_event";
       "google_calendar_create_event"; "google_calendar_update_event"; "google_calendar_import_event"]);
     (send_message,
      ["google-calendar-add-attendees"; "google_calendar_remove_attendee"]);
     (delete_data,
      ["delete_event"; "google_calendar_delete_event"; "custom_api_call"])]
    ["calendar_id"; "calendar_ids"; "event_id"; "eventId"; "title"; "attendees"; "start_date_time"; "end_date_time";
     "start_date"; "end_date"; "location"; "send_updates"; "send_notifications"; "url"; "method"]
    "0.10.3".

Definition google_drive_adapter : GovernedPieceAdapter :=
  mkAdapter "google-drive" "@activepieces/piece-google-drive" delete_data
    [(read_data,
      ["read-file"; "get-file-or-folder-by-id"; "list-files"; "search-folder"; "drive_export_folder_as_zip";
       "drive_download_file"; "drive_export_workspace_file"; "drive_get_file"; "drive_list_files"; "drive_search_files";
       "drive_list_permissions"; "drive_list_shared_drives"; "drive_get_shared_drive"; "drive_list_comments";
       "drive_get_reply"; "drive_list_replies"; "drive_get_about"]);
     (write_data,
      ["create_new_gdrive_folder"; "create_new_gdrive_file"; "upload_gdrive_file"; "duplicate_file"; "save_file_as_pdf";
       "google-drive-move-file"; "drive_create_folder"; "drive_create_file_from_text"; "drive_upload_file";
       "drive_upload_from_url"; "drive_replace_file_content"; "drive_copy_file"; "drive_move_file";
       "drive_update_file_metadata"; "drive_save_file_as_pdf"; "drive_untrash_file"; "drive_create_shared_drive";
       "drive_update_shared_drive"; "drive_create_comment"; "drive_create_reply"; "drive_update_reply"]);
     (modify_settings,
      ["update_permissions"; "delete_permissions"; "set_public_access"; "drive_share_file"; "drive_set_public_access";
       "drive_update_permission"; "drive_remove_permission"]);
     (delete_data,
      ["delete_gdrive_file"; "trash_gdrive_file"; "drive_trash_file"; "drive_delete_file"; "drive_empty_trash";
       "drive_delete_shared_drive"; "drive_delete_reply"; "custom_api_call"])]
    ["file_id"; "fileId"; "fileName"; "file_name"; "name"; "folderId"; "folder_id"; "parent_folder_id"; "parentFolder";
     "drive_id"; "user_email"; "role"; "type"; "permission_name"; "send_invitation_email"; "comment_id"; "reply_id"; "url";
     "method"]
    "0.9.1".

Definition discord_adapter : GovernedPieceAdapter :=
  mkAdapter "discord" "@activepieces/piece-discord" delete_data
    [(read_data,
      ["list_guild_members"; "find_channel"; "discord_find_channel"; "discord_find_member"; "discord_list_messages";
       "discord_list_pinned_messages"; "discord_list_reactions"; "discord_list_active_threads";
       "discord_list_archived_threads"; "discord_list_channels"; "discord_get_channel"; "discord_get_member";
       "discord_list_bans"; "discord_list_roles"; "discord_get_guild"; "discord_list_emojis"; "discord_list_scheduled_events";
       "discord_list_invites"; "discord_get_user"]);
     (send_message,
      ["sendMessageWithBot"; "send_message_webhook"; "request_approval_message"; "discord_send_message"; "discord_edit_message"]);
     (write_data,
      ["rename_channel"; "create_channel"; "discord_create_channel"; "discord_rename_channel"; "discord_pin_message";
       "discord_unpin_message"; "discord_add_reaction"; "discord_remove_reaction"; "discord_create_thread_from_message";
       "discord_create_thread"; "discord_join_thread"; "discord_leave_thread"; "discord_create_scheduled_event";
       "discord_update_scheduled_event"; "discord_create_dm"]);
     (modify_settings,
      ["add_role_to_member"; "remove_role_from_member"; "remove_member_from_guild"; "remove_ban_from_user"; "createGuildRole";
       "deleteGuildRole"; "ban_guild_member"; "discord_add_role"; "discord_remove_role"; "discord_create_role";
       "discord_delete_role"; "discord_update_role"; "discord_add_thread_member"; "discord_revoke_invite"]);
     (delete_data,
      ["delete_channel"; "discord_delete_channel"; "discord_delete_message"; "discord_bulk_delete_messages";
       "discord_remove_user_reaction"; "discord_clear_reactions"; "discord_delete_scheduled_event"; "custom_api_call"])]
    ["guild_id"; "channel_id"; "user_id"; "role_id"; "message_id"; "name"; "content"; "message"; "reason"; "emoji";
     "webhook_url"; "url"; "method"]
    "0.5.7".

Definition telegram_bot_adapter : GovernedPieceAdapter :=
  mkAdapter "telegram-bot" "@activepieces/piece-telegram-bot" delete_data
    [(read_data,
      ["get_chat_member"; "get_file"]);
     (send_message,
      ["send_text_message"; "send_media"; "request_approval_message"]);
     (modify_settings,
      ["create_invite_link"]);
     (delete_data,
      ["custom_api_call"])]
    ["chat_id"; "user_id"; "message"; "message_thread_id"; "media_type"; "file_id"; "name"; "expire_date"; "member_limit";
     "url"; "method"]
    "0.5.7".

Definition GOVERNED_PIECE_ADAPTERS : list GovernedPieceAdapter :=
  [gmail_adapter; slack_adapter; notion_adapter; openai_adapter; claude_adapter;
   github_adapter; google_calendar_adapter; google_drive_adapter; discord_adapter; telegram_bot_adapter].

(** [BY_PIECE_NAME] and [ACTION_CATEGORY], filled when the module loads; it throws on a duplicate. *)
Record PieceTables := mkTables {
  BY_PIECE_NAME : list (string * GovernedPieceAdapter);
  ACTION_CATEGORY : list (string * list (string * ActionCategory)) }.

(** The actions of an adapter, one after the other. *)
Definition listed_actions (a : GovernedPieceAdapter) : list (string * ActionCategory) :=
  flat_map (fun c => map (fun name => (name, c.1)) c.2) (adapter_categories a).

Fixpoint load_actions (catalog : string) (l actions : list (string * ActionCategory)) : throws (list (string * ActionCategory)) :=
  match l with
  | [] => inr actions
  | (name, c) :: l' =>
      if map_has name actions then inl ("Governed piece " +:+ catalog +:+ " maps " +:+ name +:+ " to two categories")
      else load_actions catalog l' (map_set name c actions)
  end.

Fixpoint load_adapters (l : list GovernedPieceAdapter) (t : PieceTables) : throws PieceTables :=
  match l with
  | [] => inr t
  | a :: l' =>
      if map_has (adapter_pieceName a) (BY_PIECE_NAME t) then inl ("Duplicate governed piece adapter: " +:+ adapter_pieceName a)
      else match load_actions (catalogId a) (listed_actions a) [] with
           | inl e => inl e
           | inr actions =>
               load_adapters l' (mkTables (map_set (adapter_pieceName a) a (BY_PIECE_NAME t))
                                          (map_set (adapter_pieceName a) actions (ACTION_CATEGORY t)))
           end
  end.

(** The tables the module has once it is loaded ([adapters_load]: loading does not throw). *)
Definition piece_tables : PieceTables :=
  Eval vm_compute in match load_adapters GOVERNED_PIECE_ADAPTERS (mkTables [] []) with inr t => t | inl _ => mkTables [] [] end.

Record ResolvedPieceAction := mkResolvedPiece {
  rp_adapter : GovernedPieceAdapter; rp_action : string; rp_category : ActionCategory; rp_known : bool }.

(** A value read from JSON that is a string. *)
Definition as_string (v : json) : option string := match v with JStr s => Some s | _ => None end.

Definition isGovernedPiece (pieceName : json) : bool :=
  match as_string pieceName with Some p => map_has p (BY_PIECE_NAME piece_tables) | None => false end.

Definition resolveGovernedPieceAction (pieceName actionName : json) : option ResolvedPieceAction :=
  match as_string pieceName, as_string actionName with
  | Some p, Some a =>
      match map_get p (BY_PIECE_NAME piece_tables) with
      | None => None
      | Some adapter =>
          let mapped := map_get a (map_get p (ACTION_CATEGORY piece_tables) ?? []) in
          Some (mkResolvedPiece adapter a (mapped ?? unknownActionCategory adapter) (negb (is_null mapped)))
      end
  | _, _ => None
  end.

Definition governedPieceToolName (catalog action : string) : string := "piece:" +:+ catalog +:+ "/" +:+ action.

(** ** Projection *)

Inductive pval :=
  | PUndefined
  | PNull
  | PBool (b : bool)
  | PNum (n : Z)
  | PStr (s : string)
  | PBinary (bytes : nat)
  | PDate (iso : string)
  | PArr (items : list pval)
  | PObj (fields : list (string * pval)).

Fixpoint of_json (v : json) : pval :=
  match v with
  | JNull => PNull | JBool b => PBool b | JNum n => PNum n | JStr s => PStr s
  | JArr l => PArr (map of_json l)
  | JObj fs => PObj (map (fun e => (e.1, of_json e.2)) fs)
  end.

Definition MAX_STRING : nat := 512.
Definition MAX_ARRAY : nat := 25.
Definition MAX_KEYS : nat := 40.
Definition MAX_DEPTH : nat := 5.

Definition show_nat (n : nat) : string := show_z (Z.of_nat n).

Definition bound_string (s : string) : string :=
  if (String.length s <=? MAX_STRING)%nat then s
  else stake MAX_STRING s +:+ "... [" +:+ show_nat (String.length s - MAX_STRING) +:+ " more characters]".

(** Keys that leave nothing in the projection. *)
Definition skipped_key (k : string) : bool := bool_decide (k = PIECE_AUTH_PROPERTY) || bool_decide (k = "__proto__").

(** [levels] is what is left of [MAX_DEPTH]. *)
Fixpoint bound (levels : nat) (value : pval) : option json :=
  match value with
  | PUndefined => None
  | PNull => Some JNull
  | PBool b => Some (JBool b)
  | PNum n => Some (JNum n)
  | PStr s => Some (JStr (bound_string s))
  | PBinary n => Some (JStr ("[binary, " +:+ show_nat n +:+ " bytes]"))
  | PDate iso => Some (JStr iso)
  | PArr l =>
      match levels with
      | O => Some (JStr "[nested value omitted]")
      | S levels' =>
          Some (JArr (map (fun v => bound levels' v ?? JNull) (take MAX_ARRAY l) ++
            (if (MAX_ARRAY <? length l)%nat then [JStr ("[" +:+ show_nat (length l - MAX_ARRAY) +:+ " more items]")] else [])))
      end
  | PObj fields =>
      match levels with
      | O => Some (JStr "[nested value omitted]")
      | S levels' =>
          let kept := List.filter (fun e : string * pval => negb (skipped_key e.1)) (take MAX_KEYS (sort_by key_le fields)) in
          let out := omap (fun e : string * pval => (fun j => (e.1, j)) <$> bound levels' e.2) kept in
          Some (JObj (if (MAX_KEYS <? length fields)%nat
                      then map_set "omittedFields" (JNum (Z.of_nat (length fields - MAX_KEYS))) out else out))
      end
  end.

Definition sanitizePieceInput (input : pval) : json :=
  match input with
  | PObj _ | PBinary _ | PDate _ => bound MAX_DEPTH input ?? JNull
  | _ => JObj []
  end.

(** The entries of an object that came from JSON. *)
Definition entries_of (v : json) : params := match v with JObj fs => fs | _ => [] end.

(** [value === undefined || value === null || value === ''] *)
Definition blank (v : option json) : bool :=
  match v with None | Some JNull => true | Some (JStr s) => negb (truthy s) | _ => false end.

Definition governedPieceTarget (resolved : ResolvedPieceAction) (input : params) : params :=
  [("piece", JStr (catalogId (rp_adapter resolved))); ("action", JStr (rp_action resolved))] ++
  (if rp_known resolved then [] else [("unmappedAction", JBool true)]) ++
  flat_map (fun prop =>
    let value := assoc_get prop input in
    if blank value then []
    else match value ≫= (fun v => bound (MAX_DEPTH - (MAX_DEPTH - 2)) (of_json v)) with Some j => [(prop, j)] | None => [] end)
    (targetProps (rp_adapter resolved)).

(** The descriptor the daemon's effect machinery works on; its [execute] always throws. *)
Record GovernedTool := mkGovernedTool {
  gt_name : string; gt_description : string; gt_category : string;
  gt_effect_category : ActionCategory; gt_effect_target : params -> params }.

Definition governedPieceToolDefinition (resolved : ResolvedPieceAction) : GovernedTool :=
  let catalog := catalogId (rp_adapter resolved) in
  mkGovernedTool (governedPieceToolName catalog (rp_action resolved))
    ("Governed " +:+ catalog +:+ " piece action " +:+ rp_action resolved) PIECE_TOOL_CATEGORY
    (rp_category resolved) (governedPieceTarget resolved).

(** ** The engine's question (piece-effect-guard.ts) *)

(** What [fetch] gives: a failure, or a status with the text and the JSON of the body. *)
Inductive Fetched := fetch_fails (message : string) | fetch_response (status : Z) (text : string) (body : option json).

Definition status_ok (status : Z) : bool := (200 <=? status) && (status <=? 299).

Definition not_governed_reply : json := JObj [("governed", JBool false)].

(** [approval?.waitpointId] *)
Definition has_waitpoint (reply : json) : bool :=
  match jget "approval" reply ≫= jget "waitpointId" with Some v => truthy_json v | None => false end.

Definition authorizePieceDispatch (piece action : json) (input : pval) (fetch : json -> Fetched) : throws json :=
  match as_string piece, as_string action with
  | Some p, Some a =>
      if negb (isGovernedPiece piece) || negb (truthy a) then inr not_governed_reply
      else
        let refused why := inl ("Governed piece " +:+ p +:+ "/" +:+ a +:+ " was not authorized: " +:+ why) in
        match fetch (JObj [("piece", piece); ("action", action); ("input", sanitizePieceInput input)]) with
        | fetch_fails m => refused m
        | fetch_response status text body =>
            if negb (status_ok status) then refused ("daemon responded " +:+ show_z status +:+ ": " +:+ stake 500 text)
            else match body with
                 | None => refused "malformed authorization reply"
                 | Some reply =>
                     if negb (is_object reply) then refused "malformed authorization reply"
                     else if (match jget "governed" reply with Some (JBool false) => true | _ => false end) then inr not_governed_reply
                     else if jstr_is (jget "dispatch" reply) "approval_required" && has_waitpoint reply then inr reply
                     else if jstr_is (jget "dispatch" reply) "authorized" then inr reply
                     else refused "malformed authorization reply"
                 end
        end
  | _, _ => inr not_governed_reply
  end.

(** What piece-executor.ts does with the answer: the step parks, fails, or calls the piece's [run]. *)
Inductive PieceStep := step_parks (approval : option json) | step_fails (why : string) | step_runs.

Definition piece_step (governance : throws json) : PieceStep :=
  match governance with
  | inl why => step_fails why
  | inr reply =>
      if (match jget "governed" reply with Some v => truthy_json v | None => false end) &&
         jstr_is (jget "dispatch" reply) "approval_required"
      then step_parks (jget "approval" reply) else step_runs
  end.

(** ** The daemon's answer *)

Record PieceAuthorizeRequest := mkPieceRequest { pa_piece : string; pa_action : string; pa_input : json }.

Inductive PieceAuthorizeResponse :=
  | piece_not_governed
  | piece_authorized
  | piece_approval_required (effectId approvalId waitpointId : string).

Definition response_json (r : PieceAuthorizeResponse) : json :=
  match r with
  | piece_not_governed => not_governed_reply
  | piece_authorized => JObj [("governed", JBool true); ("dispatch", JStr "authorized")]
  | piece_approval_required e a w =>
      JObj [("governed", JBool true); ("dispatch", JStr "approval_required");
            ("approval", JObj [("effectId", JStr e); ("approvalId", JStr a); ("waitpointId", JStr w)])]
  end.

(** The route: the checks of the body ([None] is not JSON), then the request for [pieceAuthorize]. *)
Definition authorize_route (configured : bool) (body : option json) : (Z * string) + PieceAuthorizeRequest :=
  if negb configured then inl (503, "jarvis pieces.authorize not configured")
  else match body with
       | None => inl (400, "invalid JSON body")
       | Some (JObj fields as raw) =>
           match jget "piece" raw, jget "action" raw with
           | Some (JStr p), a =>
               if negb (truthy p) then inl (400, "piece must be a non-empty string")
               else match a with
                    | Some (JStr a) =>
                        if negb (truthy a) then inl (400, "action must be a non-empty string")
                        else match jget "input" raw with
                             | None => inr (mkPieceRequest p a (JObj []))
                             | Some (JObj fs) => inr (mkPieceRequest p a (JObj fs))
                             | Some _ => inl (400, "input must be an object")
                             end
                    | _ => inl (400, "action must be a non-empty string")
                    end
           | _, _ => inl (400, "piece must be a non-empty string")
           end
       | Some _ => inl (400, "body must be a JSON object")
       end.

(** [toolEffectCapability] on a tool with a typed effect: its category and its target. *)
Definition typed_capability (tool : GovernedTool) : throws (ActionCategory * (params -> params)) :=
  if includes (gt_name tool) OPAQUE_TOOL_NAMES
  then inl ("Unsupported direct workflow capability: " +:+ gt_name tool +:+ " has opaque code/UI effects; use a typed governed adapter")
  else if negb (includes (gt_effect_category tool) requirement_keys)
  then inl ("Unsupported direct workflow capability: " +:+ gt_name tool +:+ " has no declared Authority action")
  else inr (gt_effect_category tool, gt_effect_target tool).

Section boundary.
Context (sha256 : string -> string).

Definition piece_invocation (ctx : WorkflowEffectContext) (req : PieceAuthorizeRequest) (tool : GovernedTool)
    (category : ActionCategory) (target : params -> params) : EffectInvocation :=
  let input := sanitizePieceInput (of_json (pa_input req)) in
  let arguments := entries_of input in
  mkInvocation ctx (pa_piece req) (pa_action req) "piece" (gt_name tool) category (gt_category tool) None
    (JObj [("piece", JStr (pa_piece req)); ("action", JStr (pa_action req)); ("input", input)]) None
    (inr (arguments, target arguments))
    (fun _ recorded => if bool_decide (digest sha256 (JObj (target arguments)) = digest sha256 (JObj recorded)) then None
                       else Some (plain_error "Workflow execution target changed after review; dispatch blocked"))
    None false.

(** Up to the boundary: not governed, refused with the category of the audit row, or the invocation. *)
Inductive PieceCall := call_not_governed | call_refused (tool : string) (category : ActionCategory) (why : string) | call_invokes (i : EffectInvocation).

Definition pieceAuthorize (req : PieceAuthorizeRequest) (ctx : WorkflowEffectContext) : PieceCall :=
  match resolveGovernedPieceAction (JStr (pa_piece req)) (JStr (pa_action req)) with
  | None => call_not_governed
  | Some resolved =>
      let tool := governedPieceToolDefinition resolved in
      match typed_capability tool with
      | inl why => call_refused (gt_name tool) (gt_effect_category tool) why
      | inr (category, target) => call_invokes (piece_invocation ctx req tool category target)
      end
  end.

Definition piece_response (reply : EffectReply) : PieceAuthorizeResponse :=
  match reply with reply_result _ => piece_authorized | reply_approval e a w => piece_approval_required e a w end.

(** What [execute] returns once the checkpoint has passed. *)
Definition authorized_result : EffectCallback := callback_returns (Some (JObj [("dispatch", JStr "authorized")])).

(** A moment of the daemon: its state, and the hour the authority engine reads. *)
Definition Moment : Type := EffectWorld * Z.

(** The answers [pieceAuthorize] can give to a request that meets the daemon at [asked] and is
    decided at [decided]: the same moment, unless the daemon first notifies the user of a new approval
    and looks again when that has been delivered. A dispatched callback returns at some later moment. *)
Inductive Answers (req : PieceAuthorizeRequest) (ctx : WorkflowEffectContext) (asked decided : Moment) : PieceAuthorizeResponse -> Prop :=
  | answers_not_governed : pieceAuthorize req ctx = call_not_governed -> Answers req ctx asked decided piece_not_governed
  | answers_settled i approvalId waitpointId audit_id now w' reply :
      pieceAuthorize req ctx = call_invokes i -> decided = asked ->
      invoke_begin sha256 asked.1 asked.2 i approvalId waitpointId audit_id now = (w', effect_replies reply) ->
      Answers req ctx asked decided (piece_response reply)
  | answers_delivered i approvalId waitpointId audit_id0 now0 w1 r e audit_id now w' reply :
      pieceAuthorize req ctx = call_invokes i ->
      invoke_begin sha256 asked.1 asked.2 i approvalId waitpointId audit_id0 now0 = (w1, effect_delivering r e) ->
      invoke_delivered sha256 decided.1 decided.2 i r e audit_id now = (w', effect_replies reply) ->
      Answers req ctx asked decided (piece_response reply)
  | answers_dispatched i approvalId waitpointId audit_id now w' r e args w2 audit_id2 now2 w3 reply :
      pieceAuthorize req ctx = call_invokes i -> decided = asked ->
      invoke_begin sha256 asked.1 asked.2 i approvalId waitpointId audit_id now = (w', effect_dispatched r e args) ->
      invoke_finish w2 i r e authorized_result audit_id2 now2 = (w3, effect_replies reply) ->
      Answers req ctx asked decided (piece_response reply)
  | answers_dispatched_later i approvalId waitpointId audit_id0 now0 w1 r0 e0 audit_id now w' r e args w2 audit_id2 now2 w3 reply :
      pieceAuthorize req ctx = call_invokes i ->
      invoke_begin sha256 asked.1 asked.2 i approvalId waitpointId audit_id0 now0 = (w1, effect_delivering r0 e0) ->
      invoke_delivered sha256 decided.1 decided.2 i r0 e0 audit_id now = (w', effect_dispatched r e args) ->
      invoke_finish w2 i r e authorized_result audit_id2 now2 = (w3, effect_replies reply) ->
      Answers req ctx asked decided (piece_response reply).

(** The daemon as the engine's [fetch] sees it: a refused request or a throw is a status that is not ok. *)
Definition fetch_from (daemon : PieceAuthorizeRequest -> string + PieceAuthorizeResponse) (body : json) : Fetched :=
  match authorize_route true (Some body) with
  | inl (status, m) => fetch_response status m None
  | inr req =>
      match daemon req with
      | inl m => fetch_response 500 m None
      | inr resp => fetch_response 200 EmptyString (Some (response_json resp))
      end
  end.
End boundary.

(** ** The tables *)

(** Loading the module does not throw: no piece has two adapters, no action two categories. *)
Lemma adapters_load : load_adapters GOVERNED_PIECE_ADAPTERS (mkTables [] []) = inr piece_tables.
Proof. vm_compute. reflexivity. Qed.

Lemma by_piece_name : BY_PIECE_NAME piece_tables = map (fun a => (adapter_pieceName a, a)) GOVERNED_PIECE_ADAPTERS.
Proof. vm_compute. reflexivity. Qed.

Lemma by_action : ACTION_CATEGORY piece_tables = map (fun a => (adapter_pieceName a, listed_actions a)) GOVERNED_PIECE_ADAPTERS.
Proof. vm_compute. reflexivity. Qed.

Lemma adapters_checked : forallb (fun a =>
    bool_decide (NoDup (map fst (listed_actions a))) &&
    forallb (fun c => AUTHORITY_REQUIREMENTS c.1 <=? AUTHORITY_REQUIREMENTS (unknownActionCategory a)) (adapter_categories a) &&
    bool_decide (map_get "custom_api_call" (listed_actions a) = Some (unknownActionCategory a)))
  GOVERNED_PIECE_ADAPTERS = true.
Proof. vm_compute. reflexivity. Qed.

Lemma map_get_keyed {A B} (f : A -> string) (g : A -> B) k b l : map_get k (map (fun a => (f a, g a)) l) = Some b ->
  exists a, In a l /\ f a = k /\ g a = b.
Proof.
  unfold map_get. induction l as [|a l IH]; [done|]. cbn. unfold key_eq at 1. cbn [fst]. case_bool_decide as E; cbn.
  - intros [= <-]. exists a. split_and!; [by left|done|done].
  - intros H. destruct (IH H) as (x & Hx & ?). exists x. split; [by right|done].
Qed.

Lemma map_get_both {A B} (f : A -> string) (g : A -> B) k x l : map_get k (map (fun a => (f a, a)) l) = Some x ->
  map_get k (map (fun a => (f a, g a)) l) = Some (g x).
Proof.
  unfold map_get. induction l as [|a l IH]; [done|]. cbn. unfold key_eq. cbn [fst]. case_bool_decide; cbn; [by intros [= <-]|done].
Qed.

Lemma resolve_spec p a r : resolveGovernedPieceAction (JStr p) (JStr a) = Some r ->
  let mapped := map_get a (listed_actions (rp_adapter r)) in
  In (rp_adapter r) GOVERNED_PIECE_ADAPTERS /\ adapter_pieceName (rp_adapter r) = p /\ rp_action r = a /\
  rp_category r = mapped ?? unknownActionCategory (rp_adapter r) /\ rp_known r = negb (is_null mapped).
Proof.
  unfold resolveGovernedPieceAction. cbn [as_string]. rewrite by_piece_name, by_action.
  destruct (map_get p (map (fun a => (adapter_pieceName a, a)) _)) as [x|] eqn:E; [|done].
  rewrite (map_get_both _ listed_actions _ _ _ E). intros [= <-]. cbn.
  apply (map_get_keyed adapter_pieceName id) in E as (y & Hy & Hn & <-). done.
Qed.

Lemma resolve_governed p a : isGovernedPiece (JStr p) = true -> is_Some (resolveGovernedPieceAction (JStr p) (JStr a)).
Proof. unfold isGovernedPiece, resolveGovernedPieceAction. cbn [as_string]. rewrite map_has_get. intros [x ->]. by eexists. Qed.

Lemma listed_In a c name : In (name, c) (listed_actions a) <-> exists names, In (c, names) (adapter_categories a) /\ In name names.
Proof.
  unfold listed_actions. rewrite in_flat_map. split.
  - intros ([c' names] & Hc & (n & [= <- <-] & Hn)%in_map_iff). by exists names.
  - intros (names & Hc & Hn). exists (c, names). split; [done|]. apply in_map_iff. by exists name.
Qed.

(** An action nobody has classified is never under-gated. What a governed piece does is judged under the one
    category that lists the action, or, when the table does not name it, and for [custom_api_call],
    under a category at least as demanding as every category the piece has. *)
Theorem unmapped_actions_are_worst_case p a r : resolveGovernedPieceAction (JStr p) (JStr a) = Some r ->
  let adapter := rp_adapter r in
  In adapter GOVERNED_PIECE_ADAPTERS /\ adapter_pieceName adapter = p /\
  (forall c names, In (c, names) (adapter_categories adapter) -> In a names -> rp_known r = true /\ rp_category r = c) /\
  ((rp_known r = false \/ a = "custom_api_call") ->
     rp_category r = unknownActionCategory adapter /\
     forall c names, In (c, names) (adapter_categories adapter) -> AUTHORITY_REQUIREMENTS c <= AUTHORITY_REQUIREMENTS (rp_category r)).
Proof.
  intros H. apply resolve_spec in H as (Hin & Hn & _ & Hc & Hk). cbv zeta. pose proof adapters_checked as Hok.
  rewrite forallb_forall in Hok. specialize (Hok _ Hin). rewrite !andb_true_iff, !bool_decide_eq_true in Hok. destruct Hok as ((Hd & Hl) & Hcustom).
  apply NoDup_ListNoDup in Hd. rewrite forallb_forall in Hl. split_and!; [done|done| |].
  - intros c names Hin' Ha. assert (map_get a (listed_actions (rp_adapter r)) = Some c) as E.
    { apply map_get_Some; [exact Hd|]. apply listed_In. by exists names. }
    rewrite E in Hc, Hk. done.
  - intros Hu. assert (rp_category r = unknownActionCategory (rp_adapter r)) as ->.
    { destruct Hu as [Hu | ->]; [|by rewrite Hcustom in Hc]. rewrite Hk in Hu.
      destruct (map_get a _); [discriminate Hu|exact Hc]. }
    split; [done|]. intros c names Hin'. apply Z.leb_le. apply (Hl (c, names) Hin').
Qed.

(** ** The connection stays inside *)

(** The same input with other connections in it. *)
Fixpoint hide (v : pval) : pval :=
  match v with
  | PArr l => PArr (map hide l)
  | PObj fs => PObj (map (fun e => (e.1, if bool_decide (e.1 = PIECE_AUTH_PROPERTY) then PNull else hide e.2)) fs)
  | _ => v
  end.

Definition hide_entry (e : string * pval) : string * pval :=
  (e.1, if bool_decide (e.1 = PIECE_AUTH_PROPERTY) then PNull else hide e.2).

Lemma filter_map_comm {A B} (f : A -> B) (p : A -> bool) (q : B -> bool) l : (forall a, q (f a) = p a) ->
  List.filter q (map f l) = map f (List.filter p l).
Proof. intros H. induction l as [|x l IH]; [done|]. cbn. rewrite H. destruct (p x); cbn; by rewrite IH. Qed.

Lemma omap_ext_map {A B C} (f : A -> B) (g : B -> option C) (h : A -> option C) l : (forall a, In a l -> g (f a) = h a) ->
  omap g (map f l) = omap h l.
Proof.
  induction l as [|x l IH]; intros H; [done|]. cbn. rewrite (H x) by (by left). rewrite IH; [done|]. intros a Ha. apply H. by right.
Qed.

Lemma bound_hide levels : forall v, bound levels (hide v) = bound levels v.
Proof.
  induction levels as [|levels IH]; intros [| | | | | | |l|fs]; try done; cbn [hide bound].
  - f_equal. f_equal. rewrite length_map. f_equal. rewrite firstn_map, map_map. apply map_ext. intros v. by rewrite IH.
  - change (map (fun e : string * pval => (e.1, if bool_decide (e.1 = PIECE_AUTH_PROPERTY) then PNull else hide e.2)) fs) with (map hide_entry fs).
    rewrite length_map, (sort_by_map hide_entry key_le key_le) by done. rewrite firstn_map.
    rewrite (filter_map_comm hide_entry (fun e => negb (skipped_key e.1))) by done.
    rewrite (omap_ext_map hide_entry _ (fun e : string * pval => (fun j => (e.1, j)) <$> bound levels e.2)); [done|].
    intros e He. apply List.filter_In in He as [_ Hs]. unfold hide_entry. cbn [fst snd].
    unfold skipped_key in Hs. apply negb_true_iff, orb_false_iff in Hs as [-> _]. by rewrite IH.
Qed.

Lemma sanitize_hide v : sanitizePieceInput (hide v) = sanitizePieceInput v.
Proof.
  unfold sanitizePieceInput. pose proof (bound_hide MAX_DEPTH v) as H. destruct v; try done.
  cbn [hide] in *. by rewrite H.
Qed.

Lemma sanitize_same v v' : hide v = hide v' -> sanitizePieceInput v = sanitizePieceInput v'.
Proof. intros H. by rewrite <- sanitize_hide, H, sanitize_hide. Qed.

(** C21: the connection of a step reaches neither the daemon nor a reviewer. Two inputs that differ only in
    what they hold under [auth], at any depth, are the same to everything outside the engine: the
    question the engine sends and what comes back to it, and, should a connection arrive at the
    daemon after all, the invocation and with it the record, the digest and the approval card. *)
Theorem connections_stay_inside sha256 piece action v v' : hide v = hide v' ->
  (forall fetch, authorizePieceDispatch piece action v fetch = authorizePieceDispatch piece action v' fetch) /\
  (forall p a j j' ctx, of_json j = v -> of_json j' = v' ->
     pieceAuthorize sha256 (mkPieceRequest p a j) ctx = pieceAuthorize sha256 (mkPieceRequest p a j') ctx).
Proof.
  intros H. apply sanitize_same in H. split.
  - intros fetch. unfold authorizePieceDispatch. by rewrite H.
  - intros p a j j' ctx <- <-. unfold pieceAuthorize, piece_invocation. cbn [pa_piece pa_action pa_input]. by rewrite H.
Qed.

(** ** A governed action runs only when authorised *)

Lemma capability_typed resolved : typed_capability (governedPieceToolDefinition resolved) = inr (rp_category resolved, governedPieceTarget resolved).
Proof.
  unfold typed_capability. destruct (includes (gt_name _) OPAQUE_TOOL_NAMES) eqn:E.
  - apply includes_In in E. cbn in E. by repeat (destruct E as [E|E]; [discriminate E|]).
  - by destruct resolved as [? ? [] ?].
Qed.

Lemma governed_invokes sha256 req ctx resolved : resolveGovernedPieceAction (JStr (pa_piece req)) (JStr (pa_action req)) = Some resolved ->
  pieceAuthorize sha256 req ctx =
  call_invokes (piece_invocation sha256 ctx req (governedPieceToolDefinition resolved) (rp_category resolved) (governedPieceTarget resolved)).
Proof. intros H. unfold pieceAuthorize. by rewrite H, capability_typed. Qed.

Section authorised.
Context (sha256 : string -> string) (i : EffectInvocation).

Definition effect_id_of (r : ResolvedContext) : string :=
  workflowEffectId sha256 (run_id (rc_run r)) (rc_stepName r) (rc_executionPath r) (in_route i).

(** How the dispatch decided at [decided] is authorised: everything clears it at that moment; or its
    record at that moment says that it was dispatched, for this very request, version, tool and
    category; or, where the user was notified in between, for this step of the run as it was asked. *)
Definition Authorised (asked decided : Moment) : Prop :=
  (exists e, effect_cleared sha256 decided.1 decided.2 i e) \/
  (exists r e, resolveEffectContext sha256 (in_context i) (in_piece i) (in_action i) asked.1 = inr r /\
     getWorkflowEffect (effect_id_of r) decided.1 = Some e /\ eff_status e = effect_succeeded /\
     (asked = decided -> effect_changed sha256 e i r = false)).

Lemma dispatch_no_reply w hour r e a now w' reply : dispatch_effect sha256 w hour i r e a now <> (w', effect_replies reply).
Proof. unfold dispatch_effect. destruct (checkpoint _ _ _ _ _) as [[f|m]|]; [done..|]. by destruct (claimWorkflowEffect e w) as [? []]. Qed.

Lemma settle_no_result w hour r e x a now w' v : settle_approval sha256 w hour i r e x a now <> (w', effect_replies (reply_result v)).
Proof.
  unfold settle_approval. cbv zeta. destruct (getRequest (ew_mgr w) x) as [q|]; [|done]. destruct (negb _); [done|].
  destruct (parse _); [|done]. destruct (negb (bool_decide (digest _ _ = _))); [done|]. destruct (_ && _); [done|].
  destruct (req_status q); try done. apply dispatch_no_reply.
Qed.

Lemma pending_no_result w hour r e x y a now w' v : invoke_pending sha256 w hour i r e x y a now <> (w', effect_replies (reply_result v)).
Proof.
  unfold invoke_pending. destruct (policy w hour i _) as [|d]; [done|]. cbv zeta.
  destruct (eff_approvalId (set_reason (reason d) e)) as [z|].
  - destruct (negb _); [done|]. apply settle_no_result.
  - destruct (requiresApproval d); [|apply dispatch_no_reply].
    destruct (negb _); [done|]. by destruct (ask_effect_approval _ _ _ _ _ _ _ _ _) as [|[? ?]].
Qed.

Lemma settled_result e otherwise v : settled_answer e otherwise = Some (effect_replies (reply_result v)) -> eff_status e = effect_succeeded.
Proof. unfold settled_answer. by destruct (eff_status e), (eff_outcome e). Qed.

Lemma begin_result w hour x y a now w' v :
  invoke_begin sha256 w hour i x y a now = (w', effect_replies (reply_result v)) -> Authorised (w, hour) (w, hour).
Proof.
  unfold invoke_begin. destruct (negb _); [done|]. destruct (resolveEffectContext _ _ _ _ _) as [|r] eqn:Er; [done|]. cbv zeta.
  destruct (getWorkflowEffect _ w) as [e|] eqn:Eg.
  - destruct (effect_changed _ _ _ _) eqn:Ec; [done|]. destruct (settled_answer e _) as [s|] eqn:Es; [|intros H; by apply pending_no_result in H].
    intros [= -> ->]. apply settled_result in Es. right. by exists r, e.
  - destruct (in_prepare i); [done|]. intros H. by apply pending_no_result in H.
Qed.

Lemma pending_delivering w hour r e x y a now w' r' e' :
  invoke_pending sha256 w hour i r e x y a now = (w', effect_delivering r' e') -> r' = r /\ eff_id e' = eff_id e.
Proof.
  unfold invoke_pending. destruct (policy w hour i _) as [|d]; [done|]. cbv zeta.
  assert (forall e0 w1 r1 e1, dispatch_effect sha256 w hour i r e0 a now <> (w1, effect_delivering r1 e1)) as Hd.
  { intros e0 w1 r1 e1. unfold dispatch_effect. destruct (checkpoint _ _ _ _ _) as [[f|m]|]; [done..|]. by destruct (claimWorkflowEffect e0 w) as [? []]. }
  destruct (eff_approvalId (set_reason (reason d) e)) as [z|].
  - destruct (negb _); [done|]. unfold settle_approval. cbv zeta. destruct (getRequest (ew_mgr w) z) as [q|]; [|done]. destruct (negb _); [done|].
    destruct (parse _); [|done]. destruct (negb (bool_decide (digest _ _ = _))); [done|]. destruct (_ && _); [done|].
    destruct (req_status q); try done. intros H. by apply Hd in H.
  - destruct (requiresApproval d); [|intros H; by apply Hd in H]. destruct (negb _); [done|]. unfold ask_effect_approval.
    destruct (createRequest _ _ _ _ _) as [[m q]|]; [|done]. destruct (createWaitpoint _ _ _ _) as [|[d' wp]]; [done|]. by intros [= _ <- <-].
Qed.

Lemma begin_delivering w hour x y a now w' r e : invoke_begin sha256 w hour i x y a now = (w', effect_delivering r e) ->
  resolveEffectContext sha256 (in_context i) (in_piece i) (in_action i) w = inr r /\ eff_id e = effect_id_of r /\
  forall e0, getWorkflowEffect (effect_id_of r) w = Some e0 -> effect_changed sha256 e0 i r = false.
Proof.
  unfold invoke_begin. destruct (negb _); [done|]. destruct (resolveEffectContext _ _ _ _ _) as [|r1] eqn:Er; [done|]. cbv zeta.
  destruct (getWorkflowEffect _ w) as [e1|] eqn:Eg.
  - destruct (effect_changed _ _ _ _) eqn:Ec; [done|]. destruct (settled_answer e1 _) as [s|] eqn:Es.
    + intros [= -> ->]. unfold settled_answer in Es. destruct (eff_status e1), (eff_outcome e1); by simplify_eq.
    + intros [-> ->]%pending_delivering. split_and!; [done|by apply get_row_Some in Eg as [_ Eg]|]. unfold effect_id_of. rewrite Eg. by intros ? [= <-].
  - destruct (in_prepare i); [done|]. intros [-> ->]%pending_delivering. split_and!; [done..|]. unfold effect_id_of. by rewrite Eg.
Qed.

Lemma delivered_result w0 hour0 x y a0 now0 w1 w hour r e a now w' v :
  invoke_begin sha256 w0 hour0 i x y a0 now0 = (w1, effect_delivering r e) ->
  invoke_delivered sha256 w hour i r e a now = (w', effect_replies (reply_result v)) -> Authorised (w0, hour0) (w, hour).
Proof.
  intros (Hr & Hid & Hc)%begin_delivering. unfold invoke_delivered. rewrite Hid. destruct (getWorkflowEffect _ w) as [latest|] eqn:Eg; [|done].
  destruct (settled_answer latest _) as [s|] eqn:Es; [|intros H; by apply settle_no_result in H].
  intros [= -> ->]. apply settled_result in Es. right. exists r, latest. split_and!; try done. intros [= -> ->]. by apply Hc.
Qed.
End authorised.

Lemma answers_authorised sha256 req ctx asked decided resp i : pieceAuthorize sha256 req ctx = call_invokes i ->
  Answers sha256 req ctx asked decided resp -> resp = piece_authorized -> Authorised sha256 i asked decided.
Proof.
  destruct asked as [w0 hour0], decided as [w1 hour1]. intros Hp Ha.
  destruct Ha as [H|i' x y a now w' reply H Hd Hb|i' x y a0 now0 w2 r e a now w' reply H Hb Hd|
    i' x y a now w' r e args w2 a2 now2 w3 reply H Hd Hb Hf|i' x y a0 now0 w2 r0 e0 a now w' r e args w4 a2 now2 w3 reply H Hb Hd Hf];
    intros Hr; rewrite Hp in H; try discriminate H; injection H as <-; destruct reply; try discriminate Hr.
  - rewrite Hd. by eapply begin_result.
  - by eapply delivered_result.
  - rewrite Hd. apply begin_cleared in Hb as [Hb _]. left. by exists e.
  - apply delivered_cleared in Hd as [Hd _]. left. by exists e.
Qed.

Lemma route_spec p a input : authorize_route true (Some (JObj [("piece", JStr p); ("action", JStr a); ("input", input)])) =
  if negb (truthy p) then inl (400, "piece must be a non-empty string")
  else if negb (truthy a) then inl (400, "action must be a non-empty string")
  else match input with JObj fs => inr (mkPieceRequest p a (JObj fs)) | _ => inl (400, "input must be an object") end.
Proof. reflexivity. Qed.

Lemma sanitized_input v : (exists fs, sanitizePieceInput v = JObj fs) \/ (exists s, sanitizePieceInput v = JStr s).
Proof. destruct v; try (left; by eexists); right; by eexists. Qed.

(** The replies on which the engine starts the action: the daemon says the action is not governed, or
    authorised, or it asks for an approval without saying that the piece is governed, which the guard
    lets through and the executor does not park ([guard_trusts_a_missing_flag]). *)
Definition starting_reply (reply : json) : bool :=
  (match jget "governed" reply with Some (JBool false) => true | _ => false end) ||
  jstr_is (jget "dispatch" reply) "authorized" ||
  (jstr_is (jget "dispatch" reply) "approval_required" && has_waitpoint reply &&
   negb (match jget "governed" reply with Some v => truthy_json v | None => false end)).

Lemma jstr_is_unique v a b : jstr_is v a = true -> jstr_is v b = true -> a = b.
Proof. unfold jstr_is. destruct v as [[]|]; try done. intros H1%bool_decide_eq_true H2%bool_decide_eq_true. congruence. Qed.

(** The whole answer of the guard and of the executor for an action of a governed piece. *)
Lemma governed_step p a v fetch : isGovernedPiece (JStr p) = true -> truthy a = true ->
  piece_step (authorizePieceDispatch (JStr p) (JStr a) v fetch) = step_runs <->
  exists status text reply,
    fetch (JObj [("piece", JStr p); ("action", JStr a); ("input", sanitizePieceInput v)]) = fetch_response status text (Some reply) /\
    status_ok status = true /\ is_object reply = true /\ starting_reply reply = true.
Proof.
  intros Hg Ha. unfold authorizePieceDispatch. cbn [as_string]. rewrite Hg, Ha. cbn [negb orb].
  destruct (fetch _) as [m|status text body]; [split; [done|by intros (? & ? & ? & ? & _)]|].
  destruct (status_ok status) eqn:Es; cbn [negb]; [|split; [done|intros (? & ? & ? & [= <- <- _] & H & _); congruence]].
  destruct body as [reply|]; [|split; [done|by intros (? & ? & ? & ? & _)]].
  destruct (is_object reply) eqn:Eo; cbn [negb]; [|split; [done|intros (? & ? & ? & [= _ _ <-] & _ & H & _); congruence]].
  transitivity (starting_reply reply = true).
  2:{ split; [intros H; by exists status, text, reply|by intros (? & ? & ? & [= _ _ <-] & _ & _ & H)]. }
  unfold starting_reply. destruct (match jget "governed" reply with Some (JBool false) => true | _ => false end); [done|]. cbn [orb].
  destruct (jstr_is (jget "dispatch" reply) "approval_required") eqn:Er.
  - destruct (jstr_is (jget "dispatch" reply) "authorized") eqn:Eu; [by pose proof (jstr_is_unique _ _ _ Er Eu)|]. cbn [orb andb].
    destruct (has_waitpoint reply); [|done]. cbn [andb]. unfold piece_step. rewrite Er, andb_true_r.
    by destruct (match jget "governed" reply with Some v0 => truthy_json v0 | None => false end).
  - cbn [andb]. rewrite orb_false_r. destruct (jstr_is _ "authorized"); [|done]. unfold piece_step. by rewrite Er, andb_false_r.
Qed.

(** C20: a verified piece acts only on a reply of the daemon. Whatever the network brings back, a step of a
    governed piece reaches the piece's own code exactly when the engine's question about this piece,
    this action and this input was answered with success and an object that says not governed, or
    authorised, or, a slip of the guard, asks for an approval without saying governed; a failed
    request, another status and any other body park the step or fail it. And where the replies are those
    of the daemon's route and pieceAuthorize, which never says the first or the last for a governed
    piece, the step runs only if at the moment the daemon decided the effect, judged under
    the category of the action, was cleared, or its record already said dispatched: for this very
    request, or, when a notification of the user lay between the question and the decision, for this step. *)
Theorem governed_actions_are_authorised sha256 ctx p a v :
  let question := JObj [("piece", JStr p); ("action", JStr a); ("input", sanitizePieceInput v)] in
  let req := mkPieceRequest p a (sanitizePieceInput v) in
  isGovernedPiece (JStr p) = true -> truthy a = true ->
  (forall fetch, piece_step (authorizePieceDispatch (JStr p) (JStr a) v fetch) = step_runs <->
     exists status text reply, fetch question = fetch_response status text (Some reply) /\
       status_ok status = true /\ is_object reply = true /\ starting_reply reply = true) /\
  (forall daemon asked decided, (forall resp, daemon req = inr resp -> Answers sha256 req ctx asked decided resp) ->
     piece_step (authorizePieceDispatch (JStr p) (JStr a) v (fetch_from daemon)) = step_runs ->
     exists resolved i, resolveGovernedPieceAction (JStr p) (JStr a) = Some resolved /\ pieceAuthorize sha256 req ctx = call_invokes i /\
       daemon req = inr piece_authorized /\ effect_categories i = [rp_category resolved] /\ Authorised sha256 i asked decided).
Proof.
  intros question req Hg Ha. split; [intros fetch; by apply governed_step|]. intros daemon asked decided Hd Hs.
  destruct (resolve_governed p a Hg) as [resolved Er]. pose proof (governed_invokes sha256 req ctx resolved Er) as Hp.
  exists resolved, (piece_invocation sha256 ctx req (governedPieceToolDefinition resolved) (rp_category resolved) (governedPieceTarget resolved)).
  assert (daemon req = inr piece_authorized) as Hr; [|split_and!; [done|done|done|done|by eapply answers_authorised; [|apply Hd|]]].
  assert (truthy p = true) as Hp'. { destruct p; [|done]. vm_compute in Hg. discriminate Hg. }
  apply governed_step in Hs as (status & text & reply & Hf & Hs & _ & Hst); [|done..]. unfold fetch_from in Hf.
  destruct (sanitized_input v) as [[fs Ev]|[s Ev]]; unfold req; rewrite Ev in *.
  all: rewrite route_spec, Hp', Ha in Hf; cbn [negb] in Hf.
  2: { discriminate Hf. }
  destruct (daemon (mkPieceRequest p a (JObj fs))) as [m|resp] eqn:Ed in Hf; rewrite Ed; [discriminate Hf|]. injection Hf as _ _ <-.
  destruct resp as [| |e x w]; [|done|].
  - exfalso. assert (Answers sha256 req ctx asked decided piece_not_governed) as Hx by (apply Hd; unfold req; by rewrite Ev).
    remember piece_not_governed as n eqn:En. destruct Hx; [congruence|by destruct reply..].
  - destruct w; vm_compute in Hst; discriminate Hst.
Qed.

(** ** Small inputs are judged whole *)

Fixpoint fits (levels : nat) (v : json) : bool :=
  match v, levels with
  | JStr s, _ => (String.length s <=? MAX_STRING)%nat
  | JArr l, S levels' => (length l <=? MAX_ARRAY)%nat && forallb (fits levels') l
  | JObj fs, S levels' =>
      (length fs <=? MAX_KEYS)%nat && forallb (fun e : string * json => negb (skipped_key e.1) && fits levels' e.2) fs
  | JArr _, O | JObj _, O => false
  | _, _ => true
  end.

Lemma string_leb_cons x s y t : String.leb (String x s) (String y t) =
  match N.compare (Ascii.N_of_ascii x) (Ascii.N_of_ascii y) with Lt => true | Eq => String.leb s t | Gt => false end.
Proof. unfold String.leb. cbn. change (Ascii.compare x y) with (N.compare (Ascii.N_of_ascii x) (Ascii.N_of_ascii y)). by destruct (N.compare _ _). Qed.

Lemma string_leb_trans a b c : String.leb a b = true -> String.leb b c = true -> String.leb a c = true.
Proof.
  revert b c. induction a as [|x a IH]; intros [|y b] [|z c]; try done. rewrite !string_leb_cons.
  destruct (N.compare_spec (Ascii.N_of_ascii x) (Ascii.N_of_ascii y)) as [Exy|Exy|Exy]; try done;
    destruct (N.compare_spec (Ascii.N_of_ascii y) (Ascii.N_of_ascii z)) as [Eyz|Eyz|Eyz]; try done;
    destruct (N.compare_spec (Ascii.N_of_ascii x) (Ascii.N_of_ascii z)) as [Exz|Exz|Exz]; try done; try lia. apply IH.
Qed.

Lemma sort_by_key_sorted {A} (l : list (string * A)) : StronglySorted (fun a b => key_le a b = true) (sort_by key_le l).
Proof. apply sort_by_sorted; [intros a b; apply String.leb_total|intros a b c; apply string_leb_trans]. Qed.

(** What a small value becomes, and its canonical form. *)
Lemma bound_fits levels : forall v, fits levels v = true -> exists w, bound levels (of_json v) = Some w /\ fits levels w = true /\ canonical w = canonical v.
Proof.
  assert (forall A (f : json -> A) n l (g : json -> json), (forall v, In v l -> bound n (of_json v) = Some (g v)) ->
    map (fun v => bound n v ?? JNull) (map of_json l) = map g l) as Harr.
  { intros A f n l g H. rewrite map_map. apply map_ext_in. intros v Hv. by rewrite H. }
  induction levels as [|levels IH]; intros [| | |s|l|fs]; cbn [fits]; try done; try (intros _; by eexists).
  - intros H. eexists. split; [cbn; unfold bound_string; by rewrite H|done].
  - intros H. eexists. split; [cbn; unfold bound_string; by rewrite H|done].
  - intros [Hl Hf]%andb_true_iff. rewrite forallb_forall in Hf. set (g v := bound levels (of_json v) ?? JNull).
    assert (forall v, In v l -> bound levels (of_json v) = Some (g v) /\ fits levels (g v) = true /\ canonical (g v) = canonical v) as Hg.
    { intros v Hv. unfold g. by destruct (IH v (Hf v Hv)) as (w & -> & ? & ?). }
    exists (JArr (map g l)). split_and!.
    + cbn [of_json bound]. rewrite length_map. apply Nat.leb_le in Hl. rewrite (proj2 (Nat.ltb_ge _ _)) by done. rewrite app_nil_r.
      rewrite firstn_all2 by (by rewrite length_map). rewrite (Harr nat (fun _ => O) levels l g); [done|]. intros v Hv. by apply Hg.
    + cbn [fits]. rewrite length_map, Hl. cbn. rewrite forallb_forall. intros w (v & <- & Hv)%in_map_iff. by apply Hg.
    + cbn [canonical]. rewrite map_map. f_equal. apply map_ext_in. intros v Hv. by apply Hg.
  - intros [Hl Hf]%andb_true_iff. rewrite forallb_forall in Hf. set (g v := bound levels (of_json v) ?? JNull).
    assert (forall e, In e fs -> negb (skipped_key e.1) = true /\ bound levels (of_json e.2) = Some (g e.2) /\
      fits levels (g e.2) = true /\ canonical (g e.2) = canonical e.2) as Hg.
    { intros e He. destruct (andb_prop _ _ (Hf e He)) as [Hk Hv]. unfold g. by destruct (IH e.2 Hv) as (w & -> & ? & ?). }
    exists (JObj (map (fun e => (e.1, g e.2)) (sort_by key_le fs))). split_and!.
    + cbn [of_json bound]. rewrite length_map. apply Nat.leb_le in Hl. rewrite (proj2 (Nat.ltb_ge _ _)) by done.
      rewrite (sort_by_map _ key_le key_le) by done. rewrite firstn_all2 by (by rewrite length_map, sort_by_length).
      do 2 f_equal. assert (forall e, In e (sort_by key_le fs) -> In e fs) as Hin by (intros e; apply sort_by_In). revert Hin.
      induction (sort_by key_le fs) as [|e es IHe]; intros Hin; [done|]. cbn [map List.filter fst snd].
      destruct (Hg e (Hin e (or_introl eq_refl))) as (-> & Hb & _). cbn [omap list_omap fst snd]. rewrite Hb. cbn. f_equal. apply IHe. intros x Hx. apply Hin. by right.
    + cbn [fits]. rewrite length_map, sort_by_length, Hl. cbn. rewrite forallb_forall. intros w (e & <- & He)%in_map_iff. cbn.
      apply sort_by_In in He. destruct (Hg e He) as (-> & _ & -> & _). done.
    + cbn [canonical]. f_equal. rewrite map_map. cbn [fst snd].
      rewrite (map_ext_in _ (fun kv => (kv.1, canonical kv.2))) by (intros e He%sort_by_In; f_equal; by apply Hg).
      rewrite <- (sort_by_map (fun kv : string * json => (kv.1, canonical kv.2)) key_le key_le) by done. apply sort_by_id, sort_by_key_sorted.
Qed.

(** A small input is reviewed as it is. When no text, list, object or nesting of it passes the bounds and it
    holds no connection, what the engine sends, what the daemon records, digests and shows is the
    input itself, up to the order of keys. *)
Theorem small_inputs_are_judged_whole fs : fits MAX_DEPTH (JObj fs) = true ->
  let sent := sanitizePieceInput (of_json (JObj fs)) in
  canonical sent = canonical (JObj fs) /\ canonical (sanitizePieceInput (of_json sent)) = canonical (JObj fs).
Proof.
  intros H. destruct (bound_fits MAX_DEPTH (JObj fs) H) as (w & Hw & Hf & Hc). cbv zeta.
  assert (forall gs, sanitizePieceInput (of_json (JObj gs)) = bound MAX_DEPTH (of_json (JObj gs)) ?? JNull) as Hs by done.
  assert (sanitizePieceInput (of_json (JObj fs)) = w) as -> by (by rewrite Hs, Hw). split; [done|].
  destruct w as [| | | | |gs]; try (destruct (bound_fits MAX_DEPTH (JObj fs) H) as (w' & Hw' & _ & Hc'); cbn [canonical] in Hc; discriminate Hc).
  destruct (bound_fits MAX_DEPTH (JObj gs) Hf) as (w2 & Hw2 & _ & Hc2). rewrite Hs, Hw2. cbn. by rewrite Hc2.
Qed.

(** ** What the projection hides *)

Lemma stake_app_all a b : stake (String.length a) (a +:+ b) = a.
Proof. induction a as [|c a IH]; cbn; [by destruct b|by rewrite IH]. Qed.

Lemma bound_string_tail a t1 t2 : String.length a = MAX_STRING -> String.length t1 = String.length t2 -> bound_string (a +:+ t1) = bound_string (a +:+ t2).
Proof.
  intros Ha Ht. unfold bound_string. rewrite !string_app_length, Ht. destruct (_ <=? _)%nat eqn:E.
  - apply Nat.leb_le in E. destruct t1, t2; cbn in *; try lia. done.
  - by rewrite <- Ha, !stake_app_all.
Qed.

(** The digest is of the projection: after the 512th character a text of the same length may change
    freely, in the body of a mail for instance, and the invocation, so the recorded request, its
    digest and the card, is the one that was approved. *)
Theorem changes_past_the_bound_are_not_seen sha256 p a ctx k text tail1 tail2 :
  String.length text = MAX_STRING -> String.length tail1 = String.length tail2 ->
  pieceAuthorize sha256 (mkPieceRequest p a (JObj [(k, JStr (text +:+ tail1))])) ctx =
  pieceAuthorize sha256 (mkPieceRequest p a (JObj [(k, JStr (text +:+ tail2))])) ctx.
Proof.
  intros Ht Hl. assert (sanitizePieceInput (of_json (JObj [(k, JStr (text +:+ tail1))])) =
    sanitizePieceInput (of_json (JObj [(k, JStr (text +:+ tail2))]))) as E.
  { cbn. destruct (skipped_key k); [done|]. cbn. by rewrite (bound_string_tail text tail1 tail2). }
  unfold pieceAuthorize, piece_invocation. cbn [pa_piece pa_action pa_input]. by rewrite E.
Qed.

(** The daemon bounds what the engine has bounded: it counts the characters, items and fields that the
    first projection left, so what the record and the card say is missing is not what is missing. *)
Definition long_text (n : nat) : string := String.string_of_list_ascii (repeat "y"%char n).
Definition recorded_input (v : pval) : json := sanitizePieceInput (of_json (sanitizePieceInput v)).

Example omissions_are_understated :
  sanitizePieceInput (PObj [("body", PStr (long_text 900))]) = JObj [("body", JStr (long_text 512 +:+ "... [388 more characters]"))] /\
  recorded_input (PObj [("body", PStr (long_text 900))]) = JObj [("body", JStr (long_text 512 +:+ "... [25 more characters]"))] /\
  recorded_input (PObj [("to", PArr (repeat (PNum 1) 100))]) = JObj [("to", JArr (repeat (JNum 1) 25 ++ [JStr "[1 more items]"]))] /\
  jget "omittedFields" (sanitizePieceInput (PObj (map (fun n => (show_nat n, PNull)) (seq 0 60)))) = Some (JNum 20) /\
  jget "omittedFields" (recorded_input (PObj (map (fun n => (show_nat n, PNull)) (seq 0 60)))) = Some (JNum 1).
Proof. split_and!; vm_compute; reflexivity. Qed.

(** A reply that asks for an approval but does not say that the piece is governed starts the action. *)
Example guard_trusts_a_missing_flag :
  let reply := JObj [("dispatch", JStr "approval_required"); ("approval", JObj [("waitpointId", JStr "wp")])] in
  piece_step (authorizePieceDispatch (JStr "@activepieces/piece-gmail") (JStr "send_email") (PObj [])
    (fun _ => fetch_response 200 EmptyString (Some reply))) = step_runs.
Proof. vm_compute. reflexivity. Qed.

(** ** A step that sends a mail *)

Definition GMAIL : string := "@activepieces/piece-gmail".
Definition mail_version : FlowVersion :=
  mkVersion "v1" "flow" "Flow" (JObj [("name", JStr "trigger"); ("type", JStr "EMPTY"); ("nextAction",
    JObj [("name", JStr "step_1"); ("type", JStr "PIECE");
          ("settings", JObj [("pieceName", JStr GMAIL); ("actionName", JStr "gmail_search_mail")])])]).
Definition mail_world : EffectWorld :=
  mkEffectWorld (ew_db demo_effect_world) [mail_version] [] (ew_mgr demo_effect_world) [] normal (ew_config demo_effect_world) true true.
Definition mail_input (token : string) : pval :=
  PObj [("subject", PStr "invoice"); ("auth", PObj [("access_token", PStr token)])].
Definition mail_request : PieceAuthorizeRequest := mkPieceRequest GMAIL "gmail_search_mail" (sanitizePieceInput (mail_input "secret")).

Lemma connections_stay_inside_witness :
  let fetch body := fetch_response 200 EmptyString (Some (response_json piece_authorized)) in
  authorizePieceDispatch (JStr GMAIL) (JStr "gmail_search_mail") (mail_input "secret") fetch =
  authorizePieceDispatch (JStr GMAIL) (JStr "gmail_search_mail") (mail_input "another") fetch.
Proof.
  intros fetch. destruct (connections_stay_inside demo_hash (JStr GMAIL) (JStr "gmail_search_mail") (mail_input "secret") (mail_input "another")
    ltac:(vm_compute; reflexivity)) as [H _]. apply (H fetch).
Defined.

Definition search_call : EffectInvocation :=
  match pieceAuthorize demo_hash mail_request agent_ctx with call_invokes i => i | _ => call_invocation agent_ctx worker_call end.
Definition search_begun : EffectWorld * InvokeStep := invoke_begin demo_hash mail_world 9 search_call "appr" "wp" "a1" 1.
Definition search_finished : EffectWorld * InvokeStep :=
  let d := step_record search_begun.2 in invoke_finish search_begun.1 search_call d.1 d.2 authorized_result "a2" 2.

(** The daemon that has begun and finished the dispatch of the search answers it, and nothing else. *)
Definition search_daemon (req : PieceAuthorizeRequest) : string + PieceAuthorizeResponse :=
  if bool_decide (pa_action req = "gmail_search_mail")
  then match search_finished.2 with effect_replies reply => inr (piece_response reply) | _ => inl "no" end else inl "no".

Lemma search_answers resp : search_daemon mail_request = inr resp ->
  Answers demo_hash mail_request agent_ctx (mail_world, 9) (mail_world, 9) resp.
Proof.
  unfold search_daemon. destruct search_finished.2 as [|reply| |] eqn:E; try (vm_compute; discriminate).
  replace (bool_decide _) with true by (vm_compute; reflexivity). intros [= <-].
  destruct search_begun.2 as [| | |r e args] eqn:Eb; try (vm_compute in Eb; discriminate Eb).
  eapply (answers_dispatched demo_hash mail_request agent_ctx (mail_world, 9) (mail_world, 9) search_call "appr" "wp" "a1" 1
    search_begun.1 r e args search_begun.1 "a2" 2 search_finished.1); [|done| |].
  - destruct (resolve_governed GMAIL "gmail_search_mail" ltac:(vm_compute; reflexivity)) as [resolved Er]. unfold search_call.
    by rewrite (governed_invokes demo_hash mail_request agent_ctx resolved Er).
  - rewrite <- Eb. apply surjective_pairing.
  - rewrite <- E. unfold search_finished. rewrite Eb. apply surjective_pairing.
Qed.

Lemma governed_actions_are_authorised_witness :
  piece_step (authorizePieceDispatch (JStr GMAIL) (JStr "gmail_search_mail") (mail_input "secret") (fetch_from search_daemon)) = step_runs /\
  exists resolved i, resolveGovernedPieceAction (JStr GMAIL) (JStr "gmail_search_mail") = Some resolved /\
    pieceAuthorize demo_hash mail_request agent_ctx = call_invokes i /\ effect_categories i = [rp_category resolved] /\
    Authorised demo_hash i (mail_world, 9) (mail_world, 9).
Proof.
  assert (piece_step (authorizePieceDispatch (JStr GMAIL) (JStr "gmail_search_mail") (mail_input "secret") (fetch_from search_daemon)) = step_runs) as Hs
    by (vm_compute; reflexivity).
  split; [exact Hs|].
  destruct (governed_actions_are_authorised demo_hash agent_ctx GMAIL "gmail_search_mail" (mail_input "secret")) as [_ H].
  - vm_compute. reflexivity.
  - reflexivity.
  - destruct (H search_daemon (mail_world, 9) (mail_world, 9) search_answers Hs) as (r & i & H1 & H2 & _ & H4 & H5). by exists r, i.
Defined.
